(* ===== verification/_CoqProject ===== *)
-Q . S2P
Prelude.v
Amount.v
Common.v
Factory.v
OrderedMap.v
LevelRoot.v
Types.v
Context.v
ContextSpec.v
ContextFacts.v
Vault.v
VaultSpec.v
VaultLocked.v
Chain.v
ChainSpec.v
SignatureSpec.v
VaultProcess.v
RankTable.v
Consensus.v
ConsensusSpec.v
Queue.v
LinkedQueue.v
ExpireQueue.v
TxPool.v
TxPoolSpec.v
Registry.v
Formulator.v
FormulatorTx.v
FormulatorReward.v
FormulatorSpec.v
FormulatorPay.v
Payment.v
PaymentSpec.v
Gateway.v
GatewaySpec.v
Pile.v
PileDB.v
BlockCodec.v
StoreKey.v
Store.v
StoreSpec.v
StoreBlock.v
StoreChain.v
Recovery.v
RequestTimer.v
Observer.v
ObserverSafe.v
ObserverInv.v
ObserverSpec.v
FormulatorNode.v
FormulatorNodeSpec.v
Packet.v
NodeMesh.v
PofMesh.v
PeerStorage.v
PeerPool.v
P2PNode.v
P2PNodeSpec.v
TextForms.v
Json.v
JsonPrint.v
Backends.v
ChainInit.v
