(* ===== verification/Prelude.v ===== *)
(** * FLETA testnet: a verification of its core

    FLETA is a blockchain node written in Go.  A [Chain] ([core/chain]) runs a
    list of [Process]es ([process/...]) over a state, block by block: each
    transaction of a block is validated and executed by the process it belongs
    to, on a [Context] ([core/types]) that collects the changes of the block in a
    stack of layers over a loader (the store, or the previous context); when the
    hash of the context is the one the block states, the top layer is stored.
    The vault process ([process/vault]) keeps the balances; the admin process
    ([process/admin]) says who may change policies.  Amounts, addresses, hashes,
    type numbers and ordered maps ([common], [encoding], [core/types/map_*.go])
    are what all of these are made of.

    ** Files and what they model

    - [Prelude]: Go's bytes, fixed-width integers and their byte encodings, byte
      string comparison, [sort.Search]; errors and results ([res]: a value, an
      error or a panic); the monad [ST] of code that runs on a mutable state and
      may fail, where a failing call keeps the writes it made; notations,
      tactics and hint databases.
    - [Amount] ([common/amount]): 18-digit fixed point amounts over [big.Int];
      printing, parsing, byte form.
    - [Common] ([common/address.go], [publichash.go], [util_verify.go],
      [common/hash], [common/util]): addresses and their text, hashes, the
      majority check of signatures.
    - [Factory] ([common/factory], [core/types/register.go],
      [encoding/factory.go]): the numbering of Go types.
    - [OrderedMap] ([core/types/map_*.go], [util.go]): the sixteen ordered map
      types, as instances of one definition, with their encoders.
    - [LevelRoot] ([core/chain/util.go]): the hash tree of a block.
    - [Types] ([core/types/util.go], [txin.go], [txout.go], [utxo.go],
      [process/vault/acc_*.go], [process/formulator/acc_formulator.go]):
      identifiers, unspent outputs, accounts and their signature rules.
    - [Context] ([core/types/context*.go], [loader.go]): the layered context, one
      definition per operation, with cache, snapshots, commit, revert, hash and
      chaining of contexts.
    - [ContextSpec]: the interface [ContextOps] the processes are written
      against, the abstract machine that specifies it, the simulation between
      the two and the refinement theorem.
    - [ContextFacts]: consequences of the simulation for snapshots, commits and
      chained contexts; places where the code departs from it.
    - [Vault] ([process/admin], [process/vault]): balances, fees, locked
      balances, policy, hooks, and the six transactions, over [ContextOps].
    - [VaultSpec], [VaultLocked]: what a transfer does to the money; the registry
      of locked balances and its release.
    - [Chain] ([core/chain/chain.go], [block_creator.go], [util.go]): the registry
      of processes, header checks, the parallel signature check, execution,
      creation and connection of blocks, over the interfaces [ProcessI] and
      [TransactionI].
    - [ChainSpec]: the theorems of the chain, for any processes whose
      transactions satisfy the laws [TxLaws].
    - [SignatureSpec]: the goroutines of the signature check against the check of one
      transaction after the other.
    - [VaultProcess]: the vault as an instance of those interfaces and laws, and
      runs of a small node.
    - [RankTable] ([pof/rank*.go]), [Consensus] ([pof/consensus*.go],
      [core/types/block_sign.go]), [ConsensusSpec]: whose turn it is to make a
      block, which signatures a block needs, and the state the consensus keeps.
    - [Queue], [LinkedQueue], [ExpireQueue] ([common/queue]): the paged and the
      sorted queue, the linked queue on a heap of nodes, the expire queue with the
      goroutines of its groups.
    - [TxPool], [TxPoolSpec] ([core/txpool]): the transaction pool over the
      interfaces of its queues, and its specification.
    - [Registry]: the numbered registries that the processes store, once for all.
    - [Formulator], [FormulatorTx], [FormulatorReward], [FormulatorSpec],
      [FormulatorPay] ([process/formulator]): stakes, the fifteen transactions, the
      rewards of a block, and what is paid.
    - [Payment], [PaymentSpec] ([process/payment]) and [Gateway], [GatewaySpec]
      ([process/gateway]): requests, subscriptions and bills; tokens that come in
      and go out.
    - [Pile], [PileDB] ([core/pile]): the append-only block files, at the level of
      their bytes and writes.
    - [BlockCodec] ([core/types/block.go], [header.go]), [StoreKey]
      ([core/chain/util_key.go]), [Store], [StoreSpec], [StoreBlock], [StoreChain]
      ([core/chain/store.go]): the binary form of a block, the keys and the store.
    - [Recovery] ([cmd/node/main.go]): a block that is in the log and not in the database
      is connected again when the node starts.
    - [RequestTimer] ([service/p2p/requesttimer.go]), [Observer]
      ([pof/observer_node*.go], [vote_round.go], [messages.go]): the observer node
      as a state machine over the interface [ChainI] of the chain.
    - [ObserverSafe], [ObserverInv], [ObserverSpec]: the rules to reason about its
      steps, the invariant that every handler and timer keeps, and the theorems.
    - [FormulatorNode], [FormulatorNodeSpec] ([pof/formulator_node*.go]): the node that
      makes blocks, over the interfaces [ChainI], [CreatorI] and [PoolI].
    - [Packet] ([service/p2p/util.go], [tcp_peer.go], [websocket_peer.go],
      [copyreader.go], [core/types/hashed_type.go]): packets, pings and peers on a stream
      that arrives in pieces.
    - [NodeMesh] ([service/p2p/node_mesh.go]), [PofMesh] ([pof/observer_mesh.go],
      [formulator_mesh.go], [observer_formulator_service.go]): the tables of peers, who
      gets a message, the handshakes, and the interleavings of connections.
    - [PeerStorage], [PeerPool] ([service/p2p/storage], [nodepoolmanage],
      [peermessage]): which peers a node keeps and asks for more.
    - [P2PNode], [P2PNodeSpec] ([service/p2p/node*.go]): the node without a vote.
    - [TextForms], [Json], [JsonPrint] ([common/hash/hash256.go], [publickey.go],
      [signature.go], the [MarshalJSON] methods of [core/types] and [process]): texts,
      their parsers, and the JSON printers with a reader of JSON.
    - [Backends] ([core/backend]): the drivers of the databases as instances of the
      interface of the store.
    - [ChainInit] ([core/chain/chain.go]): [Init] and [Close] of a chain.

    How they interact: the nodes drive a chain through [ChainI]; the chain calls
    processes through [ProcessI] and [TransactionI] on a context ([ContextOps]),
    whose loader is the store; a connected block goes to the store, which writes the
    block to the piles and the changes of its context to the key-value backend.

    ** What the theorems show

    - Refinement: a client of the context cannot tell it from a machine whose
      state is the values a reader sees; the store answers, after a block, as the
      context of the block did; each ordered map is a finite map; the pool, the
      stakes and the payments refine maps and lists; blocks made by the creator
      execute on the validator and reach the creator's state.
    - Safety of the chain: only blocks that pass every check are stored, all of whose
      transactions ran unless one was out of sequence, which ends the execution; the
      level root binds the transactions when the buffers it hashes do not collide; the
      store keeps the chain; a crash while a block is written to its file, after any
      byte, loses at most that block, and one between the log and the database is
      repaired by executing the block again; a chain that was loaded has the genesis
      of its application.
    - Agreement: blocks the consensus accepts share an observer; observers that set
      up a round agree; an observer dereferences nil, whatever it receives, at one
      place only, where it reads the round twice without its lock, and it connects blocks with signatures that the consensus accepts; the blocks a
      formulator makes form a chain, and the first passes the checks of the observers.
    - Money: transfers conserve the total unless the block emptied the receiver before; locked amounts are paid out once;
      rewards stay within their budget; what is dissolved is paid exactly; tokens
      come in once; a payment request is answered once.
    - Progress: every formulator gets its turn; a node that is behind catches up;
      expired items are handed out group by group under every interleaving; the
      recovery from a crash and the displacements of the peer storage end.
    - Network: what a peer sends is what the other reads, however the bytes arrive; a
      table of peers has open connections only; the pool of peers never panics.
    - Round trips, types and bounds: amounts, blocks, packets, JSON; decoded blocks hold
      values of registered types; the parallel signature check returns what the sequential
      one does in every order of its goroutines, on up to 16 processors; reopening the block files; iterating over a prefix.
    - Departures: theorems and lemmas named after what goes wrong (for instance
      [unchecked_block_stops_the_formulator], [observer_signs_two_blocks],
      [reconnect_is_cut]) state behaviour of the code that its callers do not expect,
      with the conditions under which it happens.

    ** Conventions

    Machine integers are [Z] with the wrap of their width written out ([u8],
    [u16], [u32], [u64], [i64]).  A [[]byte] or [string] is [list Z].  A Go map
    is a [gmap]; where the code ranges over a map, the order is a parameter
    ([RangeOrder], [vault_AfterExecuteTransactions]) or does not matter.
    Goroutines that write disjoint slots and cannot fail are the list of their
    results ([buildLevel]); those that share state or race for an error are steps, in
    an order that is a parameter ([validateTransactionSignatures], the nodes).

    Fuel: [sort_Search] has the length of its range, which the bisection cannot
    exceed; [pop_until] and the loops of the pool ([remove_loop], [next_turn],
    [next_number], [pop_loop]) have a bound computed from the queues, shown
    sufficient where the specification is proved; [iter_blocks] needs one more than
    the missing blocks, which the recovery shows enough; [connect_queued] has 101, the limit of the code, and the loops over
    queued blocks of the other nodes have 11, again the limit of the code;
    [insertSort] has a bound that is shown to be enough; [fill_loop] has one more than
    the bytes that are missing, [skip_pings] the bytes that are there, and the reader of
    JSON the length of the text, all shown sufficient.  All other loops recurse on the
    data or on a count the code has itself computed.  A loop over uint32 heights up to
    2^32-1 does not end in the code; [for_u32] stands for that with a panic.

    Parameters (code that is not in the repository, with its documented
    behaviour as laws): SHA-256 ([Sha256]), base58 ([Base58], [Base58Text]), recovery of
    public keys ([Ecrecover]) and signing, the LLRB tree ([LLRB]), [msgpack] ([Coder],
    [ArrayLenCoder], [TypedValue], [DecodesInto], [Marshaler], [Unmarshaler],
    [TxEncoder]), gzip, the databases ([OrderedDB]), the order in which a map is visited
    ([RangeOrder], [MapRange]), which writes to a connection succeed.  The witnesses use
    concrete instances of them.  Interfaces between components, with the laws a client
    relies on, are [ContextOps], [ProcessI], [TransactionI] ([TxLaws]), [StoreBackend]
    ([BackendLaws]), [ChainI] ([ChainGrows]), [CreatorI] ([CreatorLaws]), [PoolI],
    [Fifo], [Keyed] and [Prioritized].  Errors of the operating system on the files of
    [Pile] are not modelled, except that a crash may stop a write after any byte.

    ** Not modelled

    [Dump] and log output (text for people); the registration of types and API methods;
    the API server and the commands with their configuration (input and output, and a
    vendored parser), but for the function that connects missing blocks; the genesis tables of the applications (data); dialling, listening
    and write deadlines of sockets; the caches of packets; [temp] of the formulator node,
    which signs test transactions at start-up; the list of banned peers and [peerMap] of
    the peer storage, which nothing calls; opening, closing and shrinking of databases;
    the vendored database, SHA-3 and curve; key generation. *)

From stdpp Require Import base gmap list sorting strings.
From Stdlib Require Import ZArith Lia.
#[global] Open Scope Z_scope.

(** ** Hint databases of the development *)

Create HintDb fleta.
Create Rewrite HintDb bytes.

(** ** Bytes and machine integers

    A Go [[]byte] or [string] is a list of integers, each one octet.  Unsigned
    integers of the program are [Z] values kept in range by the [uN] wraps. *)

Abbreviation bytes := (list Z).

Definition u8 (z : Z) : Z := z mod 2 ^ 8.
Definition u16 (z : Z) : Z := z mod 2 ^ 16.
Definition u32 (z : Z) : Z := z mod 2 ^ 32.
Definition u64 (z : Z) : Z := z mod 2 ^ 64.

(** Two's complement reading of a 64-bit pattern: Go's [int64(x)]. *)
Definition i64 (z : Z) : Z := (z + 2 ^ 63) mod 2 ^ 64 - 2 ^ 63.

Definition byte_ok (b : Z) : Prop := 0 <= b < 256.
Definition bytes_ok (bs : bytes) : Prop := Forall byte_ok bs.

(** ** Fixed-width integer encodings (Go's [encoding/binary]) *)

Fixpoint le_bytes (n : nat) (v : Z) : bytes :=
  match n with
  | O => []
  | S n => v mod 256 :: le_bytes n (v / 256)
  end.

Fixpoint le_value (bs : bytes) : Z :=
  match bs with
  | [] => 0
  | b :: bs => b + 256 * le_value bs
  end.

Definition be_bytes (n : nat) (v : Z) : bytes := rev (le_bytes n v).
Definition be_value (bs : bytes) : Z := le_value (rev bs).

(** Go's [copy(dst[:], src)] into a zeroed array of [n] bytes. *)
Definition copy_into (n : nat) (src : bytes) : bytes :=
  take n src ++ replicate (n - length src) 0.

(** Go's conversion [string(x)] of a [uint8] [x]: the UTF-8 encoding of the
    code point [x], one byte below 128 and two bytes above. *)
Definition rune_string (x : Z) : bytes :=
  if x <? 128 then [x] else [192 + x / 64; 128 + x mod 64].

(** The octets of a Rocq string, for literals of the source. *)
Definition str (s : string) : bytes :=
  (fun c => Z.of_nat (Ascii.nat_of_ascii c)) <$> String.list_ascii_of_string s.

(** Lexicographic order of [bytes.Compare] and [strings.Compare]. *)
Fixpoint bytes_cmp (a b : bytes) : comparison :=
  match a, b with
  | [], [] => Eq
  | [], _ :: _ => Lt
  | _ :: _, [] => Gt
  | x :: a, y :: b => match x ?= y with Eq => bytes_cmp a b | c => c end
  end.

Definition bytes_lt (a b : bytes) : bool :=
  match bytes_cmp a b with Lt => true | _ => false end.

(** ** Results: what a Go call leaves behind

    [Ok] is a normal return, [Err] a non-nil [error], [Panic] a run-time panic
    (failed type assertion, nil dereference, index out of range, explicit
    [panic]).  Go errors are compared by identity, so an error is the package
    that declares it together with its text. *)

Record error := mkError { err_pkg : string; err_msg : string }.

#[global] Instance error_eq_dec : EqDecision error.
Proof. solve_decision. Defined.

Inductive res (A : Type) : Type :=
  | Ok (a : A)
  | Err (e : error)
  | Panic (why : string).
Arguments Ok {A} a.
Arguments Err {A} e.
Arguments Panic {A} why.

#[global] Instance res_eq_dec `{EqDecision A} : EqDecision (res A).
Proof. solve_decision. Defined.

Definition res_bind {A B} (m : res A) (k : A -> res B) : res B :=
  match m with Ok a => k a | Err e => Err e | Panic w => Panic w end.

Definition is_ok {A} (r : res A) : bool := match r with Ok _ => true | _ => false end.

(** ** The state and error monad

    A handler of the program runs on a mutable state [S]; an error return does
    not undo the writes made before it, so the state is part of every outcome. *)

Definition ST (S A : Type) : Type := S -> res A * S.

Section StateMonad.
Context {S : Type}.

Definition ret {A} (a : A) : ST S A := fun s => (Ok a, s).
Definition fail {A} (e : error) : ST S A := fun s => (Err e, s).
Definition throw {A} (w : string) : ST S A := fun s => (Panic w, s).

Definition bind {A B} (m : ST S A) (k : A -> ST S B) : ST S B := fun s =>
  match m s with
  | (Ok a, s') => k a s'
  | (Err e, s') => (Err e, s')
  | (Panic w, s') => (Panic w, s')
  end.

(** Go's [if err := m(); err != nil { ... } else { ... }]: the error becomes a
    value, a panic still unwinds. *)
Definition attempt {A} (m : ST S A) : ST S (error + A) := fun s =>
  match m s with
  | (Ok a, s') => (Ok (inr a), s')
  | (Err e, s') => (Ok (inl e), s')
  | (Panic w, s') => (Panic w, s')
  end.

Definition lift {A} (r : res A) : ST S A := fun s => (r, s).
Definition gets {A} (f : S -> A) : ST S A := fun s => (Ok (f s), s).
Definition modify (f : S -> S) : ST S unit := fun s => (Ok tt, f s).
Definition guard (b : bool) (e : error) : ST S unit := if b then ret tt else fail e.

(** [for _, x := range l { body x }] with early return on error. *)
Fixpoint for_each {A} (l : list A) (body : A -> ST S unit) : ST S unit :=
  match l with
  | [] => ret tt
  | x :: l => bind (body x) (fun _ => for_each l body)
  end.

(** [for i := lo; i <= hi; i++] with [i] of type uint32: when [hi] is the largest
    number the loop does not end, which the panic stands for. *)
Definition for_u32 (lo hi : Z) (body : Z -> ST S unit) : ST S unit :=
  bind (for_each (seqZ lo (hi + 1 - lo)) body) (fun _ => if hi =? 2 ^ 32 - 1 then throw "endless loop" else ret tt).
End StateMonad.

(** Running a sequence step by step. *)
Lemma bind_ok {S A B} (m : ST S A) (k : A -> ST S B) s x s' : m s = (Ok x, s') -> bind m k s = k x s'.
Proof. unfold bind. by intros ->. Qed.
Lemma bind_err {S A B} (m : ST S A) (k : A -> ST S B) s e s' : m s = (Err e, s') -> bind m k s = (Err e, s').
Proof. unfold bind. by intros ->. Qed.
Lemma bind_panic {S A B} (m : ST S A) (k : A -> ST S B) s w s' : m s = (Panic w, s') -> bind m k s = (Panic w, s').
Proof. unfold bind. by intros ->. Qed.
Lemma bind_ok_inv {S A B} (m : ST S A) (k : A -> ST S B) s x s' :
  bind m k s = (Ok x, s') -> exists y s1, m s = (Ok y, s1) /\ k y s1 = (Ok x, s').
Proof. unfold bind. destruct (m s) as [[y|e|w] s1]; [eauto | done..]. Qed.
Lemma attempt_ok {S A} (m : ST S A) s x s' : m s = (Ok x, s') -> attempt m s = (Ok (inr x), s').
Proof. unfold attempt. by intros ->. Qed.
Lemma attempt_err {S A} (m : ST S A) s e s' : m s = (Err e, s') -> attempt m s = (Ok (inl e), s').
Proof. unfold attempt. by intros ->. Qed.
Lemma attempt_panic {S A} (m : ST S A) s w s' : m s = (Panic w, s') -> attempt m s = (Panic w, s').
Proof. unfold attempt. by intros ->. Qed.

Declare Scope go_scope.
Delimit Scope go_scope with go.
#[global] Open Scope go_scope.

Notation "'let!' x ':=' m 'in' k" := (bind m (fun x => k))
  (at level 10, x pattern, m at level 100, k at level 200) : go_scope.
Notation "'let?' x ':=' m 'in' k" := (res_bind m (fun x => k))
  (at level 10, x pattern, m at level 100, k at level 200) : go_scope.
Notation "m ';;;' k" := (bind m (fun _ => k))
  (at level 199, k at level 200, right associativity) : go_scope.

(** ** Generic tactics *)

(** Split on the scrutinee of the first [match] or [if] of the goal. *)
Ltac destr_match :=
  match goal with
  | |- context [match ?x with _ => _ end] =>
      match type of x with
      | sumbool _ _ => destruct x
      | _ => destruct x eqn:?
      end
  end.

(** The same in a hypothesis. *)
Ltac destr_match_in H :=
  match type of H with
  | context [match ?x with _ => _ end] =>
      match type of x with
      | sumbool _ _ => destruct x
      | _ => destruct x eqn:?
      end
  end.

(** Boolean comparisons of the code into propositions. *)
Ltac bool_to_prop :=
  repeat match goal with
  | H : _ && _ = true |- _ => apply andb_true_iff in H; destruct H
  | H : _ || _ = false |- _ => apply orb_false_iff in H; destruct H
  | H : negb _ = true |- _ => apply negb_true_iff in H
  | H : negb _ = false |- _ => apply negb_false_iff in H
  | H : (_ <? _) = true |- _ => apply Z.ltb_lt in H
  | H : (_ <? _) = false |- _ => apply Z.ltb_ge in H
  | H : (_ <=? _) = true |- _ => apply Z.leb_le in H
  | H : (_ <=? _) = false |- _ => apply Z.leb_gt in H
  | H : (_ =? _) = true |- _ => apply Z.eqb_eq in H
  | H : (_ =? _) = false |- _ => apply Z.eqb_neq in H
  | H : bool_decide _ = true |- _ => apply bool_decide_eq_true in H
  | H : bool_decide _ = false |- _ => apply bool_decide_eq_false in H
  end.

(** ** Lemmas on the integer encodings *)

Lemma length_le_bytes n v : length (le_bytes n v) = n.
Proof. revert v; induction n; simpl; auto. Qed.

Lemma length_be_bytes n v : length (be_bytes n v) = n.
Proof. unfold be_bytes. rewrite length_rev. apply length_le_bytes. Qed.

Lemma length_copy_into n bs : length (copy_into n bs) = n.
Proof. unfold copy_into. rewrite length_app, length_take, length_replicate. lia. Qed.

#[export] Hint Rewrite length_le_bytes length_be_bytes length_copy_into : bytes.

Lemma le_bytes_ok n v : bytes_ok (le_bytes n v).
Proof.
  revert v; induction n; simpl; intros; constructor; [|apply IHn].
  apply Z.mod_pos_bound. lia.
Qed.

Lemma be_bytes_ok n v : bytes_ok (be_bytes n v).
Proof. apply Forall_rev, le_bytes_ok. Qed.

Lemma le_value_le_bytes n v : le_value (le_bytes n v) = v mod 256 ^ Z.of_nat n.
Proof.
  revert v; induction n; intros v; [by rewrite Z.mod_1_r|].
  cbn [le_bytes le_value]. rewrite IHn, Nat2Z.inj_succ, Z.pow_succ_r by lia.
  rewrite Z.rem_mul_r; lia.
Qed.

Lemma le_bytes_le_value bs : bytes_ok bs -> le_bytes (length bs) (le_value bs) = bs.
Proof.
  induction 1 as [|b bs Hb _ IH]; [done|]. unfold byte_ok in Hb. cbn [length le_bytes le_value].
  rewrite (Z.mul_comm 256), Z.mod_add, Z.div_add by lia.
  rewrite Z.mod_small, Z.div_small by lia. by rewrite Z.add_0_l, IH.
Qed.

Lemma le_value_bound bs : bytes_ok bs -> 0 <= le_value bs < 256 ^ Z.of_nat (length bs).
Proof.
  induction 1 as [|b bs Hb _ IH]; [done|]. unfold byte_ok in Hb. cbn [length le_value].
  rewrite Nat2Z.inj_succ, Z.pow_succ_r by lia. lia.
Qed.

Lemma be_value_be_bytes n v : be_value (be_bytes n v) = v mod 256 ^ Z.of_nat n.
Proof. unfold be_value, be_bytes. rewrite rev_involutive. apply le_value_le_bytes. Qed.

Lemma be_bytes_be_value bs : bytes_ok bs -> be_bytes (length bs) (be_value bs) = bs.
Proof.
  intros H. unfold be_value, be_bytes. rewrite <- (length_rev bs).
  rewrite le_bytes_le_value by (by apply Forall_rev). apply rev_involutive.
Qed.

Lemma be_value_bound bs : bytes_ok bs -> 0 <= be_value bs < 256 ^ Z.of_nat (length bs).
Proof.
  intros H. unfold be_value. rewrite <- (length_rev bs). by apply le_value_bound, Forall_rev.
Qed.

Lemma be_bytes_inj n v w :
  0 <= v < 256 ^ Z.of_nat n -> 0 <= w < 256 ^ Z.of_nat n ->
  be_bytes n v = be_bytes n w -> v = w.
Proof.
  intros Hv Hw H. apply (f_equal be_value) in H.
  rewrite !be_value_be_bytes, !Z.mod_small in H by done. done.
Qed.

Lemma copy_into_id n bs : length bs = n -> copy_into n bs = bs.
Proof.
  intros <-. unfold copy_into. by rewrite firstn_all, Nat.sub_diag, app_nil_r.
Qed.

(** UTF-8 is prefix-free: two runes followed by anything agree as strings only
    if they agree one by one. *)
Lemma rune_string_inj x y a b :
  byte_ok x -> byte_ok y ->
  rune_string x ++ a = rune_string y ++ b -> x = y /\ a = b.
Proof.
  unfold byte_ok, rune_string. intros Hx Hy.
  pose proof (Z.div_mod x 64). pose proof (Z.div_mod y 64).
  pose proof (Z.mod_pos_bound x 64). pose proof (Z.mod_pos_bound y 64).
  destruct (x <? 128) eqn:Ex, (y <? 128) eqn:Ey; bool_to_prop; cbn; intros Heq;
    injection Heq; intros; subst; split; try done; lia.
Qed.

Lemma app_inj_length {A} (a b c d : list A) :
  length a = length c -> a ++ b = c ++ d -> a = c /\ b = d.
Proof. intros ?. by apply app_inj_1. Qed.

(** ** Lists *)

Lemma filter_all {A} (P : A -> Prop) `{!forall x, Decision (P x)} l :
  Forall P l -> base.filter P l = l.
Proof. induction 1; [done|]. rewrite filter_cons_True by done. by f_equal. Qed.

(** ** The lexicographic order is a strict total order *)

Lemma bytes_cmp_eq a b : bytes_cmp a b = Eq <-> a = b.
Proof.
  revert b; induction a as [|x a IH]; intros [|y b]; simpl; try (split; congruence).
  destruct (Z.compare_spec x y); split; intros; simplify_eq; try lia; f_equal; by apply IH.
Qed.

Lemma bytes_cmp_antisym a b : bytes_cmp b a = CompOpp (bytes_cmp a b).
Proof.
  revert b; induction a as [|x a IH]; intros [|y b]; simpl; auto.
  rewrite (Z.compare_antisym x y). destruct (x ?= y); simpl; auto.
Qed.

Lemma bytes_lt_trans a b c : bytes_lt a b = true -> bytes_lt b c = true -> bytes_lt a c = true.
Proof.
  unfold bytes_lt. revert b c; induction a as [|x a IH]; intros [|y b] [|z c]; simpl; try done.
  destruct (Z.compare_spec x y), (Z.compare_spec y z), (Z.compare_spec x z);
    subst; try done; try lia. apply IH.
Qed.

Lemma bytes_lt_irrefl a : bytes_lt a a = false.
Proof. unfold bytes_lt. by rewrite (proj2 (bytes_cmp_eq a a)). Qed.

Lemma bytes_lt_total a b : bytes_lt a b = true \/ a = b \/ bytes_lt b a = true.
Proof.
  unfold bytes_lt. rewrite (bytes_cmp_antisym a b).
  destruct (bytes_cmp a b) eqn:E; simpl; auto. right; left. by apply bytes_cmp_eq.
Qed.

(** ** Go's [sort.Search]

    Binary search of the least index in [0, n) at which a monotone predicate
    holds, [n] when there is none. *)

Fixpoint search_loop (fuel i j : nat) (f : nat -> bool) : nat :=
  match fuel with
  | O => i
  | S fuel =>
      if (i <? j)%nat then
        let h := ((i + j) / 2)%nat in
        if f h then search_loop fuel i h f else search_loop fuel (S h) j f
      else i
  end.

Definition sort_Search (n : nat) (f : nat -> bool) : nat := search_loop n 0 n f.

Section Search.
Context (f : nat -> bool).
Local Open Scope nat_scope.

Lemma search_loop_spec fuel i j :
  j - i <= fuel -> i <= j ->
  (forall x y, x <= y < j -> f x = true -> f y = true) ->
  i <= search_loop fuel i j f <= j /\
  (forall k, i <= k < search_loop fuel i j f -> f k = false) /\
  (forall k, search_loop fuel i j f <= k < j -> f k = true).
Proof.
  revert i j; induction fuel as [|fuel IH]; intros i j Hf Hij Hmono; cbn [search_loop].
  { repeat split; intros; lia. }
  destruct (Nat.ltb_spec i j) as [Hlt|]; [|repeat split; intros; lia].
  pose proof (Nat.div_mod_eq (i + j) 2). pose proof (Nat.mod_upper_bound (i + j) 2).
  set (h := (i + j) / 2) in *. assert (i <= h < j) by lia.
  destruct (f h) eqn:Eh.
  - destruct (IH i h) as (Hr & Hlo & Hhi); [lia..| |].
    { intros x y ? Hx. apply (Hmono x y); [lia|done]. }
    split; [lia|]. split; [done|]. intros k Hk.
    destruct (decide (k < h)); [apply Hhi; lia|]. apply (Hmono h k); [lia|done].
  - destruct (IH (S h) j) as (Hr & Hlo & Hhi); [lia..|done|].
    split; [lia|]. split; [|done]. intros k Hk.
    destruct (decide (k <= h)) as [Hkh|]; [|apply Hlo; lia].
    destruct (f k) eqn:Ek; [|done]. rewrite (Hmono k h) in Eh; [done|lia|done].
Qed.

(** [sort_Search] returns the least index where a monotone [f] holds. *)
Lemma sort_Search_spec n :
  (forall x y, x <= y < n -> f x = true -> f y = true) ->
  sort_Search n f <= n /\
  (forall k, k < sort_Search n f -> f k = false) /\
  (forall k, sort_Search n f <= k < n -> f k = true).
Proof.
  intros Hmono. unfold sort_Search.
  destruct (search_loop_spec n 0 n) as (? & ? & ?); [lia..|done|].
  repeat split; [lia| |done]. intros; eauto with lia.
Qed.
End Search.
