(* ===== verification/Amount.v ===== *)
(** * Coin amounts

    [common/amount]: arbitrary-precision amounts in units of 10^-18 coin, their
    byte form (the form stored in the chain state) and their decimal text. *)

From stdpp Require Import base gmap list sorting strings.
From Stdlib Require Import ZArith Lia.
From S2P Require Import Prelude.

(** ** Decimal text (Go's [big.Int.String], [strconv.ParseUint]) *)

Definition c_zero : Z := 48.
Definition c_dot : Z := 46.
Definition c_minus : Z := 45.

(** [n] decimal digits of [v], most significant first. *)
Fixpoint fixed (n : nat) (v : Z) : bytes :=
  match n with
  | O => []
  | S n => fixed n (v / 10) ++ [c_zero + v mod 10]
  end.

Fixpoint ndigits_loop (fuel : nat) (v : Z) : nat :=
  match fuel with
  | O => 1
  | S fuel => if v <? 10 then 1 else S (ndigits_loop fuel (v / 10))
  end.

Definition ndigits (v : Z) : nat := ndigits_loop (Z.to_nat (Z.log2 v) + 1) v.

(** [big.Int.String]. *)
Definition big_String (v : Z) : bytes :=
  if v <? 0 then c_minus :: fixed (ndigits (- v)) (- v) else fixed (ndigits v) v.

Definition is_digit (c : Z) : bool := (48 <=? c) && (c <=? 57).

Definition digits_value (s : bytes) : Z :=
  foldl (fun acc c => acc * 10 + (c - c_zero)) 0 s.

(** [strconv.ParseUint(s, 10, 64)]. *)
Definition ParseUint (s : bytes) : option Z :=
  match s with
  | [] => None
  | _ => if forallb is_digit s && (digits_value s <? 2 ^ 64) then Some (digits_value s) else None
  end.

(** [strings.SplitN(s, ".", 2)]: the text before and after the first dot. *)
Fixpoint split_dot (s : bytes) : bytes * option bytes :=
  match s with
  | [] => ([], None)
  | c :: s =>
      if c =? c_dot then ([], Some s)
      else let '(a, b) := split_dot s in (c :: a, b)
  end.

(** [strings.TrimRight(s, "0")]. *)
Fixpoint trim_right_zeros (s : bytes) : bytes :=
  match s with
  | [] => []
  | c :: s =>
      match trim_right_zeros s with
      | [] => if c =? c_zero then [] else [c]
      | t => c :: t
      end
  end.

(** [big.Int.Bytes]: the absolute value, big-endian, without leading zeros. *)
Definition nbytes (v : Z) : nat := if v =? 0 then 0 else S (Z.to_nat (Z.log2 v / 8)).
Definition big_Bytes (v : Z) : bytes := be_bytes (nbytes (Z.abs v)) (Z.abs v).

(** [big.Int.Div]: Euclidean division. *)
Definition big_Div (a b : Z) : Z := if 0 <? b then a / b else - (a / - b).

(** ** The amount type *)

Abbreviation Amount := Z.

Definition FractionalMax : Z := 1000000000000000000.
Definition FractionalCount : nat := 18.

Definition newAmount (value : Z) : Amount := value.

Definition Add (am b : Amount) : Amount := am + b.
Definition Sub (am b : Amount) : Amount := am - b.
Definition Mul (am b : Amount) : Amount := am * b.
Definition MulC (am b : Z) : Amount := am * b.
Definition Div (am b : Amount) : res Amount :=
  if b =? 0 then Panic "division by zero" else Ok (big_Div am b).
Definition DivC (am b : Z) : res Amount :=
  if b =? 0 then Panic "division by zero" else Ok (big_Div am b).
Definition IsZero (am : Amount) : bool := am =? 0.
Definition Less (am b : Amount) : bool := am <? b.
Definition Equal (am b : Amount) : bool := am =? b.
Definition Clone (am : Amount) : Amount := am + 0.

(** [NewCoinAmount(i, f)] takes [uint64] arguments and converts them to
    [int64]. *)
Definition NewCoinAmount (i f : Z) : Amount :=
  if i =? 0 then newAmount (i64 f)
  else if f =? 0 then MulC (newAmount (i64 i)) FractionalMax
  else Add (MulC (newAmount (i64 i)) FractionalMax) (newAmount (i64 f)).

Definition COIN : Amount := NewCoinAmount 1 0.

Definition NewAmountFromBytes (bs : bytes) : Amount := be_value bs.
Definition Bytes (am : Amount) : bytes := big_Bytes am.

(** ** Text of an amount *)

Definition pads : bytes := replicate FractionalCount c_zero.

(** One turn of the loop of [formatFractional]: the state is [pads], [lastZero]
    and [hasNonZero]. *)
Definition formatFractional_step (bs : bytes) (diff : nat)
    (st : bytes * nat * bool) (i : nat) : bytes * nat * bool :=
  let '(pads, lastZero, hasNonZero) := st in
  let pads := <[(diff + i)%nat := nth i bs 0]> pads in
  if negb hasNonZero && negb (nth (length bs - i - 1) bs 0 =? c_zero)
  then (pads, (diff + length bs - i - 1 + 1)%nat, true)
  else (pads, lastZero, hasNonZero).

Definition formatFractional (s : bytes) : res bytes :=
  if (FractionalCount <? length s)%nat then Panic "index out of range" else
  let diff := (FractionalCount - length s)%nat in
  let '(p, lastZero, _) :=
    foldl (formatFractional_step s diff) (pads, 0%nat, false) (seq 0 (length s)) in
  Ok (take lastZero p).

Definition padFractional_step (bs : bytes)
    (st : bytes * nat * bool) (i : nat) : bytes * nat * bool :=
  let '(pads, lastZero, hasNonZero) := st in
  let pads := <[i := nth i bs 0]> pads in
  if negb hasNonZero && negb (nth i bs 0 =? c_zero)
  then (pads, i, true)
  else (pads, lastZero, hasNonZero).

Definition padFractional (s : bytes) : res bytes :=
  if (FractionalCount <? length s)%nat then Panic "index out of range" else
  let '(p, lastZero, _) :=
    foldl (padFractional_step s) (pads, 0%nat, false) (seq 0 (length s)) in
  Ok (drop lastZero p).

(** [Amount.String]. *)
Definition String (am : Amount) : res bytes :=
  if IsZero am then Ok [c_zero] else
  let s := big_String am in
  if (length s <=? FractionalCount)%nat then
    let? f := formatFractional s in Ok ([c_zero; c_dot] ++ f)
  else
    let si := take (length s - FractionalCount) s in
    let sf := trim_right_zeros (drop (length s - FractionalCount) s) in
    match sf with
    | [] => Ok si
    | _ => Ok (si ++ [c_dot] ++ sf)
    end.

Definition ErrInvalidAmountFormat : error := mkError "amount" "invalid amount format".

Definition ParseAmount (s : bytes) : res Amount :=
  match split_dot s with
  | (a, None) =>
      match ParseUint a with
      | None => Err ErrInvalidAmountFormat
      | Some pi => Ok (NewCoinAmount pi 0)
      end
  | (a, Some b) =>
      match ParseUint a with
      | None => Err ErrInvalidAmountFormat
      | Some pi =>
          let? p := padFractional b in
          match ParseUint p with
          | None => Err ErrInvalidAmountFormat
          | Some pf => Ok (NewCoinAmount pi pf)
          end
      end
  end.

(** [Amount.MarshalJSON] and [Amount.UnmarshalJSON]: the text in double quotes. *)
Definition c_quote : Z := 34.

Definition MarshalJSON (am : Amount) : res bytes :=
  let? s := String am in Ok ([c_quote] ++ s ++ [c_quote]).

Definition UnmarshalJSON (bs : bytes) : res Amount :=
  if (length bs <? 3)%nat then Err ErrInvalidAmountFormat
  else if negb (nth 0 bs 0 =? c_quote) || negb (nth (length bs - 1) bs 0 =? c_quote)
  then Err ErrInvalidAmountFormat
  else ParseAmount (take (length bs - 2) (drop 1 bs)).

Example parse_10000 : ParseAmount (str "10000.00121454") = Ok 10000001214540000000000.
Proof. vm_compute. reflexivity. Qed.
Example print_10000 : String 10000001214540000000000 = Ok (str "10000.00121454").
Proof. vm_compute. reflexivity. Qed.
Example print_small : String (COIN / 1000) = Ok (str "0.001").
Proof. vm_compute. reflexivity. Qed.

(** ** Digits *)

Lemma length_fixed n v : length (fixed n v) = n.
Proof. revert v; induction n; intros; simpl; [done|]. rewrite length_app, IHn; simpl; lia. Qed.

Lemma fixed_app m n v : fixed (m + n) v = fixed m (v / 10 ^ Z.of_nat n) ++ fixed n v.
Proof.
  revert v; induction n as [|n IH]; intros v.
  - rewrite Nat.add_0_r. simpl. by rewrite Z.div_1_r, app_nil_r.
  - rewrite Nat.add_succ_r. cbn [fixed]. rewrite IH, <- app_assoc. do 2 f_equal.
    rewrite Nat2Z.inj_succ, Z.pow_succ_r, Z.div_div by lia. done.
Qed.

Lemma fixed_zero n : fixed n 0 = replicate n c_zero.
Proof.
  induction n as [|n IH]; [done|]. cbn [fixed]. rewrite Z.div_0_l, IH by lia.
  rewrite <- replicate_cons_app. done.
Qed.

Lemma fixed_digit n v : forallb is_digit (fixed n v) = true.
Proof.
  revert v; induction n; intros v; [done|]. cbn [fixed]. rewrite forallb_app, IHn. simpl.
  pose proof (Z.mod_pos_bound v 10). unfold is_digit, c_zero. rewrite andb_true_r.
  apply andb_true_iff; split; apply Z.leb_le; lia.
Qed.

Lemma digits_value_acc s acc :
  foldl (fun acc c => acc * 10 + (c - c_zero)) acc s
  = acc * 10 ^ Z.of_nat (length s) + digits_value s.
Proof.
  unfold digits_value. revert acc; induction s as [|c s IH]; intros acc; cbn [foldl length]; [lia|].
  rewrite IH, (IH (0 * 10 + _)). rewrite Nat2Z.inj_succ, Z.pow_succ_r by lia. lia.
Qed.

Lemma digits_value_app a b :
  digits_value (a ++ b) = digits_value a * 10 ^ Z.of_nat (length b) + digits_value b.
Proof. unfold digits_value at 1. by rewrite foldl_app, digits_value_acc. Qed.

Lemma digits_value_fixed n v : digits_value (fixed n v) = v mod 10 ^ Z.of_nat n.
Proof.
  revert v; induction n as [|n IH]; intros v; [by rewrite Z.mod_1_r|].
  cbn [fixed]. rewrite digits_value_app, IH.
  rewrite Nat2Z.inj_succ, Z.pow_succ_r, Z.rem_mul_r by lia.
  unfold digits_value, c_zero. cbn [foldl length]. change (10 ^ Z.of_nat 1) with 10. lia.
Qed.

Lemma digits_value_zeros n : digits_value (replicate n c_zero) = 0.
Proof. rewrite <- fixed_zero, digits_value_fixed. apply Z.mod_0_l. lia. Qed.

Lemma ndigits_loop_spec fuel v :
  0 <= v < 2 ^ Z.of_nat fuel ->
  let n := ndigits_loop fuel v in
  (1 <= n)%nat /\ v < 10 ^ Z.of_nat n /\ (0 < v -> 10 ^ (Z.of_nat n - 1) <= v).
Proof.
  revert v; induction fuel as [|fuel IH]; intros v Hv; cbn [ndigits_loop].
  { simpl in *. repeat split; lia. }
  destruct (Z.ltb_spec v 10); [simpl; repeat split; lia|].
  rewrite Nat2Z.inj_succ, Z.pow_succ_r in Hv by lia.
  destruct (IH (v / 10)) as (H1 & H2 & H3).
  { split; [apply Z.div_pos; lia|]. apply Z.div_lt_upper_bound; lia. }
  split; [lia|]. rewrite Nat2Z.inj_succ, Z.pow_succ_r by lia.
  assert (0 < v / 10) by (apply Z.div_str_pos; lia).
  pose proof (Z.div_mod v 10). pose proof (Z.mod_pos_bound v 10).
  split; [lia|]. intros _. specialize (H3 ltac:(lia)).
  replace (Z.succ _ - 1) with (Z.succ (Z.of_nat (ndigits_loop fuel (v / 10)) - 1)) by lia.
  rewrite Z.pow_succ_r; lia.
Qed.

Lemma ndigits_spec v :
  0 <= v ->
  (1 <= ndigits v)%nat /\ v < 10 ^ Z.of_nat (ndigits v) /\
  (0 < v -> 10 ^ (Z.of_nat (ndigits v) - 1) <= v).
Proof.
  intros Hv. apply ndigits_loop_spec. split; [done|].
  destruct (decide (v = 0)) as [->|]; [simpl; lia|].
  rewrite Nat2Z.inj_add, Z2Nat.id by apply Z.log2_nonneg.
  apply Z.log2_spec. lia.
Qed.

Lemma ndigits_unique v n :
  0 < v -> (1 <= n)%nat -> 10 ^ (Z.of_nat n - 1) <= v < 10 ^ Z.of_nat n -> ndigits v = n.
Proof.
  intros Hv Hn [Hlo Hhi]. destruct (ndigits_spec v) as (H1 & H2 & H3); [lia|].
  specialize (H3 Hv).
  destruct (Nat.lt_trichotomy (ndigits v) n) as [Hlt|[->|Hlt]]; [|done|]; exfalso.
  - assert (10 ^ Z.of_nat (ndigits v) <= 10 ^ (Z.of_nat n - 1)) by (apply Z.pow_le_mono_r; lia). lia.
  - assert (10 ^ Z.of_nat n <= 10 ^ (Z.of_nat (ndigits v) - 1)) by (apply Z.pow_le_mono_r; lia). lia.
Qed.

(** ** Trimming *)

Lemma trim_right_app_ne a c : c <> c_zero -> trim_right_zeros (a ++ [c]) = a ++ [c].
Proof.
  intros Hc. induction a as [|x a IH]; simpl.
  - by rewrite (proj2 (Z.eqb_neq c c_zero)).
  - rewrite IH. by destruct a.
Qed.

Lemma trim_right_app_zeros a n : trim_right_zeros (a ++ replicate n c_zero) = trim_right_zeros a.
Proof.
  induction a as [|x a IH]; simpl; [|by rewrite IH].
  induction n as [|n IH]; simpl; [done|]. by rewrite IH.
Qed.

Lemma trim_right_decomp s : exists k, s = trim_right_zeros s ++ replicate k c_zero.
Proof.
  induction s as [|c s [k IH]]; simpl; [by exists 0%nat|].
  destruct (trim_right_zeros s) as [|t ts] eqn:E.
  - simpl in IH. destruct (Z.eqb_spec c c_zero) as [->|]; [exists (S k)|exists k]; simpl; by rewrite <- IH.
  - exists k. simpl. simpl in IH. by rewrite <- IH.
Qed.

(** ** The two padding loops *)

Lemma insert_mid (a b : bytes) (x y : Z) i :
  i = length a -> <[i := x]> (a ++ y :: b) = a ++ x :: b.
Proof. intros ->. rewrite insert_app_r_alt by lia. by rewrite Nat.sub_diag. Qed.

Lemma take_snoc (s : bytes) k : (k < length s)%nat -> take (S k) s = take k s ++ [nth k s 0].
Proof.
  intros Hk. rewrite (take_S_r _ _ (nth k s 0)); [done|].
  destruct (lookup_lt_is_Some_2 s k Hk) as [x Hx].
  rewrite Hx. f_equal. symmetry. by apply nth_lookup_Some.
Qed.

Lemma pads_step (s z : bytes) d k :
  (k < length s)%nat ->
  <[(length z + k)%nat := nth k s 0]> (z ++ take k s ++ replicate (S d) c_zero)
  = z ++ take (S k) s ++ replicate d c_zero.
Proof.
  intros Hk. rewrite take_snoc by done. rewrite <- !app_assoc. simpl.
  rewrite !(app_assoc z). apply insert_mid. rewrite length_app, length_take. lia.
Qed.

Lemma padFractional_loop s k :
  (k <= length s <= FractionalCount)%nat ->
  exists lz hn,
    foldl (padFractional_step s) (pads, 0%nat, false) (seq 0 k)
    = (take k s ++ replicate (FractionalCount - k) c_zero, lz, hn) /\
    take lz s = replicate lz c_zero /\ (lz = 0 \/ lz < k)%nat /\
    (hn = false -> lz = 0%nat /\ take k s = replicate k c_zero).
Proof.
  induction k as [|k IH]; intros Hk.
  { exists 0%nat, false. repeat split; auto. }
  destruct IH as (lz & hn & Hfold & Hz & Hlt & Hhn); [lia|].
  rewrite seq_S, foldl_app, Hfold. cbn [foldl padFractional_step Nat.add].
  replace (FractionalCount - k)%nat with (S (FractionalCount - S k)) by lia.
  pose proof (pads_step s [] (FractionalCount - S k) k) as Hp.
  cbn [app length Nat.add replicate] in Hp.
  cbn [replicate]. rewrite Hp by lia.
  destruct hn; cbn [negb andb].
  { exists lz, true. repeat split; auto with lia. }
  destruct (Hhn eq_refl) as [-> Hall]. destruct (Z.eqb_spec (nth k s 0) c_zero) as [E|E]; cbn [negb andb].
  - exists 0%nat, false. repeat split; auto. rewrite take_snoc by lia.
    rewrite Hall, E. by rewrite <- replicate_S_end.
  - exists k, true. repeat split; auto with lia.
Qed.

Lemma padFractional_spec s :
  (length s <= FractionalCount)%nat ->
  exists p, padFractional s = Ok p /\ p <> [] /\
    digits_value p = digits_value s * 10 ^ Z.of_nat (FractionalCount - length s) /\
    (forallb is_digit s = true -> forallb is_digit p = true).
Proof.
  intros Hs. unfold padFractional. rewrite (proj2 (Nat.ltb_ge _ _)) by done.
  destruct (padFractional_loop s (length s)) as (lz & hn & -> & Hz & Hlt & _); [lia|].
  rewrite firstn_all. eexists; split; [done|].
  set (p := s ++ replicate (FractionalCount - length s) c_zero).
  assert (length p = FractionalCount) as Hlen.
  { unfold p. rewrite length_app, length_replicate. lia. }
  assert (take lz p = replicate lz c_zero) as Htake.
  { unfold p. destruct Hlt as [->|Hlt]; [done|]. rewrite take_app_le by lia. done. }
  pose proof (take_drop lz p) as Hsplit. rewrite Htake in Hsplit. split; [|split].
  - intros E. apply (f_equal length) in E. rewrite length_drop, Hlen in E. simpl in E.
    unfold FractionalCount in *. lia.
  - transitivity (digits_value p).
    + rewrite <- Hsplit at 2. rewrite digits_value_app, digits_value_zeros. lia.
    + unfold p. rewrite digits_value_app, digits_value_zeros, length_replicate. lia.
  - intros Hd. apply forallb_forall. intros x Hx.
    assert (In x p) as Hin by (rewrite <- Hsplit; apply in_or_app; auto).
    unfold p in Hin. apply in_app_or in Hin as [Hin|Hin].
    + by apply (proj1 (forallb_forall _ _) Hd).
    + apply repeat_spec in Hin || (apply list_elem_of_In, elem_of_replicate in Hin as [-> _]). done.
Qed.

Lemma formatFractional_loop s k :
  (k <= length s <= FractionalCount)%nat ->
  let diff := (FractionalCount - length s)%nat in
  exists lz hn,
    foldl (formatFractional_step s diff) (pads, 0%nat, false) (seq 0 k)
    = (replicate diff c_zero ++ take k s ++ replicate (length s - k) c_zero, lz, hn) /\
    (if hn then exists j, (j < k)%nat /\ lz = (FractionalCount - j)%nat /\
                 nth (length s - j - 1) s 0 <> c_zero /\
                 drop (length s - j) s = replicate j c_zero
     else lz = 0%nat /\ drop (length s - k) s = replicate k c_zero).
Proof.
  intros Hk diff. induction k as [|k IH].
  { exists 0%nat, false. split; [|split; [done|]].
    - simpl. rewrite Nat.sub_0_r, <- replicate_add. unfold pads, diff.
      do 3 f_equal. lia.
    - rewrite Nat.sub_0_r. apply drop_all. }
  destruct IH as (lz & hn & Hfold & Hinv); [lia|].
  rewrite seq_S, foldl_app, Hfold. cbn [foldl formatFractional_step Nat.add].
  assert (replicate (length s - k) c_zero = replicate (S (length s - S k)) c_zero) as ->
    by (f_equal; lia).
  pose proof (pads_step s (replicate diff c_zero) (length s - S k) k) as Hp.
  rewrite length_replicate in Hp. rewrite Hp by lia.
  destruct hn; cbn [negb andb].
  { destruct Hinv as (j & Hj & Hinv). exists lz, true. split; [done|]. exists j. split; [lia|done]. }
  destruct Hinv as [-> Hall].
  destruct (Z.eqb_spec (nth (length s - k - 1) s 0) c_zero) as [E|E]; cbn [negb andb].
  - exists 0%nat, false. split; [done|]. split; [done|].
    rewrite (drop_S s (nth (length s - S k) s 0)).
    + replace (S (length s - S k)) with (length s - k)%nat by lia. rewrite Hall.
      replace (length s - S k)%nat with (length s - k - 1)%nat by lia. by rewrite E.
    + destruct (lookup_lt_is_Some_2 s (length s - S k)) as [x Hx]; [lia|].
      rewrite Hx. f_equal. symmetry. by apply nth_lookup_Some.
  - eexists _, true. split; [done|]. exists k. repeat split; try done; unfold diff; lia.
Qed.

Lemma formatFractional_spec s :
  (length s <= FractionalCount)%nat ->
  formatFractional s
  = Ok (trim_right_zeros (replicate (FractionalCount - length s) c_zero ++ s)).
Proof.
  intros Hs. unfold formatFractional. rewrite (proj2 (Nat.ltb_ge _ _)) by done.
  destruct (formatFractional_loop s (length s)) as (lz & hn & -> & Hinv); [lia|].
  rewrite firstn_all, Nat.sub_diag, app_nil_r. f_equal.
  set (z := replicate _ c_zero). destruct hn.
  - destruct Hinv as (j & Hj & -> & Hne & Hdrop).
    assert (s = take (length s - j - 1) s ++ [nth (length s - j - 1) s 0] ++ replicate j c_zero) as Hdec.
    { rewrite <- Hdrop, app_assoc, <- take_snoc by lia.
      replace (S (length s - j - 1)) with (length s - j)%nat by lia. by rewrite take_drop. }
    rewrite Hdec at 2. rewrite !app_assoc, trim_right_app_zeros, trim_right_app_ne by done.
    rewrite Hdec at 1. rewrite !app_assoc. apply take_app_length'.
    rewrite !length_app, length_take. unfold z. rewrite length_replicate. simpl. lia.
  - destruct Hinv as [-> Hall]. rewrite Nat.sub_diag in Hall. simpl in *. rewrite drop_0 in Hall.
    rewrite Hall. unfold z. rewrite <- replicate_add.
    pose proof (trim_right_app_zeros [] (FractionalCount - length s + length s)) as H.
    simpl in H. by rewrite H.
Qed.

(** ** Canonical text *)

Definition canonical (a : Amount) : bytes :=
  let i := a / FractionalMax in
  let t := trim_right_zeros (fixed FractionalCount a) in
  fixed (ndigits i) i ++ match t with [] => [] | _ => c_dot :: t end.

Lemma FractionalMax_pow : FractionalMax = 10 ^ Z.of_nat FractionalCount.
Proof. reflexivity. Qed.

Lemma trim_fixed_nonempty n v :
  0 < v < 10 ^ Z.of_nat n -> trim_right_zeros (fixed n v) <> [].
Proof.
  intros Hv E. destruct (trim_right_decomp (fixed n v)) as [k Hk]. rewrite E in Hk.
  apply (f_equal digits_value) in Hk. simpl in Hk.
  rewrite digits_value_fixed, digits_value_zeros, Z.mod_small in Hk; lia.
Qed.

Lemma String_canonical a : 0 < a -> String a = Ok (canonical a).
Proof.
  intros Ha. unfold String, IsZero, canonical, big_String.
  rewrite (proj2 (Z.eqb_neq a 0)), (proj2 (Z.ltb_ge a 0)) by lia.
  rewrite length_fixed. destruct (ndigits_spec a) as (Hn1 & Hn2 & Hn3); [lia|]. specialize (Hn3 Ha).
  destruct (Nat.leb_spec (ndigits a) FractionalCount) as [Hle|Hgt].
  - assert (a < FractionalMax) as Hsmall.
    { rewrite FractionalMax_pow. eapply Z.lt_le_trans; [done|]. apply Z.pow_le_mono_r; lia. }
    rewrite formatFractional_spec by (rewrite length_fixed; lia). cbn [res_bind app].
    rewrite length_fixed, Z.div_small by (split; [lia|done]).
    assert (replicate (FractionalCount - ndigits a) c_zero ++ fixed (ndigits a) a
            = fixed FractionalCount a) as ->.
    { transitivity (fixed ((FractionalCount - ndigits a) + ndigits a) a); [|f_equal; lia].
      rewrite fixed_app, Z.div_small, fixed_zero by lia. done. }
    pose proof (trim_fixed_nonempty FractionalCount a ltac:(rewrite <- FractionalMax_pow; lia)).
    destruct (trim_right_zeros (fixed FractionalCount a)); done.
  - assert (FractionalMax <= a) as Hbig.
    { rewrite FractionalMax_pow. etrans; [|exact Hn3]. apply Z.pow_le_mono_r; lia. }
    set (m := (ndigits a - FractionalCount)%nat). set (i := a / FractionalMax).
    assert (ndigits i = m) as Hm.
    { assert (0 < i) by (apply Z.div_str_pos; unfold FractionalMax in *; lia).
      apply ndigits_unique; [done|lia|]. unfold i. rewrite FractionalMax_pow. split.
      - apply Z.div_le_lower_bound; [lia|]. rewrite <- Z.pow_add_r by lia.
        etrans; [|exact Hn3]. apply Z.pow_le_mono_r; lia.
      - apply Z.div_lt_upper_bound; [lia|]. rewrite <- Z.pow_add_r by lia.
        eapply Z.lt_le_trans; [exact Hn2|]. apply Z.pow_le_mono_r; lia. }
    assert (fixed (ndigits a) a = fixed m i ++ fixed FractionalCount a) as ->.
    { replace (ndigits a) with (m + FractionalCount)%nat at 1 by lia. by rewrite fixed_app. }
    rewrite Hm, take_app_length', drop_app_length' by (by rewrite length_fixed).
    destruct (trim_right_zeros (fixed FractionalCount a)); [by rewrite app_nil_r|done].
Qed.

Lemma split_dot_digits a b :
  forallb is_digit a = true ->
  split_dot (a ++ match b with [] => [] | _ => c_dot :: b end)
  = (a, match b with [] => None | _ => Some b end).
Proof.
  induction a as [|c a IH]; simpl; intros Hd.
  - by destruct b.
  - apply andb_true_iff in Hd as [Hc Hd]. rewrite (IH Hd).
    destruct (Z.eqb_spec c c_dot) as [->|]; [discriminate Hc|done].
Qed.

Lemma ParseUint_digits s :
  s <> [] -> forallb is_digit s = true -> digits_value s < 2 ^ 64 -> ParseUint s = Some (digits_value s).
Proof.
  intros Hne Hd Hv. unfold ParseUint. rewrite Hd, (proj2 (Z.ltb_lt _ _) Hv). by destruct s.
Qed.

Lemma ParseUint_fixed v : 0 <= v < 2 ^ 64 -> ParseUint (fixed (ndigits v) v) = Some v.
Proof.
  intros Hv. destruct (ndigits_spec v) as (Hn1 & Hn2 & _); [lia|].
  rewrite ParseUint_digits; rewrite ?digits_value_fixed, ?Z.mod_small by lia; try done; try lia.
  - intros E. apply (f_equal length) in E. rewrite length_fixed in E. simpl in E. lia.
  - apply fixed_digit.
Qed.

Lemma trim_fixed_spec n v :
  let t := trim_right_zeros (fixed n v) in
  (length t <= n)%nat /\ forallb is_digit t = true /\
  digits_value t * 10 ^ Z.of_nat (n - length t) = v mod 10 ^ Z.of_nat n.
Proof.
  intros t. destruct (trim_right_decomp (fixed n v)) as [k Hk]. fold t in Hk.
  pose proof (f_equal length Hk) as Hl. rewrite length_app, length_replicate, length_fixed in Hl.
  repeat split; [lia| |].
  - pose proof (fixed_digit n v) as Hd. rewrite Hk, forallb_app in Hd. apply andb_true_iff in Hd. tauto.
  - rewrite <- digits_value_fixed, Hk, digits_value_app, digits_value_zeros, length_replicate.
    replace (n - length t)%nat with k by lia. lia.
Qed.

Lemma i64_small v : 0 <= v < 2 ^ 63 -> i64 v = v.
Proof. intros Hv. unfold i64. rewrite Z.mod_small; lia. Qed.

Lemma NewCoinAmount_small i f :
  0 <= i < 2 ^ 63 -> 0 <= f < 2 ^ 63 -> NewCoinAmount i f = i * FractionalMax + f.
Proof.
  intros Hi Hf. unfold NewCoinAmount, Add, MulC, newAmount. rewrite !i64_small by done.
  destruct (Z.eqb_spec i 0) as [->|]; [done|]. destruct (Z.eqb_spec f 0) as [->|]; lia.
Qed.

Lemma ParseAmount_canonical a : 0 < a < 2 ^ 63 * FractionalMax -> ParseAmount (canonical a) = Ok a.
Proof.
  intros Ha. unfold canonical, ParseAmount. set (i := a / FractionalMax).
  assert (0 <= i < 2 ^ 63) as Hi.
  { split; [apply Z.div_pos; unfold FractionalMax; lia|].
    apply Z.div_lt_upper_bound; unfold FractionalMax in *; lia. }
  pose proof (Z.div_mod a FractionalMax ltac:(done)) as Hdm. fold i in Hdm.
  pose proof (Z.mod_pos_bound a FractionalMax ltac:(done)) as Hf.
  destruct (trim_fixed_spec FractionalCount a) as (Hlen & Hdig & Hval).
  rewrite <- FractionalMax_pow in Hval.
  rewrite split_dot_digits by apply fixed_digit.
  rewrite ParseUint_fixed by lia.
  set (t := trim_right_zeros (fixed FractionalCount a)) in *.
  destruct t as [|c t'] eqn:Et.
  - rewrite NewCoinAmount_small by lia. cbn in Hval. f_equal. lia.
  - destruct (padFractional_spec (c :: t') Hlen) as (p & -> & Hne & Hpv & Hpd). cbn [res_bind].
    rewrite Hval in Hpv. rewrite ParseUint_digits, Hpv; [|done|by apply Hpd|].
    + rewrite NewCoinAmount_small; [f_equal|lia|]; unfold FractionalMax in *; lia.
    + unfold FractionalMax in *; lia.
Qed.

(** ** Byte form *)

Lemma nbytes_bound v : 0 <= v -> v < 256 ^ Z.of_nat (nbytes v).
Proof.
  intros Hv. unfold nbytes. destruct (Z.eqb_spec v 0) as [->|]; [done|].
  destruct (Z.log2_spec v) as [_ Hlog]; [lia|]. pose proof (Z.log2_nonneg v).
  eapply Z.lt_le_trans; [exact Hlog|]. change 256 with (2 ^ 8).
  rewrite <- Z.pow_mul_r by lia. apply Z.pow_le_mono_r; [lia|].
  rewrite Nat2Z.inj_succ, Z2Nat.id by (apply Z.div_pos; lia).
  pose proof (Z.div_mod (Z.log2 v) 8 ltac:(lia)).
  pose proof (Z.mod_pos_bound (Z.log2 v) 8 ltac:(lia)). lia.
Qed.

Lemma FromBytes_Bytes a : NewAmountFromBytes (Bytes a) = Z.abs a.
Proof.
  unfold NewAmountFromBytes, Bytes, big_Bytes. rewrite be_value_be_bytes.
  apply Z.mod_small. split; [lia|]. apply nbytes_bound. lia.
Qed.

Lemma Bytes_nil a : Bytes a = [] <-> a = 0.
Proof.
  unfold Bytes, big_Bytes, nbytes. split; [|intros ->; done].
  intros H. apply (f_equal length) in H. rewrite length_be_bytes in H.
  destruct (Z.eqb_spec (Z.abs a) 0); [lia|discriminate H].
Qed.

(** ** Properties *)

(** C38. Every non-negative amount below 2^63 coins prints ([Amount.String]) to a
    text that [ParseAmount] reads back to the same amount. *)
Theorem ParseAmount_String a :
  0 <= a < 2 ^ 63 * FractionalMax ->
  exists s, String a = Ok s /\ ParseAmount s = Ok a.
Proof.
  intros Ha. destruct (decide (a = 0)) as [->|].
  - exists [c_zero]. done.
  - exists (canonical a). split; [apply String_canonical|apply ParseAmount_canonical]; lia.
Qed.

Lemma ParseAmount_String_witness :
  exists s, String (5 * FractionalMax + 250) = Ok s /\ ParseAmount s = Ok (5 * FractionalMax + 250).
Proof. apply ParseAmount_String. split; [apply Z.leb_le|apply Z.ltb_lt]; reflexivity. Defined.

(** The stored byte form of an amount ([Bytes], read by
    [NewAmountFromBytes]) keeps the absolute value, and is empty exactly for
    zero, which is why the state can store a zero balance as an absent entry. *)
Lemma Bytes_roundtrip a :
  NewAmountFromBytes (Bytes a) = Z.abs a /\ (Bytes a = [] <-> a = 0).
Proof. split; [apply FromBytes_Bytes|apply Bytes_nil]. Qed.

(** A decimal text with more than 18 fractional digits makes [ParseAmount]
    index [pads] out of range and panic, whatever its digits. *)
Lemma ParseAmount_long_fraction_panics i f :
  0 <= i < 2 ^ 64 -> (FractionalCount < length f)%nat ->
  ParseAmount (fixed (ndigits i) i ++ c_dot :: f) = Panic "index out of range".
Proof.
  intros Hi Hf. unfold ParseAmount.
  destruct f as [|c f]; [simpl in Hf; lia|].
  pose proof (split_dot_digits (fixed (ndigits i) i) (c :: f)) as Hs. cbn iota in Hs.
  rewrite Hs by apply fixed_digit. rewrite ParseUint_fixed by done.
  unfold padFractional. by rewrite (proj2 (Nat.ltb_lt _ _) Hf).
Qed.

Lemma ParseAmount_long_fraction_panics_witness :
  ParseAmount (fixed (ndigits 1) 1 ++ c_dot :: replicate 19 49) = Panic "index out of range".
Proof. apply ParseAmount_long_fraction_panics; [lia|vm_compute; lia]. Defined.

(** An integer text from 2^63 up to 2^64 - 1 parses without error to a
    negative amount, because [NewCoinAmount] converts to [int64]. *)
Lemma ParseAmount_wraps i :
  2 ^ 63 <= i < 2 ^ 64 ->
  ParseAmount (fixed (ndigits i) i) = Ok ((i - 2 ^ 64) * FractionalMax).
Proof.
  intros Hi. unfold ParseAmount.
  pose proof (split_dot_digits (fixed (ndigits i) i) []) as Hs. cbn iota in Hs.
  rewrite app_nil_r in Hs. rewrite Hs by apply fixed_digit. rewrite ParseUint_fixed by lia.
  unfold NewCoinAmount, MulC, newAmount, i64.
  rewrite (proj2 (Z.eqb_neq i 0)) by lia. simpl Z.eqb. cbn iota. do 2 f_equal.
  replace (i + 2 ^ 63) with ((i - 2 ^ 63) + 1 * 2 ^ 64) by lia.
  rewrite Z.mod_add, Z.mod_small; lia.
Qed.

Lemma ParseAmount_wraps_witness :
  ParseAmount (fixed (ndigits (2 ^ 63)) (2 ^ 63)) = Ok ((2 ^ 63 - 2 ^ 64) * FractionalMax).
Proof. apply ParseAmount_wraps. lia. Defined.
