(* ===== verification/Common.v ===== *)
(** * Addresses, public hashes and hashes

    [common/address.go], [common/publichash.go], [common/publickey.go],
    [common/util], [common/hash] and the majority rule of
    [common/util_verify.go].  SHA-256, base58 and public-key recovery are
    parameters, given as type classes. *)

From stdpp Require Import base gmap list sorting strings.
From Stdlib Require Import ZArith Lia.
From S2P Require Import Prelude.

(** ** Parameters *)

(** [crypto/sha256]: a function to 32 bytes. *)
Class Sha256 := {
  sha256 : bytes -> bytes;
  sha256_length : forall d, length (sha256 d) = 32%nat;
  sha256_ok : forall d, bytes_ok (sha256 d)
}.

(** [github.com/mr-tron/base58]: decoding undoes encoding, and reports what it
    cannot decode as an error. *)
Class Base58 := {
  base58_Encode : bytes -> bytes;
  base58_Decode : bytes -> res bytes;
  base58_roundtrip : forall bs, bytes_ok bs -> base58_Decode (base58_Encode bs) = Ok bs;
  base58_no_panic : forall s w, base58_Decode s <> Panic w
}.

(** The recovery of a compressed public key from a hash and a signature. *)
Class Ecrecover := { recover : bytes -> bytes -> res bytes }.

(** ** [common/util/util_convert.go]

    Little-endian conversions; reading from a short slice panics. *)

Definition Uint64ToBytes (v : Z) : bytes := le_bytes 8 v.
Definition Uint32ToBytes (v : Z) : bytes := le_bytes 4 v.
Definition Uint16ToBytes (v : Z) : bytes := le_bytes 2 v.

Definition read_le (n : nat) (v : bytes) : res Z :=
  if (length v <? n)%nat then Panic "index out of range" else Ok (le_value (take n v)).

Definition BytesToUint16 (v : bytes) : res Z := read_le 2 v.
Definition BytesToUint32 (v : bytes) : res Z := read_le 4 v.
Definition BytesToUint64 (v : bytes) : res Z := read_le 8 v.

Lemma read_le_le_bytes n v :
  0 <= v < 256 ^ Z.of_nat n -> read_le n (le_bytes n v) = Ok v.
Proof.
  intros Hv. unfold read_le. rewrite length_le_bytes, Nat.ltb_irrefl.
  rewrite take_ge by (rewrite length_le_bytes; lia).
  rewrite le_value_le_bytes. f_equal. by apply Z.mod_small.
Qed.

Lemma BytesToUint32_roundtrip v : 0 <= v < 2 ^ 32 -> BytesToUint32 (Uint32ToBytes v) = Ok v.
Proof. intros. by apply read_le_le_bytes. Qed.

Lemma Uint32ToBytes_ne v : Uint32ToBytes v <> [].
Proof. done. Qed.

(** ** [common/hash] *)

Definition Hash256Size : nat := 32.
Definition EmptyHash : bytes := replicate Hash256Size 0.

Section Hashing.
Context `{Sha256}.

Definition Hash (data : bytes) : bytes := copy_into Hash256Size (sha256 data).
Definition DoubleHash (data : bytes) : bytes := Hash (Hash data).

(** Go's [copy(dst, src)]: overwrite the front of [dst]. *)
Definition copy_front (dst src : bytes) : bytes :=
  take (length dst) src ++ drop (length src) dst.

(** The loop of [Hashes]; the state is [data] and [idx].  The copy goes to the
    start of [data], as in the code. *)
Fixpoint Hashes_loop (hs : list bytes) (data : bytes) (idx : nat) : bytes :=
  match hs with
  | [] => data
  | h :: hs' =>
      let data := copy_front data h in
      let idx := (idx + Hash256Size)%nat in
      match hs' with
      | [] => Hashes_loop hs' data idx
      | _ => Hashes_loop hs' (<[idx := 104]> data) (idx + 1)
      end
  end.

Definition Hashes (hs : list bytes) : res bytes :=
  match hs with
  | [] => Panic "makeslice: len out of range"
  | _ => Ok (Hash (Hashes_loop hs (replicate ((Hash256Size + 1) * length hs - 1) 0) 0))
  end.
End Hashing.

(** ** [common/address.go] *)

Definition AddressSize : nat := 14.

Abbreviation Address := bytes.
Abbreviation PublicHash := bytes.
Abbreviation Hash256 := bytes.

Definition address_ok (a : Address) : Prop := length a = AddressSize /\ bytes_ok a.

Definition NewAddress (height index magic : Z) : Address :=
  be_bytes 4 height ++ be_bytes 2 index ++ be_bytes 8 magic.

Definition Height (addr : Address) : Z := be_value (take 4 addr).
Definition Index (addr : Address) : Z := be_value (take 2 (drop 4 addr)).
Definition Nonce (addr : Address) : Z := be_value (take 8 (drop 6 addr)).

Definition Checksum (addr : bytes) : Z := foldl Z.lxor 0 addr.

Definition ErrInvalidAddressFormat : error := mkError "common" "invalid address format".
Definition ErrInvalidAddressCheckSum : error := mkError "common" "invalid address checksum".

(** [bytes.TrimRight(bs, "\x00")]. *)
Fixpoint trim_right_nul (s : bytes) : bytes :=
  match s with
  | [] => []
  | c :: s =>
      match trim_right_nul s with
      | [] => if c =? 0 then [] else [c]
      | t => c :: t
      end
  end.

Section AddressText.
Context `{Base58}.

Definition Address_String (addr : Address) : bytes :=
  let checksum := Checksum addr in
  let result := trim_right_nul addr in
  let body :=
    if (length result <? 7)%nat then copy_into 6 result
    else if (length result <? 15)%nat then copy_into 14 result
    else [] in
  base58_Encode (checksum :: body).

Definition ParseAddress (s : bytes) : res Address :=
  let? bs := base58_Decode s in
  if negb (length bs =? 7)%nat && negb (length bs =? 15)%nat then Err ErrInvalidAddressFormat
  else
    let cs := nth 0 bs 0 in
    let addr := copy_into AddressSize (drop 1 bs) in
    if negb (cs =? Checksum addr) then Err ErrInvalidAddressCheckSum else Ok addr.
End AddressText.

(** [TickerUsageToMagicNumber]. *)
Definition magic_base : bytes := [95; 65; 69; 84; 122; 64; 11; 43].
Definition magic_Salt : bytes := str "PoweredByFLETABlockchain".

Fixpoint xor_block (base blk : bytes) : bytes :=
  match base, blk with
  | [], _ => []
  | b :: base, [] => Z.lxor b 0 :: xor_block base []
  | b :: base, v :: blk => Z.lxor b v :: xor_block base blk
  end.

Fixpoint xor_blocks (cnt : nat) (base ls : bytes) : bytes :=
  match cnt with
  | O => base
  | S cnt => xor_blocks cnt (xor_block base (take 8 ls)) (drop 8 ls)
  end.

Definition TickerUsageToMagicNumber (Ticker Usage : bytes) : Z :=
  let ls := Ticker ++ [32] ++ Usage ++ [32] ++ magic_Salt in
  let cnt := (length ls / 8 + (if length ls mod 8 =? 0 then 0 else 1))%nat in
  be_value (xor_blocks cnt magic_base ls).

(** ** [common/publichash.go], [common/publickey.go] *)

Definition PublicHashSize : nat := 31.

Definition NewPublicHash `{Sha256} (pubkey : bytes) : PublicHash :=
  let h := DoubleHash pubkey in
  Checksum pubkey :: take (length h - 2) h.

(** ** [ValidateSignaturesMajority] *)

Definition ErrInvalidSignature : error := mkError "common" "invalid signature".
Definition ErrInsufficientSignature : error := mkError "common" "insufficient signature".
Definition ErrDuplicatedSignature : error := mkError "common" "duplicated signature".

Section Majority.
Context `{Sha256} `{Ecrecover}.

Fixpoint check_signatures (signedHash : bytes) (sigs : list bytes)
    (KeyMap : gmap PublicHash bool) (sigMap : gmap PublicHash bool) : res (gmap PublicHash bool) :=
  match sigs with
  | [] => Ok sigMap
  | sig :: sigs =>
      let? pubkey := recover signedHash sig in
      let pubhash := NewPublicHash pubkey in
      if negb (default false (KeyMap !! pubhash)) then Err ErrInvalidSignature
      else check_signatures signedHash sigs KeyMap (<[pubhash := true]> sigMap)
  end.

Definition ValidateSignaturesMajority (signedHash : bytes) (sigs : list bytes)
    (KeyMap : gmap PublicHash bool) : res unit :=
  if negb (length sigs =? size KeyMap / 2 + 1)%nat then Err ErrInsufficientSignature
  else
    let? sigMap := check_signatures signedHash sigs KeyMap ∅ in
    if negb (size sigMap =? length sigs)%nat then Err ErrDuplicatedSignature else Ok tt.
End Majority.

(** ** Addresses: fields and text *)

Lemma NewAddress_ok h i m : address_ok (NewAddress h i m).
Proof.
  unfold address_ok, NewAddress. split.
  - by rewrite !length_app, !length_be_bytes.
  - apply Forall_app_2; [|apply Forall_app_2]; apply be_bytes_ok.
Qed.

Lemma NewAddress_fields h i m :
  0 <= h < 2 ^ 32 -> 0 <= i < 2 ^ 16 -> 0 <= m < 2 ^ 64 ->
  Height (NewAddress h i m) = h /\ Index (NewAddress h i m) = i /\ Nonce (NewAddress h i m) = m.
Proof.
  intros Hh Hi Hm. unfold Height, Index, Nonce, NewAddress. repeat split.
  - rewrite take_app_length' by (by rewrite length_be_bytes). rewrite be_value_be_bytes. by apply Z.mod_small.
  - rewrite drop_app_length' by (by rewrite length_be_bytes).
    rewrite take_app_length' by (by rewrite length_be_bytes). rewrite be_value_be_bytes. by apply Z.mod_small.
  - rewrite app_assoc, drop_app_length' by (by rewrite length_app, !length_be_bytes).
    rewrite take_ge by (rewrite length_be_bytes; lia).
    rewrite be_value_be_bytes. by apply Z.mod_small.
Qed.

Lemma trim_right_nul_decomp s : exists k, s = trim_right_nul s ++ replicate k 0.
Proof.
  induction s as [|c s [k IH]]; simpl; [by exists 0%nat|].
  destruct (trim_right_nul s) as [|t ts] eqn:E; simpl in IH.
  - destruct (Z.eqb_spec c 0) as [->|]; [exists (S k)|exists k]; simpl; by rewrite <- IH.
  - exists k. simpl. by rewrite <- IH.
Qed.

Lemma copy_into_trim n m s :
  length s = m -> (n <= m)%nat -> (length (trim_right_nul s) <= n)%nat ->
  copy_into m (copy_into n (trim_right_nul s)) = s.
Proof.
  intros Hs Hn Ht. destruct (trim_right_nul_decomp s) as [k Hk].
  pose proof (f_equal length Hk) as Hl. rewrite length_app, length_replicate in Hl.
  unfold copy_into. rewrite (take_ge (trim_right_nul s)) by done.
  rewrite take_ge by (rewrite length_app, length_replicate; lia).
  rewrite length_app, length_replicate, <- app_assoc, <- replicate_add.
  symmetry. etrans; [exact Hk|]. do 2 f_equal. lia.
Qed.

Lemma Checksum_bound acc s : byte_ok acc -> bytes_ok s -> byte_ok (foldl Z.lxor acc s).
Proof.
  intros Ha Hs. revert acc Ha; induction Hs as [|b s Hb Hs IH]; intros acc Ha; simpl; [done|].
  apply IH. unfold byte_ok in *. change 256 with (2 ^ 8) in *. split.
  - apply Z.lxor_nonneg. lia.
  - destruct (decide (Z.lxor acc b = 0)) as [->|]; [lia|].
    apply Z.log2_lt_pow2; [|eapply Z.le_lt_trans; [apply Z.log2_lxor; lia|]].
    + pose proof (proj2 (Z.lxor_nonneg acc b)). lia.
    + apply Z.max_lub_lt; (destruct (decide (acc = 0)), (decide (b = 0)); subst; try (by simpl; lia);
        apply Z.log2_lt_pow2; lia).
Qed.

Lemma ParseAddress_body `{Base58} n addr :
  address_ok addr -> (n = 6 \/ n = 14)%nat -> (length (trim_right_nul addr) <= n)%nat ->
  ParseAddress (base58_Encode (Checksum addr :: copy_into n (trim_right_nul addr))) = Ok addr.
Proof.
  intros [Hl Hb] Hn Ht. unfold ParseAddress.
  destruct (trim_right_nul_decomp addr) as [k Hk].
  assert (bytes_ok (trim_right_nul addr)) as Htok.
  { unfold bytes_ok in Hb. rewrite Hk in Hb. by apply Forall_app in Hb as [? _]. }
  rewrite base58_roundtrip; cbn [res_bind].
  2: { constructor; [by apply Checksum_bound|]. apply Forall_app; split; [by apply Forall_take|].
       apply Forall_replicate. done. }
  cbn [length drop nth]. rewrite length_copy_into.
  destruct Hn as [-> | ->]; cbn [negb andb Nat.eqb]; rewrite drop_0;
    (rewrite copy_into_trim; [|done|unfold AddressSize; lia|done]); by rewrite Z.eqb_refl.
Qed.

Lemma ParseAddress_no_panic `{Base58} s w : ParseAddress s <> Panic w.
Proof.
  unfold ParseAddress, res_bind. pose proof (base58_no_panic s) as Hp. destruct (base58_Decode s); [|done|].
  - repeat destr_match; done.
  - intros [= ->]. by apply (Hp w).
Qed.

Lemma trim_right_nul_length s : (length (trim_right_nul s) <= length s)%nat.
Proof.
  destruct (trim_right_nul_decomp s) as [k Hk]. rewrite Hk at 2. rewrite length_app. lia.
Qed.

(** An address built by [NewAddress] gives back its height, index and magic
    number: account addresses of different transactions never collide. *)
Lemma NewAddress_roundtrip h i m :
  0 <= h < 2 ^ 32 -> 0 <= i < 2 ^ 16 -> 0 <= m < 2 ^ 64 ->
  address_ok (NewAddress h i m) /\
  Height (NewAddress h i m) = h /\ Index (NewAddress h i m) = i /\ Nonce (NewAddress h i m) = m.
Proof. intros. split; [apply NewAddress_ok|by apply NewAddress_fields]. Qed.

Lemma NewAddress_roundtrip_witness :
  address_ok (NewAddress 7 3 9) /\
  Height (NewAddress 7 3 9) = 7 /\ Index (NewAddress 7 3 9) = 3 /\ Nonce (NewAddress 7 3 9) = 9.
Proof. apply NewAddress_roundtrip; lia. Defined.

(** The base58 text of an address parses back to the address, checksum and
    trimmed zero tail included. *)
Lemma ParseAddress_String `{Base58} addr :
  address_ok addr -> ParseAddress (Address_String addr) = Ok addr.
Proof.
  intros Hok. unfold Address_String. pose proof (trim_right_nul_length addr) as Hl.
  rewrite (proj1 Hok) in Hl. unfold AddressSize in Hl.
  destruct (Nat.ltb_spec (length (trim_right_nul addr)) 7).
  { apply ParseAddress_body; auto with lia. }
  destruct (Nat.ltb_spec (length (trim_right_nul addr)) 15); [|lia].
  apply ParseAddress_body; auto with lia.
Qed.

(** A concrete codec for the witnesses: the text is the bytes themselves. *)
#[refine] Instance base58_plain : Base58 := { base58_Encode bs := bs; base58_Decode bs := Ok bs }.
Proof. all: done. Defined.

Lemma ParseAddress_String_witness :
  ParseAddress (Address_String (NewAddress 7 3 9)) = Ok (NewAddress 7 3 9).
Proof. apply ParseAddress_String. apply NewAddress_ok. Defined.

(** ** [Hashes] *)

Lemma length_copy_front dst src :
  (length src <= length dst)%nat -> length (copy_front dst src) = length dst.
Proof. intros. unfold copy_front. rewrite length_app, length_take, length_drop. lia. Qed.

Lemma Hashes_loop_last (hs hs' : list bytes) data data' idx :
  length hs = length hs' -> hs <> [] -> last hs = last hs' ->
  Forall (fun h => length h = Hash256Size) hs -> Forall (fun h => length h = Hash256Size) hs' ->
  length data = length data' -> (Hash256Size <= length data)%nat -> (Hash256Size <= idx + Hash256Size)%nat ->
  drop Hash256Size data = drop Hash256Size data' ->
  Hashes_loop hs data idx = Hashes_loop hs' data' idx.
Proof.
  revert hs' data data' idx; induction hs as [|h hs IH]; intros [|h' hs'] data data' idx
    Hlen Hne Hlast Hall Hall' Hd Hge Hidx Hdrop; try done.
  apply Forall_cons in Hall as [Hh Hall], Hall' as [Hh' Hall'].
  cbn [Hashes_loop]. simpl in Hlen.
  destruct hs as [|g hs], hs' as [|g' hs']; simpl in Hlen; try lia.
  - injection Hlast as <-. cbn [Hashes_loop]. unfold copy_front. by rewrite Hh, Hdrop, Hd.
  - apply IH; auto; try lia.
    + rewrite !length_insert, !length_copy_front; lia.
    + rewrite length_insert, length_copy_front; lia.
    + unfold copy_front. rewrite !take_ge by lia. rewrite Hh, Hh', Hdrop.
      rewrite !insert_app_r_alt by lia. rewrite Hh, Hh'.
      by rewrite !drop_app_length' by lia.
Qed.

Lemma Hashes_last `{Sha256} (hs hs' : list bytes) :
  length hs = length hs' -> last hs = last hs' ->
  Forall (fun h => length h = Hash256Size) hs -> Forall (fun h => length h = Hash256Size) hs' ->
  Hashes hs = Hashes hs'.
Proof.
  intros Hlen Hlast Hall Hall'. unfold Hashes.
  destruct hs as [|h hs], hs' as [|h' hs']; try done. rewrite Hlen. do 2 f_equal.
  apply Hashes_loop_last; auto; try done.
  rewrite length_replicate. unfold Hash256Size. simpl length in *. lia.
Qed.

(** [Hashes] copies every hash to the start of its buffer, so its result
    depends only on the last hash and on how many there are: the previous-hash
    and chain-identity arguments of the context and genesis hashes are lost. *)
Lemma Hashes_ignores_all_but_last `{Sha256} (hs hs' : list bytes) (h : bytes) :
  length hs = length hs' -> length h = Hash256Size ->
  Forall (fun h => length h = Hash256Size) hs -> Forall (fun h => length h = Hash256Size) hs' ->
  Hashes (hs ++ [h]) = Hashes (hs' ++ [h]).
Proof.
  intros Hlen Hh Hall Hall'. apply Hashes_last.
  - by rewrite !length_app, Hlen.
  - by rewrite !last_snoc.
  - apply Forall_app; auto.
  - apply Forall_app; auto.
Qed.

(** A concrete hash function for the witnesses: the first 32 bytes, padded. *)
#[refine] Instance sha256_prefix : Sha256 := { sha256 d := copy_into 32 (u8 <$> d) }.
Proof.
  - intros d. apply length_copy_into.
  - intros d. apply Forall_app; split; [|by apply Forall_replicate].
    apply Forall_take, Forall_fmap, Forall_true. intros x. unfold byte_ok, u8; simpl.
    apply Z.mod_pos_bound. lia.
Defined.

Lemma Hashes_ignores_all_but_last_witness :
  Hashes ([replicate 32 1] ++ [replicate 32 5]) = Hashes ([replicate 32 2] ++ [replicate 32 5]).
Proof. apply Hashes_ignores_all_but_last; repeat constructor. Defined.

(** ** Signature majorities *)

Section MajorityFacts.
Context `{Sha256} `{Ecrecover}.

(** The public hashes that sign a hash with the given signatures. *)
Definition signer_of (h sig : bytes) (ph : PublicHash) : Prop :=
  exists pk, recover h sig = Ok pk /\ NewPublicHash pk = ph.

Lemma check_signatures_spec h sigs KeyMap sigMap sigMap' :
  check_signatures h sigs KeyMap sigMap = Ok sigMap' ->
  forall ph, ph ∈ dom sigMap' ->
    ph ∈ dom sigMap \/ (KeyMap !! ph = Some true /\ exists sig, sig ∈ sigs /\ signer_of h sig ph).
Proof.
  revert sigMap; induction sigs as [|sig sigs IH]; intros sigMap; cbn [check_signatures].
  { intros [= ->]; auto. }
  destruct (recover h sig) as [pk|e|w] eqn:Er; cbn [res_bind]; [|done..].
  destruct (KeyMap !! NewPublicHash pk) as [[]|] eqn:Ek; simpl; [|done..].
  intros Hc ph Hph. destruct (IH _ Hc ph Hph) as [Hin|(Hk & s & Hs & Hsg)].
  - rewrite dom_insert_L in Hin. apply elem_of_union in Hin as [Hin%elem_of_singleton|Hin]; [|auto].
    subst. right. split; [done|]. exists sig. split; [left|by exists pk].
  - right. split; [done|]. exists s. split; [by right|done].
Qed.

Lemma ValidateSignaturesMajority_set h sigs KeyMap :
  ValidateSignaturesMajority h sigs KeyMap = Ok tt ->
  exists S : gset PublicHash, size S = (size KeyMap / 2 + 1)%nat /\ S ⊆ dom KeyMap /\
    forall ph, ph ∈ S ->
      KeyMap !! ph = Some true /\ exists sig, sig ∈ sigs /\ signer_of h sig ph.
Proof.
  unfold ValidateSignaturesMajority.
  destruct (Nat.eqb_spec (length sigs) (size KeyMap / 2 + 1)) as [Hlen|]; simpl; [|done].
  destruct (check_signatures h sigs KeyMap ∅) as [sm|e|w] eqn:Hc; cbn [res_bind]; [|done..].
  destruct (Nat.eqb_spec (size sm) (length sigs)) as [Hsz|]; simpl; [|done]. intros _.
  assert (forall ph, ph ∈ dom sm ->
    KeyMap !! ph = Some true /\ exists sig, sig ∈ sigs /\ signer_of h sig ph) as Hall.
  { intros ph Hph. destruct (check_signatures_spec _ _ _ _ _ Hc ph Hph) as [Hin|Hin]; [|done].
    rewrite dom_empty_L in Hin. set_solver. }
  exists (dom sm). split; [by rewrite size_dom, Hsz, Hlen|]. split; [|done].
  intros ph Hph. apply elem_of_dom. destruct (Hall ph Hph) as [-> _]. done.
Qed.
End MajorityFacts.

(** Quorum intersection: two signature lists accepted by
    [ValidateSignaturesMajority] for the same key set, possibly for two different
    hashes, have a signer in common, so two conflicting blocks are accepted only
    if some authorised observer signed both. *)
Lemma majority_quorums_intersect `{Sha256} `{Ecrecover} (h1 h2 : bytes) (sigs1 sigs2 : list bytes)
    (KeyMap : gmap PublicHash bool) :
  ValidateSignaturesMajority h1 sigs1 KeyMap = Ok tt ->
  ValidateSignaturesMajority h2 sigs2 KeyMap = Ok tt ->
  exists ph, KeyMap !! ph = Some true /\
    (exists sig, sig ∈ sigs1 /\ signer_of h1 sig ph) /\
    (exists sig, sig ∈ sigs2 /\ signer_of h2 sig ph).
Proof.
  intros (S1 & Hs1 & Hsub1 & Hin1)%ValidateSignaturesMajority_set
         (S2 & Hs2 & Hsub2 & Hin2)%ValidateSignaturesMajority_set.
  destruct (decide (S1 ∩ S2 = ∅)) as [Hdisj|Hne].
  - assert (size (S1 ∪ S2) <= size (dom KeyMap))%nat as Hle by (apply subseteq_size; set_solver).
    rewrite size_union, size_dom in Hle by set_solver.
    pose proof (Nat.div_mod_eq (size KeyMap) 2).
    pose proof (Nat.mod_upper_bound (size KeyMap) 2). lia.
  - apply set_choose_L in Hne as [ph [Hp1 Hp2]%elem_of_intersection].
    exists ph. destruct (Hin1 _ Hp1), (Hin2 _ Hp2). auto.
Qed.

(** A concrete recovery for the witnesses: the signature is the public key. *)
Instance recover_plain : Ecrecover := { recover _ sig := Ok sig }.

Lemma majority_quorums_intersect_witness :
  let K : gmap PublicHash bool := {[ NewPublicHash [1] := true ]} in
  exists ph, K !! ph = Some true /\
    (exists sig, sig ∈ [[1]] /\ signer_of [7] sig ph) /\
    (exists sig, sig ∈ [[1]] /\ signer_of [9] sig ph).
Proof.
  intros K. apply majority_quorums_intersect; vm_compute; reflexivity.
Defined.
