(* ===== verification/Factory.v ===== *)
(** * Type factories

    [common/factory/factory.go] numbers Go types so that values of an interface
    type ([types.Account], [types.Transaction], [types.Event]) can be written
    with a type number and read back; [core/types/register.go] derives the
    numbers of a process from its id; [encoding/util_factory.go] keeps one
    factory per name.  A factory keeps four maps; the theorem shows that they
    always describe one bijection between numbers and type names. *)

From stdpp Require Import base gmap list strings.
From Stdlib Require Import ZArith Lia.
From S2P Require Import Prelude Common.

(** [reflect.Type]: a named type of a package, or a pointer to a type. *)
Inductive reflect_Type :=
  | Named (PkgPath Name : bytes)
  | Ptr (elem : reflect_Type).

(** The loop [for rt.Kind() == reflect.Ptr { rt = rt.Elem() }]. *)
Fixpoint strip_ptr (rt : reflect_Type) : reflect_Type :=
  match rt with Ptr rt => strip_ptr rt | Named _ _ => rt end.

Definition typeNameOf (rt : reflect_Type) : bytes :=
  match strip_ptr rt with
  | Named pkgPath name => if (0 <? length pkgPath)%nat then pkgPath ++ str "." ++ name else name
  | Ptr _ => []
  end.

Definition ErrExistType : error := mkError "factory" "exist type".
Definition ErrExistTypeName : error := mkError "factory" "exist type name".
Definition ErrUnknownType : error := mkError "factory" "unknown type".

Record Factory := mkFactory {
  nameTypeMap : gmap bytes Z;
  nameHashTypeMap : gmap Hash256 Z;
  typeNameMap : gmap Z bytes;
  typeReflectMap : gmap Z reflect_Type
}.

Definition NewFactory : Factory := mkFactory ∅ ∅ ∅ ∅.

Section Factory.
Context `{Sha256}.

Definition Register (fc : Factory) (t : Z) (v : reflect_Type) : res Factory :=
  let rt := strip_ptr v in
  let name := typeNameOf rt in
  let h := Hash name in
  if bool_decide (is_Some (typeReflectMap fc !! t)) then Err ErrExistType
  else if bool_decide (is_Some (nameHashTypeMap fc !! h)) then Err ErrExistTypeName
  else Ok (mkFactory (<[name := t]> (nameTypeMap fc)) (<[h := t]> (nameHashTypeMap fc))
                     (<[t := name]> (typeNameMap fc)) (<[t := rt]> (typeReflectMap fc))).

Definition Create (fc : Factory) (t : Z) : res reflect_Type :=
  match typeReflectMap fc !! t with
  | None => Err ErrUnknownType
  | Some rt => Ok (Ptr rt)
  end.

Definition TypeOf (fc : Factory) (v : reflect_Type) : res Z :=
  let name := typeNameOf v in
  match nameTypeMap fc !! name with
  | None => Err ErrUnknownType
  | Some _ =>
      match nameHashTypeMap fc !! Hash name with
      | None => Err ErrUnknownType
      | Some t => Ok t
      end
  end.

Definition TypeName (fc : Factory) (t : Z) : res bytes :=
  match typeNameMap fc !! t with
  | None => Err ErrUnknownType
  | Some name => Ok name
  end.

(** ** [encoding.Factory]: the factories by name *)

Definition encoding_Factory (gFactoryMap : gmap bytes Factory) (name : bytes) : gmap bytes Factory * Factory :=
  match gFactoryMap !! name with
  | Some fc => (gFactoryMap, fc)
  | None => (<[name := NewFactory]> gFactoryMap, NewFactory)
  end.

(** ** [types.Register]: the type numbers of a process *)

(** [uint16(reg.pid)<<8 | uint16(t)]. *)
Definition type_number (pid t : Z) : Z := Z.lor (u16 (Z.shiftl pid 8)) t.

(** [RegisterTransaction], [RegisterAccount] and [RegisterEvent] differ in the
    factory; all drop the error of [Register] and return the number. *)
Definition Register_type (pid : Z) (fc : Factory) (t : Z) (v : reflect_Type) : Factory * Z :=
  let n := type_number pid t in
  (match Register fc n v with Ok fc' => fc' | _ => fc end, n).

(** ** Well-formed factories *)

Record factory_wf (fc : Factory) : Prop := mk_factory_wf {
  wf_reflect t rt : typeReflectMap fc !! t = Some rt ->
    strip_ptr rt = rt /\ typeNameMap fc !! t = Some (typeNameOf rt) /\
    nameTypeMap fc !! typeNameOf rt = Some t /\ nameHashTypeMap fc !! Hash (typeNameOf rt) = Some t;
  wf_name n t : nameTypeMap fc !! n = Some t ->
    exists rt, typeReflectMap fc !! t = Some rt /\ typeNameOf rt = n;
  wf_hash h t : nameHashTypeMap fc !! h = Some t ->
    exists rt, typeReflectMap fc !! t = Some rt /\ Hash (typeNameOf rt) = h;
  wf_typename t n : typeNameMap fc !! t = Some n -> is_Some (typeReflectMap fc !! t)
}.

Lemma strip_ptr_idem rt : strip_ptr (strip_ptr rt) = strip_ptr rt.
Proof. by induction rt. Qed.

Lemma typeNameOf_strip rt : typeNameOf (strip_ptr rt) = typeNameOf rt.
Proof. unfold typeNameOf. by rewrite strip_ptr_idem. Qed.

Lemma NewFactory_wf : factory_wf NewFactory.
Proof. by split; intros *; simpl; rewrite lookup_empty. Qed.

(** What a successful registration changes. *)
Lemma Register_inv fc t v fc' :
  Register fc t v = Ok fc' ->
  typeReflectMap fc !! t = None /\ nameHashTypeMap fc !! Hash (typeNameOf v) = None /\
  fc' = mkFactory (<[typeNameOf v := t]> (nameTypeMap fc)) (<[Hash (typeNameOf v) := t]> (nameHashTypeMap fc))
          (<[t := typeNameOf v]> (typeNameMap fc)) (<[t := strip_ptr v]> (typeReflectMap fc)).
Proof.
  unfold Register. rewrite !typeNameOf_strip. repeat case_bool_decide; try done.
  intros [= <-]. by rewrite !eq_None_not_Some.
Qed.

Lemma Register_wf fc t v fc' : factory_wf fc -> Register fc t v = Ok fc' -> factory_wf fc'.
Proof.
  intros Hwf (Ht & Hh & ->)%Register_inv. split; simpl.
  - intros t' rt [[<- <-]|[Hne Hrt]]%lookup_insert_Some.
    { by rewrite strip_ptr_idem, typeNameOf_strip, !lookup_insert_eq. }
    destruct (wf_reflect _ Hwf _ _ Hrt) as (? & ? & ? & Hrh).
    assert (Hash (typeNameOf v) <> Hash (typeNameOf rt)) by congruence.
    rewrite !lookup_insert_ne by congruence. done.
  - intros n t' [[<- <-]|[Hne Hn]]%lookup_insert_Some.
    { exists (strip_ptr v). by rewrite lookup_insert_eq, typeNameOf_strip. }
    destruct (wf_name _ Hwf _ _ Hn) as (rt & Hrt & <-). exists rt.
    by rewrite lookup_insert_ne by congruence.
  - intros h t' [[<- <-]|[Hne Hn]]%lookup_insert_Some.
    { exists (strip_ptr v). by rewrite lookup_insert_eq, typeNameOf_strip. }
    destruct (wf_hash _ Hwf _ _ Hn) as (rt & Hrt & <-). exists rt.
    by rewrite lookup_insert_ne by congruence.
  - intros t' n [[<- <-]|[Hne Hn]]%lookup_insert_Some; [by rewrite lookup_insert_eq|].
    rewrite lookup_insert_ne by done. by eapply wf_typename.
Qed.

(** A number that [Create] accepts is the number [TypeOf] gives to its type. *)
Lemma TypeOf_Create fc t v : factory_wf fc -> Create fc t = Ok v -> TypeOf fc v = Ok t.
Proof.
  unfold Create, TypeOf. intros Hwf Hc. destruct (typeReflectMap fc !! t) as [rt|] eqn:Hrt; [|done].
  inv Hc. destruct (wf_reflect _ Hwf _ _ Hrt) as (_ & _ & Hn & Hh).
  change (typeNameOf (Ptr rt)) with (typeNameOf rt). by rewrite Hn, Hh.
Qed.

Lemma Create_TypeOf fc t v :
  factory_wf fc -> TypeOf fc v = Ok t ->
  exists v', Create fc t = Ok v' /\ typeNameOf v' = typeNameOf v /\ TypeName fc t = Ok (typeNameOf v).
Proof.
  unfold Create, TypeOf, TypeName. intros Hwf Hc.
  destruct (nameTypeMap fc !! typeNameOf v) as [t'|] eqn:Hn; [|done].
  destruct (wf_name _ Hwf _ _ Hn) as (rt & Hrt & Hname).
  destruct (wf_reflect _ Hwf _ _ Hrt) as (_ & Hnm & _ & Hh). rewrite Hname in *. rewrite Hh in Hc.
  inv Hc. exists (Ptr rt). by rewrite Hrt, Hnm.
Qed.

(** Factories built by registrations, failed ones included. *)
Inductive registered : Factory -> Prop :=
  | registered_New : registered NewFactory
  | registered_Register pid fc t v : registered fc -> registered (Register_type pid fc t v).1.

Lemma registered_wf fc : registered fc -> factory_wf fc.
Proof.
  induction 1 as [|pid fc t v _ IH]; [apply NewFactory_wf|]. simpl.
  destruct (Register fc (type_number pid t) v) eqn:HR; [|done..]. by eapply Register_wf.
Qed.

(** Every factory built by registrations numbers the registered types one
    to one: the instance [Create] makes for a number has that number as its
    [TypeOf], and the number [TypeOf] gives to a value is one for which [Create]
    makes an instance of the same type name; hash collisions between type names
    cannot break this, since [Register] refuses a second name with the same
    hash. *)
Lemma factory_bijection (fc : Factory) (t : Z) (v : reflect_Type) :
  registered fc ->
  (Create fc t = Ok v -> TypeOf fc v = Ok t) /\
  (TypeOf fc v = Ok t ->
   exists v', Create fc t = Ok v' /\ typeNameOf v' = typeNameOf v /\ TypeName fc t = Ok (typeNameOf v)).
Proof.
  intros Hwf%registered_wf. split; [by apply TypeOf_Create|by apply Create_TypeOf].
Qed.
End Factory.

(** [vault.go] registers its accounts as types 1 and 2 of process 2. *)
Definition vault_account_factory : Factory :=
  let fc := (Register_type 2 NewFactory 1 (Ptr (Named (str "process/vault") (str "SingleAccount")))).1 in
  (Register_type 2 fc 2 (Ptr (Named (str "process/vault") (str "MultiAccount")))).1.

Lemma factory_bijection_witness :
  registered vault_account_factory /\
  TypeOf vault_account_factory (Ptr (Named (str "process/vault") (str "MultiAccount"))) = Ok 514 /\
  Create vault_account_factory 514 = Ok (Ptr (Named (str "process/vault") (str "MultiAccount"))).
Proof.
  assert (Hr : registered vault_account_factory) by (do 2 constructor; constructor).
  split; [done|]. assert (Create vault_account_factory 514
    = Ok (Ptr (Named (str "process/vault") (str "MultiAccount")))) as Hc by (vm_compute; reflexivity).
  split; [|done]. by apply (factory_bijection vault_account_factory 514).
Defined.
