(* ===== verification/OrderedMap.v ===== *)
(** * Ordered maps

    The sixteen wrappers [core/types/map_*.go] over the LLRB tree of
    [github.com/petar/GoLLRB].  All are one program up to the key and value
    types: a pair type ordered by its key with two sentinels ([ninf], [pinf] of
    [core/types/util.go]), the operations [Len], [Has], [Get], [Put], [Delete],
    [EachAll] (and [EachPrefix] for string keys) and a registered encoder and
    decoder.  The tree is a parameter ([LLRB]); the wrappers are defined over it
    and shown to implement finite maps with a key-ordered traversal. *)

From stdpp Require Import base gmap list sorting strings.
From Stdlib Require Import ZArith Lia.
From S2P Require Import Prelude Amount Common Factory.

(** ** Keys *)

Class KeyOrder (K : Type) := {
  klt : K -> K -> bool;
  klt_irrefl : forall a, klt a a = false;
  klt_trans : forall a b c, klt a b = true -> klt b c = true -> klt a c = true;
  klt_total : forall a b, klt a b = true \/ a = b \/ klt b a = true
}.

#[refine, global] Instance key_bytes : KeyOrder bytes := { klt := bytes_lt }.
Proof.
  - apply bytes_lt_irrefl.
  - apply bytes_lt_trans.
  - apply bytes_lt_total.
Defined.

#[refine, global] Instance key_uint : KeyOrder Z := { klt := Z.ltb }.
Proof.
  - apply Z.ltb_irrefl.
  - intros a b c ??. bool_to_prop. apply Z.ltb_lt. lia.
  - intros a b. rewrite !Z.ltb_lt. lia.
Defined.

(** ** Items: pairs and the two sentinels *)

Inductive item (K V : Type) : Type :=
  | NInf
  | PInf
  | Pair (key : K) (value : V).
Arguments NInf {K V}.
Arguments PInf {K V}.
Arguments Pair {K V} key value.

(** The [Less] methods of [pairXMap], [nInf] and [pInf]. *)
Definition item_Less {K V} `{KeyOrder K} (a b : item K V) : bool :=
  match a with
  | NInf => true
  | PInf => false
  | Pair k _ =>
      match b with
      | NInf => false
      | PInf => true
      | Pair k' _ => klt k k'
      end
  end.

(** ** The tree (parameter) *)

Section Reference.
Context {I : Type} (less : I -> I -> bool).

Definition same (x y : I) : bool := negb (less x y) && negb (less y x).

(** Insertion into an ascending list; an equivalent item is replaced. *)
Fixpoint insert_item (x : I) (l : list I) : list I :=
  match l with
  | [] => [x]
  | y :: l =>
      if less x y then x :: y :: l
      else if less y x then y :: insert_item x l
      else x :: l
  end.

Fixpoint find_item (x : I) (l : list I) : option I :=
  match l with
  | [] => None
  | y :: l => if same x y then Some y else find_item x l
  end.
End Reference.

(** Documented behaviour of [llrb.LLRB]: an ordered set of items, up to the
    equivalence that [Less] induces. *)
Class LLRB (I : Type) (less : I -> I -> bool) := {
  llrb : Type;
  items : llrb -> list I;
  llrb_New : llrb;
  llrb_Len : llrb -> nat;
  llrb_Has : llrb -> I -> bool;
  llrb_Get : llrb -> I -> option I;
  llrb_ReplaceOrInsert : llrb -> I -> llrb;
  llrb_Delete : llrb -> I -> llrb;
  llrb_AscendRange : llrb -> I -> I -> list I;
  items_New : items llrb_New = [];
  llrb_Len_spec t : llrb_Len t = length (items t);
  llrb_Get_spec t x : llrb_Get t x = find_item less x (items t);
  llrb_Has_spec t x : llrb_Has t x = bool_decide (is_Some (find_item less x (items t)));
  items_ReplaceOrInsert t x : items (llrb_ReplaceOrInsert t x) = insert_item less x (items t);
  items_Delete t x : items (llrb_Delete t x) = base.filter (fun y => same less x y = false) (items t);
  llrb_AscendRange_spec t ge lt :
    llrb_AscendRange t ge lt = base.filter (fun y => negb (less y ge) && less y lt = true) (items t)
}.

(** Ascending lists have this behaviour. *)
#[refine] Instance llrb_list (I : Type) (less : I -> I -> bool) : LLRB I less := {
  llrb := list I;
  items t := t;
  llrb_New := [];
  llrb_Len t := length t;
  llrb_Has t x := bool_decide (is_Some (find_item less x t));
  llrb_Get t x := find_item less x t;
  llrb_ReplaceOrInsert t x := insert_item less x t;
  llrb_Delete t x := base.filter (fun y => same less x y = false) t;
  llrb_AscendRange t ge lt := base.filter (fun y => negb (less y ge) && less y lt = true) t
}.
Proof. all: done. Defined.

Lemma strongly_sorted_filter {A} (R : relation A) (P : A -> Prop) `{!forall x, Decision (P x)} l :
  StronglySorted R l -> StronglySorted R (base.filter P l).
Proof.
  induction 1 as [|x l Hl IH Hx]; [constructor|]. rewrite filter_cons.
  case_decide; [|done]. constructor; [done|]. apply Forall_forall.
  intros y Hy. apply list_elem_of_filter in Hy as [_ Hy]. rewrite Forall_forall in Hx. by apply Hx.
Qed.

(** ** The wrapper operations *)

Section Wrapper.
Context {K V : Type} `{KeyOrder K} `{Countable K} `{Inhabited V}.
Context `{T : !LLRB (item K V) item_Less}.

Abbreviation xmap := (llrb (LLRB := T)).

Definition NewMap : xmap := llrb_New.
Definition Len (sm : xmap) : nat := llrb_Len sm.
Definition Has (sm : xmap) (k : K) : bool := llrb_Has sm (Pair k inhabitant).
Definition Get (sm : xmap) (k : K) : option V :=
  match llrb_Get sm (Pair k inhabitant) with
  | Some (Pair _ v) => Some v
  | _ => None
  end.
Definition Put (sm : xmap) (k : K) (v : V) : xmap := llrb_ReplaceOrInsert sm (Pair k v).
Definition Delete (sm : xmap) (k : K) : xmap := llrb_Delete sm (Pair k inhabitant).

(** Iteration with a callback that may stop it by returning [false]. *)
Fixpoint iterate {S} (l : list (item K V)) (fn : K -> V -> S -> S * bool) (s : S) : S :=
  match l with
  | [] => s
  | Pair k v :: l => let '(s, go_on) := fn k v s in if go_on : bool then iterate l fn s else s
  | _ :: l => iterate l fn s
  end.

Definition EachAll {S} (sm : xmap) (fn : K -> V -> S -> S * bool) (s : S) : S :=
  iterate (llrb_AscendRange sm NInf PInf) fn s.

(** The finite map a tree stands for. *)
Fixpoint pairs (l : list (item K V)) : list (K * V) :=
  match l with
  | [] => []
  | Pair k v :: l => (k, v) :: pairs l
  | _ :: l => pairs l
  end.

Definition contents (sm : xmap) : gmap K V := list_to_map (pairs (items sm)).

(** Well-formed: only pairs, strictly ascending. *)
Definition only_pairs (l : list (item K V)) : Prop :=
  Forall (fun i => exists k v, i = Pair k v) l.

Definition map_wf (sm : xmap) : Prop :=
  only_pairs (items sm) /\ StronglySorted (fun a b => item_Less a b = true) (items sm).

Lemma klt_asym a b : klt a b = true -> klt b a = false.
Proof.
  intros Hab. destruct (klt b a) eqn:Hba; [|done].
  pose proof (klt_trans _ _ _ Hab Hba) as Haa. by rewrite klt_irrefl in Haa.
Qed.

Lemma same_pair (k k' : K) (v v' : V) : same item_Less (Pair k v) (Pair k' v') = bool_decide (k = k').
Proof.
  unfold same. simpl. destruct (klt_total k k') as [Hlt|[<-|Hlt]].
  - rewrite Hlt. simpl. symmetry. apply bool_decide_eq_false. intros ->. by rewrite klt_irrefl in Hlt.
  - rewrite klt_irrefl. simpl. symmetry. by apply bool_decide_eq_true.
  - rewrite Hlt, (klt_asym _ _ Hlt). simpl. symmetry. apply bool_decide_eq_false.
    intros ->. by rewrite klt_irrefl in Hlt.
Qed.

Lemma find_pairs l k (v0 : V) :
  only_pairs l ->
  find_item item_Less (Pair k v0) l = (Pair k) <$> (list_to_map (pairs l) : gmap K V) !! k.
Proof.
  induction 1 as [|? l (k' & v & ->) _ IH]; simpl; [by rewrite lookup_empty|].
  rewrite same_pair. case_bool_decide as E; [subst; by rewrite lookup_insert_eq|].
  by rewrite lookup_insert_ne.
Qed.

Lemma insert_pairs l k v :
  only_pairs l -> StronglySorted (fun a b => item_Less a b = true) l ->
  only_pairs (insert_item item_Less (Pair k v) l) /\
  StronglySorted (fun a b => item_Less a b = true) (insert_item item_Less (Pair k v) l) /\
  (list_to_map (pairs (insert_item item_Less (Pair k v) l)) : gmap K V)
    = <[k := v]> (list_to_map (pairs l)) /\
  (forall i, i ∈ insert_item item_Less (Pair k v) l -> i = Pair k v \/ i ∈ l).
Proof.
  intros Hp. induction Hp as [|? l (k' & v' & ->) Hp IH]; intros Hs; simpl.
  { split_and!; try done; [repeat constructor; by eexists _, _|repeat constructor|].
    intros i Hi%list_elem_of_singleton. auto. }
  inv Hs as [|? ? Hs' Hall]. destruct (IH Hs') as (IHp & IHs & IHm & IHe).
  destruct (klt k k') eqn:Ekk'; [|destruct (klt k' k) eqn:Ek'k].
  - split_and!; [|constructor; [by constructor|]| |set_solver].
    + constructor; [by eexists _, _|]. constructor; [by eexists _, _|done].
    + constructor; [done|]. rewrite Forall_forall in Hall |- *. intros i Hi.
      specialize (Hall i Hi). unfold only_pairs in Hp. rewrite Forall_forall in Hp.
      destruct (Hp i Hi) as (k2 & v2 & ->). simpl in *. by eapply klt_trans.
    + done.
  - split_and!.
    + constructor; [by eexists _, _|done].
    + constructor; [done|]. rewrite Forall_forall in Hall |- *. intros i Hi.
      destruct (IHe i Hi) as [->|Hi']; [done|]. by apply Hall.
    + simpl. rewrite IHm, insert_insert_ne; [done|]. intros ->. by rewrite klt_irrefl in Ek'k.
    + intros i [->|Hi]%elem_of_cons; [set_solver|]. destruct (IHe i Hi); set_solver.
  - destruct (klt_total k k') as [?|[<-|?]]; [congruence| |congruence].
    split_and!.
    + constructor; [by eexists _, _|done].
    + constructor; [done|]. rewrite Forall_forall in Hall |- *. intros i Hi.
      specialize (Hall i Hi). unfold only_pairs in Hp. rewrite Forall_forall in Hp.
      destruct (Hp i Hi) as (k2 & v2 & ->). done.
    + simpl. by rewrite insert_insert_eq.
    + set_solver.
Qed.

Lemma delete_pairs l k (v0 : V) :
  only_pairs l -> StronglySorted (fun a b => item_Less a b = true) l ->
  let l' := base.filter (fun y => same item_Less (Pair k v0) y = false) l in
  only_pairs l' /\ StronglySorted (fun a b => item_Less a b = true) l' /\
  (list_to_map (pairs l') : gmap K V) = delete k (list_to_map (pairs l)).
Proof.
  intros Hp Hs l'. split; [|split].
  - apply Forall_forall. intros i Hi. apply list_elem_of_filter in Hi as [_ Hi].
    unfold only_pairs in Hp. rewrite Forall_forall in Hp. by apply Hp.
  - apply strongly_sorted_filter; done.
  - subst l'. clear Hs. induction Hp as [|? l (k' & v' & ->) Hp IH]; [by simpl; rewrite delete_empty|].
    rewrite filter_cons, same_pair. simpl. case_bool_decide as E; simpl.
    + subst. destruct (decide (true = false)); [done|]. by rewrite IH, delete_insert_eq.
    + destruct (decide (false = false)); [|done]. simpl. by rewrite IH, delete_insert_ne.
Qed.

Lemma EachAll_items {S} sm (fn : K -> V -> S -> S * bool) s :
  map_wf sm -> EachAll sm fn s = iterate (items sm) fn s.
Proof.
  intros [Hp _]. unfold EachAll. f_equal. rewrite llrb_AscendRange_spec.
  induction Hp as [|? l (k & v & ->) Hp IH]; [done|].
  rewrite filter_cons_True by done. by rewrite IH.
Qed.

#[local] Instance item_Less_antisym : AntiSymm (=) (fun a b : item K V => item_Less a b = true).
Proof.
  intros [| |k v] [| |k' v']; simpl; try done. intros Hl Hr.
  by rewrite (klt_asym _ _ Hl) in Hr.
Qed.

Lemma pairs_nodup l :
  only_pairs l -> StronglySorted (fun a b => item_Less a b = true) l -> NoDup (pairs l).*1.
Proof.
  intros Hp. induction Hp as [|? l (k & v & ->) Hp IH]; intros Hs; simpl; [constructor|].
  inv Hs as [|? ? Hs' Hall]. constructor; [|by apply IH].
  intros Hin. clear IH Hs'. induction Hp as [|? l (k' & v' & ->) Hp IH]; simpl in Hin; [by inv Hin|].
  apply Forall_cons in Hall as [Hk Hall]. apply elem_of_cons in Hin as [->|Hin].
  - simpl in Hk. by rewrite klt_irrefl in Hk.
  - by apply IH.
Qed.

Lemma items_pairs l : only_pairs l -> l = (fun p => Pair p.1 p.2) <$> pairs l.
Proof. induction 1 as [|? l (k & v & ->) _ IH]; [done|]. cbn. f_equal. exact IH. Qed.

(** A well-formed map is determined by its contents. *)
Lemma items_unique sm sm' :
  map_wf sm -> map_wf sm' -> contents sm = contents sm' -> items sm = items sm'.
Proof.
  intros [Hp Hs] [Hp' Hs'] Hc.
  apply (StronglySorted_unique (fun a b => item_Less a b = true)); [done..|].
  rewrite (items_pairs _ Hp), (items_pairs _ Hp'). apply fmap_Permutation.
  rewrite <- (map_to_list_to_map (M := gmap K) (pairs (items sm))) by (by apply pairs_nodup).
  rewrite <- (map_to_list_to_map (M := gmap K) (pairs (items sm'))) by (by apply pairs_nodup).
  unfold contents in Hc. by rewrite Hc.
Qed.

Lemma Put_contents sm k v :
  map_wf sm -> map_wf (Put sm k v) /\ contents (Put sm k v) = <[k := v]> (contents sm).
Proof.
  intros [Hp Hs]. unfold map_wf, contents, Put. rewrite items_ReplaceOrInsert.
  destruct (insert_pairs (items sm) k v Hp Hs) as (? & ? & ? & _). auto.
Qed.

Lemma Delete_contents sm k :
  map_wf sm -> map_wf (Delete sm k) /\ contents (Delete sm k) = delete k (contents sm).
Proof.
  intros [Hp Hs]. unfold map_wf, contents, Delete. rewrite items_Delete.
  destruct (delete_pairs (items sm) k inhabitant Hp Hs) as (? & ? & ?). auto.
Qed.

Lemma Get_contents sm k : map_wf sm -> Get sm k = contents sm !! k.
Proof.
  intros [Hp _]. unfold Get, contents. rewrite llrb_Get_spec, find_pairs by done.
  by destruct (list_to_map (pairs (items sm)) !! k).
Qed.

Lemma Has_contents sm k : map_wf sm -> Has sm k = bool_decide (is_Some (contents sm !! k)).
Proof.
  intros [Hp _]. unfold Has, contents. rewrite llrb_Has_spec, find_pairs by done.
  apply bool_decide_ext. by rewrite fmap_is_Some.
Qed.

Lemma Len_contents sm : map_wf sm -> Len sm = size (contents sm).
Proof.
  intros [Hp Hs]. unfold Len, contents. rewrite llrb_Len_spec.
  rewrite <- length_map_to_list, (map_to_list_to_map (pairs (items sm))) by (by apply pairs_nodup).
  rewrite (items_pairs _ Hp) at 1. apply length_fmap.
Qed.

Lemma NewMap_contents : map_wf NewMap /\ contents NewMap = ∅.
Proof.
  unfold map_wf, contents, NewMap. rewrite items_New. repeat split; constructor.
Qed.
End Wrapper.

(** ** Encoding

    [msgpack] is a parameter: a coder of a type writes a value and reads it back
    from the front of a stream. *)

Class Coder (A : Type) := {
  encode : A -> res bytes;
  decode : bytes -> res (A * bytes);
  codable : A -> Prop;
  decode_encode : forall a bs rest,
    codable a -> encode a = Ok bs -> decode (bs ++ rest) = Ok (a, rest)
}.

(** [EncodeArrayLen] and [DecodeArrayLen]. *)
Class ArrayLenCoder := {
  EncodeArrayLen : nat -> bytes;
  DecodeArrayLen : bytes -> res (Z * bytes);
  DecodeArrayLen_Encode : forall n rest,
    DecodeArrayLen (EncodeArrayLen n ++ rest) = Ok (Z.of_nat n, rest)
}.

Section Codec.
Context {K V : Type} `{KeyOrder K} `{Countable K} `{Inhabited V}.
Context `{T : !LLRB (item K V) item_Less} `{ArrayLenCoder} `{CK : !Coder K} `{CV : !Coder V}.

(** The encoder registered for the map: length, then every key and value in
    ascending order; the first error stops the iteration and is returned. *)
Definition encode_entry (k : K) (v : V) (acc : res bytes) : res bytes * bool :=
  match (let? buf := acc in let? bk := encode k in let? bv := encode v in
         Ok (buf ++ bk ++ bv)) with
  | Ok buf => (Ok buf, true)
  | e => (e, false)
  end.

Definition encode_map (sm : llrb (LLRB := T)) : res bytes :=
  EachAll sm encode_entry (Ok (EncodeArrayLen (Len sm))).

Fixpoint decode_entries (n : nat) (sm : llrb (LLRB := T)) (bs : bytes) : res (llrb (LLRB := T) * bytes) :=
  match n with
  | O => Ok (sm, bs)
  | S n =>
      let? (k, bs) := decode bs in
      let? (v, bs) := decode bs in
      decode_entries n (Put sm k v) bs
  end.

Definition decode_map (bs : bytes) : res (llrb (LLRB := T) * bytes) :=
  let? (n, bs) := DecodeArrayLen bs in
  decode_entries (Z.to_nat n) NewMap bs.

Definition entries_codable (l : list (item K V)) : Prop :=
  Forall (fun i => match i with Pair k v => codable k /\ codable v | _ => True end) l.
End Codec.

(** [EachPrefix] of the string-keyed maps: the range from [prefix] to
    [prefix + "\xff"]. *)
Definition EachPrefix {V S} `{Inhabited V} `{T : !LLRB (item bytes V) item_Less}
    (sm : llrb (LLRB := T)) (prefix : bytes) (fn : bytes -> V -> S -> S * bool) (s : S) : S :=
  iterate (llrb_AscendRange sm (Pair prefix inhabitant) (Pair (prefix ++ [255]) inhabitant)) fn s.

Section CodecFacts.
Context {K V : Type} `{KeyOrder K} `{Countable K} `{Inhabited V}.
Context `{T : !LLRB (item K V) item_Less} `{ArrayLenCoder} `{CK : !Coder K} `{CV : !Coder V}.

Lemma iterate_error (l : list (item K V)) (r : res bytes) :
  is_ok r = false -> iterate l encode_entry r = r.
Proof. destruct l as [|[| |k v] l]; destruct r; try done; simpl; intros _; induction l as [|[]]; auto. Qed.

Lemma decode_entries_spec (l : list (item K V)) (buf bs rest : bytes) (sm : llrb (LLRB := T)) :
  only_pairs l -> entries_codable l -> map_wf sm ->
  iterate l encode_entry (Ok buf) = Ok bs ->
  exists body sm', bs = buf ++ body /\
    decode_entries (length l) sm (body ++ rest) = Ok (sm', rest) /\ map_wf sm' /\
    contents sm' = foldl (fun m p => <[p.1 := p.2]> m) (contents sm) (pairs l).
Proof.
  intros Hp. revert buf bs sm; induction Hp as [|? l (k & v & ->) Hp IH];
    intros buf bs sm Hc Hwf Henc; cbn [iterate] in Henc.
  { injection Henc as <-. exists [], sm. rewrite app_nil_r. auto. }
  apply Forall_cons in Hc as [[Hck Hcv] Hc]. unfold encode_entry in Henc at 1. cbn [res_bind] in Henc.
  destruct (encode k) as [bk| |] eqn:Ek; cbn [res_bind] in Henc; try discriminate Henc.
  destruct (encode v) as [bv| |] eqn:Ev; cbn [res_bind] in Henc; try discriminate Henc.
  destruct (Put_contents sm k v Hwf) as [Hwf' Hput].
  destruct (IH _ _ (Put sm k v) Hc Hwf' Henc) as (body & sm' & -> & Hdec & Hwf'' & Hcon).
  exists (bk ++ bv ++ body), sm'. split; [by rewrite !app_assoc|].
  cbn [length decode_entries]. rewrite <- !app_assoc.
  rewrite (decode_encode k bk _ Hck Ek). cbn [res_bind].
  rewrite (decode_encode v bv _ Hcv Ev). cbn [res_bind].
  split; [done|]. split; [done|]. by rewrite Hcon, Hput.
Qed.

Lemma foldl_insert_list (l : list (K * V)) (m : gmap K V) :
  NoDup l.*1 -> (forall k, k ∈ l.*1 -> m !! k = None) ->
  foldl (fun m p => <[p.1 := p.2]> m) m l = list_to_map l ∪ m.
Proof.
  revert m; induction l as [|[k v] l IH]; intros m Hnd Hfresh; cbn; [by rewrite (left_id_L ∅ (∪))|].
  cbn in Hnd. apply NoDup_cons in Hnd as [Hk Hnd]. rewrite IH; [|done|].
  - rewrite <- insert_union_l. rewrite insert_union_r; [done|]. by apply not_elem_of_list_to_map.
  - intros k' Hk'. rewrite lookup_insert_ne by (intros ->; done). apply Hfresh. by right.
Qed.
End CodecFacts.

(** ** The sixteen map types *)

(** What distinguishes the files: the key order of [Less], and how the registered
    encoder and decoder write and read one key and one value. *)
Record MapKind (K V : Type) := mkMapKind {
  mk_order : KeyOrder K;
  mk_key : Coder K;
  mk_value : Coder V
}.
Arguments mkMapKind {K V} mk_order mk_key mk_value.
Arguments mk_order {K V} m.
Arguments mk_key {K V} m.
Arguments mk_value {K V} m.

(** The encoder and the decoder that a file's [init] registers. *)
Section KindCodec.
Context {K V : Type} `{Countable K} `{Inhabited V} `{ArrayLenCoder} (M : MapKind K V).
Context `{T : !LLRB (item K V) (item_Less (H := mk_order M))}.

Definition kind_Encode (sm : llrb (LLRB := T)) : res bytes :=
  encode_map (T := T) (CK := mk_key M) (CV := mk_value M) sm.

Definition kind_Decode (bs : bytes) : res (llrb (LLRB := T) * bytes) :=
  decode_map (T := T) (CK := mk_key M) (CV := mk_value M) bs.

Definition kind_codable (sm : llrb (LLRB := T)) : Prop :=
  entries_codable (CK := mk_key M) (CV := mk_value M) (items sm).
End KindCodec.

(** The encoder registered for [Amount]: its byte form. *)
#[refine] Instance coder_amount (C : Coder bytes) : Coder Amount := {
  encode a := encode (Bytes a);
  decode bs := let? (b, bs) := decode bs in Ok (NewAmountFromBytes b, bs);
  codable a := 0 <= a /\ codable (Bytes a)
}.
Proof.
  intros a bs rest [Ha Hc] He. rewrite (decode_encode _ _ _ Hc He). cbn [res_bind].
  rewrite FromBytes_Bytes, Z.abs_eq by done. done.
Defined.

(** Values of an interface type: [msgpack] writes and reads a value of a known
    type; the type number comes from the factory. *)
Class TypedValue (A : Type) := {
  value_type : A -> reflect_Type;
  encode_value : A -> res bytes;
  decode_value : reflect_Type -> bytes -> res (A * bytes);
  codable_value : A -> Prop;
  decode_value_encode : forall a bs rest, codable_value a -> encode_value a = Ok bs ->
    decode_value (Ptr (strip_ptr (value_type a))) (bs ++ rest) = Ok (a, rest)
}.

(** The account entries of [map_address_account.go]: [fc.TypeOf], the number as
    a [uint16], then the value; on the way back [fc.Create] of the number. *)
#[refine] Instance coder_typed `{Sha256} {A} `{TypedValue A} (cUint16 : Coder Z) (fc : Factory)
    (Hfc : registered fc) : Coder A := {
  encode a :=
    let? t := TypeOf fc (value_type a) in
    let? bt := encode t in
    let? bv := encode_value a in
    Ok (bt ++ bv);
  decode bs :=
    let? (t, bs) := decode bs in
    let? v := Create fc t in
    decode_value v bs;
  codable a :=
    codable_value a /\
    exists t, codable t /\ Create fc t = Ok (Ptr (strip_ptr (value_type a)))
}.
Proof.
  intros a bs rest [Hv (t & Ht & Hc)] He.
  assert (TypeOf fc (value_type a) = Ok t) as HT.
  { apply (TypeOf_Create fc t _ (registered_wf fc Hfc)) in Hc. revert Hc. unfold TypeOf.
    by rewrite <- (typeNameOf_strip (value_type a)). }
  rewrite HT in He. cbn [res_bind] in He.
  destruct (encode t) as [bt| |] eqn:Ebt; cbn [res_bind] in He; try done.
  destruct (encode_value a) as [bv| |] eqn:Ebv; cbn [res_bind] in He; try done. inv He.
  rewrite <- app_assoc, (decode_encode _ _ _ Ht Ebt). cbn [res_bind]. rewrite Hc. cbn [res_bind].
  by apply decode_value_encode.
Defined.

Section Kinds.
Context {Account TxOut UTXO SubMap SubAmountMap : Type}.
(** [msgpack] coders of the scalar and record types, the account factory. *)
Context (cAddress cPublicHash cString cBytes : Coder bytes)
        (cUint8 cUint16 cUint32 cUint64 : Coder Z) (cBool : Coder bool)
        (cTxOut : Coder TxOut) (cUTXO : Coder UTXO)
        (cStringBytesMap : Coder SubMap) (cAddressAmountMap : Coder SubAmountMap).
Context `{Sha256} `{TypedValue Account} (fc : Factory) (Hfc : registered fc).

Definition AddressAccountMap : MapKind Address Account :=
  mkMapKind key_bytes cAddress (coder_typed cUint16 fc Hfc).
Definition AddressAddressMap : MapKind Address Address := mkMapKind key_bytes cAddress cAddress.
Definition AddressAddressAmountMap : MapKind Address SubAmountMap := mkMapKind key_bytes cAddress cAddressAmountMap.
Definition AddressAmountMap : MapKind Address Amount := mkMapKind key_bytes cAddress (coder_amount cBytes).
Definition AddressBoolMap : MapKind Address bool := mkMapKind key_bytes cAddress cBool.
Definition AddressUint32Map : MapKind Address Z := mkMapKind key_bytes cAddress cUint32.
Definition AddressUint64Map : MapKind Address Z := mkMapKind key_bytes cAddress cUint64.
Definition PublicHashBoolMap : MapKind PublicHash bool := mkMapKind key_bytes cPublicHash cBool.
Definition StringAddressMap : MapKind bytes Address := mkMapKind key_bytes cString cAddress.
Definition StringBoolMap : MapKind bytes bool := mkMapKind key_bytes cString cBool.
Definition StringBytesMap : MapKind bytes bytes := mkMapKind key_bytes cString cBytes.
Definition StringStringMap : MapKind bytes bytes := mkMapKind key_bytes cString cString.
Definition Uint8StringBytesMap : MapKind Z SubMap := mkMapKind key_uint cUint8 cStringBytesMap.
Definition Uint64BoolMap : MapKind Z bool := mkMapKind key_uint cUint64 cBool.
Definition Uint64TxOutMap : MapKind Z TxOut := mkMapKind key_uint cUint64 cTxOut.
Definition Uint64UTXOMap : MapKind Z UTXO := mkMapKind key_uint cUint64 cUTXO.
End Kinds.

(** ** Properties *)

Section Theorems.
Context {K V : Type} `{Countable K} `{Inhabited V} `{ArrayLenCoder} (M : MapKind K V).
#[local] Instance kind_order : KeyOrder K := mk_order M.
Context `{T : !LLRB (item K V) (item_Less (H := mk_order M))}.

(** C30. For each of the map types, the wrappers implement a finite map: [Put], [Delete],
    [Get], [Has] and [Len] act on the contents as insertion, deletion, lookup,
    membership and cardinality, and keep the tree well-formed. *)
Theorem ordered_map_refines_gmap (sm : llrb (LLRB := T)) (k : K) (v : V) :
  map_wf sm ->
  (map_wf (Put sm k v) /\ contents (Put sm k v) = <[k := v]> (contents sm)) /\
  (map_wf (Delete sm k) /\ contents (Delete sm k) = delete k (contents sm)) /\
  (forall k', Get sm k' = contents sm !! k') /\
  (forall k', Has sm k' = bool_decide (is_Some (contents sm !! k'))) /\
  Len sm = size (contents sm).
Proof.
  intros Hwf. split_and!; try apply Put_contents; try apply Delete_contents; try done.
  - intros. by apply Get_contents.
  - intros. by apply Has_contents.
  - by apply Len_contents.
Qed.

(** The decoder of a map type undoes its encoder. *)
Lemma kind_Decode_Encode (sm : llrb (LLRB := T)) (bs rest : bytes) :
  map_wf sm -> kind_codable M sm -> kind_Encode M sm = Ok bs ->
  exists sm', kind_Decode M (bs ++ rest) = Ok (sm', rest) /\ map_wf sm' /\ contents sm' = contents sm.
Proof.
  intros Hwf Hc Henc. unfold kind_codable in Hc. unfold kind_Encode, encode_map in Henc. rewrite EachAll_items in Henc by done.
  destruct (NewMap_contents (T := T)) as [Hwf0 Hc0].
  destruct (decode_entries_spec (items sm) _ _ rest NewMap (proj1 Hwf) Hc Hwf0 Henc)
    as (body & sm' & -> & Hdec & Hwf' & Hcon).
  exists sm'. split; [|split; [done|]].
  - unfold kind_Decode, decode_map. rewrite <- app_assoc, DecodeArrayLen_Encode. cbn [res_bind].
    rewrite Nat2Z.id. unfold Len. rewrite llrb_Len_spec. exact Hdec.
  - rewrite Hcon, Hc0, foldl_insert_list; [by rewrite (right_id_L ∅ (∪))| |].
    + apply pairs_nodup; apply Hwf.
    + intros; apply lookup_empty.
Qed.

(** Encoding a map and decoding the result gives a map with the same
    contents and leaves the rest of the stream, for every map type. *)
Lemma ordered_map_roundtrip (sm : llrb (LLRB := T)) (bs rest : bytes) :
  map_wf sm -> kind_codable M sm -> kind_Encode M sm = Ok bs ->
  exists sm', kind_Decode M (bs ++ rest) = Ok (sm', rest) /\ map_wf sm' /\ contents sm' = contents sm.
Proof. apply kind_Decode_Encode. Qed.

(** The encoding is canonical: maps with the same contents encode to the
    same bytes, whatever the insertion order and the shape of the trees, so the
    context hash is a function of the state. *)
Lemma ordered_map_encoding_canonical (sm sm' : llrb (LLRB := T)) :
  map_wf sm -> map_wf sm' -> contents sm = contents sm' -> kind_Encode M sm = kind_Encode M sm'.
Proof.
  intros Hwf Hwf' Hc. unfold kind_Encode, encode_map, Len. rewrite !EachAll_items, !llrb_Len_spec by done.
  by rewrite (items_unique sm sm' Hwf Hwf' Hc).
Qed.
End Theorems.

(** ** Concrete coders for the witnesses: one byte for a number, a length byte
    before a byte string *)

#[refine] Instance coder_byte : Coder Z := {
  encode z := Ok [z];
  decode bs := match bs with b :: bs => Ok (b, bs) | [] => Err (mkError "io" "EOF") end;
  codable z := True
}.
Proof. intros a bs rest _ [= <-]. done. Defined.

#[refine] Instance coder_blob : Coder bytes := {
  encode s := Ok (Z.of_nat (length s) :: s);
  decode bs := match bs with
               | n :: bs => Ok (take (Z.to_nat n) bs, drop (Z.to_nat n) bs)
               | [] => Err (mkError "io" "EOF")
               end;
  codable s := True
}.
Proof.
  intros a bs rest _ [= <-]. cbn [app]. rewrite Nat2Z.id, take_app_length, drop_app_length. done.
Defined.

#[refine] Instance arraylen_byte : ArrayLenCoder := {
  EncodeArrayLen n := [Z.of_nat n];
  DecodeArrayLen bs := match bs with b :: bs => Ok (b, bs) | [] => Err (mkError "io" "EOF") end
}.
Proof. done. Defined.

(** An [AddressUint64Map] (the sequence numbers of a context). *)
Definition sample_kind : MapKind Address Z := AddressUint64Map coder_blob coder_byte.

Definition sample_map : llrb (LLRB := llrb_list (item Address Z) item_Less) :=
  Put (Put (Put NewMap [5] 50) [3] 30) [5] 55.

Lemma sample_map_wf : map_wf sample_map.
Proof. repeat (apply Put_contents). apply NewMap_contents. Qed.

Lemma ordered_map_refines_gmap_witness :
  (map_wf (Put sample_map [4] 40) /\ contents (Put sample_map [4] 40) = <[[4] := 40]> (contents sample_map)) /\
  (map_wf (Delete sample_map [4]) /\ contents (Delete sample_map [4]) = delete [4] (contents sample_map)) /\
  (forall k', Get sample_map k' = contents sample_map !! k') /\
  (forall k', Has sample_map k' = bool_decide (is_Some (contents sample_map !! k'))) /\
  Len sample_map = size (contents sample_map).
Proof. apply (ordered_map_refines_gmap sample_kind). apply sample_map_wf. Defined.

Lemma ordered_map_roundtrip_witness :
  exists sm', kind_Decode sample_kind ([2; 1; 3; 30; 1; 5; 55] ++ [9]) = Ok (sm', [9]) /\
    map_wf sm' /\ contents sm' = contents sample_map.
Proof.
  apply (ordered_map_roundtrip sample_kind sample_map [2; 1; 3; 30; 1; 5; 55] [9]).
  - apply sample_map_wf.
  - repeat constructor.
  - vm_compute. reflexivity.
Defined.

Lemma ordered_map_encoding_canonical_witness :
  kind_Encode sample_kind sample_map
  = kind_Encode sample_kind (Put (Put (NewMap (T := llrb_list (item Address Z) item_Less)) [3] 30) [5] 55).
Proof.
  apply (ordered_map_encoding_canonical sample_kind);
    [apply sample_map_wf| |vm_compute; reflexivity].
  repeat (apply Put_contents). apply NewMap_contents.
Defined.

(** ** [EachPrefix] *)

Section Prefix.
Context {V : Type} `{Inhabited V} `{T : !LLRB (item bytes V) item_Less}.

Lemma filter_insert_item (P : item bytes V -> Prop) `{!forall x, Decision (P x)} k v l :
  only_pairs l -> (forall w, ~ P (Pair k w)) ->
  base.filter P (insert_item item_Less (Pair k v) l) = base.filter P l.
Proof.
  intros Hp HP. induction Hp as [|? l (k' & v' & ->) Hp IH]; simpl.
  { by rewrite filter_cons_False. }
  destruct (bytes_lt k k') eqn:E1; [by rewrite filter_cons_False|].
  destruct (bytes_lt k' k) eqn:E2.
  - rewrite !filter_cons, IH. done.
  - destruct (bytes_lt_total k k') as [?|[<-|?]]; [congruence| |congruence].
    by rewrite !filter_cons_False.
Qed.

Lemma bytes_lt_prefix p x y : bytes_lt (p ++ x) (p ++ y) = bytes_lt x y.
Proof. unfold bytes_lt. induction p as [|c p IH]; simpl; [done|]. by rewrite Z.compare_refl. Qed.

(** [EachPrefix] stops at [prefix + "\xff"], so an entry whose key
    continues the prefix with the byte 255 is never visited although it has the
    prefix. *)
Lemma EachPrefix_misses_ff {S} (sm : llrb (LLRB := T)) (p x : bytes) (v : V)
    (fn : bytes -> V -> S -> S * bool) (s : S) :
  map_wf sm ->
  Get (Put sm (p ++ 255 :: x) v) (p ++ 255 :: x) = Some v /\
  EachPrefix (Put sm (p ++ 255 :: x) v) p fn s = EachPrefix sm p fn s.
Proof.
  intros Hwf. split.
  - destruct (Put_contents sm (p ++ 255 :: x) v Hwf) as [Hwf' Hc].
    by rewrite Get_contents, Hc, lookup_insert_eq.
  - unfold EachPrefix, Put. rewrite !llrb_AscendRange_spec, items_ReplaceOrInsert.
    rewrite filter_insert_item; [done|apply Hwf|]. intros w. simpl.
    rewrite (bytes_lt_prefix p (255 :: x) [255]).
    replace (bytes_lt (255 :: x) [255]) with false by (by destruct x).
    by rewrite andb_false_r.
Qed.
End Prefix.

Lemma EachPrefix_misses_ff_witness :
  let sm := NewMap (T := llrb_list (item bytes Z) item_Less) in
  Get (Put sm ([1] ++ 255 :: []) 7) ([1] ++ 255 :: []) = Some 7 /\
  EachPrefix (Put sm ([1] ++ 255 :: []) 7) [1] (fun _ _ n => (n + 1, true)) 0
  = EachPrefix sm [1] (fun _ _ n => (n + 1, true)) 0.
Proof. intros sm. apply EachPrefix_misses_ff. apply NewMap_contents. Defined.
