(* ===== verification/LevelRoot.v ===== *)
(** * Level root of a block

    [core/chain/util.go]: the 16-ary, four-level hash tree over the previous hash
    and the transaction hashes of a block.  The goroutines of [buildLevel] write
    disjoint slots of [LvHashes]; the level is the list of their results. *)

From stdpp Require Import base gmap list sorting strings.
From Stdlib Require Import ZArith Lia.
From S2P Require Import Prelude Common.

Definition hashPerLevel : nat := 16.
Definition levelHashAppender : bytes := str "fletablockchain".

Definition ErrExceedHashCount : error := mkError "chain" "exceed hash count".
Definition ErrInvalidHashCount : error := mkError "chain" "invalid hash count".

Section LevelRoot.
Context `{Sha256}.

(** The bytes written for position [i]: the hash or the empty hash, then the
    appender character. *)
Definition level_slot (hashes : list Hash256) (i : nat) : bytes :=
  nth i hashes EmptyHash ++ take 1 (drop i levelHashAppender).

Definition level_buffer (hashes : list Hash256) : bytes :=
  concat (level_slot hashes <$> seq 0 hashPerLevel).

Definition hash16 (hashes : list Hash256) : res Hash256 :=
  if (hashPerLevel <? length hashes)%nat then Err ErrExceedHashCount
  else Ok (DoubleHash (level_buffer hashes)).

(** [hashes[idx*hashPerLevel : last]] with [last] cut to the length. *)
Definition level_chunk (hashes : list Hash256) (idx : nat) : list Hash256 :=
  let first := (idx * hashPerLevel)%nat in
  let last := ((idx + 1) * hashPerLevel)%nat in
  let last := if (length hashes <? last)%nat then length hashes else last in
  take (last - first) (drop first hashes).

Definition LvCnt (hashes : list Hash256) : nat :=
  (length hashes / hashPerLevel +
   if length hashes mod hashPerLevel =? 0 then 0 else 1)%nat.

Fixpoint collect (rs : list (res Hash256)) : res (list Hash256) :=
  match rs with
  | [] => Ok []
  | r :: rs => let? h := r in let? hs := collect rs in Ok (h :: hs)
  end.

Definition buildLevel (hashes : list Hash256) : res (list Hash256) :=
  collect ((fun idx => hash16 (level_chunk hashes idx)) <$> seq 0 (LvCnt hashes)).

Definition BuildLevelRoot (hashes : list Hash256) : res Hash256 :=
  if 65536 <? Z.of_nat (length hashes) then Err ErrExceedHashCount
  else if (length hashes =? 0)%nat then Err ErrInvalidHashCount
  else
    let? lv3 := buildLevel hashes in
    let? lv2 := buildLevel lv3 in
    let? lv1 := buildLevel lv2 in
    hash16 lv1.

(** ** Totality *)

Lemma LvCnt_bound hs : (LvCnt hs * 16 < length hs + 16 /\ length hs <= LvCnt hs * 16)%nat.
Proof.
  unfold LvCnt, hashPerLevel. pose proof (Nat.div_mod_eq (length hs) 16).
  pose proof (Nat.mod_upper_bound (length hs) 16).
  destruct (Nat.eqb_spec (length hs mod 16) 0); lia.
Qed.

Lemma level_chunk_length hs idx : (length (level_chunk hs idx) <= 16)%nat.
Proof.
  unfold level_chunk, hashPerLevel. rewrite length_take.
  destruct (Nat.ltb_spec (length hs) ((idx + 1) * 16)); lia.
Qed.

Lemma level_chunk_alt hs idx : level_chunk hs idx = take 16 (drop (idx * 16) hs).
Proof.
  unfold level_chunk, hashPerLevel.
  destruct (Nat.ltb_spec (length hs) ((idx + 1) * 16)).
  - rewrite take_ge by (rewrite length_drop; lia). symmetry. apply take_ge. rewrite length_drop. lia.
  - f_equal. lia.
Qed.

Definition level (hs : list Hash256) : list Hash256 :=
  (fun idx => DoubleHash (level_buffer (level_chunk hs idx))) <$> seq 0 (LvCnt hs).

Lemma buildLevel_level hs : buildLevel hs = Ok (level hs).
Proof.
  unfold buildLevel, level. induction (seq 0 (LvCnt hs)) as [|i l IH]; [done|].
  rewrite !fmap_cons. cbn [collect]. rewrite IH. unfold hash16 at 1.
  pose proof (level_chunk_length hs i) as Hc.
  by rewrite (proj2 (Nat.ltb_ge hashPerLevel _) Hc).
Qed.

Lemma level_length hs : length (level hs) = LvCnt hs.
Proof. unfold level. by rewrite length_fmap, length_seq. Qed.

Lemma hash_length d : length (Hash d) = 32%nat.
Proof. apply length_copy_into. Qed.

Lemma level_sizes hs : Forall (fun h => length h = 32%nat) (level hs).
Proof. apply Forall_fmap, Forall_true. intros. apply hash_length. Qed.

Lemma BuildLevelRoot_eq hs :
  (1 <= length hs <= Z.to_nat 65536)%nat ->
  BuildLevelRoot hs = Ok (DoubleHash (level_buffer (level (level (level hs))))).
Proof.
  intros Hl. unfold BuildLevelRoot. rewrite (proj2 (Z.ltb_ge _ _)) by lia.
  rewrite (proj2 (Nat.eqb_neq _ _)) by lia.
  rewrite !buildLevel_level. cbn [res_bind]. rewrite !buildLevel_level. cbn [res_bind].
  rewrite !buildLevel_level. cbn [res_bind]. unfold hash16, hashPerLevel.
  pose proof (LvCnt_bound hs). pose proof (LvCnt_bound (level hs)) as H1.
  pose proof (LvCnt_bound (level (level hs))) as H2.
  rewrite ?level_length in *. rewrite (proj2 (Nat.ltb_ge _ _)) by lia. done.
Qed.

(** [BuildLevelRoot] succeeds for every list of 1 to 65536 hashes, rejects
    the empty list and rejects longer lists: the tree of four levels of 16 is
    large enough for any block it admits. *)
Lemma BuildLevelRoot_total hs :
  (length hs = 0%nat -> BuildLevelRoot hs = Err ErrInvalidHashCount) /\
  ((1 <= length hs <= Z.to_nat 65536)%nat -> exists h, BuildLevelRoot hs = Ok h /\ length h = 32%nat) /\
  ((Z.to_nat 65536 < length hs)%nat -> BuildLevelRoot hs = Err ErrExceedHashCount).
Proof.
  split_and!.
  - intros Hl. unfold BuildLevelRoot. rewrite Hl. done.
  - intros Hl. rewrite BuildLevelRoot_eq by done. eexists; split; [done|]. apply hash_length.
  - intros Hl. unfold BuildLevelRoot. rewrite (proj2 (Z.ltb_lt _ _)) by lia. done.
Qed.

(** ** Binding *)

(** The buffers that [buildLevel] hashes, and all that [BuildLevelRoot] hashes. *)
Definition level_inputs (hs : list Hash256) : list bytes :=
  (fun idx => level_buffer (level_chunk hs idx)) <$> seq 0 (LvCnt hs).
Definition hashed (hs : list Hash256) : list bytes :=
  level_inputs hs ++ level_inputs (level hs) ++ level_inputs (level (level hs)) ++ [level_buffer (level (level (level hs)))].

(** No buffer of the first computation collides with another one of the second. *)
Definition no_collision (xs ys : list bytes) : Prop :=
  Forall (fun x => Forall (fun y => DoubleHash x = DoubleHash y -> x = y) ys) xs.

#[global] Instance no_collision_dec xs ys : Decision (no_collision xs ys).
Proof. unfold no_collision. apply _. Defined.

Lemma no_collision_at xs ys x y : no_collision xs ys -> x ∈ xs -> y ∈ ys -> DoubleHash x = DoubleHash y -> x = y.
Proof. intros H1 Hx Hy. unfold no_collision in H1. rewrite Forall_forall in H1. specialize (H1 x Hx). rewrite Forall_forall in H1. by apply H1. Qed.

Lemma concat_inj (l l' : list bytes) :
  length l = length l' -> (forall i, length (nth i l []) = length (nth i l' [])) ->
  concat l = concat l' -> l = l'.
Proof.
  revert l'; induction l as [|x l IH]; intros [|y l'] Hlen Hn Hc; try done.
  simpl in Hc. apply app_inj_length in Hc as [-> Hc]; [|apply (Hn 0%nat)].
  f_equal. apply IH; [simpl in Hlen; lia| |done]. intros i. apply (Hn (S i)).
Qed.

Lemma nth_sizes hs i : Forall (fun h => length h = 32%nat) hs -> length (nth i hs EmptyHash) = 32%nat.
Proof.
  intros Hs. destruct (nth_in_or_default i hs EmptyHash) as [Hin| ->]; [|done].
  rewrite Forall_forall in Hs. apply Hs. by apply list_elem_of_In.
Qed.

Lemma level_slot_length hs hs' i :
  Forall (fun h => length h = 32%nat) hs -> Forall (fun h => length h = 32%nat) hs' ->
  length (level_slot hs i) = length (level_slot hs' i).
Proof. intros. unfold level_slot. rewrite !length_app, !nth_sizes by done. done. Qed.

Lemma level_buffer_inj hs hs' :
  length hs = length hs' -> (length hs <= 16)%nat ->
  Forall (fun h => length h = 32%nat) hs -> Forall (fun h => length h = 32%nat) hs' ->
  level_buffer hs = level_buffer hs' -> hs = hs'.
Proof.
  intros Hlen Hle Hs Hs' Hb. unfold level_buffer in Hb.
  apply concat_inj in Hb.
  - apply (nth_ext _ _ EmptyHash EmptyHash Hlen). intros i Hi.
    apply (f_equal (fun l => l !! i)) in Hb. rewrite !list_lookup_fmap in Hb.
    rewrite lookup_seq_lt in Hb by (unfold hashPerLevel; lia). cbn in Hb.
    injection Hb as Hb. unfold level_slot in Hb. apply app_inj_length in Hb as [? _]; [done|].
    by rewrite !nth_sizes.
  - by rewrite !length_fmap.
  - intros i. destruct (decide (i < 16)%nat) as [Hi|Hi].
    + assert (forall l, nth i (level_slot l <$> seq 0 hashPerLevel) [] = level_slot l i) as Hn.
      { intros l. apply nth_lookup_Some. rewrite list_lookup_fmap, lookup_seq_lt; [done|].
        unfold hashPerLevel; lia. }
      rewrite !Hn. by apply level_slot_length.
    + rewrite !nth_overflow; [done|rewrite length_fmap, length_seq; unfold hashPerLevel; lia..].
Qed.

Lemma chunks_determine (hs hs' : list Hash256) :
  length hs = length hs' ->
  (forall idx, (idx < LvCnt hs)%nat -> level_chunk hs idx = level_chunk hs' idx) -> hs = hs'.
Proof.
  intros Hlen Hc. apply list_eq. intros i. destruct (decide (i < length hs)%nat) as [Hi|Hi].
  - pose proof (LvCnt_bound hs). pose proof (Nat.div_mod_eq i 16).
    pose proof (Nat.mod_upper_bound i 16). specialize (Hc (i / 16)%nat ltac:(lia)).
    rewrite !level_chunk_alt in Hc. apply (f_equal (fun l => l !! (i mod 16)%nat)) in Hc.
    rewrite !lookup_take_lt, !lookup_drop in Hc by lia.
    by replace (i / 16 * 16 + i mod 16)%nat with i in Hc by lia.
  - rewrite !lookup_ge_None_2; [done|lia..].
Qed.

Lemma level_binding hs hs' :
  length hs = length hs' ->
  Forall (fun h => length h = 32%nat) hs -> Forall (fun h => length h = 32%nat) hs' ->
  (forall x y, x ∈ level_inputs hs -> y ∈ level_inputs hs' -> DoubleHash x = DoubleHash y -> x = y) ->
  level hs = level hs' -> hs = hs'.
Proof.
  intros Hlen Hs Hs' Hno Hl. unfold level in Hl.
  assert (LvCnt hs' = LvCnt hs) as Hcnt by (unfold LvCnt; by rewrite Hlen). rewrite Hcnt in Hl.
  apply chunks_determine; [done|]. intros idx Hidx.
  assert (Hin : forall l, LvCnt l = LvCnt hs -> level_buffer (level_chunk l idx) ∈ level_inputs l).
  { intros l El. apply list_elem_of_fmap. exists idx. split; [done|]. apply elem_of_seq. lia. }
  assert (Hb : level_buffer (level_chunk hs idx) = level_buffer (level_chunk hs' idx)).
  { apply Hno; [by apply Hin..|]. apply (f_equal (fun l => l !! idx)) in Hl. rewrite !list_lookup_fmap in Hl.
    rewrite lookup_seq_lt in Hl by lia. cbn in Hl. by injection Hl. }
  rewrite !level_chunk_alt in *. apply level_buffer_inj; try done.
  - rewrite !length_take, !length_drop, Hlen. done.
  - rewrite length_take. lia.
  - by apply Forall_take, Forall_drop.
  - by apply Forall_take, Forall_drop.
Qed.

(** C34. The level root binds the hashes of a block: when no two of the buffers that
    are hashed for the one list and for the other collide under double SHA-256, two
    lists of as many hashes (1 to 65536) with the same root are equal. *)
Theorem BuildLevelRoot_binding (hs hs' : list Hash256) :
  length hs = length hs' -> (1 <= length hs <= Z.to_nat 65536)%nat ->
  Forall (fun h => length h = 32%nat) hs -> Forall (fun h => length h = 32%nat) hs' ->
  no_collision (hashed hs) (hashed hs') ->
  BuildLevelRoot hs = BuildLevelRoot hs' -> hs = hs'.
Proof.
  intros Hlen Hin Hs Hs' Hno Hr. rewrite !BuildLevelRoot_eq in Hr by lia. injection Hr as Hr.
  pose proof (fun x y => no_collision_at (hashed hs) (hashed hs') x y Hno) as Hat. unfold hashed in Hat.
  assert (length (level hs) = length (level hs')) as Hl1 by (rewrite !level_length; unfold LvCnt; by rewrite Hlen).
  assert (length (level (level hs)) = length (level (level hs'))) as Hl2
    by (rewrite !level_length; unfold LvCnt; by rewrite Hl1).
  assert (length (level (level (level hs))) = length (level (level (level hs')))) as Hl3
    by (rewrite !level_length; unfold LvCnt; by rewrite Hl2).
  apply Hat in Hr; [|rewrite !elem_of_app, list_elem_of_singleton; tauto..].
  apply level_buffer_inj in Hr; [|done| |apply level_sizes..].
  2: { pose proof (LvCnt_bound hs). pose proof (LvCnt_bound (level hs)).
       pose proof (LvCnt_bound (level (level hs))). rewrite ?level_length in *. lia. }
  do 2 (apply level_binding in Hr; [|done|apply level_sizes..|intros x y ? ?; apply Hat; rewrite !elem_of_app; tauto]).
  apply level_binding in Hr; [done|done|done|done|intros x y ? ?; apply Hat; rewrite !elem_of_app; tauto].
Qed.
End LevelRoot.

(** Two lists of 17 hashes that differ in the first, under the hash that keeps the
    first 32 bytes: the roots differ. *)
Lemma BuildLevelRoot_binding_witness :
  let hs := replicate 32 3 :: replicate 16 (replicate 32 5) in
  let hs' := replicate 32 4 :: replicate 16 (replicate 32 5) in
  BuildLevelRoot hs <> BuildLevelRoot hs'.
Proof.
  intros hs hs' E. assert (Hne : hs <> hs') by (vm_compute; discriminate). apply Hne.
  apply (BuildLevelRoot_binding hs hs'); [done|simpl; lia|by repeat constructor|by repeat constructor| |done].
  apply (bool_decide_eq_true_1 (no_collision (hashed hs) (hashed hs'))). vm_compute. reflexivity.
Defined.
