(* ===== verification/Types.v ===== *)
(** * Shared data types

    [core/types]: identifiers ([util.go]), transaction inputs and outputs, the
    accounts of the vault and formulator processes ([process/vault/acc_*.go],
    [process/formulator/acc_formulator.go], [policy.go]), the events of the
    formulator process and the error values. *)

From stdpp Require Import base gmap list sorting strings.
From Stdlib Require Import ZArith Lia.
From S2P Require Import Prelude Amount Common.

(** ** Errors of [core/types/errors.go] *)

Definition terr (m : string) : error := mkError "types" m.
Definition ErrInvalidAccountName := terr "invalid account name".
Definition ErrInvalidAccountType := terr "invalid account type".
Definition ErrExistAccount := terr "exist account".
Definition ErrExistAccountName := terr "exist account name".
Definition ErrNotExistAccount := terr "not exist account".
Definition ErrDeletedAccount := terr "deleted account".
Definition ErrInvalidProcess := terr "invalid process".
Definition ErrExistProcessName := terr "exist process name".
Definition ErrExistProcessID := terr "exist process id".
Definition ErrNotExistProcess := terr "not exist process".
Definition ErrExistUTXO := terr "exist utxo".
Definition ErrNotExistUTXO := terr "not exist utxo".
Definition ErrUsedUTXO := terr "used utxo".
Definition ErrInvalidSequence := terr "invalid sequence".
Definition ErrNotAllowedZeroAddressAccount := terr "not allowed zero address account".
Definition ErrNotAllowedAddressAccountName := terr "not allowed address account name".
Definition ErrInvalidAddressHeight := terr "invalid address height".
Definition ErrInvalidSignerCount := terr "invalid signer count".
Definition ErrInvalidAccountSigner := terr "invalid account signer".
Definition ErrDustAmount := terr "dust amount".
Definition ErrInvalidTransactionIDFormat := terr "invalid transaction id format".

(** ** Identifiers: [core/types/util.go] *)

(** [uint32(id >> 32), uint16(id >> 16), uint16(id)]. *)
Definition UnmarshalID (id : Z) : Z * Z * Z :=
  (u32 (Z.shiftr id 32), u16 (Z.shiftr id 16), u16 id).

(** [uint64(height)<<32 | uint64(index)<<16 | uint64(n)]. *)
Definition MarshalID (height index n : Z) : Z :=
  Z.lor (Z.lor (u64 (Z.shiftl height 32)) (Z.shiftl index 16)) n.

(** [encoding/hex]. *)
Definition hex_char (d : Z) : Z := if d <? 10 then 48 + d else 87 + d.
Definition hex_EncodeToString (bs : bytes) : bytes :=
  concat ((fun b => [hex_char (b / 16); hex_char (b mod 16)]) <$> bs).

Definition hex_value (c : Z) : option Z :=
  if (48 <=? c) && (c <=? 57) then Some (c - 48)
  else if (97 <=? c) && (c <=? 102) then Some (c - 87)
  else if (65 <=? c) && (c <=? 70) then Some (c - 55)
  else None.

Fixpoint hex_DecodeString (s : bytes) : res bytes :=
  match s with
  | [] => Ok []
  | [_] => Err (mkError "hex" "odd length hex string")
  | a :: b :: s =>
      match hex_value a, hex_value b with
      | Some x, Some y => let? bs := hex_DecodeString s in Ok (16 * x + y :: bs)
      | _, _ => Err (mkError "hex" "invalid byte")
      end
  end.

Definition TransactionID (Height Index : Z) : bytes :=
  hex_EncodeToString (be_bytes 4 Height ++ be_bytes 2 Index).

Definition ParseTransactionID (TXID : bytes) : res (Z * Z) :=
  if negb (length TXID =? 12)%nat then Err ErrInvalidTransactionIDFormat
  else
    let? bs := hex_DecodeString TXID in
    Ok (be_value (take 4 bs), be_value (take 2 (drop 4 bs))).

Definition name_char (c : Z) : bool :=
  ((48 <=? c) && (c <=? 57)) || ((97 <=? c) && (c <=? 122)) || ((65 <=? c) && (c <=? 90))
  || (c =? 46) || (c =? 45) || (c =? 95) || (c =? 64).

Definition IsAllowedAccountName `{Base58} (Name : bytes) : bool :=
  if (length Name <? 8)%nat || (40 <? length Name)%nat then false
  else if is_ok (ParseAddress Name) then false
  else forallb name_char Name.

(** ** Inputs and outputs *)

Record TxIn := mkTxIn { in_Height : Z; in_Index : Z; in_N : Z }.

Definition NewTxIn (id : Z) : TxIn :=
  if id =? 0 then mkTxIn 0 0 0
  else let '(h, i, n) := UnmarshalID id in mkTxIn h i n.

Definition TxIn_ID (i : TxIn) : Z := MarshalID (in_Height i) (in_Index i) (in_N i).
Definition TxIn_Clone (i : TxIn) : TxIn := mkTxIn (in_Height i) (in_Index i) (in_N i).

Record TxOut := mkTxOut { out_Amount : Amount; out_PublicHash : PublicHash }.

Definition NewTxOut : TxOut := mkTxOut (NewCoinAmount 0 0) (replicate PublicHashSize 0).
Definition TxOut_Clone (o : TxOut) : TxOut :=
  mkTxOut (Amount.Clone (out_Amount o)) (copy_into PublicHashSize (out_PublicHash o)).

Record UTXO := mkUTXO { utxo_In : TxIn; utxo_Out : TxOut }.
Definition UTXO_ID (u : UTXO) : Z := TxIn_ID (utxo_In u).
Definition UTXO_Clone (u : UTXO) : UTXO := mkUTXO (TxIn_Clone (utxo_In u)) (TxOut_Clone (utxo_Out u)).

(** ** Accounts *)

Record ValidatorPolicy := mkValidatorPolicy {
  CommissionRatio1000 : Z;
  MinimumStaking : Amount;
  PayOutInterval : Z
}.

Inductive FormulatorType := AlphaFormulatorType | SigmaFormulatorType | OmegaFormulatorType | HyperFormulatorType.

Record SingleAccount := mkSingle { sa_Address : Address; sa_Name : bytes; sa_KeyHash : PublicHash }.
Record MultiAccount := mkMulti {
  ma_Address : Address; ma_Name : bytes; ma_Required : Z; ma_KeyHashes : list PublicHash }.
Record FormulatorAccount := mkFormulator {
  fa_Address : Address; fa_Name : bytes; fa_Type : FormulatorType;
  fa_KeyHash : PublicHash; fa_GenHash : PublicHash; fa_Amount : Amount;
  fa_IsRevoked : bool; fa_PreHeight : Z; fa_UpdatedHeight : Z;
  fa_StakingAmount : option Amount;      (** a nil pointer is [None] *)
  fa_Policy : option ValidatorPolicy }.

Inductive Account :=
  | ASingle (a : SingleAccount)
  | AMulti (a : MultiAccount)
  | AFormulator (a : FormulatorAccount).

#[global] Instance FormulatorType_eq_dec : EqDecision FormulatorType.
Proof. solve_decision. Defined.
#[global] Instance ValidatorPolicy_eq_dec : EqDecision ValidatorPolicy.
Proof. solve_decision. Defined.
#[global] Instance SingleAccount_eq_dec : EqDecision SingleAccount.
Proof. solve_decision. Defined.
#[global] Instance MultiAccount_eq_dec : EqDecision MultiAccount.
Proof. solve_decision. Defined.
#[global] Instance FormulatorAccount_eq_dec : EqDecision FormulatorAccount.
Proof. solve_decision. Defined.
#[global] Instance Account_eq_dec : EqDecision Account.
Proof. solve_decision. Defined.

Definition acc_Address (a : Account) : Address :=
  match a with ASingle a => sa_Address a | AMulti a => ma_Address a | AFormulator a => fa_Address a end.
Definition acc_Name (a : Account) : bytes :=
  match a with ASingle a => sa_Name a | AMulti a => ma_Name a | AFormulator a => fa_Name a end.

Definition pubhash_Clone (p : PublicHash) : PublicHash := copy_into PublicHashSize p.

Definition ValidatorPolicy_Clone (pc : ValidatorPolicy) : ValidatorPolicy :=
  mkValidatorPolicy (CommissionRatio1000 pc) (Amount.Clone (MinimumStaking pc)) (PayOutInterval pc).

Definition SingleAccount_Clone (a : SingleAccount) : SingleAccount :=
  mkSingle (sa_Address a) (sa_Name a) (pubhash_Clone (sa_KeyHash a)).
Definition MultiAccount_Clone (a : MultiAccount) : MultiAccount :=
  mkMulti (ma_Address a) (ma_Name a) (ma_Required a) (pubhash_Clone <$> ma_KeyHashes a).

(** Cloning a hyper formulator dereferences its staking amount and policy; the
    clone of another formulator does not copy them. *)
Definition FormulatorAccount_Clone (a : FormulatorAccount) : res FormulatorAccount :=
  let c sa pc := mkFormulator (fa_Address a) (fa_Name a) (fa_Type a)
    (pubhash_Clone (fa_KeyHash a)) (pubhash_Clone (fa_GenHash a)) (Amount.Clone (fa_Amount a))
    (fa_IsRevoked a) (fa_PreHeight a) (fa_UpdatedHeight a) sa pc in
  if decide (fa_Type a = HyperFormulatorType) then
    match fa_StakingAmount a, fa_Policy a with
    | Some s, Some p => Ok (c (Some (Amount.Clone s)) (Some (ValidatorPolicy_Clone p)))
    | _, _ => Panic "nil pointer dereference"
    end
  else Ok (c None None).

Definition acc_Clone (a : Account) : res Account :=
  match a with
  | ASingle a => Ok (ASingle (SingleAccount_Clone a))
  | AMulti a => Ok (AMulti (MultiAccount_Clone a))
  | AFormulator a => let? c := FormulatorAccount_Clone a in Ok (AFormulator c)
  end.

Definition SingleAccount_Validate (a : SingleAccount) (signers : list PublicHash) : res unit :=
  match signers with
  | [s] => if decide (sa_KeyHash a = s) then Ok tt else Err ErrInvalidAccountSigner
  | _ => Err ErrInvalidSignerCount
  end.

Definition FormulatorAccount_Validate (a : FormulatorAccount) (signers : list PublicHash) : res unit :=
  match signers with
  | [s] => if decide (fa_KeyHash a = s) then Ok tt else Err ErrInvalidAccountSigner
  | _ => Err ErrInvalidSignerCount
  end.

Definition signerMap (signers : list PublicHash) : gset PublicHash := list_to_set signers.

Definition MultiAccount_Validate (a : MultiAccount) (signers : list PublicHash) : res unit :=
  if negb (length (ma_KeyHashes a) =? length signers)%nat then Err ErrInvalidSignerCount
  else
    let matchCount := length (base.filter (fun k => k ∈ signerMap signers) (ma_KeyHashes a)) in
    if negb (Z.of_nat matchCount =? ma_Required a) then Err ErrInvalidAccountSigner else Ok tt.

Definition acc_Validate (a : Account) (signers : list PublicHash) : res unit :=
  match a with
  | ASingle a => SingleAccount_Validate a signers
  | AMulti a => MultiAccount_Validate a signers
  | AFormulator a => FormulatorAccount_Validate a signers
  end.

(** ** Events *)

Inductive EventBody :=
  | RewardEvent (GenBlockMap : gmap Address Z)
      (RewardMap StackedMap CommissionMap : gmap Address Amount)
      (StakedMap StakeRewardMap : gmap Address (gmap Address Amount))
  | RevokedEvent (Formulator : Address)
  | UnstakedEvent (HyperFormulator addr : Address) (am : Amount).

Record Event := mkEvent { ev_Height : Z; ev_Index : Z; ev_N : Z; ev_body : EventBody }.

Definition SetN (e : Event) (n : Z) : Event := mkEvent (ev_Height e) (ev_Index e) n (ev_body e).

(** ** Properties of identifiers *)

Lemma land_disjoint a b k : 0 <= k -> 0 <= b < 2 ^ k -> Z.land (a * 2 ^ k) b = 0.
Proof.
  intros Hk Hb. apply Z.bits_inj'. intros j Hj. rewrite Z.land_spec, Z.bits_0.
  destruct (decide (j < k)); [rewrite Z.mul_pow2_bits_low by lia; done|].
  destruct (decide (b = 0)) as [->|]; [by rewrite Z.bits_0, andb_false_r|].
  rewrite (Z.bits_above_log2 b), andb_false_r; [done|lia|].
  apply Z.lt_le_trans with k; [apply Z.log2_lt_pow2; lia|lia].
Qed.

Lemma lor_disjoint a b k : 0 <= k -> 0 <= b < 2 ^ k -> Z.lor (a * 2 ^ k) b = a * 2 ^ k + b.
Proof.
  intros Hk Hb. rewrite <- Z.lxor_lor by (by apply land_disjoint).
  symmetry. by apply Z.add_nocarry_lxor, land_disjoint.
Qed.

(** The packed form is the positional one: the three fields do not overlap. *)
Lemma MarshalID_sum h i n :
  0 <= h < 2 ^ 32 -> 0 <= i < 2 ^ 16 -> 0 <= n < 2 ^ 16 ->
  MarshalID h i n = h * 2 ^ 32 + i * 2 ^ 16 + n.
Proof.
  intros Hh Hi Hn. unfold MarshalID, u64.
  rewrite !Z.shiftl_mul_pow2, (Z.mod_small (h * 2 ^ 32)) by lia.
  rewrite lor_disjoint by lia.
  replace (h * 2 ^ 32 + i * 2 ^ 16) with ((h * 2 ^ 16 + i) * 2 ^ 16) by lia.
  by rewrite lor_disjoint by lia.
Qed.

Lemma UnmarshalID_spec h i n :
  0 <= h < 2 ^ 32 -> 0 <= i < 2 ^ 16 -> 0 <= n < 2 ^ 16 ->
  UnmarshalID (h * 2 ^ 32 + i * 2 ^ 16 + n) = (h, i, n).
Proof.
  intros Hh Hi Hn. unfold UnmarshalID, u32, u16. rewrite !Z.shiftr_div_pow2 by lia.
  replace (h * 2 ^ 32 + i * 2 ^ 16 + n) with ((i * 2 ^ 16 + n) + h * 2 ^ 32) at 1 by lia.
  rewrite Z.div_add, (Z.div_small (i * 2 ^ 16 + n)), Z.add_0_l, (Z.mod_small h) by lia.
  replace (h * 2 ^ 32 + i * 2 ^ 16 + n) with (n + (h * 2 ^ 16 + i) * 2 ^ 16) by lia.
  rewrite Z.div_add, (Z.div_small n), Z.add_0_l, Z.mod_add, (Z.mod_small n) by lia.
  rewrite Z.add_comm, Z.mod_add, Z.mod_small by lia. done.
Qed.

(** [UnmarshalID] undoes [MarshalID], so a UTXO id determines the block,
    the transaction and the output it names; [NewTxIn] and [TxIn.ID] agree. *)
Lemma MarshalID_roundtrip h i n :
  0 <= h < 2 ^ 32 -> 0 <= i < 2 ^ 16 -> 0 <= n < 2 ^ 16 ->
  UnmarshalID (MarshalID h i n) = (h, i, n) /\
  NewTxIn (MarshalID h i n) = mkTxIn h i n /\
  TxIn_ID (NewTxIn (MarshalID h i n)) = MarshalID h i n.
Proof.
  intros Hh Hi Hn. rewrite MarshalID_sum by done.
  pose proof (UnmarshalID_spec h i n Hh Hi Hn) as Hu. split; [done|].
  assert (NewTxIn (h * 2 ^ 32 + i * 2 ^ 16 + n) = mkTxIn h i n) as Hnew.
  { unfold NewTxIn. rewrite Hu. destruct (Z.eqb_spec (h * 2 ^ 32 + i * 2 ^ 16 + n) 0) as [E|]; [|done].
    assert (h = 0 /\ i = 0 /\ n = 0) as (-> & -> & ->) by lia. done. }
  split; [done|]. rewrite Hnew. unfold TxIn_ID. simpl. by apply MarshalID_sum.
Qed.

Lemma MarshalID_roundtrip_witness :
  UnmarshalID (MarshalID 9 4 2) = (9, 4, 2) /\
  NewTxIn (MarshalID 9 4 2) = mkTxIn 9 4 2 /\ TxIn_ID (NewTxIn (MarshalID 9 4 2)) = MarshalID 9 4 2.
Proof. apply MarshalID_roundtrip; lia. Defined.

Lemma hex_value_char d : 0 <= d < 16 -> hex_value (hex_char d) = Some d.
Proof.
  intros Hd. unfold hex_char.
  assert (d ∈ [0;1;2;3;4;5;6;7;8;9;10;11;12;13;14;15]) as Hin.
  { rewrite !elem_of_cons, elem_of_nil. lia. }
  rewrite !elem_of_cons, elem_of_nil in Hin. by destruct_or! Hin; subst.
Qed.

Lemma hex_roundtrip bs : bytes_ok bs -> hex_DecodeString (hex_EncodeToString bs) = Ok bs.
Proof.
  induction 1 as [|b bs Hb _ IH]; [done|]. unfold byte_ok in Hb.
  unfold hex_EncodeToString in *. cbn.
  pose proof (Z.div_mod b 16 ltac:(lia)). pose proof (Z.mod_pos_bound b 16 ltac:(lia)).
  assert (0 <= b / 16 < 16) by (split; [apply Z.div_pos; lia|apply Z.div_lt_upper_bound; lia]).
  rewrite !hex_value_char by lia. rewrite IH. cbn [res_bind]. do 2 f_equal. lia.
Qed.

Lemma hex_length bs : length (hex_EncodeToString bs) = (2 * length bs)%nat.
Proof. unfold hex_EncodeToString. induction bs; [done|]. cbn. lia. Qed.

(** The text of a transaction id parses back to its height and index. *)
Lemma TransactionID_roundtrip h i :
  0 <= h < 2 ^ 32 -> 0 <= i < 2 ^ 16 -> ParseTransactionID (TransactionID h i) = Ok (h, i).
Proof.
  intros Hh Hi. unfold ParseTransactionID, TransactionID.
  rewrite hex_length, length_app, !length_be_bytes. cbn [negb Nat.eqb Nat.mul Nat.add].
  rewrite hex_roundtrip by (apply Forall_app_2; apply be_bytes_ok). cbn [res_bind].
  rewrite take_app_length', drop_app_length' by (by rewrite length_be_bytes).
  rewrite take_ge by (rewrite length_be_bytes; lia).
  rewrite !be_value_be_bytes. do 2 f_equal; by apply Z.mod_small.
Qed.

Lemma TransactionID_roundtrip_witness : ParseTransactionID (TransactionID 100 7) = Ok (100, 7).
Proof. apply TransactionID_roundtrip; lia. Defined.

(** ** Properties of multi-signature accounts *)

Lemma MultiAccount_Validate_spec a signers :
  MultiAccount_Validate a signers = Ok tt <->
  length (ma_KeyHashes a) = length signers /\
  Z.of_nat (length (base.filter (fun k => k ∈ signers) (ma_KeyHashes a))) = ma_Required a.
Proof.
  unfold MultiAccount_Validate, signerMap.
  assert (base.filter (fun k => k ∈ (list_to_set signers : gset PublicHash)) (ma_KeyHashes a)
          = base.filter (fun k => k ∈ signers) (ma_KeyHashes a)) as ->.
  { apply list_filter_iff. intros k. apply elem_of_list_to_set. }
  destruct (Nat.eqb_spec (length (ma_KeyHashes a)) (length signers)); simpl; [|naive_solver].
  destruct (Z.eqb_spec (Z.of_nat (length (base.filter (fun k => k ∈ signers) (ma_KeyHashes a)))) (ma_Required a));
    simpl; naive_solver.
Qed.

(** A multi-signature account accepts exactly as many owner keys as
    [Required], given as many signatures as the account has keys; in particular
    a transaction signed by every owner is rejected whenever [Required] is below
    the number of keys. *)
Lemma MultiAccount_Validate_exact a signers :
  (MultiAccount_Validate a signers = Ok tt <->
   length (ma_KeyHashes a) = length signers /\
   Z.of_nat (length (base.filter (fun k => k ∈ signers) (ma_KeyHashes a))) = ma_Required a) /\
  (ma_Required a < Z.of_nat (length (ma_KeyHashes a)) ->
   MultiAccount_Validate a (ma_KeyHashes a) = Err ErrInvalidAccountSigner).
Proof.
  split; [apply MultiAccount_Validate_spec|]. intros Hreq.
  pose proof (proj1 (MultiAccount_Validate_spec a (ma_KeyHashes a))) as Hspec.
  assert (base.filter (fun k => k ∈ ma_KeyHashes a) (ma_KeyHashes a) = ma_KeyHashes a) as Hall.
  { apply filter_all. apply Forall_forall. auto. }
  rewrite Hall in Hspec. unfold MultiAccount_Validate in *. rewrite Nat.eqb_refl in *. simpl in *.
  destruct (negb _); [done|]. destruct (Hspec eq_refl). lia.
Qed.

Lemma MultiAccount_Validate_exact_witness :
  let a := mkMulti (NewAddress 1 1 0) (str "shared-account") 1 [[1]; [2]] in
  (MultiAccount_Validate a [[1]; [3]] = Ok tt <->
   length (ma_KeyHashes a) = length [[1]; [3]] /\
   Z.of_nat (length (base.filter (fun k => k ∈ [[1]; [3]]) (ma_KeyHashes a))) = ma_Required a) /\
  (ma_Required a < Z.of_nat (length (ma_KeyHashes a)) ->
   MultiAccount_Validate a (ma_KeyHashes a) = Err ErrInvalidAccountSigner).
Proof. intros a. apply MultiAccount_Validate_exact. Defined.
