(* ===== verification/Context.v ===== *)
(** * Contexts

    [core/types/context.go], [context_data.go], [context_cache.go],
    [context_wrapper.go] and [loader.go]: the in-memory state a block is executed
    on.  A context is a stack of layers of uncommitted data over a cache over a
    loader (the store, or the context of the previous block).  Reading through
    the top layer copies what it finds into that layer, so reads change the
    state, and the context hash covers what was read.

    A layer's parent is the layer below it in the stack; here the stack is a list
    with the top layer first. *)

From stdpp Require Import base gmap list sorting strings.
From Stdlib Require Import ZArith Lia.
From S2P Require Import Prelude Amount Common Types.

(** ** Loaders *)

(** The [internalLoader] interface.  Every implementation of [AccountData] and
    [ProcessData] reads the concatenated key, so the key is the argument. *)
Record Loader := mkLoader {
  ld_ChainID : Z;
  ld_Name : bytes;
  ld_Version : Z;
  ld_TargetHeight : Z;
  ld_LastHash : Hash256;
  ld_LastTimestamp : Z;
  ld_Seq : Address -> Z;
  ld_Account : Address -> res Account;
  ld_AddressByName : bytes -> res Address;
  ld_HasAccount : Address -> res bool;
  ld_HasAccountName : bytes -> res bool;
  ld_AccountData : bytes -> bytes;
  ld_HasUTXO : Z -> res bool;
  ld_UTXO : Z -> res UTXO;
  ld_ProcessData : bytes -> bytes
}.

Definition emptyLoader : Loader := {|
  ld_ChainID := 0; ld_Name := []; ld_Version := 0; ld_TargetHeight := 0;
  ld_LastHash := EmptyHash; ld_LastTimestamp := 0;
  ld_Seq _ := 0;
  ld_Account _ := Err ErrNotExistAccount;
  ld_AddressByName _ := Err ErrNotExistAccount;
  ld_HasAccount _ := Ok false;
  ld_HasAccountName _ := Ok false;
  ld_AccountData _ := [];
  ld_HasUTXO _ := Ok false;
  ld_UTXO _ := Err ErrNotExistUTXO;
  ld_ProcessData _ := []
|}.

(** [string(addr[:]) + string(pid) + string(name)] and [string(pid) + string(name)]. *)
Definition account_data_key (addr : Address) (pid : Z) (name : bytes) : bytes :=
  addr ++ rune_string pid ++ name.
Definition process_data_key (pid : Z) (name : bytes) : bytes := rune_string pid ++ name.

(** ** The cache *)

Record contextCache := mkCache {
  cc_SeqMap : gmap Address Z;
  cc_AccountMap : gmap Address Account;
  cc_AccountNameMap : gmap bytes Address;
  cc_AccountDataMap : gmap bytes bytes;
  cc_ProcessDataMap : gmap bytes bytes;
  cc_UTXOMap : gmap Z UTXO
}.

Definition newContextCache : contextCache := mkCache ∅ ∅ ∅ ∅ ∅ ∅.

Section Cache.
Context (ld : Loader).

Definition cache_Seq (addr : Address) (cc : contextCache) : Z * contextCache :=
  match cc_SeqMap cc !! addr with
  | Some seq => (seq, cc)
  | None =>
      let seq := ld_Seq ld addr in
      (seq, mkCache (<[addr := seq]> (cc_SeqMap cc)) (cc_AccountMap cc) (cc_AccountNameMap cc)
              (cc_AccountDataMap cc) (cc_ProcessDataMap cc) (cc_UTXOMap cc))
  end.

Definition cache_Account (addr : Address) (cc : contextCache) : res Account * contextCache :=
  match cc_AccountMap cc !! addr with
  | Some acc => (Ok acc, cc)
  | None =>
      match ld_Account ld addr with
      | Ok acc => (Ok acc, mkCache (cc_SeqMap cc) (<[addr := acc]> (cc_AccountMap cc)) (cc_AccountNameMap cc)
              (cc_AccountDataMap cc) (cc_ProcessDataMap cc) (cc_UTXOMap cc))
      | r => (r, cc)
      end
  end.

Definition cache_AddressByName (name : bytes) (cc : contextCache) : res Address * contextCache :=
  match cc_AccountNameMap cc !! name with
  | Some addr => (Ok addr, cc)
  | None =>
      match ld_AddressByName ld name with
      | Ok addr => (Ok addr, mkCache (cc_SeqMap cc) (cc_AccountMap cc) (<[name := addr]> (cc_AccountNameMap cc))
              (cc_AccountDataMap cc) (cc_ProcessDataMap cc) (cc_UTXOMap cc))
      | r => (r, cc)
      end
  end.

Definition cache_HasAccount (addr : Address) (cc : contextCache) : res bool :=
  match cc_AccountMap cc !! addr with
  | Some _ => Ok true
  | None => ld_HasAccount ld addr
  end.

Definition cache_HasAccountName (name : bytes) (cc : contextCache) : res bool :=
  match cc_AccountNameMap cc !! name with
  | Some _ => Ok true
  | None => ld_HasAccountName ld name
  end.

Definition cache_AccountData (key : bytes) (cc : contextCache) : bytes * contextCache :=
  match cc_AccountDataMap cc !! key with
  | Some value => (value, cc)
  | None =>
      let value := ld_AccountData ld key in
      (value, mkCache (cc_SeqMap cc) (cc_AccountMap cc) (cc_AccountNameMap cc)
              (<[key := value]> (cc_AccountDataMap cc)) (cc_ProcessDataMap cc) (cc_UTXOMap cc))
  end.

(** [contextCache.HasUTXO] looks at the cache only. *)
Definition cache_HasUTXO (id : Z) (cc : contextCache) : res bool :=
  match cc_UTXOMap cc !! id with
  | Some _ => Ok true
  | None => Ok false
  end.

Definition cache_UTXO (id : Z) (cc : contextCache) : res UTXO * contextCache :=
  match cc_UTXOMap cc !! id with
  | Some utxo => (Ok utxo, cc)
  | None =>
      match ld_UTXO ld id with
      | Ok utxo => (Ok utxo, mkCache (cc_SeqMap cc) (cc_AccountMap cc) (cc_AccountNameMap cc)
              (cc_AccountDataMap cc) (cc_ProcessDataMap cc) (<[id := utxo]> (cc_UTXOMap cc)))
      | r => (r, cc)
      end
  end.

Definition cache_ProcessData (key : bytes) (cc : contextCache) : bytes * contextCache :=
  match cc_ProcessDataMap cc !! key with
  | Some value => (value, cc)
  | None =>
      let value := ld_ProcessData ld key in
      (value, mkCache (cc_SeqMap cc) (cc_AccountMap cc) (cc_AccountNameMap cc)
              (cc_AccountDataMap cc) (<[key := value]> (cc_ProcessDataMap cc)) (cc_UTXOMap cc))
  end.
End Cache.

(** ** Layers *)

Record ContextData := mkCtd {
  SeqMap : gmap Address Z;
  AccountMap : gmap Address Account;
  DeletedAccountMap : gmap Address Account;
  AccountNameMap : gmap bytes Address;
  AccountDataMap : gmap bytes bytes;
  DeletedAccountDataMap : gmap bytes bool;
  ProcessDataMap : gmap bytes bytes;
  DeletedProcessDataMap : gmap bytes bool;
  UTXOMap : gmap Z UTXO;
  CreatedUTXOMap : gmap Z TxOut;
  DeletedUTXOMap : gmap Z UTXO;
  Events : list Event;
  EventN : Z;
  isTop : bool
}.

Definition NewContextData (parent : option ContextData) : ContextData := {|
  SeqMap := ∅; AccountMap := ∅; DeletedAccountMap := ∅; AccountNameMap := ∅;
  AccountDataMap := ∅; DeletedAccountDataMap := ∅; ProcessDataMap := ∅; DeletedProcessDataMap := ∅;
  UTXOMap := ∅; CreatedUTXOMap := ∅; DeletedUTXOMap := ∅;
  Events := []; EventN := match parent with Some p => EventN p | None => 0 end; isTop := true
|}.

(** Field updates. *)
Section Updates.
Context (c : ContextData).
Definition set_SeqMap m := mkCtd m (AccountMap c) (DeletedAccountMap c) (AccountNameMap c) (AccountDataMap c)
  (DeletedAccountDataMap c) (ProcessDataMap c) (DeletedProcessDataMap c) (UTXOMap c) (CreatedUTXOMap c)
  (DeletedUTXOMap c) (Events c) (EventN c) (isTop c).
Definition set_Accounts m d n := mkCtd (SeqMap c) m d n (AccountDataMap c)
  (DeletedAccountDataMap c) (ProcessDataMap c) (DeletedProcessDataMap c) (UTXOMap c) (CreatedUTXOMap c)
  (DeletedUTXOMap c) (Events c) (EventN c) (isTop c).
Definition set_AccountData_maps m d := mkCtd (SeqMap c) (AccountMap c) (DeletedAccountMap c) (AccountNameMap c) m
  d (ProcessDataMap c) (DeletedProcessDataMap c) (UTXOMap c) (CreatedUTXOMap c)
  (DeletedUTXOMap c) (Events c) (EventN c) (isTop c).
Definition set_ProcessData_maps m d := mkCtd (SeqMap c) (AccountMap c) (DeletedAccountMap c) (AccountNameMap c)
  (AccountDataMap c) (DeletedAccountDataMap c) m d (UTXOMap c) (CreatedUTXOMap c)
  (DeletedUTXOMap c) (Events c) (EventN c) (isTop c).
Definition set_UTXO_maps m cr d := mkCtd (SeqMap c) (AccountMap c) (DeletedAccountMap c) (AccountNameMap c)
  (AccountDataMap c) (DeletedAccountDataMap c) (ProcessDataMap c) (DeletedProcessDataMap c) m cr
  d (Events c) (EventN c) (isTop c).
Definition set_Events evs n := mkCtd (SeqMap c) (AccountMap c) (DeletedAccountMap c) (AccountNameMap c)
  (AccountDataMap c) (DeletedAccountDataMap c) (ProcessDataMap c) (DeletedProcessDataMap c) (UTXOMap c) (CreatedUTXOMap c)
  (DeletedUTXOMap c) evs n (isTop c).
Definition set_isTop b := mkCtd (SeqMap c) (AccountMap c) (DeletedAccountMap c) (AccountNameMap c)
  (AccountDataMap c) (DeletedAccountDataMap c) (ProcessDataMap c) (DeletedProcessDataMap c) (UTXOMap c) (CreatedUTXOMap c)
  (DeletedUTXOMap c) (Events c) (EventN c) b.
End Updates.

(** [m.Has(k)]. *)
Definition has {K V} `{Countable K} (m : gmap K V) (k : K) : bool :=
  match m !! k with Some _ => true | None => false end.

(** The common shape of [Seq], [Account], [AddressByName], [AccountData],
    [UTXO] and [ProcessData]: a hit in the layer answers, otherwise the parent
    (or, below the last layer, the cache) answers and the layer may keep the
    answer. *)
Fixpoint lookup_stack {R} (hit : ContextData -> option R) (keep : ContextData -> R -> R * ContextData)
    (base : contextCache -> R * contextCache) (cs : list ContextData) (cc : contextCache)
    : R * list ContextData * contextCache :=
  match cs with
  | [] => let '(r, cc) := base cc in (r, [], cc)
  | ctd :: ps =>
      match hit ctd with
      | Some r => (r, cs, cc)
      | None =>
          let '(r, ps, cc) := lookup_stack hit keep base ps cc in
          let '(r, ctd) := keep ctd r in
          (r, ctd :: ps, cc)
      end
  end.

(** The layer part of each getter: what answers at once, what is kept. *)

Definition seq_hit (addr : Address) (c : ContextData) : option Z :=
  if has (DeletedAccountMap c) addr then Some 0 else SeqMap c !! addr.
Definition seq_keep (addr : Address) (c : ContextData) (seq : Z) : Z * ContextData :=
  (seq, if (0 <? seq) && isTop c then set_SeqMap c (<[addr := seq]> (SeqMap c)) else c).

Definition account_hit (addr : Address) (c : ContextData) : option (res Account) :=
  if has (DeletedAccountMap c) addr then Some (Err ErrDeletedAccount)
  else Ok <$> AccountMap c !! addr.
Definition account_keep (addr : Address) (c : ContextData) (r : res Account) : res Account * ContextData :=
  match r with
  | Ok acc =>
      if isTop c then
        match acc_Clone acc with
        | Ok nacc => (Ok nacc, set_Accounts c (<[addr := nacc]> (AccountMap c)) (DeletedAccountMap c) (AccountNameMap c))
        | e => (e, c)
        end
      else (Ok acc, c)
  | e => (e, c)
  end.

Definition name_hit (name : bytes) (c : ContextData) : option (res Address) := Ok <$> AccountNameMap c !! name.
Definition name_keep (name : bytes) (c : ContextData) (r : res Address) : res Address * ContextData :=
  match r with
  | Ok addr => (Ok addr, if isTop c then set_Accounts c (AccountMap c) (DeletedAccountMap c) (<[name := addr]> (AccountNameMap c)) else c)
  | e => (e, c)
  end.

Definition accdata_hit (key : bytes) (c : ContextData) : option bytes :=
  if has (DeletedAccountDataMap c) key then Some [] else AccountDataMap c !! key.
Definition accdata_keep (key : bytes) (c : ContextData) (value : bytes) : bytes * ContextData :=
  match value with
  | [] => ([], c)
  | _ => (value, if isTop c then set_AccountData_maps c (<[key := value]> (AccountDataMap c)) (DeletedAccountDataMap c) else c)
  end.

Definition procdata_hit (key : bytes) (c : ContextData) : option bytes :=
  if has (DeletedProcessDataMap c) key then Some [] else ProcessDataMap c !! key.
Definition procdata_keep (key : bytes) (c : ContextData) (value : bytes) : bytes * ContextData :=
  match value with
  | [] => ([], c)
  | _ => (value, if isTop c then set_ProcessData_maps c (<[key := value]> (ProcessDataMap c)) (DeletedProcessDataMap c) else c)
  end.

Definition utxo_hit (id : Z) (c : ContextData) : option (res UTXO) :=
  if has (DeletedUTXOMap c) id then Some (Err ErrUsedUTXO) else Ok <$> UTXOMap c !! id.
Definition utxo_keep (id : Z) (c : ContextData) (r : res UTXO) : res UTXO * ContextData :=
  match r with
  | Ok u =>
      if isTop c then (Ok (UTXO_Clone u), set_UTXO_maps c (<[id := UTXO_Clone u]> (UTXOMap c)) (CreatedUTXOMap c) (DeletedUTXOMap c))
      else (Ok u, c)
  | e => (e, c)
  end.

(** Membership tests keep nothing. *)
Fixpoint test_stack {R} (hit : ContextData -> option R) (base : R) (cs : list ContextData) : R :=
  match cs with
  | [] => base
  | ctd :: ps => match hit ctd with Some r => r | None => test_stack hit base ps end
  end.

Definition hasacc_hit (addr : Address) (c : ContextData) : option (res bool) :=
  if has (DeletedAccountMap c) addr then Some (Ok false)
  else if has (AccountMap c) addr then Some (Ok true) else None.
Definition hasname_hit (name : bytes) (c : ContextData) : option (res bool) :=
  if has (AccountNameMap c) name then Some (Ok true) else None.
Definition hasutxo_hit (id : Z) (c : ContextData) : option (res bool) :=
  if has (DeletedUTXOMap c) id then Some (Ok false)
  else if has (UTXOMap c) id then Some (Ok true)
  else if has (CreatedUTXOMap c) id then Some (Ok true) else None.

(** ** The context *)

Record Context_ := mkContext {
  loader : Loader;
  genTargetHeight : Z;
  genLastHash : Hash256;
  genTimestamp : Z;
  cache : contextCache;
  stack : list ContextData;
  isLatestHash : bool;
  dataHash : Hash256
}.

Definition NewContext (ld : Loader) : Context_ := {|
  loader := ld;
  genTargetHeight := ld_TargetHeight ld;
  genLastHash := ld_LastHash ld;
  genTimestamp := ld_LastTimestamp ld;
  cache := newContextCache;
  stack := [NewContextData None];
  isLatestHash := false;
  dataHash := EmptyHash
|}.

Definition NewEmptyContext : Context_ := NewContext emptyLoader.

Definition set_stack (ctx : Context_) (cs : list ContextData) : Context_ :=
  mkContext (loader ctx) (genTargetHeight ctx) (genLastHash ctx) (genTimestamp ctx) (cache ctx) cs
    (isLatestHash ctx) (dataHash ctx).
Definition set_cache (ctx : Context_) (cc : contextCache) : Context_ :=
  mkContext (loader ctx) (genTargetHeight ctx) (genLastHash ctx) (genTimestamp ctx) cc (stack ctx)
    (isLatestHash ctx) (dataHash ctx).
Definition set_hash (ctx : Context_) (b : bool) (h : Hash256) : Context_ :=
  mkContext (loader ctx) (genTargetHeight ctx) (genLastHash ctx) (genTimestamp ctx) (cache ctx) (stack ctx) b h.

Definition ctxM (A : Type) : Type := ST Context_ A.

Definition no_top : string := "index out of range".

(** [ctx.isLatestHash = false]. *)
Definition invalidate : ctxM unit := modify (fun ctx => set_hash ctx false (dataHash ctx)).

(** A read that goes through [ctx.Top()]. *)
Definition read_stack {R} (hit : ContextData -> option R) (keep : ContextData -> R -> R * ContextData)
    (base : Loader -> contextCache -> R * contextCache) : ctxM R := fun ctx =>
  match stack ctx with
  | [] => (Panic no_top, ctx)
  | cs =>
      let '(r, cs, cc) := lookup_stack hit keep (base (loader ctx)) cs (cache ctx) in
      (Ok r, set_stack (set_cache ctx cc) cs)
  end.

(** A membership test through [ctx.Top()]. *)
Definition probe_stack {R} (hit : ContextData -> option R) (base : Loader -> contextCache -> R) : ctxM R := fun ctx =>
  match stack ctx with
  | [] => (Panic no_top, ctx)
  | cs => (Ok (test_stack hit (base (loader ctx) (cache ctx)) cs), ctx)
  end.

(** A write to the top layer. *)
Definition on_top (f : ContextData -> ContextData) : ctxM unit := fun ctx =>
  match stack ctx with
  | [] => (Panic no_top, ctx)
  | ctd :: ps => (Ok tt, set_stack ctx (f ctd :: ps))
  end.

Definition Top : ctxM ContextData := fun ctx =>
  match stack ctx with
  | [] => (Panic no_top, ctx)
  | ctd :: _ => (Ok ctd, ctx)
  end.

Definition TargetHeight : ctxM Z := gets genTargetHeight.
Definition LastHash : ctxM Hash256 := gets genLastHash.
Definition LastTimestamp : ctxM Z := gets genTimestamp.
Definition LastStatus : ctxM (Z * Hash256 * Z) :=
  gets (fun ctx => (genTargetHeight ctx, genLastHash ctx, genTimestamp ctx)).

(** *** Sequences *)

Definition Seq (addr : Address) : ctxM Z :=
  read_stack (seq_hit addr) (seq_keep addr) (fun ld => cache_Seq ld addr).

Definition AddSeq (addr : Address) : ctxM unit :=
  invalidate ;;;
  let! ctd := Top in
  if has (DeletedAccountMap ctd) addr then ret tt
  else
    let! seq := Seq addr in
    on_top (fun ctd => set_SeqMap ctd (<[addr := u64 (seq + 1)]> (SeqMap ctd))).

(** *** Accounts *)

(** [ctd.Account], without the context's bookkeeping. *)
Definition ctd_Account (addr : Address) : ctxM Account :=
  let! r := read_stack (account_hit addr) (account_keep addr) (fun ld => cache_Account ld addr) in
  lift r.

Definition Account_ (addr : Address) : ctxM Account := invalidate ;;; ctd_Account addr.

(** A write through the pointer [Account] returned: the instance is the one
    [Account] put in the top layer. *)
Definition UpdateAccount (addr : Address) (f : Account -> Account) : ctxM unit :=
  let! _ := Account_ addr in
  on_top (fun ctd => set_Accounts ctd (alter f addr (AccountMap ctd)) (DeletedAccountMap ctd) (AccountNameMap ctd)).

Definition AddressByName (name : bytes) : ctxM Address :=
  let! r := read_stack (name_hit name) (name_keep name) (fun ld => cache_AddressByName ld name) in
  lift r.

Definition HasAccount (addr : Address) : ctxM bool :=
  let! r := probe_stack (hasacc_hit addr) (fun ld => cache_HasAccount ld addr) in
  lift r.

Definition HasAccountName (name : bytes) : ctxM bool :=
  let! r := probe_stack (hasname_hit name) (fun ld => cache_HasAccountName ld name) in
  lift r.

(** [if has, err := m; err != nil { if err != ErrNotExistAccount { return err } } else if has { return e }]. *)
Definition must_not_exist {S} (m : ST S bool) (e : error) : ST S unit :=
  let! r := attempt m in
  match r with
  | inl err => guard (bool_decide (err = ErrNotExistAccount)) err
  | inr b => guard (negb b) e
  end.

Definition CreateAccount `{Base58} (acc : Account) : ctxM unit :=
  invalidate ;;;
  let! height := TargetHeight in
  guard (Height (acc_Address acc) =? height) ErrInvalidAddressHeight ;;;
  guard (bool_decide (acc_Address acc <> NewAddress 0 0 0)) ErrNotAllowedZeroAddressAccount ;;;
  let! parsed := attempt (lift (ParseAddress (acc_Name acc))) in
  match parsed with
  | inr _ => fail ErrNotAllowedAddressAccountName
  | inl _ => ret tt
  end ;;;
  must_not_exist (HasAccount (acc_Address acc)) ErrExistAccount ;;;
  must_not_exist (HasAccountName (acc_Name acc)) ErrExistAccountName ;;;
  on_top (fun ctd => set_Accounts ctd (<[acc_Address acc := acc]> (AccountMap ctd)) (DeletedAccountMap ctd)
                       (<[acc_Name acc := acc_Address acc]> (AccountNameMap ctd))).

Definition DeleteAccount (acc : Account) : ctxM unit :=
  invalidate ;;;
  let! _ := ctd_Account (acc_Address acc) in
  on_top (fun ctd => set_Accounts ctd (delete (acc_Address acc) (AccountMap ctd))
                       (<[acc_Address acc := acc]> (DeletedAccountMap ctd))
                       (delete (acc_Name acc) (AccountNameMap ctd))).

(** *** Account and process data *)

Definition AccountData (addr : Address) (pid : Z) (name : bytes) : ctxM bytes :=
  let key := account_data_key addr pid name in
  read_stack (accdata_hit key) (accdata_keep key) (fun ld => cache_AccountData ld key).

Definition put_accdata (key value : bytes) (ctd : ContextData) : ContextData :=
  match value with
  | [] => set_AccountData_maps ctd (delete key (AccountDataMap ctd)) (<[key := true]> (DeletedAccountDataMap ctd))
  | _ => set_AccountData_maps ctd (<[key := value]> (AccountDataMap ctd)) (delete key (DeletedAccountDataMap ctd))
  end.

Definition SetAccountData (addr : Address) (pid : Z) (name value : bytes) : ctxM unit :=
  invalidate ;;;
  on_top (put_accdata (account_data_key addr pid name) value).

Definition ProcessData (pid : Z) (name : bytes) : ctxM bytes :=
  let key := process_data_key pid name in
  read_stack (procdata_hit key) (procdata_keep key) (fun ld => cache_ProcessData ld key).

Definition put_procdata (key value : bytes) (ctd : ContextData) : ContextData :=
  match value with
  | [] => set_ProcessData_maps ctd (delete key (ProcessDataMap ctd)) (<[key := true]> (DeletedProcessDataMap ctd))
  | _ => set_ProcessData_maps ctd (<[key := value]> (ProcessDataMap ctd)) (delete key (DeletedProcessDataMap ctd))
  end.

(** [SetProcessData] leaves [isLatestHash] as it is. *)
Definition SetProcessData (pid : Z) (name value : bytes) : ctxM unit :=
  on_top (put_procdata (process_data_key pid name) value).

(** *** UTXOs *)

Definition HasUTXO (id : Z) : ctxM bool :=
  let! r := probe_stack (hasutxo_hit id) (fun _ => cache_HasUTXO id) in
  lift r.

Definition ctd_UTXO (id : Z) : ctxM UTXO :=
  let! r := read_stack (utxo_hit id) (utxo_keep id) (fun ld => cache_UTXO ld id) in
  lift r.

Definition UTXO_ (id : Z) : ctxM UTXO := ctd_UTXO id.

Definition CreateUTXO (id : Z) (vout : TxOut) : ctxM unit :=
  invalidate ;;;
  let! r := attempt (ctd_UTXO id) in
  match r with
  | inl err => guard (bool_decide (err = ErrNotExistUTXO)) err
  | inr _ => fail ErrExistUTXO
  end ;;;
  on_top (fun ctd => set_UTXO_maps ctd (UTXOMap ctd) (<[id := vout]> (CreatedUTXOMap ctd)) (DeletedUTXOMap ctd)).

Definition DeleteUTXO (utxo : UTXO) : ctxM unit :=
  invalidate ;;;
  let! _ := ctd_UTXO (UTXO_ID utxo) in
  on_top (fun ctd => set_UTXO_maps ctd (UTXOMap ctd) (CreatedUTXOMap ctd) (<[UTXO_ID utxo := utxo]> (DeletedUTXOMap ctd))).

(** *** Events *)

Definition EmitEvent (e : Event) : ctxM unit :=
  invalidate ;;;
  on_top (fun ctd => set_Events ctd (Events ctd ++ [SetN e (EventN ctd)]) (u16 (EventN ctd + 1))).

(** *** Snapshots *)

Definition Snapshot : ctxM Z :=
  invalidate ;;;
  fun ctx =>
    match stack ctx with
    | [] => (Panic no_top, ctx)
    | top :: ps =>
        let cs := NewContextData (Some top) :: set_isTop top false :: ps in
        (Ok (Z.of_nat (length cs)), set_stack ctx cs)
    end.

(** [ctx.stack[:sn-1]] on the stack with the top first. *)
Definition cut_stack (sn : Z) (cs : list ContextData) : list ContextData :=
  drop (length cs - Z.to_nat (sn - 1)) cs.

Definition mark_top (cs : list ContextData) : res (list ContextData) :=
  match cs with
  | [] => Panic no_top
  | ctd :: ps => Ok (set_isTop ctd true :: ps)
  end.

Definition Revert (sn : Z) : ctxM unit :=
  invalidate ;;;
  fun ctx =>
    if sn <? 1 then (Panic "slice bounds out of range", ctx)
    else
      let cs := if sn <=? Z.of_nat (length (stack ctx)) then cut_stack sn (stack ctx) else stack ctx in
      match mark_top cs with
      | Ok cs => (Ok tt, set_stack ctx cs)
      | Err e => (Err e, set_stack ctx cs)
      | Panic w => (Panic w, set_stack ctx cs)
      end.

(** [m.EachAll(func(k, v) { top.Put(k, v) })] and the deletion of every key of [m]. *)
Definition put_all {K V} `{Countable K} (m top : gmap K V) : gmap K V :=
  map_fold (fun k v acc => <[k := v]> acc) top m.
Definition delete_all {K V W} `{Countable K} (m : gmap K V) (top : gmap K W) : gmap K W :=
  map_fold (fun k _ acc => delete k acc) top m.

(** The body of the loop of [Commit]: the layer [ctd] is written to the one below. *)
Definition commit_layer (ctd top : ContextData) : ContextData := {|
  SeqMap := put_all (SeqMap ctd) (SeqMap top);
  AccountMap := delete_all (DeletedAccountMap ctd) (put_all (AccountMap ctd) (AccountMap top));
  DeletedAccountMap := put_all (DeletedAccountMap ctd) (DeletedAccountMap top);
  AccountNameMap := put_all (AccountNameMap ctd) (AccountNameMap top);
  AccountDataMap := delete_all (DeletedAccountDataMap ctd) (put_all (AccountDataMap ctd) (AccountDataMap top));
  DeletedAccountDataMap := put_all (DeletedAccountDataMap ctd) (DeletedAccountDataMap top);
  ProcessDataMap := delete_all (DeletedProcessDataMap ctd) (put_all (ProcessDataMap ctd) (ProcessDataMap top));
  DeletedProcessDataMap := put_all (DeletedProcessDataMap ctd) (DeletedProcessDataMap top);
  UTXOMap := delete_all (DeletedUTXOMap ctd) (put_all (UTXOMap ctd) (UTXOMap top));
  CreatedUTXOMap := delete_all (DeletedUTXOMap ctd) (put_all (CreatedUTXOMap ctd) (CreatedUTXOMap top));
  DeletedUTXOMap := put_all (DeletedUTXOMap ctd) (DeletedUTXOMap top);
  Events := Events top ++ Events ctd;
  EventN := EventN ctd;
  isTop := isTop top
|}.

(** [for len(ctx.stack) >= sn { ... }]; popping the last layer leaves no top. *)
Fixpoint commit_loop (sn : Z) (ctd : ContextData) (ps : list ContextData) : res (list ContextData) :=
  if sn <=? Z.of_nat (S (length ps)) then
    match ps with
    | [] => Panic no_top
    | top :: ps => commit_loop sn (commit_layer ctd top) ps
    end
  else Ok (ctd :: ps).

Definition Commit (sn : Z) : ctxM unit :=
  invalidate ;;;
  fun ctx =>
    let r := match stack ctx with
             | [] => Panic no_top
             | ctd :: ps => commit_loop sn ctd ps
             end in
    match (let? cs := r in mark_top cs) with
    | Ok cs => (Ok tt, set_stack ctx cs)
    | Err e => (Err e, ctx)
    | Panic w => (Panic w, ctx)
    end.

Definition StackSize : ctxM Z := gets (fun ctx => Z.of_nat (length (stack ctx))).

(** *** The context hash *)

(** [encoding.Marshal] (a third-party encoder) at the type of a map or an event. *)
Class Marshaler (A : Type) := Marshal : A -> bytes.

(** [EachAll] visits the keys in increasing order. *)
Definition bytes_le (a b : bytes) : Prop := bytes_lt b a = false.
#[export] Instance bytes_le_dec a b : Decision (bytes_le a b) := decide (bytes_lt b a = false).
Definition sorted_byte_keys {V} (m : gmap bytes V) : list bytes := merge_sort bytes_le (map_to_list m).*1.
Definition sorted_int_keys {V} (m : gmap Z V) : list Z := merge_sort Z.le (map_to_list m).*1.

(** The sorted keys are the keys, once each. *)
Lemma sorted_keys_elem {V} (m : gmap bytes V) k : k ∈ sorted_byte_keys m <-> is_Some (m !! k).
Proof.
  unfold sorted_byte_keys. rewrite merge_sort_Permutation, list_elem_of_fmap. split.
  - intros ([k' v] & -> & Hin%elem_of_map_to_list). by exists v.
  - intros [v Hv]. exists (k, v). by rewrite elem_of_map_to_list.
Qed.

Lemma sorted_keys_nodup {V} (m : gmap bytes V) : NoDup (sorted_byte_keys m).
Proof. unfold sorted_byte_keys. rewrite merge_sort_Permutation. apply NoDup_fst_map_to_list. Qed.

Lemma sorted_ints_elem {V} (m : gmap Z V) k : k ∈ sorted_int_keys m <-> is_Some (m !! k).
Proof.
  unfold sorted_int_keys. rewrite merge_sort_Permutation, list_elem_of_fmap. split.
  - intros ([k' v] & -> & Hin%elem_of_map_to_list). by exists v.
  - intros [v Hv]. exists (k, v). by rewrite elem_of_map_to_list.
Qed.

Section ContextHash.
Context `{Sha256} `{!Marshaler (gmap Address Z), !Marshaler (gmap Address Account), !Marshaler (gmap bytes bytes),
  !Marshaler (gmap Z UTXO), !Marshaler (gmap Z TxOut), !Marshaler Event}.

(** [encoding.Hash(m).String()]. *)
Definition marshal_hash {A} `{!Marshaler A} (a : A) : Hash256 := Hash (Marshal a).
Definition hash_text {A} `{!Marshaler A} (a : A) : bytes := hex_EncodeToString (marshal_hash a).

Definition ctd_Hash_input (ctx : Context_) (ctd : ContextData) : bytes :=
  str "ChainID" ++ [ld_ChainID (loader ctx)] ++
  str "ChainName" ++ ld_Name (loader ctx) ++
  str "ChainVersion" ++ Uint16ToBytes (ld_Version (loader ctx)) ++
  str "Height" ++ Uint32ToBytes (genTargetHeight ctx) ++
  str "PrevHash" ++ genLastHash ctx ++
  str "SeqMap" ++ hash_text (SeqMap ctd) ++
  str "AccountMap" ++ hash_text (AccountMap ctd) ++
  str "DeletedAccountMap" ++ concat (sorted_byte_keys (DeletedAccountMap ctd)) ++
  str "AccountNameMap" ++ hash_text (AccountNameMap ctd) ++
  str "AccountDataMap" ++ hash_text (AccountDataMap ctd) ++
  str "DeletedAccountDataMap" ++ concat (sorted_byte_keys (DeletedAccountDataMap ctd)) ++
  str "UTXOMap" ++ hash_text (UTXOMap ctd) ++
  str "CreatedUTXOMap" ++ hash_text (CreatedUTXOMap ctd) ++
  str "DeletedUTXOMap" ++ concat (Uint64ToBytes <$> sorted_int_keys (DeletedUTXOMap ctd)) ++
  str "Events" ++ concat (marshal_hash <$> Events ctd) ++
  str "ProcessDataMap" ++ hash_text (ProcessDataMap ctd) ++
  str "DeletedProcessDataMap" ++ concat (sorted_byte_keys (DeletedProcessDataMap ctd)).

Definition ctd_Hash (ctx : Context_) (ctd : ContextData) : Hash256 := DoubleHash (ctd_Hash_input ctx ctd).

Definition ctx_Hash : ctxM Hash256 := fun ctx =>
  if isLatestHash ctx then (Ok (dataHash ctx), ctx)
  else
    (let! ctd := Top in
     let! h := lift (Hashes [genLastHash ctx; ctd_Hash ctx ctd]) in
     modify (fun ctx => set_hash ctx true h) ;;;
     ret h) ctx.
End ContextHash.

(** *** Chaining contexts *)

(** A context is itself a loader for the context of the next block.  The reads
    go through its layers, none of which is a top any more, so they change
    nothing but its cache, which holds what the loader answers. *)
Definition read_value {R} (m : ctxM R) (dflt : R) (ctx : Context_) : R :=
  match fst (m ctx) with Ok r => r | _ => dflt end.

Definition run_res {R} (m : ctxM R) (ctx : Context_) : res R := fst (m ctx).

Definition context_loader (ctx : Context_) : Loader := {|
  ld_ChainID := ld_ChainID (loader ctx);
  ld_Name := ld_Name (loader ctx);
  ld_Version := ld_Version (loader ctx);
  ld_TargetHeight := genTargetHeight ctx;
  ld_LastHash := genLastHash ctx;
  ld_LastTimestamp := genTimestamp ctx;
  ld_Seq addr := read_value (Seq addr) 0 ctx;
  ld_Account addr := run_res (Account_ addr) ctx;
  ld_AddressByName name := run_res (AddressByName name) ctx;
  ld_HasAccount addr := run_res (HasAccount addr) ctx;
  ld_HasAccountName name := run_res (HasAccountName name) ctx;
  ld_AccountData key :=
    read_value (read_stack (accdata_hit key) (accdata_keep key) (fun ld => cache_AccountData ld key)) [] ctx;
  ld_HasUTXO id := run_res (HasUTXO id) ctx;
  ld_UTXO id := run_res (UTXO_ id) ctx;
  ld_ProcessData key :=
    read_value (read_stack (procdata_hit key) (procdata_keep key) (fun ld => cache_ProcessData ld key)) [] ctx
|}.

(** [NextContext] returns the new context; the old one loses its top mark. *)
Definition NextContext (NextHash : Hash256) (Timestamp : Z) : ctxM Context_ :=
  on_top (fun ctd => set_isTop ctd false) ;;;
  gets (fun ctx =>
    let nctx := NewContext (context_loader ctx) in
    mkContext (loader nctx) (u32 (genTargetHeight ctx + 1)) NextHash Timestamp
      (cache nctx) (stack nctx) (isLatestHash nctx) (dataHash nctx)).

(** ** Context wrappers

    A wrapper pairs a process id with the shared context; the context is the
    state of the monad, so the wrapper is the id. *)
Record ContextWrapper := NewContextWrapper { cw_pid : Z }.

Definition SwitchContextWrapper (pid : Z) (ctw : ContextWrapper) : ContextWrapper :=
  if cw_pid ctw =? pid then ctw else NewContextWrapper pid.

Definition Switch (ctw : ContextWrapper) (pid : Z) : ContextWrapper :=
  if cw_pid ctw =? pid then ctw else SwitchContextWrapper pid ctw.
