(* ===== verification/ContextSpec.v ===== *)
(** * The abstract context

    What a context promises to the processes that run on it.  [ContextOps] is the
    interface of [types.ContextWrapper] as the processes use it; it has two
    implementations: the context of [core/types] (file [Context]), and an
    abstract machine whose state is a stack of frames, each frame the total
    functions a reader sees at that level.  The abstract machine has no cache, no
    loader and no layers to search, and its reads change nothing.

    [simulates] relates the two; the operations of the context simulate those of
    the machine ([context_refines_spec] at the end), so whatever a process does
    depends on what the context answers and not on how it stores it. *)

From stdpp Require Import base gmap list sorting strings.
From Stdlib Require Import ZArith Lia FunctionalExtensionality.
From S2P Require Import Prelude Amount Common Types Context.

(** ** The interface *)

Class ContextOps (S : Type) := {
  op_TargetHeight : ST S Z;
  op_LastHash : ST S Hash256;
  op_LastTimestamp : ST S Z;
  op_Seq : Address -> ST S Z;
  op_AddSeq : Address -> ST S unit;
  op_Account : Address -> ST S Account;
  op_UpdateAccount : Address -> (Account -> Account) -> ST S unit;
  op_AddressByName : bytes -> ST S Address;
  op_HasAccount : Address -> ST S bool;
  op_HasAccountName : bytes -> ST S bool;
  op_CreateAccount : Account -> ST S unit;
  op_DeleteAccount : Account -> ST S unit;
  op_AccountData : Address -> Z -> bytes -> ST S bytes;
  op_SetAccountData : Address -> Z -> bytes -> bytes -> ST S unit;
  op_ProcessData : Z -> bytes -> ST S bytes;
  op_SetProcessData : Z -> bytes -> bytes -> ST S unit;
  op_EmitEvent : Event -> ST S unit;
  op_Snapshot : ST S Z;
  op_Revert : Z -> ST S unit;
  op_Commit : Z -> ST S unit;
  op_StackSize : ST S Z
}.

#[export] Instance context_ops `{Base58} : ContextOps Context_ := {|
  op_TargetHeight := TargetHeight;
  op_LastHash := LastHash;
  op_LastTimestamp := LastTimestamp;
  op_Seq := Seq;
  op_AddSeq := AddSeq;
  op_Account := Account_;
  op_UpdateAccount := UpdateAccount;
  op_AddressByName := AddressByName;
  op_HasAccount := HasAccount;
  op_HasAccountName := HasAccountName;
  op_CreateAccount := CreateAccount;
  op_DeleteAccount := DeleteAccount;
  op_AccountData := AccountData;
  op_SetAccountData := SetAccountData;
  op_ProcessData := ProcessData;
  op_SetProcessData := SetProcessData;
  op_EmitEvent := EmitEvent;
  op_Snapshot := Snapshot;
  op_Revert := Revert;
  op_Commit := Commit;
  op_StackSize := StackSize
|}.

(** ** The abstract machine *)

Definition upd {K V} `{EqDecision K} (f : K -> V) (k : K) (v : V) : K -> V :=
  fun k' => if decide (k' = k) then v else f k'.

(** What a reader sees at one level, and what the level itself has removed. *)
Record Frame := mkFrame {
  f_seq : Address -> Z;
  f_acc : Address -> res Account;
  f_name : bytes -> res Address;
  f_hasacc : Address -> res bool;
  f_hasname : bytes -> res bool;
  f_ad : bytes -> bytes;
  f_pd : bytes -> bytes;
  f_gone : Address -> bool;
  f_clear_ad : bytes -> bool;
  f_clear_pd : bytes -> bool;
  f_events : list Event;
  f_eventn : Z
}.

(** The top frame first; the last frame is what the loader answers. *)
Record AbsCtx := mkAbs {
  a_TargetHeight : Z;
  a_LastHash : Hash256;
  a_LastTimestamp : Z;
  a_top : Frame;
  a_below : list Frame
}.

Definition set_top (a : AbsCtx) (f : Frame) : AbsCtx :=
  mkAbs (a_TargetHeight a) (a_LastHash a) (a_LastTimestamp a) f (a_below a).
Definition set_frames (a : AbsCtx) (f : Frame) (fs : list Frame) : AbsCtx :=
  mkAbs (a_TargetHeight a) (a_LastHash a) (a_LastTimestamp a) f fs.

Definition absM (A : Type) : Type := ST AbsCtx A.
Definition on_frame (g : Frame -> Frame) : absM unit := modify (fun a => set_top a (g (a_top a))).

Definition frame_set_seq (f : Frame) s := mkFrame s (f_acc f) (f_name f) (f_hasacc f) (f_hasname f) (f_ad f) (f_pd f)
  (f_gone f) (f_clear_ad f) (f_clear_pd f) (f_events f) (f_eventn f).
Definition frame_set_acc (f : Frame) a := mkFrame (f_seq f) a (f_name f) (f_hasacc f) (f_hasname f) (f_ad f) (f_pd f)
  (f_gone f) (f_clear_ad f) (f_clear_pd f) (f_events f) (f_eventn f).
Definition frame_set_ad (f : Frame) d c := mkFrame (f_seq f) (f_acc f) (f_name f) (f_hasacc f) (f_hasname f) d (f_pd f)
  (f_gone f) c (f_clear_pd f) (f_events f) (f_eventn f).
Definition frame_set_pd (f : Frame) d c := mkFrame (f_seq f) (f_acc f) (f_name f) (f_hasacc f) (f_hasname f) (f_ad f) d
  (f_gone f) (f_clear_ad f) c (f_events f) (f_eventn f).
Definition frame_set_events (f : Frame) evs n := mkFrame (f_seq f) (f_acc f) (f_name f) (f_hasacc f) (f_hasname f) (f_ad f) (f_pd f)
  (f_gone f) (f_clear_ad f) (f_clear_pd f) evs n.

Definition is_empty (v : bytes) : bool := match v with [] => true | _ => false end.

(** A created account answers, unless its address was deleted at this level. *)
Definition frame_create (f : Frame) (acc : Account) : Frame :=
  let addr := acc_Address acc in
  let gone := f_gone f addr in
  mkFrame (f_seq f)
    (upd (f_acc f) addr (if gone then Err ErrDeletedAccount else Ok acc))
    (upd (f_name f) (acc_Name acc) (Ok addr))
    (upd (f_hasacc f) addr (if gone then Ok false else Ok true))
    (upd (f_hasname f) (acc_Name acc) (Ok true))
    (f_ad f) (f_pd f) (f_gone f) (f_clear_ad f) (f_clear_pd f) (f_events f) (f_eventn f).

(** Deletion forgets the name at this level only: the level below answers again. *)
Definition frame_delete (f below : Frame) (acc : Account) : Frame :=
  let addr := acc_Address acc in
  mkFrame (upd (f_seq f) addr 0)
    (upd (f_acc f) addr (Err ErrDeletedAccount))
    (upd (f_name f) (acc_Name acc) (f_name below (acc_Name acc)))
    (upd (f_hasacc f) addr (Ok false))
    (upd (f_hasname f) (acc_Name acc) (f_hasname below (acc_Name acc)))
    (f_ad f) (f_pd f) (upd (f_gone f) addr true) (f_clear_ad f) (f_clear_pd f) (f_events f) (f_eventn f).

(** A snapshot sees what the level below sees and has removed nothing. *)
Definition frame_snapshot (f : Frame) : Frame :=
  mkFrame (f_seq f) (f_acc f) (f_name f) (f_hasacc f) (f_hasname f) (f_ad f) (f_pd f)
    (fun _ => false) (fun _ => false) (fun _ => false) [] (f_eventn f).

(** What the level below [b] sees when [f] is committed to it: what [f] sees,
    except that what [b] had removed stays removed. *)
Definition frame_commit (f b : Frame) : Frame := {|
  f_seq addr := if f_gone b addr then 0 else f_seq f addr;
  f_acc addr := if f_gone b addr then Err ErrDeletedAccount else f_acc f addr;
  f_name := f_name f;
  f_hasacc addr := if f_gone b addr then Ok false else f_hasacc f addr;
  f_hasname := f_hasname f;
  f_ad k := if f_clear_ad b k then [] else f_ad f k;
  f_pd k := if f_clear_pd b k then [] else f_pd f k;
  f_gone addr := f_gone f addr || f_gone b addr;
  f_clear_ad k := f_clear_ad f k || f_clear_ad b k;
  f_clear_pd k := f_clear_pd f k || f_clear_pd b k;
  f_events := f_events b ++ f_events f;
  f_eventn := f_eventn f
|}.

(** The number of levels above the loader. *)
Definition a_size (a : AbsCtx) : Z := Z.of_nat (length (a_below a)).

Definition abs_Account (addr : Address) : absM Account := fun a => (f_acc (a_top a) addr, a).

Definition abs_CreateAccount `{Base58} (acc : Account) : absM unit :=
  let! height := gets a_TargetHeight in
  guard (Height (acc_Address acc) =? height) ErrInvalidAddressHeight ;;;
  guard (bool_decide (acc_Address acc <> NewAddress 0 0 0)) ErrNotAllowedZeroAddressAccount ;;;
  let! parsed := attempt (lift (ParseAddress (acc_Name acc))) in
  match parsed with
  | inr _ => fail ErrNotAllowedAddressAccountName
  | inl _ => ret tt
  end ;;;
  must_not_exist (fun a => (f_hasacc (a_top a) (acc_Address acc), a)) ErrExistAccount ;;;
  must_not_exist (fun a => (f_hasname (a_top a) (acc_Name acc), a)) ErrExistAccountName ;;;
  on_frame (fun f => frame_create f acc).

Definition abs_Snapshot : absM Z := fun a =>
  let a' := set_frames a (frame_snapshot (a_top a)) (a_top a :: a_below a) in
  (Ok (a_size a'), a').

(** Reverting to before snapshot [sn] keeps the frames numbered below [sn]. *)
Definition abs_Revert (sn : Z) : absM unit := fun a =>
  if sn <? 1 then (Panic "slice bounds out of range", a)
  else if a_size a <? sn then (Ok tt, a)
  else match drop (length (a_below a) - Z.to_nat (sn - 1)) (a_top a :: a_below a) with
       | [] | [_] => (Panic no_top, a)
       | f :: fs => (Ok tt, set_frames a f fs)
       end.

Fixpoint abs_commit_loop (sn : Z) (f : Frame) (fs : list Frame) : res (Frame * list Frame) :=
  if sn <=? Z.of_nat (length fs) then
    match fs with
    | [] | [_] => Panic no_top
    | b :: fs => abs_commit_loop sn (frame_commit f b) fs
    end
  else Ok (f, fs).

Definition abs_Commit (sn : Z) : absM unit := fun a =>
  match abs_commit_loop sn (a_top a) (a_below a) with
  | Ok (f, fs) => (Ok tt, set_frames a f fs)
  | Err e => (Err e, a)
  | Panic w => (Panic w, a)
  end.

#[export] Instance abs_ops `{Base58} : ContextOps AbsCtx := {|
  op_TargetHeight := gets a_TargetHeight;
  op_LastHash := gets a_LastHash;
  op_LastTimestamp := gets a_LastTimestamp;
  op_Seq addr := gets (fun a => f_seq (a_top a) addr);
  op_AddSeq addr := on_frame (fun f =>
    if f_gone f addr then f else frame_set_seq f (upd (f_seq f) addr (u64 (f_seq f addr + 1))));
  op_Account := abs_Account;
  op_UpdateAccount addr g :=
    let! acc := abs_Account addr in
    on_frame (fun f => frame_set_acc f (upd (f_acc f) addr (Ok (g acc))));
  op_AddressByName name := fun a => (f_name (a_top a) name, a);
  op_HasAccount addr := fun a => (f_hasacc (a_top a) addr, a);
  op_HasAccountName name := fun a => (f_hasname (a_top a) name, a);
  op_CreateAccount := abs_CreateAccount;
  op_DeleteAccount acc :=
    let! _ := abs_Account (acc_Address acc) in
    modify (fun a => match a_below a with
                     | [] => a
                     | b :: _ => set_top a (frame_delete (a_top a) b acc)
                     end);
  op_AccountData addr pid name := gets (fun a => f_ad (a_top a) (account_data_key addr pid name));
  op_SetAccountData addr pid name v :=
    let key := account_data_key addr pid name in
    on_frame (fun f => frame_set_ad f (upd (f_ad f) key v) (upd (f_clear_ad f) key (is_empty v)));
  op_ProcessData pid name := gets (fun a => f_pd (a_top a) (process_data_key pid name));
  op_SetProcessData pid name v :=
    let key := process_data_key pid name in
    on_frame (fun f => frame_set_pd f (upd (f_pd f) key v) (upd (f_clear_pd f) key (is_empty v)));
  op_EmitEvent e := on_frame (fun f =>
    frame_set_events f (f_events f ++ [SetN e (f_eventn f)]) (u16 (f_eventn f + 1)));
  op_Snapshot := abs_Snapshot;
  op_Revert := abs_Revert;
  op_Commit := abs_Commit;
  op_StackSize := gets a_size
|}.

(** ** The abstraction function *)

Definition frame_of (ld : Loader) (cs : list ContextData) : Frame := {|
  f_seq addr := test_stack (seq_hit addr) (ld_Seq ld addr) cs;
  f_acc addr := test_stack (account_hit addr) (ld_Account ld addr) cs;
  f_name name := test_stack (name_hit name) (ld_AddressByName ld name) cs;
  f_hasacc addr := test_stack (hasacc_hit addr) (ld_HasAccount ld addr) cs;
  f_hasname name := test_stack (hasname_hit name) (ld_HasAccountName ld name) cs;
  f_ad k := test_stack (accdata_hit k) (ld_AccountData ld k) cs;
  f_pd k := test_stack (procdata_hit k) (ld_ProcessData ld k) cs;
  f_gone addr := match cs with [] => false | c :: _ => has (DeletedAccountMap c) addr end;
  f_clear_ad k := match cs with [] => false | c :: _ => has (DeletedAccountDataMap c) k end;
  f_clear_pd k := match cs with [] => false | c :: _ => has (DeletedProcessDataMap c) k end;
  f_events := match cs with [] => [] | c :: _ => Events c end;
  f_eventn := match cs with [] => 0 | c :: _ => EventN c end
|}.

Fixpoint frames_below (ld : Loader) (cs : list ContextData) : list Frame :=
  match cs with
  | [] => []
  | _ :: ps => frame_of ld ps :: frames_below ld ps
  end.

Definition abs (ctx : Context_) : AbsCtx :=
  mkAbs (genTargetHeight ctx) (genLastHash ctx) (genTimestamp ctx)
    (frame_of (loader ctx) (stack ctx)) (frames_below (loader ctx) (stack ctx)).

(** ** Well-formed contexts *)

(** Cloning an account gives the same account: its key hashes have their length. *)
Definition acc_ok (acc : Account) : Prop := acc_Clone acc = Ok acc.

(** What the interface [Loader] promises: what it returns, it has, and it does
    not panic. *)
Record loader_ok (ld : Loader) : Prop := {
  lo_acc : forall addr acc, ld_Account ld addr = Ok acc -> acc_ok acc /\ ld_HasAccount ld addr = Ok true;
  lo_name : forall name addr, ld_AddressByName ld name = Ok addr -> ld_HasAccountName ld name = Ok true;
  lo_acc_safe : forall addr w, ld_Account ld addr <> Panic w;
  lo_name_safe : forall name w, ld_AddressByName ld name <> Panic w;
  lo_hasacc_safe : forall addr w, ld_HasAccount ld addr <> Panic w;
  lo_hasname_safe : forall name w, ld_HasAccountName ld name <> Panic w
}.

(** The cache holds what the loader answers. *)
Record cache_ok (ld : Loader) (cc : contextCache) : Prop := {
  co_seq : forall k v, cc_SeqMap cc !! k = Some v -> ld_Seq ld k = v;
  co_acc : forall k v, cc_AccountMap cc !! k = Some v -> ld_Account ld k = Ok v;
  co_name : forall k v, cc_AccountNameMap cc !! k = Some v -> ld_AddressByName ld k = Ok v;
  co_ad : forall k v, cc_AccountDataMap cc !! k = Some v -> ld_AccountData ld k = v;
  co_pd : forall k v, cc_ProcessDataMap cc !! k = Some v -> ld_ProcessData ld k = v
}.

Definition layer_ok (c : ContextData) : Prop := map_Forall (fun _ acc => acc_ok acc) (AccountMap c).

Record ctx_ok (ctx : Context_) : Prop := {
  ok_loader : loader_ok (loader ctx);
  ok_cache : cache_ok (loader ctx) (cache ctx);
  ok_layers : Forall layer_ok (stack ctx);
  ok_top : exists c ps, stack ctx = c :: ps /\ isTop c = true /\ Forall (fun p => isTop p = false) ps
}.

(** ** Simulation *)

(** Run from a well-formed context, [m] gives the result [ma] gives from its
    abstraction, and ends well-formed in the abstraction of [ma]'s end state.
    After a panic there is no state to speak of. *)
Definition simulates {A} (m : ctxM A) (ma : absM A) : Prop := forall ctx, ctx_ok ctx ->
  match m ctx with
  | (Panic w, _) => fst (ma (abs ctx)) = Panic w
  | (r, ctx') => ctx_ok ctx' /\ ma (abs ctx) = (r, abs ctx')
  end.

Create HintDb simulation.

Lemma sim_ret {A} (a : A) : simulates (ret a) (ret a).
Proof. intros ctx H. by split. Qed.

Lemma sim_fail {A} e : simulates (A := A) (fail e) (fail e).
Proof. intros ctx H. by split. Qed.

Lemma sim_throw {A} w : simulates (A := A) (throw w) (throw w).
Proof. by intros ctx H. Qed.

Lemma sim_lift {A} (r : res A) : simulates (lift r) (lift r).
Proof. intros ctx H. by destruct r. Qed.

Lemma sim_guard b e : simulates (guard b e) (guard b e).
Proof. destruct b; [apply sim_ret | apply sim_fail]. Qed.

Lemma sim_bind {A B} (m : ctxM A) ma (k : A -> ctxM B) ka :
  simulates m ma -> (forall a, simulates (k a) (ka a)) -> simulates (bind m k) (bind ma ka).
Proof.
  intros Hm Hk ctx H. unfold bind. specialize (Hm ctx H). destruct (m ctx) as [[a|e|w] ctx'].
  - destruct Hm as [H' ->]. by apply Hk.
  - destruct Hm as [H' ->]. by split.
  - destruct (ma (abs ctx)) as [r s]. simpl in Hm. by subst r.
Qed.

Lemma sim_attempt {A} (m : ctxM A) ma : simulates m ma -> simulates (attempt m) (attempt ma).
Proof.
  intros Hm ctx H. unfold attempt. specialize (Hm ctx H). destruct (m ctx) as [[a|e|w] ctx'].
  1-2: destruct Hm as [H' ->]; by split.
  destruct (ma (abs ctx)) as [r s]. simpl in Hm. by subst r.
Qed.

Lemma sim_for_each {A} (l : list A) (body : A -> ctxM unit) bodya :
  (forall x, simulates (body x) (bodya x)) -> simulates (for_each l body) (for_each l bodya).
Proof. intros H. induction l; simpl; [apply sim_ret | by apply sim_bind]. Qed.

#[export] Hint Resolve sim_ret sim_fail sim_throw sim_lift sim_guard sim_attempt sim_for_each : simulation.

(** Walk over a program of the monad. *)
Ltac simulate :=
  repeat first
    [ solve [eauto 4 with simulation]
    | match goal with
      | |- simulates (bind _ _) (bind _ _) => apply sim_bind; [|intros ?]
      | |- simulates (attempt _) (attempt _) => apply sim_attempt
      | |- simulates (for_each _ _) (for_each _ _) => apply sim_for_each; intros ?
      | |- simulates (match ?x with _ => _ end) (match ?x with _ => _ end) => destruct x eqn:?
      | |- simulates (if ?x then _ else _) (if ?x then _ else _) => destruct x eqn:?
      | |- simulates (let '(_, _) := ?x in _) _ => destruct x eqn:?
      end ].

(** *** Reads *)

Section Reads.
Context {R : Type} (hit : ContextData -> option R) (keep : ContextData -> R -> R * ContextData).

Lemma lookup_nontop (base : contextCache -> R * contextCache) ps cc :
  (forall c r, isTop c = false -> keep c r = (r, c)) ->
  Forall (fun p => isTop p = false) ps ->
  exists cc', lookup_stack hit keep base ps cc = (test_stack hit (fst (base cc)) ps, ps, cc') /\
              (cc' = cc \/ cc' = snd (base cc)).
Proof.
  intros Hk. induction 1 as [|p ps Hp _ IH]; simpl.
  - destruct (base cc); eauto.
  - destruct (hit p); [by eauto|]. destruct IH as (cc' & -> & Hcc). rewrite Hk by done. eauto.
Qed.

Lemma read_simulates (base : Loader -> contextCache -> R * contextCache) (lbase : Loader -> R) (view : Frame -> R) :
  (forall c r, isTop c = false -> keep c r = (r, c)) ->
  (forall ld cc, cache_ok ld cc -> fst (base ld cc) = lbase ld /\ cache_ok ld (snd (base ld cc))) ->
  (forall ld c ps, loader_ok ld -> layer_ok c -> Forall layer_ok ps -> isTop c = true -> hit c = None ->
     exists c', keep c (test_stack hit (lbase ld) ps) = (test_stack hit (lbase ld) ps, c') /\
       layer_ok c' /\ isTop c' = true /\ frame_of ld (c' :: ps) = frame_of ld (c :: ps)) ->
  (forall ld cs, view (frame_of ld cs) = test_stack hit (lbase ld) cs) ->
  simulates (read_stack hit keep base) (gets (fun a => view (a_top a))).
Proof.
  intros Hnt Hbase Hkeep Hview ctx H. pose proof H as [Hld Hcc Hlay (c & ps & Es & Hc & Hps)].
  unfold read_stack. rewrite Es in *. simpl.
  inversion_clear Hlay as [|? ? Hlc Hlps].
  destruct (Hbase _ _ Hcc) as [Hb Hcc'].
  destruct (hit c) as [r|] eqn:Hh.
  - unfold gets, abs. simpl. rewrite Hview, Es. simpl. rewrite Hh.
    by destruct ctx; simpl in *; subst.
  - destruct (lookup_nontop (base (loader ctx)) ps (cache ctx) Hnt Hps) as (cc' & -> & Hor).
    rewrite Hb. destruct (Hkeep _ c ps Hld Hlc Hlps Hc Hh) as (c' & -> & Hl' & Ht' & Hf).
    split.
    + split; simpl; [done | by destruct Hor as [-> | ->] | by constructor | eauto 6].
    + unfold gets, abs. simpl. rewrite Hview, Es, Hf. simpl. by rewrite Hh.
Qed.
End Reads.

(** Equality of frames, field by field. *)
Ltac frame_eq :=
  unfold frame_set_seq, frame_set_acc, frame_set_ad, frame_set_pd, frame_set_events, frame_create, frame_delete,
    frame_snapshot, frame_commit, frame_of;
  cbn [f_seq f_acc f_name f_hasacc f_hasname f_ad f_pd f_gone f_clear_ad f_clear_pd f_events f_eventn];
  f_equal; try (apply functional_extensionality; intros ?).

(** The key that was written, or another one. *)
Ltac frame_case :=
  match goal with
  | |- context [decide (?x = ?y)] => destruct (decide (x = y)) as [->|];
      [ first [done | match goal with |- context [has ?m ?k] => destruct (has m k) eqn:?; done end] | done ]
  end.

Lemma has_insert {K V} `{Countable K} (m : gmap K V) k k' v :
  has (<[k := v]> m) k' = if decide (k' = k) then true else has m k'.
Proof.
  unfold has. destruct (decide (k' = k)) as [->|]; [by rewrite lookup_insert_eq | by rewrite lookup_insert_ne].
Qed.

Lemma has_delete {K V} `{Countable K} (m : gmap K V) k k' :
  has (delete k m) k' = if decide (k' = k) then false else has m k'.
Proof.
  unfold has. destruct (decide (k' = k)) as [->|]; [by rewrite lookup_delete_eq | by rewrite lookup_delete_ne].
Qed.

Lemma lookup_insert_dec {K V} `{Countable K} (m : gmap K V) k k' v :
  <[k := v]> m !! k' = if decide (k' = k) then Some v else m !! k'.
Proof. destruct (decide (k' = k)) as [->|]; [by rewrite lookup_insert_eq | by rewrite lookup_insert_ne]. Qed.

Lemma lookup_delete_dec {K V} `{Countable K} (m : gmap K V) k k' :
  delete k m !! k' = if decide (k' = k) then None else m !! k'.
Proof. destruct (decide (k' = k)) as [->|]; [by rewrite lookup_delete_eq | by rewrite lookup_delete_ne]. Qed.

Create Rewrite HintDb maps.
#[export] Hint Rewrite @has_insert @has_delete @lookup_insert_dec @lookup_delete_dec : maps.

Lemma sim_Seq addr : simulates (Seq addr) (gets (fun a => f_seq (a_top a) addr)).
Proof.
  apply (read_simulates _ _ _ (fun ld => ld_Seq ld addr) (fun f => f_seq f addr)).
  - intros c r Hc. unfold seq_keep. by rewrite Hc, andb_false_r.
  - intros ld cc Hcc. unfold cache_Seq. destruct (_ !! _) eqn:E; simpl.
    + split; [by rewrite (co_seq _ _ Hcc _ _ E) | done].
    + split; [done|]. destruct Hcc. split; simpl; auto.
      intros k v. rewrite lookup_insert_Some. naive_solver.
  - intros ld c ps Hld Hl Hps Hc Hh. eexists. split; [done|]. rewrite Hc, andb_true_r. destr_match; [|done].
    split_and!; [done|done|]. frame_eq. simpl.
    revert Hh. unfold seq_hit. simpl. rewrite lookup_insert_dec.
    destruct (decide (_ = addr)) as [->|]; [|done]. destr_match; [done|]. by intros ->.
  - done.
Qed.

Lemma acc_hasacc ld cs addr acc : loader_ok ld -> Forall layer_ok cs ->
  test_stack (account_hit addr) (ld_Account ld addr) cs = Ok acc ->
  acc_ok acc /\ test_stack (hasacc_hit addr) (ld_HasAccount ld addr) cs = Ok true.
Proof.
  intros Hld. induction 1 as [|c cs Hc _ IH]; simpl; [by apply lo_acc|].
  unfold account_hit, hasacc_hit. destruct (has (DeletedAccountMap c) addr); [done|].
  unfold has. destruct (AccountMap c !! addr) eqn:E; simpl; [|done].
  intros [= <-]. split; [|done]. by apply (Hc addr).
Qed.

Lemma name_hasname ld cs name addr : loader_ok ld ->
  test_stack (name_hit name) (ld_AddressByName ld name) cs = Ok addr ->
  test_stack (hasname_hit name) (ld_HasAccountName ld name) cs = Ok true.
Proof.
  intros Hld. induction cs as [|c cs IH]; simpl; [by apply lo_name|].
  unfold name_hit, hasname_hit, has. by destruct (AccountNameMap c !! name).
Qed.

Lemma sim_read_account addr :
  simulates (read_stack (account_hit addr) (account_keep addr) (fun ld => cache_Account ld addr))
            (gets (fun a => f_acc (a_top a) addr)).
Proof.
  apply (read_simulates _ _ _ (fun ld => ld_Account ld addr) (fun f => f_acc f addr)).
  - intros c r Hc. unfold account_keep. rewrite Hc. by destruct r.
  - intros ld cc Hcc. unfold cache_Account. destruct (_ !! _) eqn:E; simpl.
    + split; [by rewrite (co_acc _ _ Hcc _ _ E) | done].
    + destruct (ld_Account ld addr) eqn:El; simpl; [|by split..]. split; [done|]. destruct Hcc. split; simpl; auto.
      intros k v. rewrite lookup_insert_Some. naive_solver.
  - intros ld c ps Hld Hl Hps Hc Hh.
    destruct (test_stack _ _ ps) as [acc|e|w] eqn:Et; [|by eexists..].
    destruct (acc_hasacc _ _ _ _ Hld Hps Et) as [Hok Hha].
    unfold account_keep. rewrite Hc, Hok. eexists. split; [done|].
    split_and!; [by apply map_Forall_insert_2 | done|].
    unfold account_hit in Hh. destruct (has (DeletedAccountMap c) addr) eqn:Ed; [done|].
    destruct (AccountMap c !! addr) eqn:Em; [done|].
    unfold frame_of. f_equal; apply functional_extensionality; intros a; simpl.
    + unfold account_hit. simpl. rewrite lookup_insert_dec. destruct (decide (a = addr)) as [->|]; [|done].
      rewrite Ed, Em. by symmetry.
    + unfold hasacc_hit. simpl. rewrite has_insert. destruct (decide (a = addr)) as [->|]; [|done].
      rewrite Ed. unfold has. rewrite Em. by symmetry.
  - done.
Qed.

Lemma sim_read_name name :
  simulates (read_stack (name_hit name) (name_keep name) (fun ld => cache_AddressByName ld name))
            (gets (fun a => f_name (a_top a) name)).
Proof.
  apply (read_simulates _ _ _ (fun ld => ld_AddressByName ld name) (fun f => f_name f name)).
  - intros c r Hc. unfold name_keep. rewrite Hc. by destruct r.
  - intros ld cc Hcc. unfold cache_AddressByName. destruct (_ !! _) eqn:E; simpl.
    + split; [by rewrite (co_name _ _ Hcc _ _ E) | done].
    + destruct (ld_AddressByName ld name) eqn:El; simpl; [|by split..]. split; [done|]. destruct Hcc. split; simpl; auto.
      intros k v. rewrite lookup_insert_Some. naive_solver.
  - intros ld c ps Hld Hl Hps Hc Hh.
    destruct (test_stack _ _ ps) as [addr|e|w] eqn:Et; [|by eexists..].
    pose proof (name_hasname _ _ _ _ Hld Et) as Hhn.
    unfold name_keep. rewrite Hc. eexists. split; [done|]. split_and!; [done..|].
    unfold name_hit in Hh. destruct (AccountNameMap c !! name) eqn:Em; [done|].
    unfold frame_of. f_equal; apply functional_extensionality; intros a; simpl.
    + unfold name_hit. simpl. rewrite lookup_insert_dec. destruct (decide (a = name)) as [->|]; [|done].
      rewrite Em. by symmetry.
    + unfold hasname_hit. simpl. rewrite has_insert. destruct (decide (a = name)) as [->|]; [|done].
      unfold has. rewrite Em. by symmetry.
  - done.
Qed.

Lemma sim_read_ad key :
  simulates (read_stack (accdata_hit key) (accdata_keep key) (fun ld => cache_AccountData ld key))
            (gets (fun a => f_ad (a_top a) key)).
Proof.
  apply (read_simulates _ _ _ (fun ld => ld_AccountData ld key) (fun f => f_ad f key)).
  - intros c r Hc. unfold accdata_keep. rewrite Hc. by destruct r.
  - intros ld cc Hcc. unfold cache_AccountData. destruct (_ !! _) eqn:E; simpl.
    + split; [by rewrite (co_ad _ _ Hcc _ _ E) | done].
    + split; [done|]. destruct Hcc. split; simpl; auto.
      intros k v. rewrite lookup_insert_Some. naive_solver.
  - intros ld c ps Hld Hl Hps Hc Hh. unfold accdata_keep. destruct (test_stack _ _ ps) eqn:Et; [by eexists|].
    rewrite Hc. eexists. split; [done|]. split_and!; [done..|]. frame_eq. simpl.
    revert Hh. unfold accdata_hit. simpl. rewrite lookup_insert_dec.
    destruct (decide (_ = key)) as [->|]; [|done]. destr_match; [done|]. intros ->. by symmetry.
  - done.
Qed.

Lemma sim_read_pd key :
  simulates (read_stack (procdata_hit key) (procdata_keep key) (fun ld => cache_ProcessData ld key))
            (gets (fun a => f_pd (a_top a) key)).
Proof.
  apply (read_simulates _ _ _ (fun ld => ld_ProcessData ld key) (fun f => f_pd f key)).
  - intros c r Hc. unfold procdata_keep. rewrite Hc. by destruct r.
  - intros ld cc Hcc. unfold cache_ProcessData. destruct (_ !! _) eqn:E; simpl.
    + split; [by rewrite (co_pd _ _ Hcc _ _ E) | done].
    + split; [done|]. destruct Hcc. split; simpl; auto.
      intros k v. rewrite lookup_insert_Some. naive_solver.
  - intros ld c ps Hld Hl Hps Hc Hh. unfold procdata_keep. destruct (test_stack _ _ ps) eqn:Et; [by eexists|].
    rewrite Hc. eexists. split; [done|]. split_and!; [done..|]. frame_eq. simpl.
    revert Hh. unfold procdata_hit. simpl. rewrite lookup_insert_dec.
    destruct (decide (_ = key)) as [->|]; [|done]. destr_match; [done|]. intros ->. by symmetry.
  - done.
Qed.

(** *** Lifting to the operations *)

Lemma sim_ext {A} (m : ctxM A) ma ma' : simulates m ma -> (forall a, ma a = ma' a) -> simulates m ma'.
Proof. intros Hm Heq ctx H. specialize (Hm ctx H). by rewrite <- Heq. Qed.

(** A change of the context the abstraction does not see. *)
Lemma sim_skip {A} (m : ctxM unit) (k : ctxM A) ka :
  simulates m (ret tt) -> simulates k ka -> simulates (m ;;; k) ka.
Proof. intros Hm Hk. by apply (sim_ext _ (ret tt ;;; ka)); [apply sim_bind|]. Qed.

Lemma sim_invalidate : simulates invalidate (ret tt).
Proof. intros ctx [? ? ? ?]. split; [by split | done]. Qed.

(** [let! r := gets f in lift r] on the abstract side is a read that may fail. *)
Lemma sim_res {A} (m : ctxM (res A)) (f : AbsCtx -> res A) :
  simulates m (gets f) -> simulates (let! r := m in lift r) (fun a => (f a, a)).
Proof.
  intros Hm. apply (sim_ext _ (let! r := gets f in lift r)); [|done]. apply sim_bind; [done|].
  intros. apply sim_lift.
Qed.

Lemma sim_probe {R} (hit : ContextData -> option R) base (lbase : Loader -> R) (view : Frame -> R) :
  (forall ld cc, loader_ok ld -> cache_ok ld cc -> base ld cc = lbase ld) ->
  (forall ld cs, view (frame_of ld cs) = test_stack hit (lbase ld) cs) ->
  simulates (probe_stack hit base) (gets (fun a => view (a_top a))).
Proof.
  intros Hb Hv ctx H. pose proof H as [Hld Hcc _ (c & ps & Es & _)].
  unfold probe_stack. rewrite Es, Hb by done. split; [done|].
  unfold gets, abs. simpl. by rewrite Hv, Es.
Qed.

(** A write to the top layer is a write to the top frame. *)
Lemma sim_on_top g (ga : Frame -> Frame -> Frame) :
  (forall c, layer_ok c -> layer_ok (g c)) -> (forall c, isTop (g c) = isTop c) ->
  (forall ld c ps, frame_of ld (g c :: ps) = ga (frame_of ld (c :: ps)) (frame_of ld ps)) ->
  simulates (on_top g) (modify (fun a => match a_below a with [] => a | b :: _ => set_top a (ga (a_top a) b) end)).
Proof.
  intros Hl Ht Hf ctx H. pose proof H as [Hld Hcc Hlay (c & ps & Es & Hc & Hps)].
  unfold on_top. rewrite Es in *. inversion_clear Hlay. split.
  - split; simpl; [done|done|by constructor; auto|]. exists (g c), ps. by rewrite Ht.
  - unfold modify, abs, set_top. rewrite Es. simpl. by rewrite Hf.
Qed.

Lemma sim_on_frame g (ga : Frame -> Frame) :
  (forall c, layer_ok c -> layer_ok (g c)) -> (forall c, isTop (g c) = isTop c) ->
  (forall ld c ps, frame_of ld (g c :: ps) = ga (frame_of ld (c :: ps))) ->
  simulates (on_top g) (on_frame ga).
Proof.
  intros Hl Ht Hf ctx H. pose proof (sim_on_top g (fun f _ => ga f) Hl Ht (fun ld c ps => Hf ld c ps) ctx H) as Hs.
  destruct (ok_top _ H) as (c & ps & Es & _). unfold on_top in *. rewrite Es in *.
  destruct Hs as [? Hs]. split; [done|]. rewrite <- Hs. unfold on_frame, modify, abs. by rewrite Es.
Qed.

Lemma sim_Account addr : simulates (Account_ addr) (abs_Account addr).
Proof. apply sim_skip; [apply sim_invalidate|]. apply sim_res, sim_read_account. Qed.

Lemma sim_ctd_Account addr : simulates (ctd_Account addr) (abs_Account addr).
Proof. apply sim_res, sim_read_account. Qed.

Lemma sim_AddressByName name : simulates (AddressByName name) (fun a => (f_name (a_top a) name, a)).
Proof. apply sim_res, sim_read_name. Qed.

Lemma sim_HasAccount addr : simulates (HasAccount addr) (fun a => (f_hasacc (a_top a) addr, a)).
Proof.
  apply sim_res, (sim_probe _ _ (fun ld => ld_HasAccount ld addr) (fun f => f_hasacc f addr)); [|done].
  intros ld cc Hld Hcc. unfold cache_HasAccount. destruct (_ !! _) eqn:E; [|done].
  apply (co_acc _ _ Hcc), (lo_acc _ Hld) in E. symmetry. apply E.
Qed.

Lemma sim_HasAccountName name : simulates (HasAccountName name) (fun a => (f_hasname (a_top a) name, a)).
Proof.
  apply sim_res, (sim_probe _ _ (fun ld => ld_HasAccountName ld name) (fun f => f_hasname f name)); [|done].
  intros ld cc Hld Hcc. unfold cache_HasAccountName. destruct (_ !! _) eqn:E; [|done].
  apply (co_name _ _ Hcc), (lo_name _ Hld) in E. by symmetry.
Qed.

Lemma sim_gets {A} (f : Context_ -> A) (fa : AbsCtx -> A) :
  (forall ctx, ctx_ok ctx -> f ctx = fa (abs ctx)) -> simulates (gets f) (gets fa).
Proof. intros H ctx Hok. split; [done|]. unfold gets. by rewrite H. Qed.

Lemma sim_AddSeq addr : simulates (AddSeq addr) (on_frame (fun f =>
  if f_gone f addr then f else frame_set_seq f (upd (f_seq f) addr (u64 (f_seq f addr + 1))))).
Proof.
  apply sim_skip; [apply sim_invalidate|]. intros ctx H. unfold bind at 1, Top.
  destruct (ok_top _ H) as (c & ps & Es & _). rewrite Es. destruct (has (DeletedAccountMap c) addr) eqn:Eg.
  - split; [done|]. unfold on_frame, modify, set_top, abs, frame_of. rewrite Es. simpl. by rewrite Eg.
  - cut (simulates (let! seq := Seq addr in
           on_top (fun ctd => set_SeqMap ctd (<[addr := u64 (seq + 1)]> (SeqMap ctd))))
         (let! seq := gets (fun a => f_seq (a_top a) addr) in
           on_frame (fun f => frame_set_seq f (if f_gone f addr then f_seq f else upd (f_seq f) addr (u64 (seq + 1)))))).
    { intros Hs. specialize (Hs ctx H).
      assert (Ea : f_gone (a_top (abs ctx)) addr = false) by (unfold abs, frame_of; rewrite Es; exact Eg).
      unfold on_frame, modify, set_top in *. unfold bind, gets in Hs. unfold bind. cbn beta iota in Hs |- *. rewrite Ea in *. exact Hs. }
    apply sim_bind; [apply sim_Seq|]. intros seq. apply sim_on_frame; [done|done|].
    intros ld d qs. frame_eq. simpl. unfold upd, seq_hit. simpl. rewrite lookup_insert_dec.
    destruct (has (DeletedAccountMap d) addr) eqn:Ed.
    + destruct (decide (_ = addr)) as [->|]; [by rewrite Ed | done].
    + destruct (decide (_ = addr)) as [->|]; [by rewrite Ed | done].
Qed.

(** After [Account] succeeds, the instance it returned is in the top layer. *)
Lemma Account_in_top addr ctx acc ctx' : ctx_ok ctx -> Account_ addr ctx = (Ok acc, ctx') ->
  exists c ps, stack ctx' = c :: ps /\ AccountMap c !! addr = Some acc /\ has (DeletedAccountMap c) addr = false.
Proof.
  intros H. destruct (ok_top _ H) as (c & ps & Es & Ht & _).
  unfold Account_, invalidate, modify, ctd_Account, read_stack, bind, lift. simpl. rewrite Es. simpl.
  destruct (account_hit addr c) as [r|] eqn:Eh.
  - intros [= -> <-]. exists c, ps. revert Eh. unfold account_hit. simpl.
    destruct (has (DeletedAccountMap c) addr); [done|]. destruct (AccountMap c !! addr); by intros [= <-].
  - unfold account_hit in Eh. destruct (has (DeletedAccountMap c) addr) eqn:Ed; [done|].
    destruct (lookup_stack _ _ _ ps _) as [[r qs] cc]. unfold account_keep. rewrite Ht.
    destruct r as [a|e|w]; [|done..]. destruct (acc_Clone a) as [b|e|w]; [|done..].
    intros [= <- <-]. eexists _, _. split; [done|]. simpl. by rewrite lookup_insert_eq.
Qed.

Lemma sim_UpdateAccount addr g : (forall acc, acc_ok acc -> acc_ok (g acc)) ->
  simulates (UpdateAccount addr g)
    (let! acc := abs_Account addr in on_frame (fun f => frame_set_acc f (upd (f_acc f) addr (Ok (g acc))))).
Proof.
  intros Hg ctx H. unfold UpdateAccount, bind. pose proof (sim_Account addr ctx H) as Ha.
  destruct (Account_ addr ctx) as [[acc|e|w] ctx'] eqn:Em.
  2: by destruct Ha as [? ->].
  2: by destruct (abs_Account addr (abs ctx)) as [r s]; simpl in Ha; subst r.
  destruct Ha as [H' ->]. destruct (Account_in_top _ _ _ _ H Em) as (c & ps & Es & Em' & Ed).
  destruct H' as [Hld Hcc Hlay Htop]. unfold on_top. rewrite Es in *. inversion_clear Hlay as [|? ? Hl Hps].
  split.
  - split; simpl; [done|done| |].
    + constructor; [|done]. intros k v. simpl. destruct (decide (k = addr)) as [->|].
      * rewrite lookup_alter_eq, Em'. intros [= <-]. by apply Hg, (Hl addr).
      * rewrite lookup_alter_ne by done. apply Hl.
    + destruct Htop as (c' & ps' & [= <- <-] & Ht & Hn). by eexists _, _.
  - unfold on_frame, modify, set_top, abs. rewrite Es. simpl. f_equal. f_equal. frame_eq; simpl.
    + unfold upd, account_hit. simpl. destruct (decide (_ = addr)) as [->|].
      * by rewrite Ed, lookup_alter_eq, Em'.
      * by rewrite lookup_alter_ne.
    + unfold hasacc_hit, has. simpl. destruct (decide (x = addr)) as [->|].
      * by rewrite lookup_alter_eq, Em'.
      * by rewrite lookup_alter_ne.
Qed.

Lemma sim_must_not_exist m ma e : simulates m ma -> simulates (must_not_exist m e) (must_not_exist ma e).
Proof. intros Hm. unfold must_not_exist. simulate. Qed.

Lemma sim_CreateAccount `{Base58} acc : acc_ok acc -> simulates (CreateAccount acc) (abs_CreateAccount acc).
Proof.
  intros Hok. apply sim_skip; [apply sim_invalidate|]. unfold abs_CreateAccount, TargetHeight.
  apply sim_bind; [by apply sim_gets|]. intros h. simulate.
  - apply sim_must_not_exist, sim_HasAccount.
  - apply sim_must_not_exist, sim_HasAccountName.
  - apply sim_on_frame; [by intros; apply map_Forall_insert_2 | done |].
    intros ld c ps. frame_eq; simpl; unfold upd.
    + unfold account_hit. simpl. rewrite lookup_insert_dec. frame_case.
    + unfold name_hit. simpl. rewrite lookup_insert_dec. frame_case.
    + unfold hasacc_hit. simpl. rewrite has_insert. frame_case.
    + unfold hasname_hit. simpl. rewrite has_insert. frame_case.
Qed.

Lemma sim_DeleteAccount acc : simulates (DeleteAccount acc)
  (let! _ := abs_Account (acc_Address acc) in
   modify (fun a => match a_below a with [] => a | b :: _ => set_top a (frame_delete (a_top a) b acc) end)).
Proof.
  apply sim_skip; [apply sim_invalidate|]. apply sim_bind; [apply sim_ctd_Account|]. intros _.
  apply (sim_on_top _ (fun f b => frame_delete f b acc)); [by intros c Hc; apply map_Forall_delete | done |].
  intros ld c ps. frame_eq; simpl; unfold upd.
  - unfold seq_hit. simpl. rewrite has_insert. frame_case.
  - unfold account_hit. simpl. rewrite has_insert, lookup_delete_dec. frame_case.
  - unfold name_hit. simpl. rewrite lookup_delete_dec. frame_case.
  - unfold hasacc_hit. simpl. rewrite has_insert, has_delete. frame_case.
  - unfold hasname_hit. simpl. rewrite has_delete. frame_case.
  - rewrite has_insert. frame_case.
Qed.

Lemma sim_AccountData addr pid name :
  simulates (AccountData addr pid name) (gets (fun a => f_ad (a_top a) (account_data_key addr pid name))).
Proof. apply sim_read_ad. Qed.

Lemma sim_ProcessData pid name :
  simulates (ProcessData pid name) (gets (fun a => f_pd (a_top a) (process_data_key pid name))).
Proof. apply sim_read_pd. Qed.

Lemma sim_SetAccountData addr pid name v : simulates (SetAccountData addr pid name v)
  (let key := account_data_key addr pid name in
   on_frame (fun f => frame_set_ad f (upd (f_ad f) key v) (upd (f_clear_ad f) key (is_empty v)))).
Proof.
  apply sim_skip; [apply sim_invalidate|]. apply sim_on_frame; [by destruct v | by destruct v |].
  intros ld c ps. unfold put_accdata, is_empty. destruct v; frame_eq; simpl; unfold upd, accdata_hit; simpl;
    rewrite ?has_insert, ?has_delete, ?lookup_insert_dec, ?lookup_delete_dec; frame_case.
Qed.

Lemma sim_SetProcessData pid name v : simulates (SetProcessData pid name v)
  (let key := process_data_key pid name in
   on_frame (fun f => frame_set_pd f (upd (f_pd f) key v) (upd (f_clear_pd f) key (is_empty v)))).
Proof.
  apply sim_on_frame; [by destruct v | by destruct v |].
  intros ld c ps. unfold put_procdata, is_empty. destruct v; frame_eq; simpl; unfold upd, procdata_hit; simpl;
    rewrite ?has_insert, ?has_delete, ?lookup_insert_dec, ?lookup_delete_dec; frame_case.
Qed.

Lemma sim_EmitEvent e : simulates (EmitEvent e)
  (on_frame (fun f => frame_set_events f (f_events f ++ [SetN e (f_eventn f)]) (u16 (f_eventn f + 1)))).
Proof. apply sim_skip; [apply sim_invalidate|]. by apply sim_on_frame. Qed.

(** *** Snapshots *)

Lemma lookup_put_all {K V} `{Countable K} (m top : gmap K V) k :
  put_all m top !! k = match m !! k with Some v => Some v | None => top !! k end.
Proof.
  unfold put_all. revert k. apply (map_fold_weak_ind (fun r m => forall k, r !! k = match m !! k with Some v => Some v | None => top !! k end)).
  - intros k. by rewrite lookup_empty.
  - intros i x m' r Hi IH k. rewrite !lookup_insert_dec. destruct (decide (k = i)); [done|apply IH].
Qed.

Lemma lookup_delete_all {K V W} `{Countable K} (m : gmap K V) (top : gmap K W) k :
  delete_all m top !! k = if has m k then None else top !! k.
Proof.
  unfold delete_all. revert k. apply (map_fold_weak_ind (fun r (m : gmap K V) => forall k, r !! k = if has m k then None else top !! k)).
  - intros k. unfold has. by rewrite lookup_empty.
  - intros i x m' r Hi IH k. rewrite lookup_delete_dec, has_insert. destruct (decide (k = i)); [done|apply IH].
Qed.

Lemma has_put_all {K V} `{Countable K} (m top : gmap K V) k : has (put_all m top) k = has m k || has top k.
Proof. unfold has. rewrite lookup_put_all. by destruct (m !! k). Qed.

Lemma has_delete_all {K V W} `{Countable K} (m : gmap K V) (top : gmap K W) k :
  has (delete_all m top) k = negb (has m k) && has top k.
Proof. unfold has at 1. rewrite lookup_delete_all. by destruct (has m k). Qed.

Lemma frame_of_commit ld c p ps :
  frame_of ld (commit_layer c p :: ps) = frame_commit (frame_of ld (c :: p :: ps)) (frame_of ld (p :: ps)).
Proof.
  frame_eq; simpl; unfold seq_hit, account_hit, name_hit, hasacc_hit, hasname_hit, accdata_hit, procdata_hit; simpl;
    rewrite ?has_put_all, ?has_delete_all, ?has_put_all, ?lookup_delete_all, ?lookup_put_all; try done.
  - by destruct (has (DeletedAccountMap c) x), (has (DeletedAccountMap p) x), (SeqMap c !! x).
  - by destruct (has (DeletedAccountMap c) x), (has (DeletedAccountMap p) x), (AccountMap c !! x).
  - by destruct (AccountNameMap c !! x).
  - by destruct (has (DeletedAccountMap c) x), (has (DeletedAccountMap p) x), (has (AccountMap c) x).
  - by destruct (has (AccountNameMap c) x).
  - by destruct (has (DeletedAccountDataMap c) x), (has (DeletedAccountDataMap p) x), (AccountDataMap c !! x).
  - by destruct (has (DeletedProcessDataMap c) x), (has (DeletedProcessDataMap p) x), (ProcessDataMap c !! x).
Qed.

Lemma commit_layer_ok c p : layer_ok c -> layer_ok p -> layer_ok (commit_layer c p).
Proof.
  intros Hc Hp k v. simpl. rewrite lookup_delete_all, lookup_put_all. destr_match; [done|].
  destruct (AccountMap c !! k) eqn:E; [intros [= <-]; by apply (Hc k) | by apply Hp].
Qed.

Lemma length_frames_below ld cs : length (frames_below ld cs) = length cs.
Proof. induction cs; simpl; auto. Qed.

Lemma sim_Snapshot : simulates Snapshot abs_Snapshot.
Proof.
  apply sim_skip; [apply sim_invalidate|]. intros ctx H. pose proof H as [Hld Hcc Hlay (c & ps & Es & Hc & Hps)].
  rewrite Es in *. inversion_clear Hlay. split.
  - split; simpl; [done|done| |].
    + constructor; [by apply map_Forall_empty|]. by constructor.
    + eexists _, _. split; [done|]. split; [done|]. by constructor.
  - unfold abs_Snapshot, abs, set_frames, a_size. simpl. rewrite Es. simpl.
    rewrite length_frames_below. f_equal.
Qed.

Definition frames (ld : Loader) (cs : list ContextData) : list Frame := frame_of ld cs :: frames_below ld cs.

Lemma drop_frames ld k cs : (k <= length cs)%nat -> drop k (frames ld cs) = frames ld (drop k cs).
Proof.
  unfold frames. revert k; induction cs as [|c cs IH]; intros [|k] Hk; simpl in *; try done; [lia|].
  apply IH. lia.
Qed.

Lemma Forall_drop_top (cs ps : list ContextData) (c : ContextData) k :
  Forall (fun p => isTop p = false) ps -> forall c' ps', drop k (c :: ps) = c' :: ps' -> Forall (fun p => isTop p = false) ps'.
Proof.
  intros H c' ps' E. destruct k as [|k]; simpl in E; [by simplify_eq|].
  apply (Forall_drop _ k) in H. rewrite E in H. by inversion_clear H.
Qed.

Lemma mark_top_ok ctx cs : loader_ok (loader ctx) -> cache_ok (loader ctx) (cache ctx) ->
  Forall layer_ok cs -> (forall c ps, cs = c :: ps -> Forall (fun p => isTop p = false) ps) ->
  match mark_top cs with
  | Ok cs' => ctx_ok (set_stack ctx cs') /\ frames (loader ctx) cs' = frames (loader ctx) cs
  | _ => cs = []
  end.
Proof.
  intros Hld Hcc Hlay Hps. destruct cs as [|c ps]; [done|]. inversion_clear Hlay. simpl. split.
  - split; simpl; [done|done| |]; [by constructor|]. eexists _, _. split; [done|]. eauto.
  - done.
Qed.

Lemma abs_frames ctx cs : abs (set_stack ctx cs) =
  mkAbs (genTargetHeight ctx) (genLastHash ctx) (genTimestamp ctx) (frame_of (loader ctx) cs) (frames_below (loader ctx) cs).
Proof. done. Qed.

Lemma sim_Revert sn : simulates (Revert sn) (abs_Revert sn).
Proof.
  apply sim_skip; [apply sim_invalidate|]. intros ctx H. pose proof H as [Hld Hcc Hlay (c & ps & Es & Hc & Hps)].
  unfold abs_Revert, a_size. destruct (sn <? 1) eqn:E1; [done|].
  assert (Hlen : length (a_below (abs ctx)) = length (stack ctx)) by apply length_frames_below.
  rewrite Hlen. bool_to_prop.
  destruct (sn <=? Z.of_nat (length (stack ctx))) eqn:E2; bool_to_prop.
  - rewrite (proj2 (Z.ltb_ge _ _)) by lia. unfold cut_stack. set (k := (length (stack ctx) - Z.to_nat (sn - 1))%nat).
    assert (Hd : drop k (a_top (abs ctx) :: a_below (abs ctx)) = frames (loader ctx) (drop k (stack ctx)))
      by (apply drop_frames; lia).
    rewrite Hd. pose proof (mark_top_ok ctx (drop k (stack ctx)) Hld Hcc) as Hm.
    specialize (Hm ltac:(by apply Forall_drop)).
    specialize (Hm ltac:(intros c' ps' E; rewrite Es in E; by eapply (Forall_drop_top [] ps c k))).
    destruct (drop k (stack ctx)) as [|c' ps'] eqn:Ed; [done|].
    simpl in Hm |- *. destruct Hm as [Hok Hf]. split; [done|]. by rewrite abs_frames.
  - rewrite (proj2 (Z.ltb_lt _ _)) by lia. rewrite Es in *. simpl. inversion_clear Hlay. split.
    + split; simpl; [done|done|by constructor|]. by eexists _, _.
    + unfold abs. by rewrite Es.
Qed.

Lemma abs_commit_loop_cons sn f b b' fs :
  abs_commit_loop sn f (b :: b' :: fs) =
  if sn <=? Z.of_nat (S (S (length fs))) then abs_commit_loop sn (frame_commit f b) (b' :: fs) else Ok (f, b :: b' :: fs).
Proof. done. Qed.

Lemma commit_loop_sim ld sn c ps :
  Forall layer_ok (c :: ps) -> Forall (fun p => isTop p = false) ps ->
  match commit_loop sn c ps with
  | Ok cs => exists c' ps', cs = c' :: ps' /\ Forall layer_ok cs /\ Forall (fun p => isTop p = false) ps' /\
      abs_commit_loop sn (frame_of ld (c :: ps)) (frames_below ld (c :: ps)) =
        Ok (frame_of ld cs, frames_below ld cs)
  | Err e => False
  | Panic w => abs_commit_loop sn (frame_of ld (c :: ps)) (frames_below ld (c :: ps)) = Panic w
  end.
Proof.
  revert c. induction ps as [|p ps IH]; intros c Hl Ht.
  - simpl. destruct (sn <=? Z.of_nat 1); [done|]. by eexists _, _.
  - cbn [commit_loop frames_below length]. rewrite abs_commit_loop_cons, length_frames_below.
    destruct (sn <=? _); [|by eexists _, _].
    inversion_clear Hl as [|? ? Hc Hl']. inversion_clear Hl' as [|? ? Hp Hps]. inversion_clear Ht.
    rewrite <- frame_of_commit. apply IH; [|done]. constructor; [by apply commit_layer_ok | done].
Qed.

Lemma sim_Commit sn : simulates (Commit sn) (abs_Commit sn).
Proof.
  apply sim_skip; [apply sim_invalidate|]. intros ctx H. pose proof H as [Hld Hcc Hlay (c & ps & Es & Hc & Hps)].
  unfold abs_Commit, abs. cbn [a_top a_below]. rewrite Es in *.
  pose proof (commit_loop_sim (loader ctx) sn c ps Hlay Hps) as Hs.
  destruct (commit_loop sn c ps) as [cs|e|w]; [|done|by rewrite Hs].
  destruct Hs as (c' & ps' & -> & Hl & Ht & ->).
  pose proof (mark_top_ok ctx (c' :: ps') Hld Hcc Hl) as Hm. simpl in Hm |- *.
  destruct Hm as [Hok Hf]; [by intros ? ? [= <- <-]|]. split; [done|]. done.
Qed.

Lemma sim_StackSize : simulates StackSize (gets a_size).
Proof. apply sim_gets. intros ctx _. unfold a_size, abs. simpl. by rewrite length_frames_below. Qed.

(** ** The context implements the interface *)

(** The promise of one implementation of the interface to its clients: every
    operation gives the answer of the abstract machine.  [UpdateAccount] and
    [CreateAccount] keep the accounts well-formed. *)
Class Simulation `{Base58} : Prop := {
  so_TargetHeight : simulates op_TargetHeight op_TargetHeight;
  so_LastHash : simulates op_LastHash op_LastHash;
  so_LastTimestamp : simulates op_LastTimestamp op_LastTimestamp;
  so_Seq addr : simulates (op_Seq addr) (op_Seq addr);
  so_AddSeq addr : simulates (op_AddSeq addr) (op_AddSeq addr);
  so_Account addr : simulates (op_Account addr) (op_Account addr);
  so_UpdateAccount addr g : (forall acc, acc_ok acc -> acc_ok (g acc)) ->
    simulates (op_UpdateAccount addr g) (op_UpdateAccount addr g);
  so_AddressByName name : simulates (op_AddressByName name) (op_AddressByName name);
  so_HasAccount addr : simulates (op_HasAccount addr) (op_HasAccount addr);
  so_HasAccountName name : simulates (op_HasAccountName name) (op_HasAccountName name);
  so_CreateAccount acc : acc_ok acc -> simulates (op_CreateAccount acc) (op_CreateAccount acc);
  so_DeleteAccount acc : simulates (op_DeleteAccount acc) (op_DeleteAccount acc);
  so_AccountData addr pid name : simulates (op_AccountData addr pid name) (op_AccountData addr pid name);
  so_SetAccountData addr pid name v : simulates (op_SetAccountData addr pid name v) (op_SetAccountData addr pid name v);
  so_ProcessData pid name : simulates (op_ProcessData pid name) (op_ProcessData pid name);
  so_SetProcessData pid name v : simulates (op_SetProcessData pid name v) (op_SetProcessData pid name v);
  so_EmitEvent e : simulates (op_EmitEvent e) (op_EmitEvent e);
  so_Snapshot : simulates op_Snapshot op_Snapshot;
  so_Revert sn : simulates (op_Revert sn) (op_Revert sn);
  so_Commit sn : simulates (op_Commit sn) (op_Commit sn);
  so_StackSize : simulates op_StackSize op_StackSize
}.

#[export] Instance context_simulation `{Base58} : Simulation.
Proof.
  split.
  - by apply sim_gets.
  - by apply sim_gets.
  - by apply sim_gets.
  - apply sim_Seq.
  - apply sim_AddSeq.
  - apply sim_Account.
  - apply sim_UpdateAccount.
  - apply sim_AddressByName.
  - apply sim_HasAccount.
  - apply sim_HasAccountName.
  - apply sim_CreateAccount.
  - apply sim_DeleteAccount.
  - apply sim_AccountData.
  - apply sim_SetAccountData.
  - apply sim_ProcessData.
  - apply sim_SetProcessData.
  - apply sim_EmitEvent.
  - apply sim_Snapshot.
  - apply sim_Revert.
  - apply sim_Commit.
  - apply sim_StackSize.
Qed.

#[export] Hint Resolve so_TargetHeight so_LastHash so_LastTimestamp so_Seq so_AddSeq so_Account so_UpdateAccount
  so_AddressByName so_HasAccount so_HasAccountName so_CreateAccount so_DeleteAccount so_AccountData
  so_SetAccountData so_ProcessData so_SetProcessData so_EmitEvent so_Snapshot so_Revert so_Commit
  so_StackSize context_simulation : simulation.

(** ** Wrappers over the interface *)

Section Wrappers.
Context {S : Type} `{!ContextOps S} (ctw : ContextWrapper).
Definition w_AccountData (addr : Address) (name : bytes) : ST S bytes := op_AccountData addr (cw_pid ctw) name.
Definition w_SetAccountData (addr : Address) (name value : bytes) : ST S unit := op_SetAccountData addr (cw_pid ctw) name value.
Definition w_ProcessData (name : bytes) : ST S bytes := op_ProcessData (cw_pid ctw) name.
Definition w_SetProcessData (name value : bytes) : ST S unit := op_SetProcessData (cw_pid ctw) name value.
End Wrappers.

(** ** New contexts *)

Lemma NewContext_ok ld : loader_ok ld -> ctx_ok (NewContext ld).
Proof.
  intros H. split; simpl; [done| | |].
  - split; simpl; intros k v; by rewrite lookup_empty.
  - constructor; [by apply map_Forall_empty | done].
  - by eexists _, _.
Qed.

Lemma emptyLoader_ok : loader_ok emptyLoader.
Proof. by split. Qed.

(** A new context shows what its loader answers. *)
Definition loader_frame (ld : Loader) : Frame := frame_of ld [].

Lemma abs_NewContext ld : abs (NewContext ld) =
  mkAbs (ld_TargetHeight ld) (ld_LastHash ld) (ld_LastTimestamp ld) (loader_frame ld) [loader_frame ld].
Proof.
  unfold abs, NewContext, loader_frame. simpl. f_equal.
Qed.

(** ** Refinement

    A client is a list of calls; it sees the answer of each call, an error
    included, and nothing else.  A panic ends the client. *)

Inductive Call :=
  | CTargetHeight
  | CLastHash
  | CLastTimestamp
  | CSeq (addr : Address)
  | CAddSeq (addr : Address)
  | CAccount (addr : Address)
  | CAddressByName (name : bytes)
  | CHasAccount (addr : Address)
  | CHasAccountName (name : bytes)
  | CCreateAccount (acc : Account)
  | CDeleteAccount (acc : Account)
  | CAccountData (addr : Address) (pid : Z) (name : bytes)
  | CSetAccountData (addr : Address) (pid : Z) (name value : bytes)
  | CProcessData (pid : Z) (name : bytes)
  | CSetProcessData (pid : Z) (name value : bytes)
  | CEmitEvent (e : Event)
  | CSnapshot
  | CRevert (sn : Z)
  | CCommit (sn : Z)
  | CStackSize.

Inductive Answer :=
  | AUnit
  | ABool (b : bool)
  | AInt (z : Z)
  | ABytes (bs : bytes)
  | AAccount (acc : Account).

Section Clients.
Context {S : Type} `{!ContextOps S}.

Definition answer {A} (f : A -> Answer) (m : ST S A) : ST S Answer := let! a := m in ret (f a).

Definition do_call (c : Call) : ST S Answer :=
  match c with
  | CTargetHeight => answer AInt op_TargetHeight
  | CLastHash => answer ABytes op_LastHash
  | CLastTimestamp => answer AInt op_LastTimestamp
  | CSeq addr => answer AInt (op_Seq addr)
  | CAddSeq addr => answer (fun _ => AUnit) (op_AddSeq addr)
  | CAccount addr => answer AAccount (op_Account addr)
  | CAddressByName name => answer ABytes (op_AddressByName name)
  | CHasAccount addr => answer ABool (op_HasAccount addr)
  | CHasAccountName name => answer ABool (op_HasAccountName name)
  | CCreateAccount acc => answer (fun _ => AUnit) (op_CreateAccount acc)
  | CDeleteAccount acc => answer (fun _ => AUnit) (op_DeleteAccount acc)
  | CAccountData addr pid name => answer ABytes (op_AccountData addr pid name)
  | CSetAccountData addr pid name v => answer (fun _ => AUnit) (op_SetAccountData addr pid name v)
  | CProcessData pid name => answer ABytes (op_ProcessData pid name)
  | CSetProcessData pid name v => answer (fun _ => AUnit) (op_SetProcessData pid name v)
  | CEmitEvent e => answer (fun _ => AUnit) (op_EmitEvent e)
  | CSnapshot => answer AInt op_Snapshot
  | CRevert sn => answer (fun _ => AUnit) (op_Revert sn)
  | CCommit sn => answer (fun _ => AUnit) (op_Commit sn)
  | CStackSize => answer AInt op_StackSize
  end.

Fixpoint run_calls (cs : list Call) : ST S (list (error + Answer)) :=
  match cs with
  | [] => ret []
  | c :: cs =>
      let! r := attempt (do_call c) in
      let! rs := run_calls cs in
      ret (r :: rs)
  end.
End Clients.

(** Accounts that a client creates are well-formed. *)
Definition call_ok (c : Call) : Prop := match c with CCreateAccount acc => acc_ok acc | _ => True end.

Section Refinement.
Context `{Base58}.

Lemma sim_do_call c : call_ok c -> simulates (do_call c) (do_call c).
Proof. intros Hc. destruct c; cbn [do_call] in *; unfold answer; simulate. Qed.

Lemma sim_run_calls cs : Forall call_ok cs -> simulates (run_calls cs) (run_calls cs).
Proof.
  induction 1 as [|c cs Hc _ IH]; cbn [run_calls]; [apply sim_ret|].
  apply sim_bind; [by apply sim_attempt, sim_do_call|]. intros r. apply sim_bind; [done|]. intros rs. apply sim_ret.
Qed.

(** C1. Refinement: every client of a new context, over any consistent loader,
    gets from the layered, cached and lazily loaded context of [core/types] the
    answers (errors and panics included) that it gets from the abstract machine
    whose state is just the values a reader sees; a client cannot observe the
    cache, the layers or the copies made on reading. *)
Theorem context_refines_spec (ld : Loader) (cs : list Call) :
  loader_ok ld -> Forall call_ok cs ->
  fst (run_calls cs (NewContext ld)) = fst (run_calls cs (abs (NewContext ld))).
Proof.
  intros Hld Hcs. pose proof (sim_run_calls cs Hcs (NewContext ld) (NewContext_ok ld Hld)) as Hsim.
  destruct (run_calls cs (NewContext ld)) as [[rs|e|w] ctx']; [destruct Hsim as [_ ->]; done..|done].
Qed.
End Refinement.

Lemma context_refines_spec_witness :
  let cs := [CSetAccountData [7] 1 [1] [5]; CSnapshot; CSetAccountData [7] 1 [1] [6]; CAccountData [7] 1 [1];
             CRevert 2; CAccountData [7] 1 [1]] in
  let ops := @context_ops base58_plain in
  fst (@run_calls _ ops cs (NewContext emptyLoader)) =
    fst (@run_calls _ (@abs_ops base58_plain) cs (abs (NewContext emptyLoader))) /\
  fst (@run_calls _ ops cs (NewContext emptyLoader)) =
    Ok [inr AUnit; inr (AInt 2); inr AUnit; inr (ABytes [6]); inr AUnit; inr (ABytes [5])].
Proof.
  intros cs ops. split; [|vm_compute; reflexivity].
  apply (context_refines_spec (H := base58_plain)); [apply emptyLoader_ok|repeat constructor].
Defined.
