(* ===== verification/ContextFacts.v ===== *)
(** * What contexts guarantee

    Consequences of the simulation of [ContextSpec]: snapshots that are reverted
    leave no trace, snapshots that are committed are transparent except for what
    the level below had removed, a context serves as the loader of the next one;
    and the places where the code of [core/types] departs from that. *)

From stdpp Require Import base gmap list sorting strings.
From Stdlib Require Import ZArith Lia FunctionalExtensionality.
From S2P Require Import Prelude Amount Common Types Context ContextSpec.

(** ** Programs over a context

    A handler seen from the context: writes and nested snapshots that end in a
    commit or a revert. *)

Inductive Write :=
  | WSeq (addr : Address)
  | WAccountData (addr : Address) (pid : Z) (name value : bytes)
  | WProcessData (pid : Z) (name value : bytes)
  | WCreate (acc : Account)
  | WDelete (acc : Account)
  | WEvent (e : Event).

Inductive Prog :=
  | PDone
  | PWrite (w : Write) (p : Prog)
  | PNest (body : Prog) (commit : bool) (p : Prog).

Section Programs.
Context {S : Type} `{!ContextOps S}.

Definition do_write (w : Write) : ST S unit :=
  match w with
  | WSeq addr => op_AddSeq addr
  | WAccountData addr pid name value => op_SetAccountData addr pid name value
  | WProcessData pid name value => op_SetProcessData pid name value
  | WCreate acc => op_CreateAccount acc
  | WDelete acc => op_DeleteAccount acc
  | WEvent e => op_EmitEvent e
  end.

(** An operation that returns an error is over; the program goes on, as a
    failing transaction does not stop its block. *)
Definition run_write (w : Write) : ST S unit := let! _ := attempt (do_write w) in ret tt.

Fixpoint run_prog (p : Prog) : ST S unit :=
  match p with
  | PDone => ret tt
  | PWrite w p => run_write w ;;; run_prog p
  | PNest body commit p =>
      let! sn := op_Snapshot in
      run_prog body ;;;
      (if commit then op_Commit sn else op_Revert sn) ;;;
      run_prog p
  end.
End Programs.

(** The accounts a program creates are well-formed. *)
Fixpoint prog_ok (p : Prog) : Prop :=
  match p with
  | PDone => True
  | PWrite (WCreate acc) p => acc_ok acc /\ prog_ok p
  | PWrite _ p => prog_ok p
  | PNest body _ p => prog_ok body /\ prog_ok p
  end.

Section Facts.
Context `{B58 : Base58}.

Lemma sim_run_write w : match w with WCreate acc => acc_ok acc | _ => True end ->
  simulates (run_write w) (run_write w).
Proof. intros Hw. unfold run_write. simulate. destruct w; cbn [do_write]; simulate. Qed.

Lemma sim_run_prog p : prog_ok p -> simulates (run_prog p) (run_prog p).
Proof.
  induction p as [|w p IH|body IHb commit p IH]; cbn [run_prog prog_ok]; intros Hp.
  - apply sim_ret.
  - apply sim_bind; [apply sim_run_write; destruct w; naive_solver|]. intros _. apply IH. destruct w; naive_solver.
  - destruct Hp. simulate.
Qed.

(** Programs leave the block data and the frames below alone. *)
Definition same_below (a a' : AbsCtx) : Prop := a' = set_top a (a_top a').

Lemma same_below_refl a : same_below a a.
Proof. by destruct a. Qed.

Lemma same_below_trans a b c : same_below a b -> same_below b c -> same_below a c.
Proof. unfold same_below. intros -> ->. done. Qed.

(** Reads that do not panic. *)
Record frame_safe (f : Frame) : Prop := {
  fs_acc : forall addr w, f_acc f addr <> Panic w;
  fs_name : forall name w, f_name f name <> Panic w;
  fs_hasacc : forall addr w, f_hasacc f addr <> Panic w;
  fs_hasname : forall name w, f_hasname f name <> Panic w
}.

Definition safe (a : AbsCtx) : Prop := a_below a <> [] /\ frame_safe (a_top a) /\ Forall frame_safe (a_below a).

Lemma test_stack_safe {R} (hit : ContextData -> option (res R)) base cs w :
  (forall c, hit c <> Some (Panic w)) -> base <> Panic w -> test_stack hit base cs <> Panic w.
Proof.
  intros Hh Hb. induction cs as [|c cs IH]; simpl; [done|]. specialize (Hh c). destruct (hit c); congruence.
Qed.

Lemma frame_of_safe ld cs : loader_ok ld -> frame_safe (frame_of ld cs).
Proof.
  intros Hld. split; intros k w; apply test_stack_safe; try by apply Hld.
  - intros c. unfold account_hit. destr_match; [done|]. by destruct (AccountMap c !! k).
  - intros c. unfold name_hit. by destruct (AccountNameMap c !! k).
  - intros c. unfold hasacc_hit. by repeat destr_match.
  - intros c. unfold hasname_hit. by repeat destr_match.
Qed.

Lemma abs_safe ctx : ctx_ok ctx -> safe (abs ctx).
Proof.
  intros H. pose proof H as [Hld _ _ (c & ps & Es & _)]. unfold safe, abs. simpl. split; [by rewrite Es|].
  split; [by apply frame_of_safe|]. 
  clear Es. generalize (stack ctx). intros cs. induction cs; simpl; constructor; auto using frame_of_safe.
Qed.

(** An operation that touches the top frame only and does not panic. *)
Definition local_op {A} (m : absM A) : Prop := forall a, safe a ->
  exists r a', m a = (r, a') /\ (forall w, r <> Panic w) /\ same_below a a' /\ safe a'.

Lemma local_bind {A B} (m : absM A) (k : A -> absM B) :
  local_op m -> (forall x, local_op (k x)) -> local_op (bind m k).
Proof.
  intros Hm Hk a Ha. destruct (Hm a Ha) as (r & a' & Em & Hp & Hs & Ha'). unfold bind. rewrite Em.
  destruct r as [x|e|w]; [|by eexists _, _|by destruct (Hp w)].
  destruct (Hk x a' Ha') as (r & a'' & -> & Hp' & Hs' & Ha'').
  eexists _, _. split_and!; eauto using same_below_trans.
Qed.

Lemma local_attempt {A} (m : absM A) : local_op m -> local_op (attempt m).
Proof.
  intros Hm a Ha. destruct (Hm a Ha) as (r & a' & Em & Hp & Hs & Ha'). unfold attempt. rewrite Em.
  destruct r as [x|e|w]; [by eexists _, _..|by destruct (Hp w)].
Qed.

Lemma local_read {A} (f : AbsCtx -> res A) : (forall a w, safe a -> f a <> Panic w) -> local_op (fun a => (f a, a)).
Proof. intros Hf a Ha. eexists _, _. split_and!; [done | intros w; by apply Hf | apply same_below_refl | done]. Qed.

Lemma local_lift {A} (r : res A) : (forall w, r <> Panic w) -> local_op (lift r).
Proof. intros. by apply local_read. Qed.

Lemma local_ret {A} (x : A) : local_op (ret x).
Proof. by apply local_read. Qed.

Lemma local_guard b e : local_op (guard b e).
Proof. by destruct b; apply local_read. Qed.

Lemma local_frame g : (forall f, frame_safe f -> frame_safe (g f)) -> local_op (on_frame g).
Proof. intros Hg a (Hb & Ht & Hbs). eexists _, _. split_and!; [done..|]. split_and!; simpl; auto. Qed.

Lemma upd_safe {K R} `{EqDecision K} (f : K -> res R) k r :
  (forall k w, f k <> Panic w) -> (forall w, r <> Panic w) -> forall k' w, upd f k r k' <> Panic w.
Proof. intros Hf Hr k' w. unfold upd. destruct (decide _); auto. Qed.

Lemma local_must_not_exist (f : AbsCtx -> res bool) e :
  (forall a w, safe a -> f a <> Panic w) -> local_op (must_not_exist (fun a => (f a, a)) e).
Proof.
  intros Hf. unfold must_not_exist. apply local_bind; [by apply local_attempt, local_read|].
  intros []; apply local_guard.
Qed.

Lemma local_create acc : local_op (abs_CreateAccount acc).
Proof.
  unfold abs_CreateAccount.
  apply local_bind; [by apply local_read|]. intros h. do 2 (apply local_bind; [apply local_guard|]; intros _).
  apply local_bind; [apply local_attempt, local_lift, ParseAddress_no_panic|]. intros parsed.
  apply local_bind; [destruct parsed; by apply local_read|]. intros _.
  apply local_bind; [apply local_must_not_exist; intros a w (_ & Hs & _); apply Hs|]. intros _.
  apply local_bind; [apply local_must_not_exist; intros a w (_ & Hs & _); apply Hs|]. intros _.
  apply local_frame. intros f [? ? ? ?]. unfold frame_create.
  split; simpl; auto; apply upd_safe; auto; by destruct (f_gone f _).
Qed.

Lemma local_delete acc : local_op (op_DeleteAccount acc).
Proof.
  apply local_bind; [apply local_read; intros a w (_ & Hs & _); apply Hs|].
  intros _ a (Hb & [? ? ? ?] & Hbs). unfold modify. destruct (a_below a) as [|b bs] eqn:Eb; [done|].
  inversion_clear Hbs as [|? ? Hfb ?]. pose proof Hfb as [? ? ? ?].
  eexists _, _. split_and!; [done..|]. split_and!; simpl; rewrite ?Eb; [done| |by constructor].
  split; simpl; auto; by apply upd_safe.
Qed.

Lemma local_write w : local_op (run_write w).
Proof.
  apply local_bind; [|intros; apply local_ret]. apply local_attempt. destruct w.
  - apply local_frame. intros f Hf. destr_match; [done|]. by destruct Hf.
  - apply local_frame. by intros f [].
  - apply local_frame. by intros f [].
  - apply local_create.
  - apply local_delete.
  - apply local_frame. by intros f [].
Qed.

(** *** Snapshots of the abstract machine *)

Lemma abs_Snapshot_spec a : abs_Snapshot a =
  (Ok (Z.of_nat (length (a_below a)) + 1), set_frames a (frame_snapshot (a_top a)) (a_top a :: a_below a)).
Proof. unfold abs_Snapshot, a_size. simpl. do 2 f_equal. lia. Qed.

Lemma abs_Revert_spec a f b fs t : a_below a = b :: fs ->
  abs_Revert (Z.of_nat (length (a_below a)) + 1) (set_frames a f (t :: a_below a)) = (Ok tt, set_top a t).
Proof.
  intros Eb. unfold abs_Revert, a_size. cbn [a_below a_top set_frames length].
  rewrite (proj2 (Z.ltb_ge _ _)) by lia. rewrite (proj2 (Z.ltb_ge _ _)) by lia.
  replace (S (length (a_below a)) - _)%nat with 1%nat by lia. rewrite Eb. simpl. by rewrite <- Eb.
Qed.

Lemma abs_Commit_spec a f b fs t : a_below a = b :: fs ->
  abs_Commit (Z.of_nat (length (a_below a)) + 1) (set_frames a f (t :: a_below a)) = (Ok tt, set_top a (frame_commit f t)).
Proof.
  intros Eb. unfold abs_Commit. cbn [a_below a_top set_frames]. rewrite Eb, abs_commit_loop_cons.
  cbn [length]. rewrite (proj2 (Z.leb_le _ _)) by lia.
  assert (El : abs_commit_loop (Z.of_nat (S (length fs)) + 1) (frame_commit f t) (b :: fs) = Ok (frame_commit f t, b :: fs)).
  { simpl. by rewrite (proj2 (Z.leb_gt _ _)) by lia. }
  rewrite El. unfold set_top, set_frames. simpl. by rewrite Eb.
Qed.

(** The state right after a snapshot of [a]; reverting comes back to [a]. *)
Definition snapshot_of (a : AbsCtx) : AbsCtx := set_frames a (frame_snapshot (a_top a)) (a_top a :: a_below a).

Lemma abs_Revert_back a s : a_below a <> [] -> same_below (snapshot_of a) s ->
  abs_Revert (Z.of_nat (length (a_below a)) + 1) s = (Ok tt, a).
Proof.
  intros Hb Hs. assert (exists b fs, a_below a = b :: fs) as (b & fs & Eb) by (destruct (a_below a); [done | eauto]).
  rewrite Hs. change (set_top (snapshot_of a) (a_top s)) with (set_frames a (a_top s) (a_top a :: a_below a)).
  rewrite (abs_Revert_spec a (a_top s) b fs (a_top a) Eb). by destruct a.
Qed.

Lemma abs_Commit_back a s : a_below a <> [] -> same_below (snapshot_of a) s ->
  abs_Commit (Z.of_nat (length (a_below a)) + 1) s = (Ok tt, set_top a (frame_commit (a_top s) (a_top a))).
Proof.
  intros Hb Hs. assert (exists b fs, a_below a = b :: fs) as (b & fs & Eb) by (destruct (a_below a); [done | eauto]).
  rewrite Hs. exact (abs_Commit_spec a (a_top s) b fs (a_top a) Eb).
Qed.

Lemma frame_commit_safe f b : frame_safe f -> frame_safe b -> frame_safe (frame_commit f b).
Proof. intros [] []. split; simpl; intros; try destr_match; auto. Qed.

(** A nested program is its body between a snapshot and a commit or a revert. *)
Lemma nest_spec (body : Prog) (commit : bool) (a a' : AbsCtx) :
  safe a -> let s := set_frames a (frame_snapshot (a_top a)) (a_top a :: a_below a) in
  run_prog body s = (Ok tt, a') -> same_below s a' ->
  run_prog (PNest body commit PDone) a =
    (Ok tt, set_top a (if commit then frame_commit (a_top a') (a_top a) else a_top a)).
Proof.
  intros (Hb & _ & _) s Hrun Hs.
  assert (exists b fs, a_below a = b :: fs) as (b & fs & Eb) by (destruct (a_below a); [done | eauto]).
  cbn [run_prog]. unfold bind at 1. cbn [op_Snapshot abs_ops]. rewrite abs_Snapshot_spec.
  unfold bind. fold s. rewrite Hrun, Hs. change (set_top s (a_top a')) with (set_frames a (a_top a') (a_top a :: a_below a)).
  destruct commit; cbn [op_Commit op_Revert abs_ops];
    [rewrite (abs_Commit_spec a (a_top a') b fs (a_top a) Eb) | rewrite (abs_Revert_spec a (a_top a') b fs (a_top a) Eb)]; done.
Qed.

Lemma run_prog_nest body commit p : forall a : AbsCtx,
  run_prog (PNest body commit p) a = (run_prog (PNest body commit PDone) ;;; run_prog p) a.
Proof.
  intros a. cbn [run_prog]. unfold bind. destruct (op_Snapshot a) as [[sn|e|w] a1]; try done.
  destruct (run_prog body a1) as [[[]|e|w] a2]; try done.
  by destruct ((if commit then op_Commit sn else op_Revert sn) a2) as [[[]|e|w] a3].
Qed.

Lemma snapshot_safe a : safe a -> safe (snapshot_of a).
Proof. intros (Hb & Ht & Hbs). split_and!; simpl; [done| |by constructor]. by destruct Ht. Qed.

Lemma run_prog_local p : forall a, safe a ->
  exists a', run_prog p a = (Ok tt, a') /\ same_below a a' /\ safe a'.
Proof.
  induction p as [|w p IH|body IHb commit p IH]; intros a Ha.
  - eexists. split_and!; [done | apply same_below_refl | done].
  - cbn [run_prog]. unfold bind. destruct (local_write w a Ha) as (r & a1 & E & Hp & Hs & Ha1).
    rewrite E. assert (r = Ok tt) as ->.
    { revert E. unfold run_write, bind, attempt. destruct (do_write w a) as [[[]|e|w'] a2]; intros [= <- _]; try done.
      by destruct (Hp w'). }
    destruct (IH a1 Ha1) as (a2 & -> & Hs2 & Ha2). eexists. split_and!; eauto using same_below_trans.
  - rewrite run_prog_nest. unfold bind.
    destruct (IHb _ (snapshot_safe a Ha)) as (a1 & E1 & Hs1 & Ha1).
    rewrite (nest_spec body commit a a1 Ha E1 Hs1).
    destruct Ha as (Hb & Ht & Hbs).
    match goal with |- context [run_prog p ?x] => destruct (IH x) as (a2 & -> & Hs2 & Ha2) end.
    { split_and!; simpl; [done| |done]. destruct commit; [|done]. apply frame_commit_safe; [apply Ha1 | done]. }
    eexists. split_and!; [done| |done]. by eapply same_below_trans; [|exact Hs2].
Qed.

Lemma run_prog_sim p ctx : ctx_ok ctx -> prog_ok p ->
  exists ctx', run_prog p ctx = (Ok tt, ctx') /\ ctx_ok ctx' /\ run_prog p (abs ctx) = (Ok tt, abs ctx').
Proof.
  intros Hc Hp. pose proof (sim_run_prog p Hp ctx Hc) as Hs.
  destruct (run_prog_local p (abs ctx) (abs_safe ctx Hc)) as (a' & E & _). rewrite E in Hs.
  destruct (run_prog p ctx) as [[[]|e|w] ctx']; [|by destruct Hs as [_ [=]]|done].
  destruct Hs as [Hok [= ->]]. eauto.
Qed.

(** A snapshot that is reverted leaves no trace: whatever the program
    between them wrote, created, deleted or emitted, at any depth of further
    snapshots, every later read answers as before the snapshot. *)
Lemma Snapshot_Revert (p : Prog) (ctx : Context_) :
  ctx_ok ctx -> prog_ok p ->
  exists ctx', (let! sn := Snapshot in run_prog p ;;; Revert sn) ctx = (Ok tt, ctx') /\
    ctx_ok ctx' /\ abs ctx' = abs ctx.
Proof.
  intros Hc Hp. destruct (run_prog_sim (PNest p false PDone) ctx Hc) as (ctx' & E & Hok & Ea); [by split|].
  exists ctx'. split_and!; [|done|].
  - revert E. cbn [run_prog]. unfold bind. cbn [op_Snapshot op_Revert context_ops].
    destruct (Snapshot ctx) as [[sn|e|w] c1]; [|done..]. destruct (run_prog p c1) as [[[]|e|w] c2]; [|done..].
    by destruct (Revert sn c2) as [[[]|e|w] c3].
  - destruct (run_prog_local p _ (snapshot_safe _ (abs_safe _ Hc))) as (a1 & E1 & Hs1 & _).
    rewrite (nest_spec p false _ a1 (abs_safe _ Hc) E1 Hs1) in Ea.
    assert (Es : set_top (abs ctx) (a_top (abs ctx)) = abs ctx') by congruence. rewrite <- Es. by destruct (abs ctx).
Qed.

(** *** Commits *)

(** Programs that write data, sequences and events but no accounts. *)
Fixpoint data_prog (p : Prog) : Prop :=
  match p with
  | PDone => True
  | PWrite (WCreate _ | WDelete _) _ => False
  | PWrite _ p => data_prog p
  | PNest body _ p => data_prog body /\ data_prog p
  end.

(** The frames of a program run on a snapshot of [b] and run on [b] itself:
    they agree on what [b] had not removed. *)
Record agree (b : Frame) (pre : list Event) (f1 f2 : Frame) : Prop := {
  ag_seq : forall addr, f_gone b addr = false -> f_seq f1 addr = f_seq f2 addr /\ f_gone f1 addr = f_gone f2 addr;
  ag_ad : forall k, f_clear_ad b k = false -> f_ad f1 k = f_ad f2 k /\ f_clear_ad f1 k = f_clear_ad f2 k;
  ag_pd : forall k, f_clear_pd b k = false -> f_pd f1 k = f_pd f2 k /\ f_clear_pd f1 k = f_clear_pd f2 k;
  ag_events : f_events f2 = pre ++ f_events f1 /\ f_eventn f2 = f_eventn f1
}.

Lemma agree_snapshot b : agree b (f_events b) (frame_snapshot b) b.
Proof. split; simpl; auto. by rewrite app_nil_r. Qed.

Lemma agree_snapshots b pre f1 f2 : agree b pre f1 f2 -> agree b [] (frame_snapshot f1) (frame_snapshot f2).
Proof.
  intros [Hs Ha Hp [_ He]]. split; simpl; auto.
  - intros addr Hg. split; [by apply Hs | done].
  - intros k Hk. split; [by apply Ha | done].
  - intros k Hk. split; [by apply Hp | done].
Qed.

Lemma agree_commit b pre f1 f2 g1 g2 :
  agree b pre f1 f2 -> agree b [] g1 g2 -> agree b pre (frame_commit g1 f1) (frame_commit g2 f2).
Proof.
  intros [Hs Ha Hp [He _]] [Hs' Ha' Hp' [He' Hn']]. split; simpl.
  - intros addr Hg. destruct (Hs addr Hg) as [_ ->], (Hs' addr Hg) as [-> ->]. done.
  - intros k Hk. destruct (Ha k Hk) as [_ ->], (Ha' k Hk) as [-> ->]. done.
  - intros k Hk. destruct (Hp k Hk) as [_ ->], (Hp' k Hk) as [-> ->]. done.
  - rewrite He, He', Hn'. simpl. by rewrite app_assoc.
Qed.

Lemma agree_write b pre w (a1 a2 : AbsCtx) :
  match w with WCreate _ | WDelete _ => False | _ => True end ->
  agree b pre (a_top a1) (a_top a2) ->
  agree b pre (a_top (snd (run_write w a1))) (a_top (snd (run_write w a2))).
Proof.
  intros Hw [Hs Ha Hp [He Hn]]. destruct w as [addr|addr pid name v|pid name v|acc|acc|e]; try done; simpl.
  - split; simpl.
    + intros x Hg. destruct (Hs x Hg) as [Hx Hgx].
      destruct (f_gone (a_top a1) addr) eqn:G1, (f_gone (a_top a2) addr) eqn:G2; simpl; unfold upd;
        destruct (decide (x = addr)) as [->|]; split; congruence.
    + by repeat destr_match.
    + by repeat destr_match.
    + by repeat destr_match.
  - split; simpl; auto. intros k Hk. unfold upd. destruct (decide _); auto.
  - split; simpl; auto. intros k Hk. unfold upd. destruct (decide _); auto.
  - split; simpl; auto. by rewrite He, Hn, app_assoc.
Qed.

Lemma agree_prog p : data_prog p -> forall b pre (a1 a2 a1' a2' : AbsCtx), safe a1 -> safe a2 ->
  agree b pre (a_top a1) (a_top a2) ->
  run_prog p a1 = (Ok tt, a1') -> run_prog p a2 = (Ok tt, a2') -> agree b pre (a_top a1') (a_top a2').
Proof.
  induction p as [|w p IH|body IHb commit p IH]; intros Hd b pre a1 a2 a1' a2' H1 H2 Ha.
  - cbn. by intros [= <-] [= <-].
  - cbn [run_prog]. unfold bind.
    destruct (local_write w a1 H1) as (r1 & c1 & E1 & _ & _ & S1).
    destruct (local_write w a2 H2) as (r2 & c2 & E2 & _ & _ & S2).
    pose proof (agree_write b pre w a1 a2) as Hw. rewrite E1, E2 in *.
    destruct r1 as [[]|e|?], r2 as [[]|?|?]; try done.
    apply IH; [by destruct w | done | done |]. apply Hw; [by destruct w | done].
  - destruct Hd as [Hdb Hd]. rewrite !run_prog_nest. unfold bind.
    destruct (run_prog_local body _ (snapshot_safe a1 H1)) as (c1 & E1 & B1 & S1).
    destruct (run_prog_local body _ (snapshot_safe a2 H2)) as (c2 & E2 & B2 & S2).
    rewrite (nest_spec body commit a1 c1 H1 E1 B1), (nest_spec body commit a2 c2 H2 E2 B2).
    assert (Hc : agree b [] (a_top c1) (a_top c2)).
    { eapply (IHb Hdb); [| | |exact E1|exact E2]; [by apply snapshot_safe..|]. by apply (agree_snapshots b pre). }
    apply (IH Hd); [| |by destruct commit; [apply agree_commit|]].
    + destruct H1 as (? & ? & ?), S1 as (_ & ? & _). split_and!; simpl; [done| |done].
      destruct commit; [by apply frame_commit_safe | done].
    + destruct H2 as (? & ? & ?), S2 as (_ & ? & _). split_and!; simpl; [done| |done].
      destruct commit; [by apply frame_commit_safe | done].
Qed.

(** What a reader of the context gets. *)
Definition seen_seq (ctx : Context_) (addr : Address) : Z := f_seq (a_top (abs ctx)) addr.
Definition seen_ad (ctx : Context_) (addr : Address) (pid : Z) (name : bytes) : bytes :=
  f_ad (a_top (abs ctx)) (account_data_key addr pid name).
Definition seen_pd (ctx : Context_) (pid : Z) (name : bytes) : bytes :=
  f_pd (a_top (abs ctx)) (process_data_key pid name).
(** What the top layer of the context has removed. *)
Definition gone (ctx : Context_) (addr : Address) : bool := f_gone (a_top (abs ctx)) addr.
Definition cleared_ad (ctx : Context_) (addr : Address) (pid : Z) (name : bytes) : bool :=
  f_clear_ad (a_top (abs ctx)) (account_data_key addr pid name).
Definition cleared_pd (ctx : Context_) (pid : Z) (name : bytes) : bool :=
  f_clear_pd (a_top (abs ctx)) (process_data_key pid name).

(** A snapshot that is committed is transparent for everything the layer
    below had not removed: the program ends in the data, sequences and events it
    would have ended in without the snapshot. *)
Lemma Snapshot_Commit (p : Prog) (ctx : Context_) :
  ctx_ok ctx -> data_prog p -> prog_ok p ->
  exists committed direct,
    (let! sn := Snapshot in run_prog p ;;; Commit sn) ctx = (Ok tt, committed) /\
    run_prog p ctx = (Ok tt, direct) /\ ctx_ok committed /\
    (forall addr, gone ctx addr = false -> seen_seq committed addr = seen_seq direct addr) /\
    (forall addr pid name, cleared_ad ctx addr pid name = false ->
       seen_ad committed addr pid name = seen_ad direct addr pid name) /\
    (forall pid name, cleared_pd ctx pid name = false -> seen_pd committed pid name = seen_pd direct pid name) /\
    f_events (a_top (abs committed)) = f_events (a_top (abs direct)).
Proof.
  intros Hc Hd Hp. pose proof (abs_safe ctx Hc) as Hsafe.
  destruct (run_prog_sim (PNest p true PDone) ctx Hc) as (c1 & E1 & Hok1 & Ea1); [by split|].
  destruct (run_prog_sim p ctx Hc Hp) as (c2 & E2 & Hok2 & Ea2).
  destruct (run_prog_local p _ (snapshot_safe _ Hsafe)) as (s & Es & Bs & _).
  rewrite (nest_spec p true _ s Hsafe Es Bs) in Ea1.
  assert (Ht : a_top (abs c1) = frame_commit (a_top s) (a_top (abs ctx))) by (symmetry; exact (f_equal (fun r => a_top (snd r)) Ea1)).
  pose proof (agree_prog p Hd (a_top (abs ctx)) _ _ _ _ _ (snapshot_safe _ Hsafe) Hsafe (agree_snapshot _) Es Ea2) as Hag.
  destruct Hag as [Hs Ha Hpd [He _]].
  exists c1, c2. unfold seen_seq, seen_ad, seen_pd, gone, cleared_ad, cleared_pd. rewrite Ht. split_and!; try done.
  - revert E1. cbn [run_prog]. unfold bind. cbn [op_Snapshot op_Commit context_ops].
    destruct (Snapshot ctx) as [[sn|e|w] d1]; [|done..]. destruct (run_prog p d1) as [[[]|e|w] d2]; [|done..].
    by destruct (Commit sn d2) as [[[]|e|w] d3].
  - intros addr Hg. unfold frame_commit. cbn [f_seq]. rewrite Hg. by apply Hs.
  - intros addr pid name Hk. unfold frame_commit. cbn [f_ad]. rewrite Hk. by apply Ha.
  - intros pid name Hk. unfold frame_commit. cbn [f_pd]. rewrite Hk. by apply Hpd.
Qed.

(** Data that the layer below removed cannot be set again from a snapshot:
    [Commit] copies the new value but keeps the mark of the removal, so the value
    a program set in the snapshot reads as absent after the commit, although it
    reads back in the snapshot, and would read back without one. *)
Lemma Commit_loses_restored_data (ctx : Context_) (addr : Address) (pid : Z) (name v : bytes) :
  ctx_ok ctx -> cleared_ad ctx addr pid name = true ->
  exists committed direct,
    (let! sn := Snapshot in SetAccountData addr pid name v ;;; Commit sn) ctx = (Ok tt, committed) /\
    seen_ad committed addr pid name = [] /\
    SetAccountData addr pid name v ctx = (Ok tt, direct) /\ seen_ad direct addr pid name = v.
Proof.
  intros Hc Hk. pose proof (abs_safe ctx Hc) as Hsafe. set (p := PWrite (WAccountData addr pid name v) PDone).
  destruct (run_prog_sim (PNest p true PDone) ctx Hc) as (c1 & E1 & _ & Ea1); [done|].
  pose proof (so_SetAccountData addr pid name v ctx Hc) as Hd.
  destruct (run_prog_local p _ (snapshot_safe _ Hsafe)) as (s & Es & Bs & _).
  rewrite (nest_spec p true _ s Hsafe Es Bs) in Ea1.
  assert (Ht : a_top (abs c1) = frame_commit (a_top s) (a_top (abs ctx))) by (symmetry; exact (f_equal (fun r => a_top (snd r)) Ea1)).
  cbn [op_SetAccountData context_ops abs_ops] in Hd.
  destruct (SetAccountData addr pid name v ctx) as [[[]|e|w] d] eqn:Ed; [|by destruct Hd as [_ [=]]|done].
  destruct Hd as [_ Hd]. exists c1, d. unfold seen_ad. rewrite Ht. split_and!; [| |done|].
  - revert E1. unfold p. cbn [run_prog run_write do_write]. unfold run_write, bind, attempt, ret.
    cbn [do_write op_Snapshot op_Commit op_SetAccountData context_ops].
    destruct (Snapshot ctx) as [[sn|e|w] d1]; [|done..].
    destruct (SetAccountData addr pid name v d1) as [[[]|e|w] d2] eqn:E2; [| |done].
    + by destruct (Commit sn d2) as [[[]|?|?] ?].
    + revert E2. unfold SetAccountData, bind, invalidate, modify, on_top. simpl. by destruct (stack d1).
  - unfold frame_commit, cleared_ad in *. cbn [f_ad]. by rewrite Hk.
  - etrans; [symmetry; exact (f_equal (fun r => f_ad (a_top (snd r)) (account_data_key addr pid name)) Hd)|].
    simpl. unfold upd. by rewrite decide_True.
Qed.
End Facts.

(** A context that has removed a balance, for the examples. *)
Definition ex_addr : Address := NewAddress 1 2 3.
Definition ex_ctx : Context_ := snd (SetAccountData ex_addr 1 [1; 1] [] NewEmptyContext).

Lemma ex_ctx_ok : ctx_ok ex_ctx.
Proof.
  assert (He : ctx_ok NewEmptyContext) by apply NewContext_ok, emptyLoader_ok.
  exact (proj1 (sim_SetAccountData ex_addr 1 [1; 1] [] NewEmptyContext He)).
Qed.

Definition ex_prog : Prog :=
  PWrite (WAccountData ex_addr 1 [1; 2] [7])
    (PNest (PWrite (WSeq ex_addr) (PWrite (WProcessData 1 [4] []) PDone)) true
       (PWrite (WProcessData 1 [4] [9]) PDone)).

Lemma Snapshot_Revert_witness :
  exists ctx', (let! sn := Snapshot in @run_prog _ (@context_ops base58_plain) ex_prog ;;; Revert sn) ex_ctx = (Ok tt, ctx') /\
    ctx_ok ctx' /\ abs ctx' = abs ex_ctx.
Proof. apply (Snapshot_Revert (B58 := base58_plain) ex_prog ex_ctx); [apply ex_ctx_ok | done]. Defined.

Lemma Snapshot_Commit_witness :
  exists committed direct,
    (let! sn := Snapshot in @run_prog _ (@context_ops base58_plain) ex_prog ;;; Commit sn) ex_ctx = (Ok tt, committed) /\
    @run_prog _ (@context_ops base58_plain) ex_prog ex_ctx = (Ok tt, direct) /\ ctx_ok committed /\
    (forall addr, gone ex_ctx addr = false -> seen_seq committed addr = seen_seq direct addr) /\
    (forall addr pid name, cleared_ad ex_ctx addr pid name = false ->
       seen_ad committed addr pid name = seen_ad direct addr pid name) /\
    (forall pid name, cleared_pd ex_ctx pid name = false -> seen_pd committed pid name = seen_pd direct pid name) /\
    f_events (a_top (abs committed)) = f_events (a_top (abs direct)).
Proof. apply (Snapshot_Commit (B58 := base58_plain) ex_prog ex_ctx); [apply ex_ctx_ok | done..]. Defined.

Lemma Commit_loses_restored_data_witness :
  cleared_ad ex_ctx ex_addr 1 [1; 1] = true /\
  exists committed direct,
    (let! sn := Snapshot in SetAccountData ex_addr 1 [1; 1] [5] ;;; Commit sn) ex_ctx = (Ok tt, committed) /\
    seen_ad committed ex_addr 1 [1; 1] = [] /\
    SetAccountData ex_addr 1 [1; 1] [5] ex_ctx = (Ok tt, direct) /\ seen_ad direct ex_addr 1 [1; 1] = [5].
Proof.
  split; [by vm_compute|].
  apply (Commit_loses_restored_data (B58 := base58_plain)); [apply ex_ctx_ok | by vm_compute].
Defined.

(** ** Chained contexts *)

(** A context none of whose layers is a top. *)
Record frozen (ctx : Context_) : Prop := {
  fr_loader : loader_ok (loader ctx);
  fr_cache : cache_ok (loader ctx) (cache ctx);
  fr_layers : Forall layer_ok (stack ctx);
  fr_nontop : stack ctx <> [] /\ Forall (fun p => isTop p = false) (stack ctx)
}.

Section Frozen.
Context (ctx : Context_) (Hf : frozen ctx).

Lemma frozen_read {R} (hit : ContextData -> option R) keep base b :
  (forall c r, isTop c = false -> keep c r = (r, c)) -> fst (base (loader ctx) (cache ctx)) = b ->
  fst (read_stack hit keep base ctx) = Ok (test_stack hit b (stack ctx)).
Proof.
  intros Hk Hb. destruct Hf as [_ _ _ [Hne Hnt]]. unfold read_stack.
  destruct (lookup_nontop hit keep (base (loader ctx)) (stack ctx) (cache ctx) Hk Hnt) as (cc' & E & _).
  destruct (stack ctx) eqn:Es; [done|]. rewrite E. simpl. by rewrite Hb.
Qed.

Lemma frozen_probe {R} (hit : ContextData -> option R) base b :
  base (loader ctx) (cache ctx) = b -> fst (probe_stack hit base ctx) = Ok (test_stack hit b (stack ctx)).
Proof. intros <-. unfold probe_stack. destruct Hf as [_ _ _ [Hne _]]. by destruct (stack ctx). Qed.

Lemma fst_lift {A} (m : ctxM (res A)) (r : res A) : fst (m ctx) = Ok r -> fst ((let! x := m in lift x) ctx) = r.
Proof. unfold bind. destruct (m ctx) as [[x|e|w] c]; simpl; try done. by intros [= ->]. Qed.

Lemma context_loader_frame : loader_frame (context_loader ctx) =
  let f := frame_of (loader ctx) (stack ctx) in
  mkFrame (f_seq f) (f_acc f) (f_name f) (f_hasacc f) (f_hasname f) (f_ad f) (f_pd f)
    (fun _ => false) (fun _ => false) (fun _ => false) [] 0.
Proof.
  pose proof Hf as [Hld Hcc Hlay [Hne Hnt]].
  unfold loader_frame, frame_of, context_loader, run_res, read_value; simpl; f_equal; apply functional_extensionality; intros k.
  - unfold Seq. erewrite frozen_read; [done| |].
    + intros c r Hc. unfold seq_keep. by rewrite Hc, andb_false_r.
    + unfold cache_Seq. destruct (_ !! _) eqn:E; [by apply (co_seq _ _ Hcc) in E | done].
  - unfold Account_, invalidate, modify. unfold bind at 1. cbn iota beta.
    assert (Hs : forall b h, fst (ctd_Account k (set_hash ctx b h)) = fst (ctd_Account k ctx)).
    { intros b h. unfold ctd_Account, bind, read_stack, lift, set_hash. cbn [stack loader cache].
      destruct (stack ctx); [done|]. by destruct (lookup_stack _ _ _ _ _) as [[[] ?] ?]. }
    rewrite Hs. apply fst_lift, frozen_read.
    + intros c r Hc. unfold account_keep. rewrite Hc. by destruct r.
    + unfold cache_Account. destruct (_ !! _) eqn:E; [by apply (co_acc _ _ Hcc) in E |]. by destruct (ld_Account _ _).
  - apply fst_lift, frozen_read.
    + intros c r Hc. unfold name_keep. rewrite Hc. by destruct r.
    + unfold cache_AddressByName. destruct (_ !! _) eqn:E; [by apply (co_name _ _ Hcc) in E |]. by destruct (ld_AddressByName _ _).
  - apply fst_lift, frozen_probe. unfold cache_HasAccount. destruct (_ !! _) eqn:E; [|done].
    apply (co_acc _ _ Hcc), (lo_acc _ Hld) in E. symmetry. apply E.
  - apply fst_lift, frozen_probe. unfold cache_HasAccountName. destruct (_ !! _) eqn:E; [|done].
    apply (co_name _ _ Hcc), (lo_name _ Hld) in E. by symmetry.
  - erewrite frozen_read; [done| |].
    + intros c r Hc. unfold accdata_keep. rewrite Hc. by destruct r.
    + unfold cache_AccountData. destruct (_ !! _) eqn:E; [by apply (co_ad _ _ Hcc) in E | done].
  - erewrite frozen_read; [done| |].
    + intros c r Hc. unfold procdata_keep. rewrite Hc. by destruct r.
    + unfold cache_ProcessData. destruct (_ !! _) eqn:E; [by apply (co_pd _ _ Hcc) in E | done].
Qed.

Lemma context_loader_ok : loader_ok (context_loader ctx).
Proof.
  pose proof context_loader_frame as E. pose proof Hf as [Hld Hcc Hlay _].
  pose proof (frame_of_safe (loader ctx) (stack ctx) Hld) as [? ? ? ?].
  assert (Eacc : forall addr, ld_Account (context_loader ctx) addr = f_acc (frame_of (loader ctx) (stack ctx)) addr)
    by (intros; exact (f_equal (fun f => f_acc f addr) E)).
  assert (Ename : forall n, ld_AddressByName (context_loader ctx) n = f_name (frame_of (loader ctx) (stack ctx)) n)
    by (intros; exact (f_equal (fun f => f_name f n) E)).
  assert (Eha : forall addr, ld_HasAccount (context_loader ctx) addr = f_hasacc (frame_of (loader ctx) (stack ctx)) addr)
    by (intros; exact (f_equal (fun f => f_hasacc f addr) E)).
  assert (Ehn : forall n, ld_HasAccountName (context_loader ctx) n = f_hasname (frame_of (loader ctx) (stack ctx)) n)
    by (intros; exact (f_equal (fun f => f_hasname f n) E)).
  split; intros *; rewrite ?Eacc, ?Ename, ?Eha, ?Ehn; auto.
  - intros Ha. by apply (acc_hasacc _ _ _ _ Hld Hlay Ha).
  - apply name_hasname, Hld.
Qed.
End Frozen.

(** The context of the next block starts from what the context of this
    block ends with: every read of an untouched new context answers as the old one
    did, its target is the next height, and its events start anew. *)
Lemma NextContext_spec (ctx : Context_) (NextHash : Hash256) (Timestamp : Z) :
  ctx_ok ctx ->
  exists nctx ctx', NextContext NextHash Timestamp ctx = (Ok nctx, ctx') /\
    ctx_ok nctx /\
    genTargetHeight nctx = u32 (genTargetHeight ctx + 1) /\ genLastHash nctx = NextHash /\ genTimestamp nctx = Timestamp /\
    a_top (abs nctx) = frame_set_events (frame_snapshot (a_top (abs ctx))) [] 0.
Proof.
  intros Hc. pose proof Hc as [Hld Hcc Hlay (c & ps & Es & Ht & Hnt)].
  unfold NextContext, bind, on_top. rewrite Es. set (ctx' := set_stack ctx (set_isTop c false :: ps)).
  assert (Hf : frozen ctx').
  { split; [done|done| |].
    - simpl. rewrite Es in Hlay. inversion_clear Hlay. by constructor.
    - split; [done|]. by constructor. }
  eexists _, ctx'. split; [reflexivity|].
  assert (Hok : ctx_ok (NewContext (context_loader ctx'))) by (apply NewContext_ok, context_loader_ok, Hf).
  split_and!; [by destruct Hok; split | done | done | done |].
  transitivity (loader_frame (context_loader ctx')); [done|].
  rewrite (context_loader_frame ctx' Hf). unfold abs, frame_set_events, frame_snapshot. simpl. by rewrite Es.
Qed.

Lemma NextContext_spec_witness :
  exists nctx ctx', NextContext EmptyHash 5 ex_ctx = (Ok nctx, ctx') /\
    ctx_ok nctx /\
    genTargetHeight nctx = u32 (genTargetHeight ex_ctx + 1) /\ genLastHash nctx = EmptyHash /\ genTimestamp nctx = 5 /\
    a_top (abs nctx) = frame_set_events (frame_snapshot (a_top (abs ex_ctx))) [] 0.
Proof. apply NextContext_spec, ex_ctx_ok. Defined.

(** ** The cached hash *)

Section CachedHash.
Context `{Sha256} `{!Marshaler (gmap Address Z), !Marshaler (gmap Address Account), !Marshaler (gmap bytes bytes),
  !Marshaler (gmap Z UTXO), !Marshaler (gmap Z TxOut), !Marshaler Event}.

(** [SetProcessData] does not mark the hash of the context as stale: once
    the hash was taken, any process data can be written and [Hash] still returns
    the hash of the state before the write; a write of account data, by
    contrast, makes it be computed again. *)
Lemma Hash_misses_process_data (ctx ctx1 : Context_) (h : Hash256) (pid : Z) (name v : bytes) (addr : Address) :
  ctx_Hash ctx = (Ok h, ctx1) -> stack ctx <> [] ->
  (exists ctx2, SetProcessData pid name v ctx1 = (Ok tt, ctx2) /\ ctx_Hash ctx2 = (Ok h, ctx2)) /\
  (exists ctx2, SetAccountData addr pid name v ctx1 = (Ok tt, ctx2) /\ isLatestHash ctx2 = false).
Proof.
  intros E Hs. assert (H1 : isLatestHash ctx1 = true /\ dataHash ctx1 = h /\ stack ctx1 = stack ctx).
  { revert E. unfold ctx_Hash. destruct (isLatestHash ctx) eqn:El; [by intros [= <- <-]|].
    unfold bind, Top, lift, modify, ret. destruct (stack ctx) eqn:Es; [done|].
    destruct (Hashes _); [|done..]. by intros [= <- <-]. }
  destruct H1 as (Hl & Hd & Est). unfold SetProcessData, SetAccountData, invalidate, modify, bind, on_top. simpl.
  rewrite Est. destruct (stack ctx) as [|c ps]; [done|]. split; eexists; (split; [done|]); [|done].
  unfold ctx_Hash. simpl. by rewrite Hl, Hd.
Qed.
End CachedHash.

#[local] Instance marshal_none A : Marshaler A := fun _ => [].

Lemma Hash_misses_process_data_witness :
  let '(r, ctx1) := ctx_Hash (H := sha256_prefix) ex_ctx in
  r = Ok (dataHash ctx1) /\
  (exists ctx2, SetProcessData 1 [4; 0] [9] ctx1 = (Ok tt, ctx2) /\ ctx_Hash (H := sha256_prefix) ctx2 = (Ok (dataHash ctx1), ctx2)) /\
  (exists ctx2, SetAccountData ex_addr 1 [4; 0] [9] ctx1 = (Ok tt, ctx2) /\ isLatestHash ctx2 = false).
Proof.
  destruct (ctx_Hash (H := sha256_prefix) ex_ctx) as [r ctx1] eqn:E. assert (Er : r = Ok (dataHash ctx1)).
  { apply (f_equal (fun p => (fst p, dataHash (snd p)))) in E. vm_compute in E. simplify_eq. by destruct ctx1; simpl in *; subst. }
  subst r. split; [done|]. by apply (Hash_misses_process_data (H := sha256_prefix) ex_ctx).
Defined.

(** ** Unspent outputs *)

(** [HasUTXO] never asks the loader: an unspent output that is in the store
    is reported as absent until something has read it, although [UTXO] returns it,
    and as present afterwards. *)
Lemma HasUTXO_ignores_the_store (ld : Loader) (id : Z) (u : UTXO) :
  ld_UTXO ld id = Ok u ->
  fst (HasUTXO id (NewContext ld)) = Ok false /\
  exists ctx', UTXO_ id (NewContext ld) = (Ok (UTXO_Clone u), ctx') /\ fst (HasUTXO id ctx') = Ok true.
Proof.
  intros E. split; [done|]. unfold UTXO_, ctd_UTXO, read_stack, bind, lift. simpl.
  unfold cache_UTXO. simpl. rewrite E. eexists. split; [reflexivity|].
  unfold HasUTXO, probe_stack, bind, lift. simpl. unfold hasutxo_hit. simpl.
  rewrite has_insert, decide_True by done. done.
Qed.

Definition ex_utxo : UTXO := mkUTXO (mkTxIn 1 0 0) NewTxOut.
Definition ex_utxo_loader : Loader :=
  mkLoader 0 [] 0 0 EmptyHash 0 (fun _ => 0) (fun _ => Err ErrNotExistAccount) (fun _ => Err ErrNotExistAccount)
    (fun _ => Ok false) (fun _ => Ok false) (fun _ => []) (fun _ => Ok true) (fun _ => Ok ex_utxo) (fun _ => []).

Lemma HasUTXO_ignores_the_store_witness :
  fst (HasUTXO 7 (NewContext ex_utxo_loader)) = Ok false /\
  exists ctx', UTXO_ 7 (NewContext ex_utxo_loader) = (Ok (UTXO_Clone ex_utxo), ctx') /\ fst (HasUTXO 7 ctx') = Ok true.
Proof. by apply HasUTXO_ignores_the_store. Defined.
