(* ===== verification/Vault.v ===== *)
(** * The admin and vault processes

    [process/admin] and [process/vault]: who may change a process' policy, and the
    balances of the accounts.  A balance is account data of the vault, the locked
    balances and the collected fee are its process data.

    The handlers are written against the interface [ContextOps]; the file
    [VaultSpec] proves them on the abstract machine and carries the results over
    to the context.  A Go pointer to an amount or a policy is the value it points
    to. *)

From stdpp Require Import base gmap list sorting strings.
From Stdlib Require Import ZArith Lia.
From S2P Require Import Prelude Amount Common Types Context ContextSpec.

(** [encoding.Unmarshal], the other half of [Marshaler]. *)
Class Unmarshaler (A : Type) := Unmarshal : bytes -> res A.

(** ** [process/admin] *)

Record Admin := NewAdmin { admin_pid : Z }.

Definition ErrUnauthorizedTransaction : error := mkError "admin" "unauthorized transaction".
Definition tagAdminAddress : bytes := [1; 1].
Definition toAdminAddressKey (Name : bytes) : bytes := tagAdminAddress ++ Name.

(** ** Data of the vault *)

Record Vault := NewVault { vault_pid : Z; vault_admin : Admin }.
Definition vault_Name : bytes := str "fleta.vault".

Definition verr (m : string) : error := mkError "vault" m.
Definition ErrMinusInput := verr "minus input".
Definition ErrMinusBalance := verr "minus balance".
Definition ErrMinusCollectedFee := verr "minus collected fee".
Definition ErrInvalidMultiKeyHashCount := verr "invalid multi key hash count".
Definition ErrInvalidRequiredKeyHashCount := verr "invalid required key hash count".
Definition ErrInvalidPolicy := verr "invalid policy".
Definition ErrInsufficientFee := verr "insufficient fee".
Definition ErrPolicyShouldBeSetupInApplication := verr "policy should be setup in application".

Definition tagBalance : bytes := [1; 1].
Definition tagLockedBalance : bytes := [2; 1].
Definition tagLockedBalanceNumber : bytes := [2; 2].
Definition tagLockedBalanceReverse : bytes := [2; 3].
Definition tagLockedBalanceCount : bytes := [2; 4].
Definition tagLockedBalanceSum : bytes := [2; 5].
Definition tagCollectedFee : bytes := [3; 1].
Definition tagPolicy : bytes := [4; 0].

Definition toLockedBalanceKey (height : Z) (addr : Address) : bytes :=
  tagLockedBalance ++ be_bytes 4 height ++ copy_into AddressSize addr.
Definition toLockedBalanceNumberKey (height : Z) (addr : Address) : bytes :=
  tagLockedBalanceNumber ++ be_bytes 4 height ++ copy_into AddressSize addr.
Definition toLockedBalanceReverseKey (height num : Z) : bytes :=
  tagLockedBalanceReverse ++ be_bytes 4 height ++ be_bytes 4 num.
Definition toLockedBalanceCountKey (height : Z) : bytes :=
  tagLockedBalanceCount ++ be_bytes 4 height.

Record Policy := mkPolicy { AccountCreationAmount : Amount }.

Record Transfer := mkTransfer { tr_Timestamp : Z; tr_Seq : Z; tr_From : Address; tr_To : Address; tr_Amount : Amount }.
Record Burn := mkBurn { bu_Timestamp : Z; bu_Seq : Z; bu_From : Address; bu_Amount : Amount }.
Record CreateAccountTx := mkCreateAccount { ca_Timestamp : Z; ca_Seq : Z; ca_From : Address; ca_Name : bytes; ca_KeyHash : PublicHash }.
Record CreateMultiAccount := mkCreateMulti { cm_Timestamp : Z; cm_Seq : Z; cm_From : Address; cm_Name : bytes;
  cm_Requried : Z; cm_KeyHashes : list PublicHash }.
Record IssueAccount := mkIssue { is_Timestamp : Z; is_Seq : Z; is_From : Address; is_Name : bytes; is_KeyHash : PublicHash }.
Record UpdatePolicy := mkUpdatePolicy { up_Timestamp : Z; up_Seq : Z; up_From : Address; up_Policy : option Policy }.

(** [FeeTransaction]: the fee may be read from the loader. *)
Record FeeTransaction (S : Type) := mkFeeTx { ft_From : Address; ft_Fee : ST S Amount }.
Arguments mkFeeTx {S}. Arguments ft_From {S}. Arguments ft_Fee {S}.

Section Processes.
Context {S : Type} `{!ContextOps S}.

(** *** Admin *)

(** [AdminAddress] panics when no address was set up. *)
Definition AdminAddress (p : Admin) (name : bytes) : ST S Address :=
  let! bs := op_ProcessData (admin_pid p) (toAdminAddressKey name) in
  match bs with
  | [] => throw "not exist admin address"
  | _ => ret (copy_into AddressSize bs)
  end.

(** [InitAdmin]; [addrs] is the address map in the order the loop visits it. *)
Definition InitAdmin (p : Admin) (ctw : ContextWrapper) (addrs : list (bytes * Address)) : ST S unit :=
  let ctw := SwitchContextWrapper (admin_pid p) ctw in
  for_each addrs (fun '(name, adminAddr) => w_SetProcessData ctw (toAdminAddressKey name) adminAddr).

(** *** Balances *)

Context (p : Vault).

(** [if bs := ...; len(bs) > 0 { NewAmountFromBytes(bs) } else { NewCoinAmount(0, 0) }]. *)
Definition amount_of (bs : bytes) : Amount :=
  match bs with [] => NewCoinAmount 0 0 | _ => NewAmountFromBytes bs end.

Definition Balance (addr : Address) : ST S Amount :=
  let! bs := op_AccountData addr (vault_pid p) tagBalance in
  ret (amount_of bs).

Definition AddBalance (ctw : ContextWrapper) (addr : Address) (am : Amount) : ST S unit :=
  let ctw := SwitchContextWrapper (vault_pid p) ctw in
  let zero := NewCoinAmount 0 0 in
  if Less am zero then fail ErrMinusInput
  else
    let! b := Balance addr in
    w_SetAccountData ctw addr tagBalance (Bytes (Add b am)).

Definition RemoveBalance (ctw : ContextWrapper) (addr : Address) : ST S unit :=
  let ctw := SwitchContextWrapper (vault_pid p) ctw in
  w_SetAccountData ctw addr tagBalance [].

Definition SubBalance (ctw : ContextWrapper) (addr : Address) (am : Amount) : ST S unit :=
  let ctw := SwitchContextWrapper (vault_pid p) ctw in
  let! sum := Balance addr in
  if Less sum am then fail ErrMinusBalance
  else
    let sum := Sub sum am in
    if IsZero sum then RemoveBalance ctw addr
    else w_SetAccountData ctw addr tagBalance (Bytes sum).

(** *** Locked balances *)

Definition LockedBalance (addr : Address) (UnlockedHeight : Z) : ST S Amount :=
  let! bs := op_ProcessData (vault_pid p) (toLockedBalanceKey UnlockedHeight addr) in
  ret (amount_of bs).

Definition TotalLockedBalanceByAddress (addr : Address) : ST S Amount :=
  let! bs := op_AccountData addr (vault_pid p) tagLockedBalanceSum in
  ret (amount_of bs).

(** [if bs := ...; len(bs) > 0 { Count = util.BytesToUint32(bs) }]. *)
Definition count_of (bs : bytes) : res Z :=
  match bs with [] => Ok 0 | _ => BytesToUint32 bs end.

Definition AddLockedBalance (ctw : ContextWrapper) (addr : Address) (UnlockedHeight : Z) (am : Amount) : ST S unit :=
  let ctw := SwitchContextWrapper (vault_pid p) ctw in
  let zero := NewCoinAmount 0 0 in
  if Less am zero then fail ErrMinusInput
  else
    let! ns := w_ProcessData ctw (toLockedBalanceNumberKey UnlockedHeight addr) in
    match ns with
    | [] =>
        let! bs := w_ProcessData ctw (toLockedBalanceCountKey UnlockedHeight) in
        let! Count := lift (count_of bs) in
        w_SetProcessData ctw (toLockedBalanceNumberKey UnlockedHeight addr) (Uint32ToBytes Count) ;;;
        w_SetProcessData ctw (toLockedBalanceReverseKey UnlockedHeight Count) addr ;;;
        w_SetProcessData ctw (toLockedBalanceCountKey UnlockedHeight) (Uint32ToBytes (u32 (Count + 1)))
    | _ => ret tt
    end ;;;
    let! lb := LockedBalance addr UnlockedHeight in
    w_SetProcessData ctw (toLockedBalanceKey UnlockedHeight addr) (Bytes (Add lb am)) ;;;
    let! tl := TotalLockedBalanceByAddress addr in
    w_SetAccountData ctw addr tagLockedBalanceSum (Bytes (Add tl am)).

(** The loop of [flushLockedBalanceMap]: [n] more rounds from [i]. *)
Fixpoint flush_loop (ctw : ContextWrapper) (UnlockedHeight : Z) (n : nat) (i : Z) (m : gmap Address Amount)
    : ST S (gmap Address Amount) :=
  match n with
  | O => ret m
  | Datatypes.S n =>
      let! bs := w_ProcessData ctw (toLockedBalanceReverseKey UnlockedHeight i) in
      let addr := copy_into AddressSize bs in
      let! lb := LockedBalance addr UnlockedHeight in
      w_SetProcessData ctw (toLockedBalanceKey UnlockedHeight addr) [] ;;;
      w_SetProcessData ctw (toLockedBalanceNumberKey UnlockedHeight addr) [] ;;;
      w_SetProcessData ctw (toLockedBalanceReverseKey UnlockedHeight i) [] ;;;
      flush_loop ctw UnlockedHeight n (i + 1) (<[addr := lb]> m)
  end.

Definition flushLockedBalanceMap (ctw : ContextWrapper) (UnlockedHeight : Z) : ST S (gmap Address Amount) :=
  let! bs := w_ProcessData ctw (toLockedBalanceCountKey UnlockedHeight) in
  match bs with
  | [] => ret ∅
  | _ =>
      let! Count := lift (BytesToUint32 bs) in
      let! m := flush_loop ctw UnlockedHeight (Z.to_nat Count) 0 ∅ in
      w_SetProcessData ctw (toLockedBalanceCountKey UnlockedHeight) [] ;;;
      ret m
  end.

(** *** Fees *)

Definition CollectedFee : ST S Amount :=
  let! bs := op_ProcessData (vault_pid p) tagCollectedFee in
  ret (amount_of bs).

Definition AddCollectedFee (ctw : ContextWrapper) (am : Amount) : ST S unit :=
  let ctw := SwitchContextWrapper (vault_pid p) ctw in
  let zero := NewCoinAmount 0 0 in
  if Less am zero then fail ErrMinusInput
  else
    let! cf := CollectedFee in
    w_SetProcessData ctw tagCollectedFee (Bytes (Add cf am)).

Definition SubCollectedFee (ctw : ContextWrapper) (am : Amount) : ST S unit :=
  let ctw := SwitchContextWrapper (vault_pid p) ctw in
  let! total := CollectedFee in
  if Less total am then fail ErrMinusCollectedFee
  else
    let total := Sub total am in
    if IsZero total then w_SetProcessData ctw tagCollectedFee []
    else w_SetProcessData ctw tagCollectedFee (Bytes total).

Definition CheckFeePayableWith (tx : FeeTransaction S) (am : option Amount) : ST S unit :=
  let! fee := ft_Fee tx in
  let am := match am with Some am => Add am fee | None => fee end in
  let! b := Balance (ft_From tx) in
  if Less b am then fail ErrInsufficientFee else ret tt.

Definition CheckFeePayable (tx : FeeTransaction S) : ST S unit := CheckFeePayableWith tx None.

Definition WithFee (ctw : ContextWrapper) (tx : FeeTransaction S) (fn : ST S unit) : ST S unit :=
  let ctw := SwitchContextWrapper (vault_pid p) ctw in
  let! fee := ft_Fee tx in
  SubBalance ctw (ft_From tx) fee ;;;
  let! cf := CollectedFee in
  w_SetProcessData ctw tagCollectedFee (Bytes (Add cf fee)) ;;;
  let! sn := op_Snapshot in
  let! r := attempt fn in
  match r with
  | inl err => op_Revert sn ;;; fail err
  | inr _ => op_Commit sn
  end.

(** *** Transactions *)

Definition dust : res Amount := DivC COIN 10.

(** [if has, err := loader.HasAccount(addr); err != nil { return err } else if !has { return e }]. *)
Definition require_account (addr : Address) (e : error) : ST S unit :=
  let! b := op_HasAccount addr in
  guard b e.

(** [fromAcc, err := loader.Account(from)] and its [Validate]. *)
Definition require_signers (from : Address) (signers : list PublicHash) : ST S unit :=
  let! fromAcc := op_Account from in
  lift (acc_Validate fromAcc signers).

(** [if tx.Seq() <= loader.Seq(tx.From()) { return types.ErrInvalidSequence }]. *)
Definition require_fresh_seq (seq : Z) (from : Address) : ST S unit :=
  let! s := op_Seq from in
  guard (negb (seq <=? s)) ErrInvalidSequence.

Definition require_new_name (name : bytes) : ST S unit :=
  let! b := op_HasAccountName name in
  guard (negb b) ErrExistAccountName.

Definition fee_tx (from : Address) : FeeTransaction S := mkFeeTx from (lift dust).

Definition Transfer_Validate (ctw : ContextWrapper) (tx : Transfer) (signers : list PublicHash) : ST S unit :=
  let! d := lift dust in
  guard (negb (Less (tr_Amount tx) d)) ErrDustAmount ;;;
  require_account (tr_To tx) ErrNotExistAccount ;;;
  require_signers (tr_From tx) signers ;;;
  CheckFeePayableWith (fee_tx (tr_From tx)) (Some (tr_Amount tx)).

Definition Transfer_Execute (ctw : ContextWrapper) (tx : Transfer) (index : Z) : ST S unit :=
  WithFee ctw (fee_tx (tr_From tx))
    (SubBalance ctw (tr_From tx) (tr_Amount tx) ;;;
     AddBalance ctw (tr_To tx) (tr_Amount tx)).

Definition Burn_Validate (ctw : ContextWrapper) (tx : Burn) (signers : list PublicHash) : ST S unit :=
  require_fresh_seq (bu_Seq tx) (bu_From tx) ;;;
  require_signers (bu_From tx) signers ;;;
  CheckFeePayableWith (fee_tx (bu_From tx)) (Some (bu_Amount tx)).

Definition Burn_Execute (ctw : ContextWrapper) (tx : Burn) (index : Z) : ST S unit :=
  WithFee ctw (fee_tx (bu_From tx)) (SubBalance ctw (bu_From tx) (bu_Amount tx)).

Section WithPolicy.
Context `{!Unmarshaler Policy, !Marshaler (option Policy)} `{Base58}.

Definition read_policy (ctw : ContextWrapper) : ST S Policy :=
  let! bs := w_ProcessData ctw tagPolicy in
  lift (Unmarshal bs).

Definition CreateAccount_Validate (ctw : ContextWrapper) (tx : CreateAccountTx) (signers : list PublicHash) : ST S unit :=
  guard (IsAllowedAccountName (ca_Name tx)) ErrInvalidAccountName ;;;
  require_fresh_seq (ca_Seq tx) (ca_From tx) ;;;
  require_new_name (ca_Name tx) ;;;
  require_signers (ca_From tx) signers ;;;
  let! policy := read_policy ctw in
  CheckFeePayableWith (fee_tx (ca_From tx)) (Some (AccountCreationAmount policy)).

Definition CreateAccount_Execute (ctw : ContextWrapper) (tx : CreateAccountTx) (index : Z) : ST S unit :=
  WithFee ctw (fee_tx (ca_From tx))
    (let! policy := read_policy ctw in
     SubBalance ctw (ca_From tx) (AccountCreationAmount policy) ;;;
     AddCollectedFee ctw (AccountCreationAmount policy) ;;;
     let! h := op_TargetHeight in
     op_CreateAccount (ASingle (mkSingle (NewAddress h index 0) (ca_Name tx) (ca_KeyHash tx)))).

(** The set of key hashes is as large as the list: no two are equal. *)
Definition CreateMultiAccount_Validate (ctw : ContextWrapper) (tx : CreateMultiAccount) (signers : list PublicHash) : ST S unit :=
  guard (IsAllowedAccountName (cm_Name tx)) ErrInvalidAccountName ;;;
  guard (negb (cm_Requried tx <? 1)) ErrInvalidRequiredKeyHashCount ;;;
  guard (negb ((length (cm_KeyHashes tx) <=? 1)%nat || (10 <? length (cm_KeyHashes tx))%nat)) ErrInvalidMultiKeyHashCount ;;;
  guard (size (list_to_set (C := gset PublicHash) (cm_KeyHashes tx)) =? length (cm_KeyHashes tx))%nat ErrInvalidMultiKeyHashCount ;;;
  require_fresh_seq (cm_Seq tx) (cm_From tx) ;;;
  require_signers (cm_From tx) signers ;;;
  CheckFeePayableWith (fee_tx (cm_From tx)) (Some (MulC COIN 10)).

Definition CreateMultiAccount_Execute (ctw : ContextWrapper) (tx : CreateMultiAccount) (index : Z) : ST S unit :=
  WithFee ctw (fee_tx (cm_From tx))
    (let CreationCost := MulC COIN 10 in
     SubBalance ctw (cm_From tx) CreationCost ;;;
     AddCollectedFee ctw CreationCost ;;;
     let! h := op_TargetHeight in
     op_CreateAccount (AMulti (mkMulti (NewAddress h index 0) (cm_Name tx) (cm_Requried tx) (cm_KeyHashes tx)))).

Definition require_admin (from : Address) : ST S unit :=
  let! addr := AdminAddress (vault_admin p) vault_Name in
  guard (bool_decide (from = addr)) ErrUnauthorizedTransaction.

Definition IssueAccount_Validate (ctw : ContextWrapper) (tx : IssueAccount) (signers : list PublicHash) : ST S unit :=
  require_admin (is_From tx) ;;;
  require_fresh_seq (is_Seq tx) (is_From tx) ;;;
  require_new_name (is_Name tx) ;;;
  require_signers (is_From tx) signers.

Definition IssueAccount_Execute (ctw : ContextWrapper) (tx : IssueAccount) (index : Z) : ST S unit :=
  let! h := op_TargetHeight in
  op_CreateAccount (ASingle (mkSingle (NewAddress h index 0) (is_Name tx) (is_KeyHash tx))).

Definition UpdatePolicy_Validate (ctw : ContextWrapper) (tx : UpdatePolicy) (signers : list PublicHash) : ST S unit :=
  require_admin (up_From tx) ;;;
  match up_Policy tx with None => fail ErrInvalidPolicy | Some _ => ret tt end ;;;
  require_fresh_seq (up_Seq tx) (up_From tx) ;;;
  require_signers (up_From tx) signers.

(** Marshalling takes the pointer, nil or not. *)
Definition UpdatePolicy_Execute (ctw : ContextWrapper) (tx : UpdatePolicy) (index : Z) : ST S unit :=
  w_SetProcessData ctw tagPolicy (Marshal (up_Policy tx)).

Definition InitPolicy (ctw : ContextWrapper) (policy : Policy) : ST S unit :=
  let ctw := SwitchContextWrapper (vault_pid p) ctw in
  w_SetProcessData ctw tagPolicy (Marshal (Some policy)).

Definition vault_OnLoadChain (lw : ContextWrapper) : ST S unit :=
  let! _ := AdminAddress (vault_admin p) vault_Name in
  let! bs := w_ProcessData lw tagPolicy in
  match bs with [] => fail ErrPolicyShouldBeSetupInApplication | _ => ret tt end.
End WithPolicy.

(** The body of the loop of [AfterExecuteTransactions]. *)
Definition release_locked (ctw : ContextWrapper) (addr : Address) (am : Amount) : ST S unit :=
  let! r := attempt (op_HasAccount addr) in
  match r with
  | inl err =>
      if bool_decide (err = ErrDeletedAccount) then w_SetAccountData ctw addr tagLockedBalanceSum []
      else fail err
  | inr false => w_SetAccountData ctw addr tagLockedBalanceSum []
  | inr true =>
      AddBalance ctw addr am ;;;
      let! tl := TotalLockedBalanceByAddress addr in
      let sum := Sub tl am in
      if negb (IsZero sum) then w_SetAccountData ctw addr tagLockedBalanceSum (Bytes sum)
      else w_SetAccountData ctw addr tagLockedBalanceSum []
  end.

(** [AfterExecuteTransactions] of the block at [height]; [range] is the order in
    which Go visits the entries of the map. *)
Definition vault_AfterExecuteTransactions (range : gmap Address Amount -> list (Address * Amount))
    (height : Z) (ctw : ContextWrapper) : ST S unit :=
  let! m := flushLockedBalanceMap ctw height in
  for_each (range m) (fun '(addr, am) => release_locked ctw addr am).
End Processes.
