(* ===== verification/VaultSpec.v ===== *)
(** * The vault is a ledger

    The balance operations and the transactions of the vault, computed on the
    abstract machine and carried over to the context: what each one does to the
    balances on success and on failure, that transfers move money and do not make
    or lose it, who can run the privileged ones, and that locked balances come back
    in full.  The last theorem shows the transfer that does lose money. *)

From stdpp Require Import base gmap list sorting strings.
From Stdlib Require Import ZArith Lia FunctionalExtensionality.
From S2P Require Import Prelude Amount Common Types Context ContextSpec ContextFacts Vault.

(** ** Frames as ledgers *)

Definition put_ad (f : Frame) (k v : bytes) : Frame := frame_set_ad f (upd (f_ad f) k v) (upd (f_clear_ad f) k (is_empty v)).
Definition put_pd (f : Frame) (k v : bytes) : Frame := frame_set_pd f (upd (f_pd f) k v) (upd (f_clear_pd f) k (is_empty v)).

Section Ledger.
Context (p : Vault).

Definition balance_key (addr : Address) : bytes := account_data_key addr (vault_pid p) tagBalance.
Definition fee_key : bytes := process_data_key (vault_pid p) tagCollectedFee.

Definition bal (f : Frame) (addr : Address) : Amount := amount_of (f_ad f (balance_key addr)).
Definition fees (f : Frame) : Amount := amount_of (f_pd f fee_key).

Definition set_bal (f : Frame) (addr : Address) (b : Amount) : Frame := put_ad f (balance_key addr) (Bytes b).
Definition set_fees (f : Frame) (b : Amount) : Frame := put_pd f fee_key (Bytes b).
End Ledger.

Lemma amount_of_Bytes b : amount_of (Bytes b) = Z.abs b.
Proof.
  rewrite <- FromBytes_Bytes. unfold amount_of. destruct (Bytes b) eqn:E; [|done].
  unfold NewAmountFromBytes. done.
Qed.

Lemma amount_of_nonneg bs : bytes_ok bs -> 0 <= amount_of bs.
Proof. intros H. unfold amount_of. destruct bs; [done|]. by apply be_value_bound. Qed.

Lemma amount_of_nil : amount_of [] = 0.
Proof. done. Qed.

Lemma Switch_pid pid ctw : cw_pid (SwitchContextWrapper pid ctw) = pid.
Proof. unfold SwitchContextWrapper. destruct (cw_pid ctw =? pid) eqn:E; [by bool_to_prop | done]. Qed.

Lemma dust_value : dust = Ok (10 ^ 17).
Proof. reflexivity. Qed.

Lemma balance_key_inj p a b : balance_key p a = balance_key p b -> a = b.
Proof. unfold balance_key, account_data_key. apply (inj (fun l => l ++ _)). Qed.

Section AbsVault.
Context `{B58 : Base58} (p : Vault).
Implicit Types (a : AbsCtx) (ctw : ContextWrapper).

Abbreviation top a := (a_top a).

Lemma abs_w_SetAccountData ctw addr name v a :
  w_SetAccountData ctw addr name v a = (Ok tt, set_top a (put_ad (a_top a) (account_data_key addr (cw_pid ctw) name) v)).
Proof. done. Qed.

Lemma abs_w_SetProcessData ctw name v a :
  w_SetProcessData ctw name v a = (Ok tt, set_top a (put_pd (a_top a) (process_data_key (cw_pid ctw) name) v)).
Proof. done. Qed.

Lemma abs_Balance addr a : Balance p addr a = (Ok (bal p (a_top a) addr), a).
Proof. done. Qed.

Lemma abs_AddBalance ctw addr am a :
  AddBalance p ctw addr am a =
  if am <? 0 then (Err ErrMinusInput, a)
  else (Ok tt, set_top a (set_bal p (a_top a) addr (bal p (a_top a) addr + am))).
Proof.
  unfold AddBalance, Less. change (NewCoinAmount 0 0) with 0. destruct (am <? 0); [done|].
  unfold bind. rewrite abs_Balance. unfold w_SetAccountData. by rewrite Switch_pid.
Qed.

Lemma abs_SubBalance ctw addr am a :
  SubBalance p ctw addr am a =
  if bal p (a_top a) addr <? am then (Err ErrMinusBalance, a)
  else (Ok tt, set_top a (set_bal p (a_top a) addr (bal p (a_top a) addr - am))).
Proof.
  unfold SubBalance, Less, IsZero, Sub, bind. rewrite abs_Balance. destruct (_ <? am); [done|].
  unfold RemoveBalance. destruct (_ =? 0) eqn:E; rewrite abs_w_SetAccountData, !Switch_pid; [|done].
  bool_to_prop. unfold set_bal. by rewrite E.
Qed.

Lemma abs_CollectedFee a : CollectedFee p a = (Ok (fees p (a_top a)), a).
Proof. done. Qed.

Lemma abs_AddCollectedFee ctw am a :
  AddCollectedFee p ctw am a =
  if am <? 0 then (Err ErrMinusInput, a) else (Ok tt, set_top a (set_fees p (a_top a) (fees p (a_top a) + am))).
Proof.
  unfold AddCollectedFee, Less. change (NewCoinAmount 0 0) with 0. destruct (am <? 0); [done|].
  unfold bind. rewrite abs_CollectedFee, abs_w_SetProcessData. by rewrite Switch_pid.
Qed.

Lemma abs_SubCollectedFee ctw am a :
  SubCollectedFee p ctw am a =
  if fees p (a_top a) <? am then (Err ErrMinusCollectedFee, a)
  else (Ok tt, set_top a (set_fees p (a_top a) (fees p (a_top a) - am))).
Proof.
  unfold SubCollectedFee, Less, IsZero, Sub, bind. rewrite abs_CollectedFee. destruct (_ <? am); [done|].
  destruct (_ =? 0) eqn:E; rewrite abs_w_SetProcessData, Switch_pid; [|done].
  bool_to_prop. unfold set_fees. by rewrite E.
Qed.

(** *** Ledger lemmas *)

Lemma bal_set_bal f x b y : bal p (set_bal p f x b) y = if decide (y = x) then Z.abs b else bal p f y.
Proof.
  unfold bal, set_bal, put_ad, frame_set_ad. cbn [f_ad]. unfold upd.
  destruct (decide (y = x)) as [->|Hn]; [by rewrite decide_True, amount_of_Bytes|].
  rewrite decide_False; [done|]. by intros E%balance_key_inj.
Qed.

Lemma fees_set_fees f b : fees p (set_fees p f b) = Z.abs b.
Proof. unfold fees, set_fees, put_pd, frame_set_pd. cbn [f_pd]. unfold upd. by rewrite decide_True, amount_of_Bytes. Qed.

Lemma fees_set_bal f x b : fees p (set_bal p f x b) = fees p f.
Proof. done. Qed.

Lemma bal_set_fees f b x : bal p (set_fees p f b) x = bal p f x.
Proof. done. Qed.

Lemma bal_snapshot f x : bal p (frame_snapshot f) x = bal p f x.
Proof. done. Qed.

Lemma bal_commit f b x : bal p (frame_commit f b) x = if f_clear_ad b (balance_key p x) then 0 else bal p f x.
Proof. unfold bal, frame_commit. cbn [f_ad]. by destruct (f_clear_ad b _). Qed.

Lemma fees_commit f b : fees p (frame_commit f b) = if f_clear_pd b (fee_key p) then 0 else fees p f.
Proof. unfold fees, frame_commit. cbn [f_pd]. by destruct (f_clear_pd b _). Qed.

Lemma is_empty_Bytes b : is_empty (Bytes b) = (b =? 0).
Proof.
  pose proof (Bytes_nil b) as Hn. destruct (Bytes b); simpl.
  - symmetry. apply Z.eqb_eq. by apply Hn.
  - symmetry. apply Z.eqb_neq. intros E. by apply Hn in E.
Qed.

(** *** Fees around a transaction *)

(** The state after the fee was taken. *)
Definition after_fee a from fee : AbsCtx :=
  let f := set_bal p (a_top a) from (bal p (a_top a) from - fee) in
  set_top a (set_fees p f (fees p f + fee)).

Lemma abs_WithFee ctw from fee fn a : a_below a <> [] ->
  WithFee p ctw (mkFeeTx from (lift (Ok fee))) fn a =
  if bal p (a_top a) from <? fee then (Err ErrMinusBalance, a)
  else
    let a1 := after_fee a from fee in
    match attempt fn (snapshot_of a1) with
    | (Ok (inl err), s) => (op_Revert (Z.of_nat (length (a_below a1)) + 1) ;;; fail err) s
    | (Ok (inr _), s) => op_Commit (Z.of_nat (length (a_below a1)) + 1) s
    | (Err e, s) => (Err e, s)
    | (Panic w, s) => (Panic w, s)
    end.
Proof.
  intros Hb. unfold WithFee. unfold bind at 1. cbn [ft_Fee ft_From]. unfold lift at 1.
  unfold bind at 1. rewrite abs_SubBalance. destruct (_ <? fee); [done|].
  unfold bind at 1. rewrite abs_CollectedFee. unfold bind at 1. rewrite abs_w_SetProcessData, Switch_pid.
  unfold bind at 1. cbn [op_Snapshot abs_ops]. rewrite abs_Snapshot_spec.
  unfold bind at 1. fold (snapshot_of (after_fee a from fee)).
  match goal with |- context [attempt fn ?x] => change x with (snapshot_of (after_fee a from fee)) end.
  destruct (attempt fn _) as [[[err|[]]|e|w] s]; done.
Qed.

Lemma WithFee_ok ctw from fee fn a s : a_below a <> [] -> fee <= bal p (a_top a) from ->
  fn (snapshot_of (after_fee a from fee)) = (Ok tt, s) -> same_below (snapshot_of (after_fee a from fee)) s ->
  WithFee p ctw (mkFeeTx from (lift (Ok fee))) fn a =
    (Ok tt, set_top a (frame_commit (a_top s) (a_top (after_fee a from fee)))).
Proof.
  intros Hb Hf Hfn Hs. rewrite abs_WithFee by done. rewrite (proj2 (Z.ltb_ge _ _)) by lia. cbn zeta.
  unfold attempt. rewrite Hfn, Hs. destruct (a_below a) as [|b fs] eqn:Eb; [done|].
  apply (abs_Commit_spec (after_fee a from fee) (a_top s) b fs). done.
Qed.

Lemma WithFee_err ctw from fee fn a s e : a_below a <> [] -> fee <= bal p (a_top a) from ->
  fn (snapshot_of (after_fee a from fee)) = (Err e, s) -> same_below (snapshot_of (after_fee a from fee)) s ->
  WithFee p ctw (mkFeeTx from (lift (Ok fee))) fn a = (Err e, after_fee a from fee).
Proof.
  intros Hb Hf Hfn Hs. rewrite abs_WithFee by done. rewrite (proj2 (Z.ltb_ge _ _)) by lia. cbn zeta.
  unfold attempt. rewrite Hfn, Hs. destruct (a_below a) as [|b fs] eqn:Eb; [done|].
  unfold bind. cbn [op_Revert abs_ops].
  pose proof (abs_Revert_spec (after_fee a from fee) (a_top s) b fs (a_top (after_fee a from fee)) Eb) as Hr.
  unfold snapshot_of, set_top, set_frames in *. simpl in *. rewrite Hr. done.
Qed.
End AbsVault.

(** ** The handlers run the same on the context and on the machine *)

Section Simulations.
Context `{B58 : Base58} (p : Vault).

Lemma sim_w_AccountData ctw addr name : simulates (w_AccountData ctw addr name) (w_AccountData ctw addr name).
Proof. apply so_AccountData. Qed.
Lemma sim_w_SetAccountData ctw addr name v : simulates (w_SetAccountData ctw addr name v) (w_SetAccountData ctw addr name v).
Proof. apply so_SetAccountData. Qed.
Lemma sim_w_ProcessData ctw name : simulates (w_ProcessData ctw name) (w_ProcessData ctw name).
Proof. apply so_ProcessData. Qed.
Lemma sim_w_SetProcessData ctw name v : simulates (w_SetProcessData ctw name v) (w_SetProcessData ctw name v).
Proof. apply so_SetProcessData. Qed.

#[local] Hint Resolve sim_w_AccountData sim_w_SetAccountData sim_w_ProcessData sim_w_SetProcessData : simulation.

Lemma sim_AdminAddress ad name : simulates (AdminAddress ad name) (AdminAddress ad name).
Proof. unfold AdminAddress. simulate. Qed.

Lemma sim_Balance addr : simulates (Balance p addr) (Balance p addr).
Proof. unfold Balance. simulate. Qed.

Lemma sim_LockedBalance addr h : simulates (LockedBalance p addr h) (LockedBalance p addr h).
Proof. unfold LockedBalance. simulate. Qed.

Lemma sim_TotalLocked addr : simulates (TotalLockedBalanceByAddress p addr) (TotalLockedBalanceByAddress p addr).
Proof. unfold TotalLockedBalanceByAddress. simulate. Qed.

Lemma sim_CollectedFee : simulates (CollectedFee p) (CollectedFee p).
Proof. unfold CollectedFee. simulate. Qed.

#[local] Hint Resolve sim_AdminAddress sim_Balance sim_LockedBalance sim_TotalLocked sim_CollectedFee : simulation.

Lemma sim_AddBalance ctw addr am : simulates (AddBalance p ctw addr am) (AddBalance p ctw addr am).
Proof. unfold AddBalance. simulate. Qed.

Lemma sim_SubBalance ctw addr am : simulates (SubBalance p ctw addr am) (SubBalance p ctw addr am).
Proof. unfold SubBalance, RemoveBalance. simulate. Qed.

Lemma sim_AddCollectedFee ctw am : simulates (AddCollectedFee p ctw am) (AddCollectedFee p ctw am).
Proof. unfold AddCollectedFee. simulate. Qed.

Lemma sim_SubCollectedFee ctw am : simulates (SubCollectedFee p ctw am) (SubCollectedFee p ctw am).
Proof. unfold SubCollectedFee. simulate. Qed.

Lemma sim_AddLockedBalance ctw addr h am : simulates (AddLockedBalance p ctw addr h am) (AddLockedBalance p ctw addr h am).
Proof. unfold AddLockedBalance. simulate. Qed.

#[local] Hint Resolve sim_AddBalance sim_SubBalance sim_AddCollectedFee sim_SubCollectedFee sim_AddLockedBalance : simulation.

Lemma sim_flush_loop ctw h n i m : simulates (flush_loop p ctw h n i m) (flush_loop p ctw h n i m).
Proof. revert i m. induction n; intros i m; cbn [flush_loop]; simulate. Qed.

Lemma sim_flush ctw h : simulates (flushLockedBalanceMap p ctw h) (flushLockedBalanceMap p ctw h).
Proof. unfold flushLockedBalanceMap. simulate. apply sim_flush_loop. Qed.

Lemma sim_release ctw addr am : simulates (release_locked p ctw addr am) (release_locked p ctw addr am).
Proof. unfold release_locked. simulate. Qed.

Lemma sim_vault_After range h ctw :
  simulates (vault_AfterExecuteTransactions p range h ctw) (vault_AfterExecuteTransactions p range h ctw).
Proof.
  unfold vault_AfterExecuteTransactions. simulate; [apply sim_flush|]. destruct x. apply sim_release.
Qed.

Lemma sim_WithFee ctw from fn fna : simulates fn fna ->
  simulates (WithFee p ctw (fee_tx from) fn) (WithFee p ctw (fee_tx from) fna).
Proof. intros Hf. unfold WithFee, fee_tx. cbn [ft_From ft_Fee]. simulate. Qed.

Lemma sim_Transfer ctw tx i : simulates (Transfer_Execute p ctw tx i) (Transfer_Execute p ctw tx i).
Proof. unfold Transfer_Execute. apply sim_WithFee. simulate. Qed.

Lemma sim_Burn ctw tx i : simulates (Burn_Execute p ctw tx i) (Burn_Execute p ctw tx i).
Proof. unfold Burn_Execute. apply sim_WithFee. simulate. Qed.
End Simulations.

(** ** Transfers *)

Definition tx_fee : Amount := 10 ^ 17.

Definition balance_of (p : Vault) (ctx : Context_) (addr : Address) : Amount :=
  amount_of (seen_ad ctx addr (vault_pid p) tagBalance).
Definition fees_of (p : Vault) (ctx : Context_) : Amount :=
  amount_of (seen_pd ctx (vault_pid p) tagCollectedFee).
(** The balances of some accounts and the fees together. *)
Definition total_of (p : Vault) (ctx : Context_) (accs : list Address) : Amount :=
  fold_right Z.add 0 (balance_of p ctx <$> accs) + fees_of p ctx.

(** The balance of [addr] was brought to zero in the top layer. *)
Definition emptied (p : Vault) (ctx : Context_) (addr : Address) : bool := cleared_ad ctx addr (vault_pid p) tagBalance.

Lemma sim_run {A} (m : ctxM A) (ma : absM A) ctx r a' :
  simulates m ma -> ctx_ok ctx -> ma (abs ctx) = (r, a') -> (forall w, r <> Panic w) ->
  exists ctx', m ctx = (r, ctx') /\ ctx_ok ctx' /\ abs ctx' = a'.
Proof.
  intros Hs Hc Ha Hr. specialize (Hs ctx Hc). rewrite Ha in Hs. destruct (m ctx) as [[x|e|w] ctx'].
  - destruct Hs as [? [= -> ->]]. eauto.
  - destruct Hs as [? [= -> ->]]. eauto.
  - simpl in Hs. by destruct (Hr w).
Qed.

(** What a layer removed reads as absent. *)
Lemma cleared_reads_nil ld cs k : f_clear_ad (frame_of ld cs) k = true -> f_ad (frame_of ld cs) k = [].
Proof. unfold frame_of. simpl. destruct cs; [done|]. simpl. unfold accdata_hit. by intros ->. Qed.

Lemma abs_cleared_ad ctx k : f_clear_ad (a_top (abs ctx)) k = true -> f_ad (a_top (abs ctx)) k = [].
Proof. apply cleared_reads_nil. Qed.

Section Transfers.
Context `{B58 : Base58} (p : Vault).
Implicit Types (a : AbsCtx) (ctw : ContextWrapper).

Definition moved f from to am : Frame :=
  let s := frame_snapshot f in
  let s1 := set_bal p s from (bal p s from - am) in
  set_bal p s1 to (bal p s1 to + am).

Lemma bal_after_fee a from x : tx_fee <= bal p (a_top a) from ->
  bal p (a_top (after_fee p a from tx_fee)) x =
  if decide (x = from) then bal p (a_top a) from - tx_fee else bal p (a_top a) x.
Proof.
  intros Hf. unfold after_fee. cbn [a_top set_top]. rewrite bal_set_fees, bal_set_bal.
  destruct (decide _) as [->|]; [lia | done].
Qed.

Lemma fees_after_fee a from : 0 <= fees p (a_top a) ->
  fees p (a_top (after_fee p a from tx_fee)) = fees p (a_top a) + tx_fee.
Proof.
  intros Hf. unfold after_fee. cbn [a_top set_top]. rewrite fees_set_fees, fees_set_bal. unfold tx_fee. lia.
Qed.

Lemma abs_Transfer ctw tx i a : a_below a <> [] ->
  let b := bal p (a_top a) (tr_From tx) in
  let a1 := after_fee p a (tr_From tx) tx_fee in
  Transfer_Execute p ctw tx i a =
    if b <? tx_fee then (Err ErrMinusBalance, a)
    else if b - tx_fee <? tr_Amount tx then (Err ErrMinusBalance, a1)
    else if tr_Amount tx <? 0 then (Err ErrMinusInput, a1)
    else (Ok tt, set_top a (frame_commit (moved (a_top a1) (tr_From tx) (tr_To tx) (tr_Amount tx)) (a_top a1))).
Proof.
  intros Hb b a1. unfold Transfer_Execute, fee_tx. rewrite dust_value. fold tx_fee.
  destruct (b <? tx_fee) eqn:E1; bool_to_prop.
  { rewrite abs_WithFee by done. by rewrite (proj2 (Z.ltb_lt _ _)). }
  assert (Hs : bal p (a_top (snapshot_of a1)) (tr_From tx) = b - tx_fee).
  { change (bal p (a_top a1) (tr_From tx) = b - tx_fee). unfold a1. rewrite bal_after_fee by done.
    by rewrite decide_True. }
  destruct (b - tx_fee <? tr_Amount tx) eqn:E2.
  { eapply WithFee_err; [done|done| |].
    - unfold bind. fold a1. rewrite abs_SubBalance, Hs, E2. reflexivity.
    - apply same_below_refl. }
  destruct (tr_Amount tx <? 0) eqn:E3.
  { eapply WithFee_err; [done|done| |].
    - unfold bind. fold a1. rewrite abs_SubBalance, Hs, E2, abs_AddBalance, E3. reflexivity.
    - done. }
  apply (WithFee_ok p ctw _ _ _ a (set_top (snapshot_of a1) (moved (a_top a1) (tr_From tx) (tr_To tx) (tr_Amount tx)))); [done|done| |done].
  unfold bind. fold a1. rewrite abs_SubBalance, Hs, E2, abs_AddBalance, E3. rewrite <- Hs. reflexivity.
Qed.

(** The frame a successful transfer leaves. *)
Definition transferred a from to am : Frame :=
  let f1 := a_top (after_fee p a from tx_fee) in frame_commit (moved f1 from to am) f1.

Lemma clear_after_fee a from k :
  f_clear_ad (a_top (after_fee p a from tx_fee)) k =
  if decide (k = balance_key p from) then bal p (a_top a) from - tx_fee =? 0 else f_clear_ad (a_top a) k.
Proof.
  unfold after_fee. cbn. unfold upd. destruct (decide _); [by rewrite is_empty_Bytes | done].
Qed.

Lemma bal_transferred a from to am x : 0 <= am -> tx_fee + am <= bal p (a_top a) from ->
  0 <= bal p (a_top a) to ->
  bal p (transferred a from to am) x =
    if decide (x = from) then
      if decide (x = to) then bal p (a_top a) from - tx_fee else bal p (a_top a) from - tx_fee - am
    else if f_clear_ad (a_top a) (balance_key p x) then 0
    else if decide (x = to) then bal p (a_top a) to + am else bal p (a_top a) x.
Proof.
  intros Ham Hb Hto. unfold transferred, moved. rewrite bal_commit, clear_after_fee.
  rewrite !bal_set_bal, !bal_snapshot, !bal_after_fee by lia.
  destruct (decide (x = from)) as [->|Hx].
  - rewrite !(decide_True (P := balance_key p from = balance_key p from)) by done.
    destruct (_ =? 0) eqn:E; bool_to_prop.
    + destruct (decide (from = to)); lia.
    + rewrite !(decide_True (P := from = from)) by done. destruct (decide (from = to)) as [<-|]; [|lia].
      rewrite !decide_True by done. lia.
  - rewrite !(decide_False (P := balance_key p x = balance_key p from)) by (by intros ?%balance_key_inj).
    destruct (f_clear_ad _ _); [done|]. destruct (decide (x = to)) as [->|]; [|done].
    rewrite !(decide_False (P := to = from)) by done. lia.
Qed.

Lemma fees_transferred a from to am : 0 <= fees p (a_top a) ->
  fees p (transferred a from to am) = fees p (a_top a) + tx_fee.
Proof.
  intros Hf. unfold transferred. rewrite fees_commit.
  assert (Hc : f_clear_pd (a_top (after_fee p a from tx_fee)) (fee_key p) = false).
  { unfold after_fee. cbn. unfold upd. rewrite decide_True by done. rewrite is_empty_Bytes.
    apply Z.eqb_neq. rewrite fees_set_bal. unfold tx_fee. lia. }
  rewrite Hc. unfold moved. rewrite !fees_set_bal. by apply fees_after_fee.
Qed.

(** Data other than the two balances and the fee. *)
Definition untouched (ctx ctx' : Context_) (from to : Address) : Prop :=
  (forall addr, addr <> from -> addr <> to -> balance_of p ctx' addr = balance_of p ctx addr) /\
  (forall addr pid name, account_data_key addr pid name <> balance_key p from ->
     account_data_key addr pid name <> balance_key p to -> seen_ad ctx' addr pid name = seen_ad ctx addr pid name).

(** A transfer that the sender can pay for moves exactly its amount: the
    sender pays the amount and the fee, the receiver gets the amount, the vault
    collects the fee, and no other account data changes.  The receiver's balance
    must not have been emptied in the layer the transfer runs on. *)
Lemma Transfer_moves_money (ctx : Context_) (ctw : ContextWrapper) (tx : Transfer) (index : Z) :
  ctx_ok ctx -> tr_From tx <> tr_To tx -> 0 <= tr_Amount tx ->
  tx_fee + tr_Amount tx <= balance_of p ctx (tr_From tx) ->
  0 <= balance_of p ctx (tr_To tx) -> 0 <= fees_of p ctx -> emptied p ctx (tr_To tx) = false ->
  exists ctx', Transfer_Execute p ctw tx index ctx = (Ok tt, ctx') /\ ctx_ok ctx' /\
    balance_of p ctx' (tr_From tx) = balance_of p ctx (tr_From tx) - tx_fee - tr_Amount tx /\
    balance_of p ctx' (tr_To tx) = balance_of p ctx (tr_To tx) + tr_Amount tx /\
    fees_of p ctx' = fees_of p ctx + tx_fee /\
    untouched ctx ctx' (tr_From tx) (tr_To tx).
Proof.
  intros Hc Hne Ham Hb Hto Hfee Hem. pose proof (abs_safe ctx Hc) as (Hbelow & _ & _).
  pose proof (abs_Transfer ctw tx index (abs ctx) Hbelow) as Ht. cbn zeta in Ht.
  change (bal p (a_top (abs ctx)) (tr_From tx)) with (balance_of p ctx (tr_From tx)) in Ht.
  assert (H0 : tx_fee <= bal p (a_top (abs ctx)) (tr_From tx)) by (change (tx_fee <= balance_of p ctx (tr_From tx)); lia).
  rewrite (proj2 (Z.ltb_ge _ _)), (proj2 (Z.ltb_ge _ _)), (proj2 (Z.ltb_ge _ _)) in Ht by lia.
  destruct (sim_run _ _ _ _ _ (sim_Transfer p ctw tx index) Hc Ht) as (ctx' & E & Hok & Ha); [done|].
  exists ctx'. split; [done|]. split; [done|]. fold (transferred (abs ctx) (tr_From tx) (tr_To tx) (tr_Amount tx)) in Ha.
  assert (Hbal : forall x, balance_of p ctx' x = bal p (transferred (abs ctx) (tr_From tx) (tr_To tx) (tr_Amount tx)) x)
    by (intros x; change (balance_of p ctx' x) with (bal p (a_top (abs ctx')) x); by rewrite Ha).
  pose proof (bal_transferred (abs ctx) (tr_From tx) (tr_To tx) (tr_Amount tx)) as Hx.
  split_and!.
  - rewrite Hbal, Hx by done. rewrite decide_True, decide_False by done. done.
  - rewrite Hbal, Hx by done. rewrite decide_False, decide_True by done.
    unfold emptied, cleared_ad in Hem. fold (balance_key p (tr_To tx)) in Hem. by rewrite Hem.
  - change (fees_of p ctx') with (fees p (a_top (abs ctx'))). rewrite Ha. by apply fees_transferred.
  - split.
    + intros x H1 H2. rewrite Hbal, Hx by done. rewrite !decide_False by done. destr_match; [|done].
      change (balance_of p ctx x) with (bal p (a_top (abs ctx)) x). unfold bal. by rewrite abs_cleared_ad.
    + intros addr pid name H1 H2. unfold seen_ad. rewrite Ha. unfold transferred, moved, frame_commit.
      cbn [f_ad set_top a_top]. rewrite clear_after_fee, decide_False by done.
      destruct (f_clear_ad (a_top (abs ctx)) _) eqn:Ecl; [by rewrite abs_cleared_ad|].
      cbn. unfold upd. by rewrite !decide_False by done.
Qed.

Lemma sum_upd (f g : Address -> Z) x accs : NoDup accs -> x ∈ accs -> (forall y, y <> x -> g y = f y) ->
  fold_right Z.add 0 (g <$> accs) = fold_right Z.add 0 (f <$> accs) - f x + g x.
Proof.
  intros Hnd Hin Hg. assert (Hout : forall l, x ∉ l -> fold_right Z.add 0 (g <$> l) = fold_right Z.add 0 (f <$> l)).
  { induction l as [|y l IH]; [done|]. intros Hx. apply not_elem_of_cons in Hx as [? ?]. csimpl. rewrite IH, Hg by done. done. }
  induction Hnd as [|y l Hy Hnd IH]; [by apply elem_of_nil in Hin|]. csimpl. destruct (decide (y = x)) as [->|Hne].
  - rewrite Hout by done. lia.
  - apply elem_of_cons in Hin as [->|Hin]; [done|]. rewrite (IH Hin), Hg by done. lia.
Qed.

(** The outcomes of a transfer, on the context. *)
Lemma Transfer_outcome ctx ctw tx index : ctx_ok ctx ->
  exists r ctx', Transfer_Execute p ctw tx index ctx = (r, ctx') /\ ctx_ok ctx' /\
    let b := balance_of p ctx (tr_From tx) in
    (b < tx_fee /\ r = Err ErrMinusBalance /\ abs ctx' = abs ctx \/
     tx_fee <= b /\ (b - tx_fee < tr_Amount tx \/ tr_Amount tx < 0) /\
       (exists e, r = Err e) /\ abs ctx' = after_fee p (abs ctx) (tr_From tx) tx_fee \/
     tx_fee + tr_Amount tx <= b /\ 0 <= tr_Amount tx /\ r = Ok tt /\
       abs ctx' = set_top (abs ctx) (transferred (abs ctx) (tr_From tx) (tr_To tx) (tr_Amount tx))).
Proof.
  intros Hc. pose proof (abs_safe ctx Hc) as (Hbelow & _ & _).
  pose proof (abs_Transfer ctw tx index (abs ctx) Hbelow) as Ht. cbn zeta in Ht.
  change (bal p (a_top (abs ctx)) (tr_From tx)) with (balance_of p ctx (tr_From tx)) in Ht. cbn zeta.
  set (b := balance_of p ctx (tr_From tx)) in *.
  destruct (b <? tx_fee) eqn:E1; [|destruct (b - tx_fee <? tr_Amount tx) eqn:E2; [|destruct (tr_Amount tx <? 0) eqn:E3]];
    destruct (sim_run _ _ _ _ _ (sim_Transfer p ctw tx index) Hc Ht) as (ctx' & E & Hok & Ha); try done;
    bool_to_prop; eexists _, ctx'; (split; [exact E|]); (split; [done|]).
  - left. by split_and!.
  - right; left. split_and!; eauto.
  - right; left. split_and!; eauto.
  - right; right. split_and!; try done. lia.
Qed.

(** The execution of a transfer on its own. *)
Lemma Transfer_keeps_total (ctx : Context_) (ctw : ContextWrapper) (tx : Transfer) (index : Z) (accs : list Address) :
  ctx_ok ctx -> NoDup accs -> tr_From tx ∈ accs -> tr_To tx ∈ accs ->
  0 <= balance_of p ctx (tr_To tx) -> 0 <= fees_of p ctx -> emptied p ctx (tr_To tx) = false ->
  exists r ctx', Transfer_Execute p ctw tx index ctx = (r, ctx') /\ total_of p ctx' accs = total_of p ctx accs.
Proof.
  intros Hc Hnd Hfrom Hto Hb Hf Hem.
  destruct (Transfer_outcome ctx ctw tx index Hc) as (r & ctx' & E & _ & H). exists r, ctx'. split; [done|]. clear E.
  cbn zeta in H. unfold total_of.
  assert (Hbal : forall x, balance_of p ctx' x = bal p (a_top (abs ctx')) x) by done.
  assert (Hfees : fees_of p ctx' = fees p (a_top (abs ctx'))) by done.
  destruct H as [(_ & _ & Ha) | [(Hge & _ & _ & Ha) | (Hge & Ham & _ & Ha)]].
  - unfold balance_of, fees_of, seen_ad, seen_pd. by rewrite Ha.
  - rewrite Ha in Hbal, Hfees. rewrite Hfees, fees_after_fee by done. rewrite (sum_upd (balance_of p ctx) _ (tr_From tx)) by
      (done || intros y Hy; rewrite Hbal, bal_after_fee by done; by rewrite decide_False).
    rewrite Hbal, bal_after_fee, decide_True by done.
    change (bal p (a_top (abs ctx)) (tr_From tx)) with (balance_of p ctx (tr_From tx)).
    change (fees p (a_top (abs ctx))) with (fees_of p ctx). lia.
  - rewrite Ha in Hbal, Hfees. cbn [a_top set_top] in Hbal, Hfees. rewrite Hfees, fees_transferred by done.
    assert (Hx : forall x, balance_of p ctx' x =
      if decide (x = tr_From tx) then
        if decide (x = tr_To tx) then balance_of p ctx (tr_From tx) - tx_fee else balance_of p ctx (tr_From tx) - tx_fee - tr_Amount tx
      else if decide (x = tr_To tx) then balance_of p ctx (tr_To tx) + tr_Amount tx else balance_of p ctx x).
    { intros x. rewrite Hbal, bal_transferred by done. destruct (decide (x = tr_From tx)); [done|].
      destruct (f_clear_ad _ _) eqn:Ecl; [|done]. destruct (decide (x = tr_To tx)) as [->|].
      - unfold emptied, cleared_ad in Hem. fold (balance_key p (tr_To tx)) in Hem. congruence.
      - change (balance_of p ctx x) with (bal p (a_top (abs ctx)) x). unfold bal. by rewrite abs_cleared_ad. }
    set (mid := fun x => if decide (x = tr_From tx) then balance_of p ctx' x else balance_of p ctx x).
    rewrite (sum_upd mid _ (tr_To tx)), (sum_upd (balance_of p ctx) mid (tr_From tx)); try done.
    + unfold mid. rewrite (decide_True (P := tr_From tx = tr_From tx)) by done.
      rewrite !Hx. rewrite !(decide_True (P := tr_From tx = tr_From tx)) by done.
      change (fees p (a_top (abs ctx))) with (fees_of p ctx).
      destruct (decide (tr_To tx = tr_From tx)) as [->|Hn].
      * rewrite !decide_True by done. lia.
      * rewrite !decide_False by done. rewrite !decide_True by done. lia.
    + intros y Hy. unfold mid. by rewrite decide_False.
    + intros y Hy. unfold mid. destruct (decide (y = tr_From tx)); [done|]. rewrite Hx.
      rewrite !decide_False by done. done.
Qed.

(** An account that gets nothing and has nothing has nothing afterwards. *)
Lemma Transfer_leaves_zero (ctx : Context_) ctw tx index r ctx' x : ctx_ok ctx -> Transfer_Execute p ctw tx index ctx = (r, ctx') ->
  x <> tr_To tx -> balance_of p ctx x = 0 -> balance_of p ctx' x = 0.
Proof.
  intros Hc E Hx H0. destruct (Transfer_outcome ctx ctw tx index Hc) as (r' & c' & E' & _ & H). rewrite E in E'. injection E' as <- <-. cbn zeta in H.
  assert (Hbal : balance_of p ctx' x = bal p (a_top (abs ctx')) x) by done. rewrite Hbal. clear Hbal.
  assert (Hfrom : tx_fee <= balance_of p ctx (tr_From tx) -> x <> tr_From tx) by (intros Hf ->; rewrite H0 in Hf; by cbv in Hf).
  destruct H as [(_ & _ & ->) | [(Hge & _ & _ & ->) | (Hge & Ham & _ & ->)]]; [done| |].
  - rewrite bal_after_fee by done. rewrite decide_False by auto. done.
  - assert (tx_fee <= balance_of p ctx (tr_From tx)) by lia. cbn [a_top set_top]. unfold transferred, moved.
    rewrite bal_commit, !bal_set_bal, !bal_snapshot, !bal_after_fee by done. destruct (f_clear_ad _ _); [done|].
    rewrite !decide_False by auto. done.
Qed.

(** The execution between a snapshot and its commit. *)
Lemma Transfer_in_block (ctx : Context_) ctw tx index : ctx_ok ctx ->
  exists sn ctx1 r ctx2 ctx3, Snapshot ctx = (Ok sn, ctx1) /\ ctx_ok ctx1 /\ Transfer_Execute p ctw tx index ctx1 = (r, ctx2) /\
    (forall w, r <> Panic w) /\ Commit sn ctx2 = (Ok tt, ctx3) /\
    (forall x, balance_of p ctx1 x = balance_of p ctx x /\ emptied p ctx1 x = false /\
               balance_of p ctx3 x = if emptied p ctx x then 0 else balance_of p ctx2 x) /\
    fees_of p ctx1 = fees_of p ctx /\ (cleared_pd ctx (vault_pid p) tagCollectedFee = false -> fees_of p ctx3 = fees_of p ctx2).
Proof.
  intros Hc. pose proof (abs_safe ctx Hc) as (Hbelow & _ & _). set (a0 := abs ctx) in *. set (s := set_frames a0 (frame_snapshot (a_top a0)) (a_top a0 :: a_below a0)).
  assert (exists b fs, a_below a0 = b :: fs) as (b & fs & Eb) by (destruct (a_below a0); [done | eauto]).
  destruct (sim_run _ _ ctx _ _ so_Snapshot Hc (abs_Snapshot_spec a0) ltac:(done)) as (ctx1 & E1 & Hok1 & Ha1). fold s in Ha1.
  destruct (Transfer_outcome ctx1 ctw tx index Hok1) as (r & ctx2 & E2 & Hok2 & H). cbn zeta in H. rewrite Ha1 in H.
  assert (Ht : exists t, abs ctx2 = set_frames a0 t (a_top a0 :: a_below a0)).
  { destruct H as [(_ & _ & ->) | [(_ & _ & _ & ->) | (_ & _ & _ & ->)]]; by eexists. }
  destruct Ht as [t Ht]. assert (Hcm : abs_Commit (Z.of_nat (length (a_below a0)) + 1) (abs ctx2) = (Ok tt, set_top a0 (frame_commit t (a_top a0)))) by (rewrite Ht; by eapply abs_Commit_spec).
  destruct (sim_run _ _ ctx2 _ _ (so_Commit _) Hok2 Hcm ltac:(done)) as (ctx3 & E3 & _ & Ha3).
  exists (Z.of_nat (length (a_below a0)) + 1), ctx1, r, ctx2, ctx3. split_and!; [exact E1|done|exact E2| |exact E3| | |].
  - intros w ->. by destruct H as [(_ & ? & _) | [(_ & _ & [e ?] & _) | (_ & _ & ? & _)]].
  - intros x. unfold balance_of, emptied, seen_ad, cleared_ad. rewrite Ha1, Ha3, Ht. cbn [a_top s set_frames set_top].
    split; [done|]. split; [done|]. exact (bal_commit p t (a_top a0) x).
  - unfold fees_of, seen_pd. by rewrite Ha1.
  - unfold fees_of, seen_pd, cleared_pd. rewrite Ha3, Ht. intros Hcl. etrans; [exact (fees_commit p t (a_top a0))|]. fold a0 in Hcl. unfold fee_key. by rewrite Hcl.
Qed.

(** C29. A transfer makes and destroys no money, whatever its outcome, as long as the
    receiver's balance was not brought to zero before in the same layer of the context:
    over any set of accounts that has the sender and the receiver, the balances and the
    collected fees together are the same before and after.  This holds of the execution
    on its own and, where the collected fees were not paid out before in the layer
    either, of the execution between a snapshot and its commit, as a block runs it.  The
    condition is needed: what a receiver gets whose balance an earlier transaction of
    the block brought to zero is lost ([Transfer_to_emptied_account_is_lost]).  The
    receiver's balance and the collected fees are taken not to be negative. *)
Theorem Transfer_conserves (ctx : Context_) (ctw : ContextWrapper) (tx : Transfer) (index : Z) (accs : list Address) :
  ctx_ok ctx -> NoDup accs -> tr_From tx ∈ accs -> tr_To tx ∈ accs ->
  0 <= balance_of p ctx (tr_To tx) -> 0 <= fees_of p ctx -> emptied p ctx (tr_To tx) = false ->
  (exists r ctx', Transfer_Execute p ctw tx index ctx = (r, ctx') /\ total_of p ctx' accs = total_of p ctx accs) /\
  (cleared_pd ctx (vault_pid p) tagCollectedFee = false ->
   exists r ctx', (let! sn := Snapshot in let! r := attempt (Transfer_Execute p ctw tx index) in Commit sn ;;; ret r) ctx = (Ok r, ctx') /\
     total_of p ctx' accs = total_of p ctx accs).
Proof.
  intros Hc Hnd Hfrom Hto Hb Hf Hem. split; [by apply Transfer_keeps_total|]. intros Hcl.
  destruct (Transfer_in_block ctx ctw tx index Hc) as (sn & ctx1 & r & ctx2 & ctx3 & E1 & Hok1 & E2 & Hr & E3 & Hbal & Hf1 & Hf3). specialize (Hf3 Hcl).
  destruct (Hbal (tr_To tx)) as (Hb1 & Hem1 & _).
  destruct (Transfer_keeps_total ctx1 ctw tx index accs Hok1 Hnd Hfrom Hto ltac:(lia) ltac:(lia) Hem1) as (r' & c' & E2' & Ht). rewrite E2 in E2'. injection E2' as <- <-.
  assert (Hsum : total_of p ctx3 accs = total_of p ctx accs).
  { unfold total_of in *. rewrite Hf1 in Ht. rewrite Hf3.
    rewrite (list_fmap_ext (balance_of p ctx3) (balance_of p ctx2) accs), (list_fmap_ext (balance_of p ctx) (balance_of p ctx1) accs); [done|..].
    - intros _ x _. by destruct (Hbal x).
    - intros _ x _. destruct (Hbal x) as (Hx1 & _ & ->). destruct (emptied p ctx x) eqn:Ex; [|done]. symmetry. eapply Transfer_leaves_zero; [exact Hok1|exact E2| |].
      + intros ->. congruence.
      + rewrite Hx1. unfold balance_of, seen_ad. unfold emptied, cleared_ad in Ex. by rewrite (abs_cleared_ad ctx _ Ex). }
  unfold bind, attempt. rewrite E1, E2. destruct r as [[]|e|w]; [| |by destruct (Hr w)]; rewrite E3; by eexists _, ctx3.
Qed.

(** A failing transfer costs the sender the fee and nothing else, and
    nothing at all when the sender cannot pay the fee. *)
Lemma Transfer_failure_costs_the_fee (ctx : Context_) (ctw : ContextWrapper) (tx : Transfer) (index : Z) :
  ctx_ok ctx -> balance_of p ctx (tr_From tx) < tx_fee + tr_Amount tx -> 0 <= fees_of p ctx ->
  exists e ctx', Transfer_Execute p ctw tx index ctx = (Err e, ctx') /\ ctx_ok ctx' /\
    let cost := if balance_of p ctx (tr_From tx) <? tx_fee then 0 else tx_fee in
    balance_of p ctx' (tr_From tx) = balance_of p ctx (tr_From tx) - cost /\
    fees_of p ctx' = fees_of p ctx + cost /\
    forall addr pid name, account_data_key addr pid name <> balance_key p (tr_From tx) ->
      seen_ad ctx' addr pid name = seen_ad ctx addr pid name.
Proof.
  intros Hc Hlt Hf. destruct (Transfer_outcome ctx ctw tx index Hc) as (r & ctx' & E & Hok & H). cbn zeta in H |- *.
  assert (Hbal : forall x, balance_of p ctx' x = bal p (a_top (abs ctx')) x) by done.
  assert (Hfees : fees_of p ctx' = fees p (a_top (abs ctx'))) by done.
  destruct H as [(Hl & -> & Ha) | [(Hge & _ & [e ->] & Ha) | (Hge & Ham & -> & Ha)]]; [| |lia];
    eexists _, ctx'; (split; [exact E|]); (split; [done|]).
  - rewrite (proj2 (Z.ltb_lt _ _)) by done. rewrite Hbal, Hfees, Ha. split_and!; [|by rewrite Z.add_0_r|].
    + by rewrite Z.sub_0_r.
    + intros. unfold seen_ad. by rewrite Ha.
  - rewrite (proj2 (Z.ltb_ge _ _)) by done. rewrite Hbal, Hfees, Ha. split_and!.
    + rewrite bal_after_fee by done. by rewrite decide_True.
    + by apply fees_after_fee.
    + intros addr pid name Hk. unfold seen_ad. rewrite Ha. cbn. unfold upd. by rewrite decide_False.
Qed.

(** The block executes a transaction between a snapshot and a commit.  A
    transfer to an account whose balance an earlier transaction of the block
    brought to zero succeeds and charges its sender, but the receiver still has
    nothing afterwards: the amount is destroyed. *)
Lemma Transfer_to_emptied_account_is_lost (ctx : Context_) (ctw : ContextWrapper) (tx : Transfer) (index : Z) :
  ctx_ok ctx -> tr_From tx <> tr_To tx -> 0 <= tr_Amount tx ->
  tx_fee + tr_Amount tx <= balance_of p ctx (tr_From tx) ->
  emptied p ctx (tr_To tx) = true ->
  exists ctx', (let! sn := Snapshot in Transfer_Execute p ctw tx index ;;; Commit sn) ctx = (Ok tt, ctx') /\
    balance_of p ctx' (tr_From tx) = balance_of p ctx (tr_From tx) - tx_fee - tr_Amount tx /\
    balance_of p ctx' (tr_To tx) = 0.
Proof.
  intros Hc Hne Ham Hb Hem. pose proof (abs_safe ctx Hc) as (Hbelow & _ & _).
  assert (H0 : bal p (a_top (abs ctx)) (tr_To tx) = 0).
  { unfold bal. rewrite abs_cleared_ad; [done|]. exact Hem. }
  set (a0 := abs ctx) in *. set (s := set_frames a0 (frame_snapshot (a_top a0)) (a_top a0 :: a_below a0)).
  pose proof (abs_Transfer ctw tx index s) as Ht. cbn zeta in Ht.
  change (bal p (a_top s) (tr_From tx)) with (balance_of p ctx (tr_From tx)) in Ht.
  rewrite (proj2 (Z.ltb_ge _ _)), (proj2 (Z.ltb_ge _ _)), (proj2 (Z.ltb_ge _ _)) in Ht by lia.
  specialize (Ht ltac:(done)). fold (transferred s (tr_From tx) (tr_To tx) (tr_Amount tx)) in Ht.
  set (t := transferred s (tr_From tx) (tr_To tx) (tr_Amount tx)) in *.
  assert (Hrun : (let! sn := op_Snapshot in Transfer_Execute p ctw tx index ;;; op_Commit sn) a0 =
                 (Ok tt, set_top a0 (frame_commit t (a_top a0)))).
  { unfold bind. cbn [op_Snapshot op_Commit abs_ops]. rewrite abs_Snapshot_spec. fold s. rewrite Ht.
    assert (exists b fs, a_below a0 = b :: fs) as (b & fs & Eb) by (destruct (a_below a0); [done | eauto]).
    exact (abs_Commit_spec a0 t b fs (a_top a0) Eb). }
  assert (Hsim : simulates (let! sn := op_Snapshot in Transfer_Execute p ctw tx index ;;; op_Commit sn)
                           (let! sn := op_Snapshot in Transfer_Execute p ctw tx index ;;; op_Commit sn))
    by (simulate; apply sim_Transfer).
  destruct (sim_run _ _ ctx _ _ Hsim Hc Hrun) as (ctx' & E & Hok & Ha); [done|].
  exists ctx'. split; [done|].
  assert (Hbal : forall x, balance_of p ctx' x = bal p (frame_commit t (a_top a0)) x)
    by (intros x; change (balance_of p ctx' x) with (bal p (a_top (abs ctx')) x); by rewrite Ha).
  rewrite !Hbal, !bal_commit. split.
  - destruct (f_clear_ad (a_top a0) _) eqn:Ecl.
    { apply abs_cleared_ad in Ecl. assert (Hz : balance_of p ctx (tr_From tx) = amount_of []) by exact (f_equal amount_of Ecl).
      rewrite Hz, amount_of_nil in Hb. unfold tx_fee in Hb. lia. }
    unfold t. rewrite bal_transferred; [by rewrite decide_True, decide_False | done | done |].
    change (0 <= bal p (a_top a0) (tr_To tx)). lia.
  - unfold emptied, cleared_ad in Hem. fold (balance_key p (tr_To tx)) in Hem. fold a0 in Hem. by rewrite Hem.
Qed.
End Transfers.

(** A context with two funded accounts, and one where the second was emptied. *)
Definition ex_vault : Vault := NewVault 2 (NewAdmin 1).
Definition ex_ctw : ContextWrapper := NewContextWrapper 2.
Definition ex_a : Address := NewAddress 1 0 0.
Definition ex_b : Address := NewAddress 1 1 0.
Definition ex_fund : ctxM unit :=
  AddBalance ex_vault ex_ctw ex_a (MulC COIN 100) ;;; AddBalance ex_vault ex_ctw ex_b (MulC COIN 5).
Definition ex_bank : Context_ := snd (ex_fund NewEmptyContext).
Definition ex_emptied : Context_ := snd ((ex_fund ;;; SubBalance ex_vault ex_ctw ex_b (MulC COIN 5)) NewEmptyContext).
Definition ex_tx : Transfer := mkTransfer 0 1 ex_a ex_b COIN.

Lemma sim_ok {A} (m : ctxM A) ma ctx : simulates m ma -> ctx_ok ctx -> (forall w, fst (m ctx) <> Panic w) -> ctx_ok (snd (m ctx)).
Proof. intros Hs Hc Hp. specialize (Hs ctx Hc). destruct (m ctx) as [[x|e|w] ctx']; [apply Hs..|]. by destruct (Hp w). Qed.

Lemma NewEmptyContext_ok : ctx_ok NewEmptyContext.
Proof. apply NewContext_ok, emptyLoader_ok. Qed.

Lemma ex_bank_ok : ctx_ok ex_bank.
Proof.
  eapply sim_ok; [|apply NewEmptyContext_ok|by vm_compute]. unfold ex_fund. apply sim_bind; intros; apply sim_AddBalance.
Qed.

Lemma ex_emptied_ok : ctx_ok ex_emptied.
Proof.
  eapply sim_ok; [|apply NewEmptyContext_ok|by vm_compute]. unfold ex_fund. apply sim_bind; [|intros; apply sim_SubBalance].
  apply sim_bind; intros; apply sim_AddBalance.
Qed.

Lemma Transfer_moves_money_witness :
  exists ctx', Transfer_Execute ex_vault ex_ctw ex_tx 0 ex_bank = (Ok tt, ctx') /\ ctx_ok ctx' /\
    balance_of ex_vault ctx' ex_a = balance_of ex_vault ex_bank ex_a - tx_fee - COIN /\
    balance_of ex_vault ctx' ex_b = balance_of ex_vault ex_bank ex_b + COIN /\
    fees_of ex_vault ctx' = fees_of ex_vault ex_bank + tx_fee /\
    untouched ex_vault ex_bank ctx' ex_a ex_b.
Proof. apply (Transfer_moves_money ex_vault ex_bank ex_ctw ex_tx 0); [apply ex_bank_ok | by vm_compute..]. Defined.

Lemma Transfer_conserves_witness :
  exists r ctx', (let! sn := Snapshot in let! r := attempt (Transfer_Execute ex_vault ex_ctw ex_tx 0) in Commit sn ;;; ret r) ex_bank = (Ok r, ctx') /\
    total_of ex_vault ctx' [ex_a; ex_b] = total_of ex_vault ex_bank [ex_a; ex_b].
Proof.
  apply (Transfer_conserves ex_vault ex_bank ex_ctw ex_tx 0 [ex_a; ex_b]); [apply ex_bank_ok | | | | by vm_compute..].
  - apply (bool_decide_unpack _). by vm_compute.
  - apply (bool_decide_unpack _). by vm_compute.
  - apply (bool_decide_unpack _). by vm_compute.
Defined.

Lemma Transfer_failure_costs_the_fee_witness :
  let tx := mkTransfer 0 1 ex_a ex_b (MulC COIN 100) in
  exists e ctx', Transfer_Execute ex_vault ex_ctw tx 0 ex_bank = (Err e, ctx') /\ ctx_ok ctx' /\
    let cost := if balance_of ex_vault ex_bank ex_a <? tx_fee then 0 else tx_fee in
    balance_of ex_vault ctx' ex_a = balance_of ex_vault ex_bank ex_a - cost /\
    fees_of ex_vault ctx' = fees_of ex_vault ex_bank + cost /\
    forall addr pid name, account_data_key addr pid name <> balance_key ex_vault ex_a ->
      seen_ad ctx' addr pid name = seen_ad ex_bank addr pid name.
Proof. apply (Transfer_failure_costs_the_fee ex_vault ex_bank ex_ctw (mkTransfer 0 1 ex_a ex_b (MulC COIN 100)) 0); [apply ex_bank_ok | by vm_compute..]. Defined.

Lemma Transfer_to_emptied_account_is_lost_witness :
  exists ctx', (let! sn := Snapshot in Transfer_Execute ex_vault ex_ctw ex_tx 0 ;;; Commit sn) ex_emptied = (Ok tt, ctx') /\
    balance_of ex_vault ctx' ex_a = balance_of ex_vault ex_emptied ex_a - tx_fee - COIN /\
    balance_of ex_vault ctx' ex_b = 0.
Proof. apply (Transfer_to_emptied_account_is_lost ex_vault ex_emptied ex_ctw ex_tx 0); [apply ex_emptied_ok | by vm_compute..]. Defined.
