(* ===== verification/VaultLocked.v ===== *)
(** * Locked balances

    The vault keeps the balances that unlock at a height in a registry of process
    data: a count, the addresses by number, the number of each address and the
    amount of each address.  [AddLockedBalance] keeps the registry consistent,
    [flushLockedBalanceMap] returns exactly its entries and removes it, and
    [AfterExecuteTransactions] pays every entry of an existing account once, in
    whatever order Go visits the map. *)

From stdpp Require Import base gmap list sorting strings.
From Stdlib Require Import ZArith Lia FunctionalExtensionality.
From S2P Require Import Prelude Amount Common Types Context ContextSpec ContextFacts Vault VaultSpec.

Section Keys.
Context (p : Vault).

Definition pdk (name : bytes) : bytes := process_data_key (vault_pid p) name.
Definition lk_key h addr : bytes := pdk (toLockedBalanceKey h addr).
Definition num_key h addr : bytes := pdk (toLockedBalanceNumberKey h addr).
Definition rev_key h i : bytes := pdk (toLockedBalanceReverseKey h i).
Definition cnt_key h : bytes := pdk (toLockedBalanceCountKey h).
Definition sum_key addr : bytes := account_data_key addr (vault_pid p) tagLockedBalanceSum.

Lemma pdk_inj a b : pdk a = pdk b -> a = b.
Proof. apply (inj (fun l => rune_string (vault_pid p) ++ l)). Qed.

Lemma lk_key_inj h a b : address_ok a -> address_ok b -> lk_key h a = lk_key h b -> a = b.
Proof.
  intros [Ha _] [Hb _] E%pdk_inj. unfold toLockedBalanceKey in E. simpl in E. simplify_eq.
  by rewrite !copy_into_id in E.
Qed.

Lemma num_key_inj h a b : address_ok a -> address_ok b -> num_key h a = num_key h b -> a = b.
Proof.
  intros [Ha _] [Hb _] E%pdk_inj. unfold toLockedBalanceNumberKey in E. simpl in E. simplify_eq.
  by rewrite !copy_into_id in E.
Qed.

Lemma rev_key_inj h i j : 0 <= i < 2 ^ 32 -> 0 <= j < 2 ^ 32 -> rev_key h i = rev_key h j -> i = j.
Proof.
  intros Hi Hj E%pdk_inj. unfold toLockedBalanceReverseKey in E. do 2 apply (inj (app _)) in E.
  apply (be_bytes_inj 4); [exact Hi | exact Hj | done].
Qed.
End Keys.

(** Keys of different kinds differ in their tag. *)
Ltac key_ne :=
  let E := fresh in
  intros E; apply pdk_inj in E; discriminate E.

Lemma upd_eq {K V} `{EqDecision K} (f : K -> V) k v : upd f k v k = v.
Proof. unfold upd. by rewrite decide_True. Qed.

Lemma upd_ne {K V} `{EqDecision K} (f : K -> V) k k' v : k' <> k -> upd f k v k' = f k'.
Proof. intros. unfold upd. by rewrite decide_False. Qed.

Section Registry.
Context `{B58 : Base58} (p : Vault) (h : Z).

Definition locked (f : Frame) (addr : Address) : Amount := amount_of (f_pd f (lk_key p h addr)).

(** The registry lists [L]. *)
Record registry (f : Frame) (L : list Address) : Prop := {
  rg_nodup : NoDup L;
  rg_addr : Forall address_ok L;
  rg_small : Z.of_nat (length L) < 2 ^ 32;
  rg_count : f_pd f (cnt_key p h) = match L with [] => [] | _ => Uint32ToBytes (Z.of_nat (length L)) end;
  rg_rev : forall i addr, L !! i = Some addr -> f_pd f (rev_key p h (Z.of_nat i)) = addr;
  rg_num : forall addr, address_ok addr -> (f_pd f (num_key p h addr) <> [] <-> addr ∈ L)
}.

Lemma pd_put f k v k' : f_pd (put_pd f k v) k' = if decide (k' = k) then v else f_pd f k'.
Proof. done. Qed.

(** *** Adding *)

(** What [AddLockedBalance] does to the top frame. *)
Definition enlist (f : Frame) (addr : Address) (count : Z) : Frame :=
  put_pd (put_pd (put_pd f (num_key p h addr) (Uint32ToBytes count)) (rev_key p h count) addr)
    (cnt_key p h) (Uint32ToBytes (u32 (count + 1))).
Definition lock (f : Frame) (addr : Address) (am : Amount) : Frame :=
  let f := put_pd f (lk_key p h addr) (Bytes (locked f addr + am)) in
  put_ad f (sum_key p addr) (Bytes (amount_of (f_ad f (sum_key p addr)) + am)).

Lemma abs_AddLockedBalance ctw addr am a L : registry (a_top a) L -> address_ok addr -> 0 <= am ->
  AddLockedBalance p ctw addr h am a =
  (Ok tt, set_top a (lock (if decide (addr ∈ L) then a_top a else enlist (a_top a) addr (Z.of_nat (length L))) addr am)).
Proof.
  intros HR Haddr Ham. unfold AddLockedBalance, Less. change (NewCoinAmount 0 0) with 0.
  rewrite (proj2 (Z.ltb_ge _ _)) by done. unfold bind at 1, w_ProcessData at 1. rewrite Switch_pid.
  change (op_ProcessData _ _ a) with (@Ok bytes (f_pd (a_top a) (num_key p h addr)), a).
  pose proof (rg_num _ _ HR addr Haddr) as Hnum. cbn iota beta.
  destruct (decide (addr ∈ L)) as [Hin|Hout].
  - destruct (f_pd (a_top a) (num_key p h addr)) eqn:En; [by apply Hnum in Hin|].
    unfold bind, ret, w_SetProcessData, w_SetAccountData. rewrite !Switch_pid. done.
  - destruct (f_pd (a_top a) (num_key p h addr)) eqn:En; [|destruct Hout; by apply Hnum].
    assert (Hc : count_of (f_pd (a_top a) (cnt_key p h)) = Ok (Z.of_nat (length L))).
    { rewrite (rg_count _ _ HR). pose proof (rg_small _ _ HR) as Hs. destruct L as [|x L]; [done|].
      unfold count_of. destruct (Uint32ToBytes _) eqn:Eu; [by apply Uint32ToBytes_ne in Eu|].
      rewrite <- Eu. apply BytesToUint32_roundtrip. lia. }
    unfold bind, w_ProcessData, w_SetProcessData, w_SetAccountData, lift. rewrite !Switch_pid.
    change (op_ProcessData (vault_pid p) (toLockedBalanceCountKey h) a) with (@Ok bytes (f_pd (a_top a) (cnt_key p h)), a).
    cbn iota beta. rewrite Hc. done.
Qed.

Lemma enlist_registry f addr L : registry f L -> address_ok addr -> addr ∉ L -> Z.of_nat (length L) + 1 < 2 ^ 32 ->
  registry (enlist f addr (Z.of_nat (length L))) (L ++ [addr]).
Proof.
  intros HR Ha Hout Hs. pose proof HR as [Hnd Hok _ Hc Hr Hn]. split.
  - apply NoDup_app. split_and!; [done| |apply NoDup_singleton]. intros x Hx ->%list_elem_of_singleton. done.
  - apply Forall_app. by split; [|constructor].
  - rewrite length_app. simpl. lia.
  - unfold enlist. rewrite pd_put, decide_True by done. rewrite length_app. simpl.
    unfold u32. rewrite Z.mod_small by lia.
    destruct (L ++ [addr]) eqn:E; [by destruct L|]. f_equal. lia.
  - intros i x Hi. unfold enlist. rewrite pd_put, decide_False by key_ne. rewrite pd_put.
    apply lookup_snoc_Some in Hi as [[Hlt Hi]|[-> <-]].
    + rewrite decide_False by (intros E%rev_key_inj; lia). rewrite pd_put, decide_False by key_ne. by apply Hr.
    + by rewrite decide_True.
  - intros x Hx. unfold enlist. rewrite pd_put, decide_False by key_ne. rewrite pd_put, decide_False by key_ne.
    rewrite pd_put, elem_of_app, list_elem_of_singleton. destruct (decide _) as [E|E].
    + apply num_key_inj in E; [|done..]. split; [auto|]. intros _. apply Uint32ToBytes_ne.
    + rewrite Hn by done. split; [auto|]. intros [?| ->]; done.
Qed.

Lemma lock_registry f addr am L : registry f L -> registry (lock f addr am) L.
Proof.
  intros [Hnd Hok Hs Hc Hr Hn]. split; try done; unfold lock.
  - cbn [put_ad frame_set_ad f_pd]. rewrite pd_put, decide_False by key_ne. done.
  - intros i x Hi. cbn [put_ad frame_set_ad f_pd]. rewrite pd_put, decide_False by key_ne. by apply Hr.
  - intros x Hx. cbn [put_ad frame_set_ad f_pd]. rewrite pd_put, decide_False by key_ne. by apply Hn.
Qed.

Lemma locked_enlist f addr n x : locked (enlist f addr n) x = locked f x.
Proof. unfold locked, enlist. by rewrite !pd_put, !decide_False by key_ne. Qed.

Lemma locked_lock f addr am x : address_ok addr -> address_ok x ->
  locked (lock f addr am) x = if decide (x = addr) then Z.abs (locked f addr + am) else locked f x.
Proof.
  intros Ha Hx. unfold lock, locked at 1. cbn [put_ad frame_set_ad f_pd]. rewrite pd_put.
  destruct (decide (x = addr)) as [->|Hn]; [by rewrite decide_True, amount_of_Bytes|].
  rewrite decide_False; [done|]. by intros E%lk_key_inj.
Qed.

(** *** Flushing *)

Definition clear_entry (f : Frame) (i : Z) (addr : Address) : Frame :=
  put_pd (put_pd (put_pd f (lk_key p h addr) []) (num_key p h addr) []) (rev_key p h i) [].

Fixpoint clear_entries (f : Frame) (i : Z) (L : list Address) : Frame :=
  match L with
  | [] => f
  | addr :: L => clear_entries (clear_entry f i addr) (i + 1) L
  end.

(** The entries of the registry, with their amounts. *)
Definition entries (f : Frame) (L : list Address) : list (Address * Amount) := (fun addr => (addr, locked f addr)) <$> L.

Fixpoint collect (f : Frame) (L : list Address) (m : gmap Address Amount) : gmap Address Amount :=
  match L with
  | [] => m
  | addr :: L => collect f L (<[addr := locked f addr]> m)
  end.

Lemma locked_clear_entry f i a x : address_ok a -> address_ok x -> x <> a ->
  locked (clear_entry f i a) x = locked f x.
Proof.
  intros Ha Hx Hn. unfold locked, clear_entry. rewrite pd_put, decide_False by key_ne.
  rewrite pd_put, decide_False by key_ne. rewrite pd_put, decide_False; [done|]. by intros E%lk_key_inj.
Qed.

Lemma rev_clear_entry f i a j : 0 <= i < 2 ^ 32 -> 0 <= j < 2 ^ 32 -> i <> j ->
  f_pd (clear_entry f i a) (rev_key p h j) = f_pd f (rev_key p h j).
Proof.
  intros Hi Hj Hn. unfold clear_entry. rewrite pd_put, decide_False by (intros E%rev_key_inj; [lia|done..]).
  by rewrite !pd_put, !decide_False by key_ne.
Qed.

Lemma collect_ext f f' L m : (forall addr, addr ∈ L -> locked f addr = locked f' addr) -> collect f L m = collect f' L m.
Proof.
  revert m. induction L as [|x L IH]; intros m Hx; [done|]. simpl. rewrite Hx by apply elem_of_cons, or_introl, eq_refl.
  apply IH. intros y Hy. apply Hx. by right.
Qed.

Lemma abs_flush_loop ctw L : cw_pid ctw = vault_pid p -> forall f i m a,
  a_top a = f -> NoDup L -> Forall address_ok L -> 0 <= i -> i + Z.of_nat (length L) < 2 ^ 32 ->
  (forall j addr, L !! j = Some addr -> f_pd f (rev_key p h (i + Z.of_nat j)) = addr) ->
  flush_loop p ctw h (length L) i m a = (Ok (collect f L m), set_top a (clear_entries f i L)).
Proof.
  intros Hpid. induction L as [|x L IH]; intros f i m a <- Hnd Hok Hi Hs Hr.
  - simpl. by destruct a.
  - inversion_clear Hnd as [|? ? Hx Hnd']. inversion_clear Hok as [|? ? Hxok Hok'].
    cbn [flush_loop length] in *. unfold bind at 1, w_ProcessData. rewrite Hpid.
    assert (Hrx : f_pd (a_top a) (rev_key p h i) = x) by (rewrite <- (Hr 0%nat x) by done; by rewrite Z.add_0_r).
    change (op_ProcessData (vault_pid p) (toLockedBalanceReverseKey h i) a) with (@Ok bytes (f_pd (a_top a) (rev_key p h i)), a).
    cbn iota beta. rewrite Hrx, copy_into_id by apply Hxok.
    unfold bind, w_SetProcessData. rewrite Hpid.
    change (LockedBalance p x h a) with (@Ok Amount (locked (a_top a) x), a). cbn iota beta.
    set (a' := set_top a (clear_entry (a_top a) i x)).
    transitivity (flush_loop p ctw h (length L) (i + 1) (<[x := locked (a_top a) x]> m) a'); [reflexivity|].
    rewrite (IH _ (i + 1) _ a' eq_refl Hnd' Hok'); [|lia|lia|].
    2: { intros j addr Hj. subst a'. cbn [a_top set_top].
         assert (Z.of_nat j < Z.of_nat (length L)) by (apply lookup_lt_Some in Hj; lia).
         rewrite rev_clear_entry by lia. replace (i + 1 + Z.of_nat j) with (i + Z.of_nat (S j)) by lia. by apply Hr. }
    subst a'. cbn [a_top set_top collect clear_entries]. do 2 f_equal.
    apply collect_ext. intros y Hy. apply locked_clear_entry; [done| |].
    + by eapply Forall_forall in Hok'.
    + by intros ->.
Qed.

(** What [flushLockedBalanceMap] leaves. *)
Definition flushed (f : Frame) (L : list Address) : Frame :=
  match L with [] => f | _ => put_pd (clear_entries f 0 L) (cnt_key p h) [] end.

Lemma abs_flush ctw a L : cw_pid ctw = vault_pid p -> registry (a_top a) L ->
  flushLockedBalanceMap p ctw h a = (Ok (collect (a_top a) L ∅), set_top a (flushed (a_top a) L)).
Proof.
  intros Hpid HR. pose proof HR as [Hnd Hok Hs Hc Hr Hn].
  unfold flushLockedBalanceMap. unfold bind at 1, w_ProcessData. rewrite Hpid.
  change (op_ProcessData (vault_pid p) (toLockedBalanceCountKey h) a) with (@Ok bytes (f_pd (a_top a) (cnt_key p h)), a).
  cbn iota beta. rewrite Hc. destruct L as [|x L]; [by destruct a|].
  destruct (Uint32ToBytes _) eqn:Eu; [by apply Uint32ToBytes_ne in Eu|]. rewrite <- Eu.
  rewrite BytesToUint32_roundtrip by lia. unfold bind, lift. cbn iota beta. rewrite Nat2Z.id.
  rewrite (abs_flush_loop ctw (x :: L) Hpid (a_top a) 0 ∅ a) by (done || lia).
  unfold w_SetProcessData, ret. rewrite Hpid. done.
Qed.

Lemma lookup_collect f L m addr : NoDup L ->
  collect f L m !! addr = if decide (addr ∈ L) then Some (locked f addr) else m !! addr.
Proof.
  revert m. induction L as [|x L IH]; intros m Hnd; [by rewrite decide_False by apply not_elem_of_nil|].
  inversion_clear Hnd as [|? ? Hx Hnd']. simpl. rewrite IH by done. rewrite lookup_insert_dec.
  destruct (decide (addr ∈ L)) as [Hi|Hi].
  - rewrite decide_True; [done|]. by right.
  - destruct (decide (addr = x)) as [->|Hne]; [rewrite decide_True; [done|by left]|].
    rewrite decide_False; [done|]. intros [->|?]%elem_of_cons; done.
Qed.

(** Keys that are not of the registry are left alone, and the registry is gone. *)
Lemma pd_clear_entries f i L k :
  f_pd (clear_entries f i L) k = f_pd f k \/ f_pd (clear_entries f i L) k = [].
Proof.
  revert f i. induction L as [|x L IH]; intros f i; [by left|]. simpl.
  destruct (IH (clear_entry f i x) (i + 1)) as [-> | ->]; [|by right].
  unfold clear_entry. rewrite !pd_put. repeat (destruct (decide _); [by right|]). by left.
Qed.

Lemma pd_clear_nil f i L k : f_pd f k = [] -> f_pd (clear_entries f i L) k = [].
Proof. intros Hk. by destruct (pd_clear_entries f i L k) as [-> | ->]. Qed.

Lemma clear_entries_gone f i L addr : addr ∈ L ->
  f_pd (clear_entries f i L) (lk_key p h addr) = [] /\ f_pd (clear_entries f i L) (num_key p h addr) = [].
Proof.
  revert f i. induction L as [|x L IH]; intros f i Hin; [by apply elem_of_nil in Hin|]. simpl.
  apply elem_of_cons in Hin as [->|Hin]; [|by apply IH].
  split; apply pd_clear_nil; unfold clear_entry; rewrite !pd_put; repeat destr_match; done.
Qed.

Lemma flushed_registry f L : registry f L -> registry (flushed f L) [].
Proof.
  intros [Hnd Hok Hs Hc Hr Hn]. split; try done.
  - apply NoDup_nil_2.
  - unfold flushed. destruct L; [done|]. by rewrite pd_put, decide_True.
  - intros addr Ha. split; [|by intros ?%elem_of_nil]. intros Hne. destruct Hne.
    destruct (decide (addr ∈ L)) as [Hin|Hout].
    + unfold flushed. destruct L as [|x L]; [by apply elem_of_nil in Hin|]. rewrite pd_put, decide_False by key_ne.
      by apply clear_entries_gone.
    + assert (Hz : f_pd f (num_key p h addr) = []).
      { destruct (f_pd f (num_key p h addr)) eqn:E; [done|]. destruct Hout. apply Hn; [done|]. by rewrite E. }
      unfold flushed. destruct L as [|x L]; [done|]. rewrite pd_put, decide_False by key_ne. by apply pd_clear_nil.
Qed.

(** *** Releasing *)

Definition owed (f : Frame) (es : list (Address * Amount)) (x : Address) : Amount :=
  match f_hasacc f x with
  | Ok true => fold_right Z.add 0 (snd <$> base.filter (fun e => e.1 = x) es)
  | _ => 0
  end.

Lemma sum_key_ne addr x : sum_key p addr <> balance_key p x.
Proof.
  unfold sum_key, balance_key, account_data_key. rewrite !(assoc_L (++)). intros E.
  apply app_inj_2 in E as [_ E]; [discriminate | done].
Qed.

Lemma bal_put_sum f addr v x : bal p (put_ad f (sum_key p addr) v) x = bal p f x.
Proof. unfold bal, put_ad, frame_set_ad. cbn [f_ad]. rewrite upd_ne; [done|]. intros E. by eapply sum_key_ne. Qed.

Lemma set_top_set_top a f g : set_top (set_top a f) g = set_top a g.
Proof. done. Qed.

Lemma abs_release ctw addr am a b : cw_pid ctw = vault_pid p ->
  f_hasacc (a_top a) addr = Ok b -> 0 <= am ->
  exists f', release_locked p ctw addr am a = (Ok tt, set_top a f') /\
    f_pd f' = f_pd (a_top a) /\ f_hasacc f' = f_hasacc (a_top a) /\
    forall x, bal p f' x = if b then if decide (x = addr) then Z.abs (bal p (a_top a) addr + am) else bal p (a_top a) x
                           else bal p (a_top a) x.
Proof.
  intros Hpid Hb Ham. unfold release_locked. unfold bind at 1, attempt.
  change (op_HasAccount addr a) with (f_hasacc (a_top a) addr, a). rewrite Hb. cbn iota beta.
  destruct b.
  - unfold bind. rewrite abs_AddBalance, (proj2 (Z.ltb_ge _ _)) by done.
    set (f1 := set_bal p (a_top a) addr (bal p (a_top a) addr + am)).
    change (TotalLockedBalanceByAddress p addr (set_top a f1))
      with (@Ok Amount (amount_of (f_ad f1 (sum_key p addr))), set_top a f1). cbn iota beta.
    destruct (negb _); rewrite abs_w_SetAccountData, set_top_set_top, Hpid;
      (eexists; split; [reflexivity|]; split_and!; [done|done|]; intros x; etrans; [apply (bal_put_sum _ addr) | apply bal_set_bal]).
  - rewrite abs_w_SetAccountData, Hpid. eexists. split; [reflexivity|]. split_and!; [done|done|].
    intros x. apply (bal_put_sum _ addr).
Qed.

Lemma owed_cons f addr am es x : owed f ((addr, am) :: es) x =
  (if decide (addr = x) then match f_hasacc f x with Ok true => am | _ => 0 end else 0) + owed f es x.
Proof.
  unfold owed. rewrite filter_cons. simpl. destruct (decide (addr = x)); destruct (f_hasacc f x) as [[]|?|?]; csimpl; lia.
Qed.

Lemma owed_ext f f' es x : f_hasacc f' = f_hasacc f -> owed f' es x = owed f es x.
Proof. unfold owed. by intros ->. Qed.

Lemma owed_nonneg f es x : Forall (fun e => 0 <= e.2) es -> 0 <= owed f es x.
Proof.
  intros H. unfold owed. destruct (f_hasacc f x) as [[]|?|?]; try done.
  induction H as [|e es He _ IH]; [done|]. rewrite filter_cons. destruct (decide _); [csimpl; lia | done].
Qed.

Lemma abs_release_all ctw es : cw_pid ctw = vault_pid p -> Forall (fun e => 0 <= e.2) es -> forall a,
  (forall e, e ∈ es -> exists b, f_hasacc (a_top a) e.1 = Ok b) -> (forall x, 0 <= bal p (a_top a) x) ->
  exists f', for_each es (fun '(addr, am) => release_locked p ctw addr am) a = (Ok tt, set_top a f') /\
    f_pd f' = f_pd (a_top a) /\ forall x, bal p f' x = bal p (a_top a) x + owed (a_top a) es x.
Proof.
  intros Hpid. induction 1 as [|[addr am] es Ham Hes IH]; intros a Hacc Hbal.
  - exists (a_top a). split; [by destruct a|]. split; [done|]. intros x. unfold owed. destruct (f_hasacc _ _) as [[]|?|?]; simpl; lia.
  - destruct (Hacc (addr, am)) as [b Hb]; [by left|]. simpl in Hb, Ham.
    destruct (abs_release ctw addr am a b Hpid Hb Ham) as (f1 & E1 & Hpd & Hha & Hb1).
    cbn [for_each]. unfold bind. rewrite E1.
    destruct (IH (set_top a f1)) as (f2 & E2 & Hpd2 & Hb2).
    + intros e He. cbn [a_top set_top]. rewrite Hha. apply Hacc. by right.
    + intros x. cbn [a_top set_top]. rewrite Hb1. destruct b; [|done]. destruct (decide _); [lia|done].
    + exists f2. split; [exact E2|]. split; [by rewrite Hpd2|]. intros x. rewrite Hb2. cbn [a_top set_top].
      rewrite (owed_ext (a_top a)) by done. rewrite owed_cons, Hb1.
      destruct (decide (addr = x)) as [->|Hn].
      * rewrite Hb. destruct b; [|lia]. rewrite decide_True by done. specialize (Hbal x). lia.
      * destruct b; [|lia]. rewrite decide_False by done. lia.
Qed.
End Registry.

Lemma owed_lookup f es x v : NoDup es.*1 -> (x, v) ∈ es -> f_hasacc f x = Ok true -> owed f es x = v.
Proof.
  intros Hnd Hin Hx. induction es as [|[y w] es IH]; [by apply elem_of_nil in Hin|].
  rewrite owed_cons, Hx. csimpl in *. inversion_clear Hnd as [|? ? Hy Hnd']. apply elem_of_cons in Hin as [[= <- <-]|Hin].
  - rewrite decide_True by done. unfold owed. rewrite Hx.
    assert (Hf : base.filter (fun e : Address * Amount => e.1 = x) es = []).
    { destruct (base.filter _ es) as [|e l] eqn:E; [done|]. destruct Hy.
      assert (He : e ∈ base.filter (fun e : Address * Amount => e.1 = x) es) by (rewrite E; by left).
      apply list_elem_of_filter in He as [<- He]. by apply list_elem_of_fmap_2. }
    rewrite Hf. simpl. lia.
  - rewrite IH by done. rewrite decide_False; [lia|]. intros ->. apply Hy.
    by apply (list_elem_of_fmap_2 fst es (x, v)).
Qed.

Lemma owed_absent f es x : x ∉ es.*1 -> owed f es x = 0.
Proof.
  intros Hx. induction es as [|[y w] es IH]; [unfold owed; by destruct (f_hasacc f x) as [[]|?|?]|].
  csimpl in *. apply not_elem_of_cons in Hx as [Hn Hx]. rewrite owed_cons, IH, decide_False by done. done.
Qed.

Lemma owed_no_account f es x : f_hasacc f x <> Ok true -> owed f es x = 0.
Proof. intros Hx. unfold owed. by destruct (f_hasacc f x) as [[]|?|?]. Qed.

(** What the context shows of the registry. *)
Definition locked_of (p : Vault) (ctx : Context_) (h : Z) (addr : Address) : Amount :=
  amount_of (seen_pd ctx (vault_pid p) (toLockedBalanceKey h addr)).
Definition locked_registry (p : Vault) (ctx : Context_) (h : Z) (L : list Address) : Prop :=
  registry p h (a_top (abs ctx)) L.
Definition has_account (ctx : Context_) (addr : Address) : res bool := f_hasacc (a_top (abs ctx)) addr.

Section LockedTheorems.
Context `{B58 : Base58} (p : Vault).

(** Locking an amount adds it to what the address already has locked to
    that height, lists the address if it was not, leaves the other addresses'
    amounts alone and keeps the registry of the height consistent. *)
Lemma AddLockedBalance_accumulates (ctx : Context_) (ctw : ContextWrapper) (addr : Address) (h : Z) (am : Amount)
    (L : list Address) :
  ctx_ok ctx -> locked_registry p ctx h L -> Z.of_nat (length L) + 1 < 2 ^ 32 ->
  address_ok addr -> 0 <= am -> 0 <= locked_of p ctx h addr ->
  exists ctx', AddLockedBalance p ctw addr h am ctx = (Ok tt, ctx') /\ ctx_ok ctx' /\
    locked_registry p ctx' h (if decide (addr ∈ L) then L else L ++ [addr]) /\
    locked_of p ctx' h addr = locked_of p ctx h addr + am /\
    forall x, address_ok x -> x <> addr -> locked_of p ctx' h x = locked_of p ctx h x.
Proof.
  intros Hc HR Hs Ha Ham Hl. pose proof (abs_AddLockedBalance p h ctw addr am (abs ctx) L HR Ha Ham) as E.
  destruct (sim_run _ _ ctx _ _ (sim_AddLockedBalance p ctw addr h am) Hc E) as (ctx' & E' & Hok & Ea); [done|].
  exists ctx'. split; [done|]. split; [done|].
  assert (Hlk : forall x, locked_of p ctx' h x = locked p h (a_top (abs ctx')) x) by done.
  unfold locked_registry. setoid_rewrite Hlk. rewrite Ea. cbn [a_top set_top]. split; [|split].
  - apply lock_registry. destruct (decide (addr ∈ L)); [done|]. by apply enlist_registry.
  - rewrite locked_lock, decide_True by done. destruct (decide (addr ∈ L)); rewrite ?locked_enlist;
      change (locked p h (a_top (abs ctx)) addr) with (locked_of p ctx h addr); lia.
  - intros x Hx Hn. rewrite locked_lock, decide_False by done. by destruct (decide (addr ∈ L)); rewrite ?locked_enlist.
Qed.

(** C36. At its height the registry is paid out: every listed address that is an
    account gets exactly its locked amount, nobody else's balance changes, and
    the registry is empty afterwards; the order of the payments is any order of
    the map's entries.  For every listed address [HasAccount] is taken to answer: the
    block has not deleted the account.  No balance or locked amount is negative. *)
Theorem locked_balances_are_released (ctx : Context_) (ctw : ContextWrapper) (h : Z) (L : list Address)
    (range : gmap Address Amount -> list (Address * Amount)) :
  ctx_ok ctx -> cw_pid ctw = vault_pid p -> locked_registry p ctx h L ->
  (forall m, range m ≡ₚ map_to_list m) ->
  (forall addr, addr ∈ L -> exists b, has_account ctx addr = Ok b) ->
  (forall addr, 0 <= locked_of p ctx h addr) -> (forall addr, 0 <= balance_of p ctx addr) ->
  exists ctx', vault_AfterExecuteTransactions p range h ctw ctx = (Ok tt, ctx') /\ ctx_ok ctx' /\
    locked_registry p ctx' h [] /\
    forall addr, balance_of p ctx' addr = balance_of p ctx addr +
      (if decide (addr ∈ L /\ has_account ctx addr = Ok true) then locked_of p ctx h addr else 0).
Proof.
  intros Hc Hpid HR Hrange Hacc Hlk Hbal. pose proof HR as [Hnd _ _ _ _ _].
  set (f := a_top (abs ctx)). set (m := collect p h f L ∅).
  pose proof (abs_flush p h ctw (abs ctx) L Hpid HR) as E1. fold f m in E1.
  assert (Hm : forall addr v, m !! addr = Some v <-> addr ∈ L /\ v = locked_of p ctx h addr).
  { intros addr v. unfold m. rewrite lookup_collect by done. destruct (decide (addr ∈ L)).
    - split; [by intros [= <-] | intros [_ ->]; done].
    - rewrite lookup_empty. naive_solver. }
  assert (Hhas : forall f', f_hasacc (flushed p h f' L) = f_hasacc f').
  { intros f'. unfold flushed. destruct L as [|y L']; [done|]. cbn [put_pd frame_set_pd f_hasacc].
    generalize 0. generalize (y :: L'). clear. intros l. revert f'. induction l as [|z l IH]; intros f' i; [done|].
    cbn [clear_entries]. by rewrite IH. }
  assert (Had : forall x, bal p (flushed p h f L) x = bal p f x).
  { intros x. unfold flushed. destruct L as [|y L']; [done|]. unfold bal. cbn [put_pd frame_set_pd f_ad].
    assert (Hz : forall l f' i, f_ad (clear_entries p h f' i l) = f_ad f')
      by (induction l as [|z l IH]; intros f' i; [done|]; cbn [clear_entries]; by rewrite IH).
    by rewrite Hz. }
  set (a1 := set_top (abs ctx) (flushed p h f L)) in *.
  assert (Hin : forall e, e ∈ range m -> m !! e.1 = Some e.2).
  { intros [x v]. rewrite (Hrange m). apply elem_of_map_to_list. }
  destruct (abs_release_all p ctw (range m) Hpid ltac:(apply Forall_forall; intros e He; apply Hin, Hm in He as [_ ->]; apply Hlk) a1)
    as (f2 & E2 & Hpd & Hb2).
  { intros e He. apply Hin, Hm in He as [He _]. unfold a1. cbn [a_top set_top]. rewrite Hhas. by apply Hacc. }
  { intros x. unfold a1. cbn [a_top set_top]. rewrite Had. apply Hbal. }
  assert (E : vault_AfterExecuteTransactions p range h ctw (abs ctx) = (Ok tt, set_top (abs ctx) f2)).
  { unfold vault_AfterExecuteTransactions, bind. rewrite E1. exact E2. }
  destruct (sim_run _ _ ctx _ _ (sim_vault_After p range h ctw) Hc E) as (ctx' & E' & Hok & Ea); [done|].
  exists ctx'. split; [done|]. split; [done|]. split.
  - unfold locked_registry. rewrite Ea. cbn [a_top set_top].
    pose proof (flushed_registry p h f L HR) as [R1 R2 R3 R4 R5 R6]. split; try done; rewrite Hpd; done.
  - intros addr. change (balance_of p ctx' addr) with (bal p (a_top (abs ctx')) addr). rewrite Ea. cbn [a_top set_top].
    rewrite Hb2. unfold a1. cbn [a_top set_top]. rewrite Had. f_equal. rewrite (owed_ext f) by apply Hhas.
    assert (Hks : NoDup (range m).*1) by (rewrite (Hrange m); apply NoDup_fst_map_to_list).
    destruct (decide _) as [[Hi Ht]|Hno].
    + apply owed_lookup; [done| |done]. rewrite (Hrange m). apply elem_of_map_to_list, Hm. done.
    + destruct (decide (addr ∈ L)) as [Hi|Hi]; [apply owed_no_account; intros Ht; by apply Hno|].
      apply owed_absent. rewrite (Hrange m). intros ([x v] & -> & Hx%elem_of_map_to_list)%list_elem_of_fmap.
      apply Hm in Hx as [? _]. done.
Qed.
End LockedTheorems.

(** *** Examples *)

(** All data in the layers is made of bytes; so amounts read from it are not negative. *)
Definition bytes_okb (bs : bytes) : bool := forallb (fun b => (0 <=? b) && (b <? 256)) bs.
Definition map_okb (m : gmap bytes bytes) : bool := forallb (fun kv => bytes_okb kv.2) (map_to_list m).
Definition data_okb (cs : list ContextData) : bool :=
  forallb (fun c => map_okb (AccountDataMap c) && map_okb (ProcessDataMap c)) cs.

Lemma bytes_okb_ok bs : bytes_okb bs = true -> bytes_ok bs.
Proof.
  intros H. apply Forall_forall. intros b Hb. unfold bytes_okb in H. rewrite forallb_forall in H.
  apply list_elem_of_In, H in Hb. bool_to_prop. unfold byte_ok. lia.
Qed.

Lemma map_okb_lookup m k v : map_okb m = true -> m !! k = Some v -> bytes_ok v.
Proof.
  intros H Hk. unfold map_okb in H. rewrite forallb_forall in H. apply bytes_okb_ok.
  apply (H (k, v)). by apply list_elem_of_In, elem_of_map_to_list.
Qed.

Lemma data_okb_nonneg ctx : data_okb (stack ctx) = true -> loader ctx = emptyLoader ->
  (forall k, 0 <= amount_of (f_ad (a_top (abs ctx)) k)) /\ (forall k, 0 <= amount_of (f_pd (a_top (abs ctx)) k)).
Proof.
  intros H Hld. unfold abs. simpl. rewrite Hld. unfold data_okb in H. induction (stack ctx) as [|c cs IH]; [done|].
  simpl in H |- *. bool_to_prop. destruct (IH ltac:(done)) as [IH1 IH2]. split; intros k.
  - unfold accdata_hit at 1. destruct (has _ k); [done|]. destruct (AccountDataMap c !! k) eqn:E; [|apply IH1].
    apply amount_of_nonneg. by apply (map_okb_lookup (AccountDataMap c) k).
  - unfold procdata_hit at 1. destruct (has _ k); [done|]. destruct (ProcessDataMap c !! k) eqn:E; [|apply IH2].
    apply amount_of_nonneg. by apply (map_okb_lookup (ProcessDataMap c) k).
Qed.

Lemma empty_registry p h : registry p h (a_top (abs NewEmptyContext)) [].
Proof.
  split; [apply NoDup_nil_2 | done | done | done | done |]. intros addr _. split; [done | by intros ?%elem_of_nil].
Qed.

Definition ex_acc : Account := ASingle (mkSingle (NewAddress 0 1 0) (str "alice") (replicate 31 0)).
Definition ex_owner : Address := acc_Address ex_acc.
Definition ex_lock : ctxM unit :=
  CreateAccount ex_acc ;;; AddLockedBalance ex_vault ex_ctw ex_owner 9 COIN.
Definition ex_locked : Context_ := snd (ex_lock NewEmptyContext).

Lemma ex_locked_ok : ctx_ok ex_locked.
Proof.
  eapply sim_ok; [|apply NewEmptyContext_ok|by vm_compute]. unfold ex_lock.
  apply sim_bind; [by apply sim_CreateAccount | intros; apply sim_AddLockedBalance].
Qed.

Lemma ex_locked_registry : locked_registry ex_vault ex_locked 9 [ex_owner].
Proof.
  assert (Hs : simulates ex_lock (abs_CreateAccount ex_acc ;;; AddLockedBalance ex_vault ex_ctw ex_owner 9 COIN)).
  { apply sim_bind; [by apply sim_CreateAccount | intros; apply sim_AddLockedBalance]. }
  assert (Ha : address_ok ex_owner) by apply NewAddress_ok.
  set (a1 := set_top (abs NewEmptyContext) (frame_create (a_top (abs NewEmptyContext)) ex_acc)).
  assert (Hr : registry ex_vault 9 (a_top a1) []) by (by destruct (empty_registry ex_vault 9)).
  destruct (sim_run _ _ NewEmptyContext (Ok tt)
    (set_top a1 (lock ex_vault 9 (enlist ex_vault 9 (a_top a1) ex_owner 0) ex_owner COIN)) Hs NewEmptyContext_ok)
    as (ctx' & E & _ & Ea); [|done|].
  - unfold bind. change (abs_CreateAccount ex_acc (abs NewEmptyContext)) with (@Ok unit tt, a1). cbn iota beta.
    rewrite (abs_AddLockedBalance ex_vault 9 ex_ctw ex_owner COIN a1 [] Hr Ha) by done.
    rewrite decide_False by apply not_elem_of_nil. done.
  - unfold locked_registry, ex_locked. rewrite E. cbn [snd]. rewrite Ea. cbn [a_top set_top].
    apply lock_registry. apply (enlist_registry ex_vault 9 _ ex_owner []); [done|done|apply not_elem_of_nil|done].
Qed.

Lemma AddLockedBalance_accumulates_witness :
  exists ctx', AddLockedBalance ex_vault ex_ctw ex_owner 9 COIN ex_locked = (Ok tt, ctx') /\ ctx_ok ctx' /\
    locked_registry ex_vault ctx' 9 (if decide (ex_owner ∈ [ex_owner]) then [ex_owner] else [ex_owner] ++ [ex_owner]) /\
    locked_of ex_vault ctx' 9 ex_owner = locked_of ex_vault ex_locked 9 ex_owner + COIN /\
    forall x, address_ok x -> x <> ex_owner -> locked_of ex_vault ctx' 9 x = locked_of ex_vault ex_locked 9 x.
Proof.
  apply (AddLockedBalance_accumulates ex_vault ex_locked ex_ctw ex_owner 9 COIN [ex_owner]);
    [apply ex_locked_ok | apply ex_locked_registry | done | apply NewAddress_ok | done | by vm_compute].
Defined.

Lemma locked_balances_are_released_witness :
  exists ctx', vault_AfterExecuteTransactions ex_vault map_to_list 9 ex_ctw ex_locked = (Ok tt, ctx') /\ ctx_ok ctx' /\
    locked_registry ex_vault ctx' 9 [] /\
    forall addr, balance_of ex_vault ctx' addr = balance_of ex_vault ex_locked addr +
      (if decide (addr ∈ [ex_owner] /\ has_account ex_locked addr = Ok true) then locked_of ex_vault ex_locked 9 addr else 0).
Proof.
  destruct (data_okb_nonneg ex_locked) as [Had Hpd]; [by vm_compute | done |].
  apply (locked_balances_are_released ex_vault ex_locked ex_ctw 9 [ex_owner] map_to_list);
    [apply ex_locked_ok | done | apply ex_locked_registry | done | | intros; apply Hpd | intros; apply Had].
  intros addr ->%list_elem_of_singleton. exists true. by vm_compute.
Defined.
