(* ===== verification/Chain.v ===== *)
(** * The chain

    [core/chain/chain.go], [block_creator.go], [account_transaction.go] and the
    transaction hashes of [util.go]: the registry of processes, the checks of a
    block header, the execution of a block on a context and the creation of one.

    Processes and transactions are the interfaces [types.Process] and
    [types.Transaction]: their methods run on any implementation of the context.
    The store is its [types.Provider] view and its [StoreBlock]. *)

From stdpp Require Import base gmap list sorting strings.
From Stdlib Require Import ZArith Lia.
From S2P Require Import Prelude Amount Common LevelRoot Types Context ContextSpec.

Definition cherr (m : string) : error := mkError "chain" m.
Definition ErrInvalidChainID := cherr "invalid chain id".
Definition ErrInvalidVersion := cherr "invalid version".
Definition ErrInvalidHeight := cherr "invalid height".
Definition ErrInvalidPrevHash := cherr "invalid prev hash".
Definition ErrInvalidContextHash := cherr "invalid context hash".
Definition ErrInvalidLevelRootHash := cherr "invalid level root hash".
Definition ErrInvalidTimestamp := cherr "invalid timestamp".
Definition ErrInvalidGenerator := cherr "invalid generator".
Definition ErrInvalidResult := cherr "invalid result".
Definition ErrChainClosed := cherr "chain closed".
Definition ErrDirtyContext := cherr "dirty context".
Definition ErrCannotDeleteGeneratorAccount := cherr "cannot delete generator account".
Definition ErrNotExistService := cherr "not exist service".

(** ** Blocks *)

Abbreviation Signature := bytes.

Record Header := mkHeader {
  h_ChainID : Z; h_Version : Z; h_Height : Z; h_PrevHash : Hash256; h_LevelRootHash : Hash256;
  h_ContextHash : Hash256; h_Timestamp : Z; h_Generator : Address; h_ConsensusData : bytes
}.

Record Block (Tx : Type) := mkBlock {
  b_Header : Header;
  b_TransactionTypes : list Z;
  b_Transactions : list Tx;
  b_TransactionSignatures : list (list Signature);
  b_TransactionResults : list Z;
  b_Signatures : list Signature
}.
Arguments mkBlock {Tx}. Arguments b_Header {Tx}. Arguments b_TransactionTypes {Tx}. Arguments b_Transactions {Tx}.
Arguments b_TransactionSignatures {Tx}. Arguments b_TransactionResults {Tx}. Arguments b_Signatures {Tx}.

(** ** The interfaces of the processes and the transactions *)

(** [types.Process], as the chain uses it. *)
Class ProcessI (Proc Tx : Type) := {
  p_ID : Proc -> Z;
  p_Name : Proc -> bytes;
  p_BeforeExecuteTransactions : forall {S} `{!ContextOps S}, Proc -> ContextWrapper -> ST S unit;
  p_AfterExecuteTransactions : forall {S} `{!ContextOps S}, Proc -> Block Tx -> ContextWrapper -> ST S unit;
  p_OnSaveData : forall {S} `{!ContextOps S}, Proc -> Block Tx -> ContextWrapper -> ST S unit
}.

(** [types.Transaction]; [tx_account] is the dynamic test for [AccountTransaction]:
    its sequence and its sender. *)
Class TransactionI (Proc Tx : Type) := {
  tx_Validate : forall {S} `{!ContextOps S}, Tx -> Proc -> ContextWrapper -> list PublicHash -> ST S unit;
  tx_Execute : forall {S} `{!ContextOps S}, Tx -> Proc -> ContextWrapper -> Z -> ST S unit;
  tx_account : Tx -> option (Z * Address)
}.

(** The encoders [HashTransactionByType] calls. *)
Class TxEncoder (Tx : Type) := { enc_uint8 : Z -> bytes; enc_uint16 : Z -> bytes; enc_tx : Tx -> bytes }.

(** [types.Provider] of the store. *)
Record Provider := mkProvider {
  pv_ChainID : Z;
  pv_Version : Z;
  pv_LastStatus : Z * Hash256 * Z;
  pv_Header : Z -> res Header;
  pv_Loader : Loader
}.

(** [Consensus], as [ConnectBlock] uses it. *)
Record Consensus (Tx : Type) := mkConsensus {
  cs_ValidateSignature : Header -> list Signature -> res unit;
  cs_OnSaveData : forall {S} `{!ContextOps S}, Block Tx -> ContextWrapper -> ST S unit
}.
Arguments cs_ValidateSignature {Tx}. Arguments cs_OnSaveData {Tx} _ {S _}.

Record Chain (Proc Tx : Type) := mkChain {
  cn_isInit : bool;
  cn_store : Provider;
  cn_consensus : Consensus Tx;
  cn_app : Proc;
  cn_processes : list Proc;
  cn_processIDMap : gmap bytes Z;
  cn_processIndexMap : gmap Z nat;
  cn_services : list bytes;
  cn_serviceMap : gmap bytes bytes;
  cn_isClose : bool
}.
Arguments mkChain {Proc Tx}. Arguments cn_isInit {Proc Tx}. Arguments cn_store {Proc Tx}. Arguments cn_consensus {Proc Tx}.
Arguments cn_app {Proc Tx}. Arguments cn_processes {Proc Tx}. Arguments cn_processIDMap {Proc Tx}.
Arguments cn_processIndexMap {Proc Tx}. Arguments cn_services {Proc Tx}. Arguments cn_serviceMap {Proc Tx}.
Arguments cn_isClose {Proc Tx}.

(** ** Registration *)

Section Registration.
Context {Proc Tx : Type} `{!ProcessI Proc Tx}.

Definition NewChain (consensus : Consensus Tx) (app : Proc) (store : Provider) : res (Chain Proc Tx) :=
  if negb (p_ID app =? 255) then Panic "application id must be 255"
  else Ok (mkChain false store consensus app [] ∅ ∅ [] ∅ false).

Definition Process (cn : Chain Proc Tx) (id : Z) : res Proc :=
  if id =? 255 then Ok (cn_app cn)
  else match cn_processIndexMap cn !! id with
       | None => Err ErrNotExistProcess
       | Some idx => match cn_processes cn !! idx with
                     | Some p => Ok p
                     | None => Panic "index out of range"
                     end
       end.

Definition ProcessByName (cn : Chain Proc Tx) (name : bytes) : res Proc :=
  match cn_processIDMap cn !! name with
  | None => Err ErrNotExistProcess
  | Some id => match cn_processIndexMap cn !! id with
               | None => Err ErrNotExistProcess
               | Some idx => match cn_processes cn !! idx with
                             | Some p => Ok p
                             | None => Panic "index out of range"
                             end
               end
  end.

Definition MustAddProcess (cn : Chain Proc Tx) (p : Proc) : res (Chain Proc Tx) :=
  if cn_isInit cn then Panic "add before chain init"
  else if (p_ID p =? 0) || (p_ID p =? 255) then Panic "reserved id"
  else if has (cn_processIDMap cn) (p_Name p) then Panic "exist process name"
  else if has (cn_processIndexMap cn) (p_ID p) then Panic "exist process id"
  else
    let idx := length (cn_processes cn) in
    Ok (mkChain (cn_isInit cn) (cn_store cn) (cn_consensus cn) (cn_app cn) (cn_processes cn ++ [p])
          (<[p_Name p := p_ID p]> (cn_processIDMap cn)) (<[p_ID p := idx]> (cn_processIndexMap cn))
          (cn_services cn) (cn_serviceMap cn) (cn_isClose cn)).

Definition ServiceByName (cn : Chain Proc Tx) (name : bytes) : res bytes :=
  match cn_serviceMap cn !! name with
  | None => Err ErrNotExistService
  | Some s => Ok s
  end.

(** A service is its name. *)
Definition MustAddService (cn : Chain Proc Tx) (s : bytes) : res (Chain Proc Tx) :=
  if cn_isInit cn then Panic "add before chain init"
  else if has (cn_serviceMap cn) s then Panic "exist service name"
  else Ok (mkChain (cn_isInit cn) (cn_store cn) (cn_consensus cn) (cn_app cn) (cn_processes cn)
             (cn_processIDMap cn) (cn_processIndexMap cn) (cn_services cn ++ [s]) (<[s := s]> (cn_serviceMap cn)) (cn_isClose cn)).

(** [IDMap := map[int]uint8{}; for id, idx := range cn.processIndexMap { IDMap[idx] = id }]. *)
Definition IDMap (cn : Chain Proc Tx) : gmap nat Z :=
  map_fold (fun id idx m => <[idx := id]> m) ∅ (cn_processIndexMap cn).
Definition IDMap_at (cn : Chain Proc Tx) (i : nat) : Z := default 0 (IDMap cn !! i).
End Registration.

(** ** Headers *)

Definition validateHeader (provider : Provider) (bh : Header) : res unit :=
  let '(height, lastHash, lastTimestamp) := pv_LastStatus provider in
  if negb (h_ChainID bh =? pv_ChainID provider) then Err ErrInvalidChainID
  else if pv_Version provider <? h_Version bh then Err ErrInvalidVersion
  else if negb (bool_decide (h_PrevHash bh = lastHash)) then Err ErrInvalidPrevHash
  else if h_Timestamp bh <=? lastTimestamp then Err ErrInvalidTimestamp
  else if bool_decide (h_Generator bh = NewAddress 0 0 0) then Err ErrInvalidGenerator
  else if negb (h_Height bh =? u32 (height + 1)) then Err ErrInvalidHeight
  else if h_Height bh =? 1 then
    if h_Version bh <=? 0 then Err ErrInvalidVersion else Ok tt
  else
    let? TargetHeader := pv_Header provider height in
    if h_Version bh <? h_Version TargetHeader then Err ErrInvalidVersion
    else if negb (h_ChainID bh =? h_ChainID TargetHeader) then Err ErrInvalidChainID
    else Ok tt.

(** ** Signatures of the transactions *)

Section Signatures.
Context {Proc Tx : Type} `{!TxEncoder Tx} `{Sha256} `{Ecrecover}.

Definition HashTransactionByType (ChainID t : Z) (tx : Tx) : Hash256 :=
  Hash (enc_uint8 ChainID ++ enc_uint16 t ++ enc_tx tx).

(** [txUnit]: the length of the part of the transactions one goroutine checks. *)
Definition txUnit (n cpuCnt : nat) : nat := (n / cpuCnt + (if n mod cpuCnt =? 0 then 0 else 1))%nat.

(** The number of goroutines, on a machine of [NumCPU] processors. *)
Definition cpuCount (NumCPU n : nat) : nat := if (n <? 1000)%nat then 1%nat else (NumCPU * 2)%nat.

(** [b.Transactions[i*txUnit:lastCnt]]: the slice of goroutine [i]; Go panics when
    its start is beyond its end. *)
Definition tx_slice (n cpuCnt i : nat) : res (nat * nat) :=
  let unit := txUnit n cpuCnt in
  let lastCnt := Nat.min ((i + 1) * unit) n in
  if (lastCnt <? i * unit)%nat then Panic "slice bounds out of range" else Ok (i * unit, lastCnt)%nat.

Fixpoint tx_slices (n cpuCnt : nat) (i k : nat) : res (list (nat * nat)) :=
  match k with
  | O => Ok []
  | S k => let? s := tx_slice n cpuCnt i in
           let? ss := tx_slices n cpuCnt (i + 1) k in
           Ok (s :: ss)
  end.

Fixpoint recover_all (TxHash : Hash256) (sigs : list Signature) : res (list PublicHash) :=
  match sigs with
  | [] => Ok []
  | sig :: sigs =>
      let? pubkey := recover TxHash sig in
      let? rest := recover_all TxHash sigs in
      Ok (NewPublicHash pubkey :: rest)
  end.

(** What the goroutines share: the arrays [TxHashes] and [TxSigners], the channel
    [errs], and for each goroutine its next transaction and the end of its slice. *)
Record SigCheck := mkSigCheck {
  sc_TxHashes : list Hash256;
  sc_TxSigners : list (list PublicHash);
  sc_errs : list error;
  sc_work : list (nat * nat)
}.

(** [for k, sig := range sigs]: the signers found are written to the row; the first
    error ends the goroutine. *)
Fixpoint recover_row (TxHash : Hash256) (row : list PublicHash) (k : nat) (sigs : list Signature)
    : res (list PublicHash * option error) :=
  match sigs with
  | [] => Ok (row, None)
  | sig :: sigs =>
      match recover TxHash sig with
      | Ok pubkey => recover_row TxHash (<[k := NewPublicHash pubkey]> row) (k + 1) sigs
      | Err e => Ok (row, Some e)
      | Panic w => Panic w
      end
  end.

(** A turn of goroutine [i]: one transaction.  An error is sent to the channel and
    the goroutine returns; a panic ends the node. *)
Definition goroutine_turn (ChainID : Z) (b : Block Tx) (i : nat) (w : SigCheck) : res SigCheck :=
  match sc_work w !! i with
  | None => Ok w
  | Some (q, hi) =>
      if (hi <=? q)%nat then Ok w
      else match b_TransactionTypes b !! q, b_Transactions b !! q, b_TransactionSignatures b !! q with
      | Some t, Some tx, Some sigs =>
          let TxHash := HashTransactionByType ChainID t tx in
          let hashes := <[(q + 1)%nat := TxHash]> (sc_TxHashes w) in
          let? (row, err) := recover_row TxHash (nth q (sc_TxSigners w) []) 0 sigs in
          let signers := <[q := row]> (sc_TxSigners w) in
          match err with
          | None => Ok (mkSigCheck hashes signers (sc_errs w) (<[i := (q + 1, hi)%nat]> (sc_work w)))
          | Some e => Ok (mkSigCheck hashes signers (sc_errs w ++ [e]) (<[i := (hi, hi)]> (sc_work w)))
          end
      | _, _, _ => Panic "index out of range"
      end
  end.

Fixpoint run_turns (ChainID : Z) (b : Block Tx) (turns : list nat) (w : SigCheck) : res SigCheck :=
  match turns with
  | [] => Ok w
  | i :: turns => let? w := goroutine_turn ChainID b i w in run_turns ChainID b turns w
  end.

(** [wg.Wait()]: every goroutine gets the turns its slice needs. *)
Definition last_turns (cpuCnt unit : nat) : list nat := seq 0 cpuCnt ≫= replicate unit.

(** [turns] is the order in which the goroutines ran, which the scheduler chooses;
    whoever has work left after them runs before [wg.Wait] returns. *)
Definition validateTransactionSignatures (NumCPU : nat) (turns : list nat) (cn : Chain Proc Tx) (b : Block Tx)
    : res (list (list PublicHash)) :=
  let n := length (b_Transactions b) in
  let cpuCnt := cpuCount NumCPU n in
  if (length (b_TransactionSignatures b) <? n)%nat then Panic "index out of range"
  else
    let TxHashes := h_PrevHash (b_Header b) :: replicate n EmptyHash in
    let TxSigners := (fun sigs : list Signature => replicate (length sigs) (replicate PublicHashSize 0))
                       <$> take n (b_TransactionSignatures b) in
    let? ss := tx_slices n cpuCnt 0 cpuCnt in
    let? w := run_turns (pv_ChainID (cn_store cn)) b (turns ++ last_turns cpuCnt (txUnit n cpuCnt))
                (mkSigCheck TxHashes TxSigners [] ss) in
    match sc_errs w with
    | err :: _ => Err err
    | [] =>
        let? h := BuildLevelRoot (sc_TxHashes w) in
        if negb (bool_decide (h_LevelRootHash (b_Header b) = h)) then Err ErrInvalidLevelRootHash
        else Ok (sc_TxSigners w)
    end.
End Signatures.

(** ** Execution of a block *)

Section Execution.
Context {Proc Tx : Type} `{!ProcessI Proc Tx, !TransactionI Proc Tx}.

Section OnContext.
Context {S : Type} `{!ContextOps S}.

(** [m; if ctx.StackSize() > 1 { return ErrDirtyContext }]. *)
Definition clean (m : ST S unit) : ST S unit :=
  m ;;;
  let! sz := op_StackSize in
  guard (negb (1 <? sz)) ErrDirtyContext.

(** [for i, p := range cn.processes { p.Hook(NewContextWrapper(IDMap[i], ctx)) }],
    then the application's. *)
Definition run_hooks (cn : Chain Proc Tx) (hook : Proc -> ContextWrapper -> ST S unit) : ST S unit :=
  for_each (imap (fun i p => (i, p)) (cn_processes cn)) (fun '(i, p) =>
    clean (hook p (NewContextWrapper (IDMap_at cn i)))) ;;;
  clean (hook (cn_app cn) (NewContextWrapper 255)).

(** [if err := m; err != nil { ctw.Revert(sn); return err }]. *)
Definition or_revert {A} (sn : Z) (m : ST S A) : ST S A :=
  let! r := attempt m in
  match r with
  | inl err => op_Revert sn ;;; fail err
  | inr x => ret x
  end.

(** The test that the generator still has its account. *)
Definition check_generator (sn : Z) (Generator : Address) : ST S unit :=
  let! r := attempt (op_HasAccount Generator) in
  match r with
  | inl err =>
      op_Revert sn ;;;
      (if bool_decide (err = ErrDeletedAccount) then fail ErrCannotDeleteGeneratorAccount else fail err)
  | inr false => op_Revert sn ;;; fail ErrCannotDeleteGeneratorAccount
  | inr true => ret tt
  end.

(** The body of the loop over the transactions.  The answer says whether the
    loop goes on: on a wrong sequence the code returns the outer [err], which is
    nil, so the whole function returns without error.  [result] is the entry of
    [TransactionResults], which only an account transaction looks at. *)
Definition execute_tx (cn : Chain Proc Tx) (Generator : Address) (i : nat) (t : Z) (tx : Tx)
    (signers : list PublicHash) (result : option Z) : ST S bool :=
  let pid := u8 (Z.shiftr t 8) in
  let! p := lift (Process cn pid) in
  let ctw := NewContextWrapper pid in
  let! sn := op_Snapshot in
  or_revert sn (tx_Validate tx p ctw signers) ;;;
  let! go_on :=
    match tx_account tx with
    | Some (seq, from) =>
        let! s := op_Seq from in
        if negb (seq =? u64 (s + 1)) then op_Revert sn ;;; ret false
        else
          op_AddSeq from ;;;
          let! r := attempt (tx_Execute tx p ctw (u16 (Z.of_nat i))) in
          let Result := match r with inl _ => 0 | inr _ => 1 end in
          match result with
          | Some result => guard (Result =? result) ErrInvalidResult
          | None => throw "index out of range"
          end ;;;
          ret true
    | None =>
        or_revert sn (tx_Execute tx p ctw (u16 (Z.of_nat i))) ;;;
        ret true
    end in
  if go_on : bool then
    check_generator sn Generator ;;;
    op_Commit sn ;;;
    ret true
  else ret false.

(** The loop from transaction [i] on. *)
Fixpoint execute_txs (cn : Chain Proc Tx) (b : Block Tx) (TxSigners : list (list PublicHash)) (i : nat)
    (txs : list Tx) : ST S bool :=
  match txs with
  | [] => ret true
  | tx :: txs =>
      match TxSigners !! i, b_TransactionTypes b !! i with
      | Some signers, Some t =>
          let! go_on := execute_tx cn (h_Generator (b_Header b)) i t tx signers (b_TransactionResults b !! i) in
          if go_on : bool then execute_txs cn b TxSigners (i + 1) txs else ret false
      | _, _ => throw "index out of range"
      end
  end.

Definition executeBlock (cn : Chain Proc Tx) (b : Block Tx) (TxSigners : list (list PublicHash)) : ST S unit :=
  run_hooks cn (fun p ctw => p_BeforeExecuteTransactions p ctw) ;;;
  let! go_on := execute_txs cn b TxSigners 0 (b_Transactions b) in
  if go_on : bool then
    let! sz := op_StackSize in
    guard (negb (1 <? sz)) ErrDirtyContext ;;;
    run_hooks cn (fun p ctw => p_AfterExecuteTransactions p b ctw)
  else ret tt.

Definition executeBlockOnContext `{!TxEncoder Tx} `{Sha256} `{Ecrecover} (NumCPU : nat) (turns : list nat)
    (cn : Chain Proc Tx) (b : Block Tx) : ST S unit :=
  let! TxSigners := lift (validateTransactionSignatures NumCPU turns cn b) in
  executeBlock cn b TxSigners.
End OnContext.

(** *** Connecting a block *)

Section Connect.
Context `{!TxEncoder Tx} `{Sha256} `{Ecrecover} `{Base58}.
Context `{!Marshaler (gmap Address Z), !Marshaler (gmap Address Account), !Marshaler (gmap bytes bytes),
  !Marshaler (gmap Z UTXO), !Marshaler (gmap Z TxOut), !Marshaler Event}.
(** [cn.store.StoreBlock]: what is stored is the block and the top layer. *)
Context (StoreBlock : Block Tx -> ContextData -> res unit).

Definition connectBlockWithContext (cn : Chain Proc Tx) (b : Block Tx) : ctxM ContextData :=
  let! h := ctx_Hash in
  guard (bool_decide (h_ContextHash (b_Header b) = h)) ErrInvalidContextHash ;;;
  let! sz := StackSize in
  guard (negb (1 <? sz)) ErrDirtyContext ;;;
  run_hooks cn (fun p ctw => p_OnSaveData p b ctw) ;;;
  clean (cs_OnSaveData (cn_consensus cn) b (NewContextWrapper 0)) ;;;
  let! top := Top in
  let! _ := lift (StoreBlock b top) in
  ret top.

Definition ConnectBlock (NumCPU : nat) (turns : list nat) (cn : Chain Proc Tx) (b : Block Tx) : res ContextData :=
  if cn_isClose cn then Err ErrChainClosed
  else
    let? _ := validateHeader (cn_store cn) (b_Header b) in
    let? _ := cs_ValidateSignature (cn_consensus cn) (b_Header b) (b_Signatures b) in
    fst ((executeBlockOnContext NumCPU turns cn b ;;; connectBlockWithContext cn b)
           (NewContext (pv_Loader (cn_store cn)))).
End Connect.
End Execution.

(** ** Creation of a block *)

(** The creator's own state; its context is the state of the monad. *)
Record BlockCreator (Tx : Type) := mkCreator { bc_txHashes : list Hash256; bc_b : Block Tx }.
Arguments mkCreator {Tx}. Arguments bc_txHashes {Tx}. Arguments bc_b {Tx}.

Section Creation.
Context {Proc Tx : Type} `{!ProcessI Proc Tx, !TransactionI Proc Tx}.

Definition NewBlockCreator (ctx : Context_) (Generator : Address) (ConsensusData : bytes) : BlockCreator Tx :=
  mkCreator [genLastHash ctx]
    (mkBlock (mkHeader (ld_ChainID (loader ctx)) (ld_Version (loader ctx)) (genTargetHeight ctx) (genLastHash ctx)
                EmptyHash EmptyHash 0 Generator ConsensusData) [] [] [] [] []).

Definition append_tx (bc : BlockCreator Tx) (t : Z) (TxHash : Hash256) (tx : Tx) (sigs : list Signature) (Result : Z)
    : BlockCreator Tx :=
  let b := bc_b bc in
  mkCreator (bc_txHashes bc ++ [TxHash])
    (mkBlock (b_Header b) (b_TransactionTypes b ++ [t]) (b_Transactions b ++ [tx])
       (b_TransactionSignatures b ++ [sigs]) (b_TransactionResults b ++ [Result]) (b_Signatures b)).

Section OnContext.
Context {S : Type} `{!ContextOps S}.

Definition bc_Init (cn : Chain Proc Tx) : ST S unit :=
  run_hooks cn (fun p ctw => p_BeforeExecuteTransactions p ctw).

(** As in [execute_tx], a wrong sequence returns the outer nil [err]; the block is
    then returned unchanged, without error. *)
Definition UnsafeAddTx (cn : Chain Proc Tx) (bc : BlockCreator Tx) (Generator : Address) (t : Z) (TxHash : Hash256)
    (tx : Tx) (sigs : list Signature) (signers : list PublicHash) : ST S (BlockCreator Tx) :=
  let pid := u8 (Z.shiftr t 8) in
  let! p := lift (Process cn pid) in
  let ctw := NewContextWrapper pid in
  let index := u16 (Z.of_nat (length (b_Transactions (bc_b bc)))) in
  let! sn := op_Snapshot in
  or_revert sn (tx_Validate tx p ctw signers) ;;;
  let! outcome :=
    match tx_account tx with
    | Some (seq, from) =>
        let! s := op_Seq from in
        if negb (seq =? u64 (s + 1)) then op_Revert sn ;;; ret None
        else
          op_AddSeq from ;;;
          let! r := attempt (tx_Execute tx p ctw index) in
          ret (Some (match r with inl _ => 0 | inr _ => 1 end))
    | None =>
        or_revert sn (tx_Execute tx p ctw index) ;;;
        ret (Some 0)
    end in
  match outcome with
  | None => ret bc
  | Some Result =>
      check_generator sn Generator ;;;
      op_Commit sn ;;;
      ret (append_tx bc t TxHash tx sigs Result)
  end.

Definition AddTx `{!TxEncoder Tx} `{Sha256} `{Ecrecover} (TypeOf : Tx -> res Z) (cn : Chain Proc Tx) (bc : BlockCreator Tx)
    (Generator : Address) (tx : Tx) (sigs : list Signature) : ST S (BlockCreator Tx) :=
  let! t := lift (TypeOf tx) in
  let TxHash := HashTransactionByType (pv_ChainID (cn_store cn)) t tx in
  let! signers := lift (recover_all TxHash sigs) in
  UnsafeAddTx cn bc Generator t TxHash tx sigs signers.
End OnContext.

Section Finalize.
Context `{Sha256} `{Base58}.
Context `{!Marshaler (gmap Address Z), !Marshaler (gmap Address Account), !Marshaler (gmap bytes bytes),
  !Marshaler (gmap Z UTXO), !Marshaler (gmap Z TxOut), !Marshaler Event}.

Definition with_header (b : Block Tx) (h : Header) : Block Tx :=
  mkBlock h (b_TransactionTypes b) (b_Transactions b) (b_TransactionSignatures b) (b_TransactionResults b) (b_Signatures b).

Definition Finalize (cn : Chain Proc Tx) (bc : BlockCreator Tx) (Timestamp : Z) : ctxM (Block Tx) :=
  let! LevelRootHash := lift (BuildLevelRoot (bc_txHashes bc)) in
  let b := bc_b bc in
  let h := b_Header b in
  let b := with_header b (mkHeader (h_ChainID h) (h_Version h) (h_Height h) (h_PrevHash h) LevelRootHash
             (h_ContextHash h) (h_Timestamp h) (h_Generator h) (h_ConsensusData h)) in
  let! sz := StackSize in
  guard (negb (1 <? sz)) ErrDirtyContext ;;;
  run_hooks cn (fun p ctw => p_AfterExecuteTransactions p b ctw) ;;;
  let! ctxHash := ctx_Hash in
  ret (with_header b (mkHeader (h_ChainID h) (h_Version h) (h_Height h) (h_PrevHash h) LevelRootHash
         ctxHash Timestamp (h_Generator h) (h_ConsensusData h))).
End Finalize.
End Creation.
