(* ===== verification/ChainSpec.v ===== *)
(** * What the chain guarantees

    The header checks, the registry of processes, that a block made by the block creator is
    accepted by the execution of blocks and leads to the same state, and what happened to the
    transactions and hooks of a block that was stored. *)

From stdpp Require Import base gmap list sorting strings.
From Stdlib Require Import ZArith Lia.
From S2P Require Import Prelude Amount Common LevelRoot Types Context ContextSpec ContextFacts Chain.

(** ** Headers *)

(** What a valid next header is. *)
Definition header_follows (pv : Provider) (bh : Header) : Prop :=
  let '(height, lastHash, lastTimestamp) := pv_LastStatus pv in
  h_ChainID bh = pv_ChainID pv /\ h_Version bh <= pv_Version pv /\ h_PrevHash bh = lastHash /\
  lastTimestamp < h_Timestamp bh /\ h_Generator bh <> NewAddress 0 0 0 /\ h_Height bh = u32 (height + 1) /\
  (if h_Height bh =? 1 then 0 < h_Version bh
   else exists th, pv_Header pv height = Ok th /\ h_Version th <= h_Version bh /\ h_ChainID bh = h_ChainID th).

(** [validateHeader] accepts exactly the headers that extend the chain: the
    next height, the hash of the last block, a later time, the id of the chain, a
    version between the last block's and the program's, and a generator. *)
Lemma validateHeader_exact (pv : Provider) (bh : Header) :
  validateHeader pv bh = Ok tt <-> header_follows pv bh.
Proof.
  unfold validateHeader, header_follows. destruct (pv_LastStatus pv) as [[height lastHash] lastTimestamp].
  destruct (h_ChainID bh =? pv_ChainID pv) eqn:E1; simpl; [|bool_to_prop; naive_solver].
  destruct (pv_Version pv <? h_Version bh) eqn:E2; [bool_to_prop; split; [done|lia]|].
  destruct (bool_decide (h_PrevHash bh = lastHash)) eqn:E3; simpl; [|bool_to_prop; naive_solver].
  destruct (h_Timestamp bh <=? lastTimestamp) eqn:E4; [bool_to_prop; split; [done|lia]|].
  destruct (bool_decide (h_Generator bh = NewAddress 0 0 0)) eqn:E5; [bool_to_prop; naive_solver|].
  destruct (h_Height bh =? u32 (height + 1)) eqn:E6; simpl; [|bool_to_prop; naive_solver].
  bool_to_prop. destruct (h_Height bh =? 1).
  - destruct (h_Version bh <=? 0) eqn:E7; bool_to_prop; [split; [done|lia]|]. split; [intros _; split_and!; done|done].
  - destruct (pv_Header pv height) as [th|e|w]; simpl; [|naive_solver..].
    destruct (h_Version bh <? h_Version th) eqn:E8; bool_to_prop.
    { split; [done|]. intros (_ & _ & _ & _ & _ & _ & th' & [= <-] & ? & _). lia. }
    destruct (h_ChainID bh =? h_ChainID th) eqn:E9; simpl; bool_to_prop.
    + split; [intros _|done]. split_and!; try done. by exists th.
    + split; [done|]. intros (_ & _ & _ & _ & _ & _ & th' & [= <-] & _ & ?). done.
Qed.

(** ** The registry of processes *)

Section Registry.
Context {Proc Tx : Type} `{!ProcessI Proc Tx}.
Implicit Types (cn : Chain Proc Tx) (p : Proc).

Record chain_wf cn : Prop := {
  wf_index : forall idx p, cn_processes cn !! idx = Some p ->
    cn_processIndexMap cn !! p_ID p = Some idx /\ cn_processIDMap cn !! p_Name p = Some (p_ID p) /\ p_ID p <> 255;
  wf_id : forall id idx, cn_processIndexMap cn !! id = Some idx -> exists p, cn_processes cn !! idx = Some p /\ p_ID p = id
}.

Lemma IDMap_spec (m : gmap Z nat) :
  let r := map_fold (fun id idx acc => <[idx := id]> acc) (∅ : gmap nat Z) m in
  (forall i id, r !! i = Some id -> m !! id = Some i) /\ (forall id i, m !! id = Some i -> exists id', r !! i = Some id').
Proof.
  apply (map_fold_weak_ind (fun (r : gmap nat Z) (m : gmap Z nat) =>
    (forall i id, r !! i = Some id -> m !! id = Some i) /\ (forall id i, m !! id = Some i -> exists id', r !! i = Some id'))).
  - split; intros *; by rewrite lookup_empty.
  - intros id0 idx0 m' r Hm [IH1 IH2]. split.
    + intros i id. rewrite !lookup_insert_dec. destruct (decide (i = idx0)) as [->|].
      * intros [= <-]. by rewrite decide_True.
      * intros Hi%IH1. rewrite decide_False; [done|]. intros ->. congruence.
    + intros id i. rewrite !lookup_insert_dec. destruct (decide (id = id0)) as [->|].
      * intros [= ->]. rewrite decide_True by done. eauto.
      * intros Hi%IH2. destruct (decide (i = idx0)); eauto.
Qed.

Lemma IDMap_at_wf cn i p : chain_wf cn -> cn_processes cn !! i = Some p -> IDMap_at cn i = p_ID p.
Proof.
  intros [Hw1 Hw2] Hp. destruct (Hw1 i p Hp) as (Hi & _ & _). destruct (IDMap_spec (cn_processIndexMap cn)) as [H1 H2].
  destruct (H2 _ _ Hi) as [id' Hid']. unfold IDMap_at, IDMap. rewrite Hid'. simpl.
  apply H1 in Hid'. destruct (Hw2 _ _ Hid') as (q & Hq & <-). congruence.
Qed.

Lemma Process_wf cn i p : chain_wf cn -> cn_processes cn !! i = Some p ->
  Process cn (p_ID p) = Ok p /\ ProcessByName cn (p_Name p) = Ok p.
Proof.
  intros [Hw1 _] Hp. destruct (Hw1 i p Hp) as (Hi & Hn & H255). unfold Process, ProcessByName.
  rewrite (proj2 (Z.eqb_neq _ _)) by done. by rewrite Hn, Hi, Hp.
Qed.

Lemma MustAddProcess_wf cn p cn' : chain_wf cn -> MustAddProcess cn p = Ok cn' ->
  chain_wf cn' /\ cn_processes cn' = cn_processes cn ++ [p].
Proof.
  intros [Hw1 Hw2] E. unfold MustAddProcess in E. destruct (cn_isInit cn); [done|].
  destruct ((p_ID p =? 0) || (p_ID p =? 255)) eqn:Er; [done|].
  destruct (has (cn_processIDMap cn) (p_Name p)) eqn:En; [done|].
  destruct (has (cn_processIndexMap cn) (p_ID p)) eqn:Ei; [done|].
  injection E as <-. bool_to_prop. split; [|done]. unfold has in *.
  destruct (cn_processIDMap cn !! p_Name p) eqn:Hn; [done|]. destruct (cn_processIndexMap cn !! p_ID p) eqn:Hi; [done|].
  split; simpl.
  - intros idx q Hq. rewrite !lookup_insert_dec. apply lookup_snoc_Some in Hq as [[Hlt Hq]|[-> <-]].
    + destruct (Hw1 idx q Hq) as (H1 & H2 & H3). rewrite !decide_False; [done| |]; congruence.
    + by rewrite !decide_True.
  - intros id idx. rewrite lookup_insert_dec. destruct (decide (id = p_ID p)) as [->|].
    + intros [= <-]. exists p. split; [|done]. by rewrite list_lookup_middle.
    + intros (q & Hq & <-)%Hw2. exists q. split; [|done]. by apply lookup_app_l_Some.
Qed.

(** The setup of an application: processes added one after the other. *)
Fixpoint add_processes cn (ps : list Proc) : res (Chain Proc Tx) :=
  match ps with
  | [] => Ok cn
  | p :: ps => let? cn := MustAddProcess cn p in add_processes cn ps
  end.

(** When the processes of an application are registered without a panic,
    every one of them is found again, by its id and by its name, and the wrapper
    its hooks get carries its own id. *)
Lemma registered_processes_are_found (consensus : Consensus Tx) (app : Proc) (store : Provider) (ps : list Proc) cn0 cn :
  NewChain consensus app store = Ok cn0 -> add_processes cn0 ps = Ok cn ->
  forall i p, ps !! i = Some p ->
    Process cn (p_ID p) = Ok p /\ ProcessByName cn (p_Name p) = Ok p /\ IDMap_at cn i = p_ID p.
Proof.
  intros Hnew Hadd. unfold NewChain in Hnew. destruct (negb _); [done|]. injection Hnew as <-.
  assert (Hgen : forall ps cn0 cn, chain_wf cn0 -> add_processes cn0 ps = Ok cn ->
            chain_wf cn /\ cn_processes cn = cn_processes cn0 ++ ps).
  { clear. induction ps as [|p ps IH]; intros cn0 cn Hw; simpl.
    - intros [= <-]. by rewrite app_nil_r.
    - destruct (MustAddProcess cn0 p) as [cn1|e|w] eqn:E; simpl; [|done..].
      destruct (MustAddProcess_wf _ _ _ Hw E) as [Hw1 Hp1]. intros Ha. destruct (IH _ _ Hw1 Ha) as [Hw2 Hp2].
      split; [done|]. by rewrite Hp2, Hp1, <- app_assoc. }
  assert (Hw0 : chain_wf (mkChain false store consensus app [] ∅ ∅ [] ∅ false)).
  { split; simpl; intros ? ? Hl; [by rewrite lookup_nil in Hl | by rewrite lookup_empty in Hl]. }
  destruct (Hgen _ _ _ Hw0 Hadd) as [Hw Hps].
  simpl in Hps.
  intros i p Hi. rewrite <- Hps in Hi. destruct (Process_wf cn i p Hw Hi). split_and!; [done|done|]. by apply IDMap_at_wf.
Qed.
End Registry.

(** ** Creator and validator agree *)

(** What the chain needs of a transaction: it runs on a context as on the abstract
    machine, and whatever it returns, it leaves the levels below its own alone. *)
Definition keeps_below {A} (m : absM A) : Prop := forall a, safe a ->
  match m a with
  | (Panic _, _) => True
  | (_, a') => same_below a a' /\ safe a'
  end.

Class TxLaws (Proc Tx : Type) `{!TransactionI Proc Tx} `{Base58} := {
  tx_ok : Tx -> Prop;
  law_validate_sim : forall tx p ctw signers, tx_ok tx -> simulates (tx_Validate tx p ctw signers) (tx_Validate tx p ctw signers);
  law_execute_sim : forall tx p ctw i, tx_ok tx -> simulates (tx_Execute tx p ctw i) (tx_Execute tx p ctw i);
  law_validate_keeps : forall tx p ctw signers, tx_ok tx -> keeps_below (tx_Validate tx p ctw signers);
  law_execute_keeps : forall tx p ctw i, tx_ok tx -> keeps_below (tx_Execute tx p ctw i)
}.

Section Agreement.
Context {Proc Tx : Type} `{!ProcessI Proc Tx, !TransactionI Proc Tx} `{B58 : Base58} `{!TxLaws Proc Tx}.
Implicit Types (cn : Chain Proc Tx) (bc : BlockCreator Tx) (a : AbsCtx).

Lemma keeps_AddSeq addr : keeps_below (op_AddSeq addr).
Proof.
  intros a (Hb & [] & Hs). cbn. split; [done|]. split_and!; simpl; [done| |done]. by destruct (f_gone _ _).
Qed.

Lemma abs_op_Seq addr a : op_Seq addr a = (Ok (f_seq (a_top a) addr), a).
Proof. done. Qed.

(** The end of a transaction on the machine: the generator test and the commit. *)
Lemma finish_tx {B} Generator (k : absM B) a s : safe a -> same_below (snapshot_of a) s -> safe s ->
  let sn := Z.of_nat (length (a_below a)) + 1 in
  (check_generator sn Generator ;;; op_Commit sn ;;; k) s =
  match f_hasacc (a_top s) Generator with
  | Ok true => k (set_top a (frame_commit (a_top s) (a_top a)))
  | Ok false => (Err ErrCannotDeleteGeneratorAccount, a)
  | Err e => (Err (if bool_decide (e = ErrDeletedAccount) then ErrCannotDeleteGeneratorAccount else e), a)
  | Panic w => (Panic w, s)
  end.
Proof.
  intros (Hb & _ & _) Hs Hsafe sn. unfold check_generator, bind, attempt, ret, fail.
  cbn [op_HasAccount op_Revert op_Commit abs_ops].
  destruct (f_hasacc (a_top s) Generator) as [[]|e|w]; cbn iota beta; unfold sn.
  - by rewrite abs_Commit_back.
  - by rewrite abs_Revert_back.
  - rewrite abs_Revert_back by done. by destruct (bool_decide _).
  - done.
Qed.

Lemma committed_safe a s : safe a -> safe s -> safe (set_top a (frame_commit (a_top s) (a_top a))).
Proof. intros (? & ? & ?) (_ & ? & _). split_and!; simpl; [done| |done]. by apply frame_commit_safe. Qed.

Lemma or_revert_ok {A} sn (m : absM A) s x s1 : m s = (Ok x, s1) -> or_revert sn m s = (Ok x, s1).
Proof. intros E. unfold or_revert. by rewrite (bind_ok _ _ _ _ _ (attempt_ok _ _ _ _ E)). Qed.

Lemma or_revert_err {A} (m : absM A) a s e s1 : safe a -> m s = (Err e, s1) -> same_below (snapshot_of a) s1 ->
  or_revert (Z.of_nat (length (a_below a)) + 1) m s = (Err e, a).
Proof.
  intros (Hb & _ & _) E Hs. unfold or_revert. rewrite (bind_ok _ _ _ _ _ (attempt_err _ _ _ _ E)).
  by rewrite (bind_ok _ _ _ _ _ (abs_Revert_back a s1 Hb Hs)).
Qed.

Lemma or_revert_panic {A} sn (m : absM A) s w s1 : m s = (Panic w, s1) -> or_revert sn m s = (Panic w, s1).
Proof. intros E. unfold or_revert. by rewrite (bind_panic _ _ _ _ _ (attempt_panic _ _ _ _ E)). Qed.

(** The middle of a transaction: for the creator, which records the result, and
    for the validator, which is given it.  [None] is the wrong sequence. *)
Definition creator_middle sn tx p ctw index : absM (option Z) :=
  match tx_account tx with
  | Some (seq, from) =>
      let! s := op_Seq from in
      if negb (seq =? u64 (s + 1)) then op_Revert sn ;;; ret None
      else
        op_AddSeq from ;;;
        let! r := attempt (tx_Execute tx p ctw index) in
        ret (Some (match r with inl _ => 0 | inr _ => 1 end))
  | None => or_revert sn (tx_Execute tx p ctw index) ;;; ret (Some 0)
  end.

Definition validator_middle sn tx p ctw index (result : option Z) : absM bool :=
  match tx_account tx with
  | Some (seq, from) =>
      let! s := op_Seq from in
      if negb (seq =? u64 (s + 1)) then op_Revert sn ;;; ret false
      else
        op_AddSeq from ;;;
        let! r := attempt (tx_Execute tx p ctw index) in
        let Result := match r with inl _ => 0 | inr _ => 1 end in
        match result with
        | Some result => guard (Result =? result) ErrInvalidResult
        | None => throw "index out of range"
        end ;;;
        ret true
  | None => or_revert sn (tx_Execute tx p ctw index) ;;; ret true
  end.

Lemma middle_agree tx (p : Proc) ctw index a s1 : safe a -> tx_ok tx -> same_below (snapshot_of a) s1 -> safe s1 ->
  let sn := Z.of_nat (length (a_below a)) + 1 in
  match creator_middle sn tx p ctw index s1 with
  | (Panic _, _) => True
  | (Err _, s2) => s2 = a
  | (Ok None, s2) => s2 = a
  | (Ok (Some R), s2) => same_below (snapshot_of a) s2 /\ safe s2 /\ validator_middle sn tx p ctw index (Some R) s1 = (Ok true, s2)
  end.
Proof.
  intros Ha Htx Hs1 Hsafe1 sn. unfold creator_middle, validator_middle. destruct (tx_account tx) as [[seq from]|].
  - rewrite (bind_ok _ _ _ _ _ (abs_op_Seq from s1)). destruct (negb (seq =? u64 (f_seq (a_top s1) from + 1))) eqn:En.
    { destruct Ha as (Hb & _ & _). by rewrite (bind_ok _ _ _ _ _ (abs_Revert_back a s1 Hb Hs1)). }
    pose proof (keeps_AddSeq from s1 Hsafe1) as Hq. destruct (op_AddSeq from s1) as [r s2] eqn:Eq.
    assert (r = Ok tt) as -> by (cbn in Eq; by injection Eq). destruct Hq as [Hs2 Hsafe2].
    rewrite (bind_ok _ _ _ _ _ Eq). pose proof (law_execute_keeps tx p ctw index Htx s2 Hsafe2) as He.
    destruct (tx_Execute tx p ctw index s2) as [[[]|e|w] s3] eqn:Ee.
    + rewrite (bind_ok _ _ _ _ _ (attempt_ok _ _ _ _ Ee)). destruct He as [Hs3 Hsafe3]. unfold ret at 1. cbn iota beta.
      split_and!; [by eauto using same_below_trans | done |].
      rewrite (bind_ok _ _ _ _ _ (abs_op_Seq from s1)), En, (bind_ok _ _ _ _ _ Eq).
      by rewrite (bind_ok _ _ _ _ _ (attempt_ok _ _ _ _ Ee)).
    + rewrite (bind_ok _ _ _ _ _ (attempt_err _ _ _ _ Ee)). destruct He as [Hs3 Hsafe3]. unfold ret at 1. cbn iota beta.
      split_and!; [by eauto using same_below_trans | done |].
      rewrite (bind_ok _ _ _ _ _ (abs_op_Seq from s1)), En, (bind_ok _ _ _ _ _ Eq).
      by rewrite (bind_ok _ _ _ _ _ (attempt_err _ _ _ _ Ee)).
    + by rewrite (bind_panic _ _ _ _ _ (attempt_panic _ _ _ _ Ee)).
  - pose proof (law_execute_keeps tx p ctw index Htx s1 Hsafe1) as He.
    destruct (tx_Execute tx p ctw index s1) as [[[]|e|w] s3] eqn:Ee.
    + rewrite (bind_ok _ _ _ _ _ (or_revert_ok sn _ _ _ _ Ee)). destruct He as [Hs3 Hsafe3]. unfold ret at 1. cbn iota beta.
      split_and!; [by eauto using same_below_trans | done |].
      by rewrite (bind_ok _ _ _ _ _ (or_revert_ok sn _ _ _ _ Ee)).
    + destruct He as [Hs3 _]. assert (Hs : same_below (snapshot_of a) s3) by eauto using same_below_trans.
      unfold sn. by rewrite (bind_err _ _ _ _ _ (or_revert_err _ a _ _ _ Ha Ee Hs)).
    + by rewrite (bind_panic _ _ _ _ _ (or_revert_panic sn _ _ _ _ Ee)).
Qed.

(** A transaction the creator adds is one the validator accepts, with the same
    result and the same state; one it does not add leaves no trace. *)
Lemma agree_tx cn bc Generator t TxHash tx sigs signers a : safe a -> tx_ok tx ->
  match UnsafeAddTx cn bc Generator t TxHash tx sigs signers a with
  | (Panic _, _) => True
  | (Err _, a') => a' = a
  | (Ok bc', a') => safe a' /\
      (bc' = bc /\ a' = a \/
       exists R, bc' = append_tx bc t TxHash tx sigs R /\
         execute_tx cn Generator (length (b_Transactions (bc_b bc))) t tx signers (Some R) a = (Ok true, a'))
  end.
Proof.
  intros Ha Htx. pose proof (snapshot_safe a Ha) as Hsn.
  unfold UnsafeAddTx, execute_tx. set (index := u16 _). set (ctw := NewContextWrapper _).
  destruct (Process cn _) as [p|e|w] eqn:Ep; [|done..]. rewrite !(bind_ok (lift (Ok p)) _ a p a eq_refl).
  rewrite !(bind_ok _ _ _ _ _ (abs_Snapshot_spec a)). fold (snapshot_of a). set (sn := Z.of_nat _ + 1).
  pose proof (law_validate_keeps tx p ctw signers Htx _ Hsn) as Hv.
  destruct (tx_Validate tx p ctw signers (snapshot_of a)) as [[[]|e|w] s1] eqn:Ev.
  2: { destruct Hv as [Hs1 _]. by rewrite (bind_err _ _ _ _ _ (or_revert_err _ a _ _ _ Ha Ev Hs1)). }
  2: { by rewrite (bind_panic _ _ _ _ _ (or_revert_panic sn _ _ _ _ Ev)). }
  destruct Hv as [Hs1 Hsafe1]. rewrite !(bind_ok _ _ _ _ _ (or_revert_ok sn _ _ _ _ Ev)).
  pose proof (middle_agree tx p ctw index a s1 Ha Htx Hs1 Hsafe1) as Hm. cbn zeta in Hm. fold sn in Hm.
  fold (creator_middle sn tx p ctw index).
  destruct (creator_middle sn tx p ctw index s1) as [[[R|]|e|w] s2] eqn:Em.
  - rewrite (bind_ok _ _ _ _ _ Em). destruct Hm as (Hs2 & Hsafe2 & Evm).
    pose proof (fun B k => finish_tx (B := B) Generator k a s2 Ha Hs2 Hsafe2) as Hf. cbn zeta in Hf. fold sn in Hf.
    rewrite Hf. pose proof (fs_hasacc _ (proj1 (proj2 Hsafe2)) Generator) as Hnp.
    destruct (f_hasacc (a_top s2) Generator) as [[]|e|w] eqn:Eh; [|done|done|by destruct (Hnp w)].
    split; [by apply committed_safe|]. right. exists R. split; [done|].
    rewrite (bind_ok (lift (Ok p)) _ a p a eq_refl), (bind_ok _ _ _ _ _ (abs_Snapshot_spec a)).
    fold (snapshot_of a) sn. rewrite (bind_ok _ _ _ _ _ (or_revert_ok sn _ _ _ _ Ev)).
    fold (validator_middle sn tx p ctw index (Some R)). rewrite (bind_ok _ _ _ _ _ Evm). by rewrite Hf.
  - rewrite (bind_ok _ _ _ _ _ Em). subst s2. split; [done|]. by left.
  - by rewrite (bind_err _ _ _ _ _ Em).
  - by rewrite (bind_panic _ _ _ _ _ Em).
Qed.

(** *** A session of the block creator *)

Record Candidate := mkCandidate {
  c_type : Z; c_hash : Hash256; c_tx : Tx; c_sigs : list Signature; c_signers : list PublicHash }.

(** A candidate that [UnsafeAddTx] refuses is left out; the signers of the ones
    that were added are kept. *)
Fixpoint add_candidates {S} `{!ContextOps S} cn (Generator : Address) bc (signers : list (list PublicHash)) (cs : list Candidate)
    : ST S (BlockCreator Tx * list (list PublicHash)) :=
  match cs with
  | [] => ret (bc, signers)
  | c :: cs =>
      let! r := attempt (UnsafeAddTx cn bc Generator (c_type c) (c_hash c) (c_tx c) (c_sigs c) (c_signers c)) in
      match r with
      | inl _ => add_candidates cn Generator bc signers cs
      | inr bc' =>
          let added := (length (b_Transactions (bc_b bc)) <? length (b_Transactions (bc_b bc')))%nat in
          add_candidates cn Generator bc' (if added then signers ++ [c_signers c] else signers) cs
      end
  end.

Lemma execute_txs_app cn b TS l1 l2 : forall i (a : AbsCtx),
  execute_txs cn b TS i (l1 ++ l2) a =
  (let! go_on := execute_txs cn b TS i l1 in
   if go_on : bool then execute_txs cn b TS (i + length l1) l2 else ret false) a.
Proof.
  induction l1 as [|tx l1 IH]; intros i a.
  - cbn. by rewrite Nat.add_0_r.
  - cbn [app execute_txs length]. destruct (TS !! i), (b_TransactionTypes b !! i); try done.
    unfold bind at 1 2 3. destruct (execute_tx _ _ _ _ _ _ _ a) as [[[]|e|w] a1]; try done.
    rewrite IH. replace (i + S (length l1))%nat with (i + 1 + length l1)%nat by lia. done.
Qed.

(** The loop looks at the entries of its own transactions only. *)
Lemma execute_txs_ext cn b b' TS TS' txs : h_Generator (b_Header b) = h_Generator (b_Header b') -> forall i (a : AbsCtx),
  (forall j, (i <= j < i + length txs)%nat -> TS !! j = TS' !! j /\ b_TransactionTypes b !! j = b_TransactionTypes b' !! j /\
     b_TransactionResults b !! j = b_TransactionResults b' !! j) ->
  execute_txs cn b TS i txs a = execute_txs cn b' TS' i txs a.
Proof.
  intros Hg. induction txs as [|tx txs IH]; intros i a Hj; [done|]. cbn [execute_txs length] in *.
  destruct (Hj i) as (-> & -> & ->); [lia|]. rewrite Hg.
  destruct (TS' !! i), (b_TransactionTypes b' !! i); try done.
  unfold bind. destruct (execute_tx _ _ _ _ _ _ _ a) as [[[]|e|w] a1]; try done.
  apply IH. intros j ?. apply Hj. lia.
Qed.

(** The validator, run on what was added so far, is where the creator is. *)
Record in_step cn (Generator : Address) (a0 : AbsCtx) bc (signers : list (list PublicHash)) (a : AbsCtx) : Prop := {
  is_gen : h_Generator (b_Header (bc_b bc)) = Generator;
  is_len : length (b_TransactionTypes (bc_b bc)) = length (b_Transactions (bc_b bc)) /\
           length (b_TransactionResults (bc_b bc)) = length (b_Transactions (bc_b bc)) /\
           length signers = length (b_Transactions (bc_b bc));
  is_safe : safe a;
  is_run : execute_txs cn (bc_b bc) signers 0 (b_Transactions (bc_b bc)) a0 = (Ok true, a)
}.

Lemma in_step_append cn Generator a0 bc signers a t TxHash tx sigs sgs R a' :
  in_step cn Generator a0 bc signers a -> safe a' ->
  execute_tx cn Generator (length (b_Transactions (bc_b bc))) t tx sgs (Some R) a = (Ok true, a') ->
  in_step cn Generator a0 (append_tx bc t TxHash tx sigs R) (signers ++ [sgs]) a'.
Proof.
  intros [Hg (L1 & L2 & L3) _ Hrun] Hsafe Hex. split; simpl; [done| |done|].
  - rewrite !length_app. simpl. lia.
  - rewrite execute_txs_app.
    unfold bind.
    assert (He : execute_txs cn (bc_b (append_tx bc t TxHash tx sigs R)) (signers ++ [sgs]) 0 (b_Transactions (bc_b bc)) a0
                 = (Ok true, a)).
    { rewrite <- Hrun. apply execute_txs_ext; [done|]. intros j Hj. simpl. rewrite !lookup_app_l by lia. done. }
    simpl in He. rewrite He. cbn [execute_txs Nat.add b_TransactionTypes b_TransactionResults b_Header].
    rewrite (list_lookup_middle signers [] sgs _ (eq_sym L3)), (list_lookup_middle _ [] t _ (eq_sym L1)),
      (list_lookup_middle _ [] R _ (eq_sym L2)), Hg.
    unfold bind. by rewrite Hex.
Qed.

Lemma candidates_in_step cn Generator a0 cs : Forall (fun c => tx_ok (c_tx c)) cs -> forall bc signers a bc' signers' a',
  in_step cn Generator a0 bc signers a ->
  add_candidates cn Generator bc signers cs a = (Ok (bc', signers'), a') ->
  in_step cn Generator a0 bc' signers' a'.
Proof.
  induction 1 as [|c cs Hc _ IH]; intros bc signers a bc' signers' a' Hst; cbn [add_candidates].
  - by intros [= <- <- <-].
  - pose proof (agree_tx cn bc Generator (c_type c) (c_hash c) (c_tx c) (c_sigs c) (c_signers c) a (is_safe _ _ _ _ _ _ Hst) Hc) as Hag.
    destruct (UnsafeAddTx cn bc Generator (c_type c) (c_hash c) (c_tx c) (c_sigs c) (c_signers c) a) as [[bc1|e|w] a1] eqn:E.
    + rewrite (bind_ok _ _ _ _ _ (attempt_ok _ _ _ _ E)). destruct Hag as [Hsafe [[-> ->]|(R & -> & Hex)]].
      * rewrite Nat.ltb_irrefl. by apply IH.
      * simpl. rewrite length_app, (proj2 (Nat.ltb_lt _ _)) by (simpl; lia). apply IH. by eapply in_step_append.
    + rewrite (bind_ok _ _ _ _ _ (attempt_err _ _ _ _ E)). subst a1. by apply IH.
    + by rewrite (bind_panic _ _ _ _ _ (attempt_panic _ _ _ _ E)).
Qed.

(** *** On the context *)

Lemma sim_or_revert {A} sn (m : ctxM A) ma : simulates m ma -> simulates (or_revert sn m) (or_revert sn ma).
Proof. intros Hm. unfold or_revert. simulate. Qed.

Lemma sim_check_generator sn g : simulates (check_generator sn g) (check_generator sn g).
Proof. unfold check_generator. simulate. Qed.

#[local] Hint Resolve sim_or_revert sim_check_generator law_validate_sim law_execute_sim : simulation.

Lemma sim_UnsafeAddTx cn bc g t h tx sigs signers : tx_ok tx ->
  simulates (UnsafeAddTx cn bc g t h tx sigs signers) (UnsafeAddTx cn bc g t h tx sigs signers).
Proof. intros Htx. unfold UnsafeAddTx. simulate. Qed.

Lemma sim_execute_tx cn g i t tx signers r : tx_ok tx ->
  simulates (execute_tx cn g i t tx signers r) (execute_tx cn g i t tx signers r).
Proof. intros Htx. unfold execute_tx. simulate. Qed.

Lemma sim_add_candidates cn g cs : Forall (fun c => tx_ok (c_tx c)) cs -> forall bc signers,
  simulates (add_candidates cn g bc signers cs) (add_candidates cn g bc signers cs).
Proof.
  induction 1 as [|c cs Hc _ IH]; intros bc signers; cbn [add_candidates]; [apply sim_ret|].
  apply sim_bind; [by apply sim_attempt, sim_UnsafeAddTx|]. intros [e|bc']; apply IH.
Qed.

Lemma sim_execute_txs cn b TS txs : Forall tx_ok txs -> forall i,
  simulates (execute_txs cn b TS i txs) (execute_txs cn b TS i txs).
Proof.
  induction 1 as [|tx txs Htx _ IH]; intros i; cbn [execute_txs]; [apply sim_ret|].
  destruct (TS !! i), (b_TransactionTypes b !! i); try apply sim_throw.
  apply sim_bind; [by apply sim_execute_tx|]. intros []; [apply IH | apply sim_ret].
Qed.

(** Every transaction of the creator's block is a candidate's. *)
Lemma candidates_ok cn g cs : Forall (fun c => tx_ok (c_tx c)) cs -> forall bc signers (ctx : Context_) bc' signers' ctx',
  Forall tx_ok (b_Transactions (bc_b bc)) ->
  add_candidates cn g bc signers cs ctx = (Ok (bc', signers'), ctx') -> Forall tx_ok (b_Transactions (bc_b bc')).
Proof.
  induction 1 as [|c cs Hc _ IH]; intros bc signers ctx bc' signers' ctx' Hok; cbn [add_candidates].
  - by intros [= <- _ _].
  - unfold bind, attempt.
    destruct (UnsafeAddTx cn bc g (c_type c) (c_hash c) (c_tx c) (c_sigs c) (c_signers c) ctx) as [[bc1|e|w] c1] eqn:E; [| |done].
    + apply IH. revert E. unfold UnsafeAddTx. set (app := append_tx bc _ _ _ _).
      assert (Happ : forall R, Forall tx_ok (b_Transactions (bc_b (app R)))) by (intros R; apply Forall_app; by split; [|constructor]).
      clearbody app. unfold bind. intros E. repeat (destr_match_in E; try done); try (injection E as <- _); eauto.
    + by apply IH.
Qed.

(** C2. What the block creator makes, the validator accepts: the transactions the
    creator added, with the results it recorded, run without error on any context
    that shows the state the creator started from, and end in the state the creator
    ended in. *)
Theorem created_block_executes cn (Generator : Address) (ConsensusData : bytes) (cs : list Candidate)
    (ctx ctx1 vctx : Context_) bc signers :
  ctx_ok ctx -> ctx_ok vctx -> abs vctx = abs ctx -> Forall (fun c => tx_ok (c_tx c)) cs ->
  add_candidates cn Generator (NewBlockCreator ctx Generator ConsensusData) [] cs ctx = (Ok (bc, signers), ctx1) ->
  exists vctx1, execute_txs cn (bc_b bc) signers 0 (b_Transactions (bc_b bc)) vctx = (Ok true, vctx1) /\
    ctx_ok vctx1 /\ abs vctx1 = abs ctx1.
Proof.
  intros Hc Hv Hab Hcs E. pose proof (sim_add_candidates cn Generator cs Hcs (NewBlockCreator ctx Generator ConsensusData) [] ctx Hc) as Hs.
  rewrite E in Hs. destruct Hs as [_ Ea].
  assert (Hst : in_step cn Generator (abs ctx) (NewBlockCreator ctx Generator ConsensusData) [] (abs ctx)).
  { split; [done|done|by apply abs_safe|done]. }
  destruct (candidates_in_step cn Generator (abs ctx) cs Hcs _ _ _ _ _ _ Hst Ea) as [_ _ _ Hrun].
  assert (Htxs : Forall tx_ok (b_Transactions (bc_b bc))).
  { eapply (candidates_ok cn Generator cs Hcs); [|exact E]. by constructor. }
  pose proof (sim_execute_txs cn (bc_b bc) signers _ Htxs 0 vctx Hv) as Hx. rewrite Hab, Hrun in Hx.
  destruct (execute_txs cn (bc_b bc) signers 0 (b_Transactions (bc_b bc)) vctx) as [[go|e|w] vctx1].
  - destruct Hx as [Hok Heq]. assert (go = true) as -> by (injection Heq; done).
    exists vctx1. split; [done|]. split; [done|]. symmetry. exact (f_equal snd Heq).
  - by destruct Hx as [_ [=]].
  - done.
Qed.

(** A wrong sequence, on the machine. *)
Lemma wrong_sequence_abs cn Generator i t tx signers r p seq from (a s1 : AbsCtx) : safe a -> tx_ok tx ->
  Process cn (u8 (Z.shiftr t 8)) = Ok p -> tx_account tx = Some (seq, from) ->
  tx_Validate tx p (NewContextWrapper (u8 (Z.shiftr t 8))) signers (snapshot_of a) = (Ok tt, s1) ->
  seq <> u64 (f_seq (a_top s1) from + 1) ->
  execute_tx cn Generator i t tx signers r a = (Ok false, a) /\
  forall bc h sigs, UnsafeAddTx cn bc Generator t h tx sigs signers a = (Ok bc, a).
Proof.
  intros Ha Htx Hp Hacc Hval Hseq. pose proof Ha as (Hb & _ & _).
  pose proof (law_validate_keeps tx p (NewContextWrapper (u8 (Z.shiftr t 8))) signers Htx _ (snapshot_safe a Ha)) as Hk.
  rewrite Hval in Hk. destruct Hk as [Hs1 _].
  assert (Hn : negb (seq =? u64 (f_seq (a_top s1) from + 1)) = true) by (by apply negb_true_iff, Z.eqb_neq).
  set (sn := Z.of_nat (length (a_below a)) + 1).
  pose proof (abs_Revert_back a s1 Hb Hs1) as Hrev.
  split; [|intros bc h sigs]; unfold execute_tx, UnsafeAddTx;
    (rewrite (bind_ok (lift (Process cn _)) _ a p a) by (by unfold lift; rewrite Hp));
    rewrite (bind_ok _ _ _ _ _ (abs_Snapshot_spec a)); fold (snapshot_of a);
    rewrite (bind_ok _ _ _ _ _ (or_revert_ok sn _ _ _ _ Hval)), Hacc.
  - rewrite (bind_ok _ _ s1 false a); [done|]. rewrite (bind_ok _ _ _ _ _ (abs_op_Seq from s1)), Hn.
    by rewrite (bind_ok _ _ _ _ _ Hrev).
  - rewrite (bind_ok _ _ s1 None a); [done|]. rewrite (bind_ok _ _ _ _ _ (abs_op_Seq from s1)), Hn.
    by rewrite (bind_ok _ _ _ _ _ Hrev).
Qed.

(** A transaction that passes its validation but does not carry the next
    sequence of its sender ends the execution of the block without an error: the
    transactions after it are not run, the hooks after the transactions are not
    run, and the result is success; and the block creator reports success although
    it did not add the transaction. *)
Lemma wrong_sequence_is_reported_as_success cn (b : Block Tx) (TxSigners : list (list PublicHash)) (ctx ctx0 c1 : Context_)
    t tx rest signers p seq from sn :
  run_hooks cn (fun p ctw => p_BeforeExecuteTransactions p ctw) ctx = (Ok tt, ctx0) -> ctx_ok ctx0 ->
  b_Transactions b = tx :: rest -> tx_ok tx ->
  TxSigners !! 0%nat = Some signers -> b_TransactionTypes b !! 0%nat = Some t ->
  Process cn (u8 (Z.shiftr t 8)) = Ok p -> tx_account tx = Some (seq, from) ->
  (let! sn := Snapshot in tx_Validate tx p (NewContextWrapper (u8 (Z.shiftr t 8))) signers ;;; ret sn) ctx0 = (Ok sn, c1) ->
  seq <> u64 (seen_seq c1 from + 1) ->
  (exists ctx', executeBlock cn b TxSigners ctx = (Ok tt, ctx') /\ abs ctx' = abs ctx0) /\
  (forall bc h sigs, exists ctx', UnsafeAddTx cn bc (h_Generator (b_Header b)) t h tx sigs signers ctx0 = (Ok bc, ctx') /\
     abs ctx' = abs ctx0).
Proof.
  set (r := b_TransactionResults b !! 0%nat). intros Hhooks Hc Htxs Htx Hsg Ht Hp Hacc Hval Hseq.
  assert (Hsv : simulates (let! sn := op_Snapshot in tx_Validate tx p (NewContextWrapper (u8 (Z.shiftr t 8))) signers ;;; ret sn)
                          (let! sn := op_Snapshot in tx_Validate tx p (NewContextWrapper (u8 (Z.shiftr t 8))) signers ;;; ret sn))
    by simulate.
  specialize (Hsv ctx0 Hc). cbn [op_Snapshot context_ops] in Hsv. rewrite Hval in Hsv. destruct Hsv as [_ Hva].
  rewrite (bind_ok _ _ _ _ _ (abs_Snapshot_spec (abs ctx0))) in Hva. fold (snapshot_of (abs ctx0)) in Hva.
  destruct (tx_Validate tx p (NewContextWrapper (u8 (Z.shiftr t 8))) signers (snapshot_of (abs ctx0))) as [[[]|e|w] s1] eqn:Ev.
  2: { by rewrite (bind_err _ _ _ _ _ Ev) in Hva. }
  2: { by rewrite (bind_panic _ _ _ _ _ Ev) in Hva. }
  rewrite (bind_ok _ _ _ _ _ Ev) in Hva.
  assert (Hs1 : s1 = abs c1) by (exact (f_equal snd Hva)).
  assert (Hseq' : seq <> u64 (f_seq (a_top s1) from + 1)) by (by rewrite Hs1).
  destruct (wrong_sequence_abs cn (h_Generator (b_Header b)) 0 t tx signers r p seq from (abs ctx0) s1
    (abs_safe _ Hc) Htx Hp Hacc Ev Hseq') as [Hx Hu]. split.
  - pose proof (sim_execute_tx cn (h_Generator (b_Header b)) 0 t tx signers r Htx ctx0 Hc) as Hs. rewrite Hx in Hs.
    destruct (execute_tx cn (h_Generator (b_Header b)) 0 t tx signers r ctx0) as [[go|e|w] ctx'] eqn:E; [|by destruct Hs as [_ [=]]|done].
    destruct Hs as [Hok Heq]. assert (go = false) as -> by (injection Heq; done). exists ctx'. split.
    + unfold executeBlock. rewrite (bind_ok _ _ _ _ _ Hhooks). rewrite (bind_ok _ _ ctx0 false ctx'); [done|].
      rewrite Htxs. cbn [execute_txs]. rewrite Hsg, Ht. fold r. by rewrite (bind_ok _ _ _ _ _ E).
    + symmetry. exact (f_equal snd Heq).
  - intros bc h sigs. pose proof (sim_UnsafeAddTx cn bc (h_Generator (b_Header b)) t h tx sigs signers Htx ctx0 Hc) as Hs.
    rewrite Hu in Hs.
    destruct (UnsafeAddTx cn bc (h_Generator (b_Header b)) t h tx sigs signers ctx0) as [[bc'|e|w] ctx'] eqn:E; [|by destruct Hs as [_ [=]]|done].
    destruct Hs as [Hok Heq]. exists ctx'. split; [|symmetry; exact (f_equal snd Heq)].
    by assert (bc = bc') as -> by (injection Heq; done).
Qed.
End Agreement.

(** ** Connecting *)

Section Connecting.
Context {Proc Tx : Type} `{!ProcessI Proc Tx, !TransactionI Proc Tx} `{!TxEncoder Tx} `{Sha256} `{Ecrecover} `{B58 : Base58}.
Context `{!Marshaler (gmap Address Z), !Marshaler (gmap Address Account), !Marshaler (gmap bytes bytes),
  !Marshaler (gmap Z UTXO), !Marshaler (gmap Z TxOut), !Marshaler Event}.

Implicit Types (cn : Chain Proc Tx).

(** Transaction [i] ran: its process exists and it validated; an account transaction
    carries the next sequence of its sender and came out as the block records, any
    other executed without error; and the generator still has its account. *)
Definition tx_ran cn (Generator : Address) (i : nat) (t : Z) (tx : Tx) (signers : list PublicHash) (result : option Z)
    (c c' : Context_) : Prop :=
  let pid := u8 (Z.shiftr t 8) in
  let ctw := NewContextWrapper pid in
  exists p sn c0 c1 c2 c3,
    Process cn pid = Ok p /\ Snapshot c = (Ok sn, c0) /\ tx_Validate tx p ctw signers c0 = (Ok tt, c1) /\
    match tx_account tx with
    | Some (seq, from) => exists s ca cb r,
        Seq from c1 = (Ok s, ca) /\ seq = u64 (s + 1) /\ AddSeq from ca = (Ok tt, cb) /\
        attempt (tx_Execute tx p ctw (u16 (Z.of_nat i))) cb = (Ok r, c2) /\
        result = Some (match r with inl _ => 0 | inr _ => 1 end)
    | None => tx_Execute tx p ctw (u16 (Z.of_nat i)) c1 = (Ok tt, c2)
    end /\
    HasAccount Generator c2 = (Ok true, c3) /\ Commit sn c3 = (Ok tt, c').

(** Transaction [i] validated but does not carry the next sequence of its sender: it
    is undone. *)
Definition tx_out_of_sequence cn (t : Z) (tx : Tx) (signers : list PublicHash) (c c' : Context_) : Prop :=
  let pid := u8 (Z.shiftr t 8) in
  exists p sn c0 c1 seq from s c2,
    Process cn pid = Ok p /\ Snapshot c = (Ok sn, c0) /\
    tx_Validate tx p (NewContextWrapper pid) signers c0 = (Ok tt, c1) /\
    tx_account tx = Some (seq, from) /\ Seq from c1 = (Ok s, c2) /\ seq <> u64 (s + 1) /\ Revert sn c2 = (Ok tt, c').

(** The transactions from number [i] on ran, one after the other. *)
Inductive txs_ran cn (b : Block Tx) (TxSigners : list (list PublicHash)) : nat -> list Tx -> Context_ -> Context_ -> Prop :=
  | no_more i c : txs_ran cn b TxSigners i [] c c
  | one_more i tx txs signers t c c1 c' :
      TxSigners !! i = Some signers -> b_TransactionTypes b !! i = Some t ->
      tx_ran cn (h_Generator (b_Header b)) i t tx signers (b_TransactionResults b !! i) c c1 ->
      txs_ran cn b TxSigners (i + 1) txs c1 c' ->
      txs_ran cn b TxSigners i (tx :: txs) c c'.

Lemma or_revert_ok_inv {A} sn (m : ctxM A) c x c' : or_revert sn m c = (Ok x, c') -> m c = (Ok x, c').
Proof.
  unfold or_revert. intros (r & c1 & Hm & E)%bind_ok_inv. unfold attempt in Hm.
  destruct (m c) as [[y|e|w] c2]; [|injection Hm as <- <-; by apply bind_ok_inv in E as (? & ? & _ & E)|done].
  injection Hm as <- <-. by injection E as <- <-.
Qed.

Lemma check_generator_ok_inv sn g (c c' : Context_) : check_generator sn g c = (Ok tt, c') -> HasAccount g c = (Ok true, c').
Proof.
  unfold check_generator. intros (r & c1 & Hm & E)%bind_ok_inv. unfold attempt in Hm. cbn [op_HasAccount context_ops] in Hm.
  destruct (HasAccount g c) as [[[]|e|w] c2]; [| | |done]; injection Hm as <- <-.
  - by injection E as <-.
  - by apply bind_ok_inv in E as (? & ? & _ & E).
  - apply bind_ok_inv in E as (? & ? & _ & E). by destruct (bool_decide _).
Qed.

Lemma execute_tx_inv cn g i t tx signers result (c c' : Context_) go :
  execute_tx cn g i t tx signers result c = (Ok go, c') ->
  if go : bool then tx_ran cn g i t tx signers result c c' else tx_out_of_sequence cn t tx signers c c'.
Proof.
  unfold execute_tx. intros (p & c1 & Hp & E)%bind_ok_inv. unfold lift in Hp. injection Hp as Hp <-.
  apply bind_ok_inv in E as (sn & c2 & Hsn & E). apply bind_ok_inv in E as ([] & c3 & Hv%or_revert_ok_inv & E).
  apply bind_ok_inv in E as (go' & c4 & Hm & E).
  assert (Hgo : go' = go /\ (if go : bool then exists c5, HasAccount g c4 = (Ok true, c5) /\ Commit sn c5 = (Ok tt, c') else c' = c4)).
  { destruct go'.
    - apply bind_ok_inv in E as ([] & c5 & Hg%check_generator_ok_inv & E). apply bind_ok_inv in E as ([] & c6 & Hc & E).
      injection E as <- <-. eauto.
    - by injection E as <- <-. }
  destruct Hgo as [-> Hfin]. clear E. destruct (tx_account tx) as [[seq from]|] eqn:Ea.
  - apply bind_ok_inv in Hm as (s & ca & Hs & Hm). destruct (seq =? u64 (s + 1)) eqn:Eq; cbn [negb] in Hm; bool_to_prop.
    + apply bind_ok_inv in Hm as ([] & cb & Hadd & Hm). apply bind_ok_inv in Hm as (r & cc & Hr & Hm).
      apply bind_ok_inv in Hm as ([] & cd & Hg & Hm). injection Hm as <- <-. destruct Hfin as (c5 & Hh & Hc).
      destruct result as [res|]; [|done]. destruct (_ =? res) eqn:Er; [|done]. bool_to_prop. injection Hg as <-.
      exists p, sn, c2, c3, cc, c5. rewrite Ea. split_and!; try done. exists s, ca, cb, r. by rewrite Er.
    + apply bind_ok_inv in Hm as ([] & cb & Hrev & Hm). injection Hm as <- <-. subst c'.
      exists p, sn, c2, c3, seq, from, s, ca. by split_and!.
  - apply bind_ok_inv in Hm as ([] & cb & Hx%or_revert_ok_inv & Hm). injection Hm as <- <-. destruct Hfin as (c5 & Hh & Hc).
    exists p, sn, c2, c3, cb, c5. rewrite Ea. by split_and!.
Qed.

Lemma execute_txs_inv cn b TxSigners txs : forall i (c c' : Context_) go,
  execute_txs cn b TxSigners i txs c = (Ok go, c') ->
  if go : bool then txs_ran cn b TxSigners i txs c c'
  else exists ran tx rest signers t c1, txs = ran ++ tx :: rest /\ txs_ran cn b TxSigners i ran c c1 /\
    TxSigners !! (i + length ran)%nat = Some signers /\ b_TransactionTypes b !! (i + length ran)%nat = Some t /\
    tx_out_of_sequence cn t tx signers c1 c'.
Proof.
  induction txs as [|tx txs IH]; intros i c c' go; cbn [execute_txs]; [intros [= <- <-]; constructor|].
  destruct (TxSigners !! i) as [signers|] eqn:Es; [|done]. destruct (b_TransactionTypes b !! i) as [t|] eqn:Et; [|done].
  intros (go1 & c1 & Hx%execute_tx_inv & E)%bind_ok_inv. destruct go1.
  - apply IH in E. destruct go; [by econstructor|].
    destruct E as (ran & tx' & rest & sg & t' & c2 & -> & Hr & Hs & Ht & Ho).
    exists (tx :: ran), tx', rest, sg, t', c2. cbn [length]. replace (i + S (length ran))%nat with (i + 1 + length ran)%nat by lia.
    split_and!; try done. by econstructor.
  - injection E as <- <-. exists [], tx, txs, signers, t, c. cbn [length]. rewrite Nat.add_0_r. split_and!; try done. constructor.
Qed.

Lemma clean_ok_inv (m : ctxM unit) c c' : clean m c = (Ok tt, c') -> m c = (Ok tt, c').
Proof.
  unfold clean. intros ([] & c1 & -> & E)%bind_ok_inv. apply bind_ok_inv in E as (sz & c2 & [= <- <-] & E).
  destruct (negb _); [|done]. by injection E as <-.
Qed.

(** C4. Only a block that passes every check is stored: the chain is open, the
    header extends the chain, the consensus accepts the signatures, the signers of
    the transactions were recovered, the hooks before the transactions ran without
    error, and the hash of the resulting context is the one the header states; the
    hooks on saving ran, and what is stored is the top layer they left.  As to the
    transactions, either every one ran (an account transaction with the next
    sequence of its sender and with the result the block records, any other without
    error) and then the hooks after them did, or the transactions before some
    account transaction ran and that one validated but does not carry the next
    sequence of its sender: then it is undone and the rest of the transactions and
    the hooks after them are skipped. *)
Theorem ConnectBlock_stores_only_valid (StoreBlock : Block Tx -> ContextData -> res unit) (NumCPU : nat) (turns : list nat)
    (cn : Chain Proc Tx) (b : Block Tx) (top : ContextData) :
  ConnectBlock StoreBlock NumCPU turns cn b = Ok top ->
  cn_isClose cn = false /\ header_follows (cn_store cn) (b_Header b) /\
  cs_ValidateSignature (cn_consensus cn) (b_Header b) (b_Signatures b) = Ok tt /\
  exists signers c0 c1 c2 c3 c4 c5,
    validateTransactionSignatures NumCPU turns cn b = Ok signers /\
    run_hooks cn (fun p ctw => p_BeforeExecuteTransactions p ctw) (NewContext (pv_Loader (cn_store cn))) = (Ok tt, c0) /\
    (txs_ran cn b signers 0 (b_Transactions b) c0 c1 /\
     run_hooks cn (fun p ctw => p_AfterExecuteTransactions p b ctw) c1 = (Ok tt, c2) \/
     exists ran tx rest sg t, b_Transactions b = ran ++ tx :: rest /\ txs_ran cn b signers 0 ran c0 c1 /\
       signers !! length ran = Some sg /\ b_TransactionTypes b !! length ran = Some t /\
       tx_out_of_sequence cn t tx sg c1 c2) /\
    ctx_Hash c2 = (Ok (h_ContextHash (b_Header b)), c3) /\
    run_hooks cn (fun p ctw => p_OnSaveData p b ctw) c3 = (Ok tt, c4) /\
    cs_OnSaveData (cn_consensus cn) b (NewContextWrapper 0) c4 = (Ok tt, c5) /\
    Top c5 = (Ok top, c5) /\ StoreBlock b top = Ok tt.
Proof.
  unfold ConnectBlock. destruct (cn_isClose cn); [done|].
  destruct (validateHeader (cn_store cn) (b_Header b)) as [[]|e|w] eqn:Eh; [|done..].
  destruct (cs_ValidateSignature _ _ _) as [[]|e|w] eqn:Es; [|done..]. simpl. set (ctx0 := NewContext _).
  match goal with |- fst ?m = _ -> _ => destruct m as [r c] eqn:E end. simpl. intros ->.
  split; [done|]. split; [by apply validateHeader_exact|]. split; [done|].
  apply bind_ok_inv in E as ([] & c2 & Hx & E). apply bind_ok_inv in Hx as (signers & ? & Hsg & Hx).
  injection Hsg as Hsg <-. unfold executeBlock in Hx. apply bind_ok_inv in Hx as ([] & c0 & Hbefore & Hx).
  apply bind_ok_inv in Hx as (go & c1 & Htxs%execute_txs_inv & Hx).
  assert (Hrun : txs_ran cn b signers 0 (b_Transactions b) c0 c1 /\
     run_hooks cn (fun p ctw => p_AfterExecuteTransactions p b ctw) c1 = (Ok tt, c2) \/
     exists ran tx rest sg t c1', b_Transactions b = ran ++ tx :: rest /\ txs_ran cn b signers 0 ran c0 c1' /\
       signers !! length ran = Some sg /\ b_TransactionTypes b !! length ran = Some t /\
       tx_out_of_sequence cn t tx sg c1' c2).
  { destruct go.
    - left. split; [done|]. apply bind_ok_inv in Hx as (sz & ? & [= <- <-] & Hx).
      destruct (negb _); [|done]. by apply bind_ok_inv in Hx as ([] & ? & [= <-] & Hx).
    - injection Hx as <-. right. destruct Htxs as (ran & tx & rest & sg & t & c1' & ?). by exists ran, tx, rest, sg, t, c1'. }
  unfold connectBlockWithContext in E. apply bind_ok_inv in E as (h & c3 & Hh & E).
  destruct (bool_decide (h_ContextHash (b_Header b) = h)) eqn:Ed; [|done]. bool_to_prop. subst h.
  apply bind_ok_inv in E as ([] & ? & [= <-] & E). apply bind_ok_inv in E as (sz & ? & [= <- <-] & E).
  apply bind_ok_inv in E as ([] & c3' & Hsz & E).
  assert (c3' = c3) as -> by (destruct (negb _); [by injection Hsz|done]).
  apply bind_ok_inv in E as ([] & c4 & Hsave & E). apply bind_ok_inv in E as ([] & c5 & Hcs%clean_ok_inv & E).
  apply bind_ok_inv in E as (t & c6 & Ht & E). apply bind_ok_inv in E as ([] & c7 & Hst & E). injection Hst as Hst <-.
  injection E as -> <-. assert (c6 = c5) as -> by (unfold Top in Ht; destruct (stack c5); by injection Ht).
  destruct Hrun as [[Hall Hafter]|(ran & tx & rest & sg & t & c1' & Ho)].
  - exists signers, c0, c1, c2, c3, c4, c5. split_and!; try done. by left.
  - exists signers, c0, c1', c2, c3, c4, c5. split_and!; try done. right. by exists ran, tx, rest, sg, t.
Qed.
End Connecting.
