(* ===== verification/SignatureSpec.v ===== *)
(** * The signature check of a block

    [validateTransactionSignatures] of [core/chain/chain.go] splits the transactions
    of a block over goroutines that fill two arrays and report the first error they
    meet.  Whatever order the scheduler runs them in, the outcome is that of checking
    one transaction after the other, up to which of several errors is returned. *)

From stdpp Require Import base gmap list sorting strings.
From Stdlib Require Import ZArith Lia.
From S2P Require Import Prelude Amount Common LevelRoot Types Context ContextSpec Chain.

Section Signatures.
Context {Proc Tx : Type} `{!TxEncoder Tx} `{Sha256} `{Ecrecover}.

(** ** The check, one transaction after the other *)

Fixpoint check_range (ChainID : Z) (b : Block Tx) (lo len : nat) : res (list (Hash256 * list PublicHash)) :=
  match len with
  | O => Ok []
  | S len =>
      match b_TransactionTypes b !! lo, b_Transactions b !! lo, b_TransactionSignatures b !! lo with
      | Some t, Some tx, Some sigs =>
          let TxHash := HashTransactionByType ChainID t tx in
          let? signers := recover_all TxHash sigs in
          let? rest := check_range ChainID b (lo + 1) len in
          Ok ((TxHash, signers) :: rest)
      | _, _, _ => Panic "index out of range"
      end
  end.

Definition validateTransactionSignatures_sequential (cn : Chain Proc Tx) (b : Block Tx) : res (list (list PublicHash)) :=
  let? checked := check_range (pv_ChainID (cn_store cn)) b 0 (length (b_Transactions b)) in
  let? h := BuildLevelRoot (h_PrevHash (b_Header b) :: checked.*1) in
  if negb (bool_decide (h_LevelRootHash (b_Header b) = h)) then Err ErrInvalidLevelRootHash
  else Ok checked.*2.

(** ** One transaction *)

Section Check.
Context (ChainID : Z) (b : Block Tx).
Abbreviation n := (length (b_Transactions b)).

(** Transaction [j] checks out with hash [h] and signers [s]. *)
Definition checks (j : nat) (h : Hash256) (s : list PublicHash) : Prop :=
  exists t tx sigs, b_TransactionTypes b !! j = Some t /\ b_Transactions b !! j = Some tx /\
    b_TransactionSignatures b !! j = Some sigs /\ h = HashTransactionByType ChainID t tx /\ recover_all h sigs = Ok s.

(** Error [e] is one that recovering a signature of the block gives. *)
Definition signature_error (e : error) : Prop :=
  exists j t tx sigs sig, b_TransactionTypes b !! j = Some t /\ b_Transactions b !! j = Some tx /\
    b_TransactionSignatures b !! j = Some sigs /\ sig ∈ sigs /\ recover (HashTransactionByType ChainID t tx) sig = Err e.

Lemma recover_all_length h sigs s : recover_all h sigs = Ok s -> length s = length sigs.
Proof.
  revert s. induction sigs as [|sig sigs IH]; intros s; cbn [recover_all]; [by intros [= <-]|].
  destruct (recover h sig); simpl; [|done..]. destruct (recover_all h sigs) as [s'|e|w]; simpl; [|done..].
  intros [= <-]. simpl. by rewrite (IH s').
Qed.

(** Filling a row of the right length gives the signers, whatever was in it. *)
Lemma recover_row_ok h sigs : forall old row, length row = (length old + length sigs)%nat -> take (length old) row = old ->
  match recover_row h row (length old) sigs with
  | Ok (row', None) => exists s, recover_all h sigs = Ok s /\ row' = old ++ s
  | Ok (_, Some e) => recover_all h sigs = Err e /\ exists sig, sig ∈ sigs /\ recover h sig = Err e
  | Err _ => False
  | Panic w => recover_all h sigs = Panic w /\ exists sig, sig ∈ sigs /\ recover h sig = Panic w
  end.
Proof.
  induction sigs as [|sig sigs IH]; intros old row Hl Ht; cbn [recover_row recover_all].
  - exists []. split; [done|]. rewrite app_nil_r. simpl in Hl. rewrite <- Ht. symmetry. apply firstn_all2. lia.
  - destruct (recover h sig) as [pk|e|w] eqn:Er; simpl; [|by split; [|exists sig; split; [left|]]..].
    assert (Hrow : take (length old + 1) (<[length old := NewPublicHash pk]> row) = old ++ [NewPublicHash pk]).
    { simpl in Hl. rewrite Nat.add_1_r, (take_S_r _ _ (NewPublicHash pk)) by (apply list_lookup_insert_eq; lia).
      by rewrite take_insert_ge, Ht by lia. }
    specialize (IH (old ++ [NewPublicHash pk]) (<[length old := NewPublicHash pk]> row)).
    rewrite length_app, length_insert in IH. simpl in IH, Hl. specialize (IH ltac:(lia) Hrow).
    destruct (recover_row h _ (length old + 1) sigs) as [[row' [e|]]|e|w] eqn:E; [| |done|].
    + destruct IH as [-> (s & Hs & He)]. split; [done|]. exists s. split; [by right|done].
    + destruct IH as (s & -> & ->). eexists. split; [done|]. by rewrite <- app_assoc.
    + destruct IH as [-> (s & Hs & He)]. split; [done|]. exists s. split; [by right|done].
Qed.

(** ** The goroutines *)

Context (u : nat).

(** Transaction [j] is done: the arrays hold what checking it gives. *)
Definition is_done (w : SigCheck) (j : nat) : Prop :=
  exists h s, checks j h s /\ sc_TxHashes w !! (j + 1)%nat = Some h /\ sc_TxSigners w !! j = Some s.

(** What holds while the goroutines run: the shapes of the arrays; goroutine [i] is
    in its slice; and either nothing failed and every transaction before the next
    one of a goroutine is done, or the channel holds errors of signatures. *)
Record sane (w : SigCheck) : Prop := {
  sn_hashes : length (sc_TxHashes w) = S n;
  sn_prev : sc_TxHashes w !! 0%nat = Some (h_PrevHash (b_Header b));
  sn_signers : length (sc_TxSigners w) = n;
  sn_rows : forall j row sigs, sc_TxSigners w !! j = Some row -> b_TransactionSignatures b !! j = Some sigs ->
    length row = length sigs;
  sn_work : forall i q hi, sc_work w !! i = Some (q, hi) -> (hi = Nat.min ((i + 1) * u) n /\ i * u <= q)%nat;
  sn_done : sc_errs w = [] -> forall i q hi j, sc_work w !! i = Some (q, hi) -> (i * u <= j < q)%nat -> is_done w j;
  sn_errs : Forall signature_error (sc_errs w);
  sn_bad : sc_errs w <> [] -> exists j, (j < n)%nat /\ forall h s, ~ checks j h s
}.

Lemma checks_fun j h s h' s' : checks j h s -> checks j h' s' -> h = h' /\ s = s'.
Proof.
  intros (t & tx & sigs & H1 & H2 & H3 & -> & H4) (t' & tx' & sigs' & H1' & H2' & H3' & -> & H4').
  rewrite H1 in H1'. rewrite H2 in H2'. rewrite H3 in H3'. injection H1' as <-. injection H2' as <-. injection H3' as <-.
  rewrite H4 in H4'. by injection H4' as <-.
Qed.

(** Writing what checking [q] gives keeps the done transactions done. *)
Lemma is_done_write w q h s errs work j : checks q h s -> length (sc_TxHashes w) = S n -> length (sc_TxSigners w) = n -> (q < n)%nat ->
  is_done w j \/ j = q ->
  is_done (mkSigCheck (<[(q + 1)%nat := h]> (sc_TxHashes w)) (<[q := s]> (sc_TxSigners w)) errs work) j.
Proof.
  intros Hq L1 L2 Hlt Hj. destruct (decide (j = q)) as [->|Hne].
  - exists h, s. simpl. split; [done|]. rewrite !list_lookup_insert_eq by lia. done.
  - destruct Hj as [(h' & s' & Hc & H1 & H2)|]; [|done]. exists h', s'. simpl.
    rewrite !list_lookup_insert_ne by lia. done.
Qed.

Lemma sane_write w q h row errs work : sane w -> (q < n)%nat ->
  (forall sigs, b_TransactionSignatures b !! q = Some sigs -> length row = length sigs) ->
  let w' := mkSigCheck (<[(q + 1)%nat := h]> (sc_TxHashes w)) (<[q := row]> (sc_TxSigners w)) errs work in
  length (sc_TxHashes w') = S n /\ sc_TxHashes w' !! 0%nat = Some (h_PrevHash (b_Header b)) /\ length (sc_TxSigners w') = n /\
  forall j row' sigs, sc_TxSigners w' !! j = Some row' -> b_TransactionSignatures b !! j = Some sigs -> length row' = length sigs.
Proof.
  intros [L1 Hp L2 Hr _ _ _ _] Hq Hrow. simpl. rewrite !length_insert. split_and!; try done.
  - by rewrite list_lookup_insert_ne by lia.
  - intros j row' sigs Hj Hs. destruct (decide (j = q)) as [->|].
    + rewrite list_lookup_insert_eq in Hj by lia. injection Hj as <-. eauto.
    + rewrite list_lookup_insert_ne in Hj by done. eauto.
Qed.

(** A transaction whose signatures do not all recover does not check. *)
Lemma not_checks q t tx sigs : b_TransactionTypes b !! q = Some t -> b_Transactions b !! q = Some tx ->
  b_TransactionSignatures b !! q = Some sigs -> (forall s, recover_all (HashTransactionByType ChainID t tx) sigs <> Ok s) ->
  forall h s, ~ checks q h s.
Proof.
  intros Ht Htx Hs Hno h s (t' & tx' & sigs' & Ht' & Htx' & Hs' & -> & Hok).
  rewrite Ht in Ht'. rewrite Htx in Htx'. rewrite Hs in Hs'. injection Ht' as <-. injection Htx' as <-. injection Hs' as <-.
  by eapply Hno.
Qed.

Lemma recover_row_length h sigs : forall row k row' err, recover_row h row k sigs = Ok (row', err) -> length row' = length row.
Proof.
  induction sigs as [|sg sigs IH]; intros row k row' err; cbn [recover_row]; [by intros [= <- _]|].
  destruct (recover h sg); [|by intros [= <- _]|done]. intros E. apply IH in E. by rewrite length_insert in E.
Qed.

(** Moving goroutine [i] on within its slice. *)
Lemma work_write w i q hi q' : sane w -> sc_work w !! i = Some (q, hi) -> (q <= q')%nat ->
  forall i' q1 hi1, <[i := (q', hi)]> (sc_work w) !! i' = Some (q1, hi1) ->
    (hi1 = Nat.min ((i' + 1) * u) n /\ i' * u <= q1)%nat /\
    (i' = i /\ q1 = q' \/ sc_work w !! i' = Some (q1, hi1)).
Proof.
  intros Hw Hi Hq i' q1 hi1 Hi'. destruct (decide (i' = i)) as [->|].
  - rewrite list_lookup_insert_eq in Hi' by (by eapply lookup_lt_Some). injection Hi' as <- <-.
    destruct (sn_work w Hw i q hi Hi). split; [split; [done|lia]|by left].
  - rewrite list_lookup_insert_ne in Hi' by done. split; [by eapply sn_work|by right].
Qed.

(** A turn keeps the invariant; it panics only on a transaction that does not check. *)
Lemma goroutine_turn_sane i w : sane w ->
  match goroutine_turn ChainID b i w with
  | Ok w' => sane w'
  | Err _ => False
  | Panic _ => exists j, (j < n)%nat /\ forall h s, ~ checks j h s
  end.
Proof.
  intros Hw. unfold goroutine_turn.
  destruct (sc_work w !! i) as [[q hi]|] eqn:Ei; [|done]. destruct (hi <=? q)%nat eqn:Eq; [done|]. apply Nat.leb_gt in Eq.
  destruct (sn_work w Hw i q hi Ei) as [Hhi Hlo]. assert (Hq : (q < n)%nat) by lia.
  destruct (b_TransactionTypes b !! q) as [t|] eqn:Et; [|exists q; split; [done|]; intros ? ? (? & ? & ? & ? & _); congruence].
  destruct (b_Transactions b !! q) as [tx|] eqn:Etx; [|exists q; split; [done|]; intros ? ? (? & ? & ? & _ & ? & _); congruence].
  destruct (b_TransactionSignatures b !! q) as [sigs|] eqn:Es; [|exists q; split; [done|]; intros ? ? (? & ? & ? & _ & _ & ? & _); congruence].
  pose proof (not_checks q t tx sigs Et Etx Es) as Hno. set (h := HashTransactionByType ChainID t tx) in *.
  destruct (lookup_lt_is_Some_2 (sc_TxSigners w) q ltac:(by rewrite (sn_signers w Hw))) as [row Hrow].
  assert (Hl : length row = length sigs) by (by eapply sn_rows).
  rewrite (nth_lookup_Some _ _ [] _ Hrow). pose proof (recover_row_ok h sigs [] row Hl ltac:(done)) as Hrr. cbn [length] in Hrr.
  destruct (recover_row h row 0 sigs) as [[row' [e|]]|e|wy] eqn:Er; simpl; [| |done|].
  - destruct Hrr as [Hf (sig & Hsig & Hse)].
    destruct (sane_write w q h row' (sc_errs w ++ [e]) (<[i := (hi, hi)]> (sc_work w)) Hw Hq) as (? & ? & ? & ?).
    { intros sigs' Hs'. rewrite Es in Hs'. injection Hs' as <-. rewrite <- Hl. by eapply recover_row_length. }
    split; try done; simpl.
    + intros i' q' hi' Hi'. eapply (work_write w i q hi hi); [done|done|lia|done].
    + by destruct (sc_errs w).
    + apply Forall_app. split; [by apply sn_errs|]. constructor; [|done]. by exists q, t, tx, sigs, sig.
    + intros _. exists q. split; [done|]. apply Hno. intros s Hs. congruence.
  - destruct Hrr as (s & Hs & ->). assert (Hc : checks q h s) by (by exists t, tx, sigs).
    destruct (sane_write w q h s (sc_errs w) (<[i := (q + 1, hi)%nat]> (sc_work w)) Hw Hq) as (? & ? & ? & ?).
    { intros sigs' Hs'. rewrite Es in Hs'. injection Hs' as <-. by eapply recover_all_length. }
    split; try done; simpl; [| |by apply sn_errs|by apply sn_bad].
    + intros i' q' hi' Hi'. eapply (work_write w i q hi (q + 1)); [done|done|lia|done].
    + intros Hne i' q' hi' j Hi' Hj. apply is_done_write; [done|by apply sn_hashes|by apply sn_signers|done|].
      eapply (work_write w i q hi (q + 1)) in Hi' as [_ [[-> ->]|Hi']]; [| |done|done|lia].
      * destruct (decide (j = q)) as [->|]; [by right|]. left. eapply (sn_done w Hw Hne i); [done|]. lia.
      * left. by eapply sn_done.
  - destruct Hrr as [Hf _]. exists q. split; [done|]. apply Hno. intros s Hs. congruence.
Qed.

Lemma run_turns_sane turns : forall w, sane w ->
  match run_turns ChainID b turns w with
  | Ok w' => sane w'
  | Err _ => False
  | Panic _ => exists j, (j < n)%nat /\ forall h s, ~ checks j h s
  end.
Proof.
  induction turns as [|i turns IH]; intros w Hw; [done|]. cbn [run_turns]. pose proof (goroutine_turn_sane i w Hw) as Ht.
  destruct (goroutine_turn ChainID b i w); [by apply IH|done..].
Qed.

(** *** Every goroutine comes to its end *)

(** How many transactions goroutine [i] has left. *)
Definition left_of (w : SigCheck) (i : nat) : nat :=
  match sc_work w !! i with Some (q, hi) => (hi - q)%nat | None => 0%nat end.

Lemma goroutine_turn_left i w w' : goroutine_turn ChainID b i w = Ok w' ->
  length (sc_work w') = length (sc_work w) /\ (left_of w' i <= left_of w i - 1)%nat /\
  forall i', (left_of w' i' <= left_of w i')%nat.
Proof.
  assert (Hmove : forall q hi q' hs sg er, sc_work w !! i = Some (q, hi) -> (hi - q' <= hi - q - 1)%nat ->
    let w' := mkSigCheck hs sg er (<[i := (q', hi)]> (sc_work w)) in
    length (sc_work w') = length (sc_work w) /\ (left_of w' i <= left_of w i - 1)%nat /\ forall i', (left_of w' i' <= left_of w i')%nat).
  { intros q hi q' hs sg er Hi Hq. unfold left_of. simpl. rewrite length_insert. split; [done|].
    rewrite list_lookup_insert_eq, Hi by (by eapply lookup_lt_Some). split; [done|]. intros i'.
    destruct (decide (i' = i)) as [->|]; [rewrite list_lookup_insert_eq, Hi by (by eapply lookup_lt_Some); lia|].
    by rewrite list_lookup_insert_ne. }
  unfold goroutine_turn. destruct (sc_work w !! i) as [[q hi]|] eqn:Ei.
  2: { intros [= <-]. split_and!; [done| |done]. unfold left_of. rewrite Ei. lia. }
  destruct (hi <=? q)%nat eqn:Eq; [apply Nat.leb_le in Eq|apply Nat.leb_gt in Eq].
  { intros [= <-]. split_and!; [done| |done]. unfold left_of. rewrite Ei. lia. }
  destruct (b_TransactionTypes b !! q), (b_Transactions b !! q), (b_TransactionSignatures b !! q); try done.
  destruct (recover_row _ _ _ _) as [[row [e|]]|e|wy]; simpl; [| |done..]; intros [= <-]; eapply Hmove; (done || lia).
Qed.

Lemma run_turns_app l1 l2 w : run_turns ChainID b (l1 ++ l2) w = (let? w := run_turns ChainID b l1 w in run_turns ChainID b l2 w).
Proof. revert w. induction l1 as [|i l1 IH]; intros w; [done|]. cbn [app run_turns]. destruct (goroutine_turn ChainID b i w); simpl; auto. Qed.

Lemma run_turns_left turns : forall w w', run_turns ChainID b turns w = Ok w' ->
  length (sc_work w') = length (sc_work w) /\ forall i, (left_of w' i <= left_of w i)%nat.
Proof.
  induction turns as [|i turns IH]; intros w w'; cbn [run_turns]; [by intros [= <-]|].
  destruct (goroutine_turn ChainID b i w) as [w1|e|y] eqn:E; simpl; [|done..]. apply goroutine_turn_left in E as (L & _ & Hle).
  intros [L' Hle']%IH. split; [congruence|]. intros i'. specialize (Hle i'). specialize (Hle' i'). lia.
Qed.

Lemma run_turns_replicate k i : forall w w', run_turns ChainID b (replicate k i) w = Ok w' -> (left_of w' i <= left_of w i - k)%nat.
Proof.
  induction k as [|k IH]; intros w w'; cbn [replicate run_turns]; [intros [= <-]; lia|].
  destruct (goroutine_turn ChainID b i w) as [w1|e|y] eqn:E; simpl; [|done..]. apply goroutine_turn_left in E as (_ & Hle & _).
  intros Hle'%IH. lia.
Qed.

Lemma last_turns_finish k l : forall w w', run_turns ChainID b (l ≫= replicate k) w = Ok w' ->
  forall i, i ∈ l -> (left_of w i <= k)%nat -> left_of w' i = 0%nat.
Proof.
  induction l as [|i0 l IH]; intros w w' E i Hi Hk; [by apply elem_of_nil in Hi|]. cbn [mbind list_bind] in E. rewrite run_turns_app in E.
  destruct (run_turns ChainID b (replicate k i0) w) as [w1|e|y] eqn:E1; simpl in E; [|done..].
  pose proof (run_turns_left _ _ _ E1) as [_ H1]. specialize (H1 i). pose proof (run_turns_left _ _ _ E) as [_ H2]. specialize (H2 i).
  apply elem_of_cons in Hi as [->|Hi].
  - apply run_turns_replicate in E1. lia.
  - eapply IH; [done|done|lia].
Qed.
End Check.

(** ** The slices *)

Lemma txUnit_spec n c : (0 < c)%nat -> (n <= c * txUnit n c /\ c * txUnit n c <= n + (c - 1))%nat.
Proof.
  intros Hc. unfold txUnit. pose proof (Nat.div_mod n c ltac:(lia)) as Hd.
  pose proof (Nat.mod_upper_bound n c ltac:(lia)) as Hm.
  destruct (n mod c =? 0)%nat eqn:E; [apply Nat.eqb_eq in E | apply Nat.eqb_neq in E]; nia.
Qed.

(** The slices from goroutine [i] on, when none starts beyond the end. *)
Lemma tx_slices_ok n c k i : ((i + k) * txUnit n c <= n + txUnit n c)%nat ->
  exists ss, tx_slices n c i k = Ok ss /\ length ss = k /\
    forall j s, ss !! j = Some s -> s = ((i + j) * txUnit n c, Nat.min ((i + j + 1) * txUnit n c) n)%nat.
Proof.
  revert i. induction k as [|k IH]; intros i Hk; [by exists []|].
  cbn [tx_slices]. unfold tx_slice. set (u := txUnit n c) in *.
  assert (Hi : (i * u <= n)%nat) by nia. destruct (_ <? _)%nat eqn:E; [apply Nat.ltb_lt in E; nia|]. simpl.
  destruct (IH (i + 1)%nat) as (ss & -> & Hl & Hss); [nia|]. simpl. eexists. split; [done|]. split; [simpl; lia|].
  intros [|j] s Hs; simpl in Hs.
  - injection Hs as <-. by rewrite Nat.add_0_r.
  - rewrite (Hss j s Hs). by replace (i + 1 + j)%nat with (i + S j)%nat by lia.
Qed.

(** On up to 16 processors every goroutine has its slice, and they cover the block. *)
Lemma slices_total NumCPU n : (0 < NumCPU <= 16)%nat ->
  let c := cpuCount NumCPU n in
  exists ss, tx_slices n c 0 c = Ok ss /\ length ss = c /\ (n <= c * txUnit n c)%nat /\
    forall j s, ss !! j = Some s -> s = (j * txUnit n c, Nat.min ((j + 1) * txUnit n c) n)%nat.
Proof.
  intros Hcpu c. assert (Hc : (0 < c)%nat /\ (c = 1 \/ c <= 32 /\ 1000 <= n)%nat).
  { unfold c, cpuCount. destruct (n <? 1000)%nat eqn:E; [apply Nat.ltb_lt in E | apply Nat.ltb_ge in E]; lia. }
  destruct Hc as [Hc0 Hc]. pose proof (txUnit_spec n c Hc0) as [Hlo Hhi].
  destruct (tx_slices_ok n c c 0) as (ss & Ess & Hlss & Hss); [|by exists ss].
  simpl. destruct Hc as [-> | [Hc Hn]]; [lia|]. nia.
Qed.

(** ** The result *)

Lemma check_range_exact ChainID (b : Block Tx) len : forall lo,
  (forall checked, check_range ChainID b lo len = Ok checked ->
     length checked = len /\ forall k h s, checked !! k = Some (h, s) -> checks ChainID b (lo + k) h s) /\
  ((forall j, (lo <= j < lo + len)%nat -> exists h s, checks ChainID b j h s) -> exists checked, check_range ChainID b lo len = Ok checked).
Proof.
  induction len as [|len IH]; intros lo; cbn [check_range].
  { split; [intros ? [= <-]; by split|]. intros _. by eexists. }
  destruct (IH (lo + 1)%nat) as [IH1 IH2]. split.
  - intros checked. destruct (b_TransactionTypes b !! lo) as [t|] eqn:Et, (b_Transactions b !! lo) as [tx|] eqn:Etx,
      (b_TransactionSignatures b !! lo) as [sigs|] eqn:Es; try done.
    destruct (recover_all _ sigs) as [s0|e|y] eqn:Er; simpl; [|done..].
    destruct (check_range ChainID b (lo + 1) len) as [rest|e|y]; simpl; [|done..]. intros [= <-].
    destruct (IH1 rest eq_refl) as [Hl Hr]. split; [simpl; lia|]. intros [|k] h s; simpl.
    + intros [= <- <-]. rewrite Nat.add_0_r. by exists t, tx, sigs.
    + intros Hk. replace (lo + S k)%nat with (lo + 1 + k)%nat by lia. by apply Hr.
  - intros Hall. destruct (Hall lo ltac:(lia)) as (h & s & t & tx & sigs & -> & -> & -> & -> & ->). simpl.
    destruct IH2 as [rest ->]; [|simpl; by eexists]. intros j Hj. apply Hall. lia.
Qed.

(** The state the goroutines start from. *)
Lemma sane_start ChainID (b : Block Tx) u ss :
  let n := length (b_Transactions b) in
  (n <= length (b_TransactionSignatures b))%nat ->
  (forall j s, ss !! j = Some s -> s = (j * u, Nat.min ((j + 1) * u) n)%nat) ->
  sane ChainID b u (mkSigCheck (h_PrevHash (b_Header b) :: replicate n EmptyHash)
    ((fun sigs : list Signature => replicate (length sigs) (replicate PublicHashSize 0)) <$> take n (b_TransactionSignatures b)) [] ss).
Proof.
  intros n Hn Hss. split; simpl; try done.
  - by rewrite length_replicate.
  - rewrite length_fmap, length_take. lia.
  - intros j row sigs. rewrite list_lookup_fmap. intros (sigs' & Hs & ->)%fmap_Some Hs'.
    rewrite length_replicate. apply lookup_take_Some in Hs as [Hs _]. congruence.
  - intros i q hi Hi. apply Hss in Hi. injection Hi as -> ->. lia.
  - intros _ i q hi j Hi Hj. apply Hss in Hi. injection Hi as -> ->. lia.
Qed.

(** When every goroutine is through and none failed, the arrays hold what the
    sequential check computes. *)
Lemma finished_arrays ChainID (b : Block Tx) u c w :
  let n := length (b_Transactions b) in
  sane ChainID b u w -> sc_errs w = [] -> (n <= c * u)%nat -> length (sc_work w) = c ->
  (forall i, (i < c)%nat -> left_of w i = 0%nat) ->
  exists checked, check_range ChainID b 0 n = Ok checked /\
    sc_TxHashes w = h_PrevHash (b_Header b) :: checked.*1 /\ sc_TxSigners w = checked.*2.
Proof.
  intros n Hw He Hc Hl Hleft.
  assert (Hall : forall j, (j < n)%nat -> is_done ChainID b w j).
  { intros j Hj. assert (Hu : (u <> 0)%nat) by (intros ->; lia). pose proof (Nat.div_mod_eq j u). pose proof (Nat.mod_upper_bound j u Hu).
    assert (Hi : (j / u < c)%nat) by nia. destruct (lookup_lt_is_Some_2 (sc_work w) (j / u)%nat ltac:(lia)) as [[q hi] Hq].
    destruct (sn_work _ _ _ w Hw _ _ _ Hq) as [Hhi Hlo]. specialize (Hleft _ Hi). unfold left_of in Hleft. rewrite Hq in Hleft.
    eapply (sn_done _ _ _ w Hw He); [done|]. fold n in Hhi. nia. }
  destruct (check_range_exact ChainID b n 0) as [Hex1 Hex2].
  destruct Hex2 as [checked Hck]. { intros j Hj. destruct (Hall j) as (h & s & Hcj & _); [lia|]. by exists h, s. }
  destruct (Hex1 checked Hck) as [Hlen Hk]. exists checked. split; [done|].
  assert (Hat : forall j, (j < n)%nat -> exists h s, checked !! j = Some (h, s) /\
    sc_TxHashes w !! (j + 1)%nat = Some h /\ sc_TxSigners w !! j = Some s).
  { intros j Hj. destruct (Hall j Hj) as (h & s & Hcj & Hh & Hs). destruct (lookup_lt_is_Some_2 checked j ltac:(lia)) as [[h' s'] Hj'].
    destruct (checks_fun _ _ _ _ _ _ _ Hcj (Hk _ _ _ Hj')) as [-> ->]. by exists h', s'. }
  pose proof (sn_hashes _ _ _ w Hw) as L1. pose proof (sn_signers _ _ _ w Hw) as L2. fold n in L1, L2. split.
  - apply list_eq_same_length with (S n); [simpl; rewrite length_fmap; lia|lia|]. intros [|j] x y Hj Hx Hy.
    + rewrite (sn_prev _ _ _ w Hw) in Hx. simpl in Hy. congruence.
    + destruct (Hat j ltac:(lia)) as (h & s & Hc1 & Hh & _). simpl in Hy. rewrite list_lookup_fmap, Hc1 in Hy. simpl in Hy.
      rewrite Nat.add_1_r in Hh. congruence.
  - apply list_eq_same_length with n; [rewrite length_fmap; lia|lia|]. intros j x y Hj Hx Hy.
    destruct (Hat j Hj) as (h & s & Hc1 & _ & Hs). rewrite list_lookup_fmap, Hc1 in Hy. simpl in Hy. congruence.
Qed.

(** The run of the goroutines: it panics only when a transaction does not check; it
    leaves either errors of signatures, when one does not check, or the arrays. *)
Lemma parallel_run NumCPU turns (cn : Chain Proc Tx) (b : Block Tx) :
  let ChainID := pv_ChainID (cn_store cn) in
  (0 < NumCPU <= 16)%nat ->
  match validateTransactionSignatures NumCPU turns cn b with
  | Panic w => (exists j, (j < length (b_Transactions b))%nat /\ forall h s, ~ checks ChainID b j h s) \/
      validateTransactionSignatures_sequential cn b = Panic w
  | r => r = validateTransactionSignatures_sequential cn b \/
      (exists e, r = Err e /\ signature_error ChainID b e) /\
      exists j, (j < length (b_Transactions b))%nat /\ forall h s, ~ checks ChainID b j h s
  end.
Proof.
  intros ChainID Hcpu. unfold validateTransactionSignatures, validateTransactionSignatures_sequential.
  fold ChainID. set (n := length (b_Transactions b)). set (c := cpuCount NumCPU n). set (u := txUnit n c).
  destruct (_ <? n)%nat eqn:Esig; [apply Nat.ltb_lt in Esig|apply Nat.ltb_ge in Esig].
  { left. exists (length (b_TransactionSignatures b)). split; [done|]. intros h s (? & ? & ? & _ & _ & Hs & _).
    apply lookup_lt_Some in Hs. lia. }
  destruct (slices_total NumCPU n Hcpu) as (ss & Ess & Hlss & Hlo & Hss). fold c in Ess, Hlss, Hlo, Hss.
  rewrite Ess. cbn [res_bind]. fold u in Hlo, Hss. set (w0 := mkSigCheck _ _ _ _).
  assert (Hw0 : sane ChainID b u w0) by (by apply sane_start).
  pose proof (run_turns_sane ChainID b u (turns ++ last_turns c u) w0 Hw0) as Hrun.
  destruct (run_turns ChainID b (turns ++ last_turns c u) w0) as [w|e|y] eqn:Er; cbn [res_bind]; [|done|by left].
  destruct (sc_errs w) as [|e errs] eqn:Ee.
  - destruct (finished_arrays ChainID b u c w Hrun Ee Hlo) as (checked & Hck & -> & ->).
    + by rewrite (proj1 (run_turns_left _ _ _ _ _ Er)).
    + intros i Hi. rewrite run_turns_app in Er. destruct (run_turns ChainID b turns w0) as [w1|e|y] eqn:E1; [|done..].
      simpl in Er. eapply (last_turns_finish ChainID b u (seq 0 c)); [done|by apply elem_of_seq; lia|].
      pose proof (proj2 (run_turns_left _ _ _ _ _ E1) i) as Hle. etransitivity; [exact Hle|]. unfold left_of, w0. simpl.
      destruct (ss !! i) as [s|] eqn:Ei; [|lia]. rewrite (Hss i s Ei). simpl. lia.
    + fold n in Hck. rewrite Hck. cbn [res_bind]. destruct (let? h := BuildLevelRoot _ in _); [by left|by left|by right].
  - right. split.
    + exists e. split; [done|]. pose proof (sn_errs _ _ _ w Hrun) as Hf. rewrite Ee in Hf. by inversion Hf.
    + apply (sn_bad _ _ _ w Hrun). by rewrite Ee.
Qed.

(** A block of full shape, with a recovery that does not panic, makes no goroutine
    panic. *)
Lemma goroutine_turn_no_panic ChainID (b : Block Tx) u i w y :
  let n := length (b_Transactions b) in
  (n <= length (b_TransactionTypes b))%nat -> (n <= length (b_TransactionSignatures b))%nat ->
  (forall h sig y, recover h sig <> Panic y) -> sane ChainID b u w ->
  goroutine_turn ChainID b i w <> Panic y.
Proof.
  intros n Ht Hs Hr Hw. unfold goroutine_turn. destruct (sc_work w !! i) as [[q hi]|] eqn:Ei; [|done].
  destruct (hi <=? q)%nat eqn:Eq; [done|]. apply Nat.leb_gt in Eq.
  destruct (sn_work _ _ _ w Hw i q hi Ei) as [Hhi _]. fold n in Hhi.
  destruct (lookup_lt_is_Some_2 (b_TransactionTypes b) q ltac:(lia)) as [t ->].
  destruct (lookup_lt_is_Some_2 (b_Transactions b) q ltac:(fold n; lia)) as [tx ->].
  destruct (lookup_lt_is_Some_2 (b_TransactionSignatures b) q ltac:(lia)) as [sigs ->].
  set (h := HashTransactionByType ChainID t tx).
  assert (Hrow : forall sigs row k, recover_row h row k sigs <> Panic y).
  { clear -Hr. induction sigs as [|sg sigs IH]; intros row k; cbn [recover_row]; [done|].
    specialize (Hr h sg). destruct (recover h sg); [apply IH|done|by destruct (Hr why)]. }
  specialize (Hrow sigs (nth q (sc_TxSigners w) []) 0%nat). destruct (recover_row _ _ _ _) as [[row [e|]]|e|y']; simpl; try done.
  intros [= ->]. done.
Qed.

Lemma signature_check_no_panic NumCPU turns (cn : Chain Proc Tx) (b : Block Tx) y :
  let n := length (b_Transactions b) in
  (0 < NumCPU <= 16)%nat -> (n <= length (b_TransactionTypes b))%nat -> (n <= length (b_TransactionSignatures b))%nat ->
  (forall h sig y, recover h sig <> Panic y) -> validateTransactionSignatures NumCPU turns cn b <> Panic y.
Proof.
  intros n Hcpu Ht Hs Hr Hp. unfold validateTransactionSignatures in Hp. fold n in Hp.
  rewrite (proj2 (Nat.ltb_ge _ _) Hs) in Hp. set (c := cpuCount NumCPU n) in Hp. set (u := txUnit n c) in Hp.
  destruct (slices_total NumCPU n Hcpu) as (ss & Ess & Hlss & Hlo & Hss). fold c in Ess, Hlss, Hlo, Hss.
  rewrite Ess in Hp. cbn [res_bind] in Hp. set (w0 := mkSigCheck _ _ _ _) in Hp.
  assert (Hw0 : sane (pv_ChainID (cn_store cn)) b u w0) by (by apply sane_start).
  assert (Hrun : forall l w, sane (pv_ChainID (cn_store cn)) b u w -> forall y, run_turns (pv_ChainID (cn_store cn)) b l w <> Panic y).
  { clear -Ht Hs Hr. induction l as [|i l IH]; intros w Hw y; cbn [run_turns]; [done|].
    pose proof (goroutine_turn_sane _ _ _ i w Hw) as Hg. pose proof (goroutine_turn_no_panic _ b u i w y Ht Hs Hr Hw) as Hn.
    destruct (goroutine_turn _ b i w); simpl; [by apply IH|done|]. intros [= ->]. done. }
  specialize (Hrun (turns ++ last_turns c u) w0 Hw0). pose proof (run_turns_sane _ _ _ (turns ++ last_turns c u) w0 Hw0) as Hok.
  destruct (run_turns _ b (turns ++ last_turns c u) w0) as [w|e|y']; [|done|by destruct (Hrun y')]. simpl in Hp.
  destruct (sc_errs w); [|done]. destruct (BuildLevelRoot_total (sc_TxHashes w)) as (H0' & H1 & H2).
  pose proof (sn_hashes _ _ _ w Hok) as Hl.
  destruct (decide (length (sc_TxHashes w) <= Z.to_nat 65536)%nat) as [Hle|Hgt].
  - destruct H1 as (h & Hh & _); [lia|]. rewrite Hh in Hp. simpl in Hp. by destruct (negb _).
  - rewrite H2 in Hp by lia. done.
Qed.

(** Signers are returned exactly when the sequential check returns them. *)
Lemma parallel_signers (NumCPU : nat) (turns : list nat) (cn : Chain Proc Tx) (b : Block Tx) (signers : list (list PublicHash)) :
  (0 < NumCPU <= 16)%nat ->
  validateTransactionSignatures NumCPU turns cn b = Ok signers <-> validateTransactionSignatures_sequential cn b = Ok signers.
Proof.
  intros Hcpu. pose proof (parallel_run NumCPU turns cn b Hcpu) as Hrun. cbn zeta in Hrun.
  assert (Hbad : (exists j, (j < length (b_Transactions b))%nat /\ forall h s, ~ checks (pv_ChainID (cn_store cn)) b j h s) ->
    forall r, validateTransactionSignatures_sequential cn b <> Ok r).
  { intros (j & Hj & Hno) r. unfold validateTransactionSignatures_sequential.
    destruct (check_range_exact (pv_ChainID (cn_store cn)) b (length (b_Transactions b)) 0) as [Hex _].
    destruct (check_range _ b 0 _) as [checked|e|y]; simpl; [|done..]. destruct (Hex checked eq_refl) as [Hl Hk].
    destruct (lookup_lt_is_Some_2 checked j ltac:(lia)) as [[h s] Hjs]. by destruct (Hno h s (Hk _ _ _ Hjs)). }
  split.
  - intros E. rewrite E in Hrun. by destruct Hrun as [<-|[(? & [=] & _) _]].
  - intros E. destruct (validateTransactionSignatures NumCPU turns cn b) as [r'|e|y].
    + destruct Hrun as [->|[_ Hb]]; [done|by destruct (Hbad Hb signers)].
    + destruct Hrun as [->|[_ Hb]]; [done|by destruct (Hbad Hb signers)].
    + destruct Hrun as [Hb|Hp]; [by destruct (Hbad Hb signers)|congruence].
Qed.

(** C37. The signature check of a block on up to 16 processors, whatever order its
    goroutines run in: it returns signers exactly when checking the transactions one
    after the other does, and the same ones; an error it returns is the one of the
    sequential check or the error of some signature of the block; and when the
    block has a type and signatures for every transaction, and recovering a key does
    not panic, the check does not panic. *)
Theorem parallel_signature_check (NumCPU : nat) (turns : list nat) (cn : Chain Proc Tx) (b : Block Tx) :
  (0 < NumCPU <= 16)%nat ->
  (forall signers, validateTransactionSignatures NumCPU turns cn b = Ok signers <->
                   validateTransactionSignatures_sequential cn b = Ok signers) /\
  (forall e, validateTransactionSignatures NumCPU turns cn b = Err e ->
     validateTransactionSignatures_sequential cn b = Err e \/ signature_error (pv_ChainID (cn_store cn)) b e) /\
  ((length (b_Transactions b) <= length (b_TransactionTypes b))%nat ->
   (length (b_Transactions b) <= length (b_TransactionSignatures b))%nat ->
   (forall h sig y, recover h sig <> Panic y) ->
   forall y, validateTransactionSignatures NumCPU turns cn b <> Panic y).
Proof.
  intros Hcpu. split_and!.
  - intros r. by apply parallel_signers.
  - intros e E. pose proof (parallel_run NumCPU turns cn b Hcpu) as Hrun. cbn zeta in Hrun. rewrite E in Hrun.
    destruct Hrun as [<-|[(e' & [= <-] & He) _]]; auto.
  - intros Ht Hs Hr y. by apply signature_check_no_panic.
Qed.

(** On a machine of 32 processors a block of 1000 transactions makes the node
    panic before any signature is checked: the last goroutine's part would start
    at transaction 1008. *)
Lemma signature_check_panics_on_many_cores (turns : list nat) (cn : Chain Proc Tx) (b : Block Tx) :
  length (b_Transactions b) = 1000%nat -> length (b_TransactionSignatures b) = 1000%nat ->
  validateTransactionSignatures 32 turns cn b = Panic "slice bounds out of range".
Proof.
  intros Hn Hs. unfold validateTransactionSignatures. rewrite Hn, Hs.
  assert (E : tx_slices 1000 (cpuCount 32 1000) 0 (cpuCount 32 1000) = Panic "slice bounds out of range") by (by vm_compute).
  by rewrite E.
Qed.
End Signatures.
