(* ===== verification/VaultProcess.v ===== *)
(** * The vault as a process of the chain

    The transactions of [process/vault] behind [types.Transaction] and the process
    behind [types.Process], the proof that they keep the promises [ChainSpec] asks of
    transactions, and what follows for blocks of them: creator and validator agree,
    a transfer can be run again, and a block of two transfers can destroy money. *)

From stdpp Require Import base gmap list sorting strings.
From Stdlib Require Import ZArith Lia.
From S2P Require Import Prelude Amount Common LevelRoot Types Context ContextSpec ContextFacts Vault VaultSpec VaultLocked Chain ChainSpec SignatureSpec.

(** ** The instances *)

Inductive VaultTx :=
  | VTransfer (tx : Transfer)
  | VBurn (tx : Burn)
  | VCreateAccount (tx : CreateAccountTx)
  | VCreateMultiAccount (tx : CreateMultiAccount)
  | VIssueAccount (tx : IssueAccount)
  | VUpdatePolicy (tx : UpdatePolicy).

(** The vault, and the application, whose hooks are those of [types.ApplicationBase]. *)
Inductive NodeProcess := VaultProcess (p : Vault) | BaseApplication (Name : bytes).

Section Instances.
Context `{!Unmarshaler Policy, !Marshaler (option Policy)} `{B58 : Base58}.
Context (range : gmap Address Amount -> list (Address * Amount)).

Section Methods.
Context {S : Type} `{!ContextOps S}.

(** The type assertion of the process to a vault; it panics on another one. *)
Definition as_vault (p : NodeProcess) (k : Vault -> ST S unit) : ST S unit :=
  match p with VaultProcess v => k v | BaseApplication _ => throw "interface conversion" end.

Definition VaultTx_Validate (tx : VaultTx) (p : NodeProcess) (ctw : ContextWrapper) (signers : list PublicHash) : ST S unit :=
  as_vault p (fun v =>
    match tx with
    | VTransfer tx => Transfer_Validate v ctw tx signers
    | VBurn tx => Burn_Validate v ctw tx signers
    | VCreateAccount tx => CreateAccount_Validate v ctw tx signers
    | VCreateMultiAccount tx => CreateMultiAccount_Validate v ctw tx signers
    | VIssueAccount tx => IssueAccount_Validate v ctw tx signers
    | VUpdatePolicy tx => UpdatePolicy_Validate v ctw tx signers
    end).

Definition VaultTx_Execute (tx : VaultTx) (p : NodeProcess) (ctw : ContextWrapper) (index : Z) : ST S unit :=
  as_vault p (fun v =>
    match tx with
    | VTransfer tx => Transfer_Execute v ctw tx index
    | VBurn tx => Burn_Execute v ctw tx index
    | VCreateAccount tx => CreateAccount_Execute v ctw tx index
    | VCreateMultiAccount tx => CreateMultiAccount_Execute v ctw tx index
    | VIssueAccount tx => IssueAccount_Execute ctw tx index
    | VUpdatePolicy tx => UpdatePolicy_Execute ctw tx index
    end).
End Methods.

(** [Transfer] has no method [Seq], so it is not an [AccountTransaction]. *)
Definition VaultTx_account (tx : VaultTx) : option (Z * Address) :=
  match tx with
  | VTransfer _ => None
  | VBurn tx => Some (bu_Seq tx, bu_From tx)
  | VCreateAccount tx => Some (ca_Seq tx, ca_From tx)
  | VCreateMultiAccount tx => Some (cm_Seq tx, cm_From tx)
  | VIssueAccount tx => Some (is_Seq tx, is_From tx)
  | VUpdatePolicy tx => Some (up_Seq tx, up_From tx)
  end.

#[export] Instance vault_transactions : TransactionI NodeProcess VaultTx := {|
  tx_Validate S _ := VaultTx_Validate;
  tx_Execute S _ := VaultTx_Execute;
  tx_account := VaultTx_account
|}.

Definition NodeProcess_After {S} `{!ContextOps S} (p : NodeProcess) (b : Block VaultTx) (ctw : ContextWrapper) : ST S unit :=
  match p with
  | VaultProcess v => vault_AfterExecuteTransactions v range (h_Height (b_Header b)) ctw
  | BaseApplication _ => ret tt
  end.

Definition vault_processes : ProcessI NodeProcess VaultTx := {|
  p_ID p := match p with VaultProcess v => vault_pid v | BaseApplication _ => 255 end;
  p_Name p := match p with VaultProcess _ => vault_Name | BaseApplication n => n end;
  p_BeforeExecuteTransactions S _ _ _ := ret tt;
  p_AfterExecuteTransactions S _ := NodeProcess_After;
  p_OnSaveData S _ _ _ _ := ret tt
|}.

(** ** The transactions keep the promises *)

(** Key hashes have their length: in Go they are arrays. *)
Definition VaultTx_ok (tx : VaultTx) : Prop :=
  match tx with
  | VCreateAccount tx => length (ca_KeyHash tx) = PublicHashSize
  | VCreateMultiAccount tx => Forall (fun k => length k = PublicHashSize) (cm_KeyHashes tx)
  | VIssueAccount tx => length (is_KeyHash tx) = PublicHashSize
  | _ => True
  end.

Lemma single_ok addr name k : length k = PublicHashSize -> acc_ok (ASingle (mkSingle addr name k)).
Proof. intros Hk. unfold acc_ok, acc_Clone, SingleAccount_Clone, pubhash_Clone. simpl. by rewrite copy_into_id. Qed.

Lemma multi_ok addr name r ks : Forall (fun k => length k = PublicHashSize) ks -> acc_ok (AMulti (mkMulti addr name r ks)).
Proof.
  intros Hk. unfold acc_ok, acc_Clone, MultiAccount_Clone, pubhash_Clone. simpl. do 3 f_equal.
  induction Hk as [|k ks H _ IH]; [done|]. csimpl. by rewrite IH, copy_into_id.
Qed.

#[local] Hint Resolve sim_w_AccountData sim_w_SetAccountData sim_w_ProcessData sim_w_SetProcessData sim_AdminAddress sim_Balance
  sim_AddBalance sim_SubBalance sim_AddCollectedFee sim_WithFee sim_CollectedFee single_ok multi_ok : simulation.

Lemma sim_CheckFeePayableWith v from am : simulates (CheckFeePayableWith v (fee_tx from) am) (CheckFeePayableWith v (fee_tx from) am).
Proof. unfold CheckFeePayableWith, fee_tx. cbn [ft_Fee ft_From]. simulate. Qed.

#[local] Hint Resolve sim_CheckFeePayableWith : simulation.

Lemma sim_VaultTx_Validate tx p ctw signers : simulates (VaultTx_Validate tx p ctw signers) (VaultTx_Validate tx p ctw signers).
Proof.
  unfold VaultTx_Validate, as_vault. destruct p; [|apply sim_throw]. destruct tx;
    unfold Transfer_Validate, Burn_Validate, CreateAccount_Validate, CreateMultiAccount_Validate, IssueAccount_Validate,
      UpdatePolicy_Validate, require_account, require_signers, require_fresh_seq, require_new_name, require_admin, read_policy;
    simulate.
Qed.

Lemma sim_VaultTx_Execute tx p ctw i : VaultTx_ok tx -> simulates (VaultTx_Execute tx p ctw i) (VaultTx_Execute tx p ctw i).
Proof.
  intros Hok. unfold VaultTx_Execute, as_vault. destruct p; [|apply sim_throw]. destruct tx; simpl in Hok;
    unfold Transfer_Execute, Burn_Execute, CreateAccount_Execute, CreateMultiAccount_Execute, IssueAccount_Execute,
      UpdatePolicy_Execute, read_policy; try (apply sim_WithFee); simulate.
Qed.

(** *** They leave the levels below alone *)

Lemma keeps_local {A} (m : absM A) : local_op m -> keeps_below m.
Proof. intros Hm a Ha. destruct (Hm a Ha) as (r & a' & -> & Hp & Hs & Ha'). by destruct r. Qed.

Lemma keeps_read {A} (f : AbsCtx -> res A) : keeps_below (fun a => (f a, a)).
Proof. intros a Ha. destruct (f a); try done; (split; [apply same_below_refl | done]). Qed.

Lemma keeps_bind {A B} (m : absM A) (k : A -> absM B) : keeps_below m -> (forall x, keeps_below (k x)) -> keeps_below (bind m k).
Proof.
  intros Hm Hk a Ha. unfold bind. specialize (Hm a Ha). destruct (m a) as [[x|e|w] a1]; [|done|done].
  destruct Hm as [Hs Ha1]. specialize (Hk x a1 Ha1). destruct (k x a1) as [[y|e|w] a2]; [| |done];
    destruct Hk; (split; [by eapply same_below_trans | done]).
Qed.

Lemma keeps_attempt {A} (m : absM A) : keeps_below m -> keeps_below (attempt m).
Proof. intros Hm a Ha. unfold attempt. specialize (Hm a Ha). by destruct (m a) as [[x|e|w] a1]. Qed.

Lemma keeps_frame g : (forall f, frame_safe f -> frame_safe (g f)) -> keeps_below (on_frame g).
Proof. intros. by apply keeps_local, local_frame. Qed.

Lemma keeps_SetAccountData addr pid name v : keeps_below (op_SetAccountData addr pid name v).
Proof. apply keeps_frame. by intros f []. Qed.

Lemma keeps_SetProcessData pid name v : keeps_below (op_SetProcessData pid name v).
Proof. apply keeps_frame. by intros f []. Qed.

Lemma keeps_CreateAccount acc : keeps_below (op_CreateAccount acc).
Proof. apply keeps_local, local_create. Qed.

(** Walk over a handler. *)
Ltac keeps :=
  repeat first
    [ apply keeps_SetAccountData | apply keeps_SetProcessData | apply keeps_CreateAccount
    | match goal with
      | |- keeps_below (bind _ _) => apply keeps_bind; [|intros ?]
      | |- keeps_below (attempt _) => apply keeps_attempt
      | |- keeps_below (match ?x with _ => _ end) => destruct x
      end
    | apply keeps_read ].

Lemma keeps_SubBalance v ctw addr am : keeps_below (SubBalance v ctw addr am).
Proof. unfold SubBalance, RemoveBalance, Balance, w_SetAccountData. keeps. Qed.

Lemma keeps_AddBalance v ctw addr am : keeps_below (AddBalance v ctw addr am).
Proof. unfold AddBalance, Balance, w_SetAccountData. keeps. Qed.

Lemma keeps_AddCollectedFee v ctw am : keeps_below (AddCollectedFee v ctw am).
Proof. unfold AddCollectedFee, CollectedFee, w_SetProcessData. keeps. Qed.

(** A body between a snapshot and its commit or revert. *)
Lemma keeps_snapshot (fn : absM unit) : keeps_below fn -> keeps_below (
  let! sn := op_Snapshot in
  let! r := attempt fn in
  match r with inl err => op_Revert sn ;;; fail err | inr _ => op_Commit sn end).
Proof.
  intros Hf a Ha. pose proof Ha as (Hb & Ht & Hbs). rewrite (bind_ok _ _ _ _ _ (abs_Snapshot_spec a)). fold (snapshot_of a).
  pose proof (Hf _ (snapshot_safe a Ha)) as Hs. destruct (fn (snapshot_of a)) as [[x|e|w] s] eqn:E.
  - rewrite (bind_ok _ _ _ _ _ (attempt_ok _ _ _ _ E)). destruct Hs as [Hs Hsafe].
    cbn [op_Commit abs_ops]. rewrite abs_Commit_back by done. split; [done|]. by apply committed_safe.
  - rewrite (bind_ok _ _ _ _ _ (attempt_err _ _ _ _ E)). destruct Hs as [Hs Hsafe].
    rewrite (bind_ok _ _ _ _ _ (abs_Revert_back a s Hb Hs)). split; [apply same_below_refl | done].
  - by rewrite (bind_panic _ _ _ _ _ (attempt_panic _ _ _ _ E)).
Qed.

Lemma keeps_WithFee v ctw from fn : keeps_below fn -> keeps_below (WithFee v ctw (fee_tx from) fn).
Proof.
  intros Hf. unfold WithFee, fee_tx. cbn [ft_From ft_Fee].
  apply keeps_bind; [apply keeps_read|]. intros fee. apply keeps_bind; [apply keeps_SubBalance|]. intros _.
  apply keeps_bind; [apply keeps_bind; [apply keeps_read|]; intros; apply keeps_read|]. intros cf.
  apply keeps_bind; [apply keeps_SetProcessData|]. intros _. by apply keeps_snapshot.
Qed.

Lemma keeps_VaultTx_Validate tx p ctw signers : keeps_below (VaultTx_Validate tx p ctw signers).
Proof.
  unfold VaultTx_Validate, as_vault. destruct p; [|by apply keeps_read]. destruct tx;
    unfold Transfer_Validate, Burn_Validate, CreateAccount_Validate, CreateMultiAccount_Validate, IssueAccount_Validate,
      UpdatePolicy_Validate, require_account, require_signers, require_fresh_seq, require_new_name, require_admin, read_policy,
      CheckFeePayableWith, AdminAddress, Balance, guard, w_ProcessData; keeps.
Qed.

Lemma keeps_VaultTx_Execute tx p ctw i : keeps_below (VaultTx_Execute tx p ctw i).
Proof.
  unfold VaultTx_Execute, as_vault. destruct p; [|by apply keeps_read]. destruct tx;
    unfold Transfer_Execute, Burn_Execute, CreateAccount_Execute, CreateMultiAccount_Execute, IssueAccount_Execute,
      UpdatePolicy_Execute, read_policy, w_ProcessData, w_SetProcessData; try apply keeps_WithFee;
    repeat match goal with
    | |- keeps_below (bind _ _) => apply keeps_bind; [|intros ?]
    | |- keeps_below (SubBalance _ _ _ _) => apply keeps_SubBalance
    | |- keeps_below (AddBalance _ _ _ _) => apply keeps_AddBalance
    | |- keeps_below (AddCollectedFee _ _ _) => apply keeps_AddCollectedFee
    | |- keeps_below (op_SetProcessData _ _ _) => apply keeps_SetProcessData
    | |- keeps_below (op_CreateAccount _) => apply keeps_CreateAccount
    | |- keeps_below _ => apply keeps_read
    end.
Qed.

#[export] Instance vault_laws : TxLaws NodeProcess VaultTx := {|
  tx_ok := VaultTx_ok;
  law_validate_sim tx p ctw signers _ := sim_VaultTx_Validate tx p ctw signers;
  law_execute_sim := sim_VaultTx_Execute;
  law_validate_keeps tx p ctw signers _ := keeps_VaultTx_Validate tx p ctw signers;
  law_execute_keeps tx p ctw i _ := keeps_VaultTx_Execute tx p ctw i
|}.
End Instances.

(** ** Replaying a transfer *)

Section Replay.
Context `{B58 : Base58} (v : Vault).

(** What [Transfer_Validate] checks. *)
Definition transfer_valid (f : Frame) (tx : Transfer) (signers : list PublicHash) : Prop :=
  tx_fee <= tr_Amount tx /\ f_hasacc f (tr_To tx) = Ok true /\
  (exists acc, f_acc f (tr_From tx) = Ok acc /\ acc_Validate acc signers = Ok tt) /\
  tr_Amount tx + tx_fee <= bal v f (tr_From tx).

Lemma abs_Transfer_Validate ctw tx signers a a' :
  Transfer_Validate v ctw tx signers a = (Ok tt, a') <-> a' = a /\ transfer_valid (a_top a) tx signers.
Proof.
  unfold Transfer_Validate, transfer_valid. rewrite dust_value. fold tx_fee.
  rewrite (bind_ok (lift (Ok tx_fee)) _ a tx_fee a eq_refl). unfold Less.
  destruct (tr_Amount tx <? tx_fee) eqn:E1; bool_to_prop; [split; [done|lia]|]. cbn [negb guard].
  rewrite (bind_ok (ret tt) _ a tt a eq_refl). unfold require_account.
  change (op_HasAccount (tr_To tx)) with (fun a : AbsCtx => (f_hasacc (a_top a) (tr_To tx), a)).
  unfold bind at 1 2. destruct (f_hasacc (a_top a) (tr_To tx)) as [[]|e|w]; cbn [guard ret fail];
    [|by split; [|intros (_ & _ & [=] & _)]..].
  unfold require_signers. change (op_Account (tr_From tx)) with (fun a : AbsCtx => (f_acc (a_top a) (tr_From tx), a)).
  unfold bind at 1 2. destruct (f_acc (a_top a) (tr_From tx)) as [acc|e|w]; [|by split; [|intros (_ & _ & _ & (? & [=] & _) & _)]..].
  unfold lift. destruct (acc_Validate acc signers) as [[]|e|w] eqn:Ev;
    [|by split; [|intros (_ & _ & _ & (? & [= <-] & ?) & _); congruence]..].
  unfold CheckFeePayableWith, fee_tx. cbn [ft_Fee ft_From]. rewrite dust_value. fold tx_fee.
  rewrite (bind_ok (lift (Ok tx_fee)) _ a tx_fee a eq_refl), (bind_ok _ _ _ _ _ (abs_Balance v (tr_From tx) a)). unfold Less, Add.
  destruct (_ <? _) eqn:E2; bool_to_prop; [split; [done|lia]|].
  split; [intros [= <-]|intros [-> _]; done]. split; [done|]. split_and!; eauto.
Qed.

(** A deleted account does not answer. *)
Lemma gone_reads ctx addr : f_gone (a_top (abs ctx)) addr = true ->
  f_acc (a_top (abs ctx)) addr = Err ErrDeletedAccount /\ f_hasacc (a_top (abs ctx)) addr = Ok false.
Proof.
  unfold abs, frame_of. simpl. destruct (stack ctx) as [|c ps]; [done|]. simpl. unfold account_hit, hasacc_hit. by intros ->.
Qed.

(** Nothing ties a transfer to one execution: it carries no sequence the
    chain looks at, and after it was validated and executed the same signed
    transfer validates again as long as the sender's balance covers it. *)
Lemma Transfer_can_be_replayed (ctx c1 c2 : Context_) (ctw : ContextWrapper) (tx : Transfer) (signers : list PublicHash) (index : Z) :
  ctx_ok ctx -> Transfer_Validate v ctw tx signers ctx = (Ok tt, c1) ->
  Transfer_Execute v ctw tx index c1 = (Ok tt, c2) ->
  tr_Amount tx + tx_fee <= balance_of v c2 (tr_From tx) ->
  VaultTx_account (VTransfer tx) = None /\
  exists c3, Transfer_Validate v ctw tx signers c2 = (Ok tt, c3).
Proof.
  intros Hc Hval Hex Hbal. split; [done|].
  assert (Hsim : simulates (Transfer_Validate v ctw tx signers) (Transfer_Validate v ctw tx signers)).
  { unfold Transfer_Validate, require_account, require_signers. simulate. apply sim_CheckFeePayableWith. }
  pose proof (Hsim ctx Hc) as Hs. rewrite Hval in Hs. destruct Hs as [Hc1 Ha].
  apply abs_Transfer_Validate in Ha as [Ha (Hd & Hto & (acc & Hacc & Hsig) & Hb)].
  assert (E1 : a_top (abs c1) = a_top (abs ctx)) by (by rewrite Ha). rewrite <- E1 in Hto, Hacc, Hb.
  destruct (Transfer_outcome v c1 ctw tx index Hc1) as (r & c2' & E & Hc2 & Hout). rewrite Hex in E. injection E as <- <-.
  cbn zeta in Hout.
  destruct Hout as [(_ & [=] & _) | [(_ & _ & [e [=]] & _) | (_ & _ & _ & Ha2)]].
  assert (Hgone : forall addr, f_gone (a_top (after_fee v (abs c1) (tr_From tx) tx_fee)) addr = f_gone (a_top (abs c1)) addr) by done.
  assert (Hvalid : transfer_valid (a_top (abs c2)) tx signers).
  { rewrite Ha2. unfold transfer_valid, transferred, frame_commit. cbn [a_top set_top f_hasacc f_acc]. rewrite !Hgone.
    split_and!; [done| | |].
    - destruct (f_gone (a_top (abs c1)) (tr_To tx)) eqn:Eg; [|done]. apply gone_reads in Eg as [_ Eg]. congruence.
    - exists acc. destruct (f_gone (a_top (abs c1)) (tr_From tx)) eqn:Eg; [|done]. apply gone_reads in Eg as [Eg _]. congruence.
    - assert (Hb2 : balance_of v c2 (tr_From tx) = bal v (a_top (abs c2)) (tr_From tx)) by done.
      rewrite Hb2, Ha2 in Hbal. exact Hbal. }
  pose proof (Hsim c2 Hc2) as Hs2. rewrite (proj2 (abs_Transfer_Validate ctw tx signers (abs c2) (abs c2)) (conj eq_refl Hvalid)) in Hs2.
  destruct (Transfer_Validate v ctw tx signers c2) as [[[]|e|w] c3]; [by eexists|by destruct Hs2 as [_ [=]]|done].
Qed.
End Replay.

(** ** A node with the vault *)

#[export] Instance policy_bytes : Marshaler (option Policy) := fun o =>
  match o with Some pc => 1 :: Bytes (AccountCreationAmount pc) | None => [0] end.
#[export] Instance bytes_policy : Unmarshaler Policy := fun bs =>
  match bs with
  | 1 :: r => Ok (mkPolicy (NewAmountFromBytes r))
  | _ => Err (mkError "msgpack" "invalid")
  end.
#[export] Instance node_processes : ProcessI NodeProcess VaultTx := vault_processes map_to_list.

Definition node_consensus : Consensus VaultTx :=
  mkConsensus VaultTx (fun _ _ => Ok tt) (fun S _ _ _ => ret tt).
Definition node_provider (ld : Loader) : Provider := mkProvider 1 1 (0, EmptyHash, 0) (fun _ => Err ErrNotExistAccount) ld.
Definition node_app : NodeProcess := BaseApplication (str "app").
Definition node_chain : Chain NodeProcess VaultTx :=
  mkChain true (node_provider emptyLoader) node_consensus node_app [VaultProcess ex_vault]
    {[vault_Name := 2]} {[2 := 0%nat]} [] ∅ false.

(** Three accounts with their keys and balances. *)
Definition node_key (n : Z) : PublicHash := replicate 31 n.
Definition node_addr (n : Z) : Address := NewAddress 0 n 0.
Definition node_account (n : Z) : Account := ASingle (mkSingle (node_addr n) (str "acc" ++ [48 + n]) (node_key n)).
Definition node_setup : ctxM unit :=
  CreateAccount (node_account 1) ;;; CreateAccount (node_account 2) ;;; CreateAccount (node_account 3) ;;;
  AddBalance ex_vault ex_ctw (node_addr 1) (MulC COIN 10) ;;;
  AddBalance ex_vault ex_ctw (node_addr 2) (MulC COIN 2).
(** The state the block starts from, with no layer of its own removed. *)
Definition node_ctx : Context_ := snd (node_setup NewEmptyContext).

Lemma node_ctx_ok : ctx_ok node_ctx.
Proof.
  eapply sim_ok; [|apply NewEmptyContext_ok|by vm_compute]. unfold node_setup.
  do 3 (apply sim_bind; [by apply sim_CreateAccount|intros ?]).
  apply sim_bind; [apply sim_AddBalance | intros ?; apply sim_AddBalance].
Qed.

(** The second account sends all it has to the third, then the first sends five coins
    to the second. *)
Definition tx_empty : VaultTx := VTransfer (mkTransfer 1 0 (node_addr 2) (node_addr 3) (2 * COIN - tx_fee)).
Definition tx_refill : VaultTx := VTransfer (mkTransfer 2 0 (node_addr 1) (node_addr 2) (5 * COIN)).
Definition lossy_header : Header := mkHeader 1 1 1 EmptyHash EmptyHash EmptyHash 5 (node_addr 1) [].
Definition lossy_block : Block VaultTx := mkBlock lossy_header [513; 513] [tx_empty; tx_refill] [[]; []] [0; 0] [].
Definition node_accounts : list Address := [node_addr 1; node_addr 2; node_addr 3].

(** Executing a block of two valid transfers can destroy money: when the first
    brings an account to zero and the second pays the same account, the block
    executes without error and the amount of the second transfer is in no account
    afterwards. *)
Lemma block_of_transfers_destroys_money :
  let '(r, ctx') := executeBlock node_chain lossy_block [[node_key 2]; [node_key 1]] node_ctx in
  r = Ok tt /\ total_of ex_vault ctx' node_accounts = total_of ex_vault node_ctx node_accounts - 5 * COIN.
Proof. vm_compute. by split. Qed.

(** *** Witnesses *)

Lemma created_block_executes_witness :
  let cands := [mkCandidate 513 EmptyHash tx_empty [] [node_key 2]; mkCandidate 513 EmptyHash tx_empty [] [node_key 2];
                mkCandidate 513 EmptyHash tx_refill [] [node_key 1]] in
  let '(r, ctx1) := add_candidates node_chain (node_addr 1) (NewBlockCreator node_ctx (node_addr 1) []) [] cands node_ctx in
  exists bc signers, r = Ok (bc, signers) /\ length (b_Transactions (bc_b bc)) = 2%nat /\
    exists vctx1, execute_txs node_chain (bc_b bc) signers 0 (b_Transactions (bc_b bc)) node_ctx = (Ok true, vctx1) /\
      ctx_ok vctx1 /\ abs vctx1 = abs ctx1.
Proof.
  intros cands. destruct (add_candidates node_chain (node_addr 1) (NewBlockCreator node_ctx (node_addr 1) []) [] cands node_ctx)
    as [r ctx1] eqn:E.
  assert (Hr : exists bc signers, r = Ok (bc, signers) /\ length (b_Transactions (bc_b bc)) = 2%nat).
  { apply (f_equal fst) in E. vm_compute in E. simpl in E. subst r. by eexists _, _. }
  destruct Hr as (bc & signers & -> & Hlen). exists bc, signers. split; [done|]. split; [done|].
  apply (created_block_executes node_chain (node_addr 1) [] cands node_ctx ctx1 node_ctx bc signers);
    [apply node_ctx_ok | apply node_ctx_ok | done | by repeat constructor | done].
Defined.

(** A burn whose sequence skips one. *)
Definition tx_skip : VaultTx := VBurn (mkBurn 3 2 (node_addr 1) COIN).
Definition skip_block : Block VaultTx := mkBlock lossy_header [514; 513] [tx_skip; tx_refill] [[]; []] [1; 0] [].

Lemma wrong_sequence_is_reported_as_success_witness :
  (exists ctx', executeBlock node_chain skip_block [[node_key 1]; [node_key 1]] node_ctx = (Ok tt, ctx') /\ abs ctx' = abs node_ctx) /\
  (forall bc h sigs, exists ctx', UnsafeAddTx node_chain bc (h_Generator (b_Header skip_block)) 514 h tx_skip sigs
     [node_key 1] node_ctx = (Ok bc, ctx') /\ abs ctx' = abs node_ctx).
Proof.
  destruct ((let! sn := Snapshot in tx_Validate tx_skip (VaultProcess ex_vault) (NewContextWrapper (u8 (Z.shiftr 514 8))) [node_key 1] ;;; ret sn) node_ctx)
    as [r c1] eqn:E.
  assert (Hr : r = Ok 2) by (apply (f_equal fst) in E; by vm_compute in E).
  assert (Hs : seen_seq c1 (node_addr 1) = 0).
  { apply (f_equal (fun x => seen_seq (snd x) (node_addr 1))) in E. cbn [snd] in E. rewrite <- E. by vm_compute. }
  rewrite Hr in E.
  assert (Hseq : 2 <> u64 (seen_seq c1 (node_addr 1) + 1)) by (rewrite Hs; by vm_compute).
  assert (Hh : run_hooks node_chain (fun p ctw => p_BeforeExecuteTransactions p ctw) node_ctx = (Ok tt, node_ctx)) by (by vm_compute).
  exact (wrong_sequence_is_reported_as_success node_chain skip_block [[node_key 1]; [node_key 1]] node_ctx node_ctx c1
    514 tx_skip [tx_refill] [node_key 1] (VaultProcess ex_vault) 2 (node_addr 1) 2
    Hh node_ctx_ok eq_refl I eq_refl eq_refl eq_refl eq_refl E Hseq).
Defined.

#[local] Instance tx_bytes : TxEncoder VaultTx := {| enc_uint8 n := [n]; enc_uint16 n := be_bytes 2 n; enc_tx _ := [] |}.
#[local] Instance marshal_nothing A : Marshaler A := fun _ => [].

(** A recovery that refuses two signatures, each with its own error. *)
Definition ErrSigA : error := mkError "secp256k1" "invalid signature length".
Definition ErrSigB : error := mkError "secp256k1" "invalid signature recovery id".
#[local] Instance recover_picky : Ecrecover := { recover _ sig :=
  match sig with [] => Err ErrSigA | [0] => Err ErrSigB | _ => Ok sig end }.

(** A block of 1000 transactions with the given signatures and the right level root. *)
Definition large_root : Hash256 :=
  match BuildLevelRoot (H := sha256_prefix) (EmptyHash :: replicate 1000 (HashTransactionByType (H := sha256_prefix) 1 513 tx_refill)) with
  | Ok h => h | _ => [] end.
Definition large_block (sigs : list (list Signature)) : Block VaultTx :=
  mkBlock (mkHeader 1 1 1 EmptyHash large_root EmptyHash 5 (node_addr 1) []) (replicate 1000 513) (replicate 1000 tx_refill)
    sigs (replicate 1000 0) [].

(** Four goroutines, the last of which runs first and the others in turn. *)
Definition ex_turns : list nat := replicate 250 3%nat ++ concat (replicate 100 [2; 0; 1])%nat.

Lemma parallel_signature_check_witness :
  let signers := replicate 1000 [NewPublicHash (H := sha256_prefix) [2]] in
  validateTransactionSignatures (H := sha256_prefix) (H0 := recover_picky) 2 ex_turns node_chain (large_block (replicate 1000 [[2]])) =
  Ok signers.
Proof.
  intros signers.
  apply (proj1 (parallel_signature_check (H := sha256_prefix) (H0 := recover_picky) 2 ex_turns node_chain
    (large_block (replicate 1000 [[2]])) ltac:(lia))).
  vm_compute. reflexivity.
Defined.

(** Of two errors the one that is sent first is returned, and the order of the
    goroutines decides which. *)
Lemma the_first_error_wins :
  let b := large_block (<[999%nat := [[0]]]> (<[3%nat := [[1]; []]]> (replicate 1000 [[2]]))) in
  validateTransactionSignatures (H := sha256_prefix) (H0 := recover_picky) 2 ex_turns node_chain b = Err ErrSigB /\
  validateTransactionSignatures (H := sha256_prefix) (H0 := recover_picky) 2 [] node_chain b = Err ErrSigA.
Proof. vm_compute. by split. Qed.

Lemma signature_check_panics_on_many_cores_witness :
  validateTransactionSignatures (H := sha256_prefix) (H0 := recover_plain) 32 [] node_chain (large_block (replicate 1000 [])) =
  Panic "slice bounds out of range".
Proof.
  apply (signature_check_panics_on_many_cores (H := sha256_prefix) (H0 := recover_plain) [] node_chain (large_block (replicate 1000 [])));
    by vm_compute.
Defined.

Lemma registered_processes_are_found_witness :
  exists cn0 cn, NewChain node_consensus node_app (node_provider emptyLoader) = Ok cn0 /\
    add_processes cn0 [VaultProcess ex_vault] = Ok cn /\
    (Process cn 2 = Ok (VaultProcess ex_vault) /\ ProcessByName cn vault_Name = Ok (VaultProcess ex_vault) /\ IDMap_at cn 0 = 2).
Proof.
  eexists _, _. split; [reflexivity|]. split; [reflexivity|].
  exact (registered_processes_are_found node_consensus node_app (node_provider emptyLoader) [VaultProcess ex_vault] _ _
    eq_refl eq_refl 0%nat (VaultProcess ex_vault) eq_refl).
Defined.

(** A chain whose store has the three accounts, each with ten coins; a block with a
    transfer, a burn with the next sequence, and a burn that skips one. *)
Definition stored_key (n : Z) : PublicHash := NewPublicHash (H := sha256_prefix) [n].
Definition stored_account (n : Z) : Account := ASingle (mkSingle (node_addr n) (str "acc" ++ [48 + n]) (stored_key n)).
Definition stored_loader : Loader := {|
  ld_ChainID := 1; ld_Name := []; ld_Version := 1; ld_TargetHeight := 1; ld_LastHash := EmptyHash; ld_LastTimestamp := 0;
  ld_Seq _ := 0;
  ld_Account addr := match filter (fun n => node_addr n = addr) [1; 2; 3] with n :: _ => Ok (stored_account n) | [] => Err ErrNotExistAccount end;
  ld_AddressByName _ := Err ErrNotExistAccount;
  ld_HasAccount addr := Ok (bool_decide (addr ∈ node_accounts));
  ld_HasAccountName _ := Ok false;
  ld_AccountData key := if bool_decide (key ∈ ((fun addr => account_data_key addr 2 tagBalance) <$> node_accounts)) then Bytes (10 * COIN) else [];
  ld_HasUTXO _ := Ok false; ld_UTXO _ := Err ErrNotExistUTXO; ld_ProcessData _ := [] |}.
Definition stored_chain : Chain NodeProcess VaultTx :=
  mkChain true (node_provider stored_loader) node_consensus node_app [VaultProcess ex_vault] {[vault_Name := 2]} {[2 := 0%nat]} [] ∅ false.

Definition three_types : list Z := [513; 514; 514].
Definition three_txs : list VaultTx := [tx_refill; VBurn (mkBurn 3 1 (node_addr 2) COIN); VBurn (mkBurn 3 3 (node_addr 2) COIN)].
Definition three_root : Hash256 :=
  match BuildLevelRoot (H := sha256_prefix)
    (EmptyHash :: zip_with (HashTransactionByType (H := sha256_prefix) 1) three_types three_txs) with Ok h => h | _ => [] end.
Definition three_block (ctxHash : Hash256) : Block VaultTx :=
  mkBlock (mkHeader 1 1 1 EmptyHash three_root ctxHash 5 (node_addr 1) []) three_types three_txs [[[1]]; [[2]]; [[2]]] [0; 1; 1] [].
Definition three_hash : Hash256 :=
  match fst ((executeBlockOnContext (H := sha256_prefix) (H0 := recover_picky) 4 [] stored_chain (three_block []) ;;;
              ctx_Hash (H := sha256_prefix)) (NewContext stored_loader)) with
  | Ok h => h | _ => [] end.
Definition good_block : Block VaultTx := three_block three_hash.

Lemma ConnectBlock_stores_only_valid_witness :
  exists top, ConnectBlock (H := sha256_prefix) (H0 := recover_picky) (fun _ _ => Ok tt) 4 [] stored_chain good_block = Ok top /\
    exists signers c0 c1 c2 c3,
      validateTransactionSignatures (H := sha256_prefix) (H0 := recover_picky) 4 [] stored_chain good_block = Ok signers /\
      (txs_ran stored_chain good_block signers 0 (b_Transactions good_block) c0 c1 /\
       run_hooks stored_chain (fun p ctw => p_AfterExecuteTransactions p good_block ctw) c1 = (Ok tt, c2) \/
       exists ran tx rest sg t, b_Transactions good_block = ran ++ tx :: rest /\ txs_ran stored_chain good_block signers 0 ran c0 c1 /\
         signers !! length ran = Some sg /\ b_TransactionTypes good_block !! length ran = Some t /\
         tx_out_of_sequence stored_chain t tx sg c1 c2) /\
      ctx_Hash (H := sha256_prefix) c2 = (Ok (h_ContextHash (b_Header good_block)), c3).
Proof.
  destruct (ConnectBlock (H := sha256_prefix) (H0 := recover_picky) (fun _ _ => Ok tt) 4 [] stored_chain good_block) as [top|e|w] eqn:E.
  2-3: by vm_compute in E.
  exists top. split; [done|].
  destruct (ConnectBlock_stores_only_valid (H := sha256_prefix) (H0 := recover_picky) (fun _ _ => Ok tt) 4 [] stored_chain good_block top E)
    as (_ & _ & _ & signers & c0 & c1 & c2 & c3 & c4 & c5 & Hs & _ & Hr & Hh & _).
  exists signers, c0, c1, c2, c3. by split_and!.
Defined.

Lemma Transfer_can_be_replayed_witness :
  let tx := mkTransfer 2 0 (node_addr 1) (node_addr 2) COIN in
  exists c1 c2, Transfer_Validate ex_vault ex_ctw tx [node_key 1] node_ctx = (Ok tt, c1) /\
    Transfer_Execute ex_vault ex_ctw tx 0 c1 = (Ok tt, c2) /\
    (VaultTx_account (VTransfer tx) = None /\ exists c3, Transfer_Validate ex_vault ex_ctw tx [node_key 1] c2 = (Ok tt, c3)).
Proof.
  intros tx. destruct (Transfer_Validate ex_vault ex_ctw tx [node_key 1] node_ctx) as [r1 c1] eqn:E1.
  destruct (Transfer_Execute ex_vault ex_ctw tx 0 c1) as [r2 c2] eqn:E2.
  assert (Hr1 : r1 = Ok tt) by (apply (f_equal fst) in E1; by vm_compute in E1).
  assert (Hc1 : c1 = snd (Transfer_Validate ex_vault ex_ctw tx [node_key 1] node_ctx)) by (by rewrite E1).
  assert (Hr2 : r2 = Ok tt) by (rewrite Hc1 in E2; apply (f_equal fst) in E2; by vm_compute in E2).
  assert (Hc2 : c2 = snd (Transfer_Execute ex_vault ex_ctw tx 0 (snd (Transfer_Validate ex_vault ex_ctw tx [node_key 1] node_ctx))))
    by (rewrite <- Hc1; by rewrite E2).
  assert (Hb : tr_Amount tx + tx_fee <= balance_of ex_vault c2 (tr_From tx)) by (rewrite Hc2; by vm_compute).
  exists c1, c2. subst r1 r2. split; [done|]. split; [done|].
  exact (Transfer_can_be_replayed ex_vault node_ctx c1 c2 ex_ctw tx [node_key 1] 0 node_ctx_ok E1 E2 Hb).
Defined.
