(* ===== verification/RankTable.v ===== *)
(** * The rank table

    [pof/rank.go] and [pof/rank_table.go]: which formulator makes the next block.
    Every active formulator has a rank; ranks are ordered by phase, then by a part
    of a hash, then by address; the first one makes blocks, after which its phase
    grows and it moves back.  The table keeps the ranks as a sorted slice and as a
    map by address, both pointing to the same [Rank] objects: a change of a rank in
    the slice is a change of the map's value.  The theorems show that the table is
    a finite map with a sorted view of it, that the order gives every formulator
    its turn within a bound, and that a stored table is read back as it was. *)

From stdpp Require Import base gmap list sorting strings.
From Stdlib Require Import ZArith Lia FunctionalExtensionality.
From S2P Require Import Prelude Amount Common Factory OrderedMap.

Definition poferr (m : string) : error := mkError "pof" m.
Definition ErrInsufficientCandidateCount := poferr "insufficient candidate count".
Definition ErrExceedCandidateCount := poferr "exceed candidate count".
Definition ErrInvalidPhase := poferr "invalid phase".
Definition ErrExistAddress := poferr "exist address".

(** ** Ranks *)

Record Rank := mkRank {
  r_Address : Address;
  r_PublicHash : PublicHash;
  r_phase : Z;
  r_hashSpace : Hash256;
  r_score : Z
}.

#[export] Instance Rank_eq_dec : EqDecision Rank.
Proof. solve_decision. Defined.

(** [uint64(rank.phase)<<32 + uint64(util.BytesToUint32(rank.hashSpace[:4]))]; the
    hash space is an array of 32 bytes, so its first four exist. *)
Definition rank_update (rank : Rank) : Rank :=
  mkRank (r_Address rank) (r_PublicHash rank) (r_phase rank) (r_hashSpace rank)
    (u64 (u64 (Z.shiftl (r_phase rank) 32) + le_value (take 4 (r_hashSpace rank)))).

Definition NewRank (addr : Address) (pubhash : PublicHash) (phase : Z) (hashSpace : Hash256) : Rank :=
  rank_update (mkRank addr pubhash phase hashSpace 0).

Definition rank_Clone (rank : Rank) : Rank :=
  NewRank (r_Address rank) (r_PublicHash rank) (r_phase rank) (r_hashSpace rank).

Definition rank_Less (rank b : Rank) : bool :=
  (r_score rank <? r_score b) ||
  ((r_score rank =? r_score b) && bytes_lt (r_Address rank) (r_Address b)).

Definition rank_Equal (rank b : Rank) : bool :=
  (r_score rank =? r_score b) && bool_decide (r_Address rank = r_Address b).

Definition rank_IsZero (rank : Rank) : bool :=
  (r_score rank =? 0) && bool_decide (r_Address rank = replicate AddressSize 0).

Definition rank_Set (rank : Rank) (phase : Z) (hashSpace : Hash256) : Rank :=
  rank_update (mkRank (r_Address rank) (r_PublicHash rank) phase hashSpace (r_score rank)).

Definition rank_SetPhase (rank : Rank) (phase : Z) : Rank :=
  rank_update (mkRank (r_Address rank) (r_PublicHash rank) phase (r_hashSpace rank) (r_score rank)).

Definition rank_SetHashSpace (rank : Rank) (hashSpace : Hash256) : Rank :=
  rank_update (mkRank (r_Address rank) (r_PublicHash rank) (r_phase rank) hashSpace (r_score rank)).

Definition rank_Key (rank : Rank) : bytes := r_Address rank ++ str "," ++ Uint64ToBytes (r_score rank).

(** ** The table *)

Record RankTable := mkTable {
  rt_height : Z;
  candidates : list Rank;
  rankMap : gmap Address Rank
}.

Definition NewRankTable : RankTable := mkTable 0 [] ∅.

Definition Candidates (rt : RankTable) : list Rank := rank_Clone <$> candidates rt.

Definition CandidateCount (rt : RankTable) : nat := length (candidates rt).

Definition TopRank (rt : RankTable) (TimeoutCount : Z) : res Rank :=
  if Z.of_nat (length (candidates rt)) <=? TimeoutCount then Err ErrInsufficientCandidateCount
  else if TimeoutCount <? 0 then Panic "index out of range"
  else match candidates rt !! Z.to_nat TimeoutCount with
       | Some r => Ok (rank_Clone r)
       | None => Panic "index out of range"
       end.

Fixpoint first_in_map (FormulatorMap : gmap Address bool) (i : Z) (l : list Rank) : res (Rank * Z) :=
  match l with
  | [] => Err ErrInsufficientCandidateCount
  | r :: l => if default false (FormulatorMap !! r_Address r) then Ok (r, i) else first_in_map FormulatorMap (i + 1) l
  end.

Definition TopRankInMap (rt : RankTable) (FormulatorMap : gmap Address bool) : res (Rank * Z) :=
  if bool_decide (FormulatorMap = ∅) then Err ErrInsufficientCandidateCount
  else first_in_map FormulatorMap 0 (candidates rt).

(** The loop of [RanksInMap], which stops once [list] has [Limit] ranks. *)
Fixpoint ranks_in_map (FormulatorMap : gmap Address bool) (Limit : Z) (list_ l : list Rank) : list Rank :=
  match l with
  | [] => list_
  | r :: l =>
      if default false (FormulatorMap !! r_Address r) then
        let list_ := list_ ++ [r] in
        if Limit <=? Z.of_nat (length list_) then list_ else ranks_in_map FormulatorMap Limit list_ l
      else ranks_in_map FormulatorMap Limit list_ l
  end.

Definition RanksInMap (rt : RankTable) (FormulatorMap : gmap Address bool) (Limit : Z) : res (list Rank) :=
  if bool_decide (FormulatorMap = ∅) then Err ErrInsufficientCandidateCount
  else
    let Limit := if Limit <? 1 then 1 else Limit in
    Ok (ranks_in_map FormulatorMap Limit [] (candidates rt)).

Definition IsFormulator (rt : RankTable) (Formulator : Address) (Publichash : PublicHash) : bool :=
  match rankMap rt !! Formulator with
  | None => false
  | Some rank => bool_decide (r_PublicHash rank = Publichash)
  end.

Definition smallestPhase (rt : RankTable) : Z :=
  match candidates rt with [] => 0 | r :: _ => r_phase r end.

Definition largestPhase (rt : RankTable) : Z :=
  match last (candidates rt) with None => 0 | Some r => r_phase r end.

(** [ranks = append(ranks, s); copy(ranks[idx+1:], ranks[idx:]); ranks[idx] = s]. *)
Definition InsertRankToList (ranks : list Rank) (s : Rank) : list Rank :=
  let idx := sort_Search (length ranks)
    (fun i => match ranks !! i with Some r => rank_Less s r | None => false end) in
  take idx ranks ++ s :: drop idx ranks.

Definition addRank (rt : RankTable) (s : Rank) : res RankTable :=
  if match candidates rt with [] => false | c :: _ => r_phase s <? r_phase c end then Err ErrInvalidPhase
  else if bool_decide (is_Some (rankMap rt !! r_Address s)) then Err ErrExistAddress
  else Ok (mkTable (rt_height rt) (InsertRankToList (candidates rt) s) (<[r_Address s := s]> (rankMap rt))).

Definition removeRank (rt : RankTable) (addr : Address) : RankTable :=
  if bool_decide (is_Some (rankMap rt !! addr)) then
    mkTable (rt_height rt) (base.filter (fun s => r_Address s <> addr) (candidates rt)) (delete addr (rankMap rt))
  else rt.

(** The top rank [m] was changed: it moves to its place among the others
    ([copy(rt.candidates, rt.candidates[1:idx+1]); rt.candidates[idx] = m]), and
    the map sees the change. *)
Definition reposition (rt : RankTable) (m : Rank) : RankTable :=
  let idx := sort_Search (length (candidates rt) - 1)
    (fun i => match candidates rt !! (i + 1)%nat with Some r => rank_Less m r | None => false end) in
  mkTable (rt_height rt) (take idx (drop 1 (candidates rt)) ++ m :: drop (idx + 1) (candidates rt))
    (alter (fun _ => m) (r_Address m) (rankMap rt)).

Fixpoint forward_loop (n : nat) (rt : RankTable) : res RankTable :=
  match n with
  | O => Ok rt
  | S n =>
      match candidates rt with
      | [] => Panic "index out of range"
      | m :: _ => forward_loop n (reposition rt (rank_SetPhase m (u32 (r_phase m + 2))))
      end
  end.

Definition forwardCandidates (rt : RankTable) (TimeoutCount : Z) : res RankTable :=
  if Z.of_nat (length (candidates rt)) <=? TimeoutCount then Err ErrExceedCandidateCount
  else forward_loop (Z.to_nat TimeoutCount) rt.

Definition forwardTop (rt : RankTable) (LastTableAppendHash : Hash256) : res RankTable :=
  match candidates rt with
  | [] => Panic "index out of range"
  | top :: _ =>
      let rt := reposition rt (rank_Set top (u32 (r_phase top + 1)) LastTableAppendHash) in
      Ok (mkTable (u32 (rt_height rt + 1)) (candidates rt) (rankMap rt))
  end.

(** ** The order of the ranks *)

Definition hash_ok (h : Hash256) : Prop := length h = 32%nat /\ bytes_ok h.

(** The score is the one of the phase and the hash space. *)
Record rank_ok (r : Rank) : Prop := {
  ro_phase : 0 <= r_phase r < 2 ^ 32;
  ro_hash : hash_ok (r_hashSpace r);
  ro_score : rank_update r = r
}.

Abbreviation rank_lt := (fun a b : Rank => rank_Less a b = true).

Lemma rank_Less_iff a b :
  rank_Less a b = true <-> r_score a < r_score b \/ (r_score a = r_score b /\ bytes_lt (r_Address a) (r_Address b) = true).
Proof. unfold rank_Less. rewrite orb_true_iff, andb_true_iff, Z.ltb_lt, Z.eqb_eq. done. Qed.

Lemma rank_Less_trans a b c : rank_Less a b = true -> rank_Less b c = true -> rank_Less a c = true.
Proof.
  rewrite !rank_Less_iff. intros [|[Hab Lab]] [|[Hbc Lbc]]; [left; lia..|].
  right. split; [lia|]. by eapply bytes_lt_trans.
Qed.

Lemma rank_Less_irrefl a : rank_Less a a = false.
Proof. unfold rank_Less. by rewrite Z.ltb_irrefl, bytes_lt_irrefl, andb_false_r. Qed.

Lemma rank_Less_total a b : r_Address a <> r_Address b -> rank_Less a b = false -> rank_Less b a = true.
Proof.
  intros Hne Hab. apply not_true_iff_false in Hab. rewrite rank_Less_iff in Hab |- *.
  destruct (Z.lt_trichotomy (r_score a) (r_score b)) as [?|[Hs|?]]; [tauto| |lia].
  right. split; [done|]. destruct (bytes_lt_total (r_Address a) (r_Address b)) as [?|[?|?]]; [tauto|done..].
Qed.

#[local] Instance rank_lt_antisymm : AntiSymm (=) rank_lt.
Proof.
  intros a b Hab Hba. pose proof (rank_Less_trans _ _ _ Hab Hba) as H. by rewrite rank_Less_irrefl in H.
Qed.

Lemma le_value_first4 h : hash_ok h -> 0 <= le_value (take 4 h) < 2 ^ 32.
Proof.
  intros [Hl Hb]. pose proof (le_value_bound (take 4 h)) as Hv.
  rewrite length_take, Hl in Hv. apply Hv. by apply Forall_take.
Qed.

Lemma rank_update_score r : 0 <= r_phase r < 2 ^ 32 -> hash_ok (r_hashSpace r) ->
  r_score (rank_update r) = r_phase r * 2 ^ 32 + le_value (take 4 (r_hashSpace r)).
Proof.
  intros Hp Hh. pose proof (le_value_first4 _ Hh). cbn [rank_update r_score]. unfold u64.
  rewrite Z.shiftl_mul_pow2 by lia. rewrite (Z.mod_small (r_phase r * 2 ^ 32)) by lia.
  apply Z.mod_small. lia.
Qed.

Lemma rank_update_ok r : 0 <= r_phase r < 2 ^ 32 -> hash_ok (r_hashSpace r) -> rank_ok (rank_update r).
Proof. by split. Qed.

Lemma rank_ok_score r : rank_ok r -> r_score r = r_phase r * 2 ^ 32 + le_value (take 4 (r_hashSpace r)).
Proof. intros [Hp Hh Hs]. rewrite <- Hs at 1. by apply rank_update_score. Qed.

(** Ranks are ordered by phase first. *)
Lemma rank_Less_phase a b : rank_ok a -> rank_ok b -> rank_Less a b = true -> r_phase a <= r_phase b.
Proof.
  intros Ha Hb. rewrite rank_Less_iff, (rank_ok_score a Ha), (rank_ok_score b Hb).
  pose proof (le_value_first4 _ (ro_hash _ Ha)). pose proof (le_value_first4 _ (ro_hash _ Hb)). lia.
Qed.

Lemma rank_SetPhase_ok m : rank_ok m -> rank_ok (rank_SetPhase m (u32 (r_phase m + 2))).
Proof. intros Hm. apply rank_update_ok; [apply Z.mod_pos_bound; lia|apply Hm]. Qed.

Lemma rank_Set_ok m h : hash_ok h -> rank_ok (rank_Set m (u32 (r_phase m + 1)) h).
Proof. intros Hh. apply rank_update_ok; [apply Z.mod_pos_bound; lia|done]. Qed.

(** ** Insertion by binary search *)

Lemma sorted_lookup {A} (R : relation A) (l : list A) i j x y :
  StronglySorted R l -> (i < j)%nat -> l !! i = Some x -> l !! j = Some y -> R x y.
Proof.
  intros Hs. revert i j. induction Hs as [|a l Hs IH Ha]; intros i j Hij Hi Hj; [done|].
  destruct j as [|j]; [lia|]. cbn in Hj. destruct i as [|i].
  - cbn in Hi. inv Hi. rewrite Forall_forall in Ha. apply Ha. by eapply list_elem_of_lookup_2.
  - apply (IH i j); [lia|done..].
Qed.

Lemma sorted_app {A} (R : relation A) (l1 l2 : list A) :
  StronglySorted R l1 -> StronglySorted R l2 -> (forall x y, x ∈ l1 -> y ∈ l2 -> R x y) ->
  StronglySorted R (l1 ++ l2).
Proof.
  induction 1 as [|a l Hs IH Ha]; intros Hs2 Hc; cbn; [done|]. constructor.
  - apply IH; [done|]. intros. apply Hc; [by right|done].
  - apply Forall_app. split; [done|]. apply Forall_forall. intros y Hy. apply Hc; [by left|done].
Qed.

Lemma sorted_split {A} (R : relation A) (l1 l2 : list A) :
  StronglySorted R (l1 ++ l2) -> StronglySorted R l1 /\ StronglySorted R l2.
Proof.
  induction l1 as [|a l1 IH]; cbn; [by split; [constructor|]|]. intros Hs. inv Hs as [|? ? Hs' Ha].
  apply Forall_app in Ha as [Ha _]. destruct (IH Hs'). split; [by constructor|done].
Qed.

Lemma InsertRankToList_perm l s : InsertRankToList l s ≡ₚ s :: l.
Proof.
  unfold InsertRankToList. set (idx := sort_Search _ _).
  rewrite <- (take_drop idx l) at 3. by rewrite Permutation_middle.
Qed.

(** The binary search puts a rank where the order wants it. *)
Lemma InsertRankToList_sorted l s :
  StronglySorted rank_lt l -> r_Address s ∉ r_Address <$> l ->
  StronglySorted rank_lt (InsertRankToList l s).
Proof.
  intros Hs Hn. unfold InsertRankToList.
  set (f := fun i => match l !! i with Some r => rank_Less s r | None => false end).
  destruct (sort_Search_spec f (length l)) as (Hle & Hlo & Hhi).
  { intros x y [Hxy Hy] Hx. unfold f in *. destruct (l !! x) as [rx|] eqn:Ex; [|done].
    destruct (lookup_lt_is_Some_2 l y Hy) as [ry Ey]. rewrite Ey.
    destruct (decide (x = y)) as [->|Hne]; [congruence|].
    eapply rank_Less_trans; [exact Hx|]. apply (sorted_lookup rank_lt l x y); [done|lia|done..]. }
  set (idx := sort_Search (length l) f) in *. rewrite <- (take_drop idx l) in Hs.
  destruct (sorted_split _ _ _ Hs) as [Hs1 Hs2].
  assert (Hafter : Forall (rank_lt s) (drop idx l)).
  { apply Forall_forall. intros y Hy. apply list_elem_of_lookup in Hy as [k Hk]. rewrite lookup_drop in Hk.
    specialize (Hhi (idx + k)%nat). unfold f in Hhi. rewrite Hk in Hhi. apply Hhi.
    apply lookup_lt_Some in Hk. lia. }
  apply sorted_app; [done|by constructor|]. intros x y Hx Hy.
  assert (Hxs : rank_Less x s = true).
  { apply list_elem_of_lookup in Hx as [k Hk]. apply lookup_take_Some in Hk as [Hk Hlt].
    specialize (Hlo k Hlt). unfold f in Hlo. rewrite Hk in Hlo. apply rank_Less_total; [|done].
    intros E. apply Hn. rewrite E. apply list_elem_of_fmap_2. by eapply list_elem_of_lookup_2. }
  apply elem_of_cons in Hy as [->|Hy]; [done|]. eapply rank_Less_trans; [exact Hxs|].
  rewrite Forall_forall in Hafter. by apply Hafter.
Qed.

(** ** Well-formed tables *)

Record rt_wf (rt : RankTable) : Prop := {
  wf_sorted : StronglySorted rank_lt (candidates rt);
  wf_nodup : NoDup (r_Address <$> candidates rt);
  wf_map : forall addr r, rankMap rt !! addr = Some r <-> r ∈ candidates rt /\ r_Address r = addr;
  wf_ranks : Forall rank_ok (candidates rt)
}.

Lemma NewRankTable_wf : rt_wf NewRankTable.
Proof.
  split; cbn; [constructor|constructor| |constructor]. intros addr r. rewrite lookup_empty.
  split; [done|]. intros [Hr _]. by apply not_elem_of_nil in Hr.
Qed.

Lemma wf_map_None rt addr : rt_wf rt -> rankMap rt !! addr = None <-> addr ∉ r_Address <$> candidates rt.
Proof.
  intros Hwf. rewrite list_elem_of_fmap. split.
  - intros Hn (r & -> & Hr). assert (rankMap rt !! r_Address r = Some r) by (by apply (wf_map _ Hwf)). congruence.
  - intros Hn. destruct (rankMap rt !! addr) as [r|] eqn:E; [|done]. apply (wf_map _ Hwf) in E as [Hr <-].
    destruct Hn. by exists r.
Qed.

(** The table is determined by its map. *)
Lemma candidates_unique rt rt' : rt_wf rt -> rt_wf rt' -> rankMap rt = rankMap rt' -> candidates rt = candidates rt'.
Proof.
  intros Hwf Hwf' E. apply (StronglySorted_unique rank_lt); [apply Hwf|apply Hwf'|].
  apply NoDup_Permutation; [eapply NoDup_fmap_1, Hwf|eapply NoDup_fmap_1, Hwf'|].
  intros r. pose proof (wf_map _ Hwf (r_Address r) r) as H1. pose proof (wf_map _ Hwf' (r_Address r) r) as H2.
  rewrite E in H1. naive_solver.
Qed.

(** Inserting a rank with a fresh address gives a well-formed table. *)
Lemma insert_wf h h' l m s :
  rt_wf (mkTable h l m) -> r_Address s ∉ r_Address <$> l -> rank_ok s ->
  rt_wf (mkTable h' (InsertRankToList l s) (<[r_Address s := s]> m)).
Proof.
  intros Hwf Hn Hs. pose proof (InsertRankToList_perm l s) as Hp. split; cbn.
  - apply InsertRankToList_sorted; [apply Hwf|done].
  - rewrite (Permutation_map r_Address Hp). cbn. constructor; [done|apply Hwf].
  - intros addr r. rewrite Hp, elem_of_cons. split.
    + intros [[<- <-]|[Hne Hr]]%lookup_insert_Some; [auto|].
      apply (wf_map _ Hwf) in Hr as [Hr <-]. split; [by right|done].
    + intros [[->|Hr] <-]; [by rewrite lookup_insert_eq|]. rewrite lookup_insert_ne.
      * by apply (wf_map _ Hwf).
      * intros E. apply Hn. rewrite E. by apply list_elem_of_fmap_2.
  - rewrite Hp. constructor; [done|apply Hwf].
Qed.

Lemma filter_id {A} (P : A -> Prop) `{!forall x, Decision (P x)} (l : list A) : Forall P l -> base.filter P l = l.
Proof. induction 1 as [|x l Hx _ IH]; [done|]. by rewrite filter_cons_True, IH. Qed.

Lemma filter_none {A} (P : A -> Prop) `{!forall x, Decision (P x)} (l : list A) : Forall (fun x => ~ P x) l -> base.filter P l = [].
Proof. induction 1 as [|x l Hx _ IH]; [done|]. by rewrite filter_cons_False, IH. Qed.

Lemma remove_wf rt addr : rt_wf rt ->
  rt_wf (mkTable (rt_height rt) (base.filter (fun s => r_Address s <> addr) (candidates rt)) (delete addr (rankMap rt))).
Proof.
  intros Hwf. split; cbn.
  - apply strongly_sorted_filter, Hwf.
  - eapply sublist_NoDup; [apply Hwf|apply fmap_sublist, sublist_filter].
  - intros a r. rewrite lookup_delete_Some, (wf_map _ Hwf), list_elem_of_filter. naive_solver.
  - apply Forall_forall. intros r [_ Hr]%list_elem_of_filter. revert r Hr. apply Forall_forall, Hwf.
Qed.

Lemma removeRank_spec rt addr :
  rt_wf rt -> rt_wf (removeRank rt addr) /\ rankMap (removeRank rt addr) = delete addr (rankMap rt).
Proof.
  intros Hwf. unfold removeRank. case_bool_decide as E.
  - split; [by apply remove_wf|done].
  - split; [done|]. symmetry. apply delete_id. by apply eq_None_not_Some.
Qed.

Lemma addRank_spec rt s rt' :
  rt_wf rt -> rank_ok s -> addRank rt s = Ok rt' ->
  rt_wf rt' /\ rankMap rt' = <[r_Address s := s]> (rankMap rt) /\ rankMap rt !! r_Address s = None.
Proof.
  intros Hwf Hs. unfold addRank. destruct (match candidates rt with [] => _ | _ => _ end); [done|].
  case_bool_decide as E; [done|]. intros [= <-]. apply eq_None_not_Some in E. split; [|done].
  apply (insert_wf (rt_height rt)); [by destruct rt|by apply wf_map_None|done].
Qed.

(** Moving the changed top rank is removing it and inserting it again. *)
Lemma reposition_spec rt top tl m :
  rt_wf rt -> candidates rt = top :: tl -> r_Address m = r_Address top -> rank_ok m ->
  rt_wf (reposition rt m) /\ rankMap (reposition rt m) = <[r_Address top := m]> (rankMap rt) /\
  candidates (reposition rt m) = InsertRankToList tl m.
Proof.
  intros Hwf Hc Ha Hm.
  assert (Htop : rankMap rt !! r_Address top = Some top)
    by (apply (wf_map _ Hwf); rewrite Hc; split; [by left|done]).
  assert (Ecand : candidates (reposition rt m) = InsertRankToList tl m).
  { unfold reposition, InsertRankToList. cbn [candidates]. rewrite Hc. cbn [length drop].
    replace (S (length tl) - 1)%nat with (length tl) by lia. set (g := fun i => match (top :: tl) !! (i + 1)%nat with Some r => _ | None => _ end).
    assert (Eg : g = fun i => match tl !! i with Some r => rank_Less m r | None => false end).
    { unfold g. apply functional_extensionality. intros i. by rewrite Nat.add_1_r. }
    rewrite Eg. by rewrite Nat.add_1_r. }
  assert (Emap : rankMap (reposition rt m) = <[r_Address top := m]> (rankMap rt)).
  { cbn. rewrite Ha. apply map_eq. intros a. destruct (decide (a = r_Address top)) as [->|Hne].
    - by rewrite lookup_alter_eq, lookup_insert_eq, Htop.
    - by rewrite lookup_alter_ne, lookup_insert_ne. }
  split; [|done].
  assert (Hrest : rt_wf (mkTable 0 tl (delete (r_Address top) (rankMap rt)))).
  { pose proof (remove_wf rt (r_Address top) Hwf) as Hrem. pose proof (wf_nodup _ Hwf) as Hnd.
    rewrite Hc in Hrem, Hnd. cbn in Hnd. apply NoDup_cons in Hnd as [Hnd _].
    rewrite filter_cons_False in Hrem by (by intros []). rewrite filter_id in Hrem; [by split; apply Hrem|].
    apply Forall_forall. intros r Hr E. apply Hnd. rewrite <- E. by apply list_elem_of_fmap_2. }
  destruct (reposition rt m) as [h cs mp] eqn:Er. cbn in Ecand, Emap. subst cs mp.
  rewrite <- (insert_delete_eq (rankMap rt)), <- Ha. apply (insert_wf 0); [by rewrite Ha| |done].
  pose proof (wf_nodup _ Hwf) as Hnd. rewrite Hc in Hnd. cbn in Hnd. apply NoDup_cons in Hnd as [Hnd _].
  by rewrite Ha.
Qed.

Lemma candidates_top rt top tl r : rt_wf rt -> candidates rt = top :: tl ->
  rank_ok top /\ (r ∈ candidates rt -> r = top \/ rank_Less top r = true).
Proof.
  intros Hwf Hc. pose proof (wf_ranks _ Hwf) as Hr. pose proof (wf_sorted _ Hwf) as Hs. rewrite Hc in *.
  apply Forall_cons in Hr as [Hr _]. split; [done|]. inv Hs as [|? ? _ Ha].
  intros [->|Hin]%elem_of_cons; [by left|]. right. rewrite Forall_forall in Ha. by apply Ha.
Qed.

Lemma forward_loop_spec n rt :
  rt_wf rt -> candidates rt <> [] ->
  exists rt', forward_loop n rt = Ok rt' /\ rt_wf rt' /\ dom (rankMap rt') = dom (rankMap rt) /\ candidates rt' <> [].
Proof.
  revert rt. induction n as [|n IH]; intros rt Hwf Hne; cbn [forward_loop]; [by exists rt|].
  destruct (candidates rt) as [|m tl] eqn:Hc; [done|].
  destruct (candidates_top rt m tl m Hwf Hc) as [Hm _].
  destruct (reposition_spec rt m tl (rank_SetPhase m (u32 (r_phase m + 2))) Hwf Hc eq_refl (rank_SetPhase_ok m Hm))
    as (Hwf' & Hmap & Hcand).
  destruct (IH _ Hwf') as (rt' & E & ? & Hdom & ?).
  { rewrite Hcand. intros Hnil. pose proof (InsertRankToList_perm tl (rank_SetPhase m (u32 (r_phase m + 2)))) as Hp.
    rewrite Hnil in Hp. by apply Permutation_nil_cons in Hp. }
  exists rt'. split_and!; [done..| |done]. rewrite Hdom, Hmap, dom_insert_L.
  apply subseteq_union_1_L. apply singleton_subseteq_l. apply elem_of_dom. exists m. apply (wf_map _ Hwf).
  rewrite Hc. split; [by left|done].
Qed.

Lemma forwardCandidates_spec rt n :
  rt_wf rt -> 0 <= n < Z.of_nat (length (candidates rt)) ->
  exists rt', forwardCandidates rt n = Ok rt' /\ rt_wf rt' /\ dom (rankMap rt') = dom (rankMap rt) /\ candidates rt' <> [].
Proof.
  intros Hwf Hn. unfold forwardCandidates. rewrite (proj2 (Z.leb_gt _ _)) by lia.
  apply forward_loop_spec; [done|]. intros E. rewrite E in Hn. cbn in Hn. lia.
Qed.

Lemma forwardTop_spec rt h top tl :
  rt_wf rt -> hash_ok h -> candidates rt = top :: tl ->
  let m := rank_Set top (u32 (r_phase top + 1)) h in
  exists rt', forwardTop rt h = Ok rt' /\ rt_wf rt' /\ rankMap rt' = <[r_Address top := m]> (rankMap rt) /\
    candidates rt' = InsertRankToList tl m.
Proof.
  intros Hwf Hh Hc m. unfold forwardTop. rewrite Hc.
  destruct (reposition_spec rt top tl m Hwf Hc eq_refl (rank_Set_ok top h Hh)) as (Hwf' & Hmap & Hcand).
  eexists. split; [done|]. split; [by split; cbn; apply Hwf'|]. done.
Qed.

(** ** The table as a state machine *)

Inductive table_step : RankTable -> RankTable -> Prop :=
  | step_add rt s rt' : rank_ok s -> addRank rt s = Ok rt' -> table_step rt rt'
  | step_remove rt addr : table_step rt (removeRank rt addr)
  | step_timeout rt n rt' : 0 <= n -> forwardCandidates rt n = Ok rt' -> table_step rt rt'
  | step_top rt h rt' : hash_ok h -> forwardTop rt h = Ok rt' -> table_step rt rt'.

Lemma table_step_wf rt rt' : table_step rt rt' -> rt_wf rt -> rt_wf rt'.
Proof.
  intros Hstep Hwf. destruct Hstep as [rt s rt' Hs E|rt addr|rt n rt' Hn E|rt h rt' Hh E].
  - by apply (addRank_spec rt s rt').
  - by apply removeRank_spec.
  - destruct (decide (n < Z.of_nat (length (candidates rt)))) as [Hlt|Hge].
    + destruct (forwardCandidates_spec rt n Hwf) as (rt1 & E1 & Hwf1 & _); [lia|]. congruence.
    + unfold forwardCandidates in E. by rewrite (proj2 (Z.leb_le _ _)) in E by lia.
  - destruct (candidates rt) as [|top tl] eqn:Hc; [unfold forwardTop in E; by rewrite Hc in E|].
    destruct (forwardTop_spec rt h top tl Hwf Hh Hc) as (rt1 & E1 & Hwf1 & _). congruence.
Qed.

Lemma rank_Clone_ok r : rank_ok r -> rank_Clone r = r.
Proof. intros Hr. rewrite <- (ro_score _ Hr) at 2. done. Qed.

(** C15. Every table that additions, removals, timeouts and turns can produce is
    sorted and without duplicates, its map and its slice hold the same ranks, and
    the formulator that [TopRank] names for timeout count [n] is the one with
    exactly [n] smaller ranks before it; this holds even when phases wrap. *)
Theorem rank_table_invariant (rt : RankTable) (n : Z) (r : Rank) :
  rtc table_step NewRankTable rt ->
  rt_wf rt /\
  (0 <= n -> TopRank rt n = Ok r ->
   rankMap rt !! r_Address r = Some r /\
   n = Z.of_nat (length (base.filter (fun r' => rank_Less r' r = true) (candidates rt)))).
Proof.
  intros Hreach. assert (Hwf : rt_wf rt).
  { clear n r. apply rtc_ind_r with (P := rt_wf) (x := NewRankTable) (z := rt) in Hreach; [done|apply NewRankTable_wf|].
    intros; by eapply table_step_wf. }
  split; [done|]. intros Hn. unfold TopRank. destruct (Z.leb_spec (Z.of_nat (length (candidates rt))) n); [done|].
  rewrite (proj2 (Z.ltb_ge _ _)) by done. destruct (candidates rt !! Z.to_nat n) as [c|] eqn:Ec; [|done].
  assert (Hc : c ∈ candidates rt) by (by eapply list_elem_of_lookup_2).
  assert (rank_ok c) as Hok by (clear Ec; revert c Hc; apply Forall_forall, Hwf).
  intros [= <-]. rewrite rank_Clone_ok by done. split; [by apply (wf_map _ Hwf)|].
  rewrite <- (take_drop_middle _ _ _ Ec), filter_app, length_app, filter_cons_False by (by rewrite rank_Less_irrefl).
  assert (Hn' : (Z.to_nat n < length (candidates rt))%nat) by lia.
  rewrite filter_id, length_take, (filter_none _ (drop _ _)).
  - cbn. lia.
  - apply Forall_forall. intros y Hy Hlt. apply list_elem_of_lookup in Hy as [k Hk]. rewrite lookup_drop in Hk.
    assert (rank_Less c y = true) as Hcy
      by (apply (sorted_lookup rank_lt (candidates rt) (Z.to_nat n) (S (Z.to_nat n) + k)); [apply Hwf|lia|done..]).
    pose proof (rank_Less_trans _ _ _ Hcy Hlt) as Hcc. by rewrite rank_Less_irrefl in Hcc.
  - apply Forall_forall. intros y Hy. apply list_elem_of_lookup in Hy as [k Hk].
    apply lookup_take_Some in Hk as [Hk Hlt].
    apply (sorted_lookup rank_lt (candidates rt) k (Z.to_nat n)); [apply Hwf|lia|done..].
Qed.

(** A well-formed table is the sorted view of a finite map from addresses to
    ranks: adding, removing, passing over timed-out formulators and ending a turn
    act on that map as insertion, deletion and an update of the smallest rank,
    fail exactly in the documented cases, and never panic on a table that is not
    empty. *)
Lemma rank_table_refines_map (rt : RankTable) :
  rt_wf rt ->
  (forall s, rank_ok s ->
     match addRank rt s with
     | Ok rt' => rt_wf rt' /\ rankMap rt' = <[r_Address s := s]> (rankMap rt) /\ rankMap rt !! r_Address s = None
     | Err e => (e = ErrInvalidPhase /\ r_phase s < smallestPhase rt) \/
                (e = ErrExistAddress /\ is_Some (rankMap rt !! r_Address s))
     | Panic _ => False
     end) /\
  (forall addr, rt_wf (removeRank rt addr) /\ rankMap (removeRank rt addr) = delete addr (rankMap rt)) /\
  (forall h, hash_ok h -> candidates rt <> [] ->
     exists top rt', forwardTop rt h = Ok rt' /\ rt_wf rt' /\
       (forall r, r ∈ candidates rt -> r = top \/ rank_Less top r = true) /\
       rankMap rt' = <[r_Address top := rank_Set top (u32 (r_phase top + 1)) h]> (rankMap rt)) /\
  (forall n, 0 <= n < Z.of_nat (length (candidates rt)) ->
     exists rt', forwardCandidates rt n = Ok rt' /\ rt_wf rt' /\ dom (rankMap rt') = dom (rankMap rt)) /\
  (forall rt', rt_wf rt' -> rankMap rt' = rankMap rt -> candidates rt' = candidates rt).
Proof.
  intros Hwf. split_and!.
  - intros s Hs. destruct (addRank rt s) as [rt'|e|w] eqn:E; [by apply addRank_spec| |];
      revert E; unfold addRank, smallestPhase; destruct (candidates rt) as [|c tl];
      [|destruct (Z.ltb_spec (r_phase s) (r_phase c))| |destruct (Z.ltb_spec (r_phase s) (r_phase c))];
      repeat case_bool_decide; intros [=]; subst; auto.
  - intros addr. by apply removeRank_spec.
  - intros h Hh Hne. destruct (candidates rt) as [|top tl] eqn:Hc; [done|].
    destruct (forwardTop_spec rt h top tl Hwf Hh Hc) as (rt' & E & Hwf' & Hm & _).
    exists top, rt'. split_and!; [done..| |done]. intros r Hr. rewrite <- Hc in Hr.
    by apply (candidates_top rt top tl r Hwf Hc).
  - intros n Hn. destruct (forwardCandidates_spec rt n Hwf Hn) as (rt' & ? & ? & ? & _). eauto.
  - intros rt' Hwf' E. by apply candidates_unique.
Qed.

(** ** Turns

    What stands between a rank and its turn: for every other rank, the number of
    turns it can still take before its phase is beyond the rank's. *)

Definition lead (p : Z) (r : Rank) : Z := Z.max 0 (p + 1 - r_phase r).
Fixpoint sum_lead (p : Z) (l : list Rank) : Z :=
  match l with [] => 0 | r :: l => lead p r + sum_lead p l end.
Definition wait (c : Rank) (rt : RankTable) : Z :=
  sum_lead (r_phase c) (base.filter (fun r => r_Address r <> r_Address c) (candidates rt)).

(** The turns of successive formulators, each ending with the hash of its block. *)
Fixpoint turns (rt : RankTable) (hs : list Hash256) : res RankTable :=
  match hs with
  | [] => Ok rt
  | h :: hs => let? rt := forwardTop rt h in turns rt hs
  end.

Lemma sum_lead_nonneg p l : 0 <= sum_lead p l.
Proof. induction l; cbn; unfold lead in *; lia. Qed.

#[local] Instance sum_lead_proper p : Proper ((≡ₚ) ==> (=)) (sum_lead p).
Proof. intros l l' Hp. induction Hp as [|x l l' _ IH|x y l|l1 l2 l3 _ IH1 _ IH2]; cbn; [lia|by rewrite IH|lia|congruence]. Qed.

Lemma wait_cons c rt top tl :
  candidates rt = top :: tl -> r_Address top <> r_Address c ->
  wait c rt = lead (r_phase c) top + sum_lead (r_phase c) (base.filter (fun r => r_Address r <> r_Address c) tl).
Proof. intros Hc Hne. unfold wait. by rewrite Hc, filter_cons_True. Qed.

Lemma wait_insert c l m :
  r_Address m <> r_Address c ->
  sum_lead (r_phase c) (base.filter (fun r => r_Address r <> r_Address c) (InsertRankToList l m))
  = lead (r_phase c) m + sum_lead (r_phase c) (base.filter (fun r => r_Address r <> r_Address c) l).
Proof. intros Hne. rewrite (InsertRankToList_perm l m). by rewrite filter_cons_True. Qed.

(** A turn of another formulator brings the rank one step nearer. *)
Lemma turn_progress rt c h top tl :
  rt_wf rt -> hash_ok h -> candidates rt = top :: tl -> c ∈ tl -> r_phase top + 1 < 2 ^ 32 ->
  exists rt', forwardTop rt h = Ok rt' /\ rt_wf rt' /\ c ∈ candidates rt' /\ wait c rt' = wait c rt - 1 /\
    forall b, (forall r, r ∈ candidates rt -> r_phase r < b) -> forall r, r ∈ candidates rt' -> r_phase r < b + 1.
Proof.
  intros Hwf Hh Hc Hin Hb. destruct (forwardTop_spec rt h top tl Hwf Hh Hc) as (rt' & E & Hwf' & _ & Hcand).
  set (m := rank_Set top _ h) in *. exists rt'. split_and!; [done..| | |].
  - rewrite Hcand, InsertRankToList_perm. by right.
  - pose proof (wf_nodup _ Hwf) as Hnd. rewrite Hc in Hnd. cbn in Hnd. apply NoDup_cons in Hnd as [Hnd _].
    assert (Hne : r_Address top <> r_Address c) by (intros Ea; apply Hnd; rewrite Ea; by apply list_elem_of_fmap_2).
    unfold wait at 1. rewrite Hcand, wait_insert by done. rewrite (wait_cons c rt top tl Hc Hne).
    destruct (candidates_top rt top tl c Hwf Hc) as [Htop Hless].
    destruct Hless as [->|Hless]; [rewrite Hc; by right|done|].
    assert (rank_ok c) as Hcok.
    { pose proof (wf_ranks _ Hwf) as Hr. rewrite Hc, Forall_cons, Forall_forall in Hr. by apply Hr. }
    pose proof (rank_Less_phase top c Htop Hcok Hless). destruct (ro_phase _ Htop).
    assert (Hpm : r_phase m = r_phase top + 1) by (cbn; unfold u32; rewrite Z.mod_small; lia).
    unfold lead. rewrite Hpm. lia.
  - intros b Hbound r. rewrite Hcand, InsertRankToList_perm, elem_of_cons. rewrite Hc in Hbound. intros [->|Hr].
    + cbn. unfold u32. destruct (candidates_top rt top tl c Hwf Hc) as [[Hp _ _] _].
      rewrite Z.mod_small by lia. pose proof (Hbound top (list_elem_of_here _ _)). lia.
    + pose proof (Hbound r (list_elem_of_further _ _ _ Hr)). lia.
Qed.

(** C16. Fairness: as long as phases do not reach the end of their 32 bits, every
    formulator of the table gets its turn: after at most [wait] turns of others
    (each other formulator takes at most one turn per phase it lags behind, plus
    one) its rank, unchanged, is at the top. *)
Theorem every_formulator_gets_its_turn (rt : RankTable) (c : Rank) (hs : list Hash256) :
  rt_wf rt -> c ∈ candidates rt -> Forall hash_ok hs -> wait c rt <= Z.of_nat (length hs) ->
  (forall r, r ∈ candidates rt -> r_phase r < 2 ^ 32 - 1 - Z.of_nat (length hs)) ->
  exists k rt', (k <= length hs)%nat /\ turns rt (take k hs) = Ok rt' /\ rt_wf rt' /\ TopRank rt' 0 = Ok c.
Proof.
  intros Hwf Hin Hhs. revert rt Hwf Hin. induction Hhs as [|h hs Hh Hhs IH]; intros rt Hwf Hin Hwait Hb;
    (destruct (candidates rt) as [|top tl] eqn:Hc; [by apply not_elem_of_nil in Hin|]);
    destruct (decide (c = top)) as [->|Hne].
  1,3: exists 0%nat, rt; split_and!; [lia|done..|]; unfold TopRank; rewrite Hc; cbn;
    f_equal; apply rank_Clone_ok; by apply (candidates_top rt top tl top Hwf Hc).
  all: apply elem_of_cons in Hin as [->|Hin]; [done|].
  - destruct (turn_progress rt c (replicate 32 0) top tl Hwf) as (rt' & _ & _ & _ & Hw & _); [|done..| |].
    + split; [done|]. by apply Forall_replicate.
    + pose proof (Hb top (list_elem_of_here _ _)) as Ht. cbn in Ht. lia.
    + pose proof (sum_lead_nonneg (r_phase c) (base.filter (fun r => r_Address r <> r_Address c) (candidates rt'))) as Hnn.
      change (0 <= wait c rt') in Hnn. cbn in Hwait. lia.
  - destruct (turn_progress rt c h top tl Hwf Hh Hc Hin) as (rt1 & E & Hwf1 & Hin1 & Hw & Hb1).
    { pose proof (Hb top (list_elem_of_here _ _)) as Ht. cbn [length] in Ht. lia. }
    rewrite <- Hc in Hb. cbn [length] in Hwait, Hb.
    destruct (IH rt1 Hwf1 Hin1) as (k & rt' & Hk & Ht & Hwf' & Htop); [lia| |].
    { intros r Hr. pose proof (Hb1 _ Hb r Hr). lia. }
    exists (S k), rt'. split_and!; [cbn; lia| |done..]. cbn. by rewrite E.
Qed.

(** ** The stored form *)

Section Codec.
Context (cAddress cPublicHash cHash : Coder bytes) (cUint32 : Coder Z) `{ArrayLenCoder}.

(** The coder registered for [Rank]; the score is not stored, so the decoder
    leaves it zero. *)
Definition encode_rank (r : Rank) : res bytes :=
  let? ba := encode (Coder := cAddress) (r_Address r) in
  let? bp := encode (Coder := cPublicHash) (r_PublicHash r) in
  let? bn := encode (Coder := cUint32) (r_phase r) in
  let? bh := encode (Coder := cHash) (r_hashSpace r) in
  Ok (ba ++ bp ++ bn ++ bh).

Definition decode_rank (bs : bytes) : res (Rank * bytes) :=
  let? (a, bs) := decode (Coder := cAddress) bs in
  let? (p, bs) := decode (Coder := cPublicHash) bs in
  let? (n, bs) := decode (Coder := cUint32) bs in
  let? (h, bs) := decode (Coder := cHash) bs in
  Ok (mkRank a p n h 0, bs).

(** The coder registered for [RankTable]. *)
Fixpoint encode_ranks (l : list Rank) : res bytes :=
  match l with
  | [] => Ok []
  | s :: l => let? b := encode_rank s in let? bs := encode_ranks l in Ok (b ++ bs)
  end.

Definition encode_table (rt : RankTable) : res bytes :=
  let? bh := encode (Coder := cUint32) (rt_height rt) in
  let? bl := encode_ranks (candidates rt) in
  Ok (bh ++ EncodeArrayLen (length (candidates rt)) ++ bl).

(** Each rank is appended, put in the map, and updated through the pointer that
    both share. *)
Fixpoint decode_ranks (n : nat) (rt : RankTable) (bs : bytes) : res (RankTable * bytes) :=
  match n with
  | O => Ok (rt, bs)
  | S n =>
      let? (s, bs) := decode_rank bs in
      let s := rank_update s in
      decode_ranks n (mkTable (rt_height rt) (candidates rt ++ [s]) (<[r_Address s := s]> (rankMap rt))) bs
  end.

Definition decode_table (bs : bytes) : res (RankTable * bytes) :=
  let? (h, bs) := decode (Coder := cUint32) bs in
  let? (n, bs) := DecodeArrayLen bs in
  decode_ranks (Z.to_nat n) (mkTable h (candidates NewRankTable) (rankMap NewRankTable)) bs.

Definition rank_codable (r : Rank) : Prop :=
  codable (Coder := cAddress) (r_Address r) /\ codable (Coder := cPublicHash) (r_PublicHash r) /\
  codable (Coder := cUint32) (r_phase r) /\ codable (Coder := cHash) (r_hashSpace r).

Lemma decode_encode_rank r bs rest : rank_codable r -> rank_ok r -> encode_rank r = Ok bs ->
  exists s, decode_rank (bs ++ rest) = Ok (s, rest) /\ rank_update s = r.
Proof.
  intros (Ha & Hp & Hn & Hh) Hr. unfold encode_rank, decode_rank.
  destruct (encode (Coder := cAddress) (r_Address r)) as [ba| |] eqn:Ea; [|done..].
  destruct (encode (Coder := cPublicHash) (r_PublicHash r)) as [bp| |] eqn:Ep; [|done..].
  destruct (encode (Coder := cUint32) (r_phase r)) as [bn| |] eqn:En; [|done..].
  destruct (encode (Coder := cHash) (r_hashSpace r)) as [bh| |] eqn:Eh; [|done..].
  cbn [res_bind]. intros [= <-]. rewrite <- !app_assoc.
  rewrite (decode_encode _ _ _ Ha Ea). cbn [res_bind]. rewrite (decode_encode _ _ _ Hp Ep). cbn [res_bind].
  rewrite (decode_encode _ _ _ Hn En). cbn [res_bind]. rewrite (decode_encode _ _ _ Hh Eh). cbn [res_bind].
  eexists. split; [done|]. rewrite <- (ro_score _ Hr) at 5. done.
Qed.

Lemma decode_encode_ranks l bs rest rt :
  Forall rank_codable l -> Forall rank_ok l -> encode_ranks l = Ok bs ->
  decode_ranks (length l) rt (bs ++ rest) =
    Ok (mkTable (rt_height rt) (candidates rt ++ l) (foldl (fun m r => <[r_Address r := r]> m) (rankMap rt) l), rest).
Proof.
  intros Hc Hr. revert bs rt Hr. induction Hc as [|r l Hrc _ IH]; intros bs rt Hr; cbn [encode_ranks decode_ranks length foldl].
  { intros [= <-]. rewrite app_nil_r. by destruct rt. }
  apply Forall_cons in Hr as [Hro Hr]. destruct (encode_rank r) as [b| |] eqn:E; [|done..].
  destruct (encode_ranks l) as [bs'| |] eqn:E'; [|done..]. cbn [res_bind]. intros [= <-]. rewrite <- app_assoc.
  destruct (decode_encode_rank r b (bs' ++ rest) Hrc Hro E) as (s & -> & Hs). cbn [res_bind]. rewrite Hs.
  rewrite (IH bs') by done. cbn. by rewrite <- app_assoc.
Qed.

Lemma foldl_insert_lookup (l : list Rank) (m : gmap Address Rank) addr r :
  NoDup (r_Address <$> l) -> (forall a, a ∈ r_Address <$> l -> m !! a = None) ->
  foldl (fun m r => <[r_Address r := r]> m) m l !! addr = Some r <-> m !! addr = Some r \/ (r ∈ l /\ r_Address r = addr).
Proof.
  revert m. induction l as [|x l IH]; intros m Hnd Hf; cbn [foldl].
  { rewrite elem_of_nil. tauto. }
  cbn in Hnd, Hf. apply NoDup_cons in Hnd as [Hx Hnd]. rewrite IH; [|done|].
  - rewrite lookup_insert_Some, elem_of_cons. split.
    + intros [[[<- <-]|[_ ?]]|[? ?]]; auto.
    + intros [Hm|[[->|Hin] <-]]; [|by left; left|by right].
      left. right. split; [|done]. intros <-. rewrite Hf in Hm; [done|by left].
  - intros a Ha. rewrite lookup_insert_ne by congruence. apply Hf. by right.
Qed.

Lemma rank_table_reads_back (rt : RankTable) (bs rest : bytes) :
  rt_wf rt -> codable (Coder := cUint32) (rt_height rt) -> Forall rank_codable (candidates rt) ->
  encode_table rt = Ok bs -> decode_table (bs ++ rest) = Ok (rt, rest).
Proof.
  intros Hwf Hh Hc. unfold encode_table, decode_table.
  destruct (encode (Coder := cUint32) (rt_height rt)) as [bh| |] eqn:Eh; [|done..].
  destruct (encode_ranks (candidates rt)) as [bl| |] eqn:El; [|done..]. cbn [res_bind]. intros [= <-].
  rewrite <- !app_assoc, (decode_encode _ _ _ Hh Eh). cbn [res_bind]. rewrite DecodeArrayLen_Encode. cbn [res_bind].
  rewrite Nat2Z.id, (decode_encode_ranks _ bl) by (done || apply Hwf). cbn. destruct rt as [h cs m]. cbn in *.
  do 3 f_equal. apply map_eq. intros addr. apply option_eq. intros r.
  rewrite foldl_insert_lookup; [|apply Hwf|intros; apply lookup_empty].
  rewrite (wf_map _ Hwf addr r). cbn. rewrite lookup_empty. naive_solver.
Qed.
End Codec.

(** ** A small table *)

Definition ex_hash (b : Z) : Hash256 := b :: replicate 31 0.
Definition ex_rank (b phase : Z) : Rank := NewRank (replicate 13 0 ++ [b]) [b] phase (ex_hash b).

Definition ok_table (r : res RankTable) : RankTable := match r with Ok rt => rt | _ => NewRankTable end.

(** Three formulators, the first two of the same phase. *)
Definition ex_table1 : RankTable := ok_table (addRank NewRankTable (ex_rank 9 2)).
Definition ex_table2 : RankTable := ok_table (addRank ex_table1 (ex_rank 4 2)).
Definition ex_table : RankTable := ok_table (addRank ex_table2 (ex_rank 1 3)).

Lemma ex_hash_ok b : byte_ok b -> hash_ok (ex_hash b).
Proof. intros Hb. split; [done|]. constructor; [done|]. by apply Forall_replicate. Qed.

Lemma ex_rank_ok b phase : byte_ok b -> 0 <= phase < 2 ^ 32 -> rank_ok (ex_rank b phase).
Proof. intros Hb Hp. apply rank_update_ok; [done|by apply ex_hash_ok]. Qed.

Lemma ex_table_reached : rtc table_step NewRankTable ex_table.
Proof.
  eapply rtc_l; [eapply (step_add _ (ex_rank 9 2)); [by apply ex_rank_ok|vm_compute; reflexivity]|].
  eapply rtc_l; [eapply (step_add _ (ex_rank 4 2)); [by apply ex_rank_ok|vm_compute; reflexivity]|].
  eapply rtc_l; [eapply (step_add _ (ex_rank 1 3)); [by apply ex_rank_ok|vm_compute; reflexivity]|].
  apply rtc_refl.
Qed.

Lemma ex_table_wf : rt_wf ex_table.
Proof.
  assert (H1 : rt_wf ex_table1) by (apply (addRank_spec NewRankTable (ex_rank 9 2)); [apply NewRankTable_wf|by apply ex_rank_ok|vm_compute; reflexivity]).
  assert (H2 : rt_wf ex_table2) by (apply (addRank_spec ex_table1 (ex_rank 4 2)); [done|by apply ex_rank_ok|vm_compute; reflexivity]).
  apply (addRank_spec ex_table2 (ex_rank 1 3)); [done|by apply ex_rank_ok|vm_compute; reflexivity].
Qed.

Lemma rank_table_invariant_witness :
  TopRank ex_table 1 = Ok (ex_rank 9 2) /\ rankMap ex_table !! r_Address (ex_rank 9 2) = Some (ex_rank 9 2) /\
  1 = Z.of_nat (length (base.filter (fun r' => rank_Less r' (ex_rank 9 2) = true) (candidates ex_table))).
Proof.
  assert (E : TopRank ex_table 1 = Ok (ex_rank 9 2)) by (vm_compute; reflexivity). split; [exact E|].
  exact (proj2 (rank_table_invariant ex_table 1 (ex_rank 9 2) ex_table_reached) ltac:(lia) E).
Defined.

Lemma rank_table_refines_map_witness :
  rt_wf (removeRank ex_table (r_Address (ex_rank 9 2))) /\
  rankMap (removeRank ex_table (r_Address (ex_rank 9 2))) = delete (r_Address (ex_rank 9 2)) (rankMap ex_table).
Proof. exact (proj1 (proj2 (rank_table_refines_map ex_table ex_table_wf)) _). Defined.

Definition ex_hashes : list Hash256 := ex_hash <$> [10; 11; 12; 13].

(** The third formulator waits for one turn of each of the others, and one more of
    the two that are a phase behind. *)
Lemma every_formulator_gets_its_turn_witness :
  wait (ex_rank 1 3) ex_table = 4 /\
  exists k rt', (k <= length ex_hashes)%nat /\ turns ex_table (take k ex_hashes) = Ok rt' /\ rt_wf rt' /\
    TopRank rt' 0 = Ok (ex_rank 1 3).
Proof.
  split; [vm_compute; reflexivity|].
  apply (every_formulator_gets_its_turn ex_table (ex_rank 1 3) ex_hashes).
  - apply ex_table_wf.
  - apply list_elem_of_lookup. exists 2%nat. vm_compute. reflexivity.
  - repeat constructor; by repeat constructor.
  - vm_compute. done.
  - assert (E : candidates ex_table = [ex_rank 4 2; ex_rank 9 2; ex_rank 1 3]) by (vm_compute; reflexivity).
    rewrite E. apply Forall_forall. repeat apply Forall_cons_2; try apply Forall_nil_2; by vm_compute.
Defined.

Lemma ex_table_reads_back :
  exists bs, encode_table coder_blob coder_blob coder_blob coder_byte ex_table = Ok bs /\
    decode_table coder_blob coder_blob coder_blob coder_byte (bs ++ [7]) = Ok (ex_table, [7]).
Proof.
  eexists. split; [vm_compute; reflexivity|].
  apply (rank_table_reads_back coder_blob coder_blob coder_blob coder_byte); [apply ex_table_wf|done| |vm_compute; reflexivity].
  apply Forall_forall. by intros r _.
Defined.
