(* ===== verification/Consensus.v ===== *)
(** * The consensus

    [pof/consensus.go] and [pof/consensus_method.go]: the proof-of-formulation
    consensus keeps the rank table, the keys of the observers and the number of
    blocks the current formulator has made.  It accepts a block whose generator is
    the formulator of the rank the header's timeout count names, with its
    signature and those of a majority of the observers; after a block is saved it
    moves the table on, brings it in line with the formulator accounts the block
    changed, and writes its state into the process data of the block. *)

From stdpp Require Import base gmap list sorting strings.
From Stdlib Require Import ZArith Lia.
From S2P Require Import Prelude Amount Common Factory OrderedMap LevelRoot Types Context ContextSpec ContextFacts Chain RankTable.

Definition ErrInvalidMaxBlocksPerFormulator := poferr "invalid max blocks per formulator".
Definition ErrInvalidObserverKey := poferr "invalid observer key".
Definition ErrInvalidTopAddress := poferr "invalid top address".
Definition ErrInvalidTopSignature := poferr "invalid top signature".
Definition ErrInvalidSignatureCount := poferr "invalid signature count".

Definition tagState : bytes := [1].

(** [types.BlockSign]: what an observer signs. *)
Record BlockSign := mkBlockSign { bs_HeaderHash : Hash256; bs_GeneratorSignature : Signature }.

Section Consensus.
Context `{T : !LLRB (item PublicHash bool) item_Less}.
(** [msgpack]. *)
Context (cAddress cPublicHash cHash : Coder bytes) (cUint32 : Coder Z) (cBool : Coder bool) `{ArrayLenCoder}.
Context `{Sha256} `{Ecrecover} `{!Marshaler Header} `{!Marshaler BlockSign}.

Record PofConsensus := mkPof {
  maxBlocksPerFormulator : Z;
  blocksBySameFormulator : Z;
  observerKeyMap : llrb (LLRB := T);
  cs_rt : RankTable;
  maxPhaseDiff : option (Z -> Z)     (** nil is [None] *)
}.

Definition set_rt (cs : PofConsensus) (rt : RankTable) : PofConsensus :=
  mkPof (maxBlocksPerFormulator cs) (blocksBySameFormulator cs) (observerKeyMap cs) rt (maxPhaseDiff cs).
Definition set_blocks (cs : PofConsensus) (n : Z) : PofConsensus :=
  mkPof (maxBlocksPerFormulator cs) n (observerKeyMap cs) (cs_rt cs) (maxPhaseDiff cs).

Definition NewConsensus (MaxBlocksPerFormulator : Z) (ObserverKeys : list PublicHash) : PofConsensus :=
  mkPof MaxBlocksPerFormulator 0 (foldl (fun m pubhash => Put m (pubhash_Clone pubhash) true) NewMap ObserverKeys)
    NewRankTable None.

Definition SetMaxPhaseDiff (cs : PofConsensus) (fn : Z -> Z) : PofConsensus :=
  mkPof (maxBlocksPerFormulator cs) (blocksBySameFormulator cs) (observerKeyMap cs) (cs_rt cs) (Some fn).

(** ** The formulator list

    The table is changed in place: an error leaves the changes made before it. *)

Definition rt_add (s : Rank) : ST RankTable unit := fun rt =>
  match addRank rt s with Ok rt' => (Ok tt, rt') | Err e => (Err e, rt) | Panic w => (Panic w, rt) end.
Definition rt_remove (addr : Address) : ST RankTable unit := modify (fun rt => removeRank rt addr).

(** Ranks beyond [maxPhase] are brought back to it. *)
Definition clamp_rank (maxPhase : Z) (r : Rank) : ST RankTable unit :=
  if maxPhase <? r_phase r then
    rt_remove (r_Address r) ;;;
    rt_add (NewRank (r_Address r) (r_PublicHash r) maxPhase (r_hashSpace r))
  else ret tt.

(** The phase of new ranks, and the effect of [maxPhaseDiff] on the others. *)
Definition new_phase (diff : option Z) : ST RankTable Z :=
  let! rt := gets (fun rt => rt) in
  match diff with
  | None => ret (u32 (smallestPhase rt + 2))
  | Some diff =>
      let phase := u32 (largestPhase rt + 1) in
      if diff =? 0 then ret phase
      else
        let maxPhase := u32 (smallestPhase rt + diff) in
        let phase := if maxPhase <? phase then maxPhase else phase in
        (if maxPhase <? largestPhase rt then for_each (Candidates rt) (clamp_rank maxPhase) else ret tt) ;;;
        ret phase
  end.

(** One entry of the block's [AccountMap]. *)
Definition update_account (TargetHeight phase : Z) (e : Address * Account) : ST RankTable unit :=
  let '(addr, a) := e in
  match a with
  | AFormulator acc =>
      let IsActivated := negb (fa_IsRevoked acc) in
      let fresh := NewRank addr (fa_GenHash acc) phase (DoubleHash addr) in
      if Height (acc_Address a) =? TargetHeight then
        if IsActivated then rt_add fresh else ret tt
      else
        let! rt := gets (fun rt => rt) in
        match rankMap rt !! addr with
        | Some r =>
            if negb IsActivated then rt_remove addr
            else if negb (bool_decide (r_PublicHash r = fa_GenHash acc)) then rt_remove addr ;;; rt_add fresh
            else ret tt
        | None => if IsActivated then rt_add fresh else ret tt
        end
  | _ => ret tt
  end.

(** One entry of the block's [DeletedAccountMap]. *)
Definition remove_account (e : Address * Account) : ST RankTable unit :=
  match e.2 with
  | AFormulator acc => rt_remove (fa_Address acc)
  | _ => ret tt
  end.

(** [EachAll] visits the accounts in the order of their addresses. *)
Definition account_entries (m : gmap Address Account) : list (Address * Account) :=
  omap (fun addr => (fun a => (addr, a)) <$> m !! addr) (sorted_byte_keys m).

Definition update_table (diff : option Z) (TargetHeight : Z) (top : ContextData) : ST RankTable unit :=
  let! phase := new_phase diff in
  for_each (account_entries (AccountMap top)) (update_account TargetHeight phase) ;;;
  for_each (account_entries (DeletedAccountMap top)) remove_account ;;;
  let! rt := gets (fun rt => rt) in
  guard (negb (CandidateCount rt =? 0)%nat) ErrInsufficientCandidateCount.

(** The consensus runs on its own state and on the context of the block. *)
Definition csM (A : Type) : Type := ST (PofConsensus * Context_) A.

Definition on_rt {A} (m : ST RankTable A) : csM A := fun s =>
  let '(r, rt) := m (cs_rt s.1) in (r, (set_rt s.1 rt, s.2)).
Definition on_ctx {A} (m : ctxM A) : csM A := fun s =>
  let '(r, ctx) := m s.2 in (r, (s.1, ctx)).
Definition get_cs : csM PofConsensus := gets fst.
Definition set_cs_blocks (f : Z -> Z) : csM unit := modify (fun s => (set_blocks s.1 (f (blocksBySameFormulator s.1)), s.2)).

Definition updateFormulatorList : csM unit :=
  let! cs := get_cs in
  let! height := on_ctx TargetHeight in
  let! top := on_ctx Top in
  on_rt (update_table ((fun f => f height) <$> maxPhaseDiff cs) height top).

(** ** The stored state *)

Definition DecodeConsensusData (ConsensusData : bytes) : res Z :=
  let? (TimeoutCount, _) := decode (Coder := cUint32) ConsensusData in Ok TimeoutCount.

Definition encodeConsensusData (TimeoutCount : Z) : res bytes := encode (Coder := cUint32) TimeoutCount.

Definition key_kind : MapKind PublicHash bool := PublicHashBoolMap cPublicHash cBool.

Definition buildSaveData (cs : PofConsensus) : res bytes :=
  let? b1 := encode (Coder := cUint32) (maxBlocksPerFormulator cs) in
  let? b2 := kind_Encode key_kind (observerKeyMap cs) in
  let? b3 := encode (Coder := cUint32) (blocksBySameFormulator cs) in
  let? b4 := encode_table cAddress cPublicHash cHash cUint32 (cs_rt cs) in
  Ok (b1 ++ b2 ++ b3 ++ b4).

Definition OnLoadChain (cs : PofConsensus) (data : bytes) : res PofConsensus :=
  let? (v, bs) := decode (Coder := cUint32) data in
  if negb (maxBlocksPerFormulator cs =? v) then Err ErrInvalidMaxBlocksPerFormulator
  else
    let? (ObserverKeyMap, bs) := (kind_Decode key_kind bs : res (llrb (LLRB := T) * bytes)) in
    if negb (Len ObserverKeyMap =? Len (observerKeyMap cs))%nat then Err ErrInvalidObserverKey
    else if negb (EachAll ObserverKeyMap (fun pubhash _ ok => if Has (observerKeyMap cs) pubhash then (ok, true) else (false, false)) true)
    then Err ErrInvalidObserverKey
    else
      let? (n, bs) := decode (Coder := cUint32) bs in
      let? (rt, _) := decode_table cAddress cPublicHash cHash cUint32 bs in
      Ok (set_rt (set_blocks cs n) rt).

Definition save_state : csM unit :=
  let! cs := get_cs in
  let! data := lift (buildSaveData cs) in
  on_ctx (SetProcessData 0 tagState data).

Definition InitGenesis : csM unit := updateFormulatorList ;;; save_state.

(** ** Blocks *)

Definition header_hash (bh : Header) : Hash256 := marshal_hash bh.
Definition block_sign_hash (bh : Header) (sig : Signature) : Hash256 := marshal_hash (mkBlockSign (header_hash bh) sig).

Definition KeyMap_of (m : llrb (LLRB := T)) : gmap PublicHash bool :=
  EachAll m (fun pubhash _ KeyMap => (<[pubhash := true]> KeyMap, true)) ∅.

Definition ValidateSignature (cs : PofConsensus) (bh : Header) (sigs : list Signature) : res unit :=
  let? TimeoutCount := DecodeConsensusData (h_ConsensusData bh) in
  let? top := TopRank (cs_rt cs) TimeoutCount in
  if negb (bool_decide (r_Address top = h_Generator bh)) then Err ErrInvalidTopAddress
  else match sigs with
  | [] => Panic "index out of range"
  | GeneratorSignature :: ObserverSignatures =>
      let? pubkey := recover (header_hash bh) GeneratorSignature in
      if negb (bool_decide (r_PublicHash top = NewPublicHash pubkey)) then Err ErrInvalidTopSignature
      else if negb (length sigs =? Len (observerKeyMap cs) / 2 + 2)%nat then Err ErrInvalidSignatureCount
      else ValidateSignaturesMajority (block_sign_hash bh GeneratorSignature) ObserverSignatures (KeyMap_of (observerKeyMap cs))
  end.

Definition pof_OnSaveData {Tx} (b : Block Tx) : csM unit :=
  let HeaderHash := header_hash (b_Header b) in
  let! TimeoutCount := lift (DecodeConsensusData (h_ConsensusData (b_Header b))) in
  (if 0 <? TimeoutCount then
     on_rt (fun rt => match forwardCandidates rt TimeoutCount with Ok rt' => (Ok tt, rt') | Err e => (Err e, rt) | Panic w => (Panic w, rt) end) ;;;
     set_cs_blocks (fun _ => 0)
   else ret tt) ;;;
  set_cs_blocks (fun n => u32 (n + 1)) ;;;
  let! cs := get_cs in
  (if maxBlocksPerFormulator cs <=? blocksBySameFormulator cs then
     on_rt (fun rt => match forwardTop rt HeaderHash with Ok rt' => (Ok tt, rt') | Err e => (Err e, rt) | Panic w => (Panic w, rt) end) ;;;
     set_cs_blocks (fun _ => 0)
   else ret tt) ;;;
  updateFormulatorList ;;;
  save_state.
End Consensus.
