(* ===== verification/ConsensusSpec.v ===== *)
(** * What the consensus guarantees

    Accountability of the signatures, agreement of the rank table with the
    formulator accounts, the bound on the phases that keeps the update from
    failing, and the stored state. *)

From stdpp Require Import base gmap list sorting strings.
From Stdlib Require Import ZArith Lia.
From S2P Require Import Prelude Amount Common Factory OrderedMap LevelRoot Types Context ContextSpec ContextFacts Chain RankTable Consensus.

(** ** Signatures *)

Section Signatures.
Context `{T : !LLRB (item PublicHash bool) item_Less} (cUint32 : Coder Z).
Context `{Sha256} `{Ecrecover} `{!Marshaler Header} `{!Marshaler BlockSign}.

Lemma KeyMap_of_iterate (l : list (item PublicHash bool)) (m : gmap PublicHash bool) ph :
  only_pairs l ->
  iterate l (fun pubhash _ KeyMap => (<[pubhash := true]> KeyMap, true)) m !! ph = Some true <->
  m !! ph = Some true \/ ph ∈ (pairs l).*1.
Proof.
  intros Hp. revert m. induction Hp as [|? l (k & v & ->) _ IH]; intros m; cbn.
  { rewrite elem_of_nil. tauto. }
  rewrite IH, lookup_insert_Some, elem_of_cons. destruct (decide (k = ph)); naive_solver.
Qed.

(** The key map of the check has exactly the observers. *)
Lemma KeyMap_of_spec (m : llrb (LLRB := T)) ph : map_wf m -> KeyMap_of m !! ph = Some true <-> Has m ph = true.
Proof.
  intros Hwf. unfold KeyMap_of. rewrite EachAll_items by done. rewrite KeyMap_of_iterate by apply Hwf.
  rewrite lookup_empty, Has_contents, bool_decide_eq_true by done. unfold contents.
  rewrite <- elem_of_dom, dom_list_to_map_L, elem_of_list_to_set. naive_solver.
Qed.

(** The generator is the formulator that the rank table names for the timeout count,
    and the first signature is its. *)
Definition generator_signed (cs : PofConsensus (T := T)) (bh : Header) (sigs : list Signature) : Prop :=
  exists n top g obs, sigs = g :: obs /\
    DecodeConsensusData cUint32 (h_ConsensusData bh) = Ok n /\ TopRank (cs_rt cs) n = Ok top /\
    r_Address top = h_Generator bh /\ signer_of (header_hash bh) g (r_PublicHash top).

(** What an accepted block shows. *)
Record accepted (cs : PofConsensus (T := T)) (bh : Header) (sigs : list Signature) : Prop := {
  ac_generator : generator_signed cs bh sigs;
  ac_observers : exists g obs, sigs = g :: obs /\
    ValidateSignaturesMajority (block_sign_hash bh g) obs (KeyMap_of (observerKeyMap cs)) = Ok tt
}.

Lemma ValidateSignature_accepted cs bh sigs : ValidateSignature cUint32 cs bh sigs = Ok tt -> accepted cs bh sigs.
Proof.
  unfold ValidateSignature. destruct (DecodeConsensusData cUint32 (h_ConsensusData bh)) as [n| |] eqn:En; [|done..]. cbn [res_bind].
  destruct (TopRank (cs_rt cs) n) as [top| |] eqn:Et; [|done..]. cbn [res_bind].
  case_bool_decide as Ea; [|done]. destruct sigs as [|g obs]; [done|]. cbn [negb].
  destruct (recover (header_hash bh) g) as [pk| |] eqn:Er; [|done..]. cbn [res_bind].
  case_bool_decide as Ep; [|done]. cbn [negb]. destruct (_ =? _)%nat; [|done]. cbn [negb]. intros Hm.
  split; [exists n, top, g, obs|exists g, obs; by split]. split_and!; try done. by exists pk.
Qed.

(** C5. Accountability: two blocks that the consensus accepts in the same state,
    whatever their contents, have a common observer who signed both; the generator of
    each is the formulator that the rank table names for its timeout count, and the
    first signature of the block recovers to that formulator's key; blocks of the same
    timeout count have the same generator. *)
Theorem accepted_blocks_share_an_observer (cs : PofConsensus (T := T)) bh1 sigs1 bh2 sigs2 :
  map_wf (observerKeyMap cs) ->
  ValidateSignature cUint32 cs bh1 sigs1 = Ok tt -> ValidateSignature cUint32 cs bh2 sigs2 = Ok tt ->
  (exists ph g1 o1 g2 o2, sigs1 = g1 :: o1 /\ sigs2 = g2 :: o2 /\ Has (observerKeyMap cs) ph = true /\
     (exists sig, sig ∈ o1 /\ signer_of (block_sign_hash bh1 g1) sig ph) /\
     (exists sig, sig ∈ o2 /\ signer_of (block_sign_hash bh2 g2) sig ph)) /\
  generator_signed cs bh1 sigs1 /\ generator_signed cs bh2 sigs2 /\
  (DecodeConsensusData cUint32 (h_ConsensusData bh1) = DecodeConsensusData cUint32 (h_ConsensusData bh2) ->
   h_Generator bh1 = h_Generator bh2).
Proof.
  intros Hwf [G1 (g1 & o1 & -> & M1)]%ValidateSignature_accepted [G2 (g2 & o2 & -> & M2)]%ValidateSignature_accepted.
  split; [|split; [exact G1|split; [exact G2|]]].
  - destruct (majority_quorums_intersect _ _ _ _ _ M1 M2) as (ph & Hk & H1 & H2).
    exists ph, g1, o1, g2, o2. split_and!; try done. by apply KeyMap_of_spec.
  - destruct G1 as (n1 & t1 & ? & ? & _ & -> & E1 & A1 & _), G2 as (n2 & t2 & ? & ? & _ & -> & E2 & A2 & _).
    intros [= <-]. congruence.
Qed.
End Signatures.

(** ** The formulator list follows the accounts *)

Definition view (rt : RankTable) : gmap Address PublicHash := r_PublicHash <$> rankMap rt.

Section Update.
Context `{Sha256}.

Lemma Hash_ok d : hash_ok (Hash d).
Proof.
  unfold Hash, copy_into, hash_ok, Hash256Size. rewrite take_ge by (by rewrite sha256_length).
  rewrite sha256_length. cbn. rewrite app_nil_r. split; [apply sha256_length|apply sha256_ok].
Qed.

Lemma NewRank_ok addr ph phase h : 0 <= phase < 2 ^ 32 -> hash_ok h -> rank_ok (NewRank addr ph phase h).
Proof. intros. by apply rank_update_ok. Qed.

Lemma u32_range z : 0 <= u32 z < 2 ^ 32.
Proof. apply Z.mod_pos_bound. lia. Qed.

(** Runs that succeed: what they keep and what they change. *)
Definition runs (m : ST RankTable unit) (f : gmap Address PublicHash -> gmap Address PublicHash) (rt : RankTable) : Prop :=
  forall rt', m rt = (Ok tt, rt') -> rt_wf rt' /\ view rt' = f (view rt).

Lemma runs_add rt s : rt_wf rt -> rank_ok s -> runs (rt_add s) (<[r_Address s := r_PublicHash s]>) rt.
Proof.
  intros Hwf Hs rt'. unfold rt_add. destruct (addRank rt s) as [rt1| |] eqn:E; intros [= <-].
  destruct (addRank_spec rt s rt1 Hwf Hs E) as (? & Hm & _). split; [done|]. unfold view. by rewrite Hm, fmap_insert.
Qed.

Lemma runs_remove rt addr : rt_wf rt -> runs (rt_remove addr) (delete addr) rt.
Proof.
  intros Hwf rt' [= <-]. destruct (removeRank_spec rt addr Hwf) as [? Hm]. split; [done|].
  unfold view. by rewrite Hm, fmap_delete.
Qed.

Lemma runs_seq (m1 m2 : ST RankTable unit) f1 f2 rt :
  runs m1 f1 rt -> (forall rt1, rt_wf rt1 -> view rt1 = f1 (view rt) -> runs m2 f2 rt1) ->
  runs (m1 ;;; m2) (fun v => f2 (f1 v)) rt.
Proof.
  intros H1 H2 rt' E. apply bind_ok_inv in E as ([] & rt1 & E1 & E2).
  destruct (H1 rt1 E1) as [Hwf1 Hv1]. destruct (H2 rt1 Hwf1 Hv1 rt' E2) as [Hwf' ->]. split; [done|]. by rewrite Hv1.
Qed.

Lemma runs_ext m f g rt : f (view rt) = g (view rt) -> runs m f rt -> runs m g rt.
Proof. intros E Hr rt' Hm. rewrite <- E. by apply Hr. Qed.

Lemma runs_ret rt : rt_wf rt -> runs (ret tt) (fun v => v) rt.
Proof. intros Hwf rt' [= <-]. done. Qed.

Lemma runs_for_each {A} (l : list A) (body : A -> ST RankTable unit) f rt :
  (forall x rt, x ∈ l -> rt_wf rt -> runs (body x) (fun v => f v x) rt) -> rt_wf rt ->
  runs (for_each l body) (fun v => foldl f v l) rt.
Proof.
  revert rt. induction l as [|x l IH]; intros rt Hb Hwf; cbn [for_each foldl]; [by apply runs_ret|].
  apply (runs_seq _ _ (fun v => f v x) (fun v => foldl f v l)); [apply Hb; [by left|done]|].
  intros rt1 Hwf1 _. apply IH; [|done]. intros. apply Hb; [by right|done].
Qed.

(** Clamping changes phases only. *)
Definition clamp_view (maxPhase : Z) (v : gmap Address PublicHash) (r : Rank) : gmap Address PublicHash :=
  if maxPhase <? r_phase r then <[r_Address r := r_PublicHash r]> (delete (r_Address r) v) else v.

Lemma runs_clamp maxPhase r rt : 0 <= maxPhase < 2 ^ 32 -> hash_ok (r_hashSpace r) -> rt_wf rt ->
  runs (clamp_rank maxPhase r) (fun v => clamp_view maxPhase v r) rt.
Proof.
  intros Hp Hh Hwf. unfold clamp_rank, clamp_view. destruct (maxPhase <? r_phase r); [|by apply runs_ret].
  eapply runs_seq; [by apply runs_remove|]. intros rt1 Hwf1 _.
  apply (runs_add rt1 (NewRank (r_Address r) (r_PublicHash r) maxPhase (r_hashSpace r)) Hwf1). by apply NewRank_ok.
Qed.

Lemma clamp_view_id maxPhase l v :
  Forall (fun r => v !! r_Address r = Some (r_PublicHash r)) l -> foldl (clamp_view maxPhase) v l = v.
Proof.
  induction 1 as [|r l Hr _ IH]; cbn; [done|].
  assert (clamp_view maxPhase v r = v) as ->; [|done].
  unfold clamp_view. destruct (maxPhase <? r_phase r); [|done]. by rewrite insert_delete_eq, insert_id.
Qed.

Lemma Candidates_wf rt : rt_wf rt -> Candidates rt = candidates rt.
Proof.
  intros Hwf. pose proof (wf_ranks _ Hwf) as Hr. unfold Candidates. induction Hr as [|r l Hr _ IH]; [done|].
  cbn. rewrite (rank_Clone_ok r Hr). f_equal. exact IH.
Qed.

Lemma view_candidate rt r : rt_wf rt -> r ∈ candidates rt -> view rt !! r_Address r = Some (r_PublicHash r).
Proof.
  intros Hwf Hr. unfold view. rewrite lookup_fmap.
  assert (rankMap rt !! r_Address r = Some r) as -> by (by apply (wf_map _ Hwf)). done.
Qed.

Lemma new_phase_runs diff rt phase rt' : rt_wf rt -> new_phase diff rt = (Ok phase, rt') ->
  rt_wf rt' /\ view rt' = view rt /\ 0 <= phase < 2 ^ 32.
Proof.
  intros Hwf. unfold new_phase. rewrite (bind_ok _ _ rt rt rt) by done. destruct diff as [diff|].
  2:{ intros [= <- <-]. split_and!; try done; apply u32_range. }
  destruct (diff =? 0); [intros [= <- <-]; split_and!; try done; apply u32_range|].
  set (mp := u32 (smallestPhase rt + diff)). intros E. apply bind_ok_inv in E as ([] & rt1 & E1 & [= <- <-]).
  assert (Hphase : forall p, 0 <= p < 2 ^ 32 -> 0 <= (if mp <? p then mp else p) < 2 ^ 32).
  { intros p Hp. destruct (mp <? p); [apply u32_range|done]. }
  destruct (mp <? largestPhase rt).
  - assert (Hr : runs (for_each (Candidates rt) (clamp_rank mp)) (fun v => foldl (clamp_view mp) v (Candidates rt)) rt).
    { apply runs_for_each; [|done]. intros r rt2 Hr Hwf2. rewrite Candidates_wf in Hr by done.
      apply runs_clamp; [apply u32_range| |done]. pose proof (wf_ranks _ Hwf) as Hok.
      rewrite Forall_forall in Hok. by apply Hok. }
    destruct (Hr rt1 E1) as [Hwf1 Hv]. rewrite clamp_view_id in Hv.
    + split_and!; try done; apply Hphase, u32_range.
    + rewrite Candidates_wf by done. apply Forall_forall. intros. by apply view_candidate.
  - injection E1 as <-. split_and!; try done; apply Hphase, u32_range.
Qed.

(** What one account of the block does to the list. *)
Definition account_view (TargetHeight : Z) (v : gmap Address PublicHash) (e : Address * Account) : gmap Address PublicHash :=
  match e.2 with
  | AFormulator acc =>
      if fa_IsRevoked acc then (if Height e.1 =? TargetHeight then v else delete e.1 v)
      else <[e.1 := fa_GenHash acc]> v
  | _ => v
  end.

Lemma runs_account TargetHeight phase e rt : 0 <= phase < 2 ^ 32 -> acc_Address e.2 = e.1 -> rt_wf rt ->
  runs (update_account TargetHeight phase e) (fun v => account_view TargetHeight v e) rt.
Proof.
  destruct e as [addr a]. intros Hp Ha Hwf. unfold update_account, account_view. cbn [fst snd] in *. rewrite Ha.
  destruct a as [sa|ma|acc]; [by apply runs_ret..|].
  set (fresh := NewRank addr (fa_GenHash acc) phase (DoubleHash addr)).
  assert (Hfresh : rank_ok fresh) by (apply NewRank_ok; [done|apply Hash_ok]).
  assert (Hadd : forall rt, rt_wf rt -> runs (rt_add fresh) (<[addr := fa_GenHash acc]>) rt)
    by (intros rt1 Hwf1; exact (runs_add rt1 fresh Hwf1 Hfresh)).
  destruct (Height addr =? TargetHeight); [destruct (fa_IsRevoked acc); cbn [negb]; [by apply runs_ret|by apply Hadd]|].
  intros rt' E. rewrite (bind_ok _ _ rt rt rt) in E by done. revert rt' E.
  assert (Hview : view rt !! addr = r_PublicHash <$> rankMap rt !! addr) by apply lookup_fmap.
  destruct (rankMap rt !! addr) as [r|] eqn:Er; destruct (fa_IsRevoked acc); cbn [negb].
  - by apply runs_remove.
  - case_bool_decide as Eh; cbn [negb].
    + apply (runs_ext _ (fun v => v)); [|by apply runs_ret]. symmetry. apply insert_id. rewrite Hview. cbn. by rewrite Eh.
    + eapply runs_ext; [|eapply runs_seq; [by apply runs_remove|intros; by apply Hadd]].
      cbn. apply insert_delete_eq.
  - apply (runs_ext _ (fun v => v)); [|by apply runs_ret]. symmetry. by apply delete_id.
  - by apply Hadd.
Qed.

Definition removed_view (v : gmap Address PublicHash) (e : Address * Account) : gmap Address PublicHash :=
  match e.2 with AFormulator acc => delete (fa_Address acc) v | _ => v end.

Lemma runs_removed e rt : rt_wf rt -> runs (remove_account e) (fun v => removed_view v e) rt.
Proof.
  intros Hwf. unfold remove_account, removed_view. destruct (e.2); [by apply runs_ret..|by apply runs_remove].
Qed.
End Update.

Section Follows.
Context `{Sha256}.

Lemma account_entries_elem m addr a : (addr, a) ∈ account_entries m <-> m !! addr = Some a.
Proof.
  unfold account_entries. rewrite list_elem_of_omap. split.
  - intros (k & _ & E). apply fmap_Some in E as (b & Hb & [= -> ->]). done.
  - intros Hm. exists addr. rewrite Hm. split; [|done]. apply sorted_keys_elem. by exists a.
Qed.

Lemma account_entries_nodup m : NoDup (account_entries m).*1.
Proof.
  unfold account_entries. pose proof (sorted_keys_nodup m) as Hnd. induction Hnd as [|k l Hk Hnd IH]; cbn; [constructor|].
  destruct (m !! k); cbn; [|done]. constructor; [|done].
  rewrite list_elem_of_fmap. intros ([k' b] & -> & Hin). apply Hk. cbn.
  apply list_elem_of_omap in Hin as (k2 & Hk2 & E). apply fmap_Some in E as (? & _ & [= -> _]). done.
Qed.

(** The key listed for an address after a block, from the key before and the
    account as the block left it. *)
Definition listed (TargetHeight : Z) (addr : Address) (old : option PublicHash) (a : option Account) : option PublicHash :=
  match a with
  | Some (AFormulator acc) =>
      if fa_IsRevoked acc then (if Height addr =? TargetHeight then old else None) else Some (fa_GenHash acc)
  | _ => old
  end.

Lemma account_view_lookup TargetHeight v e addr :
  account_view TargetHeight v e !! addr =
    if decide (addr = e.1) then listed TargetHeight addr (v !! addr) (Some e.2) else v !! addr.
Proof.
  destruct e as [k a]. unfold account_view, listed. cbn. destruct (decide (addr = k)) as [->|Hne].
  - destruct a as [| |acc]; [done..|]. destruct (fa_IsRevoked acc); [|by rewrite lookup_insert_eq].
    destruct (_ =? _); [done|]. by rewrite lookup_delete_eq.
  - destruct a as [| |acc]; [done..|]. destruct (fa_IsRevoked acc); [|by rewrite lookup_insert_ne].
    destruct (_ =? _); [done|]. by rewrite lookup_delete_ne.
Qed.

Lemma foldl_account_view TargetHeight l v addr :
  NoDup l.*1 ->
  foldl (account_view TargetHeight) v l !! addr =
    listed TargetHeight addr (v !! addr) ((list_to_map l : gmap Address Account) !! addr).
Proof.
  revert v. induction l as [|[k a] l IH]; intros v Hnd; cbn [foldl]; [done|].
  cbn in Hnd. apply NoDup_cons in Hnd as [Hk Hnd]. rewrite IH by done. rewrite account_view_lookup, list_to_map_cons. cbn [fst snd].
  destruct (decide (addr = k)) as [->|Hne]; [|by rewrite lookup_insert_ne].
  rewrite lookup_insert_eq. by rewrite (not_elem_of_list_to_map_1 l) by done.
Qed.

Lemma list_to_map_entries m : (list_to_map (account_entries m) : gmap Address Account) = m.
Proof.
  apply map_eq. intros addr. apply option_eq. intros a. rewrite <- elem_of_list_to_map by apply account_entries_nodup.
  apply account_entries_elem.
Qed.

Definition struck (old : option PublicHash) (a : option Account) : option PublicHash :=
  match a with Some (AFormulator _) => None | _ => old end.

Lemma foldl_removed_view l v addr :
  NoDup l.*1 -> Forall (fun e => acc_Address e.2 = e.1) l ->
  foldl removed_view v l !! addr = struck (v !! addr) ((list_to_map l : gmap Address Account) !! addr).
Proof.
  intros Hnd Hl. revert v Hnd. induction Hl as [|[k a] l Hka _ IH]; intros v Hnd; cbn [foldl]; [done|].
  cbn in Hka, Hnd. apply NoDup_cons in Hnd as [Hk Hnd]. rewrite IH by done. rewrite list_to_map_cons.
  destruct (decide (addr = k)) as [->|Hne].
  - rewrite lookup_insert_eq, (not_elem_of_list_to_map_1 l) by done. unfold removed_view. cbn.
    destruct a; [done..|]. cbn in Hka. rewrite Hka. by rewrite lookup_delete_eq.
  - rewrite lookup_insert_ne by done. f_equal. unfold removed_view. cbn. destruct a; [done..|].
    rewrite lookup_delete_ne; [done|]. cbn in Hka. congruence.
Qed.

(** The entries of an account map are under their own addresses. *)
Definition keyed (m : gmap Address Account) : Prop := map_Forall (fun addr a => acc_Address a = addr) m.

Lemma keyed_entries m e : keyed m -> e ∈ account_entries m -> acc_Address e.2 = e.1.
Proof. destruct e as [addr a]. intros Hm Hin%account_entries_elem. by apply Hm. Qed.

(** C17. After the update that follows a block, the rank table lists exactly the
    formulators the accounts of the block say: an active one with its current
    generator key, a revoked or deleted one not at all, one whose account the
    block did not touch as before; whatever [maxPhaseDiff] is and in whatever
    order keys and removals meet, and the table stays well-formed and not empty. *)
Theorem formulator_list_follows_accounts (diff : option Z) (height : Z) (top : ContextData) (rt rt' : RankTable) :
  rt_wf rt -> keyed (AccountMap top) -> keyed (DeletedAccountMap top) ->
  update_table diff height top rt = (Ok tt, rt') ->
  rt_wf rt' /\ candidates rt' <> [] /\
  forall addr, view rt' !! addr =
    struck (listed height addr (view rt !! addr) (AccountMap top !! addr)) (DeletedAccountMap top !! addr).
Proof.
  intros Hwf Hk Hkd E. unfold update_table in E.
  apply bind_ok_inv in E as (phase & rt1 & E1 & E). destruct (new_phase_runs _ _ _ _ Hwf E1) as (Hwf1 & Hv1 & Hp).
  apply bind_ok_inv in E as ([] & rt2 & E2 & E).
  destruct (runs_for_each (account_entries (AccountMap top)) (update_account height phase) (account_view height) rt1) with (rt' := rt2)
    as [Hwf2 Hv2]; [|done..|].
  { intros e rt3 He Hwf3. apply runs_account; [done|exact (keyed_entries _ _ Hk He)|done]. }
  apply bind_ok_inv in E as ([] & rt3 & E3 & E).
  destruct (runs_for_each (account_entries (DeletedAccountMap top)) remove_account removed_view rt2) with (rt' := rt3)
    as [Hwf3 Hv3]; [intros e rt4 _ Hwf4; exact (runs_removed e rt4 Hwf4)|done..|].
  rewrite (bind_ok _ _ rt3 rt3 rt3) in E by done. unfold guard, CandidateCount in E.
  destruct (Nat.eqb_spec (length (candidates rt3)) 0) as [|Hne]; [done|]. injection E as <-.
  split; [done|]. split; [by destruct (candidates rt3)|]. intros addr.
  rewrite Hv3, foldl_removed_view; [|apply account_entries_nodup|apply Forall_forall; intros e He; exact (keyed_entries _ _ Hkd He)].
  rewrite Hv2, foldl_account_view by apply account_entries_nodup. by rewrite !list_to_map_entries, Hv1.
Qed.
End Follows.

(** ** Phases stay close *)

(** Every rank is within two phases of the smallest. *)
Definition close (rt : RankTable) : Prop := Forall (fun r => r_phase r <= smallestPhase rt + 2) (candidates rt).

(** Every rank is between [q] and [q + 2]. *)
Definition within (q : Z) (rt : RankTable) : Prop := Forall (fun r => q <= r_phase r <= q + 2) (candidates rt).

Lemma smallest_least rt r : rt_wf rt -> r ∈ candidates rt -> smallestPhase rt <= r_phase r.
Proof.
  intros Hwf Hr. unfold smallestPhase. destruct (candidates rt) as [|top tl] eqn:Hc; [by apply not_elem_of_nil in Hr|].
  rewrite <- Hc in Hr. destruct (candidates_top rt top tl r Hwf Hc) as [Htop Hl].
  destruct (Hl Hr) as [->|Hlt]; [done|]. apply rank_Less_phase; [done| |done].
  pose proof (wf_ranks _ Hwf) as Hok. rewrite Forall_forall in Hok. by apply Hok.
Qed.

Lemma close_within rt : rt_wf rt -> close rt -> within (smallestPhase rt) rt.
Proof.
  intros Hwf Hc. unfold within, close in *. rewrite Forall_forall in Hc |- *. intros r Hr.
  split; [by apply smallest_least|by apply Hc].
Qed.

Lemma within_close q rt : within q rt -> close rt.
Proof.
  unfold within, close, smallestPhase. destruct (candidates rt) as [|top tl]; [by constructor|].
  intros Hw. pose proof (Forall_inv Hw) as Ht. cbn in Ht. eapply Forall_impl; [exact Hw|]. cbn. lia.
Qed.

Lemma reposition_close rt top tl m d :
  rt_wf rt -> close rt -> candidates rt = top :: tl -> r_Address m = r_Address top -> rank_ok m ->
  r_phase m = r_phase top + d -> 0 <= d <= 2 -> rt_wf (reposition rt m) /\ close (reposition rt m).
Proof.
  intros Hwf Hcl Hc Ha Hm Hd Hd2. destruct (reposition_spec rt top tl m Hwf Hc Ha Hm) as (Hwf' & _ & Hcand).
  split; [done|]. apply (within_close (smallestPhase rt)). pose proof (close_within rt Hwf Hcl) as Hw.
  unfold within in *. rewrite Hcand, InsertRankToList_perm. rewrite Hc in Hw. apply Forall_cons in Hw as [Ht Htl].
  constructor; [|done]. unfold smallestPhase in *. rewrite Hc in *. lia.
Qed.

Lemma forward_loop_close n rt :
  rt_wf rt -> close rt -> (forall r, r ∈ candidates rt -> r_phase r + 2 * Z.of_nat n < 2 ^ 32) ->
  forall rt', forward_loop n rt = Ok rt' -> rt_wf rt' /\ close rt'.
Proof.
  revert rt. induction n as [|n IH]; intros rt Hwf Hcl Hb rt'; cbn [forward_loop]; [by intros [= <-]|].
  destruct (candidates rt) as [|m tl] eqn:Hc; [done|]. destruct (candidates_top rt m tl m Hwf Hc) as [Hm _].
  pose proof (Hb m (list_elem_of_here _ _)) as Hbm. destruct (ro_phase _ Hm).
  assert (Eph : u32 (r_phase m + 2) = r_phase m + 2) by (apply Z.mod_small; lia).
  pose proof (rank_SetPhase_ok m Hm) as Hm'. set (m' := rank_SetPhase m (u32 (r_phase m + 2))) in *.
  assert (Hph : r_phase m' = r_phase m + 2) by exact Eph.
  destruct (reposition_close rt m tl m' 2 Hwf Hcl Hc eq_refl Hm' Hph) as [Hwf' Hcl']; [lia|].
  apply (IH _ Hwf' Hcl'). intros r. destruct (reposition_spec rt m tl m' Hwf Hc eq_refl Hm') as (_ & _ & ->).
  rewrite InsertRankToList_perm. intros [->|Hr]%elem_of_cons; [lia|].
  pose proof (Hb r (list_elem_of_further _ _ _ Hr)). lia.
Qed.

Section NeverInvalid.
Context `{Sha256}.

(** Runs that keep [within q] and do not fail because of a phase. *)
Definition keeps_within (q : Z) (m : ST RankTable unit) : Prop := forall rt, rt_wf rt -> within q rt ->
  match m rt with
  | (Ok _, rt') => rt_wf rt' /\ within q rt'
  | (Err e, _) => e <> ErrInvalidPhase
  | (Panic _, _) => False
  end.

Lemma keeps_ret q : keeps_within q (ret tt).
Proof. intros rt Hwf Hw. done. Qed.

Lemma keeps_seq q m1 m2 : keeps_within q m1 -> keeps_within q m2 -> keeps_within q (m1 ;;; m2).
Proof.
  intros H1 H2 rt Hwf Hw. unfold bind. specialize (H1 rt Hwf Hw). destruct (m1 rt) as [[[]|e|w] rt1]; [|done..].
  destruct H1. by apply H2.
Qed.

Lemma keeps_for_each {A} q (l : list A) body : (forall x, x ∈ l -> keeps_within q (body x)) -> keeps_within q (for_each l body).
Proof.
  induction l as [|x l IH]; intros Hb; cbn [for_each]; [apply keeps_ret|].
  apply keeps_seq; [apply Hb; by left|apply IH]. intros. apply Hb. by right.
Qed.

Lemma keeps_remove q addr : keeps_within q (rt_remove addr).
Proof.
  intros rt Hwf Hw. cbn. split; [by apply removeRank_spec|]. unfold removeRank. case_bool_decide; [|done].
  apply Forall_forall. intros r [_ Hr]%list_elem_of_filter. revert r Hr. by apply Forall_forall.
Qed.

Lemma keeps_add q s : rank_ok s -> r_phase s = q + 2 -> keeps_within q (rt_add s).
Proof.
  intros Hs Hp rt Hwf Hw. unfold rt_add. destruct (addRank rt s) as [rt1|e|w] eqn:E.
  - split; [by apply (addRank_spec rt s)|]. revert E. unfold addRank.
    destruct (match candidates rt with [] => _ | _ => _ end); [done|]. case_bool_decide; [done|]. intros [= <-].
    unfold within. cbn. rewrite InsertRankToList_perm. constructor; [lia|done].
  - revert E. unfold addRank. destruct (candidates rt) as [|c tl] eqn:Hc.
    + case_bool_decide; by intros [= <-].
    + unfold within in Hw. rewrite Hc in Hw. pose proof (Forall_inv Hw) as Ht. cbn in Ht.
      rewrite (proj2 (Z.ltb_ge _ _)) by lia. case_bool_decide; by intros [= <-].
  - revert E. unfold addRank. destruct (match candidates rt with [] => _ | _ => _ end); [done|]. by case_bool_decide.
Qed.

Lemma keeps_account q height e : 0 <= q + 2 < 2 ^ 32 -> keeps_within q (update_account height (q + 2) e).
Proof.
  intros Hq. destruct e as [addr [| |acc]]; [apply keeps_ret..|]. unfold update_account.
  set (fresh := NewRank addr (fa_GenHash acc) (q + 2) (DoubleHash addr)).
  assert (Hadd : keeps_within q (rt_add fresh)).
  { apply keeps_add; [|done]. apply NewRank_ok; [done|apply Hash_ok]. }
  destruct (_ =? height); [destruct (fa_IsRevoked acc); [apply keeps_ret|done]|].
  intros rt Hwf Hw. rewrite (bind_ok _ _ rt rt rt) by done.
  destruct (rankMap rt !! addr) as [r|]; destruct (fa_IsRevoked acc); cbn [negb].
  - by apply keeps_remove.
  - destruct (bool_decide _); cbn [negb]; [by apply keeps_ret|].
    apply (keeps_seq q _ _ (keeps_remove q addr) Hadd rt Hwf Hw).
  - by apply keeps_ret.
  - by apply Hadd.
Qed.

(** Without a phase limit ([maxPhaseDiff] unset, as in every program of the
    repository) the phases of the table are always within two of the smallest:
    turns, timeouts and updates keep it so as long as phases do not wrap, and
    therefore an update never fails with [ErrInvalidPhase], whatever formulators a
    block creates, revokes and deletes. *)
Lemma phases_stay_close (rt : RankTable) :
  rt_wf rt -> close rt ->
  (forall h rt', hash_ok h -> smallestPhase rt + 1 < 2 ^ 32 -> forwardTop rt h = Ok rt' -> close rt') /\
  (forall n rt', (forall r, r ∈ candidates rt -> r_phase r + 2 * n < 2 ^ 32) ->
     forwardCandidates rt n = Ok rt' -> close rt') /\
  (forall height top r rt', smallestPhase rt + 2 < 2 ^ 32 -> update_table None height top rt = (r, rt') ->
     r <> Err ErrInvalidPhase /\ (r = Ok tt -> close rt')).
Proof.
  intros Hwf Hcl. split_and!.
  - intros h rt' Hh Hb. unfold forwardTop. destruct (candidates rt) as [|top tl] eqn:Hc; [done|]. intros [= <-].
    destruct (candidates_top rt top tl top Hwf Hc) as [Htop _]. destruct (ro_phase _ Htop).
    pose proof (rank_Set_ok top h Hh) as Hm. set (m := rank_Set top _ h) in *.
    assert (Hph : r_phase m = r_phase top + 1).
    { cbn. apply Z.mod_small. unfold smallestPhase in Hb. rewrite Hc in Hb. lia. }
    destruct (reposition_close rt top tl m 1 Hwf Hcl Hc eq_refl Hm Hph) as [_ Hcl']; [lia|done].
  - intros n rt' Hb. unfold forwardCandidates. destruct (Z.leb_spec (Z.of_nat (length (candidates rt))) n); [done|].
    intros E. eapply forward_loop_close; [done..| |exact E]. intros r Hr. specialize (Hb r Hr).
    pose proof (wf_ranks _ Hwf) as Hok. rewrite Forall_forall in Hok. destruct (ro_phase _ (Hok r Hr)). lia.
  - intros height top r rt' Hb E. pose proof (close_within rt Hwf Hcl) as Hw.
    assert (0 <= smallestPhase rt) as Hq.
    { unfold smallestPhase. destruct (candidates rt) as [|c tl] eqn:Hc; [done|].
      destruct (candidates_top rt c tl c Hwf Hc) as [Hc' _]. apply (ro_phase _ Hc'). }
    unfold update_table in E. rewrite (bind_ok _ _ rt (smallestPhase rt + 2) rt) in E.
    2:{ unfold new_phase. rewrite (bind_ok _ _ rt rt rt) by done. unfold ret, u32. by rewrite Z.mod_small by lia. }
    assert (Hk : keeps_within (smallestPhase rt)
      (for_each (account_entries (AccountMap top)) (update_account height (smallestPhase rt + 2)) ;;;
       for_each (account_entries (DeletedAccountMap top)) remove_account)).
    { apply keeps_seq; apply keeps_for_each; intros e _; [apply keeps_account; lia|].
      unfold remove_account. destruct (e.2); [apply keeps_ret..|apply keeps_remove]. }
    specialize (Hk rt Hwf Hw). unfold bind at 1 in E. unfold bind at 1 in Hk.
    destruct (for_each (account_entries (AccountMap top)) _ rt) as [[[]|e|w] rt1]; [|by injection E as <- <-; split; [congruence|]|done].
    unfold bind at 1 in E. destruct (for_each (account_entries (DeletedAccountMap top)) _ rt1) as [[[]|e|w] rt2];
      [|by injection E as <- <-; split; [congruence|]|done].
    destruct Hk as [_ Hw2]. rewrite (bind_ok _ _ rt2 rt2 rt2) in E by done. unfold guard in E.
    destruct (negb _); injection E as <- <-; split; try done. intros _. by eapply within_close.
Qed.
End NeverInvalid.

(** ** The stored state *)

Section Stored.
Context `{T : !LLRB (item PublicHash bool) item_Less}.
Context (cAddress cPublicHash cHash : Coder bytes) (cUint32 : Coder Z) (cBool : Coder bool) `{ArrayLenCoder}.

Lemma all_known_iterate (l : list (item PublicHash bool)) (known : PublicHash -> bool) :
  only_pairs l ->
  iterate l (fun ph _ ok => if known ph then (ok, true) else (false, false)) true = true <->
  forall ph, ph ∈ (pairs l).*1 -> known ph = true.
Proof.
  induction 1 as [|? l (k & v & ->) _ IH]; cbn; [set_solver|]. destruct (known k) eqn:Ek.
  - rewrite IH. set_solver.
  - split; [done|]. intros Hall. rewrite <- Ek. apply Hall. by left.
Qed.

(** The comparison of the stored keys with the configured ones is equality. *)
Lemma keys_checked (m m0 : llrb (LLRB := T)) : map_wf m -> map_wf m0 ->
  (Len m =? Len m0)%nat && EachAll m (fun ph _ ok => if Has m0 ph then (ok, true) else (false, false)) true = true <->
  dom (contents m) = dom (contents m0).
Proof.
  intros Hwf Hwf0. rewrite andb_true_iff, Nat.eqb_eq, EachAll_items, all_known_iterate, !Len_contents by (done || apply Hwf).
  assert (Hin : forall ph, ph ∈ (pairs (items m)).*1 <-> ph ∈ dom (contents m)).
  { intros ph. unfold contents. by rewrite dom_list_to_map_L, elem_of_list_to_set. }
  assert (Hhas : forall ph, Has m0 ph = true <-> ph ∈ dom (contents m0)).
  { intros ph. rewrite Has_contents, bool_decide_eq_true, elem_of_dom by done. done. }
  rewrite <- !size_dom. split.
  - intros [Hlen Hall]. apply set_subseteq_size_eq; [|lia]. intros ph Hph. apply Hhas, Hall, Hin, Hph.
  - intros E. split; [by rewrite E|]. intros ph Hph. apply Hhas. rewrite <- E. by apply Hin.
Qed.

(** What must be encodable for the state to be stored. *)
Record state_codable (cs : PofConsensus (T := T)) : Prop := {
  sc_max : codable (Coder := cUint32) (maxBlocksPerFormulator cs);
  sc_keys : kind_codable (key_kind cPublicHash cBool) (observerKeyMap cs);
  sc_blocks : codable (Coder := cUint32) (blocksBySameFormulator cs);
  sc_height : codable (Coder := cUint32) (rt_height (cs_rt cs));
  sc_ranks : Forall (rank_codable cAddress cPublicHash cHash cUint32) (candidates (cs_rt cs))
}.

(** A node that starts again reads back the consensus state that the last
    block stored, rank table included, when it is configured with the same block
    count and the same observers, and refuses to start otherwise. *)
Lemma consensus_state_reload (cs cs0 : PofConsensus (T := T)) (data : bytes) :
  map_wf (observerKeyMap cs) -> map_wf (observerKeyMap cs0) -> rt_wf (cs_rt cs) -> state_codable cs ->
  buildSaveData cAddress cPublicHash cHash cUint32 cBool cs = Ok data ->
  OnLoadChain cAddress cPublicHash cHash cUint32 cBool cs0 data =
    if negb (maxBlocksPerFormulator cs0 =? maxBlocksPerFormulator cs) then Err ErrInvalidMaxBlocksPerFormulator
    else if decide (dom (contents (observerKeyMap cs)) = dom (contents (observerKeyMap cs0)))
    then Ok (set_rt (set_blocks cs0 (blocksBySameFormulator cs)) (cs_rt cs))
    else Err ErrInvalidObserverKey.
Proof.
  intros Hwf Hwf0 Hrt [Hmax Hkeys Hblocks Hheight Hranks]. unfold buildSaveData, OnLoadChain.
  destruct (encode (Coder := cUint32) (maxBlocksPerFormulator cs)) as [b1| |] eqn:E1; [|done..]. cbn [res_bind].
  destruct (kind_Encode (key_kind cPublicHash cBool) (observerKeyMap cs)) as [b2| |] eqn:E2; [|done..]. cbn [res_bind].
  destruct (encode (Coder := cUint32) (blocksBySameFormulator cs)) as [b3| |] eqn:E3; [|done..]. cbn [res_bind].
  destruct (encode_table cAddress cPublicHash cHash cUint32 (cs_rt cs)) as [b4| |] eqn:E4; [|done..]. cbn [res_bind].
  intros [= <-]. rewrite (decode_encode _ _ _ Hmax E1). cbn [res_bind].
  destruct (negb _); [done|].
  destruct (kind_Decode_Encode (key_kind cPublicHash cBool) (observerKeyMap cs) b2 (b3 ++ b4) Hwf Hkeys E2) as (m & Em & Hwfm & Hcm).
  rewrite Em. cbn [res_bind]. pose proof (keys_checked m (observerKeyMap cs0) Hwfm Hwf0) as Hck. rewrite (Hcm : contents (T := T) m = contents (T := T) (observerKeyMap cs)) in Hck.
  destruct (decide _) as [Hd|Hd].
  - apply Hck, andb_true_iff in Hd as [-> ->]. cbn [negb]. rewrite (decode_encode _ _ _ Hblocks E3). cbn [res_bind].
    rewrite <- (app_nil_r b4).
    pose proof (rank_table_reads_back cAddress cPublicHash cHash cUint32 (cs_rt cs) b4 [] Hrt Hheight Hranks E4) as ->. done.
  - rewrite <- Hck in Hd. apply not_true_iff_false, andb_false_iff in Hd as [-> | ->]; [done|]. by destruct (negb _).
Qed.
End Stored.

(** ** A small consensus: one observer, three formulators *)

#[refine] Instance coder_flag : Coder bool := {
  encode b := Ok [if b then 1 else 0];
  decode bs := match bs with b :: bs => Ok (negb (b =? 0), bs) | [] => Err (mkError "io" "EOF") end;
  codable b := True
}.
Proof. intros [] bs rest _ [= <-]; done. Defined.

Instance marshal_header : Marshaler Header := fun bh => [h_Timestamp bh].
Instance marshal_block_sign : Marshaler BlockSign := fun bs => bs_HeaderHash bs ++ bs_GeneratorSignature bs.

Definition ex_observer : PublicHash := NewPublicHash [1].
Definition ex_generator : Rank := NewRank (replicate 13 0 ++ [4]) (NewPublicHash [9]) 2 (ex_hash 4).
Definition ex_rt : RankTable := ok_table (addRank ex_table1 ex_generator).
Definition ex_cs : PofConsensus (T := llrb_list _ item_Less) :=
  set_rt (set_blocks (NewConsensus 10 [ex_observer]) 3) ex_rt.
Definition ex_header (timestamp : Z) : Header :=
  mkHeader 1 1 1 EmptyHash EmptyHash EmptyHash timestamp (r_Address ex_generator) [0].

Lemma ex_generator_ok : rank_ok ex_generator.
Proof. apply NewRank_ok; [done|]. by apply ex_hash_ok. Qed.

Lemma ex_rt_wf : rt_wf ex_rt.
Proof.
  assert (H1 : rt_wf ex_table1) by (apply (addRank_spec NewRankTable (ex_rank 9 2)); [apply NewRankTable_wf|by apply ex_rank_ok|vm_compute; reflexivity]).
  apply (addRank_spec ex_table1 ex_generator); [done|apply ex_generator_ok|vm_compute; reflexivity].
Qed.

Lemma ex_keys_wf : map_wf (observerKeyMap ex_cs).
Proof. exact (proj1 (Put_contents NewMap (pubhash_Clone ex_observer) true (proj1 NewMap_contents))). Qed.

Lemma accepted_blocks_share_an_observer_witness :
  (exists ph g1 o1 g2 o2, [[9]; [1]] = g1 :: o1 /\ [[9]; [1]] = g2 :: o2 /\ Has (observerKeyMap ex_cs) ph = true /\
     (exists sig, sig ∈ o1 /\ signer_of (block_sign_hash (ex_header 5) g1) sig ph) /\
     (exists sig, sig ∈ o2 /\ signer_of (block_sign_hash (ex_header 6) g2) sig ph)) /\
  generator_signed coder_byte ex_cs (ex_header 5) [[9]; [1]] /\ generator_signed coder_byte ex_cs (ex_header 6) [[9]; [1]] /\
  (DecodeConsensusData coder_byte (h_ConsensusData (ex_header 5)) = DecodeConsensusData coder_byte (h_ConsensusData (ex_header 6)) ->
   h_Generator (ex_header 5) = h_Generator (ex_header 6)).
Proof.
  apply (accepted_blocks_share_an_observer coder_byte ex_cs); [apply ex_keys_wf|vm_compute; reflexivity..].
Defined.

(** A block that revokes the first formulator and creates another. *)
Definition ex_formulator (b : Z) (revoked : bool) : FormulatorAccount :=
  mkFormulator (replicate 13 0 ++ [b]) [] AlphaFormulatorType [b] [b] 0 revoked 0 0 None None.
Definition ex_changes : ContextData :=
  set_Accounts (NewContextData None)
    (<[replicate 13 0 ++ [4] := AFormulator (ex_formulator 4 true)]>
       {[replicate 13 0 ++ [7] := AFormulator (ex_formulator 7 false)]}) ∅ ∅.

Lemma formulator_list_follows_accounts_witness :
  exists rt', update_table None 5 ex_changes ex_rt = (Ok tt, rt') /\
    rt_wf rt' /\ candidates rt' <> [] /\
    forall addr, view rt' !! addr =
      struck (listed 5 addr (view ex_rt !! addr) (AccountMap ex_changes !! addr)) (DeletedAccountMap ex_changes !! addr).
Proof.
  destruct (update_table None 5 ex_changes ex_rt) as [r rt'] eqn:E. exists rt'.
  assert (r = Ok tt) as -> by (apply (f_equal fst) in E; vm_compute in E; by rewrite <- E). split; [done|].
  apply (formulator_list_follows_accounts None 5 ex_changes); [apply ex_rt_wf| | |exact E].
  - apply map_Forall_insert_2; [done|]. by apply map_Forall_singleton.
  - apply map_Forall_empty.
Defined.

Lemma phases_stay_close_witness : close ex_rt /\
  forall r rt', update_table None 5 ex_changes ex_rt = (r, rt') -> r <> Err ErrInvalidPhase.
Proof.
  assert (Hc : close ex_rt).
  { assert (E : candidates ex_rt = [ex_generator; ex_rank 9 2]) by (vm_compute; reflexivity).
    unfold close, smallestPhase. rewrite E. by repeat constructor. }
  split; [done|]. intros r rt' E.
  exact (proj1 (proj2 (proj2 (phases_stay_close ex_rt ex_rt_wf Hc)) 5 ex_changes r rt' ltac:(by vm_compute) E)).
Defined.

Lemma consensus_state_reload_witness :
  exists data, buildSaveData coder_blob coder_blob coder_blob coder_byte coder_flag ex_cs = Ok data /\
    OnLoadChain coder_blob coder_blob coder_blob coder_byte coder_flag (NewConsensus (T := llrb_list _ item_Less) 10 [ex_observer]) data = Ok ex_cs.
Proof.
  eexists. split; [vm_compute; reflexivity|].
  rewrite (consensus_state_reload coder_blob coder_blob coder_blob coder_byte coder_flag ex_cs
             (NewConsensus (T := llrb_list _ item_Less) 10 [ex_observer])).
  - rewrite decide_True by done. done.
  - apply ex_keys_wf.
  - apply ex_keys_wf.
  - apply ex_rt_wf.
  - split; try done; apply Forall_forall; intros []; done.
  - vm_compute. reflexivity.
Defined.
