(* ===== verification/Queue.v ===== *)
(** * Queues

    [common/queue/queue.go], [linked.go], [sorted.go] and [expire.go].  The plain
    queue keeps its items in ring buffers of 1024 slots; the linked queue is a
    doubly linked list with an index by key; the sorted queue is a window of a
    slice kept in order of priority; the expire queue moves items through groups
    as their time runs out.  Each is modelled with its own storage (slots,
    pointers, windows) and shown to behave as a list. *)

From stdpp Require Import base gmap list sorting strings.
From Stdlib Require Import ZArith Lia.
From S2P Require Import Prelude Common.

#[local] Open Scope nat_scope.

(** ** The plain queue *)

Section Queue.
Context {A : Type}.

Record queuePage := mkPage {
  pg_queue : list (option A);     (** the array; [None] is nil *)
  pg_head : nat;
  pg_tail : nat;
  pg_size : nat
}.

Definition pg_cap (page : queuePage) : nat := length (pg_queue page).

Definition errFullQueue : error := mkError "queue" "full queue".

Definition pg_push (page : queuePage) (item : A) : res queuePage :=
  if pg_cap page <=? pg_size page then Err errFullQueue
  else Ok (mkPage (<[pg_tail page := Some item]> (pg_queue page)) (pg_head page)
             ((pg_tail page + 1) mod pg_cap page) (pg_size page + 1)).

Definition slot (page : queuePage) (i : nat) : option A := mjoin (pg_queue page !! i).

Definition pg_peek (page : queuePage) : option A :=
  if pg_size page =? 0 then None else slot page (pg_head page).

Definition pg_pop (page : queuePage) : option A * queuePage :=
  if pg_size page =? 0 then (None, page)
  else (slot page (pg_head page),
        mkPage (pg_queue page) ((pg_head page + 1) mod pg_cap page) (pg_tail page) (pg_size page - 1)).

Definition pg_iter (page : queuePage) : list (option A) :=
  (fun i => slot page ((pg_head page + i) mod pg_cap page)) <$> seq 0 (pg_size page).

Record Queue := mkQueue { q_pages : list queuePage; q_size : nat }.

Definition NewQueue : Queue := mkQueue [] 0.

(** [fresh] is what [queuePagePool.Get()] returns: a new page, or one that a
    queue has put back.  The error of [page.push] is dropped. *)
Definition push_page (page : queuePage) (item : A) : queuePage :=
  match pg_push page item with Ok p => p | _ => page end.

Definition Push (fresh : queuePage) (q : Queue) (item : A) : Queue :=
  match last (q_pages q) with
  | None => mkQueue [push_page fresh item] (q_size q + 1)
  | Some page =>
      if pg_size page =? pg_cap page
      then mkQueue (q_pages q ++ [push_page fresh item]) (q_size q + 1)
      else mkQueue (removelast (q_pages q) ++ [push_page page item]) (q_size q + 1)
  end.

Definition Peek (q : Queue) : option A :=
  match q_pages q with
  | [] => None
  | page :: _ => pg_peek page
  end.

Definition Pop (q : Queue) : option A * Queue :=
  match q_pages q with
  | [] => (None, q)
  | page :: pages =>
      let '(item, page) := pg_pop page in
      match item with
      | None => (None, mkQueue (page :: pages) (q_size q))
      | Some _ =>
          if (pg_size page =? 0) && (1 <? length (q_pages q))
          then (item, mkQueue pages (q_size q - 1))
          else (item, mkQueue (page :: pages) (q_size q - 1))
      end
  end.

Definition Size (q : Queue) : nat := q_size q.

Definition Iter (q : Queue) : list (option A) := concat (pg_iter <$> q_pages q).

(** *** The list a queue holds *)

Record page_holds (page : queuePage) (l : list A) : Prop := {
  ph_cap : pg_cap page = 1024;
  ph_head : pg_head page < 1024;
  ph_tail : pg_tail page = (pg_head page + length l) mod 1024;
  ph_size : pg_size page = length l;
  ph_room : length l <= 1024;
  ph_slots : forall i x, l !! i = Some x -> slot page ((pg_head page + i) mod 1024) = Some x
}.

Record holds (q : Queue) (l : list A) : Prop := {
  ho_size : q_size q = length l;
  ho_pages : exists ls, Forall2 page_holds (q_pages q) ls /\ l = concat ls /\
    (length ls <= 1 \/ Forall (fun l => l <> []) ls)
}.

(** A page with nothing in it, new or used before. *)
Definition page_empty (page : queuePage) : Prop := page_holds page [].

Lemma pg_push_holds page l x : page_holds page l -> length l < 1024 -> page_holds (push_page page x) (l ++ [x]).
Proof.
  intros [Hc Hh Ht Hs Hr Hsl] Hl. unfold push_page, pg_push. rewrite Hc, Hs.
  rewrite (proj2 (Nat.leb_gt _ _)) by lia. assert (Htl : pg_tail page < length (pg_queue page)).
  { rewrite Ht. unfold pg_cap in Hc. rewrite Hc. apply Nat.mod_upper_bound. lia. }
  split; cbn [pg_cap pg_queue pg_head pg_tail pg_size]; try done.
  - unfold pg_cap in *. cbn. by rewrite length_insert.
  - rewrite Ht, length_app. cbn [length]. rewrite Nat.Div0.add_mod_idemp_l. f_equal. lia.
  - rewrite length_app. cbn. lia.
  - rewrite length_app. cbn. lia.
  - intros i y Hi. unfold slot. cbn [pg_queue pg_head]. apply lookup_app_Some in Hi as [Hi|[Hge Hi]].
    + rewrite list_lookup_insert_ne; [by apply Hsl|]. rewrite Ht. apply lookup_lt_Some in Hi.
      intros E. rewrite !Nat.mod_eq in E by lia.
      pose proof (Nat.div_mod_eq (pg_head page + length l) 1024). pose proof (Nat.div_mod_eq (pg_head page + i) 1024).
      assert ((pg_head page + length l) / 1024 <= 1) by (apply Nat.lt_succ_r, Nat.Div0.div_lt_upper_bound; lia).
      assert ((pg_head page + i) / 1024 <= 1) by (apply Nat.lt_succ_r, Nat.Div0.div_lt_upper_bound; lia). lia.
    + assert (i = length l) as -> by (apply lookup_lt_Some in Hi; cbn in Hi; lia).
      rewrite Nat.sub_diag in Hi. injection Hi as <-. rewrite Ht. rewrite list_lookup_insert_eq by (by rewrite <- Ht). done.
Qed.

Lemma pg_peek_holds page l : page_holds page l -> pg_peek page = head l.
Proof.
  intros [Hc Hh Ht Hs Hr Hsl]. unfold pg_peek. rewrite Hs. destruct l as [|x l]; [done|]. cbn.
  rewrite <- (Hsl 0 x eq_refl). by rewrite Nat.add_0_r, Nat.mod_small.
Qed.

Lemma pg_pop_holds page l : page_holds page l -> exists page', pg_pop page = (head l, page') /\ page_holds page' (tail l).
Proof.
  intros Hp. pose proof (pg_peek_holds page l Hp) as Hpk. destruct Hp as [Hc Hh Ht Hs Hr Hsl].
  unfold pg_pop, pg_peek in *. destruct l as [|x l]; rewrite Hs in *; cbn [length] in *.
  { eexists. split; [done|]. by split. }
  change (S (length l) =? 0) with false in *. cbv iota in *. rewrite Hpk, Hc. eexists. split; [done|].
  split; cbn [pg_cap pg_queue pg_head pg_tail pg_size tail]; try (done || lia).
  - apply Nat.mod_upper_bound. lia.
  - rewrite Ht, Nat.Div0.add_mod_idemp_l. f_equal. lia.
  - intros i y Hi. rewrite <- (Hsl (S i) y Hi). unfold slot. cbn [pg_queue]. f_equal. f_equal.
    rewrite Nat.Div0.add_mod_idemp_l. f_equal. lia.
Qed.

Lemma pg_iter_holds page l : page_holds page l -> pg_iter page = Some <$> l.
Proof.
  intros [Hc Hh Ht Hs Hr Hsl]. unfold pg_iter. rewrite Hs, Hc. apply list_eq. intros i.
  rewrite !list_lookup_fmap. destruct (l !! i) as [x|] eqn:Hi.
  - rewrite lookup_seq_lt by (by eapply lookup_lt_Some). cbn. f_equal. by apply Hsl.
  - apply lookup_ge_None in Hi. by rewrite lookup_seq_ge.
Qed.

Lemma NewQueue_holds : holds NewQueue [].
Proof. split; [done|]. exists []. split; [constructor|]. split; [done|]. left. cbn. lia. Qed.

Lemma Push_holds fresh q l x : holds q l -> page_empty fresh -> holds (Push fresh q x) (l ++ [x]).
Proof.
  intros [Hs (ls & Hp & -> & Hne)] Hf.
  assert (Hnew : page_holds (push_page fresh x) [x]) by (apply (pg_push_holds fresh []); [done|cbn; lia]).
  unfold Push. destruct (q_pages q) as [|p ps] eqn:Eq using rev_ind.
  { apply Forall2_nil_inv_l in Hp as ->. split; cbn; [rewrite Hs; done|]. exists [[x]]. split; [constructor; [done|constructor]|].
    split; [done|]. left. cbn. lia. }
  rewrite last_snoc. apply Forall2_app_inv_l in Hp as (ls0 & ls1 & Hps & Hp1 & ->).
  apply Forall2_cons_inv_l in Hp1 as (l1 & l2 & Hp & Hnil & ->). apply Forall2_nil_inv_l in Hnil as ->.
  rewrite concat_app in *. cbn [concat] in *. rewrite app_nil_r in *. rewrite (ph_cap _ _ Hp), (ph_size _ _ Hp).
  destruct (Nat.eqb_spec (length l1) 1024) as [Hfull|Hroom].
  - split; cbn [q_size q_pages]; [rewrite Hs, !length_app; cbn; lia|]. exists ((ls0 ++ [l1]) ++ [[x]]). split_and!.
    + apply Forall2_app; [apply Forall2_app; [done|]|]; (constructor; [done|constructor]).
    + rewrite !concat_app. cbn. by rewrite !app_nil_r.
    + right. apply Forall_app. split; [|by repeat constructor]. destruct Hne as [Hle|Hne]; [|done].
      rewrite length_app in Hle. cbn in Hle. destruct ls0; [|cbn in Hle; lia]. repeat constructor.
      intros ->. done.
  - rewrite removelast_last. pose proof (ph_room _ _ Hp).
    split; cbn [q_size q_pages]; [rewrite Hs, !length_app; cbn; lia|]. exists (ls0 ++ [l1 ++ [x]]). split_and!.
    + apply Forall2_app; [done|]. constructor; [|constructor]. apply pg_push_holds; [done|lia].
    + rewrite concat_app. cbn. by rewrite app_nil_r, app_assoc.
    + destruct Hne as [Hle|Hne]; [left; by rewrite length_app in *|right].
      apply Forall_app in Hne as [? ?]. apply Forall_app. split; [done|]. repeat constructor. by destruct l1.
Qed.

Lemma Peek_holds q l : holds q l -> Peek q = head l.
Proof.
  intros [Hs (ls & Hp & -> & Hne)]. unfold Peek. destruct Hp as [|p l1 ps ls Hp Hps]; [done|].
  rewrite (pg_peek_holds p l1 Hp). cbn. destruct l1 as [|y l1]; [|done].
  destruct Hne as [Hle|Hne]; [cbn in Hle; by destruct ls; [|cbn in Hle; lia]|by apply Forall_inv in Hne].
Qed.

(** Only an empty page is given back to the pool. *)
Lemma Pop_holds q l : holds q l ->
  exists q', Pop q = (head l, q') /\ holds q' (tail l) /\
    (forall page pages, q_pages q = page :: pages -> pages <> [] -> q_pages q' = pages -> page_empty (pg_pop page).2).
Proof.
  destruct q as [qp n]. intros [Hs (ls & Hp & -> & Hne)]. unfold Pop. cbn [q_pages q_size] in *. destruct Hp as [|p l1 ps ls Hp Hps].
  { eexists. split; [done|]. split; [|done]. split; [done|]. exists []. split; [constructor|]. split; [done|]. right. constructor. }
  destruct (pg_pop_holds p l1 Hp) as (p' & Ep & Hp'). rewrite Ep. destruct l1 as [|y l1]; cbn [head tail] in *.
  - assert (ls = []) as ->.
    { destruct Hne as [Hle|Hne]; [cbn in Hle; by destruct ls; [|cbn in Hle; lia]|by apply Forall_inv in Hne]. }
    apply Forall2_nil_inv_r in Hps as ->. eexists. split; [done|]. split.
    + split; [done|]. exists [[]]. split; [constructor; [done|constructor]|]. split; [done|]. left. cbn. lia.
    + intros page pages [= <- <-]. done.
  - cbn [concat app] in *. rewrite (ph_size _ _ Hp').
    destruct (Nat.eqb_spec (length l1) 0) as [Hz|Hz]; [apply nil_length_inv in Hz; subst l1|]; cbn [andb].
    + destruct (Nat.ltb_spec 1 (length (p :: ps))) as [Hlt|Hge].
      * eexists. split; [done|]. split.
        -- split; [cbn; rewrite Hs; cbn; lia|]. exists ls. split; [done|]. split; [done|].
           destruct Hne as [Hle|Hne]; [left; cbn in Hle; lia|right]. by apply Forall_cons in Hne as [_ ?].
        -- intros page pages [= <- <-] _ _. rewrite Ep. done.
      * assert (ps = []) as -> by (destruct ps; [done|cbn in Hge; lia]). apply Forall2_nil_inv_l in Hps as ->.
        eexists. split; [done|]. split.
        -- split; [cbn; rewrite Hs; cbn; lia|]. exists [[]]. split; [constructor; [done|constructor]|]. split; [done|]. left. cbn. lia.
        -- intros page pages [= <- <-]. done.
    + eexists. split; [done|]. split.
      * split; [cbn; rewrite Hs; cbn; lia|]. exists (l1 :: ls). split; [by constructor|]. split; [done|].
        destruct Hne as [Hle|Hne]; [left; cbn in *; lia|right]. apply Forall_cons in Hne as [_ ?]. constructor; [|done].
        by intros ->.
      * intros page pages [= <- <-] _ E. cbn in E. apply (f_equal length) in E. cbn in E. lia.
Qed.

Lemma Iter_holds q l : holds q l -> Iter q = Some <$> l.
Proof.
  intros [_ (ls & Hp & -> & _)]. unfold Iter. induction Hp as [|p l1 ps ls Hp _ IH]; [done|].
  cbn. rewrite (pg_iter_holds p l1 Hp), IH. by rewrite fmap_app.
Qed.

(** *** Any use of a queue *)

Inductive qop := OpPush (fresh : queuePage) (x : A) | OpPeek | OpPop | OpSize | OpIter.
Inductive qout := OutNone | OutItem (x : option A) | OutSize (n : nat) | OutItems (l : list (option A)).

Definition run_op (q : Queue) (op : qop) : qout * Queue :=
  match op with
  | OpPush fresh x => (OutNone, Push fresh q x)
  | OpPeek => (OutItem (Peek q), q)
  | OpPop => let '(x, q) := Pop q in (OutItem x, q)
  | OpSize => (OutSize (Size q), q)
  | OpIter => (OutItems (Iter q), q)
  end.

(** The same on a list. *)
Definition list_op (l : list A) (op : qop) : qout * list A :=
  match op with
  | OpPush _ x => (OutNone, l ++ [x])
  | OpPeek => (OutItem (head l), l)
  | OpPop => (OutItem (head l), tail l)
  | OpSize => (OutSize (length l), l)
  | OpIter => (OutItems (Some <$> l), l)
  end.

Definition fresh_ok (op : qop) : Prop := match op with OpPush fresh _ => page_empty fresh | _ => True end.

Lemma run_op_holds q l op : holds q l -> fresh_ok op ->
  (run_op q op).1 = (list_op l op).1 /\ holds (run_op q op).2 (list_op l op).2.
Proof.
  intros Hq Hf. destruct op; cbn.
  - split; [done|]. by apply Push_holds.
  - by rewrite (Peek_holds q l).
  - by destruct (Pop_holds q l Hq) as (q' & -> & Hq' & _).
  - split; [|done]. unfold Size. by rewrite (ho_size _ _ Hq).
  - by rewrite (Iter_holds q l).
Qed.
End Queue.
Arguments queuePage : clear implicits.
Arguments Queue : clear implicits.

(** What a sequence of operations answers. *)
Fixpoint outputs {S O R : Type} (step : S -> O -> R * S) (s : S) (ops : list O) : list R :=
  match ops with
  | [] => []
  | op :: ops => let '(r, s) := step s op in r :: outputs step s ops
  end.

(** Two machines in step give the same answers. *)
Lemma outputs_simulation {S T O R : Type} (f : S -> O -> R * S) (g : T -> O -> R * T) (Rel : S -> T -> Prop) (ok : O -> Prop) s t ops :
  (forall s t op, Rel s t -> ok op -> (f s op).1 = (g t op).1 /\ Rel (f s op).2 (g t op).2) ->
  Rel s t -> Forall ok ops -> outputs f s ops = outputs g t ops.
Proof.
  intros Hstep HR Hok. revert s t HR. induction Hok as [|op ops Hop _ IH]; intros s t HR; [done|]. cbn.
  destruct (Hstep s t op HR Hop) as [Ho Hn]. destruct (f s op) as [r s'], (g t op) as [r' t']. cbn in *. subst r'.
  f_equal. by apply IH.
Qed.

(** A paged queue answers every sequence of [Push], [Peek], [Pop], [Size]
    and [Iter] as a list does, items leaving in the order they came, whatever
    empty pages the page pool hands out. *)
Lemma queue_is_fifo (A : Type) (ops : list (@qop A)) :
  Forall fresh_ok ops -> outputs run_op NewQueue ops = outputs list_op [] ops.
Proof.
  intros Hok. apply (outputs_simulation _ _ holds fresh_ok); [|apply NewQueue_holds|done].
  intros q l op. apply run_op_holds.
Qed.

(** A new page, and a page that was used before. *)
Definition new_page {A} : queuePage A := mkPage (replicate 1024 None) 0 0 0.

Lemma new_page_empty {A} (q : list (option A)) h : length q = 1024 -> h < 1024 -> page_empty (mkPage q h h 0).
Proof. intros Hq Hh. split; cbn [pg_head pg_tail pg_size length]; try (done || lia). rewrite Nat.add_0_r. symmetry. by apply Nat.mod_small. Qed.

Lemma queue_is_fifo_witness :
  outputs run_op NewQueue [OpPush new_page 7; OpPush new_page 8; OpPeek; OpPop; OpSize; OpIter; OpPop; OpPop]
  = [OutNone; OutNone; OutItem (Some 7); OutItem (Some 7); OutSize 1; OutItems [Some 8]; OutItem (Some 8); OutItem None].
Proof.
  rewrite queue_is_fifo; [reflexivity|].
  repeat apply Forall_cons_2; try apply Forall_nil_2; try exact I; (apply new_page_empty; [apply length_replicate|lia]).
Defined.

(** ** Go's [copy] within a slice *)

Section Copy.
Context {X : Type}.

(** [l[a:b]]. *)
Definition slice (l : list X) (a b : nat) : list X := take (b - a) (drop a l).

(** [copy(l[a:b], src)], the source read before anything is written. *)
Definition copy_to (l : list X) (a b : nat) (src : list X) : list X :=
  let n := Nat.min (b - a) (length src) in
  take a l ++ take n src ++ drop (a + n) l.

Lemma length_copy_to l a b src : a <= b -> b <= length l -> length (copy_to l a b src) = length l.
Proof.
  intros Hab Hb. unfold copy_to. rewrite !length_app, !length_take, length_drop. lia.
Qed.

(** Copying a run one place up and writing into the freed place inserts. *)
Lemma insert_gap (a m c : list X) (y x : X) (src : list X) (b : nat) :
  take (length m) src = m -> b = S (length a + length m) ->
  <[length a := x]> (copy_to (a ++ m ++ y :: c) (S (length a)) b src) = a ++ x :: m ++ c.
Proof.
  intros Hsrc ->. assert (Hlen : length m <= length src) by (apply (f_equal length) in Hsrc; rewrite length_take in Hsrc; lia).
  unfold copy_to. replace (Nat.min _ _) with (length m) by lia. rewrite Hsrc.
  assert (Hz : exists z, take (S (length a)) (a ++ m ++ y :: c) = a ++ [z]).
  { exists (default y (head m)). rewrite take_app_ge by lia. f_equal.
    replace (S (length a) - length a) with 1 by lia. destruct m; done. }
  destruct Hz as [z ->]. rewrite <- app_assoc. rewrite insert_app_r_alt by lia. rewrite Nat.sub_diag. cbn. do 3 f_equal.
  replace (a ++ m ++ y :: c) with ((a ++ m ++ [y]) ++ c) by (by rewrite <- !app_assoc).
  rewrite drop_app_length' by (rewrite !length_app; cbn; lia). done.
Qed.

(** The three ways [insert] makes room: the slice is full and grows, *)
Lemma grow_insert (w1 w2 : list X) x :
  let items := (w1 ++ w2) ++ [x] in
  <[length w1 := x]> (copy_to items (length w1 + 1) (length items) (drop (length w1) items)) = w1 ++ x :: w2.
Proof.
  intros items. unfold items. rewrite <- !app_assoc, Nat.add_1_r.
  rewrite (insert_gap w1 w2 [] x); [by rewrite app_nil_r| |rewrite !length_app; cbn; lia].
  rewrite drop_app_length. by rewrite take_app_length.
Qed.

(** the used part reaches the end of the slice and moves down, *)
Lemma shift_down (pre w : list X) x0 :
  let items := (pre ++ [x0]) ++ w in
  exists z, copy_to items (length pre + 1 - 1) (length items) (drop (length pre + 1) items) = pre ++ w ++ [z].
Proof.
  intros items. unfold items. rewrite (drop_app_length' (pre ++ [x0])) by (rewrite length_app; cbn; lia). unfold copy_to.
  rewrite !length_app. cbn [length]. replace (Nat.min _ _) with (length w) by lia.
  rewrite <- app_assoc, take_app_length' by lia. rewrite (take_ge w) by lia.
  rewrite drop_app_ge by lia. replace (_ - length pre) with (length w) by lia.
  assert (Hd : length (drop (length w) ([x0] ++ w)) = 1) by (rewrite length_drop, length_app; cbn; lia).
  destruct (drop (length w) ([x0] ++ w)) as [|z [|]]; [done| |done]. by exists z.
Qed.

Lemma shift_insert (pre w1 w2 : list X) x0 x k size :
  length w1 = k -> k + length w2 = size ->
  let items := (pre ++ [x0]) ++ w1 ++ w2 in
  let head := length pre + 1 in
  let items := copy_to items (head - 1) (length items) (drop head items) in
  let idx := k + head - 1 in
  <[idx := x]> (if negb (idx =? head + size - 1) then copy_to items (idx + 1) (length items) (slice items idx (head + size)) else items)
  = pre ++ w1 ++ x :: w2.
Proof.
  intros Hw1 Hw2. cbv zeta. destruct (shift_down pre (w1 ++ w2) x0) as [z ->].
  assert (k + (length pre + 1) - 1 = length (pre ++ w1)) as -> by (rewrite length_app; lia).
  replace (pre ++ (w1 ++ w2) ++ [z]) with ((pre ++ w1) ++ w2 ++ [z]) by (by rewrite <- !app_assoc).
  replace (pre ++ w1 ++ x :: w2) with ((pre ++ w1) ++ x :: w2 ++ []) by (by rewrite <- !app_assoc, app_nil_r).
  destruct (Nat.eqb_spec (length (pre ++ w1)) (length pre + 1 + size - 1)) as [Hlast|Hnl]; cbn [negb].
  - assert (w2 = []) as -> by (apply nil_length_inv; rewrite length_app in Hlast; lia).
    cbn [app]. rewrite insert_app_r_alt by lia. by rewrite Nat.sub_diag.
  - rewrite Nat.add_1_r. apply (insert_gap (pre ++ w1) w2 []); [|rewrite !length_app; cbn; lia].
    unfold slice. rewrite drop_app_length. rewrite length_app in Hnl |- *.
    rewrite (take_ge (w2 ++ [z])) by (rewrite length_app; cbn; lia). by rewrite take_app_length.
Qed.

(** or there is a free place behind it. *)
Lemma free_insert (pre w1 w2 post : list X) y x k size :
  length w1 = k -> k + length w2 = size ->
  let items := pre ++ (w1 ++ w2) ++ y :: post in
  let idx := k + length pre in
  <[idx := x]> (copy_to items (idx + 1) (length pre + size + 1) (slice items idx (length pre + size)))
  = pre ++ (w1 ++ x :: w2) ++ post.
Proof.
  intros Hw1 Hw2. cbv zeta. assert (k + length pre = length (pre ++ w1)) as -> by (rewrite length_app; lia).
  replace (pre ++ (w1 ++ w2) ++ y :: post) with ((pre ++ w1) ++ w2 ++ y :: post) by (by rewrite <- !app_assoc).
  replace (pre ++ (w1 ++ x :: w2) ++ post) with ((pre ++ w1) ++ x :: w2 ++ post) by (by rewrite <- !app_assoc).
  rewrite (Nat.add_1_r (length (pre ++ w1))). apply insert_gap.
  - unfold slice. rewrite drop_app_length. rewrite length_app. replace (_ - _) with (length w2) by lia.
    by rewrite !take_app_length, take_ge.
  - rewrite length_app. lia.
Qed.
End Copy.

(** ** The sorted queue *)

Section Sorted.
Context {V : Type}.

(** [items] with the nil pointers that [Pop] leaves. *)
Record SortedQueue := mkSorted {
  sq_items : list (option (V * Z));
  sq_head : nat;
  sq_size : nat
}.

Definition NewSortedQueue : SortedQueue := mkSorted [] 0 0.

(** The priority of the item at a position; a nil pointer would panic. *)
Definition priority_at (q : SortedQueue) (i : nat) : option Z := snd <$> mjoin (sq_items q !! i).

Definition sq_insert (q : SortedQueue) (value : V) (Priority : Z) : SortedQueue :=
  let item := Some (value, Priority) in
  let items := sq_items q in
  let idx := sort_Search (sq_size q)
    (fun i => match priority_at q (sq_head q + i) with Some p => (Priority <? p)%Z | None => false end) in
  let idx := idx + sq_head q in
  if (sq_head q <=? idx) && (idx <? sq_head q + sq_size q) && bool_decide (priority_at q idx = Some Priority)
  then mkSorted (<[idx := item]> items) (sq_head q) (sq_size q)
  else if sq_size q =? length items then
    let items := items ++ [item] in
    mkSorted (<[idx := item]> (copy_to items (idx + 1) (length items) (drop idx items))) (sq_head q) (sq_size q + 1)
  else
    let last := sq_head q + sq_size q in
    if last =? length items then
      let items := copy_to items (sq_head q - 1) (length items) (drop (sq_head q) items) in
      let idx := idx - 1 in
      let items := if negb (idx =? last - 1) then copy_to items (idx + 1) (length items) (slice items idx last) else items in
      mkSorted (<[idx := item]> items) (sq_head q - 1) (sq_size q + 1)
    else
      mkSorted (<[idx := item]> (copy_to items (idx + 1) (last + 1) (slice items idx last))) (sq_head q) (sq_size q + 1).

Definition sq_peek (q : SortedQueue) : option (V * Z) :=
  if sq_size q =? 0 then None else mjoin (sq_items q !! sq_head q).

(** The loop of [findInternal], which stops at a larger priority. *)
Fixpoint find_loop (items : list (option (V * Z))) (Priority : Z) : option V :=
  match items with
  | Some (v, p) :: items => if (p =? Priority)%Z then Some v else if (Priority <? p)%Z then None else find_loop items Priority
  | _ => None
  end.

Definition sq_find (q : SortedQueue) (Priority : Z) : option V :=
  find_loop (slice (sq_items q) (sq_head q) (sq_head q + sq_size q)) Priority.

Definition FindOrInsert (q : SortedQueue) (value : V) (Priority : Z) : option V * SortedQueue :=
  match sq_find q Priority with
  | Some item => (Some item, q)
  | None => (None, sq_insert q value Priority)
  end.

Definition sq_pop (q : SortedQueue) : option V * SortedQueue :=
  if sq_size q =? 0 then (None, q)
  else
    let item := mjoin (sq_items q !! sq_head q) in
    let items := <[sq_head q := None]> (sq_items q) in
    let head := sq_head q + 1 in
    let size := sq_size q - 1 in
    let q' :=
      if 4096 <? length items then
        if size <? 1024 then mkSorted (copy_to (replicate 2048 None) 0 2048 (slice items head (head + size))) 0 size
        else if length items / 2 + 1 <? head then mkSorted (copy_to items 0 (length items) (slice items head (head + size))) 0 size
        else mkSorted items head size
      else mkSorted items head size in
    (fst <$> item, q').

(** The loop of [PopUntil]; each round pops an item, so the size bounds the rounds. *)
Fixpoint pop_until (fuel : nat) (q : SortedQueue) (Priority : Z) : option V * SortedQueue :=
  match fuel with
  | O => (None, q)
  | S fuel =>
      match sq_peek q with
      | None => (None, q)
      | Some (item, itemPriority) =>
          if (itemPriority <? Priority)%Z then pop_until fuel (snd (sq_pop q)) Priority
          else if (itemPriority =? Priority)%Z then (Some item, snd (sq_pop q))
          else (None, q)
      end
  end.

Definition PopUntil (q : SortedQueue) (Priority : Z) : option V * SortedQueue := pop_until (sq_size q + 1) q Priority.

Definition sq_Iter (q : SortedQueue) : list (option (V * Z)) :=
  (fun i => mjoin (sq_items q !! (sq_head q + i))) <$> seq 0 (sq_size q).

(** *** The list a sorted queue holds *)

Definition by_priority (a b : V * Z) : Prop := (a.2 <= b.2)%Z.

Record sq_holds (q : SortedQueue) (l : list (V * Z)) : Prop := {
  sh_items : exists pre post, sq_items q = pre ++ (Some <$> l) ++ post /\ length pre = sq_head q;
  sh_size : sq_size q = length l;
  sh_sorted : StronglySorted by_priority l
}.

(** Insertion into an ordered list, behind the items of the same priority. *)
Fixpoint insert_by_priority (x : V * Z) (l : list (V * Z)) : list (V * Z) :=
  match l with
  | [] => [x]
  | y :: l => if (x.2 <? y.2)%Z then x :: y :: l else y :: insert_by_priority x l
  end.

Lemma insert_by_priority_split x l k :
  k <= length l -> (forall i y, i < k -> l !! i = Some y -> (y.2 <= x.2)%Z) ->
  (forall y, l !! k = Some y -> (x.2 < y.2)%Z) ->
  insert_by_priority x l = take k l ++ x :: drop k l.
Proof.
  revert k. induction l as [|y l IH]; intros k Hk Hlo Hhi; cbn [insert_by_priority].
  { assert (k = 0) as -> by (cbn in Hk; lia). done. }
  destruct k as [|k].
  - rewrite (proj2 (Z.ltb_lt _ _)); [done|]. by apply Hhi.
  - rewrite (proj2 (Z.ltb_ge _ _)) by (by apply (Hlo 0 y); [lia|]). cbn. f_equal. apply IH.
    + cbn in Hk. lia.
    + intros i z Hi Hz. apply (Hlo (S i) z); [lia|done].
    + intros z Hz. by apply Hhi.
Qed.

Lemma insert_by_priority_perm x l : insert_by_priority x l ≡ₚ x :: l.
Proof.
  induction l as [|y l IH]; cbn; [done|]. destruct (_ <? _)%Z; [done|]. rewrite IH. apply Permutation_swap.
Qed.

Lemma insert_by_priority_sorted x l : StronglySorted by_priority l -> StronglySorted by_priority (insert_by_priority x l).
Proof.
  induction 1 as [|y l Hs IH Hy]; cbn; [by repeat constructor|]. unfold by_priority in *.
  destruct (Z.ltb_spec x.2 y.2).
  - constructor; [by constructor|]. constructor; [lia|]. eapply Forall_impl; [exact Hy|]. cbn. lia.
  - constructor; [done|]. rewrite insert_by_priority_perm. constructor; [lia|done].
Qed.

Lemma priority_at_window q l pre post i :
  sq_items q = pre ++ (Some <$> l) ++ post -> length pre = sq_head q -> i < length l ->
  priority_at q (sq_head q + i) = snd <$> l !! i.
Proof.
  intros Hi Hh Hl. unfold priority_at. rewrite Hi, lookup_app_r by lia. replace (_ - _) with i by lia.
  rewrite lookup_app_l by (by rewrite length_fmap). rewrite list_lookup_fmap.
  destruct (lookup_lt_is_Some_2 l i Hl) as [x ->]. done.
Qed.

Lemma sorted_nth (l : list (V * Z)) i j x y :
  StronglySorted by_priority l -> i <= j -> l !! i = Some x -> l !! j = Some y -> (x.2 <= y.2)%Z.
Proof.
  intros Hs. revert i j. induction Hs as [|a l Hs IH Ha]; intros i j Hij Hi Hj; [done|].
  destruct i as [|i].
  - cbn in Hi. injection Hi as <-. destruct j as [|j]; cbn in Hj; [by injection Hj as <-|].
    rewrite Forall_forall in Ha. apply Ha. by eapply list_elem_of_lookup_2.
  - destruct j as [|j]; [lia|]. apply (IH i j); [lia|done..].
Qed.

(** The place the binary search finds. *)
Lemma insert_place q l pre post v P :
  sq_items q = pre ++ (Some <$> l) ++ post -> length pre = sq_head q -> sq_size q = length l ->
  StronglySorted by_priority l ->
  exists k, sort_Search (sq_size q)
      (fun i => match priority_at q (sq_head q + i) with Some p => (P <? p)%Z | None => false end) = k /\
    k <= length l /\ insert_by_priority (v, P) l = take k l ++ (v, P) :: drop k l /\
    (k < length l -> priority_at q (k + sq_head q) <> Some P).
Proof.
  intros Hi Hh Hs Hsort.
  set (f := fun i => match priority_at q (sq_head q + i) with Some p => (P <? p)%Z | None => false end). exists (sort_Search (sq_size q) f).
  assert (Hf : forall i, i < length l -> f i = match l !! i with Some x => (P <? x.2)%Z | None => false end).
  { intros i Hil. unfold f. rewrite (priority_at_window q l pre post i) by done. by destruct (l !! i). }
  destruct (sort_Search_spec f (sq_size q)) as (Hle & Hlo & Hhi).
  { intros x y Hxy. rewrite Hs in Hxy. rewrite !Hf by lia.
    destruct (lookup_lt_is_Some_2 l x) as [a Ea]; [lia|]. destruct (lookup_lt_is_Some_2 l y) as [b Eb]; [lia|].
    rewrite Ea, Eb. pose proof (sorted_nth l x y a b Hsort ltac:(lia) Ea Eb). rewrite !Z.ltb_lt. lia. }
  rewrite Hs in *. set (k := sort_Search (length l) f) in *. split; [done|]. split; [done|]. split.
  - apply insert_by_priority_split; [done| |].
    + intros i y Hik Hy. specialize (Hlo i Hik). rewrite Hf, Hy in Hlo by lia. apply Z.ltb_ge in Hlo. done.
    + intros y Hy. pose proof (lookup_lt_Some _ _ _ Hy). specialize (Hhi k ltac:(lia)). rewrite Hf, Hy in Hhi by lia.
      by apply Z.ltb_lt in Hhi.
  - intros Hk. specialize (Hhi k ltac:(lia)). rewrite Hf in Hhi by lia.
    rewrite (Nat.add_comm k), (priority_at_window q l pre post k) by done.
    destruct (l !! k) as [x|]; [|done]. apply Z.ltb_lt in Hhi. cbn. intros [= E]. lia.
Qed.

(** Inserting keeps the order; an item comes behind those of its priority. *)
Lemma sq_insert_holds q l v P : sq_holds q l -> sq_holds (sq_insert q v P) (insert_by_priority (v, P) l).
Proof.
  intros [(pre & post & Hi & Hh) Hs Hsort].
  destruct (insert_place q l pre post v P Hi Hh Hs Hsort) as (k & Ek & Hk & Eins & Hne).
  pose proof (insert_by_priority_sorted (v, P) l Hsort) as Hsort'.
  assert (Hsize : sq_size q + 1 = length (insert_by_priority (v, P) l)) by (rewrite insert_by_priority_perm, Hs; cbn; lia).
  rewrite <- (take_drop k l), fmap_app in Hi. apply (f_equal (fmap Some)) in Eins. rewrite fmap_app in Eins. cbn in Eins.
  set (w1 := Some <$> take k l) in *. set (w2 := Some <$> drop k l) in *.
  assert (Hw1 : length w1 = k) by (unfold w1; rewrite length_fmap, length_take; lia).
  assert (Hw2 : length w2 = length l - k) by (unfold w2; rewrite length_fmap, length_drop; lia).
  unfold sq_insert. rewrite Ek. destruct (_ && _ && _) eqn:Edead.
  { apply andb_true_iff in Edead as [Edead Ep]. apply andb_true_iff in Edead as [_ Ek']. apply Nat.ltb_lt in Ek'.
    apply bool_decide_eq_true in Ep. exfalso. apply Hne; [lia|done]. }
  clear Edead. rewrite Hi. destruct (Nat.eqb_spec (sq_size q) (length (pre ++ (w1 ++ w2) ++ post))) as [Hfull|Hspare].
  - rewrite !length_app in Hfull. assert (pre = []) as -> by (apply nil_length_inv; lia).
    assert (post = []) as -> by (apply nil_length_inv; lia). cbn in Hh. rewrite <- Hh in *.
    cbn [app]. rewrite app_nil_r, Nat.add_0_r, <- Hw1. split; cbn [sq_items sq_head sq_size]; [|done..].
    exists [], []. split; [|done]. cbn [app]. rewrite app_nil_r, Eins. apply grow_insert.
  - destruct (Nat.eqb_spec (sq_head q + sq_size q) (length (pre ++ (w1 ++ w2) ++ post))) as [Hend|Hroom].
    + rewrite !length_app in Hend, Hspare. assert (post = []) as -> by (apply nil_length_inv; lia). rewrite app_nil_r in *.
      destruct pre as [|x0 pre0 _] using rev_ind; [cbn in *; lia|]. rewrite length_app in Hh. cbn in Hh.
      split; cbn [sq_items sq_head sq_size]; [|done..]. exists pre0, []. split; [|lia].
      rewrite app_nil_r, Eins. rewrite <- Hh. apply shift_insert; lia.
    + destruct post as [|y post]; [rewrite app_nil_r, !length_app in Hroom; lia|].
      split; cbn [sq_items sq_head sq_size]; [|done..]. exists pre, post. split; [|done]. rewrite Eins.
      rewrite <- Hh, Hs. apply free_insert; lia.
Qed.

Lemma copy_front (items w : list (option (V * Z))) :
  length w <= length items -> copy_to items 0 (length items) w = w ++ drop (length w) items.
Proof.
  intros Hw. unfold copy_to. rewrite Nat.sub_0_r, Nat.min_r, take_0, (take_ge w) by lia. done.
Qed.

(** Popping takes the first item, also when the slice is compacted. *)
Lemma sq_pop_holds q l : sq_holds q l ->
  (sq_pop q).1 = fst <$> head l /\ sq_holds (sq_pop q).2 (tail l).
Proof.
  intros [(pre & post & Hi & Hh) Hs Hsort]. unfold sq_pop. destruct l as [|x l]; rewrite Hs; cbn [length Nat.eqb].
  { split; [done|]. split; [by exists pre, post|done|constructor]. }
  rewrite Hi, <- Hh. cbn [fmap list_fmap]. rewrite lookup_app_r, Nat.sub_diag by lia. cbn [fst snd app lookup list_lookup mjoin option_join].
  split; [done|]. apply StronglySorted_inv in Hsort as [Hsort _].
  rewrite insert_app_r_alt, Nat.sub_diag by lia. cbn [insert list_insert]. set (w := Some <$> l).
  assert (Hw : length w = length l) by apply length_fmap.
  replace (S (length l) - 1) with (length l) by lia.
  assert (Hkeep : sq_holds (mkSorted (pre ++ None :: w ++ post) (length pre + 1) (length l)) l).
  { split; cbn [sq_items sq_head sq_size]; [|done..]. exists (pre ++ [None]), post. rewrite <- app_assoc. split; [done|].
    rewrite length_app. cbn. lia. }
  assert (Hslice : slice (pre ++ None :: w ++ post) (length pre + 1) (length pre + 1 + length l) = w).
  { unfold slice. replace (_ + length l - _) with (length l) by lia.
    change (None :: w ++ post) with ([None] ++ w ++ post). rewrite app_assoc.
    rewrite drop_app_length' by (rewrite length_app; cbn; lia). rewrite <- Hw. by rewrite take_app_length. }
  assert (Hfront : forall items, length w <= length items -> sq_holds (mkSorted (copy_to items 0 (length items) w) 0 (length l)) l).
  { intros items Hle. split; cbn [sq_items sq_head sq_size]; [|done..]. exists [], (drop (length w) items).
    by rewrite copy_front. }
  destruct (_ <? _)%nat; [|done]. rewrite Hslice. destruct (Nat.ltb_spec (length l) 1024).
  - cbn [snd]. rewrite <- (length_replicate 2048 (None : option (V * Z))) at 2. apply Hfront. rewrite length_replicate. lia.
  - destruct (_ <? _)%nat; [|done]. apply Hfront. rewrite length_app. cbn. rewrite length_app. lia.
Qed.

Lemma sq_peek_holds q l : sq_holds q l -> sq_peek q = head l.
Proof.
  intros [(pre & post & Hi & Hh) Hs Hsort]. unfold sq_peek. rewrite Hs. destruct l as [|x l]; [done|].
  cbn [length Nat.eqb]. by rewrite Hi, <- Hh, lookup_app_r, Nat.sub_diag by lia.
Qed.

Lemma sq_window q l : sq_holds q l -> slice (sq_items q) (sq_head q) (sq_head q + sq_size q) = Some <$> l.
Proof.
  intros [(pre & post & Hi & Hh) Hs _]. unfold slice. replace (_ - _) with (sq_size q) by lia.
  rewrite Hi, <- Hh, drop_app_length, Hs. rewrite <- (length_fmap Some l) at 1. by rewrite take_app_length.
Qed.

(** The first item of a priority. *)
Fixpoint find_priority (l : list (V * Z)) (P : Z) : option V :=
  match l with
  | [] => None
  | (v, p) :: l => if (p =? P)%Z then Some v else find_priority l P
  end.

Lemma find_priority_none l P : Forall (fun y => P < y.2)%Z l -> find_priority l P = None.
Proof.
  induction 1 as [|[v p] l Hp _ IH]; [done|]. cbn in *. by rewrite (proj2 (Z.eqb_neq _ _)) by lia.
Qed.

Lemma sq_find_holds q l P : sq_holds q l -> sq_find q P = find_priority l P.
Proof.
  intros Hq. unfold sq_find. rewrite (sq_window q l Hq). destruct Hq as [_ _ Hsort].
  induction Hsort as [|[v p] l Hsort IH Hl]; [done|]. cbn. destruct (Z.eqb_spec p P); [done|].
  destruct (Z.ltb_spec P p); [|done]. symmetry. apply find_priority_none. eapply Forall_impl; [exact Hl|].
  unfold by_priority. cbn. lia.
Qed.

Lemma sq_Iter_holds q l : sq_holds q l -> sq_Iter q = Some <$> l.
Proof.
  intros [(pre & post & Hi & Hh) Hs _]. unfold sq_Iter. rewrite Hs. apply list_eq. intros i.
  rewrite !list_lookup_fmap. destruct (l !! i) as [x|] eqn:Ex.
  - pose proof (lookup_lt_Some _ _ _ Ex). rewrite lookup_seq_lt by done. cbn. f_equal.
    rewrite Hi, <- Hh, lookup_app_r by lia. replace (_ - _) with i by lia.
    rewrite lookup_app_l by (by rewrite length_fmap). by rewrite list_lookup_fmap, Ex.
  - apply lookup_ge_None in Ex. by rewrite lookup_seq_ge.
Qed.

(** What [PopUntil] leaves: the items below the priority are dropped, and the
    first of the priority with them. *)
Fixpoint drop_until (l : list (V * Z)) (P : Z) : option V * list (V * Z) :=
  match l with
  | [] => (None, [])
  | (v, p) :: l' =>
      if (p <? P)%Z then drop_until l' P else if (p =? P)%Z then (Some v, l') else (None, l)
  end.

Lemma pop_until_holds q l P fuel : sq_holds q l -> length l < fuel ->
  (pop_until fuel q P).1 = (drop_until l P).1 /\ sq_holds (pop_until fuel q P).2 (drop_until l P).2.
Proof.
  revert q l. induction fuel as [|fuel IH]; intros q l Hq Hl; [lia|]. cbn [pop_until].
  rewrite (sq_peek_holds q l Hq). destruct l as [|[v p] l]; [done|]. cbn [head drop_until].
  destruct (sq_pop_holds q _ Hq) as [_ Hq']. cbn [tail] in Hq'. destruct (p <? P)%Z.
  - apply IH; [done|]. cbn in Hl. lia.
  - by destruct (p =? P)%Z.
Qed.

Lemma NewSortedQueue_holds : sq_holds NewSortedQueue [].
Proof. split; [by exists [], []|done|constructor]. Qed.

(** *** Any use of a sorted queue *)

Inductive sop :=
  | SInsert (v : V) (P : Z) | SFindOrInsert (v : V) (P : Z) | SPeek | SFind (P : Z)
  | SPopUntil (P : Z) | SPop | SSize | SIter.
Inductive sout := SNone | SItem (x : option V) | STop (x : option (V * Z)) | SLen (n : nat) | SItems (l : list (option (V * Z))).

Definition run_sop (q : SortedQueue) (op : sop) : sout * SortedQueue :=
  match op with
  | SInsert v P => (SNone, sq_insert q v P)
  | SFindOrInsert v P => let '(x, q) := FindOrInsert q v P in (SItem x, q)
  | SPeek => (STop (sq_peek q), q)
  | SFind P => (SItem (sq_find q P), q)
  | SPopUntil P => let '(x, q) := PopUntil q P in (SItem x, q)
  | SPop => let '(x, q) := sq_pop q in (SItem x, q)
  | SSize => (SLen (sq_size q), q)
  | SIter => (SItems (sq_Iter q), q)
  end.

(** The same on a list in order of priority. *)
Definition list_sop (l : list (V * Z)) (op : sop) : sout * list (V * Z) :=
  match op with
  | SInsert v P => (SNone, insert_by_priority (v, P) l)
  | SFindOrInsert v P =>
      match find_priority l P with
      | Some x => (SItem (Some x), l)
      | None => (SItem None, insert_by_priority (v, P) l)
      end
  | SPeek => (STop (head l), l)
  | SFind P => (SItem (find_priority l P), l)
  | SPopUntil P => (SItem (drop_until l P).1, (drop_until l P).2)
  | SPop => (SItem (fst <$> head l), tail l)
  | SSize => (SLen (length l), l)
  | SIter => (SItems (Some <$> l), l)
  end.

Lemma run_sop_holds q l op : sq_holds q l ->
  (run_sop q op).1 = (list_sop l op).1 /\ sq_holds (run_sop q op).2 (list_sop l op).2.
Proof.
  intros Hq. destruct op; cbn.
  - split; [done|]. by apply sq_insert_holds.
  - unfold FindOrInsert. rewrite (sq_find_holds q l P Hq). destruct (find_priority l P); [done|]. cbn.
    split; [done|]. by apply sq_insert_holds.
  - by rewrite (sq_peek_holds q l).
  - by rewrite (sq_find_holds q l).
  - destruct (pop_until_holds q l P (sq_size q + 1) Hq) as [Hx Hr]; [rewrite (sh_size _ _ Hq); lia|].
    unfold PopUntil. destruct (pop_until _ q P). cbn in *. by subst.
  - destruct (sq_pop_holds q l Hq) as [Hx Hr]. destruct (sq_pop q). cbn in *. by subst.
  - by rewrite (sh_size _ _ Hq).
  - by rewrite (sq_Iter_holds q l).
Qed.
End Sorted.
Arguments SortedQueue : clear implicits.

(** A sorted queue answers every sequence of its operations as a list kept in
    order of priority does: an item is inserted behind those of its priority,
    the binary search, the shifts of the window and the compactions of the slice
    (at 4096 slots) never lose, duplicate or reorder an item, and the loop of
    [PopUntil] ends. *)
Lemma sorted_queue_refines_list (V : Type) (ops : list (@sop V)) :
  outputs run_sop NewSortedQueue ops = outputs list_sop [] ops.
Proof.
  apply (outputs_simulation _ _ sq_holds (fun _ => True)); [|apply NewSortedQueue_holds|].
  - intros q l op Hq _. by apply run_sop_holds.
  - apply Forall_true. done.
Qed.
