(* ===== verification/LinkedQueue.v ===== *)
(** * The linked queue

    [common/queue/linked.go]: a doubly linked list of heap nodes with an index
    from key to node, so that an item can be removed by its key.  The nodes are
    modelled with their pointers in an explicit heap; a nil dereference is a
    panic.  The queue is shown to behave as a list of keyed items, as long as no
    key is pushed that the list still holds, with one departure: [Remove] keeps
    the removed node in the index. *)

From stdpp Require Import base gmap list strings.
From Stdlib Require Import ZArith Lia.
From S2P Require Import Prelude Common Queue.

#[local] Open Scope nat_scope.

Section Linked.
Context {K A : Type} `{Countable K}.

(** A pointer is an address; [None] is nil. *)
Record linkedItem := mkItem {
  li_Prev : option nat;
  li_Key : K;
  li_Item : A;
  li_Next : option nat
}.

Record LinkedQueue := mkLinked {
  lq_heap : gmap nat linkedItem;   (** the nodes allocated so far *)
  lq_alloc : nat;                  (** the address of the next node *)
  lq_Head : option nat;
  lq_Tail : option nat;
  lq_keyMap : gmap K nat
}.

Definition NewLinkedQueue : LinkedQueue := mkLinked ∅ 0 None None ∅.

Definition set_heap (h : gmap nat linkedItem) (q : LinkedQueue) : LinkedQueue :=
  mkLinked h (lq_alloc q) (lq_Head q) (lq_Tail q) (lq_keyMap q).
Definition set_Head (p : option nat) (q : LinkedQueue) : LinkedQueue :=
  mkLinked (lq_heap q) (lq_alloc q) p (lq_Tail q) (lq_keyMap q).
Definition set_Tail (p : option nat) (q : LinkedQueue) : LinkedQueue :=
  mkLinked (lq_heap q) (lq_alloc q) (lq_Head q) p (lq_keyMap q).
Definition set_keyMap (m : gmap K nat) (q : LinkedQueue) : LinkedQueue :=
  mkLinked (lq_heap q) (lq_alloc q) (lq_Head q) (lq_Tail q) m.

Definition nil_dereference : string := "nil pointer dereference".

(** [&linkedItem{...}]. *)
Definition alloc (nd : linkedItem) : ST LinkedQueue nat := fun q =>
  (Ok (lq_alloc q), mkLinked (<[lq_alloc q := nd]> (lq_heap q)) (S (lq_alloc q)) (lq_Head q) (lq_Tail q) (lq_keyMap q)).

(** [*p]. *)
Definition deref (p : option nat) : ST LinkedQueue linkedItem := fun q =>
  match p ≫= (lq_heap q !!.) with
  | Some nd => (Ok nd, q)
  | None => (Panic nil_dereference, q)
  end.

(** [p.Next = n] and [p.Prev = n]. *)
Definition set_Next (p n : option nat) : ST LinkedQueue unit :=
  let! nd := deref p in
  modify (fun q => set_heap (<[default 0 p := mkItem (li_Prev nd) (li_Key nd) (li_Item nd) n]> (lq_heap q)) q).
Definition set_Prev (p n : option nat) : ST LinkedQueue unit :=
  let! nd := deref p in
  modify (fun q => set_heap (<[default 0 p := mkItem n (li_Key nd) (li_Item nd) (li_Next nd)]> (lq_heap q)) q).

Definition lq_Push (Key : K) (item : A) : ST LinkedQueue unit :=
  let! nd := alloc (mkItem None Key item None) in
  let! Head := gets lq_Head in
  match Head with
  | None => modify (set_Head (Some nd)) ;;; modify (set_Tail (Some nd))
  | Some _ =>
      let! Tail := gets lq_Tail in
      set_Prev (Some nd) Tail ;;;
      set_Next Tail (Some nd) ;;;
      modify (set_Tail (Some nd))
  end ;;;
  modify (fun q => set_keyMap (<[Key := nd]> (lq_keyMap q)) q).

Definition lq_Pop : ST LinkedQueue (option A) :=
  let! Head := gets lq_Head in
  match Head with
  | None => ret None
  | Some _ =>
      let nd := Head in
      let! Tail := gets lq_Tail in
      (if bool_decide (nd = Tail) then modify (set_Head None) ;;; modify (set_Tail None)
       else
         let! v := deref nd in
         modify (set_Head (li_Next v)) ;;;
         set_Prev (li_Next v) None) ;;;
      set_Prev nd None ;;;
      set_Next nd None ;;;
      let! v := deref nd in
      modify (fun q => set_keyMap (delete (li_Key v) (lq_keyMap q)) q) ;;;
      ret (Some (li_Item v))
  end.

Definition lq_Remove (Key : K) : ST LinkedQueue (option A) :=
  let! Head := gets lq_Head in
  match Head with
  | None => ret None
  | Some _ =>
      let! has := gets (fun q => lq_keyMap q !! Key) in
      match has with
      | None => ret None
      | Some p =>
          let nd := Some p in
          let! v := deref nd in
          (if li_Next v then set_Prev (li_Next v) (li_Prev v) else ret tt) ;;;
          (if li_Prev v then set_Next (li_Prev v) (li_Next v) else ret tt) ;;;
          let! Head := gets lq_Head in
          (if bool_decide (nd = Head) then modify (set_Head (li_Next v)) else ret tt) ;;;
          let! Tail := gets lq_Tail in
          (if bool_decide (nd = Tail) then modify (set_Tail (li_Prev v)) else ret tt) ;;;
          set_Prev nd None ;;;
          set_Next nd None ;;;
          ret (Some (li_Item v))
      end
  end.

(** ** Segments of a doubly linked list *)

Definition first (ps : list nat) (qn : option nat) : option nat := match ps with [] => qn | p :: _ => Some p end.
Definition final (pp : option nat) (ps : list nat) : option nat := match last ps with Some p => Some p | None => pp end.

(** The nodes at [ps] hold [xs] in order, between a node [pp] and a node [qn]. *)
Fixpoint dseg (h : gmap nat linkedItem) (pp : option nat) (ps : list nat) (qn : option nat) (xs : list (K * A)) : Prop :=
  match ps, xs with
  | [], [] => True
  | p :: ps, (k, x) :: xs => h !! p = Some (mkItem pp k x (first ps qn)) /\ dseg h (Some p) ps qn xs
  | _, _ => False
  end.

Lemma final_cons pp p ps : final pp (p :: ps) = final (Some p) ps.
Proof. unfold final. rewrite last_cons. by destruct (last ps). Qed.

Lemma final_app_cons pp p ps1 ps2 : final pp (ps1 ++ p :: ps2) = final (Some p) ps2.
Proof. revert pp. induction ps1 as [|r ps1 IH]; intros pp; [apply final_cons|]. cbn [app]. by rewrite final_cons. Qed.

Lemma final_only p ps : p ∉ ps -> Some p = final (Some p) ps -> ps = [].
Proof.
  unfold final. destruct (last ps) as [t|] eqn:Et; [|by apply last_None in Et]. intros Hp [= ->].
  destruct Hp. by apply last_Some_elem_of.
Qed.

Lemma dseg_length h pp ps qn xs : dseg h pp ps qn xs -> length ps = length xs.
Proof.
  revert pp xs. induction ps as [|p ps IH]; intros pp [|[k x] xs]; try done. cbn. intros [_ Hd]. f_equal. by eapply IH.
Qed.

Lemma dseg_app h pp ps1 ps2 qn xs1 xs2 : length ps1 = length xs1 ->
  dseg h pp (ps1 ++ ps2) qn (xs1 ++ xs2) <-> dseg h pp ps1 (first ps2 qn) xs1 /\ dseg h (final pp ps1) ps2 qn xs2.
Proof.
  revert pp xs1. induction ps1 as [|p ps1 IH]; intros pp [|[k x] xs1] Hl; try done; [cbn; tauto|].
  injection Hl as Hl. cbn. rewrite (IH (Some p) xs1 Hl), final_cons.
  replace (first (ps1 ++ ps2) qn) with (first ps1 (first ps2 qn)) by (by destruct ps1). tauto.
Qed.

(** Writes outside of a segment leave it alone. *)
Lemma dseg_frame h h' pp ps qn xs :
  dseg h pp ps qn xs -> (forall p, p ∈ ps -> h' !! p = h !! p) -> dseg h' pp ps qn xs.
Proof.
  revert pp xs. induction ps as [|p ps IH]; intros pp [|[k x] xs]; try done. cbn. intros [Hp Hd] Hh. split.
  - rewrite Hh by set_solver. done.
  - apply IH; [done|]. set_solver.
Qed.

(** A segment split at one of its items. *)
Lemma dseg_split h pp ps qn xs k x i : dseg h pp ps qn xs -> xs !! i = Some (k, x) ->
  exists ps1 p ps2 xs1 xs2, ps = ps1 ++ p :: ps2 /\ xs = xs1 ++ (k, x) :: xs2 /\ length ps1 = i /\ length xs1 = i /\
    dseg h pp ps1 (Some p) xs1 /\ h !! p = Some (mkItem (final pp ps1) k x (first ps2 qn)) /\ dseg h (Some p) ps2 qn xs2.
Proof.
  intros Hd Hx. pose proof (dseg_length _ _ _ _ _ Hd) as Hl. pose proof (lookup_lt_Some _ _ _ Hx).
  apply list_elem_of_split_length in Hx as (xs1 & xs2 & -> & ->).
  destruct (lookup_lt_is_Some_2 ps (length xs1)) as [p Hp]; [lia|].
  apply list_elem_of_split_length in Hp as (ps1 & ps2 & -> & Hl1). rewrite dseg_app in Hd by done. cbn in Hd.
  destruct Hd as (H1 & Hp & H2). by exists ps1, p, ps2, xs1, xs2.
Qed.

(** Turning the end of a segment to another node. *)
Definition with_Next (v : linkedItem) (n : option nat) : linkedItem := mkItem (li_Prev v) (li_Key v) (li_Item v) n.
Definition with_Prev (v : linkedItem) (n : option nat) : linkedItem := mkItem n (li_Key v) (li_Item v) (li_Next v).

Lemma dseg_last_next h pp ps p qn qn' xs : NoDup (ps ++ [p]) -> dseg h pp (ps ++ [p]) qn xs ->
  exists v, h !! p = Some v /\ dseg (<[p := with_Next v qn']> h) pp (ps ++ [p]) qn' xs.
Proof.
  intros Hnd Hd. pose proof (dseg_length _ _ _ _ _ Hd) as Hl. rewrite length_app in Hl. cbn in Hl.
  destruct xs as [|[k x] xs _] using rev_ind; [cbn in Hl; lia|]. rewrite length_app in Hl. cbn in Hl.
  rewrite dseg_app in Hd by lia. cbn in Hd. destruct Hd as (Hd & Hp & _). eexists. split; [exact Hp|].
  rewrite dseg_app by lia. cbn. rewrite lookup_insert_eq. split; [|done]. eapply dseg_frame; [exact Hd|].
  intros r Hr. rewrite lookup_insert_ne; [done|]. apply NoDup_app in Hnd as (_ & Hnd & _). intros ->. apply (Hnd r Hr). set_solver.
Qed.

Lemma dseg_first_prev h pp pp' p ps qn xs : NoDup (p :: ps) -> dseg h pp (p :: ps) qn xs ->
  exists v, h !! p = Some v /\ dseg (<[p := with_Prev v pp']> h) pp' (p :: ps) qn xs.
Proof.
  intros Hnd Hd. destruct xs as [|[k x] xs]; [done|]. cbn in Hd. destruct Hd as [Hp Hd]. eexists. split; [exact Hp|].
  cbn. rewrite lookup_insert_eq. split; [done|]. eapply dseg_frame; [exact Hd|].
  apply NoDup_cons in Hnd as [Hnd _]. intros r Hr. rewrite lookup_insert_ne; [done|]. by intros ->.
Qed.

Lemma set_Next_at p n q v : lq_heap q !! p = Some v ->
  set_Next (Some p) n q = (Ok tt, set_heap (<[p := with_Next v n]> (lq_heap q)) q).
Proof. intros Hp. unfold set_Next, deref, bind. cbn. by rewrite Hp. Qed.

Lemma set_Prev_at p n q v : lq_heap q !! p = Some v ->
  set_Prev (Some p) n q = (Ok tt, set_heap (<[p := with_Prev v n]> (lq_heap q)) q).
Proof. intros Hp. unfold set_Prev, deref, bind. cbn. by rewrite Hp. Qed.

Lemma deref_at p q v : lq_heap q !! p = Some v -> deref (Some p) q = (Ok v, q).
Proof. intros Hp. unfold deref. cbn. by rewrite Hp. Qed.

(** Cutting a node out of its neighbours. *)
Lemma relink q ps1 p ps2 xs1 xs2 :
  NoDup (ps1 ++ p :: ps2) -> dseg (lq_heap q) None ps1 (Some p) xs1 -> dseg (lq_heap q) (Some p) ps2 None xs2 ->
  exists h1 h2,
    (if first ps2 None then set_Prev (first ps2 None) (final None ps1) else ret tt) q = (Ok tt, set_heap h1 q) /\
    (if final None ps1 then set_Next (final None ps1) (first ps2 None) else ret tt) (set_heap h1 q) = (Ok tt, set_heap h2 q) /\
    dseg h2 None (ps1 ++ ps2) None (xs1 ++ xs2) /\
    (forall r, r ∉ ps1 ++ ps2 -> h2 !! r = lq_heap q !! r).
Proof.
  intros Hnd H1 H2. apply NoDup_app in Hnd as (Hnd1 & Hdis & Hnd2). apply NoDup_cons in Hnd2 as [Hp Hnd2].
  assert (Hs1 : exists h1, (if first ps2 None then set_Prev (first ps2 None) (final None ps1) else ret tt) q = (Ok tt, set_heap h1 q) /\
    dseg h1 (final None ps1) ps2 None xs2 /\ (forall r, r ∉ ps2 -> h1 !! r = lq_heap q !! r)).
  { destruct ps2 as [|p2 ps2]; cbn [first].
    - exists (lq_heap q). destruct xs2; [|done]. split; [by destruct q|done].
    - destruct (dseg_first_prev _ _ (final None ps1) p2 ps2 None xs2 Hnd2 H2) as (v & Hv & Hd).
      eexists. split; [by apply set_Prev_at|]. split; [done|]. intros r Hr. rewrite lookup_insert_ne; [done|]. set_solver. }
  destruct Hs1 as (h1 & E1 & D2 & F1).
  assert (D1 : dseg h1 None ps1 (Some p) xs1) by (eapply dseg_frame; [exact H1|]; intros r Hr; apply F1; set_solver).
  assert (Hs2 : exists h2, (if final None ps1 then set_Next (final None ps1) (first ps2 None) else ret tt) (set_heap h1 q) = (Ok tt, set_heap h2 q) /\
    dseg h2 None ps1 (first ps2 None) xs1 /\ (forall r, r ∉ ps1 -> h2 !! r = h1 !! r)).
  { unfold final. destruct ps1 as [|p1 ps1 _] using rev_ind; [|rewrite last_snoc].
    - exists h1. destruct xs1; [|done]. done.
    - destruct (dseg_last_next h1 None ps1 p1 _ (first ps2 None) xs1 Hnd1 D1) as (v & Hv & Hd).
      exists (<[p1 := with_Next v (first ps2 None)]> h1). split; [by rewrite (set_Next_at p1 _ (set_heap h1 q) v)|]. split; [done|]. intros r Hr. rewrite lookup_insert_ne; [done|]. set_solver. }
  destruct Hs2 as (h2 & E2 & D1' & F2). exists h1, h2. split; [done|]. split; [done|]. split.
  - apply dseg_app; [by eapply dseg_length|]. split; [done|]. eapply dseg_frame; [exact D2|]. intros r Hr. apply F2. set_solver.
  - intros r Hr. rewrite F2, F1; [done|set_solver..].
Qed.

(** ** The list a linked queue holds *)

(** [stale] are the keys, with their items, that [Remove] left in the index. *)
Record lq_nodes (q : LinkedQueue) (ps : list nat) (l : list (K * A)) (stale : gmap K A) : Prop := {
  ln_nodup : NoDup ps;
  ln_head : lq_Head q = first ps None;
  ln_tail : lq_Tail q = final None ps;
  ln_seg : dseg (lq_heap q) None ps None l;
  ln_keys : NoDup l.*1;
  ln_index : forall i k x p, l !! i = Some (k, x) -> ps !! i = Some p -> lq_keyMap q !! k = Some p;
  ln_stale : forall k, k ∉ l.*1 ->
    match lq_keyMap q !! k with
    | Some p => p ∉ ps /\ exists x, lq_heap q !! p = Some (mkItem None k x None) /\ stale !! k = Some x
    | None => stale !! k = None
    end;
  ln_live : forall k, k ∈ l.*1 -> stale !! k = None;
  ln_alloc : forall p, lq_alloc q <= p -> lq_heap q !! p = None
}.

Definition lq_holds (q : LinkedQueue) (s : list (K * A) * gmap K A) : Prop := exists ps, lq_nodes q ps s.1 s.2.

(** The operations on such a list. *)
Definition spec_Push (k : K) (x : A) (s : list (K * A) * gmap K A) : list (K * A) * gmap K A :=
  (s.1 ++ [(k, x)], delete k s.2).
Definition spec_Pop (s : list (K * A) * gmap K A) : option A * (list (K * A) * gmap K A) :=
  (snd <$> head s.1, (tail s.1, s.2)).
Definition spec_Remove (k : K) (s : list (K * A) * gmap K A) : option A * (list (K * A) * gmap K A) :=
  match s.1 with
  | [] => (None, s)
  | _ =>
      match (list_to_map s.1 : gmap K A) !! k with
      | Some x => (Some x, (base.filter (fun e => e.1 <> k) s.1, <[k := x]> s.2))
      | None => (s.2 !! k, s)
      end
  end.

Lemma NewLinkedQueue_holds : lq_holds NewLinkedQueue ([], ∅).
Proof. exists []. split; cbn; try done; apply NoDup_nil_2. Qed.

Lemma keys_not_in (ps : list nat) h pp qn l p : dseg h pp ps qn l -> h !! p = None -> p ∉ ps.
Proof.
  intros Hd Hn Hp. apply list_elem_of_lookup_1 in Hp as [i Hi]. pose proof (dseg_length _ _ _ _ _ Hd) as Hl.
  destruct (lookup_lt_is_Some_2 l i) as [[k x] Hx]; [rewrite <- Hl; by eapply lookup_lt_Some|].
  destruct (dseg_split _ _ _ _ _ _ _ _ Hd Hx) as (ps1 & p' & ps2 & xs1 & xs2 & -> & -> & Hl1 & _ & _ & Hp & _).
  rewrite lookup_app_r in Hi by lia. rewrite Hl1, Nat.sub_diag in Hi. cbn in Hi. congruence.
Qed.

(** A new node at the end. *)
Lemma nodes_push q ps l st k x h' : lq_nodes q ps l st -> k ∉ l.*1 ->
  dseg h' None (ps ++ [lq_alloc q]) None (l ++ [(k, x)]) ->
  (forall r, r ∉ ps ++ [lq_alloc q] -> h' !! r = lq_heap q !! r) ->
  lq_nodes (mkLinked h' (S (lq_alloc q)) (first (ps ++ [lq_alloc q]) None) (Some (lq_alloc q)) (<[k := lq_alloc q]> (lq_keyMap q)))
    (ps ++ [lq_alloc q]) (l ++ [(k, x)]) (delete k st).
Proof.
  intros [Hnd Hh Ht Hs Hk Hi Hst Hlv Ha] Hnew Hd Hf. set (p := lq_alloc q) in *.
  assert (Hp : p ∉ ps) by (eapply keys_not_in; [exact Hs|]; by apply Ha).
  pose proof (dseg_length _ _ _ _ _ Hs) as Hl. split; cbn [lq_heap lq_alloc lq_Head lq_Tail lq_keyMap].
  - apply NoDup_app. split_and!; [done| |apply NoDup_singleton]. set_solver.
  - done.
  - unfold final. by rewrite last_snoc.
  - done.
  - rewrite fmap_app. apply NoDup_app. split_and!; [done| |apply NoDup_singleton]. cbn. set_solver.
  - intros i k' x' p' Hl' Hp'. apply lookup_app_Some in Hl' as [Hl'|[Hge Hl']].
    + rewrite lookup_app_l in Hp' by (rewrite Hl; by eapply lookup_lt_Some).
      rewrite lookup_insert_ne; [by eapply Hi|]. intros ->. apply Hnew. eapply (list_elem_of_fmap_2' fst); [by eapply list_elem_of_lookup_2|done].
    + rewrite lookup_app_r in Hp' by lia. rewrite Hl in Hp'. apply list_lookup_singleton_Some in Hl' as [Hz [= <- <-]].
      rewrite Hz in Hp'. injection Hp' as <-. apply lookup_insert_eq.
  - intros k' Hk'. rewrite fmap_app in Hk'. cbn in Hk'. assert (k' <> k) by set_solver.
    rewrite lookup_insert_ne, lookup_delete_ne by done. specialize (Hst k' ltac:(set_solver)).
    destruct (lq_keyMap q !! k') as [p'|]; [|done]. destruct Hst as (Hp' & x' & Hx & Hs').
    assert (p' <> p) by (intros ->; rewrite Ha in Hx by done; done). split; [set_solver|]. exists x'.
    rewrite Hf by set_solver. done.
  - intros k' Hk'. destruct (decide (k' = k)) as [->|]; [apply lookup_delete_eq|]. rewrite lookup_delete_ne by done.
    apply Hlv. rewrite fmap_app in Hk'. cbn in Hk'. set_solver.
  - intros r Hr. destruct (decide (r ∈ ps ++ [p])) as [Hin|]; [|rewrite Hf by done; apply Ha; lia].
    exfalso. apply elem_of_app in Hin as [Hin|Hin%list_elem_of_singleton]; [|lia].
    apply (keys_not_in ps (lq_heap q) None None l r Hs); [apply Ha; lia|done].
Qed.

Lemma lq_Push_holds q s k x : lq_holds q s -> k ∉ s.1.*1 ->
  exists q', lq_Push k x q = (Ok tt, q') /\ lq_holds q' (spec_Push k x s).
Proof.
  destruct s as [l st]. intros (ps & Hq) Hnew. pose proof Hq as [Hnd Hh Ht Hs Hk Hi Hst Hlv Ha]. cbn [fst snd] in *.
  set (p := lq_alloc q) in *. pose proof (dseg_length _ _ _ _ _ Hs) as Hl.
  assert (Hp : p ∉ ps) by (eapply keys_not_in; [exact Hs|]; by apply Ha).
  assert (Hs0 : dseg (<[p := mkItem None k x None]> (lq_heap q)) None ps None l).
  { eapply dseg_frame; [exact Hs|]. intros r Hr. rewrite lookup_insert_ne; [done|]. by intros <-. }
  unfold lq_Push. erewrite bind_ok by reflexivity. fold p. erewrite bind_ok by reflexivity. cbn [lq_Head]. rewrite Hh.
  destruct ps as [|t ps0 _] using rev_ind.
  - destruct l; [|done]. cbn [first]. eexists. split; [reflexivity|]. exists [p].
    apply (nodes_push q [] [] st k x); [done..| |].
    + cbn. by rewrite lookup_insert_eq.
    + intros r Hr. cbn. rewrite lookup_insert_ne; [done|]. set_solver.
  - assert (Hsome : exists z, first (ps0 ++ [t]) None = Some z) by (destruct ps0; eauto). destruct Hsome as [z Hz]. rewrite Hz.
    assert (Htl : final None (ps0 ++ [t]) = Some t) by (unfold final; by rewrite last_snoc). rewrite Htl in Ht.
    set (q1 := mkLinked _ _ _ _ _). destruct (dseg_last_next _ None ps0 t None (Some p) l Hnd Hs0) as (v & Hv & Hd).
    assert (Htp : t <> p) by (intros ->; apply Hp; set_solver).
    eexists. split.
    { erewrite bind_ok; [reflexivity|]. erewrite bind_ok by reflexivity. change (lq_Tail q1) with (lq_Tail q). rewrite Ht.
      erewrite bind_ok by (apply (set_Prev_at p _ q1); apply lookup_insert_eq).
      erewrite bind_ok; [reflexivity|]. apply (set_Next_at t). cbn. rewrite lookup_insert_ne by done. exact Hv. }
    exists ((ps0 ++ [t]) ++ [p]). set (nd := mkItem None k x None) in *.
    pose (h' := <[t := with_Next v (Some p)]> (<[p := with_Prev nd (Some t)]> (<[p := nd]> (lq_heap q)))).
    refine (eq_rect _ (fun r => lq_nodes r _ _ _) (nodes_push q _ l st k x h' Hq Hnew _ _) _ _); unfold h'.
    + apply dseg_app; [done|]. cbn [first dseg]. rewrite Htl. split.
      * eapply dseg_frame; [exact Hd|]. intros r Hr. destruct (decide (r = t)) as [->|]; [by rewrite !lookup_insert_eq|].
        assert (r <> p) by (intros ->; done). by rewrite !lookup_insert_ne.
      * rewrite lookup_insert_ne by done. rewrite lookup_insert_eq. done.
    + intros r Hr. rewrite !lookup_insert_ne by set_solver. done.
    + fold p. assert (Hf : first ((ps0 ++ [t]) ++ [p]) None = Some z) by (rewrite <- Hz; by destruct ps0). by rewrite Hf.
Qed.

(** A node taken out, its links cut. *)
Lemma nodes_cut q ps1 p ps2 xs1 k x xs2 st st' h' km :
  lq_nodes q (ps1 ++ p :: ps2) (xs1 ++ (k, x) :: xs2) st -> length ps1 = length xs1 ->
  dseg h' None (ps1 ++ ps2) None (xs1 ++ xs2) ->
  (forall r, r ∉ ps1 ++ p :: ps2 -> h' !! r = lq_heap q !! r) -> h' !! p = Some (mkItem None k x None) ->
  (forall k', k' <> k -> km !! k' = lq_keyMap q !! k' /\ st' !! k' = st !! k') ->
  (km !! k = None /\ st' !! k = None \/ km !! k = Some p /\ st' !! k = Some x) ->
  lq_nodes (mkLinked h' (lq_alloc q) (first (ps1 ++ ps2) None) (final None (ps1 ++ ps2)) km) (ps1 ++ ps2) (xs1 ++ xs2) st'.
Proof.
  intros [Hnd Hh Ht Hs Hk Hi Hst Hlv Ha] Hl Hd Hf Hp Hkm Hkk.
  assert (Hkeys : (xs1 ++ (k, x) :: xs2).*1 = xs1.*1 ++ k :: xs2.*1) by (by rewrite fmap_app). rewrite Hkeys in *.
  pose proof Hnd as (Hnd1 & Hdis & Hnd2)%NoDup_app. apply NoDup_cons in Hnd2 as [Hp2 Hnd2].
  pose proof Hk as (Hk1 & Hkd & Hk2)%NoDup_app. apply NoDup_cons in Hk2 as [Hkx Hk2].
  assert (Hsub : forall r, r ∈ ps1 ++ ps2 -> r ∈ ps1 ++ p :: ps2) by set_solver.
  assert (Hpp : p ∉ ps1 ++ ps2) by (specialize (Hdis p); set_solver).
  assert (Hkk' : k ∉ (xs1 ++ xs2).*1) by (rewrite fmap_app; specialize (Hkd k); set_solver).
  split; cbn [lq_heap lq_alloc lq_Head lq_Tail lq_keyMap]; [|done|done|done|..].
  - apply NoDup_app. split_and!; [done| |done]. set_solver.
  - rewrite fmap_app. apply NoDup_app. split_and!; [done| |done]. set_solver.
  - intros i k' x' p' Hl' Hp'. assert (k' <> k).
    { intros ->. apply Hkk'. eapply (list_elem_of_fmap_2' fst); [by eapply list_elem_of_lookup_2|done]. }
    rewrite (proj1 (Hkm k' ltac:(done))). destruct (decide (i < length xs1)).
    + apply (Hi i k' x' p'); [rewrite lookup_app_l in Hl' |- * by lia|rewrite lookup_app_l in Hp' |- * by lia]; done.
    + rewrite lookup_app_r in Hl' by lia. rewrite lookup_app_r in Hp' by lia. apply (Hi (S i) k' x' p').
      * rewrite lookup_app_r by lia. replace (S i - length xs1) with (S (i - length xs1)) by lia. done.
      * rewrite lookup_app_r by lia. replace (S i - length ps1) with (S (i - length ps1)) by lia. done.
  - intros k' Hk'. destruct (decide (k' = k)) as [->|Hne].
    + destruct Hkk as [[-> ->]|[-> ->]]; [done|]. split; [done|]. by exists x.
    + destruct (Hkm k' Hne) as [-> ->]. rewrite fmap_app in Hk'. specialize (Hst k' ltac:(set_solver)).
      destruct (lq_keyMap q !! k') as [p'|]; [|done]. destruct Hst as (Hp' & x' & Hx & Hs').
      split; [set_solver|]. exists x'. by rewrite Hf.
  - intros k' Hk'. assert (k' <> k) by (by intros ->). rewrite (proj2 (Hkm k' ltac:(done))). apply Hlv.
    rewrite fmap_app in Hk'. set_solver.
  - intros r Hr. pose proof (Ha r Hr) as Hn. rewrite Hf; [done|]. by eapply keys_not_in.
Qed.

Lemma lq_Pop_holds q s : lq_holds q s -> exists q', lq_Pop q = (Ok (spec_Pop s).1, q') /\ lq_holds q' (spec_Pop s).2.
Proof.
  destruct s as [l st]. intros (ps & Hq). pose proof Hq as [Hnd Hh Ht Hs Hk Hi Hst Hlv Ha]. cbn [fst snd] in *.
  unfold lq_Pop, spec_Pop. erewrite bind_ok by reflexivity. rewrite Hh.
  destruct ps as [|p ps], l as [|[k x] l]; try done. { eexists. split; [reflexivity|]. by exists []. }
  cbn [first head tail fst snd fmap option_fmap option_map]. erewrite bind_ok by reflexivity. rewrite Ht.
  pose proof Hs as [Hp Hd]. apply NoDup_cons in Hnd as [Hpn Hnd].
  assert (Hstep : exists h', (if bool_decide (Some p = final None (p :: ps)) then modify (set_Head None) ;;; modify (set_Tail None)
       else let! v := deref (Some p) in modify (set_Head (li_Next v)) ;;; set_Prev (li_Next v) None) q
      = (Ok tt, mkLinked h' (lq_alloc q) (first ps None) (final None ps) (lq_keyMap q)) /\
      dseg h' None ps None l /\ (forall r, r ∉ ps -> h' !! r = lq_heap q !! r)).
  { destruct ps as [|p2 ps].
    - exists (lq_heap q). rewrite bool_decide_eq_true_2 by done. destruct l; [|done]. done.
    - rewrite bool_decide_eq_false_2.
      + destruct (dseg_first_prev _ _ None p2 ps None l Hnd Hd) as (v & Hv & Hd'). eexists. split; [|split; [exact Hd'|]].
        * erewrite bind_ok by (by apply deref_at). erewrite bind_ok by reflexivity. cbn [li_Next first].
          rewrite (set_Prev_at p2 _ _ v) by done. unfold set_heap, set_Head. cbn. rewrite Ht. by rewrite !final_cons.
        * intros r Hr. rewrite lookup_insert_ne; [done|]. set_solver.
      + rewrite final_cons. intros E. by apply final_only in E. }
  destruct Hstep as (h' & E & Hd' & Hf). erewrite bind_ok by exact E. clear E.
  assert (Hp' : h' !! p = Some (mkItem None k x (first ps None))) by (by rewrite Hf).
  erewrite bind_ok by (by apply set_Prev_at). erewrite bind_ok by (apply set_Next_at; apply lookup_insert_eq).
  erewrite bind_ok by (apply deref_at; apply lookup_insert_eq).
  eexists. split; [reflexivity|]. exists ps.
  apply (nodes_cut q [] p ps [] k x l st st); [done|done| | | | |].
  - cbn. eapply dseg_frame; [exact Hd'|]. intros r Hr. rewrite !lookup_insert_ne by (intros ->; done). done.
  - cbn. intros r Hr. rewrite !lookup_insert_ne by set_solver. apply Hf. set_solver.
  - cbn. rewrite lookup_insert_eq. done.
  - intros k' Hk'. cbn. by rewrite lookup_delete_ne.
  - left. cbn. rewrite lookup_delete_eq. split; [done|]. apply Hlv. set_solver.
Qed.

Lemma filter_cut (xs1 xs2 : list (K * A)) k x : NoDup (xs1 ++ (k, x) :: xs2).*1 ->
  base.filter (fun e => e.1 <> k) (xs1 ++ (k, x) :: xs2) = xs1 ++ xs2.
Proof.
  rewrite fmap_app. cbn. intros (_ & Hd & Hn)%NoDup_app. apply NoDup_cons in Hn as [Hn _].
  rewrite filter_app, filter_cons_False by (cbn; tauto).
  assert (Hall : forall xs : list (K * A), k ∉ xs.*1 -> base.filter (fun e => e.1 <> k) xs = xs).
  { intros xs Hk. apply filter_all, Forall_forall. intros e He Hek. apply Hk. rewrite <- Hek. by apply list_elem_of_fmap_2. }
  rewrite !Hall; [done|done|]. specialize (Hd k). set_solver.
Qed.

(** Removing a key that is in the list cuts its node out. *)
Lemma lq_Remove_live q ps xs1 k x xs2 st p ps1 ps2 :
  lq_nodes q ps (xs1 ++ (k, x) :: xs2) st -> ps = ps1 ++ p :: ps2 -> length ps1 = length xs1 ->
  exists q', lq_Remove k q = (Ok (Some x), q') /\ lq_holds q' (xs1 ++ xs2, <[k := x]> st).
Proof.
  intros Hq -> Hl. pose proof Hq as [Hnd Hh Ht Hs Hk Hi Hst Hlv Ha].
  pose proof Hs as (Hd1 & Hp & Hd2)%dseg_app; [|done]. cbn [first] in *.
  assert (Hkm : lq_keyMap q !! k = Some p).
  { apply (Hi (length xs1) k x p); [by rewrite list_lookup_middle|by rewrite <- Hl, list_lookup_middle]. }
  destruct (relink q ps1 p ps2 xs1 xs2 Hnd Hd1 Hd2) as (h1 & h2 & E1 & E2 & Hd & Hf).
  pose proof Hnd as (Hnd1 & Hdis & Hnd2)%NoDup_app. apply NoDup_cons in Hnd2 as [Hp2 Hnd2].
  assert (Hpp : p ∉ ps1 ++ ps2) by (specialize (Hdis p); set_solver).
  unfold lq_Remove. erewrite bind_ok by reflexivity. assert (exists z, lq_Head q = Some z) as [z Ez].
  { rewrite Hh. destruct ps1; eauto. } rewrite Ez. erewrite bind_ok by reflexivity. rewrite Hkm.
  erewrite bind_ok by (by apply deref_at). cbn [li_Next li_Prev li_Item]. erewrite bind_ok by exact E1. erewrite bind_ok by exact E2.
  erewrite bind_ok by reflexivity.
  assert (Eh : (if bool_decide (Some p = lq_Head (set_heap h2 q)) then modify (set_Head (first ps2 None)) else ret tt) (set_heap h2 q)
    = (Ok tt, set_Head (first (ps1 ++ ps2) None) (set_heap h2 q))).
  { cbn [lq_Head set_heap]. rewrite Hh. destruct ps1 as [|p1 ps1]; cbn [app first].
    - by rewrite bool_decide_eq_true_2.
    - rewrite bool_decide_eq_false_2 by (intros [= ->]; set_solver). cbn [first app] in Hh. unfold set_Head, set_heap. cbn. by rewrite <- Hh. }
  erewrite bind_ok by exact Eh. erewrite bind_ok by reflexivity.
  assert (Et : (if bool_decide (Some p = lq_Tail q) then modify (set_Tail (final None ps1)) else ret tt) (set_Head (first (ps1 ++ ps2) None) (set_heap h2 q))
    = (Ok tt, mkLinked h2 (lq_alloc q) (first (ps1 ++ ps2) None) (final None (ps1 ++ ps2)) (lq_keyMap q))).
  { rewrite Ht, final_app_cons. destruct ps2 as [|p2 ps2].
    - rewrite bool_decide_eq_true_2 by done. by rewrite app_nil_r.
    - rewrite bool_decide_eq_false_2 by (intros E; by apply final_only in E).
      unfold set_Head, set_heap. cbn. by rewrite Ht, !final_app_cons, final_cons. }
  erewrite bind_ok by exact Et.
  assert (Hp' : h2 !! p = Some (mkItem (final None ps1) k x (first ps2 None))) by (by rewrite Hf).
  erewrite bind_ok by (by apply set_Prev_at). erewrite bind_ok by (apply set_Next_at; apply lookup_insert_eq).
  eexists. split; [reflexivity|]. exists (ps1 ++ ps2). apply (nodes_cut q ps1 p ps2 xs1 k x xs2 st); [done|done| | | | |].
  - cbn. eapply dseg_frame; [exact Hd|]. intros r Hr. rewrite !lookup_insert_ne by (intros ->; done). done.
  - cbn. intros r Hr. rewrite !lookup_insert_ne by set_solver. apply Hf. set_solver.
  - cbn. rewrite lookup_insert_eq. done.
  - intros k' Hk'. cbn. by rewrite lookup_insert_ne.
  - right. cbn. by rewrite lookup_insert_eq.
Qed.

Lemma lq_Remove_holds q s k : lq_holds q s ->
  exists q', lq_Remove k q = (Ok (spec_Remove k s).1, q') /\ lq_holds q' (spec_Remove k s).2.
Proof.
  destruct s as [l st]. intros (ps & Hq). pose proof Hq as [Hnd Hh Ht Hs Hk Hi Hst Hlv Ha]. cbn [fst snd] in *.
  unfold spec_Remove. cbn [fst snd]. destruct l as [|e l'] eqn:El; [|rewrite <- El in *].
  { destruct ps; [|done]. cbn in Hh. eexists. unfold lq_Remove. erewrite bind_ok by reflexivity. rewrite Hh. split; [done|]. by exists []. }
  destruct (list_to_map l !! k) as [x|] eqn:Ek.
  - apply elem_of_list_to_map_2, list_elem_of_lookup_1 in Ek as [i Hx].
    destruct (dseg_split _ _ _ _ _ _ _ _ Hs Hx) as (ps1 & p & ps2 & xs1 & xs2 & Hps & Hxs & Hl1 & Hl2 & _).
    destruct (lq_Remove_live q ps xs1 k x xs2 st p ps1 ps2) as (q' & Hr & Hq'); [by rewrite <- Hxs|done|lia|].
    exists q'. split; [done|]. rewrite Hxs, filter_cut by (by rewrite <- Hxs). done.
  - apply not_elem_of_list_to_map_2 in Ek. specialize (Hst k Ek).
    assert (exists z, lq_Head q = Some z) as [z Ez]. { rewrite Hh. destruct ps; [by subst l|]. eauto. }
    unfold lq_Remove. erewrite bind_ok by reflexivity. rewrite Ez. erewrite bind_ok by reflexivity.
    destruct (lq_keyMap q !! k) as [p|] eqn:Ekm; [|eexists; split; [by rewrite Hst|by exists ps]].
    destruct Hst as (Hp & x & Hx & Hs'). erewrite bind_ok by (by apply deref_at). cbn [li_Next li_Prev li_Item].
    repeat (erewrite bind_ok by reflexivity). rewrite bool_decide_eq_false_2.
    2:{ rewrite Hh. destruct ps; [done|]. cbn. intros [= ->]. set_solver. }
    repeat (erewrite bind_ok by reflexivity). rewrite bool_decide_eq_false_2.
    2:{ rewrite Ht. unfold final. destruct (last ps) as [t|] eqn:Et; [|done]. intros [= ->]. apply Hp. by apply last_Some_elem_of. }
    repeat (erewrite bind_ok by reflexivity). erewrite bind_ok by (by apply set_Prev_at).
    erewrite bind_ok by (apply set_Next_at; apply lookup_insert_eq). eexists. split; [cbn; by rewrite Hs'|].
    exists ps. cbn. rewrite insert_insert_eq, insert_id by exact Hx. by destruct q.
Qed.

(** ** Any use of a linked queue *)

Inductive lop := LPush (k : K) (x : A) | LPop | LRemove (k : K).

Definition run_lop (q : LinkedQueue) (op : lop) : res (option A) * LinkedQueue :=
  match op with
  | LPush k x => (lq_Push k x ;;; ret None) q
  | LPop => lq_Pop q
  | LRemove k => lq_Remove k q
  end.

Definition spec_lop (s : list (K * A) * gmap K A) (op : lop) : res (option A) * (list (K * A) * gmap K A) :=
  match op with
  | LPush k x => (Ok None, spec_Push k x s)
  | LPop => let '(x, s) := spec_Pop s in (Ok x, s)
  | LRemove k => let '(x, s) := spec_Remove k s in (Ok x, s)
  end.

(** No key is pushed that the list still holds. *)
Fixpoint fresh_keys (s : list (K * A) * gmap K A) (ops : list lop) : Prop :=
  match ops with
  | [] => True
  | op :: ops => match op with LPush k _ => k ∉ s.1.*1 | _ => True end /\ fresh_keys (spec_lop s op).2 ops
  end.

Lemma run_lop_holds q s op : lq_holds q s -> match op with LPush k _ => k ∉ s.1.*1 | _ => True end ->
  (run_lop q op).1 = (spec_lop s op).1 /\ lq_holds (run_lop q op).2 (spec_lop s op).2.
Proof.
  intros Hq Hop. destruct op as [k x| |k]; cbn [run_lop spec_lop].
  - destruct (lq_Push_holds q s k x Hq Hop) as (q' & E & Hq'). by rewrite (bind_ok _ _ _ _ _ E).
  - destruct (lq_Pop_holds q s Hq) as (q' & -> & Hq'). by destruct (spec_Pop s).
  - destruct (lq_Remove_holds q s k Hq) as (q' & -> & Hq'). by destruct (spec_Remove k s).
Qed.

(** On every sequence of [Push], [Pop] and [Remove] in which no key is pushed
    while the queue holds it, the linked queue never dereferences nil and
    answers as a list of keyed items does, [Remove] taking out the item of its
    key; the one difference is that a removed key stays in the index: removed
    again while the queue is not empty, it gives its old item once more. *)
Lemma linked_queue_refines (ops : list lop) :
  fresh_keys ([], ∅) ops -> outputs run_lop NewLinkedQueue ops = outputs spec_lop ([], ∅) ops.
Proof.
  generalize NewLinkedQueue_holds. generalize NewLinkedQueue (([], ∅) : list (K * A) * gmap K A).
  induction ops as [|op ops IH]; intros q s Hq Hops; [done|]. destruct Hops as [Hop Hops]. cbn [outputs].
  destruct (run_lop_holds q s op Hq Hop) as [Ho Hn]. destruct (run_lop q op) as [r q'], (spec_lop s op) as [r' s'].
  cbn in *. subst r'. f_equal. by apply IH.
Qed.
End Linked.
Arguments linkedItem : clear implicits.
Arguments LinkedQueue K A {_ _}.

Lemma linked_queue_refines_witness :
  outputs run_lop NewLinkedQueue [LPush 1 10; LPush 2 20; LPush 3 30; LRemove 2; LRemove 2; LPop; LPop; LPop]
  = [Ok None; Ok None; Ok None; Ok (Some 20); Ok (Some 20); Ok (Some 10); Ok (Some 30); Ok None].
Proof.
  rewrite linked_queue_refines; [reflexivity|].
  cbn -[elem_of]. repeat split; cbn -[elem_of]; apply (bool_decide_unpack _); reflexivity.
Defined.
