(* ===== verification/ExpireQueue.v ===== *)
(** * The expire queue

    [common/queue/expire.go]: an item goes through the groups of the queue, staying
    in each for the interval of the group; when its time in a group is over the
    handlers are told.  The goroutine of a group works in three steps, and the lock
    is released between them: it collects what has expired, calls the handlers, and
    moves the items to the next group.  The steps of all goroutines and the calls of
    [Push] and [Remove] interleave. *)

From stdpp Require Import base gmap list strings relations.
From Stdlib Require Import ZArith Lia.
From S2P Require Import Prelude.

Section Expire.
Context {A : Type}.

(** ** The code *)

Record groupItem := mkGroupItem { gi_expiredAt : Z; gi_item : A }.
Record group := mkGroup { g_Interval : Z; g_itemMap : gmap bytes groupItem }.

(** Where the goroutine of a group is: it holds expired items before or after the
    calls of the handlers; [IsLast] is read before the calls. *)
Inductive phase := Collected (expiredMap : gmap bytes A) | Called (IsLast : bool) (expiredMap : gmap bytes A).

(** The queue, its goroutines and the calls made: the group, the key, [IsLast]. *)
Record ExpireQueue := mkExpire {
  eq_groups : list group;
  eq_running : gmap nat phase;
  eq_calls : list (nat * bytes * bool)
}.

Definition NewExpireQueue : ExpireQueue := mkExpire [] ∅ [].
Definition set_groups (gs : list group) (q : ExpireQueue) : ExpireQueue := mkExpire gs (eq_running q) (eq_calls q).
Definition set_items (m : gmap bytes groupItem) (g : group) : group := mkGroup (g_Interval g) m.

Definition AddGroup (interval : Z) (q : ExpireQueue) : ExpireQueue := set_groups (eq_groups q ++ [mkGroup interval ∅]) q.
Definition eq_Size (q : ExpireQueue) : nat := sum_list (size ∘ g_itemMap <$> eq_groups q).

(** An item enters a group at the time [now]. *)
Definition enter (now : Z) (key : bytes) (item : A) (g : group) : group :=
  set_items (<[key := mkGroupItem (now + g_Interval g) item]> (g_itemMap g)) g.

(** [q.groups[0]] panics when there is no group. *)
Definition eq_Push (now : Z) (key : bytes) (item : A) (q : ExpireQueue) : res ExpireQueue :=
  match eq_groups q with
  | [] => Panic "index out of range"
  | g :: gs => Ok (set_groups (enter now key item g :: gs) q)
  end.

Definition eq_Remove (key : bytes) (q : ExpireQueue) : ExpireQueue :=
  set_groups ((fun g => set_items (delete key (g_itemMap g)) g) <$> eq_groups q) q.

(** The first part of the turn of the goroutine [idx]: nothing more happens in this
    turn when nothing has expired. *)
Definition collect (idx : nat) (now : Z) (q : ExpireQueue) : ExpireQueue :=
  match eq_groups q !! idx with
  | Some g =>
      let expiredMap := gi_item <$> filter (fun kv => gi_expiredAt kv.2 <= now) (g_itemMap g) in
      let q := set_groups (<[idx := set_items (filter (fun kv => ~ gi_expiredAt kv.2 <= now) (g_itemMap g)) g]> (eq_groups q)) q in
      if bool_decide (expiredMap = ∅) then q
      else mkExpire (eq_groups q) (<[idx := Collected expiredMap]> (eq_running q)) (eq_calls q)
  | None => q
  end.

(** The second part: the calls of one handler. *)
Definition call (idx : nat) (expiredMap : gmap bytes A) (q : ExpireQueue) : ExpireQueue :=
  let IsLast := (idx + 1 =? length (eq_groups q))%nat in
  mkExpire (eq_groups q) (<[idx := Called IsLast expiredMap]> (eq_running q))
    (eq_calls q ++ ((fun kv => (idx, kv.1, IsLast)) <$> map_to_list expiredMap)).

(** The third part. *)
Definition forward (idx : nat) (now : Z) (IsLast : bool) (expiredMap : gmap bytes A) (q : ExpireQueue) : ExpireQueue :=
  mkExpire
    (if IsLast then eq_groups q
     else alter (fun g => map_fold (enter now) g expiredMap) (idx + 1)%nat (eq_groups q))
    (delete idx (eq_running q)) (eq_calls q).

(** What may happen; the label is the key that is pushed or removed. *)
Inductive estep : option bytes -> ExpireQueue -> ExpireQueue -> Prop :=
  | do_push now key item q q' : eq_Push now key item q = Ok q' -> estep (Some key) q q'
  | do_remove key q : estep (Some key) q (eq_Remove key q)
  | do_collect idx now q : eq_running q !! idx = None -> estep None q (collect idx now q)
  | do_call idx m q : eq_running q !! idx = Some (Collected m) -> estep None q (call idx m q)
  | do_forward idx now b m q : eq_running q !! idx = Some (Called b m) -> estep None q (forward idx now b m q).

(** Steps that neither push nor remove [k]. *)
Definition esteps (k : bytes) : ExpireQueue -> ExpireQueue -> Prop := rtc (fun q q' => exists l, l <> Some k /\ estep l q q').

(** ** Where a key is *)

Inductive place := InGroup (i : nat) | InCollected (i : nat) | InCalled (i : nat) | Gone.

Definition in_group (k : bytes) (i : nat) (q : ExpireQueue) : Prop := exists g, eq_groups q !! i = Some g /\ is_Some (g_itemMap g !! k).
Definition in_collected (k : bytes) (i : nat) (q : ExpireQueue) : Prop := exists m, eq_running q !! i = Some (Collected m) /\ is_Some (m !! k).
Definition in_called (k : bytes) (i : nat) (q : ExpireQueue) : Prop := exists b m, eq_running q !! i = Some (Called b m) /\ is_Some (m !! k).

(** The calls for a key, and what they should be after [j] groups of [n]. *)
Definition calls_of (k : bytes) (q : ExpireQueue) : list (nat * bool) :=
  (fun c => (c.1.1, c.2)) <$> filter (fun c => c.1.2 = k) (eq_calls q).
Definition expected (n j : nat) : list (nat * bool) := (fun i => (i, (i + 1 =? n)%nat)) <$> seq 0 j.

Definition called (n : nat) (p : place) : nat := match p with InGroup i | InCollected i => i | InCalled i => i + 1 | Gone => n end.

(** The key is in the one place [p] and has been called for the groups before. *)
Record tracked (k : bytes) (n : nat) (q : ExpireQueue) (p : place) : Prop := {
  tr_groups : length (eq_groups q) = n;
  tr_group i : in_group k i q <-> p = InGroup i;
  tr_collected i : in_collected k i q <-> p = InCollected i;
  tr_called i : in_called k i q <-> p = InCalled i;
  tr_running i ph : eq_running q !! i = Some ph -> (i < n)%nat;
  tr_last i b m : eq_running q !! i = Some (Called b m) -> b = (i + 1 =? n)%nat;
  tr_calls : calls_of k q = expected n (called n p)
}.

(** ** A key that is not touched moves forward *)

Lemma tracked_groups k n q p gs : tracked k n q p -> length gs = n ->
  (forall i, in_group k i (set_groups gs q) <-> in_group k i q) -> tracked k n (set_groups gs q) p.
Proof. intros [] Hl Hg. split; try done. intros i. by rewrite Hg. Qed.

Lemma tracked_push k n q p now key item q' : tracked k n q p -> key <> k -> eq_Push now key item q = Ok q' -> tracked k n q' p.
Proof.
  intros Ht Hne Hp. unfold eq_Push in Hp. destruct (eq_groups q) as [|g gs] eqn:Eg; [done|]. injection Hp as <-.
  apply tracked_groups; [done|by rewrite <- (tr_groups _ _ _ _ Ht), Eg|]. intros i. unfold in_group. cbn [eq_groups set_groups]. rewrite Eg.
  destruct i as [|i]; cbn; [|done]. split; intros (g' & [= <-] & Hg); eexists; (split; [done|]); cbn in *; by rewrite lookup_insert_ne in * by done.
Qed.

Lemma tracked_remove k n q p key : tracked k n q p -> key <> k -> tracked k n (eq_Remove key q) p.
Proof.
  intros Ht Hne. apply tracked_groups; [done|by rewrite length_fmap, (tr_groups _ _ _ _ Ht)|]. intros i. unfold in_group. cbn [eq_groups set_groups].
  rewrite list_lookup_fmap. split.
  - intros (g & (g0 & Hg & ->)%fmap_Some & Hk). exists g0. split; [done|]. cbn in Hk. by rewrite lookup_delete_ne in Hk.
  - intros (g & -> & Hk). eexists. split; [done|]. cbn. by rewrite lookup_delete_ne.
Qed.

Lemma in_group_insert k i idx g g' q : eq_groups q !! idx = Some g ->
  in_group k i (set_groups (<[idx := g']> (eq_groups q)) q) <-> if decide (i = idx) then is_Some (g_itemMap g' !! k) else in_group k i q.
Proof.
  intros Hg. pose proof (lookup_lt_Some _ _ _ Hg) as Hlt. unfold in_group. cbn [eq_groups set_groups]. destruct (decide (i = idx)) as [->|Hne].
  - rewrite list_lookup_insert_eq by done. naive_solver.
  - by rewrite list_lookup_insert_ne.
Qed.

Lemma group_lookup k n q p idx g : tracked k n q p -> eq_groups q !! idx = Some g -> is_Some (g_itemMap g !! k) <-> p = InGroup idx.
Proof.
  intros Ht Hg. rewrite <- (tr_group _ _ _ _ Ht). split; [by exists g|]. intros (g' & Hg' & Hk). congruence.
Qed.

(** The first part of a turn: the group [g] keeps [rest] and gives [expiredMap]. *)
Section Collect.
Context (k : bytes) (n : nat) (q : ExpireQueue) (p : place) (idx : nat) (g : group) (now : Z).
Context (Ht : tracked k n q p) (Hr : eq_running q !! idx = None) (Hg : eq_groups q !! idx = Some g).

Definition expired_of : gmap bytes A := gi_item <$> filter (fun kv => gi_expiredAt kv.2 <= now) (g_itemMap g).
Definition rest_of : group := set_items (filter (fun kv => ~ gi_expiredAt kv.2 <= now) (g_itemMap g)) g.

(** The key stays where it is, or it is in the group and has expired. *)
Lemma collect_cases :
  (expired_of !! k = None /\ (is_Some (g_itemMap rest_of !! k) <-> p = InGroup idx)) \/
  (is_Some (expired_of !! k) /\ g_itemMap rest_of !! k = None /\ p = InGroup idx).
Proof.
  pose proof (group_lookup _ _ _ _ _ _ Ht Hg) as Hp. unfold expired_of, rest_of. cbn. rewrite lookup_fmap.
  destruct (g_itemMap g !! k) as [it|] eqn:Ek; cbn.
  - assert (p = InGroup idx) as -> by (apply Hp; by eexists). destruct (decide (gi_expiredAt it <= now)).
    + right. erewrite map_lookup_filter_Some_2 by done. split; [by eexists|]. split; [|done]. apply map_lookup_filter_None. right. naive_solver.
    + left. split; [|split; [done|]; intros _; eexists; by apply map_lookup_filter_Some].
      apply fmap_None, map_lookup_filter_None. right. naive_solver.
  - left. split; [by apply fmap_None, map_lookup_filter_None; left|]. rewrite <- Hp. by rewrite (proj2 (map_lookup_filter_None _ _ _)) by (by left).
Qed.

Lemma in_called_running gs i ph : (forall b m, ph <> Called b m) ->
  in_called k i (mkExpire gs (<[idx := ph]> (eq_running q)) (eq_calls q)) <-> in_called k i q.
Proof.
  intros Hph. unfold in_called. cbn. destruct (decide (i = idx)) as [->|Hne]; [|by rewrite lookup_insert_ne].
  rewrite lookup_insert_eq, Hr. naive_solver.
Qed.

(** The second lock: the goroutine keeps what it found. *)
Lemma tracked_hold p' : (expired_of !! k = None /\ p' = p) \/ (is_Some (expired_of !! k) /\ p = InGroup idx /\ p' = InCollected idx) ->
  (forall i, in_group k i (set_groups (<[idx := rest_of]> (eq_groups q)) q) <-> p' = InGroup i) ->
  tracked k n (mkExpire (<[idx := rest_of]> (eq_groups q)) (<[idx := Collected expired_of]> (eq_running q)) (eq_calls q)) p'.
Proof.
  intros Hcase Hgroup. pose proof (lookup_lt_Some _ _ _ Hg) as Hlt. destruct Ht. rewrite tr_groups0 in Hlt. split; cbn.
  - by rewrite length_insert.
  - exact Hgroup.
  - intros i. unfold in_collected. cbn. pose proof (tr_collected0 i) as Hc. unfold in_collected in Hc. destruct (decide (i = idx)) as [->|Hne].
    + rewrite lookup_insert_eq, Hr in *. destruct Hcase as [[En ->]|(? & -> & ->)]; [|naive_solver]. rewrite <- Hc. split; [|naive_solver].
      intros (m & [= <-] & Hk). rewrite En in Hk. by destruct Hk.
    + rewrite lookup_insert_ne, Hc by done. destruct Hcase as [[_ ->]|(_ & -> & ->)]; naive_solver.
  - intros i. rewrite in_called_running, tr_called0 by done. destruct Hcase as [[_ ->]|(_ & -> & ->)]; naive_solver.
  - intros i ph. destruct (decide (i = idx)) as [->|Hne]; [done|rewrite lookup_insert_ne by done; apply tr_running0].
  - intros i b m. destruct (decide (i = idx)) as [->|Hne]; [by rewrite lookup_insert_eq|rewrite lookup_insert_ne by done; apply tr_last0].
  - transitivity (calls_of k q); [done|]. rewrite tr_calls0. f_equal. by destruct Hcase as [[_ ->]|(_ & -> & ->)].
Qed.

Lemma tracked_collect : exists p', tracked k n (collect idx now q) p'.
Proof.
  unfold collect. rewrite Hg. fold expired_of rest_of. pose proof (in_group_insert k) as Hin. destruct collect_cases as [[En Hk]|(Hs & Hn & Hp)].
  - exists p. assert (Hgroup : forall i, in_group k i (set_groups (<[idx := rest_of]> (eq_groups q)) q) <-> p = InGroup i).
    { intros i. rewrite (Hin _ _ g) by done. destruct (decide (i = idx)) as [->|]; [done|apply Ht]. }
    case_bool_decide; [|apply tracked_hold; [by left|done]]. apply tracked_groups; [done|rewrite length_insert; apply Ht|]. intros i. rewrite Hgroup. symmetry. apply Ht.
  - exists (InCollected idx). rewrite bool_decide_false by (intros E; rewrite E, lookup_empty in Hs; by destruct Hs).
    apply tracked_hold; [by right|]. intros i. rewrite (Hin _ _ g) by done. destruct (decide (i = idx)) as [->|Hne]; [rewrite Hn; split; [by intros []|done]|].
    rewrite (tr_group _ _ _ _ Ht), Hp. naive_solver.
Qed.
End Collect.

(** The calls for the key among the calls for a map. *)
Lemma calls_for (k : bytes) (idx : nat) (b : bool) (m : gmap bytes A) :
  (fun c => (c.1.1, c.2)) <$> filter (fun c : nat * bytes * bool => c.1.2 = k) ((fun kv => (idx, kv.1, b)) <$> map_to_list m) =
  if decide (is_Some (m !! k)) then [(idx, b)] else [].
Proof.
  induction m as [|k' x m Hk' IH] using map_ind.
  - rewrite map_to_list_empty. destruct (decide _) as [[? Hk]|]; [by rewrite lookup_empty in Hk|done].
  - assert (Hperm : forall l1 l2 : list (bytes * A), l1 ≡ₚ l2 ->
      (fun c => (c.1.1, c.2)) <$> filter (fun c : nat * bytes * bool => c.1.2 = k) ((fun kv => (idx, kv.1, b)) <$> l1) ≡ₚ
      (fun c => (c.1.1, c.2)) <$> filter (fun c : nat * bytes * bool => c.1.2 = k) ((fun kv => (idx, kv.1, b)) <$> l2)) by (by intros ? ? ->).
    specialize (Hperm _ _ (map_to_list_insert m k' x Hk')). rewrite fmap_cons, filter_cons in Hperm. cbn in Hperm.
    destruct (decide (k' = k)) as [->|Hne].
    + rewrite lookup_insert_eq, decide_True by eauto. cbn in Hperm. rewrite IH, decide_False in Hperm by (rewrite Hk'; by intros []).
      by apply Permutation_singleton_r in Hperm.
    + rewrite lookup_insert_ne by done. rewrite IH in Hperm. destruct (decide _); [by apply Permutation_singleton_r in Hperm|by apply Permutation_nil_r in Hperm].
Qed.

Lemma expected_S n j : expected n j ++ [(j, (j + 1 =? n)%nat)] = expected n (j + 1).
Proof. unfold expected. rewrite seq_app, fmap_app. done. Qed.

Lemma running_at k n q p idx ph : tracked k n q p -> eq_running q !! idx = Some ph ->
  match ph with Collected m => is_Some (m !! k) <-> p = InCollected idx | Called b m => is_Some (m !! k) <-> p = InCalled idx end.
Proof.
  intros Ht Hr. destruct ph as [m|b m].
  - rewrite <- (tr_collected _ _ _ _ Ht). split; [by exists m|]. intros (m' & Hm & Hk). congruence.
  - rewrite <- (tr_called _ _ _ _ Ht). split; [by exists b, m|]. intros (b' & m' & Hm & Hk). congruence.
Qed.

(** The second part. *)
Lemma tracked_call k n q p idx m : tracked k n q p -> eq_running q !! idx = Some (Collected m) -> exists p', tracked k n (call idx m q) p'.
Proof.
  intros Ht Hr. pose proof (running_at _ _ _ _ _ _ Ht Hr) as Hp. cbn in Hp.
  set (p' := if decide (is_Some (m !! k)) then InCalled idx else p). exists p'.
  assert (Hcase : (m !! k = None /\ p' = p /\ p <> InCollected idx) \/ (is_Some (m !! k) /\ p = InCollected idx /\ p' = InCalled idx)).
  { unfold p'. destruct (decide _) as [Hs|Hn]; [right; split_and!; [done|by apply Hp|done]|left; split_and!; [|done|by intros Hpp%Hp]]. by apply eq_None_not_Some. }
  pose proof (tr_called _ _ _ _ Ht idx) as Hcl. unfold in_called in Hcl. rewrite Hr in Hcl.
  destruct Ht. unfold call. rewrite tr_groups0. split; cbn; try done.
  - intros i. change (in_group k i q <-> p' = InGroup i). rewrite tr_group0. destruct Hcase as [(_ & -> & _)|(_ & -> & ->)]; naive_solver.
  - intros i. unfold in_collected. cbn. destruct (decide (i = idx)) as [->|Hne].
    + rewrite lookup_insert_eq. destruct Hcase as [(_ & -> & ?)|(_ & _ & ->)]; naive_solver.
    + rewrite lookup_insert_ne by done. pose proof (tr_collected0 i) as Hc. unfold in_collected in Hc. rewrite Hc. destruct Hcase as [(_ & -> & _)|(_ & -> & ->)]; naive_solver.
  - intros i. unfold in_called. cbn. destruct (decide (i = idx)) as [->|Hne].
    + rewrite lookup_insert_eq. destruct Hcase as [(En & -> & ?)|(Hs & _ & ->)]; [|naive_solver]. rewrite <- Hcl. split; [|naive_solver].
      intros (b & m' & [= <- <-] & Hk). rewrite En in Hk. by destruct Hk.
    + rewrite lookup_insert_ne by done. pose proof (tr_called0 i) as Hc. unfold in_called in Hc. rewrite Hc. destruct Hcase as [(_ & -> & _)|(_ & -> & ->)]; naive_solver.
  - intros i ph. destruct (decide (i = idx)) as [->|Hne]; [intros _; by eapply tr_running0|rewrite lookup_insert_ne by done; apply tr_running0].
  - intros i b m'. destruct (decide (i = idx)) as [->|Hne]; [rewrite lookup_insert_eq; congruence|rewrite lookup_insert_ne by done; apply tr_last0].
  - unfold calls_of. cbn [eq_calls]. rewrite filter_app, fmap_app, calls_for. fold (calls_of k q). rewrite tr_calls0. destruct Hcase as [(En & -> & _)|(Hs & -> & ->)].
    + rewrite decide_False by (rewrite En; by intros []). by rewrite app_nil_r.
    + rewrite decide_True by done. apply expected_S.
Qed.

(** The third part. *)
Lemma forwarded (k : bytes) (now : Z) (m : gmap bytes A) g : is_Some (g_itemMap (map_fold (enter now) g m) !! k) <-> is_Some (m !! k) \/ is_Some (g_itemMap g !! k).
Proof.
  apply (map_fold_weak_ind (fun g' m => is_Some (g_itemMap g' !! k) <-> is_Some (m !! k) \/ is_Some (g_itemMap g !! k))).
  - rewrite lookup_empty. split; [by right|]. intros [[]|]; done.
  - intros k' x m' g' _ IH. cbn. destruct (decide (k' = k)) as [->|Hne].
    + rewrite !lookup_insert_eq. split; [left|]; by eexists.
    + by rewrite !lookup_insert_ne by done.
Qed.

Lemma in_group_alter k i idx f q : in_group k i (set_groups (alter f idx (eq_groups q)) q) <->
  exists g, eq_groups q !! i = Some g /\ is_Some (g_itemMap (if decide (i = idx) then f g else g) !! k).
Proof.
  unfold in_group. cbn. destruct (decide (i = idx)) as [->|Hne]; [|by rewrite list_lookup_alter_ne].
  rewrite list_lookup_alter_eq. split.
  - intros (g & (g0 & Hg & ->)%fmap_Some & Hk). by exists g0.
  - intros (g & -> & Hk). by eexists.
Qed.

Lemma tracked_forward k n q p idx now b m : tracked k n q p -> eq_running q !! idx = Some (Called b m) -> exists p', tracked k n (forward idx now b m q) p'.
Proof.
  intros Ht Hr. pose proof (running_at _ _ _ _ _ _ Ht Hr) as Hp. cbn in Hp. pose proof (tr_last _ _ _ _ Ht _ _ _ Hr) as Hb. pose proof (tr_running _ _ _ _ Ht _ _ Hr) as Hlt.
  set (p' := if decide (is_Some (m !! k)) then if b then Gone else InGroup (idx + 1) else p). exists p'.
  assert (Hcase : (m !! k = None /\ p' = p /\ p <> InCalled idx) \/ (is_Some (m !! k) /\ p = InCalled idx /\ p' = if b then Gone else InGroup (idx + 1))).
  { unfold p'. destruct (decide _) as [Hs|Hn]; [right; split_and!; [done|by apply Hp|done]|left; split_and!; [|done|by intros Hpp%Hp]]. by apply eq_None_not_Some. }
  pose proof (tr_collected _ _ _ _ Ht idx) as Hcl. unfold in_collected in Hcl. rewrite Hr in Hcl. destruct Ht. unfold forward. split; cbn.
  - destruct b; [done|]. by rewrite length_alter.
  - intros i. destruct b.
    + change (in_group k i q <-> p' = InGroup i). rewrite tr_group0. destruct Hcase as [(_ & -> & _)|(_ & -> & ->)]; naive_solver.
    + match goal with |- in_group _ _ (mkExpire ?gs _ _) <-> _ => change (in_group k i (set_groups gs q) <-> p' = InGroup i) end.
      rewrite in_group_alter. pose proof (tr_group0 i) as Hg. unfold in_group in Hg. destruct (decide (i = (idx + 1)%nat)) as [->|Hne].
      * setoid_rewrite forwarded. destruct Hcase as [(En & -> & _)|(Hs & _ & ->)]; [rewrite <- Hg, En; unfold is_Some at 1; naive_solver|].
        split; [done|]. intros _. destruct (lookup_lt_is_Some_2 (eq_groups q) (idx + 1)) as [g Hgi]; [|by exists g; split; [|left]].
        symmetry in Hb. apply Nat.eqb_neq in Hb. lia.
      * rewrite Hg. destruct Hcase as [(_ & -> & _)|(_ & -> & ->)]; naive_solver.
  - intros i. unfold in_collected. cbn. pose proof (tr_collected0 i) as Hc. unfold in_collected in Hc. destruct (decide (i = idx)) as [->|Hne].
    + rewrite lookup_delete_eq. destruct Hcase as [(_ & -> & _)|(_ & _ & ->)]; [rewrite <- Hcl; naive_solver|destruct b; naive_solver].
    + rewrite lookup_delete_ne, Hc by done. destruct Hcase as [(_ & -> & _)|(_ & -> & ->)]; destruct b; naive_solver.
  - intros i. unfold in_called. cbn. pose proof (tr_called0 i) as Hc. unfold in_called in Hc. destruct (decide (i = idx)) as [->|Hne].
    + rewrite lookup_delete_eq. destruct Hcase as [(_ & -> & ?)|(_ & _ & ->)]; [|destruct b]; naive_solver.
    + rewrite lookup_delete_ne, Hc by done. destruct Hcase as [(_ & -> & _)|(_ & -> & ->)]; destruct b; naive_solver.
  - intros i ph. destruct (decide (i = idx)) as [->|Hne]; [by rewrite lookup_delete_eq|rewrite lookup_delete_ne by done; apply tr_running0].
  - intros i b' m'. destruct (decide (i = idx)) as [->|Hne]; [by rewrite lookup_delete_eq|rewrite lookup_delete_ne by done; apply tr_last0].
  - transitivity (calls_of k q); [done|]. rewrite tr_calls0. f_equal. destruct Hcase as [(_ & -> & _)|(_ & -> & ->)]; [done|]. destruct b; [|done].
    symmetry in Hb. apply Nat.eqb_eq in Hb. done.
Qed.

Lemma tracked_steps k n q q' p : esteps k q q' -> tracked k n q p -> exists p', tracked k n q' p'.
Proof.
  intros Hs. revert p. induction Hs as [q|q q1 q' (l & Hl & Hstep) _ IH]; intros p Ht; [by exists p|].
  assert (exists p1, tracked k n q1 p1) as [p1 Ht1]; [|by eapply IH]. destruct Hstep.
  - exists p. eapply tracked_push; [done| |done]. congruence.
  - exists p. apply tracked_remove; [done|]. congruence.
  - destruct (eq_groups q !! idx) as [g|] eqn:Eg; [by eapply tracked_collect|]. exists p. unfold collect. by rewrite Eg.
  - by eapply tracked_call.
  - by eapply tracked_forward.
Qed.

(** A queue with groups of the given intervals, before its goroutines have run. *)
Definition queue_of (intervals : list Z) : ExpireQueue := foldl (fun q i => AddGroup i q) NewExpireQueue intervals.

Lemma queue_of_spec l : queue_of l = mkExpire ((fun i => mkGroup i ∅) <$> l) ∅ [].
Proof.
  unfold queue_of. assert (Hf : forall gs, foldl (fun q i => AddGroup i q) (mkExpire gs ∅ []) l = mkExpire (gs ++ ((fun i => mkGroup i ∅) <$> l)) ∅ []).
  { induction l as [|i l IH]; intros gs; cbn; [by rewrite app_nil_r|]. unfold AddGroup, set_groups. cbn. rewrite IH, <- app_assoc. done. }
  apply (Hf []).
Qed.

Lemma pushed_tracked intervals now k item q : eq_Push now k item (queue_of intervals) = Ok q -> tracked k (length intervals) q (InGroup 0).
Proof.
  rewrite queue_of_spec. unfold eq_Push. destruct intervals as [|i l]; [done|]. intros [= <-]. split; try done.
  - cbn. by rewrite length_fmap.
  - intros [|j]; split; try done.
    + intros _. eexists. split; [done|]. cbn. rewrite lookup_insert_eq. by eexists.
    + intros (g & Hg & Hk). change (((fun i => mkGroup i ∅) <$> l) !! j = Some g) in Hg. rewrite list_lookup_fmap in Hg. apply fmap_Some in Hg as (? & _ & ->). cbn in Hk. rewrite lookup_empty in Hk. by destruct Hk.
  - intros j. split; [|done]. intros (m & Hm & _). cbn in Hm. by rewrite lookup_empty in Hm.
  - intros j. split; [|done]. intros (b & m & Hm & _). cbn in Hm. by rewrite lookup_empty in Hm.
Qed.

(** C35. An item goes through the groups in their order.  Push an item and let the
    goroutines of the groups, and pushes and removals of other keys, interleave in
    any way: the handler has been called for the item for the groups 0, 1, ..., each
    once and in this order, with [IsLast] exactly for the last group, and the item is
    in the queue, or held by a goroutine, until all groups have been called for. *)
Theorem expire_calls_in_order (intervals : list Z) (now : Z) (k : bytes) (item : A) (q q' : ExpireQueue) :
  eq_Push now k item (queue_of intervals) = Ok q -> esteps k q q' ->
  let n := length intervals in
  exists j, (j <= n)%nat /\ calls_of k q' = (fun i => (i, (i + 1 =? n)%nat)) <$> seq 0 j /\
    (j = n \/ exists i, in_group k i q' \/ in_collected k i q' \/ in_called k i q').
Proof.
  intros Hp Hs. destruct (tracked_steps _ _ _ _ _ Hs (pushed_tracked _ _ _ _ _ Hp)) as [p Ht]. cbn zeta. exists (called (length intervals) p).
  split; [|split; [apply Ht|]].
  - destruct p as [i|i|i|]; cbn; [| | |lia].
    + destruct (proj2 (tr_group _ _ _ _ Ht i) eq_refl) as (g & Hg & _). apply lookup_lt_Some in Hg. rewrite (tr_groups _ _ _ _ Ht) in Hg. lia.
    + destruct (proj2 (tr_collected _ _ _ _ Ht i) eq_refl) as (m & Hm & _). apply (tr_running _ _ _ _ Ht) in Hm. lia.
    + destruct (proj2 (tr_called _ _ _ _ Ht i) eq_refl) as (b & m & Hm & _). apply (tr_running _ _ _ _ Ht) in Hm. lia.
  - destruct p as [i|i|i|]; [right; exists i..|by left].
    + left. by apply Ht.
    + right. left. by apply Ht.
    + right. right. by apply Ht.
Qed.

(** [Remove] does not reach an item that a goroutine holds: the item comes back in
    the next group. *)
Lemma removed_item_comes_back (k : bytes) (idx : nat) (now : Z) (m : gmap bytes A) q g : is_Some (m !! k) -> eq_groups q !! (idx + 1)%nat = Some g ->
  in_group k (idx + 1) (forward idx now false m (eq_Remove k q)).
Proof.
  intros Hk Hg. apply (in_group_alter k (idx + 1) (idx + 1) _ (eq_Remove k q)). eexists. split; [cbn; rewrite list_lookup_fmap, Hg; done|].
  rewrite decide_True by done. apply forwarded. by left.
Qed.
End Expire.

Lemma expire_calls_in_order_witness :
  let q0 := queue_of (A := Z) [5; 10] in
  let q1 := match eq_Push 0 [7] 42 q0 with Ok q => q | _ => q0 end in
  let q2 := collect 0 5 q1 in
  let q3 := call 0 {[ [7] := 42 ]} q2 in
  exists j, (j <= 2)%nat /\ calls_of [7] q3 = (fun i => (i, (i + 1 =? 2)%nat)) <$> seq 0 j /\
    (j = 2%nat \/ exists i, in_group [7] i q3 \/ in_collected [7] i q3 \/ in_called [7] i q3).
Proof.
  intros q0 q1 q2 q3. apply (expire_calls_in_order [5; 10] 0 [7] 42 q1 q3); [vm_compute; reflexivity|].
  apply (rtc_l _ _ q2); [exists None; split; [done|]; apply do_collect; vm_compute; reflexivity|].
  apply rtc_once. exists None. split; [done|]. apply do_call. vm_compute. reflexivity.
Defined.
