(* ===== verification/TxPool.v ===== *)
(** * The transaction pool

    [core/txpool/transaction_pool.go].  Transactions that carry a sequence wait in
    one bucket per sender, ordered by sequence; the others wait in a linked
    queue.  [turnQ] says which kind is next, [numberQ] which sender is next;
    a removal out of order is noted in [turnOutMap] and [numberOutMap] and
    skipped when its turn comes.

    The pool is written against the interfaces [Fifo], [Keyed] and [Prioritized]
    of the three queues it uses, which the queues of [Queue] and [LinkedQueue]
    implement. *)

From stdpp Require Import base gmap list strings.
From Stdlib Require Import ZArith Lia.
From S2P Require Import Prelude Common Types Chain Queue LinkedQueue.

#[local] Open Scope nat_scope.

(** ** What the pool needs of the queues *)

Class Fifo (Q A : Type) := {
  f_New : Q;
  f_Push : Q -> A -> Q;
  f_Peek : Q -> option A;
  f_Pop : Q -> option A * Q;
  f_Size : Q -> nat;
  f_abs : Q -> list A -> Prop;
  f_New_abs : f_abs f_New [];
  f_Push_abs : forall q l x, f_abs q l -> f_abs (f_Push q x) (l ++ [x]);
  f_Peek_abs : forall q l, f_abs q l -> f_Peek q = head l;
  f_Pop_abs : forall q l, f_abs q l -> exists q', f_Pop q = (head l, q') /\ f_abs q' (tail l);
  f_Size_abs : forall q l, f_abs q l -> f_Size q = length l
}.

Class Keyed (Q K A : Type) `{Countable K} := {
  k_New : Q;
  k_Push : K -> A -> ST Q unit;
  k_Pop : ST Q (option A);
  k_Remove : K -> ST Q (option A);
  k_abs : Q -> list (K * A) * gmap K A -> Prop;
  k_New_abs : k_abs k_New ([], ∅);
  k_keys : forall q s, k_abs q s -> NoDup s.1.*1;
  k_Push_abs : forall q s k x, k_abs q s -> k ∉ s.1.*1 ->
    exists q', k_Push k x q = (Ok tt, q') /\ k_abs q' (spec_Push k x s);
  k_Pop_abs : forall q s, k_abs q s -> exists q', k_Pop q = (Ok (spec_Pop s).1, q') /\ k_abs q' (spec_Pop s).2;
  k_Remove_abs : forall q s k, k_abs q s ->
    exists q', k_Remove k q = (Ok (spec_Remove k s).1, q') /\ k_abs q' (spec_Remove k s).2
}.

Class Prioritized (Q V : Type) := {
  p_New : Q;
  p_FindOrInsert : Q -> V -> Z -> option V * Q;
  p_Peek : Q -> option (V * Z);
  p_Pop : Q -> option V * Q;
  p_Size : Q -> nat;
  p_abs : Q -> list (V * Z) -> Prop;
  p_New_abs : p_abs p_New [];
  p_sorted : forall q l, p_abs q l -> Sorted.StronglySorted by_priority l;
  p_FindOrInsert_abs : forall q l v P, p_abs q l ->
    (exists q', find_priority l P = None /\ p_FindOrInsert q v P = (None, q') /\ p_abs q' (insert_by_priority (v, P) l)) \/
    (exists x, find_priority l P = Some x /\ p_FindOrInsert q v P = (Some x, q));
  p_Peek_abs : forall q l, p_abs q l -> p_Peek q = head l;
  p_Pop_abs : forall q l, p_abs q l -> exists q', p_Pop q = (fst <$> head l, q') /\ p_abs q' (tail l);
  p_Size_abs : forall q l, p_abs q l -> p_Size q = length l
}.

(** [queuePagePool]: [Get] returns a page with nothing in it. *)
Class PagePool := {
  page_Get : forall {A}, Queue A -> queuePage A;
  page_Get_empty : forall A (q : Queue A), page_empty (page_Get q)
}.

#[global] Program Instance new_pages : PagePool := { page_Get A _ := new_page }.
Next Obligation. intros A q. apply new_page_empty; [apply length_replicate|lia]. Qed.

#[global] Program Instance Queue_Fifo `{PagePool} (A : Type) : Fifo (Queue A) A := {
  f_New := NewQueue; f_Push q x := Push (page_Get q) q x; f_Peek := Peek; f_Pop := Pop; f_Size := Size; f_abs := holds
}.
Next Obligation. intros. apply NewQueue_holds. Qed.
Next Obligation. intros. apply Push_holds; [done|]. apply page_Get_empty. Qed.
Next Obligation. intros. by apply Peek_holds. Qed.
Next Obligation. intros H A q l Hq. destruct (Pop_holds q l Hq) as (q' & ? & ? & _). by exists q'. Qed.
Next Obligation. intros. by apply ho_size. Qed.

#[global] Program Instance LinkedQueue_Keyed (K A : Type) `{Countable K} : Keyed (LinkedQueue K A) K A := {
  k_New := NewLinkedQueue; k_Push := lq_Push; k_Pop := lq_Pop; k_Remove := lq_Remove; k_abs := lq_holds
}.
Next Obligation. intros. apply NewLinkedQueue_holds. Qed.
Next Obligation. intros K A ? ? q s (ps & Hq). apply (ln_keys _ _ _ _ Hq). Qed.
Next Obligation. intros. by apply lq_Push_holds. Qed.
Next Obligation. intros. by apply lq_Pop_holds. Qed.
Next Obligation. intros. by apply lq_Remove_holds. Qed.

#[global] Program Instance SortedQueue_Prioritized (V : Type) : Prioritized (SortedQueue V) V := {
  p_New := NewSortedQueue; p_FindOrInsert := FindOrInsert; p_Peek := sq_peek; p_Pop := sq_pop; p_Size := sq_size; p_abs := sq_holds
}.
Next Obligation. intros. apply NewSortedQueue_holds. Qed.
Next Obligation. intros V q l Hq. apply (sh_sorted _ _ Hq). Qed.
Next Obligation.
  intros V q l v P Hq. unfold FindOrInsert. rewrite (sq_find_holds q l P Hq). destruct (find_priority l P) as [x|].
  - right. by exists x.
  - left. eexists. split; [done|]. split; [done|]. by apply sq_insert_holds.
Qed.
Next Obligation. intros. by apply sq_peek_holds. Qed.
Next Obligation. intros V q l Hq. destruct (sq_pop_holds q l Hq) as [E Hq']. destruct (sq_pop q) as [x q']. cbn in *. subst x. by exists q'. Qed.
Next Obligation. intros V q l Hq. apply (sh_size _ _ Hq). Qed.

(** ** The pool *)

Definition tperr (s : string) : error := mkError "txpool" s.
Definition ErrExistTransaction := tperr "exist transaction".
Definition ErrExistTransactionSeq := tperr "exist transaction seq".

Record PoolItem (Tx : Type) := mkPoolItem {
  pi_ChainID : Z;
  pi_TxType : Z;
  pi_TxHash : Hash256;
  pi_Transaction : Tx;
  pi_Signatures : list Signature;
  pi_Signers : list PublicHash
}.
Arguments mkPoolItem {Tx}. Arguments pi_ChainID {Tx}. Arguments pi_TxType {Tx}. Arguments pi_TxHash {Tx}.
Arguments pi_Transaction {Tx}. Arguments pi_Signatures {Tx}. Arguments pi_Signers {Tx}.

(** [txhashMap] maps to [true] only, so it is the set of its keys. *)
Record TransactionPool (TQ NQ UQ SQ : Type) := mkPool {
  tp_turnQ : TQ;
  tp_numberQ : NQ;
  tp_utxoQ : UQ;
  tp_txhashMap : gset Hash256;
  tp_turnOutMap : gmap bool nat;
  tp_numberOutMap : gmap Address nat;
  tp_bucketMap : gmap Address SQ
}.
Arguments mkPool {TQ NQ UQ SQ}. Arguments tp_turnQ {TQ NQ UQ SQ}. Arguments tp_numberQ {TQ NQ UQ SQ}.
Arguments tp_utxoQ {TQ NQ UQ SQ}. Arguments tp_txhashMap {TQ NQ UQ SQ}. Arguments tp_turnOutMap {TQ NQ UQ SQ}.
Arguments tp_numberOutMap {TQ NQ UQ SQ}. Arguments tp_bucketMap {TQ NQ UQ SQ}.

Section Pool.
Context {Proc Tx : Type} `{TransactionI Proc Tx}.
Context {TQ NQ UQ SQ : Type} `{Fifo TQ bool} `{Fifo NQ Address} `{!Keyed UQ Hash256 (PoolItem Tx)} `{Prioritized SQ (PoolItem Tx)}.
Abbreviation pool := (TransactionPool TQ NQ UQ SQ).
Abbreviation pitem := (PoolItem Tx).

Definition NewTransactionPool : pool := mkPool f_New f_New k_New ∅ ∅ ∅ ∅.

Definition set_turnQ (q : TQ) (tp : pool) : pool :=
  mkPool q (tp_numberQ tp) (tp_utxoQ tp) (tp_txhashMap tp) (tp_turnOutMap tp) (tp_numberOutMap tp) (tp_bucketMap tp).
Definition set_numberQ (q : NQ) (tp : pool) : pool :=
  mkPool (tp_turnQ tp) q (tp_utxoQ tp) (tp_txhashMap tp) (tp_turnOutMap tp) (tp_numberOutMap tp) (tp_bucketMap tp).
Definition set_utxoQ (q : UQ) (tp : pool) : pool :=
  mkPool (tp_turnQ tp) (tp_numberQ tp) q (tp_txhashMap tp) (tp_turnOutMap tp) (tp_numberOutMap tp) (tp_bucketMap tp).
Definition set_txhashMap (m : gset Hash256) (tp : pool) : pool :=
  mkPool (tp_turnQ tp) (tp_numberQ tp) (tp_utxoQ tp) m (tp_turnOutMap tp) (tp_numberOutMap tp) (tp_bucketMap tp).
Definition set_turnOutMap (m : gmap bool nat) (tp : pool) : pool :=
  mkPool (tp_turnQ tp) (tp_numberQ tp) (tp_utxoQ tp) (tp_txhashMap tp) m (tp_numberOutMap tp) (tp_bucketMap tp).
Definition set_numberOutMap (m : gmap Address nat) (tp : pool) : pool :=
  mkPool (tp_turnQ tp) (tp_numberQ tp) (tp_utxoQ tp) (tp_txhashMap tp) (tp_turnOutMap tp) m (tp_bucketMap tp).
Definition set_bucketMap (m : gmap Address SQ) (tp : pool) : pool :=
  mkPool (tp_turnQ tp) (tp_numberQ tp) (tp_utxoQ tp) (tp_txhashMap tp) (tp_turnOutMap tp) (tp_numberOutMap tp) m.

(** A Go map of counters reads 0 where it has no entry. *)
Definition out_of {K} `{Countable K} (m : gmap K nat) (k : K) : nat := default 0 (m !! k).

(** [tout--], with the entry deleted at 0. *)
Definition out_dec {K} `{Countable K} (m : gmap K nat) (k : K) : gmap K nat :=
  let out := out_of m k - 1 in
  if out =? 0 then delete k m else <[k := out]> m.

Definition IsExist (tp : pool) (TxHash : Hash256) : bool := bool_decide (TxHash ∈ tp_txhashMap tp).

Definition tp_Size (tp : pool) : Z :=
  (Z.of_nat (f_Size (tp_turnQ tp)) - map_fold (fun _ v sum => Z.of_nat v + sum) 0 (tp_turnOutMap tp))%Z.

Definition turnQ_Push (b : bool) : ST pool unit := modify (fun tp => set_turnQ (f_Push (tp_turnQ tp) b) tp).
Definition numberQ_Push (addr : Address) : ST pool unit := modify (fun tp => set_numberQ (f_Push (tp_numberQ tp) addr) tp).
Definition turnQ_Pop : ST pool (option bool) := fun tp => let '(x, q) := f_Pop (tp_turnQ tp) in (Ok x, set_turnQ q tp).
Definition numberQ_Pop : ST pool (option Address) := fun tp => let '(x, q) := f_Pop (tp_numberQ tp) in (Ok x, set_numberQ q tp).
Definition on_utxoQ {X} (m : ST UQ X) : ST pool X := fun tp => let '(r, q) := m (tp_utxoQ tp) in (r, set_utxoQ q tp).
Definition forget (TxHash : Hash256) : ST pool unit := modify (fun tp => set_txhashMap (tp_txhashMap tp ∖ {[TxHash]}) tp).
Definition set_bucket (addr : Address) (q : SQ) : ST pool unit := modify (fun tp => set_bucketMap (<[addr := q]> (tp_bucketMap tp)) tp).
Definition drop_bucket (addr : Address) : ST pool unit := modify (fun tp => set_bucketMap (delete addr (tp_bucketMap tp)) tp).

Definition tp_Push (ChainID t : Z) (TxHash : Hash256) (tx : Tx) (sigs : list Signature) (signers : list PublicHash) : ST pool unit :=
  let! has := gets (fun tp => IsExist tp TxHash) in
  if has then fail ErrExistTransaction
  else
    let it := mkPoolItem ChainID t TxHash tx sigs signers in
    match tx_account tx with
    | None =>
        on_utxoQ (k_Push TxHash it) ;;;
        turnQ_Push true
    | Some (seq, addr) =>
        let! has := gets (fun tp => tp_bucketMap tp !! addr) in
        let q := match has with Some q => q | None => p_New end in
        set_bucket addr q ;;;
        let '(found, q) := p_FindOrInsert q it seq in
        set_bucket addr q ;;;
        match found with
        | Some _ => fail ErrExistTransactionSeq
        | None =>
            numberQ_Push addr ;;;
            turnQ_Push false
        end
    end ;;;
    modify (fun tp => set_txhashMap ({[TxHash]} ∪ tp_txhashMap tp) tp).

(** The turn of a removed transaction: taken at once if it is the next one, noted
    otherwise; and the same for the number of a sender. *)
Definition take_turn (b : bool) : ST pool unit :=
  let! turn := gets (fun tp => f_Peek (tp_turnQ tp)) in
  if bool_decide (turn = Some b) then turnQ_Pop ;;; ret tt
  else modify (fun tp => set_turnOutMap (<[b := out_of (tp_turnOutMap tp) b + 1]> (tp_turnOutMap tp)) tp).
Definition take_number (addr : Address) : ST pool unit :=
  let! number := gets (fun tp => f_Peek (tp_numberQ tp)) in
  if bool_decide (number = Some addr) then numberQ_Pop ;;; ret tt
  else modify (fun tp => set_numberOutMap (<[addr := out_of (tp_numberOutMap tp) addr + 1]> (tp_numberOutMap tp)) tp).

Definition type_assertion : string := "interface conversion: interface is nil".

(** [x.(T)] of an interface that may be nil. *)
Definition assert_some {X} (x : option X) : ST pool X := match x with Some x => ret x | None => throw type_assertion end.

(** The loop of [Remove]; each round pops the bucket, which bounds the rounds. *)
Fixpoint remove_loop (fuel : nat) (addr : Address) (seq : Z) (q : SQ) : ST pool SQ :=
  match fuel with
  | O => throw "out of fuel"
  | S fuel =>
      if p_Size q =? 0 then ret q
      else
        let! v := assert_some (p_Peek q) in
        let it := v.1 in
        let! atx := assert_some (tx_account (pi_Transaction it)) in
        if (seq <=? atx.1)%Z then ret q
        else
          let q := (p_Pop q).2 in
          set_bucket addr q ;;;
          forget (pi_TxHash it) ;;;
          take_turn false ;;;
          take_number addr ;;;
          remove_loop fuel addr seq q
  end.

Definition tp_Remove (TxHash : Hash256) (t : Tx) : ST pool unit :=
  match tx_account t with
  | None =>
      let! removed := on_utxoQ (k_Remove TxHash) in
      match removed with
      | Some _ => take_turn true ;;; forget TxHash
      | None => ret tt
      end
  | Some (seq, addr) =>
      let! has := gets (fun tp => tp_bucketMap tp !! addr) in
      match has with
      | None => ret tt
      | Some q =>
          let! q := remove_loop (p_Size q + 1) addr seq q in
          if p_Size q =? 0 then drop_bucket addr else ret tt
      end
  end.

(** The loop that finds the next turn, skipping those noted as out. *)
Fixpoint next_turn (fuel : nat) : ST pool (option bool) :=
  match fuel with
  | O => throw "out of fuel"
  | S fuel =>
      let! size := gets (fun tp => f_Size (tp_turnQ tp)) in
      if size =? 0 then ret None
      else
        let! turn := turnQ_Pop in
        let! turn := assert_some turn in
        let! tout := gets (fun tp => out_of (tp_turnOutMap tp) turn) in
        if 0 <? tout then modify (fun tp => set_turnOutMap (out_dec (tp_turnOutMap tp) turn) tp) ;;; next_turn fuel
        else ret (Some turn)
  end.

(** The same for the next sender; every number popped counts down [remain]. *)
Fixpoint next_number (fuel : nat) (remain : Z) : ST pool (option Address * Z) :=
  match fuel with
  | O => throw "out of fuel"
  | S fuel =>
      let! size := gets (fun tp => f_Size (tp_numberQ tp)) in
      if size =? 0 then ret (None, remain)
      else
        let! addr := numberQ_Pop in
        let! addr := assert_some addr in
        let remain := (remain - 1)%Z in
        let! nout := gets (fun tp => out_of (tp_numberOutMap tp) addr) in
        if 0 <? nout then modify (fun tp => set_numberOutMap (out_dec (tp_numberOutMap tp) addr) tp) ;;; next_number fuel remain
        else ret (Some addr, remain)
  end.

(** [q.Pop()], [delete(tp.txhashMap, ...)] and the deletion of an empty bucket. *)
Definition pop_bucket (addr : Address) (q : SQ) (it : pitem) : ST pool unit :=
  let q := (p_Pop q).2 in
  set_bucket addr q ;;;
  forget (pi_TxHash it) ;;;
  if p_Size q =? 0 then drop_bucket addr else ret tt.

(** The loop over the senders. *)
Fixpoint pop_loop (fuel : nat) (Seq : Address -> Z) (remain : Z) (ignoreMap : gset Address) : ST pool (option pitem) :=
  match fuel with
  | O => throw "out of fuel"
  | S fuel =>
      let! size := gets (fun tp => f_Size (tp_numberQ tp)) in
      let! next := next_number (size + 1) remain in
      let remain := next.2 in
      match next.1 with
      | None => ret None
      | Some addr =>
          if bool_decide (addr ∈ ignoreMap) then
            numberQ_Push addr ;;;
            if (0 <? remain)%Z then pop_loop fuel Seq remain ignoreMap
            else turnQ_Push false ;;; ret None
          else
            let! q := gets (fun tp => tp_bucketMap tp !! addr) in
            let! q := match q with Some q => ret q | None => throw nil_dereference end in
            let! v := assert_some (p_Peek q) in
            let it := v.1 in
            let lastSeq := Seq addr in
            let! atx := assert_some (tx_account (pi_Transaction it)) in
            let txSeq := atx.1 in
            if (txSeq <? u64 (lastSeq + 1))%Z then
              pop_bucket addr q it ;;;
              if (0 <? remain)%Z then take_turn false ;;; pop_loop fuel Seq remain ignoreMap
              else ret None
            else if (u64 (lastSeq + 1) <? txSeq)%Z then
              numberQ_Push addr ;;;
              if (0 <? remain)%Z then pop_loop fuel Seq remain ({[addr]} ∪ ignoreMap)
              else turnQ_Push false ;;; ret None
            else
              pop_bucket addr q it ;;;
              ret (Some it)
      end
  end.

Definition UnsafePop (Seq : Address -> Z) : ST pool (option pitem) :=
  let! size := gets (fun tp => f_Size (tp_turnQ tp)) in
  let! turn := next_turn (size + 1) in
  match turn with
  | None => ret None
  | Some true =>
      let! it := on_utxoQ k_Pop in
      let! it := assert_some it in
      forget (pi_TxHash it) ;;;
      ret (Some it)
  | Some false =>
      let! remain := gets (fun tp => f_Size (tp_numberQ tp)) in
      pop_loop (remain + 1) Seq (Z.of_nat remain) ∅
  end.
End Pool.
Arguments TransactionPool : clear implicits.
