(* ===== verification/TxPoolSpec.v ===== *)
(** * The transaction pool: theorems

    What the pool promises ([core/txpool/transaction_pool.go]), proved against the
    interfaces of its queues: it never panics and its loops end; it answers as a
    set of transactions with an order; the accounting of turns, and where it
    goes wrong. *)

From stdpp Require Import base functions gmap list strings.
From Stdlib Require Import ZArith Lia.
From S2P Require Import Prelude Common Types Chain Queue LinkedQueue TxPool.

#[local] Open Scope nat_scope.

(** ** Counting *)

Definition cnt {A} `{EqDecision A} (a : A) (l : list A) : nat := length (base.filter (fun x => x = a) l).

Section Counting.
Context {A : Type} `{EqDecision A}.

Lemma cnt_app (a : A) l1 l2 : cnt a (l1 ++ l2) = cnt a l1 + cnt a l2.
Proof. unfold cnt. by rewrite filter_app, length_app. Qed.

Lemma cnt_cons (a b : A) l : cnt a (b :: l) = (if decide (b = a) then 1 else 0) + cnt a l.
Proof. unfold cnt. rewrite filter_cons. by destruct (decide (b = a)). Qed.

Lemma cnt_one (a b : A) : cnt a [b] = if decide (b = a) then 1 else 0.
Proof. rewrite cnt_cons. unfold cnt. cbn. lia. Qed.

Lemma cnt_pos (a : A) l : a ∈ l -> 0 < cnt a l.
Proof. induction 1; rewrite cnt_cons; case_decide; try done; lia. Qed.

Lemma out_of_insert `{Countable A} (m : gmap A nat) k n k' :
  out_of (<[k := n]> m) k' = if decide (k = k') then n else out_of m k'.
Proof. unfold out_of. case_decide; [subst; by rewrite lookup_insert_eq|by rewrite lookup_insert_ne]. Qed.
End Counting.

Lemma out_of_dec {A} `{Countable A} (m : gmap A nat) k k' :
  out_of (out_dec m k) k' = if decide (k = k') then out_of m k - 1 else out_of m k'.
Proof.
  unfold out_dec. destruct (Nat.eqb_spec (out_of m k - 1) 0) as [->|]; [|apply out_of_insert].
  unfold out_of. case_decide; [subst; by rewrite lookup_delete_eq|by rewrite lookup_delete_ne].
Qed.

(** ** The pool as a set of transactions *)

Section Spec.
Context {Proc Tx : Type} `{TransactionI Proc Tx}.
Context {TQ NQ UQ SQ : Type} `{Fifo TQ bool} `{Fifo NQ Address} `{!Keyed UQ Hash256 (PoolItem Tx)} `{Prioritized SQ (PoolItem Tx)}.
Abbreviation pool := (TransactionPool TQ NQ UQ SQ).
Abbreviation pitem := (PoolItem Tx).

(** Hashes name transactions. *)
Context (tx_of : Hash256 -> Tx).

Definition account_of (x : pitem) : option (Z * Address) := tx_account (pi_Transaction x).

(** What the pool's structures hold: turns, numbers, the linked queue with its
    stale keys, a bucket per sender, and the transactions by hash. *)
Record ghost := mkGhost {
  g_turns : list bool;
  g_numbers : list Address;
  g_utxos : list (Hash256 * pitem);
  g_stale : gmap Hash256 pitem;
  g_bucket : Address -> list (pitem * Z);
  g_items : gmap Hash256 pitem
}.

Record rep (tp : pool) (g : ghost) : Prop := {
  r_turns : f_abs (tp_turnQ tp) (g_turns g);
  r_numbers : f_abs (tp_numberQ tp) (g_numbers g);
  r_utxos : k_abs (tp_utxoQ tp) (g_utxos g, g_stale g);
  r_buckets : forall a, match tp_bucketMap tp !! a with Some q => p_abs q (g_bucket g a) | None => g_bucket g a = [] end;
  r_hashes : tp_txhashMap tp = dom (g_items g)
}.

(** Every transaction is where its kind says, once. *)
Record placed (g : ghost) : Prop := {
  pl_utxos : forall h x, (h, x) ∈ g_utxos g <-> g_items g !! h = Some x /\ account_of x = None;
  pl_buckets : forall a x s, (x, s) ∈ g_bucket g a <-> g_items g !! pi_TxHash x = Some x /\ account_of x = Some (s, a);
  pl_hash : forall h x, g_items g !! h = Some x -> pi_TxHash x = h /\ pi_Transaction x = tx_of h;
  pl_seqs : forall a, NoDup (g_bucket g a).*2;
  pl_stale : forall h x, g_stale g !! h = Some x -> tx_account (tx_of h) = None
}.

(** A turn or number is in its queue for every transaction, and once more for
    every removal noted as out. *)
Record counted (tp : pool) (g : ghost) : Prop := {
  c_turns : cnt true (g_turns g) <= length (g_utxos g) + out_of (tp_turnOutMap tp) true;
  c_numbers : forall a, cnt a (g_numbers g) = length (g_bucket g a) + out_of (tp_numberOutMap tp) a
}.

Record pool_ok (tp : pool) (g : ghost) : Prop := {
  ok_rep : rep tp g;
  ok_placed : placed g;
  ok_counted : counted tp g
}.

Definition ghost0 : ghost := mkGhost [] [] [] ∅ (fun _ => []) ∅.

Lemma NewTransactionPool_ok : pool_ok NewTransactionPool ghost0.
Proof.
  split; split; cbn; try done.
  - apply f_New_abs.
  - apply f_New_abs.
  - apply k_New_abs.
  - intros h x. split; [set_solver|]. by intros [? _].
  - intros a x s. split; [set_solver|]. by intros [? _].
  - intros a. constructor.
Qed.

(** *** The pieces of the operations *)

Definition with_turns (l : list bool) (g : ghost) : ghost :=
  mkGhost l (g_numbers g) (g_utxos g) (g_stale g) (g_bucket g) (g_items g).
Definition with_numbers (l : list Address) (g : ghost) : ghost :=
  mkGhost (g_turns g) l (g_utxos g) (g_stale g) (g_bucket g) (g_items g).
Definition with_utxos (s : list (Hash256 * pitem) * gmap Hash256 pitem) (g : ghost) : ghost :=
  mkGhost (g_turns g) (g_numbers g) s.1 s.2 (g_bucket g) (g_items g).
Definition with_bucket (a : Address) (l : list (pitem * Z)) (g : ghost) : ghost :=
  mkGhost (g_turns g) (g_numbers g) (g_utxos g) (g_stale g) (<[a := l]> (g_bucket g)) (g_items g).
Definition with_items (c : gmap Hash256 pitem) (g : ghost) : ghost :=
  mkGhost (g_turns g) (g_numbers g) (g_utxos g) (g_stale g) (g_bucket g) c.

Lemma bucket_with a l g b : g_bucket (with_bucket a l g) b = if decide (a = b) then l else g_bucket g b.
Proof.
  unfold with_bucket. cbn [g_bucket]. case_decide; [subst; apply fn_lookup_insert|by apply fn_lookup_insert_ne].
Qed.

Lemma turnQ_Push_rep tp g b : rep tp g ->
  exists tp', turnQ_Push b tp = (Ok tt, tp') /\ rep tp' (with_turns (g_turns g ++ [b]) g) /\
    tp_turnOutMap tp' = tp_turnOutMap tp /\ tp_numberOutMap tp' = tp_numberOutMap tp.
Proof.
  intros [? ? ? ? ?]. eexists. split; [reflexivity|]. split; [|done]. split; cbn; try done. by apply f_Push_abs.
Qed.

Lemma numberQ_Push_rep tp g a : rep tp g ->
  exists tp', numberQ_Push a tp = (Ok tt, tp') /\ rep tp' (with_numbers (g_numbers g ++ [a]) g) /\
    tp_turnOutMap tp' = tp_turnOutMap tp /\ tp_numberOutMap tp' = tp_numberOutMap tp.
Proof.
  intros [? ? ? ? ?]. eexists. split; [reflexivity|]. split; [|done]. split; cbn; try done. by apply f_Push_abs.
Qed.

Lemma turnQ_Pop_rep tp g : rep tp g ->
  exists tp', turnQ_Pop tp = (Ok (head (g_turns g)), tp') /\ rep tp' (with_turns (tail (g_turns g)) g) /\
    tp_turnOutMap tp' = tp_turnOutMap tp /\ tp_numberOutMap tp' = tp_numberOutMap tp.
Proof.
  intros [Ht ? ? ? ?]. destruct (f_Pop_abs _ _ Ht) as (q' & E & Hq'). unfold turnQ_Pop. rewrite E.
  eexists. split; [reflexivity|]. split; [|done]. by split.
Qed.

Lemma numberQ_Pop_rep tp g : rep tp g ->
  exists tp', numberQ_Pop tp = (Ok (head (g_numbers g)), tp') /\ rep tp' (with_numbers (tail (g_numbers g)) g) /\
    tp_turnOutMap tp' = tp_turnOutMap tp /\ tp_numberOutMap tp' = tp_numberOutMap tp.
Proof.
  intros [? Ht ? ? ?]. destruct (f_Pop_abs _ _ Ht) as (q' & E & Hq'). unfold numberQ_Pop. rewrite E.
  eexists. split; [reflexivity|]. split; [|done]. by split.
Qed.

Lemma set_bucket_rep tp g a q l : rep tp g -> p_abs q l ->
  exists tp', set_bucket a q tp = (Ok tt, tp') /\ rep tp' (with_bucket a l g) /\ tp_bucketMap tp' !! a = Some q /\
    tp_turnOutMap tp' = tp_turnOutMap tp /\ tp_numberOutMap tp' = tp_numberOutMap tp.
Proof.
  intros [? ? ? Hb ?] Hq. eexists. split; [reflexivity|]. split; [|cbn; by rewrite lookup_insert_eq].
  split; try done. intros b. rewrite bucket_with. cbn. case_decide as Hab; [subst b; by rewrite lookup_insert_eq|].
  rewrite lookup_insert_ne by done. apply Hb.
Qed.

Lemma drop_bucket_rep tp g a : rep tp g -> g_bucket g a = [] ->
  exists tp', drop_bucket a tp = (Ok tt, tp') /\ rep tp' g /\
    tp_turnOutMap tp' = tp_turnOutMap tp /\ tp_numberOutMap tp' = tp_numberOutMap tp.
Proof.
  intros [? ? ? Hb ?] Hq. eexists. split; [reflexivity|]. split; [|done].
  split; cbn; try done. intros b. destruct (decide (a = b)) as [->|Hne].
  - by rewrite lookup_delete_eq.
  - rewrite lookup_delete_ne by done. apply Hb.
Qed.

Lemma forget_rep tp g h : rep tp g ->
  exists tp', forget h tp = (Ok tt, tp') /\ rep tp' (with_items (delete h (g_items g)) g) /\ tp_bucketMap tp' = tp_bucketMap tp /\
    tp_turnOutMap tp' = tp_turnOutMap tp /\ tp_numberOutMap tp' = tp_numberOutMap tp.
Proof.
  intros [? ? ? Hb Hh]. eexists. split; [reflexivity|]. split; [|done]. split; cbn; try done. by rewrite dom_delete_L, Hh.
Qed.

(** One turn or number less, for a removed transaction. *)
Lemma take_turn_rep tp g b : rep tp g ->
  exists tp' l', take_turn b tp = (Ok tt, tp') /\ rep tp' (with_turns l' g) /\
    tp_bucketMap tp' = tp_bucketMap tp /\ tp_numberOutMap tp' = tp_numberOutMap tp /\
    (forall b', cnt b' l' + (if decide (b = b') then 1 else 0) + out_of (tp_turnOutMap tp) b'
      = cnt b' (g_turns g) + out_of (tp_turnOutMap tp') b').
Proof.
  intros Hr. unfold take_turn. erewrite bind_ok by reflexivity. rewrite (f_Peek_abs _ _ (r_turns _ _ Hr)).
  case_bool_decide as Hb.
  - destruct (turnQ_Pop_rep tp g Hr) as (tp' & E & Hr' & Ho & Hn). erewrite bind_ok by exact E.
    exists tp', (tail (g_turns g)). split; [done|]. split; [done|]. split; [|split; [done|]].
    { unfold turnQ_Pop in E. destruct (f_Pop _). by injection E as _ <-. }
    intros b'. rewrite Ho. destruct (g_turns g) as [|x l]; [done|]. injection Hb as ->. rewrite cnt_cons. cbn [tail]. lia.
  - eexists _, (g_turns g). split; [reflexivity|]. split; [by destruct g; destruct Hr|]. split; [done|]. split; [done|].
    intros b'. cbn. rewrite out_of_insert. case_decide; subst; lia.
Qed.

Lemma take_number_rep tp g a : rep tp g ->
  exists tp' l', take_number a tp = (Ok tt, tp') /\ rep tp' (with_numbers l' g) /\
    tp_bucketMap tp' = tp_bucketMap tp /\ tp_turnOutMap tp' = tp_turnOutMap tp /\
    (forall a', cnt a' l' + (if decide (a = a') then 1 else 0) + out_of (tp_numberOutMap tp) a'
      = cnt a' (g_numbers g) + out_of (tp_numberOutMap tp') a').
Proof.
  intros Hr. unfold take_number. erewrite bind_ok by reflexivity. rewrite (f_Peek_abs _ _ (r_numbers _ _ Hr)).
  case_bool_decide as Hb.
  - destruct (numberQ_Pop_rep tp g Hr) as (tp' & E & Hr' & Ho & Hn). erewrite bind_ok by exact E.
    exists tp', (tail (g_numbers g)). split; [done|]. split; [done|]. split; [|split; [done|]].
    { unfold numberQ_Pop in E. destruct (f_Pop _). by injection E as _ <-. }
    intros b'. rewrite Hn. destruct (g_numbers g) as [|x l]; [done|]. injection Hb as ->. rewrite cnt_cons. cbn [tail]. lia.
  - eexists _, (g_numbers g). split; [reflexivity|]. split; [by destruct g; destruct Hr|]. split; [done|]. split; [done|].
    intros b'. cbn. rewrite out_of_insert. case_decide; subst; lia.
Qed.

(** The next turn that is not out. *)
Lemma next_turn_rep fuel tp g : rep tp g -> length (g_turns g) < fuel ->
  exists tp' l' r, next_turn fuel tp = (Ok r, tp') /\ rep tp' (with_turns l' g) /\
    tp_bucketMap tp' = tp_bucketMap tp /\ tp_numberOutMap tp' = tp_numberOutMap tp /\
    (forall b, cnt b (g_turns g) + out_of (tp_turnOutMap tp') b
      = cnt b l' + out_of (tp_turnOutMap tp) b + (if decide (r = Some b) then 1 else 0)) /\
    match r with Some b => out_of (tp_turnOutMap tp') b = 0 | None => l' = [] end.
Proof.
  revert tp g. induction fuel as [|fuel IH]; intros tp g Hr Hl; [lia|]. cbn [next_turn].
  erewrite bind_ok by reflexivity. rewrite (f_Size_abs _ _ (r_turns _ _ Hr)).
  destruct (g_turns g) as [|b l] eqn:Eg; cbn [length Nat.eqb].
  { exists tp, [], None. split; [done|]. split; [destruct g; cbn in Eg; by subst|]. split; [done|]. split; [done|].
    split; [|done]. intros b. rewrite decide_False by done. cbn. lia. }
  destruct (turnQ_Pop_rep tp g Hr) as (tp1 & E & Hr1 & Ho & Hn). erewrite bind_ok by exact E. rewrite Eg in *. cbn [head tail] in *.
  assert (Hb1 : tp_bucketMap tp1 = tp_bucketMap tp) by (unfold turnQ_Pop in E; destruct (f_Pop _); by injection E as _ <-).
  erewrite bind_ok by reflexivity. erewrite bind_ok by reflexivity. destruct (Nat.ltb_spec 0 (out_of (tp_turnOutMap tp1) b)).
  - erewrite bind_ok by reflexivity. set (tp2 := set_turnOutMap _ tp1).
    assert (Hr2 : rep tp2 (with_turns l g)) by (by destruct Hr1).
    destruct (IH tp2 (with_turns l g) Hr2) as (tp' & l' & r & E' & Hr' & Hb' & Hn' & Hc & Hm); [cbn in *; lia|].
    exists tp', l', r. split; [done|]. split; [done|]. split; [by rewrite Hb'|]. split; [by rewrite Hn'|]. split; [|done].
    intros b'. specialize (Hc b'). rewrite cnt_cons. cbn [g_turns with_turns tp2 set_turnOutMap tp_turnOutMap] in Hc.
    rewrite out_of_dec, Ho in Hc. rewrite Ho in *. destruct (decide (b = b')) as [->|]; lia.
  - exists tp1, l, (Some b). split; [done|]. split; [done|]. split; [done|]. split; [done|]. split; [|lia].
    intros b'. rewrite cnt_cons, Ho. destruct (decide (b = b')) as [->|]; [rewrite decide_True by done|rewrite decide_False by congruence]; lia.
Qed.

Lemma next_number_rep fuel remain tp g : rep tp g -> length (g_numbers g) < fuel ->
  exists tp' l' r remain', next_number fuel remain tp = (Ok (r, remain'), tp') /\ rep tp' (with_numbers l' g) /\
    tp_bucketMap tp' = tp_bucketMap tp /\ tp_turnOutMap tp' = tp_turnOutMap tp /\
    (forall a, cnt a (g_numbers g) + out_of (tp_numberOutMap tp') a
      = cnt a l' + out_of (tp_numberOutMap tp) a + (if decide (r = Some a) then 1 else 0)) /\
    (remain' <= remain)%Z /\
    match r with Some a => out_of (tp_numberOutMap tp') a = 0 /\ (remain' < remain)%Z | None => l' = [] end.
Proof.
  revert tp g remain. induction fuel as [|fuel IH]; intros tp g remain Hr Hl; [lia|]. cbn [next_number].
  erewrite bind_ok by reflexivity. rewrite (f_Size_abs _ _ (r_numbers _ _ Hr)).
  destruct (g_numbers g) as [|b l] eqn:Eg; cbn [length Nat.eqb].
  { exists tp, [], None, remain. split; [done|]. split; [destruct g; cbn in Eg; by subst|]. split; [done|]. split; [done|].
    split; [|done]. intros b. rewrite decide_False by done. cbn. lia. }
  destruct (numberQ_Pop_rep tp g Hr) as (tp1 & E & Hr1 & Hn & Ho). erewrite bind_ok by exact E. rewrite Eg in *. cbn [head tail] in *.
  assert (Hb1 : tp_bucketMap tp1 = tp_bucketMap tp) by (unfold numberQ_Pop in E; destruct (f_Pop _); by injection E as _ <-).
  erewrite bind_ok by reflexivity. erewrite bind_ok by reflexivity. destruct (Nat.ltb_spec 0 (out_of (tp_numberOutMap tp1) b)).
  - erewrite bind_ok by reflexivity. set (tp2 := set_numberOutMap _ tp1).
    assert (Hr2 : rep tp2 (with_numbers l g)) by (by destruct Hr1).
    destruct (IH tp2 (with_numbers l g) (remain - 1)%Z Hr2) as (tp' & l' & r & rem & E' & Hr' & Hb' & Hn' & Hc & Hrem & Hm); [cbn in *; lia|].
    exists tp', l', r, rem. split; [done|]. split; [done|]. split; [by rewrite Hb'|]. split; [by rewrite Hn'|].
    split; [|split; [lia|destruct r; [|done]; split; [tauto|lia]]].
    intros b'. specialize (Hc b'). rewrite cnt_cons. cbn [g_numbers with_numbers tp2 set_numberOutMap tp_numberOutMap] in Hc.
    rewrite out_of_dec, Ho in Hc. rewrite Ho in *. destruct (decide (b = b')) as [->|]; lia.
  - exists tp1, l, (Some b), (remain - 1)%Z. split; [done|]. split; [done|]. split; [done|]. split; [done|]. split; [|lia].
    intros b'. rewrite cnt_cons, Ho. destruct (decide (b = b')) as [->|]; [rewrite decide_True by done|rewrite decide_False by congruence]; lia.
Qed.

(** The next transaction of a bucket leaves the pool. *)
Lemma placed_pop g a x s l : placed g -> g_bucket g a = (x, s) :: l ->
  placed (with_items (delete (pi_TxHash x) (g_items g)) (with_bucket a l g)).
Proof.
  intros [Hu Hb Hh Hs Hst] Ea. pose proof (proj1 (Hb a x s)) as Hx. rewrite Ea in Hx. specialize (Hx ltac:(set_solver)) as [Hx Hax].
  pose proof (Hs a) as Hnd. rewrite Ea in Hnd. cbn in Hnd. apply NoDup_cons in Hnd as [Hns Hnd].
  split; cbn [g_utxos g_items g_stale with_items with_bucket].
  - intros h y. rewrite Hu, lookup_delete_Some. split; [|tauto]. intros [Hy Hay]. split; [|done]. split; [|done].
    intros <-. congruence.
  - intros b y t. change (g_bucket (with_items _ _) b) with (g_bucket (with_bucket a l g) b). rewrite bucket_with, lookup_delete_Some.
    destruct (decide (a = b)) as [<-|Hne].
    + split.
      * intros Hy. assert (Hy' : (y, t) ∈ g_bucket g a) by (rewrite Ea; set_solver). apply Hb in Hy' as [Hy1 Hy2].
        split; [|done]. split; [|done]. intros E. assert (y = x) as -> by congruence. assert (t = s) as -> by congruence.
        apply Hns. by eapply (list_elem_of_fmap_2' snd).
      * intros [[Hne Hy1] Hy2]. assert (Hy' : (y, t) ∈ g_bucket g a) by (by apply Hb). rewrite Ea in Hy'.
        apply elem_of_cons in Hy' as [[= -> ->]|]; [done|done].
    + rewrite Hb. split; [|tauto]. intros [Hy1 Hy2]. split; [|done]. split; [|done]. intros E.
      assert (y = x) as -> by congruence. congruence.
  - intros h y Hy. apply lookup_delete_Some in Hy as [_ Hy]. by apply Hh.
  - intros b. change (g_bucket (with_items _ _) b) with (g_bucket (with_bucket a l g) b). rewrite bucket_with. by case_decide.
  - done.
Qed.

(** *** Removing *)

(** A transaction of the sender [a] with a smaller sequence. *)
Definition below (a : Address) (seq : Z) (x : pitem) : Prop :=
  match account_of x with Some (s, b) => b = a /\ (s < seq)%Z | None => False end.

#[local] Instance below_dec a seq x : Decision (below a seq x).
Proof. unfold below. destruct (account_of x) as [[s b]|]; apply _. Defined.

Lemma rep_bucket tp g a q : rep tp g -> tp_bucketMap tp !! a = Some q -> p_abs q (g_bucket g a).
Proof. intros [_ _ _ Hb _] Ha. specialize (Hb a). by rewrite Ha in Hb. Qed.

(** The front of a bucket leaves the pool, without its turn and number. *)
Lemma pop_front tp g a q x s l : rep tp g -> placed g -> tp_bucketMap tp !! a = Some q -> g_bucket g a = (x, s) :: l ->
  exists tp', (set_bucket a (p_Pop q).2 ;;; forget (pi_TxHash x)) tp = (Ok tt, tp') /\
    let g' := with_items (delete (pi_TxHash x) (g_items g)) (with_bucket a l g) in
    rep tp' g' /\ placed g' /\ tp_bucketMap tp' !! a = Some (p_Pop q).2 /\ p_abs (p_Pop q).2 l /\
    tp_turnOutMap tp' = tp_turnOutMap tp /\ tp_numberOutMap tp' = tp_numberOutMap tp.
Proof.
  intros Hr Hp Ha Eb. pose proof (rep_bucket tp g a q Hr Ha) as Hq. rewrite Eb in Hq.
  destruct (p_Pop_abs _ _ Hq) as (q' & Eq & Hq'). rewrite Eq. cbn [snd tail] in *.
  destruct (set_bucket_rep tp g a q' l Hr Hq') as (tp1 & E1 & Hr1 & Hb1 & Ht1 & Hn1).
  destruct (forget_rep tp1 _ (pi_TxHash x) Hr1) as (tp2 & E2 & Hr2 & Hb2 & Ht2 & Hn2).
  exists tp2. split; [by erewrite bind_ok by exact E1|]. split; [done|]. split; [by eapply placed_pop|].
  split; [by rewrite Hb2|]. split; [done|]. split; [by rewrite Ht2|by rewrite Hn2].
Qed.

Lemma filter_items_drop (c : gmap Hash256 pitem) a seq h x : c !! h = Some x -> below a seq x ->
  base.filter (fun e => ~ below a seq e.2) (delete h c) = base.filter (fun e => ~ below a seq e.2) c.
Proof.
  intros Hx Hb. apply map_eq. intros k. apply option_eq. intros y. rewrite !map_lookup_filter_Some, lookup_delete_Some. cbn.
  split; [tauto|]. intros [Hy Hn]. split; [|done]. split; [|done]. intros <-. congruence.
Qed.

Lemma filter_items_id (c : gmap Hash256 pitem) a seq : (forall h x, c !! h = Some x -> ~ below a seq x) ->
  base.filter (fun e => ~ below a seq e.2) c = c.
Proof.
  intros Hn. apply map_filter_id. intros h x Hx. by apply (Hn h).
Qed.

(** The sequences of a bucket are in order. *)
Lemma bucket_front tp g a q x s l : rep tp g -> tp_bucketMap tp !! a = Some q -> g_bucket g a = (x, s) :: l ->
  forall y t, (y, t) ∈ g_bucket g a -> (s <= t)%Z.
Proof.
  intros Hr Ha Eb y t Hy. pose proof (p_sorted _ _ (rep_bucket _ _ _ _ Hr Ha)) as Hs. rewrite Eb in *.
  apply Sorted.StronglySorted_inv in Hs as [_ Hs]. apply elem_of_cons in Hy as [[= -> ->]|Hy]; [lia|].
  rewrite Forall_forall in Hs. by apply (Hs (y, t)).
Qed.

Lemma none_below tp g a q seq : rep tp g -> placed g -> tp_bucketMap tp !! a = Some q ->
  (forall x s l, g_bucket g a = (x, s) :: l -> (seq <= s)%Z) ->
  forall h x, g_items g !! h = Some x -> ~ below a seq x.
Proof.
  intros Hr Hp Ha Hfront h x Hx. unfold below. destruct (account_of x) as [[s b]|] eqn:Ex; [|tauto]. intros [-> Hlt].
  destruct (pl_hash _ Hp h x Hx) as [<- _]. assert (Hin : (x, s) ∈ g_bucket g a) by (by apply (pl_buckets _ Hp)).
  destruct (g_bucket g a) as [|[y t] l] eqn:Eb; [set_solver|]. pose proof (Hfront y t l eq_refl).
  assert (t <= s)%Z by (eapply (bucket_front tp g a q y t l Hr Ha Eb x s); by rewrite Eb). lia.
Qed.

Lemma remove_loop_ok fuel tp g a seq q : pool_ok tp g -> tp_bucketMap tp !! a = Some q -> length (g_bucket g a) < fuel ->
  exists tp' g' q', remove_loop fuel a seq q tp = (Ok q', tp') /\ pool_ok tp' g' /\ tp_bucketMap tp' !! a = Some q' /\
    g_utxos g' = g_utxos g /\ g_items g' = base.filter (fun e => ~ below a seq e.2) (g_items g).
Proof.
  revert tp g q. induction fuel as [|fuel IH]; intros tp g q [Hr Hp Hc] Ha Hl; [lia|]. cbn [remove_loop].
  pose proof (rep_bucket tp g a q Hr Ha) as Hq. rewrite (p_Size_abs _ _ Hq).
  destruct (g_bucket g a) as [|[x s] l] eqn:Eb; cbn [length Nat.eqb].
  { exists tp, g, q. split; [done|]. split; [done|]. split; [done|]. split; [done|]. symmetry. apply filter_items_id.
    apply (none_below tp g a q seq Hr Hp Ha). intros x s l E. congruence. }
  rewrite (p_Peek_abs _ _ Hq). cbn [head]. erewrite bind_ok by reflexivity. cbn [fst].
  assert (Hx : (x, s) ∈ g_bucket g a) by (rewrite Eb; set_solver). apply (pl_buckets _ Hp) in Hx as [Hx Hax].
  unfold account_of in Hax. rewrite Hax. erewrite bind_ok by reflexivity. cbn [fst].
  destruct (Z.leb_spec seq s) as [Hle|Hlt].
  { exists tp, g, q. split; [done|]. split; [done|]. split; [done|]. split; [done|]. symmetry. apply filter_items_id.
    apply (none_below tp g a q seq Hr Hp Ha). intros x' s' l' E. rewrite Eb in E. injection E as <- <- <-. done. }
  destruct (pop_front tp g a q x s l Hr Hp Ha Eb) as (tp1 & E1 & Hr1 & Hp1 & Hb1 & Hq1 & Ht1 & Hn1).
  apply bind_ok_inv in E1 as (u & tp0 & E0 & E1). destruct u. erewrite bind_ok by exact E0. erewrite bind_ok by exact E1.
  destruct (take_turn_rep tp1 _ false Hr1) as (tp2 & ts & E2 & Hr2 & Hb2 & Hn2 & Ht2). erewrite bind_ok by exact E2.
  destruct (take_number_rep tp2 _ a Hr2) as (tp3 & ns & E3 & Hr3 & Hb3 & Ht3 & Hn3). erewrite bind_ok by exact E3.
  set (g3 := with_numbers ns _) in *. assert (Hg3 : forall b, g_bucket g3 b = if decide (a = b) then l else g_bucket g b) by (intros b; apply bucket_with).
  assert (Hok : pool_ok tp3 g3).
  { split; [done|by destruct Hp1|]. destruct Hc as [Hct Hcn]. split.
    - specialize (Ht2 true). rewrite Ht1 in Ht2. rewrite Ht3. rewrite decide_False in Ht2 by done.
      cbn [g3 g_turns g_utxos with_numbers with_turns with_items with_bucket] in *. lia.
    - intros b. specialize (Hn3 b). specialize (Hcn b). rewrite Hg3. rewrite Hn2, Hn1 in Hn3.
      cbn [g3 g_numbers with_numbers with_turns with_items with_bucket] in *.
      destruct (decide (a = b)) as [<-|]; [rewrite Eb in Hcn; cbn in Hcn|]; lia. }
  destruct (IH tp3 g3 (p_Pop q).2 Hok) as (tp' & g' & q' & E' & Hok' & Hb' & Hu' & Hi').
  { by rewrite Hb3, Hb2. } { rewrite Hg3, decide_True by done. cbn in Hl. lia. }
  exists tp', g', q'. split; [done|]. split; [done|]. split; [done|]. split; [done|]. rewrite Hi'.
  apply (filter_items_drop _ _ _ _ x); [done|]. unfold below, account_of. rewrite Hax. split; [done|lia].
Qed.

(** ** The specification

    The state is the waiting transactions without a sequence, in order of
    arrival, and all waiting transactions by hash. *)

Inductive top_ :=
  | TPush (ChainID t : Z) (TxHash : Hash256) (tx : Tx) (sigs : list Signature) (signers : list PublicHash)
  | TRemove (TxHash : Hash256) (tx : Tx)
  | TPop (Seq : Address -> Z).

Definition run_top (tp : pool) (op : top_) : res (option pitem) * pool :=
  match op with
  | TPush c t h tx sigs signers => (tp_Push c t h tx sigs signers ;;; ret None) tp
  | TRemove h tx => (tp_Remove h tx ;;; ret None) tp
  | TPop Seq => UnsafePop Seq tp
  end.

Definition top_ok (op : top_) : Prop :=
  match op with
  | TPush _ _ h tx _ _ | TRemove h tx => tx = tx_of h
  | TPop _ => True
  end.

(** The sequence of [x] has been used already. *)
Definition outdated (Seq : Address -> Z) (x : pitem) : Prop :=
  exists s a, account_of x = Some (s, a) /\ (s < u64 (Seq a + 1))%Z.

(** Only transactions with a used sequence are dropped. *)
Definition drops (Seq : Address -> Z) (c c' : gmap Hash256 pitem) : Prop :=
  c' ⊆ c /\ forall h x, c !! h = Some x -> c' !! h = None -> outdated Seq x.

Definition content : Type := list (Hash256 * pitem) * gmap Hash256 pitem.

Inductive pool_step : content -> top_ -> res (option pitem) -> content -> Prop :=
  | step_exist us c cid t h tx sigs signers x :
      c !! h = Some x -> pool_step (us, c) (TPush cid t h tx sigs signers) (Err ErrExistTransaction) (us, c)
  | step_exist_seq us c cid t h tx sigs signers s a h' x :
      c !! h = None -> tx_account tx = Some (s, a) -> c !! h' = Some x -> account_of x = Some (s, a) ->
      pool_step (us, c) (TPush cid t h tx sigs signers) (Err ErrExistTransactionSeq) (us, c)
  | step_push us c cid t h tx sigs signers s a :
      c !! h = None -> tx_account tx = Some (s, a) -> (forall h' x, c !! h' = Some x -> account_of x <> Some (s, a)) ->
      pool_step (us, c) (TPush cid t h tx sigs signers) (Ok None) (us, <[h := mkPoolItem cid t h tx sigs signers]> c)
  | step_push_utxo us c cid t h tx sigs signers :
      c !! h = None -> tx_account tx = None ->
      let x := mkPoolItem cid t h tx sigs signers in
      pool_step (us, c) (TPush cid t h tx sigs signers) (Ok None) (us ++ [(h, x)], <[h := x]> c)
  | step_remove_utxo us c h tx :
      tx_account tx = None ->
      pool_step (us, c) (TRemove h tx) (Ok None) (base.filter (fun e => e.1 <> h) us, delete h c)
  | step_remove us c h tx s a :
      tx_account tx = Some (s, a) ->
      pool_step (us, c) (TRemove h tx) (Ok None) (us, base.filter (fun e => ~ below a s e.2) c)
  | step_pop_none us c c' Seq :
      drops Seq c c' -> pool_step (us, c) (TPop Seq) (Ok None) (us, c')
  | step_pop_utxo us c Seq h x :
      pool_step ((h, x) :: us, c) (TPop Seq) (Ok (Some x)) (us, delete h c)
  | step_pop us c c' Seq h x a :
      drops Seq c c' -> c' !! h = Some x -> account_of x = Some (u64 (Seq a + 1), a) ->
      (forall h' y, c' !! h' = Some y -> ~ below a (u64 (Seq a + 1)) y) ->
      pool_step (us, c) (TPop Seq) (Ok (Some x)) (us, delete h c').

Inductive pool_run : content -> list top_ -> list (res (option pitem)) -> content -> Prop :=
  | run_nil s : pool_run s [] [] s
  | run_cons s op r s' ops rs s'' : pool_step s op r s' -> pool_run s' ops rs s'' -> pool_run s (op :: ops) (r :: rs) s''.

(** *** Push *)

Lemma placed_add_utxo g h x : placed g -> g_items g !! h = None -> account_of x = None -> pi_TxHash x = h -> pi_Transaction x = tx_of h ->
  placed (with_items (<[h := x]> (g_items g)) (with_utxos (spec_Push h x (g_utxos g, g_stale g)) g)).
Proof.
  intros [Hu Hb Hh Hs Hst] Hn Ha Hx Htx. split; cbn [g_utxos g_items g_stale g_bucket with_items with_utxos spec_Push fst snd].
  - intros k y. rewrite elem_of_app, list_elem_of_singleton, Hu, lookup_insert_Some. split.
    + intros [[Hk Hy]|[= -> ->]]; [|tauto]. split; [|done]. right. split; [|done]. intros <-. congruence.
    + intros [[[<- <-]|[? ?]] ?]; [by right|left; tauto].
  - intros a y t. rewrite Hb, lookup_insert_Some. split; [|intros [[[E <-]|[? ?]] ?]; [congruence|tauto]].
    intros [Hy Hay]. split; [|done]. right. split; [|done]. intros E. congruence.
  - intros k y [[<- <-]|[_ Hy]]%lookup_insert_Some; [done|by apply Hh].
  - done.
  - intros k y [_ Hy]%lookup_delete_Some. by eapply Hst.
Qed.

Lemma find_priority_some (l : list (pitem * Z)) P x : find_priority l P = Some x -> (x, P) ∈ l.
Proof.
  induction l as [|[y t] l IH]; [done|]. cbn. destruct (Z.eqb_spec t P) as [->|]; [intros [= ->]; set_solver|].
  intros E. apply elem_of_cons. right. by apply IH.
Qed.

Lemma find_priority_none_inv (l : list (pitem * Z)) P x : find_priority l P = None -> (x, P) ∉ l.
Proof.
  induction l as [|[y t] l IH]; cbn; [set_solver|]. destruct (Z.eqb_spec t P) as [->|Hne]; [done|].
  intros Hf [[= -> ->]|Hin]%elem_of_cons; [done|]. by apply IH.
Qed.

Lemma placed_add g h x s a : placed g -> g_items g !! h = None -> account_of x = Some (s, a) -> pi_TxHash x = h -> pi_Transaction x = tx_of h ->
  find_priority (g_bucket g a) s = None ->
  placed (with_items (<[h := x]> (g_items g)) (with_bucket a (insert_by_priority (x, s) (g_bucket g a)) g)).
Proof.
  intros [Hu Hb Hh Hs Hst] Hn Ha Hx Htx Hf.
  assert (Hfresh : s ∉ (g_bucket g a).*2).
  { intros ([y t] & Et & Hin)%list_elem_of_fmap_1. cbn in Et. subst t. by apply (find_priority_none_inv _ _ y) in Hf. }
  split; cbn [g_utxos g_items g_stale with_items with_bucket].
  - intros k y. rewrite Hu, lookup_insert_Some. split; [|intros [[[<- <-]|[? ?]] ?]; [congruence|tauto]].
    intros [Hy Hay]. split; [|done]. right. split; [|done]. intros <-. congruence.
  - intros b y t. change (g_bucket (with_items _ _) b) with (g_bucket (with_bucket a (insert_by_priority (x, s) (g_bucket g a)) g) b).
    rewrite bucket_with, lookup_insert_Some. destruct (decide (a = b)) as [<-|Hne].
    + rewrite insert_by_priority_perm, elem_of_cons, Hb. split.
      * intros [[= -> ->]|[Hy Hay]]; [by split; [left|]|]. split; [|done]. right. split; [|done]. intros E. congruence.
      * intros [[[E <-]|[? ?]] Hay]; [left; congruence|by right].
    + rewrite Hb. split; [|intros [[[E <-]|[? ?]] Hay]; [congruence|tauto]].
      intros [Hy Hay]. split; [|done]. right. split; [|done]. intros E. congruence.
  - intros k y [[<- <-]|[_ Hy]]%lookup_insert_Some; [done|by apply Hh].
  - intros b. change (g_bucket (with_items _ _) b) with (g_bucket (with_bucket a (insert_by_priority (x, s) (g_bucket g a)) g) b).
    rewrite bucket_with. case_decide; [|done]. rewrite insert_by_priority_perm. cbn. apply NoDup_cons. by split.
  - done.
Qed.


Definition content_of (g : ghost) : content := (g_utxos g, g_items g).

(** Fields of an updated pool or ghost state. *)
Ltac fields :=
  cbn [g_turns g_numbers g_utxos g_stale g_items with_turns with_numbers with_utxos with_items with_bucket spec_Push fst snd
       tp_turnQ tp_numberQ tp_utxoQ tp_txhashMap tp_turnOutMap tp_numberOutMap tp_bucketMap
       set_turnQ set_numberQ set_utxoQ set_txhashMap set_turnOutMap set_numberOutMap set_bucketMap].

(** What an operation promises of its step. *)
Definition step_ok (tp : pool) (g : ghost) (op : top_) : Prop :=
  exists r tp' g', run_top tp op = (r, tp') /\ pool_ok tp' g' /\ pool_step (content_of g) op r (content_of g').

Lemma then_None (m : ST pool unit) tp tp' : m tp = (Ok tt, tp') -> (m ;;; ret None) tp = (Ok (None : option pitem), tp').
Proof. intros E. by erewrite bind_ok by exact E. Qed.

Lemma push_known tp g cid t h tx sigs signers x : pool_ok tp g -> g_items g !! h = Some x ->
  step_ok tp g (TPush cid t h tx sigs signers).
Proof.
  intros Hok Hx. eexists _, tp, g. split; [|split; [done|by eapply step_exist]]. cbn [run_top]. unfold tp_Push.
  apply bind_err. erewrite bind_ok by reflexivity. unfold IsExist. rewrite (r_hashes _ _ (ok_rep _ _ Hok)).
  rewrite bool_decide_eq_true_2 by (by eapply elem_of_dom_2). done.
Qed.

Lemma push_utxo tp g cid t h tx sigs signers : pool_ok tp g -> tx = tx_of h -> g_items g !! h = None -> tx_account tx = None ->
  step_ok tp g (TPush cid t h tx sigs signers).
Proof.
  intros [Hr Hp Hc] Htx Hn Ha. set (x := mkPoolItem cid t h tx sigs signers).
  assert (Hk : h ∉ (g_utxos g, g_stale g).1.*1).
  { cbn. intros ([k y] & -> & Hin)%list_elem_of_fmap_1. apply (pl_utxos _ Hp) in Hin as [? _]. cbn in *. congruence. }
  destruct (k_Push_abs _ _ h x (r_utxos _ _ Hr) Hk) as (q' & Eq & Hq').
  pose (tp' := set_txhashMap ({[h]} ∪ tp_txhashMap tp) (set_turnQ (f_Push (tp_turnQ tp) true) (set_utxoQ q' tp))).
  pose (g' := with_turns (g_turns g ++ [true]) (with_items (<[h := x]> (g_items g)) (with_utxos (spec_Push h x (g_utxos g, g_stale g)) g))).
  exists (Ok None), tp', g'. split; [|split].
  - assert (He : IsExist tp h = false) by (apply bool_decide_eq_false_2; rewrite (r_hashes _ _ Hr); by apply not_elem_of_dom).
    cbn [run_top]. apply then_None. unfold tp_Push, bind, gets, on_utxoQ. rewrite He, Ha. fold x. by rewrite Eq.
  - split; [|by destruct (placed_add_utxo g h x)|].
    + destruct Hr as [? ? ? ? Hh]. split; cbn; try done; [by apply f_Push_abs|by rewrite dom_insert_L, Hh].
    + destruct Hc as [Hct Hcn]. split; [|done]. unfold g', tp'. fields. rewrite cnt_app, cnt_one, length_app. cbn [length]. rewrite decide_True by done. lia.
  - by apply step_push_utxo.
Qed.

Lemma push_account tp g cid t h tx sigs signers s a : pool_ok tp g -> tx = tx_of h -> g_items g !! h = None -> tx_account tx = Some (s, a) ->
  step_ok tp g (TPush cid t h tx sigs signers).
Proof.
  intros [Hr Hp Hc] Htx Hn Ha. set (x := mkPoolItem cid t h tx sigs signers).
  set (q := match tp_bucketMap tp !! a with Some q => q | None => p_New end).
  assert (Hq : p_abs q (g_bucket g a)).
  { unfold q. pose proof (r_buckets _ _ Hr a) as Hb. destruct (tp_bucketMap tp !! a); [done|]. rewrite Hb. apply p_New_abs. }
  destruct (set_bucket_rep tp g a q (g_bucket g a) Hr Hq) as (tp1 & E1 & Hr1 & _ & Ht1 & Hn1).
  assert (Hstart : forall r tp', (let '(found, q') := p_FindOrInsert q x s in
      set_bucket a q' ;;; match found with Some _ => fail ErrExistTransactionSeq | None => numberQ_Push a ;;; turnQ_Push false end) tp1 = (r, tp') ->
      tp_Push cid t h tx sigs signers tp = match r with Ok _ => (Ok tt, set_txhashMap ({[h]} ∪ tp_txhashMap tp') tp') | _ => (r, tp') end).
  { intros r tp' E. unfold tp_Push. erewrite bind_ok by reflexivity. unfold IsExist.
    rewrite (r_hashes _ _ Hr), bool_decide_eq_false_2 by (by rewrite not_elem_of_dom). rewrite Ha. fold x. unfold bind at 1.
    erewrite bind_ok by reflexivity. fold q. erewrite bind_ok by exact E1. destruct (p_FindOrInsert q x s) as [found q'].
    rewrite E. by destruct r. }
  destruct (p_FindOrInsert_abs q (g_bucket g a) x s Hq) as [(q' & Hf & Ef & Hq')|(y & Hf & Ef)].
  - destruct (set_bucket_rep tp1 _ a q' _ Hr1 Hq') as (tp2 & E2 & Hr2 & _ & Ht2 & Hn2).
    destruct (numberQ_Push_rep tp2 _ a Hr2) as (tp3 & E3 & Hr3 & Ht3 & Hn3).
    destruct (turnQ_Push_rep tp3 _ false Hr3) as (tp4 & E4 & Hr4 & Ht4 & Hn4).
    pose (g' := with_turns (g_turns g ++ [false]) (with_numbers (g_numbers g ++ [a])
      (with_items (<[h := x]> (g_items g)) (with_bucket a (insert_by_priority (x, s) (g_bucket g a)) g)))).
    assert (Hgb : forall b, g_bucket g' b = if decide (a = b) then insert_by_priority (x, s) (g_bucket g a) else g_bucket g b) by (intros b; apply bucket_with).
    eexists _, _, g'. split; [|split].
    + cbn [run_top]. apply then_None. apply (Hstart (Ok tt) tp4). rewrite Ef. erewrite bind_ok by exact E2. by erewrite bind_ok by exact E3.
    + split; [|by destruct (placed_add g h x s a)|].
      * destruct Hr4 as [? ? ? Hb Hh]. split; try done.
        -- intros b. rewrite Hgb. specialize (Hb b). cbn [g_bucket with_turns with_numbers] in Hb. rewrite !bucket_with in Hb.
           by destruct (decide (a = b)).
        -- cbn. cbn in Hh. by rewrite dom_insert_L, Hh.
      * destruct Hc as [Hct Hcn]. split.
        -- unfold g'. fields. rewrite Ht4, Ht3, Ht2, Ht1, cnt_app, cnt_one, decide_False by done. lia.
        -- intros b. rewrite Hgb. unfold g'. fields. rewrite Hn4, Hn3, Hn2, Hn1, cnt_app, cnt_one, (Hcn b).
           destruct (decide (a = b)) as [<-|]; [rewrite insert_by_priority_perm; cbn [length]|]; lia.
    + eapply step_push; [done|exact Ha|]. intros h' y Hy Hay. destruct (pl_hash _ Hp _ _ Hy) as [<- _].
      eapply find_priority_none_inv; [exact Hf|]. by apply (pl_buckets _ Hp).
  - destruct (set_bucket_rep tp1 _ a q _ Hr1 Hq) as (tp2 & E2 & Hr2 & _ & Ht2 & Hn2).
    eexists _, tp2, g. split; [|split].
    + cbn [run_top]. apply bind_err. apply (Hstart (Err ErrExistTransactionSeq) tp2). rewrite Ef. by erewrite bind_ok by exact E2.
    + split; [|done|].
      * destruct Hr2 as [? ? ? Hb Hh]. split; try done. intros b. specialize (Hb b). rewrite !bucket_with in Hb.
        by destruct (decide (a = b)) as [<-|].
      * destruct Hc as [Hct Hcn]. split; [by rewrite Ht2, Ht1|]. intros b. by rewrite Hn2, Hn1.
    + pose proof (find_priority_some _ _ _ Hf) as Hin. apply (pl_buckets _ Hp) in Hin as [Hy Hay]. by eapply step_exist_seq.
Qed.

(** *** Remove *)

Lemma remove_account tp g h tx s a : pool_ok tp g -> tx_account tx = Some (s, a) -> step_ok tp g (TRemove h tx).
Proof.
  intros Hok Ha. unfold step_ok. cbn [run_top]. unfold tp_Remove. rewrite Ha.
  destruct (tp_bucketMap tp !! a) as [q|] eqn:Eq.
  - destruct (remove_loop_ok (p_Size q + 1) tp g a s q Hok Eq) as (tp1 & g1 & q1 & E1 & Hok1 & Hb1 & Hu1 & Hi1).
    { rewrite (p_Size_abs _ _ (rep_bucket _ _ _ _ (ok_rep _ _ Hok) Eq)). lia. }
    assert (Hend : exists tp2, (if p_Size q1 =? 0 then drop_bucket a else ret tt) tp1 = (Ok tt, tp2) /\ pool_ok tp2 g1).
    { destruct Hok1 as [Hr1 Hp1 Hc1]. rewrite (p_Size_abs _ _ (rep_bucket _ _ _ _ Hr1 Hb1)).
      destruct (g_bucket g1 a) as [|e l] eqn:Eb; cbn [length Nat.eqb]; [|by exists tp1].
      destruct (drop_bucket_rep tp1 g1 a Hr1 Eb) as (tp2 & E2 & Hr2 & Ht2 & Hn2). exists tp2. split; [done|]. split; [done..|].
      destruct Hc1 as [Hct Hcn]. split; [by rewrite Ht2|]. intros b. by rewrite Hn2. }
    destruct Hend as (tp2 & E2 & Hok2). exists (Ok None), tp2, g1. split; [|split; [done|]].
    + apply then_None. erewrite bind_ok by reflexivity. rewrite Eq. erewrite bind_ok by exact E1. exact E2.
    + unfold content_of. rewrite Hu1, Hi1. by apply step_remove.
  - exists (Ok None), tp, g. split; [|split; [done|]].
    + apply then_None. erewrite bind_ok by reflexivity. by rewrite Eq.
    + unfold content_of. rewrite <- (filter_items_id (g_items g) a s) at 2; [by apply step_remove|].
      intros k x Hx. unfold below. destruct (account_of x) as [[t b]|] eqn:Ex; [|tauto]. intros [-> _].
      destruct (pl_hash _ (ok_placed _ _ Hok) k x Hx) as [<- _].
      assert (Hin : (x, t) ∈ g_bucket g a) by (by apply (pl_buckets _ (ok_placed _ _ Hok))).
      pose proof (r_buckets _ _ (ok_rep _ _ Hok) a) as Hb. rewrite Eq in Hb. rewrite Hb in Hin. set_solver.
Qed.

(** The hash of a transaction without a sequence is known iff it is in the linked queue. *)
Lemma utxo_known g h : placed g -> tx_account (tx_of h) = None -> h ∉ (g_utxos g).*1 -> g_items g !! h = None.
Proof.
  intros Hp Ha Hn. destruct (g_items g !! h) as [x|] eqn:Ex; [|done]. destruct (pl_hash _ Hp h x Ex) as [_ Htx].
  destruct Hn. assert (Hin : (h, x) ∈ g_utxos g) by (apply (pl_utxos _ Hp); split; [done|]; unfold account_of; by rewrite Htx).
  by eapply (list_elem_of_fmap_2' fst).
Qed.

Lemma placed_cut g h xs1 x xs2 ts : placed g -> NoDup (g_utxos g).*1 -> g_utxos g = xs1 ++ (h, x) :: xs2 ->
  placed (with_items (delete h (g_items g)) (with_turns ts (with_utxos (xs1 ++ xs2, <[h := x]> (g_stale g)) g))).
Proof.
  intros [Hu Hb Hh Hs Hst] Hnd Eu.
  assert (Hx : g_items g !! h = Some x /\ account_of x = None) by (apply Hu; rewrite Eu; set_solver). destruct Hx as [Hx Hax].
  split; fields; try done.
  - intros k y. rewrite lookup_delete_Some. rewrite <- (filter_cut xs1 xs2 h x) by (by rewrite <- Eu).
    rewrite <- Eu, list_elem_of_filter, Hu. cbn. split; intros; destruct_and!; split_and!; try done; congruence.
  - intros a y t. change (g_bucket _ a) with (g_bucket g a). rewrite Hb, lookup_delete_Some. split; [|tauto]. intros [Hy Hay]. split; [|done]. split; [|done].
    intros ->. congruence.
  - intros k y [_ Hy]%lookup_delete_Some. by apply Hh.
  - intros k y [[<- <-]|[_ Hy]]%lookup_insert_Some; [|by eapply Hst]. destruct (Hh _ _ Hx) as [_ <-]. done.
Qed.

Lemma delete_absent (c : gmap Hash256 pitem) h : c !! h = None -> delete h c = c.
Proof. apply delete_id. Qed.

Lemma remove_utxo tp g h tx : pool_ok tp g -> tx = tx_of h -> tx_account tx = None -> step_ok tp g (TRemove h tx).
Proof.
  intros Hok Htx Ha. pose proof Hok as [Hr Hp Hc]. unfold step_ok. cbn [run_top]. unfold tp_Remove. rewrite Ha.
  pose proof (k_keys _ _ (r_utxos _ _ Hr)) as Hnd. cbn [fst] in Hnd.
  destruct (k_Remove_abs _ _ h (r_utxos _ _ Hr)) as (q' & Eq & Hq').
  assert (E1 : on_utxoQ (k_Remove h) tp = (Ok (spec_Remove h (g_utxos g, g_stale g)).1, set_utxoQ q' tp)) by (unfold on_utxoQ; by rewrite Eq).
  assert (Hr1 : rep (set_utxoQ q' tp) (with_utxos (spec_Remove h (g_utxos g, g_stale g)).2 g)).
  { destruct Hr. split; try done. cbn. by destruct (spec_Remove h _) as [? [? ?]]. }
  assert (Hgone : h ∉ (g_utxos g).*1 -> (spec_Remove h (g_utxos g, g_stale g)).2 = (g_utxos g, g_stale g) /\
    g_items g !! h = None /\ base.filter (fun e => e.1 <> h) (g_utxos g) = g_utxos g).
  { intros Hn. split; [|split; [by apply utxo_known; subst|]].
    - unfold spec_Remove. cbn [fst snd]. destruct (g_utxos g); [done|]. by rewrite not_elem_of_list_to_map_1.
    - apply filter_all, Forall_forall. intros e He <-. apply Hn. by apply list_elem_of_fmap_2. }
  (* what is left to do when the linked queue returned an item *)
  assert (Hrest : forall g1, rep (set_utxoQ q' tp) g1 -> exists tp3 ts,
    (take_turn true ;;; forget h) (set_utxoQ q' tp) = (Ok tt, tp3) /\ rep tp3 (with_items (delete h (g_items g1)) (with_turns ts g1)) /\
    tp_numberOutMap tp3 = tp_numberOutMap tp /\ cnt true ts + 1 + out_of (tp_turnOutMap tp) true = cnt true (g_turns g1) + out_of (tp_turnOutMap tp3) true).
  { intros g1 Hg1. destruct (take_turn_rep _ _ true Hg1) as (tp2 & ts & E2 & Hr2 & Hb2 & Hn2 & Ht2).
    destruct (forget_rep tp2 _ h Hr2) as (tp3 & E3 & Hr3 & Hb3 & Ht3 & Hn3). exists tp3, ts.
    split; [by erewrite bind_ok by exact E2|]. split; [done|]. split; [by rewrite Hn3, Hn2|]. rewrite Ht3. specialize (Ht2 true).
    rewrite decide_True in Ht2 by done. exact Ht2. }
  destruct (decide (h ∈ (g_utxos g).*1)) as [Hin|Hn].
  - apply list_elem_of_fmap_1 in Hin as ([k x] & -> & Hin). cbn [fst] in *. pose proof Hin as Hin'.
    apply list_elem_of_split in Hin as (xs1 & xs2 & Eu).
    assert (Espec : spec_Remove k (g_utxos g, g_stale g) = (Some x, (xs1 ++ xs2, <[k := x]> (g_stale g)))).
    { unfold spec_Remove. cbn [fst snd]. destruct (g_utxos g) as [|e l] eqn:El; [by destruct xs1|]. rewrite <- El in *.
      rewrite (elem_of_list_to_map_1 (M := gmap Hash256) _ _ x) by done. rewrite Eu at 1. by rewrite filter_cut by (by rewrite <- Eu). }
    rewrite Espec in *. cbn [fst snd] in *. destruct (Hrest _ Hr1) as (tp3 & ts & E3 & Hr3 & Hn3 & Ht3).
    eexists (Ok None), tp3, _. split; [|split; [split; [exact Hr3| |]|]].
    + apply then_None. erewrite bind_ok by exact E1. exact E3.
    + fields. by apply placed_cut.
    + destruct Hc as [Hct Hcn]. split; [|intros b; rewrite Hn3; apply Hcn]. fields. change (g_turns (with_utxos _ g)) with (g_turns g) in Ht3.
      rewrite Eu in Hct. rewrite length_app in *. cbn [length] in *. lia.
    + unfold content_of. fields. rewrite <- (filter_cut xs1 xs2 k x) by (by rewrite <- Eu). rewrite <- Eu. by apply step_remove_utxo.
  - destruct (Hgone Hn) as (Es & Hi & Hfl). rewrite Es in *.
    assert (Hstep : forall g', g_utxos g' = g_utxos g -> g_items g' = delete h (g_items g) -> pool_step (content_of g) (TRemove h tx) (Ok None) (content_of g')).
    { intros g' Eu Ei. unfold content_of. rewrite Eu, Ei. rewrite <- Hfl at 2. by apply step_remove_utxo. }
    destruct (spec_Remove h (g_utxos g, g_stale g)).1 as [x|].
    + destruct (Hrest _ Hr1) as (tp3 & ts & E3 & Hr3 & Hn3 & Ht3).
      eexists (Ok None), tp3, _. split; [|split; [split; [exact Hr3| |]|by apply Hstep]].
      * apply then_None. erewrite bind_ok by exact E1. exact E3.
      * fields. rewrite delete_absent by done. by destruct Hp.
      * destruct Hc as [Hct Hcn]. split; [|intros b; rewrite Hn3; apply Hcn]. fields. change (g_turns (with_utxos _ g)) with (g_turns g) in Ht3. lia.
    + exists (Ok None), (set_utxoQ q' tp), g. split; [|split; [|apply Hstep; [done|by rewrite delete_absent]]].
      * apply then_None. by erewrite bind_ok by exact E1.
      * split; [by destruct g|done|]. by destruct Hc.
Qed.

(** *** Pop *)

Lemma drops_refl Seq c : drops Seq c c.
Proof. split; [done|]. intros h x Hx Hn. congruence. Qed.

Lemma drops_delete Seq c c' h x : c !! h = Some x -> outdated Seq x -> drops Seq (delete h c) c' -> drops Seq c c'.
Proof.
  intros Hx Ho [Hsub Hd]. split; [etrans; [exact Hsub|apply delete_subseteq]|]. intros k y Hy Hn.
  destruct (decide (h = k)) as [<-|]; [congruence|]. apply (Hd k y); [by rewrite lookup_delete_ne|done].
Qed.

(** What the loop over the senders promises. *)
Definition pop_result (Seq : Address -> Z) (g : ghost) (r : option pitem) (g' : ghost) : Prop :=
  g_utxos g' = g_utxos g /\ exists c', drops Seq (g_items g) c' /\
    match r with
    | None => g_items g' = c'
    | Some x => exists a, c' !! pi_TxHash x = Some x /\ account_of x = Some (u64 (Seq a + 1), a) /\
        (forall h' y, c' !! h' = Some y -> ~ below a (u64 (Seq a + 1)) y) /\ g_items g' = delete (pi_TxHash x) c'
    end.

Lemma pop_result_none Seq g g' : g_utxos g' = g_utxos g -> g_items g' = g_items g -> pop_result Seq g None g'.
Proof. intros Hu Hi. split; [done|]. exists (g_items g). split; [apply drops_refl|done]. Qed.

Lemma pop_result_drop Seq g g1 r g' h x : g_utxos g1 = g_utxos g -> g_items g1 = delete h (g_items g) ->
  g_items g !! h = Some x -> outdated Seq x -> pop_result Seq g1 r g' -> pop_result Seq g r g'.
Proof.
  intros Hu Hi Hx Ho (Hu' & c' & Hd & Hr). split; [by rewrite Hu'|]. exists c'. split; [|done]. rewrite Hi in Hd. by eapply drops_delete.
Qed.

(** The front of a bucket whose number was just taken leaves the pool. *)
Lemma pop_bucket_ok tp g a q x s l ns : rep tp (with_numbers ns g) -> placed g -> tp_bucketMap tp !! a = Some q ->
  g_bucket g a = (x, s) :: l -> cnt true (g_turns g) <= length (g_utxos g) + out_of (tp_turnOutMap tp) true ->
  (forall b, cnt b ns + (if decide (a = b) then 1 else 0) = length (g_bucket g b) + out_of (tp_numberOutMap tp) b) ->
  exists tp' g', pop_bucket a q x tp = (Ok tt, tp') /\ pool_ok tp' g' /\
    g_utxos g' = g_utxos g /\ g_items g' = delete (pi_TxHash x) (g_items g).
Proof.
  intros Hr Hp Ha Eb Hct Hcn. assert (Hp1 : placed (with_numbers ns g)) by (by destruct Hp).
  destruct (pop_front tp _ a q x s l Hr Hp1 Ha Eb) as (tp1 & E1 & Hr1 & Hp2 & Hb1 & Hq1 & Ht1 & Hn1).
  set (g1 := with_items _ _) in *.
  assert (Hg1 : forall b, g_bucket g1 b = if decide (a = b) then l else g_bucket g b) by exact (bucket_with a l (with_numbers ns g)).
  assert (Hc1 : counted tp1 g1).
  { split; [by rewrite Ht1|]. intros b. rewrite Hg1, Hn1. specialize (Hcn b). change (g_numbers g1) with ns.
    destruct (decide (a = b)) as [<-|]; [rewrite Eb in Hcn; cbn [length] in Hcn|]; lia. }
  apply bind_ok_inv in E1 as (u & tp0 & E0 & E1). destruct u. unfold pop_bucket. erewrite bind_ok by exact E0. erewrite bind_ok by exact E1.
  rewrite (p_Size_abs _ _ Hq1). destruct l as [|e l]; cbn [length Nat.eqb]; [|by exists tp1, g1].
  destruct (drop_bucket_rep tp1 g1 a Hr1) as (tp2 & E2 & Hr2 & Ht2 & Hn2); [by rewrite Hg1, decide_True|].
  exists tp2, g1. split; [done|]. split; [|done]. split; [done..|]. destruct Hc1 as [Hct' Hcn']. split; [by rewrite Ht2|]. intros b. by rewrite Hn2.
Qed.

(** A number put back. *)
Lemma put_back_ok tp g a ns : rep tp (with_numbers ns g) -> placed g ->
  cnt true (g_turns g) <= length (g_utxos g) + out_of (tp_turnOutMap tp) true ->
  (forall b, cnt b ns + (if decide (a = b) then 1 else 0) = length (g_bucket g b) + out_of (tp_numberOutMap tp) b) ->
  exists tp', numberQ_Push a tp = (Ok tt, tp') /\ pool_ok tp' (with_numbers (ns ++ [a]) g).
Proof.
  intros Hr Hp Hct Hcn. destruct (numberQ_Push_rep tp _ a Hr) as (tp' & E & Hr' & Ht' & Hn'). exists tp'. split; [done|].
  split; [done|by destruct Hp|]. split; [by rewrite Ht'|]. intros b. specialize (Hcn b). rewrite Hn'. fields.
  rewrite cnt_app, cnt_one. exact Hcn.
Qed.

Lemma push_false_ok tp g : pool_ok tp g -> exists tp', turnQ_Push false tp = (Ok tt, tp') /\ pool_ok tp' (with_turns (g_turns g ++ [false]) g).
Proof.
  intros [Hr Hp Hc]. destruct (turnQ_Push_rep tp g false Hr) as (tp' & E & Hr' & Ht' & Hn'). exists tp'. split; [done|].
  split; [done|by destruct Hp|]. destruct Hc as [Hct Hcn]. split; [|intros b; rewrite Hn'; apply Hcn]. fields.
  rewrite cnt_app, cnt_one, decide_False, Ht' by done. lia.
Qed.

Lemma take_false_ok tp g : pool_ok tp g -> exists tp' ts, take_turn false tp = (Ok tt, tp') /\ pool_ok tp' (with_turns ts g).
Proof.
  intros [Hr Hp Hc]. destruct (take_turn_rep tp g false Hr) as (tp' & ts & E & Hr' & Hb' & Hn' & Ht'). exists tp', ts. split; [done|].
  split; [done|by destruct Hp|]. destruct Hc as [Hct Hcn]. split; [|intros b; rewrite Hn'; apply Hcn].
  specialize (Ht' true). rewrite decide_False in Ht' by done. fields. lia.
Qed.

Lemma pop_loop_ok fuel Seq remain ignore tp g : pool_ok tp g -> Z.to_nat remain < fuel ->
  exists r tp' g', pop_loop fuel Seq remain ignore tp = (Ok r, tp') /\ pool_ok tp' g' /\ pop_result Seq g r g'.
Proof.
  revert remain ignore tp g. induction fuel as [|fuel IH]; intros remain ignore tp g Hok Hf; [lia|]. pose proof Hok as [Hr Hp [Hct Hcn]].
  cbn [pop_loop]. erewrite bind_ok by reflexivity. rewrite (f_Size_abs _ _ (r_numbers _ _ Hr)).
  destruct (next_number_rep (length (g_numbers g) + 1) remain tp g Hr ltac:(lia))
    as (tp1 & ns & r & rem & E1 & Hr1 & Hb1 & Ht1 & Hn1 & Hrem & Hm).
  erewrite bind_ok by exact E1. cbn [fst snd]. destruct r as [a|].
  2:{ exists None, tp1, (with_numbers ns g). split; [done|]. split; [|by apply pop_result_none]. split; [done|by destruct Hp|].
      split; [by rewrite Ht1|]. intros b. specialize (Hn1 b). specialize (Hcn b). rewrite decide_False in Hn1 by done. fields. unfold with_numbers. cbn [g_bucket]. lia. }
  destruct Hm as [Ha0 Hlt].
  assert (Hcn1 : forall b, cnt b ns + (if decide (a = b) then 1 else 0) = length (g_bucket g b) + out_of (tp_numberOutMap tp1) b).
  { intros b. specialize (Hn1 b). specialize (Hcn b). destruct (decide (a = b)) as [<-|]; [rewrite decide_True in Hn1 by done|rewrite decide_False in Hn1 by congruence]; lia. }
  assert (Hct1 : cnt true (g_turns g) <= length (g_utxos g) + out_of (tp_turnOutMap tp1) true) by (by rewrite Ht1).
  (* the number goes back and the loop goes on, or ends *)
  assert (Hback : forall ignore', exists r tp' g', (numberQ_Push a ;;;
      (if (0 <? rem)%Z then pop_loop fuel Seq rem ignore' else turnQ_Push false ;;; ret None)) tp1 = (Ok r, tp') /\ pool_ok tp' g' /\ pop_result Seq g r g').
  { intros ignore'. destruct (put_back_ok tp1 g a ns Hr1 Hp Hct1 Hcn1) as (tp2 & E2 & Hok2). erewrite bind_ok by exact E2.
    destruct (Z.ltb_spec 0 rem).
    - destruct (IH rem ignore' tp2 _ Hok2 ltac:(lia)) as (r & tp' & g' & E' & Hok' & Hres). by exists r, tp', g'.
    - destruct (push_false_ok tp2 _ Hok2) as (tp3 & E3 & Hok3). erewrite bind_ok by exact E3. eexists None, tp3, _. split; [done|]. split; [exact Hok3|by apply pop_result_none]. }
  destruct (bool_decide (a ∈ ignore)); [apply Hback|]. erewrite bind_ok by reflexivity.
  destruct (g_bucket g a) as [|[x s] l] eqn:Eb.
  { specialize (Hcn1 a). rewrite decide_True, Eb, Ha0 in Hcn1 by done. cbn in Hcn1. lia. }
  pose proof (r_buckets _ _ Hr1 a) as Hq. change (g_bucket (with_numbers ns g) a) with (g_bucket g a) in Hq. rewrite Eb in Hq.
  destruct (tp_bucketMap tp1 !! a) as [q|] eqn:Ea; [|done]. erewrite bind_ok by reflexivity.
  rewrite (p_Peek_abs _ _ Hq). erewrite bind_ok by reflexivity. cbn [fst].
  assert (Hx : (x, s) ∈ g_bucket g a) by (rewrite Eb; set_solver). apply (pl_buckets _ Hp) in Hx as [Hx Hax].
  pose proof Hax as Hax'. unfold account_of in Hax'. rewrite Hax'. erewrite bind_ok by reflexivity. cbn [fst].
  destruct (pop_bucket_ok tp1 g a q x s l ns Hr1 Hp Ea Eb Hct1 Hcn1) as (tp2 & g2 & E2 & Hok2 & Hu2 & Hi2).
  destruct (Z.ltb_spec s (u64 (Seq a + 1))) as [Hold|Hge].
  - erewrite bind_ok by exact E2. assert (Ho : outdated Seq x) by (by exists s, a). destruct (0 <? rem)%Z eqn:Erem.
    + apply Z.ltb_lt in Erem. destruct (take_false_ok tp2 g2 Hok2) as (tp3 & ts & E3 & Hok3). erewrite bind_ok by exact E3.
      destruct (IH rem ignore tp3 _ Hok3 ltac:(lia)) as (r & tp' & g' & E' & Hok' & Hres). exists r, tp', g'.
      split; [done|]. split; [done|]. by eapply (pop_result_drop Seq g (with_turns ts g2)).
    + exists None, tp2, g2. split; [done|]. split; [done|]. eapply (pop_result_drop Seq g g2); [done..|]. by apply pop_result_none.
  - destruct (Z.ltb_spec (u64 (Seq a + 1)) s) as [Hgt|Hle]; [apply Hback|]. assert (s = u64 (Seq a + 1)) as -> by lia.
    erewrite bind_ok by exact E2. exists (Some x), tp2, g2. split; [done|]. split; [done|]. split; [done|]. exists (g_items g).
    split; [apply drops_refl|]. exists a. split; [done|]. split; [done|]. split; [|done].
    apply (none_below tp1 (with_numbers ns g) a q); [done|by destruct Hp|done|]. intros y t l' E. change (g_bucket (with_numbers ns g) a) with (g_bucket g a) in E.
    rewrite Eb in E. injection E as <- <- <-. done.
Qed.

Lemma pop_ok tp g Seq : pool_ok tp g -> step_ok tp g (TPop Seq).
Proof.
  intros [Hr Hp [Hct Hcn]]. unfold step_ok. cbn [run_top]. unfold UnsafePop. erewrite bind_ok by reflexivity.
  rewrite (f_Size_abs _ _ (r_turns _ _ Hr)).
  destruct (next_turn_rep (length (g_turns g) + 1) tp g Hr ltac:(lia)) as (tp1 & ts & r & E1 & Hr1 & Hb1 & Hn1 & Ht1 & Hm).
  erewrite bind_ok by exact E1. set (g1 := with_turns ts g) in *. specialize (Ht1 true).
  assert (Hp1 : placed g1) by (by destruct Hp). destruct r as [[|]|].
  - rewrite decide_True in Ht1 by done. pose proof (k_keys _ _ (r_utxos _ _ Hr)) as Hnd. cbn [fst] in Hnd.
    destruct (k_Pop_abs _ _ (r_utxos _ _ Hr1)) as (q' & Eq & Hq'). unfold spec_Pop in *. cbn [fst snd] in *.
    change (g_utxos g1) with (g_utxos g) in *. change (g_stale g1) with (g_stale g) in *.
    destruct (g_utxos g) as [|[h x] us] eqn:Eu; [cbn in *; lia|]. cbn [head tail fmap option_fmap option_map snd] in *.
    assert (Hx : g_items g !! h = Some x /\ account_of x = None) by (apply (pl_utxos _ Hp); rewrite Eu; set_solver). destruct Hx as [Hx Hax].
    destruct (pl_hash _ Hp _ _ Hx) as [Hhx _].
    assert (Hr2 : rep (set_utxoQ q' tp1) (with_utxos (us, g_stale g) g1)) by (by destruct Hr1; split).
    destruct (forget_rep _ _ h Hr2) as (tp3 & E3 & Hr3 & Hb3 & Ht3 & Hn3).
    eexists (Ok (Some x)), tp3, _. split; [|split; [split; [exact Hr3| |]|]].
    + erewrite bind_ok by (unfold on_utxoQ; rewrite Eq; reflexivity). erewrite bind_ok by reflexivity. rewrite Hhx. by erewrite bind_ok by exact E3.
    + pose proof (placed_cut g h [] x us ts Hp ltac:(by rewrite Eu) Eu) as [Hu' Hb' Hh' Hs' Hst']. split; try done. apply (pl_stale _ Hp).
    + split; [|intros b; rewrite Hn3; cbn [tp_numberOutMap set_utxoQ]; rewrite Hn1; apply Hcn].
      fields. rewrite Ht3. cbn [tp_turnOutMap set_utxoQ length] in *. change (g_turns g1) with ts. lia.
    + unfold content_of. fields. rewrite Eu. apply step_pop_utxo.
  - rewrite decide_False in Ht1 by done.
    assert (Hok1 : pool_ok tp1 g1).
    { split; [done..|]. split; [change (g_turns g1) with ts; change (g_utxos g1) with (g_utxos g); lia|]. intros b. rewrite Hn1. apply Hcn. }
    erewrite bind_ok by reflexivity. set (n := f_Size (tp_numberQ tp1)).
    destruct (pop_loop_ok (n + 1) Seq (Z.of_nat n) ∅ tp1 g1 Hok1 ltac:(lia)) as (r & tp' & g' & E' & Hok' & Hu' & c' & Hd & Hres).
    exists (Ok r), tp', g'. split; [done|]. split; [done|]. unfold content_of. rewrite Hu'.
    change (g_utxos g1) with (g_utxos g). change (g_items g1) with (g_items g) in Hd. destruct r as [x|].
    + destruct Hres as (a & Hx & Hax & Hlow & ->). by eapply step_pop.
    + subst c'. by apply step_pop_none.
  - rewrite decide_False in Ht1 by done. exists (Ok None), tp1, g1. split; [done|]. split; [|apply step_pop_none, drops_refl].
    split; [done..|]. split; [change (g_turns g1) with ts; change (g_utxos g1) with (g_utxos g); lia|]. intros b. rewrite Hn1. apply Hcn.
Qed.

Lemma run_top_ok tp g op : pool_ok tp g -> top_ok op -> step_ok tp g op.
Proof.
  intros Hok Hop. destruct op as [cid t h tx sigs signers|h tx|Seq]; cbn in Hop.
  - destruct (g_items g !! h) as [x|] eqn:Ex; [by eapply push_known|].
    destruct (tx_account tx) as [[s a]|] eqn:Ea; [by eapply push_account|by apply push_utxo].
  - destruct (tx_account tx) as [[s a]|] eqn:Ea; [by eapply remove_account|by apply remove_utxo].
  - by apply pop_ok.
Qed.

(** The pool after a sequence of operations. *)
Definition run_pool (tp : pool) (ops : list top_) : pool := fold_left (fun tp op => (run_top tp op).2) ops tp.

Lemma run_pool_ok tp g ops : pool_ok tp g -> Forall top_ok ops ->
  exists g', pool_ok (run_pool tp ops) g' /\ pool_run (content_of g) ops (outputs run_top tp ops) (content_of g').
Proof.
  intros Hok Hops. revert tp g Hok. induction Hops as [|op ops Hop _ IH]; intros tp g Hok.
  { exists g. split; [done|constructor]. }
  destruct (run_top_ok tp g op Hok Hop) as (r & tp1 & g1 & E & Hok1 & Hstep). cbn [run_pool fold_left outputs]. rewrite E. cbn [snd].
  destruct (IH tp1 g1 Hok1) as (g' & Hok' & Hrun). exists g'. split; [done|]. by econstructor.
Qed.

(** [Remove] of a transaction with a sequence takes out those before it, and
    leaves the transaction itself in the pool. *)
Lemma Remove_keeps_its_target us c h tx r us' c' s a x :
  pool_step (us, c) (TRemove h tx) r (us', c') -> tx_account tx = Some (s, a) ->
  c !! h = Some x -> pi_Transaction x = tx -> c' !! h = Some x.
Proof.
  intros Hstep Ha Hx Htx. inversion Hstep; simplify_eq. apply map_lookup_filter_Some. split; [done|]. cbn.
  unfold below, account_of. rewrite Ha. intros [_ ?]. lia.
Qed.
End Spec.
Arguments top_ : clear implicits.

(** ** The pool on its own queues *)

Abbreviation Pool Tx := (TransactionPool (Queue bool) (Queue Address) (LinkedQueue Hash256 (PoolItem Tx)) (SortedQueue (PoolItem Tx))).

(** C14. The transaction pool, on its paged, linked and sorted queues, answers every
    sequence of [Push], [Remove] and [Pop] as the set of waiting transactions it
    stands for: no panic is possible and every loop ends; [Push] refuses exactly
    known hashes and used sequences; [Remove] takes out its transaction, or the
    sender's transactions with smaller sequences; [Pop] gives the oldest
    transaction without a sequence, or one whose sequence is the next of its
    sender, the smallest its sender has waiting, and drops only transactions
    whose sequence is used up; [IsExist] tells what is waiting. *)
Theorem pool_refines_spec (Proc Tx : Type) `{TransactionI Proc Tx} `{PagePool} (tx_of : Hash256 -> Tx) (ops : list (top_ Tx)) :
  Forall (top_ok tx_of) ops ->
  exists us c, pool_run ([], ∅) ops (outputs run_top (NewTransactionPool : Pool Tx) ops) (us, c) /\
    forall h, IsExist (run_pool (NewTransactionPool : Pool Tx) ops) h = bool_decide (h ∈ dom c).
Proof.
  intros Hops. destruct (run_pool_ok tx_of _ _ ops (NewTransactionPool_ok tx_of) Hops) as (g' & Hok & Hrun).
  exists (g_utxos g'), (g_items g'). split; [exact Hrun|]. intros h. unfold IsExist. by rewrite (r_hashes _ _ (ok_rep _ _ _ Hok)).
Qed.

(** ** A small pool

    Transactions that are just their sequence and sender, or nothing. *)

#[local] Instance plain_tx : TransactionI unit (option (Z * Address)) := {
  tx_Validate _ _ _ _ _ _ := ret tt; tx_Execute _ _ _ _ _ _ := ret tt; tx_account tx := tx
}.

Definition push_tx (h : Hash256) (tx : option (Z * Address)) : top_ (option (Z * Address)) := TPush 1 0 h tx [] [].
Definition plain_item (h : Hash256) (tx : option (Z * Address)) : PoolItem (option (Z * Address)) := mkPoolItem 1 0 h tx [] [].
Definition plain_pool : Pool (option (Z * Address)) := NewTransactionPool.

(** The hash [[k; s]] names the transaction of sender [[k]] with sequence [s], the
    others a transaction without sequence. *)
Definition plain_of (h : Hash256) : option (Z * Address) := match h with [k; s] => Some (s, [k]) | _ => None end.

Definition sample_ops : list (top_ (option (Z * Address))) :=
  [push_tx [1; 5]%Z (Some (5, [1])%Z); push_tx [9]%Z None; push_tx [1; 4]%Z (Some (4, [1])%Z); push_tx [1; 4]%Z (Some (4, [1])%Z);
   TPop (fun _ => 3%Z); TPop (fun _ => 3%Z); TRemove [8]%Z None; TPop (fun _ => 4%Z); TPop (fun _ => 5%Z)].

Lemma pool_refines_spec_witness :
  outputs run_top plain_pool sample_ops =
    [Ok None; Ok None; Ok None; Err ErrExistTransaction; Ok (Some (plain_item [1; 4]%Z (Some (4, [1])%Z)));
     Ok (Some (plain_item [9]%Z None)); Ok None; Ok (Some (plain_item [1; 5]%Z (Some (5, [1])%Z))); Ok None] /\
  exists us c, pool_run ([], ∅) sample_ops (outputs run_top plain_pool sample_ops) (us, c).
Proof.
  split; [vm_compute; reflexivity|].
  destruct (pool_refines_spec unit (option (Z * Address)) plain_of sample_ops) as (us & c & Hrun & _); [|by exists us, c].
  repeat (apply Forall_cons_2; [cbn; done|]). apply Forall_nil_2.
Defined.

(** The accounting of turns can lose a transaction that waits in the pool.
    When a transaction without sequence is removed twice (its key is still in the
    index of the linked queue), the turn of another one is taken: that one is
    known to the pool but [Pop] does not give it and [Size] is 0.  The same
    happens to a transaction with the next sequence of its sender after a [Pop]
    that found only a used sequence while numbers of removed transactions were
    still queued: the turn it notes as out is then missing for the next one. *)
Lemma pool_strands_transactions :
  (let ops := [push_tx [1]%Z None; push_tx [2]%Z None; TRemove [1]%Z None; TRemove [1]%Z None] in
   let tp := run_pool plain_pool ops in
   IsExist tp [2]%Z = true /\ (UnsafePop (fun _ => 0%Z) tp).1 = Ok None /\ tp_Size tp = 0%Z) /\
  (let seqs := fun a => if decide (a = [1]%Z) then 1%Z else 0%Z in
   let ops := [push_tx [1; 1]%Z (Some (1, [1])%Z); push_tx [2; 1]%Z (Some (1, [2])%Z); TRemove [2; 2]%Z (Some (2, [2])%Z);
     TPop seqs; push_tx [3; 1]%Z (Some (1, [3])%Z)] in
   let tp := run_pool plain_pool ops in
   IsExist tp [3; 1]%Z = true /\ (UnsafePop seqs tp).1 = Ok None /\ tp_Size tp = 0%Z).
Proof. vm_compute. done. Qed.
