(* ===== verification/Registry.v ===== *)
(** * Numbered sets of addresses

    The formulator process ([process/formulator/formulator_method.go]) lists the
    addresses of a set (stakers, block generators, revoked formulators, unstaking
    accounts) in the key-value data it is given: under one key the number of an
    address, under another the address of a number, under a third the count.  An
    address is removed by moving the last one into its place.  The same lines
    occur in [AddStakingAmount], [addGenCount], [addRevokedFormulator] and
    [addUnstakingAmount], and in [subStakingAmount], [removeRevokedFormulator]
    and [removeUnstakingAmount]; here they are written once, over the keys and
    the reads and writes of the data.

    [registry_numbers] says what such data means as a list without repetition;
    the two operations are shown to append to the list and to remove from it. *)

From stdpp Require Import base gmap list strings.
From Stdlib Require Import ZArith Lia.
From S2P Require Import Prelude Amount Common Types Context ContextSpec Vault.

(** ** The code *)

Record Registry (S : Type) := mkRegistry {
  rg_read : bytes -> ST S bytes;
  rg_write : bytes -> bytes -> ST S unit;
  rg_number : Address -> bytes;
  rg_reverse : Z -> bytes;
  rg_count : bytes
}.
Arguments mkRegistry {S}. Arguments rg_read {S}. Arguments rg_write {S}.
Arguments rg_number {S}. Arguments rg_reverse {S}. Arguments rg_count {S}.

Section Code.
Context {S : Type} (R : Registry S).

(** [if ns := ...; len(ns) == 0 { ... Count++ ... }]. *)
Definition enroll (addr : Address) : ST S unit :=
  let! ns := rg_read R (rg_number R addr) in
  match ns with
  | [] =>
      let! bs := rg_read R (rg_count R) in
      let! Count := lift (count_of bs) in
      rg_write R (rg_number R addr) (Uint32ToBytes Count) ;;;
      rg_write R (rg_reverse R Count) addr ;;;
      rg_write R (rg_count R) (Uint32ToBytes (u32 (Count + 1)))
  | _ => ret tt
  end.

(** The lines that give the number [ns] of [addr] to the last address. *)
Definition withdraw (addr : Address) (ns : bytes) : ST S unit :=
  let! bs := rg_read R (rg_count R) in
  let! Count := lift (count_of bs) in
  let! Number := lift (BytesToUint32 ns) in
  let last := u32 (Count - 1) in
  (if negb (Number =? last) then
     let! sw := rg_read R (rg_reverse R last) in
     let swapAddr := copy_into AddressSize sw in
     rg_write R (rg_reverse R Number) swapAddr ;;;
     rg_write R (rg_number R swapAddr) (Uint32ToBytes Number)
   else ret tt) ;;;
  rg_write R (rg_number R addr) [] ;;;
  rg_write R (rg_reverse R last) [] ;;;
  if last =? 0 then rg_write R (rg_count R) [] else rg_write R (rg_count R) (Uint32ToBytes last).
End Code.

(** ** What the operations can touch

    A computation keeps a relation when it only moves along it. *)

Section Keeps.
Context {S : Type} (Q : S -> S -> Prop) `{!PreOrder Q}.

Definition keeps {A} (m : ST S A) : Prop := forall s, Q s (snd (m s)).

Lemma along_bind {A B} (m : ST S A) (k : A -> ST S B) : keeps m -> (forall x, keeps (k x)) -> keeps (bind m k).
Proof.
  intros Hm Hk s. specialize (Hm s). unfold bind. destruct (m s) as [[x|e|w] s']; [|done..]. etrans; [exact Hm|]. apply Hk.
Qed.

Lemma along_lift {A} (r : res A) : keeps (lift r).
Proof. intros s. by destruct r. Qed.

Lemma along_ret {A} (x : A) : keeps (ret x).
Proof. by intros s. Qed.

Lemma along_fail {A} e : keeps (fail (A := A) e).
Proof. by intros s. Qed.
End Keeps.

(** Splits a computation into its steps; the writes are left. *)
Ltac keep :=
  repeat lazymatch goal with
    | |- keeps _ (bind _ _) => notypeclasses refine (along_bind _ _ _ _ _); [apply _| |intros ?]
    | |- keeps _ (ret _) => apply along_ret; apply _
    | |- keeps _ (fail _) => apply along_fail; apply _
    | |- keeps _ (lift _) => apply along_lift; apply _
    | |- keeps _ (match _ with _ => _ end) => destr_match
    end; try done.

(** ** What the reads and writes promise *)

Class RegistryLaws {S} (R : Registry S) := {
  rl_get : S -> bytes -> bytes;
  rl_put : bytes -> bytes -> S -> S;
  rl_read : forall k s, rg_read R k s = (Ok (rl_get s k), s);
  rl_write : forall k v s, rg_write R k v s = (Ok tt, rl_put k v s);
  rl_get_put : forall k v s k', rl_get (rl_put k v s) k' = if decide (k' = k) then v else rl_get s k';
  rl_number_inj : forall a b, address_ok a -> address_ok b -> rg_number R a = rg_number R b -> a = b;
  rl_reverse_inj : forall i j, 0 <= i < 2 ^ 32 -> 0 <= j < 2 ^ 32 -> rg_reverse R i = rg_reverse R j -> i = j;
  rl_number_reverse : forall a i, rg_number R a <> rg_reverse R i;
  rl_number_count : forall a, rg_number R a <> rg_count R;
  rl_reverse_count : forall i, rg_reverse R i <> rg_count R
}.

Section Theory.
Context {S : Type} (R : Registry S) `{!RegistryLaws R}.

(** The data numbers the addresses of [L] in order. *)
Record registry_numbers (s : S) (L : list Address) : Prop := {
  rn_count : rl_get s (rg_count R) = match L with [] => [] | _ => Uint32ToBytes (Z.of_nat (length L)) end;
  rn_number : forall a, address_ok a -> rl_get s (rg_number R a) =
    match list_find (fun b => b = a) L with Some (i, _) => Uint32ToBytes (Z.of_nat i) | None => [] end;
  rn_reverse : forall i a, L !! i = Some a -> rl_get s (rg_reverse R (Z.of_nat i)) = a;
  rn_ok : Forall address_ok L;
  rn_nodup : NoDup L;
  rn_bound : Z.of_nat (length L) < 2 ^ 32
}.

Lemma find_index (L : list Address) a : NoDup L ->
  match list_find (fun b => b = a) L with Some (i, b) => L !! i = Some a /\ b = a | None => a ∉ L end.
Proof.
  intros _. destruct (list_find (fun b => b = a) L) as [[i b]|] eqn:E.
  - apply list_find_Some in E as (Hi & -> & _). done.
  - apply list_find_None in E. rewrite Forall_forall in E. intros Hin. by apply (E a).
Qed.

Lemma find_at (L : list Address) i a : NoDup L -> L !! i = Some a -> list_find (fun b => b = a) L = Some (i, a).
Proof.
  intros Hnd Hi. apply list_find_Some. split; [done|]. split; [done|]. intros j b Hj Hlt ->.
  pose proof (NoDup_lookup L i j a Hnd Hi Hj). lia.
Qed.

Lemma find_absent (L : list Address) a : a ∉ L -> list_find (fun b => b = a) L = None.
Proof. intros Ha. apply list_find_None, Forall_forall. intros b Hb ->. done. Qed.

Lemma u32_small n : 0 <= n < 2 ^ 32 -> u32 n = n.
Proof. intros. by apply Z.mod_small. Qed.

(** The number of members of a registry, as its count says. *)
Lemma count_read s L : registry_numbers s L -> count_of (rl_get s (rg_count R)) = Ok (Z.of_nat (length L)).
Proof.
  intros [Hc _ _ _ _ Hb]. rewrite Hc. destruct L as [|a L]; [done|]. unfold count_of.
  rewrite BytesToUint32_roundtrip by lia. by destruct (Uint32ToBytes _) eqn:E; [apply Uint32ToBytes_ne in E|].
Qed.

(** An address that is numbered already changes nothing; a new one comes last. *)
Lemma enroll_known s L a : registry_numbers s L -> a ∈ L -> enroll R a s = (Ok tt, s).
Proof.
  intros HL Ha. assert (Hok : address_ok a) by (pose proof (rn_ok _ _ HL) as Hf; rewrite Forall_forall in Hf; by apply Hf).
  apply list_elem_of_lookup_1 in Ha as [i Hi]. unfold enroll. erewrite bind_ok by apply rl_read.
  rewrite (rn_number _ _ HL a Hok), (find_at L i a (rn_nodup _ _ HL) Hi).
  destruct (Uint32ToBytes (Z.of_nat i)) eqn:E; [by apply Uint32ToBytes_ne in E|done].
Qed.

Lemma enroll_new s L a : registry_numbers s L -> address_ok a -> a ∉ L -> Z.of_nat (length L) + 1 < 2 ^ 32 ->
  exists s', enroll R a s = (Ok tt, s') /\ registry_numbers s' (L ++ [a]) /\
    (forall k, k <> rg_count R -> (forall i, k <> rg_reverse R i) -> (forall b, k <> rg_number R b) -> rl_get s' k = rl_get s k).
Proof.
  intros HL Hok Ha Hb. pose proof HL as [Hc Hn Hr Hf Hnd _].
  assert (Hnd' : NoDup (L ++ [a])) by (apply NoDup_app; split_and!; [done|set_solver|apply NoDup_singleton]).
  unfold enroll. erewrite bind_ok by apply rl_read. rewrite (Hn a Hok), (find_absent L a Ha).
  erewrite bind_ok by apply rl_read. rewrite (count_read s L HL). erewrite bind_ok by reflexivity.
  erewrite bind_ok by apply rl_write. erewrite bind_ok by apply rl_write. rewrite rl_write. eexists. split; [reflexivity|]. split; [split|].
  - rewrite rl_get_put, decide_True by done. rewrite u32_small by lia. destruct (L ++ [a]) eqn:E; [by destruct L|]. rewrite <- E, length_app.
    cbn [length]. f_equal. lia.
  - intros b Hbok. rewrite !rl_get_put. rewrite decide_False by apply rl_number_count. rewrite decide_False by apply rl_number_reverse.
    destruct (decide (rg_number R b = rg_number R a)) as [E|E].
    + apply rl_number_inj in E; [|done..]. subst b. rewrite (find_at (L ++ [a]) (length L) a); [done|done|].
      by rewrite lookup_app_r, Nat.sub_diag by lia.
    + rewrite (Hn b Hbok). destruct (list_find (fun x => x = b) L) as [[i y]|] eqn:Ef.
      * pose proof (find_index L b Hnd) as Hi. rewrite Ef in Hi. destruct Hi as [Hi _].
        by rewrite (find_at (L ++ [a]) i b) by (done || by apply lookup_app_l_Some).
      * rewrite find_absent; [done|]. pose proof (find_index L b Hnd) as Hi. rewrite Ef in Hi.
        rewrite elem_of_app, list_elem_of_singleton. intros [Hx|Hx]; [done|by subst b].
  - intros i b Hi. rewrite !rl_get_put, decide_False by apply rl_reverse_count.
    apply lookup_app_Some in Hi as [Hi|[Hge Hi]].
    + pose proof (lookup_lt_Some _ _ _ Hi). rewrite decide_False by (intros E; apply rl_reverse_inj in E; lia).
      rewrite decide_False by (intros E; symmetry in E; by apply rl_number_reverse in E). by apply Hr.
    + apply list_lookup_singleton_Some in Hi as [Hz <-]. replace i with (length L) by lia. by rewrite decide_True.
  - apply Forall_app. split; [done|by constructor].
  - done.
  - rewrite length_app. cbn. lia.
  - intros k H1 H2 H3. rewrite !rl_get_put, !decide_False by auto. done.
Qed.

(** The list after the last member has taken the place of the [i]-th. *)
Definition swap_remove (L : list Address) (i : nat) : list Address :=
  take (length L - 1) (<[i := default [] (last L)]> L).

Lemma swap_remove_snoc L0 z i : (i <= length L0)%nat ->
  swap_remove (L0 ++ [z]) i = if decide (i < length L0)%nat then <[i := z]> L0 else L0.
Proof.
  intros Hi. unfold swap_remove. rewrite last_snoc, length_app. cbn [length default]. replace (length L0 + 1 - 1)%nat with (length L0) by lia.
  case_decide.
  - rewrite insert_app_l by done. by rewrite take_app_length' by (by rewrite length_insert).
  - rewrite insert_app_r_alt by lia. by rewrite take_app_length.
Qed.

(** Removing by swapping removes just that member. *)
Lemma swap_remove_perm L i a : L !! i = Some a -> L ≡ₚ a :: swap_remove L i.
Proof.
  intros Hi. destruct L as [|z L0 _] using rev_ind; [done|]. pose proof (lookup_lt_Some _ _ _ Hi) as Hl. rewrite length_app in Hl. cbn in Hl.
  rewrite swap_remove_snoc by lia. case_decide as Hlt.
  - rewrite lookup_app_l in Hi by done. rewrite <- Permutation_cons_append.
    rewrite <- (take_drop_middle L0 i a Hi) at 1. rewrite (insert_take_drop L0 i z Hlt).
    rewrite <- !Permutation_middle. apply Permutation_swap.
  - rewrite lookup_app_r in Hi by lia. replace (i - length L0)%nat with O in Hi by lia. injection Hi as ->. by rewrite <- Permutation_cons_append.
Qed.

Lemma lookup_swap_remove L i j : (i < length L)%nat -> (j < length L - 1)%nat ->
  swap_remove L i !! j = if decide (j = i) then last L else L !! j.
Proof.
  intros Hi Hj. unfold swap_remove. rewrite lookup_take_lt by done. destruct (last L) as [z|] eqn:El; [|apply last_None in El; subst; cbn in *; lia].
  case_decide; [subst; by rewrite list_lookup_insert_eq|by rewrite list_lookup_insert_ne].
Qed.

(** The data after the writes of a removal. *)
Lemma swapped_numbers s s' L i a z : registry_numbers s L -> L !! i = Some a -> last L = Some z ->
  let n := (length L - 1)%nat in
  rl_get s' (rg_count R) = match n with O => [] | _ => Uint32ToBytes (Z.of_nat n) end ->
  (forall b, address_ok b -> rl_get s' (rg_number R b) =
    if decide (b = a) then [] else if decide (b = z) then Uint32ToBytes (Z.of_nat i) else rl_get s (rg_number R b)) ->
  (forall j, (j < n)%nat -> rl_get s' (rg_reverse R (Z.of_nat j)) = if decide (j = i) then z else rl_get s (rg_reverse R (Z.of_nat j))) ->
  registry_numbers s' (swap_remove L i).
Proof.
  intros HL Hi Hz n Hc' Hn' Hr'. pose proof HL as [Hc Hn Hr Hf Hnd Hb]. pose proof (swap_remove_perm L i a Hi) as Hperm.
  pose proof (lookup_lt_Some _ _ _ Hi) as Hil.
  assert (Hlen : length (swap_remove L i) = n) by (pose proof (f_equal length (eq_refl L)); apply Permutation_length in Hperm; cbn in Hperm; lia).
  assert (Hfs : Forall address_ok (swap_remove L i)) by (rewrite Hperm in Hf; by apply Forall_cons in Hf as [_ ?]).
  assert (Hnds : NoDup (swap_remove L i)) by (rewrite Hperm in Hnd; by apply NoDup_cons in Hnd as [_ ?]).
  assert (Has : a ∉ swap_remove L i) by (rewrite Hperm in Hnd; by apply NoDup_cons in Hnd as [? _]).
  assert (Hzl : L !! n = Some z) by (rewrite last_lookup in Hz; by replace (Init.Nat.pred (length L)) with n in Hz by lia).
  split; [| | |done|done|lia].
  - rewrite Hc', <- Hlen. by destruct (swap_remove L i).
  - intros b Hbok. rewrite (Hn' b Hbok). destruct (decide (b = a)) as [->|Hba]; [by rewrite find_absent|].
    destruct (decide (b = z)) as [->|Hbz].
    + assert (i <> n) by (intros ->; congruence). rewrite (find_at _ i z Hnds); [done|].
      rewrite lookup_swap_remove by lia. by rewrite decide_True.
    + rewrite (Hn b Hbok). pose proof (find_index L b Hnd) as HfL. destruct (list_find (fun x => x = b) L) as [[j y]|] eqn:Ej.
      * destruct HfL as [Hj ->]. pose proof (lookup_lt_Some _ _ _ Hj). assert (j <> n) by (intros ->; congruence).
        assert (j <> i) by (intros ->; congruence). rewrite (find_at _ j b Hnds); [done|].
        rewrite lookup_swap_remove by lia. by rewrite decide_False.
      * rewrite find_absent; [done|]. intros Hin. apply HfL. rewrite Hperm. set_solver.
  - intros j b Hj. pose proof (lookup_lt_Some _ _ _ Hj) as Hjl. rewrite Hlen in Hjl. rewrite (Hr' j Hjl).
    rewrite lookup_swap_remove in Hj by lia. case_decide; [congruence|by apply Hr].
Qed.

Lemma withdraw_numbers s L i a : registry_numbers s L -> L !! i = Some a ->
  exists s', withdraw R a (Uint32ToBytes (Z.of_nat i)) s = (Ok tt, s') /\ registry_numbers s' (swap_remove L i) /\
    (forall k, k <> rg_count R -> (forall i, k <> rg_reverse R i) -> (forall b, k <> rg_number R b) -> rl_get s' k = rl_get s k).
Proof.
  intros HL Hi. pose proof HL as [Hc Hn Hr Hf Hnd Hb]. pose proof (lookup_lt_Some _ _ _ Hi) as Hil.
  assert (exists z, last L = Some z) as [z Hz] by (destruct (last L) eqn:El; [eauto|apply last_None in El; by subst]).
  assert (Hzl : L !! (length L - 1)%nat = Some z) by (rewrite last_lookup in Hz; by replace (Init.Nat.pred (length L)) with (length L - 1)%nat in Hz by lia).
  assert (Hzok : address_ok z) by (rewrite Forall_lookup in Hf; by eapply Hf). assert (Haok : address_ok a) by (rewrite Forall_lookup in Hf; by eapply Hf).
  unfold withdraw. erewrite bind_ok by apply rl_read. rewrite (count_read s L HL). erewrite bind_ok by reflexivity.
  rewrite BytesToUint32_roundtrip by lia. erewrite bind_ok by reflexivity. rewrite u32_small by lia.
  replace (Z.of_nat (length L) - 1) with (Z.of_nat (length L - 1)) by lia. set (n := (length L - 1)%nat) in *.
  assert (Hend : forall s1, exists s', ((rg_write R (rg_number R a) [] ;;; rg_write R (rg_reverse R (Z.of_nat n)) [] ;;;
      if Z.of_nat n =? 0 then rg_write R (rg_count R) [] else rg_write R (rg_count R) (Uint32ToBytes (Z.of_nat n))) s1) = (Ok tt, s') /\
      forall k, rl_get s' k = if decide (k = rg_count R) then match n with O => [] | _ => Uint32ToBytes (Z.of_nat n) end
        else if decide (k = rg_reverse R (Z.of_nat n)) then [] else if decide (k = rg_number R a) then [] else rl_get s1 k).
  { intros s1. erewrite bind_ok by apply rl_write. erewrite bind_ok by apply rl_write.
    generalize n. intros [|m]; [change (Z.of_nat 0 =? 0) with true|change (Z.of_nat (Datatypes.S m) =? 0) with false];
      cbv iota; rewrite rl_write; (eexists; split; [reflexivity|]; intros k; by rewrite !rl_get_put). }
  destruct (Z.eqb_spec (Z.of_nat i) (Z.of_nat n)) as [Hin|Hin]; cbn [negb].
  - apply Nat2Z.inj in Hin. subst i. assert (z = a) as -> by congruence. erewrite bind_ok by reflexivity.
    destruct (Hend s) as (s' & Es & Hg). exists s'. split; [done|]. split.
    + apply (swapped_numbers s s' L n a a HL Hi Hz).
      * by rewrite Hg, decide_True.
      * intros b Hbok. rewrite Hg. rewrite decide_False by apply rl_number_count. rewrite decide_False by apply rl_number_reverse.
        destruct (decide (b = a)) as [->|Hba]; [by rewrite decide_True|]. rewrite decide_False; [done|]. intros E. by apply rl_number_inj in E.
      * intros j Hj. fold n in Hj. rewrite Hg. rewrite decide_False by apply rl_reverse_count. rewrite decide_False by (intros E; apply rl_reverse_inj in E; lia).
        rewrite decide_False by (intros E; symmetry in E; by apply rl_number_reverse in E). by rewrite decide_False by lia.
    + intros k H1 H2 H3. rewrite Hg. by rewrite !decide_False by auto.
  - assert (Hne : i <> n) by lia. assert (Hza : z <> a) by (intros ->; apply Hne; by eapply NoDup_lookup).
    erewrite bind_ok; cycle 1. { erewrite bind_ok by apply rl_read. rewrite (Hr n z Hzl). rewrite copy_into_id by apply Hzok.
      erewrite bind_ok by apply rl_write. apply rl_write. }
    edestruct Hend as (s' & Es & Hg). exists s'. split; [exact Es|]. clear Es.
    split.
    + apply (swapped_numbers s s' L i a z HL Hi Hz).
      * by rewrite Hg, decide_True.
      * intros b Hbok. rewrite Hg. rewrite decide_False by apply rl_number_count. rewrite decide_False by apply rl_number_reverse.
        rewrite !rl_get_put. destruct (decide (b = a)) as [->|Hba]; [by rewrite decide_True|].
        rewrite decide_False by (intros E; by apply rl_number_inj in E).
        destruct (decide (b = z)) as [->|Hbz]; [by rewrite decide_True|]. rewrite decide_False by (intros E; by apply rl_number_inj in E).
        by rewrite decide_False by apply rl_number_reverse.
      * intros j Hj. fold n in Hj. rewrite Hg. rewrite decide_False by apply rl_reverse_count. rewrite decide_False by (intros E; apply rl_reverse_inj in E; lia).
        rewrite decide_False by (intros E; symmetry in E; by apply rl_number_reverse in E). rewrite !rl_get_put.
        rewrite decide_False by (intros E; symmetry in E; by apply rl_number_reverse in E).
        destruct (decide (j = i)) as [->|]; [by rewrite decide_True|]. by rewrite decide_False by (intros E; apply rl_reverse_inj in E; lia).
    + intros k H1 H2 H3. rewrite Hg, !rl_get_put. by rewrite !decide_False by auto.
Qed.

(** The operations touch what the reads and writes of the registry touch. *)
Section Touch.
Context (Q : S -> S -> Prop) `{!PreOrder Q}.
Context (Hread : forall k, keeps Q (rg_read R k)) (Hwrite : forall k v, keeps Q (rg_write R k v)).

Lemma enroll_keeps a : keeps Q (enroll R a).
Proof. unfold enroll. keep. Qed.

Lemma withdraw_keeps a ns : keeps Q (withdraw R a ns).
Proof. unfold withdraw. keep. Qed.
End Touch.
End Theory.
