(* ===== verification/Formulator.v ===== *)
(** * The formulator process

    [process/formulator]: formulator accounts of four kinds, the stakes held by
    hyper formulators, the rewards paid every so many blocks, revocation and
    unstaking with a delay.  One definition per method, transaction and hook, over
    the interface [ContextOps] as for the vault.

    A pointer to an account that the context returned is the account's address
    with [mutate]: writing through it changes the account in the top layer, and
    nothing once the account is deleted.  The ordered maps of the process
    ([types.AddressAmountMap] and the like) are finite maps ([OrderedMap] shows
    that they are), visited in increasing order by [each_all]; the order of a Go
    map is the parameter [range] ([MapRange]).  The bytes of a map or policy are
    those of msgpack ([Marshaler], [Unmarshaler]). *)

From stdpp Require Import base gmap list sorting strings.
From Stdlib Require Import ZArith Lia.
From S2P Require Import Prelude Amount Common Types Context ContextSpec Vault Registry.

(** ** Data *)

Record Formulator := NewFormulator { fo_pid : Z; fo_vault : Vault; fo_admin : Admin }.
Definition formulator_Name : bytes := str "fleta.formulator".

Definition ferr (m : string) : error := mkError "formulator" m.
Definition ErrInvalidStakingAddress := ferr "invalid staking address".
Definition ErrInvalidStakingAmount := ferr "invalid staking amount".
Definition ErrAlphaCreationLimited := ferr "alpha creation limited".
Definition ErrMinusStaking := ferr "minus balance".
Definition ErrMinustUnstakingAmount := ferr "minus unstaking amount".
Definition ErrRewardPolicyShouldBeSetupInApplication := ferr "RewardPolicy should be setup in application".
Definition ErrAlphaPolicyShouldBeSetupInApplication := ferr "AlphaPolicy should be setup in application".
Definition ErrSigmaPolicyShouldBeSetupInApplication := ferr "SigmaPolicy should be setup in application".
Definition ErrOmegaPolicyShouldBeSetupInApplication := ferr "OmegaPolicy should be setup in application".
Definition ErrHyperPolicyShouldBeSetupInApplication := ferr "HyperPolicy should be setup in application".
Definition ErrInvalidFormulatorAddress := ferr "invalid formulator address".
Definition ErrInvalidFormulatorCount := ferr "invalid formulator count".
Definition ErrInsufficientFormulatorBlocks := ferr "insufficient formulator blocks".
Definition ErrCriticalStakingAmount := ferr "critical staking amount".
Definition ErrInsufficientStakingAmount := ferr "insufficient staking amount".
Definition ErrInvalidRewardPolicy := ferr "invalid reward policy".
Definition ErrInvalidValidatorPolicy := ferr "invalid validator policy".
Definition ErrNotHyperFormulator := ferr "not hyper formulator".
Definition ErrNotRevoked := ferr "not revoked".
Definition ErrNotExistRevokedFormulator := ferr "not exist revoked formulator".
Definition ErrInvalidHeritor := ferr "invalid heritor".
Definition ErrNotExistUnstakingAmount := ferr "not exist unstaking amount".
Definition ErrRevokedFormulator := ferr "revoked formulator".
Definition ErrInvalidTransmuteCount := ferr "invalid transmute count".
Definition ErrInvalidTransmuteAmount := ferr "invalid transmute amount".
Definition ErrInvalidTransmuteHeight := ferr "invalid transmute height".
Definition ErrNotExistTransmutePolicy := ferr "not exist transmute policy".

Definition tagStakingAmount : bytes := [1; 0].
Definition tagStakingAmountNumber : bytes := [1; 1].
Definition tagStakingAmountReverse : bytes := [1; 2].
Definition tagStakingAmountCount : bytes := [1; 3].
Definition tagRewardPolicy : bytes := [2; 0].
Definition tagAlphaPolicy : bytes := [2; 1].
Definition tagSigmaPolicy : bytes := [2; 2].
Definition tagOmegaPolicy : bytes := [2; 3].
Definition tagHyperPolicy : bytes := [2; 4].
Definition tagTransmutePolicy : bytes := [2; 5].
Definition tagGenCount : bytes := [3; 0].
Definition tagGenCountNumber : bytes := [3; 1].
Definition tagGenCountReverse : bytes := [3; 2].
Definition tagGenCountCount : bytes := [3; 3].
Definition tagStakingAmountMap : bytes := [4; 0].
Definition tagStakingPowerMap : bytes := [4; 1].
Definition tagStackRewardMap : bytes := [4; 2].
Definition tagLastStakingPaidHeight : bytes := [4; 3].
Definition tagAutoStaking : bytes := [4; 4].
Definition tagLastPaidHeight : bytes := [4; 5].
Definition tagRevokedFormulator : bytes := [5; 0].
Definition tagRevokedFormulatorNumber : bytes := [5; 1].
Definition tagRevokedFormulatorReverse : bytes := [5; 2].
Definition tagRevokedFormulatorCount : bytes := [5; 3].
Definition tagRevokedHeight : bytes := [5; 4].
Definition tagUnstakingAmount : bytes := [6; 0].
Definition tagUnstakingAmountNumber : bytes := [6; 1].
Definition tagUnstakingAmountReverse : bytes := [6; 2].
Definition tagUnstakingAmountCount : bytes := [6; 3].

Definition address_key (tag : bytes) (addr : Address) : bytes := tag ++ copy_into AddressSize addr.
Definition toStakingAmountKey := address_key tagStakingAmount.
Definition toStakingAmountNumberKey := address_key tagStakingAmountNumber.
Definition toStakingAmountReverseKey (Num : Z) : bytes := tagStakingAmountReverse ++ be_bytes 4 Num.
Definition toAutoStakingKey := address_key tagAutoStaking.
Definition toGenCountKey := address_key tagGenCount.
Definition toGenCountNumberKey := address_key tagGenCountNumber.
Definition toGenCountReverseKey (Num : Z) : bytes := tagGenCountReverse ++ be_bytes 4 Num.

Definition height_address_key (tag : bytes) (height : Z) (addr : Address) : bytes :=
  tag ++ be_bytes 4 height ++ copy_into AddressSize addr.
Definition toRevokedFormulatorKey := height_address_key tagRevokedFormulator.
Definition toRevokedFormulatorNumberKey := height_address_key tagRevokedFormulatorNumber.
Definition toRevokedFormulatorReverseKey (height num : Z) : bytes := tagRevokedFormulatorReverse ++ be_bytes 4 height ++ be_bytes 4 num.
Definition toRevokedFormulatorCountKey (height : Z) : bytes := tagRevokedFormulatorCount ++ be_bytes 4 height.
Definition toUnstakingAmountKey := height_address_key tagUnstakingAmount.
Definition toUnstakingAmountNumberKey := height_address_key tagUnstakingAmountNumber.
Definition toUnstakingAmountReverseKey (height num : Z) : bytes := tagUnstakingAmountReverse ++ be_bytes 4 height ++ be_bytes 4 num.
Definition toUnstakingAmountCountKey (height : Z) : bytes := tagUnstakingAmountCount ++ be_bytes 4 height.

Record RewardPolicy := mkRewardPolicy {
  RewardPerBlock : Amount;
  PayRewardEveryBlocks : Z;
  AlphaEfficiency1000 : Z;
  SigmaEfficiency1000 : Z;
  OmegaEfficiency1000 : Z;
  HyperEfficiency1000 : Z;
  StakingEfficiency1000 : Z
}.
Record AlphaPolicy := mkAlphaPolicy { AlphaCreationAmount : Amount; AlphaUnlockRequiredBlocks : Z; AlphaCreationLimitHeight : Z }.
Record SigmaPolicy := mkSigmaPolicy { SigmaRequiredAlphaBlocks : Z; SigmaRequiredAlphaCount : Z; SigmaUnlockRequiredBlocks : Z }.
Record OmegaPolicy := mkOmegaPolicy { OmegaRequiredSigmaBlocks : Z; OmegaRequiredSigmaCount : Z; OmegaUnlockRequiredBlocks : Z }.
Record HyperPolicy := mkHyperPolicy { HyperCreationAmount : Amount; HyperUnlockRequiredBlocks : Z; StakingUnlockRequiredBlocks : Z }.
Record TransmutePolicy := mkTransmutePolicy { TransmuteEnableHeightFrom : Z; TransmuteEnableHeightTo : Z }.

(** The order in which Go ranges over a map. *)
Class MapRange := {
  range : forall {A}, gmap Address A -> list (Address * A);
  range_perm : forall A (m : gmap Address A), range m ≡ₚ map_to_list m
}.

(** [EachAll] of an ordered map. *)
Definition entry_le {A} (x y : Address * A) : Prop := bytes_le x.1 y.1.
#[global] Instance entry_le_dec {A} (x y : Address * A) : Decision (entry_le x y) := decide (bytes_le x.1 y.1).
Definition each_all {A} (m : gmap Address A) : list (Address * A) := merge_sort entry_le (map_to_list m).

(** A loop that carries a local variable. *)
Fixpoint fold_each {S A B} (l : list A) (b : B) (body : B -> A -> ST S B) : ST S B :=
  match l with
  | [] => ret b
  | x :: l => let! b := body b x in fold_each l b body
  end.

(** The msgpack forms the process stores. *)
Class FormulatorCoders := {
  fc_reward :: Unmarshaler RewardPolicy;
  fc_alpha :: Unmarshaler AlphaPolicy;
  fc_sigma :: Unmarshaler SigmaPolicy;
  fc_omega :: Unmarshaler OmegaPolicy;
  fc_hyper :: Unmarshaler HyperPolicy;
  fc_transmute :: Unmarshaler TransmutePolicy;
  fc_put_reward :: Marshaler (option RewardPolicy);   (** a nil pointer is [None] *)
  fc_put_alpha :: Marshaler AlphaPolicy;
  fc_put_sigma :: Marshaler SigmaPolicy;
  fc_put_omega :: Marshaler OmegaPolicy;
  fc_put_hyper :: Marshaler HyperPolicy;
  fc_put_transmute :: Marshaler TransmutePolicy;
  fc_amounts :: Unmarshaler (gmap Address Amount);
  fc_put_amounts :: Marshaler (gmap Address Amount)
}.

Section Formulator.
Context {S : Type} `{!ContextOps S} `{!FormulatorCoders} `{!MapRange} `{Base58}.
Context (p : Formulator).

(** ** Methods *)

Definition staking_registry (ctw : ContextWrapper) (HyperAddress : Address) : Registry S :=
  mkRegistry (w_AccountData ctw HyperAddress) (w_SetAccountData ctw HyperAddress)
    toStakingAmountNumberKey toStakingAmountReverseKey tagStakingAmountCount.
Definition gen_registry (ctw : ContextWrapper) : Registry S :=
  mkRegistry (w_ProcessData ctw) (w_SetProcessData ctw) toGenCountNumberKey toGenCountReverseKey tagGenCountCount.
Definition revoked_registry (ctw : ContextWrapper) (height : Z) : Registry S :=
  mkRegistry (w_ProcessData ctw) (w_SetProcessData ctw) (toRevokedFormulatorNumberKey height)
    (toRevokedFormulatorReverseKey height) (toRevokedFormulatorCountKey height).
Definition unstaking_registry (ctw : ContextWrapper) (height : Z) : Registry S :=
  mkRegistry (w_ProcessData ctw) (w_SetProcessData ctw) (toUnstakingAmountNumberKey height)
    (toUnstakingAmountReverseKey height) (toUnstakingAmountCountKey height).

Definition self (ctw : ContextWrapper) : ContextWrapper := SwitchContextWrapper (fo_pid p) ctw.

Definition getGenCount (ctw : ContextWrapper) (addr : Address) : ST S Z :=
  let! bs := w_ProcessData ctw (toGenCountKey addr) in
  lift (count_of bs).

Definition addGenCount (ctw : ContextWrapper) (addr : Address) : ST S unit :=
  enroll (gen_registry ctw) addr ;;;
  let! n := getGenCount ctw addr in
  w_SetProcessData ctw (toGenCountKey addr) (Uint32ToBytes (u32 (n + 1))).

(** The loop of [flushGenCountMap]: [n] more rounds from [i]. *)
Fixpoint flush_gen_loop (ctw : ContextWrapper) (n : nat) (i : Z) (CountMap : gmap Address Z) : ST S (gmap Address Z) :=
  match n with
  | O => ret CountMap
  | Datatypes.S n =>
      let! bs := w_ProcessData ctw (toGenCountReverseKey i) in
      let addr := copy_into AddressSize bs in
      let! c := getGenCount ctw addr in
      w_SetProcessData ctw (toGenCountKey addr) [] ;;;
      w_SetProcessData ctw (toGenCountNumberKey addr) [] ;;;
      w_SetProcessData ctw (toGenCountReverseKey i) [] ;;;
      flush_gen_loop ctw n (i + 1) (<[addr := c]> CountMap)
  end.

Definition flushGenCountMap (ctw : ContextWrapper) : ST S (gmap Address Z) :=
  let! bs := w_ProcessData ctw tagGenCountCount in
  match bs with
  | [] => ret ∅
  | _ =>
      let! Count := lift (BytesToUint32 bs) in
      let! CountMap := flush_gen_loop ctw (Z.to_nat Count) 0 ∅ in
      w_SetProcessData ctw tagGenCountCount [] ;;;
      ret CountMap
  end.

Definition GetStakingAmount (HyperAddress StakingAddress : Address) : ST S Amount :=
  let! bs := op_AccountData HyperAddress (fo_pid p) (toStakingAmountKey StakingAddress) in
  ret (amount_of bs).

Definition AddStakingAmount (ctw : ContextWrapper) (HyperAddress StakingAddress : Address) (StakingAmount : Amount) : ST S unit :=
  let ctw := self ctw in
  enroll (staking_registry ctw HyperAddress) StakingAddress ;;;
  let! am := GetStakingAmount HyperAddress StakingAddress in
  w_SetAccountData ctw HyperAddress (toStakingAmountKey StakingAddress) (Bytes (Add am StakingAmount)).

Definition subStakingAmount (ctw : ContextWrapper) (HyperAddress StakingAddress : Address) (am : Amount) : ST S unit :=
  let! total := GetStakingAmount HyperAddress StakingAddress in
  if Less total am then fail ErrMinusStaking
  else
    let total := Sub total am in
    if IsZero total then
      let! ns := w_AccountData ctw HyperAddress (toStakingAmountNumberKey StakingAddress) in
      match ns with [] => ret tt | _ => withdraw (staking_registry ctw HyperAddress) StakingAddress ns end ;;;
      w_SetAccountData ctw HyperAddress (toStakingAmountKey StakingAddress) []
    else w_SetAccountData ctw HyperAddress (toStakingAmountKey StakingAddress) (Bytes total).

(** The loop of [GetStakingAmountMap]. *)
Fixpoint staking_loop (HyperAddress : Address) (n : nat) (i : Z) (PowerMap : gmap Address Amount) : ST S (gmap Address Amount) :=
  match n with
  | O => ret PowerMap
  | Datatypes.S n =>
      let! bs := op_AccountData HyperAddress (fo_pid p) (toStakingAmountReverseKey i) in
      let StakingAddress := copy_into AddressSize bs in
      let! am := GetStakingAmount HyperAddress StakingAddress in
      staking_loop HyperAddress n (i + 1) (<[StakingAddress := am]> PowerMap)
  end.

Definition GetStakingAmountMap (HyperAddress : Address) : ST S (gmap Address Amount) :=
  let! bs := op_AccountData HyperAddress (fo_pid p) tagStakingAmountCount in
  match bs with
  | [] => ret ∅
  | _ =>
      let! Count := lift (BytesToUint32 bs) in
      staking_loop HyperAddress (Z.to_nat Count) 0 ∅
  end.

Definition getLastPaidHeight (ctw : ContextWrapper) : ST S Z :=
  let! bs := w_ProcessData ctw tagLastPaidHeight in
  lift (count_of bs).
Definition setLastPaidHeight (ctw : ContextWrapper) (h : Z) : ST S unit := w_SetProcessData ctw tagLastPaidHeight (Uint32ToBytes h).
Definition getLastStakingPaidHeight (ctw : ContextWrapper) (addr : Address) : ST S Z :=
  let! bs := w_AccountData ctw addr tagLastStakingPaidHeight in
  lift (count_of bs).
Definition setLastStakingPaidHeight (ctw : ContextWrapper) (addr : Address) (h : Z) : ST S unit :=
  w_SetAccountData ctw addr tagLastStakingPaidHeight (Uint32ToBytes h).

Definition GetUserAutoStaking (HyperAddress StakingAddress : Address) : ST S bool :=
  let! bs := op_AccountData HyperAddress (fo_pid p) (toAutoStakingKey StakingAddress) in
  ret (match bs with [] => false | b :: _ => b =? 1 end).
Definition setUserAutoStaking (ctw : ContextWrapper) (HyperAddress StakingAddress : Address) (IsAutoStaking : bool) : ST S unit :=
  w_SetAccountData ctw HyperAddress (toAutoStakingKey StakingAddress) (if IsAutoStaking then [1] else []).

Definition GetRevokedFormulatorHeight (addr : Address) : ST S Z :=
  let! bs := op_AccountData addr (fo_pid p) tagRevokedHeight in
  match bs with [] => fail ErrNotRevoked | _ => lift (BytesToUint32 bs) end.

Definition getRevokedFormulatorHeritor (ctw : ContextWrapper) (addr : Address) (RevokeHeight : Z) : ST S Address :=
  let! bs := w_ProcessData ctw (toRevokedFormulatorKey RevokeHeight addr) in
  match bs with [] => fail ErrNotExistRevokedFormulator | _ => ret (copy_into AddressSize bs) end.

Definition addRevokedFormulator (ctw : ContextWrapper) (addr : Address) (RevokeHeight : Z) (Heritor : Address) : ST S unit :=
  let! bs := w_AccountData ctw addr tagRevokedHeight in
  match bs with
  | [] =>
      w_SetAccountData ctw addr tagRevokedHeight (Uint32ToBytes RevokeHeight) ;;;
      enroll (revoked_registry ctw RevokeHeight) addr ;;;
      w_SetProcessData ctw (toRevokedFormulatorKey RevokeHeight addr) Heritor
  | _ => fail ErrRevokedFormulator
  end.

Definition removeRevokedFormulator (ctw : ContextWrapper) (addr : Address) : ST S unit :=
  let! RevokeHeight := GetRevokedFormulatorHeight addr in
  w_SetAccountData ctw addr tagRevokedHeight [] ;;;
  let! ns := w_ProcessData ctw (toRevokedFormulatorNumberKey RevokeHeight addr) in
  match ns with
  | [] => fail ErrNotRevoked
  | _ => withdraw (revoked_registry ctw RevokeHeight) addr ns
  end.

Fixpoint flush_revoked_loop (ctw : ContextWrapper) (RevokeHeight : Z) (n : nat) (i : Z) (m : gmap Address Address) : ST S (gmap Address Address) :=
  match n with
  | O => ret m
  | Datatypes.S n =>
      let! bs := w_ProcessData ctw (toRevokedFormulatorReverseKey RevokeHeight i) in
      let addr := copy_into AddressSize bs in
      let! Heritor := getRevokedFormulatorHeritor ctw addr RevokeHeight in
      w_SetAccountData ctw addr tagRevokedHeight [] ;;;
      w_SetProcessData ctw (toRevokedFormulatorKey RevokeHeight addr) [] ;;;
      w_SetProcessData ctw (toRevokedFormulatorNumberKey RevokeHeight addr) [] ;;;
      w_SetProcessData ctw (toRevokedFormulatorReverseKey RevokeHeight i) [] ;;;
      flush_revoked_loop ctw RevokeHeight n (i + 1) (<[addr := Heritor]> m)
  end.

Definition flushRevokedFormulatorMap (ctw : ContextWrapper) (RevokeHeight : Z) : ST S (gmap Address Address) :=
  let! bs := w_ProcessData ctw (toRevokedFormulatorCountKey RevokeHeight) in
  match bs with
  | [] => ret ∅
  | _ =>
      let! Count := lift (BytesToUint32 bs) in
      let! m := flush_revoked_loop ctw RevokeHeight (Z.to_nat Count) 0 ∅ in
      w_SetProcessData ctw (toRevokedFormulatorCountKey RevokeHeight) [] ;;;
      ret m
  end.

Definition GetUnstakingAmountMap (addr : Address) (UnstakedHeight : Z) : ST S (gmap Address Amount) :=
  let! bs := op_ProcessData (fo_pid p) (toUnstakingAmountKey UnstakedHeight addr) in
  match bs with [] => fail ErrNotExistUnstakingAmount | _ => lift (Unmarshal bs) end.

Definition getUnstakingAmount (HyperAddr addr : Address) (UnstakedHeight : Z) : ST S Amount :=
  let! mp := GetUnstakingAmountMap addr UnstakedHeight in
  match mp !! HyperAddr with Some am => ret am | None => fail ErrNotExistUnstakingAmount end.

Definition addUnstakingAmount (ctw : ContextWrapper) (HyperAddr addr : Address) (UnstakedHeight : Z) (am : Amount) : ST S unit :=
  enroll (unstaking_registry ctw UnstakedHeight) addr ;;;
  let! r := attempt (GetUnstakingAmountMap addr UnstakedHeight) in
  let! mp := match r with
             | inr mp => ret mp
             | inl err => if bool_decide (err <> ErrNotExistUnstakingAmount) then fail err else ret ∅
             end in
  let sum := default (NewCoinAmount 0 0) (mp !! HyperAddr) in
  w_SetProcessData ctw (toUnstakingAmountKey UnstakedHeight addr) (Marshal (<[HyperAddr := Add sum am]> mp)).

Definition removeUnstakingAmount (ctw : ContextWrapper) (addr : Address) (UnstakedHeight : Z) : ST S unit :=
  let! ns := w_ProcessData ctw (toUnstakingAmountNumberKey UnstakedHeight addr) in
  match ns with
  | [] => fail ErrNotExistUnstakingAmount
  | _ => withdraw (unstaking_registry ctw UnstakedHeight) addr ns
  end.

(** The error of [removeUnstakingAmount] is dropped. *)
Definition subUnstakingAmount (ctw : ContextWrapper) (HyperAddr addr : Address) (UnstakedHeight : Z) (am : Amount) : ST S unit :=
  let! mp := GetUnstakingAmountMap addr UnstakedHeight in
  match mp !! HyperAddr with
  | None => fail ErrNotExistUnstakingAmount
  | Some sum =>
      if Less sum am then fail ErrMinustUnstakingAmount
      else
        let mp := if IsZero sum then delete HyperAddr mp else <[HyperAddr := Sub sum am]> mp in
        if (0 <? size mp)%nat then w_SetProcessData ctw (toUnstakingAmountKey UnstakedHeight addr) (Marshal mp)
        else let! _ := attempt (removeUnstakingAmount ctw addr UnstakedHeight) in ret tt
  end.

Fixpoint flush_unstaking_loop (ctw : ContextWrapper) (h : Z) (n : nat) (i : Z) (m : gmap Address (gmap Address Amount))
    : ST S (gmap Address (gmap Address Amount)) :=
  match n with
  | O => ret m
  | Datatypes.S n =>
      let! bs := w_ProcessData ctw (toUnstakingAmountReverseKey h i) in
      let addr := copy_into AddressSize bs in
      let! mp := GetUnstakingAmountMap addr h in
      w_SetProcessData ctw (toUnstakingAmountKey h addr) [] ;;;
      w_SetProcessData ctw (toUnstakingAmountNumberKey h addr) [] ;;;
      w_SetProcessData ctw (toUnstakingAmountReverseKey h i) [] ;;;
      flush_unstaking_loop ctw h n (i + 1) (<[addr := mp]> m)
  end.

Definition flushUnstakingAmountMap (ctw : ContextWrapper) (RevokeHeight : Z) : ST S (gmap Address (gmap Address Amount)) :=
  let! bs := w_ProcessData ctw (toUnstakingAmountCountKey RevokeHeight) in
  match bs with
  | [] => ret ∅
  | _ =>
      let! Count := lift (BytesToUint32 bs) in
      let! m := flush_unstaking_loop ctw RevokeHeight (Z.to_nat Count) 0 ∅ in
      w_SetProcessData ctw (toUnstakingAmountCountKey RevokeHeight) [] ;;;
      ret m
  end.
End Formulator.
