(* ===== verification/FormulatorTx.v ===== *)
(** * The transactions of the formulator process

    [process/formulator/tx_*.go]: the fifteen transactions, [Validate] and
    [Execute], and the set-up of the policies ([InitPolicy], [InitStakingMap],
    [OnLoadChain] of [formulator.go]). *)

From stdpp Require Import base gmap list sorting strings.
From Stdlib Require Import ZArith Lia.
From S2P Require Import Prelude Amount Common Types Context ContextSpec Vault Registry Formulator.

(** ** The transactions

    Every transaction has a timestamp, a sequence and a sender. *)

Record TxHead := mkHead { Timestamp_ : Z; Seq_ : Z; From_ : Address }.

Record CreateAlpha := mkCreateAlpha { al_head : TxHead; al_Name : bytes; al_KeyHash : PublicHash; al_GenHash : PublicHash }.
Record CreateSigma := mkCreateSigma { si_head : TxHead; AlphaFormulators : list Address }.
Record CreateOmega := mkCreateOmega { om_head : TxHead; SigmaFormulators : list Address }.
Record CreateHyper := mkCreateHyper { hy_head : TxHead; hy_Name : bytes; hy_KeyHash : PublicHash; hy_GenHash : PublicHash;
  hy_Policy : option ValidatorPolicy }.
Record Revoke := mkRevoke { re_head : TxHead; re_Heritor : Address }.
Record Staking := mkStaking { st_head : TxHead; st_HyperFormulator : Address; st_Amount : Amount }.
Record Unstaking := mkUnstaking { un_head : TxHead; un_HyperFormulator : Address; un_Amount : Amount }.
Record UpdateValidatorPolicy := mkUpdateValidator { uv_head : TxHead; uv_Policy : option ValidatorPolicy }.
Record UpdateUserAutoStaking := mkUpdateAuto { ua_head : TxHead; ua_HyperFormulator : Address; ua_AutoStaking : bool }.
Record ChangeOwner := mkChangeOwner { co_head : TxHead; co_KeyHash : PublicHash; co_GenHash : PublicHash }.
Record RevertRevoke := mkRevertRevoke { rr_head : TxHead }.
Record RevertUnstaking := mkRevertUnstaking { ru_head : TxHead; ru_HyperFormulator : Address; ru_UnstakedHeight : Z; ru_Amount : Amount }.
Record Transmute := mkTransmute { tm_head : TxHead; tm_Name : bytes; tm_KeyHash : PublicHash; tm_GenHash : PublicHash;
  tm_HyperFormulators : list Address; tm_Amounts : list Amount }.
Record UpdateRewardPolicy := mkUpdateReward { ur_head : TxHead; ur_Policy : option RewardPolicy }.
Record UpdateTransmutePolicy := mkUpdateTransmute { ut_head : TxHead; ut_Policy : option TransmutePolicy }.

(** ** Accounts behind pointers *)

Definition set_Amount (am : Amount) (a : FormulatorAccount) : FormulatorAccount :=
  mkFormulator (fa_Address a) (fa_Name a) (fa_Type a) (fa_KeyHash a) (fa_GenHash a) am (fa_IsRevoked a)
    (fa_PreHeight a) (fa_UpdatedHeight a) (fa_StakingAmount a) (fa_Policy a).
Definition set_Type (t : FormulatorType) (pre upd : Z) (a : FormulatorAccount) : FormulatorAccount :=
  mkFormulator (fa_Address a) (fa_Name a) t (fa_KeyHash a) (fa_GenHash a) (fa_Amount a) (fa_IsRevoked a)
    pre upd (fa_StakingAmount a) (fa_Policy a).
Definition set_Keys (key gen : PublicHash) (a : FormulatorAccount) : FormulatorAccount :=
  mkFormulator (fa_Address a) (fa_Name a) (fa_Type a) key gen (fa_Amount a) (fa_IsRevoked a)
    (fa_PreHeight a) (fa_UpdatedHeight a) (fa_StakingAmount a) (fa_Policy a).
Definition set_IsRevoked (b : bool) (a : FormulatorAccount) : FormulatorAccount :=
  mkFormulator (fa_Address a) (fa_Name a) (fa_Type a) (fa_KeyHash a) (fa_GenHash a) (fa_Amount a) b
    (fa_PreHeight a) (fa_UpdatedHeight a) (fa_StakingAmount a) (fa_Policy a).
Definition set_StakingAmount (am : Amount) (a : FormulatorAccount) : FormulatorAccount :=
  mkFormulator (fa_Address a) (fa_Name a) (fa_Type a) (fa_KeyHash a) (fa_GenHash a) (fa_Amount a) (fa_IsRevoked a)
    (fa_PreHeight a) (fa_UpdatedHeight a) (Some am) (fa_Policy a).
Definition set_Policy (pc : option ValidatorPolicy) (a : FormulatorAccount) : FormulatorAccount :=
  mkFormulator (fa_Address a) (fa_Name a) (fa_Type a) (fa_KeyHash a) (fa_GenHash a) (fa_Amount a) (fa_IsRevoked a)
    (fa_PreHeight a) (fa_UpdatedHeight a) (fa_StakingAmount a) pc.

Definition on_formulator (g : FormulatorAccount -> FormulatorAccount) (acc : Account) : Account :=
  match acc with AFormulator a => AFormulator (g a) | _ => acc end.

Section Transactions.
Context {S : Type} `{!ContextOps S} `{!FormulatorCoders} `{!MapRange} `{Base58}.
Context (p : Formulator).

(** A write through the pointer to the account of [addr]. *)
Definition mutate (addr : Address) (g : FormulatorAccount -> FormulatorAccount) : ST S unit :=
  let! _ := attempt (op_UpdateAccount addr (on_formulator g)) in
  ret tt.

(** The type assertion of an account to a formulator, without and with the test. *)
Definition assert_formulator (acc : Account) : ST S FormulatorAccount :=
  match acc with AFormulator a => ret a | _ => throw "interface conversion" end.
Definition test_formulator (acc : Account) : ST S FormulatorAccount :=
  match acc with AFormulator a => ret a | _ => fail ErrInvalidAccountType end.

(** A nil amount has no methods. *)
Definition non_nil {A} (x : option A) : ST S A := match x with Some x => ret x | None => throw "nil pointer dereference" end.

Definition policy_at {A} `{!Unmarshaler A} (ctw : ContextWrapper) (tag : bytes) : ST S A :=
  let! bs := w_ProcessData ctw tag in
  lift (Unmarshal bs).

Abbreviation vault := (fo_vault p).
Definition ftx (h : TxHead) : FeeTransaction S := fee_tx (From_ h).

(** [acc, err := loader.Account(hyper)] down to the test of its kind. *)
Definition require_hyper (addr : Address) : ST S FormulatorAccount :=
  let! acc := op_Account addr in
  let! frAcc := test_formulator acc in
  guard (bool_decide (fa_Type frAcc = HyperFormulatorType)) ErrInvalidAccountType ;;;
  ret frAcc.

Definition require_formulator_admin (from : Address) : ST S unit :=
  let! addr := AdminAddress (fo_admin p) formulator_Name in
  guard (bool_decide (from = addr)) ErrUnauthorizedTransaction.

(** *** Creation *)

Definition CreateAlpha_Validate (ctw : ContextWrapper) (tx : CreateAlpha) (signers : list PublicHash) : ST S unit :=
  guard (IsAllowedAccountName (al_Name tx)) ErrInvalidAccountName ;;;
  require_fresh_seq (Seq_ (al_head tx)) (From_ (al_head tx)) ;;;
  require_new_name (al_Name tx) ;;;
  require_signers (From_ (al_head tx)) signers ;;;
  let! policy := policy_at (A := AlphaPolicy) ctw tagAlphaPolicy in
  let! h := op_TargetHeight in
  guard (negb (h <? AlphaCreationLimitHeight policy)) ErrAlphaCreationLimited ;;;
  CheckFeePayableWith vault (ftx (al_head tx)) (Some (AlphaCreationAmount policy)).

Definition new_alpha (h index : Z) (name : bytes) (key gen : PublicHash) (am : Amount) : Account :=
  AFormulator (mkFormulator (NewAddress h index 0) name AlphaFormulatorType key gen am false 0 h None None).

Definition CreateAlpha_Execute (ctw : ContextWrapper) (tx : CreateAlpha) (index : Z) : ST S unit :=
  WithFee vault ctw (ftx (al_head tx))
    (let! policy := policy_at (A := AlphaPolicy) ctw tagAlphaPolicy in
     SubBalance vault ctw (From_ (al_head tx)) (AlphaCreationAmount policy) ;;;
     let! h := op_TargetHeight in
     op_CreateAccount (new_alpha h index (al_Name tx) (al_KeyHash tx) (al_GenHash tx) (AlphaCreationAmount policy))).

(** The tests that [CreateSigma] and [CreateOmega] make of each formulator. *)
Definition check_candidate (kind : FormulatorType) (RequiredBlocks : Z) (From : Address) (signer : PublicHash) : ST S unit :=
  let! acc := op_Account From in
  let! frAcc := test_formulator acc in
  guard (bool_decide (fa_Type frAcc = kind)) ErrInvalidAccountType ;;;
  let! h := op_TargetHeight in
  guard (negb (u32 (h + fa_PreHeight frAcc) <? u32 (fa_UpdatedHeight frAcc + RequiredBlocks))) ErrInsufficientFormulatorBlocks ;;;
  lift (FormulatorAccount_Validate frAcc [signer]).

(** [Validate] of [CreateSigma] and of [CreateOmega], which differ in the policy
    ([required] reads the count and the blocks) and the kind. *)
Definition merge_Validate (kind : FormulatorType) (required : ST S (Z * Z)) (head : TxHead) (formulators : list Address)
    (signers : list PublicHash) : ST S unit :=
  match formulators with
  | [] => throw "index out of range"
  | first :: _ =>
      guard (bool_decide (From_ head = first)) ErrInvalidFormulatorAddress ;;;
      require_fresh_seq (Seq_ head) first ;;;
      guard (length formulators =? length signers)%nat ErrInvalidSignerCount ;;;
      let! cb := required in
      guard (Z.of_nat (length formulators) =? cb.1) ErrInvalidFormulatorCount ;;;
      for_each (zip formulators signers) (fun '(From, signer) => check_candidate kind cb.2 From signer) ;;;
      CheckFeePayable vault (ftx head)
  end.

(** The loop of their [Execute]: [addr] is dissolved into [first]. *)
Definition absorb (ctw : ContextWrapper) (first addr : Address) : ST S unit :=
  let! acc := op_Account addr in
  let! subAcc := assert_formulator acc in
  let! b := Balance vault addr in
  AddBalance vault ctw first b ;;;
  RemoveBalance vault ctw addr ;;;
  mutate first (fun a => set_Amount (Add (fa_Amount a) (fa_Amount subAcc)) a) ;;;
  op_DeleteAccount (AFormulator subAcc).

Definition merge_Execute {Policy} `{!Unmarshaler Policy} (tag : bytes) (kind : FormulatorType) (ctw : ContextWrapper)
    (head : TxHead) (formulators : list Address) : ST S unit :=
  WithFee vault ctw (ftx head)
    (let! _ := policy_at (A := Policy) ctw tag in
     match formulators with
     | [] => throw "index out of range"
     | first :: rest =>
         let! acc := op_Account first in
         let! _ := assert_formulator acc in
         for_each rest (fun addr => absorb ctw first addr) ;;;
         let! h := op_TargetHeight in
         mutate first (set_Type kind 0 h)
     end).

Definition CreateSigma_Validate (ctw : ContextWrapper) (tx : CreateSigma) (signers : list PublicHash) : ST S unit :=
  merge_Validate AlphaFormulatorType
    (let! pc := policy_at (A := SigmaPolicy) ctw tagSigmaPolicy in ret (SigmaRequiredAlphaCount pc, SigmaRequiredAlphaBlocks pc))
    (si_head tx) (AlphaFormulators tx) signers.
Definition CreateSigma_Execute (ctw : ContextWrapper) (tx : CreateSigma) (index : Z) : ST S unit :=
  merge_Execute (Policy := SigmaPolicy) tagSigmaPolicy SigmaFormulatorType ctw (si_head tx) (AlphaFormulators tx).
Definition CreateOmega_Validate (ctw : ContextWrapper) (tx : CreateOmega) (signers : list PublicHash) : ST S unit :=
  merge_Validate SigmaFormulatorType
    (let! pc := policy_at (A := OmegaPolicy) ctw tagOmegaPolicy in ret (OmegaRequiredSigmaCount pc, OmegaRequiredSigmaBlocks pc))
    (om_head tx) (SigmaFormulators tx) signers.
Definition CreateOmega_Execute (ctw : ContextWrapper) (tx : CreateOmega) (index : Z) : ST S unit :=
  merge_Execute (Policy := OmegaPolicy) tagOmegaPolicy OmegaFormulatorType ctw (om_head tx) (SigmaFormulators tx).

Definition CreateHyper_Validate (ctw : ContextWrapper) (tx : CreateHyper) (signers : list PublicHash) : ST S unit :=
  require_formulator_admin (From_ (hy_head tx)) ;;;
  match hy_Policy tx with
  | None => fail ErrInvalidValidatorPolicy
  | Some pc => guard (negb (1000 <? CommissionRatio1000 pc)) ErrInvalidValidatorPolicy
  end ;;;
  require_fresh_seq (Seq_ (hy_head tx)) (From_ (hy_head tx)) ;;;
  require_new_name (hy_Name tx) ;;;
  require_signers (From_ (hy_head tx)) signers.

Definition CreateHyper_Execute (ctw : ContextWrapper) (tx : CreateHyper) (index : Z) : ST S unit :=
  let! policy := policy_at (A := HyperPolicy) ctw tagHyperPolicy in
  SubBalance vault ctw (From_ (hy_head tx)) (HyperCreationAmount policy) ;;;
  let! h := op_TargetHeight in
  op_CreateAccount (AFormulator (mkFormulator (NewAddress h index 0) (hy_Name tx) HyperFormulatorType (hy_KeyHash tx) (hy_GenHash tx)
    (HyperCreationAmount policy) false 0 h (Some (NewCoinAmount 0 0)) (hy_Policy tx))).

(** *** Revocation *)

Definition Revoke_Validate (ctw : ContextWrapper) (tx : Revoke) (signers : list PublicHash) : ST S unit :=
  guard (negb (bool_decide (From_ (re_head tx) = re_Heritor tx))) ErrInvalidHeritor ;;;
  require_fresh_seq (Seq_ (re_head tx)) (From_ (re_head tx)) ;;;
  require_account (re_Heritor tx) ErrNotExistAccount ;;;
  let! acc := op_Account (From_ (re_head tx)) in
  let! frAcc := test_formulator acc in
  guard (negb (fa_IsRevoked frAcc)) ErrRevokedFormulator ;;;
  lift (FormulatorAccount_Validate frAcc signers) ;;;
  CheckFeePayable vault (ftx (re_head tx)).

Definition unlock_blocks (ctw : ContextWrapper) (kind : FormulatorType) : ST S Z :=
  match kind with
  | AlphaFormulatorType => let! pc := policy_at (A := AlphaPolicy) ctw tagAlphaPolicy in ret (AlphaUnlockRequiredBlocks pc)
  | SigmaFormulatorType => let! pc := policy_at (A := SigmaPolicy) ctw tagSigmaPolicy in ret (SigmaUnlockRequiredBlocks pc)
  | OmegaFormulatorType => let! pc := policy_at (A := OmegaPolicy) ctw tagOmegaPolicy in ret (OmegaUnlockRequiredBlocks pc)
  | HyperFormulatorType => let! pc := policy_at (A := HyperPolicy) ctw tagHyperPolicy in ret (HyperUnlockRequiredBlocks pc)
  end.

Definition Revoke_Execute (ctw : ContextWrapper) (tx : Revoke) (index : Z) : ST S unit :=
  WithFee vault ctw (ftx (re_head tx))
    (let! acc := op_Account (From_ (re_head tx)) in
     let! frAcc := assert_formulator acc in
     mutate (From_ (re_head tx)) (set_IsRevoked true) ;;;
     let! blocks := unlock_blocks ctw (fa_Type frAcc) in
     let! h := op_TargetHeight in
     addRevokedFormulator ctw (acc_Address acc) (u32 (h + blocks)) (re_Heritor tx)).

Definition RevertRevoke_Validate (ctw : ContextWrapper) (tx : RevertRevoke) (signers : list PublicHash) : ST S unit :=
  require_fresh_seq (Seq_ (rr_head tx)) (From_ (rr_head tx)) ;;;
  let! acc := op_Account (From_ (rr_head tx)) in
  let! frAcc := test_formulator acc in
  guard (fa_IsRevoked frAcc) ErrNotRevoked ;;;
  lift (FormulatorAccount_Validate frAcc signers) ;;;
  CheckFeePayable vault (ftx (rr_head tx)).

Definition RevertRevoke_Execute (ctw : ContextWrapper) (tx : RevertRevoke) (index : Z) : ST S unit :=
  WithFee vault ctw (ftx (rr_head tx))
    (let! acc := op_Account (From_ (rr_head tx)) in
     let! _ := assert_formulator acc in
     mutate (From_ (rr_head tx)) (set_IsRevoked false) ;;;
     removeRevokedFormulator p ctw (acc_Address acc)).

(** *** Staking *)

(** [frAcc.StakingAmount = frAcc.StakingAmount.Add(am)], and with [Sub]. *)
Definition change_StakingAmount (addr : Address) (frAcc : FormulatorAccount) (am : Amount -> Amount) : ST S unit :=
  let! sa := non_nil (fa_StakingAmount frAcc) in
  mutate addr (set_StakingAmount (am sa)).

Definition Staking_Validate (ctw : ContextWrapper) (tx : Staking) (signers : list PublicHash) : ST S unit :=
  let! d := lift dust in
  guard (negb (Less (st_Amount tx) d)) ErrInvalidStakingAmount ;;;
  require_fresh_seq (Seq_ (st_head tx)) (From_ (st_head tx)) ;;;
  guard (negb (bool_decide (From_ (st_head tx) = st_HyperFormulator tx))) ErrInvalidStakingAddress ;;;
  let! frAcc := require_hyper (st_HyperFormulator tx) in
  guard (negb (fa_IsRevoked frAcc)) ErrRevokedFormulator ;;;
  let! pc := non_nil (fa_Policy frAcc) in
  guard (negb (negb (IsZero (MinimumStaking pc)) && Less (st_Amount tx) (MinimumStaking pc))) ErrInvalidStakingAmount ;;;
  require_signers (From_ (st_head tx)) signers ;;;
  CheckFeePayableWith vault (ftx (st_head tx)) (Some (st_Amount tx)).

Definition Staking_Execute (ctw : ContextWrapper) (tx : Staking) (index : Z) : ST S unit :=
  WithFee vault ctw (ftx (st_head tx))
    (let! acc := op_Account (st_HyperFormulator tx) in
     let! frAcc := assert_formulator acc in
     let! fromAcc := op_Account (From_ (st_head tx)) in
     SubBalance vault ctw (acc_Address fromAcc) (st_Amount tx) ;;;
     AddStakingAmount p ctw (st_HyperFormulator tx) (From_ (st_head tx)) (st_Amount tx) ;;;
     change_StakingAmount (st_HyperFormulator tx) frAcc (fun sa => Add sa (st_Amount tx))).

Definition Unstaking_Validate (ctw : ContextWrapper) (tx : Unstaking) (signers : list PublicHash) : ST S unit :=
  guard (negb (Less (un_Amount tx) COIN)) ErrInvalidStakingAmount ;;;
  require_fresh_seq (Seq_ (un_head tx)) (From_ (un_head tx)) ;;;
  let! frAcc := require_hyper (un_HyperFormulator tx) in
  require_signers (From_ (un_head tx)) signers ;;;
  let! fromStakingAmount := GetStakingAmount p (un_HyperFormulator tx) (From_ (un_head tx)) in
  guard (negb (Less fromStakingAmount (un_Amount tx))) ErrInsufficientStakingAmount ;;;
  let! sa := non_nil (fa_StakingAmount frAcc) in
  guard (negb (Less sa (un_Amount tx))) ErrInsufficientStakingAmount ;;;
  CheckFeePayable vault (ftx (un_head tx)).

Definition Unstaking_Execute (ctw : ContextWrapper) (tx : Unstaking) (index : Z) : ST S unit :=
  WithFee vault ctw (ftx (un_head tx))
    (let! acc := op_Account (un_HyperFormulator tx) in
     let! frAcc := assert_formulator acc in
     subStakingAmount p ctw (un_HyperFormulator tx) (From_ (un_head tx)) (un_Amount tx) ;;;
     change_StakingAmount (un_HyperFormulator tx) frAcc (fun sa => Sub sa (un_Amount tx)) ;;;
     let! policy := policy_at (A := HyperPolicy) ctw tagHyperPolicy in
     let! h := op_TargetHeight in
     addUnstakingAmount p ctw (un_HyperFormulator tx) (From_ (un_head tx)) (u32 (h + StakingUnlockRequiredBlocks policy)) (un_Amount tx)).

Definition RevertUnstaking_Validate (ctw : ContextWrapper) (tx : RevertUnstaking) (signers : list PublicHash) : ST S unit :=
  guard (negb (Less (ru_Amount tx) COIN)) ErrInvalidStakingAmount ;;;
  require_fresh_seq (Seq_ (ru_head tx)) (From_ (ru_head tx)) ;;;
  let! _ := require_hyper (ru_HyperFormulator tx) in
  require_signers (From_ (ru_head tx)) signers ;;;
  let! am := getUnstakingAmount p (ru_HyperFormulator tx) (From_ (ru_head tx)) (ru_UnstakedHeight tx) in
  guard (negb (Less am (ru_Amount tx))) ErrMinustUnstakingAmount ;;;
  CheckFeePayable vault (ftx (ru_head tx)).

Definition RevertUnstaking_Execute (ctw : ContextWrapper) (tx : RevertUnstaking) (index : Z) : ST S unit :=
  WithFee vault ctw (ftx (ru_head tx))
    (let! acc := op_Account (ru_HyperFormulator tx) in
     let! frAcc := assert_formulator acc in
     subUnstakingAmount p ctw (ru_HyperFormulator tx) (From_ (ru_head tx)) (ru_UnstakedHeight tx) (ru_Amount tx) ;;;
     AddStakingAmount p ctw (ru_HyperFormulator tx) (From_ (ru_head tx)) (ru_Amount tx) ;;;
     change_StakingAmount (ru_HyperFormulator tx) frAcc (fun sa => Add sa (ru_Amount tx))).

(** *** Owners and policies *)

Definition ChangeOwner_Validate (ctw : ContextWrapper) (tx : ChangeOwner) (signers : list PublicHash) : ST S unit :=
  require_fresh_seq (Seq_ (co_head tx)) (From_ (co_head tx)) ;;;
  let! acc := op_Account (From_ (co_head tx)) in
  let! frAcc := test_formulator acc in
  lift (FormulatorAccount_Validate frAcc signers) ;;;
  CheckFeePayable vault (ftx (co_head tx)).

Definition ChangeOwner_Execute (ctw : ContextWrapper) (tx : ChangeOwner) (index : Z) : ST S unit :=
  WithFee vault ctw (ftx (co_head tx))
    (let! acc := op_Account (From_ (co_head tx)) in
     let! _ := assert_formulator acc in
     mutate (From_ (co_head tx)) (set_Keys (co_KeyHash tx) (co_GenHash tx))).

Definition UpdateValidatorPolicy_Validate (ctw : ContextWrapper) (tx : UpdateValidatorPolicy) (signers : list PublicHash) : ST S unit :=
  match uv_Policy tx with
  | None => fail ErrInvalidValidatorPolicy
  | Some pc =>
      guard (negb (1000 <=? CommissionRatio1000 pc)) ErrInvalidValidatorPolicy ;;;
      guard (negb (PayOutInterval pc <=? 0)) ErrInvalidValidatorPolicy ;;;
      guard (negb (30 <? PayOutInterval pc)) ErrInvalidValidatorPolicy
  end ;;;
  require_fresh_seq (Seq_ (uv_head tx)) (From_ (uv_head tx)) ;;;
  let! acc := op_Account (From_ (uv_head tx)) in
  let! frAcc := test_formulator acc in
  guard (bool_decide (fa_Type frAcc = HyperFormulatorType)) ErrNotHyperFormulator ;;;
  lift (FormulatorAccount_Validate frAcc signers).

Definition UpdateValidatorPolicy_Execute (ctw : ContextWrapper) (tx : UpdateValidatorPolicy) (index : Z) : ST S unit :=
  let! acc := op_Account (From_ (uv_head tx)) in
  let! _ := assert_formulator acc in
  mutate (From_ (uv_head tx)) (set_Policy (uv_Policy tx)).

Definition UpdateUserAutoStaking_Validate (ctw : ContextWrapper) (tx : UpdateUserAutoStaking) (signers : list PublicHash) : ST S unit :=
  require_fresh_seq (Seq_ (ua_head tx)) (From_ (ua_head tx)) ;;;
  let! _ := require_hyper (ua_HyperFormulator tx) in
  require_signers (From_ (ua_head tx)) signers ;;;
  CheckFeePayable vault (ftx (ua_head tx)).

Definition UpdateUserAutoStaking_Execute (ctw : ContextWrapper) (tx : UpdateUserAutoStaking) (index : Z) : ST S unit :=
  WithFee vault ctw (ftx (ua_head tx))
    (let! acc := op_Account (ua_HyperFormulator tx) in
     let! frAcc := assert_formulator acc in
     setUserAutoStaking ctw (fa_Address frAcc) (From_ (ua_head tx)) (ua_AutoStaking tx)).

Definition UpdateRewardPolicy_Validate (ctw : ContextWrapper) (tx : UpdateRewardPolicy) (signers : list PublicHash) : ST S unit :=
  require_formulator_admin (From_ (ur_head tx)) ;;;
  match ur_Policy tx with None => fail ErrInvalidRewardPolicy | Some _ => ret tt end ;;;
  require_fresh_seq (Seq_ (ur_head tx)) (From_ (ur_head tx)) ;;;
  require_signers (From_ (ur_head tx)) signers.

Definition UpdateRewardPolicy_Execute (ctw : ContextWrapper) (tx : UpdateRewardPolicy) (index : Z) : ST S unit :=
  w_SetProcessData ctw tagRewardPolicy (Marshal (ur_Policy tx)).

Definition UpdateTransmutePolicy_Validate (ctw : ContextWrapper) (tx : UpdateTransmutePolicy) (signers : list PublicHash) : ST S unit :=
  require_formulator_admin (From_ (ut_head tx)) ;;;
  require_fresh_seq (Seq_ (ut_head tx)) (From_ (ut_head tx)) ;;;
  require_signers (From_ (ut_head tx)) signers.

Definition UpdateTransmutePolicy_Execute (ctw : ContextWrapper) (tx : UpdateTransmutePolicy) (index : Z) : ST S unit :=
  match ut_Policy tx with
  | None => w_SetProcessData ctw tagTransmutePolicy []
  | Some pc => w_SetProcessData ctw tagTransmutePolicy (Marshal pc)
  end.

(** *** Transmutation of stakes into an alpha formulator *)

Definition GetRewardPolicy : ST S RewardPolicy := policy_at (NewContextWrapper (fo_pid p)) tagRewardPolicy.
Definition GetAlphaPolicy : ST S AlphaPolicy := policy_at (NewContextWrapper (fo_pid p)) tagAlphaPolicy.
Definition GetSigmaPolicy : ST S SigmaPolicy := policy_at (NewContextWrapper (fo_pid p)) tagSigmaPolicy.
Definition GetOmegaPolicy : ST S OmegaPolicy := policy_at (NewContextWrapper (fo_pid p)) tagOmegaPolicy.
Definition GetHyperPolicy : ST S HyperPolicy := policy_at (NewContextWrapper (fo_pid p)) tagHyperPolicy.
Definition GetTransmutePolicy : ST S TransmutePolicy :=
  let! bs := op_ProcessData (fo_pid p) tagTransmutePolicy in
  match bs with [] => fail ErrNotExistTransmutePolicy | _ => lift (Unmarshal bs) end.

Definition transmute_open : ST S unit :=
  let! pc := GetTransmutePolicy in
  let! h := op_TargetHeight in
  guard (negb (h <? TransmuteEnableHeightFrom pc)) ErrInvalidTransmuteHeight ;;;
  guard (negb (TransmuteEnableHeightTo pc <? h)) ErrInvalidTransmuteHeight.

Definition Transmute_Validate (ctw : ContextWrapper) (tx : Transmute) (signers : list PublicHash) : ST S unit :=
  guard (IsAllowedAccountName (tm_Name tx)) ErrInvalidAccountName ;;;
  transmute_open ;;;
  guard (negb (10 <? length (tm_Amounts tx))%nat) ErrInvalidTransmuteCount ;;;
  guard (length (tm_Amounts tx) =? length (tm_HyperFormulators tx))%nat ErrInvalidTransmuteCount ;;;
  require_fresh_seq (Seq_ (tm_head tx)) (From_ (tm_head tx)) ;;;
  require_new_name (tm_Name tx) ;;;
  let! alphaPolicy := policy_at (A := AlphaPolicy) ctw tagAlphaPolicy in
  let! h := op_TargetHeight in
  guard (negb (h <? AlphaCreationLimitHeight alphaPolicy)) ErrAlphaCreationLimited ;;;
  let! sum := fold_each (tm_Amounts tx) (NewCoinAmount 0 0) (fun sum am =>
    guard (negb (Less am COIN)) ErrInvalidStakingAmount ;;; ret (Add sum am)) in
  guard (Equal sum (AlphaCreationAmount alphaPolicy)) ErrInvalidTransmuteAmount ;;;
  for_each (zip (tm_HyperFormulators tx) (tm_Amounts tx)) (fun '(haddr, am) =>
    let! frAcc := require_hyper haddr in
    let! fromStakingAmount := GetStakingAmount p haddr (From_ (tm_head tx)) in
    guard (negb (Less fromStakingAmount am)) ErrInsufficientStakingAmount ;;;
    let! sa := non_nil (fa_StakingAmount frAcc) in
    guard (negb (Less sa am)) ErrInsufficientStakingAmount) ;;;
  require_signers (From_ (tm_head tx)) signers.

(** [tx.Amounts[i]] beyond the amounts panics. *)
Definition Transmute_Execute (ctw : ContextWrapper) (tx : Transmute) (index : Z) : ST S unit :=
  transmute_open ;;;
  for_each (imap (fun i haddr => (haddr, tm_Amounts tx !! i)) (tm_HyperFormulators tx)) (fun '(haddr, am) =>
    let! am := match am with Some am => ret am | None => throw "index out of range" end in
    let! acc := op_Account haddr in
    let! frAcc := assert_formulator acc in
    subStakingAmount p ctw haddr (From_ (tm_head tx)) am ;;;
    change_StakingAmount haddr frAcc (fun sa => Sub sa am)) ;;;
  let! policy := policy_at (A := AlphaPolicy) ctw tagAlphaPolicy in
  let! h := op_TargetHeight in
  op_CreateAccount (new_alpha h index (tm_Name tx) (tm_KeyHash tx) (tm_GenHash tx) (AlphaCreationAmount policy)).

(** ** Set-up *)

Definition formulator_InitPolicy (ctw : ContextWrapper) (rp : RewardPolicy) (ap : AlphaPolicy) (sp : SigmaPolicy)
    (op : OmegaPolicy) (hp : HyperPolicy) : ST S unit :=
  let ctw := self p ctw in
  w_SetProcessData ctw tagRewardPolicy (Marshal (Some rp)) ;;;
  w_SetProcessData ctw tagAlphaPolicy (Marshal ap) ;;;
  w_SetProcessData ctw tagSigmaPolicy (Marshal sp) ;;;
  w_SetProcessData ctw tagOmegaPolicy (Marshal op) ;;;
  w_SetProcessData ctw tagHyperPolicy (Marshal hp).

(** The map of the current stakes of each hyper formulator: the loop copies a Go
    map into an ordered map. *)
Definition InitStakingMap (ctw : ContextWrapper) (HyperAddresses : list Address) : ST S unit :=
  let ctw := self p ctw in
  for_each HyperAddresses (fun addr =>
    let! AmountMap := GetStakingAmountMap p addr in
    w_SetAccountData ctw addr tagStakingAmountMap (Marshal AmountMap)).

Definition require_data (lw : ContextWrapper) (tag : bytes) (e : error) : ST S unit :=
  let! bs := w_ProcessData lw tag in
  match bs with [] => fail e | _ => ret tt end.

Definition formulator_OnLoadChain (lw : ContextWrapper) : ST S unit :=
  let! _ := AdminAddress (fo_admin p) formulator_Name in
  require_data lw tagRewardPolicy ErrRewardPolicyShouldBeSetupInApplication ;;;
  require_data lw tagAlphaPolicy ErrAlphaPolicyShouldBeSetupInApplication ;;;
  require_data lw tagSigmaPolicy ErrSigmaPolicyShouldBeSetupInApplication ;;;
  require_data lw tagOmegaPolicy ErrOmegaPolicyShouldBeSetupInApplication ;;;
  require_data lw tagHyperPolicy ErrHyperPolicyShouldBeSetupInApplication.
End Transactions.
