(* ===== verification/FormulatorReward.v ===== *)
(** * Rewards

    [AfterExecuteTransactions] of [process/formulator/formulator.go]: every
    [PayRewardEveryBlocks] blocks the reward of the period and the collected fees
    are shared among the block generators by their power; the share of the stakes
    of a hyper formulator is stacked and paid to the stakers at its own interval.
    After that the formulators whose revocation is due are dissolved and the
    unstaked amounts that are due are paid back. *)

From stdpp Require Import base gmap list sorting strings.
From Stdlib Require Import ZArith Lia.
From S2P Require Import Prelude Amount Common Types Context ContextSpec Vault Registry Formulator FormulatorTx.

(** ** The event *)

(** The maps of [RewardEvent]. *)
Record RewardLog := mkLog {
  lg_GenBlock : gmap Address Z;
  lg_Reward : gmap Address Amount;
  lg_Stacked : gmap Address Amount;
  lg_Commission : gmap Address Amount;
  lg_Staked : gmap Address (gmap Address Amount);
  lg_StakeReward : gmap Address (gmap Address Amount)
}.

(** [if old, has := m.Get(k); has { m.Put(k, old.Add(am)) } else { m.Put(k, am) }]. *)
Definition put_sum (m : gmap Address Amount) (k : Address) (am : Amount) : gmap Address Amount :=
  <[k := match m !! k with Some old => Add old am | None => am end]> m.
Definition put_sum2 (m : gmap Address (gmap Address Amount)) (h k : Address) (am : Amount) : gmap Address (gmap Address Amount) :=
  <[h := put_sum (default ∅ (m !! h)) k am]> m.

Definition AddReward (ev : RewardLog) (addr : Address) (am : Amount) : RewardLog :=
  mkLog (lg_GenBlock ev) (put_sum (lg_Reward ev) addr am) (lg_Stacked ev) (lg_Commission ev) (lg_Staked ev) (lg_StakeReward ev).
Definition AddStacked (ev : RewardLog) (addr : Address) (am : Amount) : RewardLog :=
  mkLog (lg_GenBlock ev) (lg_Reward ev) (put_sum (lg_Stacked ev) addr am) (lg_Commission ev) (lg_Staked ev) (lg_StakeReward ev).
Definition RemoveStacked (ev : RewardLog) (addr : Address) : RewardLog :=
  mkLog (lg_GenBlock ev) (lg_Reward ev) (delete addr (lg_Stacked ev)) (lg_Commission ev) (lg_Staked ev) (lg_StakeReward ev).
Definition AddCommission (ev : RewardLog) (addr : Address) (am : Amount) : RewardLog :=
  mkLog (lg_GenBlock ev) (lg_Reward ev) (lg_Stacked ev) (put_sum (lg_Commission ev) addr am) (lg_Staked ev) (lg_StakeReward ev).
Definition AddStaked (ev : RewardLog) (HyperAddr addr : Address) (am : Amount) : RewardLog :=
  mkLog (lg_GenBlock ev) (lg_Reward ev) (lg_Stacked ev) (lg_Commission ev) (put_sum2 (lg_Staked ev) HyperAddr addr am) (lg_StakeReward ev).
Definition AddStakeReward (ev : RewardLog) (HyperAddr addr : Address) (am : Amount) : RewardLog :=
  mkLog (lg_GenBlock ev) (lg_Reward ev) (lg_Stacked ev) (lg_Commission ev) (lg_Staked ev) (put_sum2 (lg_StakeReward ev) HyperAddr addr am).

Definition reward_event (h : Z) (ev : RewardLog) : Event :=
  mkEvent h 65535 0 (RewardEvent (lg_GenBlock ev) (lg_Reward ev) (lg_Stacked ev) (lg_Commission ev) (lg_Staked ev) (lg_StakeReward ev)).

(** The local variables of the loop over the generators. *)
Record Powers := mkPowers {
  pw_StackReward : gmap Address Amount;
  pw_Sum : Amount;
  pw_Reward : gmap Address Amount;
  pw_Staking : gmap Address Amount;
  pw_Hypers : list FormulatorAccount
}.

Section Rewards.
Context {S : Type} `{!ContextOps S} `{!FormulatorCoders} `{!MapRange} `{Base58}.
Context (p : Formulator).
Abbreviation vault := (fo_vault p).

(** [if has, err := ctw.HasAccount(addr); err != nil { if err == types.ErrDeletedAccount { no } else { return err } }
    else if !has { no } else { yes }]. *)
Definition is_alive (addr : Address) : ST S bool :=
  let! r := attempt (op_HasAccount addr) in
  match r with
  | inr b => ret b
  | inl err => if bool_decide (err = ErrDeletedAccount) then ret false else fail err
  end.

(** [am.MulC(int64(GenCount)).MulC(int64(efficiency)).DivC(1000)]. *)
Definition power (am : Amount) (GenCount efficiency : Z) : res Amount :=
  DivC (MulC (MulC am GenCount) efficiency) 1000.

(** [if bs := ctw.AccountData(addr, tag); len(bs) > 0 { Unmarshal }]. *)
Definition map_at (ctw : ContextWrapper) (addr : Address) (tag : bytes) : ST S (gmap Address Amount) :=
  let! bs := w_AccountData ctw addr tag in
  match bs with [] => ret ∅ | _ => lift (Unmarshal bs) end.

(** The stakes that count in both periods: the smaller of the previous and the
    current stake; stakes of accounts that are gone are given up. *)
Definition cross_stake (ctw : ContextWrapper) (hyper : Address) (Prev : gmap Address Amount)
    (maps : gmap Address Amount * gmap Address Amount) (entry : Address * Amount) : ST S (gmap Address Amount * gmap Address Amount) :=
  let '(Current, Cross) := maps in
  let '(StakingAddress, StakingAmount) := entry in
  let! alive := is_alive StakingAddress in
  if alive then
    let Current := <[StakingAddress := StakingAmount]> Current in
    match Prev !! StakingAddress with
    | Some PrevStakingAmount =>
        if negb (IsZero PrevStakingAmount) && negb (IsZero StakingAmount) then
          ret (Current, <[StakingAddress := if Less StakingAmount PrevStakingAmount then StakingAmount else PrevStakingAmount]> Cross)
        else ret (Current, Cross)
    | None => ret (Current, Cross)
    end
  else
    let! _ := attempt (subStakingAmount p ctw hyper StakingAddress StakingAmount) in
    ret (Current, Cross).

(** The sum of the powers of accounts that exist, and the map without the others. *)
Definition alive_powers (m : gmap Address Amount) : ST S (gmap Address Amount * Amount) :=
  let! r := fold_each (each_all m) ([], NewCoinAmount 0 0) (fun '(Deleteds, sum) '(addr, am) =>
    let! alive := is_alive addr in
    ret (if alive then (Deleteds, Add sum am) else (Deleteds ++ [addr], sum))) in
  ret (foldl (fun m addr => delete addr m) m r.1, r.2).

(** [x.Mul(amount.COIN).Div(sum)] and [power.Mul(Ratio).Div(amount.COIN)]. *)
Definition ratio (total sum : Amount) : res Amount := Div (Mul total COIN) sum.
Definition share (pw Ratio : Amount) : res Amount := Div (Mul pw Ratio) COIN.

(** The power of the stakes of a hyper formulator in this period. *)
Definition hyper_power (ctw : ContextWrapper) (policy : RewardPolicy) (GenCount : Z) (frAcc : FormulatorAccount) (StackReward : option Amount)
    : ST S Amount :=
  let addr := fa_Address frAcc in
  let! Prev := map_at ctw addr tagStakingAmountMap in
  let! AmountMap := GetStakingAmountMap p addr in
  let! maps := fold_each (range AmountMap) (∅, ∅) (cross_stake ctw addr Prev) in
  w_SetAccountData ctw addr tagStakingAmountMap (Marshal maps.1) ;;;
  let! PowerMap := map_at ctw addr tagStakingPowerMap in
  let! r := fold_each (range maps.2) (PowerMap, NewCoinAmount 0 0) (fun '(pm, sum) '(StakingAddress, am) =>
    let! pw := lift (power am GenCount (StakingEfficiency1000 policy)) in
    ret (put_sum pm StakingAddress am, Add sum pw)) in
  let! r := match StackReward with
    | None => ret r
    | Some StackReward =>
        let! ps := alive_powers r.1 in
        if IsZero ps.2 then ret (ps.1, r.2)
        else
          let! Ratio := lift (ratio StackReward ps.2) in
          fold_each (each_all ps.1) (ps.1, r.2) (fun '(pm, sum) '(StakingAddress, StakingPower) =>
            let! am := lift (share StakingPower Ratio) in
            let! pw := lift (power am GenCount (StakingEfficiency1000 policy)) in
            ret (<[StakingAddress := Add StakingPower am]> pm, Add sum pw))
    end in
  w_SetAccountData ctw addr tagStakingPowerMap (Marshal r.1) ;;;
  ret r.2.

Definition add_power (pw : Powers) (addr : Address) (am : Amount) : Powers :=
  mkPowers (pw_StackReward pw) (Add (pw_Sum pw) am) (<[addr := am]> (pw_Reward pw)) (pw_Staking pw) (pw_Hypers pw).
Definition drop_stack (pw : Powers) (addr : Address) : Powers :=
  mkPowers (delete addr (pw_StackReward pw)) (pw_Sum pw) (pw_Reward pw) (pw_Staking pw) (pw_Hypers pw).

(** The body of the loop over the generators. *)
Definition generator_power (ctw : ContextWrapper) (policy : RewardPolicy) (pw : Powers) (entry : Address * Z) : ST S Powers :=
  let '(GenAddress, GenCount) := entry in
  let! alive := is_alive GenAddress in
  if negb alive then ret (drop_stack pw GenAddress)
  else
    let! acc := op_Account GenAddress in
    let! frAcc := test_formulator acc in
    if fa_IsRevoked frAcc then ret pw
    else match fa_Type frAcc with
    | AlphaFormulatorType =>
        let! am := lift (power (fa_Amount frAcc) GenCount (AlphaEfficiency1000 policy)) in ret (add_power pw GenAddress am)
    | SigmaFormulatorType =>
        let! am := lift (power (fa_Amount frAcc) GenCount (SigmaEfficiency1000 policy)) in ret (add_power pw GenAddress am)
    | OmegaFormulatorType =>
        let! am := lift (power (fa_Amount frAcc) GenCount (OmegaEfficiency1000 policy)) in ret (add_power pw GenAddress am)
    | HyperFormulatorType =>
        let! am := lift (power (fa_Amount frAcc) GenCount (HyperEfficiency1000 policy)) in
        let pw := add_power pw GenAddress am in
        let! sp := hyper_power ctw policy GenCount frAcc (pw_StackReward pw !! fa_Address frAcc) in
        ret (mkPowers (pw_StackReward pw) (Add (pw_Sum pw) sp) (pw_Reward pw) (<[GenAddress := sp]> (pw_Staking pw)) (pw_Hypers pw ++ [frAcc]))
    end.

(** [if !RewardPowerSum.IsZero() { ... }]: the reward of the period and the fees
    are shared by power; the shares of stakes are stacked. *)
Definition share_rewards (ctw : ContextWrapper) (policy : RewardPolicy) (lastPaidHeight : Z) (pw : Powers) (ev : RewardLog)
    : ST S (gmap Address Amount * RewardLog) :=
  if IsZero (pw_Sum pw) then ret (pw_StackReward pw, ev)
  else
    let! h := op_TargetHeight in
    let TotalReward := MulC (RewardPerBlock policy) (u32 (h - lastPaidHeight)) in
    let! TotalFee := CollectedFee vault in
    SubCollectedFee vault ctw TotalFee ;;;
    let TotalReward := Add TotalReward TotalFee in
    let! Ratio := lift (ratio TotalReward (pw_Sum pw)) in
    let! ev := fold_each (range (pw_Reward pw)) ev (fun ev '(RewardAddress, RewardPower) =>
      let! RewardAmount := lift (share RewardPower Ratio) in
      if IsZero RewardAmount then ret ev
      else AddBalance vault ctw RewardAddress RewardAmount ;;; ret (AddReward ev RewardAddress RewardAmount)) in
    fold_each (range (pw_Staking pw)) (pw_StackReward pw, ev) (fun '(stack, ev) '(GenAddress, StakingRewardPower) =>
      let! alive := is_alive GenAddress in
      if negb alive then ret (stack, ev)
      else
        let! RewardAmount := lift (share StakingRewardPower Ratio) in
        ret (put_sum stack GenAddress RewardAmount, AddStacked ev GenAddress RewardAmount)).

(** One staker of a hyper formulator whose stacked reward is paid out. *)
Definition pay_staker (ctw : ContextWrapper) (frAcc : FormulatorAccount) (pc : ValidatorPolicy) (Ratio : Amount)
    (st : Amount * RewardLog) (entry : Address * Amount) : ST S (Amount * RewardLog) :=
  let '(CommissionSum, ev) := st in
  let '(StakingAddress, StakingPower) := entry in
  let addr := fa_Address frAcc in
  let! RewardAmount := lift (share StakingPower Ratio) in
  let! Commission := (if 0 <? CommissionRatio1000 pc then lift (DivC (MulC RewardAmount (CommissionRatio1000 pc)) 1000) else ret 0) in
  let CommissionSum := Add CommissionSum Commission in
  let RewardAmount := Sub RewardAmount Commission in
  if IsZero RewardAmount then ret (CommissionSum, ev)
  else
    let! auto := GetUserAutoStaking p addr StakingAddress in
    if auto then
      AddStakingAmount p ctw addr StakingAddress RewardAmount ;;;
      ret (CommissionSum, AddStaked ev addr StakingAddress RewardAmount)
    else
      AddBalance vault ctw StakingAddress RewardAmount ;;;
      ret (CommissionSum, AddStakeReward ev addr StakingAddress RewardAmount).

(** The body of the loop over the hyper formulators. *)
Definition pay_hyper (ctw : ContextWrapper) (policy : RewardPolicy) (st : gmap Address Amount * RewardLog) (frAcc : FormulatorAccount)
    : ST S (gmap Address Amount * RewardLog) :=
  let '(stack, ev) := st in
  let addr := fa_Address frAcc in
  match stack !! addr with
  | None => ret (stack, ev)
  | Some StackReward =>
      let ev := RemoveStacked ev addr in
      let! lastStakingPaidHeight := getLastStakingPaidHeight ctw addr in
      let! h := op_TargetHeight in
      let! pc := non_nil (fa_Policy frAcc) in
      if h <? u32 (lastStakingPaidHeight + u32 (PayRewardEveryBlocks policy * PayOutInterval pc)) then ret (stack, ev)
      else
        let! PowerMap := map_at ctw addr tagStakingPowerMap in
        let! ps := alive_powers PowerMap in
        let! ev := (if IsZero ps.2 then ret ev
          else
            let! Ratio := lift (ratio StackReward ps.2) in
            let! r := fold_each (each_all ps.1) (NewCoinAmount 0 0, ev) (pay_staker ctw frAcc pc Ratio) in
            if IsZero r.1 then ret r.2
            else AddBalance vault ctw addr r.1 ;;; ret (AddCommission r.2 addr r.1)) in
        w_SetAccountData ctw addr tagStakingPowerMap [] ;;;
        setLastStakingPaidHeight ctw addr h ;;;
        ret (delete addr stack, ev)
  end.

(** The payment of a period. *)
Definition pay_rewards (ctw : ContextWrapper) (policy : RewardPolicy) (lastPaidHeight : Z) : ST S unit :=
  let! CountMap := flushGenCountMap ctw in
  let! h := op_TargetHeight in
  let! bs := w_ProcessData ctw tagStackRewardMap in
  let! StackRewardMap := match bs with [] => ret ∅ | _ => lift (Unmarshal bs) end in
  let ev := mkLog CountMap ∅ ∅ ∅ ∅ ∅ in
  let! pw := fold_each (range CountMap) (mkPowers StackRewardMap (NewCoinAmount 0 0) ∅ ∅ []) (generator_power ctw policy) in
  let! r := share_rewards ctw policy lastPaidHeight pw ev in
  let! r := fold_each (pw_Hypers pw) r (pay_hyper ctw policy) in
  w_SetProcessData ctw tagStackRewardMap (Marshal r.1) ;;;
  op_EmitEvent (reward_event h r.2) ;;;
  setLastPaidHeight ctw h.

(** ** Revocations that are due *)

(** The stakes of a dissolved hyper formulator go back to the stakers. *)
Definition return_stake (ctw : ContextWrapper) (FormulatorAddr : Address) (rest : Amount) (entry : Address * Amount) : ST S Amount :=
  let '(addr, StakingAmount) := entry in
  if IsZero StakingAmount then fail ErrInvalidStakingAddress
  else if Less rest StakingAmount then fail ErrCriticalStakingAmount
  else
    let rest := Sub rest StakingAmount in
    mutate FormulatorAddr (set_StakingAmount rest) ;;;
    AddBalance vault ctw addr StakingAmount ;;;
    ret rest.

Definition dissolve (ctw : ContextWrapper) (FormulatorAddr Heritor : Address) : ST S unit :=
  let! acc := op_Account FormulatorAddr in
  let! frAcc := test_formulator acc in
  let! alive := is_alive Heritor in
  (if alive then
     AddBalance vault ctw Heritor (fa_Amount frAcc) ;;;
     let! b := Balance vault FormulatorAddr in
     AddBalance vault ctw Heritor b ;;;
     RemoveBalance vault ctw FormulatorAddr
   else ret tt) ;;;
  (if bool_decide (fa_Type frAcc = HyperFormulatorType) then
     let! StakingAmountMap := GetStakingAmountMap p FormulatorAddr in
     let! sa := non_nil (fa_StakingAmount frAcc) in
     let! rest := fold_each (range StakingAmountMap) sa (return_stake ctw FormulatorAddr) in
     guard (IsZero rest) ErrCriticalStakingAmount
   else ret tt) ;;;
  op_DeleteAccount (AFormulator frAcc) ;;;
  let! h := op_TargetHeight in
  op_EmitEvent (mkEvent h 65535 0 (RevokedEvent FormulatorAddr)).

(** ** The hook *)

Definition pay_unstaked (ctw : ContextWrapper) (h : Z) (Addr HyperAddr : Address) (am : Amount) : ST S unit :=
  AddBalance vault ctw Addr am ;;;
  op_EmitEvent (mkEvent h 65535 0 (UnstakedEvent HyperAddr Addr am)).

Definition formulator_AfterExecuteTransactions (Generator : Address) (ctw : ContextWrapper) : ST S unit :=
  addGenCount ctw Generator ;;;
  let! policy := policy_at (A := RewardPolicy) ctw tagRewardPolicy in
  let! lastPaidHeight := getLastPaidHeight ctw in
  let! h := op_TargetHeight in
  (if u32 (lastPaidHeight + PayRewardEveryBlocks policy) <=? h then pay_rewards ctw policy lastPaidHeight else ret tt) ;;;
  let! RevokedMap := flushRevokedFormulatorMap ctw h in
  for_each (each_all RevokedMap) (fun '(FormulatorAddr, Heritor) => dissolve ctw FormulatorAddr Heritor) ;;;
  let! UnstakedMap := flushUnstakingAmountMap p ctw h in
  for_each (each_all UnstakedMap) (fun '(Addr, AmountMap) =>
    for_each (each_all AmountMap) (fun '(HyperAddr, am) => pay_unstaked ctw h Addr HyperAddr am)).
End Rewards.
