(* ===== verification/FormulatorSpec.v ===== *)
(** * Stakes

    The stakes of a hyper formulator ([process/formulator/formulator_method.go])
    are a finite map from stakers to positive amounts: the registry of the stakers
    and the amounts stay consistent under [AddStakingAmount] and
    [subStakingAmount], and [GetStakingAmountMap] reads the whole map back. *)

From stdpp Require Import base gmap list sorting strings.
From Stdlib Require Import ZArith Lia FunctionalExtensionality.
From S2P Require Import Prelude Amount Common Types Context ContextSpec ContextFacts Vault VaultSpec Registry Formulator FormulatorTx FormulatorReward.

(** ** The registry of stakers on the abstract machine *)

Lemma account_data_key_inj addr pid a b : account_data_key addr pid a = account_data_key addr pid b -> a = b.
Proof. unfold account_data_key. intros E. by do 2 apply (inj (app _)) in E. Qed.

Lemma address_key_inj tag a b : address_ok a -> address_ok b -> address_key tag a = address_key tag b -> a = b.
Proof. intros [Ha _] [Hb _] E. apply (inj (app _)) in E. by rewrite !copy_into_id in E. Qed.

Section Stakes.
Context `{B58 : Base58} (p : Formulator).
Implicit Types (a : AbsCtx) (ctw : ContextWrapper) (hyper : Address).

#[local] Program Instance staking_laws ctw hyper : RegistryLaws (staking_registry (S := AbsCtx) ctw hyper) := {
  rl_get a k := f_ad (a_top a) (account_data_key hyper (cw_pid ctw) k);
  rl_put k v a := set_top a (put_ad (a_top a) (account_data_key hyper (cw_pid ctw) k) v)
}.
Next Obligation. done. Qed.
Next Obligation. done. Qed.
Next Obligation.
  intros ctw hyper k v a k'. cbn [a_top set_top put_ad frame_set_ad f_ad]. unfold upd.
  destruct (decide (k' = k)) as [->|Hne]; [by rewrite decide_True|]. rewrite decide_False; [done|].
  by intros E%account_data_key_inj.
Qed.
Next Obligation. intros ctw hyper a b. apply address_key_inj. Qed.
Next Obligation.
  intros ctw hyper i j Hi Hj E. apply (inj (app _)) in E. by apply (be_bytes_inj 4) in E.
Qed.
Next Obligation. by intros ctw hyper a i. Qed.
Next Obligation. by intros ctw hyper a. Qed.
Next Obligation. by intros ctw hyper i. Qed.

Definition stake_key hyper (x : Address) : bytes := account_data_key hyper (fo_pid p) (toStakingAmountKey x).

(** The stakes at [hyper] are the map [m]. *)
Record staked (a : AbsCtx) hyper (m : gmap Address Amount) : Prop := {
  sk_list : exists L, registry_numbers (staking_registry (NewContextWrapper (fo_pid p)) hyper) a L /\ forall x, x ∈ L <-> is_Some (m !! x);
  sk_amount : forall x, address_ok x -> f_ad (a_top a) (stake_key hyper x) = match m !! x with Some v => Bytes v | None => [] end;
  sk_positive : forall x v, m !! x = Some v -> 0 < v
}.

Lemma staked_ok a hyper m x : staked a hyper m -> is_Some (m !! x) -> address_ok x.
Proof.
  intros [(L & HL & Hdom) _ _] Hx. pose proof (rn_ok _ _ _ HL) as Hf. rewrite Forall_forall in Hf. apply Hf. by apply Hdom.
Qed.

Lemma staked_amount a hyper m x : staked a hyper m -> address_ok x -> amount_of (f_ad (a_top a) (stake_key hyper x)) = default 0 (m !! x).
Proof.
  intros Hs Hx. rewrite (sk_amount _ _ _ Hs x Hx). destruct (m !! x) as [v|] eqn:E; [|done]. cbn.
  rewrite amount_of_Bytes. pose proof (sk_positive _ _ _ Hs x v E). lia.
Qed.

Lemma abs_GetStakingAmount a hyper x : GetStakingAmount p hyper x a = (Ok (amount_of (f_ad (a_top a) (stake_key hyper x))), a).
Proof. done. Qed.

(** A write of an amount leaves the registry alone. *)
Lemma staking_key_other ctw hyper x i b :
  account_data_key hyper (cw_pid ctw) (toStakingAmountKey x) <> account_data_key hyper (cw_pid ctw) tagStakingAmountCount /\
  account_data_key hyper (cw_pid ctw) (toStakingAmountKey x) <> account_data_key hyper (cw_pid ctw) (toStakingAmountReverseKey i) /\
  account_data_key hyper (cw_pid ctw) (toStakingAmountKey x) <> account_data_key hyper (cw_pid ctw) (toStakingAmountNumberKey b).
Proof. split_and!; intros E%account_data_key_inj; discriminate E. Qed.

Lemma registry_set_amount a hyper L x v :
  registry_numbers (staking_registry (NewContextWrapper (fo_pid p)) hyper) a L ->
  registry_numbers (staking_registry (NewContextWrapper (fo_pid p)) hyper) (set_top a (put_ad (a_top a) (stake_key hyper x) v)) L.
Proof.
  assert (Hg : forall k, (forall b, k <> toStakingAmountKey b) ->
    rl_get (R := staking_registry (NewContextWrapper (fo_pid p)) hyper) (set_top a (put_ad (a_top a) (stake_key hyper x) v)) k
    = rl_get (R := staking_registry (NewContextWrapper (fo_pid p)) hyper) a k).
  { intros k Hk. cbn [rl_get staking_laws a_top set_top put_ad frame_set_ad f_ad]. unfold upd. rewrite decide_False; [done|].
    intros E%account_data_key_inj. by apply (Hk x). }
  intros [Hc Hn Hr Hf Hnd Hb]. split; [| | |done..].
  - rewrite Hg; [done|]. intros b. done.
  - intros b Hbok. rewrite Hg; [by apply Hn|]. intros c. done.
  - intros i b Hi. rewrite Hg; [by apply Hr|]. intros c. done.
Qed.

Abbreviation stakers hyper := (staking_registry (S := AbsCtx) (NewContextWrapper (fo_pid p)) hyper).

(** Writing the amount of a staker, once the registry lists the stakers of the new map. *)
Lemma staked_write a a1 hyper m x (v : option Amount) L1 : staked a hyper m -> address_ok x -> (forall w, v = Some w -> 0 < w) ->
  registry_numbers (stakers hyper) a1 L1 -> (forall y, y ∈ L1 <-> is_Some (partial_alter (fun _ => v) x m !! y)) ->
  (forall y, f_ad (a_top a1) (stake_key hyper y) = f_ad (a_top a) (stake_key hyper y)) ->
  staked (set_top a1 (put_ad (a_top a1) (stake_key hyper x) (default [] (Bytes <$> v)))) hyper (partial_alter (fun _ => v) x m).
Proof.
  intros [_ Hamt Hpos] Hx Hv HL1 Hdom Hkeep. split.
  - exists L1. split; [by apply registry_set_amount|done].
  - intros y Hy. cbn [a_top set_top put_ad frame_set_ad f_ad]. unfold upd. destruct (decide (x = y)) as [<-|Hne].
    + rewrite decide_True by done. rewrite lookup_partial_alter_eq. by destruct v.
    + rewrite decide_False, lookup_partial_alter_ne by (done || (intros E%account_data_key_inj; by apply address_key_inj in E)).
      by rewrite Hkeep, Hamt.
  - intros y w. destruct (decide (x = y)) as [<-|Hne]; [rewrite lookup_partial_alter_eq; auto|].
    rewrite lookup_partial_alter_ne by done. apply Hpos.
Qed.

Lemma staker_count a hyper m L : registry_numbers (stakers hyper) a L -> (forall x, x ∈ L <-> is_Some (m !! x)) ->
  length L = size (m : gmap Address Amount).
Proof.
  intros HL Hdom. rewrite <- size_dom, <- (size_list_to_set (C := gset Address) L) by apply (rn_nodup _ _ _ HL). f_equal.
  apply set_eq. intros y. by rewrite elem_of_list_to_set, elem_of_dom, Hdom.
Qed.

Lemma self_wrapper ctw : self p ctw = NewContextWrapper (fo_pid p).
Proof. unfold self, SwitchContextWrapper. destruct (Z.eqb_spec (cw_pid ctw) (fo_pid p)) as [E|]; [|done]. destruct ctw. cbn in E. by subst. Qed.

(** [AddStakingAmount] on the abstract machine. *)
Lemma abs_AddStakingAmount a ctw hyper m x am : staked a hyper m -> address_ok x -> 0 < am -> Z.of_nat (size m) + 1 < 2 ^ 32 ->
  exists a', AddStakingAmount p ctw hyper x am a = (Ok tt, a') /\ staked a' hyper (<[x := default 0 (m !! x) + am]> m).
Proof.
  intros Hs Hx Ham Hsz. pose proof Hs as [(L & HL & Hdom) _ Hpos]. pose proof (staker_count a hyper m L HL Hdom) as Hlen.
  unfold AddStakingAmount. rewrite self_wrapper.
  assert (Henr : exists a1 L1, enroll (stakers hyper) x a = (Ok tt, a1) /\ registry_numbers (stakers hyper) a1 L1 /\ (forall y, y ∈ L1 <-> y ∈ L \/ y = x) /\
    forall y, f_ad (a_top a1) (stake_key hyper y) = f_ad (a_top a) (stake_key hyper y)).
  { destruct (decide (x ∈ L)) as [Hin|Hout].
    - exists a, L. split; [by eapply enroll_known|]. split; [done|]. split; [|done]. intros y. split; [auto|]. by intros [?| ->].
    - destruct (enroll_new _ a L x HL Hx Hout ltac:(lia)) as (a1 & E1 & HL1 & Hsame). exists a1, (L ++ [x]).
      split; [done|]. split; [done|]. split; [set_solver|]. intros y. apply (Hsame (toStakingAmountKey y)); done. }
  destruct Henr as (a1 & L1 & E1 & HL1 & Hdom1 & Hkeep). erewrite bind_ok by exact E1.
  erewrite bind_ok by apply abs_GetStakingAmount. rewrite Hkeep, (staked_amount a hyper m x Hs Hx), abs_w_SetAccountData.
  eexists. split; [reflexivity|]. apply (staked_write a a1 hyper m x (Some (default 0 (m !! x) + am)) L1); [done|done| |done| |done].
  - intros w [= <-]. destruct (m !! x) as [w|] eqn:E; [apply Hpos in E|]; cbn; lia.
  - intros y. rewrite Hdom1, Hdom. destruct (decide (x = y)) as [<-|Hne].
    + rewrite lookup_partial_alter_eq. split; [eauto|auto].
    + rewrite lookup_partial_alter_ne by done. split; [by intros [?|?]|auto].
Qed.

(** [subStakingAmount] on the abstract machine. *)
Lemma withdraw_staker a hyper m x L : registry_numbers (stakers hyper) a L -> x ∈ L -> address_ok x -> (forall x, x ∈ L <-> is_Some (m !! x)) ->
  exists a1 L1 ns, w_AccountData (NewContextWrapper (fo_pid p)) hyper (toStakingAmountNumberKey x) a = (Ok ns, a) /\
    match ns with [] => ret tt | _ => withdraw (stakers hyper) x ns end a = (Ok tt, a1) /\ registry_numbers (stakers hyper) a1 L1 /\
    (forall y, y ∈ L1 <-> is_Some (delete x (m : gmap Address Amount) !! y)) /\
    forall y, f_ad (a_top a1) (stake_key hyper y) = f_ad (a_top a) (stake_key hyper y).
Proof.
  intros HL [i Hi]%list_elem_of_lookup_1 Hx Hdom. destruct (withdraw_numbers _ a L i x HL Hi) as (a1 & E1 & HL1 & Hsame).
  exists a1, (swap_remove L i), (Uint32ToBytes (Z.of_nat i)). split_and!; [| |done| |].
  - change (w_AccountData _ _ _ a) with (rg_read (stakers hyper) (rg_number (stakers hyper) x) a).
    by rewrite rl_read, (rn_number _ _ _ HL x Hx), (find_at L i x (rn_nodup _ _ _ HL) Hi).
  - destruct (Uint32ToBytes (Z.of_nat i)) eqn:E; [by apply Uint32ToBytes_ne in E|done].
  - intros y. pose proof (swap_remove_perm L i x Hi) as Hp. pose proof (rn_nodup _ _ _ HL) as Hnd. rewrite Hp in Hnd.
    apply NoDup_cons in Hnd as [Hnx _]. clear HL1. generalize dependent (swap_remove L i). intros L1 Hp Hnx.
    destruct (decide (x = y)) as [<-|Hne].
    + rewrite lookup_delete_eq. split; [done|by intros []].
    + rewrite lookup_delete_ne, <- Hdom, Hp by done. set_solver.
  - intros y. apply (Hsame (toStakingAmountKey y)); done.
Qed.

Lemma abs_subStakingAmount a hyper m x am : staked a hyper m -> address_ok x -> 0 < am ->
  match m !! x with
  | Some v => if decide (am <= v) then exists a', subStakingAmount p (NewContextWrapper (fo_pid p)) hyper x am a = (Ok tt, a') /\
      staked a' hyper (if decide (am = v) then delete x m else <[x := v - am]> m)
    else subStakingAmount p (NewContextWrapper (fo_pid p)) hyper x am a = (Err ErrMinusStaking, a)
  | None => subStakingAmount p (NewContextWrapper (fo_pid p)) hyper x am a = (Err ErrMinusStaking, a)
  end.
Proof.
  intros Hs Hx Ham. pose proof Hs as [(L & HL & Hdom) _ Hpos].
  assert (E0 : subStakingAmount p (NewContextWrapper (fo_pid p)) hyper x am a = _) by (unfold subStakingAmount; erewrite bind_ok by apply abs_GetStakingAmount; reflexivity).
  rewrite (staked_amount a hyper m x Hs Hx) in E0. rewrite E0. clear E0. unfold Less, IsZero, Sub. destruct (m !! x) as [v|] eqn:Ev; cbn [from_option id]; unfold id.
  2:{ by rewrite (proj2 (Z.ltb_lt 0 am)) by done. }
  case_decide as Hle; [rewrite (proj2 (Z.ltb_ge v am)) by lia|by rewrite (proj2 (Z.ltb_lt v am)) by lia].
  destruct (Z.eqb_spec (v - am) 0) as [Hz|Hnz].
  - rewrite decide_True by lia. assert (Hin : x ∈ L) by (apply Hdom; eauto).
    destruct (withdraw_staker a hyper m x L HL Hin Hx Hdom) as (a1 & L1 & ns & E0 & E1 & HL1 & Hdom1 & Hkeep).
    erewrite bind_ok by exact E0. erewrite bind_ok by exact E1. rewrite abs_w_SetAccountData. eexists. split; [reflexivity|].
    by apply (staked_write a a1 hyper m x None L1).
  - rewrite decide_False by lia. rewrite abs_w_SetAccountData. eexists. split; [reflexivity|].
    apply (staked_write a a hyper m x (Some (v - am)) L); [done|done| |done| |done].
    + intros w [= <-]. lia.
    + intros y. rewrite Hdom. destruct (decide (x = y)) as [<-|Hne]; [rewrite lookup_partial_alter_eq, Ev; naive_solver|by rewrite lookup_partial_alter_ne].
Qed.

(** [GetStakingAmountMap] reads the whole map back. *)
Lemma abs_staking_loop a hyper m L : staked a hyper m -> registry_numbers (stakers hyper) a L -> (forall x, x ∈ L <-> is_Some (m !! x)) ->
  forall n i acc, (i + n = length L)%nat ->
  exists m', staking_loop p hyper n (Z.of_nat i) acc a = (Ok m', a) /\ forall y, m' !! y = if decide (y ∈ drop i L) then m !! y else acc !! y.
Proof.
  intros Hs HL Hdom. induction n as [|n IH]; intros i acc Hn.
  - exists acc. split; [done|]. intros y. rewrite drop_ge, decide_False by (lia || apply not_elem_of_nil). done.
  - assert (exists x, L !! i = Some x) as [x Hx] by (apply lookup_lt_is_Some; lia).
    assert (Hok : address_ok x) by (pose proof (rn_ok _ _ _ HL) as Hf; rewrite Forall_lookup in Hf; by eapply Hf).
    assert (Hr : op_AccountData hyper (fo_pid p) (toStakingAmountReverseKey (Z.of_nat i)) a = (Ok x, a)).
    { change (op_AccountData _ _ _ a) with (rg_read (stakers hyper) (rg_reverse (stakers hyper) (Z.of_nat i)) a).
      by rewrite rl_read, (rn_reverse _ _ _ HL i x Hx). }
    cbn [staking_loop]. erewrite bind_ok by exact Hr. rewrite copy_into_id by apply Hok.
    erewrite bind_ok by apply abs_GetStakingAmount. rewrite (staked_amount a hyper m x Hs Hok).
    replace (Z.of_nat i + 1) with (Z.of_nat (Datatypes.S i)) by lia.
    destruct (IH (Datatypes.S i) (<[x := default 0 (m !! x)]> acc) ltac:(lia)) as (m' & E' & Hm'). exists m'. split; [done|].
    intros y. rewrite Hm'. rewrite (drop_S L x i Hx). destruct (decide (y ∈ drop (Datatypes.S i) L)) as [Hy|Hy].
    + by rewrite decide_True by (by right).
    + destruct (decide (x = y)) as [<-|Hne].
      * rewrite decide_True by (by left). rewrite lookup_insert_eq. destruct (Hdom x) as [[v Ev] _]; [by eapply list_elem_of_lookup_2|]. by rewrite Ev.
      * rewrite lookup_insert_ne, decide_False by (done || (rewrite elem_of_cons; naive_solver)). done.
Qed.

Lemma abs_GetStakingAmountMap a hyper m : staked a hyper m -> GetStakingAmountMap p hyper a = (Ok m, a).
Proof.
  intros Hs. pose proof Hs as [(L & HL & Hdom) _ _]. destruct (abs_staking_loop a hyper m L Hs HL Hdom (length L) 0 ∅ eq_refl) as (m' & E & Hm').
  assert (m' = m) as ->.
  { apply map_eq. intros y. rewrite Hm'. rewrite drop_0. case_decide as Hy; [done|]. rewrite lookup_empty. symmetry.
    destruct (m !! y) eqn:Em; [|done]. destruct Hy. apply Hdom. eauto. }
  unfold GetStakingAmountMap.
  assert (Hr : op_AccountData hyper (fo_pid p) tagStakingAmountCount a = (Ok (match L with [] => [] | _ => Uint32ToBytes (Z.of_nat (length L)) end), a)).
  { change (op_AccountData _ _ _ a) with (rg_read (stakers hyper) (rg_count (stakers hyper)) a). by rewrite rl_read, (rn_count _ _ _ HL). }
  erewrite bind_ok by exact Hr. destruct L as [|x L]; [exact E|].
  pose proof (rn_bound _ _ _ HL). destruct (Uint32ToBytes _) eqn:Eu; [by apply Uint32ToBytes_ne in Eu|]. rewrite <- Eu, BytesToUint32_roundtrip by lia.
  erewrite bind_ok by reflexivity. by rewrite Nat2Z.id.
Qed.
End Stakes.

(** ** Runs of staking operations *)

Inductive StakeOp := Stake (x : Address) (am : Amount) | Unstake (x : Address) (am : Amount).

Section Runs.
Context `{B58 : Base58} (p : Formulator) (hyper : Address).

Definition do_stake {S} `{!ContextOps S} (op : StakeOp) : ST S unit :=
  match op with
  | Stake x am => AddStakingAmount p (NewContextWrapper (fo_pid p)) hyper x am
  | Unstake x am => subStakingAmount p (NewContextWrapper (fo_pid p)) hyper x am
  end.

(** The results of the operations, and the stakes that are read at the end. *)
Fixpoint run_stakes {S} `{!ContextOps S} (ops : list StakeOp) : ST S (list (error + unit) * gmap Address Amount) :=
  match ops with
  | [] => let! m := GetStakingAmountMap p hyper in ret ([], m)
  | op :: ops =>
      let! r := attempt (do_stake op) in
      let! rm := run_stakes ops in
      ret (r :: rm.1, rm.2)
  end.

(** The same on a finite map. *)
Definition spec_stake (op : StakeOp) (m : gmap Address Amount) : (error + unit) * gmap Address Amount :=
  match op with
  | Stake x am => (inr tt, <[x := default 0 (m !! x) + am]> m)
  | Unstake x am =>
      match m !! x with
      | Some v => if decide (am <= v) then (inr tt, if decide (am = v) then delete x m else <[x := v - am]> m)
                  else (inl ErrMinusStaking, m)
      | None => (inl ErrMinusStaking, m)
      end
  end.

Fixpoint spec_stakes (ops : list StakeOp) (m : gmap Address Amount) : list (error + unit) * gmap Address Amount :=
  match ops with
  | [] => ([], m)
  | op :: ops =>
      let rm := spec_stake op m in
      let rms := spec_stakes ops rm.2 in
      (rm.1 :: rms.1, rms.2)
  end.

Definition op_ok (op : StakeOp) : Prop :=
  match op with Stake x am | Unstake x am => address_ok x /\ 0 < am end.

(** Only data of [hyper] may differ. *)
Record only_data_of (a a' : AbsCtx) : Prop := {
  od_below : same_below a a';
  od_pd : f_pd (a_top a') = f_pd (a_top a);
  od_acc : f_acc (a_top a') = f_acc (a_top a);
  od_hasacc : f_hasacc (a_top a') = f_hasacc (a_top a);
  od_ad : forall k, (forall name, k <> account_data_key hyper (fo_pid p) name) -> f_ad (a_top a') k = f_ad (a_top a) k
}.

#[local] Instance only_data_of_preorder : PreOrder only_data_of.
Proof.
  split.
  - intros a. split; [apply same_below_refl|done..].
  - intros a b c [H1 H2 H3 H4 H5] [K1 K2 K3 K4 K5]. split; [by eapply same_below_trans|congruence..|].
    intros k Hk. by rewrite K5, H5.
Qed.

Lemma set_data_keeps name v : keeps only_data_of (w_SetAccountData (S := AbsCtx) (NewContextWrapper (fo_pid p)) hyper name v).
Proof.
  intros a. rewrite abs_w_SetAccountData. split; [done..|]. intros k Hk. cbn. unfold upd. by rewrite decide_False.
Qed.

Lemma do_stake_keeps op : keeps only_data_of (do_stake (S := AbsCtx) op).
Proof.
  assert (Hr : forall name, keeps only_data_of (w_AccountData (S := AbsCtx) (NewContextWrapper (fo_pid p)) hyper name)) by (by intros name a).
  assert (Hg : forall x, keeps only_data_of (GetStakingAmount (S := AbsCtx) p hyper x)) by (by intros x a).
  pose proof set_data_keeps as Hw.
  destruct op as [x am|x am]; cbn [do_stake]; [unfold AddStakingAmount; rewrite self_wrapper|unfold subStakingAmount]; keep.
  - apply enroll_keeps; [apply _|done..].
  - apply withdraw_keeps; [apply _|done..].
Qed.

Lemma abs_do_stake a m op : staked p a hyper m -> op_ok op -> Z.of_nat (size m) + 1 < 2 ^ 32 ->
  exists a', attempt (do_stake op) a = (Ok (spec_stake op m).1, a') /\ staked p a' hyper (spec_stake op m).2 /\ only_data_of a a'.
Proof.
  intros Hs Hop Hsz. pose proof (do_stake_keeps op a) as Hk. destruct op as [x am|x am]; destruct Hop as [Hx Ham]; cbn [do_stake spec_stake] in *.
  - destruct (abs_AddStakingAmount p a (NewContextWrapper (fo_pid p)) hyper m x am Hs Hx Ham Hsz) as (a' & E & Hs').
    exists a'. unfold attempt. rewrite E in *. done.
  - pose proof (abs_subStakingAmount p a hyper m x am Hs Hx Ham) as H. unfold attempt. destruct (m !! x) as [v|]; [case_decide|];
      [destruct H as (a' & E & Hs')|rename H into E..]; rewrite E in *; eauto.
Qed.

Lemma size_spec_stake op m : (size (spec_stake op m).2 <= size m + 1)%nat.
Proof.
  assert (Hi : forall x v, (size (<[x := v]> m) <= size m + 1)%nat).
  { intros x v. rewrite map_size_insert. destruct (m !! x); cbn; lia. }
  destruct op as [x am|x am]; cbn [spec_stake snd]; [apply Hi|]. repeat case_match; cbn [snd]; try lia; [|apply Hi].
  rewrite map_size_delete. destruct (m !! x); cbn; lia.
Qed.

Lemma abs_run_stakes ops : Forall op_ok ops -> forall a m, staked p a hyper m -> Z.of_nat (size m + length ops) < 2 ^ 32 ->
  exists a', run_stakes ops a = (Ok (spec_stakes ops m), a') /\ staked p a' hyper (spec_stakes ops m).2 /\ only_data_of a a'.
Proof.
  induction 1 as [|op ops Hop _ IH]; intros a m Hs Hsz; cbn [run_stakes spec_stakes length] in *.
  - exists a. erewrite bind_ok by by apply abs_GetStakingAmountMap. done.
  - destruct (abs_do_stake a m op Hs Hop ltac:(lia)) as (a1 & E1 & Hs1 & H1). pose proof (size_spec_stake op m).
    destruct (IH a1 _ Hs1 ltac:(lia)) as (a2 & E2 & Hs2 & H2). exists a2. erewrite bind_ok by exact E1. erewrite bind_ok by exact E2.
    split; [done|]. split; [done|]. by etrans.
Qed.

(** *** On the context *)

#[local] Hint Resolve sim_w_AccountData sim_w_SetAccountData sim_w_ProcessData sim_w_SetProcessData : simulation.

Lemma sim_enroll_staker ctw x : simulates (enroll (staking_registry ctw hyper) x) (enroll (staking_registry ctw hyper) x).
Proof. unfold enroll. cbn [rg_read rg_write staking_registry rg_number rg_reverse rg_count]. simulate. Qed.

Lemma sim_withdraw_staker ctw x ns : simulates (withdraw (staking_registry ctw hyper) x ns) (withdraw (staking_registry ctw hyper) x ns).
Proof. unfold withdraw. cbn [rg_read rg_write staking_registry rg_number rg_reverse rg_count]. simulate. Qed.

Lemma sim_GetStakingAmount x : simulates (GetStakingAmount p hyper x) (GetStakingAmount p hyper x).
Proof. unfold GetStakingAmount. simulate. Qed.

#[local] Hint Resolve sim_enroll_staker sim_withdraw_staker sim_GetStakingAmount : simulation.

Lemma sim_do_stake op : simulates (do_stake op) (do_stake op).
Proof. destruct op; cbn [do_stake]; unfold AddStakingAmount, subStakingAmount; simulate. Qed.

Lemma sim_GetStakingAmountMap : simulates (GetStakingAmountMap p hyper) (GetStakingAmountMap p hyper).
Proof.
  assert (Hl : forall n i m, simulates (staking_loop p hyper n i m) (staking_loop p hyper n i m)).
  { induction n; intros i m; cbn [staking_loop]; simulate. }
  unfold GetStakingAmountMap. simulate.
Qed.

#[local] Hint Resolve sim_do_stake sim_GetStakingAmountMap : simulation.

Lemma sim_run_stakes ops : simulates (run_stakes ops) (run_stakes ops).
Proof. induction ops; cbn [run_stakes]; simulate. Qed.

(** The stakes at [hyper], as the context has them. *)
Definition stakes (ctx : Context_) (m : gmap Address Amount) : Prop := ctx_ok ctx /\ staked p (abs ctx) hyper m.

Lemma run_stakes_refines (ctx : Context_) (m : gmap Address Amount) (ops : list StakeOp) :
  stakes ctx m -> Forall op_ok ops -> Z.of_nat (size m + length ops) < 2 ^ 32 ->
  exists ctx', run_stakes ops ctx = (Ok (spec_stakes ops m), ctx') /\ stakes ctx' (spec_stakes ops m).2 /\
    (forall addr pid name, length addr = length hyper -> addr <> hyper -> seen_ad ctx' addr pid name = seen_ad ctx addr pid name) /\
    (forall pid name, seen_pd ctx' pid name = seen_pd ctx pid name).
Proof.
  intros [Hc Hs] Hops Hsz. destruct (abs_run_stakes ops Hops (abs ctx) m Hs Hsz) as (a' & E & Hs' & Hod).
  destruct (sim_run _ _ ctx _ _ (sim_run_stakes ops) Hc E) as (ctx' & E' & Hc' & <-); [done|].
  exists ctx'. split; [done|]. split; [done|]. split.
  - intros addr pid name Hl Hne. apply (od_ad _ _ Hod). intros name' Ek. apply Hne. unfold account_data_key in Ek. by apply app_inj_1 in Ek as [? _].
  - intros pid name. unfold seen_pd. by rewrite (od_pd _ _ Hod).
Qed.

(** C18. The stakes of a hyper formulator refine a finite map from stakers to
    positive amounts: whatever sequence of [AddStakingAmount] and
    [subStakingAmount] runs, each call succeeds or fails as the map says (a
    staker cannot take out more than is staked), [GetStakingAmountMap] then
    returns exactly the map (the swap of the last staker into a freed number
    loses and repeats nobody), and no data of another account or of the process
    changes. *)
Theorem stakes_refine_map (ctx : Context_) (m : gmap Address Amount) (ops : list StakeOp) :
  stakes ctx m -> Forall op_ok ops -> Z.of_nat (size m + length ops) < 2 ^ 32 ->
  exists ctx', run_stakes ops ctx = (Ok (spec_stakes ops m), ctx') /\ stakes ctx' (spec_stakes ops m).2 /\
    (forall addr pid name, length addr = length hyper -> addr <> hyper -> seen_ad ctx' addr pid name = seen_ad ctx addr pid name) /\
    (forall pid name, seen_pd ctx' pid name = seen_pd ctx pid name).
Proof. apply run_stakes_refines. Qed.

(** A formulator nobody staked at. *)
Lemma no_stakes ctx : ctx_ok ctx -> (forall name, seen_ad ctx hyper (fo_pid p) (1 :: name) = []) -> stakes ctx ∅.
Proof.
  intros Hc Hn. split; [done|]. split.
  - exists []. split; [|intros x; rewrite lookup_empty; split; [by intros ?%elem_of_nil|by intros []]].
    split; try done; [apply (Hn [3])| |apply NoDup_nil_2]. intros a _. apply (Hn (1 :: copy_into AddressSize a)).
  - intros x _. rewrite lookup_empty. apply (Hn (0 :: copy_into AddressSize x)).
  - by intros x v; rewrite lookup_empty.
Qed.
End Runs.

Lemma stakes_refine_map_witness :
  exists ctx', run_stakes (NewFormulator 3 ex_vault (NewAdmin 1)) ex_b [Stake ex_a 5; Stake ex_b 7; Unstake ex_a 6; Unstake ex_a 5] NewEmptyContext
    = (Ok ([inr tt; inr tt; inl ErrMinusStaking; inr tt], {[ex_b := 7]}), ctx').
Proof.
  destruct (stakes_refine_map (NewFormulator 3 ex_vault (NewAdmin 1)) ex_b NewEmptyContext ∅ [Stake ex_a 5; Stake ex_b 7; Unstake ex_a 6; Unstake ex_a 5]) as (ctx' & E & _).
  - apply no_stakes; [apply NewEmptyContext_ok|done].
  - repeat constructor; by vm_compute.
  - by vm_compute.
  - exists ctx'. rewrite E. by vm_compute.
Defined.
