(* ===== verification/FormulatorPay.v ===== *)
(** * The payments of the formulator process

    What [AfterExecuteTransactions] of [process/formulator/formulator.go] does
    with money: the rewards of a period stay within the reward of its blocks and
    the collected fees, and the stakes of a revoked formulator are paid back
    exactly when they add up to the amount its account records, which automatic
    staking does not keep up to date. *)

From stdpp Require Import base gmap list sorting strings.
From Stdlib Require Import ZArith Lia.
From S2P Require Import Prelude Amount Common Types Context ContextSpec ContextFacts Vault VaultSpec VaultLocked Registry Formulator FormulatorTx FormulatorReward FormulatorSpec.

(** ** Shares *)

Definition total {A} (l : list (A * Amount)) : Amount := fold_right Z.add 0 (snd <$> l).

Lemma total_cons {A} (x : A) v l : total ((x, v) :: l) = v + total l.
Proof. done. Qed.

Lemma total_perm {A} (l k : list (A * Amount)) : l ≡ₚ k -> total l = total k.
Proof. intros H. unfold total. induction H; csimpl; lia. Qed.

(** The value of [x.Mul(Ratio).Div(COIN)]. *)
Definition part (R x : Amount) : Amount := x * R / COIN.

Lemma COIN_pos : 0 < COIN.
Proof. done. Qed.

Lemma share_value x R : share x R = Ok (part R x).
Proof. done. Qed.

Lemma ratio_value T s : 0 < s -> ratio T s = Ok (T * COIN / s).
Proof.
  intros Hs. unfold ratio, Div, Mul, big_Div. destruct (Z.eqb_spec s 0); [lia|]. by rewrite (proj2 (Z.ltb_lt 0 s)).
Qed.

Lemma part_0 R : part R 0 = 0.
Proof. done. Qed.

Definition parts {A} (R : Amount) (l : list (A * Amount)) : Amount := total (prod_map id (part R) <$> l).

Lemma parts_cons {A} R (x : A) v l : parts R ((x, v) :: l) = part R v + parts R l.
Proof. done. Qed.

(** The parts of a ratio, multiplied back, are the whole up to rounding. *)
Lemma parts_bounds {A} R (l : list (A * Amount)) :
  parts R l * COIN <= total l * R <= parts R l * COIN + Z.of_nat (length l) * (COIN - 1).
Proof.
  induction l as [|[x v] l IH]; [done|]. rewrite parts_cons, total_cons. cbn [length].
  pose proof COIN_pos. assert (part R v * COIN <= v * R <= part R v * COIN + (COIN - 1)).
  { unfold part. pose proof (Z.mul_div_le (v * R) COIN ltac:(lia)). pose proof (Z.mod_pos_bound (v * R) COIN ltac:(lia)).
    pose proof (Z.div_mod (v * R) COIN ltac:(lia)). lia. }
  lia.
Qed.

(** All shares of [T] by powers that add up to [s] stay within [T]; rounding
    keeps back less than a unit per share and the rounding of the ratio. *)
Lemma shares_within {A B} T s (l : list (A * Amount)) (k : list (B * Amount)) : 0 < s -> total l + total k = s ->
  let R := T * COIN / s in
  parts R l + parts R k <= T <= parts R l + parts R k + s / COIN + Z.of_nat (length l + length k).
Proof.
  intros Hs Hsum R. pose proof (parts_bounds R l) as Hl. pose proof (parts_bounds R k) as Hk. pose proof COIN_pos.
  assert (Hr : R * s <= T * COIN < R * s + s).
  { subst R. pose proof (Z.mul_div_le (T * COIN) s Hs). pose proof (Z.mod_pos_bound (T * COIN) s Hs). pose proof (Z.div_mod (T * COIN) s ltac:(lia)). lia. }
  pose proof (Z.mod_pos_bound s COIN ltac:(lia)). pose proof (Z.div_mod s COIN ltac:(lia)).
  set (q := s / COIN) in *. split; [nia|].
  assert (T * COIN < (parts R l + parts R k + q + Z.of_nat (length l + length k) + 1) * COIN); [|nia].
  rewrite Nat2Z.inj_add. replace s with (total l + total k) in Hr by done. lia.
Qed.

(** What the entries of a list give to [x]. *)
Fixpoint credited (R : Amount) (l : list (Address * Amount)) (x : Address) : Amount :=
  match l with
  | [] => 0
  | (y, v) :: l => (if decide (y = x) then part R v else 0) + credited R l x
  end.

Lemma credited_map (R : Amount) (m : gmap Address Amount) (l : list (Address * Amount)) (x : Address) : l ≡ₚ map_to_list m -> credited R l x = part R (default 0 (m !! x)).
Proof.
  intros Hp. assert (Hnd : NoDup l.*1) by (rewrite Hp; apply NoDup_fst_map_to_list).
  assert (Hm : m = list_to_map l) by (rewrite <- (list_to_map_to_list m); symmetry; by apply list_to_map_proper).
  rewrite Hm. clear m Hp Hm. induction l as [|[y v] l IH]; [done|]. apply NoDup_cons in Hnd as [Hy Hnd]. cbn [credited list_to_map foldr].
  rewrite IH by done. destruct (decide (y = x)) as [->|Hne].
  - rewrite lookup_insert_eq, (not_elem_of_list_to_map_1 l x Hy). cbn. rewrite part_0. lia.
  - by rewrite lookup_insert_ne.
Qed.

Lemma parts_perm {A} R (l k : list (A * Amount)) : l ≡ₚ k -> parts R l = parts R k.
Proof. intros H. unfold parts. apply total_perm. by rewrite H. Qed.

(** ** The rewards of a period *)

Section Rewards.
Context `{B58 : Base58} `{FC : FormulatorCoders} `{MR : MapRange} (p : Formulator).
Implicit Types (a : AbsCtx) (ctw : ContextWrapper).
Abbreviation v := (fo_vault p).

(** What [HasAccount] tells the loops. *)
Definition lives a (x : Address) : option bool :=
  match f_hasacc (a_top a) x with
  | Ok b => Some b
  | Err e => if bool_decide (e = ErrDeletedAccount) then Some false else None
  | Panic _ => None
  end.

Lemma abs_is_alive a x b : lives a x = Some b -> is_alive x a = (Ok b, a).
Proof.
  unfold lives, is_alive, bind, attempt. change (op_HasAccount x a) with (f_hasacc (a_top a) x, a).
  destruct (f_hasacc (a_top a) x) as [b'|e|w]; [by intros [= ->]| |done]. by case_bool_decide; [intros [= <-]|].
Qed.

Definition nonneg_balances a : Prop := forall x, length x = AddressSize -> 0 <= bal v (a_top a) x.

Lemma abs_pay_all ctw R l : Forall (fun e => 0 <= part R e.2 /\ length e.1 = AddressSize) l -> forall a ev, nonneg_balances a ->
  exists ev' f', fold_each l ev (fun ev '(RewardAddress, RewardPower) =>
      let! RewardAmount := lift (share RewardPower R) in
      if IsZero RewardAmount then ret ev
      else AddBalance v ctw RewardAddress RewardAmount ;;; ret (AddReward ev RewardAddress RewardAmount)) a = (Ok ev', set_top a f') /\
    f_pd f' = f_pd (a_top a) /\ f_hasacc f' = f_hasacc (a_top a) /\ forall x, bal v f' x = bal v (a_top a) x + credited R l x.
Proof.
  induction 1 as [|[y q] l [Hq Hy] _ IH]; intros a ev Hb; cbn [fold_each credited].
  - exists ev, (a_top a). split; [by destruct a|]. split_and!; [done..|]. intros x. lia.
  - cbn [fst snd] in Hq, Hy. rewrite share_value. unfold IsZero. destruct (Z.eqb_spec (part R q) 0) as [Hz|Hz].
    + erewrite bind_ok by (erewrite bind_ok by reflexivity; rewrite (proj2 (Z.eqb_eq _ _) Hz); reflexivity).
      destruct (IH a ev Hb) as (ev' & f' & E & H1 & H2 & H3). exists ev', f'. split_and!; [done..|]. intros x. rewrite H3, Hz. destr_match; lia.
    + set (a1 := set_top a (set_bal v (a_top a) y (bal v (a_top a) y + part R q))).
      assert (Hb1 : forall x, bal v (a_top a1) x = bal v (a_top a) x + if decide (y = x) then part R q else 0).
      { intros x. unfold a1. cbn [a_top set_top]. rewrite bal_set_bal. pose proof (Hb y Hy). destruct (decide (x = y)) as [->|].
        - rewrite decide_True by done. lia.
        - rewrite decide_False by congruence. lia. }
      destruct (IH a1 (AddReward ev y (part R q))) as (ev' & f' & E & H1 & H2 & H3).
      { intros x Hx. rewrite Hb1. pose proof (Hb x Hx). destr_match; lia. }
      exists ev', f'. split; [|split_and!; [done..|intros x; rewrite H3, Hb1; lia]].
      erewrite bind_ok; [exact E|]. erewrite bind_ok by reflexivity. rewrite (proj2 (Z.eqb_neq _ _) Hz).
      erewrite bind_ok; [reflexivity|]. rewrite abs_AddBalance. by rewrite (proj2 (Z.ltb_ge _ _)) by done.
Qed.

Lemma put_sum_at (m : gmap Address Amount) k am x :
  default 0 (put_sum m k am !! x) = default 0 (m !! x) + if decide (k = x) then am else 0.
Proof.
  unfold put_sum. destruct (decide (k = x)) as [->|Hne]; [rewrite lookup_insert_eq|rewrite lookup_insert_ne by done]; [|lia].
  destruct (m !! x); cbn; unfold Add; lia.
Qed.

Lemma abs_stack_all R l a : (forall e, e ∈ l -> is_Some (lives a e.1)) -> forall stack ev,
  exists stack' ev', fold_each l (stack, ev) (fun '(stack, ev) '(GenAddress, StakingRewardPower) =>
      let! alive := is_alive GenAddress in
      if negb alive then ret (stack, ev)
      else
        let! RewardAmount := lift (share StakingRewardPower R) in
        ret (put_sum stack GenAddress RewardAmount, AddStacked ev GenAddress RewardAmount)) a = (Ok (stack', ev'), a) /\
    forall x, default 0 (stack' !! x) = default 0 (stack !! x) + if bool_decide (lives a x = Some true) then credited R l x else 0.
Proof.
  induction l as [|[y q] l IH]; intros Hl stack ev; cbn [fold_each credited].
  - exists stack, ev. split; [done|]. intros x. destr_match; lia.
  - destruct (Hl (y, q) ltac:(by left)) as [b Hb]. cbn [fst] in Hb.
    specialize (IH ltac:(intros e He; apply Hl; by right)). destruct b.
    + destruct (IH (put_sum stack y (part R q)) (AddStacked ev y (part R q))) as (stack' & ev' & E & Hst). exists stack', ev'. split.
      * erewrite bind_ok; [exact E|]. erewrite bind_ok by by apply abs_is_alive. cbn [negb]. by rewrite share_value.
      * intros x. rewrite Hst, put_sum_at. destruct (decide (y = x)) as [->|]; [rewrite bool_decide_true by done; lia|]. destr_match; lia.
    + destruct (IH stack ev) as (stack' & ev' & E & Hst). exists stack', ev'. split.
      * erewrite bind_ok; [exact E|]. erewrite bind_ok by by apply abs_is_alive. done.
      * intros x. rewrite Hst. case_bool_decide as Hx; [|lia]. rewrite decide_False; [lia|]. intros ->. congruence.
Qed.

(** The powers of the generators and of the stakes add up to the sum. *)
Record powers_ok (pw : Powers) : Prop := {
  po_sum : pw_Sum pw = total (map_to_list (pw_Reward pw)) + total (map_to_list (pw_Staking pw));
  po_reward : map_Forall (fun x q => 0 <= q /\ length x = AddressSize) (pw_Reward pw);
  po_staking : map_Forall (fun _ q => 0 <= q) (pw_Staking pw)
}.

(** The loop over the generators builds such powers. *)
Lemma total_insert (m : gmap Address Amount) x q : m !! x = None -> total (map_to_list (<[x := q]> m)) = q + total (map_to_list m).
Proof. intros Hx. rewrite (total_perm _ _ (map_to_list_insert m x q Hx)). done. Qed.

Definition adds_up (pw : Powers) : Prop := pw_Sum pw = total (map_to_list (pw_Reward pw)) + total (map_to_list (pw_Staking pw)).

Lemma add_power_adds_up pw x q : adds_up pw -> pw_Reward pw !! x = None -> adds_up (add_power pw x q).
Proof. unfold adds_up, add_power. cbn. intros Hs Hx. rewrite total_insert by done. unfold Add. lia. Qed.

Lemma generator_power_step {S} `{!ContextOps S} ctw policy pw x n (s s' : S) pw' : generator_power p ctw policy pw (x, n) s = (Ok pw', s') ->
  adds_up pw -> pw_Reward pw !! x = None -> pw_Staking pw !! x = None ->
  adds_up pw' /\ forall y, y <> x -> pw_Reward pw' !! y = pw_Reward pw !! y /\ pw_Staking pw' !! y = pw_Staking pw !! y.
Proof.
  intros Hrun Hs Hr Hk. assert (Hne : forall q y, y <> x -> pw_Reward (add_power pw x q) !! y = pw_Reward pw !! y)
    by (intros q y Hy; cbn; by rewrite lookup_insert_ne).
  apply bind_ok_inv in Hrun as (alive & s1 & _ & Hrun). destruct alive; [|by injection Hrun as <- <-].
  apply bind_ok_inv in Hrun as (acc & s2 & _ & Hrun). apply bind_ok_inv in Hrun as (fr & s3 & _ & Hrun).
  destruct (fa_IsRevoked fr); [by injection Hrun as <- <-|].
  destruct (fa_Type fr); apply bind_ok_inv in Hrun as (q & s4 & _ & Hrun); [injection Hrun as <- <-; split; [by apply add_power_adds_up|auto]..|].
  apply bind_ok_inv in Hrun as (sp & s5 & _ & Hrun). injection Hrun as <- <-. pose proof (add_power_adds_up pw x q Hs Hr) as Ha.
  unfold adds_up in *. cbn in Ha |- *. rewrite !total_insert in * by done. split; [unfold Add in *; lia|].
  intros y Hy. by rewrite !lookup_insert_ne.
Qed.

Lemma generator_powers_add_up {S} `{!ContextOps S} ctw policy l : NoDup l.*1 -> forall pw (s s' : S) pw',
  fold_each l pw (generator_power p ctw policy) s = (Ok pw', s') -> adds_up pw ->
  (forall x, x ∈ l.*1 -> pw_Reward pw !! x = None /\ pw_Staking pw !! x = None) -> adds_up pw'.
Proof.
  induction l as [|[x n] l IH]; intros Hnd pw s s' pw' Hrun Ha Hfree; cbn [fold_each] in Hrun; [by injection Hrun as <- <-|].
  apply NoDup_cons in Hnd as [Hx Hnd]. apply bind_ok_inv in Hrun as (pw1 & s1 & E1 & Hrun).
  destruct (Hfree x ltac:(by left)) as [F1 F2]. destruct (generator_power_step ctw policy pw x n s s1 pw1 E1 Ha F1 F2) as [Ha1 Hsame].
  apply (IH Hnd pw1 s1 s' pw' Hrun Ha1). intros y Hy. destruct (Hsame y) as [-> ->]; [by intros ->|]. apply Hfree. by right.
Qed.

(** *** On the context *)

Lemma sim_fold_each {A B} (l : list A) (body : B -> A -> ctxM B) bodya : (forall b x, simulates (body b x) (bodya b x)) ->
  forall b, simulates (fold_each l b body) (fold_each l b bodya).
Proof. intros H. induction l; intros b; cbn [fold_each]; [apply sim_ret | by apply sim_bind]. Qed.

Lemma sim_is_alive x : simulates (is_alive x) (is_alive x).
Proof. unfold is_alive. simulate. Qed.

#[local] Hint Resolve sim_is_alive sim_CollectedFee sim_SubCollectedFee sim_AddBalance : simulation.

Lemma sim_share_rewards ctw policy last pw ev : simulates (share_rewards p ctw policy last pw ev) (share_rewards p ctw policy last pw ev).
Proof.
  unfold share_rewards. simulate.
  - apply sim_fold_each. intros ev' [y q]. simulate.
  - apply sim_fold_each. intros [st ev'] [y q]. simulate.
Qed.

(** The reward of the period and its ratio to the powers. *)
Definition period_reward (ctx : Context_) (policy : RewardPolicy) (lastPaidHeight : Z) : Amount :=
  RewardPerBlock policy * u32 (genTargetHeight ctx - lastPaidHeight) + fees_of v ctx.

(** C19. The rewards of a period are shared without creating money: whatever the
    order in which Go visits the maps, the payment empties the collected fees,
    every generator gets the part of its power, every staked formulator that
    exists has the part of its stakes stacked, and all parts together stay within
    the reward of the blocks and the fees, keeping back less than one unit per
    share and the rounding of the ratio. *)
Theorem rewards_within_budget (ctx : Context_) (ctw : ContextWrapper) (policy : RewardPolicy) (last : Z) (pw : Powers) (ev : RewardLog) :
  ctx_ok ctx -> powers_ok pw -> 0 < pw_Sum pw -> 0 <= RewardPerBlock policy ->
  (forall x, length x = AddressSize -> 0 <= balance_of v ctx x) -> 0 <= fees_of v ctx -> (forall x, is_Some (pw_Staking pw !! x) -> is_Some (lives (abs ctx) x)) ->
  let T := period_reward ctx policy last in let R := T * COIN / pw_Sum pw in
  exists stack ev' ctx', share_rewards p ctw policy last pw ev ctx = (Ok (stack, ev'), ctx') /\ ctx_ok ctx' /\
    fees_of v ctx' = 0 /\
    (forall x, balance_of v ctx' x = balance_of v ctx x + part R (default 0 (pw_Reward pw !! x))) /\
    (forall x, default 0 (stack !! x) = default 0 (pw_StackReward pw !! x) +
       if bool_decide (lives (abs ctx) x = Some true) then part R (default 0 (pw_Staking pw !! x)) else 0) /\
    let paid := parts R (map_to_list (pw_Reward pw)) + parts R (map_to_list (pw_Staking pw)) in
    paid <= T <= paid + pw_Sum pw / COIN + Z.of_nat (size (pw_Reward pw) + size (pw_Staking pw)).
Proof.
  intros Hc [Hsum Hrw Hst] Hpos Hrpb Hbal Hfee Hlive T R.
  assert (HT : 0 <= T) by (unfold T, period_reward; pose proof (Z.mod_pos_bound (genTargetHeight ctx - last) (2 ^ 32) ltac:(lia)); unfold u32; nia).
  assert (HR : 0 <= R) by (apply Z.div_pos; [pose proof COIN_pos; nia|done]).
  set (a1 := set_top (abs ctx) (set_fees v (a_top (abs ctx)) (fees v (a_top (abs ctx)) - fees v (a_top (abs ctx))))).
  destruct (abs_pay_all ctw R (range (pw_Reward pw))) with (a := a1) (ev := ev) as (ev1 & f1 & E1 & Hpd & Hhas & Hb1).
  { apply Forall_forall. intros [y q] Hin. rewrite range_perm in Hin. apply elem_of_map_to_list in Hin. apply Hrw in Hin as [Hin Hl]. cbn [fst snd].
    split; [apply Z.div_pos; [nia|apply COIN_pos]|done]. }
  { intros x. apply (Hbal x). }
  destruct (abs_stack_all R (range (pw_Staking pw)) (set_top a1 f1)) with (stack := pw_StackReward pw) (ev := ev1) as (stack & ev2 & E2 & Hstack).
  { intros [y q] Hin. rewrite range_perm in Hin. apply elem_of_map_to_list in Hin. unfold lives. cbn [a_top set_top fst]. rewrite Hhas. apply Hlive. eauto. }
  assert (E : share_rewards p ctw policy last pw ev (abs ctx) = (Ok (stack, ev2), set_top a1 f1)).
  { unfold share_rewards, IsZero. destruct (Z.eqb_spec (pw_Sum pw) 0) as [Hz|_]; [lia|]. erewrite bind_ok by reflexivity.
    erewrite bind_ok by apply abs_CollectedFee. erewrite bind_ok; cycle 1. { rewrite abs_SubCollectedFee, Z.ltb_irrefl. reflexivity. }
    change (Add (MulC _ _) _) with T. rewrite (ratio_value T _ Hpos). fold R. erewrite bind_ok by reflexivity.
    erewrite bind_ok by exact E1. exact E2. }
  destruct (sim_run _ _ ctx _ _ (sim_share_rewards ctw policy last pw ev) Hc E) as (ctx' & E' & Hc' & Ha); [done|].
  exists stack, ev2, ctx'. split; [done|]. split; [done|]. split_and!.
  - change (fees_of v ctx') with (fees v (a_top (abs ctx'))). rewrite Ha. cbn [a_top set_top]. unfold fees. rewrite Hpd.
    change (fees v (a_top a1) = 0). unfold a1. cbn [a_top set_top]. rewrite fees_set_fees. lia.
  - intros x. change (balance_of v ctx' x) with (bal v (a_top (abs ctx')) x). rewrite Ha. cbn [a_top set_top]. rewrite Hb1.
    by rewrite (credited_map R (pw_Reward pw)) by apply range_perm.
  - intros x. rewrite Hstack, (credited_map R (pw_Staking pw)) by apply range_perm. unfold lives. cbn [a_top set_top]. by rewrite Hhas.
  - rewrite <- !length_map_to_list. by apply shares_within.
Qed.
End Rewards.

(** ** Revocations *)

Section Due.
Context `{B58 : Base58} `{FC : FormulatorCoders} `{MR : MapRange} (p : Formulator).
Implicit Types (a : AbsCtx) (ctw : ContextWrapper) (F : Address).
Abbreviation v := (fo_vault p).
Context (Hfo : byte_ok (fo_pid p)) (Hva : byte_ok (vault_pid v)) (Hpids : fo_pid p <> vault_pid v).

(** Balances are not kept with the data of the process. *)
Lemma balance_key_apart F name x : length x = length F -> account_data_key F (fo_pid p) name <> balance_key v x.
Proof.
  intros Hl E. unfold balance_key, account_data_key in E. apply app_inj_1 in E as [_ E]; [|done]. by apply rune_string_inj in E as [? _].
Qed.

Lemma staked_ext a a' F m : staked p a F m -> (forall name, f_ad (a_top a') (account_data_key F (fo_pid p) name) = f_ad (a_top a) (account_data_key F (fo_pid p) name)) ->
  staked p a' F m.
Proof.
  intros [(L & HL & Hdom) Hamt Hpos] Hsame. split; [|intros x Hx; unfold stake_key; rewrite Hsame; by apply Hamt|done].
  exists L. split; [|done]. destruct HL as [Hc Hn Hr Hf Hnd Hb]. split; [| | |done..].
  - etrans; [apply Hsame|exact Hc].
  - intros x Hx. etrans; [apply Hsame|by apply Hn].
  - intros i x Hi. etrans; [apply Hsame|by apply Hr].
Qed.

Lemma staked_set_bal a F m x b : length x = length F -> staked p a F m -> staked p (set_top a (set_bal v (a_top a) x b)) F m.
Proof.
  intros Hl Hs. eapply staked_ext; [exact Hs|]. intros name. cbn. unfold upd. rewrite decide_False; [done|]. by apply balance_key_apart.
Qed.

Lemma abs_mutate a F g fr : f_acc (a_top a) F = Ok (AFormulator fr) ->
  mutate F g a = (Ok tt, set_top a (frame_set_acc (a_top a) (upd (f_acc (a_top a)) F (Ok (AFormulator (g fr)))))).
Proof. intros Hf. unfold mutate, bind, attempt. cbn. unfold bind, abs_Account. by rewrite Hf. Qed.

(** The loop that pays the stakes back compares them with the recorded amount. *)
Definition entry_ok (e : Address * Amount) : Prop := 0 < e.2 /\ length e.1 = AddressSize.

Lemma total_nonneg l : Forall entry_ok l -> 0 <= total l.
Proof. induction 1 as [|[y q] l [Hq _] _ IH]; [done|]. rewrite total_cons. cbn in Hq. lia. Qed.

Lemma part_COIN q : part COIN q = q.
Proof. unfold part. apply Z.div_mul. done. Qed.

Lemma abs_return_stakes ctw F l : Forall entry_ok l -> forall a rest fr, 0 <= rest ->
  f_acc (a_top a) F = Ok (AFormulator fr) -> nonneg_balances p a ->
  if decide (total l <= rest) then exists f' fr', fold_each l rest (return_stake p ctw F) a = (Ok (rest - total l), set_top a f') /\
    f_acc f' F = Ok (AFormulator fr') /\ forall x, bal v f' x = bal v (a_top a) x + credited COIN l x
  else exists a', fold_each l rest (return_stake p ctw F) a = (Err ErrCriticalStakingAmount, a').
Proof.
  induction 1 as [|[y q] l [Hq Hly] Hl IH]; intros a rest fr Hrest Hf Hb; cbn [fold_each credited].
  - change (total []) with 0. rewrite decide_True by done. exists (a_top a), fr. split; [destruct a; cbn; by rewrite Z.sub_0_r|].
    split; [done|]. intros x. lia.
  - cbn [fst snd] in Hq, Hly. rewrite total_cons, part_COIN. pose proof (total_nonneg l Hl). destruct (Z.ltb_spec rest q) as [Hlt|Hge].
    { rewrite decide_False by lia. eexists. erewrite bind_err; [reflexivity|]. unfold return_stake, IsZero, Less.
      by rewrite (proj2 (Z.eqb_neq q 0)), (proj2 (Z.ltb_lt rest q)) by lia. }
    set (a1 := set_top a (frame_set_acc (a_top a) (upd (f_acc (a_top a)) F (Ok (AFormulator (set_StakingAmount (rest - q) fr)))))).
    set (a2 := set_top a1 (set_bal v (a_top a1) y (bal v (a_top a1) y + q))).
    assert (E : return_stake p ctw F rest (y, q) a = (Ok (rest - q), a2)).
    { unfold return_stake, IsZero, Less, Sub. rewrite (proj2 (Z.eqb_neq q 0)), (proj2 (Z.ltb_ge rest q)) by lia.
      erewrite bind_ok by by apply abs_mutate. fold a1. erewrite bind_ok; [reflexivity|].
      rewrite abs_AddBalance, (proj2 (Z.ltb_ge q 0)) by lia. done. }
    assert (Hb2 : forall x, bal v (a_top a2) x = bal v (a_top a) x + if decide (y = x) then q else 0).
    { intros x. unfold a2. cbn [a_top set_top]. rewrite bal_set_bal. pose proof (Hb y Hly) as Hy. change (bal v (a_top a1)) with (bal v (a_top a)).
      destruct (decide (x = y)) as [->|]; [rewrite decide_True by done; lia|rewrite decide_False by congruence; lia]. }
    erewrite bind_ok by exact E.
    specialize (IH a2 (rest - q) (set_StakingAmount (rest - q) fr)).
    destruct (decide (q + total l <= rest)) as [Hle|Hgt]; [rewrite decide_True in IH by lia|rewrite decide_False in IH by lia].
    + destruct IH as (f' & fr' & E' & Hf' & Hb'); [lia|cbn; unfold upd; by rewrite decide_True|intros x Hx; rewrite Hb2; pose proof (Hb x Hx); destr_match; lia|].
      exists f', fr'. rewrite E'. split; [do 2 f_equal; lia|]. split; [done|]. intros x. rewrite Hb', Hb2. lia.
    + apply IH; [lia|cbn; unfold upd; by rewrite decide_True|intros x Hx; rewrite Hb2; pose proof (Hb x Hx); destr_match; lia].
Qed.

(** The heir gets the amount of the formulator and its balance. *)
Lemma abs_inherit ctw a F Heritor am b m : length F = AddressSize -> length Heritor = AddressSize -> 0 <= am -> nonneg_balances p a -> staked p a F m ->
  exists f', (if b : bool then AddBalance v ctw Heritor am ;;; let! b := Balance v F in AddBalance v ctw Heritor b ;;; RemoveBalance v ctw F else ret tt) a
    = (Ok tt, set_top a f') /\ f_acc f' = f_acc (a_top a) /\ staked p (set_top a f') F m /\ nonneg_balances p (set_top a f') /\
    forall x, x <> F -> bal v f' x = bal v (a_top a) x + if b && bool_decide (x = Heritor) then am + bal v (a_top a) F else 0.
Proof.
  intros HlF HlH Ham Hb Hs. assert (Hl : length Heritor = length F) by congruence. destruct b; cbn [andb].
  2:{ exists (a_top a). destruct a. cbn. split_and!; [done..|]. intros x _. lia. }
  set (a1 := set_top a (set_bal v (a_top a) Heritor (bal v (a_top a) Heritor + am))).
  assert (Hb1 : forall x, bal v (a_top a1) x = bal v (a_top a) x + if decide (x = Heritor) then am else 0).
  { intros x. unfold a1. cbn [a_top set_top]. rewrite bal_set_bal. pose proof (Hb Heritor HlH). case_decide; subst; lia. }
  set (a2 := set_top a1 (set_bal v (a_top a1) Heritor (bal v (a_top a1) Heritor + bal v (a_top a1) F))).
  assert (Hn1 : nonneg_balances p a1) by (intros x Hx; rewrite Hb1; pose proof (Hb x Hx); case_decide; lia).
  assert (Hb2 : forall x, bal v (a_top a2) x = bal v (a_top a1) x + if decide (x = Heritor) then bal v (a_top a1) F else 0).
  { intros x. unfold a2. cbn [a_top set_top]. rewrite bal_set_bal. pose proof (Hn1 Heritor HlH). pose proof (Hn1 F HlF). case_decide; subst; lia. }
  assert (Hb3 : forall x, bal v (set_bal v (a_top a2) F 0) x = if decide (x = F) then 0 else bal v (a_top a2) x) by (intros x; by rewrite bal_set_bal).
  exists (set_bal v (a_top a2) F 0). split; [|split; [done|split; [|split]]].
  - erewrite bind_ok; cycle 1. { rewrite abs_AddBalance, (proj2 (Z.ltb_ge am 0)) by done. reflexivity. }
    erewrite bind_ok by apply abs_Balance. erewrite bind_ok; cycle 1.
    { rewrite abs_AddBalance, (proj2 (Z.ltb_ge _ 0)) by by apply Hn1. reflexivity. }
    unfold RemoveBalance. rewrite abs_w_SetAccountData, Switch_pid. done.
  - exact (staked_set_bal a2 F m F 0 eq_refl (staked_set_bal a1 F m Heritor _ Hl (staked_set_bal a F m Heritor _ Hl Hs))).
  - intros x Hx. cbn [a_top set_top]. rewrite Hb3. case_decide; [done|]. rewrite Hb2. pose proof (Hn1 x Hx). pose proof (Hn1 F HlF). case_decide; lia.
  - intros x Hx. rewrite Hb3, decide_False, Hb2, !Hb1 by done. case_bool_decide as Hh; [|rewrite !decide_False by done; lia].
    rewrite !decide_True by done. rewrite decide_False by congruence. lia.
Qed.

Lemma abs_GetStakes a F m : staked p a F m -> GetStakingAmountMap p F a = (Ok m, a).
Proof. apply abs_GetStakingAmountMap. Qed.

Lemma abs_dissolve ctw a F Heritor fr sa b m : f_acc (a_top a) F = Ok (AFormulator fr) -> fa_Address fr = F -> fa_Type fr = HyperFormulatorType ->
  fa_StakingAmount fr = Some sa -> 0 <= sa -> 0 <= fa_Amount fr -> length F = AddressSize -> length Heritor = AddressSize -> lives a Heritor = Some b ->
  nonneg_balances p a -> staked p a F m -> a_below a <> [] ->
  exists a', dissolve p ctw F Heritor a = (if decide (total (map_to_list m) = sa) then Ok tt else Err ErrCriticalStakingAmount, a') /\
    (total (map_to_list m) = sa -> f_hasacc (a_top a') F = Ok false /\ forall x, x <> F -> bal v (a_top a') x = bal v (a_top a) x +
      (if b && bool_decide (x = Heritor) then fa_Amount fr + bal v (a_top a) F else 0) + default 0 (m !! x)).
Proof.
  intros Hf Hadr Hty Hsa Hsa0 Ham HlenF Hlen Hlive Hb Hs Hbel. unfold dissolve. erewrite bind_ok by (cbn; unfold abs_Account; rewrite Hf; reflexivity).
  erewrite bind_ok by reflexivity. erewrite bind_ok by by apply abs_is_alive.
  destruct (abs_inherit ctw a F Heritor (fa_Amount fr) b m HlenF Hlen Ham Hb Hs) as (f1 & E1 & Hacc1 & Hs1 & Hn1 & Hb1).
  erewrite bind_ok by exact E1. rewrite Hty, bool_decide_true by done.
  assert (Hpos : Forall entry_ok (range m)).
  { apply Forall_forall. intros [y q] Hin. rewrite range_perm in Hin. apply elem_of_map_to_list in Hin.
    split; [by apply (sk_positive _ _ _ _ Hs) in Hin|]. by apply (staked_ok p a F m y Hs); eauto. }
  pose proof (abs_return_stakes ctw F (range m) Hpos (set_top a f1) sa fr Hsa0) as Hret. cbn [a_top set_top] in Hret. rewrite Hacc1 in Hret.
  specialize (Hret Hf Hn1). rewrite (total_perm _ _ (range_perm _ m)) in Hret. set (t := total (map_to_list m)) in *.
  assert (Hguard : forall r a', fold_each (range m) sa (return_stake p ctw F) (set_top a f1) = (r, a') ->
    (let! StakingAmountMap := GetStakingAmountMap p F in let! sa := non_nil (fa_StakingAmount fr) in
     let! rest := fold_each (range StakingAmountMap) sa (return_stake p ctw F) in guard (IsZero rest) ErrCriticalStakingAmount) (set_top a f1) =
    (match r with Ok rest => if IsZero rest then Ok tt else Err ErrCriticalStakingAmount | Err e => Err e | Panic w => Panic w end, a')).
  { intros r a' E. erewrite bind_ok by by apply abs_GetStakes. rewrite Hsa. erewrite bind_ok by reflexivity. unfold bind. rewrite E.
    destruct r as [rest|e|w]; [|done..]. unfold guard. by destruct (IsZero rest). }
  destruct (decide (t <= sa)) as [Hle|Hgt].
  - destruct Hret as (f2 & fr' & E2 & Hf2 & Hb2). apply Hguard in E2. unfold IsZero in E2. destruct (Z.eqb_spec (sa - t) 0) as [Hz|Hnz].
    + rewrite decide_True by lia. erewrite bind_ok by exact E2. unfold bind. cbn. unfold bind, abs_Account, modify. cbn [a_top set_top acc_Address]. rewrite Hadr, Hf2.
      destruct (a_below a) as [|bel bels] eqn:Eb; [done|]. cbn. rewrite Eb. cbn. eexists. split; [reflexivity|]. intros _. cbn. split; [unfold upd; by rewrite decide_True|].
      intros x Hx. etrans; [apply Hb2|]. rewrite (credited_map COIN m) by apply range_perm. rewrite part_COIN. cbn. rewrite Hb1 by done. lia.
    + rewrite decide_False by lia. eexists. split; [by erewrite bind_err|lia].
  - destruct Hret as (a2 & E2). apply Hguard in E2. rewrite decide_False by lia. eexists. split; [by erewrite bind_err|lia].
Qed.

(** *** On the context *)

(** The simulation from one context. *)
Definition sim_at {A} (ctx : Context_) (m : ctxM A) (ma : absM A) : Prop :=
  match m ctx with
  | (Panic w, _) => fst (ma (abs ctx)) = Panic w
  | (r, ctx') => ctx_ok ctx' /\ ma (abs ctx) = (r, abs ctx')
  end.

Lemma sim_at_bind {A B} ctx (m : ctxM A) ma (k : A -> ctxM B) ka : sim_at ctx m ma ->
  (forall x ctx', ctx_ok ctx' -> ma (abs ctx) = (Ok x, abs ctx') -> sim_at ctx' (k x) (ka x)) -> sim_at ctx (bind m k) (bind ma ka).
Proof.
  unfold sim_at, bind. intros Hm Hk. destruct (m ctx) as [[x|e|w] ctx'].
  - destruct Hm as [Hc E]. rewrite E. by apply Hk.
  - destruct Hm as [Hc ->]. done.
  - destruct (ma (abs ctx)) as [r s]. cbn in Hm. by subst r.
Qed.

Lemma sim_at_run {A} (m : ctxM A) ma ctx r a' : sim_at ctx m ma -> ma (abs ctx) = (r, a') -> (forall w, r <> Panic w) ->
  exists ctx', m ctx = (r, ctx') /\ ctx_ok ctx' /\ abs ctx' = a'.
Proof.
  unfold sim_at. intros Hs E Hr. rewrite E in Hs. destruct (m ctx) as [[x|e|w] ctx']; [destruct Hs as [? [= -> ->]]; eauto..|]. by destruct (Hr w).
Qed.

(** Setting the staking amount of a hyper formulator keeps it well-formed. *)
Definition is_hyper (acc : Account) : Prop := match acc with AFormulator fr => fa_Type fr = HyperFormulatorType | _ => False end.
#[local] Instance is_hyper_dec acc : Decision (is_hyper acc).
Proof. destruct acc; apply _. Defined.

Lemma set_StakingAmount_ok q acc : is_hyper acc -> acc_ok acc -> acc_ok (on_formulator (set_StakingAmount q) acc).
Proof.
  unfold acc_ok. destruct acc as [| |fr]; [done..|]. destruct fr as [ad nm ty kh gh am rv ph uh sa pc]. cbn. intros ->.
  unfold FormulatorAccount_Clone, set_StakingAmount. cbn. rewrite decide_True by done.
  destruct sa as [sa|], pc as [pc|]; cbn; [|done..]. intros [= -> -> -> E ->]. unfold Amount.Clone in *. by rewrite !Z.add_0_r.
Qed.

Lemma sim_set_StakingAmount ctx F q acc : ctx_ok ctx -> f_acc (a_top (abs ctx)) F = Ok acc -> is_hyper acc ->
  sim_at ctx (mutate F (set_StakingAmount q)) (mutate F (set_StakingAmount q)).
Proof.
  intros Hc Hf Hy. set (g := fun acc => if decide (is_hyper acc) then on_formulator (set_StakingAmount q) acc else acc).
  assert (Hs : sim_at ctx (attempt (op_UpdateAccount F g)) (attempt (op_UpdateAccount F g))).
  { apply (sim_attempt (op_UpdateAccount F g) (op_UpdateAccount F g)); [|done]. apply so_UpdateAccount. intros acc' Hok. unfold g. case_decide; [by apply set_StakingAmount_ok|done]. }
  assert (E1 : op_UpdateAccount F (on_formulator (set_StakingAmount q)) (abs ctx) = op_UpdateAccount F g (abs ctx)).
  { clear Hs. generalize dependent (abs ctx). intros a Hf. cbn. unfold bind, abs_Account. rewrite Hf. unfold on_frame, modify. unfold g. by rewrite decide_True. }
  assert (E2 : op_UpdateAccount F (on_formulator (set_StakingAmount q)) ctx = op_UpdateAccount F g ctx).
  { cbn. unfold UpdateAccount, bind. pose proof (sim_Account F ctx Hc) as Ha. destruct (Account_ F ctx) as [[acc'|e|w] ctx'] eqn:Em; [|done..].
    destruct Ha as [_ Ha]. unfold abs_Account in Ha. rewrite Hf in Ha. injection Ha as <- Ha.
    destruct (Account_in_top _ _ _ _ Hc Em) as (c & ps & Es & Em' & Ed). unfold on_top. rewrite Es.
    assert (Eal : alter (on_formulator (set_StakingAmount q)) F (AccountMap c) = alter g F (AccountMap c)); [|by rewrite Eal].
    apply alter_ext. intros x Hx. rewrite Em' in Hx. injection Hx as <-. unfold g. by rewrite decide_True. }
  unfold mutate. apply sim_at_bind; [|done]. unfold sim_at, attempt in *. by rewrite E1, E2.
Qed.

#[local] Hint Resolve sim_is_alive sim_AddBalance sim_Balance sim_w_SetAccountData sim_GetStakingAmountMap sim_GetStakingAmount sim_enroll_staker : simulation.

(** Accounts are left alone by payments. *)
Definition same_accounts a a' : Prop := f_acc (a_top a') = f_acc (a_top a).

#[local] Instance same_accounts_preorder : PreOrder same_accounts.
Proof. split; [by intros a|by intros a b c; unfold same_accounts; intros <-]. Qed.

Lemma AddBalance_keeps ctw x am : keeps same_accounts (AddBalance v ctw x am).
Proof. intros a. rewrite abs_AddBalance. by destruct (am <? 0). Qed.

Lemma hyper_stays {A} (m : absM A) a x a' F acc : keeps same_accounts m -> m a = (Ok x, a') -> f_acc (a_top a) F = Ok acc -> f_acc (a_top a') F = Ok acc.
Proof. intros Hk E Hf. specialize (Hk a). rewrite E in Hk. unfold same_accounts in Hk. cbn in Hk. by rewrite Hk. Qed.

Lemma ok_inj {A S} (x y : A) (s t : S) : (Ok x, s) = (Ok y, t) -> x = y /\ s = t.
Proof. by intros [= -> ->]. Qed.

Lemma sim_return_stakes ctw F l : forall ctx rest acc, ctx_ok ctx -> f_acc (a_top (abs ctx)) F = Ok acc -> is_hyper acc ->
  sim_at ctx (fold_each l rest (return_stake p ctw F)) (fold_each l rest (return_stake p ctw F)).
Proof.
  induction l as [|[y q] l IH]; intros ctx rest acc Hc Hf Hy; cbn [fold_each]; [by apply sim_ret|].
  apply sim_at_bind.
  - unfold return_stake. destruct (IsZero q); [by apply sim_fail|]. destruct (Less rest q); [by apply sim_fail|].
    apply sim_at_bind; [by eapply sim_set_StakingAmount|]. intros [] ctx' Hc' _. by apply sim_bind; [apply sim_AddBalance|intros; apply sim_ret|].
  - intros rest' ctx' Hc' E. unfold return_stake in E. destruct (IsZero q); [done|]. destruct (Less rest q); [done|].
    apply bind_ok_inv in E as ([] & a1 & E1 & E). destruct acc as [| |fr]; [done..|]. rewrite (abs_mutate _ _ _ fr Hf) in E1.
    apply (IH ctx' rest' (AFormulator (set_StakingAmount (Sub rest q) fr))); [done| |done].
    apply ok_inj in E1 as [_ <-]. apply bind_ok_inv in E as ([] & a2 & E2 & E). apply ok_inj in E as [_ <-].
    eapply hyper_stays; [apply AddBalance_keeps|exact E2|]. cbn. unfold upd. by rewrite decide_True.
Qed.

Lemma sim_inherit ctw F Heritor am (b : bool) :
  simulates (if b then AddBalance v ctw Heritor am ;;; let! b := Balance v F in AddBalance v ctw Heritor b ;;; RemoveBalance v ctw F else ret tt)
    (if b then AddBalance v ctw Heritor am ;;; let! b := Balance v F in AddBalance v ctw Heritor b ;;; RemoveBalance v ctw F else ret tt).
Proof. unfold RemoveBalance. simulate. Qed.

Lemma sim_at_of {A} (m : ctxM A) ma ctx : simulates m ma -> ctx_ok ctx -> sim_at ctx m ma.
Proof. intros Hs Hc. exact (Hs ctx Hc). Qed.

Lemma sim_dissolve ctw F Heritor ctx fr : ctx_ok ctx -> f_acc (a_top (abs ctx)) F = Ok (AFormulator fr) -> fa_Type fr = HyperFormulatorType ->
  sim_at ctx (dissolve p ctw F Heritor) (dissolve p ctw F Heritor).
Proof.
  intros Hc Hf Hy. unfold dissolve. apply sim_at_bind; [apply sim_at_of; [apply so_Account|done]|]. intros acc ctx1 Hc1 E1.
  change (op_Account F (abs ctx)) with (f_acc (a_top (abs ctx)) F, abs ctx) in E1. rewrite Hf in E1. apply ok_inj in E1 as [<- E1].
  apply sim_at_bind; [apply sim_at_of; [apply sim_ret|done]|]. intros fr' ctx2 Hc2 E2. apply ok_inj in E2 as [<- E2]. apply sim_at_bind; [apply sim_at_of; [apply sim_is_alive|done]|]. intros alive ctx3 Hc3 E3.
  assert (Hf3 : f_acc (a_top (abs ctx3)) F = Ok (AFormulator fr)).
  { eapply hyper_stays; [|exact E3|by rewrite <- E2, <- E1]. unfold is_alive. keep. by intros a; unfold attempt; cbn; destruct (f_hasacc _ _). }
  rewrite Hy, bool_decide_true by done.
  apply sim_at_bind; [apply sim_at_of; [apply sim_inherit|done]|].
  intros [] ctx4 Hc4 E4. assert (Hf4 : f_acc (a_top (abs ctx4)) F = Ok (AFormulator fr)).
  { eapply hyper_stays; [|exact E4|exact Hf3]. destruct alive; keep; first [apply AddBalance_keeps|by intros a]. }
  apply sim_at_bind; [|intros [] ctx5 Hc5 _; apply sim_at_of; [simulate|done]].
  apply sim_at_bind; [apply sim_at_of; [apply sim_GetStakingAmountMap|done]|]. intros m ctx5 Hc5 E5. apply sim_at_bind; [apply sim_at_of; [unfold non_nil; simulate|done]|].
  intros sa ctx6 Hc6 E6. apply sim_at_bind; [|intros; apply sim_at_of; [apply sim_guard|done]]. eapply (sim_return_stakes ctw F _ ctx6 sa (AFormulator fr)); [done| |done].
  assert (abs ctx6 = abs ctx5) as ->. { unfold non_nil in E6. destruct (fa_StakingAmount fr); [|done]. by apply ok_inj in E6 as [_ <-]. }
  assert (Hk : keeps same_accounts (GetStakingAmountMap (S := AbsCtx) p F)).
  { unfold GetStakingAmountMap, GetStakingAmount. keep; try by intros a. generalize 0 (∅ : gmap Address Amount). induction (Z.to_nat _) as [|n IH]; intros i acc; cbn [staking_loop]; unfold GetStakingAmount; keep; by intros a. }
  by eapply hyper_stays.
Qed.

(** A hyper formulator whose revocation is due. *)
Record due (ctx : Context_) (F Heritor : Address) (fr : FormulatorAccount) (sa : Amount) (m : gmap Address Amount) (b : bool) : Prop := {
  du_account : f_acc (a_top (abs ctx)) F = Ok (AFormulator fr);
  du_address : fa_Address fr = F;
  du_hyper : fa_Type fr = HyperFormulatorType;
  du_staking : fa_StakingAmount fr = Some sa;
  du_amounts : 0 <= sa /\ 0 <= fa_Amount fr;
  du_sizes : length F = AddressSize /\ length Heritor = AddressSize;
  du_heir : lives (abs ctx) Heritor = Some b;
  du_balances : forall x, length x = AddressSize -> 0 <= balance_of v ctx x;
  du_stakes : stakes p F ctx m
}.

Lemma dissolve_outcome (ctx : Context_) (ctw : ContextWrapper) F Heritor fr sa m b : due ctx F Heritor fr sa m b ->
  exists ctx', dissolve p ctw F Heritor ctx = (if decide (total (map_to_list m) = sa) then Ok tt else Err ErrCriticalStakingAmount, ctx') /\ ctx_ok ctx' /\
    (total (map_to_list m) = sa -> f_hasacc (a_top (abs ctx')) F = Ok false /\ forall x, x <> F -> balance_of v ctx' x = balance_of v ctx x +
      (if b && bool_decide (x = Heritor) then fa_Amount fr + balance_of v ctx F else 0) + default 0 (m !! x)).
Proof.
  intros [Hf Hadr Hy Hsa [Hsa0 Ham] [HlF HlH] Hlive Hb [Hc Hs]]. pose proof (abs_safe ctx Hc) as (Hbelow & _ & _).
  destruct (abs_dissolve ctw (abs ctx) F Heritor fr sa b m Hf Hadr Hy Hsa Hsa0 Ham HlF HlH Hlive Hb Hs Hbelow) as (a' & E & Hok).
  destruct (sim_at_run _ _ ctx _ _ (sim_dissolve ctw F Heritor ctx fr Hc Hf Hy) E) as (ctx' & E' & Hc' & <-); [by intros w; case_decide|].
  exists ctx'. done.
Qed.

(** C20. A revoked hyper formulator is dissolved exactly when its stakes add up to
    the amount recorded in its account: then the stakers get their stakes back,
    the heir (when it exists) gets the amount and the balance of the formulator,
    and the account is gone; otherwise the hook fails with
    [ErrCriticalStakingAmount], and with it the block. *)
Theorem dissolve_exact (ctx : Context_) (ctw : ContextWrapper) F Heritor fr sa m b : due ctx F Heritor fr sa m b ->
  exists ctx', dissolve p ctw F Heritor ctx = (if decide (total (map_to_list m) = sa) then Ok tt else Err ErrCriticalStakingAmount, ctx') /\ ctx_ok ctx' /\
    (total (map_to_list m) = sa -> f_hasacc (a_top (abs ctx')) F = Ok false /\ forall x, x <> F -> balance_of v ctx' x = balance_of v ctx x +
      (if b && bool_decide (x = Heritor) then fa_Amount fr + balance_of v ctx F else 0) + default 0 (m !! x)).
Proof. apply dissolve_outcome. Qed.

(** The reward of a staker after the commission. *)
Definition net_reward (pc : ValidatorPolicy) (R power : Amount) : Amount :=
  part R power - (if 0 <? CommissionRatio1000 pc then part R power * CommissionRatio1000 pc / 1000 else 0).

Lemma abs_GetUserAutoStaking x F a tl : f_ad (a_top a) (account_data_key F (fo_pid p) (toAutoStakingKey x)) = 1 :: tl ->
  GetUserAutoStaking p F x a = (Ok true, a).
Proof. intros Ha. unfold GetUserAutoStaking. erewrite bind_ok by reflexivity. by rewrite Ha. Qed.

Lemma abs_pay_staker ctw a fr pc R cs ev x q tl m : staked p a (fa_Address fr) m -> address_ok x -> 0 < net_reward pc R q -> Z.of_nat (size m) + 1 < 2 ^ 32 ->
  f_ad (a_top a) (account_data_key (fa_Address fr) (fo_pid p) (toAutoStakingKey x)) = 1 :: tl ->
  exists st a', pay_staker p ctw fr pc R (cs, ev) (x, q) a = (Ok st, a') /\
    staked p a' (fa_Address fr) (<[x := default 0 (m !! x) + net_reward pc R q]> m) /\ only_data_of p (fa_Address fr) a a'.
Proof.
  intros Hs Hx Hnet Hsz Hauto. unfold pay_staker. rewrite share_value. erewrite bind_ok by reflexivity.
  set (com := if 0 <? CommissionRatio1000 pc then part R q * CommissionRatio1000 pc / 1000 else 0).
  erewrite (bind_ok _ _ _ com); [|by unfold com; destruct (0 <? CommissionRatio1000 pc)].
  change (Sub (part R q) com) with (net_reward pc R q). unfold IsZero. rewrite (proj2 (Z.eqb_neq _ 0)) by lia.
  erewrite bind_ok by by eapply abs_GetUserAutoStaking.
  destruct (abs_AddStakingAmount p a ctw (fa_Address fr) m x (net_reward pc R q) Hs Hx Hnet Hsz) as (a' & E & Hs').
  pose proof (do_stake_keeps p (fa_Address fr) (Stake x (net_reward pc R q)) a) as Hk. cbn [do_stake] in Hk.
  assert (E2 : AddStakingAmount p (NewContextWrapper (fo_pid p)) (fa_Address fr) x (net_reward pc R q) a = (Ok tt, a')).
  { rewrite <- E. unfold AddStakingAmount. by rewrite !self_wrapper. }
  rewrite E2 in Hk. eexists _, a'. split; [by erewrite bind_ok by exact E|]. done.
Qed.

Lemma total_add (m : gmap Address Amount) x n : total (map_to_list (<[x := default 0 (m !! x) + n]> m)) = total (map_to_list m) + n.
Proof.
  destruct (m !! x) as [q|] eqn:E; cbn.
  - rewrite <- insert_delete_eq. rewrite total_insert by apply lookup_delete_eq. rewrite <- (insert_delete_id m x q E) at 2.
    rewrite total_insert by apply lookup_delete_eq. unfold id. lia.
  - rewrite total_insert by done. lia.
Qed.

Lemma sim_pay_staker ctw fr pc R st e : simulates (pay_staker p ctw fr pc R st e) (pay_staker p ctw fr pc R st e).
Proof.
  destruct st as [cs ev], e as [x q]. unfold pay_staker, GetUserAutoStaking, AddStakingAmount. simulate.
Qed.

(** Automatic staking breaks the books: it adds a reward to the stakes of the
    formulator but not to the staking amount of its account, so that a hyper
    formulator whose stakes did add up can no longer be dissolved after one
    automatic reward; its revocation makes the hook fail on every node. *)
Lemma auto_staking_blocks_revocation (ctx : Context_) (ctw ctw' : ContextWrapper) F Heritor fr sa m b pc R cs ev x q tl :
  due ctx F Heritor fr sa m b -> total (map_to_list m) = sa ->
  address_ok x -> 0 < net_reward pc R q -> Z.of_nat (size m) + 1 < 2 ^ 32 -> seen_ad ctx F (fo_pid p) (toAutoStakingKey x) = 1 :: tl ->
  exists st ctx1, pay_staker p ctw fr pc R (cs, ev) (x, q) ctx = (Ok st, ctx1) /\
    stakes p F ctx1 (<[x := default 0 (m !! x) + net_reward pc R q]> m) /\
    exists ctx2, dissolve p ctw' F Heritor ctx1 = (Err ErrCriticalStakingAmount, ctx2).
Proof.
  intros [Hf <- Hy Hsa Hams [HlF HlH] Hlive Hb [Hc Hs]] Hsum Hx Hnet Hsz Hauto.
  destruct (abs_pay_staker ctw (abs ctx) fr pc R cs ev x q tl m Hs Hx Hnet Hsz Hauto) as (st & a1 & E & Hs1 & [_ _ Hacc Hhas Had]).
  destruct (sim_run _ _ ctx _ _ (sim_pay_staker ctw fr pc R (cs, ev) (x, q)) Hc E) as (ctx1 & E1 & Hc1 & <-); [done|].
  assert (Hstakes : stakes p (fa_Address fr) ctx1 (<[x := default 0 (m !! x) + net_reward pc R q]> m)) by done.
  exists st, ctx1. split; [done|]. split; [done|].
  destruct (dissolve_outcome ctx1 ctw' (fa_Address fr) Heritor fr sa (<[x := default 0 (m !! x) + net_reward pc R q]> m) b) as (ctx2 & E2 & _).
  - split; try done; [by rewrite Hacc|unfold lives; by rewrite Hhas|]. intros y Hly. change (0 <= amount_of (f_ad (a_top (abs ctx1)) (balance_key v y))).
    rewrite Had; [by apply Hb|]. intros name Ek. symmetry in Ek. apply balance_key_apart in Ek; [done|congruence].
  - exists ctx2. rewrite E2, decide_False; [done|]. rewrite total_add. lia.
Qed.
End Due.

(** *** Examples *)

#[local] Instance map_order : MapRange.
Proof. refine {| range A m := map_to_list m |}. done. Defined.

Definition ex_form : Formulator := NewFormulator 3 ex_vault (NewAdmin 1).
Definition ex_hyper : Address := NewAddress 0 5 0.
Definition ex_fr : FormulatorAccount :=
  mkFormulator ex_hyper (str "hyper") HyperFormulatorType (replicate 31 0) (replicate 31 0) 100 true 0 0 (Some 5) (Some (mkValidatorPolicy 100 1 1)).

(** A hyper formulator with one staker, who asked for automatic staking. *)
Definition ex_setup : ctxM unit :=
  CreateAccount (AFormulator ex_fr) ;;; setUserAutoStaking (NewContextWrapper 3) ex_hyper ex_a true.
Definition ex_unstaked : Context_ := snd (ex_setup NewEmptyContext).
Definition ex_staked : Context_ := snd (run_stakes ex_form ex_hyper [Stake ex_a 5] ex_unstaked).

Lemma ex_unstaked_stakes : stakes ex_form ex_hyper ex_unstaked ∅.
Proof.
  assert (Hs : simulates ex_setup (abs_CreateAccount (AFormulator ex_fr) ;;; setUserAutoStaking (NewContextWrapper 3) ex_hyper ex_a true)).
  { apply sim_bind; [by apply sim_CreateAccount|]. intros _. apply sim_w_SetAccountData. }
  set (a1 := set_top (abs NewEmptyContext) (frame_create (a_top (abs NewEmptyContext)) (AFormulator ex_fr))).
  destruct (sim_run _ _ NewEmptyContext (Ok tt)
    (set_top a1 (put_ad (a_top a1) (account_data_key ex_hyper 3 (toAutoStakingKey ex_a)) [1])) Hs NewEmptyContext_ok) as (ctx' & E & Hc & Ea); [|done|].
  { unfold bind. change (abs_CreateAccount (AFormulator ex_fr) (abs NewEmptyContext)) with (@Ok unit tt, a1). reflexivity. }
  unfold ex_unstaked. rewrite E. cbn [snd]. apply no_stakes; [done|]. intros name. unfold seen_ad. rewrite Ea. cbn [a_top set_top put_ad frame_set_ad f_ad]. unfold upd.
  rewrite decide_False; [done|]. intros Ek%account_data_key_inj. discriminate Ek.
Qed.

Lemma ex_staked_stakes : stakes ex_form ex_hyper ex_staked {[ex_a := 5]}.
Proof.
  destruct (run_stakes_refines ex_form ex_hyper ex_unstaked ∅ [Stake ex_a 5] ex_unstaked_stakes) as (ctx' & E & Hs & _).
  - repeat constructor; by vm_compute.
  - by vm_compute.
  - unfold ex_staked. rewrite E. exact Hs.
Qed.

Lemma ex_due : due ex_form ex_staked ex_hyper ex_b ex_fr 5 {[ex_a := 5]} false.
Proof.
  destruct (data_okb_nonneg ex_staked) as [Had _]; [by vm_compute|by vm_compute|].
  split; [by vm_compute..|intros x _; apply Had|apply ex_staked_stakes].
Qed.

Lemma dissolve_exact_witness :
  exists ctx', dissolve ex_form (NewContextWrapper 3) ex_hyper ex_b ex_staked = (Ok tt, ctx') /\ balance_of ex_vault ctx' ex_a = balance_of ex_vault ex_staked ex_a + 5.
Proof.
  destruct (dissolve_exact ex_form ltac:(by vm_compute) ltac:(by vm_compute) ltac:(by vm_compute) ex_staked (NewContextWrapper 3) ex_hyper ex_b ex_fr 5
    {[ex_a := 5]} false ex_due) as (ctx' & E & _ & Hok). exists ctx'. split; [rewrite E; by vm_compute|].
  destruct Hok as [_ Hb]; [by vm_compute|]. change ex_vault with (fo_vault ex_form). rewrite (Hb ex_a) by (by vm_compute). rewrite lookup_singleton_eq. cbn. lia.
Defined.

Lemma auto_staking_blocks_revocation_witness :
  exists st ctx1 ctx2, pay_staker ex_form (NewContextWrapper 3) ex_fr (mkValidatorPolicy 100 1 1) COIN (0, mkLog ∅ ∅ ∅ ∅ ∅ ∅) (ex_a, 10) ex_staked = (Ok st, ctx1) /\
    dissolve ex_form (NewContextWrapper 3) ex_hyper ex_b ctx1 = (Err ErrCriticalStakingAmount, ctx2).
Proof.
  destruct (auto_staking_blocks_revocation ex_form ltac:(by vm_compute) ltac:(by vm_compute) ltac:(by vm_compute) ex_staked (NewContextWrapper 3) (NewContextWrapper 3)
    ex_hyper ex_b ex_fr 5 {[ex_a := 5]} false (mkValidatorPolicy 100 1 1) COIN 0 (mkLog ∅ ∅ ∅ ∅ ∅ ∅) ex_a 10 [] ex_due) as (st & ctx1 & E1 & _ & ctx2 & E2);
    [by vm_compute|apply NewAddress_ok|by vm_compute..|].
  exists st, ctx1, ctx2. exact (conj E1 E2).
Defined.

Lemma rewards_within_budget_witness :
  exists stack ev' ctx', share_rewards ex_form (NewContextWrapper 3) (mkRewardPolicy COIN 1 1000 1000 1000 1000 1000) 0
    (mkPowers ∅ 3 {[ex_a := 1]} {[ex_hyper := 2]} []) (mkLog ∅ ∅ ∅ ∅ ∅ ∅) ex_staked = (Ok (stack, ev'), ctx') /\ fees_of ex_vault ctx' = 0.
Proof.
  destruct (data_okb_nonneg ex_staked) as [Had _]; [by vm_compute|by vm_compute|].
  destruct (rewards_within_budget ex_form ex_staked (NewContextWrapper 3) (mkRewardPolicy COIN 1 1000 1000 1000 1000 1000) 0
    (mkPowers ∅ 3 {[ex_a := 1]} {[ex_hyper := 2]} []) (mkLog ∅ ∅ ∅ ∅ ∅ ∅)) as (stack & ev' & ctx' & E & _ & Hf & _).
  - apply ex_staked_stakes.
  - split; [by vm_compute|by apply map_Forall_singleton|by apply map_Forall_singleton].
  - done.
  - done.
  - intros x _. apply Had.
  - by vm_compute.
  - intros x [q Hq]. cbn [pw_Staking] in Hq. apply lookup_singleton_Some in Hq as [<- _]. exists true. by vm_compute.
  - exists stack, ev', ctx'. exact (conj E Hf).
Defined.
