(* ===== verification/Payment.v ===== *)
(** * The payment process

    [process/payment]: the topics of the application, the payments the
    administrator asks for and an account accepts or refuses, and the
    subscriptions that let the administrator bill an account up to an amount.
    Topics and requests are process data, a subscription is account data.

    The handlers are written against [ContextOps] as those of the vault are;
    [PaymentSpec] proves what they do. *)

From stdpp Require Import base gmap list strings.
From Stdlib Require Import ZArith.
From S2P Require Import Prelude Amount Common Types Context ContextSpec Vault.

(** ** Data *)

Record Payment := NewPayment { pay_pid : Z; pay_vault : Vault; pay_admin : Admin }.
Definition payment_Name : bytes := str "fleta.payment".

Definition pay_err (m : string) : error := mkError "payment" m.
Definition ErrInvalidRequestPayment := pay_err "invalid request payment".
Definition ErrInvalidPaymentAmount := pay_err "invalid payment amount".
Definition ErrInvalidTopicName := pay_err "invalid topic name".
Definition ErrNotExistRequestPayment := pay_err "not exist request payment".
Definition ErrExceedContentSize := pay_err "exceed content size".
Definition ErrExistTopic := pay_err "exist topic".
Definition ErrNotExistTopic := pay_err "not exist topic".
Definition ErrExistSubscribe := pay_err "exist subscribe".
Definition ErrNotExistSubscribe := pay_err "not exist subscribe".
Definition ErrInvalidBillingAmount := pay_err "invalid billing amount".

(** [vault.ErrInsufficientBalance]. *)
Definition ErrInsufficientBalance := verr "insufficient balance".

Definition tagRequestPayment : bytes := [1; 0].
Definition tagTopic : bytes := [2; 0].
Definition toRequestPaymentKey (TXID : bytes) : bytes := tagRequestPayment ++ TXID.
Definition toTopicKey (topic : Z) : bytes := tagTopic ++ be_bytes 8 topic.

Record AddTopic := mkAddTopic { at_Timestamp : Z; at_Seq : Z; at_From : Address; at_Topic : Z; at_TopicName : bytes }.
Record RemoveTopic := mkRemoveTopic { rt_Timestamp : Z; rt_Seq : Z; rt_From : Address; rt_Topic : Z; rt_TopicName : bytes }.
Record RequestPayment := mkRequestPayment { rq_Timestamp : Z; rq_Seq : Z; rq_From : Address; rq_Topic : Z;
  rq_To : Address; rq_Amount : Amount; rq_Content : bytes }.
Record ResponsePayment := mkResponsePayment { rs_Timestamp : Z; rs_Seq : Z; rs_From : Address; rs_TXID : bytes;
  rs_Amount : Amount; rs_IsAccept : bool }.
Record Subscribe := mkSubscribe { su_Timestamp : Z; su_Seq : Z; su_From : Address; su_Topic : Z; su_Amount : Amount }.
Record Unsubscribe := mkUnsubscribe { us_Timestamp : Z; us_Seq : Z; us_From : Address; us_Topic : Z }.
Record Billing := mkBilling { bi_Timestamp : Z; bi_Seq : Z; bi_From : Address; bi_Topic : Z; bi_To : Address;
  bi_Amount : Amount; bi_Content : bytes }.

(** The transactions the process registers, in the order of their numbers. *)
Inductive PaymentTx :=
  | PAddTopic (tx : AddTopic)
  | PRemoveTopic (tx : RemoveTopic)
  | PRequestPayment (tx : RequestPayment)
  | PResponsePayment (tx : ResponsePayment)
  | PSubscribe (tx : Subscribe)
  | PUnsubscribe (tx : Unsubscribe)
  | PBilling (tx : Billing).

(** [Topic] of [util.go]. *)
Definition Topic `{Sha256} (Name : bytes) : res Z :=
  let h := Hash (str "fleta.payment#Topic#" ++ Name) in
  BytesToUint64 h.

Section Payments.
Context {S : Type} `{!ContextOps S} (p : Payment).

(** ** [payment_method.go] *)

Section Requests.
Context `{!Unmarshaler RequestPayment, !Marshaler RequestPayment}.

Definition getRequestPayment (lw : ContextWrapper) (TXID : bytes) : ST S RequestPayment :=
  let! bs := w_ProcessData lw (toRequestPaymentKey TXID) in
  match bs with
  | [] => fail ErrNotExistRequestPayment
  | _ => lift (Unmarshal bs)
  end.

Definition addRequestPayment (ctw : ContextWrapper) (TXID : bytes) (tx : RequestPayment) : ST S unit :=
  let body := Marshal tx in
  w_SetProcessData ctw (toRequestPaymentKey TXID) body.

Definition removeRequestPayment (ctw : ContextWrapper) (TXID : bytes) : ST S unit :=
  w_SetProcessData ctw (toRequestPaymentKey TXID) [].
End Requests.

Definition GetTopicName (topic : Z) : ST S bytes :=
  let! bs := op_ProcessData (pay_pid p) (toTopicKey topic) in
  match bs with
  | [] => fail ErrNotExistTopic
  | _ => ret bs
  end.

Definition addTopic (ctw : ContextWrapper) (topic : Z) (Name : bytes) : ST S unit :=
  let! bs := w_ProcessData ctw (toTopicKey topic) in
  match bs with
  | [] => w_SetProcessData ctw (toTopicKey topic) Name
  | _ => fail ErrExistTopic
  end.

Definition removeTopic (ctw : ContextWrapper) (topic : Z) : ST S unit :=
  w_SetProcessData ctw (toTopicKey topic) [].

Definition getSubscribe (lw : ContextWrapper) (topic : Z) (addr : Address) : ST S Amount :=
  let! bs := w_AccountData lw addr (toTopicKey topic) in
  match bs with
  | [] => fail ErrNotExistSubscribe
  | _ => ret (NewAmountFromBytes bs)
  end.

Definition addSubscribe (ctw : ContextWrapper) (topic : Z) (addr : Address) (am : Amount) : ST S unit :=
  let! bs := w_AccountData ctw addr (toTopicKey topic) in
  match bs with
  | [] => w_SetAccountData ctw addr (toTopicKey topic) (Bytes am)
  | _ => fail ErrExistSubscribe
  end.

Definition removeSubscribe (ctw : ContextWrapper) (topic : Z) (addr : Address) : ST S unit :=
  w_SetAccountData ctw addr (toTopicKey topic) [].

(** ** The transactions *)

(** [if tx.From() != sp.admin.AdminAddress(loader, p.Name()) { return admin.ErrUnauthorizedTransaction }]. *)
Definition pay_require_admin (from : Address) : ST S unit :=
  let! addr := AdminAddress (pay_admin p) payment_Name in
  guard (bool_decide (from = addr)) ErrUnauthorizedTransaction.

(** The signers of a subscription: the first is the administrator's. *)
Definition require_both_signers (from : Address) (signers : list PublicHash) : ST S unit :=
  guard (negb (length signers <=? 1)%nat) ErrUnauthorizedTransaction ;;;
  let! adminAddr := AdminAddress (pay_admin p) payment_Name in
  require_signers adminAddr (take 1 signers) ;;;
  require_signers from (drop 1 signers).

Section Topics.
Context `{Sha256}.

Definition AddTopic_Validate (tx : AddTopic) (signers : list PublicHash) : ST S unit :=
  pay_require_admin (at_From tx) ;;;
  let! t := lift (Topic (at_TopicName tx)) in
  guard (at_Topic tx =? t) ErrInvalidTopicName ;;;
  require_fresh_seq (at_Seq tx) (at_From tx) ;;;
  require_signers (at_From tx) signers.

(** The error of [addTopic] is dropped. *)
Definition AddTopic_Execute (ctw : ContextWrapper) (tx : AddTopic) (index : Z) : ST S unit :=
  let! _ := attempt (addTopic ctw (at_Topic tx) (at_TopicName tx)) in
  ret tt.

Definition RemoveTopic_Validate (tx : RemoveTopic) (signers : list PublicHash) : ST S unit :=
  pay_require_admin (rt_From tx) ;;;
  let! t := lift (Topic (rt_TopicName tx)) in
  guard (rt_Topic tx =? t) ErrInvalidTopicName ;;;
  require_fresh_seq (rt_Seq tx) (rt_From tx) ;;;
  require_signers (rt_From tx) signers.

Definition RemoveTopic_Execute (ctw : ContextWrapper) (tx : RemoveTopic) (index : Z) : ST S unit :=
  removeTopic ctw (rt_Topic tx).

Definition InitTopics (ctw : ContextWrapper) (TopicNames : list bytes) : ST S unit :=
  let ctw := SwitchContextWrapper (pay_pid p) ctw in
  for_each TopicNames (fun name =>
    let! t := lift (Topic name) in
    addTopic ctw t name).
End Topics.

Definition payment_OnLoadChain : ST S unit :=
  let! _ := AdminAddress (pay_admin p) payment_Name in
  ret tt.

Section Paying.
Context `{!Unmarshaler RequestPayment, !Marshaler RequestPayment}.

Definition RequestPayment_Validate (tx : RequestPayment) (signers : list PublicHash) : ST S unit :=
  pay_require_admin (rq_From tx) ;;;
  let! d := lift dust in
  guard (negb (Less (rq_Amount tx) d)) ErrDustAmount ;;;
  guard (negb (255 <? length (rq_Content tx))%nat) ErrExceedContentSize ;;;
  require_fresh_seq (rq_Seq tx) (rq_From tx) ;;;
  let! _ := GetTopicName (rq_Topic tx) in
  require_account (rq_To tx) ErrNotExistAccount ;;;
  require_signers (rq_From tx) signers.

Definition RequestPayment_Execute (ctw : ContextWrapper) (tx : RequestPayment) (index : Z) : ST S unit :=
  let! h := op_TargetHeight in
  addRequestPayment ctw (TransactionID h index) tx.

Definition ResponsePayment_Validate (ctw : ContextWrapper) (tx : ResponsePayment) (signers : list PublicHash) : ST S unit :=
  let! d := lift dust in
  guard (negb (Less (rs_Amount tx) d)) ErrDustAmount ;;;
  require_fresh_seq (rs_Seq tx) (rs_From tx) ;;;
  let! adminAddr := AdminAddress (pay_admin p) payment_Name in
  let! req := getRequestPayment ctw (rs_TXID tx) in
  guard (bool_decide (rq_From req = adminAddr)) ErrUnauthorizedTransaction ;;;
  guard (bool_decide (rq_To req = rs_From tx)) ErrInvalidRequestPayment ;;;
  guard (Equal (rq_Amount req) (rs_Amount tx)) ErrInvalidPaymentAmount ;;;
  let! _ := GetTopicName (rq_Topic req) in
  require_account adminAddr ErrNotExistAccount ;;;
  require_signers (rs_From tx) signers ;;;
  if rs_IsAccept tx then
    let! b := Balance (pay_vault p) (rs_From tx) in
    guard (negb (Less b (rs_Amount tx))) ErrInsufficientBalance
  else ret tt.

Definition ResponsePayment_Execute (ctw : ContextWrapper) (tx : ResponsePayment) (index : Z) : ST S unit :=
  (if rs_IsAccept tx then
     SubBalance (pay_vault p) ctw (rs_From tx) (rs_Amount tx) ;;;
     let! adminAddr := AdminAddress (pay_admin p) payment_Name in
     AddBalance (pay_vault p) ctw adminAddr (rs_Amount tx)
   else ret tt) ;;;
  removeRequestPayment ctw (rs_TXID tx).

Definition Subscribe_Validate (tx : Subscribe) (signers : list PublicHash) : ST S unit :=
  let! d := lift dust in
  guard (negb (negb (IsZero (su_Amount tx)) && Less (su_Amount tx) d)) ErrDustAmount ;;;
  require_fresh_seq (su_Seq tx) (su_From tx) ;;;
  let! _ := GetTopicName (su_Topic tx) in
  require_both_signers (su_From tx) signers.

Definition Subscribe_Execute (ctw : ContextWrapper) (tx : Subscribe) (index : Z) : ST S unit :=
  addSubscribe ctw (su_Topic tx) (su_From tx) (su_Amount tx).

Definition Unsubscribe_Validate (tx : Unsubscribe) (signers : list PublicHash) : ST S unit :=
  require_fresh_seq (us_Seq tx) (us_From tx) ;;;
  require_both_signers (us_From tx) signers.

Definition Unsubscribe_Execute (ctw : ContextWrapper) (tx : Unsubscribe) (index : Z) : ST S unit :=
  removeSubscribe ctw (us_Topic tx) (us_From tx).

Definition Billing_Validate (ctw : ContextWrapper) (tx : Billing) (signers : list PublicHash) : ST S unit :=
  pay_require_admin (bi_From tx) ;;;
  guard (negb (255 <? length (bi_Content tx))%nat) ErrExceedContentSize ;;;
  require_fresh_seq (bi_Seq tx) (bi_From tx) ;;;
  let! _ := GetTopicName (bi_Topic tx) in
  require_account (bi_To tx) ErrNotExistAccount ;;;
  let! am := getSubscribe ctw (bi_Topic tx) (bi_To tx) in
  guard (negb (negb (IsZero am) && Less am (bi_Amount tx))) ErrInvalidBillingAmount ;;;
  require_signers (bi_From tx) signers.

Definition Billing_Execute (ctw : ContextWrapper) (tx : Billing) (index : Z) : ST S unit :=
  SubBalance (pay_vault p) ctw (bi_To tx) (bi_Amount tx) ;;;
  let! adminAddr := AdminAddress (pay_admin p) payment_Name in
  AddBalance (pay_vault p) ctw adminAddr (bi_Amount tx).

(** ** The process behind [types.Transaction] *)

Definition PaymentTx_Validate `{Sha256} (ctw : ContextWrapper) (tx : PaymentTx) (signers : list PublicHash) : ST S unit :=
  match tx with
  | PAddTopic tx => AddTopic_Validate tx signers
  | PRemoveTopic tx => RemoveTopic_Validate tx signers
  | PRequestPayment tx => RequestPayment_Validate tx signers
  | PResponsePayment tx => ResponsePayment_Validate ctw tx signers
  | PSubscribe tx => Subscribe_Validate tx signers
  | PUnsubscribe tx => Unsubscribe_Validate tx signers
  | PBilling tx => Billing_Validate ctw tx signers
  end.

Definition PaymentTx_Execute (ctw : ContextWrapper) (tx : PaymentTx) (index : Z) : ST S unit :=
  match tx with
  | PAddTopic tx => AddTopic_Execute ctw tx index
  | PRemoveTopic tx => RemoveTopic_Execute ctw tx index
  | PRequestPayment tx => RequestPayment_Execute ctw tx index
  | PResponsePayment tx => ResponsePayment_Execute ctw tx index
  | PSubscribe tx => Subscribe_Execute ctw tx index
  | PUnsubscribe tx => Unsubscribe_Execute ctw tx index
  | PBilling tx => Billing_Execute ctw tx index
  end.
End Paying.
End Payments.
