(* ===== verification/PaymentSpec.v ===== *)
(** * Payments as maps

    What the payment process means: topics, open requests and subscriptions are
    finite maps, and each transaction is an operation on them and on the balances.
    The handlers are shown to implement it on every outcome; from this follow
    that a request is answered at most once, and that a subscription without a
    limit is never recorded. *)

From stdpp Require Import base gmap list strings.
From Stdlib Require Import ZArith Lia.
From S2P Require Import Prelude Amount Common Types Context ContextSpec ContextFacts Vault VaultSpec Registry Payment.

(** ** The specification *)

Record PayState := mkPayState {
  ps_topics : gmap Z bytes;
  ps_requests : gmap bytes RequestPayment;
  ps_subs : gmap (Z * Address) Amount;
  ps_bal : Address -> Amount
}.

Definition with_topics st t := mkPayState t (ps_requests st) (ps_subs st) (ps_bal st).
Definition with_requests st r := mkPayState (ps_topics st) r (ps_subs st) (ps_bal st).
Definition with_subs st s := mkPayState (ps_topics st) (ps_requests st) s (ps_bal st).
Definition with_bal st b := mkPayState (ps_topics st) (ps_requests st) (ps_subs st) b.

(** A payment of [am] from one account to another: what is taken from the payer
    stays taken when the receiver cannot be paid. *)
Definition pay_from (st : PayState) (from to : Address) (am : Amount) : res unit * PayState :=
  if ps_bal st from <? am then (Err ErrMinusBalance, st)
  else
    let st1 := with_bal st (upd (ps_bal st) from (ps_bal st from - am)) in
    if am <? 0 then (Err ErrMinusInput, st1)
    else (Ok tt, with_bal st1 (upd (ps_bal st1) to (ps_bal st1 to + am))).

(** An empty name, and a subscription over zero, are not kept. *)
Definition pay_step (admin : Address) (height : Z) (tx : PaymentTx) (index : Z) (st : PayState) : res unit * PayState :=
  match tx with
  | PAddTopic tx =>
      (Ok tt, match ps_topics st !! at_Topic tx with
              | Some _ => st
              | None => if is_empty (at_TopicName tx) then st
                        else with_topics st (<[at_Topic tx := at_TopicName tx]> (ps_topics st))
              end)
  | PRemoveTopic tx => (Ok tt, with_topics st (delete (rt_Topic tx) (ps_topics st)))
  | PRequestPayment tx => (Ok tt, with_requests st (<[TransactionID height index := tx]> (ps_requests st)))
  | PResponsePayment tx =>
      let '(r, st1) := if rs_IsAccept tx then pay_from st (rs_From tx) admin (rs_Amount tx) else (Ok tt, st) in
      match r with
      | Ok _ => (Ok tt, with_requests st1 (delete (rs_TXID tx) (ps_requests st1)))
      | _ => (r, st1)
      end
  | PSubscribe tx =>
      match ps_subs st !! (su_Topic tx, su_From tx) with
      | Some _ => (Err ErrExistSubscribe, st)
      | None => (Ok tt, if IsZero (su_Amount tx) then st
                        else with_subs st (<[(su_Topic tx, su_From tx) := Z.abs (su_Amount tx)]> (ps_subs st)))
      end
  | PUnsubscribe tx => (Ok tt, with_subs st (delete (us_Topic tx, us_From tx) (ps_subs st)))
  | PBilling tx => pay_from st (bi_To tx) admin (bi_Amount tx)
  end.

(** Machine integers and arrays have their sizes. *)
Definition topic_ok (t : Z) : Prop := 0 <= t < 2 ^ 64.
Definition addr_sized (a : Address) : Prop := length a = AddressSize.
Definition PaymentTx_ok (tx : PaymentTx) : Prop :=
  match tx with
  | PAddTopic tx => topic_ok (at_Topic tx)
  | PRemoveTopic tx => topic_ok (rt_Topic tx)
  | PRequestPayment _ => True
  | PResponsePayment tx => addr_sized (rs_From tx)
  | PSubscribe tx => topic_ok (su_Topic tx) /\ addr_sized (su_From tx)
  | PUnsubscribe tx => topic_ok (us_Topic tx) /\ addr_sized (us_From tx)
  | PBilling tx => topic_ok (bi_Topic tx) /\ addr_sized (bi_To tx)
  end.

(** The coding of a stored request, [encoding.Marshal] and its inverse. *)
Class RequestCoding `{!Unmarshaler RequestPayment, !Marshaler RequestPayment} : Prop := {
  rc_ne : forall r : RequestPayment, Marshal r <> [];
  rc_inv : forall r : RequestPayment, Unmarshal (Marshal r) = Ok r
}.

(** The process has a number of its own. *)
Record pids_apart (p : Payment) : Prop := {
  pa_bytes : byte_ok (pay_pid p) /\ byte_ok (vault_pid (pay_vault p)) /\ byte_ok (admin_pid (pay_admin p));
  pa_vault : pay_pid p <> vault_pid (pay_vault p);
  pa_admin : pay_pid p <> admin_pid (pay_admin p)
}.

Section Relation.
Context (p : Payment) `{!Marshaler RequestPayment} (admin : Address).

Definition topic_key (t : Z) : bytes := process_data_key (pay_pid p) (toTopicKey t).
Definition request_key (id : bytes) : bytes := process_data_key (pay_pid p) (toRequestPaymentKey id).
Definition sub_key (t : Z) (a : Address) : bytes := account_data_key a (pay_pid p) (toTopicKey t).
Definition admin_key : bytes := process_data_key (admin_pid (pay_admin p)) (toAdminAddressKey payment_Name).

(** The data of a frame is the state. *)
Record pay_rel (f : Frame) (st : PayState) : Prop := {
  pr_topics : forall t, topic_ok t -> f_pd f (topic_key t) = default [] (ps_topics st !! t);
  pr_names : map_Forall (fun _ n => n <> []) (ps_topics st);
  pr_requests : forall id, f_pd f (request_key id) = from_option Marshal [] (ps_requests st !! id);
  pr_subs : forall t a, topic_ok t -> addr_sized a -> f_ad f (sub_key t a) = from_option Bytes [] (ps_subs st !! (t, a));
  pr_limits : map_Forall (fun _ am => 0 < am) (ps_subs st);
  pr_bal : forall a, addr_sized a -> bal (pay_vault p) f a = ps_bal st a /\ 0 <= ps_bal st a;
  pr_admin : f_pd f admin_key = admin
}.
End Relation.

(** ** Keys *)

Lemma topic_key_inj p t u : topic_ok t -> topic_ok u -> topic_key p t = topic_key p u -> t = u.
Proof.
  intros Ht Hu E. unfold topic_key, process_data_key in E. apply (inj (app _)) in E.
  unfold toTopicKey in E. apply (inj (app _)) in E. by apply (be_bytes_inj 8).
Qed.

Lemma request_key_inj p i j : request_key p i = request_key p j -> i = j.
Proof.
  unfold request_key, process_data_key, toRequestPaymentKey. intros E. apply (inj (app _)) in E. by apply (inj (app _)) in E.
Qed.

Lemma topic_request_key p t i : topic_key p t <> request_key p i.
Proof. unfold topic_key, request_key, process_data_key. intros E. by apply (inj (app _)) in E. Qed.

Lemma sub_key_inj p t u a b : topic_ok t -> topic_ok u -> addr_sized a -> addr_sized b ->
  sub_key p t a = sub_key p u b -> t = u /\ a = b.
Proof.
  intros Ht Hu Ha Hb E. unfold sub_key, account_data_key in E. apply app_inj_1 in E as [-> E]; [|congruence].
  split; [|done]. apply (inj (app _)) in E. apply (inj (app _)) in E. by apply (be_bytes_inj 8).
Qed.

Section Apart.
Context (p : Payment) (Hp : pids_apart p).

Lemma admin_topic_key t : admin_key p <> topic_key p t.
Proof.
  destruct Hp as [(H1 & H2 & H3) _ Hn]. intros E. apply rune_string_inj in E as [E _]; done.
Qed.

Lemma admin_request_key i : admin_key p <> request_key p i.
Proof.
  destruct Hp as [(H1 & H2 & H3) _ Hn]. intros E. apply rune_string_inj in E as [E _]; done.
Qed.

Lemma balance_sub_key a t b : addr_sized a -> addr_sized b -> balance_key (pay_vault p) a <> sub_key p t b.
Proof.
  destruct Hp as [(H1 & H2 & H3) Hn _]. intros Ha Hb E. unfold sub_key, balance_key, account_data_key in E.
  apply app_inj_1 in E as [_ E]; [|congruence]. apply rune_string_inj in E as [E _]; done.
Qed.
End Apart.

(** ** Writes and the state *)

Lemma put_pd_read f k v k' : f_pd (put_pd f k v) k' = if decide (k' = k) then v else f_pd f k'.
Proof. done. Qed.
Lemma put_ad_read f k v k' : f_ad (put_ad f k v) k' = if decide (k' = k) then v else f_ad f k'.
Proof. done. Qed.

Section Writes.
Context (p : Payment) (Hp : pids_apart p) `{!Marshaler RequestPayment} (admin : Address).
Abbreviation R := (pay_rel p admin).

(** Only process data under one key changes. *)
Lemma rel_put_pd f st k v st' : R f st ->
  admin_key p <> k -> ps_subs st' = ps_subs st -> ps_bal st' = ps_bal st ->
  (forall t, topic_ok t -> (if decide (topic_key p t = k) then v else f_pd f (topic_key p t)) = default [] (ps_topics st' !! t)) ->
  map_Forall (fun _ n => n <> []) (ps_topics st') ->
  (forall id, (if decide (request_key p id = k) then v else f_pd f (request_key p id)) = from_option Marshal [] (ps_requests st' !! id)) ->
  R (put_pd f k v) st'.
Proof.
  intros [Ht Hn Hr Hs Hl Hb Ha] Hk Es Eb Ht' Hn' Hr'. split; rewrite ?Es, ?Eb; try done.
  rewrite put_pd_read. by rewrite decide_False.
Qed.

Lemma rel_set_topic f st t name : R f st -> topic_ok t ->
  R (put_pd f (topic_key p t) name)
    (with_topics st (if is_empty name then delete t (ps_topics st) else <[t := name]> (ps_topics st))).
Proof.
  intros HR Ht. apply (rel_put_pd f st); try done; [by apply admin_topic_key| | |].
  - intros u Hu. cbn [ps_topics with_topics]. case_decide as E.
    + apply topic_key_inj in E as ->; [|done..]. destruct name; cbn [is_empty]; by simplify_map_eq.
    + rewrite (pr_topics p admin f st HR u Hu). destruct name; cbn [is_empty];
        [rewrite lookup_delete_ne | rewrite lookup_insert_ne]; try done; by intros ->.
  - cbn [ps_topics with_topics]. destruct name; cbn [is_empty].
    + apply map_Forall_delete, (pr_names p admin f st HR).
    + apply map_Forall_insert_2; [done|]. apply (pr_names p admin f st HR).
  - intros id. rewrite decide_False by (intros E; by apply (topic_request_key p t id)).
    apply (pr_requests p admin f st HR).
Qed.

Lemma rel_set_request f st id v (o : option RequestPayment) : R f st -> v = from_option Marshal [] o ->
  R (put_pd f (request_key p id) v) (with_requests st (partial_alter (fun _ => o) id (ps_requests st))).
Proof.
  intros HR ->. apply (rel_put_pd f st); try done; [by apply admin_request_key| | |].
  - intros u Hu. rewrite decide_False by apply topic_request_key. by apply (pr_topics p admin f st HR).
  - apply (pr_names p admin f st HR).
  - intros j. cbn [ps_requests with_requests]. case_decide as E.
    + apply request_key_inj in E as ->. by rewrite lookup_partial_alter_eq.
    + rewrite lookup_partial_alter_ne by (by intros ->). apply (pr_requests p admin f st HR).
Qed.

Lemma rel_set_sub f st t a v (o : option Amount) : R f st -> topic_ok t -> addr_sized a ->
  v = from_option Bytes [] o -> (forall am, o = Some am -> 0 < am) ->
  R (put_ad f (sub_key p t a) v) (with_subs st (partial_alter (fun _ => o) (t, a) (ps_subs st))).
Proof.
  intros [Ht Hn Hr Hs Hl Hb Ha] Htt Haa -> Ho. split; try done.
  - intros u b Hu Hb'. rewrite put_ad_read. cbn [ps_subs with_subs]. case_decide as E.
    + apply sub_key_inj in E as [-> ->]; [|done..]. by rewrite lookup_partial_alter_eq.
    + rewrite lookup_partial_alter_ne by (by intros [= -> ->]). by apply Hs.
  - intros k am. cbn [ps_subs with_subs]. destruct (decide ((t, a) = k)) as [<-|Hne].
    + rewrite lookup_partial_alter_eq. apply Ho.
    + rewrite lookup_partial_alter_ne by done. apply Hl.
  - intros b Hb'. unfold bal. rewrite put_ad_read. rewrite decide_False by (by apply balance_sub_key). by apply Hb.
Qed.

Lemma rel_set_bal f st a am : R f st -> addr_sized a -> 0 <= am ->
  R (set_bal (pay_vault p) f a am) (with_bal st (upd (ps_bal st) a am)).
Proof.
  intros [Ht Hn Hr Hs Hl Hb Ha] Haa Ham. split; try done.
  - intros u b Hu Hb'. unfold set_bal. rewrite put_ad_read.
    rewrite decide_False by (intros E; by apply (balance_sub_key p Hp a u b)). by apply Hs.
  - intros b Hb'. rewrite bal_set_bal. cbn [ps_bal with_bal]. unfold upd.
    destruct (decide (b = a)); [|by apply Hb]. split; lia.
Qed.
End Writes.

(** ** The handlers on the abstract machine *)

Section Abs.
Context `{B58 : Base58} (p : Payment) (Hp : pids_apart p).
Context `{!Unmarshaler RequestPayment, !Marshaler RequestPayment, !RequestCoding}.
Context (admin : Address) (Hadmin : addr_sized admin) (ctw : ContextWrapper) (Hctw : cw_pid ctw = pay_pid p).
Abbreviation R := (pay_rel p admin).
Implicit Types a : AbsCtx.

Lemma abs_AdminAddress a st : R (a_top a) st -> AdminAddress (pay_admin p) payment_Name a = (Ok admin, a).
Proof.
  intros HR. unfold AdminAddress, bind. cbn [op_ProcessData abs_ops gets].
  change (f_pd (a_top a) (process_data_key _ _)) with (f_pd (a_top a) (admin_key p)). rewrite (pr_admin p admin _ _ HR).
  unfold addr_sized in Hadmin. destruct admin as [|x l] eqn:E; [done|]. unfold ret. by rewrite copy_into_id.
Qed.

(** One step of the machine and of the specification. *)
Definition steps_to (m : absM unit) (a : AbsCtx) (spec : res unit * PayState) : Prop :=
  exists f, m a = (fst spec, set_top a f) /\ R f (snd spec).

Lemma set_top_id a : set_top a (a_top a) = a.
Proof. by destruct a. Qed.

Lemma steps_same m a r st : R (a_top a) st -> m a = (r, a) -> steps_to m a (r, st).
Proof. intros HR E. exists (a_top a). by rewrite set_top_id. Qed.

Lemma abs_pay_from a st from am : R (a_top a) st -> addr_sized from ->
  steps_to (SubBalance (pay_vault p) ctw from am ;;;
            let! adminAddr := AdminAddress (pay_admin p) payment_Name in
            AddBalance (pay_vault p) ctw adminAddr am) a (pay_from st from admin am).
Proof.
  intros HR Hf. destruct (pr_bal p admin _ _ HR from Hf) as [Eb Hb]. unfold pay_from, steps_to.
  unfold bind at 1. rewrite abs_SubBalance, Eb. destruct (ps_bal st from <? am) eqn:E1.
  { exists (a_top a). by rewrite set_top_id. }
  bool_to_prop. pose proof (rel_set_bal p Hp admin (a_top a) st from (ps_bal st from - am) HR Hf ltac:(lia)) as HR1.
  unfold bind. erewrite abs_AdminAddress by exact HR1. rewrite abs_AddBalance. destruct (am <? 0) eqn:E2.
  { eexists. split; [reflexivity|]. done. }
  bool_to_prop. destruct (pr_bal p admin _ _ HR1 admin Hadmin) as [Eb1 Hb1]. cbn [a_top set_top]. rewrite Eb1.
  eexists. split; [reflexivity|]. apply rel_set_bal; [done|done|done|lia].
Qed.

Lemma read_topic a st t : R (a_top a) st -> topic_ok t ->
  w_ProcessData ctw (toTopicKey t) a = (Ok (default [] (ps_topics st !! t)), a).
Proof.
  intros HR Ht. unfold w_ProcessData. rewrite Hctw. cbn [op_ProcessData abs_ops gets]. by rewrite <- (pr_topics p admin _ _ HR).
Qed.

Lemma read_sub a st t addr : R (a_top a) st -> topic_ok t -> addr_sized addr ->
  w_AccountData ctw addr (toTopicKey t) a = (Ok (from_option Bytes [] (ps_subs st !! (t, addr))), a).
Proof.
  intros HR Ht Ha. unfold w_AccountData. rewrite Hctw. cbn [op_AccountData abs_ops gets]. by rewrite <- (pr_subs p admin _ _ HR).
Qed.

Lemma read_request a st id : R (a_top a) st ->
  getRequestPayment ctw id a =
  (match ps_requests st !! id with Some r => Ok r | None => Err ErrNotExistRequestPayment end, a).
Proof.
  intros HR. unfold getRequestPayment, bind, w_ProcessData. rewrite Hctw. cbn [op_ProcessData abs_ops gets].
  pose proof (pr_requests p admin _ _ HR id) as E. unfold request_key in E. rewrite E.
  destruct (ps_requests st !! id) as [r|]; [|done]. cbn [from_option].
  pose proof (rc_ne r) as Hne. destruct (Marshal r) eqn:Em; [done|]. unfold lift. by rewrite <- Em, rc_inv.
Qed.

Lemma Bytes_pos am : 0 < am -> exists x l, Bytes am = x :: l.
Proof.
  intros Ham. pose proof (Bytes_nil am) as Hn. destruct (Bytes am); [|eauto]. destruct Hn as [Hn _]. specialize (Hn eq_refl). lia.
Qed.

Lemma Bytes_abs am : Bytes (Z.abs am) = Bytes am.
Proof. unfold Bytes, big_Bytes. by rewrite Z.abs_idemp. Qed.

Lemma exec_AddTopic tx i a st : R (a_top a) st -> topic_ok (at_Topic tx) ->
  steps_to (AddTopic_Execute ctw tx i) a (pay_step admin (a_TargetHeight a) (PAddTopic tx) i st).
Proof.
  intros HR Ht. unfold AddTopic_Execute, addTopic, steps_to, attempt. unfold bind. rewrite (read_topic a st) by done.
  cbn [pay_step fst snd]. destruct (ps_topics st !! at_Topic tx) as [n|] eqn:E; cbn [default from_option].
  - pose proof (pr_names p admin _ _ HR _ _ E) as Hn. simpl in Hn. destruct n; [done|]. cbn.
    exists (a_top a). by rewrite set_top_id.
  - rewrite abs_w_SetProcessData, Hctw. eexists. split; [reflexivity|].
    pose proof (rel_set_topic p Hp admin (a_top a) st (at_Topic tx) (at_TopicName tx) HR Ht) as HR'.
    destruct (is_empty (at_TopicName tx)); [|exact HR'].
    rewrite delete_id in HR' by done. by destruct st.
Qed.

Lemma exec_Response tx i a st : R (a_top a) st -> addr_sized (rs_From tx) ->
  steps_to (ResponsePayment_Execute p ctw tx i) a (pay_step admin (a_TargetHeight a) (PResponsePayment tx) i st).
Proof.
  intros HR Hf. unfold ResponsePayment_Execute. cbn [pay_step].
  assert (Hpay : steps_to (if rs_IsAccept tx then
     SubBalance (pay_vault p) ctw (rs_From tx) (rs_Amount tx) ;;;
     let! adminAddr := AdminAddress (pay_admin p) payment_Name in
     AddBalance (pay_vault p) ctw adminAddr (rs_Amount tx) else ret tt) a
    (if rs_IsAccept tx then pay_from st (rs_From tx) admin (rs_Amount tx) else (Ok tt, st))).
  { destruct (rs_IsAccept tx); [by apply abs_pay_from | by apply steps_same]. }
  destruct (if rs_IsAccept tx then pay_from st (rs_From tx) admin (rs_Amount tx) else (Ok tt, st)) as [r st1].
  destruct Hpay as (f & E & HR1). cbn [fst snd] in E, HR1. unfold steps_to.
  destruct r as [[]|e|w];
    [rewrite (bind_ok _ _ _ _ _ E) | rewrite (bind_err _ _ _ _ _ E); by exists f | rewrite (bind_panic _ _ _ _ _ E); by exists f].
  unfold removeRequestPayment. rewrite abs_w_SetProcessData, Hctw.
  eexists. split; [reflexivity|]. by apply (rel_set_request p Hp admin f st1 (rs_TXID tx) [] None).
Qed.

Lemma exec_Subscribe tx i a st : R (a_top a) st -> topic_ok (su_Topic tx) -> addr_sized (su_From tx) ->
  steps_to (Subscribe_Execute ctw tx i) a (pay_step admin (a_TargetHeight a) (PSubscribe tx) i st).
Proof.
  intros HR Ht Hf. unfold Subscribe_Execute, addSubscribe, steps_to. unfold bind. rewrite (read_sub a st) by done.
  cbn [pay_step]. destruct (ps_subs st !! _) as [am|] eqn:E; cbn [from_option].
  - destruct (Bytes_pos am) as (x & l & ->); [exact (pr_limits p admin _ _ HR _ _ E)|].
    exists (a_top a). by rewrite set_top_id.
  - rewrite abs_w_SetAccountData, Hctw. eexists. split; [reflexivity|]. cbn [snd]. unfold IsZero.
    destruct (su_Amount tx =? 0) eqn:Ez; bool_to_prop.
    + rewrite Ez. pose proof (rel_set_sub p Hp admin (a_top a) st (su_Topic tx) (su_From tx) (Bytes 0) None HR Ht Hf eq_refl ltac:(done)) as HR'.
      change (partial_alter (fun _ => None) ?k ?m) with (delete k m) in HR'. rewrite delete_id in HR' by done. by destruct st.
    + apply (rel_set_sub p Hp admin (a_top a) st (su_Topic tx) (su_From tx) _ (Some (Z.abs (su_Amount tx)))); try done.
      * cbn [from_option]. by rewrite Bytes_abs.
      * intros ? [= <-]. lia.
Qed.

(** Every handler is its step of the specification. *)
Lemma exec_step tx i a st : R (a_top a) st -> PaymentTx_ok tx ->
  steps_to (PaymentTx_Execute p ctw tx i) a (pay_step admin (a_TargetHeight a) tx i st).
Proof.
  intros HR Hok. destruct tx as [tx|tx|tx|tx|tx|tx|tx]; cbn [PaymentTx_Execute PaymentTx_ok] in *.
  - by apply exec_AddTopic.
  - unfold RemoveTopic_Execute, removeTopic, steps_to. rewrite abs_w_SetProcessData, Hctw. eexists. split; [reflexivity|].
    by apply (rel_set_topic p Hp admin (a_top a) st (rt_Topic tx) [] HR).
  - unfold RequestPayment_Execute, addRequestPayment, steps_to. unfold bind. cbn [op_TargetHeight abs_ops gets].
    rewrite abs_w_SetProcessData, Hctw. eexists. split; [reflexivity|].
    by apply (rel_set_request p Hp admin (a_top a) st _ (Marshal tx) (Some tx)).
  - by apply exec_Response.
  - destruct Hok. by apply exec_Subscribe.
  - destruct Hok as [Ht Hf]. unfold Unsubscribe_Execute, removeSubscribe, steps_to. rewrite abs_w_SetAccountData, Hctw.
    eexists. split; [reflexivity|]. by apply (rel_set_sub p Hp admin (a_top a) st (us_Topic tx) (us_From tx) [] None HR).
  - destruct Hok as [Ht Hf]. by apply abs_pay_from.
Qed.
End Abs.

(** ** Runs of transactions *)

Definition outcome (r : res unit) : error + unit := match r with Err e => inl e | _ => inr tt end.

Section Run.
Context {S : Type} `{!ContextOps S} (p : Payment) `{!Marshaler RequestPayment} (ctw : ContextWrapper).

(** Transactions with their indices, one after the other; an error of one does not stop the next. *)
Fixpoint run_payments (txs : list (PaymentTx * Z)) : ST S (list (error + unit)) :=
  match txs with
  | [] => ret []
  | (tx, index) :: txs =>
      let! r := attempt (PaymentTx_Execute p ctw tx index) in
      let! rs := run_payments txs in
      ret (r :: rs)
  end.
End Run.

Fixpoint pay_run (admin : Address) (height : Z) (txs : list (PaymentTx * Z)) (st : PayState) : list (error + unit) * PayState :=
  match txs with
  | [] => ([], st)
  | (tx, index) :: txs =>
      let '(r, st1) := pay_step admin height tx index st in
      let '(rs, st2) := pay_run admin height txs st1 in
      (outcome r :: rs, st2)
  end.

Lemma pay_from_no_panic st from to am w : fst (pay_from st from to am) <> Panic w.
Proof. unfold pay_from. by repeat destr_match. Qed.

Lemma pay_from_requests st from to am : ps_requests (snd (pay_from st from to am)) = ps_requests st.
Proof. unfold pay_from. by repeat destr_match. Qed.

Lemma pay_step_no_panic admin h tx i st w : fst (pay_step admin h tx i st) <> Panic w.
Proof.
  destruct tx as [tx|tx|tx|tx|tx|tx|tx]; cbn [pay_step]; try done; [|by destr_match|apply pay_from_no_panic].
  destruct (rs_IsAccept tx); [|done]. pose proof (pay_from_no_panic st (rs_From tx) admin (rs_Amount tx)) as H.
  destruct (pay_from _ _ _ _) as [[]?]; [done|done|]. apply H.
Qed.

Section Simulated.
Context `{B58 : Base58} (p : Payment) `{!Unmarshaler RequestPayment, !Marshaler RequestPayment} (ctw : ContextWrapper).

#[local] Hint Resolve sim_w_AccountData sim_w_SetAccountData sim_w_ProcessData sim_w_SetProcessData
  sim_AdminAddress sim_Balance sim_SubBalance sim_AddBalance : simulation.

Lemma sim_Payment_Execute tx i : simulates (PaymentTx_Execute p ctw tx i) (PaymentTx_Execute p ctw tx i).
Proof.
  destruct tx; cbn [PaymentTx_Execute]; unfold AddTopic_Execute, addTopic, RemoveTopic_Execute, removeTopic,
    RequestPayment_Execute, addRequestPayment, ResponsePayment_Execute, removeRequestPayment, Subscribe_Execute,
    addSubscribe, Unsubscribe_Execute, removeSubscribe, Billing_Execute; simulate.
Qed.

Lemma sim_run_payments txs : simulates (run_payments p ctw txs) (run_payments p ctw txs).
Proof. induction txs as [|[tx i] txs IH]; cbn [run_payments]; simulate. apply sim_Payment_Execute. Qed.

Lemma sim_Payment_Validate `{Sha256} tx signers : simulates (PaymentTx_Validate p ctw tx signers) (PaymentTx_Validate p ctw tx signers).
Proof.
  destruct tx; cbn [PaymentTx_Validate]; unfold AddTopic_Validate, RemoveTopic_Validate, RequestPayment_Validate,
    ResponsePayment_Validate, Subscribe_Validate, Unsubscribe_Validate, Billing_Validate, pay_require_admin,
    require_both_signers, GetTopicName, getSubscribe, getRequestPayment, require_fresh_seq, require_signers, require_account; simulate.
Qed.
End Simulated.

Section Refinement.
Context `{B58 : Base58} (p : Payment) (Hp : pids_apart p).
Context `{!Unmarshaler RequestPayment, !Marshaler RequestPayment, !RequestCoding}.
Context (admin : Address) (Hadmin : addr_sized admin) (ctw : ContextWrapper) (Hctw : cw_pid ctw = pay_pid p).

Lemma abs_run_payments txs : Forall (fun x => PaymentTx_ok (fst x)) txs -> forall (a : AbsCtx) st, pay_rel p admin (a_top a) st ->
  exists f, run_payments p ctw txs a = (Ok (fst (pay_run admin (a_TargetHeight a) txs st)), set_top a f) /\
    pay_rel p admin f (snd (pay_run admin (a_TargetHeight a) txs st)).
Proof.
  induction 1 as [|[tx i] txs Hok _ IH]; intros a st HR; cbn [run_payments pay_run].
  { exists (a_top a). by rewrite set_top_id. }
  destruct (exec_step p Hp admin Hadmin ctw Hctw tx i a st HR Hok) as (f & E & HR1).
  pose proof (pay_step_no_panic admin (a_TargetHeight a) tx i st) as Hnp.
  destruct (pay_step _ _ _ _ _) as [r st1]. cbn [fst snd] in *.
  destruct (IH (set_top a f) st1 HR1) as (f2 & E2 & HR2). cbn [set_top a_TargetHeight] in E2, HR2.
  destruct (pay_run _ _ _ _) as [rs st2]. cbn [fst snd] in *. exists f2. split; [|done].
  assert (Ea : attempt (PaymentTx_Execute p ctw tx i) a = (Ok (outcome r), set_top a f)).
  { destruct r as [[]|e|w]; [by apply attempt_ok | by apply attempt_err | by destruct (Hnp w)]. }
  rewrite (bind_ok _ _ _ _ _ Ea). by rewrite (bind_ok _ _ _ _ _ E2).
Qed.

(** The state of the process, as its data in the context says it. *)
Definition payments_are (ctx : Context_) (st : PayState) : Prop := pay_rel p admin (a_top (abs ctx)) st.

(** C21. The payment process implements its specification: where the data of a
    context is a state of topics, open requests, subscriptions and balances, any
    run of its transactions, of all seven kinds and with failures among them, gives
    the results of the specification and leaves data that is the specification's
    state. *)
Theorem payments_refine_maps (ctx : Context_) (st : PayState) (txs : list (PaymentTx * Z)) :
  ctx_ok ctx -> payments_are ctx st -> Forall (fun x => PaymentTx_ok (fst x)) txs ->
  let spec := pay_run admin (a_TargetHeight (abs ctx)) txs st in
  exists ctx', run_payments p ctw txs ctx = (Ok (fst spec), ctx') /\ ctx_ok ctx' /\ payments_are ctx' (snd spec).
Proof.
  intros Hc HR Hok. cbn zeta. destruct (abs_run_payments txs Hok (abs ctx) st HR) as (f & E & HR').
  destruct (sim_run _ _ _ _ _ (sim_run_payments p ctw txs) Hc E) as (ctx' & Ec & Hc' & Ha); [done|].
  exists ctx'. split; [done|]. split; [done|]. unfold payments_are. by rewrite Ha.
Qed.
End Refinement.

(** ** Validation *)

(** Validation reads. *)
Section ReadOnly.
Context `{B58 : Base58} (p : Payment) `{!Unmarshaler RequestPayment, !Marshaler RequestPayment} (ctw : ContextWrapper).
Abbreviation reads m := (keeps (@eq AbsCtx) m).

Lemma reads_guard b e : reads (guard b e).
Proof. by destruct b. Qed.
Lemma reads_pd pid k : reads (op_ProcessData pid k).
Proof. done. Qed.
Lemma reads_admin ad name : reads (AdminAddress ad name).
Proof. unfold AdminAddress. keep. Qed.
Lemma reads_account addr e : reads (require_account addr e).
Proof. unfold require_account. keep. apply reads_guard. Qed.
Lemma reads_signers from signers : reads (require_signers from signers).
Proof. unfold require_signers. keep. Qed.
Lemma reads_seq s from : reads (require_fresh_seq s from).
Proof. unfold require_fresh_seq. keep. apply reads_guard. Qed.
Lemma reads_topic t : reads (GetTopicName p t).
Proof. unfold GetTopicName. keep. Qed.
Lemma reads_request id : reads (getRequestPayment ctw id).
Proof. unfold getRequestPayment. keep. Qed.
Lemma reads_sub t a : reads (getSubscribe ctw t a).
Proof. unfold getSubscribe. keep. Qed.
End ReadOnly.

Create HintDb readonly.
#[export] Hint Resolve reads_guard reads_pd reads_admin reads_account reads_signers reads_seq reads_topic reads_request reads_sub : readonly.

(** The next step of a successful validation; the state stays the same. *)
Lemma read_ok_inv {A B} (m : absM A) (k : A -> absM B) a x a' : keeps eq m ->
  bind m k a = (Ok x, a') -> exists y, m a = (Ok y, a) /\ k y a = (Ok x, a').
Proof.
  intros Hr H. apply bind_ok_inv in H as (y & s & E & H). specialize (Hr a). rewrite E in Hr. cbn in Hr. subst s. eauto.
Qed.

Lemma guard_ok_inv {S} b e (s s' : S) : guard b e s = (Ok tt, s') -> b = true /\ s' = s.
Proof. destruct b; cbn; [intros [= <-]; done | done]. Qed.

Ltac peel H x E := apply read_ok_inv in H as (x & E & H); [|by eauto with readonly].

Section Answers.
Context `{B58 : Base58} (p : Payment) (Hp : pids_apart p).
Context `{!Unmarshaler RequestPayment, !Marshaler RequestPayment, !RequestCoding}.
Context (admin : Address) (Hadmin : addr_sized admin) (ctw : ContextWrapper) (Hctw : cw_pid ctw = pay_pid p).

(** What a response that validates answers. *)
Record answers (st : PayState) (tx : ResponsePayment) (req : RequestPayment) : Prop := {
  an_request : ps_requests st !! rs_TXID tx = Some req;
  an_admin : rq_From req = admin;
  an_to : rq_To req = rs_From tx;
  an_amount : rq_Amount req = rs_Amount tx;
  an_dust : tx_fee <= rs_Amount tx;
  an_paid : rs_IsAccept tx = true -> rs_Amount tx <= ps_bal st (rs_From tx)
}.

Lemma valid_response tx signers (a a' : AbsCtx) st : pay_rel p admin (a_top a) st -> addr_sized (rs_From tx) ->
  ResponsePayment_Validate p ctw tx signers a = (Ok tt, a') -> a' = a /\ exists req, answers st tx req.
Proof.
  intros HR Hf Hv. unfold ResponsePayment_Validate in Hv. rewrite dust_value in Hv. fold tx_fee in Hv.
  rewrite (bind_ok (lift (Ok tx_fee)) _ a tx_fee a eq_refl) in Hv.
  peel Hv u1 Hd. destruct u1. apply guard_ok_inv in Hd as [Hd _]. peel Hv u2 Hs. peel Hv ad Had.
  rewrite (abs_AdminAddress p admin Hadmin a st HR) in Had. injection Had as <-.
  peel Hv req Hreq. rewrite (read_request p admin ctw Hctw a st _ HR) in Hreq.
  destruct (ps_requests st !! rs_TXID tx) as [r|] eqn:Er; [injection Hreq as ->|done].
  peel Hv u3 H3. destruct u3. apply guard_ok_inv in H3 as [H3 _]. peel Hv u4 H4. destruct u4. apply guard_ok_inv in H4 as [H4 _].
  peel Hv u5 H5. destruct u5. apply guard_ok_inv in H5 as [H5 _]. peel Hv v6 H6. peel Hv v7 H7. peel Hv v8 H8.
  apply bool_decide_eq_true in H3, H4. apply Z.eqb_eq in H5. unfold Less in Hd. bool_to_prop.
  assert (Ha : a' = a /\ (rs_IsAccept tx = true -> rs_Amount tx <= ps_bal st (rs_From tx))).
  { destruct (rs_IsAccept tx); [|injection Hv as <-; done]. rewrite (bind_ok _ _ _ _ _ (abs_Balance _ (rs_From tx) a)) in Hv.
    apply guard_ok_inv in Hv as [Hv ->]. split; [done|]. intros _. unfold Less in Hv. bool_to_prop.
    destruct (pr_bal p admin _ _ HR _ Hf) as [E _]. lia. }
  destruct Ha as [-> Hpay]. split; [done|]. exists req. by split.
Qed.

(** An answered request stays away while no other takes its number. *)
Lemma request_stays_away h id txs : (forall tx i, (tx, i) ∈ txs -> TransactionID h i <> id) ->
  forall st, ps_requests st !! id = None -> ps_requests (snd (pay_run admin h txs st)) !! id = None.
Proof.
  induction txs as [|[tx i] txs IH]; intros Hne st Hst; cbn [pay_run]; [done|].
  specialize (IH (fun tx' i' Hin => Hne tx' i' (list_elem_of_further _ _ _ Hin))).
  pose proof (Hne tx i (list_elem_of_here _ _)) as Hi. specialize (IH (snd (pay_step admin h tx i st))).
  assert (Hstep : ps_requests (snd (pay_step admin h tx i st)) !! id = None).
  { destruct tx as [tx|tx|tx|tx|tx|tx|tx]; cbn [pay_step].
    - repeat destr_match; done.
    - done.
    - cbn. by rewrite lookup_insert_ne.
    - assert (Hq : ps_requests (snd (if rs_IsAccept tx then pay_from st (rs_From tx) admin (rs_Amount tx) else (Ok tt, st))) !! id = None)
        by (destruct (rs_IsAccept tx); [by rewrite pay_from_requests | done]).
      destruct (if rs_IsAccept tx then _ else _) as [[]?]; cbn in *; [|done..]. apply lookup_delete_None. by right.
    - repeat destr_match; done.
    - done.
    - by rewrite pay_from_requests. }
  specialize (IH Hstep). destruct (pay_step _ _ _ _ _) as [r st1]. cbn [snd] in *.
  destruct (pay_run _ _ _ _). done.
Qed.
End Answers.

Section Consequences.
Context `{B58 : Base58} (p : Payment) (Hp : pids_apart p).
Context `{!Unmarshaler RequestPayment, !Marshaler RequestPayment, !RequestCoding}.
Context (admin : Address) (Hadmin : addr_sized admin) (ctw : ContextWrapper) (Hctw : cw_pid ctw = pay_pid p).

Lemma sim_ok_inv {A} (m : ctxM A) ma ctx x ctx' : simulates m ma -> ctx_ok ctx -> m ctx = (Ok x, ctx') ->
  ctx_ok ctx' /\ ma (abs ctx) = (Ok x, abs ctx').
Proof. intros Hs Hc E. specialize (Hs ctx Hc). by rewrite E in Hs. Qed.

Lemma sim_Response_Validate tx signers :
  simulates (ResponsePayment_Validate p ctw tx signers) (ResponsePayment_Validate p ctw tx signers).
Proof. exact (sim_Payment_Validate (H := sha256_prefix) p ctw (PResponsePayment tx) signers). Qed.

(** What an answer does to one balance. *)
Definition answer_moves (tx : ResponsePayment) (req : RequestPayment) (a : Address) : Amount :=
  if rs_IsAccept tx then
    (if decide (a = admin) then rq_Amount req else 0) - (if decide (a = rq_To req) then rq_Amount req else 0)
  else 0.

Lemma answered st tx req h i : answers admin st tx req ->
  exists st', pay_step admin h (PResponsePayment tx) i st = (Ok tt, st') /\
    ps_requests st' !! rs_TXID tx = None /\ forall a, ps_bal st' a = ps_bal st a + answer_moves tx req a.
Proof.
  intros [Hr Had Hto Ham Hd Hpay]. cbn [pay_step]. unfold answer_moves. destruct (rs_IsAccept tx).
  - specialize (Hpay eq_refl). unfold pay_from, tx_fee in *. rewrite (proj2 (Z.ltb_ge _ _)) by lia.
    rewrite (proj2 (Z.ltb_ge _ _)) by lia. eexists. split; [reflexivity|]. split; [by apply lookup_delete_eq|].
    intros a. cbn. unfold upd. rewrite Hto, Ham.
    repeat case_decide; subst; try done; [replace (rq_From req) with (rs_From tx) by congruence|..]; lia.
  - eexists. split; [reflexivity|]. split; [by apply lookup_delete_eq|]. intros a. cbn. lia.
Qed.

(** No later response to an answered request validates. *)
Lemma no_second_answer ctx st id txs : ctx_ok ctx -> payments_are p admin ctx st -> ps_requests st !! id = None ->
  Forall (fun x => PaymentTx_ok (fst x)) txs -> (forall tx i, (tx, i) ∈ txs -> TransactionID (a_TargetHeight (abs ctx)) i <> id) ->
  exists rs ctx', run_payments p ctw txs ctx = (Ok rs, ctx') /\
    forall tx signers, rs_TXID tx = id -> addr_sized (rs_From tx) -> fst (ResponsePayment_Validate p ctw tx signers ctx') <> Ok tt.
Proof.
  intros Hc HR Hst Hok Hne. destruct (abs_run_payments p Hp admin Hadmin ctw Hctw txs Hok (abs ctx) st HR) as (f & E & HR').
  destruct (sim_run _ _ _ _ _ (sim_run_payments p ctw txs) Hc E) as (ctx' & Ec & Hc' & Ha); [done|].
  eexists _, ctx'. split; [exact Ec|]. intros tx signers Hid Hf Hv.
  destruct (ResponsePayment_Validate p ctw tx signers ctx') as [r c] eqn:Ev. cbn [fst] in Hv. subst r.
  apply (sim_ok_inv _ _ _ _ _ (sim_Response_Validate tx signers) Hc') in Ev as [_ Ev]. rewrite Ha in Ev.
  apply (valid_response p admin Hadmin ctw Hctw tx signers (set_top (abs ctx) f) _ _ HR' Hf) in Ev as [_ [req Hreq]].
  destruct Hreq as [Hreq _ _ _ _ _]. rewrite Hid, (request_stays_away admin _ _ _ Hne st Hst) in Hreq. done.
Qed.

(** C22. A payment request is answered once.  A response that validates executes;
    accepting moves exactly the requested amount from the account the request
    names to the administrator, refusing moves nothing, and no other balance
    changes; after any further transactions of the process, other than a new
    request under the same number, no response to the request validates again. *)
Theorem request_answered_once (ctx c1 : Context_) (st : PayState) (tx : ResponsePayment) (signers : list PublicHash) (index : Z) :
  ctx_ok ctx -> payments_are p admin ctx st -> addr_sized (rs_From tx) ->
  ResponsePayment_Validate p ctw tx signers ctx = (Ok tt, c1) ->
  exists req c2, ps_requests st !! rs_TXID tx = Some req /\
    ResponsePayment_Execute p ctw tx index c1 = (Ok tt, c2) /\
    (forall a, addr_sized a -> balance_of (pay_vault p) c2 a = balance_of (pay_vault p) ctx a + answer_moves tx req a) /\
    forall txs, Forall (fun x => PaymentTx_ok (fst x)) txs ->
      (forall tx' i, (tx', i) ∈ txs -> TransactionID (a_TargetHeight (abs c2)) i <> rs_TXID tx) ->
      exists rs c3, run_payments p ctw txs c2 = (Ok rs, c3) /\
        forall tx2 signers2, rs_TXID tx2 = rs_TXID tx -> addr_sized (rs_From tx2) ->
          fst (ResponsePayment_Validate p ctw tx2 signers2 c3) <> Ok tt.
Proof.
  intros Hc HR Hf Hv. apply (sim_ok_inv _ _ _ _ _ (sim_Response_Validate tx signers) Hc) in Hv as [Hc1 Hv].
  apply (valid_response p admin Hadmin ctw Hctw tx signers _ _ st HR Hf) in Hv as [Ha [req Hreq]].
  assert (HR1 : pay_rel p admin (a_top (abs c1)) st) by (by rewrite Ha).
  destruct (exec_step p Hp admin Hadmin ctw Hctw (PResponsePayment tx) index (abs c1) st HR1 Hf) as (f & E & HR2).
  destruct (answered st tx req (a_TargetHeight (abs c1)) index Hreq) as (st' & Es & Hgone & Hbal). rewrite Es in E, HR2.
  destruct (sim_run _ _ _ _ _ (sim_Payment_Execute p ctw (PResponsePayment tx) index) Hc1 E) as (c2 & Ec & Hc2 & Ha2); [done|].
  exists req, c2. split; [apply Hreq|]. split; [exact Ec|]. split.
  - intros a Hsz. change (balance_of (pay_vault p) c2 a) with (bal (pay_vault p) (a_top (abs c2)) a).
    change (balance_of (pay_vault p) ctx a) with (bal (pay_vault p) (a_top (abs ctx)) a).
    rewrite Ha2, (proj1 (pr_bal p admin _ _ HR a Hsz)). cbn [a_top set_top].
    rewrite (proj1 (pr_bal p admin _ _ HR2 a Hsz)). apply Hbal.
  - intros txs Hok Hne. apply (no_second_answer c2 st'); try done. unfold payments_are. by rewrite Ha2.
Qed.

Lemma reads_Subscribe tx signers : keeps (@eq AbsCtx) (Subscribe_Validate p tx signers).
Proof. unfold Subscribe_Validate, require_both_signers. keep; eauto with readonly. Qed.

(** A subscription without a limit cannot be used: over the amount zero, which
    validation lets through and billing treats as unlimited, the transaction
    validates and executes without error, and yet no bill for that topic and
    account validates afterwards. *)
Lemma unlimited_subscription_is_lost (ctx c1 : Context_) (st : PayState) (tx : Subscribe) (signers : list PublicHash) (index : Z) :
  ctx_ok ctx -> payments_are p admin ctx st -> PaymentTx_ok (PSubscribe tx) ->
  ps_subs st !! (su_Topic tx, su_From tx) = None -> su_Amount tx = 0 ->
  Subscribe_Validate p tx signers ctx = (Ok tt, c1) ->
  exists c2, Subscribe_Execute ctw tx index c1 = (Ok tt, c2) /\
    forall bill signers2, bi_Topic bill = su_Topic tx -> bi_To bill = su_From tx ->
      fst (Billing_Validate p ctw bill signers2 c2) <> Ok tt.
Proof.
  intros Hc HR [Ht Hf] Hst Ham Hv.
  apply (sim_ok_inv _ _ _ _ _ (sim_Payment_Validate (H := sha256_prefix) p ctw (PSubscribe tx) signers) Hc) in Hv as [Hc1 Hv].
  pose proof (reads_Subscribe tx signers (abs ctx)) as Ha. cbn [PaymentTx_Validate] in Hv. rewrite Hv in Ha. cbn [snd] in Ha.
  assert (HR1 : pay_rel p admin (a_top (abs c1)) st) by (by rewrite <- Ha).
  destruct (exec_step p Hp admin Hadmin ctw Hctw (PSubscribe tx) index (abs c1) st HR1 (conj Ht Hf)) as (f & E & HR2).
  cbn [pay_step] in E, HR2. rewrite Hst, Ham in E, HR2. cbn in E, HR2.
  destruct (sim_run _ _ _ _ _ (sim_Payment_Execute p ctw (PSubscribe tx) index) Hc1 E) as (c2 & Ec & Hc2 & Ha2); [done|].
  exists c2. split; [exact Ec|]. intros bill signers2 Eb1 Eb2 Hb.
  destruct (Billing_Validate p ctw bill signers2 c2) as [r c] eqn:Ev. cbn [fst] in Hb. subst r.
  apply (sim_ok_inv _ _ _ _ _ (sim_Payment_Validate (H := sha256_prefix) p ctw (PBilling bill) signers2) Hc2) in Ev as [_ Ev].
  cbn [PaymentTx_Validate] in Ev. unfold Billing_Validate, pay_require_admin in Ev.
  apply bind_ok_inv in Ev as (v0 & s0 & E0 & Ev).
  assert (s0 = abs c2) as ->.
  { assert (Hk : keeps (@eq AbsCtx) (pay_require_admin p (bi_From bill))) by (unfold pay_require_admin; keep; eauto with readonly).
    specialize (Hk (abs c2)). unfold pay_require_admin in Hk. rewrite E0 in Hk. by cbn in Hk. }
  peel Ev v1 E1. peel Ev v2 E2. peel Ev v3 E3. peel Ev v4 E4. peel Ev v5 E5.
  unfold getSubscribe in E5. rewrite Eb1, Eb2, Ha2 in E5.
  rewrite (bind_ok _ _ _ _ _ (read_sub p admin ctw Hctw (set_top (abs c1) f) st _ _ HR2 Ht Hf)), Hst in E5. done.
Qed.
End Consequences.

(** ** An application with payments *)

Definition request_tuple (r : RequestPayment) :=
  (rq_Timestamp r, rq_Seq r, rq_From r, rq_Topic r, rq_To r, rq_Amount r, rq_Content r).

#[export] Instance RequestPayment_eq : EqDecision RequestPayment.
Proof. solve_decision. Defined.

#[export] Instance RequestPayment_countable : Countable RequestPayment.
Proof.
  refine (inj_countable' request_tuple (fun '(a, b, c, d, e, f, g) => mkRequestPayment a b c d e f g) _). by intros [].
Defined.

(** A coding of requests, through a numbering of them. *)
Definition request_bytes : Marshaler RequestPayment := fun r => 1 :: Bytes (Zpos (encode r)).
Definition bytes_request : Unmarshaler RequestPayment := fun bs =>
  match bs with
  | _ :: l => match decode (Z.to_pos (NewAmountFromBytes l)) with Some r => Ok r | None => Err (mkError "msgpack" "invalid") end
  | [] => Err (mkError "msgpack" "invalid")
  end.

Lemma request_coding : @RequestCoding bytes_request request_bytes.
Proof.
  split; [done|]. intros r. unfold Unmarshal, Marshal, bytes_request, request_bytes.
  rewrite FromBytes_Bytes. change (Z.to_pos (Z.abs (Zpos (encode r)))) with (encode r). by rewrite decode_encode.
Qed.

Definition ex_payment : Payment := NewPayment 5 ex_vault (NewAdmin 1).
Definition pay_ctw : ContextWrapper := NewContextWrapper 5.
Definition pay_key (n : Z) : PublicHash := replicate 31 n.
Definition pay_addr (n : Z) : Address := NewAddress 0 n 0.
Definition pay_account (n : Z) : Account := ASingle (mkSingle (pay_addr n) (str "acc" ++ [48 + n]) (pay_key n)).
Definition ex_admin : Address := pay_addr 1.
Definition ex_payer : Address := pay_addr 2.

Lemma fst_ok {S A} (r : res A * S) x : fst r = Ok x -> r = (Ok x, snd r).
Proof. destruct r. by intros [= ->]. Qed.

Section Example.
#[local] Existing Instance base58_plain.
#[local] Existing Instance request_bytes.
#[local] Existing Instance bytes_request.
#[local] Existing Instance request_coding.

Definition pay_setup {S} `{!ContextOps S} : ST S unit :=
  op_CreateAccount (pay_account 1) ;;; op_CreateAccount (pay_account 2) ;;;
  InitAdmin (NewAdmin 1) pay_ctw [(payment_Name, ex_admin)] ;;;
  AddBalance ex_vault pay_ctw ex_payer (MulC COIN 10).

Definition pay_ctx : Context_ := snd (pay_setup NewEmptyContext).

Lemma pay_setup_sim : simulates pay_setup pay_setup.
Proof.
  unfold pay_setup. do 2 (apply sim_bind; [by apply sim_CreateAccount|intros ?]). apply sim_bind; [|intros; apply sim_AddBalance].
  unfold InitAdmin. apply sim_for_each. intros [name addr]. apply sim_w_SetProcessData.
Qed.

Lemma pay_ctx_ok : ctx_ok pay_ctx.
Proof. eapply sim_ok; [apply pay_setup_sim | apply NewEmptyContext_ok | by vm_compute]. Qed.

Lemma ex_pids : pids_apart ex_payment.
Proof. by split. Qed.

(** The data of a frame with nothing but the administrator's address. *)
Lemma rel_start f : f_ad f = (fun _ => []) -> f_pd f = (fun _ => []) ->
  pay_rel ex_payment ex_admin (put_pd f (admin_key ex_payment) ex_admin) (mkPayState ∅ ∅ ∅ (fun _ => 0)).
Proof.
  intros Ha Hd. split.
  - intros t Ht. rewrite put_pd_read, decide_False, Hd; [done|]. intros E. by apply (admin_topic_key _ ex_pids t).
  - apply map_Forall_empty.
  - intros id. rewrite put_pd_read, decide_False, Hd; [done|]. intros E. by apply (admin_request_key _ ex_pids id).
  - intros t a _ _. cbn. by rewrite Ha.
  - apply map_Forall_empty.
  - intros a _. unfold bal. cbn. by rewrite Ha.
  - rewrite put_pd_read. by rewrite decide_True.
Qed.

Definition same_data (a a' : AbsCtx) : Prop := f_ad (a_top a') = f_ad (a_top a) /\ f_pd (a_top a') = f_pd (a_top a).
#[local] Instance same_data_pre : PreOrder same_data.
Proof. split; [done|]. intros a b c [H1 H2] [H3 H4]. split; congruence. Qed.

Lemma create_same_data acc : keeps same_data (op_CreateAccount acc).
Proof.
  cbn [op_CreateAccount abs_ops]. unfold abs_CreateAccount, must_not_exist, attempt. keep.
  all: try (intros s; repeat (unfold guard; destr_match); done).
  all: intros s; simpl; by repeat destr_match.
Qed.

Definition pay_st : PayState := mkPayState ∅ ∅ ∅ (upd (fun _ => 0) ex_payer (MulC COIN 10)).

Lemma abs_InitAdmin (s : AbsCtx) : InitAdmin (NewAdmin 1) pay_ctw [(payment_Name, ex_admin)] s =
  (Ok tt, set_top s (put_pd (a_top s) (admin_key ex_payment) ex_admin)).
Proof. unfold InitAdmin. cbn [for_each]. unfold bind. by rewrite abs_w_SetProcessData. Qed.

Lemma pay_ctx_rel : payments_are ex_payment ex_admin pay_ctx pay_st.
Proof.
  assert (E : pay_setup NewEmptyContext = (Ok tt, pay_ctx)).
  { apply (fst_ok (pay_setup NewEmptyContext) tt). by vm_compute. }
  apply (sim_ok_inv _ _ _ _ _ pay_setup_sim NewEmptyContext_ok) in E as [_ E]. unfold pay_setup in E.
  apply bind_ok_inv in E as (v1 & s1 & E1 & E). apply bind_ok_inv in E as (v2 & s2 & E2 & E).
  pose proof (create_same_data (pay_account 1) (abs NewEmptyContext)) as [H1 H2]. rewrite E1 in H1, H2. cbn [snd] in H1, H2.
  pose proof (create_same_data (pay_account 2) s1) as [H3 H4]. rewrite E2 in H3, H4. cbn [snd] in H3, H4.
  assert (HR : pay_rel ex_payment ex_admin (put_pd (a_top s2) (admin_key ex_payment) ex_admin) (mkPayState ∅ ∅ ∅ (fun _ => 0)))
    by (apply rel_start; [by rewrite H3, H1 | by rewrite H4, H2]).
  rewrite (bind_ok _ _ _ _ _ (abs_InitAdmin s2)) in E.
  rewrite abs_AddBalance in E. change (MulC COIN 10 <? 0) with false in E. apply (f_equal snd) in E. cbn [snd] in E. unfold payments_are. rewrite <- E.
  apply (rel_set_bal ex_payment ex_pids ex_admin _ _ ex_payer (0 + MulC COIN 10)) in HR; [|done|done].
  cbn [a_top set_top].
  match goal with |- pay_rel _ _ (set_bal ?v ?f ?x ?am) _ => replace am with (0 + MulC COIN 10) end; [exact HR|].
  f_equal. unfold bal. cbn. by rewrite H3, H1.
Qed.

(** A topic, a request of three coins, and a subscription that has no limit. *)
Definition topic_txs : list (PaymentTx * Z) :=
  [(PAddTopic (mkAddTopic 1 1 ex_admin 7 (str "coffee")), 1);
   (PRequestPayment (mkRequestPayment 1 1 ex_admin 7 ex_payer (MulC COIN 3) (str "beans")), 2)].
Definition topic_st : PayState := snd (pay_run ex_admin 0 topic_txs pay_st).
Definition topic_ctx : Context_ := snd (run_payments ex_payment pay_ctw topic_txs pay_ctx).
Definition ex_response : ResponsePayment := mkResponsePayment 2 1 ex_payer (TransactionID 0 2) (MulC COIN 3) true.
Definition ex_subscribe : Subscribe := mkSubscribe 2 1 ex_payer 7 0.

Lemma topic_txs_ok : Forall (fun x => PaymentTx_ok (fst x)) topic_txs.
Proof. repeat constructor; done. Qed.

Lemma topic_ctx_rel : ctx_ok topic_ctx /\ payments_are ex_payment ex_admin topic_ctx topic_st.
Proof.
  destruct (abs_run_payments ex_payment ex_pids ex_admin eq_refl pay_ctw eq_refl topic_txs topic_txs_ok (abs pay_ctx) pay_st pay_ctx_rel)
    as (f & E & HR).
  destruct (sim_run _ _ _ _ _ (sim_run_payments ex_payment pay_ctw topic_txs) pay_ctx_ok E) as (ctx' & Ec & Hc & Ha); [done|].
  unfold topic_ctx. rewrite Ec. split; [done|]. unfold payments_are. cbn [snd]. rewrite Ha. exact HR.
Qed.

Lemma payments_refine_maps_witness :
  let spec := pay_run ex_admin 0 topic_txs pay_st in
  exists ctx', run_payments ex_payment pay_ctw topic_txs pay_ctx = (Ok (fst spec), ctx') /\ ctx_ok ctx' /\
    payments_are ex_payment ex_admin ctx' (snd spec).
Proof.
  exact (payments_refine_maps ex_payment ex_pids ex_admin eq_refl pay_ctw eq_refl pay_ctx pay_st topic_txs pay_ctx_ok pay_ctx_rel topic_txs_ok).
Defined.

Lemma request_answered_once_witness :
  let c1 := snd (ResponsePayment_Validate ex_payment pay_ctw ex_response [pay_key 2] topic_ctx) in
  exists req c2, ps_requests topic_st !! rs_TXID ex_response = Some req /\
    ResponsePayment_Execute ex_payment pay_ctw ex_response 3 c1 = (Ok tt, c2) /\
    balance_of ex_vault c2 ex_admin = MulC COIN 3.
Proof.
  destruct topic_ctx_rel as [Hc HR].
  destruct (request_answered_once ex_payment ex_pids ex_admin eq_refl pay_ctw eq_refl topic_ctx
    (snd (ResponsePayment_Validate ex_payment pay_ctw ex_response [pay_key 2] topic_ctx)) topic_st ex_response [pay_key 2] 3 Hc HR eq_refl)
    as (req & c2 & Hreq & E & Hb & _).
  { apply fst_ok. by vm_compute. }
  exists req, c2. split; [done|]. split; [done|]. specialize (Hb ex_admin eq_refl).
  change (pay_vault ex_payment) with ex_vault in Hb. rewrite Hb. vm_compute in Hreq. injection Hreq as <-. by vm_compute.
Defined.

Lemma unlimited_subscription_is_lost_witness :
  let c1 := snd (Subscribe_Validate ex_payment ex_subscribe [pay_key 1; pay_key 2] topic_ctx) in
  exists c2, Subscribe_Execute pay_ctw ex_subscribe 3 c1 = (Ok tt, c2) /\
    forall bill signers2, bi_Topic bill = 7 -> bi_To bill = ex_payer ->
      fst (Billing_Validate ex_payment pay_ctw bill signers2 c2) <> Ok tt.
Proof.
  destruct topic_ctx_rel as [Hc HR].
  apply (unlimited_subscription_is_lost ex_payment ex_pids ex_admin eq_refl pay_ctw eq_refl topic_ctx
    (snd (Subscribe_Validate ex_payment ex_subscribe [pay_key 1; pay_key 2] topic_ctx)) topic_st ex_subscribe [pay_key 1; pay_key 2] 3 Hc HR);
    [done | by vm_compute | done |].
  apply fst_ok. by vm_compute.
Defined.
End Example.
