(* ===== verification/Gateway.v ===== *)
(** * The gateway process

    [process/gateway]: tokens that come in from and go out to an ERC20 chain.
    The administrator's account holds what is outside; [TokenIn] pays it out once
    per transaction of the other chain, [TokenOut] pays into it against a fee,
    [TokenLeave] records that an outgoing transaction was served.  What the
    handlers do is proved in [GatewaySpec]. *)

From stdpp Require Import base gmap list strings.
From Stdlib Require Import ZArith.
From S2P Require Import Prelude Amount Common Types Context ContextSpec Vault.

(** ** Data *)

Record Gateway := NewGateway { gate_pid : Z; gate_vault : Vault; gate_admin : Admin }.
Definition gateway_Name : bytes := str "fleta.gateway".

Definition gate_err (m : string) : error := mkError "gateway" m.
Definition ErrInvalidERC20AddressFormat := gate_err "invalid erc20 address format".
Definition gate_ErrInvalidPolicy := gate_err "invalid policy".
Definition ErrInvalidAddressCount := gate_err "invalid address count".
Definition ErrProcessedERC20TXID := gate_err "processed erc20 txid".
Definition ErrProcessedOutTXID := gate_err "processed out txid".
Definition gate_ErrPolicyShouldBeSetupInApplication := gate_err "policy should be setup in application".

Definition tagERC20TXID : bytes := [1; 0].
Definition tagOutTXID : bytes := [1; 1].
Definition gate_tagPolicy : bytes := [2; 0].
Definition toERC20TXIDKey (h : Hash256) : bytes := tagERC20TXID ++ copy_into Hash256Size h.
Definition toOutTXIDKey (TXID : bytes) : bytes := tagOutTXID ++ TXID.

(** *** [erc20_address.go] *)

Definition ERC20AddressSize : nat := 20.

Definition ERC20_String (addr : bytes) : bytes := str "0x" ++ hex_EncodeToString addr.

Definition ParseERC20Address (s : bytes) : res bytes :=
  if negb (bool_decide (take 2 s = str "0x")) then Err ErrInvalidERC20AddressFormat
  else if negb (length s =? ERC20AddressSize * 2 + 2)%nat then Err ErrInvalidERC20AddressFormat
  else
    let? bs := hex_DecodeString (drop 2 s) in
    if negb (length bs =? ERC20AddressSize)%nat then Err ErrInvalidERC20AddressFormat
    else Ok (copy_into ERC20AddressSize bs).

Definition MustParseERC20Address (s : bytes) : res bytes :=
  match ParseERC20Address s with
  | Err _ => Panic "MustParseERC20Address"
  | r => r
  end.

Definition ERC20_MarshalJSON (addr : bytes) : bytes := [34] ++ ERC20_String addr ++ [34].

(** [bs[1 : len(bs)-1]]; the bytes are at least three. *)
Definition ERC20_UnmarshalJSON (bs : bytes) : res bytes :=
  if (length bs <? 3)%nat then Err ErrInvalidERC20AddressFormat
  else if negb (bool_decide (head bs = Some 34)) || negb (bool_decide (last bs = Some 34)) then Err ErrInvalidERC20AddressFormat
  else
    let? v := ParseERC20Address (take (length bs - 2) (drop 1 bs)) in
    Ok (copy_into ERC20AddressSize v).

(** *** Transactions *)

Record GatewayPolicy := mkGatewayPolicy { WithdrawFee : Amount }.
Record TokenIn := mkTokenIn { ti_Timestamp : Z; ti_Seq : Z; ti_From : Address; ti_ERC20TXID : Hash256; ti_ERC20From : bytes;
  ti_ToAddresses : list Address; ti_Amounts : list Amount }.
Record TokenOut := mkTokenOut { to_Timestamp : Z; to_Seq : Z; to_From : Address; to_ERC20To : bytes; to_Amount : Amount }.
Record TokenLeave := mkTokenLeave { tl_Timestamp : Z; tl_Seq : Z; tl_From : Address; tl_CoinTXID : bytes; tl_CoinFrom : Address;
  tl_ERC20TXID : Hash256; tl_ERC20To : bytes; tl_Amount : Amount }.
Record GatewayUpdatePolicy := mkGatewayUpdatePolicy { gu_Timestamp : Z; gu_Seq : Z; gu_From : Address; gu_Policy : option GatewayPolicy }.

(** The transactions the process registers, in the order of their numbers. *)
Inductive GatewayTx :=
  | GTokenIn (tx : TokenIn)
  | GTokenOut (tx : TokenOut)
  | GTokenLeave (tx : TokenLeave)
  | GUpdatePolicy (tx : GatewayUpdatePolicy).

Section Handlers.
Context {S : Type} `{!ContextOps S} (p : Gateway).

(** ** [gateway_method.go] *)

Definition HasERC20TXID (ERC20TXID : Hash256) : ST S bool :=
  let! bs := op_ProcessData (gate_pid p) (toERC20TXIDKey ERC20TXID) in
  ret (negb (is_empty bs)).

Definition setERC20TXID (ctw : ContextWrapper) (ERC20TXID : Hash256) : ST S unit :=
  w_SetProcessData ctw (toERC20TXIDKey ERC20TXID) [1].

Definition HasOutTXID (CoinTXID : bytes) : ST S bool :=
  let! bs := op_ProcessData (gate_pid p) (toOutTXIDKey CoinTXID) in
  ret (negb (is_empty bs)).

Definition setOutTXID (ctw : ContextWrapper) (CoinTXID : bytes) : ST S unit :=
  w_SetProcessData ctw (toOutTXIDKey CoinTXID) [1].

(** ** Transactions *)

Definition gate_require_admin (from : Address) : ST S unit :=
  let! addr := AdminAddress (gate_admin p) gateway_Name in
  guard (bool_decide (from = addr)) ErrUnauthorizedTransaction.

Definition TokenIn_Validate (tx : TokenIn) (signers : list PublicHash) : ST S unit :=
  gate_require_admin (ti_From tx) ;;;
  guard (length (ti_Amounts tx) =? length (ti_ToAddresses tx))%nat ErrInvalidAddressCount ;;;
  for_each (ti_Amounts tx) (fun am =>
    let! d := lift dust in
    guard (negb (Less am d)) ErrDustAmount) ;;;
  require_fresh_seq (ti_Seq tx) (ti_From tx) ;;;
  let! done_ := HasERC20TXID (ti_ERC20TXID tx) in
  guard (negb done_) ErrProcessedERC20TXID ;;;
  for_each (ti_ToAddresses tx) (fun To => require_account To ErrNotExistAccount) ;;;
  require_signers (ti_From tx) signers.

(** The loop of [TokenIn.Execute] from index [i]; an index out of range panics. *)
Fixpoint token_in_loop (ctw : ContextWrapper) (from : Address) (tos : list Address) (i : nat) (ams : list Amount) : ST S unit :=
  match ams with
  | [] => ret tt
  | am :: ams =>
      SubBalance (gate_vault p) ctw from am ;;;
      match tos !! i with
      | Some To => AddBalance (gate_vault p) ctw To am
      | None => throw "index out of range"
      end ;;;
      token_in_loop ctw from tos (1 + i)%nat ams
  end.

Definition TokenIn_Execute (ctw : ContextWrapper) (tx : TokenIn) (index : Z) : ST S unit :=
  token_in_loop ctw (ti_From tx) (ti_ToAddresses tx) 0 (ti_Amounts tx) ;;;
  setERC20TXID ctw (ti_ERC20TXID tx).

Definition TokenLeave_Validate (tx : TokenLeave) (signers : list PublicHash) : ST S unit :=
  gate_require_admin (tl_From tx) ;;;
  let! d := lift dust in
  guard (negb (Less (tl_Amount tx) d)) ErrDustAmount ;;;
  require_fresh_seq (tl_Seq tx) (tl_From tx) ;;;
  let! done_ := HasOutTXID (tl_CoinTXID tx) in
  guard (negb done_) ErrProcessedOutTXID ;;;
  require_signers (tl_From tx) signers.

Definition TokenLeave_Execute (ctw : ContextWrapper) (tx : TokenLeave) (index : Z) : ST S unit :=
  setOutTXID ctw (tl_CoinTXID tx).

Section WithPolicy.
Context `{!Unmarshaler GatewayPolicy, !Marshaler (option GatewayPolicy)}.

Definition gate_read_policy (ctw : ContextWrapper) : ST S GatewayPolicy :=
  let! bs := w_ProcessData ctw gate_tagPolicy in
  lift (Unmarshal bs).

Definition TokenOut_Validate (ctw : ContextWrapper) (tx : TokenOut) (signers : list PublicHash) : ST S unit :=
  let! d := lift dust in
  guard (negb (Less (to_Amount tx) d)) ErrDustAmount ;;;
  require_fresh_seq (to_Seq tx) (to_From tx) ;;;
  let! adminAddr := AdminAddress (gate_admin p) gateway_Name in
  require_account adminAddr ErrNotExistAccount ;;;
  require_signers (to_From tx) signers ;;;
  let! policy := gate_read_policy ctw in
  CheckFeePayableWith (gate_vault p) (fee_tx (to_From tx)) (Some (Add (to_Amount tx) (WithdrawFee policy))).

(** What [TokenOut] does once its fee is taken. *)
Definition token_out_body (ctw : ContextWrapper) (tx : TokenOut) : ST S unit :=
  let! policy := gate_read_policy ctw in
  SubBalance (gate_vault p) ctw (to_From tx) (WithdrawFee policy) ;;;
  SubBalance (gate_vault p) ctw (to_From tx) (to_Amount tx) ;;;
  let! adminAddr := AdminAddress (gate_admin p) gateway_Name in
  AddBalance (gate_vault p) ctw adminAddr (WithdrawFee policy) ;;;
  AddBalance (gate_vault p) ctw adminAddr (to_Amount tx).

Definition TokenOut_Execute (ctw : ContextWrapper) (tx : TokenOut) (index : Z) : ST S unit :=
  WithFee (gate_vault p) ctw (fee_tx (to_From tx)) (token_out_body ctw tx).

Definition GatewayUpdatePolicy_Validate (tx : GatewayUpdatePolicy) (signers : list PublicHash) : ST S unit :=
  gate_require_admin (gu_From tx) ;;;
  match gu_Policy tx with None => fail gate_ErrInvalidPolicy | Some _ => ret tt end ;;;
  require_fresh_seq (gu_Seq tx) (gu_From tx) ;;;
  require_signers (gu_From tx) signers.

Definition GatewayUpdatePolicy_Execute (ctw : ContextWrapper) (tx : GatewayUpdatePolicy) (index : Z) : ST S unit :=
  w_SetProcessData ctw gate_tagPolicy (Marshal (gu_Policy tx)).

Definition gate_InitPolicy (ctw : ContextWrapper) (policy : GatewayPolicy) : ST S unit :=
  let ctw := SwitchContextWrapper (gate_pid p) ctw in
  w_SetProcessData ctw gate_tagPolicy (Marshal (Some policy)).

Definition gateway_OnLoadChain (lw : ContextWrapper) : ST S unit :=
  let! _ := AdminAddress (gate_admin p) gateway_Name in
  let! bs := w_ProcessData lw gate_tagPolicy in
  match bs with [] => fail gate_ErrPolicyShouldBeSetupInApplication | _ => ret tt end.

Definition GatewayTx_Validate (ctw : ContextWrapper) (tx : GatewayTx) (signers : list PublicHash) : ST S unit :=
  match tx with
  | GTokenIn tx => TokenIn_Validate tx signers
  | GTokenOut tx => TokenOut_Validate ctw tx signers
  | GTokenLeave tx => TokenLeave_Validate tx signers
  | GUpdatePolicy tx => GatewayUpdatePolicy_Validate tx signers
  end.

Definition GatewayTx_Execute (ctw : ContextWrapper) (tx : GatewayTx) (index : Z) : ST S unit :=
  match tx with
  | GTokenIn tx => TokenIn_Execute ctw tx index
  | GTokenOut tx => TokenOut_Execute ctw tx index
  | GTokenLeave tx => TokenLeave_Execute ctw tx index
  | GUpdatePolicy tx => GatewayUpdatePolicy_Execute ctw tx index
  end.

(** Transactions with their indices, one after the other. *)
Fixpoint run_gateway (ctw : ContextWrapper) (txs : list (GatewayTx * Z)) : ST S (list (error + unit)) :=
  match txs with
  | [] => ret []
  | (tx, index) :: txs =>
      let! r := attempt (GatewayTx_Execute ctw tx index) in
      let! rs := run_gateway ctw txs in
      ret (r :: rs)
  end.
End WithPolicy.
End Handlers.
