(* ===== verification/GatewaySpec.v ===== *)
(** * The gateway pays once

    Process data that a handler never writes stays as it is through every
    transaction of the gateway, with its fee, snapshot, commit and revert.  So a
    transaction of the other chain, once marked as processed, is never paid again;
    what [TokenIn] and [TokenOut] do to the balances is computed exactly. *)

From stdpp Require Import base gmap list strings.
From Stdlib Require Import ZArith Lia.
From S2P Require Import Prelude Amount Common Types Context ContextSpec ContextFacts Vault VaultSpec Chain ChainSpec VaultProcess Registry PaymentSpec Gateway.

(** ** Data that stays *)

(** The frame shows [v] under [k] and has not removed it. *)
Definition stuck (k v : bytes) (f : Frame) : Prop := f_pd f k = v /\ f_clear_pd f k = false.

Section Sticky.
Context `{B58 : Base58} (K : list (bytes * bytes)).
Definition all_stuck (f : Frame) : Prop := Forall (fun '(k, v) => stuck k v f) K.

(** The computation ends without panic, keeps the levels below and the data of [K]. *)
Definition secure {A} (m : absM A) : Prop := forall a, safe a -> all_stuck (a_top a) ->
  exists r a', m a = (r, a') /\ (forall w, r <> Panic w) /\ same_below a a' /\ safe a' /\ all_stuck (a_top a').

Lemma secure_bind {A B} (m : absM A) (k : A -> absM B) : secure m -> (forall x, secure (k x)) -> secure (bind m k).
Proof.
  intros Hm Hk a Ha Hs. destruct (Hm a Ha Hs) as (r & a1 & E & Hp & Hb & Ha1 & Hs1). destruct r as [x|e|w]; [| |by destruct (Hp w)].
  - destruct (Hk x a1 Ha1 Hs1) as (r2 & a2 & E2 & Hp2 & Hb2 & Ha2 & Hs2). exists r2, a2. rewrite (bind_ok _ _ _ _ _ E).
    split_and!; try done. by eapply same_below_trans.
  - exists (Err e), a1. rewrite (bind_err _ _ _ _ _ E). by split_and!.
Qed.

Lemma secure_attempt {A} (m : absM A) : secure m -> secure (attempt m).
Proof.
  intros Hm a Ha Hs. destruct (Hm a Ha Hs) as (r & a1 & E & Hp & Hr). unfold attempt. rewrite E.
  destruct r as [x|e|w]; [| |by destruct (Hp w)]; eexists _, a1; (split; [reflexivity|]); by split.
Qed.

Lemma secure_read {A} (m : absM A) (f : AbsCtx -> res A) : (forall a, m a = (f a, a)) ->
  (forall a w, safe a -> all_stuck (a_top a) -> f a <> Panic w) -> secure m.
Proof. intros Em Hf a Ha Hs. exists (f a), a. split_and!; eauto. apply same_below_refl. Qed.

Lemma secure_ret {A} (x : A) : secure (ret x).
Proof. by apply (secure_read _ (fun _ => Ok x)). Qed.

Lemma secure_fail {A} e : secure (fail (A := A) e).
Proof. by apply (secure_read _ (fun _ => Err e)). Qed.

Lemma secure_lift {A} (r : res A) : (forall w, r <> Panic w) -> secure (lift r).
Proof. intros Hr. apply (secure_read _ (fun _ => r)); [done|]. intros. apply Hr. Qed.

Lemma secure_frame g : (forall f, frame_safe f -> frame_safe (g f)) -> (forall f, all_stuck f -> all_stuck (g f)) -> secure (on_frame g).
Proof.
  intros Hg Hk a (Hb & Ht & Hbs) Hs. exists (Ok tt), (set_top a (g (a_top a))).
  split; [done|]. split; [done|]. split; [done|]. split; [|by apply Hk]. split_and!; [done|by apply Hg|done].
Qed.

Lemma secure_SetAccountData addr pid name v : secure (op_SetAccountData addr pid name v).
Proof. apply secure_frame; [by intros f []|]. intros f Hs. exact Hs. Qed.

(** Data of [K] may be written with what it is. *)
Lemma secure_SetProcessData pid name v : (forall w, (process_data_key pid name, w) ∈ K -> v = w /\ v <> []) ->
  secure (op_SetProcessData pid name v).
Proof.
  intros Hn. apply secure_frame; [by intros f []|]. intros f Hs. unfold all_stuck in *. apply Forall_forall. intros [k w] Hin.
  rewrite Forall_forall in Hs. destruct (Hs _ Hin) as [H1 H2]. split; cbn; unfold upd; (case_decide as E; [|done]); subst k.
  - by apply Hn.
  - destruct (Hn w Hin) as [_ Hv]. by destruct v.
Qed.

Lemma stuck_commit f b : all_stuck f -> all_stuck b -> all_stuck (frame_commit f b).
Proof.
  unfold all_stuck. rewrite !Forall_forall. intros Hf Hb [k v] Hin. destruct (Hf _ Hin) as [H1 H2], (Hb _ Hin) as [H3 H4].
  split; cbn; rewrite H4; [done|]. by rewrite H2.
Qed.

Lemma stuck_snapshot f : all_stuck f -> all_stuck (frame_snapshot f).
Proof. unfold all_stuck. rewrite !Forall_forall. intros Hf [k v] Hin. by destruct (Hf _ Hin). Qed.

(** A body between a snapshot and its commit or revert. *)
Lemma secure_snapshot (fn : absM unit) : secure fn -> secure (
  let! sn := op_Snapshot in
  let! r := attempt fn in
  match r with inl err => op_Revert sn ;;; fail err | inr _ => op_Commit sn end).
Proof.
  intros Hf a Ha Hst. pose proof Ha as (Hb & Ht & Hbs). rewrite (bind_ok _ _ _ _ _ (abs_Snapshot_spec a)). fold (snapshot_of a).
  destruct (Hf _ (snapshot_safe a Ha) (stuck_snapshot _ Hst)) as (r & s & E & Hp & Hs & Hsafe & Hst'). destruct r as [[]|e|w].
  - rewrite (bind_ok _ _ _ _ _ (attempt_ok _ _ _ _ E)). cbn [op_Commit abs_ops]. rewrite abs_Commit_back by done.
    eexists _, _. split; [reflexivity|]. split; [done|]. split; [done|]. split; [by apply committed_safe|]. by apply stuck_commit.
  - rewrite (bind_ok _ _ _ _ _ (attempt_err _ _ _ _ E)). rewrite (bind_ok _ _ _ _ _ (abs_Revert_back a s Hb Hs)).
    eexists _, a. split; [reflexivity|]. split; [done|]. split; [apply same_below_refl|]. done.
  - by destruct (Hp w).
Qed.
End Sticky.

(** ** The handlers of the gateway *)

(** The stored policy decodes; what is not a policy is an error. *)
Class PolicyCoding `{!Unmarshaler GatewayPolicy, !Marshaler (option GatewayPolicy)} : Prop := {
  pc_inv : forall pc : GatewayPolicy, Unmarshal (Marshal (Some pc)) = Ok pc;
  pc_total : forall bs w, Unmarshal (A := GatewayPolicy) bs <> Panic w
}.

Record gate_pids_apart (p : Gateway) : Prop := {
  gp_bytes : byte_ok (gate_pid p) /\ byte_ok (vault_pid (gate_vault p)) /\ byte_ok (admin_pid (gate_admin p));
  gp_vault : gate_pid p <> vault_pid (gate_vault p);
  gp_admin : gate_pid p <> admin_pid (gate_admin p);
  gp_apart : vault_pid (gate_vault p) <> admin_pid (gate_admin p)
}.

(** As many amounts as addresses, which validation checks. *)
Definition GatewayTx_ok (tx : GatewayTx) : Prop :=
  match tx with GTokenIn tx => length (ti_Amounts tx) = length (ti_ToAddresses tx) | _ => True end.

Section Handlers.
Context `{B58 : Base58} (p : Gateway) (Hp : gate_pids_apart p).
Context `{!Unmarshaler GatewayPolicy, !Marshaler (option GatewayPolicy), !PolicyCoding}.
Context (admin : Address) (Hadmin : addr_sized admin) (ctw : ContextWrapper) (Hctw : cw_pid ctw = gate_pid p).

Definition gate_admin_key : bytes := process_data_key (admin_pid (gate_admin p)) (toAdminAddressKey gateway_Name).
Definition in_key (id : Hash256) : bytes := process_data_key (gate_pid p) (toERC20TXIDKey id).
Definition out_key (id : bytes) : bytes := process_data_key (gate_pid p) (toOutTXIDKey id).
Definition policy_key : bytes := process_data_key (gate_pid p) gate_tagPolicy.

(** The administrator's address and marks of processed transactions. *)
Definition marks (ids : list Hash256) (outs : list bytes) : list (bytes * bytes) :=
  (gate_admin_key, admin) :: ((fun id => (in_key id, [1])) <$> ids) ++ ((fun id => (out_key id, [1])) <$> outs).

Section Marked.
Context (ids : list Hash256) (outs : list bytes).
Abbreviation K := (marks ids outs).

Lemma marks_inv k w : (k, w) ∈ K -> (k = gate_admin_key /\ w = admin) \/ (w = [1] /\ exists n, k = process_data_key (gate_pid p) n /\ take 1 n = [1]).
Proof.
  unfold marks. rewrite elem_of_cons, elem_of_app, !list_elem_of_fmap. intros [[= -> ->]|[(id & [= -> ->] & _)|(id & [= -> ->] & _)]].
  - by left.
  - right. split; [done|]. by eexists.
  - right. split; [done|]. by eexists.
Qed.

Lemma not_marked pid n v : (forall w, (process_data_key pid n, w) ∈ K -> False) -> secure K (op_SetProcessData pid n v).
Proof. intros Hn. apply secure_SetProcessData. intros w Hw. by destruct (Hn w). Qed.

Lemma fee_not_marked w : (process_data_key (vault_pid (gate_vault p)) tagCollectedFee, w) ∈ K -> False.
Proof.
  destruct Hp as [(H1 & H2 & H3) Hv Ha Hva]. intros [[E _]|(_ & n & E & _)]%marks_inv; apply rune_string_inj in E as [E _]; done.
Qed.

Lemma policy_not_marked w : (process_data_key (gate_pid p) gate_tagPolicy, w) ∈ K -> False.
Proof.
  destruct Hp as [(H1 & H2 & H3) Hv Ha Hva]. intros [[E _]|(_ & n & E & Hn)]%marks_inv; apply rune_string_inj in E as [E1 E2]; try done.
  by subst n.
Qed.

(** A mark may be set again. *)
Lemma secure_mark n : take 1 n = [1] -> secure K (w_SetProcessData ctw n [1]).
Proof.
  intros Hn. unfold w_SetProcessData. rewrite Hctw. apply secure_SetProcessData. intros w [[E _]|(-> & _)]%marks_inv; [|done].
  destruct Hp as [(H1 & H2 & H3) Hv Ha Hva]. apply rune_string_inj in E as [E _]; done.
Qed.

Lemma secure_SubBalance c addr am : secure K (SubBalance (gate_vault p) c addr am).
Proof.
  unfold SubBalance, RemoveBalance, Balance. apply secure_bind; [apply (secure_read _ _ (fun a => Ok (bal (gate_vault p) (a_top a) addr))); done|].
  intros sum. destr_match; [apply secure_fail|]. destr_match; apply secure_SetAccountData.
Qed.

Lemma secure_AddBalance c addr am : secure K (AddBalance (gate_vault p) c addr am).
Proof.
  unfold AddBalance. destr_match; [apply secure_fail|].
  apply secure_bind; [apply (secure_read _ _ (fun a => Ok (bal (gate_vault p) (a_top a) addr))); done|].
  intros b. apply secure_SetAccountData.
Qed.

Lemma admin_stuck a : all_stuck K (a_top a) -> AdminAddress (gate_admin p) gateway_Name a = (Ok admin, a).
Proof.
  intros Hs. unfold all_stuck, marks in Hs. apply Forall_cons in Hs as [[E _] _]. unfold AdminAddress.
  rewrite (bind_ok (op_ProcessData _ _) _ a admin a) by (cbn [op_ProcessData abs_ops gets]; by rewrite <- E).
  unfold addr_sized in Hadmin. destruct admin as [|x l] eqn:El; [done|]. unfold ret. by rewrite copy_into_id.
Qed.

Lemma secure_admin : secure K (AdminAddress (gate_admin p) gateway_Name).
Proof. intros a Ha Hs. exists (Ok admin), a. rewrite admin_stuck by done. split_and!; try done. apply same_below_refl. Qed.

Lemma secure_policy : secure K (gate_read_policy ctw).
Proof.
  unfold gate_read_policy. apply secure_bind; [|intros bs; apply secure_lift, pc_total].
  by apply (secure_read _ _ (fun a => Ok (f_pd (a_top a) (process_data_key (cw_pid ctw) gate_tagPolicy)))).
Qed.

Lemma secure_WithFee from fn : secure K fn -> secure K (WithFee (gate_vault p) ctw (fee_tx from) fn).
Proof.
  intros Hf. unfold WithFee, fee_tx. cbn [ft_From ft_Fee]. apply secure_bind; [by apply secure_lift|]. intros fee.
  apply secure_bind; [|intros _; apply secure_bind; [|intros cf; apply secure_bind; [|intros _; by apply secure_snapshot]]].
  - apply secure_SubBalance.
  - by apply (secure_read _ _ (fun a => Ok (fees (gate_vault p) (a_top a)))).
  - unfold w_SetProcessData. rewrite Switch_pid. apply not_marked. exact fee_not_marked.
Qed.

Lemma secure_token_in_loop from tos ams i : (i + length ams <= length tos)%nat -> secure K (token_in_loop p ctw from tos i ams).
Proof.
  revert i. induction ams as [|am ams IH]; intros i Hi; cbn [token_in_loop]; [apply secure_ret|]. simpl in Hi.
  apply secure_bind; [apply secure_SubBalance|intros _]. apply secure_bind; [|intros _; apply IH; lia].
  destruct (tos !! i) eqn:E; [apply secure_AddBalance|]. apply lookup_ge_None in E. lia.
Qed.

Lemma secure_Execute tx i : GatewayTx_ok tx -> secure K (GatewayTx_Execute p ctw tx i).
Proof.
  destruct tx as [tx|tx|tx|tx]; cbn [GatewayTx_ok GatewayTx_Execute]; intros Hok.
  - apply secure_bind; [apply secure_token_in_loop; lia|intros _]. by apply secure_mark.
  - apply secure_WithFee. unfold token_out_body. apply secure_bind; [apply secure_policy|intros pc].
    do 2 (apply secure_bind; [apply secure_SubBalance|intros _]). apply secure_bind; [apply secure_admin|intros ad].
    apply secure_bind; [apply secure_AddBalance|intros _]. apply secure_AddBalance.
  - by apply secure_mark.
  - unfold GatewayUpdatePolicy_Execute, w_SetProcessData. rewrite Hctw. apply not_marked. exact policy_not_marked.
Qed.

Lemma secure_run txs : Forall (fun x => GatewayTx_ok (fst x)) txs -> secure K (run_gateway p ctw txs).
Proof.
  induction 1 as [|[tx i] txs Hok _ IH]; cbn [run_gateway]; [apply secure_ret|].
  apply secure_bind; [by apply secure_attempt, secure_Execute|intros r]. apply secure_bind; [done|intros rs]. apply secure_ret.
Qed.
End Marked.

(** ** What comes in *)

Definition total (ams : list Amount) : Amount := fold_right Z.add 0 ams.

(** What the payments of a list give to one account. *)
Definition received (x : Address) (l : list (Address * Amount)) : Amount :=
  total ((fun '(To, am) => if decide (x = To) then am else 0) <$> l).

Abbreviation v := (gate_vault p).

Lemma abs_token_in_loop from tos : forall ams i (a : AbsCtx), (i + length ams <= length tos)%nat ->
  Forall (fun am => 0 <= am) ams -> total ams <= bal v (a_top a) from -> Forall (fun x => 0 <= bal v (a_top a) x) (from :: tos) ->
  exists f, token_in_loop p ctw from tos i ams a = (Ok tt, set_top a f) /\ f_pd f = f_pd (a_top a) /\ f_clear_pd f = f_clear_pd (a_top a) /\
    forall x, bal v f x = bal v (a_top a) x + received x (zip (drop i tos) ams) - (if decide (x = from) then total ams else 0).
Proof.
  induction ams as [|am ams IH]; intros i a Hi Hpos Hsum Hnn; cbn [token_in_loop].
  { exists (a_top a). rewrite set_top_id. split_and!; [done..|]. intros x. rewrite zip_with_nil_r. unfold received, total. cbn. destr_match; lia. }
  apply Forall_cons in Hpos as [Ham Hpos]. apply Forall_cons in Hnn as [Hfrom Hnn]. simpl in Hi.
  assert (Htot : 0 <= total ams) by (clear -Hpos; induction Hpos; cbn; [done|unfold total in *; lia]).
  change (total (am :: ams)) with (am + total ams) in *.
  destruct (lookup_lt_is_Some_2 tos i ltac:(lia)) as [To ETo].
  assert (HTo : 0 <= bal v (a_top a) To) by (rewrite Forall_forall in Hnn; by apply Hnn, (list_elem_of_lookup_2 _ i)).
  rewrite (bind_ok _ _ a tt (set_top a (set_bal v (a_top a) from (bal v (a_top a) from - am))))
    by (rewrite abs_SubBalance, (proj2 (Z.ltb_ge _ _)) by lia; done).
  rewrite ETo. set (f1 := set_bal v (a_top a) from (bal v (a_top a) from - am)).
  assert (Hf1 : forall x, bal v f1 x = bal v (a_top a) x - if decide (x = from) then am else 0).
  { intros x. unfold f1. rewrite bal_set_bal. case_decide; subst; lia. }
  rewrite (bind_ok _ _ (set_top a f1) tt (set_top a (set_bal v f1 To (bal v f1 To + am))))
    by (rewrite abs_AddBalance, (proj2 (Z.ltb_ge _ _)) by lia; done).
  set (f2 := set_bal v f1 To (bal v f1 To + am)).
  assert (Hf2 : forall x, bal v f2 x = bal v (a_top a) x - (if decide (x = from) then am else 0) + if decide (x = To) then am else 0).
  { intros x. unfold f2. rewrite bal_set_bal, !Hf1. repeat case_decide; subst; try done; lia. }
  destruct (IH (1 + i)%nat (set_top a f2)) as (f & E & E1 & E2 & Hb); [lia|done| | |].
  - cbn [a_top set_top]. rewrite Hf2. repeat case_decide; try done; lia.
  - cbn [a_top set_top]. apply Forall_forall. intros x Hx. rewrite Hf2.
    assert (0 <= bal v (a_top a) x) by (apply elem_of_cons in Hx as [->|Hx]; [done|]; rewrite Forall_forall in Hnn; by apply Hnn).
    repeat case_decide; subst; try done; lia.
  - exists f. split; [exact E|]. split; [done|]. split; [done|]. intros x. rewrite Hb. cbn [a_top set_top Nat.add]. rewrite Hf2.
    rewrite (drop_S tos To i ETo). cbn [zip_with]. unfold received. rewrite fmap_cons. change (total (?z :: ?l)) with (z + total l).
    repeat case_decide; try done; lia.
Qed.

#[local] Hint Resolve sim_w_AccountData sim_w_SetAccountData sim_w_ProcessData sim_w_SetProcessData
  sim_AdminAddress sim_Balance sim_SubBalance sim_AddBalance sim_WithFee : simulation.

Lemma sim_TokenIn_Validate tx signers : simulates (TokenIn_Validate p tx signers) (TokenIn_Validate p tx signers).
Proof.
  unfold TokenIn_Validate, gate_require_admin, HasERC20TXID, require_fresh_seq, require_account, require_signers. simulate.
Qed.

Lemma sim_token_in_loop from tos ams i : simulates (token_in_loop p ctw from tos i ams) (token_in_loop p ctw from tos i ams).
Proof. revert i. induction ams; intros i; cbn [token_in_loop]; simulate. Qed.

Lemma sim_TokenIn_Execute tx i : simulates (TokenIn_Execute p ctw tx i) (TokenIn_Execute p ctw tx i).
Proof. unfold TokenIn_Execute, setERC20TXID. simulate. apply sim_token_in_loop. Qed.

Lemma sim_TokenOut_Execute tx i : simulates (TokenOut_Execute p ctw tx i) (TokenOut_Execute p ctw tx i).
Proof. unfold TokenOut_Execute. apply sim_WithFee. unfold token_out_body, gate_read_policy. simulate. Qed.

Lemma sim_run_gateway txs : simulates (run_gateway p ctw txs) (run_gateway p ctw txs).
Proof.
  induction txs as [|[tx i] txs IH]; cbn [run_gateway]; simulate. destruct tx; cbn [GatewayTx_Execute].
  - apply sim_TokenIn_Execute.
  - apply sim_TokenOut_Execute.
  - unfold TokenLeave_Execute, setOutTXID. simulate.
  - unfold GatewayUpdatePolicy_Execute. simulate.
Qed.

(** The data of a context has the administrator's address and the marks. *)
Definition gate_marked (ids : list Hash256) (outs : list bytes) (ctx : Context_) : Prop := all_stuck (marks ids outs) (a_top (abs ctx)).

(** A run collects the errors of its transactions; it has none itself. *)
Lemma run_no_error txs (a a' : AbsCtx) e : run_gateway p ctw txs a <> (Err e, a').
Proof.
  revert a a'. induction txs as [|[tx i] txs IH]; intros a a'; cbn [run_gateway]; [done|]. unfold bind, attempt.
  destruct (GatewayTx_Execute p ctw tx i a) as [[x|e1|w] a1]; [| |done];
    (destruct (run_gateway p ctw txs a1) as [[rs|e2|w] a2] eqn:E; [done| |done]; intros [= -> ->]; by destruct (IH a1 a')).
Qed.

Lemma run_keeps_marks ids outs txs ctx : ctx_ok ctx -> gate_marked ids outs ctx -> Forall (fun x => GatewayTx_ok (fst x)) txs ->
  exists rs ctx', run_gateway p ctw txs ctx = (Ok rs, ctx') /\ ctx_ok ctx' /\ gate_marked ids outs ctx'.
Proof.
  intros Hc Hm Hok. destruct (secure_run ids outs txs Hok (abs ctx) (abs_safe ctx Hc) Hm) as (r & a' & E & Hnp & _ & _ & Hs).
  destruct (sim_run _ _ _ _ _ (sim_run_gateway txs) Hc E Hnp) as (ctx' & Ec & Hc' & Ha).
  assert (Hr : exists rs, r = Ok rs).
  { destruct r as [rs|e|w]; [by eexists| |by destruct (Hnp w)]. by apply run_no_error in E. }
  destruct Hr as [rs ->]. exists rs, ctx'. split_and!; try done. unfold gate_marked. by rewrite Ha.
Qed.

Lemma dust_checked ams (s s' : AbsCtx) :
  for_each ams (fun am => let! d := lift dust in guard (negb (Less am d)) ErrDustAmount) s = (Ok tt, s') ->
  s' = s /\ Forall (fun am => tx_fee <= am) ams.
Proof.
  rewrite dust_value. fold tx_fee. revert s. induction ams as [|am ams IH]; intros s; cbn [for_each]; [by intros [= <-]|].
  intros H0. apply bind_ok_inv in H0 as ([] & s1 & H1 & H0). rewrite (bind_ok (lift (Ok tx_fee)) _ s tx_fee s eq_refl) in H1.
  apply guard_ok_inv in H1 as [H1 ->]. unfold Less in H1. bool_to_prop. destruct (IH _ H0) as [-> ?]. by repeat constructor.
Qed.

(** What a [TokenIn] that validates has shown. *)
Lemma valid_token_in ids outs tx signers (a a' : AbsCtx) : all_stuck (marks ids outs) (a_top a) ->
  TokenIn_Validate p tx signers a = (Ok tt, a') ->
  a' = a /\ ti_From tx = admin /\ length (ti_Amounts tx) = length (ti_ToAddresses tx) /\
  Forall (fun am => tx_fee <= am) (ti_Amounts tx) /\ f_pd (a_top a) (in_key (ti_ERC20TXID tx)) = [].
Proof.
  intros Hs Hv. unfold TokenIn_Validate in Hv.
  apply read_ok_inv in Hv as (v1 & E1 & Hv); [|unfold gate_require_admin; keep; eauto with readonly].
  unfold gate_require_admin in E1. rewrite (bind_ok _ _ _ _ _ (admin_stuck ids outs a Hs)) in E1. destruct v1.
  apply guard_ok_inv in E1 as [E1 _]. apply bool_decide_eq_true in E1.
  apply read_ok_inv in Hv as (v2 & E2 & Hv); [|eauto with readonly]. destruct v2. apply guard_ok_inv in E2 as [E2 _]. apply Nat.eqb_eq in E2.
  apply bind_ok_inv in Hv as ([] & s3 & E3 & Hv). apply dust_checked in E3 as [-> Hd].
  apply read_ok_inv in Hv as (v4 & E4 & Hv); [|eauto with readonly].
  apply read_ok_inv in Hv as (v5 & E5 & Hv); [|unfold HasERC20TXID; keep; eauto with readonly]. 
  assert (v5 = negb (is_empty (f_pd (a_top a) (in_key (ti_ERC20TXID tx))))) as -> by (by injection E5).
  apply read_ok_inv in Hv as (v6 & E6 & Hv); [|eauto with readonly]. destruct v6. apply guard_ok_inv in E6 as [E6 _].
  assert (Hr : keeps (@eq AbsCtx) (for_each (ti_ToAddresses tx) (fun To => require_account To ErrNotExistAccount) ;;; require_signers (ti_From tx) signers)).
  { apply along_bind; [apply _| |intros; apply reads_signers]. generalize (ti_ToAddresses tx). induction l; cbn [for_each]; [done|].
    apply along_bind; [apply _|apply reads_account|done]. }
  specialize (Hr a). rewrite Hv in Hr. cbn [snd] in Hr. split_and!; try done.
  by destruct (f_pd (a_top a) (in_key _)).
Qed.

(** C23. A transaction of the other chain is paid out once.  A [TokenIn] that
    validates and whose amounts the administrator's balance covers executes: every
    address receives its amounts, the administrator pays their sum, no other
    balance changes; and whatever transactions of the gateway follow, none with the
    same identifier validates again. *)
Theorem tokens_come_in_once (ctx c1 : Context_) (tx : TokenIn) (signers : list PublicHash) (index : Z) :
  ctx_ok ctx -> gate_marked [] [] ctx -> TokenIn_Validate p tx signers ctx = (Ok tt, c1) ->
  Forall (fun x => 0 <= balance_of v ctx x) (ti_From tx :: ti_ToAddresses tx) ->
  total (ti_Amounts tx) <= balance_of v ctx (ti_From tx) ->
  exists c2, TokenIn_Execute p ctw tx index c1 = (Ok tt, c2) /\
    (forall x, balance_of v c2 x = balance_of v ctx x + received x (zip (ti_ToAddresses tx) (ti_Amounts tx)) -
       (if decide (x = admin) then total (ti_Amounts tx) else 0)) /\
    forall txs, Forall (fun x => GatewayTx_ok (fst x)) txs ->
      exists rs c3, run_gateway p ctw txs c2 = (Ok rs, c3) /\
        forall tx2 signers2, ti_ERC20TXID tx2 = ti_ERC20TXID tx -> fst (TokenIn_Validate p tx2 signers2 c3) <> Ok tt.
Proof.
  intros Hc Hm Hv Hnn Hsum. apply (sim_ok_inv _ _ _ _ _ (sim_TokenIn_Validate tx signers) Hc) in Hv as [Hc1 Hv].
  apply (valid_token_in [] [] tx signers _ _ Hm) in Hv as (Ha & Hf & Hl & Hd & _).
  destruct (abs_token_in_loop (ti_From tx) (ti_ToAddresses tx) (ti_Amounts tx) 0 (abs c1)) as (f & E & Epd & Ecl & Hb);
    [lia|eapply Forall_impl; [exact Hd|]; intros ? H0; unfold tx_fee in H0; lia|by rewrite Ha|by rewrite Ha|].
  assert (Ex : TokenIn_Execute p ctw tx index (abs c1) = (Ok tt, set_top (abs c1) (put_pd f (in_key (ti_ERC20TXID tx)) [1]))).
  { unfold TokenIn_Execute. rewrite (bind_ok _ _ _ _ _ E). unfold setERC20TXID. rewrite abs_w_SetProcessData, Hctw. done. }
  destruct (sim_run _ _ _ _ _ (sim_TokenIn_Execute tx index) Hc1 Ex) as (c2 & Ec & Hc2 & Ha2); [done|].
  exists c2. split; [exact Ec|]. split.
  - intros x. change (balance_of v c2 x) with (bal v (a_top (abs c2)) x). rewrite Ha2. rewrite Ha in Hb. cbn [drop] in Hb. rewrite <- Hf. apply Hb.
  - intros txs Hok. assert (Hm2 : gate_marked [ti_ERC20TXID tx] [] c2).
    { unfold gate_marked, marks, all_stuck. rewrite Ha2. cbn [a_top set_top fmap list_fmap app]. apply Forall_cons. split; [|apply Forall_singleton].
      - apply Forall_cons in Hm as [[E1 E2] _]. rewrite <- Ha in E1, E2. destruct Hp as [(H1 & H2 & H3) Hpv Hpa Hva].
        assert (Hne : gate_admin_key <> in_key (ti_ERC20TXID tx)) by (intros E0; apply rune_string_inj in E0 as [E0 _]; done).
        split; cbn; unfold upd; rewrite decide_False by done; [by rewrite Epd | by rewrite Ecl].
      - split; cbn; unfold upd; by rewrite decide_True. }
    destruct (run_keeps_marks _ _ txs c2 Hc2 Hm2 Hok) as (rs & c3 & Er & Hc3 & Hm3). exists rs, c3. split; [exact Er|].
    intros tx2 signers2 Hid Hv2. destruct (TokenIn_Validate p tx2 signers2 c3) as [r c] eqn:Ev. cbn [fst] in Hv2. subst r.
    apply (sim_ok_inv _ _ _ _ _ (sim_TokenIn_Validate tx2 signers2) Hc3) in Ev as [_ Ev].
    apply (valid_token_in _ _ tx2 signers2 _ _ Hm3) in Ev as (_ & _ & _ & _ & Hempty). rewrite Hid in Hempty.
    apply Forall_cons in Hm3 as [_ Hm3]. apply Forall_cons in Hm3 as [[E1 _] _]. congruence.
Qed.

(** ** What goes out *)

Section Out.
Context (from : Address) (wf am : Amount).

(** The frame after the four balance operations of [token_out_body]. *)
Definition paid_out (f : Frame) : Frame :=
  let f1 := set_bal v f from (bal v f from - wf) in
  let f2 := set_bal v f1 from (bal v f1 from - am) in
  let f3 := set_bal v f2 admin (bal v f2 admin + wf) in
  set_bal v f3 admin (bal v f3 admin + am).

Lemma bal_paid_out f x : from <> admin -> 0 <= wf -> 0 <= am -> wf + am <= bal v f from -> 0 <= bal v f admin ->
  bal v (paid_out f) x =
    if decide (x = from) then bal v f from - wf - am else if decide (x = admin) then bal v f admin + wf + am else bal v f x.
Proof.
  intros Hne Hw Ham Hf Had. unfold paid_out. rewrite !bal_set_bal.
  repeat (case_decide; subst; try done); lia.
Qed.

Lemma abs_token_out_body tx pc (a : AbsCtx) : to_From tx = from -> to_Amount tx = am -> WithdrawFee pc = wf ->
  from <> admin -> all_stuck (marks [] []) (a_top a) -> Unmarshal (f_pd (a_top a) policy_key) = Ok pc ->
  0 <= wf -> 0 <= am -> wf + am <= bal v (a_top a) from ->
  token_out_body p ctw tx a = (Ok tt, set_top a (paid_out (a_top a))).
Proof.
  intros Ef Eam Ewf Hne Hs Hpc Hw Ham Hb. unfold token_out_body, gate_read_policy, w_ProcessData. rewrite Hctw, Ef, Eam.
  rewrite (bind_ok _ _ a pc a) by (exact (f_equal (fun r => (r, a)) Hpc)). rewrite Ewf.
  set (f := a_top a) in *. set (f1 := set_bal v f from (bal v f from - wf)).
  rewrite (bind_ok _ _ a tt (set_top a f1)) by (rewrite abs_SubBalance, (proj2 (Z.ltb_ge _ _)) by (fold f; lia); done).
  assert (Hf1 : bal v f1 from = bal v f from - wf).
  { unfold f1. rewrite bal_set_bal, decide_True by done. lia. }
  set (f2 := set_bal v f1 from (bal v f1 from - am)).
  rewrite (bind_ok _ _ (set_top a f1) tt (set_top a f2)) by (rewrite abs_SubBalance, (proj2 (Z.ltb_ge _ _)) by (cbn [a_top set_top]; lia); done).
  rewrite (bind_ok _ _ _ _ _ (admin_stuck [] [] (set_top a f2) Hs)).
  rewrite (bind_ok _ _ (set_top a f2) tt (set_top a (set_bal v f2 admin (bal v f2 admin + wf))))
    by (rewrite abs_AddBalance, (proj2 (Z.ltb_ge _ _)) by lia; done).
  rewrite abs_AddBalance, (proj2 (Z.ltb_ge _ _)) by lia. done.
Qed.
End Out.

(** A [TokenOut] that its sender can pay takes the amount, the fee of the
    policy and the transaction fee from the sender; the first two go to the
    administrator, the last to the collected fees, and no other balance changes.
    The administrator's balance must not have been emptied in the layer it runs
    on. *)
Lemma tokens_go_out (ctx : Context_) (tx : TokenOut) (pc : GatewayPolicy) (index : Z) :
  ctx_ok ctx -> gate_marked [] [] ctx -> Unmarshal (seen_pd ctx (gate_pid p) gate_tagPolicy) = Ok pc ->
  0 <= WithdrawFee pc -> 0 <= to_Amount tx -> to_From tx <> admin ->
  tx_fee + WithdrawFee pc + to_Amount tx <= balance_of v ctx (to_From tx) ->
  0 <= balance_of v ctx admin -> 0 <= fees_of v ctx -> emptied v ctx admin = false ->
  exists ctx', TokenOut_Execute p ctw tx index ctx = (Ok tt, ctx') /\ ctx_ok ctx' /\
    (forall x, balance_of v ctx' x =
       if decide (x = to_From tx) then balance_of v ctx x - tx_fee - WithdrawFee pc - to_Amount tx
       else if decide (x = admin) then balance_of v ctx x + WithdrawFee pc + to_Amount tx
       else balance_of v ctx x) /\
    fees_of v ctx' = fees_of v ctx + tx_fee.
Proof.
  intros Hc Hm Hpc Hw Ham Hne Hb Had Hfee Hem. pose proof (abs_safe ctx Hc) as (Hbelow & _ & _).
  set (from := to_From tx) in *. set (a := abs ctx) in *. set (a1 := after_fee v a from tx_fee).
  change (balance_of v ctx) with (bal v (a_top a)) in *. change (fees_of v ctx) with (fees v (a_top a)) in *.
  assert (H1 : forall x, bal v (a_top a1) x = if decide (x = from) then bal v (a_top a) from - tx_fee else bal v (a_top a) x)
    by (intros x; apply bal_after_fee; lia).
  set (s := snapshot_of a1). set (f := paid_out from (WithdrawFee pc) (to_Amount tx) (a_top s)).
  assert (Hbody : token_out_body p ctw tx s = (Ok tt, set_top s f)).
  { apply (abs_token_out_body from (WithdrawFee pc) (to_Amount tx) tx pc s); try done.
    - apply stuck_snapshot. unfold all_stuck, marks. apply Forall_singleton. apply Forall_cons in Hm as [[E1 E2] _]. fold a in E1, E2.
      assert (Hk : gate_admin_key <> fee_key v) by (destruct Hp as [(? & ? & ?) ? ? ?]; intros E0; apply rune_string_inj in E0 as [E0 _]; done).
      split; cbn; unfold upd; by rewrite decide_False.
    - assert (Hk : policy_key <> fee_key v) by (destruct Hp as [(? & ? & ?) ? ? ?]; intros E0; apply rune_string_inj in E0 as [E0 _]; done).
      cbn. unfold upd. rewrite decide_False by done. exact Hpc.
    - change (bal v (a_top s) from) with (bal v (a_top a1) from). rewrite H1, decide_True by done. lia. }
  assert (E : TokenOut_Execute p ctw tx index a = (Ok tt, set_top a (frame_commit f (a_top a1)))).
  { unfold TokenOut_Execute, fee_tx. rewrite dust_value. fold tx_fee from. exact (WithFee_ok v ctw from tx_fee _ a (set_top s f) Hbelow ltac:(lia) Hbody eq_refl). }
  destruct (sim_run _ _ _ _ _ (sim_TokenOut_Execute tx index) Hc E) as (ctx' & Ec & Hc' & Ha); [done|].
  exists ctx'. split; [exact Ec|]. split; [done|]. unfold tx_fee in *. split.
  - intros x. change (balance_of v ctx' x) with (bal v (a_top (abs ctx')) x). rewrite Ha. cbn [a_top set_top].
    rewrite bal_commit. unfold a1. rewrite clear_after_fee. fold a1. unfold f.
    rewrite bal_paid_out; try done; change (bal v (a_top s)) with (bal v (a_top a1)); rewrite ?H1;
      [|rewrite decide_True by done; lia|rewrite decide_False by done; lia].
    rewrite (decide_True (P := from = from)) by done. rewrite (decide_False (P := admin = from)) by done.
    destruct (decide (x = from)) as [->|Hx].
    + rewrite decide_True by done. destr_match; [bool_to_prop; unfold tx_fee in *; lia|]. unfold tx_fee. lia.
    + rewrite decide_False by (by intros ?%balance_key_inj). destruct (f_clear_ad (a_top a) (balance_key v x)) eqn:Ecl.
      * destruct (decide (x = admin)) as [->|]; [unfold emptied, cleared_ad in Hem; fold a in Hem; fold (balance_key v admin) in Hem; congruence|].
        symmetry. unfold bal. by rewrite (abs_cleared_ad ctx (balance_key v x) Ecl : f_ad (a_top a) _ = []).
      * destruct (decide (x = admin)) as [->|]; lia.
  - change (fees_of v ctx') with (fees v (a_top (abs ctx'))). rewrite Ha. cbn [a_top set_top]. rewrite fees_commit.
    assert (Hcl : f_clear_pd (a_top a1) (fee_key v) = false).
    { cbn. unfold upd. rewrite decide_True by done. rewrite is_empty_Bytes. apply Z.eqb_neq. rewrite fees_set_bal. change (frame_of _ _) with (a_top a). lia. }
    rewrite Hcl. change (fees v f) with (fees v (a_top a1)). apply fees_after_fee. lia.
Qed.
End Handlers.

(** An address of the other chain reads back from its text. *)
Lemma ParseERC20Address_String addr : length addr = ERC20AddressSize -> bytes_ok addr ->
  ParseERC20Address (ERC20_String addr) = Ok addr.
Proof.
  intros Hl Hb. unfold ParseERC20Address, ERC20_String. change (take 2 (str "0x" ++ ?l)) with (str "0x"). rewrite bool_decide_true by done.
  rewrite length_app, hex_length, Hl. cbn [negb str]. change (drop 2 (str "0x" ++ ?l)) with l.
  change (drop 2 (str "0x" ++ hex_EncodeToString addr)) with (hex_EncodeToString addr). rewrite hex_roundtrip by done. cbn [res_bind].
  rewrite Hl, Nat.eqb_refl. cbn [negb]. by rewrite copy_into_id.
Qed.

(** ** An application with the gateway *)

Definition gate_policy_bytes : Marshaler (option GatewayPolicy) := fun o =>
  match o with Some pc => (if WithdrawFee pc <? 0 then 2 else 1) :: Bytes (WithdrawFee pc) | None => [0] end.
Definition gate_bytes_policy : Unmarshaler GatewayPolicy := fun bs =>
  match bs with
  | 1 :: r => Ok (mkGatewayPolicy (NewAmountFromBytes r))
  | 2 :: r => Ok (mkGatewayPolicy (- NewAmountFromBytes r))
  | _ => Err (mkError "msgpack" "invalid")
  end.

Lemma gate_policy_coding : @PolicyCoding gate_bytes_policy gate_policy_bytes.
Proof.
  split.
  - intros [wf]. unfold Unmarshal, Marshal, gate_bytes_policy, gate_policy_bytes. cbn [WithdrawFee].
    destruct (wf <? 0) eqn:E; bool_to_prop; rewrite FromBytes_Bytes; do 2 f_equal; lia.
  - intros bs w. unfold Unmarshal, gate_bytes_policy. repeat destr_match; done.
Qed.

Definition ex_gateway : Gateway := NewGateway 3 ex_vault (NewAdmin 1).
Definition gate_ctw : ContextWrapper := NewContextWrapper 3.

Section Example.
#[local] Existing Instance base58_plain.
#[local] Existing Instance gate_policy_bytes.
#[local] Existing Instance gate_bytes_policy.
#[local] Existing Instance gate_policy_coding.

Definition gate_setup {S} `{!ContextOps S} : ST S unit :=
  op_CreateAccount (pay_account 1) ;;; op_CreateAccount (pay_account 2) ;;;
  InitAdmin (NewAdmin 1) gate_ctw [(gateway_Name, ex_admin)] ;;;
  gate_InitPolicy ex_gateway gate_ctw (mkGatewayPolicy COIN) ;;;
  AddBalance ex_vault gate_ctw ex_admin (MulC COIN 100) ;;;
  AddBalance ex_vault gate_ctw ex_payer (MulC COIN 10).

Definition gate_ctx : Context_ := snd (gate_setup NewEmptyContext).

Lemma gate_ctx_ok : ctx_ok gate_ctx.
Proof.
  eapply (sim_ok _ gate_setup); [|apply NewEmptyContext_ok|by vm_compute].
  unfold gate_setup. do 2 (apply sim_bind; [by apply sim_CreateAccount|intros ?]).
  apply sim_bind; [|intros ?; apply sim_bind; [apply sim_w_SetProcessData|intros ?; apply sim_bind; intros; apply sim_AddBalance]].
  unfold InitAdmin. apply sim_for_each. intros [name addr]. apply sim_w_SetProcessData.
Qed.

Lemma ex_gate_pids : gate_pids_apart ex_gateway.
Proof. by split. Qed.

Lemma gate_ctx_marked : gate_marked ex_gateway ex_admin [] [] gate_ctx.
Proof. apply Forall_singleton. split; by vm_compute. Qed.

Definition ex_token_in : TokenIn :=
  mkTokenIn 1 1 ex_admin (replicate 32 7) (replicate 20 9) [ex_payer; ex_admin; ex_payer] [MulC COIN 4; COIN; MulC COIN 2].
Definition ex_token_out : TokenOut := mkTokenOut 1 1 ex_payer (replicate 20 9) (MulC COIN 5).

Lemma tokens_come_in_once_witness :
  let c1 := snd (TokenIn_Validate ex_gateway ex_token_in [pay_key 1] gate_ctx) in
  exists c2, TokenIn_Execute ex_gateway gate_ctw ex_token_in 1 c1 = (Ok tt, c2) /\
    balance_of ex_vault c2 ex_payer = MulC COIN 16 /\ balance_of ex_vault c2 ex_admin = MulC COIN 94 /\
    exists rs c3, run_gateway ex_gateway gate_ctw [(GTokenOut ex_token_out, 2)] c2 = (Ok rs, c3) /\
      fst (TokenIn_Validate ex_gateway ex_token_in [pay_key 1] c3) <> Ok tt.
Proof.
  destruct (tokens_come_in_once ex_gateway ex_gate_pids ex_admin eq_refl gate_ctw eq_refl gate_ctx
    (snd (TokenIn_Validate ex_gateway ex_token_in [pay_key 1] gate_ctx)) ex_token_in [pay_key 1] 1 gate_ctx_ok gate_ctx_marked)
    as (c2 & E & Hb & Hn).
  - apply (fst_ok (TokenIn_Validate ex_gateway ex_token_in [pay_key 1] gate_ctx) tt). by vm_compute.
  - repeat constructor; by vm_compute.
  - by vm_compute.
  - exists c2. split; [done|]. pose proof (Hb ex_payer) as H1. pose proof (Hb ex_admin) as H2.
    change (gate_vault ex_gateway) with ex_vault in H1, H2. rewrite H1, H2. split; [by vm_compute|]. split; [by vm_compute|].
    destruct (Hn [(GTokenOut ex_token_out, 2)]) as (rs & c3 & Er & Hv); [by repeat constructor|]. exists rs, c3. split; [done|]. by apply Hv.
Defined.

Lemma tokens_go_out_witness :
  exists ctx', TokenOut_Execute ex_gateway gate_ctw ex_token_out 1 gate_ctx = (Ok tt, ctx') /\
    balance_of ex_vault ctx' ex_payer = 39 * 10 ^ 17 /\ balance_of ex_vault ctx' ex_admin = MulC COIN 106.
Proof.
  assert (Hpc : Unmarshal (seen_pd gate_ctx (gate_pid ex_gateway) gate_tagPolicy) = Ok (mkGatewayPolicy COIN)) by (by vm_compute).
  assert (Hne : to_From ex_token_out <> ex_admin) by (by vm_compute).
  assert (Hb : tx_fee + WithdrawFee (mkGatewayPolicy COIN) + to_Amount ex_token_out <= balance_of (gate_vault ex_gateway) gate_ctx (to_From ex_token_out)) by (by vm_compute).
  assert (Had : 0 <= balance_of (gate_vault ex_gateway) gate_ctx ex_admin) by (by vm_compute).
  assert (Hf : 0 <= fees_of (gate_vault ex_gateway) gate_ctx) by (by vm_compute).
  assert (Hem : emptied (gate_vault ex_gateway) gate_ctx ex_admin = false) by (by vm_compute).
  destruct (tokens_go_out ex_gateway ex_gate_pids ex_admin eq_refl gate_ctw eq_refl gate_ctx ex_token_out (mkGatewayPolicy COIN) 1
    gate_ctx_ok gate_ctx_marked Hpc ltac:(by vm_compute) ltac:(by vm_compute) Hne Hb Had Hf Hem) as (ctx' & E & _ & Hbal & _).
  clear Hb. rename Hbal into Hb. exists ctx'. split; [done|]. pose proof (Hb ex_payer) as H1. pose proof (Hb ex_admin) as H2.
  change (gate_vault ex_gateway) with ex_vault in H1, H2. rewrite H1, H2. split; by vm_compute.
Defined.
End Example.
