(* ===== verification/Pile.v ===== *)
(** * The block log

    [core/pile/pile.go]: a pile is a file that keeps the blocks of a range of
    heights.  It starts with a header (the height of the last block, three times;
    the range; the hash of the genesis) and a table of offsets; the blocks follow,
    each as its hash, the number of its parts, the compressed lengths and the
    compressed parts.  [AppendData] writes a block and then the three copies of
    the height; [LoadPile] repairs the copies when a crash left them different.

    The file is modelled with its position; errors of the operating system are
    not modelled.  [compress/gzip] is a parameter. *)

From stdpp Require Import base gmap list strings.
From Stdlib Require Import ZArith Lia.
From S2P Require Import Prelude Amount Common.

(** ** Files *)

(** The bytes that were written, the others being zero, the size and the position;
    and the writes that were made, in their order, each with its position. *)
Record File := mkFile { fi_bytes : gmap Z Z; fi_size : Z; fi_pos : Z; fi_log : list (Z * bytes) }.

Definition byte_at (m : gmap Z Z) (i : Z) : Z := default 0 (m !! i).

Fixpoint put_bytes (m : gmap Z Z) (off : Z) (bs : bytes) : gmap Z Z :=
  match bs with
  | [] => m
  | b :: bs => put_bytes (<[off := b]> m) (off + 1) bs
  end.

Definition get_bytes (m : gmap Z Z) (off : Z) (n : nat) : bytes := (fun i => byte_at m (off + Z.of_nat i)) <$> seq 0 n.

Definition io_EOF : error := mkError "io" "EOF".

Definition file_new : File := mkFile ∅ 0 0 [].
Definition Seek (off : Z) : ST File unit := fun f =>
  if off <? 0 then (Err (mkError "os" "invalid argument"), f) else (Ok tt, mkFile (fi_bytes f) (fi_size f) off (fi_log f)).
Definition Write (bs : bytes) : ST File unit := fun f =>
  let pos := fi_pos f + Z.of_nat (length bs) in
  (Ok tt, mkFile (put_bytes (fi_bytes f) (fi_pos f) bs) (Z.max (fi_size f) pos) pos (fi_log f ++ [(fi_pos f, bs)])).

(** A read into a zeroed buffer of [n] bytes; at the end of the file fewer bytes arrive. *)
Definition Read (n : nat) : ST File bytes := fun f =>
  let k := Z.to_nat (Z.min (Z.of_nat n) (fi_size f - fi_pos f)) in
  match n with
  | O => (Ok [], f)
  | _ => if fi_size f <=? fi_pos f then (Err io_EOF, f)
         else (Ok (copy_into n (get_bytes (fi_bytes f) (fi_pos f) k)), mkFile (fi_bytes f) (fi_size f) (fi_pos f + Z.of_nat k) (fi_log f))
  end.
Definition Truncate (n : Z) : ST File unit := fun f =>
  (Ok tt, mkFile (base.filter (fun kv => kv.1 < n) (fi_bytes f)) n (fi_pos f) (fi_log f)).

(** [compress/gzip]. *)
Class Gzip := {
  gzip_Write : bytes -> bytes;
  gzip_ReadAll : bytes -> res bytes;
  gzip_roundtrip : forall v, gzip_ReadAll (gzip_Write v) = Ok v
}.

(** ** Piles *)

Definition ChunkUnit : Z := 172800 * 30.
Definition ChunkMetaSize : Z := 256.
Definition ChunkHeaderSize : Z := ChunkUnit * 8 + ChunkMetaSize.

Definition perr (m : string) : error := mkError "pile" m.
Definition ErrInvalidChunkBeginHeight := perr "invalid chunk begin height".
Definition ErrInvalidChunkEndHeight := perr "invalid chunk end height".
Definition ErrInvalidAppendHeight := perr "invalid append height".
Definition ErrInvalidHeight := perr "invalid height".
Definition ErrInvalidFileSize := perr "invalid file size".
Definition ErrInvalidDataIndex := perr "invalid data index".
Definition ErrMissingPile := perr "invalid missing pile".
Definition ErrAlreadyInitialized := perr "already initialized".
Definition ErrExeedMaximumDataArrayLength := perr "exceed maximum data array length".
Definition ErrHeightCrashed := perr "height crashed".

Record Pile := mkPile { pl_file : File; HeadHeight : Z; BeginHeight : Z; pl_GenHash : Hash256 }.

Definition on_file {A} (m : ST File A) : ST Pile A := fun p =>
  let '(r, f) := m (pl_file p) in (r, mkPile f (HeadHeight p) (BeginHeight p) (pl_GenHash p)).

(** [make([]byte, n)] and [copy(dst[off:], src)]. *)
Definition copy_at (off : nat) (src dst : bytes) : bytes :=
  take (length dst) (take off dst ++ src ++ drop (off + length src) dst).
(** [bs[n:]]. *)
Definition slice_from (n : Z) (bs : bytes) : res bytes :=
  if (n <? 0) || (Z.of_nat (length bs) <? n) then Panic "slice bounds out of range" else Ok (drop (Z.to_nat n) bs).
Definition u8 (z : Z) : Z := z mod 2 ^ 8.

Lemma slice_from_ok n bs : 0 <= n <= Z.of_nat (length bs) -> slice_from n bs = Ok (drop (Z.to_nat n) bs).
Proof. intros Hn. unfold slice_from. by rewrite !(proj2 (Z.ltb_ge _ _)) by lia. Qed.

Definition new_meta (GenHash : Hash256) (BaseHeight : Z) : bytes :=
  copy_at 20 GenHash (copy_at 16 (Uint32ToBytes (u32 (BaseHeight + ChunkUnit))) (copy_at 12 (Uint32ToBytes BaseHeight)
    (copy_at 8 (Uint32ToBytes BaseHeight) (copy_at 4 (Uint32ToBytes BaseHeight) (copy_at 0 (Uint32ToBytes BaseHeight)
      (replicate (Z.to_nat ChunkMetaSize) 0)))))).

(** [NewPile] on the file, which [O_TRUNC] has emptied. *)
Definition NewPile (GenHash : Hash256) (BaseHeight : Z) : res Pile :=
  let m : ST File unit :=
    let! size := gets fi_size in
    if size <? ChunkHeaderSize then
      Truncate ChunkHeaderSize ;;;
      Seek 0 ;;;
      guard (BaseHeight mod ChunkUnit =? 0) ErrInvalidChunkBeginHeight ;;;
      Write (new_meta GenHash BaseHeight)
    else ret tt in
  match m file_new with
  | (Ok _, f) => Ok (mkPile f BaseHeight BaseHeight GenHash)
  | (Err e, _) => Err e
  | (Panic w, _) => Panic w
  end.

(** The part of [LoadPile] that repairs the three copies of the height. *)
Definition repair (H A B : Z) : ST File Z :=
  if negb (H =? A) || negb (A =? B) then
    if A =? B then
      Seek 0 ;;; Write (Uint32ToBytes A) ;;; ret A
    else if H =? u32 (B + 1) then
      Seek 4 ;;; Write (Uint32ToBytes H) ;;; Write (Uint32ToBytes H) ;;; ret H
    else if H =? A then
      Seek 8 ;;; Write (Uint32ToBytes H) ;;; ret H
    else fail ErrHeightCrashed
  else ret H.

(** [BytesToUint32(meta[n:])]. *)
Definition uint32_at (n : Z) (bs : bytes) : ST File Z := lift (let? s := slice_from n bs in BytesToUint32 s).

(** The end of the [n]-th block of the pile, from the table. *)
Definition block_end (n : Z) : ST File Z :=
  if 0 <? n then
    Seek (ChunkMetaSize + (n - 1) * 8) ;;;
    let! bs := Read 8 in
    let! v := lift (BytesToUint64 bs) in
    ret (i64 v)
  else ret ChunkHeaderSize.

Definition load (f : File) : res (Z * Z * Hash256) * File :=
  (Seek 0 ;;;
   let! meta := Read (Z.to_nat ChunkMetaSize) in
   let! H := uint32_at 0 meta in
   let! A := uint32_at 4 meta in
   let! B := uint32_at 8 meta in
   let! Begin := uint32_at 12 meta in
   let! End_ := uint32_at 16 meta in
   let! gs := lift (slice_from 20 meta) in
   let GenHash := copy_into 32 gs in
   guard (Begin mod ChunkUnit =? 0) ErrInvalidChunkBeginHeight ;;;
   guard (u32 (Begin + ChunkUnit) =? End_) ErrInvalidChunkEndHeight ;;;
   let! H := repair H A B in
   let! Offset := block_end (u32 (H - Begin)) in
   let! size := gets fi_size in
   guard (negb (size <? Offset)) ErrInvalidFileSize ;;;
   ret (H, Begin, GenHash)) f.

Definition LoadPile (f : File) : res Pile :=
  match load f with
  | (Ok (H, Begin, GenHash), f) => Ok (mkPile f H Begin GenHash)
  | (Err e, _) => Err e
  | (Panic w, _) => Panic w
  end.

Section Operations.
Context `{GZ : Gzip}.

(** [AppendData]; [Sync] only forces what was written to the disk. *)
Definition write_block (Offset FromHeight Head : Z) (DataHash : Hash256) (Datas : list bytes) : ST File unit :=
  let zdatas := gzip_Write <$> Datas in
  Seek Offset ;;;
  Write DataHash ;;;
  Write [u8 (Z.of_nat (length Datas))] ;;;
  for_each zdatas (fun zd => Write (Uint32ToBytes (u32 (Z.of_nat (length zd))))) ;;;
  for_each zdatas Write ;;;
  let totalLen := 32 + 1 + 4 * Z.of_nat (length Datas) + fold_right Z.add 0 ((fun zd => Z.of_nat (length zd)) <$> zdatas) in
  Seek (ChunkMetaSize + FromHeight * 8) ;;;
  Write (Uint64ToBytes (u64 (Offset + totalLen))) ;;;
  Seek 0 ;;; Write (Uint32ToBytes (u32 (Head + 1))) ;;;
  Seek 4 ;;; Write (Uint32ToBytes (u32 (Head + 1))) ;;;
  Seek 8 ;;; Write (Uint32ToBytes (u32 (Head + 1))).

Definition pile_AppendData (Sync : bool) (Height : Z) (DataHash : Hash256) (Datas : list bytes) : ST Pile unit :=
  let! p := gets id in
  if negb (Height =? u32 (HeadHeight p + 1)) then fail ErrInvalidAppendHeight
  else
    let FromHeight := u32 (HeadHeight p - BeginHeight p) in
    let! Offset := on_file (block_end FromHeight) in
    on_file (write_block Offset FromHeight (HeadHeight p) DataHash Datas) ;;;
    modify (fun p => mkPile (pl_file p) (u32 (HeadHeight p + 1)) (BeginHeight p) (pl_GenHash p)).

(** The test of the height, and the start of the block. *)
Definition in_range (Height : Z) : ST Pile unit :=
  let! p := gets id in
  guard (negb (u32 (BeginHeight p + ChunkUnit) <? Height)) ErrInvalidHeight ;;;
  guard (negb (HeadHeight p <? Height)) ErrInvalidHeight.
Definition block_start (Height : Z) : ST Pile Z :=
  let! p := gets id in
  on_file (block_end (u32 (Height - BeginHeight p) - 1)).

Definition pile_GetHash (Height : Z) : ST Pile Hash256 :=
  let! p := gets id in
  guard (negb (u32 (BeginHeight p + ChunkUnit) <? Height)) ErrInvalidHeight ;;;
  let! Offset := block_start Height in
  on_file (Seek Offset ;;; let! value := Read 32 in ret (copy_into 32 value)).

(** The number of parts and their lengths; the length of the table is a [uint8]. *)
Definition part_table (Offset : Z) (allowed : Z -> bool) : ST File (Z * bytes) :=
  Seek (Offset + 32) ;;;
  let! lbs := Read 1 in
  let n := default 0 (head lbs) in
  guard (allowed n) ErrInvalidDataIndex ;;;
  let! zlbs := Read (Z.to_nat (u8 (4 * n))) in
  ret (n, zlbs).

(** [util.BytesToUint32(zlbs[4*i:])]. *)
Definition part_size (zlbs : bytes) (i : Z) : ST File Z := lift (let? s := slice_from (4 * i) zlbs in BytesToUint32 s).

(** [for i := 0; i < n; i++ { zofs += ... }], [n] more rounds from [i]. *)
Fixpoint skip_parts (zlbs : bytes) (n : nat) (i zofs : Z) : ST File Z :=
  match n with
  | O => ret zofs
  | S n =>
      let! k := part_size zlbs i in
      skip_parts zlbs n (i + 1) (zofs + k)
  end.

Definition read_part (zlbs : bytes) (i : Z) : ST File bytes :=
  let! zsize := part_size zlbs i in
  let! zd := Read (Z.to_nat zsize) in
  lift (gzip_ReadAll zd).

Definition pile_GetData (Height index : Z) : ST Pile bytes :=
  in_range Height ;;;
  let! Offset := block_start Height in
  on_file (
    let! t := part_table Offset (fun n => negb (n <=? index)) in
    let! zofs := skip_parts t.2 (Z.to_nat index) 0 (Offset + 32 + 1 + u8 (4 * t.1)) in
    Seek zofs ;;;
    read_part t.2 index).

(** [for i := 0; i < count; i++ { ... buffer.Write(data) }]. *)
Fixpoint read_parts (zlbs : bytes) (n : nat) (i : Z) : ST File bytes :=
  match n with
  | O => ret []
  | S n =>
      let! data := read_part zlbs i in
      let! rest := read_parts zlbs n (i + 1) in
      ret (data ++ rest)
  end.

Definition pile_GetDatas (Height from count : Z) : ST Pile bytes :=
  in_range Height ;;;
  let! Offset := block_start Height in
  on_file (
    let! t := part_table Offset (fun n => negb (n <? from + count)) in
    let! zofs := skip_parts t.2 (Z.to_nat from) 0 (Offset + 32 + 1 + u8 (4 * t.1)) in
    Seek zofs ;;;
    read_parts t.2 (Z.to_nat count) from).
End Operations.

(** ** The log a pile keeps *)

Record Entry := mkEntry { en_hash : Hash256; en_datas : list bytes }.

(** *** Bytes of a file *)

Lemma byte_at_put bs : forall m off i, byte_at (put_bytes m off bs) i =
  if decide (off <= i < off + Z.of_nat (length bs)) then default 0 (bs !! Z.to_nat (i - off)) else byte_at m i.
Proof.
  induction bs as [|b bs IH]; intros m off i; cbn [put_bytes length].
  - rewrite decide_False by lia. done.
  - rewrite IH. destruct (decide (off = i)) as [<-|Hne].
    + rewrite decide_False, decide_True by lia. unfold byte_at. rewrite lookup_insert_eq. by replace (off - off) with 0 by lia.
    + destruct (decide (off + 1 <= i < off + 1 + Z.of_nat (length bs))).
      * rewrite decide_True by lia. replace (Z.to_nat (i - off)) with (S (Z.to_nat (i - (off + 1)))) by lia. done.
      * rewrite decide_False by lia. unfold byte_at. by rewrite lookup_insert_ne.
Qed.

Lemma length_get_bytes m off n : length (get_bytes m off n) = n.
Proof. unfold get_bytes. by rewrite length_fmap, length_seq. Qed.

Lemma lookup_get_bytes m off n i : (i < n)%nat -> get_bytes m off n !! i = Some (byte_at m (off + Z.of_nat i)).
Proof. intros Hi. unfold get_bytes. rewrite list_lookup_fmap, lookup_seq_lt by done. done. Qed.

Lemma get_bytes_ext m m' off n : (forall i, off <= i < off + Z.of_nat n -> byte_at m i = byte_at m' i) -> get_bytes m off n = get_bytes m' off n.
Proof. intros H. unfold get_bytes. apply list_fmap_ext. intros j i [-> Hi]%lookup_seq. apply H. lia. Qed.

Lemma get_put_same m off bs : get_bytes (put_bytes m off bs) off (length bs) = bs.
Proof.
  apply list_eq. intros i. destruct (decide (i < length bs)%nat) as [Hi|Hi].
  - rewrite lookup_get_bytes, byte_at_put, decide_True by lia. replace (Z.to_nat (off + Z.of_nat i - off)) with i by lia.
    destruct (lookup_lt_is_Some_2 bs i Hi) as [b Hb]. by rewrite Hb.
  - rewrite !lookup_ge_None_2 by (rewrite ?length_get_bytes; lia). done.
Qed.

Lemma get_put_other m off bs off' n : off' + Z.of_nat n <= off \/ off + Z.of_nat (length bs) <= off' ->
  get_bytes (put_bytes m off bs) off' n = get_bytes m off' n.
Proof. intros H. apply get_bytes_ext. intros i Hi. rewrite byte_at_put, decide_False by lia. done. Qed.

Lemma get_bytes_app m off a b : get_bytes m off (a + b) = get_bytes m off a ++ get_bytes m (off + Z.of_nat a) b.
Proof.
  unfold get_bytes. rewrite seq_app, fmap_app. f_equal. rewrite <- (Nat.add_0_r (0 + a)), <- fmap_add_seq, <- list_fmap_compose.
  apply list_fmap_ext. intros j i _. cbn. f_equal. lia.
Qed.

Lemma put_bytes_app a b : forall m off, put_bytes m off (a ++ b) = put_bytes (put_bytes m off a) (off + Z.of_nat (length a)) b.
Proof.
  induction a as [|x a IH]; intros m off; cbn [put_bytes app length]; [by rewrite Z.add_0_r|]. rewrite IH. f_equal. lia.
Qed.

(** The file has the bytes [bs] at [off]. *)
Definition stored (f : File) (off : Z) (bs : bytes) : Prop :=
  get_bytes (fi_bytes f) off (length bs) = bs /\ off + Z.of_nat (length bs) <= fi_size f.

Lemma stored_app f off a b : stored f off (a ++ b) <-> stored f off a /\ stored f (off + Z.of_nat (length a)) b.
Proof.
  unfold stored. rewrite length_app, get_bytes_app, Nat2Z.inj_add. split.
  - intros [E H]. apply app_inj_1 in E as [E1 E2]; [|by rewrite length_get_bytes]. split; (split; [done|lia]).
  - intros [[E1 H1] [E2 H2]]. split; [by rewrite E1, E2|lia].
Qed.

Definition moved (f : File) (off : Z) : File := mkFile (fi_bytes f) (fi_size f) off (fi_log f).
(** The file after writing [bs] at [off]. *)
Definition written (f : File) (off : Z) (bs : bytes) : File :=
  mkFile (put_bytes (fi_bytes f) off bs) (Z.max (fi_size f) (off + Z.of_nat (length bs))) (off + Z.of_nat (length bs)) (fi_log f ++ [(off, bs)]).

Lemma stored_moved f off pos bs : stored (moved f pos) off bs <-> stored f off bs.
Proof. done. Qed.

Lemma stored_written_same f off bs : stored (written f off bs) off bs.
Proof. split; [apply get_put_same|cbn; lia]. Qed.

Lemma stored_written_other f off bs off' bs' : stored f off' bs' ->
  off' + Z.of_nat (length bs') <= off \/ off + Z.of_nat (length bs) <= off' -> stored (written f off bs) off' bs'.
Proof. intros [E H] Hd. split; [cbn; by rewrite get_put_other|cbn; lia]. Qed.

Lemma Seek_ok f off : 0 <= off -> Seek off f = (Ok tt, moved f off).
Proof. intros H. unfold Seek. by rewrite (proj2 (Z.ltb_ge off 0)). Qed.

Lemma Write_ok f bs : Write bs f = (Ok tt, written f (fi_pos f) bs).
Proof. done. Qed.

Lemma Read_ok f bs : stored f (fi_pos f) bs -> Read (length bs) f = (Ok bs, moved f (fi_pos f + Z.of_nat (length bs))).
Proof.
  intros [E H]. unfold Read. destruct (length bs) as [|n] eqn:El.
  - destruct bs; [|done]. f_equal. destruct f. cbn. unfold moved. cbn. f_equal. lia.
  - rewrite (proj2 (Z.leb_gt _ _)) by lia. replace (Z.to_nat (Z.min _ _)) with (S n) by lia.
    rewrite E, copy_into_id by done. done.
Qed.

Lemma Seek_Read {A} f off bs (k : bytes -> ST File A) : stored f off bs -> 0 <= off ->
  (Seek off ;;; let! x := Read (length bs) in k x) f = k bs (moved f (off + Z.of_nat (length bs))).
Proof.
  intros H Ho. erewrite bind_ok by by apply Seek_ok. erewrite bind_ok; [reflexivity|]. by apply (Read_ok (moved f off)).
Qed.

Section Log.
Context `{GZ : Gzip}.

Definition zdatas (e : Entry) : list bytes := gzip_Write <$> en_datas e.
Definition zlens (zds : list bytes) : bytes := concat ((fun zd => Uint32ToBytes (Z.of_nat (length zd))) <$> zds).
Definition entry_bytes (e : Entry) : bytes :=
  en_hash e ++ [Z.of_nat (length (en_datas e))] ++ zlens (zdatas e) ++ concat (zdatas e).

(** A block whose table of parts fits. *)
Record entry_ok (e : Entry) : Prop := {
  ek_hash : length (en_hash e) = 32%nat;
  ek_parts : (length (en_datas e) < 64)%nat;
  ek_sizes : Forall (fun zd => Z.of_nat (length zd) < 2 ^ 32) (zdatas e)
}.

Definition entry_size (e : Entry) : Z := Z.of_nat (length (entry_bytes e)).
Definition sizes (l : list Entry) : Z := fold_right Z.add 0 (entry_size <$> l).
Definition start (l : list Entry) (i : nat) : Z := ChunkHeaderSize + sizes (take i l).

Lemma sizes_app l k : sizes (l ++ k) = sizes l + sizes k.
Proof. unfold sizes. induction l as [|e l IH]; cbn in *; lia. Qed.

Lemma sizes_nonneg l : 0 <= sizes l.
Proof. unfold sizes, entry_size. induction l as [|e l IH]; cbn [fold_right fmap list_fmap]; lia. Qed.

Lemma start_header l i : ChunkHeaderSize <= start l i.
Proof. unfold start. pose proof (sizes_nonneg (take i l)). lia. Qed.

Lemma start_S l i e : l !! i = Some e -> start l (S i) = start l i + entry_size e.
Proof. intros H. unfold start. rewrite (take_S_r l i e H), sizes_app. unfold sizes at 2. cbn. lia. Qed.

Lemma start_app l k i : (i <= length l)%nat -> start (l ++ k) i = start l i.
Proof. intros H. unfold start. by rewrite take_app_le. Qed.

Lemma start_mono l i j : (i <= j)%nat -> start l i <= start l j.
Proof.
  intros H. unfold start. replace (take i l) with (take i (take j l)) by (rewrite take_take; f_equal; lia).
  rewrite <- (take_drop i (take j l)) at 2. rewrite sizes_app. pose proof (sizes_nonneg (drop i (take j l))). lia.
Qed.

(** The blocks of [l] are in the file. *)
Record log_on (f : File) (l : list Entry) : Prop := {
  lo_table : forall i, (i < length l)%nat -> stored f (ChunkMetaSize + Z.of_nat i * 8) (Uint64ToBytes (start l (S i)));
  lo_entry : forall i e, l !! i = Some e -> stored f (start l i) (entry_bytes e);
  lo_size : start l (length l) <= fi_size f;
  lo_ok : Forall entry_ok l;
  lo_length : Z.of_nat (length l) <= ChunkUnit;
  lo_bound : start l (length l) < 2 ^ 63
}.

(** The header: the three copies of the height, the range and the genesis. *)
Definition header (H A B Begin : Z) (Gen : Hash256) : bytes :=
  Uint32ToBytes H ++ Uint32ToBytes A ++ Uint32ToBytes B ++ Uint32ToBytes Begin ++ Uint32ToBytes (u32 (Begin + ChunkUnit)) ++ Gen.

Record pile_holds (p : Pile) (l : list Entry) : Prop := {
  ph_log : log_on (pl_file p) l;
  ph_header : stored (pl_file p) 0 (header (HeadHeight p) (HeadHeight p) (HeadHeight p) (BeginHeight p) (pl_GenHash p));
  ph_head : HeadHeight p = BeginHeight p + Z.of_nat (length l);
  ph_begin : BeginHeight p mod ChunkUnit = 0;
  ph_range : 0 <= BeginHeight p /\ BeginHeight p + ChunkUnit < 2 ^ 32;
  ph_gen : length (pl_GenHash p) = 32%nat
}.

Lemma i64_id z : 0 <= z < 2 ^ 63 -> i64 z = z.
Proof. intros H. unfold i64. rewrite Z.mod_small by lia. lia. Qed.

Lemma u32_id z : 0 <= z < 2 ^ 32 -> u32 z = z.
Proof. intros. by apply Z.mod_small. Qed.

(** The table gives the end of every block. *)
Lemma block_end_ok f l i : log_on f l -> (i <= length l)%nat -> exists pos, block_end (Z.of_nat i) f = (Ok (start l i), moved f pos).
Proof.
  intros Hl Hi. unfold block_end. destruct i as [|i].
  - exists (fi_pos f). cbn. destruct f. unfold moved, start. cbn. by rewrite Z.add_0_r.
  - rewrite (proj2 (Z.ltb_lt _ _)) by lia. replace (Z.of_nat (S i) - 1) with (Z.of_nat i) by lia.
    change 8%nat with (length (Uint64ToBytes (start l (S i)))). eexists. rewrite Seek_Read by (try apply (lo_table _ _ Hl); unfold ChunkMetaSize; lia).
    pose proof (start_header l (S i)) as Hh. pose proof (start_mono l (S i) (length l) Hi) as Hm. pose proof (lo_bound _ _ Hl) as Hb.
    assert (0 <= ChunkHeaderSize) by done.
    unfold BytesToUint64, Uint64ToBytes. rewrite read_le_le_bytes by (change (256 ^ Z.of_nat 8) with (2 ^ 64); lia).
    erewrite bind_ok by reflexivity. rewrite i64_id by lia. reflexivity.
Qed.

(** *** Writing *)

(** A sequence of writes, as positions and bytes. *)
Definition perform (ws : list (Z * bytes)) (f : File) : File := foldl (fun f w => written f w.1 w.2) f ws.

Fixpoint consecutive (off : Z) (bss : list bytes) : list (Z * bytes) :=
  match bss with
  | [] => []
  | bs :: bss => (off, bs) :: consecutive (off + Z.of_nat (length bs)) bss
  end.

Definition block_pieces (e : Entry) : list bytes :=
  en_hash e :: [u8 (Z.of_nat (length (en_datas e)))] :: ((fun zd => Uint32ToBytes (u32 (Z.of_nat (length zd)))) <$> zdatas e) ++ zdatas e.
Definition head_writes (H : Z) : list (Z * bytes) := [(0, Uint32ToBytes H); (4, Uint32ToBytes H); (8, Uint32ToBytes H)].

(** The writes of [AppendData]. *)
Definition append_writes (Offset FromHeight Head : Z) (e : Entry) : list (Z * bytes) :=
  consecutive Offset (block_pieces e) ++
  [(ChunkMetaSize + FromHeight * 8, Uint64ToBytes (u64 (Offset + Z.of_nat (length (concat (block_pieces e))))))] ++ head_writes (u32 (Head + 1)).

Lemma perform_log ws : forall f, fi_log (perform ws f) = fi_log f ++ ws.
Proof.
  induction ws as [|[off bs] ws IH]; intros f; [by rewrite app_nil_r|]. cbn [perform foldl fst snd]. fold (perform ws (written f off bs)).
  rewrite IH. cbn. by rewrite <- (assoc_L (++)).
Qed.

Lemma perform_app ws ws' f : perform (ws ++ ws') f = perform ws' (perform ws f).
Proof. apply foldl_app. Qed.

Lemma consecutive_app bss bss' : forall off, consecutive off (bss ++ bss') = consecutive off bss ++ consecutive (off + Z.of_nat (length (concat bss))) bss'.
Proof.
  induction bss as [|bs bss IH]; intros off; cbn [consecutive app concat]; [by rewrite Z.add_0_r|].
  rewrite IH, length_app. do 3 f_equal. lia.
Qed.

Lemma pos_consecutive bss : forall f, fi_pos (perform (consecutive (fi_pos f) bss) f) = fi_pos f + Z.of_nat (length (concat bss)).
Proof.
  induction bss as [|bs bss IH]; intros f; cbn [consecutive perform foldl concat fst snd]; [cbn; lia|].
  specialize (IH (written f (fi_pos f) bs)). cbn [fi_pos written] in IH. unfold perform in IH. rewrite IH, length_app. lia.
Qed.

Lemma for_each_Write {A} (g : A -> bytes) l : forall f, for_each l (fun x => Write (g x)) f = (Ok tt, perform (consecutive (fi_pos f) (g <$> l)) f).
Proof.
  induction l as [|x l IH]; intros f; cbn [for_each fmap list_fmap consecutive]; [done|]. erewrite bind_ok by apply Write_ok.
  rewrite IH. done.
Qed.

Lemma length_zlens zds : length (zlens zds) = (4 * length zds)%nat.
Proof. unfold zlens. induction zds as [|z zds IH]; cbn in *; lia. Qed.

Lemma block_pieces_size e : Z.of_nat (length (concat (block_pieces e))) =
  Z.of_nat (length (en_hash e)) + 1 + 4 * Z.of_nat (length (en_datas e)) + fold_right Z.add 0 ((fun zd => Z.of_nat (length zd)) <$> zdatas e).
Proof.
  assert (Hl : forall zds, length (concat ((fun zd : bytes => Uint32ToBytes (u32 (Z.of_nat (length zd)))) <$> zds)) = (4 * length zds)%nat).
  { induction zds as [|z zds IH]; cbn in *; lia. }
  assert (Hs : forall zds : list bytes, Z.of_nat (length (concat zds)) = fold_right Z.add 0 ((fun zd => Z.of_nat (length zd)) <$> zds)).
  { induction zds as [|z zds IH]; cbn; [done|]. rewrite length_app. cbn in IH. lia. }
  unfold block_pieces. cbn [concat]. rewrite !length_app, concat_app, length_app, Hl, !Nat2Z.inj_add, Hs. unfold zdatas at 1. rewrite length_fmap. cbn [length]. lia.
Qed.

Lemma write_block_ok Offset From Head e f : 0 <= Offset -> 0 <= From -> length (en_hash e) = 32%nat ->
  write_block Offset From Head (en_hash e) (en_datas e) f = (Ok tt, perform (append_writes Offset From Head e) f).
Proof.
  intros Ho Hf Hh. unfold write_block, append_writes. erewrite bind_ok by by apply Seek_ok. erewrite bind_ok by apply Write_ok. erewrite bind_ok by apply Write_ok.
  erewrite bind_ok by apply for_each_Write. erewrite bind_ok; cycle 1.
  { exact (for_each_Write id _ _). }
  rewrite list_fmap_id. rewrite block_pieces_size, Hh. fold (zdatas e).
  change (32 + 1 + 4 * _ + _) with (Z.of_nat 32 + 1 + 4 * Z.of_nat (length (en_datas e)) + fold_right Z.add 0 ((fun zd => Z.of_nat (length zd)) <$> zdatas e)).
  set (tot := u64 _). set (f0 := written _ _ [_]).
  set (f1 := perform (consecutive (fi_pos f0) _) f0).
  assert (E1 : perform (consecutive (fi_pos f1) (zdatas e)) f1 = perform (consecutive Offset (block_pieces e)) f).
  { unfold block_pieces. cbn [consecutive]. rewrite consecutive_app. cbn [perform foldl fst snd]. fold (perform). rewrite foldl_app.
    unfold f1 at 1. rewrite pos_consecutive. done. }
  rewrite E1. rewrite perform_app. set (f2 := perform (consecutive Offset _) f).
  erewrite bind_ok by (apply Seek_ok; unfold ChunkMetaSize; lia). erewrite bind_ok by apply Write_ok.
  erewrite bind_ok by by apply Seek_ok. erewrite bind_ok by apply Write_ok. erewrite bind_ok by by apply Seek_ok. erewrite bind_ok by apply Write_ok.
  erewrite bind_ok by by apply Seek_ok. rewrite Write_ok. done.
Qed.

Definition apart (w : Z * bytes) (off : Z) (n : Z) : Prop := off + n <= w.1 \/ w.1 + Z.of_nat (length w.2) <= off.

Lemma perform_stored ws : forall f off bs, stored f off bs -> Forall (fun w => apart w off (Z.of_nat (length bs))) ws -> stored (perform ws f) off bs.
Proof.
  induction ws as [|w ws IH]; intros f off bs Hs Hw; [done|]. apply Forall_cons in Hw as [Hw Hws].
  cbn. apply IH; [|done]. by apply stored_written_other.
Qed.

Lemma perform_size ws : forall f, fi_size f <= fi_size (perform ws f).
Proof. induction ws as [|w ws IH]; intros f; [done|]. etrans; [|apply IH]. cbn. lia. Qed.

Lemma consecutive_above bss : forall off, Forall (fun w : Z * bytes => off <= w.1) (consecutive off bss).
Proof.
  induction bss as [|bs bss IH]; intros off; constructor; [done|]. eapply Forall_impl; [apply IH|]. cbn. lia.
Qed.

Lemma consecutive_stored bss : forall off f, bss <> [] -> stored (perform (consecutive off bss) f) off (concat bss).
Proof.
  induction bss as [|bs bss IH]; intros off f Hne; [done|]. cbn [consecutive concat]. apply stored_app. cbn [perform foldl fst snd]. fold (perform (consecutive (off + Z.of_nat (length bs)) bss)).
  split.
  - apply perform_stored; [apply stored_written_same|]. eapply Forall_impl; [apply consecutive_above|]. intros w Hw. left. exact Hw.
  - destruct bss as [|b bss]; [|by apply IH]. cbn. split; [done|]. cbn. lia.
Qed.

(** The writes up to byte [k] of them all: the last one may be cut. *)
Fixpoint tear (k : nat) (ws : list (Z * bytes)) : list (Z * bytes) :=
  match k, ws with
  | O, _ | _, [] => []
  | _, (off, bs) :: ws => if (length bs <=? k)%nat then (off, bs) :: tear (k - length bs) ws else [(off, take k bs)]
  end.
Definition total (ws : list (Z * bytes)) : nat := length (concat ws.*2).

Lemma tear_0 ws : tear 0 ws = [].
Proof. by destruct ws. Qed.

Lemma tear_cons k off bs ws : (0 < k)%nat ->
  tear k ((off, bs) :: ws) = if (length bs <=? k)%nat then (off, bs) :: tear (k - length bs) ws else [(off, take k bs)].
Proof. by destruct k; [lia|]. Qed.

Lemma tear_app ws ws' : forall k, tear k (ws ++ ws') = if (k <? total ws)%nat then tear k ws else tear k ws ++ tear (k - total ws) ws'.
Proof.
  induction ws as [|[off bs] ws IH]; intros k; [cbn [app]; change (total []) with 0%nat; rewrite Nat.sub_0_r; by destruct k|].
  destruct k as [|k]; [rewrite Nat.sub_0_l, !tear_0; by destruct (_ <? _)%nat|]. cbn [app]. rewrite !tear_cons by lia.
  assert (Et : total ((off, bs) :: ws) = (length bs + total ws)%nat) by (unfold total; cbn; by rewrite length_app).
  rewrite Et. destruct (length bs <=? S k)%nat eqn:E; [apply Nat.leb_le in E|apply Nat.leb_gt in E].
  - rewrite IH. replace (S k - (length bs + total ws))%nat with (S k - length bs - total ws)%nat by lia.
    replace (S k <? length bs + total ws)%nat with (S k - length bs <? total ws)%nat; [by destruct (_ <? _)%nat|].
    destruct (Nat.ltb_spec (S k - length bs) (total ws)), (Nat.ltb_spec (S k) (length bs + total ws)); (done || lia).
  - by rewrite (proj2 (Nat.ltb_lt (S k) _)) by lia.
Qed.

Lemma tear_all ws w : w.2 <> [] -> forall k, (total (ws ++ [w]) <= k)%nat -> tear k (ws ++ [w]) = ws ++ [w].
Proof.
  intros Hw. assert (Hpos : forall ws', (0 < total (ws' ++ [w]))%nat).
  { intros ws'. unfold total. rewrite fmap_app, concat_app, length_app. destruct w as [off [|]]; [done|]. cbn. lia. }
  induction ws as [|[off bs] ws IH]; intros k Hk.
  - specialize (Hpos []). destruct w as [off bs]. unfold total in Hk, Hpos. cbn in Hk, Hpos. rewrite app_nil_r in Hk, Hpos. cbn [app].
    rewrite tear_cons, (proj2 (Nat.leb_le _ _)) by lia. by destruct (k - length bs)%nat.
  - assert (Et : total (((off, bs) :: ws) ++ [w]) = (length bs + total (ws ++ [w]))%nat) by (unfold total; cbn; by rewrite length_app).
    rewrite Et in Hk. pose proof (Hpos ws). cbn [app]. rewrite tear_cons, (proj2 (Nat.leb_le _ _)) by lia. f_equal. apply IH. lia.
Qed.

(** What holds of a write and of every beginning of it holds of the torn writes. *)
Lemma Forall_tear (P : Z * bytes -> Prop) ws : (forall off bs k, P (off, bs) -> P (off, take k bs)) ->
  Forall P ws -> forall k, Forall P (tear k ws).
Proof.
  intros HP. induction 1 as [|[off bs] ws Hw _ IH]; intros k; (destruct k as [|k]; [by rewrite tear_0; constructor|]); [constructor|]. cbn.
  destruct (length bs <=? S k)%nat; constructor; auto.
Qed.

(** Writes that leave the blocks of a log alone. *)
Definition spares (l : list Entry) (w : Z * bytes) : Prop :=
  w.1 + Z.of_nat (length w.2) <= ChunkMetaSize \/
  ChunkMetaSize + Z.of_nat (length l) * 8 <= w.1 /\ w.1 + Z.of_nat (length w.2) <= ChunkHeaderSize \/
  start l (length l) <= w.1.

Lemma spares_table l w i : spares l w -> (i < length l)%nat -> Z.of_nat (length l) <= ChunkUnit -> apart w (ChunkMetaSize + Z.of_nat i * 8) 8.
Proof.
  intros H Hi Hl. pose proof (start_header l (length l)). unfold apart, spares, ChunkHeaderSize in *. destruct H as [H|[[H _]|H]]; [right; lia|left; lia|left; lia].
Qed.

Lemma spares_entry l w i e : spares l w -> l !! i = Some e -> apart w (start l i) (entry_size e).
Proof.
  intros H Hi. pose proof (start_header l i) as Hh. pose proof (lookup_lt_Some _ _ _ Hi) as Hlt. pose proof (start_mono l (S i) (length l) Hlt) as Hm.
  rewrite (start_S l i e Hi) in Hm. unfold apart, spares, ChunkHeaderSize, ChunkMetaSize in *. assert (0 < ChunkUnit) by done.
  destruct H as [H|[[_ H]|H]]; [right; lia|right; lia|left; lia].
Qed.

Lemma log_on_perform ws f l : log_on f l -> Forall (spares l) ws -> log_on (perform ws f) l.
Proof.
  intros [Ht He Hs Hok Hl Hb] Hw. split; [| | |done..].
  - intros i Hi. apply perform_stored; [by apply Ht|]. eapply Forall_impl; [exact Hw|]. intros w Hsp. by apply spares_table with (l := l).
  - intros i e Hi. apply perform_stored; [by apply He|]. eapply Forall_impl; [exact Hw|]. intros w Hsp. by apply spares_entry with (l := l).
  - pose proof (perform_size ws f). lia.
Qed.

Lemma log_on_moved f l pos : log_on f l -> log_on (moved f pos) l.
Proof. intros [Ht He Hs Hok Hl Hb]. by split. Qed.

(** The pieces of a block are its bytes. *)
Lemma concat_pieces e : entry_ok e -> concat (block_pieces e) = entry_bytes e.
Proof.
  intros [_ Hn Hz]. unfold block_pieces, entry_bytes. cbn [concat]. rewrite concat_app. f_equal. f_equal.
  { f_equal. apply Z.mod_small. lia. }
  f_equal. unfold zlens. f_equal. apply list_fmap_ext. intros i zd Hi. f_equal. apply u32_id. rewrite Forall_lookup in Hz. specialize (Hz i zd Hi). lia.
Qed.

Definition next_start (l : list Entry) (e : Entry) : Z := start l (length l) + entry_size e.

Lemma start_snoc l e : start (l ++ [e]) (S (length l)) = next_start l e.
Proof. rewrite (start_S (l ++ [e]) (length l) e) by (by rewrite lookup_app_r, Nat.sub_diag by lia). by rewrite start_app. Qed.

(** After the block and its table entry are written, the log has it. *)
Lemma log_on_snoc f l e : log_on f l -> entry_ok e -> stored f (start l (length l)) (entry_bytes e) ->
  stored f (ChunkMetaSize + Z.of_nat (length l) * 8) (Uint64ToBytes (next_start l e)) -> Z.of_nat (length l) < ChunkUnit -> next_start l e < 2 ^ 63 ->
  log_on f (l ++ [e]).
Proof.
  intros [Ht He Hs Hok Hl Hb] Hek Hst Htab Hlen Hnb. assert (Hlast : length (l ++ [e]) = S (length l)) by (rewrite length_app; cbn; lia). split.
  - intros i Hi. rewrite Hlast in Hi. destruct (decide (i = length l)) as [->|Hne]; [by rewrite start_snoc|].
    rewrite start_app by lia. apply Ht. lia.
  - intros i x Hi. pose proof (lookup_lt_Some _ _ _ Hi) as Hlt. rewrite Hlast in Hlt. rewrite start_app by lia. destruct (decide (i = length l)) as [->|Hne].
    + rewrite lookup_app_r, Nat.sub_diag in Hi by lia. injection Hi as <-. done.
    + rewrite lookup_app_l in Hi by lia. by apply He.
  - rewrite Hlast, start_snoc. destruct Hst as [_ Hst]. unfold next_start, entry_size. lia.
  - apply Forall_app. split; [done|by constructor].
  - rewrite Hlast. lia.
  - by rewrite Hlast, start_snoc.
Qed.

(** *** The header *)

Lemma header_stored f H A B Begin Gen : stored f 0 (header H A B Begin Gen) <->
  stored f 0 (Uint32ToBytes H) /\ stored f 4 (Uint32ToBytes A) /\ stored f 8 (Uint32ToBytes B) /\
  stored f 12 (Uint32ToBytes Begin ++ Uint32ToBytes (u32 (Begin + ChunkUnit)) ++ Gen).
Proof. unfold header. by rewrite !(stored_app _ _ (Uint32ToBytes _) (_ ++ _)). Qed.

Lemma header_set_H f H A B Begin Gen H' : stored f 0 (header H A B Begin Gen) -> stored (written f 0 (Uint32ToBytes H')) 0 (header H' A B Begin Gen).
Proof.
  rewrite !header_stored. intros (_ & Ha & Hb & Hr). split; [apply stored_written_same|]. split_and!; (apply stored_written_other; [done|cbn; lia]).
Qed.

Lemma header_set_A f H A B Begin Gen A' : stored f 0 (header H A B Begin Gen) -> stored (written f 4 (Uint32ToBytes A')) 0 (header H A' B Begin Gen).
Proof.
  rewrite !header_stored. intros (Hh & _ & Hb & Hr). split_and!; [|apply stored_written_same| |]; (apply stored_written_other; [done|cbn; lia]).
Qed.

Lemma header_set_B f H A B Begin Gen B' : stored f 0 (header H A B Begin Gen) -> stored (written f 8 (Uint32ToBytes B')) 0 (header H A B' Begin Gen).
Proof.
  rewrite !header_stored. intros (Hh & Ha & _ & Hr). split_and!; [| |apply stored_written_same|]; (apply stored_written_other; [done|cbn; lia]).
Qed.

(** *** Interrupted appends *)

(** What the repair of the copies comes to. *)
Definition repaired (H A B : Z) : option Z :=
  if decide (H = A /\ A = B) then Some H else if decide (A = B) then Some A
  else if decide (H = u32 (B + 1)) then Some H else if decide (H = A) then Some H else None.


Section Append.
Context (f : File) (l : list Entry) (e : Entry) (Begin : Z) (Gen : Hash256).
Context (Hlog : log_on f l) (Hek : entry_ok e) (Hlen : Z.of_nat (length l) < ChunkUnit) (Hnext : next_start l e < 2 ^ 63) (Hgen : length Gen = 32%nat).
Abbreviation h := (Begin + Z.of_nat (length l)).
Context (Hrange : 0 <= Begin /\ Begin + ChunkUnit < 2 ^ 32).
Context (Hheader : stored f 0 (header h h h Begin Gen)).

Definition data_writes : list (Z * bytes) := consecutive (start l (length l)) (block_pieces e).
Definition table_write : Z * bytes := (ChunkMetaSize + Z.of_nat (length l) * 8, Uint64ToBytes (next_start l e)).

Lemma append_writes_split : append_writes (start l (length l)) (Z.of_nat (length l)) h e = (data_writes ++ [table_write]) ++ head_writes (h + 1).
Proof.
  unfold append_writes, table_write. rewrite (concat_pieces e Hek), <- (assoc_L (++)). fold (entry_size e). fold (next_start l e). unfold data_writes.
  assert (0 <= next_start l e) by (unfold next_start, entry_size; pose proof (start_header l (length l)); assert (0 <= ChunkHeaderSize) by done; lia).
  rewrite (u32_id (h + 1)) by lia. unfold u64. rewrite (Z.mod_small (next_start l e)) by lia. done.
Qed.

Lemma data_writes_spare : Forall (spares l) (data_writes ++ [table_write]) /\ Forall (fun w => apart w 0 (Z.of_nat (length (header h h h Begin Gen)))) (data_writes ++ [table_write]).
Proof.
  assert (Hhl : length (header h h h Begin Gen) = 52%nat) by (unfold header; rewrite !length_app; cbn [length Uint32ToBytes le_bytes]; lia).
  rewrite Hhl, !Forall_app. pose proof (start_header l (length l)) as Hst. assert (0 < ChunkUnit) by done. split_and!.
  - eapply Forall_impl; [apply consecutive_above|]. intros w Hw. right. right. exact Hw.
  - apply Forall_singleton. right. left. cbn [table_write fst snd]. change (length (Uint64ToBytes _)) with 8%nat. unfold ChunkHeaderSize. lia.
  - eapply Forall_impl; [apply consecutive_above|]. intros w Hw. left. cbn in Hw. unfold ChunkHeaderSize, ChunkMetaSize in *. lia.
  - apply Forall_singleton. left. cbn [table_write fst snd]. unfold ChunkMetaSize. lia.
Qed.

(** The file when all but the copies of the height is written. *)
Lemma block_written : log_on (perform (data_writes ++ [table_write]) f) (l ++ [e]).
Proof.
  destruct data_writes_spare as [Hsp _]. apply log_on_snoc; [by apply log_on_perform|done| | |done|done]; rewrite perform_app.
  - apply perform_stored.
    + rewrite <- (concat_pieces e Hek). by apply consecutive_stored.
    + apply Forall_singleton. right. cbn [table_write fst snd]. change (length (Uint64ToBytes _)) with 8%nat.
      pose proof (start_header l (length l)). unfold ChunkHeaderSize in *. lia.
  - apply stored_written_same.
Qed.

Lemma spares_take l' off bs k : spares l' (off, bs) -> spares l' (off, take k bs).
Proof. unfold spares. cbn [fst snd]. rewrite length_take. intros [?|[[? ?]|?]]; [left; lia|right; left; lia|by right; right]. Qed.

Lemma head_writes_spare H l' j : Forall (spares l') (tear j (head_writes H)).
Proof.
  apply Forall_tear; [intros; by apply spares_take|]. unfold head_writes. rewrite !Forall_cons.
  split_and!; [..|done]; (left; cbn [fst snd]; change (length (Uint32ToBytes _)) with 4%nat; unfold ChunkMetaSize; lia).
Qed.

(** The value of four bytes of which the first [j] are those of [v]. *)
Definition torn (j : nat) (v old : Z) : Z := le_value (take j (Uint32ToBytes v) ++ drop j (Uint32ToBytes old)).

Lemma torn_bytes j v old : Uint32ToBytes (torn j v old) = take j (Uint32ToBytes v) ++ drop j (Uint32ToBytes old).
Proof.
  assert (Hl : length (take j (Uint32ToBytes v) ++ drop j (Uint32ToBytes old)) = 4%nat).
  { rewrite length_app, length_take, length_drop. change (length (Uint32ToBytes _)) with 4%nat. lia. }
  unfold torn, Uint32ToBytes at 1. rewrite <- Hl at 1. apply le_bytes_le_value. apply Forall_app.
  split; [apply Forall_take|apply Forall_drop]; apply le_bytes_ok.
Qed.

Lemma torn_range j v old : 0 <= torn j v old < 2 ^ 32.
Proof.
  unfold torn. pose proof (le_value_bound (take j (Uint32ToBytes v) ++ drop j (Uint32ToBytes old))) as Hb.
  rewrite length_app, length_take, length_drop in Hb. change (length (Uint32ToBytes _)) with 4%nat in Hb.
  replace (j `min` 4 + (4 - j))%nat with 4%nat in Hb by lia. apply Hb. apply Forall_app.
  split; [apply Forall_take|apply Forall_drop]; apply le_bytes_ok.
Qed.

Lemma torn_none v old : 0 <= old < 2 ^ 32 -> torn 0 v old = old.
Proof. intros. unfold torn. rewrite take_0, drop_0. cbn [app]. unfold Uint32ToBytes. rewrite le_value_le_bytes. by apply Z.mod_small. Qed.

Lemma torn_whole j v old : (4 <= j)%nat -> 0 <= v < 2 ^ 32 -> torn j v old = v.
Proof.
  intros Hj Hv. unfold torn. rewrite take_ge, drop_ge, app_nil_r by (change (length (Uint32ToBytes _)) with 4%nat; lia).
  unfold Uint32ToBytes. rewrite le_value_le_bytes. by apply Z.mod_small.
Qed.

(** One byte suffices to tell the next height from the height. *)
Lemma torn_new j v : 0 <= v -> (0 < j)%nat -> torn j (v + 1) v <> v.
Proof.
  intros Hv Hj E. apply (f_equal (fun z => z mod 256)) in E. unfold torn in E. destruct j as [|j]; [lia|].
  unfold Uint32ToBytes in E. cbn [le_bytes take app le_value] in E. rewrite (Z.mul_comm 256), Z.mod_add, Z.mod_mod in E by lia.
  pose proof (Z.div_mod v 256). pose proof (Z.div_mod (v + 1) 256). pose proof (Z.mod_pos_bound v 256). lia.
Qed.

Lemma stored_torn f0 off old j v : stored f0 off (Uint32ToBytes old) -> stored (written f0 off (take j (Uint32ToBytes v))) off (Uint32ToBytes (torn j v old)).
Proof.
  intros Hs. rewrite torn_bytes. rewrite <- (take_drop j (Uint32ToBytes old)) in Hs. apply stored_app in Hs as [_ Hs]. apply stored_app.
  split; [apply stored_written_same|]. assert (El : length (take j (Uint32ToBytes v)) = length (take j (Uint32ToBytes old))) by (by rewrite !length_take).
  rewrite El. apply stored_written_other; [done|]. right. by rewrite El.
Qed.

(** The copies of the height after [j] bytes of their writes. *)
Lemma head_torn f0 H0 v j : 0 <= H0 < 2 ^ 32 -> 0 <= v < 2 ^ 32 -> stored f0 0 (header H0 H0 H0 Begin Gen) ->
  stored (perform (tear j (head_writes v)) f0) 0 (header (torn j v H0) (torn (j - 4) v H0) (torn (j - 8) v H0) Begin Gen).
Proof.
  intros Hr Hv Hs. rewrite !header_stored in Hs. destruct Hs as (HH & HA & HB & HR).
  assert (Hw : forall (f1 : File) off off' old bs, (length bs <= 4)%nat -> stored f1 off' old -> off' + Z.of_nat (length old) <= off \/ off + 4 <= off' ->
    stored (written f1 off bs) off' old) by (intros; apply stored_written_other; [done|lia]).
  assert (Hset : forall (f1 : File) off old k, stored f1 off (Uint32ToBytes old) -> stored (written f1 off (take k (Uint32ToBytes v))) off (Uint32ToBytes (torn k v old)))
    by (intros; by apply stored_torn).
  assert (Hfull : forall (f1 : File) off old k, (4 <= k)%nat -> stored (written f1 off (Uint32ToBytes v)) off (Uint32ToBytes (torn k v old)))
    by (intros; rewrite torn_whole by done; apply stored_written_same).
  assert (Hl4 : forall k, (length (take k (Uint32ToBytes v)) <= 4)%nat) by (intros; rewrite length_take; change (length (Uint32ToBytes v)) with 4%nat; lia).
  assert (HlU : (length (Uint32ToBytes v) <= 4)%nat) by (change (length (Uint32ToBytes v)) with 4%nat; lia).
  unfold head_writes. destruct j as [|j]; [rewrite tear_0, !torn_none by done; by apply header_stored|].
  rewrite tear_cons by lia. change (length (Uint32ToBytes v)) with 4%nat. destruct (4 <=? S j)%nat eqn:E4; [apply Nat.leb_le in E4|apply Nat.leb_gt in E4].
  2: { replace (S j - 4)%nat with 0%nat by lia. replace (S j - 8)%nat with 0%nat by lia. rewrite !(torn_none v H0) by done.
       cbn [perform foldl fst snd]. apply header_stored. split_and!; [by apply Hset|by (apply Hw; [done|done|cbn; lia])..]. }
  destruct (S j - 4)%nat as [|i] eqn:Ei.
  { replace (S j - 8)%nat with 0%nat by lia. rewrite !(torn_none v H0) by done. rewrite tear_0.
    cbn [perform foldl fst snd]. apply header_stored. split_and!; [by apply Hfull|by (apply Hw; [done|done|cbn; lia])..]. }
  rewrite tear_cons by lia. change (length (Uint32ToBytes v)) with 4%nat. destruct (4 <=? S i)%nat eqn:E8; [apply Nat.leb_le in E8|apply Nat.leb_gt in E8].
  2: { replace (S j - 8)%nat with 0%nat by lia. rewrite (torn_none v H0) by done. cbn [perform foldl fst snd]. apply header_stored. split_and!.
       - apply Hw; [done|by apply Hfull|cbn; lia].
       - apply Hset. by (apply Hw; [done|done|cbn; lia]).
       - by (do 2 (apply Hw; [done| |cbn; lia])).
       - by (do 2 (apply Hw; [done| |cbn; lia])). }
  replace (S j - 8)%nat with (S i - 4)%nat by lia. destruct (S i - 4)%nat as [|m] eqn:Em.
  { rewrite (torn_none v H0), tear_0 by done. cbn [perform foldl fst snd]. apply header_stored. split_and!.
    - apply Hw; [done|by apply Hfull|cbn; lia].
    - by apply Hfull.
    - by (do 2 (apply Hw; [done| |cbn; lia])).
    - by (do 2 (apply Hw; [done| |cbn; lia])). }
  assert (E12 : exists bs, tear (S m) [(8, Uint32ToBytes v)] = [(8, bs)] /\ (length bs <= 4)%nat /\
    forall f1, stored f1 8 (Uint32ToBytes H0) -> stored (written f1 8 bs) 8 (Uint32ToBytes (torn (S m) v H0))).
  { rewrite tear_cons by lia. change (length (Uint32ToBytes v)) with 4%nat. destruct (4 <=? S m)%nat eqn:E; [apply Nat.leb_le in E|].
    - exists (Uint32ToBytes v). split; [by destruct (S m - 4)%nat|]. split; [done|]. intros. by apply Hfull.
    - exists (take (S m) (Uint32ToBytes v)). split; [done|]. split; [done|]. intros. by apply Hset. }
  destruct E12 as (bs & -> & Hlb & Hb). cbn [perform foldl fst snd]. apply header_stored. split_and!.
  - do 2 (apply Hw; [done| |cbn; lia]). by apply Hfull.
  - apply Hw; [done| |cbn; lia]. by apply Hfull.
  - apply Hb. by (do 2 (apply Hw; [done| |cbn; lia])).
  - by (do 3 (apply Hw; [done| |cbn; lia])).
Qed.

(** What a crash after [k] bytes leaves: the block is there from the first byte of the
    second copy of the height on, and the copies tell so. *)
Abbreviation all_writes := (append_writes (start l (length l)) (Z.of_nat (length l)) h e).
Definition survives (k : nat) : Prop := (total all_writes <= k + 7)%nat.

Lemma total_app ws ws' : total (ws ++ ws') = (total ws + total ws')%nat.
Proof. unfold total. by rewrite fmap_app, concat_app, length_app. Qed.

Lemma crash_states k : let f' := perform (tear k all_writes) f in
  log_on f' (if decide (survives k) then l ++ [e] else l) /\ exists H A B, stored f' 0 (header H A B Begin Gen) /\
    repaired H A B = Some (if decide (survives k) then h + 1 else h) /\ 0 <= H < 2 ^ 32 /\ 0 <= A < 2 ^ 32 /\ 0 <= B < 2 ^ 32.
Proof.
  cbn zeta. unfold survives. rewrite append_writes_split. destruct data_writes_spare as [Hsp Hap].
  set (D := data_writes ++ [table_write]) in *. rewrite tear_app, (total_app D (head_writes (h + 1))). change (total (head_writes (h + 1))) with 12%nat.
  assert (Hu : u32 (h + 1) = h + 1) by (apply u32_id; lia). destruct (k <? total D)%nat eqn:Ek; [apply Nat.ltb_lt in Ek|apply Nat.ltb_ge in Ek].
  - rewrite !decide_False by lia.
    split; [apply log_on_perform; [done|by apply Forall_tear; [intros; by apply spares_take|]]|].
    exists h, h, h. split; [|split; [|lia]]; [|unfold repaired; by rewrite decide_True].
    apply perform_stored; [done|]. apply Forall_tear; [|done]. intros off bs j. unfold apart. cbn [fst snd]. rewrite length_take. lia.
  - set (j := (k - total D)%nat). set (f1 := perform D f).
    assert (Hf1 : stored f1 0 (header h h h Begin Gen)) by (by apply perform_stored).
    assert (Hl1 : log_on f1 l) by (by apply log_on_perform). assert (Hl2 : log_on f1 (l ++ [e])) by apply block_written.
    assert (HD : tear k D = D).
    { by apply tear_all. }
    rewrite HD, perform_app. fold f1. split.
    { apply log_on_perform; [by destruct (decide _)|apply head_writes_spare]. }
    exists (torn j (h + 1) h), (torn (j - 4) (h + 1) h), (torn (j - 8) (h + 1) h).
    split; [apply head_torn; [lia|lia|done]|]. split; [|split_and!; apply torn_range]. unfold repaired.
    destruct (decide (total D + 12 <= k + 7)%nat) as [Hs|Hs].
    + assert (Hne : torn (j - 4) (h + 1) h <> h) by (apply torn_new; lia). rewrite (torn_whole j) by lia.
      destruct (decide (8 < j)%nat) as [H8|H8].
      * rewrite (torn_whole (j - 4)) by lia. repeat destruct (decide _) as [?|?]; try done; try naive_solver.
      * replace (j - 8)%nat with 0%nat by lia. rewrite (torn_none (h + 1) h) by lia.
        rewrite decide_False by naive_solver. rewrite decide_False by done. by rewrite decide_True.
    + replace (j - 4)%nat with 0%nat by lia. replace (j - 8)%nat with 0%nat by lia. rewrite !(torn_none (h + 1) h) by lia.
      destruct (decide _) as [[-> _]|]; [done|]. by rewrite decide_True.
Qed.

(** Without a crash the block is in the log. *)
Lemma append_done : let f' := perform (append_writes (start l (length l)) (Z.of_nat (length l)) h e) f in
  log_on f' (l ++ [e]) /\ stored f' 0 (header (h + 1) (h + 1) (h + 1) Begin Gen).
Proof.
  cbn zeta. rewrite append_writes_split, perform_app. destruct data_writes_spare as [_ Hap]. split.
  - apply log_on_perform; [apply block_written|]. pose proof (head_writes_spare (h + 1) (l ++ [e]) 12) as Hs. exact Hs.
  - by eapply (header_set_B (written (written _ 0 _) 4 _)), (header_set_A (written _ 0 _)), header_set_H, perform_stored.
Qed.
End Append.

(** *** Loading *)

Lemma log_on_written f l off bs : log_on f l -> off + Z.of_nat (length bs) <= ChunkMetaSize -> log_on (written f off bs) l.
Proof. intros Hl Ho. apply (log_on_perform [(off, bs)]); [done|]. apply Forall_singleton. by left. Qed.

Lemma repair_ok f H A B Begin Gen r : stored f 0 (header H A B Begin Gen) -> repaired H A B = Some r -> 0 <= A < 2 ^ 32 ->
  exists f', repair H A B f = (Ok r, f') /\ stored f' 0 (header r r r Begin Gen) /\ forall l, log_on f l -> log_on f' l.
Proof.
  intros Hh Hr HA. unfold repaired in Hr. unfold repair. destruct (decide (H = A /\ A = B)) as [[-> ->]|Hne].
  { injection Hr as <-. rewrite !Z.eqb_refl. exists f. eauto 10. }
  assert (Ht : negb (H =? A) || negb (A =? B) = true).
  { destruct (Z.eqb_spec H A), (Z.eqb_spec A B); try done. destruct Hne. done. }
  rewrite Ht. cbv iota. destruct (decide (A = B)) as [->|HAB].
  { injection Hr as <-. rewrite Z.eqb_refl. cbv iota. eexists. split; [erewrite bind_ok by (by apply Seek_ok); erewrite bind_ok by apply Write_ok; reflexivity|].
    split; [by eapply (header_set_H (moved f 0))|]. intros l Hl. by apply log_on_written; [apply log_on_moved|]. }
  rewrite (proj2 (Z.eqb_neq A B)) by done. cbv iota. destruct (decide (H = u32 (B + 1))) as [->|HB].
  { injection Hr as <-. rewrite Z.eqb_refl. cbv iota. eexists. split.
    - erewrite bind_ok by by apply Seek_ok. erewrite bind_ok by apply Write_ok. erewrite bind_ok by apply Write_ok. reflexivity.
    - split; [by eapply (header_set_B (written (moved f 4) 4 _)), (header_set_A (moved f 4))|].
      intros l Hl. do 2 (apply log_on_written; [|done]). by apply log_on_moved. }
  rewrite (proj2 (Z.eqb_neq H _)) by done. cbv iota. destruct (decide (H = A)) as [->|]; [|done]. injection Hr as <-. rewrite Z.eqb_refl. cbv iota.
  eexists. split; [erewrite bind_ok by (by apply Seek_ok); erewrite bind_ok by apply Write_ok; reflexivity|].
  split; [by eapply (header_set_B (moved f 8))|]. intros l Hl. by apply log_on_written; [apply log_on_moved|].
Qed.

Lemma BytesToUint32_app v bs : 0 <= v < 2 ^ 32 -> BytesToUint32 (Uint32ToBytes v ++ bs) = Ok v.
Proof.
  intros Hv. unfold BytesToUint32, read_le. rewrite length_app. change (length (Uint32ToBytes v)) with 4%nat. rewrite (proj2 (Nat.ltb_ge _ _)) by lia.
  rewrite take_app_length' by done. unfold Uint32ToBytes. rewrite le_value_le_bytes. f_equal. by apply Z.mod_small.
Qed.

Lemma uint32_at_ok n a v bs f : Z.of_nat (length a) = n -> 0 <= v < 2 ^ 32 -> uint32_at n (a ++ Uint32ToBytes v ++ bs) f = (Ok v, f).
Proof.
  intros <- Hv. unfold uint32_at. rewrite slice_from_ok by (rewrite length_app; lia). rewrite Nat2Z.id, drop_app_length.
  cbn [res_bind]. rewrite BytesToUint32_app by done. done.
Qed.

Lemma load_ok f l H A B Begin Gen : log_on f l -> stored f 0 (header H A B Begin Gen) -> repaired H A B = Some (Begin + Z.of_nat (length l)) ->
  0 <= H < 2 ^ 32 -> 0 <= A < 2 ^ 32 -> 0 <= B < 2 ^ 32 -> Begin mod ChunkUnit = 0 -> 0 <= Begin /\ Begin + ChunkUnit < 2 ^ 32 -> length Gen = 32%nat ->
  exists p, LoadPile f = Ok p /\ pile_holds p l /\ BeginHeight p = Begin /\ pl_GenHash p = Gen.
Proof.
  intros Hl Hh Hr HH HA HB Hmod Hrange Hgen. pose proof (lo_length _ _ Hl) as Hlen. pose proof (start_header l (length l)) as Hst. pose proof (lo_size _ _ Hl) as Hsz.
  assert (HCU : 0 < ChunkUnit) by done.
  set (meta := get_bytes (fi_bytes f) 0 256). set (rest := get_bytes (fi_bytes f) 52 204).
  assert (Hhl : length (header H A B Begin Gen) = 52%nat) by (unfold header; rewrite !length_app; cbn [length Uint32ToBytes le_bytes]; lia).
  assert (Hmeta : meta = header H A B Begin Gen ++ rest).
  { unfold meta. change 256%nat with (52 + 204)%nat. rewrite get_bytes_app. f_equal. destruct Hh as [E _]. rewrite Hhl in E. exact E. }
  assert (Hsm : stored f 0 meta). { unfold meta. split; rewrite length_get_bytes; [done|]. unfold ChunkHeaderSize, ChunkMetaSize in *. lia. }
  destruct (repair_ok (moved f 256) H A B Begin Gen _ Hh Hr HA) as (f1 & E1 & Hh1 & Hl1). specialize (Hl1 l (log_on_moved f l 256 Hl)).
  destruct (block_end_ok f1 l (length l) Hl1 ltac:(lia)) as (pos & E2).
  assert (E : load f = (Ok (Begin + Z.of_nat (length l), Begin, Gen), moved f1 pos)).
  { unfold load. change (Z.to_nat ChunkMetaSize) with 256%nat. replace 256%nat with (length meta) by apply length_get_bytes.
    rewrite Seek_Read by done. replace (0 + Z.of_nat (length meta)) with 256 by (unfold meta; rewrite length_get_bytes; done).
    rewrite Hmeta. unfold header. rewrite <- !(assoc_L (++)). set (T := Uint32ToBytes (u32 (Begin + ChunkUnit)) ++ Gen ++ rest).
    erewrite bind_ok by by apply (uint32_at_ok 0 []). erewrite bind_ok by by apply (uint32_at_ok 4 (Uint32ToBytes H)).
    erewrite bind_ok by by apply (uint32_at_ok 8 (Uint32ToBytes H ++ Uint32ToBytes A)).
    erewrite bind_ok by (apply (uint32_at_ok 12 (Uint32ToBytes H ++ Uint32ToBytes A ++ Uint32ToBytes B)); [done|lia]).
    erewrite bind_ok by (apply (uint32_at_ok 16 (Uint32ToBytes H ++ Uint32ToBytes A ++ Uint32ToBytes B ++ Uint32ToBytes Begin)); [done|apply Z.mod_pos_bound; lia]).
    erewrite bind_ok; cycle 1. { unfold lift. rewrite slice_from_ok by (unfold T; rewrite !length_app; cbn [length Uint32ToBytes le_bytes]; lia). reflexivity. }
    assert (Ed : copy_into 32 (drop (Z.to_nat 20) (Uint32ToBytes H ++ Uint32ToBytes A ++ Uint32ToBytes B ++ Uint32ToBytes Begin ++ T)) = Gen).
    { change (drop (Z.to_nat 20) _) with (Gen ++ rest). unfold copy_into. rewrite take_app_length' by done. rewrite length_app. replace (32 - (length Gen + length rest))%nat with 0%nat by lia.
      by rewrite app_nil_r. }
    rewrite Ed. rewrite Hmod, !Z.eqb_refl. erewrite bind_ok by reflexivity. erewrite bind_ok by reflexivity. erewrite bind_ok by exact E1.
    replace (Begin + Z.of_nat (length l) - Begin) with (Z.of_nat (length l)) by lia. rewrite u32_id by lia. erewrite bind_ok by exact E2.
    erewrite bind_ok by reflexivity. cbn [fi_size moved]. rewrite (proj2 (Z.ltb_ge _ _)) by apply (lo_size _ _ Hl1). reflexivity. }
  unfold LoadPile. rewrite E. eexists. split; [reflexivity|]. split; [|done]. by split; [apply log_on_moved| | | | |].
Qed.

(** *** The operations *)

Lemma on_file_ok {A} (m : ST File A) p r f' : m (pl_file p) = (r, f') -> on_file m p = (r, mkPile f' (HeadHeight p) (BeginHeight p) (pl_GenHash p)).
Proof. unfold on_file. by intros ->. Qed.

Lemma perform_moved ws : forall f pos, fi_bytes (perform ws (moved f pos)) = fi_bytes (perform ws f).
Proof. destruct ws as [|w ws]; done. Qed.

Lemma AppendData_writes p l e sync : pile_holds p l -> length (en_hash e) = 32%nat -> Z.of_nat (length l) < ChunkUnit ->
  exists pos, pile_AppendData sync (HeadHeight p + 1) (en_hash e) (en_datas e) p =
    (Ok tt, mkPile (perform (append_writes (start l (length l)) (Z.of_nat (length l)) (HeadHeight p) e) (moved (pl_file p) pos))
       (HeadHeight p + 1) (BeginHeight p) (pl_GenHash p)).
Proof.
  intros [Hl Hh Hhead Hmod [Hb0 Hb1] Hg] Hek Hlen. unfold pile_AppendData. erewrite bind_ok by reflexivity. unfold id.
  rewrite (u32_id (HeadHeight p + 1)), Z.eqb_refl by lia. cbn [negb].
  replace (HeadHeight p - BeginHeight p) with (Z.of_nat (length l)) by lia. rewrite u32_id by lia.
  destruct (block_end_ok (pl_file p) l (length l) Hl ltac:(lia)) as (pos & E). erewrite bind_ok by (apply on_file_ok; exact E).
  pose proof (start_header l (length l)). assert (0 < ChunkHeaderSize) by done.
  erewrite bind_ok by (apply on_file_ok, write_block_ok; [lia|lia|done]). unfold modify. cbn [pl_file HeadHeight BeginHeight pl_GenHash].
  rewrite (u32_id (HeadHeight p + 1)) by lia. by exists pos.
Qed.

Lemma AppendData_holds p l e sync : pile_holds p l -> entry_ok e -> Z.of_nat (length l) < ChunkUnit -> next_start l e < 2 ^ 63 ->
  exists p', pile_AppendData sync (HeadHeight p + 1) (en_hash e) (en_datas e) p = (Ok tt, p') /\ pile_holds p' (l ++ [e]) /\
    BeginHeight p' = BeginHeight p /\ pl_GenHash p' = pl_GenHash p.
Proof.
  intros Hp Hek Hlen Hn. destruct (AppendData_writes p l e sync Hp (ek_hash _ Hek) Hlen) as (pos & E). destruct Hp as [Hl Hh Hhead Hmod [Hb0 Hb1] Hg].
  eexists. split; [exact E|]. split; [|done]. rewrite Hhead in *.
  destruct (append_done (moved (pl_file p) pos) l e (BeginHeight p) (pl_GenHash p) (log_on_moved _ _ pos Hl) Hek Hlen Hn Hg (conj Hb0 Hb1) Hh) as [Hl' Hh'].
  split; cbn [pl_file HeadHeight BeginHeight pl_GenHash]; [done..| |done|done|done]. rewrite length_app. cbn. lia.
Qed.

Lemma AppendData_refused p h d ds sync : h <> u32 (HeadHeight p + 1) -> pile_AppendData sync h d ds p = (Err ErrInvalidAppendHeight, p).
Proof. intros H. unfold pile_AppendData. erewrite bind_ok by reflexivity. unfold id. by rewrite (proj2 (Z.eqb_neq _ _)). Qed.

(** *** Reading *)

Lemma drop_zlens zds : forall i, drop (4 * i) (zlens zds) = zlens (drop i zds).
Proof.
  induction zds as [|z zds IH]; intros i; [by destruct i|]. destruct i as [|i]; [done|]. replace (4 * S i)%nat with (4 + 4 * i)%nat by lia.
  change (zlens (z :: zds)) with (Uint32ToBytes (Z.of_nat (length z)) ++ zlens zds). rewrite <- drop_drop. change 4%nat with (length (Uint32ToBytes (Z.of_nat (length z)))) at 2.
  rewrite drop_app_length. apply IH.
Qed.

Lemma part_size_ok zds i zd f : zds !! i = Some zd -> Z.of_nat (length zd) < 2 ^ 32 -> part_size (zlens zds) (Z.of_nat i) f = (Ok (Z.of_nat (length zd)), f).
Proof.
  intros Hi Hz. unfold part_size. pose proof (lookup_lt_Some _ _ _ Hi). rewrite slice_from_ok by (rewrite length_zlens; lia).
  replace (Z.to_nat (4 * Z.of_nat i)) with (4 * i)%nat by lia. rewrite drop_zlens, (drop_S _ _ _ Hi). cbn [res_bind].
  change (zlens (zd :: ?r)) with (Uint32ToBytes (Z.of_nat (length zd)) ++ zlens r). rewrite BytesToUint32_app by lia. done.
Qed.

Lemma skip_parts_ok zds f : Forall (fun zd => Z.of_nat (length zd) < 2 ^ 32) zds -> forall n i z, (i + n <= length zds)%nat ->
  skip_parts (zlens zds) n (Z.of_nat i) z f = (Ok (z + Z.of_nat (length (concat (take n (drop i zds))))), f).
Proof.
  intros Hz. induction n as [|n IH]; intros i z Hn; cbn [skip_parts]; [by rewrite take_0, Z.add_0_r|].
  assert (exists zd, zds !! i = Some zd) as [zd Hzd] by (apply lookup_lt_is_Some; lia).
  erewrite bind_ok by (apply part_size_ok; [exact Hzd|]; rewrite Forall_lookup in Hz; by eapply Hz).
  replace (Z.of_nat i + 1) with (Z.of_nat (S i)) by lia. rewrite IH by lia. rewrite (drop_S _ _ _ Hzd). cbn [take concat]. rewrite length_app. do 2 f_equal. lia.
Qed.

Lemma read_part_ok zds i d f : zds !! i = Some (gzip_Write d) -> Z.of_nat (length (gzip_Write d)) < 2 ^ 32 -> stored f (fi_pos f) (gzip_Write d) ->
  read_part (zlens zds) (Z.of_nat i) f = (Ok d, moved f (fi_pos f + Z.of_nat (length (gzip_Write d)))).
Proof.
  intros Hi Hz Hs. unfold read_part. erewrite bind_ok by by apply part_size_ok. rewrite Nat2Z.id. erewrite bind_ok by by apply Read_ok.
  rewrite gzip_roundtrip. done.
Qed.

Lemma read_parts_ok ds f0 : Forall (fun zd => Z.of_nat (length zd) < 2 ^ 32) (gzip_Write <$> ds) -> forall n i f, (i + n <= length ds)%nat ->
  f = moved f0 (fi_pos f) -> stored f (fi_pos f) (concat (take n (drop i (gzip_Write <$> ds)))) ->
  exists pos, read_parts (zlens (gzip_Write <$> ds)) n (Z.of_nat i) f = (Ok (concat (take n (drop i ds))), moved f0 pos).
Proof.
  intros Hz. induction n as [|n IH]; intros i f Hn Hf Hs; cbn [read_parts].
  - exists (fi_pos f). rewrite take_0. by rewrite Hf at 1.
  - assert (exists d, ds !! i = Some d) as [d Hd] by (apply lookup_lt_is_Some; lia).
    assert (Hzd : (gzip_Write <$> ds) !! i = Some (gzip_Write d)) by (by rewrite list_lookup_fmap, Hd).
    rewrite (drop_S _ _ _ Hzd) in Hs. cbn [take concat] in Hs. apply stored_app in Hs as [Hs1 Hs2].
    erewrite bind_ok by (apply read_part_ok; [exact Hzd| |done]; rewrite Forall_lookup in Hz; by eapply Hz).
    replace (Z.of_nat i + 1) with (Z.of_nat (S i)) by lia.
    destruct (IH (S i) (moved f (fi_pos f + Z.of_nat (length (gzip_Write d))))) as (pos & E); [lia|by rewrite Hf|done|].
    exists pos. erewrite bind_ok by exact E. rewrite (drop_S _ _ _ Hd). done.
Qed.

(** The pile with its file at another position. *)
Definition at_pos (p : Pile) (pos : Z) : Pile := mkPile (moved (pl_file p) pos) (HeadHeight p) (BeginHeight p) (pl_GenHash p).

Lemma pile_holds_at p l pos : pile_holds p l -> pile_holds (at_pos p pos) l.
Proof. intros [Hl Hh Hhead Hmod Hr Hg]. split; try done. by apply log_on_moved. Qed.

Section Reading.
Context (p : Pile) (l : list Entry) (Hp : pile_holds p l) (i : nat) (e : Entry) (Hi : l !! i = Some e).
Abbreviation height := (BeginHeight p + Z.of_nat (S i)).

Lemma block_start_ok : exists pos, block_start height p = (Ok (start l i), at_pos p pos).
Proof.
  destruct Hp as [Hl Hh Hhead Hmod [Hb0 Hb1] Hg]. pose proof (lookup_lt_Some _ _ _ Hi). pose proof (lo_length _ _ Hl).
  destruct (block_end_ok (pl_file p) l i Hl ltac:(lia)) as (pos & E). exists pos. unfold block_start. erewrite bind_ok by reflexivity. unfold id.
  replace (height - BeginHeight p) with (Z.of_nat (S i)) by lia. rewrite u32_id by lia. replace (Z.of_nat (S i) - 1) with (Z.of_nat i) by lia.
  apply (on_file_ok _ _ _ _ E).
Qed.

Lemma in_range_ok : in_range height p = (Ok tt, p).
Proof.
  destruct Hp as [Hl Hh Hhead Hmod [Hb0 Hb1] Hg]. pose proof (lookup_lt_Some _ _ _ Hi). pose proof (lo_length _ _ Hl). assert (0 < ChunkUnit) by done.
  unfold in_range. erewrite bind_ok by reflexivity. unfold id. rewrite u32_id by lia. rewrite (proj2 (Z.ltb_ge _ _)) by lia. erewrite bind_ok by reflexivity.
  by rewrite (proj2 (Z.ltb_ge _ _)) by lia.
Qed.

Lemma entry_stored : entry_ok e /\ stored (pl_file p) (start l i) (en_hash e) /\ stored (pl_file p) (start l i + 32) [Z.of_nat (length (en_datas e))] /\
  stored (pl_file p) (start l i + 33) (zlens (zdatas e)) /\ stored (pl_file p) (start l i + 33 + 4 * Z.of_nat (length (en_datas e))) (concat (zdatas e)).
Proof.
  destruct Hp as [Hl _ _ _ _ _]. pose proof (lo_ok _ _ Hl) as Hok. rewrite Forall_lookup in Hok. specialize (Hok i e Hi). split; [done|].
  pose proof (lo_entry _ _ Hl i e Hi) as Hs. unfold entry_bytes in Hs. rewrite !stored_app, (ek_hash _ Hok), length_zlens in Hs. cbn [length] in Hs.
  assert (Hz : length (zdatas e) = length (en_datas e)) by apply length_fmap. rewrite Hz in Hs. destruct Hs as (H1 & H2 & H3 & H4).
  replace (start l i + Z.of_nat 32) with (start l i + 32) in * by lia. replace (start l i + 32 + Z.of_nat 1) with (start l i + 33) in * by lia.
  replace (start l i + 33 + Z.of_nat (4 * length (en_datas e))) with (start l i + 33 + 4 * Z.of_nat (length (en_datas e))) in H4 by lia. done.
Qed.

Lemma GetHash_ok : exists pos, pile_GetHash height p = (Ok (en_hash e), at_pos p pos).
Proof.
  destruct entry_stored as (Hok & Hs & _). destruct block_start_ok as (pos & E). pose proof (start_header l i). assert (0 < ChunkHeaderSize) by done.
  unfold pile_GetHash. erewrite bind_ok by reflexivity. unfold id.
  pose proof in_range_ok as Hr. unfold in_range in Hr. erewrite bind_ok in Hr by reflexivity. unfold id in Hr.
  destruct (u32 (BeginHeight p + ChunkUnit) <? height); [done|]. erewrite bind_ok by reflexivity. erewrite bind_ok by exact E.
  eexists. erewrite on_file_ok; [reflexivity|]. cbn [at_pos pl_file].
  pose proof (Seek_Read (moved (pl_file p) pos) (start l i) (en_hash e) (fun value => ret (copy_into 32 value)) Hs ltac:(lia)) as Er.
  rewrite (ek_hash _ Hok) in Er. rewrite Er. rewrite copy_into_id by apply Hok. done.
Qed.

Lemma part_table_ok allowed pos : part_table (start l i) allowed (moved (pl_file p) pos) =
  if allowed (Z.of_nat (length (en_datas e))) then (Ok (Z.of_nat (length (en_datas e)), zlens (zdatas e)), moved (pl_file p) (start l i + 33 + 4 * Z.of_nat (length (en_datas e))))
  else (Err ErrInvalidDataIndex, moved (pl_file p) (start l i + 33)).
Proof.
  destruct entry_stored as (Hok & _ & Hs1 & Hs2 & _). pose proof (start_header l i). assert (0 < ChunkHeaderSize) by done. pose proof (ek_parts _ Hok) as Hn.
  unfold part_table. change 1%nat with (length [Z.of_nat (length (en_datas e))]). rewrite Seek_Read by (done || lia). cbn [length head default].
  replace (start l i + 32 + Z.of_nat 1) with (start l i + 33) by lia. unfold guard. cbn [from_option id]. unfold id. destruct (allowed _); [|done]. erewrite bind_ok by reflexivity.
  unfold u8. rewrite Z.mod_small by lia. replace (Z.to_nat (4 * Z.of_nat (length (en_datas e)))) with (length (zlens (zdatas e))).
  2:{ rewrite length_zlens. unfold zdatas. rewrite length_fmap. lia. }
  erewrite bind_ok by (by apply Read_ok). cbn [fi_pos moved]. unfold ret. do 2 f_equal. rewrite length_zlens. unfold zdatas. rewrite length_fmap. lia.
Qed.

Lemma GetData_ok k d : en_datas e !! k = Some d -> exists pos, pile_GetData height (Z.of_nat k) p = (Ok d, at_pos p pos).
Proof.
  intros Hk. destruct entry_stored as (Hok & _ & _ & Hs2 & Hs3). destruct block_start_ok as (pos & E). pose proof (start_header l i). assert (0 < ChunkHeaderSize) by done.
  pose proof (ek_parts _ Hok) as Hn. pose proof (lookup_lt_Some _ _ _ Hk) as Hlt. assert (Hz : zdatas e !! k = Some (gzip_Write d)) by (unfold zdatas; by rewrite list_lookup_fmap, Hk).
  assert (Hzl : length (zdatas e) = length (en_datas e)) by apply length_fmap.
  unfold pile_GetData. erewrite bind_ok by apply in_range_ok. erewrite bind_ok by exact E. eexists. erewrite on_file_ok; [reflexivity|]. cbn [at_pos pl_file].
  erewrite bind_ok; cycle 1. { rewrite part_table_ok, (proj2 (Z.leb_gt _ _)) by lia. reflexivity. }
  cbn [fst snd]. unfold u8. rewrite Z.mod_small, Nat2Z.id by lia. erewrite bind_ok by (apply (skip_parts_ok (zdatas e) _ (ek_sizes _ Hok) k 0); lia).
  rewrite drop_0. rewrite <- (take_drop_middle _ _ _ Hz), concat_app in Hs3. cbn [concat] in Hs3. apply stored_app in Hs3 as [_ Hs3]. apply stored_app in Hs3 as [Hs3 _].
  replace (start l i + 32 + 1) with (start l i + 33) by lia. erewrite bind_ok by (apply Seek_ok; lia).
  rewrite (read_part_ok (zdatas e) k d); [reflexivity|done| |done]. pose proof (ek_sizes _ Hok) as Hsz. rewrite Forall_lookup in Hsz. by eapply Hsz.
Qed.

Lemma GetData_missing k : (length (en_datas e) <= k)%nat -> exists pos, pile_GetData height (Z.of_nat k) p = (Err ErrInvalidDataIndex, at_pos p pos).
Proof.
  intros Hk. destruct block_start_ok as (pos & E). unfold pile_GetData. erewrite bind_ok by apply in_range_ok. erewrite bind_ok by exact E.
  eexists. erewrite on_file_ok; [reflexivity|]. cbn [at_pos pl_file]. erewrite bind_err; [reflexivity|]. by rewrite part_table_ok, (proj2 (Z.leb_le _ _)) by lia.
Qed.

Lemma GetDatas_ok from count : (from + count <= length (en_datas e))%nat ->
  exists pos, pile_GetDatas height (Z.of_nat from) (Z.of_nat count) p = (Ok (concat (take count (drop from (en_datas e)))), at_pos p pos).
Proof.
  intros Hk. destruct entry_stored as (Hok & _ & _ & Hs2 & Hs3). destruct block_start_ok as (pos & E). pose proof (start_header l i). assert (0 < ChunkHeaderSize) by done.
  pose proof (ek_parts _ Hok) as Hn. assert (Hzl : length (zdatas e) = length (en_datas e)) by apply length_fmap.
  unfold pile_GetDatas. erewrite bind_ok by apply in_range_ok. erewrite bind_ok by exact E.
  assert (Hc : concat (zdatas e) = concat (take from (zdatas e)) ++ concat (take count (drop from (zdatas e))) ++ concat (drop count (drop from (zdatas e)))).
  { by rewrite <- !concat_app, (take_drop count), take_drop. }
  rewrite Hc in Hs3. apply stored_app in Hs3 as [_ Hs3]. apply stored_app in Hs3 as [Hs3 _].
  set (z := start l i + 33 + 4 * Z.of_nat (length (en_datas e)) + Z.of_nat (length (concat (take from (zdatas e))))) in *.
  destruct (read_parts_ok (en_datas e) (pl_file p) (ek_sizes _ Hok) count from (moved (pl_file p) z) Hk eq_refl Hs3) as (pos' & E').
  exists pos'. erewrite on_file_ok; [reflexivity|]. cbn [at_pos pl_file].
  erewrite bind_ok; cycle 1. { rewrite part_table_ok, (proj2 (Z.ltb_ge _ _)) by lia. reflexivity. }
  cbn [fst snd]. unfold u8. rewrite Z.mod_small, !Nat2Z.id by lia. erewrite bind_ok by (apply (skip_parts_ok (zdatas e) _ (ek_sizes _ Hok) from 0); lia).
  rewrite drop_0. replace (start l i + 32 + 1) with (start l i + 33) by lia. fold z. erewrite bind_ok by (apply Seek_ok; unfold z; lia). exact E'.
Qed.
End Reading.

Lemma out_of_range p l h : pile_holds p l -> HeadHeight p < h -> in_range h p = (Err ErrInvalidHeight, p).
Proof.
  intros [Hl Hh Hhead Hmod [Hb0 Hb1] Hg] Hr. unfold in_range. erewrite bind_ok by reflexivity. unfold id. unfold guard.
  destruct (negb (u32 _ <? h)); [|done]. erewrite bind_ok by reflexivity. by rewrite (proj2 (Z.ltb_lt _ _)).
Qed.

(** *** New piles *)

Lemma copy_at_app n a src dst : n = length a -> (length src <= length dst)%nat -> copy_at n src (a ++ dst) = a ++ src ++ drop (length src) dst.
Proof.
  intros -> Hl. unfold copy_at. rewrite take_app_length, <- drop_drop, drop_app_length. apply take_ge. rewrite !length_app, length_drop. lia.
Qed.

Lemma new_meta_header Gen Begin : length Gen = 32%nat -> new_meta Gen Begin = header Begin Begin Begin Begin Gen ++ replicate 204 0.
Proof.
  intros Hg. unfold new_meta. change (Z.to_nat ChunkMetaSize) with 256%nat. set (w := Uint32ToBytes Begin). set (e := Uint32ToBytes (u32 (Begin + ChunkUnit))).
  change (replicate 256 0) with ([] ++ replicate 256 0). rewrite (copy_at_app 0 [] w) by (done || (rewrite length_replicate; cbn; lia)). cbn [app]. change (drop (length w) (replicate 256 0)) with (replicate 252 0).
  rewrite (copy_at_app 4 w w) by (done || (rewrite length_replicate; cbn; lia)). change (drop (length w) (replicate 252 0)) with (replicate 248 0).
  rewrite (assoc_L (++) w w). rewrite (copy_at_app 8 (w ++ w) w) by (done || (rewrite length_replicate; cbn; lia)). change (drop (length w) (replicate 248 0)) with (replicate 244 0).
  rewrite (assoc_L (++) _ w). rewrite (copy_at_app 12 ((w ++ w) ++ w) w) by (done || (rewrite length_replicate; cbn; lia)). change (drop (length w) (replicate 244 0)) with (replicate 240 0).
  rewrite (assoc_L (++) _ w). rewrite (copy_at_app 16 (((w ++ w) ++ w) ++ w) e) by (done || (rewrite length_replicate; cbn; lia)). change (drop (length e) (replicate 240 0)) with (replicate 236 0).
  rewrite (assoc_L (++) _ e). rewrite (copy_at_app 20 ((((w ++ w) ++ w) ++ w) ++ e) Gen) by (done || (rewrite length_replicate; lia)). rewrite Hg. change (drop 32 (replicate 236 0)) with (replicate 204 0).
  unfold header. fold w e. by rewrite <- !(assoc_L (++)).
Qed.

Lemma NewPile_holds Gen Begin : length Gen = 32%nat -> Begin mod ChunkUnit = 0 -> 0 <= Begin /\ Begin + ChunkUnit < 2 ^ 32 ->
  exists p, NewPile Gen Begin = Ok p /\ pile_holds p [] /\ BeginHeight p = Begin /\ pl_GenHash p = Gen.
Proof.
  intros Hg Hmod Hr. assert (Hpos : 256 < ChunkHeaderSize) by done. unfold NewPile.
  erewrite (bind_ok (gets fi_size)) by reflexivity. cbn [fi_size file_new]. rewrite (proj2 (Z.ltb_lt _ _)) by lia.
  erewrite bind_ok by reflexivity. erewrite bind_ok by (by apply Seek_ok). rewrite Hmod, Z.eqb_refl. erewrite bind_ok by reflexivity. rewrite Write_ok.
  eexists. split; [reflexivity|]. split; [|done]. rewrite new_meta_header by done. cbn [fi_pos moved]. split; cbn [pl_file HeadHeight BeginHeight pl_GenHash]; [| |cbn; lia|done|done|done].
  - assert (Hz : start [] 0 = ChunkHeaderSize) by (unfold start; cbn; lia).
    split; [intros i Hi; cbn in Hi; lia|done| |constructor|done|]; cbn [length]; rewrite Hz; [|done]. cbn [written fi_size moved]. lia.
  - apply (stored_app _ _ _ (replicate 204 0)). apply stored_written_same.
Qed.

(** A pile is a log of blocks: a new pile is empty; [AppendData] adds a block
    at the next height and refuses every other height, leaving the file alone;
    [GetHash], [GetData] and [GetDatas] return the hash, a part and a run of
    parts of the block of any height of the pile, however many blocks were
    written after it, and [ErrInvalidDataIndex] or [ErrInvalidHeight] beyond the
    parts of the block and the blocks of the pile; and the file loads back as the
    same log. *)
Lemma pile_is_a_log (p : Pile) (l : list Entry) : pile_holds p l ->
  (forall e sync, entry_ok e -> Z.of_nat (length l) < ChunkUnit -> next_start l e < 2 ^ 63 ->
     exists p', pile_AppendData sync (HeadHeight p + 1) (en_hash e) (en_datas e) p = (Ok tt, p') /\ pile_holds p' (l ++ [e])) /\
  (forall h d ds sync, h <> u32 (HeadHeight p + 1) -> pile_AppendData sync h d ds p = (Err ErrInvalidAppendHeight, p)) /\
  (forall i e, l !! i = Some e -> let h := BeginHeight p + Z.of_nat (S i) in
     (exists pos, pile_GetHash h p = (Ok (en_hash e), at_pos p pos)) /\
     (forall k, exists pos, pile_GetData h (Z.of_nat k) p = (match en_datas e !! k with Some d => Ok d | None => Err ErrInvalidDataIndex end, at_pos p pos)) /\
     (forall from count, (from + count <= length (en_datas e))%nat ->
        exists pos, pile_GetDatas h (Z.of_nat from) (Z.of_nat count) p = (Ok (concat (take count (drop from (en_datas e)))), at_pos p pos))) /\
  (forall h k, HeadHeight p < h -> pile_GetData h k p = (Err ErrInvalidHeight, p)) /\
  (exists p', LoadPile (pl_file p) = Ok p' /\ pile_holds p' l /\ BeginHeight p' = BeginHeight p).
Proof.
  intros Hp. split_and!.
  - intros e sync Hek Hlen Hn. destruct (AppendData_holds p l e sync Hp Hek Hlen Hn) as (p' & E & Hp' & _). eauto.
  - intros. by apply AppendData_refused.
  - intros i e Hi. split; [by eapply GetHash_ok|]. split; [|intros; by eapply GetDatas_ok].
    intros k. destruct (en_datas e !! k) as [d|] eqn:Ek; [by eapply GetData_ok|]. apply lookup_ge_None in Ek. by eapply GetData_missing.
  - intros h k Hh. unfold pile_GetData. by erewrite bind_err by (by eapply out_of_range).
  - pose proof Hp as [Hl Hh Hhead Hmod Hr Hg]. pose proof (lo_length _ _ Hl).
    destruct (load_ok (pl_file p) l (HeadHeight p) (HeadHeight p) (HeadHeight p) (BeginHeight p) (pl_GenHash p)) as (p' & E & Hp' & Hb & _); try done; try lia.
    + unfold repaired. rewrite decide_True by done. by rewrite Hhead.
    + eauto.
Qed.

(** C24. A crash while a block is appended loses at most that block.  [AppendData]
    of the next height succeeds; let [ws] be the writes it made on the file, in their
    order.  For every number [k] of bytes, the file that the first [k] bytes of [ws]
    leave (the last write being cut) loads again: as the log with the block when a byte
    of the second copy of the height was written, as the log without it before, and in
    both cases as a pile that works as before.  (The writes reach the file in their
    order, as after a crash of the program.) *)
Theorem crash_while_appending (p : Pile) (l : list Entry) (e : Entry) (sync : bool) :
  pile_holds p l -> entry_ok e -> Z.of_nat (length l) < ChunkUnit -> next_start l e < 2 ^ 63 ->
  exists p' ws, pile_AppendData sync (HeadHeight p + 1) (en_hash e) (en_datas e) p = (Ok tt, p') /\
    fi_log (pl_file p') = fi_log (pl_file p) ++ ws /\
    forall k, exists q, LoadPile (perform (tear k ws) (pl_file p)) = Ok q /\ BeginHeight q = BeginHeight p /\
      pile_holds q (if decide (total ws <= k + 7)%nat then l ++ [e] else l).
Proof.
  intros Hp Hek Hlen Hn. pose proof Hp as [Hl Hh Hhead Hmod [Hb0 Hb1] Hg].
  destruct (AppendData_writes p l e sync Hp (ek_hash _ Hek) Hlen) as (pos & E). eexists _, _. split; [exact E|].
  split; [cbn [pl_file]; rewrite perform_log; reflexivity|]. intros k. rewrite Hhead in *.
  destruct (crash_states (pl_file p) l e (BeginHeight p) (pl_GenHash p) Hl Hek Hlen Hn Hg (conj Hb0 Hb1) Hh k) as (Hl' & H & A & B & Hh' & Hr & HH & HA & HB).
  unfold survives in *. set (l' := if decide _ then _ else _) in *.
  destruct (load_ok _ l' H A B (BeginHeight p) (pl_GenHash p) Hl' Hh') as (q & Eq & Hq & Hbeg & _); try done; [|eauto].
  rewrite Hr. f_equal. unfold l'. destruct (decide _); [rewrite length_app; cbn; lia|done].
Qed.

(** *** Too many parts *)

Lemma append_spares l Head e : Z.of_nat (length l) < ChunkUnit -> Forall (spares l) (append_writes (start l (length l)) (Z.of_nat (length l)) Head e).
Proof.
  intros Hlen. unfold append_writes, head_writes. rewrite !Forall_app, !Forall_cons. split_and!; [| |done|..|done].
  - eapply Forall_impl; [apply consecutive_above|]. intros w Hw. right. right. exact Hw.
  - right. left. cbn [fst snd]. change (length (Uint64ToBytes _)) with 8%nat. unfold ChunkHeaderSize. lia.
  - left. cbn [fst snd]. change (length (Uint32ToBytes _)) with 4%nat. unfold ChunkMetaSize. lia.
  - left. cbn [fst snd]. change (length (Uint32ToBytes _)) with 4%nat. unfold ChunkMetaSize. lia.
  - left. cbn [fst snd]. change (length (Uint32ToBytes _)) with 4%nat. unfold ChunkMetaSize. lia.
Qed.

(** The number of parts is in the file. *)
Lemma append_count f l Head e : Z.of_nat (length l) < ChunkUnit -> length (en_hash e) = 32%nat ->
  stored (perform (append_writes (start l (length l)) (Z.of_nat (length l)) Head e) f) (start l (length l) + 32) [u8 (Z.of_nat (length (en_datas e)))].
Proof.
  intros Hlen Hhash. pose proof (start_header l (length l)). assert (0 < ChunkUnit) by done. unfold append_writes. rewrite perform_app. apply perform_stored.
  - pose proof (consecutive_stored (block_pieces e) (start l (length l)) f ltac:(done)) as Hc.
    unfold block_pieces in Hc at 2. cbn [concat] in Hc. rewrite !stored_app, Hhash in Hc. destruct Hc as (_ & Hc & _). exact Hc.
  - unfold head_writes. rewrite !Forall_app, !Forall_cons. split_and!; [|done|..|done]; right; cbn [fst snd];
      [change (length (Uint64ToBytes _)) with 8%nat|change (length (Uint32ToBytes _)) with 4%nat..]; unfold ChunkHeaderSize, ChunkMetaSize in *; lia.
Qed.

(** Reading a part of a block of 64 parts. *)
Lemma empty_table f l k pos : log_on f l -> stored f (start l (length l) + 32) [64] -> (k < 64)%nat ->
  exists f', (let! t := part_table (start l (length l)) (fun n => negb (n <=? Z.of_nat k)) in
    let! zofs := skip_parts t.2 (Z.to_nat (Z.of_nat k)) 0 (start l (length l) + 32 + 1 + u8 (4 * t.1)) in
    Seek zofs ;;; read_part t.2 (Z.of_nat k)) (moved f pos) = (Panic "index out of range", f').
Proof.
  intros Hl Hs Hk. pose proof (start_header l (length l)). assert (0 < ChunkHeaderSize) by done. unfold part_table.
  erewrite bind_ok; cycle 1. { change 1%nat with (length [64]). rewrite Seek_Read by (done || lia). cbn [head]. cbn [from_option id]. unfold id. rewrite (proj2 (Z.leb_gt _ _)) by lia. reflexivity. }
  cbn [fst snd]. rewrite Nat2Z.id. destruct k as [|k]; cbn [skip_parts]; eexists.
  - erewrite bind_ok by reflexivity. change (u8 (4 * 64)) with 0. erewrite bind_ok by (apply Seek_ok; lia). reflexivity.
  - erewrite bind_panic; [reflexivity|]. erewrite bind_panic; reflexivity.
Qed.

(** A block of 64 parts is accepted and cannot be read: the readers compute
    the length of the table of parts, four bytes a part, in a [uint8], and with 64
    parts (up to 255 are allowed) the table is empty and reading any part panics. *)
Lemma sixty_four_parts_are_lost (p : Pile) (l : list Entry) (e : Entry) (sync : bool) :
  pile_holds p l -> length (en_hash e) = 32%nat -> length (en_datas e) = 64%nat -> Z.of_nat (length l) < ChunkUnit ->
  exists p', pile_AppendData sync (HeadHeight p + 1) (en_hash e) (en_datas e) p = (Ok tt, p') /\
    forall k, (k < 64)%nat -> exists p'', pile_GetData (HeadHeight p + 1) (Z.of_nat k) p' = (Panic "index out of range", p'').
Proof.
  intros Hp Hhash Hn Hlen. destruct (AppendData_writes p l e sync Hp Hhash Hlen) as (pos & E). destruct Hp as [Hl Hh Hhead Hmod [Hb0 Hb1] Hg].
  eexists. split; [exact E|]. set (f := perform _ (moved (pl_file p) pos)). intros k Hk.
  assert (Hlf : log_on f l) by (apply log_on_perform; [by apply log_on_moved|by apply append_spares]).
  assert (Hs : stored f (start l (length l) + 32) [64]) by (pose proof (append_count (moved (pl_file p) pos) l (HeadHeight p) e Hlen Hhash) as Hc; by rewrite Hn in Hc).
  destruct (block_end_ok f l (length l) Hlf ltac:(lia)) as (pos2 & E2). destruct (empty_table f l k pos2 Hlf Hs Hk) as (f' & E3).
  eexists. unfold pile_GetData. erewrite bind_ok; cycle 1.
  { unfold in_range. erewrite bind_ok by reflexivity. unfold id. cbn [BeginHeight HeadHeight]. rewrite u32_id by lia. rewrite (proj2 (Z.ltb_ge _ _)) by lia.
    erewrite bind_ok by reflexivity. by rewrite Z.ltb_irrefl. }
  erewrite bind_ok; cycle 1.
  { unfold block_start. erewrite bind_ok by reflexivity. unfold id. cbn [BeginHeight]. replace (HeadHeight p + 1 - BeginHeight p) with (Z.of_nat (S (length l))) by lia.
    rewrite u32_id by lia. replace (Z.of_nat (S (length l)) - 1) with (Z.of_nat (length l)) by lia. apply on_file_ok. exact E2. }
  erewrite on_file_ok; [reflexivity|]. exact E3.
Qed.
End Log.

(** *** Examples *)

#[export] Instance gzip_plain : Gzip.
Proof. refine {| gzip_Write v := v; gzip_ReadAll v := Ok v |}. done. Defined.

Definition ex_gen : Hash256 := replicate 32 7.
Definition ex_entry (n : nat) : Entry := mkEntry (replicate 32 1) (replicate n [1; 2; 3]).
Definition ex_pile : Pile := match NewPile ex_gen 0 with Ok p => p | _ => mkPile file_new 0 0 [] end.

Lemma ex_pile_holds : pile_holds ex_pile [].
Proof.
  destruct (NewPile_holds ex_gen 0) as (p & E & Hp & _); [done|done|done|]. unfold ex_pile. by rewrite E.
Qed.

Lemma ex_entry_ok : entry_ok (ex_entry 2).
Proof. split; [done|cbn; lia|repeat constructor]. Qed.

Lemma pile_is_a_log_witness :
  exists p', pile_AppendData true (HeadHeight ex_pile + 1) (en_hash (ex_entry 2)) (en_datas (ex_entry 2)) ex_pile = (Ok tt, p') /\ pile_holds p' [ex_entry 2].
Proof.
  destruct (pile_is_a_log ex_pile [] ex_pile_holds) as (Ha & _).
  destruct (Ha (ex_entry 2) true ex_entry_ok) as (p' & E & Hp'); [done|done|]. exists p'. exact (conj E Hp').
Defined.

(** Crashes in the middle of the block, in the first copy of the height, and after the
    first byte of the second copy. *)
Lemma crash_while_appending_witness :
  exists p' ws, pile_AppendData true (HeadHeight ex_pile + 1) (en_hash (ex_entry 2)) (en_datas (ex_entry 2)) ex_pile = (Ok tt, p') /\
    fi_log (pl_file p') = fi_log (pl_file ex_pile) ++ ws /\ total ws = 67%nat /\
    (exists q, LoadPile (perform (tear 40 ws) (pl_file ex_pile)) = Ok q /\ pile_holds q []) /\
    (exists q, LoadPile (perform (tear 57 ws) (pl_file ex_pile)) = Ok q /\ pile_holds q []) /\
    (exists q, LoadPile (perform (tear 60 ws) (pl_file ex_pile)) = Ok q /\ pile_holds q [ex_entry 2]).
Proof.
  destruct (crash_while_appending ex_pile [] (ex_entry 2) true ex_pile_holds ex_entry_ok) as (p' & ws & E & Hlog & Hk); [done|done|].
  assert (Ht : total ws = 67%nat).
  { apply (f_equal (fun r => total (drop (length (fi_log (pl_file ex_pile))) (fi_log (pl_file r.2))))) in E. cbn [snd] in E.
    rewrite Hlog, drop_app_length in E. rewrite <- E. vm_compute. reflexivity. }
  exists p', ws. split; [exact E|]. split; [exact Hlog|]. split; [exact Ht|]. rewrite Ht in Hk.
  destruct (Hk 40%nat) as (q1 & E1 & _ & H1). destruct (Hk 57%nat) as (q2 & E2 & _ & H2). destruct (Hk 60%nat) as (q3 & E3 & _ & H3).
  split_and!; [exists q1|exists q2|exists q3]; split; assumption.
Defined.

Lemma sixty_four_parts_are_lost_witness :
  exists p' p'', pile_AppendData true (HeadHeight ex_pile + 1) (en_hash (ex_entry 64)) (en_datas (ex_entry 64)) ex_pile = (Ok tt, p') /\
    pile_GetData (HeadHeight ex_pile + 1) 0 p' = (Panic "index out of range", p'').
Proof.
  destruct (sixty_four_parts_are_lost ex_pile [] (ex_entry 64) true ex_pile_holds) as (p' & E & Hk); [done|done|done|].
  destruct (Hk 0%nat) as (p'' & E2); [lia|]. exists p', p''. exact (conj E E2).
Defined.
