(* ===== verification/PileDB.v ===== *)
(** * The block log over several piles

    [core/pile/db.go]: the database keeps the blocks in piles of [ChunkUnit]
    blocks each, opens a new pile when the last one is full and finds the pile of
    a height by division.  The clock enters only the decision to force writes to
    the disk and is an argument; the background goroutine that does so every
    second and the names of the files are not modelled. *)

From stdpp Require Import base gmap list strings.
From Stdlib Require Import ZArith Lia.
From S2P Require Import Prelude Amount Common Pile.

Record DB := mkDB { db_piles : list Pile; db_genHash : Hash256; db_syncMode : bool; db_hasDirty : bool }.

Section Code.
Context `{GZ : Gzip}.

(** [LoadPile] on every file of the directory, in the order of the walk. *)
Fixpoint load_piles (files : list File) (pileMap : gmap Z Pile) (MaxHeight : Z) : res (gmap Z Pile * Z) :=
  match files with
  | [] => Ok (pileMap, MaxHeight)
  | f :: files =>
      let? p := LoadPile f in
      load_piles files (<[BeginHeight p := p]> pileMap) (if MaxHeight <? HeadHeight p then HeadHeight p else MaxHeight)
  end.

(** [for i := uint32(0); i < Count; i++], [n] more rounds from [i]. *)
Fixpoint collect_piles (pileMap : gmap Z Pile) (n : nat) (i : Z) : res (list Pile) :=
  match n with
  | O => Ok []
  | S n =>
      match pileMap !! u32 (i * ChunkUnit) with
      | None => Err ErrMissingPile
      | Some p => let? ps := collect_piles pileMap n (i + 1) in Ok (p :: ps)
      end
  end.

Definition Open (files : list File) : res DB :=
  let? r := load_piles files ∅ 0 in
  let '(pileMap, MaxHeight) := r in
  let Count := u32 (MaxHeight / ChunkUnit + 1) in
  let? piles := if 0 <? MaxHeight then collect_piles pileMap (Z.to_nat Count) 0 else Ok [] in
  Ok (mkDB piles (match piles with p :: _ => copy_into 32 (pl_GenHash p) | [] => replicate 32 0 end) false false).

Definition db_Init (genHash : Hash256) : ST DB unit :=
  let! db := gets id in
  match db_piles db with
  | [] =>
      let! p := lift (NewPile genHash 0) in
      modify (fun db => mkDB (db_piles db ++ [p]) genHash (db_syncMode db) (db_hasDirty db))
  | _ => fail ErrAlreadyInitialized
  end.

Definition db_Close : ST DB unit := modify (fun db => mkDB [] (db_genHash db) (db_syncMode db) (db_hasDirty db)).
Definition SetSyncMode (sync : bool) : ST DB unit := modify (fun db => mkDB (db_piles db) (db_genHash db) sync (db_hasDirty db)).

(** Run an operation on the pile with the index [i]. *)
Definition on_pile {A} (i : nat) (m : ST Pile A) : ST DB A := fun db =>
  match db_piles db !! i with
  | None => (Panic "index out of range", db)
  | Some p => let '(r, p') := m p in (r, mkDB (<[i := p']> (db_piles db)) (db_genHash db) (db_syncMode db) (db_hasDirty db))
  end.

(** [late] is the outcome of [db.lastSyncTime.Sub(now) >= time.Second]. *)
Definition db_AppendData (late : bool) (Height : Z) (DataHash : Hash256) (Datas : list bytes) : ST DB unit :=
  if 255 <? Z.of_nat (length Datas) then fail ErrExeedMaximumDataArrayLength
  else
    let! db := gets id in
    match last (db_piles db) with
    | None => throw "index out of range"
    | Some p =>
        if negb (Height =? u32 (HeadHeight p + 1)) then fail ErrInvalidAppendHeight
        else
          (if ChunkUnit <=? u32 (HeadHeight p - BeginHeight p) then
             let! v := lift (NewPile (db_genHash db) (u32 (BeginHeight p + ChunkUnit))) in
             modify (fun db => mkDB (db_piles db ++ [v]) (db_genHash db) (db_syncMode db) (db_hasDirty db))
           else ret tt) ;;;
          let! db := gets id in
          let sync := if db_syncMode db then true else late in
          on_pile (length (db_piles db) - 1) (pile_AppendData sync Height DataHash Datas) ;;;
          modify (fun db => mkDB (db_piles db) (db_genHash db) (db_syncMode db) (negb sync))
    end.

(** The pile of a height, or [ErrInvalidHeight]. *)
Definition pile_of (Height : Z) : ST DB nat :=
  let! db := gets id in
  let idx := u32 (Height - 1) / ChunkUnit in
  if Z.of_nat (length (db_piles db)) <=? idx then fail ErrInvalidHeight else ret (Z.to_nat idx).

Definition db_GetHash (Height : Z) : ST DB Hash256 :=
  if Height =? 0 then
    let! db := gets id in
    match db_piles db with p :: _ => ret (pl_GenHash p) | [] => fail ErrInvalidHeight end
  else
    let! i := pile_of Height in
    on_pile i (pile_GetHash Height).

Definition db_GetData (Height index : Z) : ST DB bytes :=
  if Height =? 0 then fail ErrInvalidHeight
  else
    let! i := pile_of Height in
    on_pile i (pile_GetData Height index).

Definition db_GetDatas (Height from count : Z) : ST DB bytes :=
  if Height =? 0 then fail ErrInvalidHeight
  else
    let! i := pile_of Height in
    on_pile i (pile_GetDatas Height from count).
End Code.

(** ** The log of the database *)

Section Log.
Context `{GZ : Gzip}.

(** The piles [ps] hold the runs of blocks [ls], one after the other. *)
Record piles_hold (ps : list Pile) (gen : Hash256) (ls : list (list Entry)) : Prop := {
  pd_length : length ps = length ls;
  pd_pile : forall i c, ls !! i = Some c -> exists p, ps !! i = Some p /\ pile_holds p c /\ BeginHeight p = Z.of_nat i * ChunkUnit /\ pl_GenHash p = gen
}.

(** Every run but the last, [la], is full. *)
Record runs_hold (db : DB) (gen : Hash256) (full : list (list Entry)) (la : list Entry) : Prop := {
  rh_piles : piles_hold (db_piles db) gen (full ++ [la]);
  rh_full : Forall (fun c => Z.of_nat (length c) = ChunkUnit) full;
  rh_gen : db_genHash db = gen
}.
Definition db_holds (db : DB) (gen : Hash256) (l : list Entry) : Prop :=
  exists full la, l = concat full ++ la /\ runs_hold db gen full la /\ (full <> [] -> la <> []).

Lemma piles_hold_insert ps gen ls i c p' c' : piles_hold ps gen ls -> ls !! i = Some c ->
  pile_holds p' c' -> BeginHeight p' = Z.of_nat i * ChunkUnit -> pl_GenHash p' = gen -> piles_hold (<[i := p']> ps) gen (<[i := c']> ls).
Proof.
  intros [Hl Hp] Hi Hh Hb Hg. apply lookup_lt_Some in Hi. split; [by rewrite !length_insert|].
  intros j d Hj. destruct (decide (i = j)) as [<-|Hne].
  - rewrite list_lookup_insert_eq in Hj by lia. simplify_eq. exists p'. by rewrite list_lookup_insert_eq by lia.
  - rewrite list_lookup_insert_ne in Hj by done. rewrite list_lookup_insert_ne by done. by apply Hp.
Qed.

Lemma piles_hold_snoc ps gen ls p c : piles_hold ps gen ls -> pile_holds p c -> BeginHeight p = Z.of_nat (length ls) * ChunkUnit -> pl_GenHash p = gen ->
  piles_hold (ps ++ [p]) gen (ls ++ [c]).
Proof.
  intros [Hl Hp] Hh Hb Hg. split; [rewrite !length_app; cbn; lia|]. intros j d [Hj|[Hge Hj]]%lookup_app_Some.
  - destruct (Hp j d Hj) as (q & Hq & ?). exists q. split; [by apply lookup_app_l_Some|done].
  - apply list_lookup_singleton_Some in Hj as [Hj <-]. exists p. replace j with (length ls) by lia. split; [|done].
    rewrite <- Hl. by rewrite lookup_app_r, Nat.sub_diag by lia.
Qed.

(** The last pile. *)
Lemma last_pile db gen full la : runs_hold db gen full la ->
  exists p, last (db_piles db) = Some p /\ db_piles db !! length full = Some p /\ (length (db_piles db) = S (length full))%nat /\
    pile_holds p la /\ BeginHeight p = Z.of_nat (length full) * ChunkUnit /\ pl_GenHash p = gen.
Proof.
  intros [[Hl Hp] _ _]. destruct (Hp (length full) la) as (p & Hq & Hr); [by rewrite lookup_app_r, Nat.sub_diag by lia|].
  rewrite length_app in Hl. cbn in Hl. exists p. split; [|split; [done|split; [lia|done]]]. by rewrite last_lookup, Hl, Nat.add_1_r.
Qed.

Lemma length_full full : Forall (fun c : list Entry => Z.of_nat (length c) = ChunkUnit) full -> Z.of_nat (length (concat full)) = Z.of_nat (length full) * ChunkUnit.
Proof. induction 1 as [|c full Hc _ IH]; cbn [concat length]; [done|]. rewrite length_app. lia. Qed.

Lemma div_run (U q r x : Z) : 0 <= r < U -> x = q * U + r -> x / U = q.
Proof. intros Hr ->. rewrite Z.div_add_l, Z.div_small by lia. lia. Qed.

(** The run of a block and its place there. *)
Lemma find_run (full : list (list Entry)) : forall (la : list Entry) k e, Forall (fun c => Z.of_nat (length c) = ChunkUnit) full ->
  (concat full ++ la) !! k = Some e -> Z.of_nat (length la) <= ChunkUnit ->
  exists i c j, (full ++ [la]) !! i = Some c /\ c !! j = Some e /\ Z.of_nat k = Z.of_nat i * ChunkUnit + Z.of_nat j /\ Z.of_nat j < ChunkUnit.
Proof.
  induction full as [|c0 full IH]; intros la k e Hf Hk Hla; cbn [concat app] in Hk.
  - exists 0%nat, la, k. pose proof (lookup_lt_Some _ _ _ Hk). split_and!; [done|done|lia|lia].
  - apply Forall_cons in Hf as [Hc Hf]. rewrite <- (assoc_L (++)) in Hk. apply lookup_app_Some in Hk as [Hk|[Hge Hk]].
    + exists 0%nat, c0, k. pose proof (lookup_lt_Some _ _ _ Hk). split_and!; [done|done|lia|lia].
    + destruct (IH la _ e Hf Hk Hla) as (i & c & j & Hi & Hj & Hkij & Hlt). exists (S i), c, j. split_and!; [done|done|lia|lia].
Qed.

(** *** Reading *)

(** An operation that only moves the position of the file of a pile keeps the log. *)
Lemma on_pile_reads {A} db gen full la i c p pos (m : ST Pile A) r : runs_hold db gen full la -> (full ++ [la]) !! i = Some c -> db_piles db !! i = Some p ->
  m p = (r, at_pos p pos) -> exists db', on_pile i m db = (r, db') /\ runs_hold db' gen full la.
Proof.
  intros [Hp Hf Hg] Hi Hpi E. unfold on_pile. rewrite Hpi, E. eexists. split; [reflexivity|]. split; [|done..]. cbn [db_piles].
  destruct (pd_pile _ _ _ Hp i c Hi) as (q & Hq & Hh & Hb & Hgq). assert (q = p) as -> by congruence.
  rewrite <- (list_insert_id (full ++ [la]) i c Hi). eapply piles_hold_insert; [done|done|by apply pile_holds_at|done|done].
Qed.

Section Reading.
Context (db : DB) (gen : Hash256) (full : list (list Entry)) (la : list Entry) (Hr : runs_hold db gen full la).
Context (k : nat) (e : Entry) (Hk : (concat full ++ la) !! k = Some e).
Abbreviation height := (Z.of_nat k + 1).

(** The pile of the height of a block. *)
Lemma pile_of_block : exists i c j p, pile_of height db = (Ok i, db) /\ (full ++ [la]) !! i = Some c /\ db_piles db !! i = Some p /\
  pile_holds p c /\ c !! j = Some e /\ height = BeginHeight p + Z.of_nat (S j) /\ (height =? 0) = false.
Proof.
  destruct (last_pile _ _ _ _ Hr) as (pl & _ & _ & _ & Hpl & Hbl & _). pose proof (lo_length _ _ (ph_log _ _ Hpl)) as Hla. pose proof (ph_range _ _ Hpl) as Hrange.
  pose proof (rh_full _ _ _ _ Hr) as Hf. pose proof (lookup_lt_Some _ _ _ Hk) as Hlt. rewrite length_app in Hlt. pose proof (length_full full Hf) as Hlf.
  destruct (find_run full la k e Hf Hk Hla) as (i & c & j & Hi & Hj & Hkij & Hju). destruct (pd_pile _ _ _ (rh_piles _ _ _ _ Hr) i c Hi) as (p & Hp & Hh & Hb & _).
  exists i, c, j, p. split_and!; [|done..|rewrite Hb; lia|apply Z.eqb_neq; lia].
  assert (E : u32 (height - 1) / ChunkUnit = Z.of_nat i). { rewrite u32_id by lia. apply (div_run _ _ (Z.of_nat j)); lia. }
  unfold pile_of. erewrite bind_ok by reflexivity. unfold id. rewrite E, Nat2Z.id. pose proof (lookup_lt_Some _ _ _ Hp).
  by rewrite (proj2 (Z.leb_gt _ _)) by lia.
Qed.

Lemma db_GetHash_ok : exists db', db_GetHash height db = (Ok (en_hash e), db') /\ runs_hold db' gen full la.
Proof.
  destruct pile_of_block as (i & c & j & p & Eo & Hi & Hp & Hh & Hj & Hhe & Hz). destruct (GetHash_ok p c Hh j e Hj) as (pos & E).
  unfold db_GetHash. rewrite Hz. erewrite bind_ok by exact Eo. rewrite <- Hhe in E. by eapply on_pile_reads.
Qed.

Lemma db_GetData_ok n : exists db', db_GetData height (Z.of_nat n) db = (match en_datas e !! n with Some d => Ok d | None => Err ErrInvalidDataIndex end, db') /\ runs_hold db' gen full la.
Proof.
  destruct pile_of_block as (i & c & j & p & Eo & Hi & Hp & Hh & Hj & Hhe & Hz). unfold db_GetData. rewrite Hz. erewrite bind_ok by exact Eo. rewrite Hhe.
  destruct (en_datas e !! n) as [d|] eqn:En.
  - destruct (GetData_ok p c Hh j e Hj n d En) as (pos & E). by eapply on_pile_reads.
  - apply lookup_ge_None in En. destruct (GetData_missing p c Hh j e Hj n En) as (pos & E). by eapply on_pile_reads.
Qed.

Lemma db_GetDatas_ok from count : (from + count <= length (en_datas e))%nat ->
  exists db', db_GetDatas height (Z.of_nat from) (Z.of_nat count) db = (Ok (concat (take count (drop from (en_datas e)))), db') /\ runs_hold db' gen full la.
Proof.
  intros Hc. destruct pile_of_block as (i & c & j & p & Eo & Hi & Hp & Hh & Hj & Hhe & Hz). unfold db_GetDatas. rewrite Hz. erewrite bind_ok by exact Eo. rewrite Hhe.
  destruct (GetDatas_ok p c Hh j e Hj from count Hc) as (pos & E). by eapply on_pile_reads.
Qed.
End Reading.

(** *** Heights beyond the log *)

Lemma log_length db gen full la : runs_hold db gen full la ->
  Z.of_nat (length (concat full ++ la)) = Z.of_nat (length full) * ChunkUnit + Z.of_nat (length la).
Proof. intros Hr. rewrite length_app, Nat2Z.inj_add, (length_full full) by apply Hr. lia. Qed.

Lemma pile_refuses {A} i p (m : Z -> ST Pile A) h db : db_piles db !! i = Some p -> m h p = (Err ErrInvalidHeight, p) -> on_pile i (m h) db = (Err ErrInvalidHeight, db).
Proof. intros Hp E. unfold on_pile. rewrite Hp, E, list_insert_id by done. by destruct db. Qed.

(** An operation of the piles that refuses heights beyond the head. *)
Lemma beyond_the_log {A} (m : Z -> ST Pile A) db gen full la h : (forall p c, pile_holds p c -> HeadHeight p < h -> m h p = (Err ErrInvalidHeight, p)) ->
  runs_hold db gen full la -> Z.of_nat (length (concat full ++ la)) < h < 2 ^ 32 ->
  (if h =? 0 then fail ErrInvalidHeight else let! i := pile_of h in on_pile i (m h)) db = (Err ErrInvalidHeight, db).
Proof.
  intros Hm Hr Hh. rewrite (log_length _ _ _ _ Hr) in Hh. destruct (last_pile _ _ _ _ Hr) as (p & _ & Hp & Hlen & Hpl & Hb & _).
  assert (HU : 0 < ChunkUnit) by done. rewrite (proj2 (Z.eqb_neq h 0)) by lia.
  assert (E : u32 (h - 1) = h - 1) by (apply u32_id; lia). unfold pile_of.
  destruct (decide (Z.of_nat (length (db_piles db)) <= (h - 1) / ChunkUnit)) as [Hge|Hlt].
  - erewrite bind_err; [reflexivity|]. erewrite bind_ok by reflexivity. unfold id. by rewrite E, (proj2 (Z.leb_le _ _)).
  - assert (Hi : (h - 1) / ChunkUnit = Z.of_nat (length full)). { pose proof (Z.div_le_lower_bound (h - 1) ChunkUnit (Z.of_nat (length full)) HU). lia. }
    erewrite bind_ok; cycle 1. { erewrite bind_ok by reflexivity. unfold id. rewrite E, (proj2 (Z.leb_gt _ _)) by lia. reflexivity. }
    rewrite Hi, Nat2Z.id. apply (pile_refuses _ p m); [done|]. pose proof (ph_head _ _ Hpl) as Hhd. apply (Hm p la); [done|lia].
Qed.

Lemma holds_beyond db gen l h : db_holds db gen l -> Z.of_nat (length l) < h < 2 ^ 32 ->
  (forall k, db_GetData h k db = (Err ErrInvalidHeight, db)) /\ (forall from count, db_GetDatas h from count db = (Err ErrInvalidHeight, db)).
Proof.
  intros (full & la & -> & Hr & _) Hh. split.
  - intros k. eapply (beyond_the_log (fun h => pile_GetData h k)); [|done|done]. intros p c Hp Hhd. unfold pile_GetData. by erewrite bind_err by (by eapply out_of_range).
  - intros from count. eapply (beyond_the_log (fun h => pile_GetDatas h from count)); [|done|done]. intros p c Hp Hhd. unfold pile_GetDatas. by erewrite bind_err by (by eapply out_of_range).
Qed.

(** *** Appending *)

Lemma next_start_last full la e : next_start la e <= ChunkHeaderSize + sizes (concat full ++ la) + entry_size e.
Proof. unfold next_start, start. rewrite firstn_all, sizes_app. pose proof (sizes_nonneg (concat full)). lia. Qed.

Lemma append_to_last db gen full la e sync : runs_hold db gen full la -> entry_ok e -> Z.of_nat (length la) < ChunkUnit ->
  ChunkHeaderSize + sizes (concat full ++ la) + entry_size e < 2 ^ 63 ->
  exists db', on_pile (length full) (pile_AppendData sync (Z.of_nat (length (concat full ++ la)) + 1) (en_hash e) (en_datas e)) db = (Ok tt, db') /\
    runs_hold db' gen full (la ++ [e]).
Proof.
  intros Hr Hek Hlen Hsz. rewrite (log_length _ _ _ _ Hr). destruct (last_pile _ _ _ _ Hr) as (p & _ & Hp & _ & Hpl & Hb & Hg).
  pose proof (next_start_last full la e) as Hn. destruct (AppendData_holds p la e sync Hpl Hek Hlen ltac:(lia)) as (p' & E & Hh & Hb' & Hg').
  rewrite (ph_head _ _ Hpl), Hb in E. unfold on_pile. rewrite Hp, E. eexists. split; [reflexivity|]. destruct Hr as [Hps Hf Hdb].
  split; cbn [db_piles db_genHash]; [|done|done].
  replace (full ++ [la ++ [e]]) with (<[length full := la ++ [e]]> (full ++ [la])) by (rewrite insert_app_r_alt, Nat.sub_diag by lia; done).
  eapply piles_hold_insert; [done| |done|congruence|congruence]. by rewrite lookup_app_r, Nat.sub_diag by lia.
Qed.

(** A full pile is followed by a new one. *)
Lemma new_run db gen full la : runs_hold db gen full la -> length gen = 32%nat -> Z.of_nat (length la) = ChunkUnit ->
  Z.of_nat (length (concat full ++ la)) + ChunkUnit < 2 ^ 32 ->
  exists v, NewPile gen (Z.of_nat (length full) * ChunkUnit + ChunkUnit) = Ok v /\
    runs_hold (mkDB (db_piles db ++ [v]) (db_genHash db) (db_syncMode db) (db_hasDirty db)) gen (full ++ [la]) [].
Proof.
  intros Hr Hg Hlen Hb. rewrite (log_length _ _ _ _ Hr) in Hb. assert (HU : 0 < ChunkUnit) by done.
  destruct (NewPile_holds gen (Z.of_nat (length full) * ChunkUnit + ChunkUnit)) as (v & E & Hv & Hbv & Hgv); [done| |lia|].
  { replace (Z.of_nat (length full) * ChunkUnit + ChunkUnit) with ((Z.of_nat (length full) + 1) * ChunkUnit) by lia. apply Z.mod_mul. lia. }
  exists v. split; [done|]. destruct Hr as [Hps Hf Hgen]. split; cbn [db_piles db_genHash]; [|by apply Forall_app_2, Forall_singleton|done].
  apply piles_hold_snoc; [done|done| |done]. rewrite Hbv, length_app. cbn. lia.
Qed.

Lemma set_dirty db gen full la b : runs_hold db gen full la -> runs_hold (mkDB (db_piles db) (db_genHash db) (db_syncMode db) b) gen full la.
Proof. intros []. by split. Qed.

(** The last steps of [AppendData], when the last pile has room. *)
Lemma append_finish db gen full la e late : runs_hold db gen full la -> entry_ok e -> Z.of_nat (length la) < ChunkUnit ->
  ChunkHeaderSize + sizes (concat full ++ la) + entry_size e < 2 ^ 63 ->
  exists db', (let! db := gets id in
    let sync := if db_syncMode db then true else late in
    on_pile (length (db_piles db) - 1) (pile_AppendData sync (Z.of_nat (length (concat full ++ la)) + 1) (en_hash e) (en_datas e)) ;;;
    modify (fun db => mkDB (db_piles db) (db_genHash db) (db_syncMode db) (negb sync))) db = (Ok tt, db') /\ db_holds db' gen ((concat full ++ la) ++ [e]).
Proof.
  intros Hr Hek Hroom Hsz. erewrite bind_ok by reflexivity. unfold id. cbv zeta. set (sync := if db_syncMode db then true else late).
  destruct (append_to_last db gen full la e sync Hr Hek Hroom Hsz) as (db' & E & Hr'). destruct (last_pile _ _ _ _ Hr) as (_ & _ & _ & Hlen & _).
  rewrite Hlen, Nat.sub_1_r. cbn [pred]. erewrite bind_ok by exact E. eexists. split; [reflexivity|].
  exists full, (la ++ [e]). rewrite (assoc_L (++)). split_and!; [done|by apply set_dirty|]. intros _ [_ ?]%app_nil. done.
Qed.

Lemma db_AppendData_ok db gen l e late : db_holds db gen l -> length gen = 32%nat -> entry_ok e ->
  Z.of_nat (length l) + ChunkUnit < 2 ^ 32 -> ChunkHeaderSize + sizes l + entry_size e < 2 ^ 63 ->
  exists db', db_AppendData late (Z.of_nat (length l) + 1) (en_hash e) (en_datas e) db = (Ok tt, db') /\ db_holds db' gen (l ++ [e]).
Proof.
  intros (full & la & -> & Hr & _) Hg Hek Hb Hsz. assert (HU : 0 < ChunkUnit) by done. pose proof (log_length _ _ _ _ Hr) as Hll.
  destruct (last_pile _ _ _ _ Hr) as (p & Hlast & Hp & Hlen & Hpl & Hbp & Hgp). pose proof (ph_head _ _ Hpl) as Hhd. pose proof (lo_length _ _ (ph_log _ _ Hpl)) as Hla.
  pose proof (ek_parts _ Hek). unfold db_AppendData. rewrite (proj2 (Z.ltb_ge 255 _)) by lia. erewrite bind_ok by reflexivity. unfold id at 1. rewrite Hlast.
  rewrite (u32_id (HeadHeight p + 1)), (proj2 (Z.eqb_eq _ (HeadHeight p + 1))) by lia. cbn [negb]. rewrite (u32_id (HeadHeight p - BeginHeight p)) by lia.
  replace (HeadHeight p - BeginHeight p) with (Z.of_nat (length la)) by lia. destruct (Z.leb_spec ChunkUnit (Z.of_nat (length la))) as [Hfull|Hroom].
  - destruct (new_run db gen full la Hr Hg ltac:(lia) Hb) as (v & Ev & Hr1). unfold id at 1. rewrite (rh_gen _ _ _ _ Hr), (u32_id (BeginHeight p + ChunkUnit)), Hbp by lia.
    erewrite bind_ok; cycle 1. { erewrite bind_ok by (unfold lift; rewrite Ev; reflexivity). reflexivity. }
    assert (Hc : concat (full ++ [la]) ++ [] = concat full ++ la) by (by rewrite concat_app, app_nil_r; cbn; rewrite app_nil_r).
    rewrite <- Hc. apply append_finish; [done|done|done|by rewrite Hc].
  - erewrite bind_ok by reflexivity. by apply append_finish.
Qed.

Lemma db_AppendData_refused db gen l late h d ds : db_holds db gen l -> (length ds <= 255)%nat -> h <> Z.of_nat (length l) + 1 -> 
  db_AppendData late h d ds db = (Err ErrInvalidAppendHeight, db).
Proof.
  intros (full & la & -> & Hr & _) Hds Hne. destruct (last_pile _ _ _ _ Hr) as (p & Hlast & Hp & Hlen & Hpl & Hbp & Hgp).
  pose proof (ph_head _ _ Hpl) as Hhd. pose proof (log_length _ _ _ _ Hr) as Hll. pose proof (ph_range _ _ Hpl). pose proof (lo_length _ _ (ph_log _ _ Hpl)).
  unfold db_AppendData. rewrite (proj2 (Z.ltb_ge 255 _)) by lia. erewrite bind_ok by reflexivity. unfold id. rewrite Hlast.
  assert (HeadHeight p + 1 < 2 ^ 32) by (unfold ChunkUnit in *; lia). by rewrite (u32_id (HeadHeight p + 1)), (proj2 (Z.eqb_neq _ (HeadHeight p + 1))) by lia.
Qed.

Lemma db_Init_ok db gen : db_piles db = [] -> length gen = 32%nat -> exists db', db_Init gen db = (Ok tt, db') /\ db_holds db' gen [].
Proof.
  intros Hdb Hg. destruct (NewPile_holds gen 0) as (p & E & Hp & Hb & Hgp); [done|done|done|]. unfold db_Init. erewrite bind_ok by reflexivity. unfold id. rewrite Hdb.
  erewrite bind_ok by (unfold lift; rewrite E; reflexivity). eexists. split; [reflexivity|]. exists [], []. split_and!; [done| |done].
  split; [|constructor|done]. cbn [db_piles]. rewrite Hdb. by apply (piles_hold_snoc [] gen [] p []).
Qed.

(** *** What a database that holds a log answers *)

Lemma holds_genesis db gen l : db_holds db gen l -> db_GetHash 0 db = (Ok gen, db).
Proof.
  intros (full & la & _ & [Hps _ _] & _). unfold db_GetHash. cbn [Z.eqb]. erewrite bind_ok by reflexivity. unfold id.
  destruct (full ++ [la]) as [|c ls] eqn:E; [by apply app_nil in E as [_ ?]|]. destruct (pd_pile _ _ _ Hps 0%nat c eq_refl) as (p & Hp & _ & _ & Hgp).
  destruct (db_piles db) as [|q ps]; [done|]. cbn in Hp. simplify_eq. done.
Qed.

Lemma holds_reads db gen l i e : db_holds db gen l -> l !! i = Some e -> let h := Z.of_nat i + 1 in
  (exists db', db_GetHash h db = (Ok (en_hash e), db') /\ db_holds db' gen l) /\
  (forall k, exists db', db_GetData h (Z.of_nat k) db = (match en_datas e !! k with Some d => Ok d | None => Err ErrInvalidDataIndex end, db') /\ db_holds db' gen l) /\
  (forall from count, (from + count <= length (en_datas e))%nat ->
     exists db', db_GetDatas h (Z.of_nat from) (Z.of_nat count) db = (Ok (concat (take count (drop from (en_datas e)))), db') /\ db_holds db' gen l).
Proof.
  intros (full & la & -> & Hr & Hn) Hi. assert (Hk : forall db', runs_hold db' gen full la -> db_holds db' gen (concat full ++ la)) by (intros; exists full, la; done).
  split_and!; intros; [edestruct db_GetHash_ok as (db' & E & Hr')|edestruct db_GetData_ok as (db' & E & Hr')|edestruct db_GetDatas_ok as (db' & E & Hr')]; eauto.
Qed.

(** The database is a log of blocks: [Init] makes it empty; [AppendData]
    appends at the next height, in a new pile when the last one is full, and
    refuses every other height; [GetHash] of height 0 is the hash of the genesis;
    [GetHash], [GetData] and [GetDatas] find the block of every height, in
    whichever pile it is; and [GetData] beyond the last block is an error. *)
Lemma pile_db_is_a_log (db : DB) (gen : Hash256) (l : list Entry) : length gen = 32%nat ->
  (db_piles db = [] -> exists db', db_Init gen db = (Ok tt, db') /\ db_holds db' gen []) /\
  (db_holds db gen l ->
   (forall e late, entry_ok e -> Z.of_nat (length l) + ChunkUnit < 2 ^ 32 -> ChunkHeaderSize + sizes l + entry_size e < 2 ^ 63 ->
      exists db', db_AppendData late (Z.of_nat (length l) + 1) (en_hash e) (en_datas e) db = (Ok tt, db') /\ db_holds db' gen (l ++ [e])) /\
   (forall late h d ds, (length ds <= 255)%nat -> h <> Z.of_nat (length l) + 1 -> db_AppendData late h d ds db = (Err ErrInvalidAppendHeight, db)) /\
   db_GetHash 0 db = (Ok gen, db) /\
   (forall i e, l !! i = Some e -> let h := Z.of_nat i + 1 in
      (exists db', db_GetHash h db = (Ok (en_hash e), db') /\ db_holds db' gen l) /\
      (forall k, exists db', db_GetData h (Z.of_nat k) db = (match en_datas e !! k with Some d => Ok d | None => Err ErrInvalidDataIndex end, db') /\ db_holds db' gen l) /\
      (forall from count, (from + count <= length (en_datas e))%nat ->
         exists db', db_GetDatas h (Z.of_nat from) (Z.of_nat count) db = (Ok (concat (take count (drop from (en_datas e)))), db') /\ db_holds db' gen l)) /\
   (forall h k, Z.of_nat (length l) < h < 2 ^ 32 -> db_GetData h k db = (Err ErrInvalidHeight, db))).
Proof.
  intros Hg. split; [intros; by apply db_Init_ok|]. intros Hdb. split_and!.
  - intros. by apply db_AppendData_ok.
  - intros. by eapply db_AppendData_refused.
  - by eapply holds_genesis.
  - intros i e Hi. by apply holds_reads.
  - intros h k Hh. by eapply holds_beyond.
Qed.

(** *** Opening the database again *)

Definition add_pile (m : gmap Z Pile) (p : Pile) : gmap Z Pile := <[BeginHeight p := p]> m.
Definition higher (M : Z) (p : Pile) : Z := if M <? HeadHeight p then HeadHeight p else M.

Lemma load_piles_ok files ps : Forall2 (fun f p => LoadPile f = Ok p) files ps -> forall m M,
  load_piles files m M = Ok (foldl add_pile m ps, foldl higher M ps).
Proof. induction 1 as [|f p files ps E _ IH]; intros m M; cbn [load_piles foldl]; [done|]. rewrite E. cbn. apply IH. Qed.

Lemma add_piles_other ps : forall m k, k ∉ (BeginHeight <$> ps) -> foldl add_pile m ps !! k = m !! k.
Proof.
  induction ps as [|p ps IH]; intros m k Hk; cbn [foldl fmap list_fmap] in *; [done|]. apply not_elem_of_cons in Hk as [Hne Hk].
  rewrite IH by done. unfold add_pile. by rewrite lookup_insert_ne.
Qed.

Lemma add_piles_found ps p : forall m, NoDup (BeginHeight <$> ps) -> p ∈ ps -> foldl add_pile m ps !! BeginHeight p = Some p.
Proof.
  induction ps as [|q ps IH]; intros m Hnd Hp; cbn [foldl fmap list_fmap] in *; [by apply not_elem_of_nil in Hp|]. apply NoDup_cons in Hnd as [Hq Hnd].
  apply elem_of_cons in Hp as [->|Hp]; [|by apply IH]. rewrite add_piles_other by done. unfold add_pile. by rewrite lookup_insert_eq.
Qed.

Lemma highest ps v : forall M, M <= v -> Forall (fun p => HeadHeight p <= v) ps -> M = v \/ (exists p, p ∈ ps /\ HeadHeight p = v) -> foldl higher M ps = v.
Proof.
  induction ps as [|q ps IH]; intros M HM Hf Hv; cbn [foldl].
  - destruct Hv as [->|(p & Hp & _)]; [done|by apply not_elem_of_nil in Hp].
  - apply Forall_cons in Hf as [Hq Hf]. apply IH; [unfold higher; by destruct (_ <? _)|done|].
    destruct Hv as [->|(p & [->|Hp]%elem_of_cons & Hpv)]; [left|left|right; eauto]; unfold higher; destruct (Z.ltb_spec M (HeadHeight q)) || destruct (Z.ltb_spec v (HeadHeight q)); lia.
Qed.

Lemma collect_ok (m : gmap Z Pile) qs : forall i, (forall j q, qs !! j = Some q -> m !! u32 ((i + Z.of_nat j) * ChunkUnit) = Some q) -> collect_piles m (length qs) i = Ok qs.
Proof.
  induction qs as [|q qs IH]; intros i Hq; cbn [length collect_piles]; [done|]. pose proof (Hq 0%nat q eq_refl) as H0. rewrite Z.add_0_r in H0. rewrite H0.
  rewrite IH; [done|]. intros j r Hj. pose proof (Hq (S j) r Hj) as H1. by replace (i + 1 + Z.of_nat j) with (i + Z.of_nat (S j)) by lia.
Qed.

Lemma collect_missing (m : gmap Z Pile) qs : forall i, (forall j q, qs !! j = Some q -> m !! u32 ((i + Z.of_nat j) * ChunkUnit) = Some q) ->
  m !! u32 ((i + Z.of_nat (length qs)) * ChunkUnit) = None -> collect_piles m (S (length qs)) i = Err ErrMissingPile.
Proof.
  induction qs as [|q qs IH]; intros i Hq Hm; cbn [length collect_piles] in *; [by rewrite Z.add_0_r in Hm; rewrite Hm|].
  pose proof (Hq 0%nat q eq_refl) as H0. rewrite Z.add_0_r in H0. rewrite H0. cbn [collect_piles] in IH. rewrite IH; [done| |].
  - intros j r Hj. pose proof (Hq (S j) r Hj) as H1. by replace (i + 1 + Z.of_nat j) with (i + Z.of_nat (S j)) by lia.
  - by replace (i + 1 + Z.of_nat (length qs)) with (i + Z.of_nat (S (length qs))) by lia.
Qed.

(** The pile that [LoadPile] makes of a file, for files that load. *)
Definition loaded (f : File) : Pile := match LoadPile f with Ok p => p | _ => mkPile f 0 0 [] end.

Lemma load_pile p c : pile_holds p c -> LoadPile (pl_file p) = Ok (loaded (pl_file p)) /\ pile_holds (loaded (pl_file p)) c /\
  BeginHeight (loaded (pl_file p)) = BeginHeight p /\ pl_GenHash (loaded (pl_file p)) = pl_GenHash p.
Proof.
  intros [Hl Hh Hhead Hmod Hr Hg]. pose proof (lo_length _ _ Hl). destruct (load_ok (pl_file p) c (HeadHeight p) (HeadHeight p) (HeadHeight p) (BeginHeight p) (pl_GenHash p)) as (p' & E & Hp' & Hb & Hgp); try done; try lia.
  - unfold repaired. rewrite decide_True by done. by rewrite Hhead.
  - unfold loaded. by rewrite E.
Qed.

Lemma loaded_piles_hold ps gen ls : piles_hold ps gen ls -> piles_hold ((fun p => loaded (pl_file p)) <$> ps) gen ls.
Proof.
  intros [Hl Hp]. split; [by rewrite length_fmap|]. intros i c Hi. destruct (Hp i c Hi) as (p & Hpi & Hh & Hb & Hg).
  exists (loaded (pl_file p)). rewrite list_lookup_fmap, Hpi. destruct (load_pile p c Hh) as (_ & ? & ? & ?). split_and!; [done|done|congruence|congruence].
Qed.

Lemma files_load ps gen ls files : piles_hold ps gen ls -> files ≡ₚ pl_file <$> ps -> Forall2 (fun f p => LoadPile f = Ok p) files (loaded <$> files).
Proof.
  intros [Hl Hp] Hperm. apply Forall2_fmap_r, Forall_Forall2_diag. apply Forall_forall. intros f Hf. rewrite Hperm in Hf. apply list_elem_of_fmap in Hf as (p & -> & Hf).
  apply list_elem_of_lookup in Hf as (i & Hi). destruct (lookup_lt_is_Some_2 ls i) as [c Hc]; [rewrite <- Hl; by eapply lookup_lt_Some|].
  destruct (Hp i c Hc) as (q & Hq & Hh & _). assert (q = p) as -> by congruence. by apply (load_pile p c).
Qed.

(** What the walk collects, whatever the order of the files. *)
Section Walk.
Context (qs : list Pile) (gen : Hash256) (full : list (list Entry)) (la : list Entry) (Hps : piles_hold qs gen (full ++ [la])).
Context (ps : list Pile) (Hperm : ps ≡ₚ qs).

Lemma begin_of i q : qs !! i = Some q -> BeginHeight q = Z.of_nat i * ChunkUnit /\ BeginHeight q + ChunkUnit < 2 ^ 32 /\ exists c, (full ++ [la]) !! i = Some c /\ pile_holds q c.
Proof.
  intros Hi. destruct (lookup_lt_is_Some_2 (full ++ [la]) i) as [c Hc]; [rewrite <- (pd_length _ _ _ Hps); by eapply lookup_lt_Some|].
  destruct (pd_pile _ _ _ Hps i c Hc) as (r & Hr & Hh & Hb & _). assert (r = q) as -> by congruence. split_and!; [done|apply (ph_range _ _ Hh)|eauto].
Qed.

Lemma begins_differ : NoDup (BeginHeight <$> ps).
Proof.
  rewrite Hperm. apply NoDup_alt. intros i j x Hi Hj. rewrite list_lookup_fmap in Hi, Hj. apply fmap_Some in Hi as (q & Hi & Ei). apply fmap_Some in Hj as (r & Hj & Ej).
  apply begin_of in Hi as (Hb & _). apply begin_of in Hj as (Hb' & _). assert (0 < ChunkUnit) by done. nia.
Qed.

Lemma walk_found j q : qs !! j = Some q -> foldl add_pile ∅ ps !! u32 ((0 + Z.of_nat j) * ChunkUnit) = Some q.
Proof.
  intros Hj. pose proof (begin_of j q Hj) as (Hb & Hlt & _). assert (0 < ChunkUnit) by done. rewrite u32_id, Z.add_0_l, <- Hb by lia. apply add_piles_found; [apply begins_differ|].
  rewrite Hperm. by eapply list_elem_of_lookup_2.
Qed.

Lemma length_walk : length qs = S (length full).
Proof. rewrite (pd_length _ _ _ Hps), length_app. cbn. lia. Qed.

Lemma walk_missing : foldl add_pile ∅ ps !! u32 ((0 + Z.of_nat (length qs)) * ChunkUnit) = None.
Proof.
  destruct (lookup_lt_is_Some_2 qs (length full)) as [q Hq]; [rewrite length_walk; lia|]. pose proof (begin_of _ _ Hq) as (Hb & Hlt & _). assert (0 < ChunkUnit) by done.
  rewrite length_walk, u32_id by lia. rewrite add_piles_other; [done|]. rewrite Hperm. intros (r & Er & Hr)%list_elem_of_fmap. apply list_elem_of_lookup in Hr as (i & Hi).
  pose proof (lookup_lt_Some _ _ _ Hi) as Hil. rewrite length_walk in Hil. pose proof (begin_of _ _ Hi) as (Hb' & _). nia.
Qed.

Lemma walk_height : Forall (fun c => Z.of_nat (length c) = ChunkUnit) full -> foldl higher 0 ps = Z.of_nat (length full) * ChunkUnit + Z.of_nat (length la).
Proof.
  intros Hf. assert (0 < ChunkUnit) by done. apply highest; [lia| |].
  - rewrite Hperm. apply Forall_lookup_2. intros i q Hi. pose proof (begin_of _ _ Hi) as (Hb & _ & c & Hc & Hh). pose proof (lo_length _ _ (ph_log _ _ Hh)).
    rewrite (ph_head _ _ Hh), Hb. apply lookup_app_Some in Hc as [Hc|[Hge Hc]]; [apply lookup_lt_Some in Hc; nia|].
    apply list_lookup_singleton_Some in Hc as [Hi0 <-]. replace i with (length full) by lia. lia.
  - right. destruct (pd_pile _ _ _ Hps (length full) la) as (q & Hq & Hh & Hb & _); [by rewrite lookup_app_r, Nat.sub_diag by lia|].
    exists q. split; [rewrite Hperm; by eapply list_elem_of_lookup_2|]. by rewrite (ph_head _ _ Hh), Hb.
Qed.
End Walk.

(** C25. Reopening a database: with the files of the piles, in any order, [Open]
    brings back the log, except that it fails with [ErrMissingPile] when the last
    pile is exactly full: the number of piles is computed as
    [MaxHeight / ChunkUnit + 1], one more than [AppendData] has created.  A
    database without blocks opens as one that was never initialized. *)
Theorem reopening_exact (db : DB) (gen : Hash256) (l : list Entry) (files : list File) :
  db_holds db gen l -> length gen = 32%nat -> files ≡ₚ pl_file <$> db_piles db ->
  if decide (l = []) then exists db', Open files = Ok db' /\ db_piles db' = []
  else if decide (Z.of_nat (length l) mod ChunkUnit = 0) then Open files = Err ErrMissingPile
  else exists db', Open files = Ok db' /\ db_holds db' gen l.
Proof.
  intros (full & la & -> & Hr & Hne) Hgen Hfiles. pose proof (rh_piles _ _ _ _ Hr) as Hps. pose proof (log_length _ _ _ _ Hr) as Hll. assert (HU : 0 < ChunkUnit) by done.
  set (qs := (fun p => loaded (pl_file p)) <$> db_piles db). pose proof (loaded_piles_hold _ _ _ Hps : piles_hold qs gen (full ++ [la])) as Hqs.
  assert (Hperm : loaded <$> files ≡ₚ qs) by (rewrite Hfiles; unfold qs; by rewrite <- list_fmap_compose).
  destruct (last_pile _ _ _ _ Hr) as (p & _ & _ & _ & Hpl & Hbp & _). pose proof (lo_length _ _ (ph_log _ _ Hpl)) as Hla. pose proof (ph_range _ _ Hpl) as Hrange.
  unfold Open. rewrite (load_piles_ok _ _ (files_load _ _ _ _ Hps Hfiles)). cbn [res_bind]. rewrite (walk_height qs gen full la Hqs _ Hperm) by apply Hr. rewrite <- Hll.
  assert (Hcount : forall n : nat, Z.of_nat (length (concat full ++ la)) / ChunkUnit = Z.of_nat n ->
    Z.to_nat (u32 (Z.of_nat (length (concat full ++ la)) / ChunkUnit + 1)) = S n).
  { intros n En. pose proof (Z.mul_div_le (Z.of_nat (length (concat full ++ la))) ChunkUnit HU) as Hn. rewrite En in Hn |- *. rewrite u32_id; [lia|unfold ChunkUnit in *; lia]. }
  destruct (decide (concat full ++ la = [])) as [El|Hl].
  { rewrite El. cbn. eauto. }
  assert (Hpos : 0 < Z.of_nat (length (concat full ++ la))) by (destruct (concat full ++ la); [done|cbn; lia]). rewrite (proj2 (Z.ltb_lt _ _)) by done.
  assert (Hla0 : 0 < Z.of_nat (length la)).
  { destruct la; [|cbn; lia]. destruct full; [done|]. by destruct Hne. }
  destruct (decide (_ mod _ = 0)) as [Hm|Hm].
  - assert (Efull : Z.of_nat (length la) = ChunkUnit).
    { rewrite Hll, Z.add_comm, Z.mod_add in Hm by lia. destruct (decide (Z.of_nat (length la) = ChunkUnit)); [done|]. rewrite Z.mod_small in Hm by lia. lia. }
    rewrite (Hcount (length qs)), collect_missing; [done|by apply walk_found with gen full la|by apply walk_missing with gen full la|].
    apply (div_run _ _ 0); [lia|]. rewrite Hll, (length_walk qs gen full la Hqs). lia.
  - assert (Enot : Z.of_nat (length la) < ChunkUnit).
    { destruct (decide (Z.of_nat (length la) = ChunkUnit)) as [E|]; [|lia]. destruct Hm. rewrite Hll, E, <- Z.mul_succ_l. apply Z.mod_mul. lia. }
    rewrite (Hcount (length full)), <- (length_walk qs gen full la Hqs), collect_ok; [|by apply walk_found with gen full la|].
    2: { apply (div_run _ _ (Z.of_nat (length la))); lia. }
    eexists. split; [reflexivity|]. exists full, la. split_and!; [done| |done]. split; cbn [db_piles db_genHash]; [done|apply Hr|].
    destruct (full ++ [la]) as [|c ls] eqn:E; [by apply app_nil in E as [_ ?]|]. destruct (pd_pile _ _ _ Hqs 0%nat c eq_refl) as (q & Hq & _ & _ & Hgq).
    destruct qs as [|q0 qs']; [done|]. cbn in Hq. simplify_eq. by rewrite copy_into_id.
Qed.
End Log.

(** *** Examples *)

Definition ex_db0 : DB := mkDB [] [] false false.

Lemma pile_db_is_a_log_witness : exists db, db_Init ex_gen ex_db0 = (Ok tt, db) /\ db_holds db ex_gen [].
Proof. destruct (pile_db_is_a_log ex_db0 ex_gen [] eq_refl) as [Hi _]. exact (Hi eq_refl). Defined.

(** A database whose only block is [ex_entry 2]. *)
Lemma ex_db1 : exists db, db_holds db ex_gen [ex_entry 2].
Proof.
  destruct (db_Init_ok ex_db0 ex_gen) as (db & _ & Hdb); [done|done|].
  destruct (db_AppendData_ok db ex_gen [] (ex_entry 2) false) as (db' & _ & Hdb'); [done|done|apply ex_entry_ok|done|done|eauto].
Qed.

Lemma reopening_exact_witness : exists db files, db_holds db ex_gen [ex_entry 2] /\ exists db', Open files = Ok db' /\ db_holds db' ex_gen [ex_entry 2].
Proof.
  destruct ex_db1 as (db & Hdb). exists db, (pl_file <$> db_piles db). split; [exact Hdb|].
  pose proof (reopening_exact db ex_gen [ex_entry 2] (pl_file <$> db_piles db) Hdb eq_refl (reflexivity _)) as H.
  rewrite decide_False in H by discriminate. rewrite decide_False in H by discriminate. exact H.
Defined.
