(* ===== verification/BlockCodec.v ===== *)
(** * The encoding of blocks

    [core/types/block.go]: the encoder and the decoder of a block, which the
    store, the block log and the messages between nodes use.  The header, the
    signatures, the numbers and the bodies of the transactions are written by
    [msgpack], a parameter; the type of a transaction comes from the factory. *)

From stdpp Require Import base gmap list strings.
From Stdlib Require Import ZArith Lia.
From S2P Require Import Prelude Amount Common Types Context ContextSpec Factory OrderedMap Chain.

Definition ErrInvalidTransactionCount := terr "invalid transaction count".

(** [make([]T, 0, n)]. *)
Definition make_slice (n : Z) : res nat := if n <? 0 then Panic "makeslice: cap out of range" else Ok (Z.to_nat n).

(** ** Sequences *)

Section Sequences.
Context {A : Type}.

(** [for _, x := range l { if err := enc(x); err != nil { return err } }]. *)
Fixpoint encode_each (enc : A -> res bytes) (l : list A) : res bytes :=
  match l with
  | [] => Ok []
  | x :: l =>
      let? b := enc x in
      let? bs := encode_each enc l in
      Ok (b ++ bs)
  end.

(** [for i := 0; i < n; i++ { x, err := dec(); ...; l = append(l, x) }]. *)
Fixpoint decode_each (dec : bytes -> res (A * bytes)) (n : nat) (bs : bytes) : res (list A * bytes) :=
  match n with
  | O => Ok ([], bs)
  | S n =>
      let? (x, bs) := dec bs in
      let? (l, bs) := decode_each dec n bs in
      Ok (x :: l, bs)
  end.

(** Decoding undoes encoding, one element at a time. *)
Lemma decode_each_encode (enc : A -> res bytes) (dec : bytes -> res (A * bytes)) l :
  Forall (fun x => forall b rest, enc x = Ok b -> dec (b ++ rest) = Ok (x, rest)) l ->
  forall bs rest, encode_each enc l = Ok bs -> decode_each dec (length l) (bs ++ rest) = Ok (l, rest).
Proof.
  induction 1 as [|x l Hx _ IH]; intros bs rest He; cbn in He |- *; [by simplify_eq|].
  destruct (enc x) as [b| |] eqn:Ex; cbn in He; try done. destruct (encode_each enc l) as [bs'| |] eqn:El; cbn in He; try done.
  inv He. rewrite <- (assoc_L (++)), (Hx b (bs' ++ rest) eq_refl). cbn. by rewrite (IH bs' rest eq_refl).
Qed.
End Sequences.

(** ** Blocks *)

Section BlockCodec.
Context {Tx : Type} `{Sha256} `{!ArrayLenCoder} `{!TypedValue Tx} (tfc : Factory).
Context `{!Coder Header} (cSignature : Coder Signature) (cUint16 cUint8 : Coder Z).

Definition encode_sigs (sigs : list Signature) : res bytes :=
  let? bs := encode_each (encode (Coder := cSignature)) sigs in
  Ok (EncodeArrayLen (length sigs) ++ bs).

Definition decode_sigs (bs : bytes) : res (list Signature * bytes) :=
  let? (SigLen, bs) := DecodeArrayLen bs in
  let? n := make_slice SigLen in
  decode_each (decode (Coder := cSignature)) n bs.

(** One transaction: its type, its body, its signatures and its result. *)
Definition TxEntry : Type := Z * Tx * list Signature * Z.

Definition encode_entry_tx (e : TxEntry) : res bytes :=
  let '(t, tx, sigs, r) := e in
  let? bt := encode (Coder := cUint16) t in
  let? bx := encode_value tx in
  let? bs := encode_sigs sigs in
  let? br := encode (Coder := cUint8) r in
  Ok (bt ++ bx ++ bs ++ br).

Definition decode_entry_tx (bs : bytes) : res (TxEntry * bytes) :=
  let? (t, bs) := decode (Coder := cUint16) bs in
  let? v := Create tfc t in
  let? (tx, bs) := decode_value v bs in
  let? (sigs, bs) := decode_sigs bs in
  let? (r, bs) := decode (Coder := cUint8) bs in
  Ok ((t, tx, sigs, r), bs).

(** The transactions of a block, entry by entry. *)
Definition block_entries (b : Block Tx) : list TxEntry :=
  zip (zip (zip (b_TransactionTypes b) (b_Transactions b)) (b_TransactionSignatures b)) (b_TransactionResults b).

Definition encode_body (b : Block Tx) : res bytes :=
  let? bs := encode_each encode_entry_tx (block_entries b) in
  let? ss := encode_sigs (b_Signatures b) in
  Ok (EncodeArrayLen (length (b_Transactions b)) ++ bs ++ ss).

Definition encode_block (b : Block Tx) : res bytes :=
  let n := length (b_TransactionTypes b) in
  if 65535 <=? Z.of_nat n then Err ErrInvalidTransactionCount
  else if negb (n =? length (b_Transactions b))%nat then Err ErrInvalidTransactionCount
  else if negb (n =? length (b_TransactionSignatures b))%nat then Err ErrInvalidTransactionCount
  else if negb (n =? length (b_TransactionResults b))%nat then Err ErrInvalidTransactionCount
  else
    let? bh := encode (b_Header b) in
    let? bb := encode_body b in
    Ok (bh ++ bb).

Definition decode_block (bs : bytes) : res (Block Tx * bytes) :=
  let? (h, bs) := decode (A := Header) bs in
  let? (TxLen, bs) := DecodeArrayLen bs in
  if 65535 <=? TxLen then Err ErrInvalidTransactionCount
  else
    let? n := make_slice TxLen in
    let? (es, bs) := decode_each decode_entry_tx n bs in
    let? (ss, bs) := decode_sigs bs in
    Ok (mkBlock h es.*1.*1.*1 es.*1.*1.*2 es.*1.*2 es.*2 ss, bs).

(** ** Properties *)

Definition entry_codable (e : TxEntry) : Prop :=
  let '(t, tx, sigs, r) := e in
  codable (Coder := cUint16) t /\ Create tfc t = Ok (Ptr (strip_ptr (value_type tx))) /\ codable_value tx /\
  Forall (codable (Coder := cSignature)) sigs /\ codable (Coder := cUint8) r.

(** A block whose types are those of its transactions and whose parts [msgpack] can write. *)
Definition block_codable (b : Block Tx) : Prop :=
  codable (b_Header b) /\ Forall entry_codable (block_entries b) /\ Forall (codable (Coder := cSignature)) (b_Signatures b).

Lemma decode_sigs_encode sigs bs rest : Forall (codable (Coder := cSignature)) sigs -> encode_sigs sigs = Ok bs -> decode_sigs (bs ++ rest) = Ok (sigs, rest).
Proof.
  intros Hc He. unfold encode_sigs, decode_sigs in *. destruct (encode_each _ sigs) as [bs'| |] eqn:E; cbn in He; try done. inv He.
  rewrite <- (assoc_L (++)), DecodeArrayLen_Encode. cbn [res_bind]. unfold make_slice. rewrite (proj2 (Z.ltb_ge _ _)) by lia. cbn [res_bind]. rewrite Nat2Z.id.
  eapply decode_each_encode; [|done]. eapply Forall_impl; [exact Hc|]. intros s Hs b r Eb. by apply (decode_encode (Coder := cSignature)).
Qed.

Lemma decode_entry_encode e b rest : entry_codable e -> encode_entry_tx e = Ok b -> decode_entry_tx (b ++ rest) = Ok (e, rest).
Proof.
  destruct e as [[[t tx] sigs] r]. intros (Ht & Hv & Hx & Hs & Hr) He. unfold encode_entry_tx, decode_entry_tx in *.
  destruct (encode t) as [bt| |] eqn:Et; cbn in He; try done. destruct (encode_value tx) as [bx| |] eqn:Ex; cbn in He; try done.
  destruct (encode_sigs sigs) as [bs| |] eqn:Es; cbn in He; try done. destruct (encode r) as [br| |] eqn:Er; cbn in He; try done. inv He.
  rewrite <- !(assoc_L (++)), (decode_encode (Coder := cUint16) _ _ _ Ht Et). cbn [res_bind]. rewrite Hv. cbn [res_bind].
  rewrite (decode_value_encode _ _ _ Hx Ex). cbn [res_bind]. rewrite (decode_sigs_encode _ _ _ Hs Es). cbn [res_bind].
  by rewrite (decode_encode (Coder := cUint8) _ _ _ Hr Er).
Qed.

Lemma block_entries_fields (b : Block Tx) : length (b_TransactionTypes b) = length (b_Transactions b) ->
  length (b_TransactionTypes b) = length (b_TransactionSignatures b) -> length (b_TransactionTypes b) = length (b_TransactionResults b) ->
  let es := block_entries b in
  length es = length (b_Transactions b) /\ es.*1.*1.*1 = b_TransactionTypes b /\ es.*1.*1.*2 = b_Transactions b /\ es.*1.*2 = b_TransactionSignatures b /\ es.*2 = b_TransactionResults b.
Proof.
  intros H1 H2 H3 es. unfold es, block_entries. rewrite !length_zip_with.
  assert (L1 : length (zip (b_TransactionTypes b) (b_Transactions b)) = length (b_TransactionTypes b)) by (rewrite length_zip_with; lia).
  assert (L2 : length (zip (zip (b_TransactionTypes b) (b_Transactions b)) (b_TransactionSignatures b)) = length (b_TransactionTypes b)) by (rewrite length_zip_with; lia).
  split; [lia|]. rewrite fst_zip, snd_zip by lia. rewrite fst_zip, snd_zip by lia. by rewrite fst_zip, snd_zip by lia.
Qed.

Lemma decode_block_encode b bs rest : block_codable b -> encode_block b = Ok bs -> decode_block (bs ++ rest) = Ok (b, rest).
Proof.
  intros (Hh & He & Hs) E. unfold encode_block in E.
  destruct (Z.leb_spec 65535 (Z.of_nat (length (b_TransactionTypes b)))) as [|Hmax]; [done|].
  destruct (Nat.eqb_spec (length (b_TransactionTypes b)) (length (b_Transactions b))) as [H1|]; [|done].
  destruct (Nat.eqb_spec (length (b_TransactionTypes b)) (length (b_TransactionSignatures b))) as [H2|]; [|done].
  destruct (Nat.eqb_spec (length (b_TransactionTypes b)) (length (b_TransactionResults b))) as [H3|]; [|done]. cbn [negb] in E.
  destruct (encode (b_Header b)) as [bh| |] eqn:Eh; cbn in E; try done. unfold encode_body in E.
  destruct (encode_each encode_entry_tx (block_entries b)) as [be| |] eqn:Ee; cbn in E; try done.
  destruct (encode_sigs (b_Signatures b)) as [ss| |] eqn:Ess; cbn in E; try done. inv E.
  destruct (block_entries_fields b H1 H2 H3) as (Hlen & E1 & E2 & E3 & E4).
  unfold decode_block. rewrite <- !(assoc_L (++)), (decode_encode _ _ _ Hh Eh). cbn [res_bind]. rewrite DecodeArrayLen_Encode. cbn [res_bind].
  rewrite (proj2 (Z.leb_gt _ _)) by lia. unfold make_slice. rewrite (proj2 (Z.ltb_ge _ _)) by lia. cbn [res_bind]. rewrite Nat2Z.id, <- Hlen.
  erewrite decode_each_encode; [|eapply Forall_impl; [exact He|]; intros e Hc b' r; by apply decode_entry_encode|exact Ee]. cbn [res_bind].
  rewrite (decode_sigs_encode _ _ _ Hs Ess). cbn [res_bind]. rewrite E1, E2, E3, E4. by destruct b.
Qed.

(** The coder of blocks: what [encoding.Register(Block{}, ...)] installs. *)
#[refine] Instance coder_block : Coder (Block Tx) := {
  encode := encode_block;
  decode := decode_block;
  codable := block_codable
}.
Proof. apply decode_block_encode. Defined.

(** C31. Blocks survive their encoding.  Let [b] be a block whose recorded type numbers
    are those of the types of its transactions and whose parts [msgpack] can write
    ([block_codable]): what [encode_block] writes for it, in front of anything, decodes
    to the block and the rest, and any other such block has another encoding.  Every
    block, whatever its types, that has 65535 transactions or more, or whose lists of
    types, transactions, signatures and results differ in length, is refused.  The
    encoder does not check the types: a block that records a wrong one is written all
    the same, and nothing is claimed of it. *)
Theorem block_roundtrip (b : Block Tx) :
  (block_codable b -> forall bs rest, encode_block b = Ok bs -> decode_block (bs ++ rest) = Ok (b, rest)) /\
  (65535 <= Z.of_nat (length (b_TransactionTypes b)) \/ length (b_TransactionTypes b) <> length (b_Transactions b) \/
   length (b_TransactionTypes b) <> length (b_TransactionSignatures b) \/ length (b_TransactionTypes b) <> length (b_TransactionResults b) ->
   encode_block b = Err ErrInvalidTransactionCount) /\
  (forall b' bs, block_codable b -> block_codable b' -> encode_block b = Ok bs -> encode_block b' = Ok bs -> b = b').
Proof.
  split_and!.
  - intros Hc bs rest. by apply decode_block_encode.
  - intros Hbad. unfold encode_block. destruct (Z.leb_spec 65535 (Z.of_nat (length (b_TransactionTypes b)))); [done|].
    destruct (Nat.eqb_spec (length (b_TransactionTypes b)) (length (b_Transactions b))); [|done].
    destruct (Nat.eqb_spec (length (b_TransactionTypes b)) (length (b_TransactionSignatures b))); [|done].
    destruct (Nat.eqb_spec (length (b_TransactionTypes b)) (length (b_TransactionResults b))); [|done]. lia.
  - intros b' bs Hc Hc' E E'. apply (decode_block_encode _ _ []) in E; [|done]. apply (decode_block_encode _ _ []) in E'; [|done]. congruence.
Qed.

(** *** What the decoder returns *)

Lemma decode_each_length {A} (dec : bytes -> res (A * bytes)) n : forall bs l rest, decode_each dec n bs = Ok (l, rest) -> length l = n.
Proof.
  induction n as [|n IH]; intros bs l rest E; cbn in E; [by simplify_eq|].
  destruct (dec bs) as [[x bs1]| |]; cbn in E; try done. destruct (decode_each dec n bs1) as [[l' bs2]| |] eqn:El; cbn in E; try done. inv E. cbn. f_equal. by eapply IH.
Qed.
Lemma decode_each_forall {A} (P : A -> Prop) (dec : bytes -> res (A * bytes)) n : (forall bs x rest, dec bs = Ok (x, rest) -> P x) ->
  forall bs l rest, decode_each dec n bs = Ok (l, rest) -> Forall P l.
Proof.
  intros Hd. induction n as [|n IH]; intros bs l rest E; cbn in E; [by simplify_eq|].
  destruct (dec bs) as [[x bs1]| |] eqn:Ex; cbn in E; try done. destruct (decode_each dec n bs1) as [[l' bs2]| |] eqn:El; cbn in E; try done. inv E.
  constructor; [by eapply Hd|by eapply IH].
Qed.

(** [msgpack] decodes into the value that the factory created. *)
Class DecodesInto : Prop := { decoded_type : forall v bs (tx : Tx) rest, decode_value v bs = Ok (tx, rest) -> value_type tx = v }.

Definition entry_typed (e : TxEntry) : Prop := TypeOf tfc (value_type e.1.1.2) = Ok e.1.1.1.
Lemma decode_entry_typed `{!DecodesInto} bs e rest : factory_wf tfc -> decode_entry_tx bs = Ok (e, rest) -> entry_typed e.
Proof.
  intros Hwf E. unfold decode_entry_tx in E. destruct (decode bs) as [[t bs1]| |]; cbn in E; try done.
  destruct (Create tfc t) as [v| |] eqn:Ev; cbn in E; try done. destruct (decode_value v bs1) as [[tx bs2]| |] eqn:Et; cbn in E; try done.
  destruct (decode_sigs bs2) as [[sigs bs3]| |]; cbn in E; try done. destruct (decode bs3) as [[r bs4]| |]; cbn in E; try done. inv E.
  unfold entry_typed. cbn. rewrite (decoded_type _ _ _ _ Et). by apply TypeOf_Create.
Qed.

(** C32. Whatever the bytes, and whoever sent them, a block that is decoded is well
    typed: it has a type, a list of signatures and a result for every transaction,
    fewer than 65535 of them, and the type recorded for a transaction is the one that
    the factory gives for the transaction itself; so the checks of [encode_block] on
    the lists never refuse it again. *)
Theorem decoded_blocks_are_typed `{!DecodesInto} (bs : bytes) (b : Block Tx) (rest : bytes) : factory_wf tfc -> decode_block bs = Ok (b, rest) ->
  Forall2 (fun t tx => TypeOf tfc (value_type tx) = Ok t) (b_TransactionTypes b) (b_Transactions b) /\
  length (b_TransactionSignatures b) = length (b_Transactions b) /\ length (b_TransactionResults b) = length (b_Transactions b) /\
  Z.of_nat (length (b_Transactions b)) < 65535 /\
  (encode_block b = Err ErrInvalidTransactionCount -> encode (b_Header b) = Err ErrInvalidTransactionCount \/ encode_body b = Err ErrInvalidTransactionCount).
Proof.
  intros Hwf E. unfold decode_block in E. destruct (decode bs) as [[h bs1]| |]; cbn in E; try done.
  destruct (DecodeArrayLen bs1) as [[n bs2]| |]; cbn in E; try done. destruct (Z.leb_spec 65535 n) as [|Hn]; [done|].
  unfold make_slice in E. destruct (Z.ltb_spec n 0) as [|Hn0]; cbn in E; [done|].
  destruct (decode_each decode_entry_tx (Z.to_nat n) bs2) as [[es bs3]| |] eqn:Ee; cbn in E; try done. destruct (decode_sigs bs3) as [[ss bs4]| |]; cbn in E; try done. inv E.
  pose proof (decode_each_length _ _ _ _ _ Ee : length (A := Z * Tx * list Signature * Z) es = _) as Hl. apply (decode_each_forall entry_typed) in Ee; [|intros *; by apply decode_entry_typed].
  cbn [b_TransactionTypes b_Transactions b_TransactionSignatures b_TransactionResults b_Header]. rewrite !length_fmap. split_and!; [|done|done|lia|].
  - apply Forall2_fmap, Forall2_fmap, Forall2_fmap, Forall_Forall2_diag. eapply Forall_impl; [exact Ee|]. done.
  - unfold encode_block. cbn [b_TransactionTypes b_Transactions b_TransactionSignatures b_TransactionResults b_Header].
    rewrite !length_fmap, Nat.eqb_refl, (proj2 (Z.leb_gt _ _)) by lia. cbn [negb].
    destruct (encode h) as [bh|e|w]; cbn; [|by left|done]. destruct (encode_body _) as [bb|e|w]; cbn; [done|by right|done].
Qed.

(** The encoding of a block starts with the encoding of its header, so the store
    may keep the two in separate parts. *)
Lemma encode_block_split b bs : encode_block b = Ok bs ->
  exists bh bb, encode (b_Header b) = Ok bh /\ encode_body b = Ok bb /\ bs = bh ++ bb.
Proof.
  unfold encode_block. repeat (destr_match; try done). intros E. destruct (encode (b_Header b)) as [bh| |]; cbn in E; try done.
  destruct (encode_body b) as [bb| |]; cbn in E; try done. inv E. eauto.
Qed.
End BlockCodec.

(** ** Concrete coders for the witnesses *)

Definition coder_pair {A B} (CA : Coder A) (CB : Coder B) : Coder (A * B).
Proof.
  refine {| encode p := let? a := encode p.1 in let? b := encode p.2 in Ok (a ++ b);
            decode bs := let? (a, bs) := decode bs in let? (b, bs) := decode bs in Ok ((a, b), bs);
            codable p := codable p.1 /\ codable p.2 |}.
  intros [a b] bs rest [Ha Hb] E. cbn in E. destruct (encode a) as [ba| |] eqn:Ea; cbn in E; try done. destruct (encode b) as [bb| |] eqn:Eb; cbn in E; try done. inv E.
  rewrite <- (assoc_L (++)), (decode_encode _ _ _ Ha Ea). cbn. by rewrite (decode_encode _ _ _ Hb Eb).
Defined.

Definition coder_iso {A B} (CA : Coder A) (f : B -> A) (g : A -> B) (Hgf : forall b, g (f b) = b) : Coder B.
Proof.
  refine {| encode b := encode (f b); decode bs := let? (a, bs) := decode bs in Ok (g a, bs); codable b := codable (f b) |}.
  intros b bs rest Hb E. rewrite (decode_encode _ _ _ Hb E). cbn. by rewrite Hgf.
Defined.

Definition coder_header : Coder Header.
Proof.
  refine (coder_iso (coder_pair (coder_pair (coder_pair coder_byte coder_byte) (coder_pair coder_byte coder_byte)) (coder_pair (coder_pair coder_blob coder_blob) (coder_pair coder_blob (coder_pair coder_blob coder_blob))))
    (fun h => (((h_ChainID h, h_Version h), (h_Height h, h_Timestamp h)), ((h_PrevHash h, h_LevelRootHash h), (h_ContextHash h, (h_Generator h, h_ConsensusData h)))))
    (fun '(((c, v), (h, t)), ((p, l), (x, (g, d)))) => mkHeader c v h p l x t g d) _).
  by intros [].
Defined.

(** A value of one type of the factory. *)
Definition typed_by {A} (name : string) (C : Coder A) : TypedValue A.
Proof.
  refine {| value_type _ := Ptr (Named (str "example") (str name)); encode_value := encode; decode_value _ := decode; codable_value := codable |}.
  intros a bs rest. apply decode_encode.
Defined.

Definition example_factory (pid : Z) (name : string) : Factory := (Register_type (H := sha256_prefix) pid NewFactory 1 (Ptr (Named (str "example") (str name)))).1.

Definition ex_tx_types : Factory := example_factory 7 "Tx".
Definition ex_block (height : Z) (txs : list Z) : Block Z :=
  mkBlock (mkHeader 1 1 height (replicate 32 0) (replicate 32 0) (replicate 32 0) (10 * height) (replicate 14 1) [])
    (replicate (length txs) 1793) txs (replicate (length txs) [[5; 6]]) (replicate (length txs) 1) [[8]].

Definition ex_txs : TypedValue Z := typed_by "Tx" coder_byte.
Definition ex_headers : Coder Header := coder_header.
#[local] Existing Instances ex_txs ex_headers.

Lemma ex_block_codable height txs : block_codable ex_tx_types coder_blob coder_byte coder_byte (ex_block height txs).
Proof.
  split; [done|]. split; [|by repeat constructor]. unfold block_entries, ex_block; cbn [b_TransactionTypes b_Transactions b_TransactionSignatures b_TransactionResults].
  induction txs as [|t txs IH]; cbn [length replicate zip_with]; [constructor|]. constructor; [|exact IH]. split_and!; try done. by repeat constructor.
Qed.

Lemma block_roundtrip_witness :
  exists bs, encode_block coder_blob coder_byte coder_byte (ex_block 3 [40; 41]) = Ok bs /\
    decode_block ex_tx_types coder_blob coder_byte coder_byte (bs ++ [9]) = Ok (ex_block 3 [40; 41], [9]).
Proof.
  eexists. split; [reflexivity|]. apply (proj1 (block_roundtrip ex_tx_types coder_blob coder_byte coder_byte (ex_block 3 [40; 41])) (ex_block_codable 3 [40; 41])). reflexivity.
Defined.

#[global] Instance reflect_Type_eq_dec : EqDecision reflect_Type.
Proof. solve_decision. Defined.

(** A value that is decoded into its own type only. *)
Definition typed_into {A} (name : string) (C : Coder A) : TypedValue A.
Proof.
  refine {| value_type _ := Ptr (Named (str "example") (str name)); encode_value := encode;
            decode_value v bs := if bool_decide (v = Ptr (Named (str "example") (str name))) then decode bs else Err ErrUnknownType; codable_value := codable |}.
  intros a bs rest. cbn [strip_ptr]. rewrite bool_decide_true by done. apply decode_encode.
Defined.
Lemma typed_into_decodes {A} name (C : Coder A) : DecodesInto (TypedValue0 := typed_into name C).
Proof. split. intros v bs tx rest. cbn. by case_bool_decide; subst. Qed.
Lemma ex_tx_types_wf : factory_wf (H := sha256_prefix) ex_tx_types.
Proof. apply registered_wf. repeat constructor. Qed.

Lemma decoded_blocks_are_typed_witness :
  let tv := typed_into "Tx" coder_byte in
  exists bs, encode_block (TypedValue0 := tv) coder_blob coder_byte coder_byte (ex_block 3 [40; 41]) = Ok bs /\
    Forall2 (fun t tx => TypeOf ex_tx_types (value_type (TypedValue := tv) tx) = Ok t) [1793; 1793] [40; 41].
Proof.
  intros tv. eexists. split; [vm_compute; reflexivity|].
  refine (proj1 (decoded_blocks_are_typed (TypedValue0 := tv) (H1 := typed_into_decodes _ _) ex_tx_types coder_blob coder_byte coder_byte
    (match encode_block (TypedValue0 := tv) coder_blob coder_byte coder_byte (ex_block 3 [40; 41]) with Ok bs => bs | _ => [] end) (ex_block 3 [40; 41]) [] ex_tx_types_wf _)).
  vm_compute. reflexivity.
Defined.
