(* ===== verification/StoreKey.v ===== *)
(** * The keys of the store

    [core/chain/util_key.go]: every kind of entry has a tag of two bytes, so keys
    of different kinds never meet and a prefix of a kind selects its entries. *)

From stdpp Require Import base gmap list strings.
From Stdlib Require Import ZArith Lia.
From S2P Require Import Prelude Amount Common.

Definition tagHeight : bytes := [1; 0].
Definition tagHeightHash : bytes := [1; 1].
Definition tagHeightHeader : bytes := [1; 2].
Definition tagHeightBlock : bytes := [1; 3].
Definition tagHashHeight : bytes := [1; 4].
Definition tagAccount : bytes := [2; 0].
Definition tagAccountName : bytes := [2; 1].
Definition tagAccountSeq : bytes := [2; 2].
Definition tagAccountData : bytes := [2; 3].
Definition tagUTXO : bytes := [3; 0].
Definition tagProcessData : bytes := [4; 0].
Definition tagEvent : bytes := [5; 0].
Definition tagLockedBalance : bytes := [6; 0].
Definition tagLockedBalanceHeight : bytes := [6; 1].

Definition toHeightBlockKey (height : Z) : bytes := tagHeightBlock ++ be_bytes 4 height.
Definition toHeightHeaderKey (height : Z) : bytes := tagHeightHeader ++ be_bytes 4 height.
Definition toHeightHashKey (height : Z) : bytes := tagHeightHash ++ be_bytes 4 height.
Definition toHashHeightKey (h : Hash256) : bytes := tagHashHeight ++ h.
Definition toAccountKey (addr : Address) : bytes := tagAccount ++ addr.
Definition toAccountNameKey (Name : bytes) : bytes := tagAccountName ++ Name.
Definition toAccountSeqKey (addr : Address) : bytes := tagAccountSeq ++ addr.
Definition toAccountDataKey (key : bytes) : bytes := tagAccountData ++ key.
Definition toUTXOKey (id : Z) : bytes := tagUTXO ++ be_bytes 8 id.
(** [bs[n:]] and [binary.BigEndian.Uint64(bs)]. *)
Definition from_index (n : nat) (bs : bytes) : res bytes :=
  if (length bs <? n)%nat then Panic "slice bounds out of range" else Ok (drop n bs).
Definition big_Uint64 (bs : bytes) : res Z :=
  if (length bs <? 8)%nat then Panic "index out of range" else Ok (be_value (take 8 bs)).

Definition fromUTXOKey (bs : bytes) : res Z := let? bs := from_index 2 bs in big_Uint64 bs.
Definition toProcessDataKey (key : bytes) : bytes := tagProcessData ++ key.
Definition toEventKey (id : Z) : bytes := tagEvent ++ be_bytes 4 id.

(** The keys of locked balances; no other function uses them. *)
Definition toLockedBalancePrefix (addr : Address) : bytes := tagLockedBalance ++ addr.
Definition toLockedBalanceKey (addr : Address) (UnlockHeight : Z) : bytes := tagLockedBalance ++ addr ++ be_bytes 4 UnlockHeight.
Definition fromLockedBalanceKey (bs : bytes) : res (Address * Z) :=
  let? a := from_index 2 bs in
  let? r := from_index (2 + AddressSize) bs in
  let? h := BytesToUint32 r in
  Ok (copy_into AddressSize a, h).
Definition toLockedBalanceHeightPrefix (Height : Z) : bytes := tagLockedBalance ++ be_bytes 4 Height.
Definition toLockedBalanceHeightKey (UnlockHeight : Z) (addr : Address) : bytes := tagLockedBalance ++ be_bytes 4 UnlockHeight ++ addr.
Definition fromLockedBalanceHeightKey (bs : bytes) : res (Address * Z) :=
  let? a := from_index 6 bs in
  let? r := from_index 2 bs in
  let? h := BytesToUint32 r in
  Ok (copy_into AddressSize a, h).

(** ** Properties *)

(** Keys with the same tag are equal when the rest is; keys with different tags differ. *)
Lemma be_bytes_32_inj n m : 0 <= n < 2 ^ 32 -> 0 <= m < 2 ^ 32 -> be_bytes 4 n = be_bytes 4 m -> n = m.
Proof. intros Hn Hm. apply be_bytes_inj; done. Qed.

Lemma fromUTXOKey_to id : 0 <= id < 2 ^ 64 -> fromUTXOKey (toUTXOKey id) = Ok id.
Proof.
  intros Hid. unfold fromUTXOKey, toUTXOKey, from_index, big_Uint64. rewrite length_app, length_be_bytes. cbn [length tagUTXO Nat.add Nat.ltb Nat.leb res_bind].
  change (drop 2 (tagUTXO ++ be_bytes 8 id)) with (be_bytes 8 id). rewrite length_be_bytes. cbn [Nat.ltb Nat.leb].
  rewrite take_ge by (by rewrite length_be_bytes). rewrite be_value_be_bytes, Z.mod_small by done. done.
Qed.

Lemma toUTXOKey_inj id id' : 0 <= id < 2 ^ 64 -> 0 <= id' < 2 ^ 64 -> toUTXOKey id = toUTXOKey id' -> id = id'.
Proof. intros Hi Hi' E%(f_equal fromUTXOKey). rewrite !fromUTXOKey_to in E by done. by inv E. Qed.

(** The height of a locked balance is written with the most significant byte
    first and read with the least significant byte first: it does not come back. *)
Lemma locked_balance_key_reads_back_wrong :
  fromLockedBalanceKey (toLockedBalanceKey (replicate AddressSize 0) 1) = Ok (replicate AddressSize 0, 2 ^ 24).
Proof. by vm_compute. Qed.

(** Simplify an equation between two keys: close the goal when the tags differ. *)
Ltac key_eq H :=
  unfold toHeightBlockKey, toHeightHeaderKey, toHeightHashKey, toHashHeightKey, toAccountKey, toAccountNameKey, toAccountSeqKey,
    toAccountDataKey, toUTXOKey, toProcessDataKey, toEventKey, tagHeight, tagHeightHash, tagHeightHeader, tagHeightBlock,
    tagHashHeight, tagAccount, tagAccountName, tagAccountSeq, tagAccountData, tagUTXO, tagProcessData, tagEvent in H;
  cbn [app] in H; try discriminate H.
