(* ===== verification/Store.v ===== *)
(** * The store

    [core/chain/store.go] over [core/backend/store_backend.go] and the block log:
    the state of the chain as entries of a key-value database, the blocks in the
    block log ([cdb], or in the database itself in the old layout, when [cdb] is
    nil), with a cache of the last block and of the sequences.

    The backend is a parameter with the operations of [StoreReader] and
    [StoreWriter]; [Update] runs a function in a transaction, which is undone when
    the function fails.  Locks, the timer that shrinks the database every five
    minutes and the files are not modelled. *)

From stdpp Require Import base gmap list sorting strings.
From Stdlib Require Import ZArith Lia.
From S2P Require Import Prelude Amount Common Types Context ContextSpec Factory OrderedMap Chain BlockCodec Pile PileDB StoreKey.

Definition ErrStoreClosed := cherr "store closed".
Definition ErrAlreadyGenesised := cherr "already genesised".
Definition ErrInvalidTxInKey := cherr "invalid txin key".
Definition chain_ErrInvalidAccountName := cherr "invalid account name".
Definition ErrNotExistKey : error := mkError "backend" "not exist key".

(** ** Backends *)

(** [StoreReader] and [StoreWriter]; [kv_Iterate] is the entries the callback of
    [Iterate] gets. *)
Class StoreBackend (D : Type) := {
  kv_Get : D -> bytes -> res bytes;
  kv_Iterate : D -> bytes -> res (list (bytes * bytes));
  kv_Set : bytes -> bytes -> ST D unit;
  kv_Delete : bytes -> ST D unit
}.

(** ** The state *)

Record storecache (Tx : Type) := mkStorecache { sc_cached : bool; sc_height : Z; sc_heightHash : Hash256; sc_heightBlock : option (Block Tx) }.
Arguments mkStorecache {Tx}. Arguments sc_cached {Tx}. Arguments sc_height {Tx}. Arguments sc_heightHash {Tx}. Arguments sc_heightBlock {Tx}.

(** A nil pointer is [None]. *)
Record Store (Tx D : Type) := mkStore {
  st_db : option D; st_cdb : option DB; st_chainID : Z; st_name : bytes; st_version : Z;
  st_SeqMap : gmap Address Z; st_cache : storecache Tx; st_isClose : bool
}.
Arguments mkStore {Tx D}. Arguments st_db {Tx D}. Arguments st_cdb {Tx D}. Arguments st_chainID {Tx D}. Arguments st_name {Tx D}.
Arguments st_version {Tx D}. Arguments st_SeqMap {Tx D}. Arguments st_cache {Tx D}. Arguments st_isClose {Tx D}.

Definition set_db {Tx D} (st : Store Tx D) db : Store Tx D := mkStore db (st_cdb st) (st_chainID st) (st_name st) (st_version st) (st_SeqMap st) (st_cache st) (st_isClose st).
Definition set_cdb {Tx D} (st : Store Tx D) cdb : Store Tx D := mkStore (st_db st) cdb (st_chainID st) (st_name st) (st_version st) (st_SeqMap st) (st_cache st) (st_isClose st).
Definition set_seqs {Tx D} (st : Store Tx D) m : Store Tx D := mkStore (st_db st) (st_cdb st) (st_chainID st) (st_name st) (st_version st) m (st_cache st) (st_isClose st).
Definition set_storecache {Tx D} (st : Store Tx D) c : Store Tx D := mkStore (st_db st) (st_cdb st) (st_chainID st) (st_name st) (st_version st) (st_SeqMap st) c (st_isClose st).

Section Store.
Context {Tx D : Type} `{!StoreBackend D}.
Context `{GZ : Gzip} `{Sha256} `{Base58} `{!ArrayLenCoder} `{!TypedValue Tx} `{!TypedValue Account} `{!TypedValue Event}.
(** The factories of transactions, accounts and events, and the coders of [msgpack]. *)
Context (tfc afc efc : Factory) `{!Coder Header} `{!Coder TxOut} (cSignature : Coder Signature) (cUint16 cUint8 : Coder Z).

Definition storeM (A : Type) : Type := ST (Store Tx D) A.

Definition NewStore (db : D) (cdb : option DB) (ChainID : Z) (name : bytes) (version : Z) : Store Tx D :=
  mkStore (Some db) cdb ChainID name version ∅ (mkStorecache false 0 EmptyHash None) false.

Definition store_Close : storeM unit := modify (fun st =>
  mkStore None None (st_chainID st) (st_name st) (st_version st) (st_SeqMap st) (st_cache st) true).

Definition nil_db : string := "nil pointer dereference".

Definition View {A} (fn : D -> res A) : storeM A := fun st =>
  match st_db st with Some d => (fn d, st) | None => (Panic nil_db, st) end.
Definition Update (fn : ST D unit) : storeM unit := fun st =>
  match st_db st with
  | None => (Panic nil_db, st)
  | Some d => match fn d with
              | (Ok _, d) => (Ok tt, set_db st (Some d))
              | (Err e, _) => (Err e, st)
              | (Panic w, _) => (Panic w, st)
              end
  end.
Definition on_cdb {A} (m : ST DB A) : storeM A := fun st =>
  match st_cdb st with
  | None => (Panic nil_db, st)
  | Some cdb => let '(r, cdb) := m cdb in (r, set_cdb st (Some cdb))
  end.

(** [if st.isClose { return closed }]. *)
Definition if_open {A} (closed : res A) (m : storeM A) : storeM A :=
  let! st := gets id in
  if st_isClose st then lift closed else m.

(** [encoding.Unmarshal]; bytes after the value are ignored. *)
Definition Unmarshal_as {A} `{C : !Coder A} (bs : bytes) : res A := let? (a, _) := decode bs in Ok a.
Definition block_coder : Coder (Block Tx) := coder_block tfc cSignature cUint16 cUint8.

(** [err] of the block log for the caller: an unknown height is an unknown key. *)
Definition not_exist {A} (m : storeM A) : storeM A :=
  let! r := attempt m in
  match r with
  | inr a => ret a
  | inl err => if bool_decide (err = Pile.ErrInvalidHeight) then fail ErrNotExistKey else fail err
  end.

(** [st.cache.cached && st.cache.height == height]. *)
Definition cached_at (st : Store Tx D) (height : Z) : bool := sc_cached (st_cache st) && (sc_height (st_cache st) =? height).

(** *** Blocks *)

Definition store_Hash (height : Z) : storeM Hash256 := if_open (Err ErrStoreClosed) (
  let! st := gets id in
  if cached_at st height then ret (sc_heightHash (st_cache st))
  else match st_cdb st with
       | None => View (fun d => let? value := kv_Get d (toHeightHashKey height) in Ok (copy_into 32 value))
       | Some _ => not_exist (on_cdb (db_GetHash height))
       end).

Definition store_Header (height : Z) : storeM Header := if_open (Err ErrStoreClosed) (
  if height <? 1 then fail ErrNotExistKey
  else
    let! st := gets id in
    if cached_at st height then
      match sc_heightBlock (st_cache st) with Some b => ret (b_Header b) | None => throw nil_db end
    else match st_cdb st with
         | None => View (fun d => let? value := kv_Get d (toHeightHeaderKey height) in Unmarshal_as value)
         | Some _ =>
             let! value := not_exist (on_cdb (db_GetData height 0)) in
             lift (Unmarshal_as value)
         end).

Definition store_Block (height : Z) : storeM (Block Tx) := if_open (Err ErrStoreClosed) (
  if height <? 1 then fail ErrNotExistKey
  else
    let! st := gets id in
    if cached_at st height then
      match sc_heightBlock (st_cache st) with Some b => ret b | None => throw nil_db end
    else match st_cdb st with
         | None => View (fun d => let? value := kv_Get d (toHeightBlockKey height) in Unmarshal_as (C := block_coder) value)
         | Some _ =>
             let! value := not_exist (on_cdb (db_GetDatas height 0 2)) in
             lift (Unmarshal_as (C := block_coder) value)
         end).

Definition store_Height : storeM Z := if_open (Ok 0) (
  let! st := gets id in
  if sc_cached (st_cache st) then ret (sc_height (st_cache st))
  else
    let! r := attempt (View (fun d => let? value := kv_Get d tagHeight in BytesToUint32 value)) in
    match r with inr height => ret height | inl _ => ret 0 end).

Definition store_TargetHeight : storeM Z := let! h := store_Height in ret (u32 (h + 1)).

(** [panic(err)]. *)
Definition panic_err {A} (e : error) : storeM A := throw (err_msg e).
(** [if err != ErrStoreClosed { panic(err) }; return closed]. *)
Definition or_panic {A} (closed : A) (m : storeM A) : storeM A :=
  let! r := attempt m in
  match r with
  | inr a => ret a
  | inl err => if bool_decide (err = ErrStoreClosed) then ret closed else panic_err err
  end.

Definition LastStatus : storeM (Z * Hash256 * Z) :=
  let! height := store_Height in
  let! r := attempt (store_Hash height) in
  match r with
  | inl err => panic_err err
  | inr h =>
      if height =? 0 then ret (0, h, 0)
      else or_panic (0, EmptyHash, 0) (let! bh := store_Header height in ret (h_Height bh, h, h_Timestamp bh))
  end.

Definition store_LastHash : storeM Hash256 :=
  let! height := store_Height in
  or_panic EmptyHash (store_Hash height).

Definition store_LastTimestamp : storeM Z :=
  let! height := store_Height in
  if height =? 0 then ret 0
  else
    let! height := store_Height in
    or_panic 0 (let! bh := store_Header height in ret (h_Timestamp bh)).

(** *** Accounts *)

(** The entry of an account: the number of its type, its encoding. *)
Definition account_value (acc : Account) : res bytes :=
  let? t := TypeOf afc (value_type acc) in
  let? data := encode_value acc in
  Ok (Uint16ToBytes t ++ data).
Definition read_account (value : bytes) : res Account :=
  let? t := BytesToUint16 value in
  let? v := Create afc t in
  let? rest := from_index 2 value in
  let? (acc, _) := decode_value v rest in
  Ok acc.

(** [len(value) == 1 && value[0] == 0]. *)
Definition is_deleted (value : bytes) : bool := bool_decide (value = [0]).

(** [if err == backend.ErrNotExistKey { return dflt }]. *)
Definition or_missing {A} (dflt : res A) (m : storeM A) : storeM A :=
  let! r := attempt m in
  match r with
  | inr a => ret a
  | inl err => if bool_decide (err = ErrNotExistKey) then lift dflt else fail err
  end.

Fixpoint read_accounts (entries : list (bytes * bytes)) : res (list Account) :=
  match entries with
  | [] => Ok []
  | (_, value) :: entries =>
      if (1 <? length value)%nat then
        let? acc := read_account value in
        let? accs := read_accounts entries in
        Ok (acc :: accs)
      else read_accounts entries
  end.

Definition Accounts : storeM (list Account) := if_open (Err ErrStoreClosed)
  (View (fun d => let? entries := kv_Iterate d tagAccount in read_accounts entries)).

Definition store_Seq (addr : Address) : storeM Z := if_open (Ok 0) (
  let! st := gets id in
  match st_SeqMap st !! addr with
  | Some seq => ret seq
  | None =>
      let! r := attempt (View (fun d => let? value := kv_Get d (toAccountSeqKey addr) in BytesToUint64 value)) in
      match r with
      | inl _ => ret 0
      | inr seq => modify (fun st => set_seqs st (<[addr := seq]> (st_SeqMap st))) ;;; ret seq
      end
  end).

(** The entry of an account that is not deleted. *)
Definition get_live (d : D) (addr : Address) : res bytes :=
  let? value := kv_Get d (toAccountKey addr) in
  if is_deleted value then Err ErrDeletedAccount else Ok value.

Definition store_Account (addr : Address) : storeM Account := if_open (Err ErrStoreClosed)
  (or_missing (Err ErrNotExistAccount) (View (fun d => let? value := get_live d addr in read_account value))).

Definition get_named (d : D) (Name : bytes) : res Address :=
  let? value := kv_Get d (toAccountNameKey Name) in
  let addr := copy_into AddressSize value in
  let? _ := get_live d addr in
  Ok addr.

Definition store_AddressByName (Name : bytes) : storeM Address := if_open (Err ErrStoreClosed)
  (or_missing (Err ErrNotExistAccount) (View (fun d => get_named d Name))).

Definition store_HasAccount (addr : Address) : storeM bool := if_open (Err ErrStoreClosed)
  (or_missing (Ok false) (View (fun d => let? _ := get_live d addr in Ok true))).

Definition store_HasAccountName (Name : bytes) : storeM bool := if_open (Err ErrStoreClosed) (
  let! parsed := attempt (lift (ParseAddress Name)) in
  match parsed with
  | inr _ => fail chain_ErrInvalidAccountName
  | inl _ => or_missing (Ok false) (View (fun d => let? _ := get_named d Name in Ok true))
  end).

(** Data that is absent, or cannot be read, is nil. *)
Definition get_data (key : bytes) : storeM bytes := if_open (Ok []) (
  let! r := attempt (View (fun d => kv_Get d key)) in
  match r with inr value => ret value | inl _ => ret [] end).
Definition store_AccountData (key : bytes) : storeM bytes := get_data (toAccountDataKey key).
Definition store_ProcessData (key : bytes) : storeM bytes := get_data (toProcessDataKey key).

(** *** Unspent outputs *)

Fixpoint read_utxos (entries : list (bytes * bytes)) : res (list UTXO) :=
  match entries with
  | [] => Ok []
  | (key, value) :: entries =>
      let? id := fromUTXOKey key in
      let? out := Unmarshal_as value in
      let? us := read_utxos entries in
      Ok (mkUTXO (NewTxIn id) out :: us)
  end.

Definition UTXOs : storeM (list UTXO) := if_open (Err ErrStoreClosed)
  (View (fun d => let? entries := kv_Iterate d tagUTXO in read_utxos entries)).

Definition store_HasUTXO (id : Z) : storeM bool := if_open (Err ErrStoreClosed)
  (or_missing (Ok false) (View (fun d => let? value := kv_Get d (toUTXOKey id) in Ok (0 <? length value)%nat))).

Definition store_UTXO (id : Z) : storeM UTXO := if_open (Err ErrStoreClosed)
  (or_missing (Err ErrNotExistUTXO) (View (fun d =>
    let? value := kv_Get d (toUTXOKey id) in
    let? out := Unmarshal_as value in
    Ok (mkUTXO (NewTxIn id) out)))).

(** *** Events *)

Definition encode_event (ev : Event) : res bytes :=
  let? t := TypeOf efc (value_type ev) in
  let? bt := encode (Coder := cUint16) t in
  let? bv := encode_value ev in
  Ok (bt ++ bv).
Definition encode_events (evs : list Event) : res bytes :=
  let? bs := encode_each encode_event evs in
  Ok (EncodeArrayLen (length evs) ++ bs).
Definition decode_event (bs : bytes) : res (Event * bytes) :=
  let? (t, bs) := decode (Coder := cUint16) bs in
  let? v := Create efc t in
  decode_value v bs.
(** [for i := 0; i < EvLen; i++]: a negative length gives no rounds. *)
Definition decode_events (bs : bytes) : res (list Event) :=
  let? (EvLen, bs) := DecodeArrayLen bs in
  let? (evs, _) := decode_each decode_event (Z.to_nat EvLen) bs in
  Ok evs.

(** The events of one height, none when there is no entry. *)
Definition events_at (height : Z) : storeM (list Event) :=
  let! st := gets id in
  let! r := attempt (match st_cdb st with
    | None => View (fun d => kv_Get d (toEventKey height))
    | Some _ => on_cdb (db_GetData height 2)
    end) in
  match r with
  | inr value => lift (decode_events value)
  | inl err =>
      let missing := match st_cdb st with
        | None => bool_decide (err = ErrNotExistKey)
        | Some _ => bool_decide (err = Pile.ErrInvalidHeight) || bool_decide (err = ErrInvalidDataIndex)
        end in
      if missing : bool then ret [] else fail err
  end.

(** [for i := From; i <= To; i++], [n] more rounds from [i]. *)
Fixpoint events_loop (n : nat) (i : Z) : storeM (list Event) :=
  match n with
  | O => ret []
  | S n =>
      let! evs := events_at i in
      let! rest := events_loop n (i + 1) in
      ret (evs ++ rest)
  end.

Definition store_Events (From To : Z) : storeM (list Event) := if_open (Err ErrStoreClosed) (
  let! Height := store_Height in
  let To := if Height <? To then Height else To in
  events_loop (Z.to_nat (To - From + 1)) From).

(** *** Writing *)

(** [m.EachAll(body)] with the first error stopping the iteration. *)
Definition each {K V} `{Countable K} (keys : list K) (m : gmap K V) (body : K -> V -> ST D unit) : ST D unit :=
  for_each keys (fun k => match m !! k with Some v => body k v | None => ret tt end).
Definition each_key {V} (m : gmap bytes V) (body : bytes -> V -> ST D unit) : ST D unit := each (sorted_byte_keys m) m body.
Definition each_id {V} (m : gmap Z V) (body : Z -> V -> ST D unit) : ST D unit := each (sorted_int_keys m) m body.

Definition put_account (addr : Address) (acc : Account) : ST D unit :=
  let! value := lift (account_value acc) in
  kv_Set (toAccountKey addr) value ;;;
  kv_Set (toAccountNameKey (acc_Name acc)) addr.

Definition delete_account (addr : Address) (_ : Account) : ST D unit :=
  kv_Set (toAccountKey addr) [0] ;;;
  let! d := gets id in
  let! Deletes := lift (kv_Iterate d (toAccountDataKey addr)) in
  for_each Deletes (fun kv => kv_Delete kv.1).

Definition put_utxo (id : Z) (utxo : UTXO) : ST D unit :=
  guard (TxIn_ID (utxo_In utxo) =? id) ErrInvalidTxInKey ;;;
  let! data := lift (encode (utxo_Out utxo)) in
  kv_Set (toUTXOKey id) data.

(** The part up to the unspent outputs, which the two layouts share. *)
Definition apply_state (ctd : ContextData) : ST D unit :=
  each_key (SeqMap ctd) (fun addr value => kv_Set (toAccountSeqKey addr) (Uint64ToBytes value)) ;;;
  each_key (AccountMap ctd) put_account ;;;
  each_key (AccountDataMap ctd) (fun key value => kv_Set (toAccountDataKey key) value) ;;;
  each_key (DeletedAccountMap ctd) delete_account ;;;
  each_key (DeletedAccountDataMap ctd) (fun key _ => kv_Delete (toAccountDataKey key)) ;;;
  each_id (UTXOMap ctd) put_utxo ;;;
  each_id (CreatedUTXOMap ctd) (fun id vout => let! data := lift (encode vout) in kv_Set (toUTXOKey id) data) ;;;
  each_id (DeletedUTXOMap ctd) (fun id _ => kv_Delete (toUTXOKey id)).

Definition apply_process_data (ctd : ContextData) : ST D unit :=
  each_key (ProcessDataMap ctd) (fun key value => kv_Set (toProcessDataKey key) value) ;;;
  each_key (DeletedProcessDataMap ctd) (fun key _ => kv_Delete (toProcessDataKey key)).

Definition applyContextData (ctd : ContextData) : ST D unit := apply_state ctd ;;; apply_process_data ctd.

(** The old layout keeps the events in the database. *)
Definition applyContextDataOld (ctd : ContextData) : ST D unit :=
  apply_state ctd ;;;
  match Events ctd with
  | [] => ret tt
  | ev :: _ =>
      let! bs := lift (encode_events (Events ctd)) in
      kv_Set (toEventKey (ev_Height ev)) bs
  end ;;;
  apply_process_data ctd.

(** [st.cdb.Init(genHash)], where an initialized log is no error. *)
Definition ignoring (e : error) (m : storeM unit) : storeM unit :=
  let! r := attempt m in
  match r with
  | inr _ => ret tt
  | inl err => if bool_decide (err = e) then ret tt else fail err
  end.

Definition StoreGenesis (genHash : Hash256) (ctd : ContextData) : storeM unit := if_open (Err ErrStoreClosed) (
  let! height := store_Height in
  if 0 <? height then fail ErrAlreadyGenesised
  else
    let bsHeight := Uint32ToBytes 0 in
    let! st := gets id in
    match st_cdb st with
    | None => Update (
        kv_Set (toHeightHashKey 0) genHash ;;;
        kv_Set (toHashHeightKey genHash) bsHeight ;;;
        kv_Set tagHeight bsHeight ;;;
        applyContextData ctd)
    | Some _ =>
        ignoring ErrAlreadyInitialized (on_cdb (db_Init genHash)) ;;;
        Update (
          kv_Set (toHeightHashKey 0) genHash ;;;
          kv_Set tagHeight bsHeight ;;;
          applyContextData ctd)
    end ;;;
    modify (fun st => set_storecache st (mkStorecache true 0 genHash None))).

(** [encoding.Hash(b.Header)]. *)
Definition header_Hash (h : Header) : storeM Hash256 :=
  match encode h with Ok bs => ret (Hash bs) | Err e => panic_err e | Panic w => throw w end.

(** The parts of the block in the block log. *)
Definition block_parts (b : Block Tx) (ctd : ContextData) : res (list bytes) :=
  let? head := encode (b_Header b) in
  let? data := encode (Coder := block_coder) b in
  let? body := from_index (length head) data in
  let? evs := match Events ctd with [] => Ok [] | _ => let? bs := encode_events (Events ctd) in Ok [bs] end in
  Ok ([head; body] ++ evs).

(** [late] is the clock test of [pile.DB.AppendData]. *)
Definition StoreBlock (late : bool) (b : Block Tx) (ctd : ContextData) : storeM unit := if_open (Err ErrStoreClosed) (
  let! DataHash := header_Hash (b_Header b) in
  let height := h_Height (b_Header b) in
  let bsHeight := Uint32ToBytes height in
  let! st := gets id in
  match st_cdb st with
  | None => Update (
      let! data := lift (encode (Coder := block_coder) b) in
      kv_Set (toHeightBlockKey height) data ;;;
      let! data := lift (encode (b_Header b)) in
      kv_Set (toHeightHeaderKey height) data ;;;
      kv_Set (toHeightHashKey height) DataHash ;;;
      kv_Set (toHashHeightKey DataHash) bsHeight ;;;
      kv_Set tagHeight bsHeight ;;;
      applyContextDataOld ctd)
  | Some _ =>
      let! Datas := lift (block_parts b ctd) in
      ignoring ErrInvalidAppendHeight (on_cdb (db_AppendData late height DataHash Datas)) ;;;
      Update (kv_Set tagHeight bsHeight ;;; applyContextData ctd)
  end ;;;
  modify (fun st => set_seqs st (SeqMap ctd ∪ st_SeqMap st)) ;;;
  modify (fun st => set_storecache st (mkStorecache true height DataHash (Some b)))).

(** [for h := st.Height() + 1; ; h++], [fuel] more rounds from [h]. *)
Fixpoint iter_blocks (fn : Block Tx -> storeM unit) (fuel : nat) (h : Z) : storeM unit :=
  match fuel with
  | O => throw "out of fuel"
  | S fuel =>
      let! r := attempt (store_Block h) in
      match r with
      | inl err => if bool_decide (err = ErrNotExistKey) then ret tt else fail err
      | inr b => fn b ;;; iter_blocks fn fuel (u32 (h + 1))
      end
  end.
Definition IterBlockAfterContext (fuel : nat) (fn : Block Tx -> storeM unit) : storeM unit :=
  let! height := store_Height in
  iter_blocks fn fuel (u32 (height + 1)).

(** *** The store as a loader *)

(** What a call on [st] returns; a panic unwinds past the context and its value
    is never used. *)
Definition run {A} (dflt : A) (m : storeM A) (st : Store Tx D) : A := match (m st).1 with Ok a => a | _ => dflt end.

Definition store_loader (st : Store Tx D) : Loader := {|
  ld_ChainID := st_chainID st;
  ld_Name := st_name st;
  ld_Version := st_version st;
  ld_TargetHeight := run 0 store_TargetHeight st;
  ld_LastHash := run EmptyHash store_LastHash st;
  ld_LastTimestamp := run 0 store_LastTimestamp st;
  ld_Seq addr := run 0 (store_Seq addr) st;
  ld_Account addr := (store_Account addr st).1;
  ld_AddressByName name := (store_AddressByName name st).1;
  ld_HasAccount addr := (store_HasAccount addr st).1;
  ld_HasAccountName name := (store_HasAccountName name st).1;
  ld_AccountData key := run [] (store_AccountData key) st;
  ld_HasUTXO id := (store_HasUTXO id st).1;
  ld_UTXO id := (store_UTXO id st).1;
  ld_ProcessData key := run [] (store_ProcessData key) st
|}.

Definition store_provider (st : Store Tx D) : Provider :=
  mkProvider (st_chainID st) (st_version st) (run (0, EmptyHash, 0) LastStatus st) (fun h => (store_Header h st).1) (store_loader st).
End Store.
