(* ===== verification/StoreSpec.v ===== *)
(** * What the store promises

    The backend keeps a finite map ([BackendLaws]).  Storing a block patches that
    map: [state_patch] says for every key what becomes of it.  The readers of the
    store then answer as the context the block was executed on did. *)

From stdpp Require Import base gmap list sorting strings.
From Stdlib Require Import ZArith Lia FunctionalExtensionality.
From S2P Require Import Prelude Amount Common Types Context ContextSpec Factory OrderedMap Chain BlockCodec Pile PileDB StoreKey Store.

(** ** The contract of a backend *)

Class BackendLaws (D : Type) `{!StoreBackend D} := {
  kv : D -> gmap bytes bytes;
  kv_Get_spec : forall d k, kv_Get d k = match kv d !! k with Some v => Ok v | None => Err ErrNotExistKey end;
  kv_Set_spec : forall k v d, exists d', kv_Set k v d = (Ok tt, d') /\ kv d' = <[k := v]> (kv d);
  kv_Delete_spec : forall k d, exists d', kv_Delete k d = (Ok tt, d') /\ kv d' = delete k (kv d);
  kv_Iterate_spec : forall d p, exists l, kv_Iterate d p = Ok l /\
    (forall k v, (k, v) ∈ l <-> p `prefix_of` k /\ kv d !! k = Some v) /\ StronglySorted (fun a b => bytes_lt a.1 b.1 = true) l
}.

(** ** Patches *)

(** What becomes of each key: [None] leaves it alone, [Some o] makes it [o]. *)
Definition patch : Type := bytes -> option (option bytes).

Definition patched (u : patch) (m : bytes -> option bytes) (q : bytes) : option bytes :=
  match u q with Some o => o | None => m q end.
Definition patch_none : patch := fun _ => None.
Definition patch_set (k v : bytes) : patch := fun q => if decide (q = k) then Some (Some v) else None.
Definition patch_del (k : bytes) : patch := fun q => if decide (q = k) then Some None else None.
Definition patch_prefix (p : bytes) : patch := fun q => if decide (p `prefix_of` q) then Some None else None.
(** [u], then [w]. *)
Definition patch_seq (u w : patch) : patch := fun q => match w q with Some o => Some o | None => u q end.
Fixpoint patch_each {A} (u : A -> patch) (l : list A) : patch :=
  match l with
  | [] => patch_none
  | x :: l => patch_seq (u x) (patch_each u l)
  end.

Lemma patched_seq u w m q : patched (patch_seq u w) m q = patched w (patched u m) q.
Proof. unfold patched, patch_seq. by destruct (w q). Qed.

(** The key is not touched, or touched in one way only. *)
Lemma patch_each_none {A} (u : A -> patch) l q : (forall x, x ∈ l -> u x q = None) -> patch_each u l q = None.
Proof.
  induction l as [|x l IH]; intros Hu; cbn [patch_each]; [done|]. unfold patch_seq. rewrite IH by (intros; apply Hu; by right). apply Hu. by left.
Qed.

Lemma patch_each_from {A} (u : A -> patch) l q o : patch_each u l q = Some o -> exists x, x ∈ l /\ u x q = Some o.
Proof.
  induction l as [|x l IH]; cbn [patch_each]; [done|]. unfold patch_seq. destruct (patch_each u l q) eqn:E.
  - intros [= ->]. destruct (IH eq_refl) as (y & Hy & Hu). exists y. split; [by right|done].
  - intros Hu. exists x. split; [by left|done].
Qed.

Lemma patch_each_some {A} (u : A -> patch) l q x o : x ∈ l -> u x q = Some o -> (forall y, y ∈ l -> u y q = None \/ u y q = Some o) -> patch_each u l q = Some o.
Proof.
  induction l as [|y l IH]; intros Hx Hu Hall; cbn [patch_each]; [by apply not_elem_of_nil in Hx|]. unfold patch_seq.
  destruct (patch_each u l q) as [o'|] eqn:E.
  - apply patch_each_from in E as (z & Hz & Hzu). destruct (Hall z) as [?|?]; [by right|congruence|congruence].
  - apply elem_of_cons in Hx as [->|Hx]; [done|]. discriminate IH; [done|done|]. intros z Hz. apply Hall. by right.
Qed.

(** ** Actions on the database *)

Section Actions.
Context {D : Type} `{BL : BackendLaws D}.

(** [m] succeeds and patches the map by [u]. *)
Definition acts (m : ST D unit) (u : patch) : Prop := forall d, exists d', m d = (Ok tt, d') /\ forall q, kv d' !! q = patched u (fun q => kv d !! q) q.

Lemma acts_ret : acts (ret tt) patch_none.
Proof. intros d. by exists d. Qed.

Lemma acts_bind m k u w : acts m u -> acts k w -> acts (m ;;; k) (patch_seq u w).
Proof.
  intros Hm Hk d. destruct (Hm d) as (d1 & E1 & H1). destruct (Hk d1) as (d2 & E2 & H2). exists d2. erewrite bind_ok by exact E1. split; [done|].
  intros q. rewrite H2, patched_seq. unfold patched. destruct (w q); [done|]. apply H1.
Qed.

Lemma acts_Set k v : acts (kv_Set k v) (patch_set k v).
Proof.
  intros d. destruct (kv_Set_spec k v d) as (d' & E & Hd). exists d'. split; [done|]. intros q. rewrite Hd. unfold patched, patch_set.
  destruct (decide (q = k)) as [->|Hne]; [by rewrite lookup_insert_eq|by rewrite lookup_insert_ne].
Qed.

Lemma acts_Delete k : acts (kv_Delete k) (patch_del k).
Proof.
  intros d. destruct (kv_Delete_spec k d) as (d' & E & Hd). exists d'. split; [done|]. intros q. rewrite Hd. unfold patched, patch_del.
  destruct (decide (q = k)) as [->|Hne]; [by rewrite lookup_delete_eq|by rewrite lookup_delete_ne].
Qed.

Lemma acts_for_each {A} (l : list A) (body : A -> ST D unit) u : (forall x, x ∈ l -> acts (body x) (u x)) -> acts (for_each l body) (patch_each u l).
Proof.
  induction l as [|x l IH]; intros Hb; cbn [for_each patch_each]; [apply acts_ret|]. apply acts_bind; [apply Hb; by left|apply IH; intros; apply Hb; by right].
Qed.

Lemma acts_lift {A} (r : res A) a (k : A -> ST D unit) u : r = Ok a -> acts (k a) u -> acts (bind (lift r) k) u.
Proof. intros -> Hk d. destruct (Hk d) as (d' & E & Hd). exists d'. by erewrite bind_ok by reflexivity. Qed.

Lemma acts_ext m u w : (forall q, u q = w q) -> acts m u -> acts m w.
Proof. intros Hq Hm d. destruct (Hm d) as (d' & E & Hd). exists d'. split; [done|]. intros q. rewrite Hd. unfold patched. by rewrite Hq. Qed.

(** Deleting everything that [Iterate] finds removes the prefix. *)
Lemma acts_delete_prefix p : acts (let! d := gets id in let! Deletes := lift (kv_Iterate d p) in for_each Deletes (fun kv => kv_Delete kv.1)) (patch_prefix p).
Proof.
  intros d. erewrite bind_ok by reflexivity. unfold id. destruct (kv_Iterate_spec d p) as (l & El & Hl & _). unfold lift. erewrite bind_ok by (by rewrite El).
  destruct (acts_for_each l (fun kv => kv_Delete kv.1) (fun kv => patch_del kv.1) ltac:(intros; apply acts_Delete) d) as (d' & E & Hd).
  exists d'. split; [done|]. intros q. rewrite Hd. unfold patched, patch_prefix. destruct (decide (p `prefix_of` q)) as [Hp|Hp].
  - destruct (kv d !! q) as [v|] eqn:Ev.
    + rewrite (patch_each_some _ _ _ (q, v) None); [done|by apply Hl|unfold patch_del; by rewrite decide_True|].
      intros y _. unfold patch_del. destruct (decide (q = y.1)); auto.
    + destruct (patch_each _ l q) as [o|] eqn:E'; [|done]. apply patch_each_from in E' as (y & _ & Hy). unfold patch_del in Hy. destruct (decide _); by inv Hy.
  - rewrite patch_each_none; [done|]. intros [k v] Hk. apply Hl in Hk as [Hk _]. unfold patch_del. rewrite decide_False; [done|]. cbn. by intros ->.
Qed.
End Actions.

(** ** The patch of a block *)

(** A patch made entry by entry of a map. *)
Definition patch_keyed {K V} `{Countable K} (keys : list K) (m : gmap K V) (u : K -> V -> patch) : patch :=
  patch_each (fun k => match m !! k with Some v => u k v | None => patch_none end) keys.

Section Keyed.
Context {K V : Type} `{Countable K} (keys : list K) (m : gmap K V) (Hkeys : forall k, k ∈ keys <-> is_Some (m !! k)) (u : K -> V -> patch).

Lemma keyed_none q : (forall k v, m !! k = Some v -> u k v q = None) -> patch_keyed keys m u q = None.
Proof. intros Hu. apply patch_each_none. intros k _. destruct (m !! k) eqn:E; [by apply Hu|done]. Qed.

Lemma keyed_at q k v o : m !! k = Some v -> u k v q = Some o -> (forall k' v', m !! k' = Some v' -> k' <> k -> u k' v' q = None) -> patch_keyed keys m u q = Some o.
Proof.
  intros Hk Hu Ho. apply (patch_each_some _ _ _ k); [by apply Hkeys; eauto|by rewrite Hk|]. intros k' _. destruct (m !! k') as [v'|] eqn:E; [|by left].
  destruct (decide (k' = k)) as [->|Hne]; [right; congruence|left; by eapply Ho].
Qed.

(** Entries that set or delete a key of their own. *)
Lemma keyed_set (f : K -> bytes) (g : V -> bytes) k : (forall k', is_Some (m !! k') -> f k' = f k -> k' = k) -> (forall k' v, u k' v (f k) = patch_set (f k') (g v) (f k)) ->
  patch_keyed keys m u (f k) = (fun v => Some (g v)) <$> m !! k.
Proof.
  intros Hinj Hu. destruct (m !! k) as [v|] eqn:E; cbn.
  - eapply keyed_at; [done|rewrite Hu; unfold patch_set; by rewrite decide_True|]. intros k' v' Hk' Hne. rewrite Hu. unfold patch_set. rewrite decide_False; [done|].
    intros Ef. destruct Hne. apply Hinj; [eauto|done].
  - apply keyed_none. intros k' v' Hk'. rewrite Hu. unfold patch_set. rewrite decide_False; [done|]. intros Ef. assert (k' = k) as -> by (apply Hinj; [eauto|done]). congruence.
Qed.

Lemma keyed_del (f : K -> bytes) k : (forall k', is_Some (m !! k') -> f k' = f k -> k' = k) -> (forall k' v, u k' v (f k) = patch_del (f k') (f k)) ->
  patch_keyed keys m u (f k) = (fun _ => None) <$> m !! k.
Proof.
  intros Hinj Hu. destruct (m !! k) as [v|] eqn:E; cbn.
  - eapply keyed_at; [done|rewrite Hu; unfold patch_del; by rewrite decide_True|]. intros k' v' Hk' Hne. rewrite Hu. unfold patch_del. rewrite decide_False; [done|].
    intros Ef. destruct Hne. apply Hinj; [eauto|done].
  - apply keyed_none. intros k' v' Hk'. rewrite Hu. unfold patch_del. rewrite decide_False; [done|]. intros Ef. assert (k' = k) as -> by (apply Hinj; [eauto|done]). congruence.
Qed.
End Keyed.

Lemma acts_each {D} `{BL : BackendLaws D} {K V} `{Countable K} (keys : list K) (m : gmap K V) (body : K -> V -> ST D unit) u :
  (forall k v, m !! k = Some v -> acts (body k v) (u k v)) -> acts (each keys m body) (patch_keyed keys m u).
Proof. intros Hb. apply acts_for_each. intros k _. destruct (m !! k) eqn:E; [by apply Hb|apply acts_ret]. Qed.

(** The keys a patch touches have one of the tags [ts]. *)
Definition within (u : patch) (ts : list bytes) : Prop := forall q, take 2 q ∉ ts -> u q = None.

Lemma within_set k v t : take 2 k = t -> within (patch_set k v) [t].
Proof. intros Ht q Hq. unfold patch_set. rewrite decide_False; [done|]. intros ->. destruct Hq. rewrite Ht. by left. Qed.
Lemma within_del k t : take 2 k = t -> within (patch_del k) [t].
Proof. intros Ht q Hq. unfold patch_del. rewrite decide_False; [done|]. intros ->. destruct Hq. rewrite Ht. by left. Qed.
Lemma within_prefix p t : (2 <= length p)%nat -> take 2 p = t -> within (patch_prefix p) [t].
Proof.
  intros Hl Ht q Hq. unfold patch_prefix. rewrite decide_False; [done|]. intros [r ->]. destruct Hq. rewrite take_app_le by done. rewrite Ht. by left.
Qed.
Lemma within_seq u w ts ts' : within u ts -> within w ts' -> within (patch_seq u w) (ts ++ ts').
Proof.
  intros Hu Hw q Hq. unfold patch_seq. rewrite Hw; [apply Hu|]; intros Hin; apply Hq, elem_of_app; auto.
Qed.
Lemma within_keyed {K V} `{Countable K} (keys : list K) (m : gmap K V) u ts : (forall k v, within (u k v) ts) -> within (patch_keyed keys m u) ts.
Proof. intros Hu q Hq. apply patch_each_none. intros k _. destruct (m !! k); [by apply Hu|done]. Qed.

Section StatePatch.
Context {D : Type} `{BL : BackendLaws D} `{Sha256} `{!TypedValue Account} (afc : Factory) `{!Coder TxOut}.

Definition acc_bytes (acc : Account) : bytes := match account_value afc acc with Ok v => v | _ => [] end.
Definition out_bytes (o : TxOut) : bytes := match encode o with Ok v => v | _ => [] end.

Definition p_account (addr : Address) (acc : Account) : patch :=
  patch_seq (patch_set (toAccountKey addr) (acc_bytes acc)) (patch_set (toAccountNameKey (acc_Name acc)) addr).
Definition p_delete_account (addr : Address) (_ : Account) : patch :=
  patch_seq (patch_set (toAccountKey addr) [0]) (patch_prefix (toAccountDataKey addr)).

Section Layer.
Context (ctd : ContextData).
Definition by_key {V} (m : gmap bytes V) (u : bytes -> V -> patch) : patch := patch_keyed (sorted_byte_keys m) m u.
Definition by_id {V} (m : gmap Z V) (u : Z -> V -> patch) : patch := patch_keyed (sorted_int_keys m) m u.

Definition p_seqs : patch := by_key (SeqMap ctd) (fun addr v => patch_set (toAccountSeqKey addr) (Uint64ToBytes v)).
Definition p_accounts : patch := by_key (AccountMap ctd) p_account.
Definition p_accdata : patch := by_key (AccountDataMap ctd) (fun key v => patch_set (toAccountDataKey key) v).
Definition p_deleted : patch := by_key (DeletedAccountMap ctd) p_delete_account.
Definition p_accdata_gone : patch := by_key (DeletedAccountDataMap ctd) (fun key _ => patch_del (toAccountDataKey key)).
Definition p_utxos : patch := by_id (UTXOMap ctd) (fun id u => patch_set (toUTXOKey id) (out_bytes (utxo_Out u))).
Definition p_created : patch := by_id (CreatedUTXOMap ctd) (fun id o => patch_set (toUTXOKey id) (out_bytes o)).
Definition p_spent : patch := by_id (DeletedUTXOMap ctd) (fun id _ => patch_del (toUTXOKey id)).
Definition p_procdata : patch := by_key (ProcessDataMap ctd) (fun key v => patch_set (toProcessDataKey key) v).
Definition p_procdata_gone : patch := by_key (DeletedProcessDataMap ctd) (fun key _ => patch_del (toProcessDataKey key)).

Definition p_state : patch :=
  patch_seq p_seqs (patch_seq p_accounts (patch_seq p_accdata (patch_seq p_deleted
    (patch_seq p_accdata_gone (patch_seq p_utxos (patch_seq p_created p_spent)))))).
Definition p_processes : patch := patch_seq p_procdata p_procdata_gone.

(** An account the store can write and read back. *)
Definition account_storable (acc : Account) : Prop :=
  exists t data, TypeOf afc (value_type acc) = Ok t /\ 0 <= t < 2 ^ 16 /\ Create afc t = Ok (Ptr (strip_ptr (value_type acc))) /\
    encode_value acc = Ok data /\ codable_value acc.
Definition out_storable (o : TxOut) : Prop := codable o /\ exists bs, encode o = Ok bs /\ bs <> [].

Record layer_storable : Prop := {
  ls_seqs : map_Forall (fun _ s => 0 <= s < 2 ^ 64) (SeqMap ctd);
  ls_accounts : map_Forall (fun _ => account_storable) (AccountMap ctd);
  ls_utxos : map_Forall (fun id u => TxIn_ID (utxo_In u) = id /\ out_storable (utxo_Out u)) (UTXOMap ctd);
  ls_created : map_Forall (fun _ => out_storable) (CreatedUTXOMap ctd)
}.

Lemma account_value_ok acc : account_storable acc -> account_value afc acc = Ok (acc_bytes acc).
Proof. intros (t & data & Et & _ & _ & Ed & _). unfold acc_bytes, account_value. rewrite Et. cbn [res_bind]. by rewrite Ed. Qed.
Lemma out_bytes_ok o : out_storable o -> encode o = Ok (out_bytes o).
Proof. intros (_ & bs & E & _). unfold out_bytes. by rewrite E. Qed.

Lemma apply_state_acts : layer_storable -> acts (apply_state afc ctd) p_state.
Proof.
  intros [_ Ha Hu Hc]. unfold apply_state, p_state.
  repeat apply acts_bind; apply acts_each; intros k v Hk; [apply acts_Set| | apply acts_Set | | apply acts_Delete | | |apply acts_Delete].
  - unfold put_account, p_account. eapply acts_lift; [by apply account_value_ok, (Ha k)|]. apply acts_bind; apply acts_Set.
  - unfold delete_account, p_delete_account. apply acts_bind; [apply acts_Set|apply acts_delete_prefix].
  - unfold put_utxo. destruct (Hu k v Hk) as [Hid Ho]. rewrite (proj2 (Z.eqb_eq _ _) Hid). cbn [guard].
    intros d. erewrite bind_ok by reflexivity. revert d. eapply acts_lift; [by apply out_bytes_ok|apply acts_Set].
  - eapply acts_lift; [by apply out_bytes_ok, (Hc k)|apply acts_Set].
Qed.

Lemma apply_process_data_acts : acts (apply_process_data ctd) p_processes.
Proof. apply acts_bind; apply acts_each; intros k v _; [apply acts_Set|apply acts_Delete]. Qed.

(** *** What the patch does to the keys of each kind *)

Definition p_layer : patch := patch_seq p_state p_processes.

Lemma within_seqs : within p_seqs [tagAccountSeq].
Proof. apply within_keyed. intros. by apply within_set. Qed.
Lemma within_accounts : within p_accounts [tagAccount; tagAccountName].
Proof. apply within_keyed. intros. by apply (within_seq _ _ [tagAccount] [tagAccountName]); apply within_set. Qed.
Lemma within_accdata : within p_accdata [tagAccountData].
Proof. apply within_keyed. intros. by apply within_set. Qed.
Lemma within_deleted : within p_deleted [tagAccount; tagAccountData].
Proof.
  apply within_keyed. intros. apply (within_seq _ _ [tagAccount] [tagAccountData]); [by apply within_set|apply within_prefix; [|done]].
  unfold toAccountDataKey. rewrite length_app. cbn. lia.
Qed.
Lemma within_accdata_gone : within p_accdata_gone [tagAccountData].
Proof. apply within_keyed. intros. by apply within_del. Qed.
Lemma within_utxos : within p_utxos [tagUTXO].
Proof. apply within_keyed. intros. by apply within_set. Qed.
Lemma within_created : within p_created [tagUTXO].
Proof. apply within_keyed. intros. by apply within_set. Qed.
Lemma within_spent : within p_spent [tagUTXO].
Proof. apply within_keyed. intros. by apply within_del. Qed.
Lemma within_procdata : within p_procdata [tagProcessData].
Proof. apply within_keyed. intros. by apply within_set. Qed.
Lemma within_procdata_gone : within p_procdata_gone [tagProcessData].
Proof. apply within_keyed. intros. by apply within_del. Qed.

Lemma within_layer : within p_layer [tagAccount; tagAccountName; tagAccountSeq; tagAccountData; tagUTXO; tagProcessData].
Proof.
  intros q Hq. unfold p_layer, p_state, p_processes, patch_seq. rewrite !not_elem_of_cons in Hq. destruct Hq as (H1 & H2 & H3 & H4 & H5 & H6 & _).
  rewrite within_procdata_gone, within_procdata, within_spent, within_created, within_utxos, within_accdata_gone, within_deleted, within_accdata, within_accounts
    by (rewrite !not_elem_of_cons; auto using not_elem_of_nil).
  by rewrite within_seqs by (rewrite !not_elem_of_cons; auto using not_elem_of_nil).
Qed.

Lemma option_match_id {A} (o : option A) : match o with Some x => Some x | None => None end = o.
Proof. by destruct o. Qed.

(** Drop the parts of the patch that do not touch the kind of [q]. *)
Ltac skip_parts q :=
  unfold p_layer, p_state, p_processes, patch_seq;
  rewrite ?(within_seqs q), ?(within_accounts q), ?(within_accdata q), ?(within_deleted q), ?(within_accdata_gone q),
    ?(within_utxos q), ?(within_created q), ?(within_spent q), ?(within_procdata q), ?(within_procdata_gone q) by (apply (bool_decide_eq_true_1 _); vm_compute; reflexivity);
  rewrite ?option_match_id.

Lemma layer_seq addr : p_layer (toAccountSeqKey addr) = (fun v => Some (Uint64ToBytes v)) <$> SeqMap ctd !! addr.
Proof.
  skip_parts (toAccountSeqKey addr). apply keyed_set; [apply sorted_keys_elem| |done]. intros k _ E. key_eq E. by inv E.
Qed.

(** The cases of a map with byte keys and one with numbers. *)
Lemma by_key_set {V} (m : gmap bytes V) u (f : bytes -> bytes) (g : V -> bytes) k : (forall k', f k' = f k -> k' = k) ->
  (forall k' v, u k' v (f k) = patch_set (f k') (g v) (f k)) -> by_key m u (f k) = (fun v => Some (g v)) <$> m !! k.
Proof. intros Hf Hu. apply keyed_set; [apply sorted_keys_elem|auto|done]. Qed.
Lemma by_key_del {V} (m : gmap bytes V) u (f : bytes -> bytes) k : (forall k', f k' = f k -> k' = k) ->
  (forall k' v, u k' v (f k) = patch_del (f k') (f k)) -> by_key m u (f k) = (fun _ => None) <$> m !! k.
Proof. intros Hf Hu. apply keyed_del; [apply sorted_keys_elem|auto|done]. Qed.
Lemma key_inj (t k k' : bytes) : t ++ k' = t ++ k -> k' = k.
Proof. apply app_inv_head. Qed.

Lemma layer_procdata key : p_layer (toProcessDataKey key) =
  if has (DeletedProcessDataMap ctd) key then Some None else Some <$> ProcessDataMap ctd !! key.
Proof.
  skip_parts (toProcessDataKey key). unfold has, p_procdata_gone, p_procdata.
  rewrite (by_key_del _ _ toProcessDataKey) by (done || apply key_inj). rewrite (by_key_set _ _ toProcessDataKey id) by (done || apply key_inj).
  by destruct (DeletedProcessDataMap ctd !! key), (ProcessDataMap ctd !! key).
Qed.

Lemma layer_account addr : p_layer (toAccountKey addr) =
  if has (DeletedAccountMap ctd) addr then Some (Some [0]) else (fun acc => Some (acc_bytes acc)) <$> AccountMap ctd !! addr.
Proof.
  skip_parts (toAccountKey addr). unfold has, p_deleted, p_accounts.
  rewrite (by_key_set (DeletedAccountMap ctd) _ toAccountKey (fun _ => [0])); [|apply key_inj|].
  2: { intros k v. unfold p_delete_account, patch_seq, patch_prefix. by rewrite decide_False by (intros [r E]; key_eq E). }
  rewrite (by_key_set (AccountMap ctd) _ toAccountKey acc_bytes); [|apply key_inj|].
  2: { intros k v. unfold p_account, patch_seq. unfold patch_set at 1. by rewrite decide_False by (intros E; key_eq E). }
  by destruct (DeletedAccountMap ctd !! addr), (AccountMap ctd !! addr).
Qed.

(** Some deleted account owns the key of account data. *)
Definition owner_deleted (key : bytes) : Prop := exists addr, is_Some (DeletedAccountMap ctd !! addr) /\ addr `prefix_of` key.

Lemma deleted_accdata key : (owner_deleted key -> p_deleted (toAccountDataKey key) = Some None) /\ (~ owner_deleted key -> p_deleted (toAccountDataKey key) = None).
Proof.
  assert (Hu : forall a acc, p_delete_account a acc (toAccountDataKey key) = patch_prefix (toAccountDataKey a) (toAccountDataKey key)).
  { intros a acc. unfold p_delete_account, patch_seq. destruct (patch_prefix _ _); [done|]. unfold patch_set. by rewrite decide_False by (intros E; key_eq E). }
  assert (Hp : forall a, toAccountDataKey a `prefix_of` toAccountDataKey key <-> a `prefix_of` key).
  { intros a. split; [intros [r E]; exists r; unfold toAccountDataKey in E; rewrite <- (assoc_L (++)) in E; by apply app_inv_head in E|by apply prefix_app]. }
  split.
  - intros (a & Ha & Hpre). apply (patch_each_some _ _ _ a); [by apply sorted_keys_elem| |].
    + destruct Ha as [acc Ha]. rewrite Ha, Hu. unfold patch_prefix. by rewrite decide_True by (by apply Hp).
    + intros b _. destruct (DeletedAccountMap ctd !! b); [|by left]. rewrite Hu. unfold patch_prefix. destruct (decide _); auto.
  - intros Hno. apply keyed_none. intros a acc Ha. rewrite Hu. unfold patch_prefix. rewrite decide_False; [done|]. rewrite Hp. intros Hpre. destruct Hno. exists a. eauto.
Qed.

Lemma layer_accdata key : (forall addr, is_Some (DeletedAccountMap ctd !! addr) -> ~ addr `prefix_of` key) ->
  p_layer (toAccountDataKey key) = if has (DeletedAccountDataMap ctd) key then Some None else Some <$> AccountDataMap ctd !! key.
Proof.
  intros Hno. skip_parts (toAccountDataKey key). rewrite (proj2 (deleted_accdata key)) by (intros (a & Ha & Hp); by eapply Hno). unfold has, p_accdata_gone, p_accdata.
  rewrite (by_key_del _ _ toAccountDataKey) by (done || apply key_inj). rewrite (by_key_set _ _ toAccountDataKey id) by (done || apply key_inj).
  by destruct (DeletedAccountDataMap ctd !! key), (AccountDataMap ctd !! key).
Qed.

(** The data of a deleted account goes. *)
Lemma layer_accdata_deleted key : owner_deleted key -> p_layer (toAccountDataKey key) = Some None.
Proof.
  intros Ho. skip_parts (toAccountDataKey key). rewrite (proj1 (deleted_accdata key) Ho). unfold p_accdata_gone.
  rewrite (by_key_del _ _ toAccountDataKey) by (done || apply key_inj). by destruct (DeletedAccountDataMap ctd !! key).
Qed.

(** No two accounts of the layer share a name. *)
Definition names_differ : Prop := forall a a' acc acc', AccountMap ctd !! a = Some acc -> AccountMap ctd !! a' = Some acc' -> acc_Name acc = acc_Name acc' -> a = a'.

Lemma account_name_key a acc name : p_account a acc (toAccountNameKey name) = if decide (acc_Name acc = name) then Some (Some a) else None.
Proof.
  unfold p_account, patch_seq, patch_set. destruct (decide (toAccountNameKey name = _)) as [E|Hne].
  - apply app_inv_head in E. by rewrite decide_True.
  - rewrite decide_False by (intros E; key_eq E). rewrite decide_False; [done|]. congruence.
Qed.

Lemma layer_name_of a acc : names_differ -> AccountMap ctd !! a = Some acc -> p_layer (toAccountNameKey (acc_Name acc)) = Some (Some a).
Proof.
  intros Hd Ha. skip_parts (toAccountNameKey (acc_Name acc)). unfold p_accounts. apply (keyed_at _ _ (sorted_keys_elem _) _ _ a acc); [done|by rewrite account_name_key, decide_True|].
  intros a' acc' Ha' Hne. rewrite account_name_key, decide_False; [done|]. intros E. destruct Hne. by eapply Hd.
Qed.
Lemma layer_name_other name : (forall a acc, AccountMap ctd !! a = Some acc -> acc_Name acc <> name) -> p_layer (toAccountNameKey name) = None.
Proof. intros Hno. skip_parts (toAccountNameKey name). unfold p_accounts. apply keyed_none. intros a acc Ha. by rewrite account_name_key, decide_False by (by eapply Hno). Qed.
End Layer.
End StatePatch.

(** ** Reading *)

Section Reading.
Context {Tx D : Type} `{BL : BackendLaws D} `{Sha256} `{Base58} `{!TypedValue Account} (afc : Factory) `{!Coder TxOut}.
Abbreviation St := (Store Tx D).

(** What the readers make of an entry. *)
Definition account_of (o : option bytes) : res Account :=
  match o with
  | None => Err ErrNotExistAccount
  | Some v => if is_deleted v then Err ErrDeletedAccount
              else match read_account afc v with
                   | Err e => if bool_decide (e = ErrNotExistKey) then Err ErrNotExistAccount else Err e
                   | r => r
                   end
  end.
Definition present (o : option bytes) : res bool :=
  match o with None => Ok false | Some v => if is_deleted v then Err ErrDeletedAccount else Ok true end.
Definition seq_of (o : option bytes) : Z := match o with Some v => le_value (take 8 v) | None => 0 end.
Definition out_of_bytes (v : bytes) : res TxOut := let? (o, _) := decode v in Ok o.

Lemma read_account_bytes acc : account_storable afc acc -> is_deleted (acc_bytes afc acc) = false /\ read_account afc (acc_bytes afc acc) = Ok acc.
Proof.
  intros Ha. pose proof (account_value_ok afc acc Ha) as Ev. destruct Ha as (t & data & Et & Ht & Ec & Ed & Hc). unfold account_value in Ev. rewrite Et, Ed in Ev.
  assert (Eb : acc_bytes afc acc = le_bytes 2 t ++ data) by (by inv Ev). rewrite Eb. split.
  - unfold is_deleted. apply bool_decide_eq_false. intros E%(f_equal length). rewrite length_app, length_le_bytes in E. cbn in E. lia.
  - unfold read_account, BytesToUint16.
    assert (Er : read_le 2 (le_bytes 2 t ++ data) = Ok t).
    { pose proof (read_le_le_bytes 2 t ltac:(done)) as Er. unfold read_le in *. rewrite length_app, length_le_bytes in *. cbn [Nat.add Nat.ltb Nat.leb] in *.
      rewrite take_app_length' by (by rewrite length_le_bytes). rewrite take_ge in Er by (by rewrite length_le_bytes). exact Er. }
    rewrite Er. cbn [res_bind]. rewrite Ec. cbn [res_bind]. unfold from_index. rewrite length_app, length_le_bytes. cbn [Nat.add Nat.ltb Nat.leb res_bind].
    rewrite drop_app_length' by (by rewrite length_le_bytes). rewrite <- (app_nil_r data), (decode_value_encode _ _ _ Hc Ed). done.
Qed.

(** The store is open on the database [d], and its cache of sequences is right. *)
Record store_ok (st : St) (d : D) : Prop := {
  so_open : st_isClose st = false;
  so_db : st_db st = Some d;
  so_seqs : forall a v, kv d !! toAccountSeqKey a = Some v -> exists s, v = Uint64ToBytes s /\ 0 <= s < 2 ^ 64;
  so_cached : forall a s, st_SeqMap st !! a = Some s -> kv d !! toAccountSeqKey a = Some (Uint64ToBytes s) /\ 0 <= s < 2 ^ 64
}.

Context (st : St) (d : D) (Hok : store_ok st d).

Lemma open_runs {A} (closed : res A) m : if_open closed m st = m st.
Proof. unfold if_open. erewrite bind_ok by reflexivity. unfold id. by rewrite (so_open _ _ Hok). Qed.
Lemma View_runs {A} (fn : D -> res A) : View fn st = (fn d, st).
Proof. unfold View. by rewrite (so_db _ _ Hok). Qed.

Lemma get_live_spec addr : get_live d addr = match kv d !! toAccountKey addr with
  | None => Err ErrNotExistKey | Some v => if is_deleted v then Err ErrDeletedAccount else Ok v end.
Proof. unfold get_live. rewrite kv_Get_spec. by destruct (kv d !! toAccountKey addr). Qed.

Lemma or_missing_View {A} (dflt : res A) fn : or_missing dflt (View fn) st =
  (match fn d with Err e => if bool_decide (e = ErrNotExistKey) then dflt else Err e | r => r end, st).
Proof. unfold or_missing, attempt, bind. rewrite View_runs. destruct (fn d); try done. by destruct (bool_decide _). Qed.

Lemma store_Account_spec addr : store_Account afc addr st = (account_of (kv d !! toAccountKey addr), st).
Proof.
  unfold store_Account. rewrite open_runs, or_missing_View, get_live_spec. unfold account_of.
  destruct (kv d !! toAccountKey addr) as [v|]; [|cbn [res_bind]; by rewrite bool_decide_true]. destruct (is_deleted v); cbn [res_bind]; [by rewrite bool_decide_false|done].
Qed.

Lemma store_HasAccount_spec addr : store_HasAccount addr st = (present (kv d !! toAccountKey addr), st).
Proof.
  unfold store_HasAccount. rewrite open_runs, or_missing_View, get_live_spec. unfold present.
  destruct (kv d !! toAccountKey addr) as [v|]; [|cbn [res_bind]; by rewrite bool_decide_true]. destruct (is_deleted v); cbn [res_bind]; [by rewrite bool_decide_false|done].
Qed.

Lemma store_AddressByName_spec name : store_AddressByName name st =
  (match kv d !! toAccountNameKey name with
   | None => Err ErrNotExistAccount
   | Some v => match present (kv d !! toAccountKey (copy_into AddressSize v)) with
               | Ok true => Ok (copy_into AddressSize v) | Ok false => Err ErrNotExistAccount | Err e => Err e | Panic w => Panic w end
   end, st).
Proof.
  unfold store_AddressByName. rewrite open_runs, or_missing_View. unfold get_named. rewrite kv_Get_spec.
  destruct (kv d !! toAccountNameKey name) as [v|]; [|cbn [res_bind]; by rewrite bool_decide_true]. cbn [res_bind]. rewrite get_live_spec. unfold present.
  destruct (kv d !! toAccountKey (copy_into AddressSize v)) as [v'|]; cbn [res_bind]; [|cbn [res_bind]; by rewrite bool_decide_true]. destruct (is_deleted v'); cbn [res_bind]; [by rewrite bool_decide_false|done].
Qed.

Lemma store_data_spec key : get_data key st = (Ok (default [] (kv d !! key)), st).
Proof.
  unfold get_data. rewrite open_runs. unfold attempt, bind. rewrite View_runs, kv_Get_spec. by destruct (kv d !! key).
Qed.

Lemma seq_of_bytes s : 0 <= s < 2 ^ 64 -> seq_of (Some (Uint64ToBytes s)) = s.
Proof.
  intros Hs. cbn [seq_of]. change (Uint64ToBytes s) with (le_bytes 8 s). rewrite take_ge by (by rewrite length_le_bytes). rewrite le_value_le_bytes. by apply Z.mod_small.
Qed.

(** Asking for a sequence may put it in the cache. *)
Lemma store_Seq_spec addr : exists st', store_Seq addr st = (Ok (seq_of (kv d !! toAccountSeqKey addr)), st') /\ store_ok st' d /\
  st_cdb st' = st_cdb st /\ st_cache st' = st_cache st.
Proof.
  unfold store_Seq. rewrite open_runs. erewrite bind_ok by reflexivity. unfold id. destruct (st_SeqMap st !! addr) as [s|] eqn:Es.
  - exists st. destruct (so_cached _ _ Hok addr s Es) as [E Hs]. by rewrite E, seq_of_bytes.
  - destruct (kv d !! toAccountSeqKey addr) as [v|] eqn:Ev.
    + destruct (so_seqs _ _ Hok addr v Ev) as (s & -> & Hs).
      erewrite bind_ok by (apply attempt_ok; rewrite View_runs, kv_Get_spec, Ev; cbn [res_bind]; unfold BytesToUint64; by rewrite read_le_le_bytes).
      exists (set_seqs st (<[addr := s]> (st_SeqMap st))). rewrite seq_of_bytes by done.
      split; [reflexivity|]. split; [|done]. destruct Hok as [Ho Hd Hq Hc]. split; [done|done|done|]. cbn. intros a s'. destruct (decide (a = addr)) as [->|Hne].
      * rewrite lookup_insert_eq. intros [= <-]. by rewrite ?Ev.
      * rewrite lookup_insert_ne by done. apply Hc.
    + exists st. by erewrite bind_ok by (apply attempt_err; by rewrite View_runs, kv_Get_spec, Ev).
Qed.
End Reading.

(** ** A stored layer *)

Definition state_tags : list bytes := [tagAccount; tagAccountName; tagAccountSeq; tagAccountData; tagUTXO; tagProcessData].

Section Layer.
Context {Tx D : Type} `{BL : BackendLaws D} `{Sha256} `{Base58} `{!TypedValue Account} (afc : Factory) `{!Coder TxOut}.
Context (ctd : ContextData) (Hls : layer_storable afc ctd).

(** [d'] is [d] with the layer written to it. *)
Definition layer_stored (d d' : D) : Prop :=
  forall q, take 2 q ∈ state_tags -> kv d' !! q = patched (p_layer afc ctd) (fun q => kv d !! q) q.

Context (st : Store Tx D) (d : D) (Hok : store_ok st d).
Context (d' : D) (Hstored : layer_stored d d').

Lemma stored_at q : take 2 q ∈ state_tags -> kv d' !! q = match p_layer afc ctd q with Some o => o | None => kv d !! q end.
Proof. apply Hstored. Qed.

Lemma stored_store_ok cdb (c : storecache Tx) : store_ok (mkStore (Some d') cdb (st_chainID st) (st_name st) (st_version st) (SeqMap ctd ∪ st_SeqMap st) c false) d'.
Proof.
  assert (Hseq : forall a, kv d' !! toAccountSeqKey a = match SeqMap ctd !! a with Some s => Some (Uint64ToBytes s) | None => kv d !! toAccountSeqKey a end).
  { intros a. rewrite stored_at by (by apply (bool_decide_eq_true_1 _)). rewrite layer_seq. by destruct (SeqMap ctd !! a). }
  destruct Hok as [Ho Hd Hq Hc]. split; [done|done|..]; cbn [st_SeqMap].
  - intros a v. rewrite Hseq. destruct (SeqMap ctd !! a) as [s|] eqn:E; [|apply Hq]. intros [= <-]. exists s. split; [done|]. by apply (ls_seqs _ _ Hls a).
  - intros a s. rewrite lookup_union, Hseq. destruct (SeqMap ctd !! a) as [s'|] eqn:E; cbn; [|rewrite (left_id_L None _); apply Hc].
    destruct (st_SeqMap st !! a); cbn; intros [= <-]; (split; [done|by apply (ls_seqs _ _ Hls a)]).
Qed.

Context (st' : Store Tx D) (Hok' : store_ok st' d').

Lemma stored_account addr : (store_Account afc addr st').1 = match account_hit addr ctd with Some r => r | None => (store_Account afc addr st).1 end.
Proof.
  rewrite (store_Account_spec afc st' d' Hok'), (store_Account_spec afc st d Hok). cbn [fst]. rewrite stored_at by (by apply (bool_decide_eq_true_1 _)).
  rewrite layer_account. unfold account_hit. destruct (has (DeletedAccountMap ctd) addr); [done|]. destruct (AccountMap ctd !! addr) as [acc|] eqn:E; [|done]. cbn.
  destruct (read_account_bytes afc acc (ls_accounts _ _ Hls addr acc E)) as [-> ->]. done.
Qed.

Lemma stored_hasaccount addr : DeletedAccountMap ctd !! addr = None ->
  (store_HasAccount addr st').1 = match hasacc_hit addr ctd with Some r => r | None => (store_HasAccount addr st).1 end.
Proof.
  intros Hnd. rewrite (store_HasAccount_spec st' d' Hok'), (store_HasAccount_spec st d Hok). cbn [fst]. rewrite stored_at by (by apply (bool_decide_eq_true_1 _)).
  rewrite layer_account. unfold hasacc_hit, has. rewrite Hnd. destruct (AccountMap ctd !! addr) as [acc|] eqn:E; [|done]. cbn.
  by destruct (read_account_bytes afc acc (ls_accounts _ _ Hls addr acc E)) as [-> _].
Qed.

Lemma stored_name a acc : names_differ ctd -> AccountMap ctd !! a = Some acc -> DeletedAccountMap ctd !! a = None -> length a = AddressSize ->
  (store_AddressByName (acc_Name acc) st').1 = Ok a.
Proof.
  intros Hd Ha Hnd Hl. rewrite (store_AddressByName_spec st' d' Hok'). cbn [fst]. rewrite stored_at by (by apply (bool_decide_eq_true_1 _)). rewrite (layer_name_of afc ctd a acc Hd Ha).
  rewrite copy_into_id by done. rewrite stored_at by (by apply (bool_decide_eq_true_1 _)). rewrite layer_account. unfold has. rewrite Hnd, Ha. cbn.
  by destruct (read_account_bytes afc acc (ls_accounts _ _ Hls a acc Ha)) as [-> _].
Qed.

Lemma stored_seq addr : run 0 (store_Seq addr) st' = match SeqMap ctd !! addr with Some s => s | None => run 0 (store_Seq addr) st end.
Proof.
  unfold run. destruct (store_Seq_spec st' d' Hok' addr) as (s1 & E1 & _). destruct (store_Seq_spec st d Hok addr) as (s2 & E2 & _). rewrite E1, E2. cbn [fst].
  rewrite stored_at by (by apply (bool_decide_eq_true_1 _)). rewrite layer_seq. destruct (SeqMap ctd !! addr) as [s|] eqn:E; [|done]. cbn [fmap option_fmap option_map].
  rewrite seq_of_bytes; [done|]. by apply (ls_seqs _ _ Hls addr).
Qed.

Lemma stored_procdata key : run [] (store_ProcessData key) st' = match procdata_hit key ctd with Some v => v | None => run [] (store_ProcessData key) st end.
Proof.
  unfold run, store_ProcessData. rewrite (store_data_spec st' d' Hok'), (store_data_spec st d Hok). cbn [fst]. rewrite stored_at by (by apply (bool_decide_eq_true_1 _)).
  rewrite layer_procdata. unfold procdata_hit. destruct (has (DeletedProcessDataMap ctd) key); [done|]. by destruct (ProcessDataMap ctd !! key).
Qed.

Lemma stored_accdata key : ~ owner_deleted ctd key ->
  run [] (store_AccountData key) st' = match accdata_hit key ctd with Some v => v | None => run [] (store_AccountData key) st end.
Proof.
  intros Hno. unfold run, store_AccountData. rewrite (store_data_spec st' d' Hok'), (store_data_spec st d Hok). cbn [fst]. rewrite stored_at by (by apply (bool_decide_eq_true_1 _)).
  rewrite layer_accdata by (intros a Ha Hp; apply Hno; by exists a). unfold accdata_hit. destruct (has (DeletedAccountDataMap ctd) key); [done|]. by destruct (AccountDataMap ctd !! key).
Qed.

Lemma stored_accdata_deleted key : owner_deleted ctd key -> run [] (store_AccountData key) st' = [].
Proof.
  intros Ho. unfold run, store_AccountData. rewrite (store_data_spec st' d' Hok'). cbn [fst]. rewrite stored_at by (by apply (bool_decide_eq_true_1 _)). by rewrite layer_accdata_deleted.
Qed.
End Layer.

(** ** A backend: a finite map *)

Lemma bytes_le_total (a b : bytes) : bytes_le a b \/ bytes_le b a.
Proof. unfold bytes_le, bytes_lt. rewrite (bytes_cmp_antisym a b). destruct (bytes_cmp a b); auto. Qed.
#[export] Instance bytes_le_Total : Total bytes_le := bytes_le_total.
#[export] Instance bytes_le_trans : Transitive bytes_le.
Proof.
  intros a b c Hab Hbc. unfold bytes_le in *. destruct (bytes_lt c a) eqn:E; [|done]. destruct (bytes_lt_total a b) as [H|[->|H]]; [|congruence..].
  rewrite (bytes_lt_trans c a b E H) in Hbc. done.
Qed.

Definition map_Iterate (m : gmap bytes bytes) (p : bytes) : list (bytes * bytes) :=
  omap (fun k => pair k <$> m !! k) (sorted_byte_keys (base.filter (fun kv => p `prefix_of` kv.1) m)).

Lemma elem_of_map_Iterate m p k v : (k, v) ∈ map_Iterate m p <-> p `prefix_of` k /\ m !! k = Some v.
Proof.
  unfold map_Iterate. rewrite list_elem_of_omap. setoid_rewrite sorted_keys_elem. split.
  - intros (k' & [v' [Hv' Hp]%map_lookup_filter_Some] & E). rewrite Hv' in E. cbn in E. by simplify_eq.
  - intros [Hp Hv]. exists k. rewrite Hv. split; [|done]. exists v. by apply map_lookup_filter_Some.
Qed.

Lemma sorted_map_Iterate m p : StronglySorted (fun a b => bytes_lt a.1 b.1 = true) (map_Iterate m p).
Proof.
  unfold map_Iterate, sorted_byte_keys. set (f := base.filter _ m).
  assert (Hnd : NoDup (merge_sort bytes_le (map_to_list f).*1)) by (rewrite merge_sort_Permutation; apply NoDup_fst_map_to_list).
  assert (Hs : StronglySorted bytes_le (merge_sort bytes_le (map_to_list f).*1)) by (apply Sorted_StronglySorted; [apply _|apply Sorted_merge_sort; apply _]).
  induction Hs as [|k ks _ IH Hk]; cbn [omap list_omap]; [constructor|]. apply NoDup_cons in Hnd as [Hnin Hnd]. destruct (m !! k); cbn; [|by apply IH]. constructor; [by apply IH|].
  apply Forall_forall. intros [k' v'] (k2 & Hk2 & E)%list_elem_of_omap. destruct (m !! k2); cbn in E; simplify_eq. cbn. rewrite Forall_forall in Hk. specialize (Hk k' Hk2).
  destruct (bytes_lt_total k k') as [|[->|Hgt]]; [done|done|]. unfold bytes_le in Hk. congruence.
Qed.

#[export] Instance map_backend : StoreBackend (gmap bytes bytes) := {|
  kv_Get m k := match m !! k with Some v => Ok v | None => Err ErrNotExistKey end;
  kv_Iterate m p := Ok (map_Iterate m p);
  kv_Set k v m := (Ok tt, <[k := v]> m);
  kv_Delete k m := (Ok tt, delete k m)
|}.
#[export] Instance map_backend_laws : BackendLaws (gmap bytes bytes).
Proof.
  refine {| kv m := m |}; [done|by eauto|by eauto|]. intros m p. exists (map_Iterate m p). split; [done|]. split; [apply elem_of_map_Iterate|apply sorted_map_Iterate].
Defined.
