(* ===== verification/StoreBlock.v ===== *)
(** * Storing blocks

    [StoreBlock] and [StoreGenesis] of [core/chain/store.go] against their
    contract: what a context reads from the store afterwards is what the context
    of the block ended with, in both layouts of the store. *)

From stdpp Require Import base gmap list sorting strings.
From Stdlib Require Import ZArith Lia.
From S2P Require Import Prelude Amount Common Types Context ContextSpec Factory OrderedMap Chain BlockCodec Pile PileDB StoreKey Store StoreSpec.

(** An agreement outside of some tags. *)
Definition agree_on (ts : list bytes) (u w : patch) : Prop := forall q, take 2 q ∈ ts -> u q = w q.

Lemma agree_after u w ts ts' : within u ts' -> (forall t, t ∈ ts -> t ∉ ts') -> agree_on ts (patch_seq u w) w.
Proof. intros Hu Hd q Hq. unfold patch_seq. destruct (w q); [done|]. apply Hu. by apply Hd. Qed.
Lemma agree_before u w ts ts' : within w ts' -> (forall t, t ∈ ts -> t ∉ ts') -> agree_on ts (patch_seq u w) u.
Proof. intros Hw Hd q Hq. unfold patch_seq. by rewrite Hw by (by apply Hd). Qed.
Lemma agree_seq ts u u' w w' : agree_on ts u u' -> agree_on ts w w' -> agree_on ts (patch_seq u w) (patch_seq u' w').
Proof. intros Hu Hw q Hq. unfold patch_seq. by rewrite (Hu q Hq), (Hw q Hq). Qed.
Lemma agree_trans ts u v w : agree_on ts u v -> agree_on ts v w -> agree_on ts u w.
Proof. intros H1 H2 q Hq. by rewrite (H1 q Hq), (H2 q Hq). Qed.

Section StoreBlock.
Context {Tx D : Type} `{BL : BackendLaws D}.
Context `{GZ : Gzip} `{Sha256} `{Base58} `{!ArrayLenCoder} `{!TypedValue Tx} `{!TypedValue Account} `{!TypedValue Event}.
Context (tfc afc efc : Factory) `{!Coder Header} `{!Coder TxOut} (cSignature : Coder Signature) (cUint16 cUint8 : Coder Z).

Abbreviation StoreBlock_ := (StoreBlock (Tx := Tx) (D := D) tfc afc efc cSignature cUint16 cUint8).
Abbreviation parts_ := (block_parts (Tx := Tx) tfc efc cSignature cUint16 cUint8).
Abbreviation loader_ := (store_loader (Tx := Tx) (D := D) afc).

Lemma Update_acts m u (st : Store Tx D) d : acts m u -> st_db st = Some d ->
  exists d', Update m st = (Ok tt, set_db st (Some d')) /\ forall q, kv d' !! q = patched u (fun q => kv d !! q) q.
Proof. intros Hm Hd. destruct (Hm d) as (d' & E & Hd'). exists d'. unfold Update. by rewrite Hd, E. Qed.

(** The patches of the two layouts. *)
Definition p_new (bsHeight : bytes) (ctd : ContextData) : patch := patch_seq (patch_set tagHeight bsHeight) (p_layer afc ctd).
Definition p_events (ctd : ContextData) : patch :=
  match Events ctd with
  | [] => patch_none
  | ev :: _ => patch_set (toEventKey (ev_Height ev)) (match encode_events efc cUint16 (Events ctd) with Ok bs => bs | _ => [] end)
  end.
Definition p_old (height : Z) (data head DataHash : bytes) (ctd : ContextData) : patch :=
  patch_seq (patch_set (toHeightBlockKey height) data) (patch_seq (patch_set (toHeightHeaderKey height) head)
    (patch_seq (patch_set (toHeightHashKey height) DataHash) (patch_seq (patch_set (toHashHeightKey DataHash) (Uint32ToBytes height))
      (patch_seq (patch_set tagHeight (Uint32ToBytes height)) (patch_seq (p_state afc ctd) (patch_seq (p_events ctd) (p_processes ctd))))))).

Lemma apply_acts ctd : layer_storable afc ctd -> acts (applyContextData (D := D) afc ctd) (p_layer afc ctd).
Proof. intros Hls. apply acts_bind; [by apply apply_state_acts|apply apply_process_data_acts]. Qed.

Lemma applyOld_acts ctd bs : layer_storable afc ctd -> (Events ctd <> [] -> encode_events efc cUint16 (Events ctd) = Ok bs) ->
  acts (applyContextDataOld (D := D) afc efc cUint16 ctd) (patch_seq (p_state afc ctd) (patch_seq (p_events ctd) (p_processes ctd))).
Proof.
  intros Hls He. apply acts_bind; [by apply apply_state_acts|]. apply acts_bind; [|apply apply_process_data_acts]. unfold p_events.
  destruct (Events ctd) as [|ev evs]; [apply acts_ret|]. rewrite He by done. eapply acts_lift; [done|apply acts_Set].
Qed.

Lemma agree_new bs ctd : agree_on state_tags (p_new bs ctd) (p_layer afc ctd).
Proof. apply (agree_after _ _ _ [tagHeight]); [by apply within_set|]. intros t Ht ->%list_elem_of_singleton. by apply (bool_decide_eq_true_1 (tagHeight ∉ state_tags)) in Ht. Qed.

Lemma agree_old height data head DataHash ctd : agree_on state_tags (p_old height data head DataHash ctd) (p_layer afc ctd).
Proof.
  assert (Hd : forall t t', bool_decide (t' ∉ state_tags) = true -> t ∈ state_tags -> t ∉ [t']).
  { intros t t' Hno Ht ->%list_elem_of_singleton. by apply bool_decide_eq_true in Hno. }
  unfold p_old.
  eapply agree_trans; [apply (agree_after _ _ _ [tagHeightBlock]); [by apply within_set|intros t; by apply Hd]|].
  eapply agree_trans; [apply (agree_after _ _ _ [tagHeightHeader]); [by apply within_set|intros t; by apply Hd]|].
  eapply agree_trans; [apply (agree_after _ _ _ [tagHeightHash]); [by apply within_set|intros t; by apply Hd]|].
  eapply agree_trans; [apply (agree_after _ _ _ [tagHashHeight]); [by apply within_set|intros t; by apply Hd]|].
  eapply agree_trans; [apply (agree_after _ _ _ [tagHeight]); [by apply within_set|intros t; by apply Hd]|].
  apply agree_seq; [done|]. apply (agree_after _ _ _ [tagEvent]); [|intros t; by apply Hd]. unfold p_events. destruct (Events ctd); [done|]. by apply within_set.
Qed.

(** *** The run of [StoreBlock] *)

Lemma height_not_state : take 2 tagHeight ∉ state_tags.
Proof. by apply (bool_decide_eq_true_1 _). Qed.
Lemma layer_height ctd : p_layer afc ctd tagHeight = None.
Proof. apply within_layer, height_not_state. Qed.
Lemma old_height height data head DataHash ctd : p_old height data head DataHash ctd tagHeight = Some (Some (Uint32ToBytes height)).
Proof.
  pose proof (layer_height ctd) as Hl. unfold p_layer, patch_seq in Hl. destruct (p_processes ctd tagHeight) eqn:Ep; [done|].
  unfold p_old, patch_seq. rewrite Ep, Hl. assert (p_events ctd tagHeight = None) as ->.
  { unfold p_events. destruct (Events ctd); [done|]. unfold patch_set. by rewrite decide_False by (intros E; key_eq E). }
  unfold patch_set. by rewrite (decide_True (P := tagHeight = tagHeight)).
Qed.

(** The block log takes the block, or has it already. *)
Definition log_accepts (late : bool) (st : Store Tx D) (b : Block Tx) (DataHash : Hash256) (Datas : list bytes) : Prop :=
  match st_cdb st with
  | None => True
  | Some c => exists c', db_AppendData late (h_Height (b_Header b)) DataHash Datas c = (Ok tt, c') \/
                         db_AppendData late (h_Height (b_Header b)) DataHash Datas c = (Err ErrInvalidAppendHeight, c')
  end.
(** The log afterwards. *)
Definition log_after (late : bool) (st : Store Tx D) (b : Block Tx) (DataHash : Hash256) (Datas : list bytes) : option DB :=
  match st_cdb st with None => None | Some c => Some (db_AppendData late (h_Height (b_Header b)) DataHash Datas c).2 end.

Definition block_stored (st : Store Tx D) (d' : D) (cdb' : option DB) (b : Block Tx) (DataHash : Hash256) (ctd : ContextData) : Store Tx D :=
  mkStore (Some d') cdb' (st_chainID st) (st_name st) (st_version st) (SeqMap ctd ∪ st_SeqMap st)
    (mkStorecache true (h_Height (b_Header b)) DataHash (Some b)) false.

Lemma block_parts_ok b ctd Datas : parts_ b ctd = Ok Datas ->
  exists head data bs, encode (b_Header b) = Ok head /\ encode_block cSignature cUint16 cUint8 b = Ok data /\
    (Events ctd <> [] -> encode_events efc cUint16 (Events ctd) = Ok bs).
Proof.
  unfold block_parts. destruct (encode (b_Header b)) as [head| |]; cbn [res_bind]; try done. cbn [encode block_coder coder_block].
  destruct (encode_block cSignature cUint16 cUint8 b) as [data| |]; cbn [res_bind]; try done. destruct (from_index _ data); cbn [res_bind]; try done.
  destruct (Events ctd) as [|ev evs]; [by exists head, data, []|]. destruct (encode_events _ _ _) as [bs| |]; cbn [res_bind]; try done. by exists head, data, bs.
Qed.

Lemma ignoring_runs e (m : storeM unit) (st st' : Store Tx D) r : m st = (r, st') -> r = Ok tt \/ r = Err e -> ignoring e m st = (Ok tt, st').
Proof.
  intros E Hr. unfold ignoring, attempt, bind. rewrite E. destruct Hr as [-> | ->]; [done|]. by rewrite bool_decide_true.
Qed.

Lemma StoreBlock_runs late st d b ctd head Datas : store_ok st d -> layer_storable afc ctd -> parts_ b ctd = Ok Datas -> encode (b_Header b) = Ok head ->
  log_accepts late st b (Hash head) Datas ->
  exists d', StoreBlock_ late b ctd st = (Ok tt, block_stored st d' (log_after late st b (Hash head) Datas) b (Hash head) ctd) /\
    layer_stored afc ctd d d' /\ kv d' !! tagHeight = Some (Uint32ToBytes (h_Height (b_Header b))) /\
    (st_cdb st <> None -> forall q, kv d' !! q = patched (p_new (Uint32ToBytes (h_Height (b_Header b))) ctd) (fun q => kv d !! q) q).
Proof.
  intros Hok Hls Hp Hh Hlog. destruct (block_parts_ok b ctd Datas Hp) as (head' & data & bs & Hh' & Hd & He). assert (head' = head) as -> by congruence.
  destruct st as [odb cdb cid nm ver sq ch cl]. destruct Hok as [Ho Hdb _ _]. cbn in Ho, Hdb. subst. unfold log_accepts, log_after, block_stored in *. cbn [st_cdb] in *.
  unfold StoreBlock, if_open. erewrite bind_ok by reflexivity. cbn [st_isClose id]. unfold header_Hash. rewrite Hh. erewrite bind_ok by reflexivity. erewrite bind_ok by reflexivity. unfold id at 1. cbn [st_cdb].
  destruct cdb as [c|].
  - assert (Hacts : acts (kv_Set tagHeight (Uint32ToBytes (h_Height (b_Header b))) ;;; applyContextData (D := D) afc ctd) (p_new (Uint32ToBytes (h_Height (b_Header b))) ctd))
      by (apply acts_bind; [apply acts_Set|by apply apply_acts]).
    destruct Hlog as (c' & Hc). set (st1 := mkStore (Some d) (Some c') cid nm ver sq ch false).
    destruct (Update_acts _ _ st1 d Hacts eq_refl) as (d' & Eu & Hd'). exists d'. split_and!.
    + erewrite bind_ok; cycle 1.
      { erewrite bind_ok by (unfold lift; by rewrite Hp). erewrite bind_ok; [exact Eu|]. destruct Hc as [Hc|Hc]; (eapply ignoring_runs; [unfold on_cdb; cbn [st_cdb]; by rewrite Hc|auto]). }
      erewrite bind_ok by reflexivity. by destruct Hc as [-> | ->].
    + intros q Hq. rewrite Hd'. unfold patched. by rewrite (agree_new _ ctd q Hq).
    + rewrite Hd'. unfold patched, p_new, patch_seq. rewrite layer_height. unfold patch_set. by rewrite decide_True.
    + intros _. exact Hd'.
  - assert (Hacts : acts (let! data := lift (encode (Coder := block_coder tfc cSignature cUint16 cUint8) b) in
      kv_Set (toHeightBlockKey (h_Height (b_Header b))) data ;;;
      let! data := lift (encode (b_Header b)) in
      kv_Set (toHeightHeaderKey (h_Height (b_Header b))) data ;;;
      kv_Set (toHeightHashKey (h_Height (b_Header b))) (Hash head) ;;;
      kv_Set (toHashHeightKey (Hash head)) (Uint32ToBytes (h_Height (b_Header b))) ;;;
      kv_Set tagHeight (Uint32ToBytes (h_Height (b_Header b))) ;;;
      applyContextDataOld (D := D) afc efc cUint16 ctd) (p_old (h_Height (b_Header b)) data head (Hash head) ctd)).
    { eapply acts_lift; [exact Hd|]. apply acts_bind; [apply acts_Set|]. eapply acts_lift; [exact Hh|]. repeat (apply acts_bind; [apply acts_Set|]). by eapply applyOld_acts. }
    destruct (Update_acts _ _ (mkStore (Some d) None cid nm ver sq ch false) d Hacts eq_refl) as (d' & Eu & Hd'). exists d'. split_and!.
    + rewrite Hh in Eu. erewrite bind_ok by exact Eu. by erewrite bind_ok by reflexivity.
    + intros q Hq. rewrite Hd'. unfold patched. by rewrite (agree_old _ _ _ _ ctd q Hq).
    + rewrite Hd'. unfold patched. by rewrite old_height.
    + done.
Qed.

(** C3. What the store answers after [StoreBlock] is what the context of the
    block ended with, in both layouts: with a layer whose values can be encoded and
    a block log that takes the block (or has it already), [StoreBlock] succeeds,
    and a context on the store then reads the accounts and the process data as the
    frame of the layer over the old store does, and the sequences, the presence of
    accounts and the account data as well, for accounts the block did not delete.
    The data of a deleted account is gone; the accounts of the layer are found by
    their names; and the height is the height of the block. *)
Theorem store_answers_as_the_context (late : bool) (st : Store Tx D) (d : D) (b : Block Tx) (ctd : ContextData) (head : bytes) (Datas : list bytes) :
  store_ok st d -> layer_storable afc ctd -> parts_ b ctd = Ok Datas -> encode (b_Header b) = Ok head -> log_accepts late st b (Hash head) Datas ->
  exists st' d', StoreBlock_ late b ctd st = (Ok tt, st') /\ store_ok st' d' /\
    let f := frame_of (loader_ st) [ctd] in
    let f' := loader_frame (loader_ st') in
    (forall addr, f_acc f' addr = f_acc f addr) /\
    (forall key, f_pd f' key = f_pd f key) /\
    (forall addr, DeletedAccountMap ctd !! addr = None -> f_seq f' addr = f_seq f addr /\ f_hasacc f' addr = f_hasacc f addr) /\
    (forall key, ~ owner_deleted ctd key -> f_ad f' key = f_ad f key) /\
    (forall key, owner_deleted ctd key -> f_ad f' key = []) /\
    (forall a acc, names_differ ctd -> AccountMap ctd !! a = Some acc -> DeletedAccountMap ctd !! a = None -> length a = AddressSize -> f_name f' (acc_Name acc) = Ok a) /\
    store_Height st' = (Ok (h_Height (b_Header b)), st') /\ store_Hash (h_Height (b_Header b)) st' = (Ok (Hash head), st').
Proof.
  intros Hok Hls Hp Hh Hlog. destruct (StoreBlock_runs late st d b ctd head Datas Hok Hls Hp Hh Hlog) as (d' & E & Hst & Hht & _).
  set (st' := block_stored _ _ _ _ _ _) in E. assert (Hok' : store_ok st' d') by (by apply (stored_store_ok afc ctd Hls st d Hok d' Hst)).
  exists st', d'. split; [done|]. split; [done|]. cbv zeta. unfold loader_frame, frame_of, test_stack, store_loader; cbn [f_acc f_pd f_seq f_hasacc f_ad f_name ld_Account ld_ProcessData ld_Seq ld_HasAccount ld_AccountData ld_AddressByName].
  split_and!.
  - intros addr. by apply (stored_account afc ctd Hls st d Hok d' Hst st' Hok').
  - intros key. by apply (stored_procdata afc ctd st d Hok d' Hst st' Hok').
  - intros addr Hnd. split; [|by apply (stored_hasaccount afc ctd Hls st d Hok d' Hst st' Hok')].
    rewrite (stored_seq afc ctd Hls st d Hok d' Hst st' Hok'). unfold seq_hit, has. by rewrite Hnd.
  - intros key Hno. by apply (stored_accdata afc ctd st d Hok d' Hst st' Hok').
  - intros key Ho. by apply (stored_accdata_deleted afc ctd d d' Hst st' Hok').
  - intros a acc Hd Ha Hnd Hl. by apply (stored_name afc ctd Hls d d' Hst st' Hok').
  - unfold store_Height. by rewrite (open_runs _ _ Hok').
  - unfold store_Hash. rewrite (open_runs _ _ Hok'). erewrite bind_ok by reflexivity. unfold id, cached_at. cbn. by rewrite Z.eqb_refl.
Qed.
End StoreBlock.
