(* ===== verification/StoreChain.v ===== *)
(** * The store as a chain of blocks

    The store over the block log ([core/chain/store.go] with [cdb]) keeps every
    block of the chain.  The database may know fewer blocks than the log has, after
    a crash between the write to the log and the transaction of the database; how
    the node then catches up is in [Recovery]. *)

From stdpp Require Import base gmap list sorting strings.
From Stdlib Require Import ZArith Lia.
From S2P Require Import Prelude Amount Common Types Context ContextSpec Factory OrderedMap Chain BlockCodec Pile PileDB StoreKey Store StoreSpec StoreBlock.

Section StoreChain.
Context {Tx D : Type} `{BL : BackendLaws D}.
Context `{GZ : Gzip} `{Sha256} `{Base58} `{!ArrayLenCoder} `{!TypedValue Tx} `{!TypedValue Account} `{!TypedValue Event}.
Context (tfc afc efc : Factory) `{!Coder Header} `{!Coder TxOut} (cSignature : Coder Signature) (cUint16 cUint8 : Coder Z).

Abbreviation StoreBlock_ := (StoreBlock (Tx := Tx) (D := D) tfc afc efc cSignature cUint16 cUint8).
Abbreviation parts_ := (block_parts (Tx := Tx) tfc efc cSignature cUint16 cUint8).
Abbreviation Block_ := (store_Block (Tx := Tx) (D := D) tfc cSignature cUint16 cUint8).

(** A block with the layer it ended with, and its entry in the log. *)
Abbreviation Item := (Block Tx * ContextData)%type.
Definition event_codable (ev : Event) : Prop :=
  codable_value ev /\ exists t, TypeOf efc (value_type ev) = Ok t /\ codable (Coder := cUint16) t /\ Create efc t = Ok (Ptr (strip_ptr (value_type ev))).

Record is_entry (x : Item) (e : Entry) : Prop := {
  ie_hash : exists head, encode (b_Header x.1) = Ok head /\ en_hash e = Hash head;
  ie_parts : parts_ x.1 x.2 = Ok (en_datas e);
  ie_codable : block_codable tfc cSignature cUint16 cUint8 x.1;
  ie_events : Forall event_codable (Events x.2)
}.

(** The database knows the first [n] of the blocks [xs]; the log has them all. *)
Record store_chain (st : Store Tx D) (d : D) (gen : Hash256) (xs : list Item) (n : nat) : Prop := {
  sn_ok : store_ok st d;
  sn_log : exists c l, st_cdb st = Some c /\ db_holds c gen l /\ Forall2 is_entry xs l;
  sn_heights : forall i x, xs !! i = Some x -> h_Height (b_Header x.1) = Z.of_nat i + 1;
  sn_known : (n <= length xs)%nat;
  sn_bound : Z.of_nat (length xs) + 1 < 2 ^ 32;
  sn_height : kv d !! tagHeight = Some (Uint32ToBytes (Z.of_nat n));
  sn_cache : let c := st_cache st in sc_cached c = true -> sc_height c = Z.of_nat n /\
    match n with
    | O => sc_heightHash c = gen
    | S i => exists x head, xs !! i = Some x /\ sc_heightBlock c = Some x.1 /\ encode (b_Header x.1) = Ok head /\ sc_heightHash c = Hash head
    end
}.

(** *** The parts of an entry *)

Lemma entry_parts x e : is_entry x e -> exists head body rest, en_datas e = head :: body :: rest /\ encode (b_Header x.1) = Ok head /\ en_hash e = Hash head /\
  encode_block cSignature cUint16 cUint8 x.1 = Ok (head ++ body) /\
  rest = match Events x.2 with [] => [] | _ => match encode_events efc cUint16 (Events x.2) with Ok bs => [bs] | _ => [] end end.
Proof.
  intros [(head & Hh & Eh) Hp _ _]. unfold block_parts in Hp. rewrite Hh in Hp. cbn [res_bind encode block_coder coder_block] in Hp.
  destruct (encode_block cSignature cUint16 cUint8 x.1) as [data| |] eqn:Ed; cbn [res_bind] in Hp; try done.
  destruct (encode_block_split _ _ _ _ _ Ed) as (head' & body & Hh' & _ & ->). assert (head' = head) as -> by congruence.
  unfold from_index in Hp. rewrite length_app in Hp. rewrite (proj2 (Nat.ltb_ge _ _)) in Hp by lia. rewrite drop_app_length in Hp. cbn [res_bind] in Hp.
  exists head, body. destruct (Events x.2) as [|ev evs]; [cbn in Hp; exists []; by inv Hp|].
  destruct (encode_events efc cUint16 (ev :: evs)) as [bs| |]; cbn in Hp; try done. exists [bs]. by inv Hp.
Qed.

(** The first two parts of an entry are the encoding of the block. *)
Lemma decode_parts x e : is_entry x e -> Unmarshal_as (C := block_coder tfc cSignature cUint16 cUint8) (concat (take 2 (drop 0 (en_datas e)))) = Ok x.1.
Proof.
  intros He. destruct (entry_parts x e He) as (head & body & rest & -> & _ & _ & Hb & _). cbn [drop take concat]. rewrite app_nil_r.
  unfold Unmarshal_as. cbn [decode block_coder coder_block]. rewrite <- (app_nil_r (head ++ body)). by rewrite (decode_block_encode _ _ _ _ x.1 _ [] (ie_codable _ _ He) Hb).
Qed.

Lemma decode_header_part x e : is_entry x e -> exists v, en_datas e !! 0%nat = Some v /\ Unmarshal_as v = Ok (b_Header x.1).
Proof.
  intros He. destruct (entry_parts x e He) as (head & body & rest & -> & Hh & _ & _). exists head. split; [done|].
  unfold Unmarshal_as. rewrite <- (app_nil_r head), (decode_encode _ _ _ (proj1 (ie_codable _ _ He)) Hh). done.
Qed.

Lemma decode_event_encode ev b rest : event_codable ev -> encode_event efc cUint16 ev = Ok b -> decode_event efc cUint16 (b ++ rest) = Ok (ev, rest).
Proof.
  intros (Hc & t & Ht & Hct & Hcr) He. unfold encode_event, decode_event in *. rewrite Ht in He. cbn [res_bind] in He.
  destruct (encode t) as [bt| |] eqn:Et; cbn [res_bind] in He; try done. destruct (encode_value ev) as [bv| |] eqn:Ev; cbn [res_bind] in He; try done. inv He.
  rewrite <- (assoc_L (++)), (decode_encode (Coder := cUint16) _ _ _ Hct Et). cbn [res_bind]. rewrite Hcr. cbn [res_bind]. by apply decode_value_encode.
Qed.

Lemma decode_events_encode evs bs : Forall event_codable evs -> encode_events efc cUint16 evs = Ok bs -> decode_events efc cUint16 bs = Ok evs.
Proof.
  intros Hc He. unfold encode_events, decode_events in *. destruct (encode_each _ evs) as [bs'| |] eqn:E; cbn [res_bind] in He; try done. inv He.
  rewrite DecodeArrayLen_Encode. cbn [res_bind]. rewrite Nat2Z.id, <- (app_nil_r bs'). erewrite decode_each_encode; [done| |exact E].
  eapply Forall_impl; [exact Hc|]. intros ev Hev b r. by apply decode_event_encode.
Qed.

(** *** Reading blocks *)

Lemma set_cdb_ok (st : Store Tx D) d c : store_ok st d -> store_ok (set_cdb st c) d.
Proof. intros []. by split. Qed.

Lemma chain_set_cdb st d gen xs n c l : store_chain st d gen xs n -> db_holds c gen l -> Forall2 is_entry xs l -> store_chain (set_cdb st (Some c)) d gen xs n.
Proof. intros [Hok _ Hh Hk Hb Hht Hc] Hdb Hf. split; [by apply set_cdb_ok|by exists c, l|done..]. Qed.

Lemma on_cdb_runs {A} (m : ST DB A) (st : Store Tx D) c r c' : st_cdb st = Some c -> m c = (r, c') -> on_cdb m st = (r, set_cdb st (Some c')).
Proof. intros Hc E. unfold on_cdb. by rewrite Hc, E. Qed.

Lemma not_exist_ok {A} (m : storeM A) (st st' : Store Tx D) a : m st = (Ok a, st') -> not_exist m st = (Ok a, st').
Proof. intros E. unfold not_exist. by erewrite bind_ok by (by apply attempt_ok). Qed.
Lemma not_exist_err {A} (m : storeM A) (st st' : Store Tx D) : m st = (Err Pile.ErrInvalidHeight, st') -> not_exist m st = (Err ErrNotExistKey, st').
Proof. intros E. unfold not_exist. erewrite bind_ok by (by apply attempt_err). cbv beta iota. by rewrite bool_decide_true. Qed.

Section Reads.
Context (st : Store Tx D) (d : D) (gen : Hash256) (xs : list Item) (n : nat) (Hs : store_chain st d gen xs n).

Lemma cached_block i x : xs !! i = Some x -> cached_at st (Z.of_nat i + 1) = true ->
  exists head, sc_heightBlock (st_cache st) = Some x.1 /\ encode (b_Header x.1) = Ok head /\ sc_heightHash (st_cache st) = Hash head.
Proof.
  intros Hi Hc. unfold cached_at in Hc. apply andb_true_iff in Hc as [Hc Hh]. apply Z.eqb_eq in Hh. destruct (sn_cache _ _ _ _ _ Hs Hc) as [Hn Hx].
  destruct n as [|j]; [lia|]. assert (j = i) as -> by lia. destruct Hx as (y & head & Hy & Hb & He & Hhash). assert (y = x) as -> by congruence. eauto.
Qed.

Lemma entry_at i x : xs !! i = Some x -> exists c l e, st_cdb st = Some c /\ db_holds c gen l /\ Forall2 is_entry xs l /\ l !! i = Some e /\ is_entry x e.
Proof.
  intros Hi. destruct (sn_log _ _ _ _ _ Hs) as (c & l & Hc & Hl & Hf). destruct (Forall2_lookup_l _ _ _ _ _ Hf Hi) as (e & He & Hx). by exists c, l, e.
Qed.

Lemma read_Block i x : xs !! i = Some x -> exists st', Block_ (Z.of_nat i + 1) st = (Ok x.1, st') /\ store_chain st' d gen xs n.
Proof.
  intros Hi. unfold store_Block. rewrite (open_runs _ _ (sn_ok _ _ _ _ _ Hs)), (proj2 (Z.ltb_ge _ _)) by lia. erewrite bind_ok by reflexivity. unfold id.
  destruct (cached_at st (Z.of_nat i + 1)) eqn:Ec.
  - destruct (cached_block i x Hi Ec) as (head & -> & _). by exists st.
  - destruct (entry_at i x Hi) as (c & l & e & Hc & Hl & Hf & He & Hx). rewrite Hc.
    assert (Hlen : (0 + 2 <= length (en_datas e))%nat) by (destruct (entry_parts x e Hx) as (? & ? & ? & -> & _); cbn; lia).
    destruct (holds_reads c gen l i e Hl He) as (_ & _ & Hd). destruct (Hd 0%nat 2%nat Hlen) as (c' & E & Hl').
    eexists. erewrite bind_ok by (apply not_exist_ok; by eapply on_cdb_runs). unfold lift. rewrite (decode_parts x e Hx). split; [reflexivity|by eapply chain_set_cdb].
Qed.

Lemma read_Header i x : xs !! i = Some x -> exists st', store_Header (Z.of_nat i + 1) st = (Ok (b_Header x.1), st') /\ store_chain st' d gen xs n.
Proof.
  intros Hi. unfold store_Header. rewrite (open_runs _ _ (sn_ok _ _ _ _ _ Hs)), (proj2 (Z.ltb_ge _ _)) by lia. erewrite bind_ok by reflexivity. unfold id.
  destruct (cached_at st (Z.of_nat i + 1)) eqn:Ec.
  - destruct (cached_block i x Hi Ec) as (head & -> & _). by exists st.
  - destruct (entry_at i x Hi) as (c & l & e & Hc & Hl & Hf & He & Hx). rewrite Hc. destruct (decode_header_part x e Hx) as (v & Hv & Hd).
    destruct (holds_reads c gen l i e Hl He) as (_ & Hg & _). destruct (Hg 0%nat) as (c' & E & Hl'). rewrite Hv in E.
    eexists. erewrite bind_ok by (apply not_exist_ok; by eapply on_cdb_runs). unfold lift. rewrite Hd. split; [reflexivity|by eapply chain_set_cdb].
Qed.

Lemma read_Hash i x head : xs !! i = Some x -> encode (b_Header x.1) = Ok head -> exists st', store_Hash (Z.of_nat i + 1) st = (Ok (Hash head), st') /\ store_chain st' d gen xs n.
Proof.
  intros Hi Hh. unfold store_Hash. rewrite (open_runs _ _ (sn_ok _ _ _ _ _ Hs)). erewrite bind_ok by reflexivity. unfold id.
  destruct (cached_at st (Z.of_nat i + 1)) eqn:Ec.
  - destruct (cached_block i x Hi Ec) as (head' & _ & Hh' & ->). assert (head' = head) as -> by congruence. by exists st.
  - destruct (entry_at i x Hi) as (c & l & e & Hc & Hl & Hf & He & Hx). rewrite Hc. destruct (holds_reads c gen l i e Hl He) as ((c' & E & Hl') & _).
    destruct (ie_hash _ _ Hx) as (head' & Hh' & Ee). assert (head' = head) as -> by congruence. rewrite Ee in E.
    eexists. split; [apply not_exist_ok; by eapply on_cdb_runs|by eapply chain_set_cdb].
Qed.

Lemma read_genesis : exists st', store_Hash 0 st = (Ok gen, st') /\ store_chain st' d gen xs n.
Proof.
  unfold store_Hash. rewrite (open_runs _ _ (sn_ok _ _ _ _ _ Hs)). erewrite bind_ok by reflexivity. unfold id. destruct (cached_at st 0) eqn:Ec.
  - unfold cached_at in Ec. apply andb_true_iff in Ec as [Ec Eh]. apply Z.eqb_eq in Eh. destruct (sn_cache _ _ _ _ _ Hs Ec) as [Hn Hx]. destruct n; [|lia]. exists st. by rewrite Hx.
  - destruct (sn_log _ _ _ _ _ Hs) as (c & l & Hc & Hl & Hf). rewrite Hc. eexists. split; [apply not_exist_ok; eapply on_cdb_runs; [done|by eapply holds_genesis]|by eapply chain_set_cdb].
Qed.

Lemma read_beyond h : Z.of_nat (length xs) < h < 2 ^ 32 -> exists st', Block_ h st = (Err ErrNotExistKey, st') /\ store_chain st' d gen xs n.
Proof.
  intros Hh. unfold store_Block. rewrite (open_runs _ _ (sn_ok _ _ _ _ _ Hs)), (proj2 (Z.ltb_ge _ _)) by lia. erewrite bind_ok by reflexivity. unfold id.
  assert (Ec : cached_at st h = false).
  { unfold cached_at. destruct (sc_cached (st_cache st)) eqn:Ec; [|done]. destruct (sn_cache _ _ _ _ _ Hs Ec) as [-> _]. pose proof (sn_known _ _ _ _ _ Hs). apply Z.eqb_neq. lia. }
  rewrite Ec. destruct (sn_log _ _ _ _ _ Hs) as (c & l & Hc & Hl & Hf). rewrite Hc. pose proof (Forall2_length _ _ _ Hf).
  eexists. split; [|by eapply chain_set_cdb]. erewrite bind_err; [reflexivity|]. apply not_exist_err. eapply on_cdb_runs; [done|]. eapply holds_beyond; [done|lia].
Qed.

Lemma read_Height : store_Height st = (Ok (Z.of_nat n), st).
Proof.
  unfold store_Height. rewrite (open_runs _ _ (sn_ok _ _ _ _ _ Hs)). erewrite bind_ok by reflexivity. unfold id. destruct (sc_cached (st_cache st)) eqn:Ec.
  - by destruct (sn_cache _ _ _ _ _ Hs Ec) as [-> _].
  - pose proof (sn_known _ _ _ _ _ Hs). pose proof (sn_bound _ _ _ _ _ Hs).
    erewrite bind_ok; cycle 1; [apply attempt_ok; rewrite (View_runs _ _ (sn_ok _ _ _ _ _ Hs)), kv_Get_spec, (sn_height _ _ _ _ _ Hs); cbn [res_bind]; unfold BytesToUint32; by rewrite read_le_le_bytes by (split; [lia|cbn; lia])|done].
Qed.
End Reads.

(** *** Storing blocks *)

(** The result of storing [x] in a store whose log then holds [xs]. *)
Lemma stored_chain st d d' gen c' l xs i x head : store_chain st d gen (take i xs) i \/ store_chain st d gen xs i -> xs !! i = Some x ->
  (forall j y, xs !! j = Some y -> h_Height (b_Header y.1) = Z.of_nat j + 1) -> Z.of_nat (length xs) + 1 < 2 ^ 32 ->
  layer_storable afc x.2 -> layer_stored afc x.2 d d' -> kv d' !! tagHeight = Some (Uint32ToBytes (h_Height (b_Header x.1))) ->
  encode (b_Header x.1) = Ok head -> db_holds c' gen l -> Forall2 is_entry xs l ->
  store_chain (block_stored st d' (Some c') x.1 (Hash head) x.2) d' gen xs (S i).
Proof.
  intros Hs Hi Hheights Hbound Hls Hst Hht Hh Hl Hf. assert (Hok : store_ok st d) by (destruct Hs as [Hs|Hs]; apply Hs). pose proof (Hheights i x Hi) as Hhi. split.
  - by apply (stored_store_ok afc x.2 Hls st d Hok d' Hst).
  - by exists c', l.
  - done.
  - by apply lookup_lt_Some in Hi.
  - done.
  - rewrite Hht, Hhi. do 2 f_equal. lia.
  - cbn. intros _. split; [lia|]. exists x, head. done.
Qed.

Lemma store_next late st d gen xs x e : store_chain st d gen xs (length xs) -> length gen = 32%nat -> is_entry x e -> entry_ok e ->
  h_Height (b_Header x.1) = Z.of_nat (length xs) + 1 -> layer_storable afc x.2 -> Z.of_nat (length xs) + ChunkUnit < 2 ^ 32 ->
  (forall l, Forall2 is_entry xs l -> ChunkHeaderSize + sizes l + entry_size e < 2 ^ 63) ->
  exists st' d', StoreBlock_ late x.1 x.2 st = (Ok tt, st') /\ store_chain st' d' gen (xs ++ [x]) (S (length xs)) /\
    (forall q, kv d' !! q = patched (p_new afc (Uint32ToBytes (h_Height (b_Header x.1))) x.2) (fun q => kv d !! q) q).
Proof.
  intros Hs Hg Hx Hek Hht Hls Hb Hsz. assert (HU : 2 < ChunkUnit) by done. destruct (sn_log _ _ _ _ _ Hs) as (c & l & Hc & Hl & Hf). pose proof (Forall2_length _ _ _ Hf) as Hlen.
  destruct (ie_hash _ _ Hx) as (head & Hh & Ee). destruct (db_AppendData_ok c gen l e late Hl Hg Hek ltac:(lia) (Hsz l Hf)) as (c' & Ea & Hl'). rewrite <- Hlen, <- Hht, Ee in Ea.
  destruct (StoreBlock_runs tfc afc efc cSignature cUint16 cUint8 late st d x.1 x.2 head (en_datas e) (sn_ok _ _ _ _ _ Hs) Hls (ie_parts _ _ Hx) Hh) as (d' & E & Hst & Hk & Hkv).
  { unfold log_accepts. rewrite Hc. exists c'. by left. }
  unfold log_after in E. rewrite Hc, Ea in E. cbn [snd] in E. eexists _, d'. split; [exact E|]. split; [|apply Hkv; by rewrite Hc].
  apply (stored_chain st d d' gen c' (l ++ [e])); try done.
  - left. by rewrite take_app_length.
  - by apply list_lookup_middle.
  - intros j y [Hj|[Hge Hj]]%lookup_app_Some; [by apply (sn_heights _ _ _ _ _ Hs)|]. apply list_lookup_singleton_Some in Hj as [Hj <-]. rewrite Hht. lia.
  - rewrite length_app. cbn. lia.
  - apply Forall2_app; [done|by constructor].
Qed.

(** A block that the log has and the database does not know. *)
Lemma store_again late st d gen xs n x : store_chain st d gen xs n -> xs !! n = Some x -> layer_storable afc x.2 ->
  exists st' d', StoreBlock_ late x.1 x.2 st = (Ok tt, st') /\ store_chain st' d' gen xs (S n) /\
    (forall q, kv d' !! q = patched (p_new afc (Uint32ToBytes (h_Height (b_Header x.1))) x.2) (fun q => kv d !! q) q).
Proof.
  intros Hs Hn Hls. destruct (sn_log _ _ _ _ _ Hs) as (c & l & Hc & Hl & Hf). pose proof (Forall2_length _ _ _ Hf) as Hlen.
  destruct (Forall2_lookup_l _ _ _ _ _ Hf Hn) as (e & He & Hx). destruct (ie_hash _ _ Hx) as (head & Hh & Ee). pose proof (lookup_lt_Some _ _ _ Hn) as Hlt.
  pose proof (sn_heights _ _ _ _ _ Hs n x Hn) as Hht. pose proof (sn_bound _ _ _ _ _ Hs) as Hb.
  assert (Ea : db_AppendData late (h_Height (b_Header x.1)) (Hash head) (en_datas e) c = (Err ErrInvalidAppendHeight, c)).
  { eapply db_AppendData_refused; [done| |lia]. destruct (entry_parts x e Hx) as (h & bd & rest & -> & _ & _ & _ & ->). destruct (Events x.2); [cbn; lia|]. destruct (encode_events _ _ _); cbn; lia. }
  destruct (StoreBlock_runs tfc afc efc cSignature cUint16 cUint8 late st d x.1 x.2 head (en_datas e) (sn_ok _ _ _ _ _ Hs) Hls (ie_parts _ _ Hx) Hh) as (d' & E & Hst & Hk & Hkv).
  { unfold log_accepts. rewrite Hc. exists c. by right. }
  unfold log_after in E. rewrite Hc, Ea in E. cbn [snd] in E. eexists _, d'. split; [exact E|]. split; [|apply Hkv; by rewrite Hc].
  apply (stored_chain st d d' gen c l); try done; [by right|by apply (sn_heights _ _ _ _ _ Hs)].
Qed.

(** *** The last block and the events *)

Lemma read_LastStatus st d gen xs n : store_chain st d gen xs n ->
  exists st', LastStatus st = (Ok (match n with
    | O => (0, gen, 0)
    | S i => match xs !! i with
             | Some x => (Z.of_nat n, match encode (b_Header x.1) with Ok head => Hash head | _ => [] end, h_Timestamp (b_Header x.1))
             | None => (0, [], 0)
             end
    end), st') /\ store_chain st' d gen xs n.
Proof.
  intros Hs. unfold LastStatus. erewrite bind_ok by (by eapply read_Height). destruct n as [|i].
  - destruct (read_genesis st d gen xs 0 Hs) as (st1 & E & Hs1). erewrite bind_ok by (apply attempt_ok; exact E). by exists st1.
  - destruct (lookup_lt_is_Some_2 xs i) as [x Hx]; [apply (sn_known _ _ _ _ _ Hs)|]. rewrite Hx. destruct (entry_at st d gen xs (S i) Hs i x Hx) as (_ & _ & e & _ & _ & _ & _ & He).
    destruct (ie_hash _ _ He) as (head & Hh & _). rewrite Hh. replace (Z.of_nat (S i)) with (Z.of_nat i + 1) by lia.
    destruct (read_Hash st d gen xs (S i) Hs i x head Hx Hh) as (st1 & E1 & Hs1). erewrite bind_ok by (apply attempt_ok; exact E1). cbv beta iota. rewrite (proj2 (Z.eqb_neq _ _)) by lia.
    destruct (read_Header st1 d gen xs (S i) Hs1 i x Hx) as (st2 & E2 & Hs2). exists st2. split; [|done]. unfold or_panic.
    erewrite bind_ok by (apply attempt_ok; erewrite bind_ok by exact E2; reflexivity). by rewrite (sn_heights _ _ _ _ _ Hs i x Hx).
Qed.

Lemma read_events st d gen xs n i x : store_chain st d gen xs n -> xs !! i = Some x ->
  exists st', events_at efc cUint16 (Z.of_nat i + 1) st = (Ok (Events x.2), st') /\ store_chain st' d gen xs n.
Proof.
  intros Hs Hi. destruct (entry_at st d gen xs n Hs i x Hi) as (c & l & e & Hc & Hl & Hf & He & Hx). unfold events_at. erewrite bind_ok by reflexivity. unfold id. rewrite Hc.
  destruct (holds_reads c gen l i e Hl He) as (_ & Hg & _). destruct (Hg 2%nat) as (c' & E & Hl'). change (Z.of_nat 2) with 2 in E.
  pose proof (entry_parts x e Hx) as (head & body & rest & Hd & _ & _ & _ & Hrest). rewrite Hd in E. exists (set_cdb st (Some c')). split; [|by eapply chain_set_cdb].
  pose proof (ie_parts _ _ Hx) as Hp. pose proof (ie_events _ _ Hx) as Hev. destruct (block_parts_ok tfc efc cSignature cUint16 cUint8 _ _ _ Hp) as (_ & _ & bs & _ & _ & Hbs).
  destruct (Events x.2) as [|ev evs] eqn:Ee; subst rest; cbn [lookup list_lookup] in E.
  - erewrite bind_ok by (apply attempt_err; by eapply on_cdb_runs). cbv beta iota. by rewrite (bool_decide_true (ErrInvalidDataIndex = ErrInvalidDataIndex)), orb_true_r by done.
  - rewrite Hbs in E by done. cbn [lookup list_lookup] in E. erewrite bind_ok by (apply attempt_ok; by eapply on_cdb_runs). unfold lift. by rewrite (decode_events_encode _ _ Hev (Hbs ltac:(done))).
Qed.

(** C26. The store over the block log keeps the chain: with the database knowing
    the first [n] blocks of the log, [Height] is [n], [LastStatus] is the height,
    the hash and the time of the last known block (those of the genesis when there
    is none), the header, the block, the hash and the events of every height of the
    log are those of the block of that height, the hash of height 0 is that of the
    genesis, and beyond the log there is no block.  Storing the next block, when the
    database knows all of the log and the block and its layer can be encoded and
    fit the files, succeeds: the log then has the block after the others, and in
    the database exactly the height and the entries of the layer have changed. *)
Theorem store_keeps_the_chain (st : Store Tx D) (d : D) (gen : Hash256) (xs : list Item) (n : nat) : store_chain st d gen xs n ->
  store_Height st = (Ok (Z.of_nat n), st) /\
  (exists st' last, LastStatus st = (Ok last, st') /\ store_chain st' d gen xs n /\
     (n = 0%nat -> last = (0, gen, 0)) /\
     (forall i x, n = S i -> xs !! i = Some x -> exists head, encode (b_Header x.1) = Ok head /\ last = (Z.of_nat n, Hash head, h_Timestamp (b_Header x.1)))) /\
  (exists st', store_Hash 0 st = (Ok gen, st') /\ store_chain st' d gen xs n) /\
  (forall i x, xs !! i = Some x -> let h := Z.of_nat i + 1 in
     (exists st', Block_ h st = (Ok x.1, st') /\ store_chain st' d gen xs n) /\
     (exists st', store_Header h st = (Ok (b_Header x.1), st') /\ store_chain st' d gen xs n) /\
     (exists st' head, encode (b_Header x.1) = Ok head /\ store_Hash h st = (Ok (Hash head), st') /\ store_chain st' d gen xs n) /\
     (exists st', events_at efc cUint16 h st = (Ok (Events x.2), st') /\ store_chain st' d gen xs n)) /\
  (forall h, Z.of_nat (length xs) < h < 2 ^ 32 -> exists st', Block_ h st = (Err ErrNotExistKey, st') /\ store_chain st' d gen xs n) /\
  (forall late x e, n = length xs -> length gen = 32%nat -> is_entry x e -> entry_ok e -> h_Height (b_Header x.1) = Z.of_nat n + 1 -> layer_storable afc x.2 ->
     Z.of_nat n + ChunkUnit < 2 ^ 32 -> (forall l, Forall2 is_entry xs l -> ChunkHeaderSize + sizes l + entry_size e < 2 ^ 63) ->
     exists st' d', StoreBlock_ late x.1 x.2 st = (Ok tt, st') /\ store_chain st' d' gen (xs ++ [x]) (S n) /\
       (forall q, kv d' !! q = patched (p_new afc (Uint32ToBytes (h_Height (b_Header x.1))) x.2) (fun q => kv d !! q) q)).
Proof.
  intros Hs. split_and!.
  - by eapply read_Height.
  - destruct (read_LastStatus st d gen xs n Hs) as (st' & E & Hs'). exists st'. eexists. split; [exact E|]. split; [exact Hs'|]. split; [by intros ->|].
    intros i x -> Hi. rewrite Hi. destruct (entry_at st d gen xs (S i) Hs i x Hi) as (_ & _ & e & _ & _ & _ & _ & He).
    destruct (ie_hash _ _ He) as (head & Hh & _). exists head. by rewrite Hh.
  - by apply read_genesis.
  - intros i x Hi. split_and!; [by apply read_Block|by apply read_Header| |by apply read_events].
    destruct (entry_at st d gen xs n Hs i x Hi) as (_ & _ & e & _ & _ & _ & _ & He). destruct (ie_hash _ _ He) as (head & Hh & _).
    destruct (read_Hash st d gen xs n Hs i x head Hi Hh) as (st' & E & Hs'). by exists st', head.
  - intros h Hh. by apply read_beyond.
  - intros late x e -> Hg Hx Hek Hht Hls Hb Hsz. by eapply store_next.
Qed.

(** The stores [NewStore] makes on the files of a database and a block log. *)
Lemma NewStore_chain d c gen l xs n cid name ver : (forall a v, kv d !! toAccountSeqKey a = Some v -> exists s, v = Uint64ToBytes s /\ 0 <= s < 2 ^ 64) ->
  db_holds c gen l -> Forall2 is_entry xs l -> (forall i x, xs !! i = Some x -> h_Height (b_Header x.1) = Z.of_nat i + 1) -> (n <= length xs)%nat ->
  Z.of_nat (length xs) + 1 < 2 ^ 32 -> kv d !! tagHeight = Some (Uint32ToBytes (Z.of_nat n)) -> store_chain (NewStore d (Some c) cid name ver) d gen xs n.
Proof. intros Hq Hl Hf Hh Hn Hb Hk. split; try done. by exists c, l. Qed.
End StoreChain.

(** *** Examples *)

#[local] Existing Instances gzip_plain sha256_prefix base58_plain arraylen_byte ex_txs ex_headers.

(** Accounts with a single key and events of one kind. *)
Definition unsupported {A} : res A := Err (mkError "msgpack" "unsupported").
Definition coder_partial {A B} (CA : Coder A) (f : B -> option A) (g : A -> B) (Hgf : forall b a, f b = Some a -> g a = b) : Coder B.
Proof.
  refine {| encode b := match f b with Some a => encode a | None => unsupported end; decode bs := let? (a, bs) := decode bs in Ok (g a, bs);
            codable b := match f b with Some a => codable a | None => False end |}.
  intros b bs rest Hb E. destruct (f b) as [a|] eqn:Ef; [|done]. rewrite (decode_encode _ _ _ Hb E). cbn. by rewrite (Hgf b a Ef).
Defined.
Definition coder_account : Coder Account := coder_partial (coder_pair coder_blob (coder_pair coder_blob coder_blob))
  (fun a => match a with ASingle a => Some (sa_Address a, (sa_Name a, sa_KeyHash a)) | _ => None end) (fun p => ASingle (mkSingle p.1 p.2.1 p.2.2))
  ltac:(intros [[]| |] ? [= <-]; done).
Definition coder_event : Coder Event := coder_partial (coder_pair coder_byte (coder_pair coder_byte (coder_pair coder_byte coder_blob)))
  (fun e => match ev_body e with RevokedEvent a => Some (ev_Height e, (ev_Index e, (ev_N e, a))) | _ => None end) (fun p => mkEvent p.1 p.2.1 p.2.2.1 (RevokedEvent p.2.2.2))
  ltac:(intros [? ? ? []] ? [= <-]; done).
Definition coder_out : Coder TxOut := coder_iso (coder_pair coder_byte coder_blob) (fun o => (out_Amount o, out_PublicHash o)) (fun p => mkTxOut p.1 p.2) ltac:(by intros []).
#[local] Instance ex_accounts : TypedValue Account := typed_by "Account" coder_account.
#[local] Instance ex_events : TypedValue Event := typed_by "Event" coder_event.
#[local] Instance ex_outs : Coder TxOut := coder_out.

Definition ex_acc_types : Factory := example_factory 2 "Account".
Definition ex_event_types : Factory := example_factory 3 "Event".
Abbreviation ex_store_block := (StoreBlock (D := gmap bytes bytes) ex_tx_types ex_acc_types ex_event_types coder_blob coder_byte coder_byte false).

Definition ex_owner : Address := replicate 13 0 ++ [1].
Definition ex_account : Account := ASingle (mkSingle ex_owner (str "example-account") (replicate 32 4)).
(** A layer with an account, its sequence, some of its data and an event. *)
Definition ex_layer : ContextData :=
  set_Events (set_AccountData_maps (set_Accounts (Context.set_SeqMap (NewContextData None) {[ex_owner := 6]}) {[ex_owner := ex_account]} ∅ {[str "example-account" := ex_owner]})
    {[ex_owner ++ [2; 9] := [77]]} ∅) [mkEvent 1 0 0 (RevokedEvent ex_owner)] 1.
Definition ex_item : Block Z * ContextData := (ex_block 1 [40; 41], ex_layer).

Definition ex_parts : list bytes := match block_parts ex_tx_types ex_event_types coder_blob coder_byte coder_byte ex_item.1 ex_item.2 with Ok ds => ds | _ => [] end.
Definition ex_head : bytes := match encode (b_Header ex_item.1) with Ok bs => bs | _ => [] end.
Definition ex_log_entry : Entry := mkEntry (Hash ex_head) ex_parts.

Lemma ex_layer_storable : layer_storable ex_acc_types ex_layer.
Proof.
  split; [by apply map_Forall_singleton| |apply map_Forall_empty|apply map_Forall_empty].
  apply map_Forall_singleton. exists 513. eexists. split_and!; [by vm_compute|done|done|by vm_compute|by vm_compute|done].
Qed.

Lemma ex_is_entry : is_entry ex_tx_types ex_event_types coder_blob coder_byte coder_byte ex_item ex_log_entry.
Proof.
  split; [by exists ex_head|by vm_compute|apply ex_block_codable|]. apply Forall_singleton. split; [done|]. exists 769. split_and!; by vm_compute.
Qed.

(** A new database over a new block log, with the genesis at height 0. *)
Definition ex_kv : gmap bytes bytes := {[tagHeight := Uint32ToBytes 0]}.

Lemma ex_no_seqs a v : (kv (D := gmap bytes bytes) ex_kv) !! toAccountSeqKey a = Some v -> exists s, v = Uint64ToBytes s /\ 0 <= s < 2 ^ 64.
Proof. intros Hv. change (ex_kv !! toAccountSeqKey a = Some v) in Hv. unfold ex_kv in Hv. apply lookup_singleton_Some in Hv as [E _]. key_eq E. Qed.

Lemma ex_log_entry_ok : entry_ok ex_log_entry.
Proof. split; [by vm_compute|by vm_compute; lia|by repeat constructor]. Qed.

Lemma ex_log : exists c, db_holds c ex_gen [ex_log_entry].
Proof.
  destruct (db_Init_ok ex_db0 ex_gen) as (c & _ & Hc); [done|done|].
  destruct (db_AppendData_ok c ex_gen [] ex_log_entry false Hc) as (c' & _ & Hc'); [done|apply ex_log_entry_ok|done|done|by exists c'].
Qed.

(** A database that knows nothing of the block of its log; and the block stored over
    an empty log. *)
Lemma store_keeps_the_chain_witness : exists c c0,
  store_Height (NewStore (Tx := Z) ex_kv (Some c) 1 (str "example") 1) = (Ok 0, NewStore ex_kv (Some c) 1 (str "example") 1) /\
  (exists st', LastStatus (NewStore (Tx := Z) ex_kv (Some c) 1 (str "example") 1) = (Ok (0, ex_gen, 0), st')) /\
  (exists st', store_Block ex_tx_types coder_blob coder_byte coder_byte 1 (NewStore ex_kv (Some c) 1 (str "example") 1) = (Ok ex_item.1, st')) /\
  exists st' d', ex_store_block ex_item.1 ex_layer (NewStore ex_kv (Some c0) 1 (str "example") 1) = (Ok tt, st') /\
    store_chain ex_tx_types ex_event_types coder_blob coder_byte coder_byte st' d' ex_gen [ex_item] 1.
Proof.
  destruct ex_log as (c & Hc). destruct (db_Init_ok ex_db0 ex_gen) as (c0 & _ & Hc0); [done|done|]. exists c, c0.
  assert (Hs : store_chain ex_tx_types ex_event_types coder_blob coder_byte coder_byte (NewStore ex_kv (Some c) 1 (str "example") 1) ex_kv ex_gen [ex_item] 0).
  { eapply NewStore_chain; [apply ex_no_seqs|exact Hc|constructor; [apply ex_is_entry|constructor]| |cbn; lia|done|by apply lookup_singleton_eq]. intros [|i] x Hx; [|done]. by injection Hx as <-. }
  assert (Hs0 : store_chain ex_tx_types ex_event_types coder_blob coder_byte coder_byte (NewStore (Tx := Z) ex_kv (Some c0) 1 (str "example") 1) ex_kv ex_gen [] 0).
  { eapply NewStore_chain; [apply ex_no_seqs|exact Hc0|constructor|done|done|done|by apply lookup_singleton_eq]. }
  destruct (store_keeps_the_chain ex_tx_types ex_acc_types ex_event_types coder_blob coder_byte coder_byte _ _ _ _ _ Hs) as (Hh & (sl & last & El & _ & Hl & _) & _ & Hr & _).
  destruct (store_keeps_the_chain ex_tx_types ex_acc_types ex_event_types coder_blob coder_byte coder_byte _ _ _ _ _ Hs0) as (_ & _ & _ & _ & _ & Hn).
  split; [exact Hh|]. split; [exists sl; rewrite <- (Hl eq_refl); exact El|]. destruct (Hr 0%nat ex_item eq_refl) as ((st' & E & _) & _). split; [by exists st'|].
  destruct (Hn false ex_item ex_log_entry eq_refl eq_refl ex_is_entry ex_log_entry_ok eq_refl ex_layer_storable eq_refl) as (st2 & d2 & E2 & Hs2 & _).
  - intros l Hl0. apply Forall2_nil_inv_l in Hl0 as ->. by vm_compute.
  - exists st2, d2. exact (conj E2 Hs2).
Defined.

Lemma store_answers_as_the_context_witness : exists st' d',
  ex_store_block ex_item.1 ex_layer (NewStore ex_kv None 1 (str "example") 1) = (Ok tt, st') /\ store_ok st' d' /\
  f_acc (loader_frame (store_loader ex_acc_types st')) ex_owner = Ok ex_account.
Proof.
  destruct (store_answers_as_the_context ex_tx_types ex_acc_types ex_event_types coder_blob coder_byte coder_byte false (NewStore ex_kv None 1 (str "example") 1) ex_kv ex_item.1 ex_layer ex_head ex_parts)
    as (st' & d' & E & Hok & Hacc & _).
  - split; [done|done|apply ex_no_seqs|done].
  - apply ex_layer_storable.
  - by vm_compute.
  - by vm_compute.
  - exact I.
  - exists st', d'. split; [exact E|]. split; [exact Hok|]. rewrite Hacc. by vm_compute.
Defined.
