(* ===== verification/Recovery.v ===== *)
(** * Recovery after a crash

    [StoreBlock] of [core/chain/store.go] writes a block to the block log and then its
    layer to the database.  A crash between the two leaves a log with one block more
    than the database knows.  When the node starts, [cmd/node/main.go] gives the blocks
    the database does not know to [ConnectBlock], which executes them again on the old
    state.  The block was connected once: it is connected again, with the same layer,
    whatever the scheduler does this time. *)

From stdpp Require Import base gmap list sorting strings.
From Stdlib Require Import ZArith Lia FunctionalExtensionality.
From S2P Require Import Prelude Amount Common LevelRoot Types Context ContextSpec Factory OrderedMap Chain SignatureSpec BlockCodec Pile PileDB StoreKey Store StoreSpec StoreBlock StoreChain.

(** ** Connecting a block to a store *)

Section Recovery.
Context {Proc Tx D : Type} `{!ProcessI Proc Tx, !TransactionI Proc Tx} `{!TxEncoder Tx} `{Ecrecover} `{BL : BackendLaws D}.
Context `{GZ : Gzip} `{Sha256} `{Base58} `{!ArrayLenCoder} `{!TypedValue Tx} `{!TypedValue Account} `{!TypedValue Event}.
Context `{!Marshaler (gmap Address Z), !Marshaler (gmap Address Account), !Marshaler (gmap bytes bytes),
  !Marshaler (gmap Z UTXO), !Marshaler (gmap Z TxOut), !Marshaler Event}.
Context (tfc afc efc : Factory) `{!Coder Header} `{!Coder TxOut} (cSignature : Coder Signature) (cUint16 cUint8 : Coder Z).

Abbreviation Item := (Block Tx * ContextData)%type.
Abbreviation is_entry_ := (is_entry (Tx := Tx) tfc efc cSignature cUint16 cUint8).
Abbreviation chain_ := (store_chain (Tx := Tx) (D := D) tfc efc cSignature cUint16 cUint8).
Abbreviation StoreBlock_ := (StoreBlock (Tx := Tx) (D := D) tfc afc efc cSignature cUint16 cUint8).
Abbreviation provider_ := (store_provider (Tx := Tx) (D := D) afc).

(** The chain over a store as it is now. *)
Definition with_store (cn : Chain Proc Tx) (pv : Provider) : Chain Proc Tx :=
  mkChain (cn_isInit cn) pv (cn_consensus cn) (cn_app cn) (cn_processes cn) (cn_processIDMap cn) (cn_processIndexMap cn)
    (cn_services cn) (cn_serviceMap cn) (cn_isClose cn).

(** [cn.ConnectBlock(b)] with its [cn.store.StoreBlock(b, top)] on the store. *)
Definition connect_to_store (NumCPU : nat) (turns : list nat) (late : bool) (cn : Chain Proc Tx) (b : Block Tx) : storeM (Tx := Tx) (D := D) unit :=
  let! st := gets id in
  let! top := lift (ConnectBlock (fun _ _ => Ok tt) NumCPU turns (with_store cn (provider_ st)) b) in
  StoreBlock_ late b top.

(** The function [main] gives to [IterBlockAfterContext]. *)
Definition connect_missing (IsClosed : bool) (NumCPU : nat) (turns : list nat) (late : bool) (cn : Chain Proc Tx) (b : Block Tx) : storeM (Tx := Tx) (D := D) unit :=
  if IsClosed then fail ErrStoreClosed else connect_to_store NumCPU turns late cn b.

(** ** What a block needs of the store *)

Section Same.
Context (cn : Chain Proc Tx) (pv pv' : Provider).

Lemma execute_txs_store {S} `{!ContextOps S} b signers txs : forall i,
  execute_txs (S := S) (with_store cn pv) b signers i txs = execute_txs (with_store cn pv') b signers i txs.
Proof.
  induction txs as [|tx txs IH]; intros i; [done|]. cbn [execute_txs]. destruct (signers !! i) as [sg|]; [|done].
  destruct (b_TransactionTypes b !! i) as [t|]; [|done]. unfold bind. apply functional_extensionality. intros s.
  change (execute_tx (with_store cn pv) (h_Generator (b_Header b)) i t tx sg (b_TransactionResults b !! i) s)
    with (execute_tx (with_store cn pv') (h_Generator (b_Header b)) i t tx sg (b_TransactionResults b !! i) s).
  destruct (execute_tx (with_store cn pv') _ i t tx sg _ s) as [[[]|e|w] s']; [by rewrite IH|done..].
Qed.

Lemma executeBlock_store {S} `{!ContextOps S} b signers : executeBlock (S := S) (with_store cn pv) b signers = executeBlock (with_store cn pv') b signers.
Proof. unfold executeBlock. by rewrite execute_txs_store. Qed.

(** The header needs the last status, and the last header after the first block. *)
Lemma validateHeader_same bh : pv_ChainID pv = pv_ChainID pv' -> pv_Version pv = pv_Version pv' -> pv_LastStatus pv = pv_LastStatus pv' ->
  (h_Height bh = 1 \/ pv_Header pv (pv_LastStatus pv).1.1 = pv_Header pv' (pv_LastStatus pv').1.1) ->
  validateHeader pv bh = validateHeader pv' bh.
Proof.
  intros Hc Hv Hl Hh. unfold validateHeader. rewrite Hc, Hv, Hl. rewrite Hl in Hh. destruct (pv_LastStatus pv') as [[height hash] time]. cbn in Hh.
  destruct Hh as [->| ->]; [|done]. by rewrite Z.eqb_refl.
Qed.

(** A block that connects, connects again on a store that answers alike, in any order
    of the goroutines. *)
Lemma ConnectBlock_again NumCPU NumCPU' turns turns' b top : (0 < NumCPU <= 16)%nat -> (0 < NumCPU' <= 16)%nat ->
  pv_ChainID pv = pv_ChainID pv' -> pv_Loader pv = pv_Loader pv' -> validateHeader pv (b_Header b) = validateHeader pv' (b_Header b) ->
  ConnectBlock (fun _ _ => Ok tt) NumCPU turns (with_store cn pv) b = Ok top -> ConnectBlock (fun _ _ => Ok tt) NumCPU' turns' (with_store cn pv') b = Ok top.
Proof.
  intros Hn Hn' Hc Hld Hvh. unfold ConnectBlock. cbn [with_store cn_isClose cn_store cn_consensus]. rewrite Hvh, Hld.
  destruct (cn_isClose cn); [done|]. destruct (validateHeader pv' (b_Header b)); cbn [res_bind]; [|done..].
  destruct (cs_ValidateSignature _ _ _); cbn [res_bind]; [|done..]. set (ctx := NewContext (pv_Loader pv')). unfold executeBlockOnContext, bind, lift.
  destruct (validateTransactionSignatures NumCPU turns (with_store cn pv) b) as [signers|e|w] eqn:Es; [|done..].
  apply (parallel_signers NumCPU turns _ b signers Hn) in Es.
  assert (Es' : validateTransactionSignatures_sequential (with_store cn pv') b = Ok signers).
  { revert Es. unfold validateTransactionSignatures_sequential. cbn [with_store cn_store]. by rewrite Hc. }
  apply (parallel_signers NumCPU' turns' _ b signers Hn') in Es'. rewrite Es', (executeBlock_store b signers). done.
Qed.
End Same.

(** ** Two stores on the same contents *)

Section Stores.
Context (st st' : Store Tx D) (d d' : D) (gen : Hash256) (xs ys : list Item) (n : nat).
Context (Hs : chain_ st d gen xs n) (Hs' : chain_ st' d' gen ys n) (Hkv : kv d = kv d') (Hxy : take n xs = take n ys).
Context (Hid : st_chainID st = st_chainID st') (Hname : st_name st = st_name st') (Hver : st_version st = st_version st').

Lemma known_item i : (i < n)%nat -> xs !! i = ys !! i.
Proof. intros Hi. rewrite <- (lookup_take_lt xs n i Hi), <- (lookup_take_lt ys n i Hi). by rewrite Hxy. Qed.

Lemma same_LastStatus : (LastStatus st).1 = (LastStatus st').1.
Proof.
  destruct (read_LastStatus _ _ _ _ _ st d gen xs n Hs) as (s1 & -> & _). destruct (read_LastStatus _ _ _ _ _ st' d' gen ys n Hs') as (s2 & -> & _). cbn [fst].
  pose proof known_item as Hk. destruct n as [|i]; [done|]. by rewrite Hk by lia.
Qed.

Lemma same_Header : n <> 0%nat -> (store_Header (Z.of_nat n) st).1 = (store_Header (Z.of_nat n) st').1.
Proof.
  intros Hn. pose proof known_item as Hk. destruct n as [|i]; [done|]. destruct (lookup_lt_is_Some_2 xs i) as [x Hx]; [pose proof (sn_known _ _ _ _ _ _ _ _ _ _ Hs); lia|].
  assert (Hy : ys !! i = Some x) by (by rewrite <- Hk by lia). replace (Z.of_nat (S i)) with (Z.of_nat i + 1) by lia.
  destruct (read_Header _ _ _ _ _ st d gen xs (S i) Hs i x Hx) as (s1 & -> & _). by destruct (read_Header _ _ _ _ _ st' d' gen ys (S i) Hs' i x Hy) as (s2 & -> & _).
Qed.

Lemma same_Hash : (store_Hash (Z.of_nat n) st).1 = (store_Hash (Z.of_nat n) st').1.
Proof.
  pose proof known_item as Hk. destruct n as [|i].
  - destruct (read_genesis _ _ _ _ _ st d gen xs 0 Hs) as (s1 & E1 & _). destruct (read_genesis _ _ _ _ _ st' d' gen ys 0 Hs') as (s2 & E2 & _).
    change (Z.of_nat 0) with 0. by rewrite E1, E2.
  - destruct (lookup_lt_is_Some_2 xs i) as [x Hx]; [pose proof (sn_known _ _ _ _ _ _ _ _ _ _ Hs); lia|].
    assert (Hy : ys !! i = Some x) by (by rewrite <- Hk by lia). replace (Z.of_nat (S i)) with (Z.of_nat i + 1) by lia.
    destruct (entry_at _ _ _ _ _ st d gen xs (S i) Hs i x Hx) as (_ & _ & e & _ & _ & _ & _ & He). destruct (ie_hash _ _ _ _ _ _ _ He) as (head & Hh & _).
    destruct (read_Hash _ _ _ _ _ st d gen xs (S i) Hs i x head Hx Hh) as (s1 & -> & _). by destruct (read_Hash _ _ _ _ _ st' d' gen ys (S i) Hs' i x head Hy Hh) as (s2 & -> & _).
Qed.

Lemma or_panic_same {A} (a : A) (m : storeM (Tx := Tx) (D := D) A) : (m st).1 = (m st').1 -> (or_panic a m st).1 = (or_panic a m st').1.
Proof.
  intros E. unfold or_panic, attempt, bind. destruct (m st) as [r s1], (m st') as [r' s2]. cbn in E. subst r'. destruct r as [x|e|w]; [done| |done]. by destruct (bool_decide _).
Qed.

Lemma Height_here : store_Height st = (Ok (Z.of_nat n), st).
Proof. exact (read_Height _ _ _ _ _ st d gen xs n Hs). Qed.
Lemma Height_there : store_Height st' = (Ok (Z.of_nat n), st').
Proof. exact (read_Height _ _ _ _ _ st' d' gen ys n Hs'). Qed.

Lemma same_LastHash : (store_LastHash st).1 = (store_LastHash st').1.
Proof.
  unfold store_LastHash. rewrite (bind_ok _ _ _ _ _ Height_here), (bind_ok _ _ _ _ _ Height_there).
  apply or_panic_same, same_Hash.
Qed.

Lemma same_LastTimestamp : (store_LastTimestamp st).1 = (store_LastTimestamp st').1.
Proof.
  unfold store_LastTimestamp. rewrite (bind_ok _ _ _ _ _ Height_here), (bind_ok _ _ _ _ _ Height_there).
  destruct (Z.eqb_spec (Z.of_nat n) 0) as [|Hn]; [done|]. rewrite (bind_ok _ _ _ _ _ Height_here), (bind_ok _ _ _ _ _ Height_there).
  apply or_panic_same. pose proof (same_Header ltac:(lia)) as E. unfold bind. destruct (store_Header _ st) as [r s1], (store_Header _ st') as [r' s2]. cbn in E. subst r'. by destruct r.
Qed.

(** A read that looks at the entries of the database only. *)
Lemma View_same {A} (dflt : res A) (fn : D -> res A) : fn d = fn d' -> (or_missing dflt (View fn) st).1 = (or_missing dflt (View fn) st').1.
Proof. intros E. rewrite (or_missing_View st d (sn_ok _ _ _ _ _ _ _ _ _ _ Hs)), (or_missing_View st' d' (sn_ok _ _ _ _ _ _ _ _ _ _ Hs')). by rewrite E. Qed.

Lemma same_Get k : kv_Get d k = kv_Get d' k.
Proof. by rewrite !kv_Get_spec, Hkv. Qed.
Lemma same_live addr : get_live d addr = get_live d' addr.
Proof. unfold get_live. by rewrite same_Get. Qed.
Lemma same_named name : get_named d name = get_named d' name.
Proof. unfold get_named. rewrite same_Get. destruct (kv_Get d' _); cbn [res_bind]; [|done..]. by rewrite same_live. Qed.

Lemma same_loader : store_loader afc st = store_loader afc st'.
Proof.
  pose proof (sn_ok _ _ _ _ _ _ _ _ _ _ Hs) as Hok. pose proof (sn_ok _ _ _ _ _ _ _ _ _ _ Hs') as Hok'.
  unfold store_loader. rewrite Hid, Hname, Hver. f_equal.
  - unfold run, store_TargetHeight. by rewrite (bind_ok _ _ _ _ _ Height_here), (bind_ok _ _ _ _ _ Height_there).
  - unfold run. by rewrite same_LastHash.
  - unfold run. by rewrite same_LastTimestamp.
  - apply functional_extensionality. intros a. unfold run. destruct (store_Seq_spec st d Hok a) as (s1 & -> & _). destruct (store_Seq_spec st' d' Hok' a) as (s2 & -> & _). cbn. by rewrite Hkv.
  - apply functional_extensionality. intros a. unfold store_Account. rewrite (open_runs st d Hok), (open_runs st' d' Hok'). apply View_same. by rewrite same_live.
  - apply functional_extensionality. intros a. unfold store_AddressByName. rewrite (open_runs st d Hok), (open_runs st' d' Hok'). apply View_same, same_named.
  - apply functional_extensionality. intros a. unfold store_HasAccount. rewrite (open_runs st d Hok), (open_runs st' d' Hok'). apply View_same. by rewrite same_live.
  - apply functional_extensionality. intros a. unfold store_HasAccountName. rewrite (open_runs st d Hok), (open_runs st' d' Hok').
    unfold attempt at 1 2, bind, lift. destruct (ParseAddress a); [done| |done]. apply View_same. by rewrite same_named.
  - apply functional_extensionality. intros k. unfold run, store_AccountData. by rewrite (store_data_spec st d Hok), (store_data_spec st' d' Hok'), Hkv.
  - apply functional_extensionality. intros k. unfold store_HasUTXO. rewrite (open_runs st d Hok), (open_runs st' d' Hok'). apply View_same. by rewrite same_Get.
  - apply functional_extensionality. intros k. unfold store_UTXO. rewrite (open_runs st d Hok), (open_runs st' d' Hok'). apply View_same. by rewrite same_Get.
  - apply functional_extensionality. intros k. unfold run, store_ProcessData. by rewrite (store_data_spec st d Hok), (store_data_spec st' d' Hok'), Hkv.
Qed.

(** The next block connects to one exactly as to the other. *)
Lemma connects_to_both (cn : Chain Proc Tx) NumCPU NumCPU' turns turns' b top : (0 < NumCPU <= 16)%nat -> (0 < NumCPU' <= 16)%nat -> h_Height (b_Header b) = Z.of_nat n + 1 ->
  ConnectBlock (fun _ _ => Ok tt) NumCPU turns (with_store cn (provider_ st)) b = Ok top ->
  ConnectBlock (fun _ _ => Ok tt) NumCPU' turns' (with_store cn (provider_ st')) b = Ok top.
Proof.
  intros Hn Hn' Hh. apply ConnectBlock_again; [done|done|done|apply same_loader|].
  assert (El : run (0, EmptyHash, 0) LastStatus st = run (0, EmptyHash, 0) LastStatus st') by (unfold run; by rewrite same_LastStatus).
  apply validateHeader_same; cbn [store_provider pv_ChainID pv_Version pv_LastStatus pv_Header]; [done|done|done|].
  rewrite <- El. destruct (decide (n = 0%nat)) as [E0|E0]; [left; lia|right].
  assert (Eh : (run (0, EmptyHash, 0) LastStatus st).1.1 = Z.of_nat n); [|rewrite Eh; by apply same_Header].
  unfold run. destruct (read_LastStatus _ _ _ _ _ st d gen xs n Hs) as (s1 & -> & _). cbn [fst].
  pose proof (sn_known _ _ _ _ _ _ _ _ _ _ Hs) as Hk. destruct n as [|i]; [done|]. by destruct (lookup_lt_is_Some_2 xs i ltac:(lia)) as [x ->].
Qed.
End Stores.

(** ** The missing block *)

(** Reading a block moves the files of the log and nothing else. *)
Lemma Block_keeps h (st st1 : Store Tx D) r : store_Block tfc cSignature cUint16 cUint8 h st = (r, st1) ->
  st_chainID st1 = st_chainID st /\ st_name st1 = st_name st /\ st_version st1 = st_version st.
Proof.
  unfold store_Block, if_open, bind, gets, id. destruct (st_isClose st); [by intros [= _ <-]|]. destruct (h <? 1); [by intros [= _ <-]|].
  destruct (cached_at st h); [destruct (sc_heightBlock _); by intros [= _ <-]|]. destruct (st_cdb st) as [c|] eqn:Ec.
  - unfold not_exist, attempt, bind, on_cdb. rewrite Ec. destruct (db_GetDatas h 0 2 c) as [[v|e|w] c']; cbn; [by intros [= _ <-]| |by intros [= _ <-]].
    destruct (bool_decide _); by intros [= _ <-].
  - unfold View. destruct (st_db st); by intros [= _ <-].
Qed.

(** The log has one block more than the database: it is connected again. *)
Lemma missing_block (cn : Chain Proc Tx) (st st0 : Store Tx D) (d d0 : D) gen xs x NumCPU NumCPU' turns turns' late fuel :
  chain_ st d gen xs (length xs) -> chain_ st0 d0 gen (xs ++ [x]) (length xs) -> kv d = kv d0 ->
  st_chainID st = st_chainID st0 -> st_name st = st_name st0 -> st_version st = st_version st0 ->
  (0 < NumCPU <= 16)%nat -> (0 < NumCPU' <= 16)%nat -> (2 <= fuel)%nat -> layer_storable afc x.2 ->
  ConnectBlock (fun _ _ => Ok tt) NumCPU turns (with_store cn (provider_ st)) x.1 = Ok x.2 ->
  exists st' d', IterBlockAfterContext tfc cSignature cUint16 cUint8 fuel (connect_missing false NumCPU' turns' late cn) st0 = (Ok tt, st') /\
    chain_ st' d' gen (xs ++ [x]) (S (length xs)) /\
    (forall q, kv d' !! q = patched (p_new afc (Uint32ToBytes (h_Height (b_Header x.1))) x.2) (fun q => kv d0 !! q) q).
Proof.
  intros Hs Hs0 Hkv Hid Hname Hver Hn Hn' Hfuel Hls Hcb. assert (Hx : (xs ++ [x]) !! length xs = Some x) by (by apply list_lookup_middle).
  pose proof (sn_bound _ _ _ _ _ _ _ _ _ _ Hs0) as Hb. rewrite length_app in Hb. cbn in Hb. pose proof (sn_heights _ _ _ _ _ _ _ _ _ _ Hs0 _ _ Hx) as Hh.
  destruct fuel as [|[|fuel]]; [lia..|]. unfold IterBlockAfterContext. rewrite (bind_ok _ _ _ _ _ (read_Height _ _ _ _ _ st0 d0 gen _ _ Hs0)), u32_id by lia. cbn [iter_blocks].
  destruct (read_Block _ _ _ _ _ st0 d0 gen _ _ Hs0 (length xs) x Hx) as (st1 & E1 & Hs1). destruct (Block_keeps _ _ _ _ E1) as (Hi1 & Hm1 & Hv1).
  erewrite bind_ok by (apply attempt_ok; exact E1). cbv beta iota.
  destruct (store_again _ afc _ _ _ _ late st1 d0 gen (xs ++ [x]) (length xs) x Hs1 Hx Hls) as (st2 & d2 & E2 & Hs2 & Hp2).
  assert (Ec : connect_missing false NumCPU' turns' late cn x.1 st1 = (Ok tt, st2)).
  { unfold connect_missing, connect_to_store. erewrite bind_ok by reflexivity. unfold id. erewrite bind_ok; [exact E2|]. unfold lift. f_equal.
    eapply (connects_to_both st st1 d d0 gen xs (xs ++ [x]) (length xs)); [exact Hs|exact Hs1|exact Hkv| |congruence..|exact Hn|exact Hn'|exact Hh|exact Hcb].
    by rewrite take_app_length, firstn_all. }
  erewrite bind_ok by exact Ec. rewrite u32_id by lia. destruct (read_beyond _ _ _ _ _ st2 d2 gen (xs ++ [x]) (S (length xs)) Hs2 (Z.of_nat (length xs) + 1 + 1)) as (st3 & E3 & Hs3).
  { rewrite length_app. cbn. lia. }
  exists st3, d2. erewrite bind_ok by (apply attempt_err; exact E3). cbv beta iota. by rewrite bool_decide_true.
Qed.

(** C27. A crash between the two writes of [StoreBlock] is repaired when the node
    starts again.  Let the store hold the chain [xs], and let the next block connect
    to it with the layer [x.2], which can be encoded and fits the files; [ConnectBlock]
    then stores it, in the log and in the database [d1].  Let the node stop after the
    write to the log: it starts with the old database [d] and a log of [xs] and the
    block.  [IterBlockAfterContext] with the function of [main] reads the block from
    the log, executes it again by [ConnectBlock] on the old state and stores it,
    whatever the order of the goroutines and the number of processors (up to 16) this
    time, and ends; the store then has the same chain, and the database the same
    contents as [d1].  The processes, the consensus and its rank table are those of
    the first time. *)
Theorem crash_recovery (cn : Chain Proc Tx) (st : Store Tx D) (d : D) (gen : Hash256) (xs : list Item) (x : Item) (e : Entry)
    (NumCPU : nat) (turns : list nat) (late : bool) :
  chain_ st d gen xs (length xs) -> length gen = 32%nat -> is_entry_ x e -> entry_ok e ->
  h_Height (b_Header x.1) = Z.of_nat (length xs) + 1 -> layer_storable afc x.2 -> Z.of_nat (length xs) + ChunkUnit < 2 ^ 32 ->
  (forall l, Forall2 is_entry_ xs l -> ChunkHeaderSize + sizes l + entry_size e < 2 ^ 63) -> (0 < NumCPU <= 16)%nat ->
  ConnectBlock (fun _ _ => Ok tt) NumCPU turns (with_store cn (provider_ st)) x.1 = Ok x.2 ->
  exists st1 d1, connect_to_store NumCPU turns late cn x.1 st = (Ok tt, st1) /\ chain_ st1 d1 gen (xs ++ [x]) (S (length xs)) /\
    forall c l NumCPU' turns' late' fuel, db_holds c gen l -> Forall2 is_entry_ (xs ++ [x]) l -> (0 < NumCPU' <= 16)%nat -> (2 <= fuel)%nat ->
      exists st' d', IterBlockAfterContext tfc cSignature cUint16 cUint8 fuel (connect_missing false NumCPU' turns' late' cn)
          (NewStore d (Some c) (st_chainID st) (st_name st) (st_version st)) = (Ok tt, st') /\
        chain_ st' d' gen (xs ++ [x]) (S (length xs)) /\ kv d' = kv d1.
Proof.
  intros Hs Hg Hx Hek Hh Hls Hb Hsz Hn Hcb.
  destruct (store_next _ afc _ _ _ _ late st d gen xs x e Hs Hg Hx Hek Hh Hls Hb Hsz) as (st1 & d1 & E1 & Hs1 & Hp1).
  exists st1, d1. split; [|split; [done|]].
  { unfold connect_to_store. erewrite bind_ok by reflexivity. unfold id. erewrite bind_ok; [exact E1|]. unfold lift. by rewrite Hcb. }
  intros c l NumCPU' turns' late' fuel Hc Hf Hn' Hfuel.
  assert (Hs0 : chain_ (NewStore d (Some c) (st_chainID st) (st_name st) (st_version st)) d gen (xs ++ [x]) (length xs)).
  { eapply NewStore_chain; [apply (so_seqs _ _ (sn_ok _ _ _ _ _ _ _ _ _ _ Hs))|done|done| | | |apply (sn_height _ _ _ _ _ _ _ _ _ _ Hs)].
    - apply (sn_heights _ _ _ _ _ _ _ _ _ _ Hs1).
    - rewrite length_app. lia.
    - apply (sn_bound _ _ _ _ _ _ _ _ _ _ Hs1). }
  destruct (missing_block cn st _ d d gen xs x NumCPU NumCPU' turns turns' late' fuel Hs Hs0) as (st' & d' & E & Hs' & Hp'); try done.
  exists st', d'. split; [exact E|]. split; [exact Hs'|]. apply map_eq. intros q. by rewrite Hp', Hp1.
Qed.
End Recovery.

(** ** Examples *)

#[local] Existing Instances gzip_plain sha256_prefix base58_plain arraylen_byte ex_txs ex_headers ex_accounts ex_events ex_outs recover_plain.

(** A process is its number; it counts the blocks, and keeps the transactions. *)
Definition note {S} `{!ContextOps S} (pid : Z) (key : bytes) (v : Z) : ST S unit :=
  let! old := op_ProcessData pid key in op_SetProcessData pid key (old ++ [v]).
#[local] Instance ex_processes : ProcessI Z Z := {|
  p_ID p := p;
  p_Name p := [p];
  p_BeforeExecuteTransactions _ _ p _ := note p (str "blocks") 1;
  p_AfterExecuteTransactions _ _ p _ _ := ret tt;
  p_OnSaveData _ _ p _ _ := note p (str "saved") 2
|}.
(** Transaction 41 is the first of the owner's account. *)
#[local] Instance ex_transactions : TransactionI Z Z := {|
  tx_Validate _ _ _ _ _ _ := ret tt;
  tx_Execute _ _ tx p _ i := note p (str "transactions") tx;
  tx_account tx := if tx =? 41 then Some (1, ex_owner) else None
|}.
#[local] Instance ex_tx_bytes : TxEncoder Z := {| enc_uint8 n := [n]; enc_uint16 n := be_bytes 2 n; enc_tx n := [n] |}.
#[local] Instance ex_data_bytes : Marshaler (gmap bytes bytes) := fun m => concat ((fun p => p.1 ++ p.2) <$> map_to_list m).
#[local] Instance ex_no_bytes A : Marshaler A | 10 := fun _ => [].

Definition ex_consensus : Consensus Z := mkConsensus Z (fun _ sigs => if bool_decide (sigs = [[8]]) then Ok tt else Err ErrInvalidGenerator) (fun _ _ _ _ => ret tt).
Definition ex_node : Chain Z Z := mkChain true (store_provider (Tx := Z) ex_acc_types (NewStore ∅ None 1 [] 1)) ex_consensus 255 [7] {[ [7] := 7 ]} {[ 7 := 0%nat ]} [] ∅ false.

(** A database with the owner's account, over a new log. *)
Definition ex_state : gmap bytes bytes := {[tagHeight := Uint32ToBytes 0; toAccountKey ex_owner := acc_bytes ex_acc_types ex_account]}.
Definition ex_next (root ctxHash : Hash256) : Block Z :=
  mkBlock (mkHeader 1 1 1 ex_gen root ctxHash 10 ex_owner []) [1793; 1793] [40; 41] [[[5; 6]]; [[5; 6]]] [1; 1] [[8]].
Definition ex_db : DB := (db_Init ex_gen ex_db0).2.
Definition ex_start : Store Z (gmap bytes bytes) := NewStore ex_state (Some ex_db) 1 (str "example") 1.
Definition ex_connected : Chain Z Z := with_store ex_node (store_provider ex_acc_types ex_start).
Definition ex_root : Hash256 :=
  match BuildLevelRoot [ex_gen; HashTransactionByType 1 1793 40; HashTransactionByType 1 1793 41] with Ok h => h | _ => [] end.
Definition ex_ctx_hash : Hash256 :=
  match ((executeBlockOnContext 4 [] ex_connected (ex_next ex_root []) ;;; ctx_Hash) (NewContext (pv_Loader (cn_store ex_connected)))).1 with Ok h => h | _ => [] end.
Definition ex_top : ContextData :=
  match ConnectBlock (fun _ _ => Ok tt) 4 [] ex_connected (ex_next ex_root ex_ctx_hash) with Ok top => top | _ => NewContextData None end.
Definition ex_new : Block Z * ContextData := (ex_next ex_root ex_ctx_hash, ex_top).
Definition ex_new_entry : Entry := mkEntry
  (match encode (b_Header ex_new.1) with Ok bs => Hash bs | _ => [] end)
  (match block_parts ex_tx_types ex_event_types coder_blob coder_byte coder_byte ex_new.1 ex_new.2 with Ok ds => ds | _ => [] end).

Lemma ex_db_holds : db_holds ex_db ex_gen [].
Proof. destruct (db_Init_ok ex_db0 ex_gen) as (c & E & Hc); [done|done|]. unfold ex_db. by rewrite E. Qed.

Lemma ex_state_seqs a v : (kv (D := gmap bytes bytes) ex_state) !! toAccountSeqKey a = Some v -> exists s, v = Uint64ToBytes s /\ 0 <= s < 2 ^ 64.
Proof.
  intros Hv. change (ex_state !! toAccountSeqKey a = Some v) in Hv. unfold ex_state in Hv.
  apply lookup_insert_Some in Hv as [[E _]|[_ Hv]]; [key_eq E|]. apply lookup_singleton_Some in Hv as [E _]. key_eq E.
Qed.

Lemma ex_new_connects : ConnectBlock (fun _ _ => Ok tt) 4 [] ex_connected ex_new.1 = Ok ex_new.2.
Proof. vm_compute. reflexivity. Qed.

Lemma ex_new_is_entry : is_entry ex_tx_types ex_event_types coder_blob coder_byte coder_byte ex_new ex_new_entry.
Proof.
  split; [eexists; split; [by vm_compute|by vm_compute]|by vm_compute| |]; cycle 1.
  - replace (Events ex_new.2) with (@nil Event) by (by vm_compute). constructor.
  - split; [done|]. split; [|by repeat constructor]. unfold block_entries. cbn [ex_new ex_next fst b_TransactionTypes b_Transactions b_TransactionSignatures b_TransactionResults zip_with].
    repeat constructor; done.
Qed.

Lemma ex_new_storable : layer_storable ex_acc_types ex_new.2.
Proof.
  split.
  - replace (SeqMap ex_new.2) with ({[ex_owner := 1]} : gmap Address Z) by (by vm_compute). by apply map_Forall_singleton.
  - replace (AccountMap ex_new.2) with (∅ : gmap Address Account) by (by vm_compute). apply map_Forall_empty.
  - replace (UTXOMap ex_new.2) with (∅ : gmap Z UTXO) by (by vm_compute). apply map_Forall_empty.
  - replace (CreatedUTXOMap ex_new.2) with (∅ : gmap Z TxOut) by (by vm_compute). apply map_Forall_empty.
Qed.

Lemma ex_new_entry_ok : entry_ok ex_new_entry.
Proof. split; [by vm_compute|by apply (bool_decide_unpack _); vm_compute|by apply (bool_decide_unpack _); vm_compute]. Qed.

Lemma ex_start_chain : store_chain ex_tx_types ex_event_types coder_blob coder_byte coder_byte ex_start ex_state ex_gen [] 0.
Proof. eapply NewStore_chain; [apply ex_state_seqs|apply ex_db_holds|constructor|done|done|done|by apply lookup_insert_eq]. Qed.

Lemma ex_crashed_log : exists c, db_holds c ex_gen [ex_new_entry].
Proof.
  destruct (db_AppendData_ok ex_db ex_gen [] ex_new_entry false ex_db_holds) as (c & _ & Hc); [done|apply ex_new_entry_ok|done|by vm_compute|by exists c].
Qed.

(** The node stops after the write to the log and starts again with one processor. *)
Lemma crash_recovery_witness : exists c st1 d1 st' d',
  connect_to_store (D := gmap bytes bytes) ex_tx_types ex_acc_types ex_event_types coder_blob coder_byte coder_byte 4 [] false ex_node ex_new.1 ex_start = (Ok tt, st1) /\
  store_chain ex_tx_types ex_event_types coder_blob coder_byte coder_byte st1 d1 ex_gen [ex_new] 1 /\
  IterBlockAfterContext ex_tx_types coder_blob coder_byte coder_byte 2
    (connect_missing ex_tx_types ex_acc_types ex_event_types coder_blob coder_byte coder_byte false 1 [0; 0]%nat true ex_node)
    (NewStore ex_state (Some c) 1 (str "example") 1) = (Ok tt, st') /\ kv d' = kv d1.
Proof.
  destruct ex_crashed_log as (c & Hc). exists c.
  destruct (crash_recovery ex_tx_types ex_acc_types ex_event_types coder_blob coder_byte coder_byte ex_node ex_start ex_state ex_gen [] ex_new ex_new_entry 4 [] false)
    as (st1 & d1 & E1 & Hs1 & Hr).
  - apply ex_start_chain.
  - done.
  - apply ex_new_is_entry.
  - apply ex_new_entry_ok.
  - done.
  - apply ex_new_storable.
  - done.
  - intros l Hl. apply Forall2_nil_inv_l in Hl as ->. by vm_compute.
  - lia.
  - exact ex_new_connects.
  - destruct (Hr c [ex_new_entry] 1%nat [0; 0]%nat true 2%nat Hc) as (st' & d' & E & _ & Hkv); [constructor; [apply ex_new_is_entry|constructor]|lia|lia|].
    exists st1, d1, st', d'. exact (conj E1 (conj Hs1 (conj E Hkv))).
Defined.
