(* ===== verification/RequestTimer.v ===== *)
(** * Request timers

    [service/p2p/requesttimer.go]: the heights of the blocks a node has asked for,
    with the peer it asked and the time to ask another.  The nodes use it to ask
    for a block once at a time. *)

From stdpp Require Import base gmap list strings.
From Stdlib Require Import ZArith Lia.
From S2P Require Import Prelude.

(** ** The code *)

Record requestTimerItem := mkTimerItem { ti_Height : Z; ti_ExpiredAt : Z; ti_Value : bytes }.

Record RequestTimer := mkTimer {
  timerMap : gmap Z requestTimerItem;
  valueMap : gmap bytes (gset Z)
}.

Definition NewRequestTimer : RequestTimer := mkTimer ∅ ∅.

Definition timer_Exist (rm : RequestTimer) (height : Z) : bool := bool_decide (is_Some (timerMap rm !! height)).

(** [Add] at the time [now]. *)
Definition timer_Add (now : Z) (rm : RequestTimer) (height t : Z) (value : bytes) : RequestTimer :=
  let heightMap := default ∅ (valueMap rm !! value) in
  mkTimer (<[height := mkTimerItem height (u64 (now + t)) value]> (timerMap rm))
    (<[value := {[height]} ∪ heightMap]> (valueMap rm)).

Definition RemovesByValue (rm : RequestTimer) (value : bytes) : RequestTimer :=
  let heightMap := default ∅ (valueMap rm !! value) in
  mkTimer (filter (fun kv => kv.1 ∉ heightMap) (timerMap rm)) (delete value (valueMap rm)).

(** The body of the loop of [Run] for one expired item. *)
Definition forget_value (vm : gmap bytes (gset Z)) (v : requestTimerItem) : gmap bytes (gset Z) :=
  let heightMap := default ∅ (vm !! ti_Value v) ∖ {[ti_Height v]} in
  if bool_decide (heightMap = ∅) then delete (ti_Value v) vm
  else match vm !! ti_Value v with Some _ => <[ti_Value v := heightMap]> vm | None => vm end.

(** One turn of [Run] at the time [now]: the items that expired, for the handler,
    and the timer without them. *)
Definition timer_Run (now : Z) (rm : RequestTimer) : list requestTimerItem * RequestTimer :=
  let expired := snd <$> map_to_list (filter (fun kv => ti_ExpiredAt kv.2 <= now) (timerMap rm)) in
  let remainMap := filter (fun kv => now < ti_ExpiredAt kv.2) (timerMap rm) in
  (expired, mkTimer remainMap (foldl forget_value (valueMap rm) expired)).

(** ** What it does *)

Lemma timer_Exist_Add now rm h t value h' :
  timer_Exist (timer_Add now rm h t value) h' = bool_decide (h' = h) || timer_Exist rm h'.
Proof.
  unfold timer_Exist, timer_Add. cbn [timerMap]. destruct (decide (h' = h)) as [->|Hne].
  - rewrite lookup_insert_eq, !bool_decide_true by eauto. done.
  - rewrite lookup_insert_ne, (bool_decide_false (h' = h)) by done. done.
Qed.

(** After a turn a height is still waited for exactly when its time has not come. *)
Lemma timer_Exist_Run now rm h :
  timer_Exist (timer_Run now rm).2 h = match timerMap rm !! h with Some v => now <? ti_ExpiredAt v | None => false end.
Proof.
  unfold timer_Exist, timer_Run. cbn [timerMap snd]. destruct (timerMap rm !! h) as [v|] eqn:E.
  - destruct (now <? ti_ExpiredAt v) eqn:El; bool_to_prop.
    + apply bool_decide_true. exists v. by apply map_lookup_filter_Some.
    + apply bool_decide_false. intros [w Hw]. apply map_lookup_filter_Some in Hw as [Hw Hlt]. cbn in Hlt.
      rewrite E in Hw. injection Hw as ->. lia.
  - apply bool_decide_false. intros [w Hw]. apply map_lookup_filter_Some in Hw as [Hw _]. congruence.
Qed.

(** A height asked of a second peer is forgotten with the first one: its number
    stays in the first peer's set. *)
Lemma RemovesByValue_forgets_another (now : Z) (rm : RequestTimer) (h t1 t2 : Z) (a b : bytes) : a <> b ->
  timer_Exist (RemovesByValue (timer_Add now (timer_Add now rm h t1 a) h t2 b) a) h = false.
Proof.
  intros Hab. unfold timer_Exist, RemovesByValue, timer_Add. cbn [timerMap valueMap].
  rewrite (lookup_insert_ne _ b a) by done. rewrite lookup_insert_eq. cbn [default from_option].
  apply bool_decide_false. intros [w Hw]. apply map_lookup_filter_Some in Hw as [_ Hn]. apply Hn. set_solver.
Qed.
