(* ===== verification/Observer.v ===== *)
(** * The observer node

    [pof/observer_node.go], [pof/observer_node_send.go], [pof/vote_round.go],
    [pof/messages.go] and the peer table of [pof/observer_formulator_service.go]:
    how the observers agree on the formulator of a round, vote on its blocks and
    connect a block once a majority has signed it.

    The node is a state machine: [handleObserverMessage] handles one message of
    the queue, the timers of [Run] are the three other steps.  The chain is behind
    the interface [ChainI] ([types.Provider] and [chain.Committer]); what the node
    sends is recorded in the order it is sent.  One reading of the clock serves one
    step, and a sleep of the node is no step.  The order in which Go visits a map is
    a parameter.  The cache of packets is left out: it holds the packets of blocks
    of the chain, which do not change. *)

From stdpp Require Import base gmap list sorting strings.
From Stdlib Require Import ZArith.
From S2P Require Import Prelude Common LevelRoot OrderedMap Types Context Chain RankTable Consensus Queue RequestTimer.

(** ** Messages *)

Record RoundVote := mkRoundVote { rv_ChainID : Z; rv_LastHash : Hash256; rv_TargetHeight : Z; rv_TimeoutCount : Z;
  rv_Formulator : Address; rv_FormulatorPublicHash : PublicHash; rv_Timestamp : Z; rv_IsReply : bool }.
Record RoundVoteMessage := mkRoundVoteMessage { rm_RoundVote : RoundVote; rm_Signature : Signature }.

Record RoundVoteAck := mkRoundVoteAck { ra_ChainID : Z; ra_LastHash : Hash256; ra_TargetHeight : Z; ra_TimeoutCount : Z;
  ra_Formulator : Address; ra_FormulatorPublicHash : PublicHash; ra_PublicHash : PublicHash; ra_Timestamp : Z; ra_IsReply : bool }.
Record RoundVoteAckMessage := mkRoundVoteAckMessage { am_RoundVoteAck : RoundVoteAck; am_Signature : Signature }.
Record RoundSetupMessage := mkRoundSetupMessage { sm_MinRoundVoteAck : RoundVoteAck; sm_Signature : Signature }.
Record BlockReqMessage := mkBlockReqMessage { br_PrevHash : Hash256; br_TargetHeight : Z; br_TimeoutCount : Z;
  br_Formulator : Address; br_FormulatorPublicHash : PublicHash }.
Record BlockVote := mkBlockVote { bv_TargetHeight : Z; bv_Header : Header; bv_GeneratorSignature : Signature;
  bv_ObserverSignature : Signature; bv_IsReply : bool }.
Record BlockVoteMessage := mkBlockVoteMessage { vm_BlockVote : BlockVote; vm_Signature : Signature }.
Record BlockObSignMessage := mkBlockObSignMessage { os_TargetHeight : Z; os_BlockSign : BlockSign; os_ObserverSignatures : list Signature }.
Record BlockGenRequest := mkBlockGenRequest { gr_ChainID : Z; gr_LastHash : Hash256; gr_TargetHeight : Z; gr_TimeoutCount : Z;
  gr_Formulator : Address; gr_FormulatorPublicHash : PublicHash; gr_PublicHash : PublicHash; gr_Timestamp : Z }.
Record BlockGenRequestMessage := mkBlockGenRequestMessage { qm_BlockGenRequest : BlockGenRequest; qm_Signature : Signature }.

(** [p2p.StatusMessage]. *)
Record StatusMessage := mkStatusMessage { st_Version : Z; st_Height : Z; st_LastHash : Hash256 }.

Definition ErrFoundForkedBlockGen := poferr "found forked block gen".
Definition ErrInvalidVote := poferr "invalid vote".
Definition ErrInvalidRoundState := poferr "invalid round state".
Definition ErrAlreadyVoted := poferr "already voted".
Definition ErrNotExistFormulatorPeer := poferr "not exist formulator peer".
Definition ErrInvalidPublicHash : error := mkError "common" "invalid public hash".
Definition ErrUnknownMessage : error := mkError "p2p" "unknown message".
Definition ErrFoundForkedBlock : error := mkError "chain" "found forked block".

(** ** The state of a round *)

Definition EmptyState : Z := 0.
Definition RoundVoteState : Z := 1.
Definition RoundVoteAckState : Z := 2.
Definition BlockWaitState : Z := 3.
Definition BlockVoteState : Z := 4.

(** Nanoseconds. *)
Definition Second : Z := 1000000000.

Section Types.
Context (Tx Cx : Type).

Record BlockGenMessage := mkBlockGenMessage { gm_Block : Block Tx; gm_GeneratorSignature : Signature; gm_IsReply : bool }.

Record BlockRound := mkBlockRound {
  BlockVoteMap : gmap PublicHash BlockVote;
  BlockGenMessage_ : option BlockGenMessage;
  br_Context : option Cx;
  BlockVoteMessageWaitMap : gmap PublicHash BlockVoteMessage;
  BlockGenMessageWait : option BlockGenMessage;
  LastBlockGenRequestTime : Z
}.
Definition NewBlockRound : BlockRound := mkBlockRound ∅ None None ∅ None 0.

(** [RoundVoteWaitMap] is never used. *)
Record VoteRound := mkVoteRound {
  RoundState : Z;
  vr_TargetHeight : Z;
  RoundVoteMessageMap : gmap PublicHash RoundVoteMessage;
  MinVotePublicHash : PublicHash;
  RoundVoteAckMessageMap : gmap PublicHash RoundVoteAckMessage;
  MinRoundVoteAck : option RoundVoteAck;
  BlockRoundMap : gmap Z BlockRound;
  RoundVoteAckMessageWaitMap : gmap PublicHash RoundVoteAckMessage;
  VoteFailCount : Z
}.

(** The loop counts with [uint32]: past its end the map stays empty. *)
Definition NewVoteRound (TargetHeight MaxBlocksPerFormulator : Z) : VoteRound :=
  mkVoteRound RoundVoteState TargetHeight ∅ (replicate PublicHashSize 0) ∅ None
    (list_to_map ((fun i => (i, NewBlockRound)) <$> seqZ TargetHeight (u32 (TargetHeight + MaxBlocksPerFormulator) - TargetHeight)))
    ∅ 0.

(** A message of the queue by its dynamic type; [MBlockGenRequestValue] is the value
    and [MBlockGenRequest] the pointer to one. *)
Inductive ObMessage :=
  | MRoundVote (m : RoundVoteMessage)
  | MRoundVoteAck (m : RoundVoteAckMessage)
  | MRoundSetup (m : RoundSetupMessage)
  | MBlockReq (m : BlockReqMessage)
  | MBlockGen (m : BlockGenMessage)
  | MBlockVote (m : BlockVoteMessage)
  | MBlockObSign (m : BlockObSignMessage)
  | MBlockGenRequest (m : BlockGenRequestMessage)
  | MBlockGenRequestValue (m : BlockGenRequestMessage)
  | MStatus (m : StatusMessage)
  | MRequest (height : Z)
  | MBlock (b : Block Tx).

Record messageItem := mkItem { mi_PublicHash : PublicHash; mi_Message : ObMessage; mi_Raw : bytes }.

(** What the node sends: to all observers, to one, to any one, raw bytes to all,
    to a formulator through the queue of a priority, a block to an observer. *)
Inductive Sent :=
  | SBroadcast (m : ObMessage)
  | SSendTo (to : PublicHash) (m : ObMessage)
  | SSendAnyone (m : ObMessage)
  | SBroadcastRaw (raw : bytes)
  | SFormulator (Priority : Z) (addr : Address) (m : ObMessage)
  | SRawTo (to : PublicHash) (m : ObMessage)
  | SRawToPeer (addr : Address) (m : ObMessage).
End Types.

Arguments mkBlockGenMessage {Tx}. Arguments gm_Block {Tx}. Arguments gm_GeneratorSignature {Tx}. Arguments gm_IsReply {Tx}.
Arguments mkBlockRound {Tx Cx}. Arguments BlockVoteMap {Tx Cx}. Arguments BlockGenMessage_ {Tx Cx}. Arguments br_Context {Tx Cx}.
Arguments BlockVoteMessageWaitMap {Tx Cx}. Arguments BlockGenMessageWait {Tx Cx}. Arguments LastBlockGenRequestTime {Tx Cx}.
Arguments NewBlockRound {Tx Cx}. Arguments mkVoteRound {Tx Cx}. Arguments RoundState {Tx Cx}. Arguments vr_TargetHeight {Tx Cx}.
Arguments RoundVoteMessageMap {Tx Cx}. Arguments MinVotePublicHash {Tx Cx}. Arguments RoundVoteAckMessageMap {Tx Cx}.
Arguments MinRoundVoteAck {Tx Cx}. Arguments BlockRoundMap {Tx Cx}. Arguments RoundVoteAckMessageWaitMap {Tx Cx}.
Arguments VoteFailCount {Tx Cx}. Arguments NewVoteRound {Tx Cx}.
Arguments MRoundVote {Tx}. Arguments MRoundVoteAck {Tx}. Arguments MRoundSetup {Tx}. Arguments MBlockReq {Tx}. Arguments MBlockGen {Tx}.
Arguments MBlockVote {Tx}. Arguments MBlockObSign {Tx}. Arguments MBlockGenRequest {Tx}. Arguments MBlockGenRequestValue {Tx}.
Arguments MStatus {Tx}. Arguments MRequest {Tx}. Arguments MBlock {Tx}.
Arguments mkItem {Tx}. Arguments mi_PublicHash {Tx}. Arguments mi_Message {Tx}. Arguments mi_Raw {Tx}.
Arguments SBroadcast {Tx}. Arguments SSendTo {Tx}. Arguments SSendAnyone {Tx}. Arguments SBroadcastRaw {Tx}. Arguments SFormulator {Tx}.
Arguments SRawTo {Tx}. Arguments SRawToPeer {Tx}.

(** ** The chain, as the nodes use it *)

Section Node.
Context `{T : !LLRB (item PublicHash bool) item_Less}.

(** [types.Provider], [chain.Committer] and the consensus of the chain [Ch]; [Cx] is
    [types.Context]. *)
Class ChainI (Ch Tx Cx : Type) := {
  cp_ChainID : Ch -> Z;
  cp_Version : Ch -> Z;
  cp_Height : Ch -> Z;
  cp_LastHash : Ch -> Hash256;
  cp_Hash : Ch -> Z -> res Hash256;
  cp_Block : Ch -> Z -> res (Block Tx);
  cp_cs : Ch -> PofConsensus (T := T);
  ct_ValidateHeader : Ch -> Header -> res unit;
  ct_ExecuteBlockOnContext : Ch -> Block Tx -> res Cx;          (** on a new context *)
  ct_ContextHash : Cx -> Hash256;
  ct_ConnectBlockWithContext : Block Tx -> Cx -> ST Ch unit;
  cn_ConnectBlock : Block Tx -> ST Ch unit
}.

(** The order in which [range] visits a map. *)
Class RangeOrder := {
  range_of : forall {A}, gmap PublicHash A -> list (PublicHash * A);
  range_perm : forall A (m : gmap PublicHash A), range_of m ≡ₚ map_to_list m
}.

Context {Ch Tx Cx : Type} `{!ChainI Ch Tx Cx} `{!RangeOrder}.
Context (cUint32 : Coder Z) `{Sha256} `{Ecrecover}.
Context `{!Marshaler Header, !Marshaler BlockSign, !Marshaler RoundVote, !Marshaler RoundVoteAck, !Marshaler BlockVote, !Marshaler BlockGenRequest}.
(** The key of the node. *)
Context (myPublicHash : PublicHash) (Sign : Hash256 -> res Signature).

Record ObserverNode := mkObserverNode {
  ob_chain : Ch;
  ob_round : VoteRound Tx Cx;
  ob_ignoreMap : gmap Address Z;
  ob_roundFirstTime : Z;
  ob_roundFirstHeight : Z;
  ob_messageQueue : list (messageItem Tx);
  ob_blockQ : SortedQueue (Block Tx);
  ob_requestTimer : RequestTimer;
  ob_peers : gmap Address Z;              (** [fs.peerMap] with the guess heights *)
  ob_now : Z;                             (** [time.Now().UnixNano()] *)
  ob_sent : list (Sent Tx)
}.

Definition obM (A : Type) : Type := ST ObserverNode A.

Definition set_round (r : VoteRound Tx Cx) : obM unit := modify (fun ob =>
  mkObserverNode (ob_chain ob) r (ob_ignoreMap ob) (ob_roundFirstTime ob) (ob_roundFirstHeight ob) (ob_messageQueue ob)
    (ob_blockQ ob) (ob_requestTimer ob) (ob_peers ob) (ob_now ob) (ob_sent ob)).
Definition set_ignore (m : gmap Address Z) : obM unit := modify (fun ob =>
  mkObserverNode (ob_chain ob) (ob_round ob) m (ob_roundFirstTime ob) (ob_roundFirstHeight ob) (ob_messageQueue ob)
    (ob_blockQ ob) (ob_requestTimer ob) (ob_peers ob) (ob_now ob) (ob_sent ob)).
Definition set_first (t h : Z) : obM unit := modify (fun ob =>
  mkObserverNode (ob_chain ob) (ob_round ob) (ob_ignoreMap ob) t h (ob_messageQueue ob)
    (ob_blockQ ob) (ob_requestTimer ob) (ob_peers ob) (ob_now ob) (ob_sent ob)).
Definition set_queue (q : list (messageItem Tx)) : obM unit := modify (fun ob =>
  mkObserverNode (ob_chain ob) (ob_round ob) (ob_ignoreMap ob) (ob_roundFirstTime ob) (ob_roundFirstHeight ob) q
    (ob_blockQ ob) (ob_requestTimer ob) (ob_peers ob) (ob_now ob) (ob_sent ob)).
Definition set_blockQ (q : SortedQueue (Block Tx)) : obM unit := modify (fun ob =>
  mkObserverNode (ob_chain ob) (ob_round ob) (ob_ignoreMap ob) (ob_roundFirstTime ob) (ob_roundFirstHeight ob) (ob_messageQueue ob)
    q (ob_requestTimer ob) (ob_peers ob) (ob_now ob) (ob_sent ob)).
Definition set_timer (t : RequestTimer) : obM unit := modify (fun ob =>
  mkObserverNode (ob_chain ob) (ob_round ob) (ob_ignoreMap ob) (ob_roundFirstTime ob) (ob_roundFirstHeight ob) (ob_messageQueue ob)
    (ob_blockQ ob) t (ob_peers ob) (ob_now ob) (ob_sent ob)).
Definition set_peers (m : gmap Address Z) : obM unit := modify (fun ob =>
  mkObserverNode (ob_chain ob) (ob_round ob) (ob_ignoreMap ob) (ob_roundFirstTime ob) (ob_roundFirstHeight ob) (ob_messageQueue ob)
    (ob_blockQ ob) (ob_requestTimer ob) m (ob_now ob) (ob_sent ob)).
Definition set_chain (c : Ch) (ob : ObserverNode) : ObserverNode :=
  mkObserverNode c (ob_round ob) (ob_ignoreMap ob) (ob_roundFirstTime ob) (ob_roundFirstHeight ob) (ob_messageQueue ob)
    (ob_blockQ ob) (ob_requestTimer ob) (ob_peers ob) (ob_now ob) (ob_sent ob).
Definition send (e : Sent Tx) : obM unit := modify (fun ob =>
  mkObserverNode (ob_chain ob) (ob_round ob) (ob_ignoreMap ob) (ob_roundFirstTime ob) (ob_roundFirstHeight ob) (ob_messageQueue ob)
    (ob_blockQ ob) (ob_requestTimer ob) (ob_peers ob) (ob_now ob) (ob_sent ob ++ [e])).

Definition push (item : messageItem Tx) : obM unit :=
  let! q := gets ob_messageQueue in set_queue (q ++ [item]).
Definition on_chain {A} (m : ST Ch A) : obM A := fun ob =>
  let '(r, c) := m (ob_chain ob) in (r, set_chain c ob).
Definition get_chain {A} (f : Ch -> A) : obM A := gets (fun ob => f (ob_chain ob)).
Definition round_gets {A} (f : VoteRound Tx Cx -> A) : obM A := gets (fun ob => f (ob_round ob)).
Definition now : obM Z := gets ob_now.

(** Assignments to fields of the round and of one of its block rounds. *)
Definition upd_round (f : VoteRound Tx Cx -> VoteRound Tx Cx) : obM unit := let! r := round_gets id in set_round (f r).
Definition with_state (s : Z) (r : VoteRound Tx Cx) := mkVoteRound s (vr_TargetHeight r) (RoundVoteMessageMap r) (MinVotePublicHash r)
  (RoundVoteAckMessageMap r) (MinRoundVoteAck r) (BlockRoundMap r) (RoundVoteAckMessageWaitMap r) (VoteFailCount r).
Definition with_height (h : Z) (r : VoteRound Tx Cx) := mkVoteRound (RoundState r) h (RoundVoteMessageMap r) (MinVotePublicHash r)
  (RoundVoteAckMessageMap r) (MinRoundVoteAck r) (BlockRoundMap r) (RoundVoteAckMessageWaitMap r) (VoteFailCount r).
Definition with_votes (m : gmap PublicHash RoundVoteMessage) (r : VoteRound Tx Cx) := mkVoteRound (RoundState r) (vr_TargetHeight r) m (MinVotePublicHash r)
  (RoundVoteAckMessageMap r) (MinRoundVoteAck r) (BlockRoundMap r) (RoundVoteAckMessageWaitMap r) (VoteFailCount r).
Definition with_min_vote (h : PublicHash) (r : VoteRound Tx Cx) := mkVoteRound (RoundState r) (vr_TargetHeight r) (RoundVoteMessageMap r) h
  (RoundVoteAckMessageMap r) (MinRoundVoteAck r) (BlockRoundMap r) (RoundVoteAckMessageWaitMap r) (VoteFailCount r).
Definition with_acks (m : gmap PublicHash RoundVoteAckMessage) (r : VoteRound Tx Cx) := mkVoteRound (RoundState r) (vr_TargetHeight r) (RoundVoteMessageMap r)
  (MinVotePublicHash r) m (MinRoundVoteAck r) (BlockRoundMap r) (RoundVoteAckMessageWaitMap r) (VoteFailCount r).
Definition with_min_ack (a : option RoundVoteAck) (r : VoteRound Tx Cx) := mkVoteRound (RoundState r) (vr_TargetHeight r) (RoundVoteMessageMap r)
  (MinVotePublicHash r) (RoundVoteAckMessageMap r) a (BlockRoundMap r) (RoundVoteAckMessageWaitMap r) (VoteFailCount r).
Definition with_blocks (m : gmap Z (BlockRound Tx Cx)) (r : VoteRound Tx Cx) := mkVoteRound (RoundState r) (vr_TargetHeight r) (RoundVoteMessageMap r)
  (MinVotePublicHash r) (RoundVoteAckMessageMap r) (MinRoundVoteAck r) m (RoundVoteAckMessageWaitMap r) (VoteFailCount r).
Definition with_ack_wait (m : gmap PublicHash RoundVoteAckMessage) (r : VoteRound Tx Cx) := mkVoteRound (RoundState r) (vr_TargetHeight r) (RoundVoteMessageMap r)
  (MinVotePublicHash r) (RoundVoteAckMessageMap r) (MinRoundVoteAck r) (BlockRoundMap r) m (VoteFailCount r).
Definition with_fails (n : Z) (r : VoteRound Tx Cx) := mkVoteRound (RoundState r) (vr_TargetHeight r) (RoundVoteMessageMap r)
  (MinVotePublicHash r) (RoundVoteAckMessageMap r) (MinRoundVoteAck r) (BlockRoundMap r) (RoundVoteAckMessageWaitMap r) n.

Definition upd_block (h : Z) (f : BlockRound Tx Cx -> BlockRound Tx Cx) : obM unit :=
  upd_round (fun r => with_blocks (alter f h (BlockRoundMap r)) r).
Definition with_gen (m : option (BlockGenMessage Tx)) (c : option Cx) (b : BlockRound Tx Cx) :=
  mkBlockRound (BlockVoteMap b) m c (BlockVoteMessageWaitMap b) (BlockGenMessageWait b) (LastBlockGenRequestTime b).
Definition with_gen_wait (m : option (BlockGenMessage Tx)) (b : BlockRound Tx Cx) :=
  mkBlockRound (BlockVoteMap b) (BlockGenMessage_ b) (br_Context b) (BlockVoteMessageWaitMap b) m (LastBlockGenRequestTime b).
Definition with_block_votes (m : gmap PublicHash BlockVote) (b : BlockRound Tx Cx) :=
  mkBlockRound m (BlockGenMessage_ b) (br_Context b) (BlockVoteMessageWaitMap b) (BlockGenMessageWait b) (LastBlockGenRequestTime b).
Definition with_vote_wait (m : gmap PublicHash BlockVoteMessage) (b : BlockRound Tx Cx) :=
  mkBlockRound (BlockVoteMap b) (BlockGenMessage_ b) (br_Context b) m (BlockGenMessageWait b) (LastBlockGenRequestTime b).
Definition with_request_time (t : Z) (b : BlockRound Tx Cx) :=
  mkBlockRound (BlockVoteMap b) (BlockGenMessage_ b) (br_Context b) (BlockVoteMessageWaitMap b) (BlockGenMessageWait b) t.

Definition nil_pointer : string := "invalid memory address or nil pointer dereference".
(** A field of what a pointer points to. *)
Definition deref {A} (o : option A) : obM A := match o with Some a => ret a | None => throw nil_pointer end.
(** A call whose error the caller drops. *)
Definition ignore {A} (m : obM A) : obM unit := let! _ := attempt m in ret tt.
Definition when (b : bool) (m : obM unit) : obM unit := if b then m else ret tt.

(** ** The peers of the node ([observer_formulator_service.go]) *)

Definition PeerCount : obM Z := gets (fun ob => Z.of_nat (size (ob_peers ob))).
Definition RemovePeer (addr : Address) : obM unit := let! m := gets ob_peers in set_peers (delete addr m).
Definition GuessHeightCountMap : obM (gmap Z Z) :=
  gets (fun ob => map_fold (fun _ h m => <[h := default 0 (m !! h) + 1]> m) ∅ (ob_peers ob)).
Definition GuessHeight (addr : Address) : obM Z :=
  let! m := gets ob_peers in
  match m !! addr with Some h => ret h | None => fail ErrNotExistFormulatorPeer end.
Definition UpdateGuessHeight (addr : Address) (height : Z) : obM unit :=
  let! m := gets ob_peers in
  match m !! addr with Some _ => set_peers (<[addr := height]> m) | None => ret tt end.
Definition FormulatorMap : obM (gmap Address bool) := gets (fun ob => (fun _ => true) <$> ob_peers ob).

(** ** Sending *)

Definition adjustFormulatorMap : obM (gmap Address bool) :=
  let! m := FormulatorMap in
  let! t := now in
  let! ign := gets ob_ignoreMap in
  ret (filter (fun kv => ~ (t < default 0 (ign !! kv.1))) m).

Definition sendMessage (Priority : Z) (addr : Address) (m : ObMessage Tx) : obM unit := send (SFormulator Priority addr m).

(** [cp.LastStatus()], with the version for the status messages. *)
Definition status : obM StatusMessage := get_chain (fun c => mkStatusMessage (cp_Version c) (cp_Height c) (cp_LastHash c)).
Definition rt : obM RankTable := get_chain (fun c => cs_rt (cp_cs c)).

Definition sendStatusTo (TargetPubHash : PublicHash) : obM unit :=
  if bool_decide (TargetPubHash = myPublicHash) then ret tt
  else let! nm := status in send (SSendTo TargetPubHash (MStatus nm)).

Definition broadcastStatus : obM unit := let! nm := status in send (SBroadcast (MStatus nm)).

Definition sendRequestBlockTo (TargetPubHash : PublicHash) (Height : Z) : obM unit :=
  if bool_decide (TargetPubHash = myPublicHash) then ret tt
  else
    send (SSendTo TargetPubHash (MRequest Height)) ;;;
    let! t := now in
    let! tm := gets ob_requestTimer in
    set_timer (timer_Add t tm Height (2 * Second) TargetPubHash).

(** A vote for the best connected formulator. *)
Definition my_round_vote (IsReply : bool) : obM RoundVote :=
  let! m := adjustFormulatorMap in
  let! t := rt in
  let! (Top, TimeoutCount) := lift (TopRankInMap t m) in
  let! st := status in
  let! id := get_chain cp_ChainID in
  let! ts := now in
  ret (mkRoundVote id (st_LastHash st) (u32 (st_Height st + 1)) (u32 TimeoutCount) (r_Address Top) (r_PublicHash Top) (u64 ts) IsReply).

Definition sendRoundVote : obM unit :=
  let! nv := my_round_vote false in
  let! st := status in
  let! gh := attempt (GuessHeight (rv_Formulator nv)) in
  match gh with
  | inl _ => sendMessage 1 (rv_Formulator nv) (MStatus st)
  | inr gh => when (gh <? st_Height st) (sendMessage 1 (rv_Formulator nv) (MStatus st))
  end ;;;
  upd_round (with_fails 0) ;;;
  let! sig := lift (Sign (marshal_hash nv)) in
  let nm := mkRoundVoteMessage nv sig in
  push (mkItem myPublicHash (MRoundVote nm) []) ;;;
  send (SBroadcast (MRoundVote nm)).

Definition sendRoundVoteTo (TargetPubHash : PublicHash) : obM unit :=
  if bool_decide (TargetPubHash = myPublicHash) then ret tt
  else
    let! s := round_gets RoundState in
    if s =? BlockVoteState then
      let! votes := round_gets RoundVoteMessageMap in
      match votes !! myPublicHash with
      | None => ret tt
      | Some MyMsg =>
          let v := rm_RoundVote MyMsg in
          let! st := status in
          let! ts := now in
          let TargetHeight := u32 (st_Height st + 1) in
          let nv := if negb (rv_TargetHeight v =? TargetHeight)
            then mkRoundVote (rv_ChainID v) (st_LastHash st) TargetHeight 0 (rv_Formulator v) (rv_FormulatorPublicHash v) (u64 ts) true
            else mkRoundVote (rv_ChainID v) (rv_LastHash v) (rv_TargetHeight v) (rv_TimeoutCount v) (rv_Formulator v)
                   (rv_FormulatorPublicHash v) (rv_Timestamp v) true in
          let! sig := lift (Sign (marshal_hash nv)) in
          send (SSendTo TargetPubHash (MRoundVote (mkRoundVoteMessage nv sig)))
      end
    else
      let! nv := my_round_vote true in
      let! sig := lift (Sign (marshal_hash nv)) in
      send (SSendTo TargetPubHash (MRoundVote (mkRoundVoteMessage nv sig))).

(** Indexing the map with the hash of the least vote gives nil when it is not there. *)
Definition sendRoundVoteAck : obM unit :=
  let! votes := round_gets RoundVoteMessageMap in
  let! minHash := round_gets MinVotePublicHash in
  let! MinRoundVote := deref (rm_RoundVote <$> votes !! minHash) in
  let! ts := now in
  let na := mkRoundVoteAck (rv_ChainID MinRoundVote) (rv_LastHash MinRoundVote) (rv_TargetHeight MinRoundVote) (rv_TimeoutCount MinRoundVote)
    (rv_Formulator MinRoundVote) (rv_FormulatorPublicHash MinRoundVote) minHash (u64 ts) false in
  let! sig := lift (Sign (marshal_hash na)) in
  let nm := mkRoundVoteAckMessage na sig in
  push (mkItem myPublicHash (MRoundVoteAck nm) []) ;;;
  send (SBroadcast (MRoundVoteAck nm)).

Definition sendRoundVoteAckTo (TargetPubHash : PublicHash) : obM unit :=
  if bool_decide (TargetPubHash = myPublicHash) then ret tt
  else
    let! s := round_gets RoundState in
    let! acks := round_gets RoundVoteAckMessageMap in
    match acks !! myPublicHash with
    | None => ret tt
    | Some MyMsg =>
        let v := am_RoundVoteAck MyMsg in
        let! st := status in
        let! ts := now in
        let TargetHeight := u32 (st_Height st + 1) in
        let na := if (s =? BlockVoteState) && negb (ra_TargetHeight v =? TargetHeight)
          then mkRoundVoteAck (ra_ChainID v) (st_LastHash st) TargetHeight 0 (ra_Formulator v) (ra_FormulatorPublicHash v)
                 (ra_PublicHash v) (u64 ts) true
          else mkRoundVoteAck (ra_ChainID v) (ra_LastHash v) (ra_TargetHeight v) (ra_TimeoutCount v) (ra_Formulator v)
                 (ra_FormulatorPublicHash v) (ra_PublicHash v) (ra_Timestamp v) true in
        let! sig := lift (Sign (marshal_hash na)) in
        send (SSendTo TargetPubHash (MRoundVoteAck (mkRoundVoteAckMessage na sig)))
    end.

Definition sendRoundSetup : obM unit :=
  let! o := round_gets MinRoundVoteAck in
  let! a := deref o in
  let! ts := now in
  let na := mkRoundVoteAck (ra_ChainID a) (ra_LastHash a) (ra_TargetHeight a) (ra_TimeoutCount a) (ra_Formulator a)
    (ra_FormulatorPublicHash a) (ra_PublicHash a) (u64 ts) false in
  let! sig := lift (Sign (marshal_hash na)) in
  send (SBroadcast (MRoundSetup (mkRoundSetupMessage na sig))).

(** The vote of this node on a block: two signatures. *)
Definition my_block_vote (gen : option (BlockGenMessage Tx)) (IsReply : bool) : obM BlockVoteMessage :=
  let! gen := deref gen in
  let h := b_Header (gm_Block gen) in
  let! sig := lift (Sign (block_sign_hash h (gm_GeneratorSignature gen))) in
  let v := mkBlockVote (h_Height h) h (gm_GeneratorSignature gen) sig IsReply in
  let! sig := lift (Sign (marshal_hash v)) in
  ret (mkBlockVoteMessage v sig).

Definition sendBlockVote (gen : option (BlockGenMessage Tx)) : obM unit :=
  let! nm := my_block_vote gen false in
  push (mkItem myPublicHash (MBlockVote nm) []) ;;;
  send (SBroadcast (MBlockVote nm)).

Definition sendBlockGenTo (gen : option (BlockGenMessage Tx)) (TargetPubHash : PublicHash) : obM unit :=
  if bool_decide (TargetPubHash = myPublicHash) then ret tt
  else let! gen := deref gen in send (SSendTo TargetPubHash (MBlockGen gen)).

Definition sendBlockVoteTo (gen : option (BlockGenMessage Tx)) (TargetPubHash : PublicHash) : obM unit :=
  if bool_decide (TargetPubHash = myPublicHash) then ret tt
  else let! nm := my_block_vote gen true in send (SSendTo TargetPubHash (MBlockVote nm)).

(** For the block round at height [h]. *)
Definition sendBlockGenRequest (h : Z) (b : BlockRound Tx Cx) : obM unit :=
  let! t := now in
  if u64 t <? u64 (LastBlockGenRequestTime b + Second) then ret tt
  else
    upd_block h (with_request_time (u64 t)) ;;;
    let target := match range_of (BlockVoteMap b) with
      | (pubhash, _) :: _ => Some pubhash
      | [] => match range_of (BlockVoteMessageWaitMap b) with (pubhash, _) :: _ => Some pubhash | [] => None end
      end in
    let! o := round_gets MinRoundVoteAck in
    let! a := deref o in
    let nr := mkBlockGenRequest (ra_ChainID a) (ra_LastHash a) (ra_TargetHeight a) (ra_TimeoutCount a) (ra_Formulator a)
      (ra_FormulatorPublicHash a) (ra_PublicHash a) (u64 t) in
    let! sig := lift (Sign (marshal_hash nr)) in
    let nm := MBlockGenRequest (mkBlockGenRequestMessage nr sig) in
    match target with
    | Some pubhash => send (SSendTo pubhash nm)
    | None => send (SSendAnyone nm)
    end.

(** ** The round *)

Definition obs_cs : obM (PofConsensus (T := T)) := get_chain cp_cs.
Definition observer_count : obM nat := get_chain (fun c => Len (observerKeyMap (cp_cs c))).

Definition resetVoteRound (resetStat : bool) : obM unit :=
  let! h := get_chain cp_Height in
  let! cs := obs_cs in
  set_round (NewVoteRound (u32 (h + 1)) (maxBlocksPerFormulator cs)) ;;;
  when resetStat (set_first 0 0).

(** [err != nil] panics. *)
Definition must {A} (m : res A) : obM A := match m with Err _ => throw "panic" | r => lift r end.

Definition syncVoteRound : obM unit :=
  let! h := get_chain cp_Height in
  let TargetHeight := u32 (h + 1) in
  let! r := round_gets id in
  if vr_TargetHeight r <? TargetHeight then
    let! t := rt in
    let! Top := must (TopRank t 0) in
    let same := match MinRoundVoteAck r with Some a => bool_decide (r_Address Top = ra_Formulator a) | None => false end in
    match (if same then BlockRoundMap r !! TargetHeight else None) with
    | Some b =>
        upd_round (fun r => with_state BlockWaitState (with_height TargetHeight r)) ;;;
        match BlockGenMessageWait b, BlockGenMessage_ b with
        | Some m, None =>
            push (mkItem (replicate PublicHashSize 0) (MBlockGen m) []) ;;;
            upd_block TargetHeight (with_gen_wait None)
        | _, _ => ret tt
        end
    | None => resetVoteRound false
    end
  else ret tt.

(** *** What the handlers check alike *)

(** The signature is the sender's, and the sender is an observer. *)
Definition check_sender (sender : PublicHash) (msgh : Hash256) (sig : Signature) : obM unit :=
  let! pubkey := lift (recover msgh sig) in
  let obkey := NewPublicHash pubkey in
  guard (bool_decide (sender = obkey)) ErrInvalidPublicHash ;;;
  let! cs := obs_cs in
  guard (Has (observerKeyMap cs) obkey) ErrInvalidObserverKey.

(** The message is about the round of this node; a late one is answered with the
    status if it may be. *)
Definition check_round (sender : PublicHash) (may_reply : bool) (ChainID : Z) (LastHash_ : Hash256) (TargetHeight TimeoutCount : Z)
    (Formulator : Address) (FormulatorPublicHash : PublicHash) : obM unit :=
  let! th := round_gets vr_TargetHeight in
  (if negb (TargetHeight =? th) then
     when ((TargetHeight <? th) && may_reply) (ignore (sendStatusTo sender)) ;;;
     fail ErrInvalidVote
   else ret tt) ;;;
  let! id := get_chain cp_ChainID in
  guard (ChainID =? id) ErrInvalidVote ;;;
  let! lh := get_chain cp_LastHash in
  guard (bool_decide (LastHash_ = lh)) ErrInvalidVote ;;;
  let! t := rt in
  let! Top := lift (TopRank t TimeoutCount) in
  guard (bool_decide (Formulator = r_Address Top)) ErrInvalidVote ;;;
  guard (bool_decide (FormulatorPublicHash = r_PublicHash Top)) ErrInvalidVote.

(** *** [RoundVoteMessage] *)

Definition vote_Less (a b : PublicHash * Z) : bool :=
  if a.2 =? b.2 then bool_decide (bytes_lt a.1 b.1) else a.2 <? b.2.

Definition vote_items (m : gmap PublicHash RoundVoteMessage) : list (PublicHash * Z) :=
  (fun kv => (kv.1, rv_TimeoutCount (rm_RoundVote kv.2))) <$> range_of m.

Definition vote_le (a b : PublicHash * Z) : Prop := vote_Less b a = false.
#[local] Instance vote_le_dec a b : Decision (vote_le a b).
Proof. unfold vote_le. apply _. Defined.

(** The first vote once they are sorted. *)
Definition min_vote (votes : list (PublicHash * Z)) : option PublicHash := fst <$> head (merge_sort vote_le votes).

Definition handleRoundVote (sender : PublicHash) (msg : RoundVoteMessage) : obM unit :=
  let v := rm_RoundVote msg in
  let may_reply := negb (rv_IsReply v) && negb (bool_decide (sender = myPublicHash)) in
  check_sender sender (marshal_hash v) (rm_Signature msg) ;;;
  check_round sender may_reply (rv_ChainID v) (rv_LastHash v) (rv_TargetHeight v) (rv_TimeoutCount v)
    (rv_Formulator v) (rv_FormulatorPublicHash v) ;;;
  let! s := round_gets RoundState in
  (if negb (s =? RoundVoteState) then
     when may_reply (
       (if s =? BlockVoteState then
          let! brs := round_gets BlockRoundMap in
          match brs !! rv_TargetHeight v with Some b => ignore (sendBlockVoteTo (BlockGenMessage_ b) sender) | None => ret tt end
        else ret tt) ;;;
       ignore (sendRoundVoteTo sender)) ;;;
     fail ErrInvalidRoundState
   else ret tt) ;;;
  let! votes := round_gets RoundVoteMessageMap in
  match votes !! sender with
  | Some old =>
      if rv_Timestamp v <=? rv_Timestamp (rm_RoundVote old) then
        when may_reply (ignore (sendRoundVoteTo sender)) ;;; fail ErrAlreadyVoted
      else ret tt
  | None => ret tt
  end ;;;
  upd_round (fun r => with_votes (<[sender := msg]> (RoundVoteMessageMap r)) r) ;;;
  when may_reply (ignore (sendRoundVoteTo sender)) ;;;
  let! votes := round_gets RoundVoteMessageMap in
  let! n := observer_count in
  when (n / 2 + 2 <=? size votes)%nat (
    upd_round (with_state RoundVoteAckState) ;;;
    let! least := match min_vote (vote_items votes) with Some h => ret h | None => throw "index out of range" end in
    upd_round (with_min_vote least) ;;;
    let! first := gets ob_roundFirstTime in
    when (first =? 0) (let! t := now in let! h := get_chain cp_Height in set_first (u64 t) h) ;;;
    ignore sendRoundVoteAck ;;;
    let! wait := round_gets RoundVoteAckMessageWaitMap in
    for_each (range_of wait) (fun kv => push (mkItem kv.1 (MRoundVoteAck kv.2) []))).

(** *** [RoundVoteAckMessage] *)

(** The loop over the votes: how often each timeout count and each observer was
    named so far; it stops at the first vote that brings both to a majority. *)
Fixpoint count_acks (majority : nat) (acks : list RoundVoteAck) (hashes : gmap PublicHash nat) (timeouts : gmap Z nat) : option RoundVoteAck :=
  match acks with
  | [] => None
  | vt :: acks =>
      let t := (default 0 (timeouts !! ra_TimeoutCount vt) + 1)%nat in
      let h := (default 0 (hashes !! ra_PublicHash vt) + 1)%nat in
      if ((majority <=? t) && (majority <=? h))%nat then Some vt
      else count_acks majority acks (<[ra_PublicHash vt := h]> hashes) (<[ra_TimeoutCount vt := t]> timeouts)
  end.

(** The block rounds that remain for the chosen formulator, without the waiting
    blocks of others. *)
Definition keep_blocks (limit : Z) (Formulator : Address) (m : gmap Z (BlockRound Tx Cx)) : gmap Z (BlockRound Tx Cx) :=
  (fun b => match BlockGenMessageWait b with
            | Some g => if negb (bool_decide (h_Generator (b_Header (gm_Block g)) = Formulator)) then with_gen_wait None b else b
            | None => b
            end) <$> filter (fun kv => kv.1 < limit) m.

Definition setup_round (a : RoundVoteAck) : obM unit :=
  upd_round (with_state BlockWaitState) ;;;
  upd_round (with_min_ack (Some a)) ;;;
  let! cs := obs_cs in
  let RemainBlocks := if ra_TimeoutCount a =? 0 then u32 (maxBlocksPerFormulator cs - blocksBySameFormulator cs)
                      else maxBlocksPerFormulator cs in
  upd_round (fun r => with_blocks (keep_blocks (u32 (vr_TargetHeight r + RemainBlocks)) (ra_Formulator a) (BlockRoundMap r)) r) ;;;
  when (bool_decide (ra_PublicHash a = myPublicHash))
    (sendMessage 0 (ra_Formulator a) (MBlockReq (mkBlockReqMessage (ra_LastHash a) (ra_TargetHeight a) (ra_TimeoutCount a)
       (ra_Formulator a) (ra_FormulatorPublicHash a)))) ;;;
  ignore sendRoundSetup ;;;
  let! r := round_gets id in
  match BlockRoundMap r !! vr_TargetHeight r with
  | Some b =>
      match BlockGenMessageWait b, BlockGenMessage_ b with
      | Some g, None =>
          when (bool_decide (h_Generator (b_Header (gm_Block g)) = ra_Formulator a))
            (push (mkItem (replicate PublicHashSize 0) (MBlockGen g) [])) ;;;
          upd_block (vr_TargetHeight r) (with_gen_wait None)
      | _, _ => ret tt
      end
  | None => ret tt
  end.

Definition handleRoundVoteAck (sender : PublicHash) (msg : RoundVoteAckMessage) : obM unit :=
  let v := am_RoundVoteAck msg in
  let may_reply := negb (ra_IsReply v) && negb (bool_decide (sender = myPublicHash)) in
  check_sender sender (marshal_hash v) (am_Signature msg) ;;;
  check_round sender may_reply (ra_ChainID v) (ra_LastHash v) (ra_TargetHeight v) (ra_TimeoutCount v)
    (ra_Formulator v) (ra_FormulatorPublicHash v) ;;;
  let! s := round_gets RoundState in
  (if negb (s =? RoundVoteAckState) then
     (if s <? RoundVoteAckState then
        upd_round (fun r => with_ack_wait (<[sender := msg]> (RoundVoteAckMessageWaitMap r)) r)
      else when may_reply (
        (if s =? BlockVoteState then
           let! brs := round_gets BlockRoundMap in
           match brs !! ra_TargetHeight v with Some b => ignore (sendBlockVoteTo (BlockGenMessage_ b) sender) | None => ret tt end
         else ret tt) ;;;
        ignore (sendRoundVoteAckTo sender))) ;;;
     fail ErrInvalidRoundState
   else ret tt) ;;;
  let! acks := round_gets RoundVoteAckMessageMap in
  match acks !! sender with
  | Some old =>
      if ra_Timestamp v <=? ra_Timestamp (am_RoundVoteAck old) then
        when (negb (ra_IsReply v)) (ignore (sendRoundVoteAckTo sender)) ;;; fail ErrAlreadyVoted
      else ret tt
  | None => ret tt
  end ;;;
  upd_round (fun r => with_acks (<[sender := msg]> (RoundVoteAckMessageMap r)) r) ;;;
  when may_reply (ignore (sendRoundVoteAckTo sender)) ;;;
  let! acks := round_gets RoundVoteAckMessageMap in
  let! n := observer_count in
  when (n / 2 + 1 <=? size acks)%nat (
    match count_acks (n / 2 + 1) ((fun kv => am_RoundVoteAck kv.2) <$> range_of acks) ∅ ∅ with
    | Some a => setup_round a
    | None => ret tt
    end).

(** *** [RoundSetupMessage] and [BlockGenRequestMessage] *)

(** A node that has a block sends it to one that asks, with its vote. *)
Definition answer_with_block (sender : PublicHash) (b : BlockRound Tx Cx) : obM unit :=
  let! s := round_gets RoundState in
  when (s =? BlockVoteState) (
    when (negb (bool_decide (is_Some (BlockVoteMap b !! sender)))) (ignore (sendBlockGenTo (BlockGenMessage_ b) sender)) ;;;
    ignore (sendBlockVoteTo (BlockGenMessage_ b) sender)).

Definition block_round (h : Z) : obM (BlockRound Tx Cx) :=
  let! m := round_gets BlockRoundMap in
  match m !! h with Some b => ret b | None => fail ErrInvalidVote end.

Definition handleRoundSetup (sender : PublicHash) (msg : RoundSetupMessage) : obM unit :=
  let v := sm_MinRoundVoteAck msg in
  check_sender sender (marshal_hash v) (sm_Signature msg) ;;;
  let! b := block_round (ra_TargetHeight v) in
  check_round sender (negb (ra_IsReply v) && negb (bool_decide (sender = myPublicHash))) (ra_ChainID v) (ra_LastHash v)
    (ra_TargetHeight v) (ra_TimeoutCount v) (ra_Formulator v) (ra_FormulatorPublicHash v) ;;;
  answer_with_block sender b.

Definition handleBlockGenRequest (sender : PublicHash) (msg : BlockGenRequestMessage) : obM unit :=
  let v := qm_BlockGenRequest msg in
  check_sender sender (marshal_hash v) (qm_Signature msg) ;;;
  let! b := block_round (gr_TargetHeight v) in
  check_round sender (negb (bool_decide (sender = myPublicHash))) (gr_ChainID v) (gr_LastHash v)
    (gr_TargetHeight v) (gr_TimeoutCount v) (gr_Formulator v) (gr_FormulatorPublicHash v) ;;;
  answer_with_block sender b.

(** *** [BlockGenMessage] *)

(** The block of the formulator of the round, on the chain as it is. *)
Definition check_block (o : option RoundVoteAck) (wait : option (BlockGenMessage Tx)) (msg : BlockGenMessage Tx) : obM Cx :=
  let h := b_Header (gm_Block msg) in
  let! TimeoutCount := lift (DecodeConsensusData cUint32 (h_ConsensusData h)) in
  let! t := rt in
  let! Top := lift (TopRank t TimeoutCount) in
  guard (bool_decide (h_Generator h = r_Address Top)) ErrInvalidVote ;;;
  let! a := deref o in
  guard (bool_decide (h_Generator h = ra_Formulator a)) ErrInvalidVote ;;;
  let bh := header_hash h in
  match wait with
  | Some w => guard (bool_decide (bh = header_hash (b_Header (gm_Block w)))) ErrFoundForkedBlockGen
  | None => ret tt
  end ;;;
  let! pubkey := lift (recover bh (gm_GeneratorSignature msg)) in
  let Signer := NewPublicHash pubkey in
  guard (bool_decide (Signer = r_PublicHash Top)) ErrInvalidTopSignature ;;;
  guard (bool_decide (Signer = ra_FormulatorPublicHash a)) ErrInvalidVote ;;;
  let! c := get_chain id in
  lift (ct_ValidateHeader c h) ;;;
  let! t := now in
  guard (negb (u64 (u64 t + 10 * Second) <? h_Timestamp h)) ErrInvalidVote ;;;
  let! ctx := lift (ct_ExecuteBlockOnContext c (gm_Block msg)) in
  guard (bool_decide (h_ContextHash h = ct_ContextHash ctx)) ErrInvalidContextHash ;;;
  ret ctx.

Definition handleBlockGen (msg : BlockGenMessage Tx) (raw : bytes) : obM unit :=
  let h := b_Header (gm_Block msg) in
  let! b := block_round (h_Height h) in
  match BlockGenMessage_ b with Some _ => fail ErrInvalidVote | None => ret tt end ;;;
  let! o := round_gets MinRoundVoteAck in
  match o with
  | Some a => when (bool_decide (ra_PublicHash a = myPublicHash) && negb (length raw =? 0)%nat) (send (SBroadcastRaw raw))
  | None => ret tt
  end ;;;
  let! th := round_gets vr_TargetHeight in
  (if negb (h_Height h =? th) then
     when (th <? h_Height h) (upd_block (h_Height h) (with_gen_wait (Some msg))) ;;; fail ErrInvalidVote
   else ret tt) ;;;
  let! s := round_gets RoundState in
  (if negb (s =? BlockWaitState) then
     when (s <? BlockWaitState) (upd_block (h_Height h) (with_gen_wait (Some msg))) ;;; fail ErrInvalidVote
   else ret tt) ;;;
  let! ctx := check_block o (BlockGenMessageWait b) msg in
  upd_round (with_state BlockVoteState) ;;;
  upd_block (h_Height h) (with_gen (Some msg) (Some ctx)) ;;;
  ignore (sendBlockVote (Some msg)) ;;;
  for_each (range_of (BlockVoteMessageWaitMap b)) (fun kv => push (mkItem kv.1 (MBlockVote kv.2) [])).

(** *** [BlockVoteMessage] *)

(** The vote is for the block of this node, signed by its formulator and by the
    sender; the result is the hash of the header. *)
Definition check_block_vote (sender : PublicHash) (o : option RoundVoteAck) (gen : option (BlockGenMessage Tx)) (v : BlockVote) : obM Hash256 :=
  let h := bv_Header v in
  let! TimeoutCount := lift (DecodeConsensusData cUint32 (h_ConsensusData h)) in
  let! t := rt in
  let! Top := lift (TopRank t TimeoutCount) in
  guard (bool_decide (h_Generator h = r_Address Top)) ErrInvalidVote ;;;
  let bh := header_hash h in
  let! pubkey := lift (recover bh (bv_GeneratorSignature v)) in
  let Signer := NewPublicHash pubkey in
  guard (bool_decide (Signer = r_PublicHash Top)) ErrInvalidTopSignature ;;;
  let! a := deref o in
  guard (bool_decide (h_Generator h = ra_Formulator a)) ErrInvalidVote ;;;
  guard (bool_decide (Signer = ra_FormulatorPublicHash a)) ErrInvalidVote ;;;
  let! lh := get_chain cp_LastHash in
  guard (bool_decide (h_PrevHash h = lh)) ErrInvalidVote ;;;
  let! g := deref gen in
  guard (bool_decide (bh = header_hash (b_Header (gm_Block g)))) ErrInvalidVote ;;;
  let! c := get_chain id in
  lift (ct_ValidateHeader c h) ;;;
  let! pubkey := lift (recover (marshal_hash (mkBlockSign bh (bv_GeneratorSignature v))) (bv_ObserverSignature v)) in
  guard (bool_decide (sender = NewPublicHash pubkey)) ErrInvalidVote ;;;
  ret bh.

(** The block with the signatures of its formulator and of the voters. *)
Definition signed_block (g : BlockGenMessage Tx) (sigs : list Signature) : Block Tx :=
  let b := gm_Block g in
  mkBlock (b_Header b) (b_TransactionTypes b) (b_Transactions b) (b_TransactionSignatures b) (b_TransactionResults b)
    (gm_GeneratorSignature g :: sigs).

(** Whom the node tells about the new block: the formulator of the round and the
    next one, or the three after it. *)
Definition announce (a : RoundVoteAck) (h : Header) (bh : Hash256) (v : BlockVote) (sigs : list Signature) : obM unit :=
  let st := MStatus (mkStatusMessage (h_Version h) (h_Height h) bh) in
  let! adj := adjustFormulatorMap in
  let adj := delete (ra_Formulator a) adj in
  let! t := rt in
  let! NextTop := (if bool_decide (adj = ∅) then ret None else let! r := lift (TopRankInMap t adj) in ret (Some r.1)) in
  if bool_decide (ra_PublicHash a = myPublicHash) then
    let height := h_Height (bv_Header v) in
    sendMessage 0 (ra_Formulator a) (MBlockObSign (mkBlockObSignMessage height (mkBlockSign bh (bv_GeneratorSignature v)) sigs)) ;;;
    UpdateGuessHeight (ra_Formulator a) height ;;;
    match NextTop with
    | Some r => sendMessage 1 (r_Address r) st ;;; UpdateGuessHeight (r_Address r) height
    | None => ret tt
    end
  else
    let adj := match NextTop with Some r => delete (r_Address r) adj | None => adj end in
    if bool_decide (adj = ∅) then ret tt
    else match RanksInMap t adj 3 with
      | Ok ranks => for_each ranks (fun r => sendMessage 1 (r_Address r) st)
      | Err _ => ret tt
      | Panic w => throw w
      end.

(** The next block of the same formulator, or the next round. *)
Definition next_block (a : RoundVoteAck) : obM unit :=
  let! r := round_gets id in
  let NextHeight := u32 (vr_TargetHeight r + 1) in
  let! t := rt in
  let! Top := lift (TopRank t 0) in
  match (if bool_decide (r_Address Top = ra_Formulator a) then BlockRoundMap r !! NextHeight else None) with
  | Some b =>
      upd_round (fun r => with_height (u32 (vr_TargetHeight r + 1)) (with_fails 0 (with_state BlockWaitState r))) ;;;
      match BlockGenMessageWait b, BlockGenMessage_ b with
      | Some g, None => push (mkItem (replicate PublicHashSize 0) (MBlockGen g) [])
      | _, Some _ => ignore (sendBlockGenRequest NextHeight b)
      | None, None => ret tt
      end
  | None => resetVoteRound false
  end.

(** A majority has voted: connect the block. *)
Definition apply_votes (b : BlockRound Tx Cx) (o : option RoundVoteAck) (bh : Hash256) (v : BlockVote) : obM unit :=
  let sigs := (fun kv => bv_ObserverSignature kv.2) <$> range_of (BlockVoteMap b) in
  let! g := deref (BlockGenMessage_ b) in
  let! ctx := deref (br_Context b) in
  let blk := signed_block g sigs in
  on_chain (ct_ConnectBlockWithContext blk ctx) ;;;
  ignore broadcastStatus ;;;
  let! a := deref o in
  let! ign := gets ob_ignoreMap in
  set_ignore (delete (ra_Formulator a) ign) ;;;
  announce a (b_Header blk) bh v sigs ;;;
  next_block a.

Definition handleBlockVote (sender : PublicHash) (msg : BlockVoteMessage) : obM unit :=
  let v := vm_BlockVote msg in
  let h := bv_Header v in
  check_sender sender (marshal_hash v) (vm_Signature msg) ;;;
  let! b := block_round (h_Height h) in
  let! th := round_gets vr_TargetHeight in
  (if negb (h_Height h =? th) then
     (if h_Height h <? th then ignore (sendStatusTo sender)
      else upd_block (h_Height h) (fun b => with_vote_wait (<[sender := msg]> (BlockVoteMessageWaitMap b)) b)) ;;;
     fail ErrInvalidVote
   else ret tt) ;;;
  let! s := round_gets RoundState in
  (if negb (s =? BlockVoteState) then
     when (s <? BlockVoteState) (
       let! ign := gets ob_ignoreMap in
       when (bool_decide (is_Some (ign !! h_Generator h)))
         (set_ignore (delete (h_Generator h) ign) ;;; upd_round (with_fails 0)) ;;;
       upd_block (h_Height h) (fun b => with_vote_wait (<[sender := msg]> (BlockVoteMessageWaitMap b)) b) ;;;
       let! b := block_round (h_Height h) in
       match BlockGenMessageWait b, BlockGenMessage_ b with
       | None, None => when (s =? BlockWaitState) (ignore (sendBlockGenRequest (h_Height h) b))
       | _, _ => ret tt
       end) ;;;
     fail ErrInvalidVote
   else ret tt) ;;;
  let! o := round_gets MinRoundVoteAck in
  let! bh := check_block_vote sender o (BlockGenMessage_ b) v in
  match BlockVoteMap b !! sender with
  | Some _ => when (negb (bv_IsReply v)) (ignore (sendBlockVoteTo (BlockGenMessage_ b) sender)) ;;; fail ErrAlreadyVoted
  | None => ret tt
  end ;;;
  upd_block (h_Height h) (fun b => with_block_votes (<[sender := v]> (BlockVoteMap b)) b) ;;;
  when (negb (bv_IsReply v) && negb (bool_decide (sender = myPublicHash))) (ignore (sendBlockVoteTo (BlockGenMessage_ b) sender)) ;;;
  let b := with_block_votes (<[sender := v]> (BlockVoteMap b)) b in
  let! n := observer_count in
  when (n / 2 + 1 <=? size (BlockVoteMap b))%nat (apply_votes b o bh v).

(** *** The messages of [p2p] *)

Definition addBlock (b : Block Tx) : obM unit :=
  let h := b_Header b in
  let! c := get_chain id in
  if h_Height h <=? cp_Height c then
    let! hash := lift (cp_Hash c (h_Height h)) in
    guard (bool_decide (hash = header_hash h)) ErrFoundForkedBlock
  else
    let! q := gets ob_blockQ in
    let '(item, q) := FindOrInsert q b (h_Height h) in
    set_blockQ q ;;;
    match item with
    | Some old => guard (bool_decide (header_hash (b_Header old) = header_hash h)) ErrFoundForkedBlock
    | None => ret tt
    end.

Definition handleRequest (sender : PublicHash) (height : Z) : obM unit :=
  let! c := get_chain id in
  if cp_Height c <? height then ret tt
  else
    let! b := lift (cp_Block c height) in
    send (SRawTo sender (MBlock b)).

(** The heights of one of the three windows of ten. *)
Definition request_window (sender : PublicHash) (Height MsgHeight q : Z) : obM unit :=
  let BaseHeight := u32 (Height + q * 10) in
  for_u32 (u32 (BaseHeight + 1)) (Z.min (u32 (BaseHeight + 10)) MsgHeight) (fun i =>
    let! tm := gets ob_requestTimer in
    if timer_Exist tm i then ret tt
    else
      let! bq := gets ob_blockQ in
      match sq_find bq i with
      | None => ignore (sendRequestBlockTo sender i)
      | Some _ => ret tt
      end).

(** [for q := uint32(0); q < 3; q++ { ...; if BaseHeight > msg.Height { break } ... }]. *)
Fixpoint request_windows (sender : PublicHash) (Height MsgHeight : Z) (qs : list Z) : obM unit :=
  match qs with
  | [] => ret tt
  | q :: qs =>
      if MsgHeight <? u32 (Height + q * 10) then ret tt
      else request_window sender Height MsgHeight q ;;; request_windows sender Height MsgHeight qs
  end.

Definition handleStatus (sender : PublicHash) (msg : StatusMessage) : obM unit :=
  let! c := get_chain id in
  let! cs := obs_cs in
  let! o := round_gets MinRoundVoteAck in
  let Height := cp_Height c in
  if Height <? st_Height msg then
    let wanted := match o with None => true | Some a => st_Height msg <? u32 (ra_TargetHeight a + maxBlocksPerFormulator cs) end in
    when wanted (request_windows sender Height (st_Height msg) [0; 1; 2])
  else
    let! h := lift (cp_Hash c (st_Height msg)) in
    if negb (bool_decide (h = st_LastHash msg)) then throw "found forked block" else ret tt.

(** ** [handleObserverMessage] *)

Definition handleObserverMessage (item : messageItem Tx) : obM unit :=
  let sender := mi_PublicHash item in
  syncVoteRound ;;;
  match mi_Message item with
  | MRoundVote msg => handleRoundVote sender msg
  | MRoundVoteAck msg => handleRoundVoteAck sender msg
  | MRoundSetup msg => handleRoundSetup sender msg
  | MBlockGen msg => handleBlockGen msg (mi_Raw item)
  | MBlockGenRequestValue msg => handleBlockGenRequest sender msg
  | MBlockVote msg => handleBlockVote sender msg
  | MRequest height => handleRequest sender height
  | MStatus msg => handleStatus sender msg
  | MBlock b =>
      let! r := attempt (addBlock b) in
      match r with inl _ => throw "panic" | inr _ => ret tt end
  | MBlockReq _ | MBlockObSign _ | MBlockGenRequest _ => fail ErrUnknownMessage
  end.

(** ** The steps of [Run] *)

Definition NewObserverNode (c : Ch) (t : Z) : ObserverNode :=
  mkObserverNode c (NewVoteRound (u32 (cp_Height c + 1)) (maxBlocksPerFormulator (cp_cs c))) ∅ 0 0 [] NewSortedQueue NewRequestTimer ∅ t [].

(** A message of another observer; blocks of formulators carry no sender. *)
Definition onObserverRecv (ID : PublicHash) (m : ObMessage Tx) : obM unit :=
  match m with
  | MBlockGen _ => push (mkItem (replicate PublicHashSize 0) m [])
  | _ => push (mkItem ID m [])
  end.

(** A message of the formulator [addr], a peer; [raw] is its packet. *)
Definition handleFormulatorMessage (addr : Address) (m : ObMessage Tx) (raw : bytes) : obM unit :=
  let! c := get_chain id in
  match m with
  | MBlockGen _ => push (mkItem (replicate PublicHashSize 0) m raw)
  | MRequest height =>
      let! gh := GuessHeight addr in
      if gh <? height then
        let! counts := GuessHeightCountMap in
        let Height := cp_Height c in
        let! enable := (if default 0 (counts !! Height) <? 3 then ret true
          else
            let! t := rt in
            let! adj := adjustFormulatorMap in
            let! ranks := lift (RanksInMap t adj 5) in
            ret (bool_decide (addr ∈ r_Address <$> ranks))) in
        if negb enable || (Height <? height) then ret tt
        else
          let! b := lift (cp_Block c height) in
          send (SRawToPeer addr (MBlock b)) ;;;
          UpdateGuessHeight addr height
      else ret tt
  | MStatus msg =>
      let! gh := GuessHeight addr in
      when (gh <? st_Height msg) (UpdateGuessHeight addr (st_Height msg)) ;;;
      if st_Height msg <=? cp_Height c then
        let! h := lift (cp_Hash c (st_Height msg)) in
        when (negb (bool_decide (h = st_LastHash msg))) (RemovePeer addr)
      else ret tt
  | _ => throw "unknown message"
  end.

(** The queue timer handles the messages of the queue one by one; errors are dropped. *)
Definition queue_step : obM unit :=
  let! q := gets ob_messageQueue in
  match q with
  | [] => ret tt
  | item :: q => set_queue q ;;; ignore (handleObserverMessage item)
  end.

(** The block timer connects up to [n] blocks of the queue. *)
Fixpoint connect_queued (n : nat) (TargetHeight : Z) : obM bool :=
  match n with
  | O => ret false
  | S n =>
      let! q := gets ob_blockQ in
      let '(item, q) := PopUntil q TargetHeight in
      set_blockQ q ;;;
      match item with
      | None => ret false
      | Some b =>
          let! r := attempt (on_chain (cn_ConnectBlock b)) in
          match r with
          | inl _ => throw "panic"
          | inr _ => let! _ := connect_queued n (TargetHeight + 1) in ret true
          end
      end
  end.

(** At most 101 blocks; the status is sent when a block was connected. *)
Definition block_timer : obM unit :=
  let! h := get_chain cp_Height in
  let! hasItem := connect_queued 101 (u32 (h + 1)) in
  when hasItem broadcastStatus.

(** A formulator that let the round fail is ignored, the second time longer. *)
Definition punish : obM unit :=
  let! o := round_gets MinRoundVoteAck in
  match o with
  | Some a =>
      let addr := ra_Formulator a in
      let! ign := gets ob_ignoreMap in
      let! t := now in
      match ign !! addr with
      | Some _ => RemovePeer addr ;;; set_ignore (<[addr := t + 120 * Second]> ign)
      | None => set_ignore (<[addr := t + 30 * Second]> ign)
      end
  | None => ret tt
  end.

Definition vote_timer : obM unit :=
  syncVoteRound ;;;
  let! adj := adjustFormulatorMap in
  when (negb (bool_decide (adj = ∅))) (
    upd_round (fun r => with_fails (VoteFailCount r + 1) r) ;;;
    let! n := round_gets VoteFailCount in
    when (20 <? n) (punish ;;; resetVoteRound true) ;;;
    let! r := round_gets id in
    if RoundState r =? RoundVoteState then ignore sendRoundVote ;;; ignore broadcastStatus
    else if RoundState r =? BlockVoteState then
      match BlockRoundMap r !! vr_TargetHeight r with
      | Some b => ignore (sendBlockVote (BlockGenMessage_ b))
      | None => ret tt
      end
    else ret tt).

(** A request was not answered: ask the first other observer of [peers]. *)
Definition OnTimerExpired (peers : list PublicHash) (height : Z) (value : bytes) : obM unit :=
  let! h := get_chain cp_Height in
  when (h <? height) (
    let Target := copy_into PublicHashSize value in
    match list_find (fun p => p <> myPublicHash /\ p <> Target) peers with
    | Some (_, p) => ignore (sendRequestBlockTo p height)
    | None => ret tt
    end).

(** What may happen to the node; [OnFormulator] is the receive loop of [Run] taking a
    message off its queues (how it got there is below). *)
Inductive ob_event :=
  | OnTime (t : Z)
  | OnObserver (ID : PublicHash) (m : ObMessage Tx)
  | OnFormulator (addr : Address) (m : ObMessage Tx) (raw : bytes)
  | OnPeers (peers : gmap Address Z)
  | OnQueue
  | OnBlockTimer
  | OnVoteTimer
  | OnExpired (peers : list PublicHash) (height : Z) (value : bytes).

Definition do_event (e : ob_event) : obM unit :=
  match e with
  | OnTime t => modify (fun ob => mkObserverNode (ob_chain ob) (ob_round ob) (ob_ignoreMap ob) (ob_roundFirstTime ob) (ob_roundFirstHeight ob)
      (ob_messageQueue ob) (ob_blockQ ob) (ob_requestTimer ob) (ob_peers ob) t (ob_sent ob))
  | OnObserver ID m => onObserverRecv ID m
  | OnFormulator addr m raw =>
      let! peers := gets ob_peers in
      match peers !! addr with
      | Some _ =>
          let! r := attempt (handleFormulatorMessage addr m raw) in
          match r with inl _ => RemovePeer addr | inr _ => ret tt end
      | None => ret tt
      end
  | OnPeers peers => set_peers peers
  | OnQueue => queue_step
  | OnBlockTimer => block_timer
  | OnVoteTimer => vote_timer
  | OnExpired peers height value => OnTimerExpired peers height value
  end.

(** ** The messages of formulators

    The connections of formulators call [onFormulatorRecv] on goroutines of their own,
    without the lock of the node; the receive loop of [Run] takes what they queued. *)

Record RecvItem := mkRecvItem { ri_PeerID : Address; ri_Message : ObMessage Tx; ri_Packet : bytes }.

(** The node, [recvQueues], and the calls of [onFormulatorRecv] that have seen a
    [MinRoundVoteAck] and have not compared its formulator yet. *)
Record ObserverRun := mkObserverRun {
  or_node : ObserverNode;
  or_recv0 : list RecvItem;
  or_recv1 : list RecvItem;
  or_reading : list RecvItem
}.

Definition NewObserverRun (c : Ch) (t : Z) : ObserverRun := mkObserverRun (NewObserverNode c t) [] [] [].

Definition on_node {A} (m : obM A) : ST ObserverRun A := fun r =>
  let '(x, ob) := m (or_node r) in (x, mkObserverRun ob (or_recv0 r) (or_recv1 r) (or_reading r)).
Definition recv_push (first : bool) (item : RecvItem) : ST ObserverRun unit := modify (fun r =>
  if first then mkObserverRun (or_node r) (or_recv0 r ++ [item]) (or_recv1 r) (or_reading r)
  else mkObserverRun (or_node r) (or_recv0 r) (or_recv1 r ++ [item]) (or_reading r)).
Definition set_reading (l : list RecvItem) : ST ObserverRun unit := modify (fun r =>
  mkObserverRun (or_node r) (or_recv0 r) (or_recv1 r) l).

(** [onFormulatorRecv] up to the test [ob.round.MinRoundVoteAck != nil]. *)
Definition onFormulatorRecv (ID : Address) (m : ObMessage Tx) (raw : bytes) : ST ObserverRun unit :=
  let item := mkRecvItem ID m raw in
  match m with
  | MBlockGen _ => recv_push true item
  | MRequest _ =>
      let! o := on_node (round_gets MinRoundVoteAck) in
      match o with
      | Some _ => let! l := gets or_reading in set_reading (l ++ [item])
      | None => recv_push false item
      end
  | MStatus _ => recv_push false item
  | _ => throw "unknown message"
  end.

(** The rest of call [k]: [ob.round.MinRoundVoteAck.Formulator], read again. *)
Definition onFormulatorRecv_again (k : nat) : ST ObserverRun unit :=
  let! l := gets or_reading in
  match l !! k with
  | None => ret tt
  | Some item =>
      let! o := on_node (round_gets MinRoundVoteAck) in
      let! a := on_node (deref o) in
      set_reading (delete k l) ;;;
      recv_push (bool_decide (ra_Formulator a = ri_PeerID item)) item
  end.

(** The receive loop takes an item of a queue. *)
Definition recv_pop (first : bool) : ST ObserverRun unit :=
  let! q := gets (if first then or_recv0 else or_recv1) in
  match q with
  | [] => ret tt
  | item :: q =>
      modify (fun r => if first then mkObserverRun (or_node r) q (or_recv1 r) (or_reading r)
                       else mkObserverRun (or_node r) (or_recv0 r) q (or_reading r)) ;;;
      on_node (do_event (OnFormulator (ri_PeerID item) (ri_Message item) (ri_Packet item)))
  end.

Inductive run_event :=
  | OnNode (e : ob_event)
  | OnRecv (ID : Address) (m : ObMessage Tx) (raw : bytes)
  | OnRecvAgain (k : nat)
  | OnRecvPop (first : bool).

(** A step of the running node; a formulator's message comes through the queues only. *)
Definition do_run (e : run_event) : ST ObserverRun unit :=
  match e with
  | OnNode (OnFormulator _ _ _) => ret tt
  | OnNode e => on_node (do_event e)
  | OnRecv ID m raw => onFormulatorRecv ID m raw
  | OnRecvAgain k => onFormulatorRecv_again k
  | OnRecvPop first => recv_pop first
  end.
End Node.
