(* ===== verification/ObserverSafe.v ===== *)
(** * The invariant of an observer

    What holds of the round of an observer after any events: in the phases that use
    them the chosen vote, the block and its context are there, and every counted
    vote on a block is signed by an observer of the chain.  So no handler
    dereferences a nil pointer, and a block that is connected by votes carries
    signatures that [ValidateSignature] accepts. *)

From stdpp Require Import base gmap list sorting strings.
From Stdlib Require Import ZArith Lia.
From S2P Require Import Prelude Common LevelRoot OrderedMap Types Context Chain RankTable Consensus ConsensusSpec Queue RequestTimer Observer.

(** The result is not a panic for a nil pointer. *)
Definition calm {A} (r : res A) : Prop := r <> Panic nil_pointer.

Section Node.
Context `{T : !LLRB (item PublicHash bool) item_Less}.
Context {Ch Tx Cx : Type} `{CI : !ChainI Ch Tx Cx} `{RO : !RangeOrder}.
Context (cUint32 : Coder Z) `{SH : Sha256} `{EC : Ecrecover}.
Context `{!Marshaler Header, !Marshaler BlockSign, !Marshaler RoundVote, !Marshaler RoundVoteAck, !Marshaler BlockVote, !Marshaler BlockGenRequest}.
Context (my : PublicHash) (Sign : Hash256 -> res Signature).

(** What the node relies on: the calls it makes do not panic on a nil pointer, and
    the observers of the chain stay the same. *)
Class CalmCalls : Prop := {
  cc_Sign : forall h, calm (Sign h);
  cc_recover : forall h s, calm (recover h s);
  cc_decode : forall bs, calm (decode (Coder := cUint32) bs);
  cc_Hash : forall (c : Ch) h, calm (cp_Hash c h);
  cc_Block : forall (c : Ch) h, calm (cp_Block c h);
  cc_ValidateHeader : forall (c : Ch) h, calm (ct_ValidateHeader c h);
  cc_Execute : forall (c : Ch) b, calm (ct_ExecuteBlockOnContext c b);
  cc_Connect : forall b cx (c : Ch), calm (fst (ct_ConnectBlockWithContext b cx c));
  cc_ConnectBlock : forall b (c : Ch), calm (fst (cn_ConnectBlock b c));
  cc_keys : forall b cx (c : Ch), observerKeyMap (cp_cs (snd (ct_ConnectBlockWithContext b cx c))) = observerKeyMap (cp_cs c);
  cc_keys' : forall b (c : Ch), observerKeyMap (cp_cs (snd (cn_ConnectBlock b c))) = observerKeyMap (cp_cs c)
}.

Abbreviation Ob := (ObserverNode (Ch := Ch) (Tx := Tx) (Cx := Cx)).
Abbreviation M A := (obM (Ch := Ch) (Tx := Tx) (Cx := Cx) A).
Abbreviation VR := (VoteRound Tx Cx).
Abbreviation BR := (BlockRound Tx Cx).
Abbreviation Keys := (llrb (LLRB := T)).

(** ** The invariant *)

(** The sender signed the generator's signature and the hash of the header. *)
Definition vote_signed (hh : Hash256) (k : PublicHash) (v : BlockVote) : Prop :=
  exists pubkey, recover (marshal_hash (mkBlockSign hh (bv_GeneratorSignature v))) (bv_ObserverSignature v) = Ok pubkey /\ NewPublicHash pubkey = k.

Definition votes_ok (keys : Keys) (b : BR) : Prop :=
  match BlockGenMessage_ b with
  | None => BlockVoteMap b = ∅
  | Some g => is_Some (br_Context b) /\
      map_Forall (fun k v => Has keys k = true /\ vote_signed (header_hash (b_Header (gm_Block g))) k v) (BlockVoteMap b)
  end.

Record round_inv (keys : Keys) (r : VR) : Prop := {
  ri_state : 1 <= RoundState r <= 4;
  ri_ack : BlockWaitState <= RoundState r -> is_Some (MinRoundVoteAck r);
  ri_vote : RoundState r = BlockVoteState -> exists b, BlockRoundMap r !! vr_TargetHeight r = Some b /\ is_Some (BlockGenMessage_ b);
  ri_votes : map_Forall (fun _ b => votes_ok keys b) (BlockRoundMap r);
  ri_observers : map_Forall (fun k _ => Has keys k = true) (RoundVoteMessageMap r);
  ri_few : (Len keys <= 2)%nat -> RoundState r = RoundVoteState /\ MinRoundVoteAck r = None
}.

(** [keys] are the observers, before and after; [J] is a property of the chain. *)
Definition inv (keys : Keys) (J : Ch -> Prop) (r : VR) (c : Ch) : Prop :=
  (observerKeyMap (cp_cs c) = keys /\ J c) /\ round_inv keys r.

(** ** Steps from a round and a chain

    From a node with the round [r] and the chain [c], [m] ends with [Q] of its result,
    or with an error and [E], or with a panic that is not for a nil pointer. *)
Definition wp {A} (E : VR -> Ch -> Prop) (r : VR) (c : Ch) (m : M A) (Q : A -> VR -> Ch -> Prop) : Prop :=
  forall ob, ob_round ob = r -> ob_chain ob = c ->
  match m ob with
  | (Ok x, ob') => Q x (ob_round ob') (ob_chain ob')
  | (Err _, ob') => E (ob_round ob') (ob_chain ob')
  | (Panic w, _) => w <> nil_pointer
  end.

(** ** Calls that leave the round and the chain alone *)

Definition same (ob ob' : Ob) : Prop := ob_round ob' = ob_round ob /\ ob_chain ob' = ob_chain ob.
Definition quiet {A} (m : M A) : Prop := forall ob,
  match m ob with (Panic w, _) => w <> nil_pointer | (_, ob') => same ob ob' end.

Lemma same_refl ob : same ob ob.
Proof. done. Qed.
Lemma same_trans a b c : same a b -> same b c -> same a c.
Proof. intros [H1 H2] [H3 H4]. split; congruence. Qed.
Lemma quiet_bind {A B} (m : M A) (k : A -> M B) : quiet m -> (forall x, quiet (k x)) -> quiet (bind m k).
Proof.
  intros Hm Hk ob. specialize (Hm ob). unfold bind. destruct (m ob) as [[x|e|w] ob1]; [|done|done].
  specialize (Hk x ob1). destruct (k x ob1) as [[y|e|w] ob2]; [| |done]; by eapply same_trans.
Qed.
Lemma quiet_ret {A} (x : A) : quiet (ret x).
Proof. by intros ob. Qed.
Lemma quiet_fail {A} e : quiet (fail (A := A) e).
Proof. by intros ob. Qed.
Lemma quiet_throw {A} w : w <> nil_pointer -> quiet (throw (A := A) w).
Proof. by intros Hw ob. Qed.
Lemma quiet_lift {A} (r : res A) : calm r -> quiet (lift r).
Proof. intros Hr ob. unfold lift. destruct r; [done|done|]. intros ->. by apply Hr. Qed.
Lemma quiet_gets {A} (f : Ob -> A) : quiet (gets f).
Proof. by intros ob. Qed.
Lemma quiet_guard b e : quiet (guard b e).
Proof. by destruct b. Qed.
Lemma quiet_attempt {A} (m : M A) : quiet m -> quiet (attempt m).
Proof. intros Hm ob. specialize (Hm ob). unfold attempt. by destruct (m ob) as [[x|e|w] ob1]. Qed.
Lemma quiet_ignore {A} (m : M A) : quiet m -> quiet (ignore m).
Proof. intros Hm. apply quiet_bind; [by apply quiet_attempt|]. intros. apply quiet_ret. Qed.
Lemma quiet_when b (m : M unit) : quiet m -> quiet (when b m).
Proof. by destruct b. Qed.
Lemma quiet_for_each {A} (l : list A) (body : A -> M unit) : (forall x, quiet (body x)) -> quiet (for_each l body).
Proof. intros Hb. induction l; cbn [for_each]; [apply quiet_ret|]. by apply quiet_bind. Qed.
Lemma quiet_for_u32 lo hi (body : Z -> M unit) : (forall i, quiet (body i)) -> quiet (for_u32 lo hi body).
Proof. intros Hb. apply quiet_bind; [by apply quiet_for_each|]. intros _. destruct (hi =? 2 ^ 32 - 1); [by apply quiet_throw|apply quiet_ret]. Qed.
Lemma quiet_deref {A} (a : A) : quiet (deref (Some a)).
Proof. apply quiet_ret. Qed.
Lemma quiet_must {A} (r : res A) : calm r -> quiet (must r).
Proof. intros Hr. destruct r; cbn; [apply quiet_ret| by apply quiet_throw|]. intros ob. cbn. intros ->. by apply Hr. Qed.

Lemma quiet_send e : quiet (send e). Proof. done. Qed.
Lemma quiet_set_queue q : quiet (set_queue q). Proof. done. Qed.
Lemma quiet_set_ignore q : quiet (set_ignore q). Proof. done. Qed.
Lemma quiet_set_first a b : quiet (set_first a b). Proof. done. Qed.
Lemma quiet_set_blockQ q : quiet (set_blockQ q). Proof. done. Qed.
Lemma quiet_set_timer q : quiet (set_timer q). Proof. done. Qed.
Lemma quiet_set_peers q : quiet (set_peers q). Proof. done. Qed.

(** The calls of the rank table. *)
Lemma calm_TopRank rt n : calm (TopRank rt n).
Proof. unfold calm, TopRank. by repeat destr_match. Qed.
Lemma calm_TopRankInMap rt m : calm (TopRankInMap rt m).
Proof.
  unfold calm, TopRankInMap. destr_match; [done|]. generalize 0. induction (candidates rt); intros i; cbn [first_in_map]; [done|].
  destr_match; [done|]. apply IHl.
Qed.
Lemma calm_RanksInMap rt m n : calm (RanksInMap rt m n).
Proof. unfold calm, RanksInMap. by destr_match. Qed.
Lemma calm_Decode `{!CalmCalls} bs : calm (DecodeConsensusData cUint32 bs).
Proof.
  unfold calm, DecodeConsensusData. pose proof (cc_decode bs) as Hd. destruct (decode bs) as [[]|e|w]; cbn; [done|done|].
  intros [= ->]. by apply Hd.
Qed.

(** *** The rules *)

Section Rules.
Context (E : VR -> Ch -> Prop).

Lemma wp_mono {A} r c (m : M A) (Q Q' : A -> VR -> Ch -> Prop) : wp E r c m Q -> (forall x r c, Q x r c -> Q' x r c) -> wp E r c m Q'.
Proof. intros Hm HQ ob Hr Hc. specialize (Hm ob Hr Hc). destruct (m ob) as [[x|e|w] ob1]; auto. Qed.
Lemma wp_bind {A B} r c (m : M A) (k : A -> M B) P Q :
  wp E r c m P -> (forall x r c, P x r c -> wp E r c (k x) Q) -> wp E r c (bind m k) Q.
Proof.
  intros Hm Hk ob Hr Hc. specialize (Hm ob Hr Hc). unfold bind. destruct (m ob) as [[x|e|w] ob1]; [|done|done]. by apply (Hk x _ _ Hm).
Qed.
Lemma wp_ret {A} r c (x : A) (Q : A -> VR -> Ch -> Prop) : Q x r c -> wp E r c (ret x) Q.
Proof. by intros HQ ob <- <-. Qed.
Lemma wp_fail {A} r c e (Q : A -> VR -> Ch -> Prop) : E r c -> wp E r c (fail e) Q.
Proof. by intros HE ob <- <-. Qed.
Lemma wp_throw {A} r c w (Q : A -> VR -> Ch -> Prop) : w <> nil_pointer -> wp E r c (throw w) Q.
Proof. by intros HE ob <- <-. Qed.
Lemma wp_quiet {A B} r c (m : M A) (k : A -> M B) Q : quiet m -> E r c -> (forall x, wp E r c (k x) Q) -> wp E r c (bind m k) Q.
Proof.
  intros Hm HE Hk ob Hr Hc. specialize (Hm ob). unfold bind. destruct (m ob) as [[x|e|w] ob1]; [|..|done]; destruct Hm as [H1 H2].
  - apply Hk; congruence.
  - congruence.
Qed.
Lemma wp_quiet_end {A} r c (m : M A) (Q : A -> VR -> Ch -> Prop) : quiet m -> E r c -> (forall x, Q x r c) -> wp E r c m Q.
Proof.
  intros Hm HE HQ ob Hr Hc. specialize (Hm ob). destruct (m ob) as [[x|e|w] ob1]; [| |done]; destruct Hm as [-> ->]; rewrite Hr, Hc; done.
Qed.
Lemma wp_round {A B} r c (f : VR -> A) (k : A -> M B) Q : wp E r c (k (f r)) Q -> wp E r c (bind (round_gets f) k) Q.
Proof. intros Hk ob Hr Hc. rewrite <- Hr in Hk at 2. by apply Hk. Qed.
Lemma wp_chain {A B} r c (f : Ch -> A) (k : A -> M B) Q : wp E r c (k (f c)) Q -> wp E r c (bind (get_chain f) k) Q.
Proof. intros Hk ob Hr Hc. rewrite <- Hc in Hk at 2. by apply Hk. Qed.
Lemma wp_upd r c f Q : Q tt (f r) c -> wp E r c (upd_round f) Q.
Proof. by intros HQ ob <- <-. Qed.
Lemma wp_set_round r c r' Q : Q tt r' c -> wp E r c (set_round r') Q.
Proof. by intros HQ ob <- <-. Qed.
Lemma wp_lift {A} r c (x : res A) (Q : A -> VR -> Ch -> Prop) : calm x -> E r c -> (forall a, x = Ok a -> Q a r c) -> wp E r c (lift x) Q.
Proof. intros Hx HE HQ ob <- <-. unfold lift. destruct x; [by apply HQ|done|]. intros ->. by apply Hx. Qed.
Lemma wp_guard r c b e (Q : unit -> VR -> Ch -> Prop) : E r c -> (b = true -> Q tt r c) -> wp E r c (guard b e) Q.
Proof. destruct b; intros HE HQ; [apply wp_ret, HQ | apply wp_fail]; done. Qed.
Lemma wp_deref {A} r c (o : option A) (Q : A -> VR -> Ch -> Prop) : is_Some o -> (forall a, o = Some a -> Q a r c) -> wp E r c (deref o) Q.
Proof. intros [a ->] HQ. by apply wp_ret, HQ. Qed.
Lemma wp_attempt {A B} r c (m : M A) (k : error + A -> M B) P Q :
  wp (P None) r c m (fun x => P (Some x)) -> (forall e r c, P None r c -> wp E r c (k (inl e)) Q) ->
  (forall x r c, P (Some x) r c -> wp E r c (k (inr x)) Q) -> wp E r c (bind (attempt m) k) Q.
Proof.
  intros Hm H1 H2 ob Hr Hc. specialize (Hm ob Hr Hc). unfold bind, attempt. destruct (m ob) as [[x|e|w] ob1]; [..|done].
  - by apply (H2 x _ _ Hm).
  - by apply (H1 e _ _ Hm).
Qed.
Lemma wp_ignore {A} r c (m : M A) (Q : unit -> VR -> Ch -> Prop) : wp (Q tt) r c m (fun _ => Q tt) -> wp E r c (ignore m) Q.
Proof. intros Hm. eapply (wp_attempt _ _ _ _ (fun _ => Q tt)); [done|intros; by apply wp_ret..]. Qed.
Lemma wp_on_chain {A} r c (m : ST Ch A) (Q : A -> VR -> Ch -> Prop) : calm (fst (m c)) -> E r (snd (m c)) ->
  (forall a, fst (m c) = Ok a -> Q a r (snd (m c))) -> wp E r c (on_chain m) Q.
Proof. intros Hx HE HQ ob <- <-. unfold on_chain. destruct (m (ob_chain ob)) as [[x|e|w] c1]; cbn in *; [by apply HQ|done|]. intros ->. by apply Hx. Qed.
End Rules.

(** ** What the node sends *)

Section Sends.
Context `{CC : !CalmCalls}.

Ltac quiet1 := first
  [ assumption | apply quiet_ret | apply quiet_fail | apply quiet_gets | apply quiet_guard | done | by apply quiet_throw
  | apply quiet_when | apply quiet_ignore | apply quiet_attempt
  | apply quiet_lift; first [apply cc_Sign | apply cc_recover | apply calm_TopRank | apply calm_TopRankInMap | apply calm_RanksInMap
                            | apply cc_Hash | apply cc_Block | apply cc_ValidateHeader | apply cc_Execute]
  | apply quiet_bind; [|intros] | apply quiet_for_each; intros | apply quiet_for_u32; intros
  | match goal with |- quiet (match ?x with _ => _ end) => destruct x eqn:? end ].
Ltac quiet := intros; repeat quiet1.

Lemma quiet_push i : quiet (push i). Proof. quiet. Qed.
Lemma quiet_RemovePeer a : quiet (RemovePeer a). Proof. unfold RemovePeer. quiet. Qed.
Lemma quiet_GuessHeight a : quiet (GuessHeight a). Proof. unfold GuessHeight. quiet. Qed.
Lemma quiet_UpdateGuessHeight a h : quiet (UpdateGuessHeight a h). Proof. unfold UpdateGuessHeight. quiet. Qed.
Lemma quiet_adjust : quiet adjustFormulatorMap. Proof. unfold adjustFormulatorMap. quiet. Qed.
Lemma quiet_sendMessage n a m : quiet (sendMessage n a m). Proof. done. Qed.
Lemma quiet_sendStatusTo k : quiet (sendStatusTo my k). Proof. unfold sendStatusTo. quiet. Qed.
Lemma quiet_broadcastStatus : quiet broadcastStatus. Proof. unfold broadcastStatus. quiet. Qed.
Lemma quiet_sendRequestBlockTo k h : quiet (sendRequestBlockTo my k h). Proof. unfold sendRequestBlockTo. quiet. Qed.
Lemma quiet_my_round_vote b : quiet (my_round_vote b).
Proof. unfold my_round_vote. quiet. Qed.
Lemma quiet_sendRoundVoteTo k : quiet (sendRoundVoteTo my Sign k).
Proof. unfold sendRoundVoteTo. quiet. Qed.
Lemma quiet_sendRoundVoteAckTo k : quiet (sendRoundVoteAckTo my Sign k).
Proof. unfold sendRoundVoteAckTo. quiet. Qed.
Lemma quiet_my_block_vote g b : quiet (my_block_vote Sign (Some g) b).
Proof. unfold my_block_vote. quiet. Qed.
Lemma quiet_sendBlockVoteTo g k : quiet (sendBlockVoteTo my Sign (Some g) k).
Proof. unfold sendBlockVoteTo. quiet. Qed.
Lemma quiet_sendBlockVote g : quiet (sendBlockVote my Sign (Some g)).
Proof. unfold sendBlockVote. quiet. Qed.
Lemma quiet_sendBlockGenTo g k : quiet (sendBlockGenTo my (Some g) k).
Proof. unfold sendBlockGenTo. quiet. Qed.
Lemma quiet_addBlock b : quiet (addBlock b). Proof. unfold addBlock. quiet. Qed.
Lemma quiet_handleRequest k h : quiet (handleRequest k h). Proof. unfold handleRequest. quiet. Qed.
Lemma quiet_request_window k h n q : quiet (request_window my k h n q).
Proof. unfold request_window. quiet; apply quiet_sendRequestBlockTo. Qed.
Lemma quiet_request_windows k h n qs : quiet (request_windows my k h n qs).
Proof. induction qs as [|q qs IH]; cbn [request_windows]; quiet; apply quiet_sendRequestBlockTo. Qed.
Lemma quiet_handleStatus k m : quiet (handleStatus my k m).
Proof. unfold handleStatus. quiet; apply quiet_request_windows. Qed.
Lemma quiet_handleFormulatorMessage a m raw : quiet (handleFormulatorMessage a m raw).
Proof. unfold handleFormulatorMessage. quiet. Qed.
Lemma quiet_OnTimerExpired l h v : quiet (OnTimerExpired my l h v).
Proof. unfold OnTimerExpired. quiet; apply quiet_sendRequestBlockTo. Qed.
Lemma quiet_check_sender k h s : quiet (check_sender k h s).
Proof. unfold check_sender. quiet. Qed.
Lemma quiet_announce a h bh v sigs : quiet (announce my a h bh v sigs).
Proof. unfold announce. quiet. apply quiet_throw. intros ->. by eapply calm_RanksInMap. Qed.
Lemma quiet_punish : quiet punish.
Proof. unfold punish. quiet. Qed.
End Sends.
End Node.
