(* ===== verification/ObserverInv.v ===== *)
(** * An observer over its runs

    Every handler keeps the invariant of [ObserverSafe]; so do the timers, and so
    does every run from a new node. *)

From stdpp Require Import base gmap list sorting strings.
From Stdlib Require Import ZArith Lia.
From S2P Require Import Prelude Common LevelRoot OrderedMap Types Context Chain RankTable Consensus ConsensusSpec Queue RequestTimer Observer ObserverSafe.

Section Node.
Context `{T : !LLRB (item PublicHash bool) item_Less}.
Context {Ch Tx Cx : Type} `{CI : !ChainI Ch Tx Cx} `{RO : !RangeOrder}.
Context (cUint32 : Coder Z) `{SH : Sha256} `{EC : Ecrecover}.
Context `{!Marshaler Header, !Marshaler BlockSign, !Marshaler RoundVote, !Marshaler RoundVoteAck, !Marshaler BlockVote, !Marshaler BlockGenRequest}.
Context (my : PublicHash) (Sign : Hash256 -> res Signature).
Context `{CC : !CalmCalls cUint32 Sign}.

Abbreviation M A := (obM (Ch := Ch) (Tx := Tx) (Cx := Cx) A).
Abbreviation VR := (VoteRound Tx Cx).
Abbreviation BR := (BlockRound Tx Cx).
Abbreviation Keys := (llrb (LLRB := T)).

(** The observers of the chain. *)
Context (keys : Keys) (keys_wf : map_wf keys) (J : Ch -> Prop).

Abbreviation I := (inv keys J).
Abbreviation keeps r c m := (wp I r c m (fun _ => I)).
Abbreviation rinv := (round_inv keys).

(** ** The parts of the round *)

Lemma NewVoteRound_inv h n : rinv (NewVoteRound h n : VR).
Proof.
  split; unfold BlockWaitState, BlockVoteState, RoundVoteState; cbn; try done.
  intros i b Hb. unfold NewVoteRound in Hb. cbn in Hb. apply elem_of_list_to_map_2, list_elem_of_fmap in Hb as (? & [= -> ->] & _). done.
Qed.

Lemma with_fails_inv n (r : VR) : rinv r -> rinv (with_fails n r).
Proof. by intros []. Qed.
Lemma with_min_vote_inv h (r : VR) : rinv r -> rinv (with_min_vote h r).
Proof. by intros []. Qed.
Lemma with_acks_inv m (r : VR) : rinv r -> rinv (with_acks m r).
Proof. by intros []. Qed.
Lemma with_ack_wait_inv m (r : VR) : rinv r -> rinv (with_ack_wait m r).
Proof. by intros []. Qed.
Lemma with_votes_inv k m (r : VR) : Has keys k = true -> rinv r -> rinv (with_votes (<[k := m]> (RoundVoteMessageMap r)) r).
Proof. intros Hk []. split; try done. by apply map_Forall_insert_2. Qed.
Lemma with_blocks_inv h f (r : VR) : (forall b, BlockRoundMap r !! h = Some b -> votes_ok keys b -> votes_ok keys (f b)) ->
  (forall b, is_Some (BlockGenMessage_ b) -> is_Some (BlockGenMessage_ (f b))) ->
  rinv r -> rinv (with_blocks (alter f h (BlockRoundMap r)) r).
Proof.
  intros Hv Hg []. split; try done; cbn.
  - intros (b & Hb & Hs)%ri_vote. destruct (decide (h = vr_TargetHeight r)) as [->|Hne].
    + exists (f b). rewrite lookup_alter_eq, Hb. split; [done|auto].
    + exists b. by rewrite lookup_alter_ne.
  - intros i b. destruct (decide (h = i)) as [->|Hne].
    + rewrite lookup_alter_eq. intros (b0 & Hb & ->)%fmap_Some. eauto.
    + rewrite lookup_alter_ne by done. eauto.
Qed.

(** At most two observers cannot cast the votes that end the first phase. *)
Lemma votes_bound (r : VR) : rinv r -> (size (RoundVoteMessageMap r) <= Len keys)%nat.
Proof.
  intros [_ _ _ _ Ho _]. rewrite Len_contents, <- !size_dom by done. apply subseteq_size. intros k Hk.
  apply elem_of_dom in Hk as [v Hv]. specialize (Ho k v Hv). cbn in Ho. rewrite Has_contents in Ho by done. by apply bool_decide_eq_true, elem_of_dom in Ho.
Qed.

(** ** The rounds *)

(** A call that only reads, with what it shows. *)
Abbreviation reads r c m P := (wp I r c m (fun x r' c' => r' = r /\ c' = c /\ P x)).

Lemma wp_reads {A B} r c (m : M A) (k : A -> M B) (P : A -> Prop) Q :
  reads r c m P -> (forall x, P x -> wp I r c (k x) Q) -> wp I r c (bind m k) Q.
Proof. intros Hm Hk. eapply wp_bind; [exact Hm|]. intros x ? ? (-> & -> & Hx). by apply Hk. Qed.

Lemma wp_keeps {A B} r c (m : M A) (k : A -> M B) Q :
  keeps r c m -> (forall x r c, I r c -> wp I r c (k x) Q) -> wp I r c (bind m k) Q.
Proof. apply wp_bind. Qed.

Lemma wp_guard_bind {B} r c b e (k : unit -> M B) Q : I r c -> (b = true -> wp I r c (k tt) Q) -> wp I r c (bind (guard b e) k) Q.
Proof. intros HI Hk. apply (wp_reads _ _ _ _ (fun _ => b = true)); [by apply wp_guard|]. by intros []. Qed.

(** One command; what is left are the conditions. *)
Ltac step := cbv beta; lazymatch goal with
  | |- wp _ _ _ (bind (round_gets _) _) _ => apply wp_round
  | |- wp _ _ _ (bind (get_chain _) _) _ => apply wp_chain
  | |- wp _ _ _ (bind obs_cs _) _ => apply wp_chain
  | |- wp _ _ _ (bind rt _) _ => apply wp_chain
  | |- wp _ _ _ (bind observer_count _) _ => apply wp_chain
  | |- wp _ _ _ (bind (gets _) _) _ => apply wp_quiet; [apply quiet_gets|try done|intro]
  | |- wp _ _ _ (bind now _) _ => apply wp_quiet; [apply quiet_gets|try done|intro]
  | |- wp _ _ _ (bind (guard _ _) _) _ => apply wp_guard_bind; [try done|intro]
  | |- wp _ _ _ (fail _) _ => apply wp_fail
  | |- wp _ _ _ (ret _) _ => apply wp_ret
  end; cbv beta.

Lemma reset_keeps r c b : I r c -> keeps r c (resetVoteRound b).
Proof.
  intros [Hk _]. unfold resetVoteRound. step. step. apply wp_keeps; [by apply wp_set_round, (conj Hk), NewVoteRound_inv|].
  intros [] r1 c1 HI. apply wp_quiet_end; [|done..]. by destruct b.
Qed.

Lemma push_keeps r c i : I r c -> keeps r c (push i).
Proof. intros HI. apply wp_quiet_end; [apply quiet_push|done..]. Qed.

Lemma upd_round_keeps r c f : I r c -> (rinv r -> rinv (f r)) -> keeps r c (upd_round f).
Proof. intros [Hk Hr] Hf. apply wp_upd. split; auto. Qed.
Lemma upd_block_keeps r c h f : I r c -> (forall b, BlockRoundMap r !! h = Some b -> votes_ok keys b -> votes_ok keys (f b)) ->
  (forall b, is_Some (BlockGenMessage_ b) -> is_Some (BlockGenMessage_ (f b))) -> keeps r c (upd_block h f).
Proof. intros HI Hv Hg. apply upd_round_keeps; [done|]. by apply with_blocks_inv. Qed.

(** The next block of the formulator of the round. *)
Lemma wait_inv h (r : VR) : is_Some (MinRoundVoteAck r) -> rinv r -> rinv (with_height h (with_state BlockWaitState r)).
Proof.
  intros Ha []. split; cbn; try done. intros [_ Hn]%ri_few. rewrite Hn in Ha. by destruct Ha.
Qed.

Lemma sync_keeps r c : I r c -> keeps r c syncVoteRound.
Proof.
  intros HI. unfold syncVoteRound. step. step. destruct (_ <? _); [|by step]. step.
  apply wp_quiet; [apply quiet_must, calm_TopRank|done|]. intros Top. cbn [id].
  destruct (MinRoundVoteAck r) as [a|] eqn:Ea; [|by apply reset_keeps]. case_bool_decide; [|by apply reset_keeps].
  destruct (BlockRoundMap r !! _) as [b|] eqn:Eb; [|by apply reset_keeps].
  apply wp_keeps; [by apply upd_round_keeps; [|apply wait_inv; rewrite Ea]|]. intros [] r1 c1 HI1.
  destruct (BlockGenMessageWait b), (BlockGenMessage_ b); try by step.
  apply wp_keeps; [by apply push_keeps|]. intros [] r2 c2 HI2. by apply upd_block_keeps.
Qed.

(** ** What the handlers check *)

Lemma check_sender_reads r c k h s : I r c -> reads r c (check_sender k h s) (fun _ => Has keys k = true).
Proof.
  intros HI. unfold check_sender. apply wp_quiet; [apply quiet_lift, (cc_recover cUint32 Sign (CalmCalls := CC))|done|]. intros pk. step. step.
  apply wp_guard; [done|]. intros Hh. split; [done|]. split; [done|]. apply bool_decide_eq_true in H as ->. destruct HI as [[<- _] _]. done.
Qed.

Lemma check_round_reads r c k b id lh th n f ph : I r c -> reads r c (check_round my k b id lh th n f ph) (fun _ => th = vr_TargetHeight r).
Proof.
  intros HI. unfold check_round. step. destruct (Z.eqb_spec th (vr_TargetHeight r)) as [Eq|Hne]; cbn [negb].
  - apply wp_quiet; [apply quiet_ret|done|]. intros _. step. step. step. step. step.
    apply wp_quiet; [apply quiet_lift, calm_TopRank|done|]. intros Top. step. apply wp_guard; done.
  - apply (wp_bind _ _ _ _ _ (fun _ _ _ => False)); [|done].
    apply wp_quiet; [by apply quiet_when, quiet_ignore, quiet_sendStatusTo|done|]. intros _. by step.
Qed.

Lemma block_round_reads r c h : I r c -> reads r c (block_round h) (fun b => BlockRoundMap r !! h = Some b).
Proof. intros HI. unfold block_round. step. destruct (_ !! _) eqn:Eb; by step. Qed.

(** ** The handlers *)

Lemma wp_leave {A B} r c (m : M A) (k : A -> M B) Q : wp I r c m (fun _ _ _ => False) -> wp I r c (bind m k) Q.
Proof. intros Hm. by eapply wp_bind. Qed.
Lemma wp_skip {A B} r c (x : A) (k : A -> M B) Q : wp I r c (k x) Q -> wp I r c (bind (ret x) k) Q.
Proof. intros Hk ob Hr Hc. by apply Hk. Qed.
Lemma wp_upd_bind {B} r c f (k : unit -> M B) Q : wp I (f r) c (k tt) Q -> wp I r c (bind (upd_round f) k) Q.
Proof. intros Hk ob Hr Hc. apply Hk; cbn; congruence. Qed.
Lemma when_keeps r c b m : I r c -> (b = true -> keeps r c m) -> keeps r c (when b m).
Proof. destruct b; [auto|]. intros. by apply wp_ret. Qed.
Lemma quiet_keeps {A} r c (m : M A) : quiet m -> I r c -> keeps r c m.
Proof. intros. by apply wp_quiet_end. Qed.

Lemma the_block (r : VR) : rinv r -> RoundState r = BlockVoteState -> forall b, BlockRoundMap r !! vr_TargetHeight r = Some b ->
  exists g, BlockGenMessage_ b = Some g.
Proof. intros HI Hs b Hb. destruct (ri_vote _ _ HI Hs) as (b' & Hb' & g & Hg). exists g. congruence. Qed.

(** The answer with the vote on the block of the round. *)
Lemma vote_reply_keeps r c k h : I r c -> h = vr_TargetHeight r ->
  keeps r c (if RoundState r =? BlockVoteState then
    let! brs := round_gets BlockRoundMap in
    match brs !! h with Some b => ignore (sendBlockVoteTo my Sign (BlockGenMessage_ b) k) | None => ret tt end else ret tt).
Proof.
  intros HI ->. destruct (Z.eqb_spec (RoundState r) BlockVoteState) as [Es|]; [|by step]. step.
  destruct (_ !! _) as [b|] eqn:Eb; [|by step]. destruct (the_block r (proj2 HI) Es b Eb) as [g ->].
  apply quiet_keeps; [|done]. apply quiet_ignore, (quiet_sendBlockVoteTo cUint32 my Sign (CC := CC)).
Qed.

(** The least vote is one of the votes. *)
Lemma min_vote_elem m h : min_vote (vote_items m) = Some h -> is_Some (m !! h).
Proof.
  unfold min_vote. intros Hh. apply fmap_Some in Hh as (kt & Hh & ->). apply head_Some_elem_of in Hh.
  rewrite merge_sort_Permutation in Hh. unfold vote_items in Hh. apply list_elem_of_fmap in Hh as ([k v] & -> & Hkv).
  rewrite range_perm in Hkv. apply elem_of_map_to_list in Hkv. by eexists.
Qed.

Lemma sendRoundVoteAck_keeps r c : I r c -> is_Some (RoundVoteMessageMap r !! MinVotePublicHash r) -> keeps r c (sendRoundVoteAck my Sign).
Proof.
  intros HI [m Hm]. unfold sendRoundVoteAck. step. step. rewrite Hm. cbn [fmap option_fmap option_map]. apply wp_skip. step.
  apply wp_quiet; [apply quiet_lift, (cc_Sign cUint32 Sign (CalmCalls := CC))|done|]. intros sig. apply wp_keeps; [by apply push_keeps|]. intros [] r1 c1 HI1.
  by apply quiet_keeps.
Qed.

Lemma for_push_keeps {A} r c (l : list A) f : I r c -> keeps r c (for_each l (fun x => push (f x))).
Proof. intros HI. apply quiet_keeps; [|done]. apply quiet_for_each. intros. apply quiet_push. Qed.

(** The second phase. *)
Lemma ack_state_inv (r : VR) : rinv r -> (Len keys / 2 + 2 <= size (RoundVoteMessageMap r))%nat -> rinv (with_state RoundVoteAckState r).
Proof.
  intros HI Hn. pose proof (votes_bound r HI) as Hb. destruct HI. split; cbn; try done; try by unfold RoundVoteAckState.
  intros Hf. exfalso. pose proof (Nat.div_mod (Len keys) 2 ltac:(lia)). pose proof (Nat.mod_upper_bound (Len keys) 2 ltac:(lia)). lia.
Qed.

Lemma handleRoundVote_keeps r c k msg : I r c -> keeps r c (handleRoundVote my Sign k msg).
Proof.
  intros HI. unfold handleRoundVote. eapply wp_reads; [by apply check_sender_reads|]. intros [] Hk.
  eapply wp_reads; [by apply check_round_reads|]. intros [] Hth. step.
  destruct (Z.eqb_spec (RoundState r) RoundVoteState) as [Es|]; cbn [negb].
  2: { apply wp_leave. apply wp_keeps; [apply when_keeps; [done|intros _]|intros; by step].
       apply wp_keeps; [by apply vote_reply_keeps|]. intros. apply quiet_keeps; [|done]. apply quiet_ignore, (quiet_sendRoundVoteTo cUint32 my Sign (CC := CC)). }
  apply wp_skip. step. apply (wp_quiet _ _ _ _ _ _); [|done|].
  { destruct (_ !! _); [|apply quiet_ret]. destruct (_ <=? _); [|apply quiet_ret].
    apply quiet_bind; [apply quiet_when, quiet_ignore, (quiet_sendRoundVoteTo cUint32 my Sign (CC := CC))|]. intros. apply quiet_fail. }
  intros _. apply wp_keeps; [by apply upd_round_keeps; [|by apply with_votes_inv]|]. intros [] r1 c1 HI1.
  apply wp_keeps; [apply quiet_keeps; [|done]; apply quiet_when, quiet_ignore, (quiet_sendRoundVoteTo cUint32 my Sign (CC := CC))|]. intros [] r2 c2 HI2.
  step. step. apply when_keeps; [done|]. intros En%Nat.leb_le.
  destruct HI2 as [Hkc HI2]. rewrite (proj1 Hkc) in En. apply wp_upd_bind. cbn.
  destruct (min_vote _) as [h|] eqn:Eh; [|by apply wp_bind with (fun _ _ _ => False); [apply wp_throw|]]. apply wp_skip. apply wp_upd_bind.
  assert (HI3 : I (with_min_vote h (with_state RoundVoteAckState r2)) c2) by (split; [done|]; by apply with_min_vote_inv, ack_state_inv).
  step. apply wp_quiet; [by destruct (_ =? _)|done|]. intros _. apply wp_keeps; [apply wp_ignore; apply sendRoundVoteAck_keeps; [done|by apply min_vote_elem]|].
  intros [] r4 c4 HI4. step. by apply for_push_keeps.
Qed.

(** The round is set up with the vote [a]. *)
Lemma setup_inv (r : VR) a n : rinv r -> RoundState r = RoundVoteAckState ->
  rinv (with_blocks (keep_blocks n (ra_Formulator a) (BlockRoundMap r)) (with_min_ack (Some a) (with_state BlockWaitState r))).
Proof.
  intros [] Hs. split; cbn; try done.
  - intros i b Hb. unfold keep_blocks in Hb. rewrite lookup_fmap in Hb. apply fmap_Some in Hb as (b0 & Hb0 & ->).
    apply map_lookup_filter_Some in Hb0 as [Hb0 _]. specialize (ri_votes i b0 Hb0). by repeat case_match.
  - intros [Hv _]%ri_few. by rewrite Hv in Hs.
Qed.

Lemma sendRoundSetup_keeps r c : I r c -> is_Some (MinRoundVoteAck r) -> keeps r c (sendRoundSetup Sign).
Proof.
  intros HI [a Ha]. unfold sendRoundSetup. step. rewrite Ha. apply wp_skip. step.
  apply wp_quiet; [apply quiet_lift, (cc_Sign cUint32 Sign (CalmCalls := CC))|done|]. intros sig. by apply quiet_keeps.
Qed.

Lemma setup_round_keeps r c a : I r c -> RoundState r = RoundVoteAckState -> keeps r c (setup_round my Sign a).
Proof.
  intros [Hk HI] Hs. unfold setup_round. apply wp_upd_bind, wp_upd_bind. step. apply wp_upd_bind. cbv beta.
  match goal with |- wp _ (with_blocks (keep_blocks ?n _ _) _) _ _ _ => pose proof (setup_inv r a n HI Hs) as HI1 end.
  cbn in HI1 |- *. set (r1 := with_blocks _ _) in *. assert (HI2 : I r1 c) by done.
  apply wp_quiet; [by apply quiet_when|done|]. intros _.
  apply wp_keeps; [by apply wp_ignore, sendRoundSetup_keeps; [|eexists]|]. intros [] r3 c3 HI3. step. cbn [id].
  destruct (_ !! _) as [b|]; [|by step]. destruct (BlockGenMessageWait b), (BlockGenMessage_ b); try by step.
  apply wp_keeps; [apply when_keeps; [done|]; intros _; by apply push_keeps|]. intros [] r4 c4 HI4. by apply upd_block_keeps.
Qed.

Lemma handleRoundVoteAck_keeps r c k msg : I r c -> keeps r c (handleRoundVoteAck my Sign k msg).
Proof.
  intros HI. unfold handleRoundVoteAck. eapply wp_reads; [by apply check_sender_reads|]. intros [] Hk.
  eapply wp_reads; [by apply check_round_reads|]. intros [] Hth. step.
  assert (Hto : forall k, quiet (ignore (sendRoundVoteAckTo my Sign k) : M unit)).
  { intros. apply quiet_ignore, (quiet_sendRoundVoteAckTo cUint32 my Sign (CC := CC)). }
  destruct (Z.eqb_spec (RoundState r) RoundVoteAckState) as [Es|]; cbn [negb].
  2: { apply wp_leave. apply wp_keeps; [|intros; by step]. destruct (_ <? _).
       - apply upd_round_keeps; [done|]. apply with_ack_wait_inv.
       - apply when_keeps; [done|intros _]. apply wp_keeps; [by apply vote_reply_keeps|]. intros. by apply quiet_keeps. }
  apply wp_skip. step. apply wp_quiet; [|done|].
  { destruct (_ !! _); [|apply quiet_ret]. destruct (_ <=? _); [|apply quiet_ret].
    apply quiet_bind; [by apply quiet_when|]. intros. apply quiet_fail. }
  intros _. apply wp_upd_bind. assert (HI1 : I (with_acks (<[k := msg]> (RoundVoteAckMessageMap r)) r) c) by (split; [apply HI|]; apply with_acks_inv, HI).
  apply wp_quiet; [by apply quiet_when|done|]. intros _.
  step. step. apply when_keeps; [done|]. intros _. destruct (count_acks _ _ _ _); [|by step]. by apply setup_round_keeps.
Qed.

(** [RoundSetupMessage] and [BlockGenRequestMessage]. *)
Lemma answer_keeps r c k b : I r c -> BlockRoundMap r !! vr_TargetHeight r = Some b -> keeps r c (answer_with_block my Sign k b).
Proof.
  intros HI Hb. unfold answer_with_block. step. apply when_keeps; [done|]. intros Es%Z.eqb_eq.
  destruct (the_block r (proj2 HI) Es b Hb) as [g ->]. apply quiet_keeps; [|done]. apply quiet_bind.
  - apply quiet_when, quiet_ignore, quiet_sendBlockGenTo.
  - intros _. apply quiet_ignore, (quiet_sendBlockVoteTo cUint32 my Sign (CC := CC)).
Qed.

Lemma handleRoundSetup_keeps r c k msg : I r c -> keeps r c (handleRoundSetup my Sign k msg).
Proof.
  intros HI. unfold handleRoundSetup. eapply wp_reads; [by apply check_sender_reads|]. intros [] _.
  eapply wp_reads; [by apply block_round_reads|]. cbv beta. intros b Hb.
  eapply wp_reads; [by apply check_round_reads|]. intros [] Hth. rewrite Hth in Hb. by apply answer_keeps.
Qed.

Lemma handleBlockGenRequest_keeps r c k msg : I r c -> keeps r c (handleBlockGenRequest my Sign k msg).
Proof.
  intros HI. unfold handleBlockGenRequest. eapply wp_reads; [by apply check_sender_reads|]. intros [] _.
  eapply wp_reads; [by apply block_round_reads|]. cbv beta. intros b Hb.
  eapply wp_reads; [by apply check_round_reads|]. intros [] Hth. rewrite Hth in Hb. by apply answer_keeps.
Qed.

(** *** [BlockGenMessage] *)

Lemma wp_lift_bind {A B} r c (x : res A) (k : A -> M B) Q :
  calm x -> I r c -> (forall a, x = Ok a -> wp I r c (k a) Q) -> wp I r c (bind (lift x) k) Q.
Proof. intros Hx HI Hk. apply (wp_reads _ _ _ _ (fun a => x = Ok a)); [by apply wp_lift|done]. Qed.

Lemma sendBlockGenRequest_keeps r c h b : I r c -> is_Some (MinRoundVoteAck r) -> keeps r c (sendBlockGenRequest Sign h b).
Proof.
  intros HI [a Ha]. unfold sendBlockGenRequest. step. destruct (_ <? _); [by step|]. apply wp_upd_bind. cbv beta.
  assert (HI1 : I (with_blocks (alter (with_request_time (u64 x)) h (BlockRoundMap r)) r) c) by (split; [apply HI|]; by apply with_blocks_inv; [..|apply HI]).
  step. cbn [MinRoundVoteAck with_blocks]. rewrite Ha. apply wp_skip.
  apply wp_quiet; [apply quiet_lift, (cc_Sign cUint32 Sign (CalmCalls := CC))|done|]. intros sig. repeat destruct (range_of _) as [|[]]; by apply quiet_keeps.
Qed.

Lemma quiet_check_block a w m : quiet (check_block cUint32 (Some a) w m : M Cx).
Proof.
  unfold check_block.
  apply quiet_bind; [apply quiet_lift, (calm_Decode cUint32 Sign)|intros n]. apply quiet_bind; [apply quiet_gets|intros t].
  apply quiet_bind; [apply quiet_lift, calm_TopRank|intros top]. apply quiet_bind; [apply quiet_guard|intros _].
  apply quiet_bind; [apply quiet_ret|intros a']. apply quiet_bind; [apply quiet_guard|intros _].
  apply quiet_bind; [destruct w; [apply quiet_guard|apply quiet_ret]|intros _].
  apply quiet_bind; [apply quiet_lift, (cc_recover cUint32 Sign (CalmCalls := CC))|intros pk].
  apply quiet_bind; [apply quiet_guard|intros _]. apply quiet_bind; [apply quiet_guard|intros _].
  apply quiet_bind; [apply quiet_gets|intros c]. apply quiet_bind; [apply quiet_lift, (cc_ValidateHeader cUint32 Sign)|intros _].
  apply quiet_bind; [apply quiet_gets|intros ts]. apply quiet_bind; [apply quiet_guard|intros _].
  apply quiet_bind; [apply quiet_lift, (cc_Execute cUint32 Sign)|intros ctx]. apply quiet_bind; [apply quiet_guard|intros _]. apply quiet_ret.
Qed.

(** The first block of the round has no votes yet. *)
Lemma with_gen_inv (r : VR) b m ctx : rinv r -> RoundState r = BlockWaitState -> BlockRoundMap r !! vr_TargetHeight r = Some b ->
  BlockGenMessage_ b = None ->
  rinv (with_blocks (alter (with_gen (Some m) (Some ctx)) (vr_TargetHeight r) (BlockRoundMap r)) (with_state BlockVoteState r)).
Proof.
  intros [] Hs Hb Hn. split; cbn; try done.
  - intros _. apply ri_ack. by rewrite Hs.
  - intros _. exists (with_gen (Some m) (Some ctx) b). rewrite lookup_alter_eq, Hb. split; [done|by eexists].
  - intros i b'. destruct (decide (vr_TargetHeight r = i)) as [<-|Hne]; [|rewrite lookup_alter_ne by done; apply ri_votes].
    rewrite lookup_alter_eq, Hb. intros [= <-]. split; [by eexists|]. pose proof (ri_votes _ _ Hb) as Hv. unfold votes_ok in Hv. rewrite Hn in Hv.
    cbn. rewrite Hv. apply map_Forall_empty.
  - intros [Hv _]%ri_few. by rewrite Hv in Hs.
Qed.

Lemma handleBlockGen_keeps r c msg raw : I r c -> keeps r c (handleBlockGen cUint32 my Sign msg raw).
Proof.
  intros HI. unfold handleBlockGen. eapply wp_reads; [by apply block_round_reads|]. cbv beta. intros b Hb.
  destruct (BlockGenMessage_ b) eqn:Eg; [by apply wp_leave; step|]. apply wp_skip. step.
  apply wp_quiet; [destruct (MinRoundVoteAck r); [by apply quiet_when|apply quiet_ret]|done|]. intros _. step.
  assert (Hw : keeps r c (upd_block (h_Height (b_Header (gm_Block msg))) (with_gen_wait (Some msg)))) by by apply upd_block_keeps.
  destruct (Z.eqb_spec (h_Height (b_Header (gm_Block msg))) (vr_TargetHeight r)) as [Eh|]; cbn [negb].
  2: { apply wp_leave. apply wp_keeps; [by apply when_keeps|]. intros. by step. }
  apply wp_skip. step. destruct (Z.eqb_spec (RoundState r) BlockWaitState) as [Es|]; cbn [negb].
  2: { apply wp_leave. apply wp_keeps; [by apply when_keeps|]. intros. by step. }
  apply wp_skip. destruct (ri_ack _ _ (proj2 HI)) as [a Ha]; [by rewrite Es|]. rewrite Ha.
  apply wp_quiet; [apply quiet_check_block|done|]. intros ctx. apply wp_upd_bind, wp_upd_bind. cbv beta. rewrite Eh in *.
  apply wp_keeps; [|intros; by apply for_push_keeps]. apply quiet_keeps; [apply quiet_ignore, (quiet_sendBlockVote cUint32 my Sign (CC := CC))|].
  split; [apply HI|]. apply (with_gen_inv r b); [apply HI|done..].
Qed.

(** *** [BlockVoteMessage] *)

(** What the check of a vote shows of it, for the block [g] of the node. *)
Record vote_checked (c : Ch) (g : BlockGenMessage Tx) (k : PublicHash) (v : BlockVote) : Prop := {
  vc_top : exists n top pk, DecodeConsensusData cUint32 (h_ConsensusData (bv_Header v)) = Ok n /\ TopRank (cs_rt (cp_cs c)) n = Ok top /\
    h_Generator (bv_Header v) = r_Address top /\
    recover (header_hash (bv_Header v)) (bv_GeneratorSignature v) = Ok pk /\ NewPublicHash pk = r_PublicHash top;
  vc_hash : header_hash (bv_Header v) = header_hash (b_Header (gm_Block g));
  vc_signed : vote_signed (header_hash (b_Header (gm_Block g))) k v
}.

Lemma check_block_vote_reads r c k g v : I r c -> RoundState r = BlockVoteState ->
  reads r c (check_block_vote cUint32 k (MinRoundVoteAck r) (Some g) v) (fun _ => vote_checked c g k v).
Proof.
  intros HI Es. unfold check_block_vote. destruct (ri_ack _ _ (proj2 HI)) as [a Ha]; [by rewrite Es|]. rewrite Ha.
  apply wp_lift_bind; [apply (calm_Decode cUint32 Sign)|done|]. intros n En. step.
  apply wp_lift_bind; [apply calm_TopRank|done|]. intros top Et. step.
  apply wp_lift_bind; [apply (cc_recover cUint32 Sign (CalmCalls := CC))|done|]. intros pk Ep. step. apply wp_skip. step. step. step. step.
  apply wp_skip. step. step. apply wp_lift_bind; [apply (cc_ValidateHeader cUint32 Sign)|done|]. intros [] _.
  apply wp_lift_bind; [apply (cc_recover cUint32 Sign (CalmCalls := CC))|done|]. intros pk' Ep'. step.
  apply wp_ret. split; [done|]. split; [done|]. rewrite !bool_decide_eq_true in *. split; [|done|].
  - exists n, top, pk. done.
  - exists pk'. split; [|done]. congruence.
Qed.

Lemma next_block_keeps r c a : I r c -> is_Some (MinRoundVoteAck r) -> keeps r c (next_block Sign a).
Proof.
  intros HI Ha. unfold next_block. step. step. apply wp_lift_bind; [apply calm_TopRank|done|]. intros top _. cbn [id].
  case_bool_decide; [|by apply reset_keeps]. destruct (_ !! _) as [b|]; [|by apply reset_keeps].
  apply wp_upd_bind. cbv beta. match goal with |- wp _ ?r1 _ _ _ => assert (HI1 : I r1 c /\ is_Some (MinRoundVoteAck r1)) end.
  { split; [|done]. split; [apply HI|]. exact (with_fails_inv 0 _ (wait_inv (u32 (vr_TargetHeight r + 1)) _ Ha (proj2 HI))). }
  destruct HI1 as [HI1 Ha1], (BlockGenMessageWait b), (BlockGenMessage_ b); try (by step); try (by apply push_keeps).
  all: by apply wp_ignore, sendBlockGenRequest_keeps.
Qed.

(** The signatures of the votes. *)
Definition sigs_of (m : gmap PublicHash BlockVote) : list Signature := (fun kv => bv_ObserverSignature kv.2) <$> range_of m.

Lemma apply_votes_keeps r c b g ctx bh v : I r c -> is_Some (MinRoundVoteAck r) -> BlockGenMessage_ b = Some g -> br_Context b = Some ctx ->
  J (snd (ct_ConnectBlockWithContext (signed_block g (sigs_of (BlockVoteMap b))) ctx c)) ->
  keeps r c (apply_votes my Sign b (MinRoundVoteAck r) bh v).
Proof.
  intros HI [a Ha] Hg Hc HJ. unfold apply_votes. rewrite Hg, Hc, Ha. apply wp_skip, wp_skip.
  assert (HI1 : I r (snd (ct_ConnectBlockWithContext (signed_block g (sigs_of (BlockVoteMap b))) ctx c))).
  { split; [|apply HI]. split; [|done]. rewrite (cc_keys cUint32 Sign). apply HI. }
  apply (wp_bind _ _ _ _ _ (fun _ r' c' => r' = r /\ I r c')); [by apply wp_on_chain; [apply (cc_Connect cUint32 Sign)|..]|].
  intros [] r1 c1 [-> HI2]. apply wp_quiet; [apply quiet_ignore, quiet_broadcastStatus|done|]. intros _. apply wp_skip. step.
  apply wp_quiet; [done..|]. intros _. apply wp_quiet; [apply quiet_announce|done|]. intros _. apply next_block_keeps; [done|by eexists].
Qed.

(** The new vote is counted. *)
Lemma count_vote (b : BR) g k v : votes_ok keys b -> BlockGenMessage_ b = Some g -> Has keys k = true ->
  vote_signed (header_hash (b_Header (gm_Block g))) k v -> votes_ok keys (with_block_votes (<[k := v]> (BlockVoteMap b)) b).
Proof.
  unfold votes_ok. cbn. intros Hv Hg Hk Hs. rewrite Hg in *. destruct Hv as [Hc Hv]. split; [done|]. by apply map_Forall_insert_2.
Qed.

(** A late or an early vote. *)
Lemma early_vote_keeps r c h k msg : I r c -> RoundState r < BlockVoteState -> keeps r c (
  let! ign := gets ob_ignoreMap in
  when (bool_decide (is_Some (ign !! h_Generator h))) (set_ignore (delete (h_Generator h) ign) ;;; upd_round (with_fails 0)) ;;;
  upd_block (h_Height h) (fun b => with_vote_wait (<[k := msg]> (BlockVoteMessageWaitMap b)) b) ;;;
  let! b := block_round (h_Height h) in
  match BlockGenMessageWait b, BlockGenMessage_ b with
  | None, None => when (RoundState r =? BlockWaitState) (ignore (sendBlockGenRequest Sign (h_Height h) b))
  | _, _ => ret tt
  end).
Proof.
  intros HI Hs. step.
  apply (wp_bind _ _ _ _ _ (fun _ r' c' => I r' c' /\ RoundState r' = RoundState r)).
  { destruct (bool_decide _); [|by apply wp_ret]. apply wp_quiet; [done..|]. intros _. apply wp_upd. split; [|done].
    split; [apply HI|]. apply with_fails_inv, HI. }
  intros [] r1 c1 [HI1 Hs1]. apply wp_upd_bind. cbv beta. set (r2 := with_blocks _ _).
  assert (HI2 : I r2 c1) by (split; [apply HI1|]; by apply with_blocks_inv; [..|apply HI1]).
  eapply wp_reads; [by apply block_round_reads|]. cbv beta. intros b _. destruct (BlockGenMessageWait b), (BlockGenMessage_ b); try by step.
  apply when_keeps; [done|]. intros Ew%Z.eqb_eq. apply wp_ignore, sendBlockGenRequest_keeps; [done|].
  apply (ri_ack _ _ (proj2 HI2)). cbn. by rewrite Hs1, Ew.
Qed.

Lemma handleBlockVote_keeps r c k msg : I r c ->
  (forall b g ctx, BlockRoundMap r !! vr_TargetHeight r = Some b -> BlockGenMessage_ b = Some g -> br_Context b = Some ctx -> votes_ok keys b ->
     Has keys k = true -> vote_checked c g k (vm_BlockVote msg) -> BlockVoteMap b !! k = None ->
     (Len keys / 2 + 1 <= size (<[k := vm_BlockVote msg]> (BlockVoteMap b)))%nat ->
     J (snd (ct_ConnectBlockWithContext (signed_block g (sigs_of (<[k := vm_BlockVote msg]> (BlockVoteMap b)))) ctx c))) ->
  keeps r c (handleBlockVote cUint32 my Sign k msg).
Proof.
  intros HI HJ. unfold handleBlockVote. eapply wp_reads; [by apply check_sender_reads|]. intros [] Hk.
  eapply wp_reads; [by apply block_round_reads|]. cbv beta. intros b Hb. step.
  destruct (Z.eqb_spec (h_Height (bv_Header (vm_BlockVote msg))) (vr_TargetHeight r)) as [Eh|]; cbn [negb].
  2: { apply wp_leave. apply wp_keeps; [|intros; by step]. destruct (_ <? _); [|by apply upd_block_keeps].
       apply quiet_keeps; [|done]. apply quiet_ignore, quiet_sendStatusTo. }
  apply wp_skip. step. destruct (Z.eqb_spec (RoundState r) BlockVoteState) as [Es|Hne]; cbn [negb].
  2: { apply wp_leave. apply wp_keeps; [|intros; by step]. apply when_keeps; [done|]. intros Hlt%Z.ltb_lt. by apply early_vote_keeps. }
  apply wp_skip. step. rewrite Eh in *. destruct (the_block r (proj2 HI) Es b Hb) as [g Hg]. rewrite Hg.
  eapply wp_reads; [by apply check_block_vote_reads|]. cbv beta. intros bh Hv.
  assert (Hto : quiet (ignore (sendBlockVoteTo my Sign (Some g) k) : M unit)) by apply quiet_ignore, (quiet_sendBlockVoteTo cUint32 my Sign (CC := CC)).
  destruct (BlockVoteMap b !! k) eqn:Ek.
  { apply wp_leave. apply wp_quiet; [by apply quiet_when|done|]. intros _. by step. }
  apply wp_skip. apply wp_upd_bind. cbv beta. set (r1 := with_blocks _ _).
  pose proof (ri_votes _ _ (proj2 HI) _ _ Hb) as Hvb.
  assert (HI1 : I r1 c).
  { split; [apply HI|]. apply with_blocks_inv; [|done|apply HI]. intros b'. rewrite Hb. intros [= <-] _. eapply count_vote; [done..|apply Hv]. }
  apply wp_quiet; [by apply quiet_when|done|]. intros _. step. apply when_keeps; [done|]. intros En%Nat.leb_le.
  rewrite (proj1 (proj1 HI)) in En. unfold votes_ok in Hvb. rewrite Hg in Hvb. destruct (proj1 Hvb) as [ctx Hc].
  apply (apply_votes_keeps r1 c _ g ctx); [done| |done|done|].
  - apply (ri_ack _ _ (proj2 HI)). by rewrite Es.
  - apply (HJ b g ctx); try done. unfold votes_ok. by rewrite Hg.
Qed.

(** ** Runs *)

Section Runs.
Context (J_all : forall c, J c).

Lemma handleObserverMessage_keeps r c item : I r c -> keeps r c (handleObserverMessage cUint32 my Sign item).
Proof.
  intros HI. unfold handleObserverMessage. apply wp_keeps; [by apply sync_keeps|]. intros [] r1 c1 HI1. destruct (mi_Message item).
  - by apply handleRoundVote_keeps.
  - by apply handleRoundVoteAck_keeps.
  - by apply handleRoundSetup_keeps.
  - by step.
  - by apply handleBlockGen_keeps.
  - by apply handleBlockVote_keeps.
  - by step.
  - by step.
  - by apply handleBlockGenRequest_keeps.
  - apply quiet_keeps; [apply (quiet_handleStatus cUint32 my Sign (CC := CC))|done].
  - apply quiet_keeps; [apply (quiet_handleRequest cUint32 Sign (CC := CC))|done].
  - apply wp_quiet; [apply quiet_attempt, (quiet_addBlock cUint32 Sign (CC := CC))|done|]. intros []; [by apply wp_throw|by step].
Qed.

Lemma queue_step_keeps r c : I r c -> keeps r c (queue_step cUint32 my Sign).
Proof.
  intros HI. unfold queue_step. step. destruct x as [|item q]; [by step|]. apply wp_quiet; [done..|]. intros _.
  by apply wp_ignore, handleObserverMessage_keeps.
Qed.

Lemma connect_queued_keeps n : forall r c h, I r c -> keeps r c (connect_queued n h).
Proof.
  induction n as [|n IH]; intros r c h HI; cbn [connect_queued]; [by step|]. step. destruct (PopUntil _ _) as [[b|] q].
  - apply wp_quiet; [done..|]. intros _. apply (wp_attempt _ _ _ _ _ (fun _ => I)); [|intros; by apply wp_throw|].
    + assert (I r (snd (cn_ConnectBlock b c))) by (split; [|apply HI]; split; [rewrite (cc_keys' cUint32 Sign); apply HI|done]).
      by apply wp_on_chain; [apply (cc_ConnectBlock cUint32 Sign)|..].
    + intros [] r1 c1 HI1. apply wp_keeps; [by apply IH|]. intros. by step.
  - apply wp_quiet; [done..|]. intros _. by step.
Qed.

Lemma block_timer_keeps r c : I r c -> keeps r c block_timer.
Proof.
  intros HI. unfold block_timer. step. apply wp_keeps; [by apply connect_queued_keeps|]. intros b r1 c1 HI1.
  apply quiet_keeps; [|done]. apply quiet_when, quiet_broadcastStatus.
Qed.

Lemma sendRoundVote_keeps r c : I r c -> keeps r c (sendRoundVote my Sign).
Proof.
  intros HI. unfold sendRoundVote. apply wp_quiet; [apply quiet_my_round_vote|done|]. intros nv. apply wp_quiet; [apply quiet_gets|done|]. intros st.
  apply wp_quiet; [apply quiet_attempt, quiet_GuessHeight|done|]. intros gh.
  apply wp_quiet; [by destruct gh; [|apply quiet_when]|done|]. intros _. apply wp_keeps; [apply upd_round_keeps; [done|apply with_fails_inv]|].
  intros [] r1 c1 HI1. apply wp_quiet; [apply quiet_lift, (cc_Sign cUint32 Sign (CalmCalls := CC))|done|]. intros sig.
  apply wp_quiet; [apply quiet_push|done|]. intros _. by apply quiet_keeps.
Qed.

Lemma vote_timer_keeps r c : I r c -> keeps r c (vote_timer my Sign).
Proof.
  intros HI. unfold vote_timer. apply wp_keeps; [by apply sync_keeps|]. intros [] r1 c1 HI1.
  apply wp_quiet; [apply quiet_adjust|done|]. intros adj. apply when_keeps; [done|]. intros _.
  apply wp_keeps; [apply upd_round_keeps; [done|apply with_fails_inv]|]. intros [] r2 c2 HI2. step.
  apply wp_keeps; [apply when_keeps; [done|]; intros _; apply wp_quiet; [apply quiet_punish|done|]; intros _; by apply reset_keeps|].
  intros [] r3 c3 HI3. step. cbn [id]. destruct (RoundState r3 =? RoundVoteState).
  - apply wp_keeps; [by apply wp_ignore, sendRoundVote_keeps|]. intros. apply quiet_keeps; [|done]. apply quiet_ignore, quiet_broadcastStatus.
  - destruct (Z.eqb_spec (RoundState r3) BlockVoteState) as [Es|]; [|by step]. destruct (_ !! _) as [b|] eqn:Eb; [|by step].
    destruct (the_block _ (proj2 HI3) Es _ Eb) as [g ->]. apply quiet_keeps; [|done]. apply quiet_ignore, (quiet_sendBlockVote cUint32 my Sign (CC := CC)).
Qed.

Lemma do_event_keeps r c e : I r c -> keeps r c (do_event cUint32 my Sign e).
Proof.
  intros HI. destruct e; cbn [do_event].
  - by apply quiet_keeps.
  - destruct m; by apply push_keeps.
  - step. destruct (x !! addr); [|by step].
    apply wp_quiet; [apply quiet_attempt, (quiet_handleFormulatorMessage cUint32 Sign (CC := CC))|done|]. intros [e|[]]; [|by step].
    apply quiet_keeps; [apply quiet_RemovePeer|done].
  - by apply quiet_keeps.
  - by apply queue_step_keeps.
  - by apply block_timer_keeps.
  - by apply vote_timer_keeps.
  - apply quiet_keeps; [apply quiet_OnTimerExpired|done].
Qed.

Lemma run_keeps es : forall r c, I r c -> keeps r c (for_each es (do_event cUint32 my Sign)).
Proof.
  induction es as [|e es IH]; intros r c HI; cbn [for_each]; [by apply wp_ret|].
  apply wp_keeps; [by apply do_event_keeps|]. intros [] r1 c1 HI1. by apply IH.
Qed.
End Runs.
End Node.
