(* ===== verification/ObserverSpec.v ===== *)
(** * What the observers guarantee

    Over any run of events of an observer: it dereferences a nil pointer at most where
    [onFormulatorRecv] reads the round a second time, and the block it connects carries
    signatures that every node accepts.  Two observers
    that set up a round chose the same formulator.  A network of one or two
    observers never leaves the first phase of a round. *)

From stdpp Require Import base gmap list sorting strings.
From Stdlib Require Import ZArith Lia.
From S2P Require Import Prelude Common LevelRoot OrderedMap Types Context Chain RankTable Consensus ConsensusSpec Queue RequestTimer Observer ObserverSafe ObserverInv.

(** ** The choice of a formulator *)

Section Counting.
Context {A : Type} `{EqDecision A} (f : RoundVoteAck -> A).

Definition votes_for (x : A) (l : list RoundVoteAck) : nat := length (filter (fun a => f a = x) l).

Lemma votes_for_cons x a l : votes_for x (a :: l) = ((if decide (f a = x) then 1 else 0) + votes_for x l)%nat.
Proof. unfold votes_for. rewrite filter_cons. destruct (decide (f a = x)); done. Qed.
End Counting.

(** A chosen vote has a majority for its timeout count and for its observer. *)
Lemma count_acks_majority maj l : forall hs ts a, count_acks maj l hs ts = Some a ->
  (maj <= default 0 (ts !! ra_TimeoutCount a) + votes_for ra_TimeoutCount (ra_TimeoutCount a) l)%nat /\
  (maj <= default 0 (hs !! ra_PublicHash a) + votes_for ra_PublicHash (ra_PublicHash a) l)%nat.
Proof.
  induction l as [|vt l IH]; intros hs ts a; cbn [count_acks]; [done|]. destruct (_ && _) eqn:E.
  - intros [= <-]. apply andb_prop in E as [E1 E2]. apply Nat.leb_le in E1, E2. rewrite !votes_for_cons, !decide_True by done. lia.
  - intros Ha. destruct (IH _ _ _ Ha) as [H1 H2]. rewrite !votes_for_cons. split.
    + destruct (decide (ra_TimeoutCount vt = ra_TimeoutCount a)) as [Ev|Hne].
      * rewrite Ev, lookup_insert_eq in H1. cbn in H1. lia.
      * rewrite lookup_insert_ne in H1 by done. lia.
    + destruct (decide (ra_PublicHash vt = ra_PublicHash a)) as [Ev|Hne].
      * rewrite Ev, lookup_insert_eq in H2. cbn in H2. lia.
      * rewrite lookup_insert_ne in H2 by done. lia.
Qed.

Section Agreement.
Context {A : Type} `{EqDecision A} (f : RoundVoteAck -> A).
Abbreviation acks_of m := ((fun kv => am_RoundVoteAck kv.2) <$> range_of m).

(** The senders of the votes for [x]. *)
Definition voters (x : A) (m : gmap PublicHash RoundVoteAckMessage) : gset PublicHash :=
  dom (filter (fun kv => f (am_RoundVoteAck kv.2) = x) m).

Lemma length_filter_fmap {B} (g : B -> RoundVoteAck) x (l : list B) :
  votes_for f x (g <$> l) = length (filter (fun b => f (g b) = x) l).
Proof.
  unfold votes_for. induction l as [|b l IH]; [done|]. rewrite fmap_cons, !filter_cons. destruct (decide _); cbn; by rewrite IH.
Qed.

Lemma size_voters `{!RangeOrder} x m : size (voters x m) = votes_for f x (acks_of m).
Proof.
  rewrite length_filter_fmap. unfold voters. rewrite size_dom.
  assert (Hp : filter (fun kv => f (am_RoundVoteAck kv.2) = x) (range_of m) ≡ₚ map_to_list (filter (fun kv => f (am_RoundVoteAck kv.2) = x) m)).
  { rewrite range_perm. apply NoDup_Permutation.
    - apply NoDup_filter, NoDup_map_to_list.
    - apply NoDup_map_to_list.
    - intros [k v]. rewrite list_elem_of_filter, !elem_of_map_to_list, map_lookup_filter_Some. naive_solver. }
  rewrite Hp. by rewrite length_map_to_list.
Qed.

(** Two majorities among the same observers have one in common. *)
Lemma majorities_meet (K S1 S2 : gset PublicHash) : S1 ⊆ K -> S2 ⊆ K ->
  (size K / 2 + 1 <= size S1)%nat -> (size K / 2 + 1 <= size S2)%nat -> exists k, k ∈ S1 /\ k ∈ S2.
Proof.
  intros H1 H2 Hs1 Hs2. destruct (decide (S1 ∩ S2 = ∅)) as [E|Hne].
  - assert (size (S1 ∪ S2) <= size K)%nat by (apply subseteq_size; set_solver).
    rewrite size_union in H by set_solver. pose proof (Nat.div_mod (size K) 2 ltac:(lia)).
    pose proof (Nat.mod_upper_bound (size K) 2 ltac:(lia)). lia.
  - apply set_choose_L in Hne as [k Hk]. exists k. set_solver.
Qed.

Lemma majority_values_agree (K : gset PublicHash) m1 m2 x1 x2 : dom m1 ⊆ K -> dom m2 ⊆ K ->
  (forall k v1 v2, m1 !! k = Some v1 -> m2 !! k = Some v2 -> f (am_RoundVoteAck v1) = f (am_RoundVoteAck v2)) ->
  (size K / 2 + 1 <= size (voters x1 m1))%nat -> (size K / 2 + 1 <= size (voters x2 m2))%nat -> x1 = x2.
Proof.
  intros H1 H2 Hsame Hs1 Hs2.
  assert (Hsub : forall x m, voters x m ⊆ dom m) by (intros x m; apply dom_filter_subseteq).
  destruct (majorities_meet K (voters x1 m1) (voters x2 m2)) as (k & Hk1 & Hk2); [set_solver..|].
  unfold voters in Hk1, Hk2. apply elem_of_dom in Hk1 as [v1 Hk1], Hk2 as [v2 Hk2].
  apply map_lookup_filter_Some in Hk1 as [Hk1 <-], Hk2 as [Hk2 <-]. by apply (Hsame k).
Qed.
End Agreement.

(** The vote chosen is one of the votes. *)
Lemma count_acks_in maj l : forall hs ts a, count_acks maj l hs ts = Some a -> a ∈ l.
Proof.
  induction l as [|vt l IH]; intros hs ts a; cbn [count_acks]; [done|]. destruct (_ && _); [intros [= <-]; by left|].
  intros Ha. right. by eapply IH.
Qed.

(** Each vote names the formulator that the rank table [t] has for its timeout count,
    as [check_round] makes sure before a vote is kept. *)
Definition follow_table (t : RankTable) (m : gmap PublicHash RoundVoteAckMessage) : Prop :=
  map_Forall (fun _ v => exists top, TopRank t (ra_TimeoutCount (am_RoundVoteAck v)) = Ok top /\
    ra_Formulator (am_RoundVoteAck v) = r_Address top /\ ra_FormulatorPublicHash (am_RoundVoteAck v) = r_PublicHash top) m.

Lemma chosen_vote_follows `{!RangeOrder} maj t m a : follow_table t m ->
  count_acks maj ((fun kv => am_RoundVoteAck kv.2) <$> range_of m) ∅ ∅ = Some a ->
  exists top, TopRank t (ra_TimeoutCount a) = Ok top /\ ra_Formulator a = r_Address top /\ ra_FormulatorPublicHash a = r_PublicHash top.
Proof.
  intros Hf Ha%count_acks_in. apply list_elem_of_fmap in Ha as ([k v] & -> & Hkv). rewrite range_perm in Hkv.
  apply elem_of_map_to_list in Hkv. exact (Hf k v Hkv).
Qed.

(** C8. Observers that set up a round agree.  Take the votes of the second phase as
    two of [n] observers hold them, each visited in any order; where both hold the
    vote of one observer it names the same timeout count and the same observer to
    ask for the block.  If both find a vote to set up the round with, the two votes
    name the same timeout count and the same observer; and if the votes of both name
    the formulator that one rank table has for their timeout count, as [check_round]
    demands of a vote before it is kept, the two chosen votes name the same formulator. *)
Theorem rounds_agree (R1 R2 : RangeOrder) (K : gset PublicHash) (m1 m2 : gmap PublicHash RoundVoteAckMessage) (a1 a2 : RoundVoteAck) :
  dom m1 ⊆ K -> dom m2 ⊆ K ->
  (forall k v1 v2, m1 !! k = Some v1 -> m2 !! k = Some v2 ->
     ra_TimeoutCount (am_RoundVoteAck v1) = ra_TimeoutCount (am_RoundVoteAck v2) /\
     ra_PublicHash (am_RoundVoteAck v1) = ra_PublicHash (am_RoundVoteAck v2)) ->
  count_acks (size K / 2 + 1) ((fun kv => am_RoundVoteAck kv.2) <$> range_of (RangeOrder := R1) m1) ∅ ∅ = Some a1 ->
  count_acks (size K / 2 + 1) ((fun kv => am_RoundVoteAck kv.2) <$> range_of (RangeOrder := R2) m2) ∅ ∅ = Some a2 ->
  (ra_TimeoutCount a1 = ra_TimeoutCount a2 /\ ra_PublicHash a1 = ra_PublicHash a2) /\
  (forall t, follow_table t m1 -> follow_table t m2 ->
     ra_Formulator a1 = ra_Formulator a2 /\ ra_FormulatorPublicHash a1 = ra_FormulatorPublicHash a2).
Proof.
  intros H1 H2 Hsame F1 F2.
  assert (Hag : ra_TimeoutCount a1 = ra_TimeoutCount a2 /\ ra_PublicHash a1 = ra_PublicHash a2); [|split; [done|]].
  2: { intros t T1 T2. destruct Hag as [Ht _]. destruct (@chosen_vote_follows R1 _ _ _ _ T1 F1) as (top1 & E1 & -> & ->).
       destruct (@chosen_vote_follows R2 _ _ _ _ T2 F2) as (top2 & E2 & -> & ->). rewrite Ht, E2 in E1. by injection E1 as ->. }
  apply count_acks_majority in F1 as E1. apply count_acks_majority in F2 as E2. rewrite !lookup_empty in E1, E2. cbn [default from_option] in E1, E2.
  destruct E1 as [Et1 Eh1], E2 as [Et2 Eh2]. split.
  - apply (majority_values_agree ra_TimeoutCount K m1 m2); try done;
      [by intros; eapply Hsame | rewrite (@size_voters _ _ _ R1); lia | rewrite (@size_voters _ _ _ R2); lia].
  - apply (majority_values_agree ra_PublicHash K m1 m2); try done;
      [by intros; eapply Hsame | rewrite (@size_voters _ _ _ R1); lia | rewrite (@size_voters _ _ _ R2); lia].
Qed.

(** An order of the visits: that of [map_to_list], and its reverse. *)
Definition range_list : RangeOrder.
Proof. refine {| range_of A m := map_to_list m |}. done. Defined.
Definition range_reverse : RangeOrder.
Proof. refine {| range_of A m := reverse (map_to_list m) |}. intros. by rewrite reverse_Permutation. Defined.

(** A vote for the formulator that the table of the example has for the timeout count. *)
Definition ex_ack (timeout : Z) (ph : PublicHash) : RoundVoteAckMessage :=
  let top := match TopRank ex_rt timeout with Ok r => r | _ => ex_generator end in
  mkRoundVoteAckMessage (mkRoundVoteAck 1 [] 7 timeout (r_Address top) (r_PublicHash top) ph 0 false) [].
Definition ex_acks : gmap PublicHash RoundVoteAckMessage :=
  list_to_map [([1], ex_ack 0 [9]); ([2], ex_ack 0 [9]); ([3], ex_ack 0 [9]); ([4], ex_ack 1 [9])].

Lemma rounds_agree_witness :
  let K : gset PublicHash := list_to_set [[1]; [2]; [3]; [4]; [5]] in
  let a1 := count_acks 3 ((fun kv => am_RoundVoteAck kv.2) <$> range_of (RangeOrder := range_list) ex_acks) ∅ ∅ in
  let a2 := count_acks 3 ((fun kv => am_RoundVoteAck kv.2) <$> range_of (RangeOrder := range_reverse) ex_acks) ∅ ∅ in
  exists v1 v2, a1 = Some v1 /\ a2 = Some v2 /\ (ra_TimeoutCount v1 = ra_TimeoutCount v2 /\ ra_PublicHash v1 = ra_PublicHash v2) /\
    (ra_Formulator v1 = ra_Formulator v2 /\ ra_FormulatorPublicHash v1 = ra_FormulatorPublicHash v2).
Proof.
  intros K a1 a2. assert (E1 : exists v1, a1 = Some v1) by (eexists; vm_compute; reflexivity).
  assert (E2 : exists v2, a2 = Some v2) by (eexists; vm_compute; reflexivity).
  destruct E1 as [v1 E1], E2 as [v2 E2]. exists v1, v2. split; [done|]. split; [done|].
  assert (Hf : follow_table ex_rt ex_acks).
  { unfold ex_acks. cbn. repeat (apply map_Forall_insert_2; [by eexists|]). apply map_Forall_empty. }
  destruct (rounds_agree range_list range_reverse K ex_acks ex_acks v1 v2) as [Ha Hb];
    [| |by intros ? ? ? ? ?; simplify_eq|exact E1|exact E2|split; [exact Ha|exact (Hb ex_rt Hf Hf)]].
  - apply (bool_decide_unpack _). by vm_compute.
  - apply (bool_decide_unpack _). by vm_compute.
Defined.

(** Whether a round is set up depends on the order in which Go visits the votes:
    of five votes three name one timeout count and three name one observer, only
    one vote names both, and the round is set up only if that vote comes late. *)
Lemma round_setup_depends_on_order :
  let ack t ph := mkRoundVoteAck 1 [] 7 t [] [] ph 0 false in
  let late := [ack 0 [8]; ack 0 [8]; ack 1 [9]; ack 1 [9]; ack 0 [9]] in
  let early := [ack 0 [9]; ack 0 [8]; ack 0 [8]; ack 1 [9]; ack 1 [9]] in
  late ≡ₚ early /\ count_acks 3 late ∅ ∅ = Some (ack 0 [9]) /\ count_acks 3 early ∅ ∅ = None.
Proof.
  cbn zeta. split; [|split; by vm_compute].
  match goal with |- _ ≡ₚ ?x :: ?l => change (l ++ [x] ≡ₚ x :: l) end. symmetry. apply Permutation_cons_append.
Qed.

(** ** Runs of an observer *)

Section Runs.
Context `{T : !LLRB (item PublicHash bool) item_Less}.
Context {Ch Tx Cx : Type} `{CI : !ChainI Ch Tx Cx} `{RO : !RangeOrder}.
Context (cUint32 : Coder Z) `{SH : Sha256} `{EC : Ecrecover}.
Context `{!Marshaler Header, !Marshaler BlockSign, !Marshaler RoundVote, !Marshaler RoundVoteAck, !Marshaler BlockVote, !Marshaler BlockGenRequest}.
Context (my : PublicHash) (Sign : Hash256 -> res Signature).
Context `{CC : !CalmCalls cUint32 Sign}.
Abbreviation keys_of c := (observerKeyMap (cp_cs c)).

Lemma new_node_inv (c : Ch) t J : J c -> inv (Cx := Cx) (keys_of c) J (ob_round (NewObserverNode c t)) c.
Proof. intros HJ. split; [done|]. apply NewVoteRound_inv. Qed.

(** A step keeps the invariant, and dereferences nil only when a call of
    [onFormulatorRecv] reads [MinRoundVoteAck] for the second time. *)
Lemma do_run_keeps (keys : llrb (LLRB := T)) e (run : ObserverRun (Ch := Ch) (Tx := Tx) (Cx := Cx)) : map_wf keys ->
  inv keys (fun _ => True) (ob_round (or_node run)) (ob_chain (or_node run)) ->
  match do_run cUint32 my Sign e run with
  | (Panic w, run') => w = nil_pointer -> run' = run /\ MinRoundVoteAck (ob_round (or_node run)) = None /\ exists k, e = OnRecvAgain k
  | (_, run') => inv keys (fun _ => True) (ob_round (or_node run')) (ob_chain (or_node run'))
  end.
Proof.
  intros Hwf HI.
  assert (Hev : forall ev run, inv keys (fun _ => True) (ob_round (or_node run)) (ob_chain (or_node run)) ->
    match on_node (do_event cUint32 my Sign ev) run with
    | (Panic w, _) => w <> nil_pointer
    | (_, run') => inv keys (fun _ => True) (ob_round (or_node run')) (ob_chain (or_node run'))
    end).
  { clear run HI. intros ev run HI. unfold on_node.
    pose proof (do_event_keeps cUint32 my Sign keys Hwf (fun _ => True) (fun _ => Logic.I) _ _ ev HI (or_node run) eq_refl eq_refl) as Hk.
    by destruct (do_event cUint32 my Sign ev (or_node run)) as [[x|er|w] ob]. }
  destruct e as [ev|ID m raw|k|first]; cbn [do_run].
  - assert (Hn : match on_node (do_event cUint32 my Sign ev) run with
      | (Panic w, run') => w = nil_pointer -> run' = run /\ MinRoundVoteAck (ob_round (or_node run)) = None /\ exists k, OnNode ev = OnRecvAgain k
      | (_, run') => inv keys (fun _ => True) (ob_round (or_node run')) (ob_chain (or_node run'))
      end) by (specialize (Hev ev run HI); destruct (on_node _ run) as [[]]; done).
    destruct ev; done.
  - unfold onFormulatorRecv. destruct m; try done. unfold bind, on_node, round_gets, gets. cbn.
    by destruct (MinRoundVoteAck (ob_round (or_node run))).
  - unfold onFormulatorRecv_again, bind, gets. destruct (or_reading run !! k) as [item|]; [|done].
    unfold on_node, round_gets, gets. cbn. destruct (MinRoundVoteAck (ob_round (or_node run))) as [a|] eqn:Ea; cbn.
    + by destruct (bool_decide _).
    + intros _. split; [by destruct run|]. by eauto.
  - unfold recv_pop, bind, gets. destruct ((if first then or_recv0 else or_recv1) run) as [|item q]; [done|]. cbn.
    match goal with |- match on_node _ ?r with _ => _ end => specialize (Hev (OnFormulator (ri_PeerID item) (ri_Message item) (ri_Packet item)) r) end.
    destruct first; cbn in Hev |- *; specialize (Hev HI); destruct (on_node _ _) as [[]]; done.
Qed.

(** C6. What an observer does under its lock dereferences no nil pointer.  Let a new
    node run through any interleaving of messages of the other observers, of timers,
    readings of the clock, changes of its peers, of the steps of the connections of
    formulators, which run without the lock, and of the receive loop; and let the chain,
    the key and the decoder not panic for a nil pointer (the messages carry their parts:
    a nil inside a received message is not modelled).  Then the node panics for a nil
    pointer at one place only: where [onFormulatorRecv] reads [MinRoundVoteAck] a second
    time, after a step that replaced the round.  Otherwise, in the phases that use them
    the chosen vote, the block and its context are there, and every counted vote is
    signed by an observer. *)
Theorem observer_panics_for_nil_at_one_place (c : Ch) (t : Z) (events : list run_event) :
  map_wf (keys_of c) ->
  match for_each events (do_run cUint32 my Sign) (NewObserverRun c t) with
  | (Panic w, run) => w = nil_pointer ->
      MinRoundVoteAck (ob_round (or_node run)) = None /\
      exists before k after, events = before ++ OnRecvAgain k :: after /\
        for_each before (do_run cUint32 my Sign) (NewObserverRun c t) = (Ok tt, run)
  | (_, run) => round_inv (keys_of c) (ob_round (or_node run))
  end.
Proof.
  intros Hwf.
  assert (Hgen : forall events run, inv (keys_of c) (fun _ => True) (ob_round (or_node run)) (ob_chain (or_node run)) ->
    match for_each events (do_run cUint32 my Sign) run with
    | (Panic w, run') => w = nil_pointer -> MinRoundVoteAck (ob_round (or_node run')) = None /\
        exists before k after, events = before ++ OnRecvAgain k :: after /\ for_each before (do_run cUint32 my Sign) run = (Ok tt, run')
    | (_, run') => round_inv (keys_of c) (ob_round (or_node run'))
    end).
  { clear events. induction events as [|e events IH]; intros run HI; cbn [for_each]; [apply HI|].
    pose proof (do_run_keeps (keys_of c) e run Hwf HI) as Hk. unfold bind.
    destruct (do_run cUint32 my Sign e run) as [[[]|er|w] run1] eqn:E.
    - specialize (IH run1 Hk). destruct (for_each events _ run1) as [[x|er|w] run2]; [done|done|].
      intros Hw. destruct (IH Hw) as (Hm & before & k & after & -> & Hb). split; [done|].
      exists (e :: before), k, after. split; [done|]. cbn [for_each]. unfold bind. by rewrite E.
    - apply Hk.
    - intros Hw. destruct (Hk Hw) as (-> & Hm & k & ->). split; [done|]. by exists [], k, events. }
  apply Hgen. apply (new_node_inv c t (fun _ => True) Logic.I).
Qed.

(** The node of a run went through events of [do_event]: what holds after those holds
    for a running node. *)
Lemma run_has_events (c : Ch) (t : Z) (events : list run_event) run :
  for_each events (do_run cUint32 my Sign) (NewObserverRun c t) = (Ok tt, run) ->
  exists es, for_each es (do_event cUint32 my Sign) (NewObserverNode c t) = (Ok tt, or_node run).
Proof.
  assert (Happ : forall es e (ob ob1 ob2 : ObserverNode (Ch := Ch) (Tx := Tx) (Cx := Cx)), for_each es (do_event cUint32 my Sign) ob = (Ok tt, ob1) ->
    do_event cUint32 my Sign e ob1 = (Ok tt, ob2) -> for_each (es ++ [e]) (do_event cUint32 my Sign) ob = (Ok tt, ob2)).
  { induction es as [|e0 es IH]; intros e ob ob1 ob2; cbn [app for_each].
    - intros [= <-] E. unfold bind. by rewrite E.
    - unfold bind at 1 2. destruct (do_event cUint32 my Sign e0 ob) as [[[]|er|w] ob0]; [|done..]. apply IH. }
  assert (Hstep : forall e r1 r2, do_run cUint32 my Sign e r1 = (Ok tt, r2) ->
    or_node r2 = or_node r1 \/ exists ev, do_event cUint32 my Sign ev (or_node r1) = (Ok tt, or_node r2)).
  { intros [ev|ID m raw|k|first] r1 r2; cbn [do_run].
    - unfold on_node. destruct ev; try (destruct (do_event _ _ _ _ (or_node r1)) as [x ob] eqn:E; intros [= -> <-]; right; by eexists).
      intros [= <-]. by left.
    - unfold onFormulatorRecv, bind, on_node, round_gets, gets. destruct m; cbn; try done;
        try destruct (MinRoundVoteAck _); cbn; intros [= <-]; by left.
    - unfold onFormulatorRecv_again, bind, gets, on_node, round_gets, gets. destruct (or_reading r1 !! k); [|intros [= <-]; by left].
      cbn. destruct (MinRoundVoteAck _); cbn; [|done]. destruct (bool_decide _); intros [= <-]; by left.
    - unfold recv_pop, bind, gets. destruct ((if first then or_recv0 else or_recv1) r1) as [|item q]; [intros [= <-]; by left|].
      cbn [modify]. unfold on_node. destruct first; cbn [or_node];
        destruct (do_event _ _ _ _ (or_node r1)) as [x ob] eqn:E; intros [= -> <-]; right; by eexists. }
  assert (Hgen : forall events r0 r es ob, for_each es (do_event cUint32 my Sign) ob = (Ok tt, or_node r0) ->
    for_each events (do_run cUint32 my Sign) r0 = (Ok tt, r) -> exists es, for_each es (do_event cUint32 my Sign) ob = (Ok tt, or_node r)).
  { clear events run. induction events as [|e events IH]; intros r0 r es ob Hes; cbn [for_each]; [intros [= <-]; eauto|].
    unfold bind. destruct (do_run cUint32 my Sign e r0) as [[[]|er|w] r1] eqn:E; [|done..]. intros Hr.
    destruct (Hstep _ _ _ E) as [Hn|[ev Hn]]; [eapply IH; [rewrite Hn|]; done|]. eapply IH; [|done]. by eapply Happ. }
  apply (Hgen events _ run [] (NewObserverNode c t)). done.
Qed.

(** C39. A network of one or two observers produces no block: more than half of them
    plus two votes are asked for to end the first phase, and no run of events gets
    there or chooses a formulator. *)
Theorem few_observers_never_vote (c : Ch) (t : Z) (events : list ob_event) ob :
  map_wf (keys_of c) -> (Len (keys_of c) <= 2)%nat ->
  for_each events (do_event cUint32 my Sign) (NewObserverNode c t) = (Ok tt, ob) ->
  RoundState (ob_round ob) = RoundVoteState /\ MinRoundVoteAck (ob_round ob) = None.
Proof.
  intros Hwf Hn Hr. pose proof (run_keeps cUint32 my Sign (keys_of c) Hwf (fun _ => True) (fun _ => Logic.I) events _ _ (new_node_inv c t _ Logic.I)) as Hk.
  specialize (Hk (NewObserverNode c t) eq_refl eq_refl). rewrite Hr in Hk. by apply (ri_few _ _ (proj2 Hk)).
Qed.

(** ** The signatures of a connected block *)

Lemma KeyMap_iterate (l : list (item PublicHash bool)) : only_pairs l -> forall m : gmap PublicHash bool,
  iterate l (fun pubhash _ KeyMap => (<[pubhash := true]> KeyMap, true)) m = ((fun _ => true) <$> list_to_map (pairs l)) ∪ m.
Proof.
  intros Hp. induction Hp as [|? l (k & v & ->) _ IH]; intros m; cbn; [by rewrite fmap_empty, map_empty_union|].
  rewrite IH, fmap_insert. apply map_eq. intros i. rewrite !lookup_union.
  destruct (decide (i = k)) as [->|Hne].
  - rewrite !lookup_insert_eq, lookup_fmap. destruct (list_to_map (pairs l) !! k), (m !! k); done.
  - by rewrite !lookup_insert_ne by done.
Qed.

Lemma KeyMap_of_contents (m : llrb (LLRB := T)) : map_wf m -> KeyMap_of m = (fun _ => true) <$> contents m.
Proof. intros Hwf. unfold KeyMap_of. rewrite EachAll_items, KeyMap_iterate by apply Hwf. by rewrite map_union_empty. Qed.

(** Signatures of different observers are accepted. *)
Lemma check_signatures_ok (h : Hash256) (KM : gmap PublicHash bool) (l : list (PublicHash * Signature)) : forall acc : gmap PublicHash bool,
  NoDup l.*1 -> (forall k, k ∈ l.*1 -> acc !! k = None) ->
  Forall (fun ks => KM !! ks.1 = Some true /\ exists pk, recover h ks.2 = Ok pk /\ NewPublicHash pk = ks.1) l ->
  exists sm, check_signatures h l.*2 KM acc = Ok sm /\ size sm = (size acc + length l)%nat.
Proof.
  induction l as [|[k s] l IH]; intros acc Hnd Hacc Hl; cbn [fmap list_fmap check_signatures fst snd length]; [exists acc; split; [done|lia]|].
  apply Forall_cons in Hl as [(Hk & pk & Hr & Hpk) Hl]. cbn in Hk, Hr, Hpk, Hnd. apply NoDup_cons in Hnd as [Hnk Hnd]. rewrite Hr. cbn [res_bind].
  rewrite Hpk, Hk. cbn. destruct (IH (<[k := true]> acc)) as (sm & Hsm & Hsz); [done| |done|].
  - intros k' Hk'. rewrite lookup_insert_ne by (intros ->; done). apply Hacc. by right.
  - exists sm. split; [done|]. rewrite Hsz, map_size_insert_None by (apply Hacc; by left). lia.
Qed.

(** The signatures of a majority of the votes on the block [h]. *)
Lemma majority_of_votes (keys : llrb (LLRB := T)) (hh : Hash256) (sig : Signature) (m : gmap PublicHash BlockVote) : map_wf keys ->
  size m = (Len keys / 2 + 1)%nat ->
  map_Forall (fun k v => Has keys k = true /\ vote_signed hh k v /\ bv_GeneratorSignature v = sig) m ->
  ValidateSignaturesMajority (marshal_hash (mkBlockSign hh sig)) (sigs_of m) (KeyMap_of keys) = Ok tt /\
  length (sigs_of m) = (Len keys / 2 + 1)%nat.
Proof.
  intros Hwf Hsz Hm.
  assert (Hlen : length (sigs_of m) = (Len keys / 2 + 1)%nat) by (unfold sigs_of; by rewrite length_fmap, range_perm, length_map_to_list).
  split; [|done]. unfold ValidateSignaturesMajority. rewrite KeyMap_of_contents, map_size_fmap, <- Len_contents, Hlen, Nat.eqb_refl by done. cbn [negb].
  set (l := (fun kv => (kv.1, bv_ObserverSignature kv.2)) <$> range_of m).
  assert (E1 : l.*1 = (range_of m).*1) by (unfold l; by rewrite <- list_fmap_compose). assert (E2 : l.*2 = sigs_of m) by (unfold l; by rewrite <- list_fmap_compose).
  destruct (check_signatures_ok (marshal_hash (mkBlockSign hh sig)) (KeyMap_of keys) l ∅) as (sm & Hs & Hn).
  - rewrite E1, range_perm. apply NoDup_fst_map_to_list.
  - intros. apply lookup_empty.
  - apply Forall_fmap, Forall_forall. intros [k v] Hkv. rewrite range_perm in Hkv. apply elem_of_map_to_list in Hkv.
    destruct (Hm k v Hkv) as (Hk & (pk & Hr & Hp) & <-). split; [by apply KeyMap_of_spec|]. by exists pk.
  - rewrite E2, KeyMap_of_contents in Hs by done. rewrite Hs. cbn [res_bind]. rewrite Hn.
    rewrite map_size_empty. unfold l. rewrite length_fmap, range_perm, length_map_to_list, Hsz, Nat.eqb_refl. done.
Qed.

(** The signatures of the votes on the block [g], once they are just a majority. *)
Lemma votes_validate (c : Ch) keys (b : BlockRound Tx Cx) g k v : map_wf keys -> keys_of c = keys -> votes_ok keys b -> BlockGenMessage_ b = Some g ->
  Has keys k = true -> vote_checked cUint32 c g k v -> BlockVoteMap b !! k = None ->
  (size (BlockVoteMap b) <= Len keys / 2)%nat -> (Len keys / 2 + 1 <= size (<[k := v]> (BlockVoteMap b)))%nat ->
  map_Forall (fun _ v => bv_GeneratorSignature v = gm_GeneratorSignature g) (<[k := v]> (BlockVoteMap b)) ->
  (header_hash (bv_Header v) = header_hash (b_Header (gm_Block g)) -> bv_Header v = b_Header (gm_Block g)) ->
  ValidateSignature cUint32 (cp_cs c) (b_Header (gm_Block g)) (b_Signatures (signed_block g (sigs_of (<[k := v]> (BlockVoteMap b))))) = Ok tt.
Proof.
  intros Hwf Hkeys Hv Hg Hk [(n & top & pk & En & Et & Ea & Er & Ep) Hh Hs] Hn Hsz Hmaj Hgen Hhead. specialize (Hhead Hh). clear Hh.
  unfold votes_ok in Hv. rewrite Hg in Hv. destruct Hv as [_ Hv]. rewrite map_size_insert_None in Hmaj by done.
  assert (Hgv : bv_GeneratorSignature v = gm_GeneratorSignature g) by (apply (Hgen k v), lookup_insert_eq).
  destruct (majority_of_votes keys (header_hash (b_Header (gm_Block g))) (gm_GeneratorSignature g) (<[k := v]> (BlockVoteMap b)) Hwf) as [Hm Hl].
  - rewrite map_size_insert_None by done. lia.
  - intros k' v' Hk'. pose proof (Hgen k' v' Hk') as Hg'. cbn in Hg'. apply lookup_insert_Some in Hk' as [[<- <-]|[_ Hk']]; [done|].
    destruct (Hv k' v' Hk'). done.
  - rewrite Hhead in En, Ea, Er. rewrite Hgv in Er. unfold ValidateSignature. cbn [signed_block b_Signatures]. rewrite En. cbn [res_bind].
    rewrite Et. cbn [res_bind]. rewrite bool_decide_true by done. cbn [negb]. rewrite Er. cbn [res_bind].
    rewrite bool_decide_true by done. cbn [negb length]. rewrite Hkeys, Hl. replace (S _ =? _)%nat with true by (symmetry; apply Nat.eqb_eq; lia). exact Hm.
Qed.

(** C7. A block that an observer connects by votes carries signatures that the
    consensus accepts.  After any run of events, let the node handle a vote (the
    round is synchronised first).  If the block of the round [g] has fewer votes than
    a majority, the votes are over the formulator's signature that the node has, and
    the voted header is the header of [g] when their hashes agree, then the chain
    stays as it is or the block of [g] is connected, with the context it was executed
    on, and with signatures for which [ValidateSignature] answers without an error. *)
Theorem connected_blocks_are_signed (c : Ch) (t : Z) (events : list ob_event) ob1 ob k msg b g :
  map_wf (keys_of c) ->
  for_each events (do_event cUint32 my Sign) (NewObserverNode c t) = (Ok tt, ob1) -> syncVoteRound ob1 = (Ok tt, ob) ->
  BlockRoundMap (ob_round ob) !! vr_TargetHeight (ob_round ob) = Some b -> BlockGenMessage_ b = Some g ->
  (size (BlockVoteMap b) <= Len (keys_of c) / 2)%nat ->
  map_Forall (fun _ v => bv_GeneratorSignature v = gm_GeneratorSignature g) (<[k := vm_BlockVote msg]> (BlockVoteMap b)) ->
  (header_hash (bv_Header (vm_BlockVote msg)) = header_hash (b_Header (gm_Block g)) -> bv_Header (vm_BlockVote msg) = b_Header (gm_Block g)) ->
  match handleBlockVote cUint32 my Sign k msg ob with
  | (Panic w, _) => w <> nil_pointer
  | (_, ob') => ob_chain ob' = ob_chain ob \/
      exists ctx sigs, br_Context b = Some ctx /\
        ob_chain ob' = snd (ct_ConnectBlockWithContext (signed_block g sigs) ctx (ob_chain ob)) /\
        ValidateSignature cUint32 (cp_cs (ob_chain ob)) (b_Header (gm_Block g)) (b_Signatures (signed_block g sigs)) = Ok tt
  end.
Proof.
  intros Hwf Hrun Hsync Hb Hg Hsz Hgen Hhead.
  pose proof (run_keeps cUint32 my Sign (keys_of c) Hwf (fun _ => True) (fun _ => Logic.I) events _ _ (new_node_inv c t _ Logic.I)) as Hr.
  specialize (Hr (NewObserverNode c t) eq_refl eq_refl). rewrite Hrun in Hr.
  pose proof (sync_keeps (keys_of c) (fun _ => True) _ _ Hr ob1 eq_refl eq_refl) as Hs. rewrite Hsync in Hs. destruct Hs as [[Hk _] Hri].
  set (J := fun c' => c' = ob_chain ob \/ exists ctx sigs, br_Context b = Some ctx /\
    c' = snd (ct_ConnectBlockWithContext (signed_block g sigs) ctx (ob_chain ob)) /\
    ValidateSignature cUint32 (cp_cs (ob_chain ob)) (b_Header (gm_Block g)) (b_Signatures (signed_block g sigs)) = Ok tt).
  assert (HI : inv (keys_of c) J (ob_round ob) (ob_chain ob)) by (split; [|done]; split; [done|by left]).
  unshelve epose proof (handleBlockVote_keeps cUint32 my Sign (keys_of c) Hwf J (ob_round ob) (ob_chain ob) k msg HI _ ob eq_refl eq_refl) as Hv.
  - intros b' g' ctx Hb' Hg' Hctx Hvotes Hkey Hchk Hnew Hmaj. rewrite Hb in Hb'. injection Hb' as <-. rewrite Hg in Hg'. injection Hg' as <-.
    right. exists ctx, (sigs_of (<[k := vm_BlockVote msg]> (BlockVoteMap b))). split; [done|]. split; [done|]. by eapply votes_validate.
  - destruct (handleBlockVote _ _ _ _ _ _) as [[x|e|w] ob']; [apply Hv..|done].
Qed.
End Runs.

(** ** A round of three observers *)

Section Example.
#[local] Existing Instance range_list.
#[local] Existing Instance sha256_prefix.
(** A signature is the key, a nonce and what is signed. *)
Definition sign (key nonce : Z) (h : Hash256) : Signature := key :: nonce :: h.
#[local] Instance toy_recover : Ecrecover := {
  recover h sig := match sig with key :: _ :: h' => if bool_decide (h' = h) then Ok [key] else Err ErrInvalidSignature | _ => Err ErrInvalidSignature end
}.
#[local] Existing Instance marshal_header.
#[local] Instance marshal_sign : Marshaler BlockSign := fun bs => bs_GeneratorSignature bs ++ bs_HeaderHash bs.
#[local] Instance marshal_rv : Marshaler RoundVote := fun v => [rv_TimeoutCount v].
#[local] Instance marshal_ra : Marshaler RoundVoteAck := fun v => [ra_TimeoutCount v].
#[local] Instance marshal_bv : Marshaler BlockVote := fun v => [bv_TargetHeight v].
#[local] Instance marshal_gr : Marshaler BlockGenRequest := fun v => [gr_TargetHeight v].

(** A chain that takes every block: its height and its consensus. *)
Abbreviation Cs := (PofConsensus (T := llrb_list _ item_Less)).
Definition toy : Type := Z * Cs.
#[local] Instance toy_chain : ChainI (T := llrb_list _ item_Less) toy unit unit := {
  cp_ChainID _ := 1; cp_Version _ := 1; cp_Height c := c.1; cp_LastHash _ := EmptyHash;
  cp_Hash _ _ := Ok EmptyHash; cp_Block _ _ := Err ErrInvalidVote; cp_cs c := c.2;
  ct_ValidateHeader _ _ := Ok tt; ct_ExecuteBlockOnContext _ _ := Ok tt; ct_ContextHash _ := EmptyHash;
  ct_ConnectBlockWithContext _ _ c := (Ok tt, (c.1 + 1, c.2)); cn_ConnectBlock _ c := (Ok tt, (c.1 + 1, c.2))
}.

Definition ob_key (n : Z) : PublicHash := NewPublicHash [n].
Definition cs_with (l : list Z) : Cs := set_rt (NewConsensus 10 (ob_key <$> l)) ex_rt.
Definition my_key : PublicHash := ob_key 1.
Definition my_sign (h : Hash256) : res Signature := Ok (sign 1 0 h).
#[local] Instance toy_calm : CalmCalls (Tx := unit) (Cx := unit) (CI := toy_chain) coder_byte my_sign.
Proof. split; try done; [|by intros [|b bs]]. intros h [|? [|]]; try done. unfold calm. cbn. by case_bool_decide. Qed.

Lemma cs_with_wf l : map_wf (observerKeyMap (cs_with l)).
Proof.
  assert (Hf : forall m : llrb (LLRB := llrb_list (item PublicHash bool) item_Less), map_wf m ->
    map_wf (foldl (fun m ph => Put m (pubhash_Clone ph) true) m (ob_key <$> l))).
  { induction l as [|k l IH]; intros m Hm; [done|]. apply IH. by apply Put_contents. }
  apply Hf. apply NewMap_contents.
Qed.
Definition start : toy := (0, cs_with [1; 2; 3]).
Abbreviation gen := ex_generator.
Definition ex_vote : RoundVote := mkRoundVote 1 EmptyHash 1 0 (r_Address gen) (r_PublicHash gen) 0 false.
Definition ex_round_ack : RoundVoteAck := mkRoundVoteAck 1 EmptyHash 1 0 (r_Address gen) (r_PublicHash gen) (ob_key 1) 0 false.
Definition ex_block : Block unit := mkBlock (ex_header 5) [] [] [] [] [].
Definition ex_gen : BlockGenMessage unit := mkBlockGenMessage ex_block (sign 9 0 (header_hash (ex_header 5))) false.
(** The vote of an observer for the block, over a signature of its formulator. *)
Definition ex_block_vote (key nonce : Z) : BlockVoteMessage :=
  let g := sign 9 nonce (header_hash (ex_header 5)) in
  let v := mkBlockVote 1 (ex_header 5) g (sign key 0 (block_sign_hash (ex_header 5) g)) false in
  mkBlockVoteMessage v (sign key 0 (marshal_hash v)).

(** The events up to the vote of the node itself on the block. *)
Definition one_round : list (ob_event (Tx := unit)) :=
  let vote k := OnObserver (ob_key k) (MRoundVote (mkRoundVoteMessage ex_vote (sign k 0 (marshal_hash ex_vote)))) in
  [OnPeers {[ r_Address gen := 0 ]}; OnVoteTimer; OnQueue; vote 2; OnQueue; vote 3; OnQueue; OnQueue;
   OnObserver (ob_key 2) (MRoundVoteAck (mkRoundVoteAckMessage ex_round_ack (sign 2 0 (marshal_hash ex_round_ack)))); OnQueue;
   OnFormulator (r_Address gen) (MBlockGen ex_gen) [7]; OnQueue; OnQueue].
Definition after_events (c : toy) (es : list ob_event) : res unit * ObserverNode (Ch := toy) (Tx := unit) (Cx := unit) :=
  for_each es (do_event coder_byte my_key my_sign) (NewObserverNode c 0).

(** The node after the round, and the block of the round there. *)
Definition ob_end : ObserverNode (Ch := toy) (Tx := unit) (Cx := unit) := (after_events start one_round).2.
Definition br_end : BlockRound unit unit := default NewBlockRound (BlockRoundMap (ob_round ob_end) !! 1).
Definition after_vote (msg : BlockVoteMessage) := handleBlockVote coder_byte my_key my_sign (ob_key 2) msg ob_end.

(** The same round with the formulator's block coming through the queues, a request of
    the formulator that is compared at once, and the receive loop. *)
Definition one_run : list (run_event (Tx := unit)) :=
  (OnNode <$> take 10 one_round) ++
  [OnRecv (r_Address gen) (MBlockGen ex_gen) [7]; OnRecvPop true; OnRecv (r_Address gen) (MRequest 1) [];
   OnRecvAgain 0; OnRecvPop true; OnNode OnQueue; OnNode OnQueue].
Definition after_run (es : list run_event) : res unit * ObserverRun (Ch := toy) (Tx := unit) (Cx := unit) :=
  for_each es (do_run coder_byte my_key my_sign) (NewObserverRun start 0).

Lemma observer_panics_for_nil_at_one_place_witness :
  (after_run one_run).1 = Ok tt /\ RoundState (ob_round (or_node (after_run one_run).2)) = BlockVoteState /\
  round_inv (observerKeyMap (cp_cs start)) (ob_round (or_node (after_run one_run).2)).
Proof.
  assert (Hok : (after_run one_run).1 = Ok tt) by (vm_compute; reflexivity). split; [done|]. split; [vm_compute; reflexivity|].
  pose proof (observer_panics_for_nil_at_one_place coder_byte my_key my_sign start 0 one_run (cs_with_wf _)) as Ht.
  fold (after_run one_run) in Ht. destruct (after_run one_run) as [r run]. cbn in Hok |- *. by rewrite Hok in Ht.
Defined.

(** A request of the formulator of the round can stop an observer: between the two
    reads of [onFormulatorRecv] the round fails and is replaced. *)
Lemma request_between_rounds_stops_the_observer :
  (after_run (take 10 one_run ++ OnRecv (r_Address gen) (MRequest 1) [] :: replicate 21 (OnNode OnVoteTimer) ++ [OnRecvAgain 0])).1 =
  Panic nil_pointer.
Proof. vm_compute. reflexivity. Qed.

Lemma few_observers_never_vote_witness :
  let c : toy := (0, cs_with [1; 2]) in
  let es := take 5 one_round in
  size (RoundVoteMessageMap (ob_round (after_events c es).2)) = 2%nat /\
  RoundState (ob_round (after_events c es).2) = RoundVoteState /\ MinRoundVoteAck (ob_round (after_events c es).2) = None.
Proof.
  intros c es. split; [vm_compute; reflexivity|].
  apply (few_observers_never_vote coder_byte my_key my_sign c 0 es); [apply cs_with_wf|vm_compute; lia|vm_compute; reflexivity].
Defined.

Lemma connected_blocks_are_signed_witness :
  cp_Height (ob_chain (after_vote (ex_block_vote 2 0)).2) = 1 /\
  match after_vote (ex_block_vote 2 0) with
  | (Panic w, _) => w <> nil_pointer
  | (_, ob') => ob_chain ob' = ob_chain ob_end \/
      exists ctx sigs, br_Context br_end = Some ctx /\
        ob_chain ob' = snd (ct_ConnectBlockWithContext (signed_block ex_gen sigs) ctx (ob_chain ob_end)) /\
        ValidateSignature coder_byte (cp_cs (ob_chain ob_end)) (b_Header (gm_Block ex_gen)) (b_Signatures (signed_block ex_gen sigs)) = Ok tt
  end.
Proof.
  split; [vm_compute; reflexivity|].
  apply (connected_blocks_are_signed coder_byte my_key my_sign start 0 one_round ob_end ob_end (ob_key 2) (ex_block_vote 2 0) br_end ex_gen).
  - apply cs_with_wf.
  - vm_compute; reflexivity.
  - vm_compute; reflexivity.
  - vm_compute; reflexivity.
  - vm_compute; reflexivity.
  - vm_compute; lia.
  - apply (bool_decide_unpack _). vm_compute. exact Logic.I.
  - done.
Defined.

(** A vote is checked against the formulator's signature that it carries, not
    against the one the node has: a second signature of the formulator over the same
    header passes, the block is connected with the signatures of both kinds, and no
    other node accepts it. *)
Lemma vote_over_another_signature :
  let r := after_vote (ex_block_vote 2 1) in
  let sigs := sigs_of (<[ob_key 2 := vm_BlockVote (ex_block_vote 2 1)]> (BlockVoteMap br_end)) in
  r.1 = Ok tt /\ ob_chain r.2 = snd (ct_ConnectBlockWithContext (signed_block ex_gen sigs) tt (ob_chain ob_end)) /\
  cp_Height (ob_chain r.2) = cp_Height (ob_chain ob_end) + 1 /\
  ValidateSignature coder_byte (cp_cs (ob_chain ob_end)) (ex_header 5) (b_Signatures (signed_block ex_gen sigs)) = Err ErrInvalidSignature.
Proof. cbn zeta. repeat split; vm_compute; reflexivity. Qed.

(** The round fails (21 ticks), the formulator is ignored for 30 seconds, and then it
    is chosen again and sends another block. *)
Definition second_round : list (ob_event (Tx := unit)) :=
  let block := mkBlock (ex_header 6) [] [] [] [] [] in
  one_round ++ replicate 21 OnVoteTimer ++ [OnTime (40 * Second)] ++ replicate 21 OnQueue ++ take 10 one_round ++
  [OnFormulator (r_Address gen) (MBlockGen (mkBlockGenMessage block (sign 9 0 (header_hash (ex_header 6))) false)) [7]; OnQueue].

#[local] Instance Header_eq_dec : EqDecision Header.
Proof. solve_decision. Defined.

Definition signed_headers (ob : ObserverNode (Ch := toy) (Tx := unit) (Cx := unit)) : list Header :=
  omap (fun e => match e with SBroadcast (MBlockVote m) => Some (bv_Header (vm_BlockVote m)) | _ => None end) (ob_sent ob).

(** An observer forgets what it signed when a round fails: with the same chain it
    signs a second block of the same height, so that the common observer of two
    accepted blocks need not be at fault. *)
Lemma observer_signs_two_blocks :
  let ob := (after_events start second_round).2 in
  ob_chain ob = start /\ ex_header 5 ∈ signed_headers ob /\ ex_header 6 ∈ signed_headers ob /\
  h_Height (ex_header 5) = h_Height (ex_header 6) /\ header_hash (ex_header 5) <> header_hash (ex_header 6).
Proof.
  cbn zeta. split; [vm_compute; reflexivity|]. split; [apply (bool_decide_unpack _); vm_compute; exact Logic.I|].
  split; [apply (bool_decide_unpack _); vm_compute; exact Logic.I|]. split; [done|]. by vm_compute.
Qed.
End Example.
