(* ===== verification/FormulatorNode.v ===== *)
(** * The formulator node

    [pof/formulator_node.go], [pof/formulator_node_send.go] and the table of
    observers of [pof/formulator_mesh.go]: the node that makes blocks when the
    observers ask it to, follows the chain, and keeps the transactions that wait.

    The node is a state machine.  A handler that holds the lock is one step; the
    goroutine that makes blocks ([genBlock]) releases the lock after each block, so
    it is a step per block and one per look at [lastReqMessage]; [genLock] lets one
    of them run at a time.  A message that is tried again later is kept in a list.
    One reading of the clock serves one step.  The chain and the block creator are
    behind the interfaces [ChainI] and [CreatorI].  The cache of packets is left out:
    it holds the packets of blocks of the chain, which do not change. *)

From stdpp Require Import base gmap list sorting strings.
From Stdlib Require Import ZArith.
From S2P Require Import Prelude Common LevelRoot OrderedMap Types Context Chain RankTable Consensus Queue LinkedQueue ExpireQueue TxPool RequestTimer Observer.

Definition ErrInvalidRequest := poferr "invalid request".
Definition ErrNotExistObserverPeer := poferr "not exist observer peer".
Definition ErrPastSeq := tperr "past seq".
Definition ErrTooFarSeq := tperr "too far seq".
Definition ErrInvalidUTXO : error := mkError "p2p" "invalid UTXO".
Definition Millisecond : Z := 1000000.

(** [p2p.TransactionMessage] and [p2p.TxMsgItem]. *)
Record TransactionMessage (Tx : Type) := mkTransactionMessage { tm_TxType : Z; tm_Tx : Tx; tm_Sigs : list Signature }.
Arguments mkTransactionMessage {Tx}. Arguments tm_TxType {Tx}. Arguments tm_Tx {Tx}. Arguments tm_Sigs {Tx}.
Record TxMsgItem (Tx : Type) := mkTxMsgItem { xi_TxHash : Hash256; xi_Message : TransactionMessage Tx; xi_PeerID : bytes }.
Arguments mkTxMsgItem {Tx}. Arguments xi_TxHash {Tx}. Arguments xi_Message {Tx}. Arguments xi_PeerID {Tx}.

(** The messages of the node: those of the observers and those of the peers. *)
Inductive FrMessage (Tx : Type) :=
  | FOb (m : ObMessage Tx)
  | FTransaction (m : TransactionMessage Tx)
  | FPeerList (Ips Hashs : list bytes)
  | FRequestPeerList.
Arguments FOb {Tx}. Arguments FTransaction {Tx}. Arguments FPeerList {Tx}. Arguments FRequestPeerList {Tx}.

(** What the node sends: to one observer or to all; into the queue of a priority,
    for [Target] or for all, to at most [Limit] peers when it is positive; calls of
    the mesh of nodes. *)
Inductive FrSent (Tx : Type) :=
  | OSendTo (ID : bytes) (m : FrMessage Tx)
  | OBroadcast (m : FrMessage Tx)
  | NQueue (Priority : Z) (Target : PublicHash) (Limit : Z) (m : FrMessage Tx)
  | NRemovePeer (ID : bytes)
  | NAddPeerList (Ips Hashs : list bytes)
  | NSendPeerList (ID : bytes).
Arguments OSendTo {Tx}. Arguments OBroadcast {Tx}. Arguments NQueue {Tx}. Arguments NRemovePeer {Tx}.
Arguments NAddPeerList {Tx}. Arguments NSendPeerList {Tx}.

(** ** What the node asks of the chain beside [ChainI], and of the pool *)

Class CreatorI (Ch Tx Cx : Type) := {
  cp_LastTimestamp : Ch -> Z;
  cp_Seq : Ch -> Address -> Z;
  fn_account : Tx -> option (Z * Address);                             (** [AccountTransaction]: sequence and sender *)
  fn_hash : Z -> Z -> Tx -> Hash256;                                   (** [HashTransactionByType] *)
  ct_Validate : Ch -> Z -> Tx -> list PublicHash -> res unit;          (** [Process] and [Validate] on a new context *)
  ct_NewContext : Ch -> Cx;
  cx_TargetHeight : Cx -> Z;
  cx_LastHash : Cx -> Hash256;
  cx_LastTimestamp : Cx -> Z;
  cx_NextContext : Hash256 -> Z -> Cx -> Cx;
  cx_NewBlockCreator : Cx -> Address -> bytes -> BlockCreator Tx;
  cx_Init : Ch -> ST Cx unit;
  cx_UnsafeAddTx : Ch -> BlockCreator Tx -> Address -> Z -> Hash256 -> Tx -> list Signature -> list PublicHash -> ST Cx (BlockCreator Tx);
  cx_Finalize : Ch -> BlockCreator Tx -> Z -> ST Cx (Block Tx)
}.

Class PoolI (P Tx : Type) := {
  pl_New : P;
  pl_IsExist : P -> Hash256 -> bool;
  pl_Push : Z -> Z -> Hash256 -> Tx -> list Signature -> list PublicHash -> ST P unit;
  pl_Remove : Hash256 -> Tx -> ST P unit
}.

#[global] Instance TransactionPool_PoolI {Proc Tx TQ NQ UQ SQ : Type} `{TransactionI Proc Tx} `{Fifo TQ bool} `{Fifo NQ Address}
    `{!Keyed UQ Hash256 (PoolItem Tx)} `{Prioritized SQ (PoolItem Tx)} : PoolI (TransactionPool TQ NQ UQ SQ) Tx := {
  pl_New := NewTransactionPool; pl_IsExist := IsExist; pl_Push := tp_Push; pl_Remove := tp_Remove
}.

Section Node.
Context `{T : !LLRB (item PublicHash bool) item_Less}.
Context {Ch Tx Cx P : Type} `{CI : !ChainI Ch Tx Cx} `{CR : !CreatorI Ch Tx Cx} `{PI : !PoolI P Tx} .
Context (cUint32 : Coder Z) `{SH : Sha256} `{EC : Ecrecover} `{MH : !Marshaler Header}.
(** The order in which Go visits a map of peers. *)
Context (visit : gmap bytes StatusMessage -> list (bytes * StatusMessage)).
(** The keys of the node: that of the formulator, with which it signs, and that of the node. *)
Context (frPublicHash myPublicHash : PublicHash) (Sign : Hash256 -> res Signature).

Record FormulatorConfig := mkFormulatorConfig { cf_Formulator : Address; cf_MaxTransactionsPerBlock : Z }.
(** [NewFormulatorNode] fills in the number of transactions; the node runs with the result. *)
Definition fill_config (c : FormulatorConfig) : FormulatorConfig :=
  if cf_MaxTransactionsPerBlock c =? 0 then mkFormulatorConfig (cf_Formulator c) 5000 else c.
(** The transactions of [temp] with their hashes and signatures, their type and signer. *)
Record TempTxs := mkTempTxs { tt_Txs : list (Tx * Hash256 * Signature); tt_Type : Z; tt_signer : PublicHash }.

(** The goroutine of [genBlock]: what it holds between two blocks; [gn_checks] is how
    often it will still look at [lastReqMessage] before the next block. *)
Record Generation := mkGeneration {
  gn_ID : bytes; gn_req : BlockReqMessage; gn_start : Z; gn_StartBlockTime : Z; gn_RemainBlocks : Z;
  gn_i : Z; gn_ctx : Cx; gn_lastHeader : option Header; gn_checks : nat
}.

(** The part of the node that makes blocks. *)
Record GenState := mkGenState {
  lastGenMessages : list (BlockGenMessage Tx);
  lastContextes : list Cx;
  lastObSignMessageMap : gmap Z BlockObSignMessage;
  lastReqMessage : option BlockReqMessage;
  lastGenHeight : Z;
  lastGenTime : Z;
  gs_running : option Generation;                    (** who holds [genLock] *)
  gs_waiting : list (bytes * BlockReqMessage)        (** who waits for it *)
}.

(** The part that follows the network. *)
Record NetState := mkNetState {
  statusMap : gmap bytes StatusMessage;
  obStatusMap : gmap bytes StatusMessage;
  requestTimer : RequestTimer;
  requestNodeTimer : RequestTimer;
  ms_peers : gset bytes;                             (** the observers connected *)
  fr_retries : list (bytes * BlockReqMessage * Z);   (** messages to try again, with the count *)
  fr_recv : list (list (bytes * FrMessage Tx));      (** [recvQueues]: blocks, transactions, peers *)
  fr_sent : list (FrSent Tx)
}.

Record FormulatorNode := mkFormulatorNode {
  fr_chain : Ch;
  fr_gen : GenState;
  fr_net : NetState;
  fr_blockQ : SortedQueue (Block Tx);
  fr_genMap : gmap Z (BlockGenMessage Tx);
  fr_txpool : P;
  fr_txQ : ExpireQueue (A := TransactionMessage Tx);
  fr_txWaitQ : LinkedQueue Hash256 (TxMsgItem Tx);
  fr_now : Z
}.

Context (Config : FormulatorConfig) (Temp : TempTxs).
Definition frM (A : Type) : Type := ST FormulatorNode A.

(** *** Fields *)

Definition fr_upd (c : Ch -> Ch) (g : GenState -> GenState) (n : NetState -> NetState) (q : SortedQueue (Block Tx) -> SortedQueue (Block Tx))
    (m : gmap Z (BlockGenMessage Tx) -> gmap Z (BlockGenMessage Tx)) (fr : FormulatorNode) : FormulatorNode :=
  mkFormulatorNode (c (fr_chain fr)) (g (fr_gen fr)) (n (fr_net fr)) (q (fr_blockQ fr)) (m (fr_genMap fr)) (fr_txpool fr) (fr_txQ fr) (fr_txWaitQ fr) (fr_now fr).
Definition upd_gen (g : GenState -> GenState) : frM unit := modify (fr_upd id g id id id).
Definition upd_net (n : NetState -> NetState) : frM unit := modify (fr_upd id id n id id).
Definition upd_blockQ (q : SortedQueue (Block Tx)) : frM unit := modify (fr_upd id id id (fun _ => q) id).
Definition upd_genMap (m : gmap Z (BlockGenMessage Tx) -> gmap Z (BlockGenMessage Tx)) : frM unit := modify (fr_upd id id id id m).
Definition upd_txQ (f : ExpireQueue -> ExpireQueue) : frM unit := modify (fun fr =>
  mkFormulatorNode (fr_chain fr) (fr_gen fr) (fr_net fr) (fr_blockQ fr) (fr_genMap fr) (fr_txpool fr) (f (fr_txQ fr)) (fr_txWaitQ fr) (fr_now fr)).
Definition fr_on_chain {A} (m : ST Ch A) : frM A := fun fr =>
  let '(r, c) := m (fr_chain fr) in (r, fr_upd (fun _ => c) id id id id fr).
Definition on_pool {A} (m : ST P A) : frM A := fun fr =>
  let '(r, p) := m (fr_txpool fr) in
  (r, mkFormulatorNode (fr_chain fr) (fr_gen fr) (fr_net fr) (fr_blockQ fr) (fr_genMap fr) p (fr_txQ fr) (fr_txWaitQ fr) (fr_now fr)).
Definition on_wait {A} (m : ST (LinkedQueue Hash256 (TxMsgItem Tx)) A) : frM A := fun fr =>
  let '(r, q) := m (fr_txWaitQ fr) in
  (r, mkFormulatorNode (fr_chain fr) (fr_gen fr) (fr_net fr) (fr_blockQ fr) (fr_genMap fr) (fr_txpool fr) (fr_txQ fr) q (fr_now fr)).
Definition fr_get {A} (f : Ch -> A) : frM A := gets (fun fr => f (fr_chain fr)).
Definition gen_get {A} (f : GenState -> A) : frM A := gets (fun fr => f (fr_gen fr)).
Definition net_get {A} (f : NetState -> A) : frM A := gets (fun fr => f (fr_net fr)).
Definition clock : frM Z := gets fr_now.
Definition fr_when (b : bool) (m : frM unit) : frM unit := if b then m else ret tt.

Definition set_msgs (l : list (BlockGenMessage Tx)) (cs : list Cx) (g : GenState) : GenState :=
  mkGenState l cs (lastObSignMessageMap g) (lastReqMessage g) (lastGenHeight g) (lastGenTime g) (gs_running g) (gs_waiting g).
Definition set_signs (m : gmap Z BlockObSignMessage) (g : GenState) : GenState :=
  mkGenState (lastGenMessages g) (lastContextes g) m (lastReqMessage g) (lastGenHeight g) (lastGenTime g) (gs_running g) (gs_waiting g).
Definition set_req (o : option BlockReqMessage) (g : GenState) : GenState :=
  mkGenState (lastGenMessages g) (lastContextes g) (lastObSignMessageMap g) o (lastGenHeight g) (lastGenTime g) (gs_running g) (gs_waiting g).
Definition set_last (h t : Z) (g : GenState) : GenState :=
  mkGenState (lastGenMessages g) (lastContextes g) (lastObSignMessageMap g) (lastReqMessage g) h t (gs_running g) (gs_waiting g).
Definition set_running (r : option Generation) (g : GenState) : GenState :=
  mkGenState (lastGenMessages g) (lastContextes g) (lastObSignMessageMap g) (lastReqMessage g) (lastGenHeight g) (lastGenTime g) r (gs_waiting g).
Definition set_waiting (l : list (bytes * BlockReqMessage)) (g : GenState) : GenState :=
  mkGenState (lastGenMessages g) (lastContextes g) (lastObSignMessageMap g) (lastReqMessage g) (lastGenHeight g) (lastGenTime g) (gs_running g) l.

Definition set_status (f : gmap bytes StatusMessage -> gmap bytes StatusMessage) (n : NetState) : NetState :=
  mkNetState (f (statusMap n)) (obStatusMap n) (requestTimer n) (requestNodeTimer n) (ms_peers n) (fr_retries n) (fr_recv n) (fr_sent n).
Definition set_obStatus (f : gmap bytes StatusMessage -> gmap bytes StatusMessage) (n : NetState) : NetState :=
  mkNetState (statusMap n) (f (obStatusMap n)) (requestTimer n) (requestNodeTimer n) (ms_peers n) (fr_retries n) (fr_recv n) (fr_sent n).
Definition set_obTimer (f : RequestTimer -> RequestTimer) (n : NetState) : NetState :=
  mkNetState (statusMap n) (obStatusMap n) (f (requestTimer n)) (requestNodeTimer n) (ms_peers n) (fr_retries n) (fr_recv n) (fr_sent n).
Definition set_nodeTimer (f : RequestTimer -> RequestTimer) (n : NetState) : NetState :=
  mkNetState (statusMap n) (obStatusMap n) (requestTimer n) (f (requestNodeTimer n)) (ms_peers n) (fr_retries n) (fr_recv n) (fr_sent n).
Definition set_ms (f : gset bytes -> gset bytes) (n : NetState) : NetState :=
  mkNetState (statusMap n) (obStatusMap n) (requestTimer n) (requestNodeTimer n) (f (ms_peers n)) (fr_retries n) (fr_recv n) (fr_sent n).
Definition set_retries (l : list (bytes * BlockReqMessage * Z)) (n : NetState) : NetState :=
  mkNetState (statusMap n) (obStatusMap n) (requestTimer n) (requestNodeTimer n) (ms_peers n) l (fr_recv n) (fr_sent n).
Definition set_recv (l : list (list (bytes * FrMessage Tx))) (n : NetState) : NetState :=
  mkNetState (statusMap n) (obStatusMap n) (requestTimer n) (requestNodeTimer n) (ms_peers n) (fr_retries n) l (fr_sent n).
Definition set_sent (e : FrSent Tx) (n : NetState) : NetState :=
  mkNetState (statusMap n) (obStatusMap n) (requestTimer n) (requestNodeTimer n) (ms_peers n) (fr_retries n) (fr_recv n) (fr_sent n ++ [e]).
Definition fr_send (e : FrSent Tx) : frM unit := upd_net (set_sent e).

(** ** Sending *)

Definition EmptyPublicHash : PublicHash := replicate PublicHashSize 0.

Definition fr_sendMessage (Priority : Z) (Target : PublicHash) (m : FrMessage Tx) : frM unit := fr_send (NQueue Priority Target 0 m).
Definition broadcastMessage (Priority : Z) (m : FrMessage Tx) : frM unit := fr_send (NQueue Priority EmptyPublicHash 0 m).
Definition limitCastMessage (Priority : Z) (m : FrMessage Tx) : frM unit := fr_send (NQueue Priority EmptyPublicHash 3 m).
Definition exceptLimitCastMessage (Priority : Z) (Target : PublicHash) (m : FrMessage Tx) : frM unit := fr_send (NQueue Priority Target 3 m).

(** [fr.ms.SendTo] and [SendRawTo]: a failed write removes the peer and is no error. *)
Definition ms_SendTo (ID : bytes) (m : FrMessage Tx) : frM unit :=
  let! peers := net_get ms_peers in
  if bool_decide (ID ∈ peers) then fr_send (OSendTo ID m) else fail ErrNotExistObserverPeer.

Definition fr_status : frM (FrMessage Tx) :=
  fr_get (fun c => FOb (MStatus (mkStatusMessage (cp_Version c) (cp_Height c) (cp_LastHash c)))).

Definition fr_sendStatusTo (TargetPubHash : PublicHash) : frM unit :=
  if bool_decide (TargetPubHash = myPublicHash) then ret tt
  else let! nm := fr_status in fr_sendMessage 0 TargetPubHash nm.

Definition fr_broadcastStatus : frM unit :=
  let! nm := fr_status in
  fr_send (OBroadcast nm) ;;;
  broadcastMessage 0 nm.

(** The error of [SendTo] is dropped. *)
Definition fr_sendRequestBlockTo (TargetID : bytes) (Height : Z) : frM unit :=
  let! _ := attempt (ms_SendTo TargetID (FOb (MRequest Height))) in
  let! t := clock in
  upd_net (set_obTimer (fun tm => timer_Add t tm Height (2 * Second) TargetID)).

Definition sendRequestBlockToNode (TargetPubHash : PublicHash) (Height : Z) : frM unit :=
  if bool_decide (TargetPubHash = myPublicHash) then ret tt
  else
    fr_sendMessage 0 TargetPubHash (FOb (MRequest Height)) ;;;
    let! t := clock in
    upd_net (set_nodeTimer (fun tm => timer_Add t tm Height (5 * Second) TargetPubHash)).

(** ** Blocks that arrive *)

Definition fr_addBlock (b : Block Tx) : frM unit :=
  let h := b_Header b in
  let! c := fr_get id in
  if h_Height h <=? cp_Height c then
    let! hash := lift (cp_Hash c (h_Height h)) in
    guard (bool_decide (hash = header_hash h)) ErrFoundForkedBlock
  else
    let! q := gets fr_blockQ in
    let '(item, q) := FindOrInsert q b (h_Height h) in
    upd_blockQ q ;;;
    match item with
    | Some old => guard (bool_decide (header_hash (b_Header old) = header_hash h)) ErrFoundForkedBlock
    | None => ret tt
    end.

(** A forked block panics, another error is returned. *)
Definition must_not_fork (m : frM unit) : frM unit :=
  let! r := attempt m in
  match r with
  | inl e => if bool_decide (e = ErrFoundForkedBlock) then throw "found forked block" else fail e
  | inr _ => ret tt
  end.

(** [status.Height < height] in one of the maps of statuses. *)
Definition raise_height (ID : bytes) (height : Z) (m : gmap bytes StatusMessage) : gmap bytes StatusMessage :=
  match m !! ID with
  | Some st => if st_Height st <? height then <[ID := mkStatusMessage (st_Version st) height (st_LastHash st)]> m else m
  | None => m
  end.
Definition raise_status (ID : bytes) (msg : StatusMessage) (m : gmap bytes StatusMessage) : gmap bytes StatusMessage :=
  match m !! ID with
  | Some st => if st_Height st <? st_Height msg then <[ID := msg]> m else m
  | None => m
  end.

(** The heights [Base+1 .. Base+10], not beyond [Limit], that nobody was asked for. *)
Definition ask_window (Target : PublicHash) (Base Limit : Z) : frM unit :=
  for_u32 (u32 (Base + 1)) (Z.min (u32 (Base + 10)) Limit) (fun i =>
    let! tm := net_get requestNodeTimer in
    if timer_Exist tm i then ret tt
    else
      let! q := gets fr_blockQ in
      match sq_find q i with
      | None => sendRequestBlockToNode Target i
      | Some _ => ret tt
      end).

(** [for q := uint32(0); q < 3; q++ { ...; if BaseHeight > msg.Height { break } ... }]. *)
Fixpoint ask_windows (Target : PublicHash) (Height Limit : Z) (qs : list Z) : frM unit :=
  match qs with
  | [] => ret tt
  | q :: qs =>
      let BaseHeight := u32 (Height + q * 10) in
      if Limit <? BaseHeight then ret tt else ask_window Target BaseHeight Limit ;;; ask_windows Target Height Limit qs
  end.

(** The first peer, in the order of the visit, that has the blocks. *)
Definition pick (m : gmap bytes StatusMessage) (ok : Z -> bool) : option (bytes * Z) :=
  match list_find (fun kv => ok (st_Height kv.2) = true) (visit m) with
  | Some (_, (ID, st)) => Some (ID, st_Height st)
  | None => None
  end.

Fixpoint try_windows (Height : Z) (qs : list Z) : frM unit :=
  match qs with
  | [] => ret tt
  | q :: qs =>
      let BaseHeight := u32 (Height + q * 10) in
      let! m := net_get statusMap in
      match (match pick m (fun h => u32 (BaseHeight + 10) <=? h) with Some x => Some x | None => pick m (fun h => BaseHeight <=? h) end) with
      | Some (ID, LimitHeight) =>
          if (length ID =? 0)%nat then ret tt                        (** an empty name counts as none *)
          else ask_window (copy_into PublicHashSize ID) BaseHeight LimitHeight ;;; try_windows Height qs
      | None => ret tt
      end
  end.
Definition tryRequestBlocks : frM unit := let! h := fr_get cp_Height in try_windows h [0; 1; 2].

Definition tryRequestNext : frM unit :=
  let! h := fr_get cp_Height in
  let TargetHeight := u32 (h + 1) in
  let! tm := net_get requestTimer in
  if timer_Exist tm TargetHeight then ret tt
  else
    let! q := gets fr_blockQ in
    match sq_find q TargetHeight with
    | Some _ => ret tt
    | None =>
        let! m := net_get obStatusMap in
        match pick m (fun h => TargetHeight <=? h) with
        | Some (ID, _) => fr_when (negb (length ID =? 0)%nat) (fr_sendRequestBlockTo ID TargetHeight)
        | None => ret tt
        end
    end.

(** ** Transactions *)

Fixpoint recover_signers (TxHash : Hash256) (sigs : list Signature) : res (list PublicHash) :=
  match sigs with
  | [] => Ok []
  | sig :: sigs =>
      let? pubkey := recover TxHash sig in
      let? signers := recover_signers TxHash sigs in
      Ok (NewPublicHash pubkey :: signers)
  end.

(** [txQ.Push]; the queue has three groups. *)
Definition txQ_Push (key : bytes) (m : TransactionMessage Tx) : frM unit := fun fr =>
  match eq_Push (fr_now fr) key m (fr_txQ fr) with
  | Ok q => upd_txQ (fun _ => q) fr
  | Err e => (Err e, fr)
  | Panic w => (Panic w, fr)
  end.

Definition addTx (TxHash : Hash256) (t : Z) (tx : Tx) (sigs : list Signature) : frM unit :=
  let! p := gets fr_txpool in
  guard (negb (pl_IsExist p TxHash)) ErrExistTransaction ;;;
  let! c := fr_get id in
  match fn_account tx with
  | Some (Seq, From) =>
      let seq := cp_Seq c From in
      guard (negb (Seq <=? seq)) ErrPastSeq ;;;
      guard (negb (u64 (seq + 100) <? Seq)) ErrTooFarSeq
  | None => ret tt
  end ;;;
  let! signers := lift (recover_signers TxHash sigs) in
  lift (ct_Validate c t tx signers) ;;;
  on_pool (pl_Push (cp_ChainID c) t TxHash tx sigs signers) ;;;
  txQ_Push TxHash (mkTransactionMessage t tx sigs).

(** [AddTx]: a transaction of the node itself, of the type [t]. *)
Definition fr_AddTx (t : res Z) (tx : Tx) (sigs : list Signature) : frM unit :=
  let! t := lift t in
  let! id := fr_get cp_ChainID in
  let TxHash := fn_hash id t tx in
  on_wait (lq_Push TxHash (mkTxMsgItem TxHash (mkTransactionMessage t tx sigs) [])).

(** One turn of a worker: a transaction that waits is added and cast on. *)
Definition worker : frM unit :=
  let! o := on_wait lq_Pop in
  match o with
  | None => ret tt
  | Some it =>
      let m := xi_Message it in
      let! r := attempt (addTx (xi_TxHash it) (tm_TxType m) (tm_Tx m) (tm_Sigs m)) in
      match r with
      | inl e => fr_when (negb (bool_decide (e ∈ [ErrInvalidUTXO; ErrExistTransaction; ErrTooFarSeq; ErrPastSeq])) && negb (length (xi_PeerID it) =? 0)%nat)
                   (fr_send (NRemovePeer (xi_PeerID it)))
      | inr _ => ret tt
      end ;;;
      if negb (length (xi_PeerID it) =? 0)%nat then exceptLimitCastMessage 1 (copy_into PublicHashSize (xi_PeerID it)) (FTransaction m)
      else limitCastMessage 1 (FTransaction m)
  end.

Definition OnItemExpired (Key : bytes) (msg : TransactionMessage Tx) (IsLast : bool) : frM unit :=
  limitCastMessage 1 (FTransaction msg) ;;;
  fr_when IsLast (on_pool (pl_Remove (copy_into Hash256Size Key) (tm_Tx msg))).

(** The transactions of a connected block leave the pool. *)
Fixpoint clean_txs (ChainID : Z) (ts : list Z) (txs : list Tx) : frM unit :=
  match txs with
  | [] => ret tt
  | tx :: txs =>
      match ts with
      | [] => throw "index out of range"
      | t :: ts =>
          let TxHash := fn_hash ChainID t tx in
          on_pool (pl_Remove TxHash tx) ;;;
          upd_txQ (eq_Remove TxHash) ;;;
          clean_txs ChainID ts txs
      end
  end.
Definition cleanPool (b : Block Tx) : frM unit :=
  let! id := fr_get cp_ChainID in clean_txs id (b_TransactionTypes b) (b_Transactions b).

(** ** Making blocks ([genBlock]) *)

(** The transactions of [temp]; one that fails is left out. *)
Fixpoint add_temp (c : Ch) (txs : list (Tx * Hash256 * Signature)) (bc : BlockCreator Tx) : ST Cx (BlockCreator Tx) :=
  match txs with
  | [] => ret bc
  | (tx, TxHash, sig) :: txs =>
      let! r := attempt (cx_UnsafeAddTx c bc (cf_Formulator Config) (tt_Type Temp) TxHash tx [sig] [tt_signer Temp]) in
      add_temp c txs (match r with inl _ => bc | inr bc => bc end)
  end.

Definition make_block (c : Ch) (Generator : Address) (ConsensusData : bytes) (Timestamp : Z) : ST Cx (Block Tx) :=
  let! ctx := gets id in
  cx_Init c ;;;
  let! bc := add_temp c (tt_Txs Temp) (cx_NewBlockCreator ctx Generator ConsensusData) in
  cx_Finalize c bc Timestamp.

(** A call on the context of the goroutine. *)
Definition on_cx {A} (m : ST Cx A) (cx : Cx) : frM (A * Cx) :=
  match m cx with
  | (Ok a, cx') => ret (a, cx')
  | (Err e, _) => fail e
  | (Panic w, _) => throw w
  end.

(** The time of the block: at most two seconds ahead, half a second per block, and
    later than the block before. *)
Definition block_time (now StartBlockTime i Last : Z) : Z :=
  let Timestamp := u64 now in
  let TooFar := u64 (now + 2 * Second) in
  let TooClose := u64 (StartBlockTime + i * (500 * Millisecond)) in
  let Timestamp := if TooFar <? Timestamp then TooFar else Timestamp in
  let Timestamp := if Timestamp <? TooClose then TooClose else Timestamp in
  if Timestamp <=? Last then u64 (Last + 1) else Timestamp.

(** Once after the lock is released, and once more after the pause, if there is one. *)
Definition checks_after (now start i : Z) : nat :=
  let Threshold := u32 (cf_MaxTransactionsPerBlock Config - 3) in
  let ExpectedTime := if Threshold <=? i then 500 * Threshold * Millisecond + (i - Threshold + 1) * 200 * Millisecond
                      else (i + 1) * 500 * Millisecond in
  if now - start <? ExpectedTime then 2 else 1.

(** One turn of the loop: block number [gn_i]. *)
Definition gen_one (g : Generation) : frM unit :=
  let! ctx := match gn_lastHeader g with
    | Some h => ret (cx_NextContext (header_hash h) (h_Timestamp h) (gn_ctx g))
    | None => ret (gn_ctx g)
    end in
  let TimeoutCount := if gn_i g =? 0 then br_TimeoutCount (gn_req g) else 0 in
  let! t := clock in
  let Timestamp := block_time t (gn_StartBlockTime g) (gn_i g) (cx_LastTimestamp ctx) in
  let! cd := lift (encodeConsensusData cUint32 TimeoutCount) in
  let! c := fr_get id in
  let! (b, ctx) := on_cx (make_block c (br_Formulator (gn_req g)) cd Timestamp) ctx in
  let! sig := lift (Sign (header_hash (b_Header b))) in
  let nm := mkBlockGenMessage b sig false in
  ms_SendTo (gn_ID g) (FOb (MBlockGen nm)) ;;;
  upd_gen (fun gs => set_msgs (lastGenMessages gs ++ [nm]) (lastContextes gs ++ [ctx]) gs) ;;;
  upd_gen (set_last (cx_TargetHeight ctx) t) ;;;
  upd_gen (set_running (Some (mkGeneration (gn_ID g) (gn_req g) (gn_start g) (gn_StartBlockTime g) (gn_RemainBlocks g) (gn_i g + 1) ctx
    (Some (b_Header b)) (checks_after t (gn_start g) (gn_i g))))).

(** The loop goes on or ends; an error ends it. *)
Definition gen_turn (g : Generation) : frM unit :=
  if gn_RemainBlocks g <=? gn_i g then upd_gen (set_running None)
  else
    let! r := attempt (gen_one g) in
    match r with inl _ => upd_gen (set_running None) | inr _ => ret tt end.

Definition genBlock (ID : bytes) (msg : BlockReqMessage) : frM unit :=
  upd_gen (fun g => set_signs ∅ (set_msgs [] [] g)) ;;;
  let! t := clock in
  let! c := fr_get id in
  let cs := cp_cs c in
  let RemainBlocks := if br_TimeoutCount msg =? 0 then u32 (maxBlocksPerFormulator cs - blocksBySameFormulator cs) else maxBlocksPerFormulator cs in
  let StartBlockTime := if u64 t <=? cp_LastTimestamp c then u64 (cp_LastTimestamp c + Millisecond) else u64 t in
  gen_turn (mkGeneration ID msg t StartBlockTime RemainBlocks 0 (ct_NewContext c) None 0).

(** The goroutine that gets [genLock] next. *)
Definition gen_start : frM unit :=
  let! g := gen_get id in
  match gs_running g, gs_waiting g with
  | None, (ID, req) :: rest =>
      upd_gen (set_waiting rest) ;;;
      let! h := fr_get cp_Height in
      if br_TargetHeight req <=? h then ret tt else genBlock ID req
  | _, _ => ret tt
  end.

(** The goroutine looks at [lastReqMessage], and makes the next block after the last look. *)
Definition gen_wake : frM unit :=
  let! g := gen_get id in
  match gs_running g with
  | None => ret tt
  | Some gn =>
      match lastReqMessage g with
      | None => upd_gen (set_running None)
      | Some _ =>
          if (1 <? gn_checks gn)%nat then
            upd_gen (set_running (Some (mkGeneration (gn_ID gn) (gn_req gn) (gn_start gn) (gn_StartBlockTime gn) (gn_RemainBlocks gn)
              (gn_i gn) (gn_ctx gn) (gn_lastHeader gn) (gn_checks gn - 1))))
          else gen_turn gn
      end
  end.

(** ** Messages of the observers *)

Definition handleBlockReq (ID : bytes) (msg : BlockReqMessage) (RetryCount : Z) : frM unit :=
  let! c := fr_get id in
  let! g := gen_get id in
  let! t := clock in
  let Height := cp_Height c in
  let th := br_TargetHeight msg in
  if (th <=? lastGenHeight g) && (t <? lastGenTime g + 30 * Second) then ret tt
  else if match lastReqMessage g with Some r => th <=? br_TargetHeight r | None => false end then ret tt
  else if th <=? Height then ret tt
  else if u32 (Height + 1) <? th then
    if 10 <=? RetryCount then ret tt
    else
      (if RetryCount =? 0 then
         for_each (seqZ 1 (Z.min (u32 (th - Height - 1)) 10)) (fun i => ms_SendTo ID (FOb (MRequest (u32 (Height + i)))))
       else ret tt) ;;;
      let! l := net_get fr_retries in
      upd_net (set_retries (l ++ [(ID, msg, RetryCount + 1)]))
  else
    let! Top := lift (TopRank (cs_rt (cp_cs c)) (br_TimeoutCount msg)) in
    guard (bool_decide (br_Formulator msg = r_Address Top)) ErrInvalidRequest ;;;
    guard (bool_decide (br_Formulator msg = cf_Formulator Config)) ErrInvalidRequest ;;;
    guard (bool_decide (br_FormulatorPublicHash msg = frPublicHash)) ErrInvalidRequest ;;;
    guard (bool_decide (br_PrevHash msg = cp_LastHash c)) ErrInvalidRequest ;;;
    guard (th =? u32 (Height + 1)) ErrInvalidRequest ;;;
    upd_gen (set_req (Some msg)) ;;;
    upd_gen (fun g => set_waiting (gs_waiting g ++ [(ID, msg)]) g).

(** [lastGenMessages[1:]] and [lastContextes[1:]]; slicing an empty slice panics. *)
Definition drop_first : frM unit :=
  let! g := gen_get id in
  match lastGenMessages g, lastContextes g with
  | _ :: y :: l, _ :: cs => upd_gen (set_msgs (y :: l) cs)
  | _ :: _ :: _, [] => throw "slice bounds out of range"
  | _, _ => upd_gen (set_msgs [] [])
  end.

(** The loop over the blocks that were made, at most [n] turns. *)
Fixpoint connect_signed (n : nat) (ID : bytes) (TargetHeight : Z) : frM unit :=
  match n with
  | O => ret tt
  | S n =>
      let! g := gen_get id in
      match lastGenMessages g with
      | [] => ret tt
      | gm :: _ =>
          let h := b_Header (gm_Block gm) in
          if h_Height h <? TargetHeight then drop_first ;;; connect_signed n ID TargetHeight
          else if TargetHeight <? h_Height h then ret tt
          else match lastObSignMessageMap g !! h_Height h with
            | None => ret tt
            | Some sm =>
                if h_Height h =? os_TargetHeight sm then
                  let! ctx := match lastContextes g with ctx :: _ => ret ctx | [] => throw "index out of range" end in
                  guard (bool_decide (bs_HeaderHash (os_BlockSign sm) = header_hash h)) ErrInvalidRequest ;;;
                  let b := signed_block gm (os_ObserverSignatures sm) in
                  fr_on_chain (ct_ConnectBlockWithContext b ctx) ;;;
                  fr_broadcastStatus ;;;
                  cleanPool b ;;;
                  upd_genMap (delete (h_Height h)) ;;;
                  upd_net (set_obStatus (raise_height ID (h_Height h))) ;;;
                  drop_first ;;;
                  connect_signed n ID TargetHeight
                else connect_signed n ID TargetHeight
            end
      end
  end.

Definition handleBlockObSign (ID : bytes) (msg : BlockObSignMessage) : frM unit :=
  let! c := fr_get id in
  let TargetHeight := u32 (cp_Height c + 1) in
  if os_TargetHeight msg <? TargetHeight then ret tt
  else
    let! g := gen_get id in
    if match lastReqMessage g with Some r => u32 (br_TargetHeight r + maxBlocksPerFormulator (cp_cs c)) <=? os_TargetHeight msg | None => false end then ret tt
    else
      upd_gen (fun g => set_signs (<[os_TargetHeight msg := msg]> (lastObSignMessageMap g)) g) ;;;
      let! g := gen_get id in
      connect_signed (S (length (lastGenMessages g))) ID TargetHeight.

(** A message of an observer; [TxWait] is where transactions wait. *)
Definition wait_tx (PeerID : bytes) (m : TransactionMessage Tx) : frM unit :=
  let! id := fr_get cp_ChainID in
  let TxHash := fn_hash id (tm_TxType m) (tm_Tx m) in
  on_wait (lq_Push TxHash (mkTxMsgItem TxHash m PeerID)).

Definition fr_handleStatus (ID : bytes) (msg : StatusMessage) : frM unit :=
  upd_net (set_obStatus (raise_status ID msg)) ;;;
  let! c := fr_get id in
  let! req := gen_get lastReqMessage in
  if match req with Some r => st_Height msg <=? u32 (br_TargetHeight r + maxBlocksPerFormulator (cp_cs c)) | None => false end then ret tt
  else
    let TargetHeight := u32 (cp_Height c + 1) in
    for_u32 TargetHeight (st_Height msg) (fun i =>
      let! tm := net_get requestTimer in
      if timer_Exist tm i then ret tt
      else
        let! q := gets fr_blockQ in
        match sq_find q i with
        | Some _ => ret tt
        | None =>
            ms_SendTo ID (FOb (MRequest i)) ;;;
            let! t := clock in
            upd_net (set_obTimer (fun tm => timer_Add t tm i (2 * Second) ID))
        end).

Definition fr_handleBlock (ID : bytes) (b : Block Tx) : frM unit :=
  let! c := fr_get id in
  let! req := gen_get lastReqMessage in
  fr_when (match req with
           | Some r => (h_Height (b_Header b) <=? u32 (br_TargetHeight r + maxBlocksPerFormulator (cp_cs c)))
                       && negb (bool_decide (h_Generator (b_Header b) = cf_Formulator Config))
           | None => false
           end) (upd_gen (set_req None)) ;;;
  must_not_fork (fr_addBlock b) ;;;
  upd_net (set_obStatus (raise_height ID (h_Height (b_Header b)))) ;;;
  tryRequestNext.

Definition fr_handleObserverMessage (ID : bytes) (m : FrMessage Tx) (RetryCount : Z) : frM unit :=
  match m with
  | FOb (MBlockReq msg) => handleBlockReq ID msg RetryCount
  | FOb (MBlockObSign msg) => handleBlockObSign ID msg
  | FOb (MBlock b) => fr_handleBlock ID b
  | FOb (MStatus msg) => fr_handleStatus ID msg
  | FTransaction msg => wait_tx ID msg
  | _ => throw "unknown message"
  end.

(** [onObserverRecv] keeps and uses the blocks of [genMap], and hands on the rest. *)
Definition fr_onObserverRecv (ID : bytes) (m : FrMessage Tx) : frM unit :=
  match m with
  | FOb (MBlockGen msg) =>
      let! h := fr_get cp_Height in
      fr_when (h <? h_Height (b_Header (gm_Block msg))) (upd_genMap (<[h_Height (b_Header (gm_Block msg)) := msg]>))
  | FOb (MBlockObSign msg) =>
      let! gm := gets fr_genMap in
      match gm !! os_TargetHeight msg with
      | Some g =>
          fr_addBlock (signed_block g (os_ObserverSignatures msg)) ;;;
          upd_genMap (delete (os_TargetHeight msg))
      | None => ret tt
      end
  | _ => fr_handleObserverMessage ID m 0
  end.

(** ** Messages of the peers *)

Definition handlePeerMessage (ID : bytes) (m : FrMessage Tx) : frM unit :=
  let Sender := copy_into PublicHashSize ID in
  let! c := fr_get id in
  match m with
  | FOb (MRequest height) =>
      if cp_Height c <? height then ret tt
      else
        let! b := lift (cp_Block c height) in
        fr_sendMessage 0 Sender (FOb (MBlock b))
  | FOb (MStatus msg) =>
      upd_net (set_status (raise_status ID msg)) ;;;
      let Height := cp_Height c in
      if Height <? st_Height msg then
        ask_windows Sender Height (st_Height msg) [0; 1; 2]
      else
        let! h := lift (cp_Hash c (st_Height msg)) in
        fr_when (negb (bool_decide (h = st_LastHash msg))) (fr_send (NRemovePeer ID))
  | FOb (MBlock b) =>
      must_not_fork (fr_addBlock b) ;;;
      upd_net (set_status (raise_height ID (h_Height (b_Header b))))
  | FTransaction msg => wait_tx ID msg
  | FPeerList Ips Hashs => fr_send (NAddPeerList Ips Hashs)
  | FRequestPeerList => fr_send (NSendPeerList ID)
  | _ => throw "unknown message"
  end.

(** ** Connections *)

Definition OnObserverConnected (ID : bytes) : frM unit :=
  upd_net (set_ms ({[ID]} ∪.)) ;;;
  upd_net (set_obStatus (<[ID := mkStatusMessage 0 0 EmptyHash]>)) ;;;
  let! nm := fr_status in
  fr_send (OSendTo ID nm).
Definition OnObserverDisconnected (ID : bytes) : frM unit :=
  upd_net (set_ms (.∖ {[ID]})) ;;;
  upd_net (set_obStatus (delete ID)) ;;;
  upd_net (set_obTimer (fun tm => RemovesByValue tm ID)) ;;;
  tryRequestNext.
Definition OnConnected (ID : bytes) : frM unit :=
  upd_net (set_status (<[ID := mkStatusMessage 0 0 EmptyHash]>)) ;;;
  fr_sendStatusTo (copy_into PublicHashSize ID).
Definition OnDisconnected (ID : bytes) : frM unit :=
  upd_net (set_status (delete ID)) ;;;
  upd_net (set_nodeTimer (fun tm => RemovesByValue tm ID)) ;;;
  tryRequestBlocks.

(** ** The steps of [Run] *)

(** A new node; [txQ] gets its three groups. *)
Definition NewFormulatorNode (c : Ch) (t : Z) : FormulatorNode :=
  mkFormulatorNode c (mkGenState [] [] ∅ None 0 0 None []) (mkNetState ∅ ∅ NewRequestTimer NewRequestTimer ∅ [] [[]; []; []] [])
    NewSortedQueue ∅ pl_New (queue_of [5 * Second; 10 * Second; 30 * Second]) NewLinkedQueue t.

(** The block timer connects up to [n] blocks of the queue; an error ends the loop. *)
Fixpoint fr_connect_queued (n : nat) (TargetHeight : Z) : frM bool :=
  match n with
  | O => ret false
  | S n =>
      let! q := gets fr_blockQ in
      let '(item, q) := PopUntil q TargetHeight in
      upd_blockQ q ;;;
      match item with
      | None => ret false
      | Some b =>
          let! r := attempt (fr_on_chain (cn_ConnectBlock b)) in
          match r with
          | inl _ => ret false
          | inr _ =>
              cleanPool b ;;;
              upd_genMap (delete (h_Height (b_Header b))) ;;;
              let! _ := fr_connect_queued n (TargetHeight + 1) in
              ret (negb (n =? 0)%nat)
          end
      end
  end.

(** At most 11 blocks; [hasItem] is set when the queue is asked again. *)
Definition fr_block_timer : frM unit :=
  let! h := fr_get cp_Height in
  let! hasItem := fr_connect_queued 11 (u32 (h + 1)) in
  fr_when hasItem fr_broadcastStatus.

(** [OnRecv] sorts the messages into the queues and drops those it does not know. *)
Definition recv_class (m : FrMessage Tx) : option nat :=
  match m with
  | FOb (MRequest _) | FOb (MStatus _) | FOb (MBlock _) => Some 0%nat
  | FTransaction _ => Some 1%nat
  | FPeerList _ _ | FRequestPeerList => Some 2%nat
  | _ => None
  end.
Definition fr_OnRecv (ID : bytes) (m : FrMessage Tx) : frM unit :=
  match recv_class m with
  | Some q => upd_net (fun n => set_recv (alter (fun l => l ++ [(ID, m)]) q (fr_recv n)) n)
  | None => ret tt
  end.

(** The first message of the queue [q]; an error removes the peer. *)
Definition recv_step (q : nat) : frM unit :=
  let! qs := net_get fr_recv in
  match qs !! q with
  | Some ((ID, m) :: l) =>
      upd_net (set_recv (<[q := l]> qs)) ;;;
      let! r := attempt (handlePeerMessage ID m) in
      match r with inl _ => fr_send (NRemovePeer ID) | inr _ => ret tt end
  | _ => ret tt
  end.

(** A message that is tried again; its error is dropped. *)
Definition retry_step : frM unit :=
  let! l := net_get fr_retries in
  match l with
  | [] => ret tt
  | (ID, msg, n) :: l =>
      upd_net (set_retries l) ;;;
      let! _ := attempt (handleBlockReq ID msg n) in ret tt
  end.

(** The goroutine of a group of [txQ] calls the handler with what it holds. *)
Definition expire_call (idx : nat) : frM unit :=
  let! q := gets fr_txQ in
  match eq_running q !! idx with
  | Some (Collected m) =>
      let IsLast := (idx + 1 =? length (eq_groups q))%nat in
      for_each (map_to_list m) (fun kv => OnItemExpired kv.1 kv.2 IsLast) ;;;
      upd_txQ (call idx m)
  | _ => ret tt
  end.

(** What may happen to the node. *)
Inductive fr_event :=
  | FOnTime (t : Z)
  | FOnObserver (ID : bytes) (m : FrMessage Tx)
  | FOnRecv (ID : bytes) (m : FrMessage Tx)
  | FObserverConnected (ID : bytes) | FObserverDisconnected (ID : bytes)
  | FConnected (ID : bytes) | FDisconnected (ID : bytes)
  | FRecvStep (q : nat) | FRetry | FWorker | FGenStart | FGenWake | FBlockTimer | FRequestTimer
  | FAddTx (t : res Z) (tx : Tx) (sigs : list Signature)
  | FCollect (idx : nat) | FCall (idx : nat) | FForward (idx : nat).

Definition fr_ignore {A} (m : frM A) : frM unit := let! _ := attempt m in ret tt.

Definition fr_do (e : fr_event) : frM unit :=
  match e with
  | FOnTime t => modify (fun fr => mkFormulatorNode (fr_chain fr) (fr_gen fr) (fr_net fr) (fr_blockQ fr) (fr_genMap fr) (fr_txpool fr) (fr_txQ fr) (fr_txWaitQ fr) t)
  | FOnObserver ID m => fr_ignore (fr_onObserverRecv ID m)
  | FOnRecv ID m => fr_OnRecv ID m
  | FObserverConnected ID => OnObserverConnected ID
  | FObserverDisconnected ID => OnObserverDisconnected ID
  | FConnected ID => OnConnected ID
  | FDisconnected ID => OnDisconnected ID
  | FRecvStep q => recv_step q
  | FRetry => retry_step
  | FWorker => worker
  | FGenStart => gen_start
  | FGenWake => gen_wake
  | FBlockTimer => fr_block_timer
  | FRequestTimer => tryRequestBlocks ;;; tryRequestNext
  | FAddTx t tx sigs => fr_ignore (fr_AddTx t tx sigs)
  | FCollect idx =>
      let! q := gets fr_txQ in
      let! t := clock in
      match eq_running q !! idx with None => upd_txQ (collect idx t) | Some _ => ret tt end
  | FCall idx => expire_call idx
  | FForward idx =>
      let! q := gets fr_txQ in
      let! t := clock in
      match eq_running q !! idx with Some (Called b m) => upd_txQ (forward idx t b m) | _ => ret tt end
  end.
End Node.
