(* ===== verification/FormulatorNodeSpec.v ===== *)
(** * What the formulator node guarantees

    The blocks a formulator makes for one request form a chain, whatever happens
    between two of them; and what becomes of the signatures of the observers. *)

From stdpp Require Import base gmap list sorting strings.
From Stdlib Require Import ZArith Lia.
From S2P Require Import Prelude Common LevelRoot OrderedMap Types Context ContextSpec Chain RankTable Consensus ConsensusSpec Queue LinkedQueue ExpireQueue TxPool RequestTimer Observer FormulatorNode.

(** ** The creator of [core/chain] *)

(** What the node relies on of the creator's headers ([CreatorLaws] below) holds of
    the block creator of [Chain.v]. *)
Section Creator.
Context {Proc Tx : Type} `{!ProcessI Proc Tx, !TransactionI Proc Tx}.
Lemma UnsafeAddTx_header {S : Type} `{!ContextOps S} (cn : Chain Proc Tx) bc a t th tx sigs signers (s s' : S) bc' :
  UnsafeAddTx cn bc a t th tx sigs signers s = (Ok bc', s') -> b_Header (bc_b bc') = b_Header (bc_b bc).
Proof.
  unfold UnsafeAddTx. intros (p & s1 & _ & (sn & s2 & _ & ([] & s3 & _ & (o & s4 & _ & Ho)%bind_ok_inv)%bind_ok_inv)%bind_ok_inv)%bind_ok_inv.
  destruct o as [Result|]; [|by injection Ho as <- _].
  apply bind_ok_inv in Ho as ([] & s5 & _ & ([] & s6 & _ & [= <- _])%bind_ok_inv). done.
Qed.

Context `{Sha256} `{Base58}.
Context `{!Marshaler (gmap Address Z), !Marshaler (gmap Address Account), !Marshaler (gmap bytes bytes),
  !Marshaler (gmap Z UTXO), !Marshaler (gmap Z TxOut), !Marshaler Event}.
Lemma Finalize_header (cn : Chain Proc Tx) bc ts ctx ctx' b : Finalize cn bc ts ctx = (Ok b, ctx') -> let h := b_Header (bc_b bc) in let h' := b_Header b in
  h_Height h' = h_Height h /\ h_PrevHash h' = h_PrevHash h /\ h_Generator h' = h_Generator h /\
  h_ConsensusData h' = h_ConsensusData h /\ h_Timestamp h' = ts /\ h_ChainID h' = h_ChainID h /\ h_Version h' = h_Version h.
Proof.
  unfold Finalize. intros (lr & s1 & _ & (sz & s2 & _ & ([] & s3 & _ & ([] & s4 & _ & (ch & s5 & _ & [= <- _])%bind_ok_inv)%bind_ok_inv)%bind_ok_inv)%bind_ok_inv)%bind_ok_inv. done.
Qed.
End Creator.

Section Node.
Context `{T : !LLRB (item PublicHash bool) item_Less}.
Context {Ch Tx Cx P : Type} `{CI : !ChainI Ch Tx Cx} `{CR : !CreatorI Ch Tx Cx} `{PI : !PoolI P Tx}.
Context (cUint32 : Coder Z) `{SH : Sha256} `{EC : Ecrecover} `{MH : !Marshaler Header}.
Context (visit : gmap bytes StatusMessage -> list (bytes * StatusMessage)).
Context (frPublicHash myPublicHash : PublicHash) (Sign : Hash256 -> res Signature).
Context (Config : FormulatorConfig) (Temp : TempTxs (Tx := Tx)).

Abbreviation Fr := (FormulatorNode (Ch := Ch) (Tx := Tx) (Cx := Cx) (P := P)).
Abbreviation M A := (frM (Ch := Ch) (Tx := Tx) (Cx := Cx) (P := P) A).
Abbreviation Gs := (GenState (Tx := Tx) (Cx := Cx)).

(** What the node relies on: a context knows its height, the hash and the time of the
    block before it; the creator writes them into the header, and adding transactions
    changes neither. *)
Class CreatorLaws : Prop := {
  cl_New c : cx_TargetHeight (ct_NewContext c) = u32 (cp_Height c + 1) /\ cx_LastHash (ct_NewContext c) = cp_LastHash c /\
    cx_LastTimestamp (ct_NewContext c) = cp_LastTimestamp c;
  cl_Next h t cx : cx_TargetHeight (cx_NextContext h t cx) = u32 (cx_TargetHeight cx + 1) /\ cx_LastHash (cx_NextContext h t cx) = h /\
    cx_LastTimestamp (cx_NextContext h t cx) = t;
  cl_creator cx a cd : let h := b_Header (bc_b (cx_NewBlockCreator cx a cd)) in
    h_Height h = cx_TargetHeight cx /\ h_PrevHash h = cx_LastHash cx /\ h_Generator h = a /\ h_ConsensusData h = cd;
  cl_first c a cd : let h := b_Header (bc_b (cx_NewBlockCreator (ct_NewContext c) a cd)) in h_ChainID h = cp_ChainID c /\ h_Version h = cp_Version c;
  cl_Init c cx : cx_TargetHeight (cx_Init c cx).2 = cx_TargetHeight cx;
  cl_AddTx c bc a t th tx sigs signers cx : let r := cx_UnsafeAddTx c bc a t th tx sigs signers cx in
    cx_TargetHeight r.2 = cx_TargetHeight cx /\ (forall bc', r.1 = Ok bc' -> b_Header (bc_b bc') = b_Header (bc_b bc));
  cl_Finalize c bc ts cx : let r := cx_Finalize c bc ts cx in
    cx_TargetHeight r.2 = cx_TargetHeight cx /\
    (forall b, r.1 = Ok b -> let h := b_Header (bc_b bc) in let h' := b_Header b in
       h_Height h' = h_Height h /\ h_PrevHash h' = h_PrevHash h /\ h_Generator h' = h_Generator h /\
       h_ConsensusData h' = h_ConsensusData h /\ h_Timestamp h' = ts /\ h_ChainID h' = h_ChainID h /\ h_Version h' = h_Version h)
}.
Context `{CL : !CreatorLaws}.

(** ** One block *)

Lemma add_temp_spec c txs : forall bc cx, let r := add_temp Config Temp c txs bc cx in
  cx_TargetHeight r.2 = cx_TargetHeight cx /\ (forall bc', r.1 = Ok bc' -> b_Header (bc_b bc') = b_Header (bc_b bc)).
Proof.
  induction txs as [|[[tx th] sig] txs IH]; intros bc cx; cbn zeta; cbn [add_temp].
  - split; [done|]. by intros bc' [= <-].
  - unfold bind, attempt. pose proof (cl_AddTx c bc (cf_Formulator Config) (tt_Type Temp) th tx [sig] [tt_signer Temp] cx) as Hl. cbn zeta in Hl.
    destruct (cx_UnsafeAddTx _ _ _ _ _ _ _ _ _) as [[bc1|e|w] cx1]; cbn in Hl; destruct Hl as [H1 H2]; [| |by split].
    + destruct (IH bc1 cx1) as [H3 H4]. split; [congruence|]. intros bc' Hb. rewrite (H4 _ Hb). by apply H2.
    + destruct (IH bc cx1) as [H3 H4]. split; [congruence|done].
Qed.

Lemma make_block_spec c a cd ts cx b cx' : make_block Config Temp c a cd ts cx = (Ok b, cx') ->
  cx_TargetHeight cx' = cx_TargetHeight cx /\ h_Height (b_Header b) = cx_TargetHeight cx /\ h_PrevHash (b_Header b) = cx_LastHash cx /\
  h_Generator (b_Header b) = a /\ h_ConsensusData (b_Header b) = cd /\ h_Timestamp (b_Header b) = ts /\
  let h := b_Header (bc_b (cx_NewBlockCreator cx a cd)) in h_ChainID (b_Header b) = h_ChainID h /\ h_Version (b_Header b) = h_Version h.
Proof.
  unfold make_block. intros (cx0 & ? & [= <- <-] & (? & cx1 & E1 & (bc & cx2 & E2 & E3)%bind_ok_inv)%bind_ok_inv)%bind_ok_inv.
  pose proof (cl_Init c cx) as Hi. rewrite E1 in Hi. pose proof (add_temp_spec c (tt_Txs Temp) (cx_NewBlockCreator cx a cd) cx1) as Ht. rewrite E2 in Ht.
  pose proof (cl_Finalize c bc ts cx2) as Hf. rewrite E3 in Hf. cbn in Hi, Ht, Hf. destruct Ht as [Ht1 Ht2], Hf as [Hf1 Hf2].
  specialize (Ht2 _ eq_refl). destruct (Hf2 _ eq_refl) as (-> & -> & -> & -> & -> & -> & ->). rewrite Ht2.
  destruct (cl_creator cx a cd) as (-> & -> & -> & ->). split_and!; congruence.
Qed.

(** The time of a block is later than that of the block before, up to the last
    instant that the machine can express. *)
Lemma block_time_later now start i last : 0 <= last < 2 ^ 64 -> last < block_time now start i last \/ last = 2 ^ 64 - 1.
Proof.
  intros Hl. unfold block_time. match goal with |- context [?t <=? last] => destruct (Z.leb_spec t last) end; [|left; lia].
  destruct (decide (last = 2 ^ 64 - 1)); [by right|]. left. unfold u64. rewrite Z.mod_small; lia.
Qed.
Lemma block_time_range now start i last : 0 <= block_time now start i last < 2 ^ 64.
Proof. unfold block_time. assert (Hu : forall z, 0 <= u64 z < 2 ^ 64) by (intros; apply Z.mod_pos_bound; lia). repeat case_match; apply Hu. Qed.

(** ** The invariant of the blocks made *)

Definition follows (h h' : Header) : Prop :=
  h_PrevHash h' = header_hash h /\ h_Height h' = u32 (h_Height h + 1) /\ (h_Timestamp h < h_Timestamp h' \/ h_Timestamp h = 2 ^ 64 - 1).
Abbreviation header_of gm := (b_Header (gm_Block gm)).
Definition linked (l : list (BlockGenMessage Tx)) : Prop := forall i g g', l !! i = Some g -> l !! S i = Some g' -> follows (header_of g) (header_of g').
Definition mine (gm : BlockGenMessage Tx) : Prop :=
  h_Generator (header_of gm) = cf_Formulator Config /\ Sign (header_hash (header_of gm)) = Ok (gm_GeneratorSignature gm).

(** The goroutine knows the last block it made. *)
Definition knows (l : list (BlockGenMessage Tx)) (gn : Generation (Cx := Cx)) : Prop :=
  br_Formulator (gn_req gn) = cf_Formulator Config /\
  match gn_lastHeader gn with
  | None => l = []
  | Some h => cx_TargetHeight (gn_ctx gn) = h_Height h /\ 0 <= h_Timestamp h < 2 ^ 64 /\ forall gm, last l = Some gm -> header_of gm = h
  end.

Record gen_inv (g : Gs) : Prop := {
  gi_len : length (lastContextes g) = length (lastGenMessages g);
  gi_linked : linked (lastGenMessages g);
  gi_mine : Forall mine (lastGenMessages g);
  gi_waiting : Forall (fun r => br_Formulator r.2 = cf_Formulator Config) (gs_waiting g);
  gi_running gn : gs_running g = Some gn -> knows (lastGenMessages g) gn
}.

Lemma linked_snoc l gm : linked l -> (forall g, last l = Some g -> follows (header_of g) (header_of gm)) -> linked (l ++ [gm]).
Proof.
  intros Hl Hlast i g g' Hi Hi'. apply lookup_app_Some in Hi' as [Hi'|[Hlen Hi']].
  - apply (Hl i); [|done]. apply lookup_lt_Some in Hi'. by rewrite lookup_app_l in Hi by lia.
  - apply list_lookup_singleton_Some in Hi' as [E <-]. rewrite lookup_app_l in Hi by lia. apply Hlast. rewrite last_lookup. rewrite <- Hi. f_equal. lia.
Qed.
Lemma linked_tail l : linked l -> linked (tail l).
Proof. intros Hl i g g' Hi Hi'. destruct l as [|x l]; [done|]. by apply (Hl (S i)). Qed.

(** The blocks stay those of the formulator when the first one is dropped. *)
Lemma knows_tail l gn : knows l gn -> knows (tail l) gn.
Proof.
  intros [Hf Hk]. split; [done|]. destruct (gn_lastHeader gn) as [h|]; [|by subst l]. destruct Hk as (H1 & [H2 H2'] & H3). split_and!; [done..|].
  intros gm Hgm. apply H3. destruct l as [|x [|y l]]; cbn in Hgm; [done|done|exact Hgm].
Qed.
Lemma knows_nil l gn : knows l gn -> knows [] gn.
Proof. intros [Hf Hk]. split; [done|]. destruct (gn_lastHeader gn); [|done]. destruct Hk as (? & ? & _). done. Qed.

Lemma gen_inv_tail g cs : gen_inv g -> length cs = length (tail (lastGenMessages g)) -> gen_inv (set_msgs (tail (lastGenMessages g)) cs g).
Proof.
  intros [] Hc. split; cbn; try done; [by apply linked_tail| |intros; by apply knows_tail, gi_running0]. destruct (lastGenMessages g); [done|]. by apply Forall_cons in gi_mine0 as [_ ?].
Qed.
Lemma gen_inv_clear g : gen_inv g -> gen_inv (set_msgs [] [] g).
Proof. intros []. split; cbn; try done. intros. by eapply knows_nil, gi_running0. Qed.
Lemma gen_inv_signs m g : gen_inv g -> gen_inv (set_signs m g). Proof. by intros []. Qed.
Lemma gen_inv_req o g : gen_inv g -> gen_inv (set_req o g). Proof. by intros []. Qed.
Lemma gen_inv_last h t g : gen_inv g -> gen_inv (set_last h t g). Proof. by intros []. Qed.
Lemma gen_inv_stop g : gen_inv g -> gen_inv (set_running None g). Proof. by intros []. Qed.
Lemma gen_inv_waiting l g : Forall (fun r => br_Formulator r.2 = cf_Formulator Config) l -> gen_inv g -> gen_inv (set_waiting l g).
Proof. by intros Hl []. Qed.

(** ** Steps that leave the blocks alone *)

Definition neutral {A} (m : M A) : Prop := forall fr, match m fr with (Panic _, _) => True | (_, fr') => fr_gen fr' = fr_gen fr end.

Lemma neutral_bind {A B} (m : M A) (k : A -> M B) : neutral m -> (forall x, neutral (k x)) -> neutral (bind m k).
Proof.
  intros Hm Hk fr. specialize (Hm fr). unfold bind. destruct (m fr) as [[x|e|w] fr1]; [|done|done].
  specialize (Hk x fr1). destruct (k x fr1) as [[y|e|w] fr2]; [congruence..|done].
Qed.
Lemma neutral_attempt {A} (m : M A) : neutral m -> neutral (attempt m).
Proof. intros Hm fr. specialize (Hm fr). unfold attempt. by destruct (m fr) as [[x|e|w] fr1]. Qed.
Lemma neutral_for_each {A} (l : list A) (body : A -> M unit) : (forall x, neutral (body x)) -> neutral (for_each l body).
Proof. intros Hb. induction l; cbn [for_each]; [done|]. by apply neutral_bind. Qed.
Lemma neutral_for_u32 lo hi (body : Z -> M unit) : (forall i, neutral (body i)) -> neutral (for_u32 lo hi body).
Proof. intros Hb. apply neutral_bind; [by apply neutral_for_each|]. intros _. by destruct (hi =? 2 ^ 32 - 1). Qed.
Lemma neutral_on_chain {A} (m : ST Ch A) : neutral (fr_on_chain m).
Proof. intros fr. unfold fr_on_chain. by destruct (m (fr_chain fr)) as [[]]. Qed.
Lemma neutral_on_pool {A} (m : ST P A) : neutral (on_pool m).
Proof. intros fr. unfold on_pool. by destruct (m (fr_txpool fr)) as [[]]. Qed.
Lemma neutral_on_wait {A} (m : ST _ A) : neutral (on_wait m).
Proof. intros fr. unfold on_wait. by destruct (m (fr_txWaitQ fr)) as [[]]. Qed.
Lemma neutral_lift {A} (r : res A) : neutral (lift r).
Proof. intros fr. by destruct r. Qed.
Lemma neutral_guard b e : neutral (guard b e).
Proof. by destruct b. Qed.
Lemma neutral_txQ_Push k m : neutral (txQ_Push k m).
Proof. intros fr. unfold txQ_Push. by destruct (eq_Push _ _ _ _). Qed.

Ltac neutral1 := first
  [ done | assumption | apply neutral_attempt | apply neutral_lift | apply neutral_guard | apply neutral_on_chain | apply neutral_on_pool | apply neutral_on_wait
  | apply neutral_txQ_Push | apply neutral_for_each; intros | apply neutral_for_u32; intros | apply neutral_bind; [|intros]
  | match goal with |- neutral (match ?x with _ => _ end) => destruct x end
  | match goal with |- neutral (fr_when ?b _) => destruct b; cbn [fr_when] end ].
Ltac neutral := intros; repeat neutral1.

Lemma neutral_ms_SendTo ID m : neutral (ms_SendTo ID m). Proof. unfold ms_SendTo. neutral. Qed.
Lemma neutral_broadcastStatus : neutral fr_broadcastStatus. Proof. unfold fr_broadcastStatus, broadcastMessage. neutral. Qed.
Lemma neutral_sendRequestBlockTo ID h : neutral (fr_sendRequestBlockTo ID h).
Proof. unfold fr_sendRequestBlockTo. neutral; apply neutral_ms_SendTo. Qed.
Lemma neutral_sendRequestBlockToNode k h : neutral (sendRequestBlockToNode myPublicHash k h).
Proof. unfold sendRequestBlockToNode, fr_sendMessage. neutral. Qed.
Lemma neutral_addBlock b : neutral (fr_addBlock b). Proof. unfold fr_addBlock. neutral. Qed.
Lemma neutral_must_not_fork m : neutral m -> neutral (must_not_fork m).
Proof. intros Hm. unfold must_not_fork. neutral. Qed.
Lemma neutral_ask_window k b l : neutral (ask_window myPublicHash k b l).
Proof. unfold ask_window. neutral; apply neutral_sendRequestBlockToNode. Qed.
Lemma neutral_ask_windows k h l qs : neutral (ask_windows myPublicHash k h l qs).
Proof. induction qs as [|q qs IH]; cbn [ask_windows]; [done|]. destruct (_ <? _); [done|]. apply neutral_bind; [apply neutral_ask_window|done]. Qed.
Lemma neutral_try_windows h qs : neutral (try_windows visit myPublicHash h qs).
Proof.
  induction qs as [|q qs IH]; cbn [try_windows]; [done|]. apply neutral_bind; [done|]. intros m.
  match goal with |- neutral (match ?x with _ => _ end) => destruct x as [[ID l]|]; [|done] end.
  destruct (_ =? _)%nat; [done|]. apply neutral_bind; [apply neutral_ask_window|done].
Qed.
Lemma neutral_tryRequestBlocks : neutral (tryRequestBlocks visit myPublicHash).
Proof. unfold tryRequestBlocks. apply neutral_bind; [done|]. intros. apply neutral_try_windows. Qed.
Lemma neutral_tryRequestNext : neutral (tryRequestNext visit).
Proof. unfold tryRequestNext. neutral; apply neutral_sendRequestBlockTo. Qed.
Lemma neutral_addTx th t tx sigs : neutral (addTx th t tx sigs). Proof. unfold addTx. neutral. Qed.
Lemma neutral_worker : neutral worker.
Proof. unfold worker, exceptLimitCastMessage, limitCastMessage. neutral; apply neutral_addTx. Qed.
Lemma neutral_clean_txs id ts txs : neutral (clean_txs id ts txs).
Proof. revert ts. induction txs as [|tx txs IH]; intros [|t ts]; cbn [clean_txs]; neutral; apply IH. Qed.
Lemma neutral_cleanPool b : neutral (cleanPool b).
Proof. unfold cleanPool. apply neutral_bind; [done|]. intros. apply neutral_clean_txs. Qed.
Lemma neutral_handleStatus ID m : neutral (fr_handleStatus ID m).
Proof. unfold fr_handleStatus. neutral; apply neutral_ms_SendTo. Qed.
Lemma neutral_handlePeerMessage ID m : neutral (handlePeerMessage myPublicHash ID m).
Proof.
  unfold handlePeerMessage, wait_tx, fr_sendMessage. neutral; first [apply neutral_ask_windows | apply neutral_sendRequestBlockToNode | apply neutral_must_not_fork, neutral_addBlock | apply neutral_addBlock].
Qed.
Lemma neutral_connect_queued n : forall h, neutral (fr_connect_queued n h).
Proof.
  induction n as [|n IH]; intros h; cbn [fr_connect_queued]; [done|]. apply neutral_bind; [done|]. intros q. destruct (PopUntil q h) as [[b|] q']; neutral; first [apply neutral_clean_txs | apply IH].
Qed.
Lemma neutral_block_timer : neutral fr_block_timer.
Proof.
  unfold fr_block_timer. apply neutral_bind; [done|]. intros h. apply neutral_bind; [apply neutral_connect_queued|]. intros [|]; [apply neutral_broadcastStatus|done].
Qed.
Lemma neutral_expire_call idx : neutral (expire_call idx).
Proof. unfold expire_call, OnItemExpired, limitCastMessage. neutral. Qed.
Lemma neutral_recv_step q : neutral (recv_step myPublicHash q).
Proof.
  unfold recv_step. apply neutral_bind; [done|]. intros qs. destruct (qs !! q) as [[|[ID m] l]|]; [done| |done]. apply neutral_bind; [done|]. intros _.
  apply neutral_bind; [apply neutral_attempt, neutral_handlePeerMessage|]. by intros [].
Qed.
Lemma neutral_OnRecv ID m : neutral (fr_OnRecv ID m).
Proof. unfold fr_OnRecv. by destruct (recv_class m). Qed.

(** ** Steps that keep the invariant *)

(** From a node whose blocks are [g]. *)
Definition keeps {A} (g : Gs) (m : M A) : Prop :=
  forall fr, fr_gen fr = g -> match m fr with (Panic _, _) => True | (_, fr') => gen_inv (fr_gen fr') end.

Ltac test := match goal with |- keeps _ (if ?b then _ else _) => destruct b end.

Lemma gen_keeps_neutral {A} g (m : M A) : neutral m -> gen_inv g -> keeps g m.
Proof. intros Hm Hg fr <-. specialize (Hm fr). destruct (m fr) as [[x|e|w] fr1]; [by rewrite Hm..|done]. Qed.
Lemma gen_keeps_bind {A B} g (m : M A) (k : A -> M B) : keeps g m -> (forall x g, gen_inv g -> keeps g (k x)) -> keeps g (bind m k).
Proof.
  intros Hm Hk fr Hg. specialize (Hm fr Hg). unfold bind. destruct (m fr) as [[x|e|w] fr1]; [|done|done]. by apply (Hk x _ Hm).
Qed.
Lemma gen_keeps_after {A B} g (m : M A) (k : A -> M B) : neutral m -> gen_inv g -> (forall x, keeps g (k x)) -> keeps g (bind m k).
Proof.
  intros Hm Hi Hk fr Hg. specialize (Hm fr). unfold bind. destruct (m fr) as [[x|e|w] fr1]; [|by rewrite Hm, Hg|done]. apply Hk. congruence.
Qed.
Lemma gen_keeps_get {A B} g (f : Gs -> A) (k : A -> M B) : keeps g (k (f g)) -> keeps g (bind (gen_get f) k).
Proof. intros Hk fr Hg. cbn. rewrite Hg. by apply Hk. Qed.
Lemma gen_keeps_upd g f : gen_inv (f g) -> keeps g (upd_gen f).
Proof. by intros Hf fr <-. Qed.
Lemma gen_keeps_upd_bind {B} g f (k : unit -> M B) : keeps (f g) (k tt) -> keeps g (bind (upd_gen f) k).
Proof. intros Hk fr Hg. apply Hk. cbn. by rewrite Hg. Qed.
Lemma gen_keeps_ret {A} g (x : A) : gen_inv g -> keeps g (ret x).
Proof. by intros Hg fr <-. Qed.
Lemma gen_keeps_throw {A} g w : keeps g (throw (A := A) w).
Proof. by intros fr _. Qed.
Lemma gen_keeps_attempt {A} g (m : M A) : keeps g m -> keeps g (attempt m).
Proof. intros Hm fr Hg. specialize (Hm fr Hg). unfold attempt. by destruct (m fr) as [[x|e|w] fr1]. Qed.
Lemma gen_keeps_guard {B} g b e (k : unit -> M B) : gen_inv g -> (b = true -> keeps g (k tt)) -> keeps g (bind (guard b e) k).
Proof. intros Hg Hk. destruct b; [by apply Hk|]. by intros fr <-. Qed.
Lemma gen_keeps_when g b m : gen_inv g -> keeps g m -> keeps g (fr_when b m).
Proof. intros Hg Hm. destruct b; [done|by apply gen_keeps_ret]. Qed.

(** *** The request *)

Lemma handleBlockReq_keeps g ID msg n : gen_inv g -> keeps g (handleBlockReq frPublicHash Config ID msg n).
Proof.
  intros Hg. unfold handleBlockReq. apply gen_keeps_after; [done..|]. intros c. apply gen_keeps_get. apply gen_keeps_after; [done..|]. intros t. cbn zeta.
  test; [by apply gen_keeps_ret|]. test; [by apply gen_keeps_ret|].
  test; [by apply gen_keeps_ret|]. test.
  - test; [by apply gen_keeps_ret|]. apply gen_keeps_neutral; [|done]. apply neutral_bind.
    + destruct (n =? 0); [|done]. apply neutral_for_each. intros. apply neutral_ms_SendTo.
    + intros _. by apply neutral_bind.
  - apply gen_keeps_after; [apply neutral_lift|done|]. intros Top. apply gen_keeps_guard; [done|]. intros _. apply gen_keeps_guard; [done|].
    intros Hf%bool_decide_eq_true. apply gen_keeps_guard; [done|]. intros _. apply gen_keeps_guard; [done|]. intros _. apply gen_keeps_guard; [done|]. intros _.
    apply gen_keeps_upd_bind, gen_keeps_upd. apply gen_inv_waiting; [|by apply gen_inv_req]. apply Forall_app. split; [apply Hg|by constructor].
Qed.

(** *** The signatures of the observers *)

Lemma drop_first_keeps g : gen_inv g -> keeps g drop_first.
Proof.
  intros Hg. unfold drop_first. apply gen_keeps_get. cbn [id]. pose proof (gi_len _ Hg) as Hl. pose proof (gen_inv_tail g) as Ht.
  destruct (lastGenMessages g) as [|x [|y l]]; [by apply gen_keeps_upd, gen_inv_clear..|]. destruct (lastContextes g) as [|cx cs]; [apply gen_keeps_throw|].
  apply gen_keeps_upd. apply Ht; [done|]. by injection Hl.
Qed.

Lemma connect_signed_keeps n : forall g ID h, gen_inv g -> keeps g (connect_signed n ID h).
Proof.
  induction n as [|n IH]; intros g ID h Hg; cbn [connect_signed]; [by apply gen_keeps_ret|]. apply gen_keeps_get. cbn [id].
  destruct (lastGenMessages g) as [|gm l]; [by apply gen_keeps_ret|]. cbn zeta.
  test; [apply gen_keeps_bind; [by apply drop_first_keeps|]; intros; by apply IH|].
  test; [by apply gen_keeps_ret|]. destruct (lastObSignMessageMap g !! _) as [sm|]; [|by apply gen_keeps_ret].
  test; [|by apply IH]. destruct (lastContextes g) as [|cx cs]; [by intros fr _|].
  apply gen_keeps_after; [done..|]. intros cx'. apply gen_keeps_guard; [done|]. intros _.
  apply gen_keeps_after; [apply neutral_on_chain|done|]. intros _. apply gen_keeps_after; [apply neutral_broadcastStatus|done|]. intros _.
  apply gen_keeps_after; [apply neutral_cleanPool|done|]. intros _. apply gen_keeps_after; [done..|]. intros _. apply gen_keeps_after; [done..|]. intros _.
  apply gen_keeps_bind; [by apply drop_first_keeps|]. intros. by apply IH.
Qed.

Lemma handleBlockObSign_keeps g ID msg : gen_inv g -> keeps g (handleBlockObSign ID msg).
Proof.
  intros Hg. unfold handleBlockObSign. apply gen_keeps_after; [done..|]. intros c. cbn zeta. test; [by apply gen_keeps_ret|]. apply gen_keeps_get.
  test; [by apply gen_keeps_ret|]. apply gen_keeps_upd_bind, gen_keeps_get. by apply connect_signed_keeps, gen_inv_signs.
Qed.

(** *** The blocks *)

Lemma gen_keeps_on_cx {A B} g (m : ST Cx A) cx (k : A * Cx -> M B) :
  gen_inv g -> (forall x cx', m cx = (Ok x, cx') -> keeps g (k (x, cx'))) -> keeps g (bind (on_cx m cx) k).
Proof. intros Hg Hk. unfold on_cx. destruct (m cx) as [[x|e|w] cx']; [by apply Hk|by intros fr <-|by intros fr _]. Qed.
Lemma gen_keeps_lift {A B} g (r : res A) (k : A -> M B) : gen_inv g -> (forall x, r = Ok x -> keeps g (k x)) -> keeps g (bind (lift r) k).
Proof. intros Hg Hk. destruct r as [x|e|w]; [by apply Hk|by intros fr <-|by intros fr _]. Qed.

Lemma gen_inv_snoc g gm gn h t : gen_inv g -> mine gm -> (forall g0, last (lastGenMessages g) = Some g0 -> follows (header_of g0) (header_of gm)) ->
  br_Formulator (gn_req gn) = cf_Formulator Config -> gn_lastHeader gn = Some (header_of gm) ->
  cx_TargetHeight (gn_ctx gn) = h_Height (header_of gm) -> 0 <= h_Timestamp (header_of gm) < 2 ^ 64 ->
  gen_inv (set_running (Some gn) (set_last h t (set_msgs (lastGenMessages g ++ [gm]) (lastContextes g ++ [gn_ctx gn]) g))).
Proof.
  intros [] Hm Hf Hr Hh Ht Hts. split; cbn.
  - rewrite !length_app. cbn. lia.
  - by apply linked_snoc.
  - apply Forall_app. by split; [|constructor].
  - done.
  - intros ? [= <-]. split; [done|]. rewrite Hh. split_and!; [done|lia|lia|]. intros gm'. rewrite last_snoc. by intros [= ->].
Qed.

(** The context of the next block, as the loop makes it. *)
Definition next_ctx (gn : Generation (Cx := Cx)) : Cx :=
  match gn_lastHeader gn with Some h => cx_NextContext (header_hash h) (h_Timestamp h) (gn_ctx gn) | None => gn_ctx gn end.

Lemma next_follows l gn h : knows l gn -> h_Height h = cx_TargetHeight (next_ctx gn) -> h_PrevHash h = cx_LastHash (next_ctx gn) ->
  (exists now start i, h_Timestamp h = block_time now start i (cx_LastTimestamp (next_ctx gn))) -> forall g0, last l = Some g0 -> follows (header_of g0) h.
Proof.
  intros [_ Hk] Hh Hp (now & start & i & Ht) g0 Hl. unfold next_ctx in *. destruct (gn_lastHeader gn) as [h0|]; [|by subst l].
  destruct Hk as (H1 & H2 & H3). rewrite (H3 _ Hl). destruct (cl_Next (header_hash h0) (h_Timestamp h0) (gn_ctx gn)) as (E1 & E2 & E3).
  rewrite E1, H1 in Hh. rewrite E2 in Hp. rewrite E3 in Ht. split_and!; [done..|]. rewrite Ht. by apply block_time_later.
Qed.

Lemma gen_keeps_next_ctx {B} g gn (k : Cx -> M B) : keeps g (k (next_ctx gn)) ->
  keeps g (bind (match gn_lastHeader gn with Some h => ret (cx_NextContext (header_hash h) (h_Timestamp h) (gn_ctx gn)) | None => ret (gn_ctx gn) end) k).
Proof. unfold next_ctx. by destruct (gn_lastHeader gn). Qed.

Lemma gen_one_keeps g gn : gen_inv g -> knows (lastGenMessages g) gn -> keeps g (gen_one cUint32 Sign Config Temp gn).
Proof.
  intros Hg Hk. unfold gen_one. apply gen_keeps_next_ctx. cbn zeta. apply gen_keeps_after; [done..|]. intros t. apply gen_keeps_lift; [done|]. intros cd _.
  apply gen_keeps_after; [done..|]. intros c. apply gen_keeps_on_cx; [done|]. intros b ctx (H1 & H2 & H3 & H4 & _ & H6 & _)%make_block_spec.
  apply gen_keeps_lift; [done|]. intros sig Hs. apply gen_keeps_after; [apply neutral_ms_SendTo|done|]. intros _.
  apply gen_keeps_upd_bind, gen_keeps_upd_bind, gen_keeps_upd. apply gen_inv_snoc; cbn; try done.
  - split; [|done]. cbn. rewrite H4. apply Hk.
  - eapply next_follows; [done..|]. by exists t, (gn_StartBlockTime gn), (gn_i gn).
  - apply Hk.
  - congruence.
  - rewrite H6. apply block_time_range.
Qed.

Lemma gen_turn_keeps g gn : gen_inv g -> knows (lastGenMessages g) gn -> keeps g (gen_turn cUint32 Sign Config Temp gn).
Proof.
  intros Hg Hk. unfold gen_turn. test; [by apply gen_keeps_upd, gen_inv_stop|]. apply gen_keeps_bind; [by apply gen_keeps_attempt, gen_one_keeps|].
  intros [e|[]] g1 Hg1; [by apply gen_keeps_upd, gen_inv_stop|by apply gen_keeps_ret].
Qed.

Lemma genBlock_keeps g ID msg : gen_inv g -> br_Formulator msg = cf_Formulator Config -> keeps g (genBlock cUint32 Sign Config Temp ID msg).
Proof.
  intros Hg Hm. unfold genBlock. assert (Hg' : gen_inv (set_signs ∅ (set_msgs [] [] g))) by by apply gen_inv_signs, gen_inv_clear.
  apply gen_keeps_upd_bind. apply gen_keeps_after; [done..|]. intros t. apply gen_keeps_after; [done..|]. intros c. by apply gen_turn_keeps.
Qed.

Lemma gen_start_keeps g : gen_inv g -> keeps g (gen_start cUint32 Sign Config Temp).
Proof.
  intros Hg. unfold gen_start. apply gen_keeps_get. cbn [id]. destruct (gs_running g); [by apply gen_keeps_ret|].
  pose proof (gi_waiting _ Hg) as Hw. destruct (gs_waiting g) as [|[ID req] rest]; [by apply gen_keeps_ret|]. apply Forall_cons in Hw as [Hr Hw].
  assert (Hg' : gen_inv (set_waiting rest g)) by by apply gen_inv_waiting. apply gen_keeps_upd_bind. apply gen_keeps_after; [done..|]. intros h.
  test; [by apply gen_keeps_ret|by apply genBlock_keeps].
Qed.

Lemma gen_wake_keeps g : gen_inv g -> keeps g (gen_wake cUint32 Sign Config Temp).
Proof.
  intros Hg. unfold gen_wake. apply gen_keeps_get. cbn [id]. destruct (gs_running g) as [gn|] eqn:Hr; [|by apply gen_keeps_ret].
  pose proof (gi_running _ Hg _ Hr) as Hk. destruct (lastReqMessage g); [|by apply gen_keeps_upd, gen_inv_stop]. test; [|by apply gen_turn_keeps].
  apply gen_keeps_upd. destruct Hg. split; try done. by intros ? [= <-].
Qed.

(** *** Every event *)

Lemma gen_keeps_handleBlock g ID b : gen_inv g -> keeps g (fr_handleBlock visit Config ID b).
Proof.
  intros Hg. unfold fr_handleBlock. apply gen_keeps_after; [done..|]. intros c. apply gen_keeps_get.
  apply gen_keeps_bind; [by apply gen_keeps_when, gen_keeps_upd, gen_inv_req|]. intros _ g1 Hg1.
  apply gen_keeps_neutral; [|done]. apply neutral_bind; [apply neutral_must_not_fork, neutral_addBlock|]. intros _. apply neutral_bind; [done|]. intros _. apply neutral_tryRequestNext.
Qed.

Lemma gen_keeps_wait_tx g ID m : gen_inv g -> keeps g (wait_tx ID m).
Proof. intros Hg. apply gen_keeps_neutral; [unfold wait_tx; neutral|done]. Qed.

Lemma gen_keeps_handleObserverMessage g ID m n : gen_inv g -> keeps g (fr_handleObserverMessage visit frPublicHash Config ID m n).
Proof.
  intros Hg. destruct m as [[]| | |]; cbn [fr_handleObserverMessage]; try apply gen_keeps_throw.
  all: first [by apply handleBlockReq_keeps | by apply handleBlockObSign_keeps | by apply gen_keeps_handleBlock | by apply gen_keeps_wait_tx | apply gen_keeps_neutral; [apply neutral_handleStatus|done]].
Qed.

Lemma gen_keeps_onObserverRecv g ID m : gen_inv g -> keeps g (fr_onObserverRecv visit frPublicHash Config ID m).
Proof.
  intros Hg. destruct m as [[]| | |]; cbn [fr_onObserverRecv]; try by apply gen_keeps_handleObserverMessage.
  all: apply gen_keeps_neutral; [|done]; neutral; apply neutral_addBlock.
Qed.

Lemma gen_keeps_ignore {A} g (m : M A) : keeps g m -> keeps g (fr_ignore m).
Proof. intros Hm. apply gen_keeps_bind; [by apply gen_keeps_attempt|]. intros. by apply gen_keeps_ret. Qed.

Lemma gen_keeps_retry_step g : gen_inv g -> keeps g (retry_step frPublicHash Config).
Proof.
  intros Hg. unfold retry_step. apply gen_keeps_after; [done..|]. intros [|[[ID msg] n] l]; [by apply gen_keeps_ret|]. apply gen_keeps_after; [done..|]. intros _.
  apply gen_keeps_bind; [by apply gen_keeps_attempt, handleBlockReq_keeps|]. intros. by apply gen_keeps_ret.
Qed.

Abbreviation do := (fr_do cUint32 visit frPublicHash myPublicHash Sign Config Temp).

Lemma fr_do_keeps g e : gen_inv g -> keeps g (do e).
Proof.
  intros Hg. destruct e; cbn [fr_do]; first
   [ by apply gen_keeps_ignore, gen_keeps_onObserverRecv | by apply gen_keeps_retry_step | by apply gen_start_keeps | by apply gen_wake_keeps | apply gen_keeps_neutral; [|done] ].
  all: first [ apply neutral_OnRecv | apply neutral_recv_step | apply neutral_worker | apply neutral_block_timer | apply neutral_expire_call | idtac ].
  all: unfold OnObserverConnected, OnObserverDisconnected, OnConnected, OnDisconnected, fr_sendStatusTo, fr_sendMessage, fr_ignore, fr_AddTx; neutral.
  all: first [apply neutral_tryRequestNext | apply neutral_sendRequestBlockToNode | apply neutral_sendRequestBlockTo].
Qed.

Lemma run_gen_keeps es : forall g, gen_inv g -> keeps g (for_each es do).
Proof.
  induction es as [|e es IH]; intros g Hg; cbn [for_each]; [by apply gen_keeps_ret|]. apply gen_keeps_bind; [by apply fr_do_keeps|]. intros. by apply IH.
Qed.
Lemma new_gen_inv c t : gen_inv (fr_gen (NewFormulatorNode (Ch := Ch) (Tx := Tx) (Cx := Cx) (P := P) c t)).
Proof. by split. Qed.

(** C9. Whatever the order of messages, timers, signatures and disconnections, the
    blocks that a formulator keeps as its own are one chain: each names the hash of
    the one before, has the next height and a later time (up to the last instant of
    64 bits), names the formulator as its generator and carries the formulator's
    signature of its header; and each has its context beside it. *)
Theorem generated_blocks_form_a_chain (c : Ch) (t : Z) (events : list fr_event) :
  match for_each events do (NewFormulatorNode c t) with
  | (Panic _, _) => True
  | (_, fr) =>
      let l := lastGenMessages (fr_gen fr) in
      length (lastContextes (fr_gen fr)) = length l /\ linked l /\
      (forall gm, gm ∈ l -> h_Generator (header_of gm) = cf_Formulator Config /\ Sign (header_hash (header_of gm)) = Ok (gm_GeneratorSignature gm))
  end.
Proof.
  pose proof (run_gen_keeps events _ (new_gen_inv c t) (NewFormulatorNode c t) eq_refl) as Hr.
  destruct (for_each _ _ _) as [[[]|e|w] fr]; [| |done]; destruct Hr; (split_and!; [done..|]); by apply Forall_forall.
Qed.

(** ** The first block of a request *)

Lemma first_header_passes c pv b msg cd ts cx' :
  make_block Config Temp c (br_Formulator msg) cd ts (ct_NewContext c) = (Ok b, cx') ->
  pv_ChainID pv = cp_ChainID c -> pv_Version pv = cp_Version c -> pv_LastStatus pv = (cp_Height c, cp_LastHash c, cp_LastTimestamp c) ->
  br_Formulator msg <> NewAddress 0 0 0 -> 0 < cp_Version c -> cp_LastTimestamp c < ts ->
  (u32 (cp_Height c + 1) = 1 \/ exists prev, pv_Header pv (cp_Height c) = Ok prev /\ h_Version prev <= cp_Version c /\ h_ChainID prev = cp_ChainID c) ->
  validateHeader pv (b_Header b) = Ok tt.
Proof.
  intros (_ & H2 & H3 & H4 & _ & H6 & Hi)%make_block_spec Hc Hv Hl Hf Hv0 Hts Hprev. cbn zeta in Hi. destruct Hi as [H7 H8].
  destruct (cl_first c (br_Formulator msg) cd) as [E1 E2]. destruct (cl_New c) as (E3 & E4 & _). rewrite E1 in H7. rewrite E2 in H8. rewrite E3 in H2. rewrite E4 in H3.
  unfold validateHeader. rewrite Hl, H2, H3, H4, H6, H7, H8, Hc, Hv, Z.eqb_refl, Z.ltb_irrefl, bool_decide_true, bool_decide_false, Z.eqb_refl by done. cbn [negb].
  destruct (Z.leb_spec ts (cp_LastTimestamp c)); [lia|]. destruct (Z.eqb_spec (u32 (cp_Height c + 1)) 1).
  - destruct (Z.leb_spec (cp_Version c) 0); [lia|done].
  - destruct Hprev as [?|(prev & -> & Hp1 & Hp2)]; [done|]. cbn. destruct (Z.ltb_spec (cp_Version c) (h_Version prev)); [lia|]. by rewrite Hp2, Z.eqb_refl.
Qed.

(** What [genBlock] does when nothing fails. *)
Lemma genBlock_makes (fr : Fr) ID msg cd b cx' sig :
  let c := fr_chain fr in
  let t := fr_now fr in
  let start := if u64 t <=? cp_LastTimestamp c then u64 (cp_LastTimestamp c + Millisecond) else u64 t in
  0 < (if br_TimeoutCount msg =? 0 then u32 (maxBlocksPerFormulator (cp_cs c) - blocksBySameFormulator (cp_cs c)) else maxBlocksPerFormulator (cp_cs c)) ->
  encodeConsensusData cUint32 (br_TimeoutCount msg) = Ok cd ->
  make_block Config Temp c (br_Formulator msg) cd (block_time t start 0 (cx_LastTimestamp (ct_NewContext c))) (ct_NewContext c) = (Ok b, cx') ->
  Sign (header_hash (b_Header b)) = Ok sig -> ID ∈ ms_peers (fr_net fr) ->
  exists fr', genBlock cUint32 Sign Config Temp ID msg fr = (Ok tt, fr') /\ fr_chain fr' = c /\
    lastGenMessages (fr_gen fr') = [mkBlockGenMessage b sig false] /\ lastContextes (fr_gen fr') = [cx'] /\
    fr_sent (fr_net fr') = fr_sent (fr_net fr) ++ [OSendTo ID (FOb (MBlockGen (mkBlockGenMessage b sig false)))].
Proof.
  intros c t start Hn He Hb Hs Hp. unfold genBlock, gen_turn. cbn -[gen_one block_time]. fold c t start.
  destruct (Z.leb_spec (if br_TimeoutCount msg =? 0 then u32 (maxBlocksPerFormulator (cp_cs c) - blocksBySameFormulator (cp_cs c)) else maxBlocksPerFormulator (cp_cs c)) 0); [lia|].
  unfold gen_one, ms_SendTo, on_cx, bind, attempt, lift. cbn -[block_time make_block encodeConsensusData header_hash]. fold c t start. rewrite He. cbn -[block_time make_block header_hash].
  rewrite Hb. cbn -[header_hash]. rewrite Hs. cbn. rewrite bool_decide_true by done. by eexists.
Qed.

(** C10. The first block made for a request, from a chain with the state of the
    provider [pv], is sent to the observer who asked and passes the header checks of
    every node at that state ([validateHeader]): height, previous hash, a later time,
    chain and version; and it says how many formulators timed out, as the request did. *)
Theorem first_block_passes_the_header_checks (fr : Fr) pv ID msg cd b cx' sig :
  let c := fr_chain fr in
  let t := fr_now fr in
  let start := if u64 t <=? cp_LastTimestamp c then u64 (cp_LastTimestamp c + Millisecond) else u64 t in
  0 < (if br_TimeoutCount msg =? 0 then u32 (maxBlocksPerFormulator (cp_cs c) - blocksBySameFormulator (cp_cs c)) else maxBlocksPerFormulator (cp_cs c)) ->
  encodeConsensusData cUint32 (br_TimeoutCount msg) = Ok cd ->
  make_block Config Temp c (br_Formulator msg) cd (block_time t start 0 (cx_LastTimestamp (ct_NewContext c))) (ct_NewContext c) = (Ok b, cx') ->
  Sign (header_hash (b_Header b)) = Ok sig -> ID ∈ ms_peers (fr_net fr) ->
  pv_ChainID pv = cp_ChainID c -> pv_Version pv = cp_Version c -> pv_LastStatus pv = (cp_Height c, cp_LastHash c, cp_LastTimestamp c) ->
  br_Formulator msg <> NewAddress 0 0 0 -> 0 < cp_Version c -> 0 <= cp_LastTimestamp c < 2 ^ 64 - 1 ->
  (u32 (cp_Height c + 1) = 1 \/ exists prev, pv_Header pv (cp_Height c) = Ok prev /\ h_Version prev <= cp_Version c /\ h_ChainID prev = cp_ChainID c) ->
  exists fr', genBlock cUint32 Sign Config Temp ID msg fr = (Ok tt, fr') /\
    fr_sent (fr_net fr') = fr_sent (fr_net fr) ++ [OSendTo ID (FOb (MBlockGen (mkBlockGenMessage b sig false)))] /\
    validateHeader pv (b_Header b) = Ok tt /\ h_ConsensusData (b_Header b) = cd /\ h_Generator (b_Header b) = br_Formulator msg.
Proof.
  intros c t start Hn He Hb Hs Hp Hc Hv Hl Hf Hv0 Hts Hprev. destruct (genBlock_makes fr ID msg cd b cx' sig Hn He Hb Hs Hp) as (fr' & E & _ & _ & _ & Hsent).
  exists fr'. split_and!; [done..|eapply first_header_passes; try done| |].
  - destruct (cl_New c) as (_ & _ & ->). destruct (block_time_later t start 0 (cp_LastTimestamp c)); lia.
  - apply make_block_spec in Hb. apply Hb.
  - apply make_block_spec in Hb. apply Hb.
Qed.

(** ** The signatures of the observers *)

(** The signatures of the observers for a block never reach the handler that
    connects the blocks of the formulator with their contexts
    ([handleObserverMessage]): [onObserverRecv] returns before, and leaves the chain
    and the blocks of the formulator as they are, whatever the message and the node. *)
Lemma observer_signatures_are_dropped (fr : Fr) (ID : bytes) (msg : BlockObSignMessage) : let r := fr_onObserverRecv visit frPublicHash Config ID (FOb (MBlockObSign msg)) fr in
  fr_gen r.2 = fr_gen fr /\ fr_chain r.2 = fr_chain fr.
Proof.
  unfold fr_onObserverRecv, fr_addBlock, fr_get, gets, bind, lift, guard, upd_blockQ, upd_genMap. cbn.
  destruct (fr_genMap fr !! os_TargetHeight msg) as [g|]; [|done].
  destruct (_ <=? _); cbn.
  - destruct (cp_Hash _ _) as [h|e|w]; cbn; [by case_bool_decide|done..].
  - destruct (FindOrInsert _ _ _) as [[old|] q]; cbn; [by case_bool_decide|done].
Qed.

(** ** A request that comes again *)

(** As long as the formulator remembers a request, it ignores every other one for
    that height or a lower one, whatever the time and the timeouts. *)
Lemma second_request_is_ignored (fr : Fr) ID msg n r :
  lastReqMessage (fr_gen fr) = Some r -> br_TargetHeight msg <= br_TargetHeight r -> handleBlockReq frPublicHash Config ID msg n fr = (Ok tt, fr).
Proof.
  intros Hr Hh. unfold handleBlockReq. cbn. destruct (_ && _); [done|]. rewrite Hr. by apply Z.leb_le in Hh as ->.
Qed.

(** ** A block that nobody checked *)

Lemma find_priority_insert {V} (v : V) h w : (forall v', (v', h) ∉ w) -> find_priority (insert_by_priority (v, h) w) h = Some v.
Proof.
  induction w as [|[v' p] w IH]; intros Hw; cbn; [by rewrite Z.eqb_refl|]. destruct (h <? p) eqn:E; cbn; [by rewrite Z.eqb_refl|].
  destruct (Z.eqb_spec p h) as [->|]; [by destruct (Hw v'); left|]. apply IH. intros v0 Hv. apply (Hw v0). by right.
Qed.

(** C40. A block of a height above the chain's, when no block of that height waits, is
    put into the queue without any check of its content: whoever is connected can send
    one of his own making.  In every state in which it still waits there and the chain
    is still below its height, a block message of that height with another header, from
    an observer or from a peer, stops the formulator with a panic.  It waits until the
    block timer comes to its height and drops it because the chain refuses it.  Only
    block messages are meant: a message with the observers' signatures for a block of
    the formulator's own returns an error and does not panic. *)
Theorem unchecked_block_stops_the_formulator (fr : Fr) (peer : bytes) (b1 : Block Tx) (w : list (Block Tx * Z)) :
  let h := h_Height (b_Header b1) in
  sq_holds (fr_blockQ fr) w -> find_priority w h = None -> cp_Height (fr_chain fr) < h ->
  (exists fr1 w1, handlePeerMessage myPublicHash peer (FOb (MBlock b1)) fr = (Ok tt, fr1) /\ fr_chain fr1 = fr_chain fr /\
     sq_holds (fr_blockQ fr1) w1 /\ find_priority w1 h = Some b1) /\
  (forall (fr2 : Fr) (w2 : list (Block Tx * Z)) (b2 : Block Tx) (sender : bytes),
     sq_holds (fr_blockQ fr2) w2 -> find_priority w2 h = Some b1 -> cp_Height (fr_chain fr2) < h ->
     h_Height (b_Header b2) = h -> header_hash (b_Header b2) <> header_hash (b_Header b1) ->
     (fr_onObserverRecv visit frPublicHash Config sender (FOb (MBlock b2)) fr2).1 = Panic "found forked block" /\
     (handlePeerMessage myPublicHash sender (FOb (MBlock b2)) fr2).1 = Panic "found forked block").
Proof.
  intros h Hq E0 Hh. split.
  - unfold handlePeerMessage, must_not_fork, fr_addBlock, fr_get. cbn. unfold bind, attempt. cbn. fold h.
    destruct (Z.leb_spec h (cp_Height (fr_chain fr))); [lia|]. cbn. unfold FindOrInsert. rewrite (sq_find_holds _ _ _ Hq), E0. cbn.
    do 2 eexists. split; [done|]. split; [done|]. split; [exact (sq_insert_holds _ _ b1 _ Hq)|]. apply find_priority_insert. intros b Hb.
    clear -E0 Hb. induction w as [|[v p] w IH]; [by apply not_elem_of_nil in Hb|]. cbn in E0. destruct (Z.eqb_spec p h) as [->|Hp]; [done|].
    apply elem_of_cons in Hb as [[= _ ?]|Hb]; [congruence|by apply IH].
  - intros fr2 w2 b2 sender Hq2 E2 Hh2 Eh Hne. split.
    + unfold fr_onObserverRecv, fr_handleObserverMessage, fr_handleBlock, must_not_fork, fr_addBlock, fr_get, bind, attempt. cbn.
      match goal with |- context [fr_when ?b (upd_gen (set_req None))] => destruct b end; cbn; rewrite Eh; (destruct (Z.leb_spec h (cp_Height (fr_chain fr2))); [lia|]); cbn; unfold FindOrInsert; cbn.
      all: rewrite (sq_find_holds _ _ _ Hq2), E2; cbn; rewrite bool_decide_false by (by intros ?); done.
    + unfold handlePeerMessage, must_not_fork, fr_addBlock, fr_get, bind, attempt. cbn. rewrite Eh. destruct (Z.leb_spec h (cp_Height (fr_chain fr2))); [lia|]. cbn. unfold FindOrInsert. cbn.
      rewrite (sq_find_holds _ _ _ Hq2), E2. cbn. rewrite bool_decide_false by (by intros ?). done.
Qed.
End Node.

(** ** Runs of a small node *)

Section Example.
#[local] Existing Instance sha256_prefix.
#[local] Instance fr_recover : Ecrecover := { recover h sig := Err ErrInvalidRequest }.
#[local] Instance fr_marshal : Marshaler Header := fun h => [h_Height h; h_Timestamp h].

(** A chain and a context are a height, a hash and a time; a chain has its consensus. *)
Definition point : Type := Z * Hash256 * Z.
Definition fr_toy : Type := point * PofConsensus (T := llrb_list _ item_Less).
#[local] Instance fr_toy_chain : ChainI (T := llrb_list _ item_Less) fr_toy unit point :=
  let connect (b : Block unit) (c : fr_toy) := (Ok tt, ((h_Height (b_Header b), header_hash (b_Header b), h_Timestamp (b_Header b)), c.2)) in {|
  cp_ChainID _ := 1; cp_Version _ := 1; cp_Height c := c.1.1.1; cp_LastHash c := c.1.1.2;
  cp_Hash c _ := Ok c.1.1.2; cp_Block _ _ := Err ErrInvalidRequest; cp_cs c := c.2;
  ct_ValidateHeader _ _ := Ok tt; ct_ExecuteBlockOnContext c _ := Ok c.1; ct_ContextHash _ := EmptyHash;
  ct_ConnectBlockWithContext b _ c := connect b c; cn_ConnectBlock b c := connect b c
|}.
Definition with_time (t : Z) (h : Header) : Header :=
  mkHeader (h_ChainID h) (h_Version h) (h_Height h) (h_PrevHash h) (h_LevelRootHash h) (h_ContextHash h) t (h_Generator h) (h_ConsensusData h).
#[local] Instance fr_toy_creator : CreatorI fr_toy unit point := {
  cp_LastTimestamp c := c.1.2; cp_Seq _ _ := 0; fn_account _ := None; fn_hash _ _ _ := EmptyHash; ct_Validate _ _ _ _ := Ok tt;
  ct_NewContext c := (u32 (c.1.1.1 + 1), c.1.1.2, c.1.2);
  cx_TargetHeight cx := cx.1.1; cx_LastHash cx := cx.1.2; cx_LastTimestamp cx := cx.2;
  cx_NextContext h t cx := (u32 (cx.1.1 + 1), h, t);
  cx_NewBlockCreator cx a cd := mkCreator [] (mkBlock (mkHeader 1 1 cx.1.1 cx.1.2 EmptyHash EmptyHash 0 a cd) [] [] [] [] []);
  cx_Init _ cx := (Ok tt, cx);
  cx_UnsafeAddTx _ bc _ t th tx sigs _ cx := (Ok (append_tx bc t th tx sigs 1), cx);
  cx_Finalize _ bc t cx := (Ok (with_header (bc_b bc) (with_time t (b_Header (bc_b bc)))), cx)
}.
#[local] Instance fr_toy_pool : PoolI unit unit := {
  pl_New := tt; pl_IsExist _ _ := false; pl_Push _ _ _ _ _ _ p := (Ok tt, p); pl_Remove _ _ p := (Ok tt, p)
}.
#[local] Instance fr_toy_laws : CreatorLaws (T := llrb_list _ item_Less) (CI := fr_toy_chain).
Proof. split; try done; intros; (split; [done|]); by intros ? [= <-]. Qed.

Abbreviation maker := ex_generator.
Definition ex_Config : FormulatorConfig := mkFormulatorConfig (r_Address maker) 5000.
Definition ex_Temp : TempTxs (Tx := unit) := mkTempTxs [] 0 [].
Definition ex_Sign (h : Hash256) : res Signature := Ok (9 :: h).
Definition fr_start : fr_toy := (0, EmptyHash, 0, set_rt (NewConsensus 10 [NewPublicHash [1]]) ex_rt).
Definition an_observer : bytes := NewPublicHash [1].
Definition ex_request (t : Z) : BlockReqMessage := mkBlockReqMessage EmptyHash 1 t (r_Address maker) (r_PublicHash maker).
Abbreviation ex_do := (fr_do coder_byte map_to_list (r_PublicHash maker) (NewPublicHash [8]) ex_Sign ex_Config ex_Temp).
Abbreviation ex_node := (FormulatorNode (Ch := fr_toy) (Tx := unit) (Cx := point) (P := unit)).
Definition fr_after (es : list (fr_event (Tx := unit))) : res unit * ex_node := for_each es ex_do (NewFormulatorNode fr_start 0).

(** An observer asks for a block; the formulator makes two. *)
Definition asked : list (fr_event (Tx := unit)) :=
  [FObserverConnected an_observer; FOnTime 1000; FOnObserver an_observer (FOb (MBlockReq (ex_request 0))); FGenStart].
Definition two_blocks : list (fr_event (Tx := unit)) := asked ++ [FGenWake; FGenWake].

Lemma made_two_blocks : (fun gm => h_Height (b_Header (gm_Block gm))) <$> lastGenMessages (fr_gen (fr_after two_blocks).2) = [1; 2].
Proof. vm_compute. reflexivity. Qed.

Lemma generated_blocks_form_a_chain_witness :
  length (lastGenMessages (fr_gen (fr_after two_blocks).2)) = 2%nat /\
  match fr_after two_blocks with
  | (Panic _, _) => True
  | (_, fr) =>
      let l := lastGenMessages (fr_gen fr) in
      length (lastContextes (fr_gen fr)) = length l /\ linked l /\
      (forall gm, gm ∈ l -> h_Generator (b_Header (gm_Block gm)) = cf_Formulator ex_Config /\ ex_Sign (header_hash (b_Header (gm_Block gm))) = Ok (gm_GeneratorSignature gm))
  end.
Proof.
  split; [vm_compute; reflexivity|].
  apply (generated_blocks_form_a_chain coder_byte map_to_list (r_PublicHash maker) (NewPublicHash [8]) ex_Sign ex_Config ex_Temp fr_start 0 two_blocks).
Defined.

Definition first_made : BlockGenMessage unit := default (mkBlockGenMessage (mkBlock (ex_header 0) [] [] [] [] []) [] false) (head (lastGenMessages (fr_gen (fr_after asked).2))).
Definition ready : ex_node := (fr_after (take 2 asked)).2.
Definition ex_provider : Provider := mkProvider 1 1 (0, EmptyHash, 0) (fun _ => Err ErrInvalidRequest) emptyLoader.

Lemma first_block_passes_the_header_checks_witness :
  exists fr', genBlock coder_byte ex_Sign ex_Config ex_Temp an_observer (ex_request 0) ready = (Ok tt, fr') /\
    fr_sent (fr_net fr') = fr_sent (fr_net ready) ++ [OSendTo an_observer (FOb (MBlockGen (mkBlockGenMessage (gm_Block first_made) (gm_GeneratorSignature first_made) false)))] /\
    validateHeader ex_provider (b_Header (gm_Block first_made)) = Ok tt /\
    h_ConsensusData (b_Header (gm_Block first_made)) = [0] /\ h_Generator (b_Header (gm_Block first_made)) = br_Formulator (ex_request 0).
Proof.
  apply (first_block_passes_the_header_checks coder_byte ex_Sign ex_Config ex_Temp ready ex_provider an_observer (ex_request 0) [0]
           (gm_Block first_made) (1, EmptyHash, 0) (gm_GeneratorSignature first_made)).
  all: first [by vm_compute | left; by vm_compute].
Defined.

(** The handler that the signatures do not reach would connect the block. *)
Definition ex_ObSign : BlockObSignMessage := mkBlockObSignMessage 1 (mkBlockSign (header_hash (b_Header (gm_Block first_made))) []) [].
Lemma signatures_would_connect :
  let fr := (fr_after two_blocks).2 in
  cp_Height (fr_chain (handleBlockObSign an_observer ex_ObSign fr).2) = 1 /\
  cp_Height (fr_chain (fr_onObserverRecv map_to_list (r_PublicHash maker) ex_Config an_observer (FOb (MBlockObSign ex_ObSign)) fr).2) = 0.
Proof. vm_compute. done. Qed.

(** Its block lost, the formulator is asked again after a minute and stays silent. *)
Lemma asked_again_in_vain :
  let again := [FOnTime (60 * Second); FOnObserver an_observer (FOb (MBlockReq (ex_request 0))); FGenStart] in
  let fr := (fr_after (asked ++ [FGenWake] ++ again)).2 in
  cp_Height (fr_chain fr) = 0 /\ gs_waiting (fr_gen fr) = [] /\ fr_sent (fr_net fr) = fr_sent (fr_net (fr_after asked).2).
Proof. vm_compute. done. Qed.

(** A block of another formulator makes it forget the request: asked for the height
    again, it signs another block of that height. *)
Lemma formulator_signs_two_blocks :
  let foreign := mkBlock (mkHeader 1 1 3 EmptyHash EmptyHash EmptyHash 0 (NewAddress 7 7 7) []) [] [] [] [] [] in
  let again := [FOnObserver an_observer (FOb (MBlock foreign)); FOnTime (60 * Second); FGenWake; FOnObserver an_observer (FOb (MBlockReq (ex_request 0))); FGenStart] in
  let fr := (fr_after (asked ++ again)).2 in
  exists gm, fr_chain fr = fr_start /\ lastGenMessages (fr_gen fr) = [gm] /\
    h_Height (b_Header (gm_Block gm)) = h_Height (b_Header (gm_Block first_made)) /\ header_hash (b_Header (gm_Block gm)) <> header_hash (b_Header (gm_Block first_made)).
Proof. eexists. split; [vm_compute; reflexivity|]. split; [vm_compute; reflexivity|]. split; [vm_compute; reflexivity|]. by vm_compute. Qed.

(** The forged block is followed by a tick of the block timer, then by the observers'. *)
Lemma unchecked_block_stops_the_formulator_witness :
  let b h t := mkBlock (mkHeader 1 1 h EmptyHash EmptyHash EmptyHash t (NewAddress 7 7 7) []) [] [] [] [] [] in
  exists fr1 fr2 : ex_node, handlePeerMessage (NewPublicHash [8]) [66] (FOb (MBlock (b 3 1))) (NewFormulatorNode fr_start 0) = (Ok tt, fr1) /\
    fr_block_timer fr1 = (Ok tt, fr2) /\
    (fr_onObserverRecv map_to_list (r_PublicHash maker) ex_Config an_observer (FOb (MBlock (b 3 2))) fr2).1 = Panic "found forked block".
Proof.
  intros b. destruct (unchecked_block_stops_the_formulator map_to_list (r_PublicHash maker) (NewPublicHash [8]) ex_Config (NewFormulatorNode fr_start 0) [66] (b 3 1) [])
    as [(fr1 & w1 & E1 & _ & Hq1 & Hw1) Hstop].
  - apply NewSortedQueue_holds.
  - reflexivity.
  - by vm_compute.
  - destruct (fr_block_timer fr1) as [r fr2] eqn:Et. exists fr1, fr2.
    assert (E : fr1 = (handlePeerMessage (NewPublicHash [8]) [66] (FOb (MBlock (b 3 1))) (NewFormulatorNode fr_start 0)).2) by (by rewrite E1).
    assert (Hr : r = Ok tt) by (change r with (r, fr2).1; rewrite <- Et, E; by vm_compute).
    assert (Hb : fr_blockQ fr2 = fr_blockQ fr1) by (change fr2 with (r, fr2).2; rewrite <- Et, E; by vm_compute).
    assert (Hc : cp_Height (fr_chain fr2) < 3) by (change fr2 with (r, fr2).2; rewrite <- Et, E; by vm_compute).
    split; [exact E1|]. split; [by rewrite <- Hr|].
    exact (proj1 (Hstop fr2 w1 (b 3 2) an_observer ltac:(by rewrite Hb) Hw1 Hc eq_refl ltac:(by vm_compute))).
Defined.
End Example.
