(* ===== verification/Packet.v ===== *)
(** * Packets and connections

    How messages travel: [core/types/hashed_type.go] numbers the messages by a hash of
    their names, [service/p2p/util.go] turns a message into a packet (the number, a
    flag, the length and the body, which is compressed when it is long) and reads
    numbers from a stream, [copyreader.go] keeps what was read, [tcp_peer.go] and
    [websocket_peer.go] send packets and pings and read them back.

    A connection is the list of the pieces in which its bytes arrive: the operating
    system may cut a stream anywhere, and [Read] returns at most one piece.  The
    encoding of the messages and gzip are parameters. *)

From stdpp Require Import base gmap list strings.
From Stdlib Require Import ZArith Lia.
From S2P Require Import Prelude Common Factory OrderedMap Pile.

Definition ErrInvalidLength : error := mkError "p2p" "invalid length".
Definition ErrUnknownMessage : error := mkError "p2p" "unknown message".
Definition io_EOF : error := mkError "io" "EOF".
Definition net_ErrClosed : error := mkError "net" "use of closed network connection".

(** ** The numbers of the messages *)

Section HashedType.
Context `{SH : Sha256}.

Definition DefineHashedType (Name : bytes) : ST (gmap Z bytes) Z :=
  let! t := lift (BytesToUint16 (take 2 (DoubleHash Name))) in
  let! o := gets (fun gDefineMap => gDefineMap !! t) in
  if bool_decide (default [] o = Name) then ret t
  else match o with
       | Some _ => throw "Type is collapsed"
       | None => modify (fun gDefineMap => <[t := Name]> gDefineMap) ;;; ret t
       end.
Definition NameOfHashedType (t : Z) (gDefineMap : gmap Z bytes) : bytes := default [] (gDefineMap !! t).
End HashedType.

(** ** Reading numbers *)

Section Read.
Context {S : Type} (Read : nat -> ST S bytes).

(** [FillBytes]: the loop stops when nothing is missing, so it runs at most once for
    each byte. *)
Fixpoint fill_loop (fuel n : nat) (bs : bytes) : ST S bytes :=
  match fuel with
  | O => throw "out of fuel"
  | Datatypes.S fuel =>
      if (length bs <? n)%nat then
        let! got := Read (n - length bs) in
        let bs := bs ++ got in
        if (n <=? length bs)%nat then ret bs
        else if (length got =? 0)%nat then fail ErrInvalidLength
        else fill_loop fuel n bs
      else ret bs
  end.
Definition FillBytes (n : nat) : ST S bytes :=
  let! bs := fill_loop (n + 1) n [] in
  if (length bs =? n)%nat then ret bs else fail ErrInvalidLength.

Definition ReadUint64 : ST S (Z * Z) := let! b := FillBytes 8 in ret (le_value b, 8).
Definition ReadUint32 : ST S (Z * Z) := let! b := FillBytes 4 in ret (le_value b, 4).
Definition ReadUint16 : ST S (Z * Z) := let! b := FillBytes 2 in ret (le_value b, 2).
Definition ReadUint8 : ST S (Z * Z) := let! b := FillBytes 1 in ret (le_value b, 1).

(** The bytes and how many were read; the count leaves out the first byte when the
    length follows it. *)
Definition ReadBytes : ST S (bytes * Z) :=
  let! (Len, n) := ReadUint8 in
  if Len <? 254 then
    let! bs := FillBytes (Z.to_nat Len) in ret (bs, n + Len)
  else if Len =? 254 then
    let! (Len, n) := ReadUint16 in
    let! bs := FillBytes (Z.to_nat Len) in ret (bs, n + Len)
  else
    let! (Len, n) := ReadUint32 in
    let! bs := FillBytes (Z.to_nat Len) in ret (bs, n + Len).
Definition ReadString : ST S (bytes * Z) := ReadBytes.
Definition ReadBool : ST S (bool * Z) := let! (v, n) := ReadUint8 in ret (v =? 1, n).
End Read.

(** ** Connections and peers *)

(** [TCPPeer] with its connection: what is still to be read, in pieces, and what was
    written. *)
Record TCPPeer := mkTCPPeer {
  conn_in : list bytes;
  conn_out : bytes;
  tcp_id : bytes;
  tcp_name : bytes;
  tcp_guessHeight : Z;
  isClose : bool;
  connectedTime : Z;
  pingCount : Z;
  pingType : Z
}.
Definition set_in ch p := mkTCPPeer ch (conn_out p) (tcp_id p) (tcp_name p) (tcp_guessHeight p) (isClose p) (connectedTime p) (pingCount p) (pingType p).
Definition set_out o p := mkTCPPeer (conn_in p) o (tcp_id p) (tcp_name p) (tcp_guessHeight p) (isClose p) (connectedTime p) (pingCount p) (pingType p).
Definition set_closed c p := mkTCPPeer (conn_in p) (conn_out p) (tcp_id p) (tcp_name p) (tcp_guessHeight p) c (connectedTime p) (pingCount p) (pingType p).
Definition set_pings n p := mkTCPPeer (conn_in p) (conn_out p) (tcp_id p) (tcp_name p) (tcp_guessHeight p) (isClose p) (connectedTime p) n (pingType p).
Definition set_guess h p := mkTCPPeer (conn_in p) (conn_out p) (tcp_id p) (tcp_name p) h (isClose p) (connectedTime p) (pingCount p) (pingType p).

Definition NewTCPPeer (conn : list bytes) (ID Name : bytes) (time pingType : Z) : TCPPeer :=
  mkTCPPeer conn [] ID (if (length Name =? 0)%nat then ID else Name) 0 false time 0 pingType.
Definition Close : ST TCPPeer unit := modify (set_closed true).
Definition UpdateGuessHeight (height : Z) : ST TCPPeer unit := modify (set_guess height).

(** [conn.Read] into [n] bytes and [conn.Write]. *)
Definition conn_Read (n : nat) : ST TCPPeer bytes := fun p =>
  if isClose p then (Err net_ErrClosed, p)
  else match conn_in p with
       | [] => (Err io_EOF, p)
       | c :: ch => if (length c <=? n)%nat then (Ok c, set_in ch p) else (Ok (take n c), set_in (drop n c :: ch) p)
       end.
Definition conn_Write (bs : bytes) : ST TCPPeer unit := fun p =>
  if isClose p then (Err net_ErrClosed, p) else (Ok tt, set_out (conn_out p ++ bs) p).

(** One tick of the goroutine of [NewTCPPeer]; any end of it closes the peer. *)
Definition ping_tick : ST TCPPeer unit :=
  let! closed := gets isClose in
  if closed then ret tt
  else
    let! r := attempt (let! p := gets id in conn_Write (Uint16ToBytes (pingType p))) in
    match r with
    | inl _ => Close
    | inr _ =>
        modify (fun p => set_pings (u64 (pingCount p + 1)) p) ;;;
        let! n := gets pingCount in
        if 3 <? n then Close else ret tt
    end.

(** *** [CopyReader]: a connection and what was read of it *)

Definition copy_Read (n : nat) : ST (TCPPeer * bytes) bytes := fun '(p, buffer) =>
  match conn_Read n p with
  | (Ok bs, p) => (Ok bs, (p, buffer ++ bs))
  | (r, p) => (r, (p, buffer))
  end.
Definition copy_Reset : ST (TCPPeer * bytes) unit := modify (fun '(p, _) => (p, [])).

(** ** Messages and packets *)

Section Messages.
Context `{SH : Sha256} `{GZ : Gzip} {M : Type} `{TV : !TypedValue M}.
(** The factory named message. *)
Context (fc : Factory).

Definition MessageToBytes (m : M) : res bytes :=
  let? t := TypeOf fc (value_type m) in
  let? body := encode_value m in
  Ok (Uint16ToBytes t ++ body).

Definition BytesToPacket (bs : bytes) : res bytes :=
  let doComp := (1000 <? length bs)%nat in
  if (length bs <? 2)%nat then Panic "slice bounds out of range"
  else
    let body := if doComp then gzip_Write (drop 2 bs) else drop 2 bs in
    Ok (take 2 bs ++ [if doComp then 1 else 0] ++ le_bytes 4 (u32 (Z.of_nat (length body))) ++ body).

Definition MessageToPacket (m : M) : res bytes := let? bs := MessageToBytes m in BytesToPacket bs.

(** The body of a packet to its message; [Unmarshal] reads one value from the front. *)
Definition open_packet (t cp : Z) (zbs : bytes) : res M :=
  let? bs := (if cp =? 1 then gzip_ReadAll zbs else Ok zbs) in
  let? rt := Create fc t in
  let? (m, _) := decode_value rt bs in
  Ok m.

(** The loop of [ReadMessageData] over the pings, each of two bytes. *)
Fixpoint skip_pings (fuel : nat) : ST (TCPPeer * bytes) Z :=
  match fuel with
  | O => throw "out of fuel"
  | S fuel =>
      let! (v, _) := ReadUint16 copy_Read in
      modify (fun '(p, buffer) => (set_pings 0 p, buffer)) ;;;
      let! ping := gets (fun '(p, _) => pingType p) in
      if v =? ping then copy_Reset ;;; skip_pings fuel else ret v
  end.

Definition read_packet (fuel : nat) : ST (TCPPeer * bytes) (M * bytes) :=
  let! t := skip_pings fuel in
  let! (cp, _) := ReadUint8 copy_Read in
  let! (Len, _) := ReadUint32 copy_Read in
  if Len =? 0 then fail ErrUnknownMessage
  else
    let! zbs := FillBytes copy_Read (Z.to_nat Len) in
    let! m := lift (open_packet t cp zbs) in
    let! bs := gets snd in
    ret (m, bs).

Definition ReadMessageData : ST TCPPeer (M * bytes) := fun p =>
  let '(r, (p', _)) := read_packet (length (concat (conn_in p)) + 1) (p, []) in (r, p').

Definition SendRaw (bs : bytes) : ST TCPPeer unit := conn_Write bs.
Definition Send (m : M) : ST TCPPeer unit := let! data := lift (MessageToPacket m) in SendRaw data.

(** *** The websocket peer: whole messages come and go *)

Record WebsocketPeer := mkWebsocketPeer {
  ws_in : list bytes;
  ws_out : list bytes;
  writeQueue : list bytes;
  ws_isClose : bool;
  ws_pingCount : Z
}.

Definition ws_SendRaw (bs : bytes) : ST WebsocketPeer unit :=
  modify (fun p => mkWebsocketPeer (ws_in p) (ws_out p) (writeQueue p ++ [bs]) (ws_isClose p) (ws_pingCount p)).
Definition ws_Send (m : M) : ST WebsocketPeer unit := let! data := lift (MessageToPacket m) in ws_SendRaw data.

(** One round of the goroutine of [NewWebsocketPeer]: a ping when its time has come,
    else the next packet of the queue.  Pings are control messages of the protocol. *)
Definition ws_round (tick : bool) : ST WebsocketPeer unit := modify (fun p =>
  if ws_isClose p then p
  else if tick then
    let n := u64 (ws_pingCount p + 1) in mkWebsocketPeer (ws_in p) (ws_out p) (writeQueue p) (3 <? n) n
  else match writeQueue p with
       | [] => p
       | wbs :: q => mkWebsocketPeer (ws_in p) (ws_out p ++ [wbs]) q (ws_isClose p) (ws_pingCount p)
       end).
(** The handler of a ping of the other side. *)
Definition ws_ping_received : ST WebsocketPeer unit :=
  modify (fun p => mkWebsocketPeer (ws_in p) (ws_out p) (writeQueue p) (ws_isClose p) 0).

Definition ws_parse (rb : bytes) : res (M * bytes) :=
  if (length rb <? 7)%nat then Err ErrInvalidLength
  else
    let? t := BytesToUint16 rb in
    let? Len := BytesToUint32 (drop 3 rb) in
    if Len =? 0 then Err ErrUnknownMessage
    else if negb (Z.of_nat (length rb) =? 7 + Len) then Err ErrInvalidLength
    else
      let? m := open_packet t (default 0 (rb !! 2%nat)) (drop 7 rb) in
      Ok (m, rb).
Definition ws_ReadMessageData : ST WebsocketPeer (M * bytes) := fun p =>
  if ws_isClose p then (Err net_ErrClosed, p)
  else match ws_in p with
       | [] => (Err io_EOF, p)
       | rb :: l => (ws_parse rb, mkWebsocketPeer l (ws_out p) (writeQueue p) (ws_isClose p) (ws_pingCount p))
       end.
End Messages.

(** ** How a stream is read *)

(** The bytes that are still to come, in whatever pieces. *)
Definition arriving (p : TCPPeer) (bs : bytes) : Prop :=
  isClose p = false /\ Forall (fun c => c <> []) (conn_in p) /\ concat (conn_in p) = bs.

Lemma conn_Read_spec p n bs : arriving p bs -> bs <> [] -> (0 < n)%nat ->
  exists got ch, conn_Read n p = (Ok got, set_in ch p) /\ got <> [] /\ (length got <= n)%nat /\
    exists bs', bs = got ++ bs' /\ arriving (set_in ch p) bs'.
Proof.
  intros (Hc & Hne & <-) Hbs Hn. unfold conn_Read. rewrite Hc. destruct (conn_in p) as [|c ch]; [done|].
  apply Forall_cons in Hne as [Hc0 Hne]. destruct (Nat.leb_spec (length c) n).
  - exists c, ch. split_and!; [done..|]. by exists (concat ch).
  - exists (take n c), (drop n c :: ch). split_and!; [done| | |].
    + destruct c; [done|]. by destruct n; [lia|].
    + rewrite length_take. lia.
    + exists (drop n c ++ concat ch). rewrite app_assoc, take_drop. split; [done|]. unfold arriving. cbn. split_and!; [done| |done].
      constructor; [|done]. intros E. apply (f_equal length) in E. rewrite length_drop in E. cbn in E. lia.
Qed.

Lemma fill_loop_spec bs1 : forall fuel n acc p buf bs2, (length bs1 < fuel)%nat -> n = (length acc + length bs1)%nat ->
  arriving p (bs1 ++ bs2) ->
  exists ch, fill_loop copy_Read fuel n acc (p, buf) = (Ok (acc ++ bs1), (set_in ch p, buf ++ bs1)) /\ arriving (set_in ch p) bs2.
Proof.
  induction bs1 as [bs1 IH] using (induction_ltof1 _ (@length Z)). unfold ltof in IH. intros fuel n acc p buf bs2 Hf -> Ha.
  destruct fuel as [|fuel]; [lia|]. cbn [fill_loop]. destruct (Nat.ltb_spec (length acc) (length acc + length bs1)).
  - destruct (conn_Read_spec p (length bs1) _ Ha) as (got & ch & E & Hg & Hl & bs' & Ebs & Ha'); [destruct bs1; [cbn in *; lia|done]|lia|].
    assert (Hb : exists r, bs1 = got ++ r /\ bs' = r ++ bs2).
    { exists (drop (length got) bs1). assert (E1 : take (length got) (bs1 ++ bs2) = got) by (rewrite Ebs; apply take_app_length).
      rewrite take_app_le in E1 by lia. split; [by rewrite <- E1 at 1; rewrite take_drop|].
      assert (E2 : drop (length got) (bs1 ++ bs2) = bs') by (rewrite Ebs; apply drop_app_length). by rewrite drop_app_le in E2 by lia. }
    destruct Hb as (r & -> & ->). rewrite length_app in *. unfold bind. replace (length acc + (length got + length r) - length acc)%nat with (length got + length r)%nat by lia.
    unfold copy_Read at 1. rewrite E. rewrite !length_app. assert (0 < length got)%nat by (destruct got; [done|cbn; lia]).
    destruct (Nat.leb_spec (length acc + (length got + length r)) (length acc + length got)).
    + destruct r; [|cbn in *; lia]. rewrite app_nil_r. by exists ch.
    + destruct (Nat.eqb_spec (length got) 0); [lia|].
      destruct (IH r ltac:(lia) fuel (length acc + (length got + length r))%nat (acc ++ got) (set_in ch p) (buf ++ got) bs2) as (ch' & E' & Ha2); [lia|rewrite length_app; lia|done|].
      exists ch'. rewrite E'. by rewrite <- !app_assoc.
  - destruct bs1; [|cbn in *; lia]. rewrite !app_nil_r. exists (conn_in p). destruct p; cbn. split; [done|]. exact Ha.
Qed.

(** [FillBytes] gives the next bytes of the stream, however they arrive. *)
Lemma FillBytes_spec n p buf bs1 bs2 : length bs1 = n -> arriving p (bs1 ++ bs2) ->
  exists ch, FillBytes copy_Read n (p, buf) = (Ok bs1, (set_in ch p, buf ++ bs1)) /\ arriving (set_in ch p) bs2.
Proof.
  intros Hn Ha. destruct (fill_loop_spec bs1 (n + 1) n [] p buf bs2) as (ch & E & Ha'); [lia|done|done|]. exists ch. split; [|done].
  unfold FillBytes, bind. rewrite E. cbn [app]. by rewrite Hn, Nat.eqb_refl.
Qed.

Lemma le_value_of_bytes n v : 0 <= v < 256 ^ Z.of_nat n -> le_value (le_bytes n v) = v.
Proof. intros Hv. by rewrite le_value_le_bytes, Z.mod_small. Qed.

(** A number of [n] bytes, read by one of the functions above. *)
Lemma Read_number n (c v : Z) p buf bs2 : 0 <= v < 256 ^ Z.of_nat n -> arriving p (le_bytes n v ++ bs2) ->
  exists ch, bind (FillBytes copy_Read n) (fun b => ret (le_value b, c)) (p, buf) = (Ok (v, c), (set_in ch p, buf ++ le_bytes n v)) /\ arriving (set_in ch p) bs2.
Proof.
  intros Hv Ha. destruct (FillBytes_spec n p buf _ _ (length_le_bytes n v) Ha) as (ch & E & Ha'). exists ch. split; [|done].
  unfold bind. rewrite E. cbn. by rewrite le_value_of_bytes.
Qed.

(** A tick, or a message that is read, leaves these parts of a peer as they are. *)
Definition fed (ch : list bytes) (p : TCPPeer) : TCPPeer := set_pings 0 (set_in ch p).

Section Roundtrip.
Context `{SH : Sha256} `{GZ : Gzip} {M : Type} `{TV : !TypedValue M} (fc : Factory) (Hfc : factory_wf fc).
(** The number of [PingMessage]. *)
Context (ping : Z) (Hping : 0 <= ping < 2 ^ 16).

(** A message of a registered type, other than the ping, whose packet [pk] has a body
    and is below the limit of four bytes. *)
Record sendable (m : M) (pk : bytes) : Prop := mk_sendable {
  sd_type : exists t, 0 <= t < 2 ^ 16 /\ t <> ping /\ Create fc t = Ok (Ptr (strip_ptr (value_type m)));
  sd_codable : codable_value m;
  sd_packet : MessageToPacket fc m = Ok pk;
  sd_length : 7 < Z.of_nat (length pk) < 7 + 2 ^ 32
}.

Lemma packet_shape m pk : sendable m pk -> exists t cp body, 0 <= t < 2 ^ 16 /\ t <> ping /\ 0 <= cp < 2 /\
  0 < Z.of_nat (length body) < 2 ^ 32 /\ open_packet fc t cp body = Ok m /\
  pk = le_bytes 2 t ++ le_bytes 1 cp ++ le_bytes 4 (Z.of_nat (length body)) ++ body.
Proof.
  intros [(t & Ht & Hnp & HC) Hcod HP Hl]. assert (HT : TypeOf fc (value_type m) = Ok t).
  { apply (TypeOf_Create fc t _ Hfc) in HC. revert HC. unfold TypeOf. by rewrite <- (typeNameOf_strip (value_type m)). }
  unfold MessageToPacket, MessageToBytes in HP. rewrite HT in HP. cbn [res_bind] in HP. destruct (encode_value m) as [enc| |] eqn:Ee; [|done..].
  cbn [res_bind] in HP. unfold BytesToPacket in HP. rewrite length_app in HP. change (length (Uint16ToBytes t)) with 2%nat in HP.
  destruct (Nat.ltb_spec (2 + length enc) 2); [lia|]. rewrite (take_app_length' (Uint16ToBytes t)), (drop_app_length' (Uint16ToBytes t)) in HP by done.
  set (doComp := (1000 <? 2 + length enc)%nat) in *. set (body := if doComp then gzip_Write enc else enc) in *.
  assert (Hpk : Uint16ToBytes t ++ [if doComp then 1 else 0] ++ le_bytes 4 (u32 (Z.of_nat (length body))) ++ body = pk) by congruence.
  assert (Hb : 0 < Z.of_nat (length body) < 2 ^ 32) by (rewrite <- Hpk in Hl; change (length (_ ++ _)) with (7 + length body)%nat in Hl; lia).
  exists t, (if doComp then 1 else 0), body. clear HP. subst pk.
  split; [done|]. split; [done|]. split; [by destruct doComp|]. split; [done|]. split.
  - unfold open_packet. pose proof (decode_value_encode m enc [] Hcod Ee) as HD. rewrite app_nil_r in HD.
    unfold body. destruct doComp; cbn [Z.eqb Pos.eqb]; rewrite ?gzip_roundtrip; cbn [res_bind]; rewrite HC; cbn [res_bind]; by rewrite HD.
  - unfold u32. rewrite Z.mod_small by lia. by destruct doComp.
Qed.

Lemma skip_pings_spec k : forall fuel p buf t rest, (k < fuel)%nat -> pingType p = ping -> 0 <= t < 2 ^ 16 -> t <> ping ->
  arriving p (concat (replicate k (Uint16ToBytes ping)) ++ le_bytes 2 t ++ rest) ->
  exists ch, skip_pings fuel (p, buf) = (Ok t, (fed ch p, (if (k =? 0)%nat then buf else []) ++ le_bytes 2 t)) /\ arriving (fed ch p) rest.
Proof.
  induction k as [|k IH]; intros fuel p buf t rest Hf Hp Ht Htp Ha; (destruct fuel as [|fuel]; [lia|]); cbn [skip_pings]; unfold ReadUint16, bind at 1.
  - destruct (Read_number 2 2 t p buf rest ltac:(done) Ha) as (ch & E & Ha'). rewrite E. exists ch. cbn. rewrite Hp.
    rewrite (proj2 (Z.eqb_neq _ _) Htp). done.
  - cbn [replicate concat] in Ha. rewrite <- app_assoc in Ha. destruct (Read_number 2 2 ping p buf _ ltac:(done) Ha) as (ch & E & Ha'). rewrite E. cbn. rewrite Hp, Z.eqb_refl. cbn.
    destruct (IH fuel (fed ch p) [] t rest) as (ch' & E' & Ha2); [lia|done..|]. exists ch'. unfold fed in E'. cbn in E'. unfold set_pings, set_in in *. cbn in *. rewrite E'. by destruct k.
Qed.

(** One message after any number of pings, with any fragmentation. *)
Lemma read_one k p m pk rest : sendable m pk -> pingType p = ping ->
  arriving p (concat (replicate k (Uint16ToBytes ping)) ++ pk ++ rest) ->
  exists ch, ReadMessageData fc p = (Ok (m, pk), fed ch p) /\ arriving (fed ch p) rest.
Proof.
  intros Hs Hp Ha. destruct (packet_shape m pk Hs) as (t & cp & body & Ht & Htp & Hcp & Hb & Ho & ->).
  unfold ReadMessageData, read_packet. set (fuel := (length (concat (conn_in p)) + 1)%nat).
  assert (Hf : (k < fuel)%nat).
  { unfold fuel. destruct Ha as (_ & _ & ->). rewrite length_app. assert (Hk : length (concat (replicate k (Uint16ToBytes ping))) = (2 * k)%nat).
    { clear. induction k; [done|]. cbn [replicate concat]. rewrite length_app, IHk. change (length (Uint16ToBytes ping)) with 2%nat. lia. } lia. }
  rewrite <- !app_assoc in Ha. destruct (skip_pings_spec k fuel p [] t _ Hf Hp Ht Htp Ha) as (ch1 & E1 & Ha1). unfold bind at 1. rewrite E1.
  replace (if (k =? 0)%nat then [] else []) with (@nil Z) by (by destruct k). cbn [app].
  destruct (Read_number 1 1 cp _ (le_bytes 2 t) _ ltac:(change (256 ^ Z.of_nat 1) with 256; lia) Ha1) as (ch2 & E2 & Ha2). unfold ReadUint8, bind at 1. rewrite E2.
  destruct (Read_number 4 4 (Z.of_nat (length body)) _ (le_bytes 2 t ++ le_bytes 1 cp) _ ltac:(change (256 ^ Z.of_nat 4) with (2 ^ 32); lia) Ha2) as (ch3 & E3 & Ha3). unfold ReadUint32, bind at 1. rewrite E3.
  destruct (Z.eqb_spec (Z.of_nat (length body)) 0); [lia|]. rewrite Nat2Z.id.
  destruct (FillBytes_spec (length body) _ ((le_bytes 2 t ++ le_bytes 1 cp) ++ le_bytes 4 (Z.of_nat (length body))) body _ eq_refl Ha3) as (ch4 & E4 & Ha4). unfold bind at 1. rewrite E4.
  unfold bind at 1. unfold lift. rewrite Ho. cbn [bind gets ret snd]. exists ch4. split; [|exact Ha4]. unfold bind. cbn [gets ret snd]. by rewrite <- !app_assoc.
Qed.
(** ** What is sent is what is read *)

Inductive wire_event := Tick | Message (m : M).
(** The sender: ticks of its goroutine and calls of [Send]. *)
Definition do_events (l : list wire_event) : ST TCPPeer unit :=
  for_each l (fun e => match e with Tick => ping_tick | Message m => Send fc m end).
Definition messages (l : list wire_event) : list M := omap (fun e => match e with Tick => None | Message m => Some m end) l.
(** The loop of [handleConnection]. *)
Fixpoint read_messages (n : nat) : ST TCPPeer (list (M * bytes)) :=
  match n with
  | O => ret []
  | S n => let! x := ReadMessageData fc in let! l := read_messages n in ret (x :: l)
  end.

Definition pings (k : nat) : bytes := concat (replicate k (Uint16ToBytes ping)).
Lemma pings_S k : pings k ++ Uint16ToBytes ping = pings (S k).
Proof. unfold pings. rewrite replicate_S_end, concat_app. cbn [concat]. by rewrite app_nil_r. Qed.

(** The bytes that a run of the sender writes. *)
Inductive wired : list wire_event -> bytes -> Prop :=
  | wired_nil : wired [] []
  | wired_tick l w : wired l w -> wired (Tick :: l) (Uint16ToBytes ping ++ w)
  | wired_message m pk l w : MessageToPacket fc m = Ok pk -> wired l w -> wired (Message m :: l) (pk ++ w).

Lemma tick_open p : isClose p = false -> exists n c, ping_tick p = (Ok tt, set_closed c (set_pings n (set_out (conn_out p ++ Uint16ToBytes (pingType p)) p))).
Proof.
  intros Hc. unfold ping_tick, bind, attempt, conn_Write, Close. cbn. rewrite Hc. cbn. rewrite Hc. cbn. unfold gets, modify, ret.
  case_match; cbn; [by eexists _, true|eexists _, false]. unfold set_closed, set_pings, set_out. cbn. by rewrite Hc.
Qed.

Lemma events_wired l : forall p p', pingType p = ping -> do_events l p = (Ok tt, p') -> isClose p' = false ->
  isClose p = false /\ exists w, wired l w /\ conn_out p' = conn_out p ++ w.
Proof.
  induction l as [|e l IH]; intros p p' Hp E Hc; cbn in E.
  { inv E. split; [done|]. exists []. split; [constructor|by rewrite app_nil_r]. }
  destruct (isClose p) eqn:Hcp.
  - exfalso. destruct e as [|m].
    + apply bind_ok_inv in E as ([] & p1 & E1 & E2). unfold ping_tick, bind in E1. cbn in E1. rewrite Hcp in E1. inv E1. by destruct (IH _ _ Hp E2 Hc) as [? _]; congruence.
    + apply bind_ok_inv in E as ([] & p1 & E1 & E2). unfold Send in E1. apply bind_ok_inv in E1 as (d & p2 & Ed & E1). unfold lift in Ed. inv Ed. unfold SendRaw, conn_Write in E1. by rewrite Hcp in E1.
  - split; [done|]. destruct e as [|m]; apply bind_ok_inv in E as ([] & p1 & E1 & E2).
    + destruct (tick_open p Hcp) as (n & c & Et). rewrite Et in E1. inv E1. destruct (IH (set_closed c (set_pings n (set_out (conn_out p ++ Uint16ToBytes (pingType p)) p))) _ Hp E2 Hc) as (_ & w & Hw & Eo). exists (Uint16ToBytes ping ++ w).
      split; [by constructor|]. cbn in Eo. rewrite Eo, ?Hp. by rewrite <- app_assoc.
    + unfold Send in E1. apply bind_ok_inv in E1 as (pk & p2 & Ed & E1). unfold lift in Ed. injection Ed as Ed <-. unfold SendRaw, conn_Write in E1. rewrite Hcp in E1. inv E1.
      destruct (IH (set_out (conn_out p ++ pk) p) _ Hp E2 Hc) as (_ & w & Hw & Eo). exists (pk ++ w). split; [by constructor|]. cbn in Eo. rewrite Eo, ?Hp. by rewrite <- app_assoc.
Qed.

Lemma wired_read l w : wired l w -> Forall (fun m => exists pk, sendable m pk) (messages l) ->
  forall k q, pingType q = ping -> arriving q (pings k ++ w) ->
  exists out q' k', read_messages (length (messages l)) q = (Ok out, q') /\ out.*1 = messages l /\
    Forall (fun '(m, pk) => MessageToPacket fc m = Ok pk) out /\ arriving q' (pings k').
Proof.
  induction 1 as [|l w _ IH|m pk l w HP _ IH]; intros Hs k q Hq Ha.
  - exists [], q, k. cbn. rewrite app_nil_r in Ha. by split_and!.
  - rewrite app_assoc, pings_S in Ha. by apply (IH Hs (S k) q).
  - cbn in Hs. apply Forall_cons in Hs as [[pk' Hm] Hs]. pose proof (sd_packet _ _ Hm) as HP'. rewrite HP in HP'. injection HP' as <-.
    destruct (read_one k q m pk w Hm Hq Ha) as (ch & E & Ha1).
    destruct (IH Hs 0%nat (fed ch q) Hq Ha1) as (out & q' & k' & E' & Eo & Hout & Ha2). exists ((m, pk) :: out), q', k'.
    change (messages (Message m :: l)) with (m :: messages l). cbn [length read_messages]. unfold bind. rewrite E, E'. cbn. rewrite Eo. split_and!; [done..|by constructor|done].
Qed.

(** C12. What a peer sends is what the other one reads: for every run of a sender that
    is not closed, made of messages and of the pings of its goroutine in any order,
    and for every way in which the network cuts the bytes into pieces, reading as
    many messages as were sent gives exactly those messages in their order, each with
    the packet it was sent in, and leaves only pings unread. *)
Theorem messages_arrive (l : list wire_event) (p p' q : TCPPeer) :
  pingType p = ping -> pingType q = ping -> conn_out p = [] ->
  do_events l p = (Ok tt, p') -> isClose p' = false ->
  Forall (fun m => exists pk, sendable m pk) (messages l) ->
  arriving q (conn_out p') ->
  exists out q' k, read_messages (length (messages l)) q = (Ok out, q') /\ out.*1 = messages l /\
    Forall (fun '(m, pk) => MessageToPacket fc m = Ok pk) out /\ arriving q' (pings k).
Proof.
  intros Hp Hq Ho E Hc Hs Ha. destruct (events_wired l p p' Hp E Hc) as (_ & w & Hw & Ew). rewrite Ew, Ho in Ha.
  by apply (wired_read l w Hw Hs 0%nat q).
Qed.

(** A websocket peer reads a packet that came as one message. *)
Lemma websocket_reads_packets m pk : sendable m pk -> ws_parse fc pk = Ok (m, pk).
Proof.
  intros Hs. destruct (packet_shape m pk Hs) as (t & cp & body & Ht & Htp & Hcp & Hb & Ho & ->). unfold ws_parse.
  assert (Hl : length (le_bytes 2 t ++ le_bytes 1 cp ++ le_bytes 4 (Z.of_nat (length body)) ++ body) = (7 + length body)%nat) by done. rewrite Hl.
  destruct (Nat.ltb_spec (7 + length body) 7); [lia|]. unfold BytesToUint16, read_le. rewrite Hl. destruct (Nat.ltb_spec (7 + length body) 2); [lia|].
  rewrite (take_app_length' (le_bytes 2 t)) by done. rewrite le_value_of_bytes by done. cbn [res_bind].
  change (drop 3 (le_bytes 2 t ++ le_bytes 1 cp ++ ?r)) with r. change (Z.of_nat 4) with 4. unfold BytesToUint32, read_le. rewrite length_app, length_le_bytes.
  destruct (Nat.ltb_spec (4 + length body) 4); [lia|]. rewrite (take_app_length' (le_bytes 4 _)) by (by rewrite length_le_bytes). rewrite le_value_of_bytes by (change (256 ^ Z.of_nat 4) with (2 ^ 32); lia). cbn [res_bind].
  destruct (Z.eqb_spec (Z.of_nat (length body)) 0); [lia|]. destruct (Z.eqb_spec (Z.of_nat (7 + length body)) (7 + Z.of_nat (length body))); [|lia]. cbn [negb].
  change (drop 7 (le_bytes 2 t ++ le_bytes 1 cp ++ le_bytes 4 (Z.of_nat (length body)) ++ body)) with body.
  replace (default 0 ((le_bytes 2 t ++ le_bytes 1 cp ++ le_bytes 4 (Z.of_nat (length body)) ++ body) !! 2%nat)) with cp; [by rewrite Ho|].
  cbn. rewrite Z.mod_small; lia.
Qed.
End Roundtrip.

(** Two names that were both given a number have different ones, and each number
    gives its name back: a collision stops the program instead. *)
Lemma hashed_types_are_distinct `{SH : Sha256} Name t g g' : Name <> [] -> DefineHashedType Name g = (Ok t, g') ->
  NameOfHashedType t g' = Name /\ (forall t' n, g !! t' = Some n -> NameOfHashedType t' g' = n).
Proof.
  intros Hn E. unfold DefineHashedType in E. apply bind_ok_inv in E as (t0 & g0 & Et & E). unfold lift in Et. injection Et as Et <-.
  unfold bind in E. cbn in E. unfold NameOfHashedType. case_bool_decide as Hd.
  - inv E. split; [done|]. by intros t' n ->.
  - destruct (g !! t0) eqn:Eg; [done|]. cbn in E. inv E. rewrite lookup_insert_eq. split; [done|]. intros t' n Hn'. rewrite lookup_insert_ne by congruence. by rewrite Hn'.
Qed.

(** A peer from which nothing is read is closed by its fourth ping. *)
Lemma silent_peer_is_closed p : isClose p = false -> pingCount p = 0 -> isClose (for_each (replicate 4 tt) (fun _ => ping_tick) p).2 = true.
Proof. intros Hc Hn. destruct p as [? ? ? ? ? c ? n ?]. cbn in Hc, Hn. subst. done. Qed.

(** ** Two messages that arrive byte by byte *)

(** [RequestMessage], with its height in four bytes. *)
#[local, refine] Instance ex_requests : TypedValue Z := {|
  value_type _ := Ptr (Named (str "service/p2p") (str "RequestMessage"));
  encode_value h := Ok (le_bytes 4 h);
  decode_value _ bs := if (length bs <? 4)%nat then Err io_EOF else Ok (le_value (take 4 bs), drop 4 bs);
  codable_value h := 0 <= h < 2 ^ 32
|}.
Proof.
  intros h bs rest Hh E. assert (bs = le_bytes 4 h) as -> by congruence. destruct (Nat.ltb_spec (length (le_bytes 4 h ++ rest)) 4) as [Hl|]; [rewrite length_app, length_le_bytes in Hl; lia|].
  rewrite (take_app_length' (le_bytes 4 h)), (drop_app_length' (le_bytes 4 h)) by (by rewrite length_le_bytes). by rewrite le_value_of_bytes.
Defined.
Definition ex_factory : Factory := (Register_type 2 NewFactory 1 (value_type 0)).1.
Definition ex_sender : TCPPeer := NewTCPPeer [] [1] [] 0 77.
Definition ex_run : list wire_event := [Tick; Message 5; Message 300; Tick].
Definition ex_receiver : TCPPeer := NewTCPPeer ((fun b => [b]) <$> conn_out (do_events ex_factory ex_run ex_sender).2) [2] [] 0 77.

Lemma ex_factory_wf : factory_wf ex_factory.
Proof. apply registered_wf. repeat constructor. Qed.
Lemma ex_sendable h : 0 <= h < 2 ^ 32 -> exists pk, sendable ex_factory 77 h pk.
Proof.
  intros Hh. eexists. split; [|done|vm_compute; reflexivity|cbn [length]; lia]. exists 513. split; [done|]. split; [done|]. vm_compute. reflexivity.
Qed.
Lemma messages_arrive_witness :
  exists out q' k, read_messages ex_factory 2 ex_receiver = (Ok out, q') /\ out.*1 = [5; 300] /\
    Forall (fun '(m, pk) => MessageToPacket ex_factory m = Ok pk) out /\ arriving q' (pings 77 k).
Proof.
  apply (messages_arrive ex_factory ex_factory_wf 77 ltac:(lia) ex_run ex_sender (do_events ex_factory ex_run ex_sender).2 ex_receiver).
  - done.
  - done.
  - done.
  - vm_compute. reflexivity.
  - vm_compute. reflexivity.
  - repeat constructor; apply ex_sendable; lia.
  - split; [done|]. split; [by repeat constructor|]. vm_compute. reflexivity.
Defined.
