(* ===== verification/NodeMesh.v ===== *)
(** * The mesh of nodes

    [service/p2p/node_mesh.go]: the table of the peers a node is connected to, as a
    client and as a server, to whom a message goes, and the handshake in which a node
    proves who it is.  A peer is a connection; the sockets stay outside. *)

From stdpp Require Import base gmap list sorting strings.
From Stdlib Require Import ZArith Lia.
From S2P Require Import Prelude Common Types Context Chain Observer FormulatorNode.

Definition ErrNotExistPeer : error := mkError "p2p" "not exist peer".

(** A connection: the node at its other end, its number and when it was made. *)
Record Peer := mkPeer { peer_ID : bytes; peer_conn : Z; ConnectedTime : Z }.

Section Mesh.
Context {M : Type}.
(** Whether a write to the connection succeeds. *)
Context (writable : Peer -> bool).

(** The tables have every peer at its own ID. *)
Record NodeMesh := mkNodeMesh {
  clientPeerMap : gmap bytes Peer;
  serverPeerMap : gmap bytes Peer;
  mesh_closed : list Peer;                              (** the connections that were closed *)
  mesh_sent : list (Peer * M)                (** what was written *)
}.
Definition meshM (A : Type) : Type := ST NodeMesh A.
Definition NewNodeMesh : NodeMesh := mkNodeMesh ∅ ∅ [] [].

Definition close_peer (p : Peer) : meshM unit :=
  modify (fun ms => mkNodeMesh (clientPeerMap ms) (serverPeerMap ms) (mesh_closed ms ++ [p]) (mesh_sent ms)).
Definition write_to (p : Peer) (m : M) : meshM unit :=
  modify (fun ms => mkNodeMesh (clientPeerMap ms) (serverPeerMap ms) (mesh_closed ms) (mesh_sent ms ++ [(p, m)])).
Definition close_if (o : option Peer) : meshM unit := match o with Some p => close_peer p | None => ret tt end.

(** One entry per ID; a connection as a server hides the one as a client. *)
Definition peerMap (ms : NodeMesh) : gmap bytes Peer := serverPeerMap ms ∪ clientPeerMap ms.
Definition Peers (ms : NodeMesh) : list Peer := (map_to_list (peerMap ms)).*2.

Definition RemovePeer (ID : bytes) : meshM unit :=
  let! pc := gets (fun ms => clientPeerMap ms !! ID) in
  let! ps := gets (fun ms => serverPeerMap ms !! ID) in
  modify (fun ms => mkNodeMesh (delete ID (clientPeerMap ms)) (delete ID (serverPeerMap ms)) (mesh_closed ms) (mesh_sent ms)) ;;;
  close_if pc ;;;
  close_if ps.

(** The map that is passed is not used: it is always the table of the clients. *)
Definition removePeerInMap (ID : bytes) (peerMap : gmap bytes Peer) : meshM unit :=
  let! p := gets (fun ms => clientPeerMap ms !! ID) in
  modify (fun ms => mkNodeMesh (delete ID (clientPeerMap ms)) (serverPeerMap ms) (mesh_closed ms) (mesh_sent ms)) ;;;
  close_if p.

Definition GetPeer (ID : bytes) (ms : NodeMesh) : option Peer :=
  match clientPeerMap ms !! ID with Some p => Some p | None => serverPeerMap ms !! ID end.

(** [SendTo] and [SendRawTo]: a failed write removes the peer and is no error. *)
Definition SendTo (pubhash : PublicHash) (m : M) : meshM unit :=
  let! o := gets (GetPeer pubhash) in
  match o with
  | None => fail ErrNotExistPeer
  | Some p => if writable p then write_to p m else RemovePeer (peer_ID p)
  end.

(** The peers of a limited cast, out of the sorted IDs: the first, the last and
    those at equal steps in between. *)
Definition cast_indices (n Limit : nat) : list nat :=
  let unit := (n / (Limit - 1))%nat in
  0%nat :: ((fun i => unit * (i + 1))%nat <$> seq 0 (Limit - 2)) ++ [(n - 1)%nat].
Definition cast_targets (Limit : nat) (ids : list bytes) : res (gset bytes) :=
  if (Limit <=? length ids)%nat then
    if (Limit - 1 =? 0)%nat then Panic "integer divide by zero"
    else match mapM (fun i => ids !! i) (cast_indices (length ids) Limit) with
         | Some l => Ok (list_to_set l)
         | None => Panic "index out of range"
         end
  else Ok (list_to_set ids).

(** A write to each peer of the map whose ID is in the set; failures are ignored. *)
Definition write_each (pm : gmap bytes Peer) (T : gset bytes) (m : M) : meshM unit :=
  for_each (map_to_list pm) (fun kv => if bool_decide (kv.1 ∈ T) then write_to kv.2 m else ret tt).

Definition ExceptCastLimit (ID : bytes) (m : M) (Limit : nat) : meshM unit :=
  let! pm := gets (fun ms => delete ID (peerMap ms)) in
  let! T := lift (cast_targets Limit (sorted_byte_keys pm)) in
  write_each pm T m.

Definition BroadcastMessage (m : M) : meshM unit :=
  let! pm := gets peerMap in
  for_each (map_to_list pm) (fun kv => write_to kv.2 m).

(** ** Connections *)

(** The part of [client] after the handshakes, and its end. *)
Definition client_connected (p : Peer) : meshM unit :=
  let! old := gets (fun ms => clientPeerMap ms !! peer_ID p) in
  modify (fun ms => mkNodeMesh (<[peer_ID p := p]> (clientPeerMap ms)) (serverPeerMap ms) (mesh_closed ms) (mesh_sent ms)) ;;;
  let! pm := gets clientPeerMap in
  match old with Some old => removePeerInMap (peer_ID old) pm | None => ret tt end.
Definition client_gone (p : Peer) : meshM unit := let! pm := gets clientPeerMap in removePeerInMap (peer_ID p) pm.

(** The same part of [server]. *)
Definition server_connected (p : Peer) : meshM unit :=
  let! old := gets (fun ms => serverPeerMap ms !! peer_ID p) in
  modify (fun ms => mkNodeMesh (clientPeerMap ms) (<[peer_ID p := p]> (serverPeerMap ms)) (mesh_closed ms) (mesh_sent ms)) ;;;
  let! pm := gets serverPeerMap in
  match old with Some old => removePeerInMap (peer_ID old) pm | None => ret tt end.
Definition server_gone (p : Peer) : meshM unit := let! pm := gets serverPeerMap in removePeerInMap (peer_ID p) pm.

(** ** Limited casts *)

Lemma mapM_lookup (ids : list bytes) js : Forall (fun i => i < length ids)%nat js -> exists l, mapM (fun i => ids !! i) js = Some l.
Proof.
  induction 1 as [|i js Hi _ [l IH]]; [by exists []|]. apply lookup_lt_is_Some in Hi as [x Hx]. exists (x :: l). cbn. by rewrite Hx, IH.
Qed.
Lemma mapM_lookup_nodup (ids : list bytes) js l : NoDup ids -> NoDup js -> mapM (fun i => ids !! i) js = Some l -> NoDup l /\ length l = length js /\ (forall x, x ∈ l -> x ∈ ids).
Proof.
  intros Hids Hnd E. apply mapM_Some in E. split_and!.
  - revert l E. induction Hnd as [|i js Hi _ IH]; intros l E; [by inv E; constructor|]. inv E. constructor; [|by apply IH].
    intros Hin. apply list_elem_of_lookup in Hin as [k Hk]. match goal with H : Forall2 _ js _ |- _ => destruct (Forall2_lookup_r _ _ _ _ _ H Hk) as (j & Hj & Hij) end.
    apply Hi. replace i with j; [by eapply list_elem_of_lookup_2|]. by eapply NoDup_lookup.
  - by symmetry; eapply Forall2_length.
  - intros x Hx. apply list_elem_of_lookup in Hx as [k Hk]. destruct (Forall2_lookup_r _ _ _ _ _ E Hk) as (j & _ & Hij). by eapply list_elem_of_lookup_2.
Qed.

Lemma unit_bounds n Limit i : (2 <= Limit <= n)%nat -> (i < Limit - 2)%nat ->
  (0 < n / (Limit - 1) * (i + 1) < n - 1)%nat.
Proof.
  intros HL Hi. pose proof (Nat.Div0.mul_div_le n (Limit - 1)) as Hle. assert (Hpos : (1 <= n / (Limit - 1))%nat) by (apply Nat.div_le_lower_bound; lia).
  split; [nia|]. assert (Hs : (n / (Limit - 1) * (i + 1) <= n / (Limit - 1) * (Limit - 2))%nat) by nia.
  destruct (decide (n / (Limit - 1) = 1)%nat) as [E|]; [rewrite E in *; lia|]. nia.
Qed.
Lemma cast_indices_ok n Limit : (2 <= Limit <= n)%nat ->
  NoDup (cast_indices n Limit) /\ Forall (fun i => i < n)%nat (cast_indices n Limit) /\ length (cast_indices n Limit) = Limit.
Proof.
  intros HL. unfold cast_indices. set (f := fun i => (n / (Limit - 1) * (i + 1))%nat).
  assert (Hf : forall x, x ∈ f <$> seq 0 (Limit - 2) -> (0 < x < n - 1)%nat).
  { intros x (i & -> & Hi)%list_elem_of_fmap. apply elem_of_seq in Hi. apply unit_bounds; [done|lia]. }
  split_and!.
  - constructor; [intros [Hx%Hf|Hx%list_elem_of_singleton]%elem_of_app; lia|]. apply NoDup_app. split_and!.
    + apply NoDup_fmap_2_strong; [|apply NoDup_seq]. intros i j Hi Hj E. apply elem_of_seq in Hi, Hj. unfold f in E.
      assert (Hpos : (1 <= n / (Limit - 1))%nat) by (apply Nat.div_le_lower_bound; lia). nia.
    + intros x Hx%Hf Hl%list_elem_of_singleton. lia.
    + apply NoDup_singleton.
  - constructor; [lia|]. apply Forall_app. split; [|constructor; [lia|constructor]]. apply Forall_forall. intros x Hx%Hf. lia.
  - cbn. rewrite length_app, length_fmap, length_seq. cbn. lia.
Qed.

Lemma cast_targets_spec Limit ids : (2 <= Limit)%nat -> NoDup ids ->
  exists T, cast_targets Limit ids = Ok T /\ (forall x, x ∈ T -> x ∈ ids) /\ size T = Nat.min Limit (length ids).
Proof.
  intros HL Hnd. unfold cast_targets. destruct (Nat.leb_spec Limit (length ids)).
  - destruct (Nat.eqb_spec (Limit - 1) 0); [lia|]. destruct (cast_indices_ok (length ids) Limit) as (H1 & H2 & H3); [lia|].
    destruct (mapM_lookup _ _ H2) as [l E]. rewrite E. destruct (mapM_lookup_nodup _ _ _ Hnd H1 E) as (Hl & Hlen & Hin).
    eexists. split; [done|]. split; [intros x Hx; apply elem_of_list_to_set in Hx; by apply Hin|]. rewrite size_list_to_set by done. lia.
  - eexists. split; [done|]. split; [intros x Hx; by apply elem_of_list_to_set in Hx|]. rewrite size_list_to_set by done. lia.
Qed.

Definition add_sent (l : list (Peer * M)) (ms : NodeMesh) : NodeMesh :=
  mkNodeMesh (clientPeerMap ms) (serverPeerMap ms) (mesh_closed ms) (mesh_sent ms ++ l).
Lemma write_list T m l ms : for_each l (fun kv : bytes * Peer => if bool_decide (kv.1 ∈ T) then write_to kv.2 m else ret tt) ms =
  (Ok tt, add_sent ((fun kv => (kv.2, m)) <$> filter (fun kv => kv.1 ∈ (T : gset bytes)) l) ms).
Proof.
  revert ms. induction l as [|[k p] l IH]; intros ms; cbn [for_each]; [by destruct ms; unfold add_sent; cbn; rewrite app_nil_r|].
  unfold bind. case_bool_decide as Hk; cbn [fst] in Hk.
  - rewrite filter_cons_True by done. cbn. rewrite IH. unfold add_sent. cbn. by rewrite <- app_assoc.
  - rewrite filter_cons_False by done. cbn. apply IH.
Qed.

(** A limited cast writes the message, once each, to exactly [Limit] of the peers,
    or to all of them when there are fewer, and never to the peer that is excepted
    (the one a transaction came from). *)
Lemma limited_cast_reaches_that_many (ID : bytes) (m : M) (Limit : nat) (ms : NodeMesh) : (2 <= Limit)%nat ->
  exists l, ExceptCastLimit ID m Limit ms = (Ok tt, add_sent ((fun kv => (kv.2, m)) <$> l) ms) /\ NoDup l /\
    (forall k p, (k, p) ∈ l -> k <> ID /\ peerMap ms !! k = Some p) /\
    length l = Nat.min Limit (size (delete ID (peerMap ms))).
Proof.
  intros HL. unfold ExceptCastLimit, write_each. cbn. set (pm := delete ID (peerMap ms)).
  destruct (cast_targets_spec Limit (sorted_byte_keys pm) HL (sorted_keys_nodup pm)) as (T & E & Hin & Hsz). unfold bind. cbn. rewrite E. cbn.
  rewrite write_list. eexists. split; [done|]. split; [apply NoDup_filter, NoDup_map_to_list|]. split.
  - intros k p [_ Hk%elem_of_map_to_list]%list_elem_of_filter. unfold pm in Hk. by apply lookup_delete_Some in Hk as [? ?].
  - rewrite <- length_fmap with (f := fst). replace (length _) with (size T).
    + rewrite Hsz. f_equal. unfold sorted_byte_keys. rewrite merge_sort_Permutation, length_fmap, length_map_to_list. done.
    + assert (Hl : (filter (fun kv => kv.1 ∈ T) (map_to_list pm)).*1 ≡ₚ elements T).
      { apply NoDup_Permutation; [|apply NoDup_elements|].
        - apply (sublist_NoDup _ (map_to_list pm).*1); [apply NoDup_fst_map_to_list|apply fmap_sublist, sublist_filter].
        - intros k. rewrite elem_of_elements, list_elem_of_fmap. split; [by intros ([k' p] & -> & [? _]%list_elem_of_filter)|].
          intros Hk. pose proof (Hin _ Hk) as Hk'. apply sorted_keys_elem in Hk' as [p Hp]. exists (k, p). split; [done|]. apply list_elem_of_filter. by rewrite elem_of_map_to_list. }
      by rewrite Hl.
Qed.

(** ** Connections that are replaced or lost *)

(** A second connection as a client to the same node is closed instead of the first. *)
Lemma reconnect_closes_the_new_connection (old p : Peer) ms : clientPeerMap ms !! peer_ID p = Some old -> peer_ID old = peer_ID p ->
  let ms' := (client_connected p ms).2 in clientPeerMap ms' !! peer_ID p = None /\ mesh_closed ms' = mesh_closed ms ++ [p].
Proof.
  intros Hold Hid. unfold client_connected, removePeerInMap. cbn. unfold bind. cbn. rewrite Hold. cbn. rewrite Hid, lookup_insert_eq. cbn. by rewrite lookup_delete_eq.
Qed.

(** A connection as a server stays in the table after its end, and the end closes
    the connection as a client to the same node. *)
Lemma lost_server_peer_stays (p : Peer) ms : serverPeerMap ms !! peer_ID p = Some p ->
  let ms' := (server_gone p ms).2 in
  serverPeerMap ms' !! peer_ID p = Some p /\ clientPeerMap ms' !! peer_ID p = None /\
  (forall c, clientPeerMap ms !! peer_ID p = Some c -> mesh_closed ms' = mesh_closed ms ++ [c]).
Proof.
  intros Hp. unfold server_gone, removePeerInMap. cbn. unfold bind. cbn. destruct (clientPeerMap ms !! peer_ID p); cbn; rewrite lookup_delete_eq; (split_and!; [done..|]); by intros ? [=->].
Qed.
End Mesh.

(** ** The handshake *)

Section Handshake.
Context `{SH : Sha256} `{EC : Ecrecover}.
Definition ErrInvalidHandshake : error := mkError "p2p" "invalid handshake".

(** What [sendHandshake] writes: the chain, random bytes and the time. *)
Definition handshake_request (chainID : Z) (random : bytes) (now : Z) : bytes := chainID :: drop 1 (copy_into 32 random) ++ le_bytes 8 (u64 now).

(** The distance of two times as [time.Duration]. *)
Definition time_distance (now timestamp : Z) : Z :=
  let diff := i64 (u64 now - timestamp) in if diff <? 0 then i64 (- diff) else diff.

(** [recvHandshake] answers a request of 40 bytes with a signature and the address. *)
Definition recvHandshake (chainID : Z) (Sign : Hash256 -> res Signature) (BindAddress : bytes) (now : Z) (req : bytes) : res bytes :=
  if negb (default 0 (head req) =? chainID) then Err ErrInvalidChainID
  else if 30 * Second <? time_distance now (le_value (drop 32 req)) then Err ErrInvalidHandshake
  else
    let? sig := Sign (Hash req) in
    Ok (sig ++ u8 (Z.of_nat (length BindAddress)) :: BindAddress).

(** [FillBytes] of [n] bytes. *)
Definition FillBytes (n : nat) (conn : bytes) : res (bytes * bytes) :=
  if (length conn <? n)%nat then Err (mkError "io" "EOF") else Ok (take n conn, drop n conn).

(** The part of [sendHandshake] that reads the answer. *)
Definition check_answer (req conn : bytes) : res (PublicHash * bytes) :=
  let? (sig, conn) := FillBytes 65 conn in
  let? pubkey := recover (Hash req) sig in
  let? (l, conn) := FillBytes 1 conn in
  let? (bindAddress, _) := FillBytes (Z.to_nat (default 0 (head l))) conn in
  Ok (NewPublicHash pubkey, bindAddress).

Lemma FillBytes_app n (s rest : bytes) : length s = n -> FillBytes n (s ++ rest) = Ok (s, rest).
Proof.
  intros <-. unfold FillBytes. destruct (Nat.ltb_spec (length (s ++ rest)) (length s)) as [Hl|]; [rewrite length_app in Hl; lia|]. by rewrite take_app_length, drop_app_length.
Qed.
Lemma time_distance_small now now' : 0 <= now < 2 ^ 63 -> 0 <= now' < 2 ^ 63 -> time_distance now (le_value (le_bytes 8 (u64 now'))) = Z.abs (now - now').
Proof.
  intros H1 H2. unfold time_distance. rewrite le_value_le_bytes. unfold u64, i64. change (256 ^ Z.of_nat 8) with (2 ^ 64). rewrite !(Z.mod_small now), !(Z.mod_small now') by lia.
  rewrite (Z.mod_small (now - now' + 2 ^ 63)) by lia. replace (now - now' + 2 ^ 63 - 2 ^ 63) with (now - now') by lia.
  destruct (Z.ltb_spec (now - now') 0); [|lia]. rewrite Z.mod_small by lia. lia.
Qed.

(** Two nodes of the same chain whose clocks differ by at most thirty seconds: the one
    that asks learns the key of the one that answers, and its address of at most 255
    bytes; with a larger difference the request is refused. *)
Lemma handshake_names_the_peer chainID Sign BindAddress random now now' pub :
  0 <= now < 2 ^ 63 -> 0 <= now' < 2 ^ 63 -> (length BindAddress <= 255)%nat ->
  (forall h, exists sig, Sign h = Ok sig /\ length sig = 65%nat /\ recover h sig = Ok pub) ->
  let req := handshake_request chainID random now' in
  if Z.abs (now - now') <=? 30 * Second then
    exists answer, recvHandshake chainID Sign BindAddress now req = Ok answer /\ check_answer req answer = Ok (NewPublicHash pub, BindAddress)
  else recvHandshake chainID Sign BindAddress now req = Err ErrInvalidHandshake.
Proof.
  intros H1 H2 Hb HS req. unfold recvHandshake. cbn [head default from_option id req handshake_request]. rewrite Z.eqb_refl. cbn [negb].
  assert (Hd : drop 32 req = le_bytes 8 (u64 now')).
  { unfold req, handshake_request. change (drop 32 (chainID :: ?l)) with (drop 31 l). apply drop_app_length'. rewrite length_drop, length_copy_into. done. }
  change (chainID :: _) with req. rewrite Hd, time_distance_small by done. destruct (Z.leb_spec (Z.abs (now - now')) (30 * Second)).
  - destruct (Z.ltb_spec (30 * Second) (Z.abs (now - now'))); [lia|]. destruct (HS (Hash req)) as (sig & -> & Hl & Hr). cbn. eexists. split; [done|].
    unfold check_answer. rewrite FillBytes_app by done. cbn [res_bind]. rewrite Hr. cbn [res_bind]. change (FillBytes 1 (?x :: BindAddress)) with (FillBytes 1 ([x] ++ BindAddress)). rewrite (FillBytes_app 1 [_] BindAddress) by done. cbn [res_bind head default from_option id].
    assert (E : Z.to_nat (u8 (Z.of_nat (length BindAddress))) = length BindAddress) by (unfold u8; rewrite Z.mod_small; lia).
    assert (Hf : FillBytes (length BindAddress) BindAddress = Ok (BindAddress, [])) by (rewrite <- (app_nil_r BindAddress) at 2; by apply FillBytes_app). by rewrite E, Hf.
  - destruct (Z.ltb_spec (30 * Second) (Z.abs (now - now'))); [done|lia].
Qed.
End Handshake.

(** ** A small mesh *)

Definition mesh_peer (n : Z) : Peer := mkPeer [n] n 0.
Definition small_mesh : NodeMesh (M := FrMessage unit) :=
  mkNodeMesh (list_to_map ((fun n => ([n], mesh_peer n)) <$> [1; 2; 3])) (list_to_map ((fun n => ([n], mesh_peer n)) <$> [3; 4; 5])) [] [].

Lemma limited_cast_reaches_that_many_witness :
  exists l, ExceptCastLimit [2] FRequestPeerList 3 small_mesh = (Ok tt, add_sent ((fun kv => (kv.2, FRequestPeerList)) <$> l) small_mesh) /\ NoDup l /\
    (forall k p, (k, p) ∈ l -> k <> [2] /\ peerMap small_mesh !! k = Some p) /\
    length l = Nat.min 3 (size (delete [2] (peerMap small_mesh))).
Proof. apply (limited_cast_reaches_that_many [2] FRequestPeerList 3 small_mesh). lia. Defined.
Lemma small_cast : peer_conn ∘ fst <$> mesh_sent (ExceptCastLimit [2] FRequestPeerList 3 small_mesh).2 ≡ₚ [1; 4; 5].
Proof. apply (bool_decide_unpack _). vm_compute. exact Logic.I. Qed.
