(* ===== verification/PofMesh.v ===== *)
(** * The meshes of observers and formulators

    [pof/observer_mesh.go] connects the observers with each other,
    [pof/formulator_mesh.go] a formulator with the observers, and
    [pof/observer_formulator_service.go] is the server of an observer that formulators
    connect to.  Each keeps tables of peers; every connection has a goroutine that
    shakes hands, enters the peer in the table, reads until an error and removes it.
    The goroutines run at the same time: the lock covers each access to a table, not
    the sequence of them, so the connections of a table are steps of a relation. *)

From stdpp Require Import base gmap list sorting strings relations.
From Stdlib Require Import ZArith Lia.
From S2P Require Import Prelude Common Factory OrderedMap Types Context Chain RankTable Consensus Pile Packet Observer FormulatorNode NodeMesh.


(** ** One table: [FormulatorNodeMesh] and [FormulatorService] *)

Section Table.
Context {M : Type} (writable : Peer -> bool) `{!RangeOrder}.

Record PeerTable := mkPeerTable {
  pt_map : gmap bytes Peer;
  pt_closed : list Peer;
  pt_sent : list (Peer * M)
}.
Definition ptM (A : Type) : Type := ST PeerTable A.
Definition NewFormulatorNodeMesh : PeerTable := mkPeerTable ∅ [] [].

Definition pt_close_if (o : option Peer) : ptM unit :=
  match o with Some p => modify (fun t => mkPeerTable (pt_map t) (pt_closed t ++ [p]) (pt_sent t)) | None => ret tt end.
Definition pt_write (p : Peer) (m : M) : ptM unit := modify (fun t => mkPeerTable (pt_map t) (pt_closed t) (pt_sent t ++ [(p, m)])).
Definition pt_insert (p : Peer) : ptM unit := modify (fun t => mkPeerTable (<[peer_ID p := p]> (pt_map t)) (pt_closed t) (pt_sent t)).

Definition pt_Peers (t : PeerTable) : list Peer := (range_of (pt_map t)).*2.

Definition pt_RemovePeer (ID : bytes) : ptM unit :=
  let! o := gets (fun t => pt_map t !! ID) in
  modify (fun t => mkPeerTable (delete ID (pt_map t)) (pt_closed t) (pt_sent t)) ;;;
  pt_close_if o.

(** A failed write removes the peer and is no error; the two components differ in
    the error for an unknown peer. *)
Definition pt_send (notExist : error) (o : option Peer) (m : M) : ptM unit :=
  match o with
  | None => fail notExist
  | Some p => if writable p then pt_write p m else pt_RemovePeer (peer_ID p)
  end.
Definition pt_SendTo (notExist : error) (ID : bytes) (m : M) : ptM unit :=
  let! o := gets (fun t => pt_map t !! ID) in pt_send notExist o m.

(** The last peer that the range visits, the given one apart. *)
Definition SendRawAnyoneExcept (ID : bytes) (m : M) : ptM unit :=
  let! o := gets (fun t => snd <$> last (filter (fun kv => kv.1 <> ID) (range_of (pt_map t)))) in
  pt_send ErrNotExistObserverPeer o m.

Definition pt_BroadcastMessage (m : M) : ptM unit :=
  let! pm := gets pt_map in for_each (range_of pm) (fun kv => pt_write kv.2 m).

(** [client] and [server] after the handshakes, when nothing comes between, and their
    end. *)
Definition pt_connected (p : Peer) : ptM unit := pt_RemovePeer (peer_ID p) ;;; pt_insert p.
Definition pt_gone (p : Peer) : ptM unit := pt_RemovePeer (peer_ID p).

(** *** The connections of a table, as they interleave *)

Inductive conn_stage := Shaken | OldRemoved | Running | Ended.
#[export] Instance peer_dec : EqDecision Peer.
Proof. solve_decision. Defined.
#[export] Instance conn_stage_dec : EqDecision conn_stage.
Proof. solve_decision. Defined.
Record MeshState := mkMeshState { ms_table : PeerTable; ms_conns : gmap Z (Peer * conn_stage) }.
Definition in_stage (s : MeshState) (p : Peer) (g : conn_stage) : Prop := ms_conns s !! peer_conn p = Some (p, g).
Definition to_stage (s : MeshState) (m : ptM unit) (p : Peer) (g : conn_stage) : MeshState :=
  mkMeshState (m (ms_table s)).2 (<[peer_conn p := (p, g)]> (ms_conns s)).

Inductive mesh_step : MeshState -> MeshState -> Prop :=
  | ms_new s p : ms_conns s !! peer_conn p = None -> mesh_step s (to_stage s (ret tt) p Shaken)
  | ms_remove s p : in_stage s p Shaken -> mesh_step s (to_stage s (pt_RemovePeer (peer_ID p)) p OldRemoved)
  | ms_insert s p : in_stage s p OldRemoved -> mesh_step s (to_stage s (pt_insert p) p Running)
  | ms_end s p : in_stage s p Running -> mesh_step s (to_stage s (pt_gone p) p Ended)
  | ms_call s ID : mesh_step s (mkMeshState (pt_RemovePeer ID (ms_table s)).2 (ms_conns s)).
Definition mesh_start : MeshState := mkMeshState NewFormulatorNodeMesh ∅.

(** Every entry is the entry of a running connection, at its ID, that was not closed. *)
Record table_ok (s : MeshState) : Prop := mk_table_ok {
  tk_entry ID p : pt_map (ms_table s) !! ID = Some p -> peer_ID p = ID /\ in_stage s p Running /\ p ∉ pt_closed (ms_table s);
  tk_closed p : p ∈ pt_closed (ms_table s) -> in_stage s p Running \/ in_stage s p Ended
}.

Lemma RemovePeer_eq ID (t : PeerTable) : (pt_RemovePeer ID t).2 =
  mkPeerTable (delete ID (pt_map t)) (pt_closed t ++ match pt_map t !! ID with Some p => [p] | None => [] end) (pt_sent t).
Proof. unfold pt_RemovePeer, pt_close_if, bind. cbn. destruct (pt_map t !! ID); cbn; [done|]. by rewrite app_nil_r. Qed.
(** The stage of another connection is kept. *)
Ltac other_conn := rewrite lookup_insert_ne; [done|]; let E := fresh "E" in intros E; rewrite E in *; congruence.

(** Removing entries keeps the invariant, whatever becomes of the other connections. *)
Lemma remove_keeps s ID conns : table_ok s ->
  (forall p, p ∈ pt_closed (ms_table s) \/ pt_map (ms_table s) !! ID = Some p -> conns !! peer_conn p = Some (p, Running) \/ conns !! peer_conn p = Some (p, Ended)) ->
  (forall ID' p, ID' <> ID -> pt_map (ms_table s) !! ID' = Some p -> conns !! peer_conn p = Some (p, Running)) ->
  table_ok (mkMeshState (pt_RemovePeer ID (ms_table s)).2 conns).
Proof.
  intros [He Hc] H1 H2. rewrite RemovePeer_eq. split; unfold in_stage; cbn.
  - intros ID' p [Hne Hp]%lookup_delete_Some. destruct (He _ _ Hp) as (Hid & _ & Hncl). split; [done|]. split; [by eapply H2|].
    intros [Hcl|Hcl]%elem_of_app; [done|]. destruct (pt_map (ms_table s) !! ID) as [p'|] eqn:Ep; [|by apply not_elem_of_nil in Hcl].
    apply list_elem_of_singleton in Hcl as ->. destruct (He _ _ Ep) as (? & _). congruence.
  - intros p [Hcl|Hcl]%elem_of_app; [by apply H1; left|]. destruct (pt_map (ms_table s) !! ID) as [p'|] eqn:Ep; [|by apply not_elem_of_nil in Hcl].
    apply list_elem_of_singleton in Hcl as ->. by apply H1; right.
Qed.

Lemma step_ok s s' : table_ok s -> mesh_step s s' -> table_ok s'.
Proof.
  intros Hok Hst. pose proof Hok as [He Hc]. unfold in_stage in *. inv Hst; unfold to_stage, in_stage in *.
  - split; unfold in_stage; cbn.
    + intros ID q Hq. destruct (He _ _ Hq) as (? & Hr & ?). split; [done|]. split; [|done]. other_conn.
    + intros q Hq. destruct (Hc _ Hq) as [Hr|Hr]; [left|right]; other_conn.
  - apply remove_keeps; [done| |].
    + intros q [Hq|Hq].
      * destruct (Hc _ Hq) as [Hr|Hr]; [left|right]; other_conn.
      * destruct (He _ _ Hq) as (? & Hr & ?). left. other_conn.
    + intros ID' q _ Hq. destruct (He _ _ Hq) as (? & Hr & ?). other_conn.
  - split; unfold in_stage; cbn.
    + intros ID q [[<- <-]|[Hne Hq]]%lookup_insert_Some.
      * rewrite lookup_insert_eq. split; [done|]. split; [done|]. intros Hcl. destruct (Hc _ Hcl); congruence.
      * destruct (He _ _ Hq) as (? & Hr & ?). split; [done|]. split; [|done]. other_conn.
    + intros q Hq. destruct (Hc _ Hq) as [Hr|Hr]; [left|right]; other_conn.
  - unfold pt_gone. apply remove_keeps; [done| |].
    + intros q Hq. destruct (decide (q = p)) as [->|Hne]; [right; by rewrite lookup_insert_eq|].
      assert (Hs : ms_conns s !! peer_conn q = Some (q, Running) \/ ms_conns s !! peer_conn q = Some (q, Ended)).
      { destruct Hq as [Hq|Hq]; [by apply Hc|]. left. by destruct (He _ _ Hq) as (_ & ? & _). }
      rewrite lookup_insert_ne; [done|]. intros E. rewrite E in *. destruct Hs; congruence.
    + intros ID' q Hne Hq. destruct (He _ _ Hq) as (Hid & Hr & _). other_conn.
  - apply remove_keeps; [done| |].
    + intros q [Hq|Hq]; [by apply Hc|]. left. by destruct (He _ _ Hq) as (_ & ? & _).
    + intros ID' q _ Hq. by destruct (He _ _ Hq) as (_ & ? & _).
Qed.

(** Under every interleaving of the goroutines of the connections and of the calls that
    remove peers, the table has a peer only at its own ID, only while the goroutine
    of its connection is running, and never after the connection was closed; when all
    connections have ended the table is empty. *)
Theorem peer_table_invariant (s : MeshState) : rtc mesh_step mesh_start s ->
  (forall ID p, pt_map (ms_table s) !! ID = Some p -> peer_ID p = ID /\ in_stage s p Running /\ p ∉ pt_closed (ms_table s)) /\
  ((forall c p g, ms_conns s !! c = Some (p, g) -> g = Ended) -> pt_map (ms_table s) = ∅).
Proof.
  intros Hr. assert (Hok : table_ok s).
  { revert Hr. apply rtc_ind_r; [|intros ? ? _ Hst IH; by eapply step_ok]. split; cbn; [by intros ? ? ?%lookup_empty_Some|by intros ? ?%not_elem_of_nil]. }
  split; [apply Hok|]. intros Hend. apply map_empty. intros ID. destruct (_ !! ID) as [p|] eqn:E; [|done].
  destruct (tk_entry s Hok _ _ E) as (_ & Hp & _). by specialize (Hend _ _ _ Hp).
Qed.

(** A peer that connects again: the end of its old connection, which the new one has
    closed, removes and closes the new one. *)
Lemma reconnect_is_cut (old p : Peer) (t : PeerTable) : pt_map t !! peer_ID p = Some old -> peer_ID old = peer_ID p ->
  let t' := ((pt_connected p ;;; pt_gone old) t).2 in pt_map t' !! peer_ID p = None /\ pt_closed t' = pt_closed t ++ [old; p].
Proof.
  intros Ho Hid. unfold pt_connected, pt_gone, pt_RemovePeer, pt_close_if, pt_insert, bind. cbn. rewrite Ho. cbn. rewrite Hid, lookup_insert_eq. cbn.
  rewrite lookup_delete_eq. split; [done|]. by rewrite <- app_assoc.
Qed.
End Table.

(** ** Two tables: [ObserverNodeMesh] *)

Section ObserverMesh.
Context {M : Type} (writable : Peer -> bool) `{!RangeOrder}.

Definition NewObserverNodeMesh : NodeMesh (M := M) := NewNodeMesh.
(** The condition under which the loop of [Run] dials an observer. *)
Definition ob_dials (ID : bytes) (ms : NodeMesh (M := M)) : bool :=
  negb (bool_decide (is_Some (clientPeerMap ms !! ID))) && negb (bool_decide (is_Some (serverPeerMap ms !! ID))).

Definition ob_Peers (ms : NodeMesh (M := M)) : list Peer := (range_of (peerMap ms)).*2.

Definition ob_RemovePeer (ID : bytes) : meshM (M := M) unit := NodeMesh.RemovePeer ID.
(** Here too the map that is passed is not used. *)
Definition ob_removePeerInMap (ID : bytes) (peerMap : gmap bytes Peer) : meshM (M := M) unit :=
  let! p := gets (fun ms => clientPeerMap ms !! ID) in
  modify (fun ms => mkNodeMesh (delete ID (clientPeerMap ms)) (serverPeerMap ms) (mesh_closed ms) (mesh_sent ms)) ;;;
  close_if p.

Definition ob_send (o : option Peer) (m : M) : meshM unit :=
  match o with
  | None => fail ErrNotExistObserverPeer
  | Some p => if writable p then write_to p m else ob_RemovePeer (peer_ID p)
  end.
Definition ob_SendTo (pubhash : PublicHash) (m : M) : meshM unit := let! o := gets (GetPeer pubhash) in ob_send o m.
Definition ob_SendAnyone (m : M) : meshM unit :=
  let! o := gets (fun ms => match range_of (clientPeerMap ms) with
                            | kv :: _ => Some kv.2
                            | [] => snd <$> head (range_of (serverPeerMap ms))
                            end) in
  ob_send o m.
Definition ob_BroadcastRaw (m : M) : meshM unit :=
  let! pm := gets peerMap in for_each (range_of pm) (fun kv => write_to kv.2 m).
Definition ob_BroadcastMessage (m : M) : meshM unit := ob_BroadcastRaw m.

(** [client] and [server] after the handshakes, and their ends. *)
Definition ob_client_connected (p : Peer) : meshM (M := M) unit :=
  let! pm := gets clientPeerMap in
  ob_removePeerInMap (peer_ID p) pm ;;;
  modify (fun ms => mkNodeMesh (<[peer_ID p := p]> (clientPeerMap ms)) (serverPeerMap ms) (mesh_closed ms) (mesh_sent ms)).
Definition ob_client_gone (p : Peer) : meshM (M := M) unit := let! pm := gets clientPeerMap in ob_removePeerInMap (peer_ID p) pm.
Definition ob_server_connected (p : Peer) : meshM (M := M) unit :=
  let! pm := gets serverPeerMap in
  ob_removePeerInMap (peer_ID p) pm ;;;
  modify (fun ms => mkNodeMesh (clientPeerMap ms) (<[peer_ID p := p]> (serverPeerMap ms)) (mesh_closed ms) (mesh_sent ms)).
Definition ob_server_gone (p : Peer) : meshM (M := M) unit := let! pm := gets serverPeerMap in ob_removePeerInMap (peer_ID p) pm.

Lemma ob_removePeerInMap_eq ID pm (ms : NodeMesh (M := M)) : (ob_removePeerInMap ID pm ms).2 =
  mkNodeMesh (delete ID (clientPeerMap ms)) (serverPeerMap ms)
    (mesh_closed ms ++ match clientPeerMap ms !! ID with Some p => [p] | None => [] end) (mesh_sent ms).
Proof. unfold ob_removePeerInMap, close_if, close_peer, bind. cbn. destruct (_ !! ID); cbn; [done|]. by rewrite app_nil_r. Qed.
(** An observer that connects again to the server takes its place in the table, but
    its old connection stays open and the connection as a client is closed instead. *)
Lemma server_connection_is_left_open (old p : Peer) (ms : NodeMesh (M := M)) : serverPeerMap ms !! peer_ID p = Some old ->
  let ms' := (ob_server_connected p ms).2 in
  serverPeerMap ms' !! peer_ID p = Some p /\ clientPeerMap ms' !! peer_ID p = None /\
  mesh_closed ms' = mesh_closed ms ++ match clientPeerMap ms !! peer_ID p with Some c => [c] | None => [] end.
Proof.
  intros _ ms'. unfold ms', ob_server_connected, ob_removePeerInMap, close_if, close_peer, bind. cbn.
  destruct (clientPeerMap ms !! peer_ID p); cbn; rewrite lookup_insert_eq, lookup_delete_eq, ?app_nil_r; done.
Qed.

(** An observer whose connection to the server has ended is still in the table, and is
    not dialled: only a failed [SendTo] or [SendAnyone] removes it. *)
Lemma lost_observer_is_not_dialled (p : Peer) (ms : NodeMesh (M := M)) : serverPeerMap ms !! peer_ID p = Some p ->
  let ms' := (ob_server_gone p ms).2 in ob_dials (peer_ID p) ms' = false /\ GetPeer (peer_ID p) ms' = Some p.
Proof.
  intros Hp ms'. unfold ms', ob_server_gone. unfold bind. cbn [gets]. rewrite ob_removePeerInMap_eq. unfold ob_dials, GetPeer. cbn.
  rewrite lookup_delete_eq, Hp. split; [|done]. by rewrite (bool_decide_eq_true_2 (is_Some (Some p))) by (by eexists); rewrite andb_false_r.
Qed.
End ObserverMesh.

(** ** The handshakes *)

Section PofHandshake.
Context `{SH : Sha256} `{EC : Ecrecover}.

(** [recvHandshake] of both meshes: the signature of a request of 40 bytes. *)
Definition pof_recvHandshake (chainID : Z) (Sign : Hash256 -> res Signature) (now : Z) (req : bytes) : res Signature :=
  if negb (default 0 (head req) =? chainID) then Err ErrInvalidChainID
  else if 30 * Second <? time_distance now (le_value (drop 32 req)) then Err ErrInvalidHandshake
  else Sign (Hash req).

(** The part of [sendHandshake] that reads the answer. *)
Definition pof_check_answer (req conn : bytes) : res PublicHash :=
  let? (sig, _) := NodeMesh.FillBytes 65 conn in
  let? pubkey := recover (Hash req) sig in
  Ok (NewPublicHash pubkey).

(** The request of a formulator has its address at the end. *)
Definition formulator_request (chainID : Z) (random : bytes) (now : Z) (Formulator : Address) : bytes :=
  handshake_request chainID random now ++ copy_into AddressSize Formulator.
Definition fs_recvHandshake (chainID : Z) (Sign : Hash256 -> res Signature) (now : Z) (req : bytes) : res (Address * Signature) :=
  if negb (default 0 (head req) =? chainID) then Err ErrInvalidChainID
  else if 30 * Second <? time_distance now (le_value (take 8 (drop 32 req))) then Err ErrInvalidHandshake
  else
    let? sig := Sign (Hash req) in
    Ok (copy_into AddressSize (drop 40 req), sig).

(** [client] of both meshes: whether the other side is the observer it dialled. *)
Definition pof_client_check (netAddressMap : gmap PublicHash bytes) (TargetPubHash : PublicHash) (req answer : bytes) : res PublicHash :=
  let? pubhash := pof_check_answer req answer in
  if negb (bool_decide (pubhash = TargetPubHash)) then Err ErrInvalidPublicHash
  else if negb (bool_decide (is_Some (netAddressMap !! pubhash))) then Err ErrInvalidObserverKey
  else Ok pubhash.

(** [FormulatorService.server]: the answer to its request, then the request of the
    other side.  The result is what it writes and the formulator it lets in, if any. *)
Definition fs_admit (rt : RankTable) (chainID : Z) (Sign : Hash256 -> res Signature) (now : Z) (challenge answer req : bytes) : res (Signature * option Address) :=
  let? pubhash := pof_check_answer challenge answer in
  let? (Formulator, sig) := fs_recvHandshake chainID Sign now req in
  Ok (sig, if IsFormulator rt Formulator pubhash then Some Formulator else None).

(** [ObserverNodeMesh.server]: the same with the keys of the observers. *)
Definition ob_admit (netAddressMap : gmap PublicHash bytes) (chainID : Z) (Sign : Hash256 -> res Signature) (now : Z) (challenge answer req : bytes) : res (Signature * PublicHash) :=
  let? pubhash := pof_check_answer challenge answer in
  if negb (bool_decide (is_Some (netAddressMap !! pubhash))) then Err ErrInvalidPublicHash
  else let? sig := pof_recvHandshake chainID Sign now req in Ok (sig, pubhash).

(** A key: what it signs recovers to it. *)
Definition signs_as (Sign : Hash256 -> res Signature) (pub : bytes) : Prop :=
  forall h, exists sig, Sign h = Ok sig /\ length sig = 65%nat /\ recover h sig = Ok pub.

Lemma request_time chainID random now rest : drop 32 (handshake_request chainID random now ++ rest) = le_bytes 8 (u64 now) ++ rest.
Proof.
  unfold handshake_request. change (drop 32 ((chainID :: ?l) ++ rest)) with (drop 31 (l ++ rest)). rewrite <- app_assoc.
  apply drop_app_length'. rewrite length_drop, length_copy_into. done.
Qed.
Lemma check_signature Sign pub req : signs_as Sign pub -> exists sig, Sign (Hash req) = Ok sig /\ pof_check_answer req sig = Ok (NewPublicHash pub).
Proof.
  intros HS. destruct (HS (Hash req)) as (sig & E & Hl & Hr). exists sig. split; [done|]. unfold pof_check_answer.
  rewrite <- (app_nil_r sig) at 1. rewrite FillBytes_app by done. cbn [res_bind]. by rewrite Hr.
Qed.

(** The address the service gets is the one in the request. *)
Lemma fs_recv_request chainID Sign pub random now now' F : 0 <= now < 2 ^ 63 -> 0 <= now' < 2 ^ 63 -> Z.abs (now - now') <= 30 * Second ->
  length F = AddressSize -> signs_as Sign pub ->
  let req := formulator_request chainID random now' F in
  exists sig, fs_recvHandshake chainID Sign now req = Ok (F, sig) /\ pof_check_answer req sig = Ok (NewPublicHash pub).
Proof.
  intros H1 H2 Hd HF HS req. destruct (check_signature Sign pub req HS) as (sig & E & Hc). exists sig. split; [|done].
  unfold fs_recvHandshake. cbn [req formulator_request handshake_request head default from_option id app]. rewrite Z.eqb_refl. cbn [negb].
  assert (E32 : drop 32 req = le_bytes 8 (u64 now') ++ copy_into AddressSize F) by apply request_time.
  change (chainID :: _) with req. rewrite E32, (take_app_length' (le_bytes 8 _)) by (by rewrite length_le_bytes). rewrite time_distance_small by done.
  destruct (Z.ltb_spec (30 * Second) (Z.abs (now - now'))); [lia|]. rewrite E. cbn [res_bind].
  assert (E40 : drop 40 req = copy_into AddressSize F).
  { change 40%nat with (32 + 8)%nat. rewrite <- drop_drop, E32. apply drop_app_length'. by rewrite length_le_bytes. }
  rewrite E40, (copy_into_id AddressSize F) by done. by rewrite copy_into_id.
Qed.
Lemma pof_recv_request chainID Sign random now now' : 0 <= now < 2 ^ 63 -> 0 <= now' < 2 ^ 63 -> Z.abs (now - now') <= 30 * Second ->
  pof_recvHandshake chainID Sign now (handshake_request chainID random now') = Sign (Hash (handshake_request chainID random now')).
Proof.
  intros H1 H2 Hd. set (req := handshake_request chainID random now'). unfold pof_recvHandshake. cbn [req handshake_request head default from_option id]. rewrite Z.eqb_refl. cbn [negb].
  assert (E32 : drop 32 req = le_bytes 8 (u64 now')) by (rewrite <- (app_nil_r req), <- (app_nil_r (le_bytes 8 _)); apply request_time).
  change (chainID :: _) with req. rewrite E32, time_distance_small by done. by destruct (Z.ltb_spec (30 * Second) (Z.abs (now - now'))); [lia|].
Qed.

(** A formulator of the rank table whose clock is right is let in by the service of an
    observer, and the formulator accepts the observer when it is the one it dialled.
    The service cannot tell who passes the messages on: when the formulator dialled
    another observer, which passed every message to this one, it refuses in the end,
    but the connection of the other is let in under its name. *)
Theorem formulator_handshake chainID rt net F SignF pubF SignO pubO Target random1 random2 now1 now2 now3 now4 :
  0 <= now1 < 2 ^ 63 -> 0 <= now2 < 2 ^ 63 -> 0 <= now3 < 2 ^ 63 -> 0 <= now4 < 2 ^ 63 ->
  Z.abs (now2 - now1) <= 30 * Second -> Z.abs (now4 - now3) <= 30 * Second ->
  length F = AddressSize -> IsFormulator rt F (NewPublicHash pubF) = true -> is_Some (net !! NewPublicHash pubO) ->
  signs_as SignF pubF -> signs_as SignO pubO ->
  let challenge := handshake_request chainID random1 now1 in
  let req := formulator_request chainID random2 now3 F in
  exists answer sig,
    pof_recvHandshake chainID SignF now2 challenge = Ok answer /\
    fs_admit rt chainID SignO now4 challenge answer req = Ok (sig, Some F) /\
    pof_client_check net Target req sig =
      (if bool_decide (NewPublicHash pubO = Target) then Ok (NewPublicHash pubO) else Err ErrInvalidPublicHash).
Proof.
  intros H1 H2 H3 H4 Hd1 Hd2 HF HI Hn HSF HSO challenge req.
  destruct (check_signature SignF pubF challenge HSF) as (answer & Ea & Hca). destruct (fs_recv_request chainID SignO pubO random2 now4 now3 F H4 H3 Hd2 HF HSO) as (sig & Es & Hcs).
  exists answer, sig. split; [unfold challenge; by rewrite pof_recv_request by done|]. split.
  - unfold fs_admit. rewrite Hca. cbn [res_bind]. fold req in Es. rewrite Es. cbn [res_bind]. by rewrite HI.
  - unfold pof_client_check. fold req in Hcs. rewrite Hcs. cbn [res_bind]. case_bool_decide as HT; cbn [negb]; [|done]. by rewrite (bool_decide_eq_true_2 _ Hn).
Qed.

(** Whoever is let in has shown a signature of its request by the key of the formulator. *)
Lemma admitted_formulators_have_signed rt chainID Sign now challenge answer req sig F :
  fs_admit rt chainID Sign now challenge answer req = Ok (sig, Some F) ->
  exists pub, recover (Hash challenge) (take 65 answer) = Ok pub /\ IsFormulator rt F (NewPublicHash pub) = true /\ F = copy_into AddressSize (drop 40 req).
Proof.
  unfold fs_admit, pof_check_answer, NodeMesh.FillBytes, fs_recvHandshake. intros E. destruct (_ <? 65)%nat; [done|]. cbn [res_bind] in E.
  destruct (recover _ _) as [pub| |] eqn:Er; [|done..]. cbn [res_bind] in E. destruct (negb _); [done|]. destruct (_ <? _); [done|]. destruct (Sign _); [|done..]. cbn [res_bind] in E.
  destruct (IsFormulator _ _ _) eqn:EI; [|done]. exists pub. by simplify_eq.
Qed.
End PofHandshake.

(** ** Bytes of a handshake that arrive in pieces *)

Lemma fill_loop_project fuel n : forall acc p buf, exists buf', fill_loop copy_Read fuel n acc (p, buf) =
  ((fill_loop conn_Read fuel n acc p).1, ((fill_loop conn_Read fuel n acc p).2, buf')).
Proof.
  induction fuel as [|fuel IH]; intros acc p buf; [by eexists|]. cbn [fill_loop]. destruct (_ <? n)%nat; [|by eexists].
  unfold bind, copy_Read at 1. destruct (conn_Read (n - length acc) p) as [[got|e|w] p']; [|by eexists..].
  destruct (n <=? _)%nat; [by eexists|]. destruct (_ =? 0)%nat; [by eexists|]. apply IH.
Qed.
(** On a connection, [FillBytes] gives what the handshakes above take from the bytes. *)
Lemma FillBytes_of_stream n p bs bs1 rest : arriving p bs -> NodeMesh.FillBytes n bs = Ok (bs1, rest) ->
  exists ch, Packet.FillBytes conn_Read n p = (Ok bs1, set_in ch p) /\ arriving (set_in ch p) rest.
Proof.
  unfold NodeMesh.FillBytes. intros Ha E. destruct (Nat.ltb_spec (length bs) n); [done|]. injection E as <- <-. rewrite <- (take_drop n bs) in Ha.
  destruct (fill_loop_spec (take n bs) (n + 1) n [] p [] (drop n bs)) as (ch & E & Ha'); [rewrite length_take; lia|rewrite length_take; cbn; lia|done|].
  exists ch. split; [|done]. destruct (fill_loop_project (n + 1) n [] p []) as (buf' & E'). rewrite E in E'. unfold Packet.FillBytes, bind.
  destruct (fill_loop conn_Read (n + 1) n [] p) as [r p1]. cbn in E'. injection E' as <- <- _. cbn [app]. rewrite length_take_le by lia. by rewrite Nat.eqb_refl.
Qed.
