(* ===== verification/PeerStorage.v ===== *)
(** * The groups of peers

    [service/p2p/storage]: three groups of five peers, by the time a ping takes.  A new
    peer takes the place of another one, which looks for a place in its turn; the
    recursion of [insert] and [insertSort] is given fuel, and is shown to end. *)

From stdpp Require Import base gmap list strings.
From Stdlib Require Import ZArith Lia.
From S2P Require Import Prelude Common Types FormulatorNode.

(** [peermessage.ConnectInfo]; the score board is a pointer to a map. *)
Record ConnectInfo := mkConnectInfo { ci_Address : bytes; ci_Hash : bytes; ci_PingTime : Z; ci_PingScoreBoard : nat }.

Definition groupLength : nat := 5.
Definition distance1 : Z := 50 * Millisecond.
Definition distance2 : Z := 250 * Millisecond.
Definition distance3 : Z := 500 * Millisecond.
Definition MaxPeerStorageLen : nat := groupLength * 3.

(** A peer of a group; its affiliation is the group that it is in. *)
Record peerInfomation := mkPeerInfomation {
  pi_p : ConnectInfo;
  pi_advantage : gmap Z Z;                     (** [advantage.score] *)
  pi_registeredTime : Z;
  pi_group : Z
}.

Record peerStorage := mkPeerStorage {
  peerGroup : gmap Z (list (option peerInfomation));
  ps_peerMap : gmap bytes peerInfomation
}.

Definition NewPeerStorage : peerStorage :=
  mkPeerStorage {[1 := replicate groupLength None; 2 := replicate groupLength None; 3 := replicate groupLength None]} ∅.

Definition Have (ps : peerStorage) (addr : bytes) : bool := bool_decide (is_Some (ps_peerMap ps !! addr)).

Section Storage.
(** The clock, read once. *)
Context (now : Z).

Definition pi_score (p : peerInfomation) (affiliation : Z) : Z :=
  let t := ci_PingTime (pi_p p) in
  let t := if pi_group p =? affiliation then t else t - distance3 in
  let t := t - Z.quot (now - pi_registeredTime p) 1000 in
  t + default 0 (pi_advantage p !! affiliation).

(** The place of [p] in the group: before the first slot that is free or has a lower
    score, as far as a binary search finds it. *)
Definition place (nl : list (option peerInfomation)) (p : peerInfomation) (pt : Z) : nat :=
  sort_Search (length nl) (fun i =>
    match nl !! i with
    | Some (Some q) => pi_score q pt <? pi_score p pt
    | _ => true
    end).

(** [copy(nl[index+1:], nl[index:groupLength])], then [nl[index] = p]. *)
Definition put_at (nl : list (option peerInfomation)) (index : nat) (p : peerInfomation) : list (option peerInfomation) :=
  take index nl ++ Some p :: take (length nl - index - 1) (drop index nl).

(** The order in which a peer tries the groups. *)
Definition tries (p : peerInfomation) : list Z :=
  (if pi_group p <=? 1 then [1] else []) ++ (if pi_group p <=? 2 then [2] else []) ++ (if pi_group p <=? 3 then [3] else []) ++
  (if 2 <? pi_group p then [2] else []) ++ (if 1 <? pi_group p then [1] else []).

(** [insert] at one group, [again] being [insertSort]: [None] when the fuel is out. *)
Definition insert_at (again : peerInfomation -> peerStorage -> option (bool * peerStorage)) (p : peerInfomation) (pt : Z) (ps : peerStorage)
    : option (bool * peerStorage) :=
  match peerGroup ps !! pt with
  | None => Some (false, ps)
  | Some nl =>
      let index := place nl p pt in
      if (index <? groupLength)%nat then
        let deleteEl := mjoin (nl !! (groupLength - 1)%nat) in
        let ps := mkPeerStorage (<[pt := put_at nl index p]> (peerGroup ps)) (<[ci_Hash (pi_p p) := p]> (ps_peerMap ps)) in
        match deleteEl with
        | Some d =>
            let ps := mkPeerStorage (peerGroup ps) (delete (ci_Hash (pi_p d)) (ps_peerMap ps)) in
            (fun r => (true, snd r)) <$> again d ps
        | None => Some (true, ps)
        end
      else Some (false, ps)
  end.

Fixpoint try_groups (again : peerInfomation -> peerStorage -> option (bool * peerStorage)) (p : peerInfomation) (pts : list Z) (ps : peerStorage)
    : option (bool * peerStorage) :=
  match pts with
  | [] => Some (false, ps)
  | pt :: pts =>
      match insert_at again p pt ps with
      | Some (false, ps) => try_groups again p pts ps
      | r => r
      end
  end.

Fixpoint insertSort (fuel : nat) (p : peerInfomation) (ps : peerStorage) : option (bool * peerStorage) :=
  match fuel with
  | O => None
  | S fuel => try_groups (insertSort fuel) p (tries p) ps
  end.

(** [_getScoreBoard]: the mean of the pings that [score] knows, of the peers before
    the first free slot. *)
Fixpoint sum_scores (score : bytes -> option Z) (nl : list (option peerInfomation)) : Z * Z :=
  match nl with
  | Some q :: nl =>
      let '(sum, count) := sum_scores score nl in
      match score (ci_Hash (pi_p q)) with Some t => (sum + t, count + 1) | None => (sum, count) end
  | _ => (0, 0)
  end.
Definition mean_score (ps : peerStorage) (score : bytes -> option Z) (pt : Z) : Z :=
  let '(sum, count) := sum_scores score (default [] (peerGroup ps !! pt)) in
  if 0 <? count then Z.quot sum count else 0.
Definition getScoreBoard (ps : peerStorage) (score : bytes -> option Z) : gmap Z Z :=
  {[1 := mean_score ps score 1; 2 := mean_score ps score 2; 3 := mean_score ps score 3]}.

(** [sort.Sort] of a group by the time of the ping; a free slot counts as zero. *)
Definition slot_ping (o : option peerInfomation) : Z := match o with Some q => ci_PingTime (pi_p q) | None => 0 end.
Fixpoint insert_ping (x : option peerInfomation) (l : list (option peerInfomation)) : list (option peerInfomation) :=
  match l with
  | [] => [x]
  | y :: l => if slot_ping x <? slot_ping y then x :: y :: l else y :: insert_ping x l
  end.
Definition sort_ping (l : list (option peerInfomation)) : list (option peerInfomation) := foldl (fun acc x => insert_ping x acc) [] l.

Definition updatePingtime (ps : peerStorage) (addr : bytes) : peerStorage :=
  match ps_peerMap ps !! addr with
  | Some p =>
      match peerGroup ps !! pi_group p with
      | Some g => mkPeerStorage (<[pi_group p := sort_ping g]> (peerGroup ps)) (ps_peerMap ps)
      | None => ps
      end
  | None => ps
  end.

Definition group_of (PingTime : Z) : Z := if PingTime <? distance1 then 1 else if PingTime <? distance2 then 2 else 3.

Definition ps_Add (fuel : nat) (p : ConnectInfo) (score : bytes -> option Z) (ps : peerStorage) : option (bool * peerStorage) :=
  let addr := ci_Hash p in
  if Have ps addr then Some (false, updatePingtime ps addr)
  else insertSort fuel (mkPeerInfomation p (getScoreBoard ps score) now (group_of (ci_PingTime p))) ps.

(** Whether a group has a free last slot, or a last peer that is closed. *)
Definition group_open (isClose : bytes -> bool) (ps : peerStorage) (pt : Z) : bool :=
  match mjoin (default [] (peerGroup ps !! pt) !! (groupLength - 1)%nat) with
  | None => true
  | Some q => isClose (ci_Hash (pi_p q))
  end.
Definition NotEnoughPeer (isClose : bytes -> bool) (ps : peerStorage) : bool := existsb (group_open isClose ps) [1; 2; 3].
End Storage.

(** ** Every insertion ends *)

(** What a binary search finds satisfies the test, whatever the test. *)
Lemma search_loop_found (f : nat -> bool) fuel : forall i j, (i <= j)%nat -> (j - i <= fuel)%nat ->
  let r := search_loop fuel i j f in (i <= r <= j)%nat /\ (r = j \/ f r = true).
Proof.
  induction fuel as [|fuel IH]; intros i j Hij Hf; cbn [search_loop]; [split; [lia|left; lia]|].
  destruct (Nat.ltb_spec i j); [|split; [lia|left; lia]].
  assert (Hh : (i <= (i + j) / 2 < j)%nat) by (split; [apply Nat.div_le_lower_bound; lia|apply Nat.Div0.div_lt_upper_bound; lia]).
  destruct (f ((i + j) / 2)%nat) eqn:E.
  - destruct (IH i ((i + j) / 2)%nat) as [H1 [H2|H2]]; [lia..| |]; (split; [lia|]); right; congruence.
  - destruct (IH (S ((i + j) / 2)) j) as [H1 [H2|H2]]; [lia..| |]; (split; [lia|]); tauto.
Qed.
Lemma sort_Search_found n f : (sort_Search n f < n)%nat -> f (sort_Search n f) = true.
Proof. intros Hn. destruct (search_loop_found f n 0 n) as [_ [H|H]]; [lia..| |done]. unfold sort_Search in Hn. lia. Qed.

Section Ranks.
Context (now : Z) (U : list peerInfomation).

(** A slot as a digit: zero when it is free, else one more than the number of peers
    of [U] with a lower score. *)
Definition below (pt s : Z) : nat := length (filter (fun q => pi_score now q pt < s) U).
Definition digit (pt : Z) (o : option peerInfomation) : nat := match o with Some q => S (below pt (pi_score now q pt)) | None => 0 end.
Definition base : nat := length U + 1.

Lemma below_lt pt q s : q ∈ U -> pi_score now q pt < s -> (below pt (pi_score now q pt) < below pt s)%nat.
Proof.
  intros Hq Hs. unfold below. revert Hq. induction U as [|u l IH]; intros Hq; [by apply not_elem_of_nil in Hq|].
  assert (Hmono : (length (filter (fun q0 => (pi_score now q0 pt < pi_score now q pt)%Z) l) <= length (filter (fun q0 => (pi_score now q0 pt < s)%Z) l))%nat).
  { clear -Hs. induction l as [|x l IH]; [done|]. rewrite !filter_cons. repeat case_decide; cbn; lia. }
  rewrite !filter_cons. apply elem_of_cons in Hq as [->|Hq].
  - rewrite decide_False by lia. rewrite decide_True by done. cbn. lia.
  - specialize (IH Hq). repeat case_decide; cbn; lia.
Qed.
Lemma below_le pt s : (below pt s <= length U)%nat.
Proof. apply length_filter. Qed.
Lemma digit_lt_base pt o : (forall q, o = Some q -> q ∈ U) -> (digit pt o < base)%nat.
Proof.
  intros Ho. destruct o as [q|]; unfold digit, base; [|lia]. specialize (Ho q eq_refl).
  assert (H : (below pt (pi_score now q pt) < length U)%nat); [|lia]. unfold below.
  destruct (list_elem_of_split _ _ Ho) as (l1 & l2 & ->). rewrite filter_app, !length_app, filter_cons. rewrite decide_False by lia.
  pose proof (length_filter (fun q0 => pi_score now q0 pt < pi_score now q pt) l1). pose proof (length_filter (fun q0 => pi_score now q0 pt < pi_score now q pt) l2). cbn. lia.
Qed.

(** A group as a number, its first slot the leading digit. *)
Fixpoint code (pt : Z) (nl : list (option peerInfomation)) : nat :=
  match nl with [] => 0 | o :: nl => digit pt o * base ^ length nl + code pt nl end.
Definition within (nl : list (option peerInfomation)) : Prop := forall q, Some q ∈ nl -> q ∈ U.
Lemma code_bound pt nl : within nl -> (code pt nl < base ^ length nl)%nat.
Proof.
  induction nl as [|o nl IH]; intros Hw; cbn [code length]; [cbn; lia|].
  assert (Hd : (digit pt o < base)%nat) by (apply digit_lt_base; intros q ->; apply Hw; by left).
  assert (IH' : (code pt nl < base ^ length nl)%nat) by (apply IH; intros q Hq; apply Hw; by right). rewrite Nat.pow_succ_r'. nia.
Qed.
Lemma code_lt pt pre x y t t' : within t -> length t = length t' -> (digit pt x < digit pt y)%nat ->
  (code pt (pre ++ x :: t) < code pt (pre ++ y :: t'))%nat.
Proof.
  intros Hw Hl Hd. induction pre as [|o pre IH]; cbn [app code]; [|rewrite !length_app; cbn [length]; rewrite Hl; lia].
  pose proof (code_bound pt t Hw). rewrite Hl in *. nia.
Qed.

Lemma put_at_split nl index p x : nl !! index = Some x -> exists t', put_at nl index p = take index nl ++ Some p :: t' /\
  nl = take index nl ++ x :: drop (S index) nl /\ length t' = length (drop (S index) nl).
Proof.
  intros Hx. eexists. split; [done|]. split; [symmetry; by apply take_drop_middle|]. rewrite length_take, !length_drop. lia.
Qed.
Lemma put_at_code nl p pt : within nl -> p ∈ U -> (place now nl p pt < length nl)%nat -> (code pt nl < code pt (put_at nl (place now nl p pt) p))%nat.
Proof.
  intros Hw Hp Hi. assert (Hf : match nl !! place now nl p pt with Some (Some q) => pi_score now q pt <? pi_score now p pt | _ => true end = true) by exact (sort_Search_found _ _ Hi). destruct (lookup_lt_is_Some_2 _ _ Hi) as [x Hx]. rewrite Hx in Hf.
  destruct (put_at_split nl (place now nl p pt) p x Hx) as (t' & -> & E & Hl). rewrite E at 1. apply code_lt; [|done|].
  - intros q Hq. apply Hw. rewrite E. apply elem_of_app. right. by right.
  - destruct x as [q|]; cbn [digit]; [|lia]. apply Z.ltb_lt in Hf. apply -> Nat.succ_lt_mono. apply below_lt; [|done]. apply Hw. by eapply list_elem_of_lookup_2.
Qed.
End Ranks.

(** ** The storage *)

Definition slots (ps : peerStorage) (pt : Z) : list (option peerInfomation) := default [] (peerGroup ps !! pt).
Definition occupants (ps : peerStorage) : list peerInfomation := omap id (slots ps 1) ++ omap id (slots ps 2) ++ omap id (slots ps 3).
Definition pi_name (p : peerInfomation) : bytes := ci_Hash (pi_p p).

(** Three groups of five slots; no peer has two of them; the table has the peers of
    the groups and no others. *)
Record storage_wf (ps : peerStorage) : Prop := {
  sw_groups pt : pt ∈ [1; 2; 3] -> exists nl, peerGroup ps !! pt = Some nl /\ length nl = groupLength;
  sw_nodup : NoDup (pi_name <$> occupants ps);
  sw_map : ps_peerMap ps = list_to_map ((fun q => (pi_name q, q)) <$> occupants ps)
}.

Lemma NewPeerStorage_wf : storage_wf NewPeerStorage.
Proof.
  split; [|apply (bool_decide_unpack _); vm_compute; exact Logic.I|done].
  intros pt Hpt. apply list_elem_of_In in Hpt. destruct Hpt as [<-|[<-|[<-|[]]]]; by eexists.
Qed.

Definition with_group (ps : peerStorage) (pt : Z) (nl : list (option peerInfomation)) (m : gmap bytes peerInfomation) : peerStorage :=
  mkPeerStorage (<[pt := nl]> (peerGroup ps)) m.
Definition total (now : Z) (U : list peerInfomation) (ps : peerStorage) : nat := code now U 1 (slots ps 1) + code now U 2 (slots ps 2) + code now U 3 (slots ps 3).

(** The group [pt] among the others. *)
Lemma group_split now U ps pt nl : pt ∈ [1; 2; 3] -> peerGroup ps !! pt = Some nl -> exists C c,
  (occupants ps ≡ₚ omap id nl ++ C /\ total now U ps = code now U pt nl + c)%nat /\
  forall nl' m, (occupants (with_group ps pt nl' m) ≡ₚ omap id nl' ++ C /\ total now U (with_group ps pt nl' m) = code now U pt nl' + c)%nat.
Proof.
  intros Hpt Hnl. unfold occupants, total, slots, with_group. cbn [peerGroup].
  apply list_elem_of_In in Hpt. destruct Hpt as [<-|[<-|[<-|[]]]]; rewrite Hnl; cbn [default from_option id].
  - exists (omap id (slots ps 2) ++ omap id (slots ps 3)), (code now U 2 (slots ps 2) + code now U 3 (slots ps 3))%nat. split; [split; [done|unfold slots; lia]|].
    intros nl' m. rewrite lookup_insert_eq, !lookup_insert_ne by lia. cbn. split; [done|unfold slots; lia].
  - exists (omap id (slots ps 1) ++ omap id (slots ps 3)), (code now U 1 (slots ps 1) + code now U 3 (slots ps 3))%nat. split; [split; [|unfold slots; lia]|].
    { unfold slots. rewrite !(assoc_L (++)). by apply Permutation_app_tail, Permutation_app_comm. }
    intros nl' m. rewrite lookup_insert_eq, !lookup_insert_ne by lia. cbn. split; [|unfold slots; lia].
    unfold slots. rewrite !(assoc_L (++)). by apply Permutation_app_tail, Permutation_app_comm.
  - exists (omap id (slots ps 1) ++ omap id (slots ps 2)), (code now U 1 (slots ps 1) + code now U 2 (slots ps 2))%nat. split; [split; [|unfold slots; lia]|].
    { unfold slots. rewrite (assoc_L (++)). apply Permutation_app_comm. }
    intros nl' m. rewrite lookup_insert_eq, !lookup_insert_ne by lia. cbn. split; [|unfold slots; lia].
    unfold slots. rewrite (assoc_L (++)). apply Permutation_app_comm.
Qed.

(** The last slot leaves, the new peer enters. *)
Lemma put_at_occupants nl index p : length nl = groupLength -> (index < groupLength)%nat ->
  length (put_at nl index p) = groupLength /\
  exists B, omap id nl ≡ₚ option_list (mjoin (nl !! (groupLength - 1)%nat)) ++ B /\ omap id (put_at nl index p) ≡ₚ p :: B.
Proof.
  intros Hl Hi. unfold put_at. set (t := drop index nl). assert (Ht : length t = (groupLength - index)%nat) by (unfold t; rewrite length_drop; lia).
  split. { rewrite length_app, length_take. cbn [length]. rewrite length_take. unfold groupLength in *. lia. }
  destruct (nl !! (groupLength - 1)%nat) as [o|] eqn:Eo; [|apply lookup_ge_None in Eo; unfold groupLength in *; lia].
  assert (Elast : t = take (length nl - index - 1) t ++ [o]).
  { rewrite <- (take_drop (length nl - index - 1) t) at 1. f_equal. assert (E1 : t !! (length nl - index - 1)%nat = Some o).
    { unfold t. rewrite lookup_drop, <- Eo. f_equal. lia. }
    rewrite (drop_S _ _ _ E1), drop_ge by lia. done. }
  exists (omap id (take index nl) ++ omap id (take (length nl - index - 1) t)). split.
  - rewrite <- (take_drop index nl) at 1. fold t. rewrite Elast at 1. rewrite !omap_app. cbn. destruct o as [d|]; cbn.
    + rewrite (assoc_L (++)). symmetry. apply Permutation_cons_append.
    + by rewrite app_nil_r.
  - rewrite omap_app. cbn. symmetry. apply Permutation_middle.
Qed.

Section Ends.
Context (now : Z) (U : list peerInfomation).
Definition all_in (l : list peerInfomation) : Prop := forall q, q ∈ l -> q ∈ U.

Lemma wf_enters ps pt nl p index : storage_wf ps -> pt ∈ [1; 2; 3] -> peerGroup ps !! pt = Some nl -> (index < groupLength)%nat ->
  pi_name p ∉ (pi_name <$> occupants ps) ->
  match mjoin (nl !! (groupLength - 1)%nat) with
  | Some d =>
      let ps' := with_group ps pt (put_at nl index p) (delete (pi_name d) (<[pi_name p := p]> (ps_peerMap ps))) in
      storage_wf ps' /\ (pi_name d ∉ (pi_name <$> occupants ps')) /\ (d ∈ occupants ps) /\ (forall q, q ∈ occupants ps' -> q = p \/ q ∈ occupants ps)
  | None => storage_wf (with_group ps pt (put_at nl index p) (<[pi_name p := p]> (ps_peerMap ps)))
  end.
Proof.
  intros [Hg Hn Hm] Hpt Hnl Hi Hp. destruct (Hg pt Hpt) as (nl' & E & Hl). rewrite Hnl in E. injection E as <-.
  destruct (put_at_occupants nl index p Hl Hi) as (Hl' & B & HB1 & HB2). destruct (group_split now U ps pt nl Hpt Hnl) as (C & c & [HC _] & Hput).
  assert (Hg' : forall m pt', pt' ∈ [1; 2; 3] -> exists nl0, peerGroup (with_group ps pt (put_at nl index p) m) !! pt' = Some nl0 /\ length nl0 = groupLength).
  { intros m pt' Hpt'. cbn. destruct (decide (pt' = pt)) as [->|]; [rewrite lookup_insert_eq; eauto|rewrite lookup_insert_ne by done; eauto]. }
  assert (Ho : occupants ps ≡ₚ option_list (mjoin (nl !! (groupLength - 1)%nat)) ++ (B ++ C)) by (rewrite HC, HB1, (assoc_L (++)); done).
  assert (Ho' : forall m, occupants (with_group ps pt (put_at nl index p) m) ≡ₚ p :: (B ++ C)) by (intros m; destruct (Hput (put_at nl index p) m) as [-> _]; by rewrite HB2).
  assert (Hmap : forall l, list_to_map ((fun q => (pi_name q, q)) <$> l) = foldr (fun q m => <[pi_name q := q]> m) (∅ : gmap bytes _) l) by (induction l; cbn; congruence).
  assert (Hperm : forall l l', NoDup (pi_name <$> l) -> l ≡ₚ l' -> (list_to_map ((fun q => (pi_name q, q)) <$> l) : gmap bytes _) = list_to_map ((fun q => (pi_name q, q)) <$> l')).
  { intros l l' Hnd Hll. apply list_to_map_proper; [|by rewrite Hll]. by rewrite <- list_fmap_compose. }
  rewrite Hm. rewrite (Hperm _ _ Hn Ho). rewrite Ho in Hn, Hp. clear Hm HC HB1.
  destruct (mjoin (nl !! (groupLength - 1)%nat)) as [d|]; cbn [option_list app fmap list_fmap] in *.
  - apply NoDup_cons in Hn as [Hd Hn]. apply not_elem_of_cons in Hp as [Hpd Hp].
    assert (Hnd : forall m, NoDup (pi_name <$> occupants (with_group ps pt (put_at nl index p) m))) by (intros m; rewrite Ho'; by constructor).
    split_and!.
    + split; [apply Hg'|apply Hnd|]. rewrite (Hperm _ _ (Hnd _) (Ho' _)). cbn. rewrite delete_insert_ne by done. f_equal. rewrite delete_insert_eq. apply delete_id.
      apply not_elem_of_list_to_map_1. by rewrite <- list_fmap_compose.
    + rewrite Ho'. by apply not_elem_of_cons.
    + rewrite Ho. by left.
    + intros q. rewrite Ho', Ho. intros [->|Hq]%elem_of_cons; [by left|]. right. by right.
  - assert (Hnd : forall m, NoDup (pi_name <$> occupants (with_group ps pt (put_at nl index p) m))) by (intros m; rewrite Ho'; by constructor).
    split; [apply Hg'|apply Hnd|]. rewrite (Hperm _ _ (Hnd _) (Ho' _)). done.
Qed.

Definition bound : nat := 3 * base U ^ groupLength.
Lemma total_bound ps : storage_wf ps -> all_in (occupants ps) -> (total now U ps < bound)%nat.
Proof.
  intros Hwf Hin. assert (Hb : forall pt, pt ∈ [1; 2; 3] -> (code now U pt (slots ps pt) < base U ^ groupLength)%nat).
  { intros pt Hpt. destruct (sw_groups _ Hwf pt Hpt) as (nl & E & Hl). unfold slots. rewrite E. cbn [default from_option]. rewrite <- Hl. apply code_bound. intros q Hq. apply Hin.
    destruct (group_split now U ps pt nl Hpt E) as (C & c & [-> _] & _). apply elem_of_app. left. apply list_elem_of_omap. by exists (Some q). }
  unfold total, bound. pose proof (Hb 1 ltac:(by apply list_elem_of_In; left)). pose proof (Hb 2 ltac:(by apply list_elem_of_In; right; left)).
  pose proof (Hb 3 ltac:(by apply list_elem_of_In; right; right; left)). lia.
Qed.

Lemma insert_at_ends again p pt ps : storage_wf ps -> pi_name p ∉ (pi_name <$> occupants ps) -> p ∈ U -> all_in (occupants ps) -> pt ∈ [1; 2; 3] ->
  (forall d ps', storage_wf ps' -> pi_name d ∉ (pi_name <$> occupants ps') -> d ∈ U -> all_in (occupants ps') -> (total now U ps < total now U ps')%nat ->
     exists r, again d ps' = Some r /\ storage_wf r.2) ->
  exists r, insert_at now again p pt ps = Some r /\ storage_wf r.2 /\ (r.1 = false -> r.2 = ps).
Proof.
  intros Hwf Hfresh Hp Hin Hpt Hagain. unfold insert_at. destruct (sw_groups _ Hwf pt Hpt) as (nl & E & Hl). rewrite E.
  destruct (Nat.ltb_spec (place now nl p pt) groupLength) as [Hi|]; [|by eexists].
  pose proof (wf_enters ps pt nl p (place now nl p pt) Hwf Hpt E Hi Hfresh) as Hw.
  destruct (group_split now U ps pt nl Hpt E) as (C & c & [HC Ht] & Hput).
  assert (Hlt : (code now U pt nl < code now U pt (put_at nl (place now nl p pt) p))%nat).
  { apply put_at_code; [|done|lia]. intros q Hq. apply Hin. rewrite HC. apply elem_of_app. left. apply list_elem_of_omap. by exists (Some q). }
  destruct (mjoin (nl !! (groupLength - 1)%nat)) as [d|]; [|by eexists]. cbn zeta in Hw. destruct Hw as (Hwf' & Hd & Hdin & Hq).
  edestruct Hagain as (r & -> & Hr); [exact Hwf'|exact Hd|by apply Hin| | |].
  - intros q [->|?]%Hq; [done|by apply Hin].
  - eapply Nat.lt_le_trans; [|apply Nat.eq_le_incl; symmetry; apply Hput]. lia.
  - by eexists.
Qed.

Lemma try_groups_ends again p ps pts : storage_wf ps -> pi_name p ∉ (pi_name <$> occupants ps) -> p ∈ U -> all_in (occupants ps) -> Forall (fun pt => pt ∈ [1; 2; 3]) pts ->
  (forall d ps', storage_wf ps' -> pi_name d ∉ (pi_name <$> occupants ps') -> d ∈ U -> all_in (occupants ps') -> (total now U ps < total now U ps')%nat ->
     exists r, again d ps' = Some r /\ storage_wf r.2) ->
  exists r, try_groups now again p pts ps = Some r /\ storage_wf r.2.
Proof.
  intros Hwf Hfresh Hp Hin Hpts Hagain. induction Hpts as [|pt pts Hpt _ IH]; cbn [try_groups]; [by eexists|].
  destruct (insert_at_ends again p pt ps Hwf Hfresh Hp Hin Hpt Hagain) as ([[] ps'] & -> & Hw & Hs); [by eexists|]. cbn in Hs. by rewrite (Hs eq_refl).
Qed.

Lemma tries_groups p : Forall (fun pt => pt ∈ [1; 2; 3]) (tries p).
Proof.
  unfold tries. repeat (apply Forall_app; split); match goal with |- Forall _ (if ?b then _ else _) => destruct b end; repeat constructor; apply list_elem_of_In; cbn; tauto.
Qed.

Lemma insertSort_ends k : forall p ps, storage_wf ps -> pi_name p ∉ (pi_name <$> occupants ps) -> p ∈ U -> all_in (occupants ps) ->
  (bound - total now U ps <= k)%nat -> exists r, insertSort now (S k) p ps = Some r /\ storage_wf r.2.
Proof.
  induction k as [|k IH]; intros p ps Hwf Hf Hp Hin Hk; pose proof (total_bound ps Hwf Hin); [lia|].
  cbn [insertSort]. apply try_groups_ends; [done..|apply tries_groups|]. intros d ps' Hwf' Hf' Hd Hin' Hlt. apply IH; [done..|lia].
Qed.
End Ends.

Lemma sort_ping_perm l : sort_ping l ≡ₚ l.
Proof.
  assert (Hins : forall x l, insert_ping x l ≡ₚ x :: l).
  { intros x l'. induction l' as [|y l' IH]; cbn; [done|]. destruct (_ <? _); [done|]. rewrite IH. apply perm_swap. }
  assert (Hf : forall l acc, foldl (fun acc x => insert_ping x acc) acc l ≡ₚ acc ++ l).
  { clear l. induction l as [|x l IH]; intros acc; cbn; [by rewrite app_nil_r|]. rewrite IH, Hins. cbn. apply Permutation_middle. }
  apply (Hf l []).
Qed.
#[global] Instance omap_perm {A B} (f : A -> option B) : Proper ((≡ₚ) ==> (≡ₚ)) (omap (M := list) f).
Proof. intros l l' H. induction H as [|x|x y| ]; cbn; repeat case_match; try done; [by constructor|apply perm_swap|by etrans]. Qed.

Lemma wf_permuted ps pt nl nl' : storage_wf ps -> peerGroup ps !! pt = Some nl -> nl' ≡ₚ nl -> storage_wf (with_group ps pt nl' (ps_peerMap ps)).
Proof.
  intros [Hg Hn Hm] E Hp. assert (Ho : occupants (with_group ps pt nl' (ps_peerMap ps)) ≡ₚ occupants ps).
  { destruct (decide (pt ∈ [1; 2; 3])) as [Hpt|Hpt].
    - destruct (group_split 0 [] ps pt nl Hpt E) as (C & c & [-> _] & Hput). destruct (Hput nl' (ps_peerMap ps)) as [-> _]. by rewrite Hp.
    - unfold occupants, slots, with_group. cbn. rewrite !lookup_insert_ne; [done|intros ->; apply Hpt; set_solver..]. }
  split.
  - intros pt' Hpt'. cbn. destruct (decide (pt' = pt)) as [->|]; [rewrite lookup_insert_eq|by rewrite lookup_insert_ne by done; apply Hg].
    destruct (Hg pt Hpt') as (nl0 & E0 & Hl). rewrite E in E0. injection E0 as <-. exists nl'. split; [done|]. by rewrite Hp.
  - by rewrite Ho.
  - cbn. rewrite Hm. apply list_to_map_proper; [by rewrite <- list_fmap_compose|by rewrite Ho].
Qed.
Lemma updatePingtime_wf ps addr : storage_wf ps -> storage_wf (updatePingtime ps addr).
Proof.
  intros Hwf. unfold updatePingtime. destruct (ps_peerMap ps !! addr) as [p|]; [|done]. destruct (peerGroup ps !! pi_group p) as [g|] eqn:Eg; [|done].
  by apply (wf_permuted ps _ g); [..|apply sort_ping_perm].
Qed.

(** Fuel that is enough: there are not more arrangements of the peers at hand. *)
Definition enough (ps : peerStorage) : nat := S (3 * (length (occupants ps) + 2) ^ groupLength).

Lemma adding_a_peer_ends (now : Z) (ci : ConnectInfo) (score : bytes -> option Z) (ps : peerStorage) (fuel : nat) :
  storage_wf ps -> (enough ps <= fuel)%nat -> exists r, ps_Add now fuel ci score ps = Some r /\ storage_wf r.2.
Proof.
  intros Hwf Hfuel. unfold ps_Add. destruct (Have ps (ci_Hash ci)) eqn:Eh; [eexists; split; [done|by apply updatePingtime_wf]|].
  set (p := mkPeerInfomation _ _ _ _). destruct fuel as [|k]; [unfold enough in Hfuel; lia|].
  apply (insertSort_ends now (p :: occupants ps)); [done| |by left|intros q Hq; by right|].
  - intros Hin. apply bool_decide_eq_false in Eh. apply Eh. rewrite (sw_map _ Hwf). apply list_elem_of_fmap in Hin as (q & Eq & Hq). exists q.
    apply elem_of_list_to_map; [by rewrite <- list_fmap_compose; apply Hwf|]. apply list_elem_of_fmap. exists q. split; [|done]. f_equal. exact Eq.
  - unfold bound, base. cbn [length]. unfold enough in Hfuel. replace (S (length (occupants ps)) + 1)%nat with (length (occupants ps) + 2)%nat by lia. lia.
Qed.

(** The storage after a series of additions, each with the clock and the scores of its time. *)
Definition add_all (l : list (Z * ConnectInfo * (bytes -> option Z))) (ps : peerStorage) : option peerStorage :=
  foldl (fun o x => o ≫= fun ps => snd <$> ps_Add x.1.1 (enough ps) x.1.2 x.2 ps) (Some ps) l.

Lemma occupants_at_most ps : storage_wf ps -> (length (occupants ps) <= MaxPeerStorageLen)%nat.
Proof.
  intros Hwf. assert (Hb : forall pt, pt ∈ [1; 2; 3] -> (length (omap id (slots ps pt)) <= groupLength)%nat).
  { intros pt Hpt. destruct (sw_groups _ Hwf pt Hpt) as (nl & E & <-). unfold slots. rewrite E. cbn [default from_option]. clear.
    induction nl as [|[q|] nl IH]; cbn; [done|by apply le_n_S|by apply le_S]. }
  unfold occupants, MaxPeerStorageLen. rewrite !length_app. pose proof (Hb 1 ltac:(set_solver)). pose proof (Hb 2 ltac:(set_solver)). pose proof (Hb 3 ltac:(set_solver)). lia.
Qed.

(** Adding peers to the storage always ends, whatever the pings, the scores and the
    times of the additions: every displacement makes the group it happens in larger in
    the lexicographic order of its scores, although a group need not be sorted (a ping
    of one of its peers sorts it the other way round).  What is left are three groups
    of five slots, no peer in two of them, and a table of exactly the peers in the
    groups, at most fifteen. *)
Lemma peer_storage_settles (l : list (Z * ConnectInfo * (bytes -> option Z))) :
  exists ps, add_all l NewPeerStorage = Some ps /\
    (forall pt, pt ∈ [1; 2; 3] -> exists nl, peerGroup ps !! pt = Some nl /\ length nl = groupLength) /\
    NoDup (pi_name <$> occupants ps) /\ (length (occupants ps) <= MaxPeerStorageLen)%nat /\
    (forall addr q, ps_peerMap ps !! addr = Some q <-> q ∈ occupants ps /\ pi_name q = addr).
Proof.
  assert (Hall : forall ps, storage_wf ps -> exists ps', add_all l ps = Some ps' /\ storage_wf ps').
  { induction l as [|x l' IH]; intros ps Hwf; [by eexists|]. unfold add_all. cbn [foldl mbind option_bind].
    destruct (adding_a_peer_ends x.1.1 x.1.2 x.2 ps (enough ps) Hwf (le_n _)) as (r & -> & Hr). cbn. by apply IH. }
  destruct (Hall _ NewPeerStorage_wf) as (ps & E & Hwf). exists ps. split; [done|]. split; [apply Hwf|]. split; [apply Hwf|]. split; [by apply occupants_at_most|].
  intros addr q. rewrite (sw_map _ Hwf), <- elem_of_list_to_map by (rewrite <- list_fmap_compose; apply Hwf).
  rewrite list_elem_of_fmap. split; [intros (q' & [= -> ->] & ?); done|intros [? <-]; by exists q].
Qed.

(** ** A small storage *)

Definition ex_ci (n ping : Z) : ConnectInfo := mkConnectInfo [n] [n] (ping * Millisecond) 0.
Definition few_peers : peerStorage := default NewPeerStorage (add_all [(0, ex_ci 1 10, fun _ => None); (0, ex_ci 2 100, fun _ => None); (0, ex_ci 3 300, fun _ => None)] NewPeerStorage).

(** The three peers are added a second time: the sort puts the free slots first, and the
    storage, which looks at the last slots, takes itself to be full. *)
Lemma pings_make_the_storage_look_full :
  let again := add_all [(0, ex_ci 1 10, fun _ => None); (0, ex_ci 2 100, fun _ => None); (0, ex_ci 3 300, fun _ => None)] few_peers in
  length (occupants few_peers) = 3%nat /\ NotEnoughPeer (fun _ => false) few_peers = true /\
  (fun ps => (length (occupants ps), NotEnoughPeer (fun _ => false) ps)) <$> again = Some (3%nat, false).
Proof. split; [vm_compute; reflexivity|]. split; vm_compute; reflexivity. Qed.
