(* ===== verification/PeerPool.v ===== *)
(** * The pool of known nodes

    [service/p2p/nodepoolmanage] and [service/p2p/peermessage]: the addresses a node
    knows, kept in a list, a map and a database, the encoding of an entry, and the
    rotation through them that asks for connections.  [buntdb] is a map from keys to
    strings; the goroutines of the manager are steps.  The list of banned peers
    ([ByTime]) is used by nobody and left out. *)

From stdpp Require Import base gmap list strings.
From Stdlib Require Import ZArith Lia.
From S2P Require Import Prelude Common Types Context Pile Observer FormulatorNode NodeMesh PeerStorage.

Definition ErrOverflowLength : error := mkError "peermessage" "Overflow string length".

(** ** The encoding of an entry *)

Definition write_str (s : bytes) : res bytes :=
  if (255 <? length s)%nat then Err ErrOverflowLength else Ok (u8 (Z.of_nat (length s)) :: s).

(** What is in the buffer when [WriteTo] returns, and its error. *)
Definition ci_WriteTo (ci : ConnectInfo) : bytes * option error :=
  let b0 := Uint64ToBytes (u64 (ci_PingTime ci)) in
  match write_str (ci_Address ci) with
  | Ok b1 =>
      match write_str (ci_Hash ci) with
      | Ok b2 => (b0 ++ b1 ++ b2, None)
      | Err e => (b0 ++ b1, Some e)
      | Panic _ => (b0 ++ b1, None)
      end
  | Err e => (b0, Some e)
  | Panic _ => (b0, None)
  end.

(** [Read] of a [bytes.Buffer] into a slice of [n] bytes: what is there, or an error
    when nothing is; the rest of the slice stays zero. *)
Definition buffer_Read (n : nat) (buf : bytes) : res (bytes * bytes) :=
  match buf with
  | [] => if (n =? 0)%nat then Ok ([], []) else Err io_EOF
  | _ => Ok (copy_into n (take n buf), drop n buf)
  end.

Definition read_str (buf : bytes) : res (bytes * bytes) :=
  let? (l, buf) := buffer_Read 1 buf in
  buffer_Read (Z.to_nat (default 0 (head l))) buf.

(** [ReadFrom] fills the entry as far as it gets; the caller drops the error. *)
Definition ci_ReadFrom (buf : bytes) (ci : ConnectInfo) : ConnectInfo * option error :=
  match buffer_Read 8 buf with
  | Ok (bs, buf) =>
      let ci := mkConnectInfo (ci_Address ci) (ci_Hash ci) (i64 (le_value bs)) (ci_PingScoreBoard ci) in
      match read_str buf with
      | Ok (a, buf) =>
          let ci := mkConnectInfo a (ci_Hash ci) (ci_PingTime ci) (ci_PingScoreBoard ci) in
          match read_str buf with
          | Ok (h, _) => (mkConnectInfo (ci_Address ci) h (ci_PingTime ci) (ci_PingScoreBoard ci), None)
          | Err e => (ci, Some e)
          | Panic _ => (ci, None)
          end
      | Err e => (ci, Some e)
      | Panic _ => (ci, None)
      end
  | Err e => (ci, Some e)
  | Panic _ => (ci, None)
  end.
Definition empty_info (board : nat) : ConnectInfo := mkConnectInfo [] [] 0 board.

(** ** The store of nodes *)

(** [ns_a] and [ns_m] hold separate copies of an entry, except that the map points into
    the list as long as the list has one entry; the score boards are on a heap. *)
Record nodeStore := mkNodeStore {
  ns_db : gmap bytes bytes;
  ns_a : list ConnectInfo;
  ns_m : gmap bytes ConnectInfo;
  ns_boards : list (gmap bytes Z)
}.

Definition NewConnectInfo (addr hash : bytes) (t : Z) (n : nodeStore) : ConnectInfo * nodeStore :=
  (mkConnectInfo addr hash t (length (ns_boards n)), mkNodeStore (ns_db n) (ns_a n) (ns_m n) (ns_boards n ++ [∅])).

Definition unsafeStore (key : bytes) (value : ConnectInfo) (n : nodeStore) : nodeStore :=
  let db := <[key := (ci_WriteTo value).1]> (ns_db n) in
  if bool_decide (ns_m n = ∅) then mkNodeStore db [value] {[key := value]} (ns_boards n)
  else match ns_m n !! key with
       | Some _ => mkNodeStore db (match ns_a n with [_] => [value] | a => a end) (<[key := value]> (ns_m n)) (ns_boards n)
       | None => mkNodeStore db (ns_a n ++ [value]) (<[key := value]> (ns_m n)) (ns_boards n)
       end.

Definition ns_LoadOrStore (key : bytes) (value : ConnectInfo) (n : nodeStore) : ConnectInfo * nodeStore :=
  match ns_m n !! key with
  | Some v => (v, n)
  | None => (value, unsafeStore key value n)
  end.

Definition ns_Get (n : nodeStore) (i : Z) : res ConnectInfo :=
  if (i <? 0) || (Z.of_nat (length (ns_a n)) <? i) then Ok (empty_info 0)
  else match ns_a n !! Z.to_nat i with Some ci => Ok ci | None => Panic "index out of range" end.
Definition ns_Load (n : nodeStore) (key : bytes) : option ConnectInfo := ns_m n !! key.
Definition ns_Len (n : nodeStore) : Z := Z.of_nat (size (ns_m n)).

(** Starting from the database, whose entries Go visits in some order; each entry is
    stored at its address, and writes itself back. *)
Definition load_entry (value : bytes) (n : nodeStore) : nodeStore :=
  let ci := (ci_ReadFrom value (empty_info (length (ns_boards n)))).1 in
  (ns_LoadOrStore (ci_Address ci) ci (mkNodeStore (ns_db n) (ns_a n) (ns_m n) (ns_boards n ++ [∅]))).2.
(** The entries in one order; no theorem uses which. *)
Definition newNodeStore (db : gmap bytes bytes) : nodeStore :=
  foldr (fun kv n => load_entry kv.2 n) (mkNodeStore db [] ∅ []) (map_to_list db).

Definition board_Store (b : nat) (key : bytes) (value : Z) (n : nodeStore) : nodeStore :=
  mkNodeStore (ns_db n) (ns_a n) (ns_m n) (alter (<[key := value]>) b (ns_boards n)).
Definition board_Load (n : nodeStore) (b : nat) (key : bytes) : option Z := ns_boards n !! b ≫= (.!! key).

(** ** The manager *)

Section Manager.
Context {Tx : Type} (writable : Peer -> bool).
(** The order in which Go visits the map of nodes. *)
Context (visit_nodes : gmap bytes ConnectInfo -> list (bytes * ConnectInfo)).

Record nodePoolManage := mkNodePoolManage {
  pm_nodes : nodeStore;
  nodeRotateIndex : Z;
  requestRotateIndex : Z;
  pm_storage : peerStorage;
  pm_mesh : NodeMesh (M := FrMessage Tx);
  pm_requests : list (bytes * PublicHash)             (** [RequestConnect] *)
}.
Definition poolM (A : Type) : Type := ST nodePoolManage A.
Definition NewNodePoolManage (db : gmap bytes bytes) : nodePoolManage :=
  mkNodePoolManage (newNodeStore db) 0 0 NewPeerStorage NewNodeMesh [].

Definition on_nodes {A} (f : nodeStore -> A * nodeStore) : poolM A := fun pm =>
  let '(x, n) := f (pm_nodes pm) in (Ok x, mkNodePoolManage n (nodeRotateIndex pm) (requestRotateIndex pm) (pm_storage pm) (pm_mesh pm) (pm_requests pm)).
Definition on_mesh {A} (m : meshM (M := FrMessage Tx) A) : poolM A := fun pm =>
  let '(x, ms) := m (pm_mesh pm) in (x, mkNodePoolManage (pm_nodes pm) (nodeRotateIndex pm) (requestRotateIndex pm) (pm_storage pm) ms (pm_requests pm)).
Definition set_rotate (i : Z) : poolM unit :=
  modify (fun pm => mkNodePoolManage (pm_nodes pm) i (requestRotateIndex pm) (pm_storage pm) (pm_mesh pm) (pm_requests pm)).
Definition set_request (i : Z) : poolM unit :=
  modify (fun pm => mkNodePoolManage (pm_nodes pm) (nodeRotateIndex pm) i (pm_storage pm) (pm_mesh pm) (pm_requests pm)).
Definition RequestConnect (Address : bytes) (TargetPubHash : PublicHash) : poolM unit :=
  modify (fun pm => mkNodePoolManage (pm_nodes pm) (nodeRotateIndex pm) (requestRotateIndex pm) (pm_storage pm) (pm_mesh pm) (pm_requests pm ++ [(Address, TargetPubHash)])).

Definition checkClosePeer (pm : nodePoolManage) (ID : bytes) : bool := match GetPeer ID (pm_mesh pm) with None => true | Some _ => false end.

Definition GetPeerList (pm : nodePoolManage) : list bytes * list bytes :=
  let l := (visit_nodes (ns_m (pm_nodes pm))).*2 in (ci_Address <$> l, ci_Hash <$> l).

(** The errors of [SendTo] are dropped. *)
Definition SendPeerList (targetHash : bytes) : poolM unit :=
  let! l := gets GetPeerList in
  let! _ := attempt (on_mesh (SendTo writable (copy_into PublicHashSize targetHash) (FPeerList l.1 l.2))) in ret tt.
Definition RequestPeerList (targetHash : bytes) : poolM unit :=
  let! _ := attempt (on_mesh (SendTo writable (copy_into PublicHashSize targetHash) FRequestPeerList)) in ret tt.

(** The oldest connection, the first of them in the order of the visit. *)
Definition oldest (l : list Peer) : option Peer :=
  foldl (fun o p => match o with None => Some p | Some c => if ConnectedTime p <? ConnectedTime c then Some p else Some c end) None l.
Definition kickOutPeerStorage : poolM unit :=
  let! ps := gets (fun pm => Peers (pm_mesh pm)) in
  if (MaxPeerStorageLen * 2 <? length ps)%nat then
    match oldest ps with Some p => on_mesh (RemovePeer (peer_ID p)) | None => ret tt end
  else ret tt.

Definition updateScoreBoard (duration : Z) (ci : ConnectInfo) : poolM unit :=
  let! fresh := on_nodes (NewConnectInfo (ci_Address ci) (ci_Hash ci) duration) in
  let! node := on_nodes (ns_LoadOrStore (ci_Hash ci) fresh) in
  on_nodes (fun n => (tt, board_Store (ci_PingScoreBoard node) (ci_Address ci) duration n)).

Definition NewNode (addr hash : bytes) (ping : Z) : poolM unit :=
  kickOutPeerStorage ;;;
  let! ci := on_nodes (NewConnectInfo addr hash ping) in
  on_nodes (fun n => (tt, unsafeStore hash ci n)) ;;;
  updateScoreBoard ping ci ;;;
  SendPeerList hash.

(** [hashs[i]] is not tested against the length of [hashs]. *)
Fixpoint AddPeerList (ips hashs : list bytes) : poolM unit :=
  match ips, hashs with
  | [], _ => ret tt
  | _ :: _, [] => throw "index out of range"
  | ip :: ips, hash :: hashs =>
      let! ci := on_nodes (NewConnectInfo ip hash (5 * Second)) in
      on_nodes (fun n => (tt, unsafeStore hash ci n)) ;;;
      AddPeerList ips hashs
  end.

Definition reqPeerList : poolM unit :=
  let! ps := gets (fun pm => Peers (pm_mesh pm)) in
  let! i := gets requestRotateIndex in
  match ps !! Z.to_nat i with
  | Some p => set_request (i + 1) ;;; RequestPeerList (peer_ID p)
  | None => ret tt
  end ;;;
  let! i := gets requestRotateIndex in
  if Z.of_nat (length ps) - 1 <=? i then set_request 0 else ret tt.

(** The pings that other entries reported, looked up by the hash of a peer. *)
Definition known_ping (n : nodeStore) (addr : bytes) : option Z :=
  match ns_Load n addr with Some node => board_Load n (ci_PingScoreBoard node) addr | None => None end.
Definition addConnectedConn (now : Z) (p : ConnectInfo) : poolM unit := modify (fun pm =>
  let ps := pm_storage pm in
  let ps := match ps_Add now (enough ps) p (known_ping (pm_nodes pm)) ps with Some (_, ps) => ps | None => ps end in
  mkNodePoolManage (pm_nodes pm) (nodeRotateIndex pm) (requestRotateIndex pm) ps (pm_mesh pm) (pm_requests pm)).

(** The loop over the nodes from [i] on, at most [k] of them. *)
Fixpoint append_loop (now : Z) (k : nat) (i : Z) : poolM unit :=
  match k with
  | O => ret tt
  | S k =>
      let! n := gets pm_nodes in
      let! p := lift (ns_Get n i) in
      set_rotate (i + 1) ;;;
      let! pm := gets id in
      match GetPeer (ci_Hash p) (pm_mesh pm) with
      | Some _ =>
          (if Have (pm_storage pm) (ci_Address p) then ret tt else addConnectedConn now p) ;;;
          append_loop now k (i + 1)
      | None => RequestConnect (ci_Address p) (copy_into PublicHashSize (ci_Hash p))
      end
  end.
Definition appendPeerStorage (now : Z) : poolM unit :=
  let! i := gets nodeRotateIndex in
  let! n := gets (fun pm => ns_Len (pm_nodes pm)) in
  append_loop now (Z.to_nat (n - i)) i ;;;
  let! i := gets nodeRotateIndex in
  if n - 1 <=? i then set_rotate 0 else ret tt.

(** One turn of [rotatePeer] after its pause; [enough_before] is what it found before. *)
Definition rotatePeer (now : Z) (enough_before : bool) : poolM unit :=
  (if enough_before then kickOutPeerStorage else ret tt) ;;;
  let! n := gets (fun pm => ns_Len (pm_nodes pm)) in
  (if n <? 4 then reqPeerList else ret tt) ;;;
  appendPeerStorage now.
End Manager.

(** ** Round trip of an entry *)

Lemma buffer_Read_app s rest n : n = length s -> (n <> 0)%nat -> buffer_Read n (s ++ rest) = Ok (s, rest).
Proof.
  intros -> Hn. unfold buffer_Read. destruct s as [|x s]; [done|]. cbn [app]. rewrite app_comm_cons, take_app_length, drop_app_length.
  do 2 f_equal. unfold copy_into. rewrite take_ge by done. by rewrite Nat.sub_diag, app_nil_r.
Qed.
Lemma read_str_write s b rest : write_str s = Ok b -> read_str (b ++ rest) = Ok (s, rest).
Proof.
  unfold write_str. destruct (Nat.ltb_spec 255 (length s)) as [|Hs]; [done|]. intros [= <-]. unfold read_str.
  rewrite <- app_comm_cons. change (u8 _ :: s ++ rest) with ([u8 (Z.of_nat (length s))] ++ (s ++ rest)). rewrite (buffer_Read_app _ _ 1) by done. cbn [res_bind head default from_option id].
  assert (E : Z.to_nat (u8 (Z.of_nat (length s))) = length s) by (unfold u8; rewrite Z.mod_small; lia). rewrite E.
  destruct s as [|x s]; [by destruct rest|]. by apply buffer_Read_app.
Qed.

(** An entry of the pool survives the database: with an address and a hash of at most
    255 bytes and a ping that fits its type, [ReadFrom] of what [WriteTo] wrote is the
    entry again (with a score board of its own); a longer address or hash is an error. *)
Lemma connect_info_roundtrip (ci : ConnectInfo) (board : nat) : -2 ^ 63 <= ci_PingTime ci < 2 ^ 63 ->
  ((length (ci_Address ci) <= 255)%nat -> (length (ci_Hash ci) <= 255)%nat ->
   exists bs, ci_WriteTo ci = (bs, None) /\ ci_ReadFrom bs (empty_info board) = (mkConnectInfo (ci_Address ci) (ci_Hash ci) (ci_PingTime ci) board, None)) /\
  ((255 < length (ci_Address ci))%nat \/ (255 < length (ci_Hash ci))%nat -> (ci_WriteTo ci).2 = Some ErrOverflowLength).
Proof.
  intros Hp. unfold ci_WriteTo. split.
  - intros Ha Hh. assert (Hw : forall s, (length s <= 255)%nat -> write_str s = Ok (u8 (Z.of_nat (length s)) :: s)) by (intros s Hs; unfold write_str; by apply Nat.ltb_ge in Hs as ->).
    rewrite !Hw by done. eexists. split; [done|]. unfold ci_ReadFrom, Uint64ToBytes. rewrite (buffer_Read_app _ _ 8) by (by rewrite ?length_le_bytes).
    rewrite (read_str_write (ci_Address ci)) by by apply Hw. rewrite <- (app_nil_r (_ :: ci_Hash ci)), (read_str_write (ci_Hash ci)) by by apply Hw. cbn [ci_Address ci_Hash ci_PingTime ci_PingScoreBoard empty_info]. do 2 f_equal.
    rewrite le_value_le_bytes. unfold i64, u64. change (256 ^ Z.of_nat 8) with (2 ^ 64). rewrite Z.mod_mod by lia. rewrite Zplus_mod_idemp_l, Z.mod_small; lia.
  - unfold write_str. destruct (Nat.ltb_spec 255 (length (ci_Address ci))); [done|]. destruct (Nat.ltb_spec 255 (length (ci_Hash ci))); [done|]. lia.
Qed.
Lemma connect_info_roundtrip_witness :
  let ci := mkConnectInfo [1; 2] [3] (5 * Second) 0 in
  exists bs, ci_WriteTo ci = (bs, None) /\ ci_ReadFrom bs (empty_info 7) = (mkConnectInfo [1; 2] [3] (5 * Second) 7, None).
Proof.
  intros ci. apply (proj1 (connect_info_roundtrip ci 7 ltac:(by vm_compute))); vm_compute; lia.
Defined.

(** ** The pool over its runs *)

Definition nodes_wf (n : nodeStore) : Prop := length (ns_a n) = size (ns_m n) /\ (forall k, is_Some (ns_m n !! k) -> is_Some (ns_db n !! k)).
Lemma unsafeStore_wf key v n : nodes_wf n -> nodes_wf (unsafeStore key v n) /\ (size (ns_m n) <= size (ns_m (unsafeStore key v n)))%nat.
Proof.
  intros [Hl Hdb]. unfold unsafeStore. case_bool_decide as Hm.
  - unfold nodes_wf. cbn [ns_a ns_m ns_db length]. rewrite Hm, map_size_singleton, map_size_empty. split; [split; [done|]|lia]. intros k. rewrite lookup_singleton_is_Some. intros <-. by rewrite lookup_insert_eq.
  - assert (Hins : forall k, is_Some (<[key := v]> (ns_m n) !! k) -> is_Some (<[key := (ci_WriteTo v).1]> (ns_db n) !! k)).
    { intros k. rewrite !lookup_insert_is_Some. intros [?|[? ?]]; [by left|right]; auto. }
    destruct (ns_m n !! key) as [v0|] eqn:Ek; unfold nodes_wf; cbn [ns_a ns_m ns_db].
    + rewrite map_size_insert_Some by by rewrite Ek. split; [split; [|done]|lia]. rewrite <- Hl. by destruct (ns_a n) as [|? [|]].
    + rewrite map_size_insert_None by done. split; [split; [|done]|lia]. rewrite length_app. cbn. lia.
Qed.
Lemma LoadOrStore_wf key v n : nodes_wf n -> nodes_wf (ns_LoadOrStore key v n).2 /\ (size (ns_m n) <= size (ns_m (ns_LoadOrStore key v n).2))%nat.
Proof. intros Hn. unfold ns_LoadOrStore. destruct (ns_m n !! key); [done|by apply unsafeStore_wf]. Qed.
Lemma newNodeStore_wf db : nodes_wf (newNodeStore db).
Proof.
  unfold newNodeStore. induction (map_to_list db) as [|[k v] l IH]; cbn [foldr].
  - split; [done|]. cbn. intros k. by rewrite lookup_empty, is_Some_alt.
  - unfold load_entry. by apply LoadOrStore_wf.
Qed.

Section Runs.
Context {Tx : Type} (writable : Peer -> bool) (visit_nodes : gmap bytes ConnectInfo -> list (bytes * ConnectInfo)).
Abbreviation Pool := (nodePoolManage (Tx := Tx)).

Record pool_ok (pm : Pool) : Prop := {
  po_nodes : nodes_wf (pm_nodes pm);
  po_rotate : 0 <= nodeRotateIndex pm <= ns_Len (pm_nodes pm);
  po_storage : storage_wf (pm_storage pm)
}.
(** From a pool with at least [n] nodes, to one with at least as many, without a panic. *)
Definition pool_keeps {A} (m : poolM (Tx := Tx) A) : Prop := forall pm, pool_ok pm ->
  match m pm with (Panic _, _) => False | (_, pm') => pool_ok pm' /\ ns_Len (pm_nodes pm) <= ns_Len (pm_nodes pm') end.

Lemma pool_keeps_bind {A B} (m : poolM A) (k : A -> poolM B) : pool_keeps m -> (forall x, pool_keeps (k x)) -> pool_keeps (bind m k).
Proof.
  intros Hm Hk pm Hpm. specialize (Hm pm Hpm). unfold bind. destruct (m pm) as [[x|e|w] pm1]; [|done|done]. destruct Hm as [Hpm1 Hle].
  specialize (Hk x pm1 Hpm1). destruct (k x pm1) as [[y|e|w] pm2]; [| |done]; destruct Hk; (split; [done|lia]).
Qed.
Lemma pool_keeps_ret {A} (x : A) : pool_keeps (ret x).
Proof. by intros pm Hpm. Qed.
Lemma pool_keeps_gets {A} (f : Pool -> A) : pool_keeps (gets f).
Proof. by intros pm Hpm. Qed.
Lemma pool_keeps_attempt {A} (m : poolM A) : pool_keeps m -> pool_keeps (attempt m).
Proof. intros Hm pm Hpm. specialize (Hm pm Hpm). unfold attempt. by destruct (m pm) as [[x|e|w] pm1]. Qed.
Lemma pool_keeps_if {A} (b : bool) (m m' : poolM A) : pool_keeps m -> pool_keeps m' -> pool_keeps (if b then m else m').
Proof. by destruct b. Qed.
Lemma pool_keeps_nodes {A} (f : nodeStore -> A * nodeStore) : (forall n, nodes_wf n -> nodes_wf (f n).2 /\ (size (ns_m n) <= size (ns_m (f n).2))%nat) -> pool_keeps (on_nodes f).
Proof.
  intros Hf pm [Hn Hr Hs]. destruct (Hf _ Hn) as [Hn' Hle]. unfold on_nodes. destruct (f (pm_nodes pm)) as [x n']. cbn in *. unfold ns_Len in *. split; [|lia]. split; cbn; [done| |done]. unfold ns_Len. lia.
Qed.
(** An operation of the mesh does not panic here. *)
Definition mesh_calm {A} (m : meshM (M := FrMessage Tx) A) : Prop := forall ms w, (m ms).1 <> Panic w.
Lemma pool_keeps_mesh {A} (m : meshM A) : mesh_calm m -> pool_keeps (on_mesh m).
Proof. intros Hm pm [Hn Hr Hs]. specialize (Hm (pm_mesh pm)). unfold on_mesh. destruct (m (pm_mesh pm)) as [[x|e|w] ms]; [split; [by split|done]..|]. by apply (Hm w). Qed.

Lemma RemovePeer_calm ID : mesh_calm (RemovePeer ID).
Proof. intros ms w. unfold RemovePeer, close_if. cbn. unfold bind. cbn. by repeat case_match. Qed.
Lemma SendTo_calm ph m : mesh_calm (SendTo writable ph m).
Proof. intros ms w. unfold SendTo, bind. cbn. destruct (GetPeer ph ms) as [p|]; [|done]. destruct (writable p); [done|]. apply RemovePeer_calm. Qed.

Create HintDb pool.
Hint Resolve pool_keeps_ret pool_keeps_gets RemovePeer_calm SendTo_calm : pool.
Lemma kickOut_keeps : pool_keeps kickOutPeerStorage.
Proof. apply pool_keeps_bind; [auto with pool|]. intros ps. apply pool_keeps_if; [|auto with pool]. destruct (oldest ps); [apply pool_keeps_mesh|]; auto with pool. Qed.
Lemma SendPeerList_keeps h : pool_keeps (SendPeerList writable visit_nodes h).
Proof. apply pool_keeps_bind; [auto with pool|]. intros l. apply pool_keeps_bind; [apply pool_keeps_attempt, pool_keeps_mesh; auto with pool|auto with pool]. Qed.
Lemma store_keeps key v : pool_keeps (on_nodes (fun n => (tt, unsafeStore key v n))).
Proof. apply pool_keeps_nodes. intros n Hn. by apply unsafeStore_wf. Qed.
Lemma NewConnectInfo_keeps a h t : pool_keeps (on_nodes (NewConnectInfo a h t)).
Proof. by apply pool_keeps_nodes. Qed.
Lemma NewNode_keeps a h t : pool_keeps (NewNode writable visit_nodes a h t).
Proof.
  apply pool_keeps_bind; [apply kickOut_keeps|]. intros _. apply pool_keeps_bind; [apply NewConnectInfo_keeps|]. intros ci. apply pool_keeps_bind; [apply store_keeps|]. intros _.
  apply pool_keeps_bind; [|intros; apply SendPeerList_keeps]. apply pool_keeps_bind; [apply NewConnectInfo_keeps|]. intros f.
  apply pool_keeps_bind; [apply pool_keeps_nodes; intros; by apply LoadOrStore_wf|]. intros node. by apply pool_keeps_nodes.
Qed.
Lemma AddPeerList_keeps ips : forall hashs, (length ips <= length hashs)%nat -> pool_keeps (AddPeerList ips hashs).
Proof.
  induction ips as [|ip ips IH]; intros [|h hs] Hl; cbn [AddPeerList length] in *; [auto with pool..|lia|].
  apply pool_keeps_bind; [apply NewConnectInfo_keeps|]. intros ci. apply pool_keeps_bind; [apply store_keeps|]. intros _. apply IH. lia.
Qed.
Lemma set_request_keeps i : pool_keeps (set_request i).
Proof. intros pm []. by split. Qed.
Lemma reqPeerList_keeps : pool_keeps (reqPeerList writable).
Proof.
  apply pool_keeps_bind; [auto with pool|]. intros ps. apply pool_keeps_bind; [auto with pool|]. intros i. apply pool_keeps_bind.
  - destruct (ps !! Z.to_nat i); [|auto with pool]. apply pool_keeps_bind; [apply set_request_keeps|]. intros _.
    apply pool_keeps_bind; [apply pool_keeps_attempt, pool_keeps_mesh; auto with pool|auto with pool].
  - intros _. apply pool_keeps_bind; [auto with pool|]. intros j. apply pool_keeps_if; [apply set_request_keeps|auto with pool].
Qed.
Lemma addConnectedConn_keeps now p : pool_keeps (addConnectedConn now p).
Proof.
  intros pm [Hn Hr Hs]. cbn. destruct (adding_a_peer_ends now p (known_ping (pm_nodes pm)) (pm_storage pm) _ Hs (le_n _)) as ([b ps] & E & Hw). rewrite E. split; [by split|lia].
Qed.

Lemma Get_ok n i : nodes_wf n -> 0 <= i < ns_Len n -> exists ci, ns_Get n i = Ok ci.
Proof.
  intros [Hl _] Hi. unfold ns_Get, ns_Len in *. destruct (Z.ltb_spec i 0); [lia|]. destruct (Z.ltb_spec (Z.of_nat (length (ns_a n))) i); [lia|]. cbn.
  destruct (ns_a n !! Z.to_nat i) eqn:E; [by eexists|]. apply lookup_ge_None in E. lia.
Qed.
Definition pool_post (pm : Pool) {A} (r : res A * Pool) : Prop :=
  match r with (Panic _, _) => False | (_, pm') => pool_ok pm' /\ ns_Len (pm_nodes pm) <= ns_Len (pm_nodes pm') end.
Lemma pool_post_bind {A B} (m : poolM A) (k : A -> poolM B) pm : pool_post pm (m pm) ->
  (forall x pm1, pool_ok pm1 -> ns_Len (pm_nodes pm) <= ns_Len (pm_nodes pm1) -> pool_post pm1 (k x pm1)) -> pool_post pm (bind m k pm).
Proof.
  unfold bind. intros Hm Hk. destruct (m pm) as [[x|e|w] pm1]; [|done|done]. destruct Hm as [Hpm1 Hle]. specialize (Hk x pm1 Hpm1 Hle).
  destruct (k x pm1) as [[y|e|w] pm2]; [| |done]; destruct Hk; (split; [done|lia]).
Qed.
Lemma append_loop_keeps now k : forall i pm, pool_ok pm -> 0 <= i -> i + Z.of_nat k <= ns_Len (pm_nodes pm) -> pool_post pm (append_loop now k i pm).
Proof.
  induction k as [|k IH]; intros i pm Hpm Hi Hk; cbn [append_loop]; [by split|].
  destruct (Get_ok (pm_nodes pm) i (po_nodes _ Hpm)) as [p Ep]; [lia|]. unfold bind, gets, lift. cbn. rewrite Ep. cbn.
  set (pm1 := mkNodePoolManage (pm_nodes pm) (i + 1) (requestRotateIndex pm) (pm_storage pm) (pm_mesh pm) (pm_requests pm)).
  assert (Hpm1 : pool_ok pm1) by (destruct Hpm; split; cbn; [done|lia|done]).
  destruct (GetPeer (ci_Hash p) (pm_mesh pm)).
  - change (pool_post pm1 (bind (if Have (pm_storage pm) (ci_Address p) then ret tt else addConnectedConn now p) (fun _ => append_loop now k (i + 1)) pm1)).
    apply pool_post_bind; [destruct (Have _ _); [by split|by apply addConnectedConn_keeps]|]. intros _ pm2 Hpm2 Hle. cbn in Hle. apply IH; [done|lia..].
  - destruct Hpm1. cbn in *. split; [by split|lia].
Qed.

Lemma appendPeerStorage_keeps now : pool_keeps (appendPeerStorage now).
Proof.
  intros pm Hpm. unfold appendPeerStorage. unfold bind at 1 2 3. cbn [gets]. pose proof (po_rotate _ Hpm) as Hr.
  pose proof (append_loop_keeps now (Z.to_nat (ns_Len (pm_nodes pm) - nodeRotateIndex pm)) (nodeRotateIndex pm) pm Hpm) as Hl.
  destruct (append_loop now _ _ pm) as [[[]|e|w] pm1]; [|apply Hl; lia|apply Hl; lia]. destruct Hl as [[Hn1 Hr1 Hs1] Hle]; [lia..|]. unfold bind. cbn.
  destruct (_ <=? _); cbn; (split; [|lia]); split; cbn; try done. lia.
Qed.

Lemma rotatePeer_keeps now b : pool_keeps (rotatePeer writable now b).
Proof.
  apply pool_keeps_bind; [apply pool_keeps_if; [apply kickOut_keeps|auto with pool]|]. intros _. apply pool_keeps_bind; [auto with pool|]. intros n.
  apply pool_keeps_bind; [apply pool_keeps_if; [apply reqPeerList_keeps|auto with pool]|]. intros _. apply appendPeerStorage_keeps.
Qed.

(** What happens to the pool and its mesh. *)
Inductive pool_event :=
  | PNewNode (addr hash : bytes) (ping : Z)
  | PAddPeerList (ips hashs : list bytes)
  | PRotate (now : Z) (enough_before : bool)
  | PClient (p : Peer) | PClientGone (p : Peer) | PServer (p : Peer) | PServerGone (p : Peer) | PRemove (ID : bytes).
Definition pool_do (e : pool_event) : poolM (Tx := Tx) unit :=
  match e with
  | PNewNode addr hash ping => NewNode writable visit_nodes addr hash ping
  | PAddPeerList ips hashs => AddPeerList ips hashs
  | PRotate now b => rotatePeer writable now b
  | PClient p => on_mesh (client_connected p)
  | PClientGone p => on_mesh (client_gone p)
  | PServer p => on_mesh (server_connected p)
  | PServerGone p => on_mesh (server_gone p)
  | PRemove ID => on_mesh (RemovePeer ID)
  end.
Definition whole_list (e : pool_event) : Prop := match e with PAddPeerList ips hashs => (length ips <= length hashs)%nat | _ => True end.

Lemma removeInMap_calm ID m : mesh_calm (removePeerInMap ID m).
Proof. intros ms w. unfold removePeerInMap, close_if. cbn. unfold bind. cbn. by repeat case_match. Qed.
Lemma connected_calm p : mesh_calm (client_connected p) /\ mesh_calm (server_connected p).
Proof.
  split; intros ms w; unfold client_connected, server_connected; unfold bind; cbn.
  - destruct (clientPeerMap ms !! peer_ID p); cbn; [unfold close_if; by case_match|done].
  - destruct (serverPeerMap ms !! peer_ID p); cbn; [unfold close_if; by case_match|done].
Qed.
Lemma pool_do_keeps e : whole_list e -> pool_keeps (pool_do e).
Proof.
  intros He. destruct e; cbn [pool_do].
  - apply NewNode_keeps.
  - by apply AddPeerList_keeps.
  - apply rotatePeer_keeps.
  - by apply pool_keeps_mesh, connected_calm.
  - apply pool_keeps_mesh. intros ms w. apply removeInMap_calm.
  - by apply pool_keeps_mesh, connected_calm.
  - apply pool_keeps_mesh. intros ms w. apply removeInMap_calm.
  - apply pool_keeps_mesh. auto with pool.
Qed.

(** C13. As long as the peer lists that arrive have a hash for every address, no
    sequence of new nodes, peer lists, connections, losses and rotations makes the pool
    panic: the list and the map of the nodes have the same number of entries, every
    entry is in the database, the rotation index stays within the list, and the
    storage of the peers keeps its shape. *)
Theorem pool_never_panics (db : gmap bytes bytes) (events : list pool_event) : Forall whole_list events ->
  match for_each events pool_do (NewNodePoolManage db) with
  | (Panic _, _) => False
  | (_, pm) =>
      length (ns_a (pm_nodes pm)) = size (ns_m (pm_nodes pm)) /\ (forall k, is_Some (ns_m (pm_nodes pm) !! k) -> is_Some (ns_db (pm_nodes pm) !! k)) /\
      0 <= nodeRotateIndex pm <= Z.of_nat (size (ns_m (pm_nodes pm))) /\ storage_wf (pm_storage pm)
  end.
Proof.
  intros Hev. assert (Hrun : pool_keeps (for_each events pool_do)).
  { induction Hev; cbn [for_each]; [auto with pool|]. apply pool_keeps_bind; [by apply pool_do_keeps|auto]. }
  assert (Hnew : pool_ok (NewNodePoolManage db)) by (split; [apply newNodeStore_wf|unfold ns_Len; cbn; lia|apply NewPeerStorage_wf]).
  specialize (Hrun _ Hnew). destruct (for_each events pool_do (NewNodePoolManage db)) as [[]]; [| |done]; destruct Hrun as [[[Hl Hdb] Hr Hs] _]; done.
Qed.

(** A list of peers with an address more than it has hashes stops the node. *)
Lemma short_peer_list_panics ip ips (pm : Pool) : exists w, (AddPeerList (ip :: ips) [] pm).1 = Panic w.
Proof. by eexists. Qed.
End Runs.

(** ** A small pool *)

Definition node1 : bytes := NewPublicHash [1].
Definition pool_after (es : list pool_event) : res unit * nodePoolManage (Tx := unit) :=
  for_each es (pool_do (fun _ => true) map_to_list) (NewNodePoolManage ∅).
Definition some_events : list pool_event :=
  [PClient (mkPeer node1 0 5); PNewNode [10; 11] node1 (20 * Millisecond); PAddPeerList [[12]; [13]] [NewPublicHash [2]; NewPublicHash [3]]; PRotate 50 false; PRotate 60 true].

Lemma pool_never_panics_witness :
  Forall whole_list some_events /\
  match pool_after some_events with
  | (Panic _, _) => False
  | (_, pm) =>
      length (ns_a (pm_nodes pm)) = size (ns_m (pm_nodes pm)) /\ (forall k, is_Some (ns_m (pm_nodes pm) !! k) -> is_Some (ns_db (pm_nodes pm) !! k)) /\
      0 <= nodeRotateIndex pm <= Z.of_nat (size (ns_m (pm_nodes pm))) /\ storage_wf (pm_storage pm)
  end.
Proof.
  assert (He : Forall whole_list some_events) by (repeat constructor; cbn; lia). split; [exact He|].
  apply (pool_never_panics (fun _ => true) map_to_list ∅ some_events He).
Defined.

(** The storage is asked for the address of a node, but knows nodes by their hashes: the
    node that is connected is added a second time. *)
Lemma rotation_adds_again :
  let pm := (pool_after (some_events ++ [PRotate 70 false])).2 in
  Have (pm_storage pm) node1 = true /\ Have (pm_storage pm) [10; 11] = false.
Proof. vm_compute. done. Qed.

(** After a restart the entries are known by their addresses: a node is not found by its
    hash, and storing it again gives it a second entry. *)
Lemma restart_forgets_the_hashes :
  let n := newNodeStore (ns_db (pm_nodes (pool_after (take 2 some_events)).2)) in
  ns_Load n node1 = None /\ is_Some (ns_Load n [10; 11]) /\ ns_Len (ns_LoadOrStore node1 (mkConnectInfo [10; 11] node1 0 0) n).2 = 2.
Proof. vm_compute. split_and!; [done|by eexists|done]. Qed.
