(* ===== verification/P2PNode.v ===== *)
(** * The node that follows the chain

    [service/p2p/node.go] and [service/p2p/node_send.go]: a node without a vote.  It asks
    its peers for blocks, connects them in order, and passes transactions on.  As in the
    other nodes a handler is a step, one reading of the clock serves one step, and the
    cache of packets is left out: it holds the packets of blocks of the chain. *)

From stdpp Require Import base gmap list sorting strings.
From Stdlib Require Import ZArith Lia.
From S2P Require Import Prelude Common LevelRoot OrderedMap Types Context Chain RankTable Consensus Queue LinkedQueue ExpireQueue TxPool RequestTimer Observer FormulatorNode NodeMesh PeerStorage PeerPool.

Section Node.
Context `{T : !LLRB (item PublicHash bool) item_Less}.
Context {Ch Tx Cx P : Type} `{CI : !ChainI Ch Tx Cx} `{CR : !CreatorI Ch Tx Cx} `{PI : !PoolI P Tx}.
Context `{SH : Sha256} `{EC : Ecrecover} `{MH : !Marshaler Header}.
Context (visit : gmap bytes StatusMessage -> list (bytes * StatusMessage)).
Context (visit_nodes : gmap bytes ConnectInfo -> list (bytes * ConnectInfo)).
Context (writable : Peer -> bool).
Context (myPublicHash : PublicHash).

(** A message that waits to be sent; a packet is the block message it was made from. *)
Record SendMessageItem := mkSendItem { si_Target : PublicHash; si_Message : FrMessage Tx; si_Limit : nat; si_Packet : bool }.

Record Node := mkNode {
  nd_chain : Ch;
  nd_requestTimer : RequestTimer;
  nd_blockQ : SortedQueue (Block Tx);
  nd_statusMap : gmap bytes StatusMessage;
  nd_txpool : P;
  nd_txQ : ExpireQueue (A := TransactionMessage Tx);
  nd_txWaitQ : LinkedQueue Hash256 (TxMsgItem Tx);
  nd_recvQueues : list (list (bytes * FrMessage Tx));
  nd_sendQueues : list (list SendMessageItem);
  nd_pool : nodePoolManage (Tx := Tx);                  (** [ms], with its pool *)
  nd_now : Z
}.
Definition ndM (A : Type) : Type := ST Node A.

(** *** Fields *)

Definition nd_on_chain {A} (m : ST Ch A) : ndM A := fun nd =>
  let '(r, c) := m (nd_chain nd) in
  (r, mkNode c (nd_requestTimer nd) (nd_blockQ nd) (nd_statusMap nd) (nd_txpool nd) (nd_txQ nd) (nd_txWaitQ nd) (nd_recvQueues nd) (nd_sendQueues nd) (nd_pool nd) (nd_now nd)).
Definition nd_set_timer (f : RequestTimer -> RequestTimer) : ndM unit := modify (fun nd =>
  mkNode (nd_chain nd) (f (nd_requestTimer nd)) (nd_blockQ nd) (nd_statusMap nd) (nd_txpool nd) (nd_txQ nd) (nd_txWaitQ nd) (nd_recvQueues nd) (nd_sendQueues nd) (nd_pool nd) (nd_now nd)).
Definition nd_set_blockQ (q : SortedQueue (Block Tx)) : ndM unit := modify (fun nd =>
  mkNode (nd_chain nd) (nd_requestTimer nd) q (nd_statusMap nd) (nd_txpool nd) (nd_txQ nd) (nd_txWaitQ nd) (nd_recvQueues nd) (nd_sendQueues nd) (nd_pool nd) (nd_now nd)).
Definition nd_set_status (f : gmap bytes StatusMessage -> gmap bytes StatusMessage) : ndM unit := modify (fun nd =>
  mkNode (nd_chain nd) (nd_requestTimer nd) (nd_blockQ nd) (f (nd_statusMap nd)) (nd_txpool nd) (nd_txQ nd) (nd_txWaitQ nd) (nd_recvQueues nd) (nd_sendQueues nd) (nd_pool nd) (nd_now nd)).
Definition nd_on_txpool {A} (m : ST P A) : ndM A := fun nd =>
  let '(r, p) := m (nd_txpool nd) in
  (r, mkNode (nd_chain nd) (nd_requestTimer nd) (nd_blockQ nd) (nd_statusMap nd) p (nd_txQ nd) (nd_txWaitQ nd) (nd_recvQueues nd) (nd_sendQueues nd) (nd_pool nd) (nd_now nd)).
Definition nd_set_txQ (f : ExpireQueue -> ExpireQueue) : ndM unit := modify (fun nd =>
  mkNode (nd_chain nd) (nd_requestTimer nd) (nd_blockQ nd) (nd_statusMap nd) (nd_txpool nd) (f (nd_txQ nd)) (nd_txWaitQ nd) (nd_recvQueues nd) (nd_sendQueues nd) (nd_pool nd) (nd_now nd)).
Definition nd_on_wait {A} (m : ST (LinkedQueue Hash256 (TxMsgItem Tx)) A) : ndM A := fun nd =>
  let '(r, q) := m (nd_txWaitQ nd) in
  (r, mkNode (nd_chain nd) (nd_requestTimer nd) (nd_blockQ nd) (nd_statusMap nd) (nd_txpool nd) (nd_txQ nd) q (nd_recvQueues nd) (nd_sendQueues nd) (nd_pool nd) (nd_now nd)).
Definition nd_set_recv (f : list (list (bytes * FrMessage Tx)) -> list (list (bytes * FrMessage Tx))) : ndM unit := modify (fun nd =>
  mkNode (nd_chain nd) (nd_requestTimer nd) (nd_blockQ nd) (nd_statusMap nd) (nd_txpool nd) (nd_txQ nd) (nd_txWaitQ nd) (f (nd_recvQueues nd)) (nd_sendQueues nd) (nd_pool nd) (nd_now nd)).
Definition nd_set_send (f : list (list SendMessageItem) -> list (list SendMessageItem)) : ndM unit := modify (fun nd =>
  mkNode (nd_chain nd) (nd_requestTimer nd) (nd_blockQ nd) (nd_statusMap nd) (nd_txpool nd) (nd_txQ nd) (nd_txWaitQ nd) (nd_recvQueues nd) (f (nd_sendQueues nd)) (nd_pool nd) (nd_now nd)).
Definition nd_on_pool {A} (m : poolM (Tx := Tx) A) : ndM A := fun nd =>
  let '(r, pm) := m (nd_pool nd) in
  (r, mkNode (nd_chain nd) (nd_requestTimer nd) (nd_blockQ nd) (nd_statusMap nd) (nd_txpool nd) (nd_txQ nd) (nd_txWaitQ nd) (nd_recvQueues nd) (nd_sendQueues nd) pm (nd_now nd)).
Definition nd_get {A} (f : Ch -> A) : ndM A := gets (fun nd => f (nd_chain nd)).
Definition nd_clock : ndM Z := gets nd_now.
Definition nd_mesh {A} (m : meshM (M := FrMessage Tx) A) : ndM A := nd_on_pool (on_mesh m).

(** A new node; the three groups of [txQ] as in the formulator. *)
Definition NewNode_p2p (c : Ch) (db : gmap bytes bytes) (t : Z) : Node :=
  mkNode c NewRequestTimer NewSortedQueue ∅ pl_New (queue_of [5 * Second; 10 * Second; 30 * Second]) NewLinkedQueue
    [[]; []; []] [[]; []; []] (NewNodePoolManage db) t.

(** ** Sending *)

Definition nd_push (Priority : nat) (it : SendMessageItem) : ndM unit := nd_set_send (alter (fun l => l ++ [it]) Priority).
Definition nd_sendMessage (Priority : nat) (Target : PublicHash) (m : FrMessage Tx) : ndM unit := nd_push Priority (mkSendItem Target m 0 false).
Definition nd_sendMessagePacket (Priority : nat) (Target : PublicHash) (m : FrMessage Tx) : ndM unit := nd_push Priority (mkSendItem Target m 0 true).
Definition nd_broadcastMessage (Priority : nat) (m : FrMessage Tx) : ndM unit := nd_push Priority (mkSendItem EmptyPublicHash m 0 false).
Definition nd_limitCastMessage (Priority : nat) (m : FrMessage Tx) : ndM unit := nd_push Priority (mkSendItem EmptyPublicHash m 3 false).
Definition nd_exceptLimitCastMessage (Priority : nat) (Target : PublicHash) (m : FrMessage Tx) : ndM unit := nd_push Priority (mkSendItem Target m 3 false).

Definition nd_status : ndM (FrMessage Tx) :=
  nd_get (fun c => FOb (MStatus (mkStatusMessage (cp_Version c) (cp_Height c) (cp_LastHash c)))).
Definition nd_sendStatusTo (TargetPubHash : PublicHash) : ndM unit :=
  if bool_decide (TargetPubHash = myPublicHash) then ret tt
  else let! nm := nd_status in nd_sendMessage 0 TargetPubHash nm.
Definition nd_broadcastStatus : ndM unit := let! nm := nd_status in nd_broadcastMessage 0 nm.
Definition nd_sendRequestBlockTo (TargetPubHash : PublicHash) (Height : Z) : ndM unit :=
  if bool_decide (TargetPubHash = myPublicHash) then ret tt
  else
    nd_sendMessage 0 TargetPubHash (FOb (MRequest Height)) ;;;
    let! t := nd_clock in
    nd_set_timer (fun tm => timer_Add t tm Height (5 * Second) TargetPubHash).

(** One turn of the goroutine that sends: the first message of the first queue that has
    one; an error removes the peer. *)
Definition send_item (it : SendMessageItem) : meshM (M := FrMessage Tx) unit :=
  if si_Packet it then SendTo writable (si_Target it) (si_Message it)
  else if bool_decide (si_Target it = EmptyPublicHash) then
    if (0 <? si_Limit it)%nat then ExceptCastLimit [] (si_Message it) (si_Limit it) else BroadcastMessage (si_Message it)
  else if (0 <? si_Limit it)%nat then ExceptCastLimit (si_Target it) (si_Message it) (si_Limit it)
  else SendTo writable (si_Target it) (si_Message it).

(** The first queue that is not empty, its first element and the queues without it. *)
Fixpoint pop_first {A} (qs : list (list A)) : option (A * list (list A)) :=
  match qs with
  | [] => None
  | (x :: q) :: qs => Some (x, q :: qs)
  | [] :: qs => (fun r => (r.1, [] :: r.2)) <$> pop_first qs
  end.
Definition nd_send_step : ndM unit :=
  let! qs := gets nd_sendQueues in
  match pop_first qs with
  | None => ret tt
  | Some (it, qs) =>
      nd_set_send (fun _ => qs) ;;;
      let! r := attempt (nd_mesh (send_item it)) in
      match r with inl _ => nd_mesh (NodeMesh.RemovePeer (si_Target it)) | inr _ => ret tt end
  end.

(** ** Blocks *)

Definition nd_addBlock (b : Block Tx) : ndM unit :=
  let h := b_Header b in
  let! c := nd_get id in
  if h_Height h <=? cp_Height c then
    let! hash := lift (cp_Hash c (h_Height h)) in
    guard (bool_decide (hash = header_hash h)) ErrFoundForkedBlock
  else
    let! q := gets nd_blockQ in
    let '(item, q) := FindOrInsert q b (h_Height h) in
    nd_set_blockQ q ;;;
    match item with
    | Some old => guard (bool_decide (header_hash (b_Header old) = header_hash h)) ErrFoundForkedBlock
    | None => ret tt
    end.

(** [for i := BaseHeight + 1; i <= BaseHeight+10 && i <= LimitHeight; i++] on uint32.
    In the window that ends at the largest height, which only a peer that claims such
    a height opens, the loop of the code does not end; here it ends. *)
Definition nd_ask_window (Target : PublicHash) (Base Limit : Z) : ndM unit :=
  for_each (seqZ (u32 (Base + 1)) (Z.min (u32 (Base + 10)) Limit + 1 - u32 (Base + 1))) (fun i =>
    let! tm := gets nd_requestTimer in
    if timer_Exist tm i then ret tt
    else
      let! q := gets nd_blockQ in
      match sq_find q i with
      | None => nd_sendRequestBlockTo Target i
      | Some _ => ret tt
      end).

Fixpoint nd_ask_windows (Target : PublicHash) (Height Limit : Z) (qs : list Z) : ndM unit :=
  match qs with
  | [] => ret tt
  | q :: qs =>
      let BaseHeight := u32 (Height + q * 10) in
      if Limit <? BaseHeight then ret tt else nd_ask_window Target BaseHeight Limit ;;; nd_ask_windows Target Height Limit qs
  end.

Fixpoint nd_try_windows (Height : Z) (qs : list Z) : ndM unit :=
  match qs with
  | [] => ret tt
  | q :: qs =>
      let BaseHeight := u32 (Height + q * 10) in
      let! m := gets nd_statusMap in
      match (match pick visit m (fun h => u32 (BaseHeight + 10) <=? h) with Some x => Some x | None => pick visit m (fun h => BaseHeight <=? h) end) with
      | Some (ID, LimitHeight) =>
          if (length ID =? 0)%nat then ret tt
          else nd_ask_window (copy_into PublicHashSize ID) BaseHeight LimitHeight ;;; nd_try_windows Height qs
      | None => ret tt
      end
  end.
Definition nd_tryRequestBlocks : ndM unit := let! h := nd_get cp_Height in nd_try_windows h [0; 1; 2].

(** The block timer: at most [n] blocks; an error of [ConnectBlock] stops the node. *)
Fixpoint nd_connect_queued (n : nat) (TargetHeight : Z) : ndM bool :=
  match n with
  | O => ret false
  | S n =>
      let! q := gets nd_blockQ in
      let '(item, q) := PopUntil q TargetHeight in
      nd_set_blockQ q ;;;
      match item with
      | None => ret false
      | Some b =>
          let! r := attempt (nd_on_chain (cn_ConnectBlock b)) in
          match r with
          | inl _ => throw "ConnectBlock"
          | inr _ => let! _ := nd_connect_queued n (TargetHeight + 1) in ret (negb (n =? 0)%nat)
          end
      end
  end.
Definition nd_block_timer : ndM unit :=
  let! h := nd_get cp_Height in
  let! hasItem := nd_connect_queued 11 (u32 (h + 1)) in
  if hasItem then nd_broadcastStatus ;;; nd_tryRequestBlocks else ret tt.

(** ** Transactions *)

Definition nd_txQ_Push (key : bytes) (m : TransactionMessage Tx) : ndM unit :=
  let! t := nd_clock in
  let! q := gets nd_txQ in
  let! q := lift (eq_Push t key m q) in
  nd_set_txQ (fun _ => q).
Definition nd_addTx (TxHash : Hash256) (t : Z) (tx : Tx) (sigs : list Signature) : ndM unit :=
  let! c := nd_get id in
  let! p := gets nd_txpool in
  guard (negb (pl_IsExist p TxHash)) ErrExistTransaction ;;;
  match fn_account tx with
  | Some (Seq, From) =>
      let seq := cp_Seq c From in
      guard (negb (Seq <=? seq)) ErrPastSeq ;;;
      guard (negb (u64 (seq + 100) <? Seq)) ErrTooFarSeq
  | None => ret tt
  end ;;;
  let! signers := lift (recover_signers TxHash sigs) in
  lift (ct_Validate c t tx signers) ;;;
  nd_on_txpool (pl_Push (cp_ChainID c) t TxHash tx sigs signers) ;;;
  nd_txQ_Push TxHash (mkTransactionMessage t tx sigs).

Definition nd_wait_tx (PeerID : bytes) (m : TransactionMessage Tx) : ndM unit :=
  let! id := nd_get cp_ChainID in
  let TxHash := fn_hash id (tm_TxType m) (tm_Tx m) in
  nd_on_wait (lq_Push TxHash (mkTxMsgItem TxHash m PeerID)).
Definition nd_AddTx (t : res Z) (tx : Tx) (sigs : list Signature) : ndM unit :=
  let! t := lift t in nd_wait_tx [] (mkTransactionMessage t tx sigs).

Definition nd_worker : ndM unit :=
  let! o := nd_on_wait lq_Pop in
  match o with
  | None => ret tt
  | Some it =>
      let m := xi_Message it in
      let! r := attempt (nd_addTx (xi_TxHash it) (tm_TxType m) (tm_Tx m) (tm_Sigs m)) in
      match r with
      | inl e => if negb (bool_decide (e ∈ [ErrInvalidUTXO; ErrExistTransaction; ErrTooFarSeq; ErrPastSeq])) && negb (length (xi_PeerID it) =? 0)%nat
                 then nd_mesh (NodeMesh.RemovePeer (xi_PeerID it)) else ret tt
      | inr _ => ret tt
      end ;;;
      if negb (length (xi_PeerID it) =? 0)%nat then nd_exceptLimitCastMessage 1 (copy_into PublicHashSize (xi_PeerID it)) (FTransaction m)
      else nd_limitCastMessage 1 (FTransaction m)
  end.

Definition nd_OnItemExpired (Key : bytes) (msg : TransactionMessage Tx) (IsLast : bool) : ndM unit :=
  nd_limitCastMessage 1 (FTransaction msg) ;;;
  if IsLast then nd_on_txpool (pl_Remove (copy_into Hash256Size Key) (tm_Tx msg)) else ret tt.

(** The goroutine of a group of [txQ] calls the handler with what it holds. *)
Definition nd_expire_call (idx : nat) : ndM unit :=
  let! q := gets nd_txQ in
  match eq_running q !! idx with
  | Some (Collected m) =>
      let IsLast := (idx + 1 =? length (eq_groups q))%nat in
      for_each (map_to_list m) (fun kv => nd_OnItemExpired kv.1 kv.2 IsLast) ;;;
      nd_set_txQ (call idx m)
  | _ => ret tt
  end.

(** ** Messages *)

Definition nd_handlePeerMessage (ID : bytes) (m : FrMessage Tx) : ndM unit :=
  let Sender := copy_into PublicHashSize ID in
  let! c := nd_get id in
  match m with
  | FOb (MRequest height) =>
      if cp_Height c <? height then ret tt
      else
        let! b := lift (cp_Block c height) in
        nd_sendMessagePacket 0 Sender (FOb (MBlock b))
  | FOb (MStatus msg) =>
      nd_set_status (raise_status ID msg) ;;;
      let Height := cp_Height c in
      if Height <? st_Height msg then
        nd_ask_windows Sender Height (st_Height msg) [0; 1; 2]
      else
        let! h := lift (cp_Hash c (st_Height msg)) in
        if bool_decide (h = st_LastHash msg) then ret tt else nd_mesh (NodeMesh.RemovePeer ID)
  | FOb (MBlock b) =>
      let! r := attempt (nd_addBlock b) in
      match r with
      | inl e => (if bool_decide (e = ErrFoundForkedBlock) then nd_mesh (NodeMesh.RemovePeer ID) else ret tt) ;;; fail e
      | inr _ => nd_set_status (raise_height ID (h_Height (b_Header b)))
      end
  | FTransaction msg => nd_wait_tx ID msg
  | FPeerList Ips Hashs => nd_on_pool (AddPeerList Ips Hashs)
  | FRequestPeerList =>
      let! l := gets (fun nd => GetPeerList visit_nodes (nd_pool nd)) in
      nd_sendMessage 2 Sender (FPeerList l.1 l.2)
  | _ => throw "unknown message"
  end.

Definition nd_OnRecv (ID : bytes) (m : FrMessage Tx) : ndM unit :=
  match recv_class m with
  | Some q => nd_set_recv (alter (fun l => l ++ [(ID, m)]) q)
  | None => ret tt
  end.

(** One turn of the goroutine that receives. *)
Definition nd_recv_step : ndM unit :=
  let! qs := gets nd_recvQueues in
  match pop_first qs with
  | None => ret tt
  | Some ((ID, m), qs) =>
      nd_set_recv (fun _ => qs) ;;;
      let! r := attempt (nd_handlePeerMessage ID m) in
      match r with inl _ => nd_mesh (NodeMesh.RemovePeer ID) | inr _ => ret tt end
  end.

Definition nd_OnConnected (ID : bytes) : ndM unit :=
  nd_set_status (<[ID := mkStatusMessage 0 0 EmptyHash]>) ;;;
  nd_sendStatusTo (copy_into PublicHashSize ID).
Definition nd_OnDisconnected (ID : bytes) : ndM unit :=
  nd_set_status (delete ID) ;;;
  nd_set_timer (fun tm => RemovesByValue tm ID) ;;;
  nd_tryRequestBlocks.

(** ** The steps of [Run] *)

Inductive nd_event :=
  | NOnTime (t : Z)
  | NOnRecv (ID : bytes) (m : FrMessage Tx)
  | NConnected (ID : bytes) | NDisconnected (ID : bytes)
  | NPool (e : pool_event)
  | NRecvStep | NSendStep | NWorker | NBlockTimer | NRequestTimer
  | NAddTx (t : res Z) (tx : Tx) (sigs : list Signature)
  | NCollect (idx : nat) | NCall (idx : nat) | NForward (idx : nat).

Definition nd_ignore {A} (m : ndM A) : ndM unit := let! _ := attempt m in ret tt.
Definition nd_do (e : nd_event) : ndM unit :=
  match e with
  | NOnTime t => modify (fun nd => mkNode (nd_chain nd) (nd_requestTimer nd) (nd_blockQ nd) (nd_statusMap nd) (nd_txpool nd) (nd_txQ nd) (nd_txWaitQ nd) (nd_recvQueues nd) (nd_sendQueues nd) (nd_pool nd) t)
  | NOnRecv ID m => nd_OnRecv ID m
  | NConnected ID => nd_OnConnected ID
  | NDisconnected ID => nd_OnDisconnected ID
  | NPool e => nd_on_pool (pool_do writable visit_nodes e)
  | NRecvStep => nd_recv_step
  | NSendStep => nd_send_step
  | NWorker => nd_worker
  | NBlockTimer => nd_block_timer
  | NRequestTimer => nd_tryRequestBlocks
  | NAddTx t tx sigs => nd_ignore (nd_AddTx t tx sigs)
  | NCollect idx =>
      let! q := gets nd_txQ in
      let! t := nd_clock in
      match eq_running q !! idx with None => nd_set_txQ (collect idx t) | Some _ => ret tt end
  | NCall idx => nd_expire_call idx
  | NForward idx =>
      let! q := gets nd_txQ in
      let! t := nd_clock in
      match eq_running q !! idx with Some (Called b m) => nd_set_txQ (forward idx t b m) | _ => ret tt end
  end.
End Node.
