(* ===== verification/TextForms.v ===== *)
(** * Text forms

    The texts of hashes ([common/hash/hash256.go]), public keys, signatures and public
    hashes ([common/publickey.go], [signature.go], [publichash.go]) and the JSON forms
    of these and of addresses: the text in double quotes.  Hashes, keys and signatures
    are written in hexadecimal, addresses and public hashes in base58. *)

From stdpp Require Import base gmap list strings.
From Stdlib Require Import ZArith Lia.
From S2P Require Import Prelude Amount Common Types.

Definition ErrInvalidHashSize : error := mkError "hash" "invalid hash size".
Definition ErrInvalidHashFormat : error := mkError "hash" "invalid hash format".
Definition ErrInvalidSignatureFormat : error := mkError "common" "invalid signature format".
Definition ErrInvalidPublicKeyFormat : error := mkError "common" "invalid public key format".
Definition ErrInvalidPublicHashFormat : error := mkError "common" "invalid public hash format".

Definition PublicKeySize : nat := 33.
Definition SignatureSize : nat := 65.

(** The text in double quotes, and the text between double quotes. *)
Definition quoted (s : bytes) : bytes := [c_quote] ++ s ++ [c_quote].
Definition unquoted (e : error) (bs : bytes) : res bytes :=
  if (length bs <? 3)%nat then Err e
  else if negb (nth 0 bs 0 =? c_quote) || negb (nth (length bs - 1) bs 0 =? c_quote) then Err e
  else Ok (take (length bs - 2) (drop 1 bs)).

(** ** Hashes *)

Definition Hash256_String (hash : Hash256) : bytes := hex_EncodeToString hash.
Definition ParseHash (str : bytes) : res Hash256 :=
  if negb (length str =? Hash256Size * 2)%nat then Err ErrInvalidHashFormat
  else
    let? bs := hex_DecodeString str in
    if negb (length bs =? Hash256Size)%nat then Err ErrInvalidHashSize
    else Ok (copy_into Hash256Size bs).
Definition MustParseHash (str : bytes) : res Hash256 :=
  match ParseHash str with Err e => Panic "MustParseHash" | r => r end.
Definition Hash256_MarshalJSON (hash : Hash256) : bytes := quoted (Hash256_String hash).
Definition Hash256_UnmarshalJSON (bs : bytes) : res Hash256 :=
  let? s := unquoted ErrInvalidHashFormat bs in ParseHash s.

(** ** Public keys *)

Definition PublicKey_String (pubkey : bytes) : bytes := hex_EncodeToString pubkey.
Definition PublicKey_Clone (pubkey : bytes) : bytes := copy_into PublicKeySize pubkey.
Definition ParsePublicKey (str : bytes) : res bytes :=
  if negb (length str =? PublicKeySize * 2)%nat then Err ErrInvalidPublicKeyFormat
  else let? bs := hex_DecodeString str in Ok (copy_into PublicKeySize bs).
Definition MustParsePublicKey (str : bytes) : res bytes :=
  match ParsePublicKey str with Err e => Panic "MustParsePublicKey" | r => r end.
Definition PublicKey_MarshalJSON (pubkey : bytes) : bytes := quoted (PublicKey_String pubkey).
Definition PublicKey_UnmarshalJSON (bs : bytes) : res bytes :=
  let? s := unquoted ErrInvalidPublicKeyFormat bs in ParsePublicKey s.

(** ** Signatures *)

Definition Signature_String (sig : bytes) : bytes := hex_EncodeToString sig.
Definition Signature_Clone (sig : bytes) : bytes := copy_into SignatureSize sig.
Definition ParseSignature (str : bytes) : res bytes :=
  if negb (length str =? SignatureSize * 2)%nat then Err ErrInvalidSignatureFormat
  else let? bs := hex_DecodeString str in Ok (copy_into SignatureSize bs).
Definition MustParseSignature (str : bytes) : res bytes :=
  match ParseSignature str with Err e => Panic "MustParseSignature" | r => r end.
Definition Signature_MarshalJSON (sig : bytes) : bytes := quoted (Signature_String sig).
Definition Signature_UnmarshalJSON (bs : bytes) : res bytes :=
  let? s := unquoted ErrInvalidSignatureFormat bs in ParseSignature s.

Section Base58Forms.
Context `{Base58}.

(** ** Public hashes *)

Definition PublicHash_Less (a b : PublicHash) : bool := match bytes_cmp a b with Lt => true | _ => false end.
Definition PublicHash_String (pubhash : PublicHash) : bytes := base58_Encode (trim_right_nul pubhash).
Definition PublicHash_Clone (pubhash : PublicHash) : PublicHash := copy_into PublicHashSize pubhash.
Definition ParsePublicHash (str : bytes) : res PublicHash := let? bs := base58_Decode str in Ok (copy_into PublicHashSize bs).
Definition MustParsePublicHash (str : bytes) : res PublicHash :=
  match ParsePublicHash str with Err e => Panic "MustParsePublicHash" | r => r end.
Definition PublicHash_MarshalJSON (pubhash : PublicHash) : bytes := quoted (PublicHash_String pubhash).
Definition PublicHash_UnmarshalJSON (bs : bytes) : res PublicHash :=
  let? s := unquoted ErrInvalidPublicHashFormat bs in ParsePublicHash s.

(** ** Addresses *)

Definition Address_MarshalJSON (addr : Address) : bytes := quoted (Address_String addr).
Definition Address_UnmarshalJSON (bs : bytes) : res Address :=
  let? s := unquoted ErrInvalidAddressFormat bs in ParseAddress s.
Definition MustParseAddress (s : bytes) : res Address :=
  match ParseAddress s with Err e => Panic "MustParseAddress" | r => r end.
End Base58Forms.

(** ** Round trips *)

Lemma unquoted_quoted e s : s <> [] -> unquoted e (quoted s) = Ok s.
Proof.
  intros Hs. unfold unquoted, quoted. assert (0 < length s)%nat by (destruct s; [done|cbn; lia]).
  assert (Hl : length ([c_quote] ++ s ++ [c_quote]) = (length s + 2)%nat) by (rewrite !length_app; cbn; lia). rewrite Hl.
  destruct (Nat.ltb_spec (length s + 2) 3); [lia|]. cbn [app nth]. rewrite Z.eqb_refl. replace (length s + 2 - 1)%nat with (S (length s)) by lia. cbn [nth].
  rewrite app_nth2 by lia. rewrite Nat.sub_diag. cbn [nth negb orb]. rewrite Z.eqb_refl. cbn [negb drop]. rewrite drop_0. f_equal. apply take_app_length'. lia.
Qed.
Lemma unquoted_empty e : unquoted e (quoted []) = Err e.
Proof. done. Qed.

(** What the parsers of the hexadecimal forms find in a text that was printed. *)
Section HexForms.
Context (n : nat) (x : bytes) (Hn : length x = n) (Hok : bytes_ok x) (Hpos : (0 < n)%nat).
Lemma hex_form {A} (e : error) (k : bytes -> res A) :
  (if negb (length (hex_EncodeToString x) =? n * 2)%nat then Err e else let? bs := hex_DecodeString (hex_EncodeToString x) in k bs) = k x.
Proof. rewrite hex_length, Hn, Nat.mul_comm, Nat.eqb_refl. cbn [negb]. by rewrite hex_roundtrip. Qed.
Lemma quoted_hex (e : error) : unquoted e (quoted (hex_EncodeToString x)) = Ok (hex_EncodeToString x).
Proof. apply unquoted_quoted. intros E. pose proof (hex_length x) as Hl. rewrite E in Hl. cbn in Hl. lia. Qed.
End HexForms.

(** A hash, a key and a signature are read back from their text and from their JSON
    form. *)
Lemma hash_text_roundtrip h : length h = Hash256Size -> bytes_ok h ->
  ParseHash (Hash256_String h) = Ok h /\ Hash256_UnmarshalJSON (Hash256_MarshalJSON h) = Ok h.
Proof.
  intros Hl Hok. assert (E : ParseHash (Hash256_String h) = Ok h) by (unfold ParseHash, Hash256_String; rewrite (hex_form _ h) by done; rewrite Hl, Nat.eqb_refl; by rewrite copy_into_id).
  split; [done|]. unfold Hash256_UnmarshalJSON, Hash256_MarshalJSON, Hash256_String. by rewrite (quoted_hex Hash256Size) by (try done; unfold Hash256Size; lia).
Qed.
Lemma public_key_text_roundtrip k : length k = PublicKeySize -> bytes_ok k ->
  ParsePublicKey (PublicKey_String k) = Ok k /\ PublicKey_UnmarshalJSON (PublicKey_MarshalJSON k) = Ok k.
Proof.
  intros Hl Hok. assert (E : ParsePublicKey (PublicKey_String k) = Ok k) by (unfold ParsePublicKey, PublicKey_String; rewrite (hex_form _ k) by done; by rewrite copy_into_id).
  split; [done|]. unfold PublicKey_UnmarshalJSON, PublicKey_MarshalJSON, PublicKey_String. by rewrite (quoted_hex PublicKeySize) by (try done; unfold PublicKeySize; lia).
Qed.
Lemma signature_text_roundtrip s : length s = SignatureSize -> bytes_ok s ->
  ParseSignature (Signature_String s) = Ok s /\ Signature_UnmarshalJSON (Signature_MarshalJSON s) = Ok s.
Proof.
  intros Hl Hok. assert (E : ParseSignature (Signature_String s) = Ok s) by (unfold ParseSignature, Signature_String; rewrite (hex_form _ s) by done; by rewrite copy_into_id).
  split; [done|]. unfold Signature_UnmarshalJSON, Signature_MarshalJSON, Signature_String. by rewrite (quoted_hex SignatureSize) by (try done; unfold SignatureSize; lia).
Qed.

(** A public hash is read back from its text; the text of one of zeros is that of no
    bytes, and when that is empty its JSON form cannot be read. *)
Lemma public_hash_text_roundtrip `{Base58} ph : length ph = PublicHashSize -> bytes_ok ph ->
  ParsePublicHash (PublicHash_String ph) = Ok ph /\
  PublicHash_UnmarshalJSON (PublicHash_MarshalJSON ph) = (if bool_decide (PublicHash_String ph = []) then Err ErrInvalidPublicHashFormat else Ok ph).
Proof.
  intros Hl Hok. assert (E : ParsePublicHash (PublicHash_String ph) = Ok ph).
  { unfold ParsePublicHash, PublicHash_String. destruct (trim_right_nul_decomp ph) as [k Hk]. rewrite base58_roundtrip by (unfold bytes_ok in *; rewrite Hk in Hok; by apply Forall_app in Hok as [? _]). cbn [res_bind]. f_equal.
    assert (Hlen : (length (trim_right_nul ph) + k)%nat = PublicHashSize) by (rewrite <- Hl; rewrite Hk at 2; by rewrite length_app, length_replicate).
    unfold copy_into. rewrite Hk at 3. rewrite take_ge by (unfold PublicHashSize in *; lia). f_equal. f_equal. lia. }
  split; [done|]. unfold PublicHash_UnmarshalJSON, PublicHash_MarshalJSON. case_bool_decide as Hs; [by rewrite Hs|]. by rewrite unquoted_quoted.
Qed.
Lemma address_json_roundtrip `{Base58} addr : address_ok addr -> Address_String addr <> [] -> Address_UnmarshalJSON (Address_MarshalJSON addr) = Ok addr.
Proof. intros Hok Hs. unfold Address_UnmarshalJSON, Address_MarshalJSON. rewrite unquoted_quoted by done. cbn [res_bind]. by apply ParseAddress_String. Qed.
