(* ===== verification/Json.v ===== *)
(** * JSON

    The transactions, accounts, events, policies and ordered maps print themselves as
    JSON ([MarshalJSON]): each writes a brace, its fields with their names, separated by
    commas, and a brace.  This file has what these printers are made of: what
    [encoding/json] writes for numbers, booleans and strings, objects, arrays and maps,
    and a reader of JSON with the lemmas that it reads back what is printed. *)

From stdpp Require Import base gmap list strings.
From Stdlib Require Import ZArith Lia.
From S2P Require Import Prelude Amount Common Types TextForms.

(** ** What is printed *)

Definition c_backslash : Z := 92.
Definition c_comma : Z := 44.
Definition c_colon : Z := 58.

(** [json.Marshal] of an unsigned integer and of a boolean. *)
Definition json_uint (v : Z) : res bytes := Ok (big_String v).
Definition json_bool (b : bool) : res bytes := Ok (if b then str "true" else str "false").

(** [json.Marshal] of a string.  Bytes below 128 are copied or escaped, valid runes are
    copied, the two line separators escaped and invalid bytes replaced. *)
Definition escape_ascii (b : Z) : bytes :=
  if (b =? c_quote) || (b =? c_backslash) then [c_backslash; b]
  else if b =? 10 then str "\n"
  else if b =? 13 then str "\r"
  else if b =? 9 then str "\t"
  else if (b <? 32) || (b =? 60) || (b =? 62) || (b =? 38) then str "\u00" ++ [hex_char (b / 16); hex_char (b mod 16)]
  else [b].

Definition between (a b x : Z) : bool := (a <=? x) && (x <=? b).
(** [utf8.DecodeRune]: how many bytes follow the first byte of the rune in front, if it
    is valid. *)
Definition rune_tail (bs : bytes) : option nat :=
  match bs with
  | [] => None
  | b0 :: bs =>
      let cont n := if (n <=? length bs)%nat && forallb (between 128 191) (take n bs) then Some n else None in
      let second lo hi n := match bs with b1 :: _ => if between lo hi b1 then cont n else None | [] => None end in
      if between 194 223 b0 then cont 1%nat
      else if b0 =? 224 then second 160 191 2%nat
      else if b0 =? 237 then second 128 159 2%nat
      else if between 225 239 b0 then cont 2%nat
      else if b0 =? 240 then second 144 191 3%nat
      else if between 241 243 b0 then cont 3%nat
      else if b0 =? 244 then second 128 143 3%nat
      else None
  end.

(** [copy] bytes belong to the rune that is being copied. *)
Fixpoint json_escape (copy : nat) (s : bytes) : bytes :=
  match s with
  | [] => []
  | b :: r =>
      match copy with
      | S copy => b :: json_escape copy r
      | O =>
          if b <? 128 then escape_ascii b ++ json_escape 0 r
          else
            match rune_tail s with
            | None => str "\ufffd" ++ json_escape 0 r
            | Some n =>
                match r with
                | b1 :: b2 :: r2 =>
                    if (b =? 226) && (b1 =? 128) && between 168 169 b2 then str "\u202" ++ [hex_char (b2 mod 16)] ++ json_escape 0 r2
                    else b :: json_escape n r
                | _ => b :: json_escape n r
                end
            end
      end
  end.
Definition json_string (s : bytes) : res bytes := Ok (quoted (json_escape 0 s)).

(** The printers: fields after each other, elements after each other. *)
Fixpoint write_list {A} (write : A -> res bytes) (first : bool) (l : list A) : res bytes :=
  match l with
  | [] => Ok []
  | x :: l =>
      let? bs := write x in
      let? rest := write_list write false l in
      Ok ((if first then [] else [c_comma]) ++ bs ++ rest)
  end.
Definition write_field (f : string * res bytes) : res bytes := let? bs := f.2 in Ok (quoted (str f.1) ++ [c_colon] ++ bs).
Definition json_object (l : list (string * res bytes)) : res bytes :=
  let? bs := write_list write_field true l in Ok (str "{" ++ bs ++ str "}").
Definition json_array {A} (write : A -> res bytes) (l : list A) : res bytes :=
  let? bs := write_list write true l in Ok (str "[" ++ bs ++ str "]").

(** The maps: an error stops the iteration after what was written, and is dropped. *)
Section MapJSON.
Context {K V : Type} (key : K -> res bytes) (value : V -> res bytes).
Fixpoint write_entries (first : bool) (l : list (K * V)) : res bytes :=
  match l with
  | [] => Ok []
  | (k, v) :: l =>
      let comma := if first then [] else [c_comma] in
      match key k with
      | Err _ => Ok comma
      | Panic w => Panic w
      | Ok bk =>
          match value v with
          | Err _ => Ok (comma ++ bk ++ [c_colon])
          | Panic w => Panic w
          | Ok bv => let? rest := write_entries false l in Ok (comma ++ bk ++ [c_colon] ++ bv ++ rest)
          end
      end
  end.
Definition map_MarshalJSON (l : list (K * V)) : res bytes := let? bs := write_entries true l in Ok (str "{" ++ bs ++ str "}").
End MapJSON.

(** ** A reader of JSON

    The values of RFC 8259, with whole numbers, no white space and no escaped
    surrogates: the printers write none of these. *)

Inductive json :=
  | JBool (b : bool)
  | JNum (v : Z)
  | JStr (s : bytes)
  | JArr (l : list json)
  | JObj (l : list (bytes * json)).

Definition utf8 (v : Z) : option bytes :=
  if v <? 128 then Some [v]
  else if v <? 2048 then Some [192 + v / 64; 128 + v mod 64]
  else if between 55296 57343 v then None
  else Some [224 + v / 4096; 128 + v / 64 mod 64; 128 + v mod 64].

Definition hex4 (a b c d : Z) : option Z :=
  match hex_value a, hex_value b, hex_value c, hex_value d with
  | Some a, Some b, Some c, Some d => Some (((a * 16 + b) * 16 + c) * 16 + d)
  | _, _, _, _ => None
  end.
Definition escape_of (c : Z) : option Z :=
  if (c =? c_quote) || (c =? c_backslash) || (c =? 47) then Some c
  else if c =? 98 then Some 8
  else if c =? 102 then Some 12
  else if c =? 110 then Some 10
  else if c =? 114 then Some 13
  else if c =? 116 then Some 9
  else None.

(** The characters of a string, up to and with its closing quote. *)
Fixpoint parse_chars (bs : bytes) : option (bytes * bytes) :=
  match bs with
  | [] => None
  | c :: r =>
      if c =? c_quote then Some ([], r)
      else if c =? c_backslash then
        match r with
        | e :: r =>
            if e =? 117 then
              match r with
              | h1 :: h2 :: h3 :: h4 :: r =>
                  match hex4 h1 h2 h3 h4 ≫= utf8, parse_chars r with
                  | Some u, Some (s, r) => Some (u ++ s, r)
                  | _, _ => None
                  end
              | _ => None
              end
            else
              match escape_of e, parse_chars r with
              | Some u, Some (s, r) => Some (u :: s, r)
              | _, _ => None
              end
        | [] => None
        end
      else if c <? 32 then None
      else match parse_chars r with Some (s, r) => Some (c :: s, r) | None => None end
  end.

Fixpoint span_digits (bs : bytes) : bytes * bytes :=
  match bs with
  | c :: r => if is_digit c then let '(d, r) := span_digits r in (c :: d, r) else ([], bs)
  | [] => ([], [])
  end.
(** A number has no leading zero. *)
Definition number_of (d : bytes) : option Z :=
  match d with
  | [] => None
  | [c] => Some (digits_value d)
  | c :: _ => if c =? c_zero then None else Some (digits_value d)
  end.
Definition parse_number (bs : bytes) : option (Z * bytes) :=
  let (neg, bs) := match bs with c :: r => if c =? c_minus then (true, r) else (false, bs) | [] => (false, bs) end in
  let '(d, r) := span_digits bs in
  match number_of d with Some v => Some (if neg : bool then - v else v, r) | None => None end.
Definition expect (s bs : bytes) : option bytes := if bool_decide (take (length s) bs = s) then Some (drop (length s) bs) else None.

(** The depth and the number of the elements are bounded by the length of the text. *)
Fixpoint parse_value (fuel : nat) (bs : bytes) : option (json * bytes) :=
  match fuel, bs with
  | S fuel, c :: r =>
      if c =? 123 then
        match r with
        | 125 :: r => Some (JObj [], r)
        | _ => match parse_members fuel r with Some (l, r) => Some (JObj l, r) | None => None end
        end
      else if c =? 91 then
        match r with
        | 93 :: r => Some (JArr [], r)
        | _ => match parse_elements fuel r with Some (l, r) => Some (JArr l, r) | None => None end
        end
      else if c =? c_quote then match parse_chars r with Some (s, r) => Some (JStr s, r) | None => None end
      else if c =? 116 then match expect (str "true") bs with Some r => Some (JBool true, r) | None => None end
      else if c =? 102 then match expect (str "false") bs with Some r => Some (JBool false, r) | None => None end
      else match parse_number bs with Some (v, r) => Some (JNum v, r) | None => None end
  | _, _ => None
  end
with parse_members (fuel : nat) (bs : bytes) : option (list (bytes * json) * bytes) :=
  match fuel, bs with
  | S fuel, c :: r =>
      if c =? c_quote then
        match parse_chars r with
        | Some (k, d :: r) =>
            if d =? c_colon then
              match parse_value fuel r with
              | Some (v, e :: r) =>
                  if e =? c_comma then match parse_members fuel r with Some (l, r) => Some ((k, v) :: l, r) | None => None end
                  else if e =? 125 then Some ([(k, v)], r) else None
              | _ => None
              end
            else None
        | _ => None
        end
      else None
  | _, _ => None
  end
with parse_elements (fuel : nat) (bs : bytes) : option (list json * bytes) :=
  match fuel with
  | S fuel =>
      match parse_value fuel bs with
      | Some (v, e :: r) =>
          if e =? c_comma then match parse_elements fuel r with Some (l, r) => Some (v :: l, r) | None => None end
          else if e =? 93 then Some ([v], r) else None
      | _ => None
      end
  | O => None
  end.

(** A text that is one value. *)
Definition json_parse (bs : bytes) : option json :=
  match parse_value (length bs) bs with Some (j, []) => Some j | _ => None end.

(** ** Reading back *)

(** Text that another token may follow: a digit would belong to a number. *)
Definition stops (rest : bytes) : Prop := match rest with [] => True | c :: _ => is_digit c = false end.
(** [bs] is a text of the value [j]. *)
Record reads (bs : bytes) (j : json) : Prop := mk_reads {
  rd_start : exists c r, bs = c :: r /\ c <> 93 /\ c <> 125;
  rd_parse m rest : (length bs <= m)%nat -> stops rest -> parse_value m (bs ++ rest) = Some (j, rest)
}.
(** A printer that writes a text of [j]. *)
Definition prints (r : res bytes) (j : json) : Prop := exists bs, r = Ok bs /\ reads bs j.
Lemma prints_parse r j : prints r j -> exists bs, r = Ok bs /\ json_parse bs = Some j.
Proof.
  intros (bs & -> & Hr). exists bs. split; [done|]. unfold json_parse. rewrite <- (app_nil_r bs) at 2. by rewrite (rd_parse _ _ Hr).
Qed.

(** *** Strings *)

Definition safe (c : Z) : Prop := 32 <= c /\ c <> c_quote /\ c <> c_backslash.
Lemma parse_chars_cons c s : safe c -> parse_chars (c :: s) = match parse_chars s with Some (t, r) => Some (c :: t, r) | None => None end.
Proof.
  intros (H1 & H2 & H3). cbn [parse_chars]. rewrite (proj2 (Z.eqb_neq _ _) H2), (proj2 (Z.eqb_neq _ _) H3). by destruct (Z.ltb_spec c 32); [lia|].
Qed.
Lemma parse_chars_safe s rest : Forall safe s -> parse_chars (s ++ c_quote :: rest) = Some (s, rest).
Proof. induction 1 as [|c s Hc _ IH]; [done|]. cbn [app]. rewrite parse_chars_cons by done. by rewrite IH. Qed.

(** The string a reader gets: invalid bytes are replaced by U+FFFD. *)
Fixpoint clean (copy : nat) (s : bytes) : bytes :=
  match s with
  | [] => []
  | b :: r =>
      match copy with
      | S copy => b :: clean copy r
      | O => if b <? 128 then b :: clean 0 r
             else match rune_tail s with None => [239; 191; 189] ++ clean 0 r | Some n => b :: clean n r end
      end
  end.

Lemma all_below (P : Z -> bool) n b : forallb (fun k => P (Z.of_nat k)) (seq 0 n) = true -> 0 <= b < Z.of_nat n -> P b = true.
Proof. intros H Hb. rewrite forallb_forall in H. specialize (H (Z.to_nat b)). rewrite Z2Nat.id in H by lia. apply H, in_seq. lia. Qed.

(** What the reader makes of one escaped byte; there are 128 of them. *)
Definition unescapes (b : Z) : bool :=
  match escape_ascii b with
  | [c] => (c =? b) && (32 <=? c) && negb (c =? c_quote) && negb (c =? c_backslash)
  | [c; e] => (c =? c_backslash) && negb (e =? 117) && bool_decide (escape_of e = Some b)
  | [c; u; h1; h2; h3; h4] => (c =? c_backslash) && (u =? 117) && bool_decide (hex4 h1 h2 h3 h4 ≫= utf8 = Some [b])
  | _ => false
  end.
Lemma parse_escape_ascii b s : 0 <= b < 128 ->
  parse_chars (escape_ascii b ++ s) = match parse_chars s with Some (t, r) => Some (b :: t, r) | None => None end.
Proof.
  intros Hb. assert (Hu : unescapes b = true) by (apply (all_below unescapes 128); [vm_compute; reflexivity|done]).
  unfold unescapes in Hu. destruct (escape_ascii b) as [|c [|e [|h1 [|h2 [|h3 [|h4 [|? ?]]]]]]]; try done; cbn [app].
  - apply andb_prop in Hu as [Hu H3]. apply andb_prop in Hu as [Hu H2]. apply andb_prop in Hu as [H0 H1]. apply Z.eqb_eq in H0 as ->. apply parse_chars_cons. unfold safe.
    apply negb_true_iff, Z.eqb_neq in H2, H3. lia.
  - apply andb_prop in Hu as [Hu H2]. apply andb_prop in Hu as [H0 H1]. apply Z.eqb_eq in H0 as ->. apply bool_decide_eq_true in H2. apply negb_true_iff in H1. cbn [parse_chars]. rewrite H1, H2. done.
  - apply andb_prop in Hu as [Hu H2]. apply andb_prop in Hu as [H0 H1]. apply Z.eqb_eq in H0 as ->, H1 as ->. apply bool_decide_eq_true in H2. cbn [parse_chars Z.eqb Pos.eqb c_quote c_backslash]. by rewrite H2.
Qed.

Lemma rune_tail_spec s n : rune_tail s = Some n -> Forall (fun c => 128 <= c) (take n (tail s)).
Proof.
  destruct s as [|b0 s]; [done|]. cbn [rune_tail tail].
  assert (Hc : forall k, (if (k <=? length s)%nat && forallb (between 128 191) (take k s) then Some k else None) = Some n -> Forall (fun c => 128 <= c) (take n s)).
  { intros k E. destruct (_ && _) eqn:Ek; [|done]. injection E as <-. apply andb_prop in Ek as [_ Ek]. rewrite forallb_forall in Ek. apply Forall_forall. intros c Hc.
    specialize (Ek c (proj1 (list_elem_of_In _ _) Hc)). unfold between in Ek. lia. }
  intros E. repeat (case_match; try done; try (by eapply Hc)).
Qed.
Lemma parse_escape_rune h1 h2 h3 h4 u s : hex4 h1 h2 h3 h4 ≫= utf8 = Some u ->
  parse_chars (c_backslash :: 117 :: h1 :: h2 :: h3 :: h4 :: s) = match parse_chars s with Some (t, r) => Some (u ++ t, r) | None => None end.
Proof. intros E. cbn [parse_chars Z.eqb Pos.eqb c_quote c_backslash]. by rewrite E. Qed.

Lemma parse_escape s : forall copy rest, bytes_ok s -> Forall (fun c => 128 <= c) (take copy s) ->
  parse_chars (json_escape copy s ++ c_quote :: rest) = Some (clean copy s, rest).
Proof.
  induction s as [s IH] using (induction_ltof1 _ (@length Z)). unfold ltof in IH. intros copy rest Hok Hc. destruct s as [|b r]; [by destruct copy|].
  apply Forall_cons in Hok as [Hb Hok]. unfold byte_ok in Hb. destruct copy as [|copy]; cbn [json_escape clean].
  - destruct (Z.ltb_spec b 128).
    + rewrite <- app_assoc, parse_escape_ascii by lia. by rewrite IH by (try done; cbn; lia).
    + destruct (rune_tail (b :: r)) as [n|] eqn:En.
      * assert (Hcopy : parse_chars ((b :: json_escape n r) ++ c_quote :: rest) = Some (b :: clean n r, rest)).
        { cbn [app]. rewrite parse_chars_cons by (unfold safe, c_quote, c_backslash; lia). apply rune_tail_spec in En. cbn [tail] in En. by rewrite IH by (try done; cbn; lia). }
        destruct r as [|b1 [|b2 r2]]; [exact Hcopy..|]. destruct ((b =? 226) && (b1 =? 128) && between 168 169 b2) eqn:Esep; [|exact Hcopy].
        apply andb_prop in Esep as [Esep E2]. apply andb_prop in Esep as [E0 E1]. apply Z.eqb_eq in E0 as ->, E1 as ->.
        assert (Hn : rune_tail (226 :: 128 :: b2 :: r2) = Some 2%nat) by (unfold between in E2; assert (b2 = 168 \/ b2 = 169) as [-> | ->] by lia; reflexivity).
        rewrite Hn in En. injection En as <-. cbn [clean].
        assert (Hu : hex4 50 48 50 (hex_char (b2 mod 16)) ≫= utf8 = Some [226; 128; b2]) by (unfold between in E2; assert (b2 = 168 \/ b2 = 169) as [-> | ->] by lia; reflexivity).
        change (str "\u202" ++ [hex_char (b2 mod 16)] ++ json_escape 0 r2) with (c_backslash :: 117 :: 50 :: 48 :: 50 :: hex_char (b2 mod 16) :: json_escape 0 r2). cbn [app].
        rewrite (parse_escape_rune _ _ _ _ _ _ Hu). apply Forall_cons in Hok as [_ Hok]. apply Forall_cons in Hok as [_ Hok]. by rewrite IH by (try done; cbn; lia).
      * change (str "\ufffd" ++ ?l) with (c_backslash :: 117 :: 102 :: 102 :: 102 :: 100 :: l). cbn [app].
        rewrite (parse_escape_rune 102 102 102 100 [239; 191; 189]) by reflexivity. by rewrite IH by (try done; cbn; lia).
  - cbn [app]. cbn [take] in Hc. apply Forall_cons in Hc as [Hb0 Hc]. rewrite parse_chars_cons by (unfold safe, c_quote, c_backslash; lia). by rewrite IH by (try done; cbn; lia).
Qed.

(** ASCII strings come back as they are. *)
Lemma clean_ascii s : Forall (fun c => c < 128) s -> clean 0 s = s.
Proof. induction 1 as [|b s Hb _ IH]; [done|]. cbn [clean]. destruct (Z.ltb_spec b 128); [by rewrite IH|lia]. Qed.

Lemma reads_quote s t : (forall rest, parse_chars (s ++ c_quote :: rest) = Some (t, rest)) -> reads (quoted s) (JStr t).
Proof.
  intros Hp. unfold quoted. split; [by exists c_quote, (s ++ [c_quote])|]. intros m rest Hm _. destruct m as [|m]; [cbn in Hm; lia|]. cbn [app parse_value Z.eqb Pos.eqb c_quote].
  rewrite <- app_assoc. cbn [app]. change 34 with c_quote. by rewrite Hp.
Qed.
Lemma prints_string s : bytes_ok s -> prints (json_string s) (JStr (clean 0 s)).
Proof. intros Hs. eexists. split; [done|]. apply reads_quote. intros rest. by apply parse_escape. Qed.
Lemma prints_quoted s : Forall safe s -> prints (Ok (quoted s)) (JStr s).
Proof. intros Hs. eexists. split; [done|]. apply reads_quote. intros rest. by apply parse_chars_safe. Qed.

(** *** Numbers and booleans *)

Lemma span_digits_app d rest : forallb is_digit d = true -> stops rest -> span_digits (d ++ rest) = (d, rest).
Proof.
  intros Hd Hr. induction d as [|c d IH]; cbn [app forallb span_digits] in *.
  - destruct rest as [|c r]; [done|]. cbn [span_digits]. by rewrite Hr.
  - apply andb_prop in Hd as [Hc Hd]. by rewrite Hc, IH.
Qed.
Lemma number_of_fixed v : 0 <= v -> number_of (fixed (ndigits v) v) = Some v.
Proof.
  intros Hv. destruct (ndigits_spec v Hv) as (H1 & H2 & H3). assert (Hval : digits_value (fixed (ndigits v) v) = v) by (rewrite digits_value_fixed, Z.mod_small; lia).
  destruct (ndigits v) as [|n] eqn:En; [lia|]. change (S n) with (1 + n)%nat in *. rewrite fixed_app in *. cbn [fixed app] in *.
  unfold number_of. destruct (fixed n v) as [|c l] eqn:Ef; [by rewrite Hval|]. destruct (Z.eqb_spec (c_zero + v / 10 ^ Z.of_nat n mod 10) c_zero); [|by rewrite Hval].
  exfalso. assert (Hn : (1 <= n)%nat) by (destruct n; [done|lia]). assert (0 < v) by (destruct (decide (v = 0)) as [->|]; [|lia]; cbv in En; lia).
  specialize (H3 ltac:(lia)). replace (Z.of_nat (1 + n) - 1) with (Z.of_nat n) in H3 by lia. replace (Z.of_nat (1 + n)) with (1 + Z.of_nat n) in H2 by lia. rewrite Z.pow_add_r in H2 by lia.
  assert (Hp : 0 < 10 ^ Z.of_nat n) by lia. assert (1 <= v / 10 ^ Z.of_nat n) by (apply Z.div_le_lower_bound; lia). assert (v / 10 ^ Z.of_nat n < 10) by (apply Z.div_lt_upper_bound; lia).
  rewrite Z.mod_small in e by lia. lia.
Qed.
Lemma digit_text v : 0 <= v -> exists c l, fixed (ndigits v) v = c :: l /\ 48 <= c <= 57.
Proof.
  intros Hv. destruct (ndigits_spec v Hv) as (H1 & _). pose proof (fixed_digit (ndigits v) v) as Hd. destruct (fixed (ndigits v) v) as [|c l] eqn:E; [apply (f_equal length) in E; rewrite length_fixed in E; cbn in E; lia|].
  exists c, l. split; [done|]. cbn [forallb] in Hd. apply andb_prop in Hd as [Hc _]. unfold is_digit in Hc. lia.
Qed.
Lemma prints_uint v : 0 <= v -> prints (json_uint v) (JNum v).
Proof.
  intros Hv. unfold json_uint, big_String. destruct (Z.ltb_spec v 0); [lia|]. eexists. split; [done|]. destruct (digit_text v Hv) as (c & l & E & Hc). split; [exists c, l; split; [done|lia]|].
  intros m rest Hm Hr. destruct m as [|m]; [rewrite E in Hm; cbn in Hm; lia|]. pose proof (span_digits_app _ rest (fixed_digit (ndigits v) v) Hr) as Hs. pose proof (number_of_fixed v Hv) as Hn.
  rewrite E in *. cbn [app] in *. cbn [parse_value]. unfold parse_number.
  repeat (match goal with |- context [c =? ?k] => destruct (Z.eqb_spec c k); [unfold c_quote, c_minus in *; lia|] end). by rewrite Hs, Hn.
Qed.
Lemma prints_bool b : prints (json_bool b) (JBool b).
Proof.
  eexists. split; [done|]. destruct b; (split; [by eexists _, _|]); intros m rest Hm _; (destruct m as [|m]; [cbn in Hm; lia|]); reflexivity.
Qed.

(** *** Objects, arrays and maps *)

Fixpoint join (l : list bytes) : bytes :=
  match l with
  | [] => []
  | x :: l => x ++ match l with [] => [] | _ => c_comma :: join l end
  end.
Definition after (ts : list bytes) : bytes := match ts with [] => [] | _ => c_comma :: join ts end.
Lemma join_cons x l : join (x :: l) = x ++ after l.
Proof. done. Qed.

Lemma write_list_join {A} (write : A -> res bytes) l ts : Forall2 (fun x t => write x = Ok t) l ts ->
  write_list write true l = Ok (join ts) /\ write_list write false l = Ok (after ts).
Proof.
  induction 1 as [|x t l ts Hx _ [_ IH]]; [done|]. cbn [write_list]. rewrite Hx. cbn [res_bind]. rewrite IH. cbn [res_bind app]. rewrite join_cons. split; [done|].
  unfold after at 2. by rewrite join_cons.
Qed.
Definition member_text (kv : bytes * bytes) : bytes := kv.1 ++ [c_colon] ++ kv.2.
Lemma write_entries_join {K V} (key : K -> res bytes) (value : V -> res bytes) l ts :
  Forall2 (fun kv t => key kv.1 = Ok t.1 /\ value kv.2 = Ok t.2) l ts ->
  write_entries key value true l = Ok (join (member_text <$> ts)) /\ write_entries key value false l = Ok (after (member_text <$> ts)).
Proof.
  induction 1 as [|[k v] [tk tv] l ts [Hk Hv] _ [_ IH]]; [done|]. cbn [write_entries fst snd] in *. rewrite Hk, Hv, IH. cbn [res_bind app]. rewrite fmap_cons, join_cons.
  assert (Em : member_text (tk, tv) = tk ++ [c_colon] ++ tv) by done. split; [by rewrite Em, <- !app_assoc|]. unfold after at 2. by rewrite join_cons, Em, <- !app_assoc.
Qed.

(** A member of an object: its name is a string. *)
Record member (kv : bytes * bytes) (kj : bytes * json) : Prop := mk_member {
  mb_key : exists s, kv.1 = quoted s /\ (forall rest, parse_chars (s ++ c_quote :: rest) = Some (kj.1, rest));
  mb_value : reads kv.2 kj.2
}.
Lemma after_stops ts c rest : is_digit c = false -> stops (after ts ++ c :: rest).
Proof. by destruct ts. Qed.

Lemma parse_members_join l lj : Forall2 member l lj -> l <> [] -> forall m rest, (length (join (member_text <$> l)) <= m)%nat ->
  parse_members m (join (member_text <$> l) ++ 125 :: rest) = Some (lj, rest).
Proof.
  induction 1 as [|[tk tv] [k j] l lj [(s & Es & Hs) Hv] Hl IH]; [done|]. intros _ m rest Hm. cbn [fst snd] in *. subst tk. rewrite fmap_cons, join_cons in *. unfold member_text at 1 in Hm. unfold member_text at 1.
  cbn [fst snd] in *. unfold quoted in *. cbn [app] in *. destruct m as [|m]; [cbn in Hm; lia|]. cbn [parse_members Z.eqb Pos.eqb c_quote].
  rewrite <- !app_assoc. cbn [app]. change 34 with c_quote. rewrite Hs. cbn [Z.eqb Pos.eqb c_colon].
  cbn [length] in Hm. rewrite !length_app in Hm. cbn [length] in Hm.
  rewrite (rd_parse _ _ Hv) by (first [lia|by apply after_stops]). destruct l as [|kv l].
  - inv Hl. done.
  - unfold after in *. rewrite fmap_cons in *. cbn [app Z.eqb Pos.eqb c_comma]. rewrite IH by (first [done|cbn [length] in Hm; lia]). done.
Qed.
Lemma reads_members l lj : Forall2 member l lj -> reads (str "{" ++ join (member_text <$> l) ++ str "}") (JObj lj).
Proof.
  intros H. split; [by eexists _, _|]. intros m rest Hm _. destruct m as [|m]; [cbn in Hm; lia|]. change (str "{") with [123] in *. cbn [app] in *.
  cbn [parse_value Z.eqb Pos.eqb]. rewrite <- app_assoc. destruct l as [|kv l]; [inv H; done|].
  assert (Hp : parse_members m (join (member_text <$> kv :: l) ++ 125 :: rest) = Some (lj, rest)).
  { apply parse_members_join; [done..|]. cbn [length] in Hm. rewrite length_app in Hm. change (length (str "}")) with 1%nat in Hm. lia. }
  change (str "}" ++ rest) with (125 :: rest). assert (Hq : exists r, join (member_text <$> kv :: l) ++ 125 :: rest = 34 :: r).
  { inversion H as [|? [k j] ? ? Hmb]; subst. destruct (mb_key _ _ Hmb) as (s & Es & _). destruct kv as [tk tv]. cbn [fst] in Es. subst tk. by eexists. }
  destruct Hq as (r & Eq). rewrite Eq in *. by rewrite Hp.
Qed.

Lemma parse_elements_join l lj : Forall2 reads l lj -> l <> [] -> forall m rest, (length (join l) < m)%nat ->
  parse_elements m (join l ++ 93 :: rest) = Some (lj, rest).
Proof.
  induction 1 as [|t j l lj Ht Hl IH]; [done|]. intros _ m rest Hm. rewrite join_cons in *. rewrite length_app in Hm. destruct m as [|m]; [lia|]. cbn [parse_elements]. rewrite <- app_assoc.
  rewrite (rd_parse _ _ Ht) by (first [lia|by apply after_stops]). destruct l as [|t' l].
  - inv Hl. done.
  - unfold after in *. cbn [app Z.eqb Pos.eqb c_comma]. destruct (rd_start _ _ Ht) as (? & ? & E & _). rewrite IH by (first [done|rewrite E in Hm; cbn [length] in Hm; lia]). done.
Qed.
Lemma reads_elements l lj : Forall2 reads l lj -> reads (str "[" ++ join l ++ str "]") (JArr lj).
Proof.
  intros H. split; [by eexists _, _|]. intros m rest Hm _. destruct m as [|m]; [cbn in Hm; lia|]. change (str "[") with [91] in *. cbn [app] in *. cbn [parse_value Z.eqb Pos.eqb]. rewrite <- app_assoc. destruct l as [|t l]; [inv H; done|].
  assert (Hp : parse_elements m (join (t :: l) ++ 93 :: rest) = Some (lj, rest)).
  { apply parse_elements_join; [done..|]. cbn [length] in Hm. rewrite length_app in Hm. change (length (str "]")) with 1%nat in Hm. lia. }
  change (str "]" ++ rest) with (93 :: rest). inversion H as [|? j ? ? Ht]; subst. destruct (rd_start _ _ Ht) as (c & r & E & Hc & _). rewrite join_cons in *. rewrite E in *. cbn [app] in *.
  destruct c as [|c|c]; try (by rewrite Hp). repeat (destruct c as [c|c|]; try (by rewrite Hp)); done.
Qed.

(** The printers above write what their parts write. *)
Definition field (f : string * res bytes) (kj : bytes * json) : Prop := kj.1 = str f.1 /\ Forall safe (str f.1) /\ prints f.2 kj.2.
Lemma prints_object l lj : Forall2 field l lj -> prints (json_object l) (JObj lj).
Proof.
  intros H. assert (Ht : exists ts, Forall2 (fun f t => write_field f = Ok (member_text t)) l ts /\ Forall2 member ts lj).
  { induction H as [|[n v] [k j] l lj (Hk & Hs & bs & Ev & Hr) _ (ts & H1 & H2)]; [by exists []|]. cbn [fst snd] in *. subst. exists ((quoted (str n), bs) :: ts). split; constructor; [done..| |done].
    split; [|done]. exists (str n). split; [done|]. intros rest. by apply parse_chars_safe. }
  destruct Ht as (ts & H1 & H2). exists (str "{" ++ join (member_text <$> ts) ++ str "}"). split; [|by apply reads_members].
  unfold json_object. destruct (write_list_join write_field l (member_text <$> ts)) as [-> _]; [|done]. apply Forall2_fmap_r. exact H1.
Qed.
Lemma prints_array {A} (write : A -> res bytes) (tree : A -> json) l : Forall (fun x => prints (write x) (tree x)) l -> prints (json_array write l) (JArr (tree <$> l)).
Proof.
  intros H. assert (Ht : exists ts, Forall2 (fun x t => write x = Ok t) l ts /\ Forall2 reads ts (tree <$> l)).
  { induction H as [|x l (bs & Ev & Hr) _ (ts & H1 & H2)]; [by exists []|]. exists (bs :: ts). split; by constructor. }
  destruct Ht as (ts & H1 & H2). eexists. split; [unfold json_array; by destruct (write_list_join write l ts H1) as [-> _]|]. by apply reads_elements.
Qed.
Lemma prints_map {K V} (key : K -> res bytes) (name : K -> bytes) (value : V -> res bytes) (tree : V -> json) l :
  Forall (fun kv => (exists s, key kv.1 = Ok (quoted s) /\ forall rest, parse_chars (s ++ c_quote :: rest) = Some (name kv.1, rest)) /\ prints (value kv.2) (tree kv.2)) l ->
  prints (map_MarshalJSON key value l) (JObj ((fun kv => (name kv.1, tree kv.2)) <$> l)).
Proof.
  intros H. assert (Ht : exists ts, Forall2 (fun kv t => key kv.1 = Ok t.1 /\ value kv.2 = Ok t.2) l ts /\ Forall2 member ts ((fun kv => (name kv.1, tree kv.2)) <$> l)).
  { induction H as [|[k v] l ((s & Ek & Hs) & bs & Ev & Hr) _ (ts & H1 & H2)]; [by exists []|]. exists ((quoted s, bs) :: ts). split; constructor; [done..| |done]. split; [by exists s|done]. }
  destruct Ht as (ts & H1 & H2). eexists. split; [unfold map_MarshalJSON; by destruct (write_entries_join key value l ts H1) as [-> _]|]. by apply reads_members.
Qed.

(** A map whose keys are numbers prints no JSON, unless it is empty: the names of an
    object are strings. *)
Lemma number_keys_are_no_json {K V} (key : K -> Z) (value : V -> res bytes) l bs : l <> [] -> Forall (fun kv => 0 <= key kv.1) l ->
  map_MarshalJSON (fun k => json_uint (key k)) value l = Ok bs -> json_parse bs = None.
Proof.
  intros Hl Hk E. destruct l as [|[k v] l]; [done|]. apply Forall_cons in Hk as [Hk _]. cbn [fst] in Hk.
  assert (Hb : exists c r, bs = 123 :: c :: r /\ 48 <= c <= 57).
  { unfold map_MarshalJSON in E. cbn [write_entries] in E. unfold json_uint, big_String in E. destruct (Z.ltb_spec (key k) 0); [lia|]. destruct (digit_text (key k) Hk) as (c & d & Ed & Hc). rewrite Ed in E. cbn [app] in E.
    destruct (value v); [|injection E as <-; by eexists _, _|done]. destruct (write_entries _ _ false l); [|done..]. cbn [res_bind] in E. injection E as <-. by eexists _, _. }
  destruct Hb as (c & r & -> & Hc). unfold json_parse. cbn [length parse_value Z.eqb Pos.eqb].
  assert (Hm : parse_members (S (length r)) (c :: r) = None) by (cbn [parse_members]; destruct (Z.eqb_spec c c_quote); [unfold c_quote in *; lia|done]).
  destruct (decide (c = 125)); [lia|]. rewrite Hm. destruct c as [|c|c]; [done| |done]. repeat (destruct c as [c|c|]; try done); lia.
Qed.
