(* ===== verification/JsonPrint.v ===== *)
(** * The JSON printers

    [MarshalJSON] of the transactions, accounts, events, policies, outputs and ordered
    maps, each with the value a reader of JSON gets from it.  The errors that the code
    tests for do not occur: none of the printers it calls fails; a pointer that is nil
    stops the program. *)

From stdpp Require Import base gmap list sorting strings.
From Stdlib Require Import ZArith Lia.
From S2P Require Import Prelude Amount Common Types Context ContextSpec Vault Chain ChainSpec VaultProcess Registry Formulator FormulatorTx Payment Gateway TextForms Json.

(** The transactions the formulator process registers. *)
Inductive FormulatorTransaction :=
  | FCreateAlpha (tx : CreateAlpha)
  | FCreateSigma (tx : CreateSigma)
  | FCreateOmega (tx : CreateOmega)
  | FCreateHyper (tx : CreateHyper)
  | FRevoke (tx : Revoke)
  | FStaking (tx : Staking)
  | FUnstaking (tx : Unstaking)
  | FUpdateValidatorPolicy (tx : UpdateValidatorPolicy)
  | FUpdateUserAutoStaking (tx : UpdateUserAutoStaking)
  | FChangeOwner (tx : ChangeOwner)
  | FRevertRevoke (tx : RevertRevoke)
  | FRevertUnstaking (tx : RevertUnstaking)
  | FTransmute (tx : Transmute)
  | FUpdateRewardPolicy (tx : UpdateRewardPolicy)
  | FUpdateTransmutePolicy (tx : UpdateTransmutePolicy).

(** base58 writes letters and digits only. *)
Definition alphanumeric (c : Z) : Prop := 48 <= c <= 57 \/ 65 <= c <= 90 \/ 97 <= c <= 122.
Class Base58Text `{Base58} : Prop := base58_text : forall bs, Forall alphanumeric (base58_Encode bs).

Section Printers.
Context `{B58 : Base58}.

Definition p_addr (a : Address) : res bytes := Ok (Address_MarshalJSON a).
Definition p_pubhash (h : PublicHash) : res bytes := Ok (PublicHash_MarshalJSON h).
Definition p_hash (h : Hash256) : res bytes := Ok (Hash256_MarshalJSON h).
Definition p_erc20 (a : bytes) : res bytes := Ok (ERC20_MarshalJSON a).
(** A method that reads the fields of its receiver. *)
Definition p_nonnil {A} (f : A -> res bytes) (o : option A) : res bytes :=
  match o with Some x => f x | None => Panic "nil pointer dereference" end.

(** ** The printers *)

(** *** Policies and outputs *)

Definition Policy_MarshalJSON (pc : Policy) : res bytes := json_object [
  ("account_creation_amount", Amount.MarshalJSON (AccountCreationAmount pc))].
Definition GatewayPolicy_MarshalJSON (pc : GatewayPolicy) : res bytes := json_object [
  ("withdraw_fee", Amount.MarshalJSON (WithdrawFee pc))].
Definition RewardPolicy_MarshalJSON (pc : RewardPolicy) : res bytes := json_object [
  ("reward_per_block", Amount.MarshalJSON (RewardPerBlock pc)); ("pay_reward_every_blocks", json_uint (PayRewardEveryBlocks pc));
  ("alpha_efficiency_1000", json_uint (AlphaEfficiency1000 pc)); ("sigma_efficiency_1000", json_uint (SigmaEfficiency1000 pc));
  ("omega_efficiency_1000", json_uint (OmegaEfficiency1000 pc)); ("hyper_efficiency_1000", json_uint (HyperEfficiency1000 pc));
  ("staking_efficiency_1000", json_uint (StakingEfficiency1000 pc))].
Definition AlphaPolicy_MarshalJSON (pc : AlphaPolicy) : res bytes := json_object [
  ("alpha_creation_amount", Amount.MarshalJSON (AlphaCreationAmount pc)); ("alpha_unlock_required_blocks", json_uint (AlphaUnlockRequiredBlocks pc));
  ("alpha_creation_limit_height", json_uint (AlphaCreationLimitHeight pc))].
Definition SigmaPolicy_MarshalJSON (pc : SigmaPolicy) : res bytes := json_object [
  ("sigma_required_alpha_blocks", json_uint (SigmaRequiredAlphaBlocks pc)); ("sigma_required_alpha_count", json_uint (SigmaRequiredAlphaCount pc));
  ("sigma_unlock_required_blocks", json_uint (SigmaUnlockRequiredBlocks pc))].
Definition OmegaPolicy_MarshalJSON (pc : OmegaPolicy) : res bytes := json_object [
  ("omega_required_sigma_blocks", json_uint (OmegaRequiredSigmaBlocks pc)); ("omega_required_sigma_count", json_uint (OmegaRequiredSigmaCount pc));
  ("omega_unlock_required_blocks", json_uint (OmegaUnlockRequiredBlocks pc))].
Definition HyperPolicy_MarshalJSON (pc : HyperPolicy) : res bytes := json_object [
  ("hyper_creation_amount", Amount.MarshalJSON (HyperCreationAmount pc)); ("hyper_unlock_required_blocks", json_uint (HyperUnlockRequiredBlocks pc));
  ("staking_unlock_required_blocks", json_uint (StakingUnlockRequiredBlocks pc))].
Definition ValidatorPolicy_MarshalJSON (pc : ValidatorPolicy) : res bytes := json_object [
  ("commission_ratio_1000", json_uint (CommissionRatio1000 pc)); ("minimum_staking", Amount.MarshalJSON (MinimumStaking pc));
  ("pay_out_interval", json_uint (PayOutInterval pc))].
Definition TransmutePolicy_MarshalJSON (pc : TransmutePolicy) : res bytes := json_object [
  ("transmute_enable_height_from", json_uint (TransmuteEnableHeightFrom pc)); ("transmute_enable_height_to", json_uint (TransmuteEnableHeightTo pc))].
Definition TxOut_MarshalJSON (out : TxOut) : res bytes := json_object [
  ("amount", Amount.MarshalJSON (out_Amount out)); ("public_hash", p_pubhash (out_PublicHash out))].

(** *** Accounts *)

Definition SingleAccount_MarshalJSON (acc : SingleAccount) : res bytes := json_object [
  ("address", p_addr (sa_Address acc)); ("name", json_string (sa_Name acc)); ("key_hash", p_pubhash (sa_KeyHash acc))].
Definition MultiAccount_MarshalJSON (acc : MultiAccount) : res bytes := json_object [
  ("address", p_addr (ma_Address acc)); ("name", json_string (ma_Name acc)); ("required", json_uint (ma_Required acc));
  ("key_hashes", json_array p_pubhash (ma_KeyHashes acc))].

(** *** The transactions of the vault *)

Definition Transfer_MarshalJSON (tx : Transfer) : res bytes := json_object [
  ("timestamp", json_uint (tr_Timestamp tx)); ("seq", json_uint (tr_Seq tx)); ("from", p_addr (tr_From tx)); ("to", p_addr (tr_To tx));
  ("amount", Amount.MarshalJSON (tr_Amount tx))].
Definition Burn_MarshalJSON (tx : Burn) : res bytes := json_object [
  ("timestamp", json_uint (bu_Timestamp tx)); ("seq", json_uint (bu_Seq tx)); ("from", p_addr (bu_From tx));
  ("amount", Amount.MarshalJSON (bu_Amount tx))].
Definition CreateAccount_MarshalJSON (tx : CreateAccountTx) : res bytes := json_object [
  ("timestamp", json_uint (ca_Timestamp tx)); ("seq", json_uint (ca_Seq tx)); ("from", p_addr (ca_From tx)); ("name", json_string (ca_Name tx));
  ("key_hash", p_pubhash (ca_KeyHash tx))].
Definition CreateMultiAccount_MarshalJSON (tx : CreateMultiAccount) : res bytes := json_object [
  ("timestamp", json_uint (cm_Timestamp tx)); ("seq", json_uint (cm_Seq tx)); ("from", p_addr (cm_From tx)); ("name", json_string (cm_Name tx));
  ("key_hashes", json_array p_pubhash (cm_KeyHashes tx))].
Definition IssueAccount_MarshalJSON (tx : IssueAccount) : res bytes := json_object [
  ("timestamp", json_uint (is_Timestamp tx)); ("seq", json_uint (is_Seq tx)); ("from", p_addr (is_From tx)); ("name", json_string (is_Name tx));
  ("key_hash", p_pubhash (is_KeyHash tx))].
Definition UpdatePolicy_MarshalJSON (tx : UpdatePolicy) : res bytes := json_object [
  ("timestamp", json_uint (up_Timestamp tx)); ("seq", json_uint (up_Seq tx)); ("from", p_addr (up_From tx));
  ("policy", p_nonnil Policy_MarshalJSON (up_Policy tx))].

(** *** The transactions of the formulator process *)

Definition CreateAlpha_MarshalJSON (tx : CreateAlpha) : res bytes := json_object [
  ("timestamp", json_uint (Timestamp_ (al_head tx))); ("seq", json_uint (Seq_ (al_head tx))); ("from", p_addr (From_ (al_head tx)));
  ("name", json_string (al_Name tx)); ("key_hash", p_pubhash (al_KeyHash tx)); ("gen_hash", p_pubhash (al_GenHash tx))].
Definition CreateSigma_MarshalJSON (tx : CreateSigma) : res bytes := json_object [
  ("timestamp", json_uint (Timestamp_ (si_head tx))); ("seq", json_uint (Seq_ (si_head tx))); ("from", p_addr (From_ (si_head tx)));
  ("alpha_formulators", json_array p_addr (AlphaFormulators tx))].
Definition CreateOmega_MarshalJSON (tx : CreateOmega) : res bytes := json_object [
  ("timestamp", json_uint (Timestamp_ (om_head tx))); ("seq", json_uint (Seq_ (om_head tx))); ("from", p_addr (From_ (om_head tx)));
  ("sigma_formulators", json_array p_addr (SigmaFormulators tx))].
Definition CreateHyper_MarshalJSON (tx : CreateHyper) : res bytes := json_object [
  ("timestamp", json_uint (Timestamp_ (hy_head tx))); ("seq", json_uint (Seq_ (hy_head tx))); ("from", p_addr (From_ (hy_head tx)));
  ("name", json_string (hy_Name tx)); ("key_hash", p_pubhash (hy_KeyHash tx)); ("gen_hash", p_pubhash (hy_GenHash tx));
  ("policy", p_nonnil ValidatorPolicy_MarshalJSON (hy_Policy tx))].
Definition Revoke_MarshalJSON (tx : Revoke) : res bytes := json_object [
  ("timestamp", json_uint (Timestamp_ (re_head tx))); ("seq", json_uint (Seq_ (re_head tx))); ("from", p_addr (From_ (re_head tx)));
  ("heritor", p_addr (re_Heritor tx))].
Definition Staking_MarshalJSON (tx : Staking) : res bytes := json_object [
  ("timestamp", json_uint (Timestamp_ (st_head tx))); ("seq", json_uint (Seq_ (st_head tx))); ("from", p_addr (From_ (st_head tx)));
  ("hyper_formulator", p_addr (st_HyperFormulator tx)); ("amount", Amount.MarshalJSON (st_Amount tx))].
Definition Unstaking_MarshalJSON (tx : Unstaking) : res bytes := json_object [
  ("timestamp", json_uint (Timestamp_ (un_head tx))); ("seq", json_uint (Seq_ (un_head tx))); ("from", p_addr (From_ (un_head tx)));
  ("hyper_formulator", p_addr (un_HyperFormulator tx)); ("amount", Amount.MarshalJSON (un_Amount tx))].
Definition UpdateValidatorPolicy_MarshalJSON (tx : UpdateValidatorPolicy) : res bytes := json_object [
  ("timestamp", json_uint (Timestamp_ (uv_head tx))); ("seq", json_uint (Seq_ (uv_head tx))); ("from", p_addr (From_ (uv_head tx)));
  ("policy", p_nonnil ValidatorPolicy_MarshalJSON (uv_Policy tx))].
Definition UpdateUserAutoStaking_MarshalJSON (tx : UpdateUserAutoStaking) : res bytes := json_object [
  ("timestamp", json_uint (Timestamp_ (ua_head tx))); ("seq", json_uint (Seq_ (ua_head tx))); ("from", p_addr (From_ (ua_head tx)));
  ("hyper_formulator", p_addr (ua_HyperFormulator tx)); ("auto_staking", json_bool (ua_AutoStaking tx))].
Definition ChangeOwner_MarshalJSON (tx : ChangeOwner) : res bytes := json_object [
  ("timestamp", json_uint (Timestamp_ (co_head tx))); ("seq", json_uint (Seq_ (co_head tx))); ("from", p_addr (From_ (co_head tx)));
  ("key_hash", p_pubhash (co_KeyHash tx)); ("gen_hash", p_pubhash (co_GenHash tx))].
Definition RevertRevoke_MarshalJSON (tx : RevertRevoke) : res bytes := json_object [
  ("timestamp", json_uint (Timestamp_ (rr_head tx))); ("seq", json_uint (Seq_ (rr_head tx))); ("from", p_addr (From_ (rr_head tx)))].
Definition RevertUnstaking_MarshalJSON (tx : RevertUnstaking) : res bytes := json_object [
  ("timestamp", json_uint (Timestamp_ (ru_head tx))); ("seq", json_uint (Seq_ (ru_head tx))); ("from", p_addr (From_ (ru_head tx)));
  ("hyper_formulator", p_addr (ru_HyperFormulator tx)); ("amount", Amount.MarshalJSON (ru_Amount tx))].
Definition Transmute_MarshalJSON (tx : Transmute) : res bytes := json_object [
  ("timestamp", json_uint (Timestamp_ (tm_head tx))); ("seq", json_uint (Seq_ (tm_head tx))); ("from", p_addr (From_ (tm_head tx)));
  ("name", json_string (tm_Name tx)); ("key_hash", p_pubhash (tm_KeyHash tx)); ("gen_hash", p_pubhash (tm_GenHash tx));
  ("hyper_formulators", json_array p_addr (tm_HyperFormulators tx)); ("amounts", json_array Amount.MarshalJSON (tm_Amounts tx))].
Definition UpdateRewardPolicy_MarshalJSON (tx : UpdateRewardPolicy) : res bytes := json_object [
  ("timestamp", json_uint (Timestamp_ (ur_head tx))); ("seq", json_uint (Seq_ (ur_head tx))); ("from", p_addr (From_ (ur_head tx)));
  ("policy", p_nonnil RewardPolicy_MarshalJSON (ur_Policy tx))].
Definition UpdateTransmutePolicy_MarshalJSON (tx : UpdateTransmutePolicy) : res bytes := json_object [
  ("timestamp", json_uint (Timestamp_ (ut_head tx))); ("seq", json_uint (Seq_ (ut_head tx))); ("from", p_addr (From_ (ut_head tx)));
  ("policy", p_nonnil TransmutePolicy_MarshalJSON (ut_Policy tx))].

(** *** The transactions of the payment process *)

Definition AddTopic_MarshalJSON (tx : AddTopic) : res bytes := json_object [
  ("timestamp", json_uint (at_Timestamp tx)); ("seq", json_uint (at_Seq tx)); ("from", p_addr (at_From tx)); ("topic", json_uint (at_Topic tx));
  ("topic_name", json_string (at_TopicName tx))].
Definition RemoveTopic_MarshalJSON (tx : RemoveTopic) : res bytes := json_object [
  ("timestamp", json_uint (rt_Timestamp tx)); ("seq", json_uint (rt_Seq tx)); ("from", p_addr (rt_From tx)); ("topic", json_uint (rt_Topic tx));
  ("topic_name", json_string (rt_TopicName tx))].
Definition RequestPayment_MarshalJSON (tx : RequestPayment) : res bytes := json_object [
  ("timestamp", json_uint (rq_Timestamp tx)); ("seq", json_uint (rq_Seq tx)); ("from", p_addr (rq_From tx)); ("topic", json_uint (rq_Topic tx));
  ("to", p_addr (rq_To tx)); ("amount", Amount.MarshalJSON (rq_Amount tx)); ("content", json_string (rq_Content tx))].
Definition ResponsePayment_MarshalJSON (tx : ResponsePayment) : res bytes := json_object [
  ("timestamp", json_uint (rs_Timestamp tx)); ("seq", json_uint (rs_Seq tx)); ("from", p_addr (rs_From tx)); ("txid", json_string (rs_TXID tx));
  ("amount", Amount.MarshalJSON (rs_Amount tx)); ("is_accept", json_bool (rs_IsAccept tx))].
Definition Subscribe_MarshalJSON (tx : Subscribe) : res bytes := json_object [
  ("timestamp", json_uint (su_Timestamp tx)); ("seq", json_uint (su_Seq tx)); ("from", p_addr (su_From tx)); ("topic", json_uint (su_Topic tx));
  ("amount", Amount.MarshalJSON (su_Amount tx))].
Definition Unsubscribe_MarshalJSON (tx : Unsubscribe) : res bytes := json_object [
  ("timestamp", json_uint (us_Timestamp tx)); ("seq", json_uint (us_Seq tx)); ("from", p_addr (us_From tx)); ("topic", json_uint (us_Topic tx))].
Definition Billing_MarshalJSON (tx : Billing) : res bytes := json_object [
  ("timestamp", json_uint (bi_Timestamp tx)); ("seq", json_uint (bi_Seq tx)); ("from", p_addr (bi_From tx)); ("topic", json_uint (bi_Topic tx));
  ("to", p_addr (bi_To tx)); ("amount", Amount.MarshalJSON (bi_Amount tx)); ("content", json_string (bi_Content tx))].

(** *** The transactions of the gateway process *)

Definition TokenIn_MarshalJSON (tx : TokenIn) : res bytes := json_object [
  ("timestamp", json_uint (ti_Timestamp tx)); ("seq", json_uint (ti_Seq tx)); ("from", p_addr (ti_From tx)); ("erc20_txid", p_hash (ti_ERC20TXID tx));
  ("erc20_from", p_erc20 (ti_ERC20From tx)); ("to_addresses", json_array p_addr (ti_ToAddresses tx));
  ("amount", json_array Amount.MarshalJSON (ti_Amounts tx))].
Definition TokenOut_MarshalJSON (tx : TokenOut) : res bytes := json_object [
  ("timestamp", json_uint (to_Timestamp tx)); ("seq", json_uint (to_Seq tx)); ("from", p_addr (to_From tx)); ("erc20_to", p_erc20 (to_ERC20To tx));
  ("amount", Amount.MarshalJSON (to_Amount tx))].
Definition TokenLeave_MarshalJSON (tx : TokenLeave) : res bytes := json_object [
  ("timestamp", json_uint (tl_Timestamp tx)); ("seq", json_uint (tl_Seq tx)); ("from", p_addr (tl_From tx));
  ("coin_txid", json_string (tl_CoinTXID tx)); ("coin_from", p_addr (tl_CoinFrom tx)); ("erc20_txid", p_hash (tl_ERC20TXID tx));
  ("erc20_to", p_erc20 (tl_ERC20To tx)); ("amount", Amount.MarshalJSON (tl_Amount tx))].
Definition GatewayUpdatePolicy_MarshalJSON (tx : GatewayUpdatePolicy) : res bytes := json_object [
  ("timestamp", json_uint (gu_Timestamp tx)); ("seq", json_uint (gu_Seq tx)); ("from", p_addr (gu_From tx));
  ("policy", p_nonnil GatewayPolicy_MarshalJSON (gu_Policy tx))].

(** [FormulatorType] is a number. *)
Definition type_value (t : FormulatorType) : Z :=
  match t with AlphaFormulatorType => 1 | SigmaFormulatorType => 2 | OmegaFormulatorType => 3 | HyperFormulatorType => 4 end.
Definition FormulatorAccount_MarshalJSON (acc : FormulatorAccount) : res bytes := json_object (
  [("address", p_addr (fa_Address acc)); ("name", json_string (fa_Name acc)); ("formulator_type", json_uint (type_value (fa_Type acc)));
   ("key_hash", p_pubhash (fa_KeyHash acc)); ("gen_hash", p_pubhash (fa_GenHash acc)); ("amount", Amount.MarshalJSON (fa_Amount acc));
   ("is_revoked", json_bool (fa_IsRevoked acc)); ("pre_height", json_uint (fa_PreHeight acc)); ("updated_height", json_uint (fa_UpdatedHeight acc))] ++
  if bool_decide (fa_Type acc = HyperFormulatorType) then
    [("policy", p_nonnil ValidatorPolicy_MarshalJSON (fa_Policy acc)); ("staking_amount", p_nonnil Amount.MarshalJSON (fa_StakingAmount acc))]
  else []).
Definition Account_MarshalJSON (a : Account) : res bytes :=
  match a with ASingle acc => SingleAccount_MarshalJSON acc | AMulti acc => MultiAccount_MarshalJSON acc | AFormulator acc => FormulatorAccount_MarshalJSON acc end.

(** [UTXO] has the method of the output it embeds: its input is not printed. *)
Definition UTXO_MarshalJSON (u : UTXO) : res bytes := TxOut_MarshalJSON (utxo_Out u).

(** *** The ordered maps, given by their entries in ascending order *)

Definition AddressAmountMap_MarshalJSON : list (Address * Amount) -> res bytes := map_MarshalJSON p_addr Amount.MarshalJSON.
Definition AddressAddressAmountMap_MarshalJSON : list (Address * list (Address * Amount)) -> res bytes := map_MarshalJSON p_addr AddressAmountMap_MarshalJSON.
Definition AddressAccountMap_MarshalJSON : list (Address * Account) -> res bytes := map_MarshalJSON p_addr Account_MarshalJSON.
Definition AddressAddressMap_MarshalJSON : list (Address * Address) -> res bytes := map_MarshalJSON p_addr p_addr.
Definition AddressBoolMap_MarshalJSON : list (Address * bool) -> res bytes := map_MarshalJSON p_addr json_bool.
Definition AddressUint32Map_MarshalJSON : list (Address * Z) -> res bytes := map_MarshalJSON p_addr json_uint.
Definition AddressUint64Map_MarshalJSON : list (Address * Z) -> res bytes := map_MarshalJSON p_addr json_uint.
Definition PublicHashBoolMap_MarshalJSON : list (PublicHash * bool) -> res bytes := map_MarshalJSON p_pubhash json_bool.
Definition StringAddressMap_MarshalJSON : list (bytes * Address) -> res bytes := map_MarshalJSON json_string p_addr.
Definition StringBoolMap_MarshalJSON : list (bytes * bool) -> res bytes := map_MarshalJSON json_string json_bool.
Definition StringStringMap_MarshalJSON : list (bytes * bytes) -> res bytes := map_MarshalJSON json_string json_string.
Definition Uint64BoolMap_MarshalJSON : list (Z * bool) -> res bytes := map_MarshalJSON json_uint json_bool.
Definition Uint64TxOutMap_MarshalJSON : list (Z * TxOut) -> res bytes := map_MarshalJSON json_uint TxOut_MarshalJSON.
Definition Uint64UTXOMap_MarshalJSON : list (Z * UTXO) -> res bytes := map_MarshalJSON json_uint UTXO_MarshalJSON.

(** *** Events *)

Definition event_head (e : Event) : list (string * res bytes) :=
  [("height", json_uint (ev_Height e)); ("index", json_uint (ev_Index e)); ("n", json_uint (ev_N e))].
Definition nested (m : gmap Address (gmap Address Amount)) : list (Address * list (Address * Amount)) := (fun kv => (kv.1, each_all kv.2)) <$> each_all m.
Definition RewardEvent_MarshalJSON (e : Event) (GenBlockMap : gmap Address Z) (RewardMap StackedMap CommissionMap : gmap Address Amount)
    (StakedMap StakeRewardMap : gmap Address (gmap Address Amount)) : res bytes := json_object (event_head e ++
  [("reward_map", AddressAmountMap_MarshalJSON (each_all RewardMap)); ("stacked_map", AddressAmountMap_MarshalJSON (each_all StackedMap));
   ("commission_map", AddressAmountMap_MarshalJSON (each_all CommissionMap)); ("staked_map", AddressAddressAmountMap_MarshalJSON (nested StakedMap));
   ("stake_reward_map", AddressAddressAmountMap_MarshalJSON (nested StakeRewardMap)); ("gen_block_map", AddressUint32Map_MarshalJSON (each_all GenBlockMap))]).
Definition RevokedEvent_MarshalJSON (e : Event) (Formulator : Address) : res bytes := json_object (event_head e ++ [("formulator", p_addr Formulator)]).
Definition UnstakedEvent_MarshalJSON (e : Event) (HyperFormulator addr : Address) (am : Amount) : res bytes := json_object (event_head e ++
  [("hyper_formulator", p_addr HyperFormulator); ("address", p_addr addr); ("amount", Amount.MarshalJSON am)]).
Definition Event_MarshalJSON (e : Event) : res bytes :=
  match ev_body e with
  | RewardEvent GenBlockMap RewardMap StackedMap CommissionMap StakedMap StakeRewardMap =>
      RewardEvent_MarshalJSON e GenBlockMap RewardMap StackedMap CommissionMap StakedMap StakeRewardMap
  | RevokedEvent Formulator => RevokedEvent_MarshalJSON e Formulator
  | UnstakedEvent HyperFormulator addr am => UnstakedEvent_MarshalJSON e HyperFormulator addr am
  end.

(** The transactions of a process. *)
Definition VaultTx_MarshalJSON (tx : VaultTx) : res bytes :=
  match tx with
  | VTransfer tx => Transfer_MarshalJSON tx
  | VBurn tx => Burn_MarshalJSON tx
  | VCreateAccount tx => CreateAccount_MarshalJSON tx
  | VCreateMultiAccount tx => CreateMultiAccount_MarshalJSON tx
  | VIssueAccount tx => IssueAccount_MarshalJSON tx
  | VUpdatePolicy tx => UpdatePolicy_MarshalJSON tx
  end.
Definition FormulatorTx_MarshalJSON (tx : FormulatorTransaction) : res bytes :=
  match tx with
  | FCreateAlpha tx => CreateAlpha_MarshalJSON tx
  | FCreateSigma tx => CreateSigma_MarshalJSON tx
  | FCreateOmega tx => CreateOmega_MarshalJSON tx
  | FCreateHyper tx => CreateHyper_MarshalJSON tx
  | FRevoke tx => Revoke_MarshalJSON tx
  | FStaking tx => Staking_MarshalJSON tx
  | FUnstaking tx => Unstaking_MarshalJSON tx
  | FUpdateValidatorPolicy tx => UpdateValidatorPolicy_MarshalJSON tx
  | FUpdateUserAutoStaking tx => UpdateUserAutoStaking_MarshalJSON tx
  | FChangeOwner tx => ChangeOwner_MarshalJSON tx
  | FRevertRevoke tx => RevertRevoke_MarshalJSON tx
  | FRevertUnstaking tx => RevertUnstaking_MarshalJSON tx
  | FTransmute tx => Transmute_MarshalJSON tx
  | FUpdateRewardPolicy tx => UpdateRewardPolicy_MarshalJSON tx
  | FUpdateTransmutePolicy tx => UpdateTransmutePolicy_MarshalJSON tx
  end.
Definition PaymentTx_MarshalJSON (tx : PaymentTx) : res bytes :=
  match tx with
  | PAddTopic tx => AddTopic_MarshalJSON tx
  | PRemoveTopic tx => RemoveTopic_MarshalJSON tx
  | PRequestPayment tx => RequestPayment_MarshalJSON tx
  | PResponsePayment tx => ResponsePayment_MarshalJSON tx
  | PSubscribe tx => Subscribe_MarshalJSON tx
  | PUnsubscribe tx => Unsubscribe_MarshalJSON tx
  | PBilling tx => Billing_MarshalJSON tx
  end.
Definition GatewayTx_MarshalJSON (tx : GatewayTx) : res bytes :=
  match tx with
  | GTokenIn tx => TokenIn_MarshalJSON tx
  | GTokenOut tx => TokenOut_MarshalJSON tx
  | GTokenLeave tx => TokenLeave_MarshalJSON tx
  | GUpdatePolicy tx => GatewayUpdatePolicy_MarshalJSON tx
  end.

(** ** What a reader gets *)

Definition t_addr (a : Address) : json := JStr (Address_String a).
Definition t_pubhash (h : PublicHash) : json := JStr (PublicHash_String h).
Definition t_hash (h : Hash256) : json := JStr (Hash256_String h).
Definition t_erc20 (a : bytes) : json := JStr (ERC20_String a).
Definition t_amount (a : Amount) : json := JStr (canonical a).
Definition t_string (s : bytes) : json := JStr (clean 0 s).
Definition t_array {A} (f : A -> json) (l : list A) : json := JArr (f <$> l).
Definition t_nonnil {A} (f : A -> json) (o : option A) : json := match o with Some x => f x | None => JBool false end.
Definition ok_nonnil {A} (P : A -> Prop) (o : option A) : Prop := match o with Some x => P x | None => False end.

Definition Policy_tree (pc : Policy) : json := JObj [
  (str "account_creation_amount", t_amount (AccountCreationAmount pc))].
Definition GatewayPolicy_tree (pc : GatewayPolicy) : json := JObj [
  (str "withdraw_fee", t_amount (WithdrawFee pc))].
Definition RewardPolicy_tree (pc : RewardPolicy) : json := JObj [
  (str "reward_per_block", t_amount (RewardPerBlock pc)); (str "pay_reward_every_blocks", JNum (PayRewardEveryBlocks pc));
  (str "alpha_efficiency_1000", JNum (AlphaEfficiency1000 pc)); (str "sigma_efficiency_1000", JNum (SigmaEfficiency1000 pc));
  (str "omega_efficiency_1000", JNum (OmegaEfficiency1000 pc)); (str "hyper_efficiency_1000", JNum (HyperEfficiency1000 pc));
  (str "staking_efficiency_1000", JNum (StakingEfficiency1000 pc))].
Definition AlphaPolicy_tree (pc : AlphaPolicy) : json := JObj [
  (str "alpha_creation_amount", t_amount (AlphaCreationAmount pc)); (str "alpha_unlock_required_blocks", JNum (AlphaUnlockRequiredBlocks pc));
  (str "alpha_creation_limit_height", JNum (AlphaCreationLimitHeight pc))].
Definition SigmaPolicy_tree (pc : SigmaPolicy) : json := JObj [
  (str "sigma_required_alpha_blocks", JNum (SigmaRequiredAlphaBlocks pc)); (str "sigma_required_alpha_count", JNum (SigmaRequiredAlphaCount pc));
  (str "sigma_unlock_required_blocks", JNum (SigmaUnlockRequiredBlocks pc))].
Definition OmegaPolicy_tree (pc : OmegaPolicy) : json := JObj [
  (str "omega_required_sigma_blocks", JNum (OmegaRequiredSigmaBlocks pc)); (str "omega_required_sigma_count", JNum (OmegaRequiredSigmaCount pc));
  (str "omega_unlock_required_blocks", JNum (OmegaUnlockRequiredBlocks pc))].
Definition HyperPolicy_tree (pc : HyperPolicy) : json := JObj [
  (str "hyper_creation_amount", t_amount (HyperCreationAmount pc)); (str "hyper_unlock_required_blocks", JNum (HyperUnlockRequiredBlocks pc));
  (str "staking_unlock_required_blocks", JNum (StakingUnlockRequiredBlocks pc))].
Definition ValidatorPolicy_tree (pc : ValidatorPolicy) : json := JObj [
  (str "commission_ratio_1000", JNum (CommissionRatio1000 pc)); (str "minimum_staking", t_amount (MinimumStaking pc));
  (str "pay_out_interval", JNum (PayOutInterval pc))].
Definition TransmutePolicy_tree (pc : TransmutePolicy) : json := JObj [
  (str "transmute_enable_height_from", JNum (TransmuteEnableHeightFrom pc)); (str "transmute_enable_height_to", JNum (TransmuteEnableHeightTo pc))].
Definition TxOut_tree (out : TxOut) : json := JObj [
  (str "amount", t_amount (out_Amount out)); (str "public_hash", t_pubhash (out_PublicHash out))].
Definition SingleAccount_tree (acc : SingleAccount) : json := JObj [
  (str "address", t_addr (sa_Address acc)); (str "name", t_string (sa_Name acc)); (str "key_hash", t_pubhash (sa_KeyHash acc))].
Definition MultiAccount_tree (acc : MultiAccount) : json := JObj [
  (str "address", t_addr (ma_Address acc)); (str "name", t_string (ma_Name acc)); (str "required", JNum (ma_Required acc));
  (str "key_hashes", t_array t_pubhash (ma_KeyHashes acc))].
Definition Transfer_tree (tx : Transfer) : json := JObj [
  (str "timestamp", JNum (tr_Timestamp tx)); (str "seq", JNum (tr_Seq tx)); (str "from", t_addr (tr_From tx)); (str "to", t_addr (tr_To tx));
  (str "amount", t_amount (tr_Amount tx))].
Definition Burn_tree (tx : Burn) : json := JObj [
  (str "timestamp", JNum (bu_Timestamp tx)); (str "seq", JNum (bu_Seq tx)); (str "from", t_addr (bu_From tx)); (str "amount", t_amount (bu_Amount tx))].
Definition CreateAccount_tree (tx : CreateAccountTx) : json := JObj [
  (str "timestamp", JNum (ca_Timestamp tx)); (str "seq", JNum (ca_Seq tx)); (str "from", t_addr (ca_From tx)); (str "name", t_string (ca_Name tx));
  (str "key_hash", t_pubhash (ca_KeyHash tx))].
Definition CreateMultiAccount_tree (tx : CreateMultiAccount) : json := JObj [
  (str "timestamp", JNum (cm_Timestamp tx)); (str "seq", JNum (cm_Seq tx)); (str "from", t_addr (cm_From tx)); (str "name", t_string (cm_Name tx));
  (str "key_hashes", t_array t_pubhash (cm_KeyHashes tx))].
Definition IssueAccount_tree (tx : IssueAccount) : json := JObj [
  (str "timestamp", JNum (is_Timestamp tx)); (str "seq", JNum (is_Seq tx)); (str "from", t_addr (is_From tx)); (str "name", t_string (is_Name tx));
  (str "key_hash", t_pubhash (is_KeyHash tx))].
Definition UpdatePolicy_tree (tx : UpdatePolicy) : json := JObj [
  (str "timestamp", JNum (up_Timestamp tx)); (str "seq", JNum (up_Seq tx)); (str "from", t_addr (up_From tx));
  (str "policy", t_nonnil Policy_tree (up_Policy tx))].
Definition CreateAlpha_tree (tx : CreateAlpha) : json := JObj [
  (str "timestamp", JNum (Timestamp_ (al_head tx))); (str "seq", JNum (Seq_ (al_head tx))); (str "from", t_addr (From_ (al_head tx)));
  (str "name", t_string (al_Name tx)); (str "key_hash", t_pubhash (al_KeyHash tx)); (str "gen_hash", t_pubhash (al_GenHash tx))].
Definition CreateSigma_tree (tx : CreateSigma) : json := JObj [
  (str "timestamp", JNum (Timestamp_ (si_head tx))); (str "seq", JNum (Seq_ (si_head tx))); (str "from", t_addr (From_ (si_head tx)));
  (str "alpha_formulators", t_array t_addr (AlphaFormulators tx))].
Definition CreateOmega_tree (tx : CreateOmega) : json := JObj [
  (str "timestamp", JNum (Timestamp_ (om_head tx))); (str "seq", JNum (Seq_ (om_head tx))); (str "from", t_addr (From_ (om_head tx)));
  (str "sigma_formulators", t_array t_addr (SigmaFormulators tx))].
Definition CreateHyper_tree (tx : CreateHyper) : json := JObj [
  (str "timestamp", JNum (Timestamp_ (hy_head tx))); (str "seq", JNum (Seq_ (hy_head tx))); (str "from", t_addr (From_ (hy_head tx)));
  (str "name", t_string (hy_Name tx)); (str "key_hash", t_pubhash (hy_KeyHash tx)); (str "gen_hash", t_pubhash (hy_GenHash tx));
  (str "policy", t_nonnil ValidatorPolicy_tree (hy_Policy tx))].
Definition Revoke_tree (tx : Revoke) : json := JObj [
  (str "timestamp", JNum (Timestamp_ (re_head tx))); (str "seq", JNum (Seq_ (re_head tx))); (str "from", t_addr (From_ (re_head tx)));
  (str "heritor", t_addr (re_Heritor tx))].
Definition Staking_tree (tx : Staking) : json := JObj [
  (str "timestamp", JNum (Timestamp_ (st_head tx))); (str "seq", JNum (Seq_ (st_head tx))); (str "from", t_addr (From_ (st_head tx)));
  (str "hyper_formulator", t_addr (st_HyperFormulator tx)); (str "amount", t_amount (st_Amount tx))].
Definition Unstaking_tree (tx : Unstaking) : json := JObj [
  (str "timestamp", JNum (Timestamp_ (un_head tx))); (str "seq", JNum (Seq_ (un_head tx))); (str "from", t_addr (From_ (un_head tx)));
  (str "hyper_formulator", t_addr (un_HyperFormulator tx)); (str "amount", t_amount (un_Amount tx))].
Definition UpdateValidatorPolicy_tree (tx : UpdateValidatorPolicy) : json := JObj [
  (str "timestamp", JNum (Timestamp_ (uv_head tx))); (str "seq", JNum (Seq_ (uv_head tx))); (str "from", t_addr (From_ (uv_head tx)));
  (str "policy", t_nonnil ValidatorPolicy_tree (uv_Policy tx))].
Definition UpdateUserAutoStaking_tree (tx : UpdateUserAutoStaking) : json := JObj [
  (str "timestamp", JNum (Timestamp_ (ua_head tx))); (str "seq", JNum (Seq_ (ua_head tx))); (str "from", t_addr (From_ (ua_head tx)));
  (str "hyper_formulator", t_addr (ua_HyperFormulator tx)); (str "auto_staking", JBool (ua_AutoStaking tx))].
Definition ChangeOwner_tree (tx : ChangeOwner) : json := JObj [
  (str "timestamp", JNum (Timestamp_ (co_head tx))); (str "seq", JNum (Seq_ (co_head tx))); (str "from", t_addr (From_ (co_head tx)));
  (str "key_hash", t_pubhash (co_KeyHash tx)); (str "gen_hash", t_pubhash (co_GenHash tx))].
Definition RevertRevoke_tree (tx : RevertRevoke) : json := JObj [
  (str "timestamp", JNum (Timestamp_ (rr_head tx))); (str "seq", JNum (Seq_ (rr_head tx))); (str "from", t_addr (From_ (rr_head tx)))].
Definition RevertUnstaking_tree (tx : RevertUnstaking) : json := JObj [
  (str "timestamp", JNum (Timestamp_ (ru_head tx))); (str "seq", JNum (Seq_ (ru_head tx))); (str "from", t_addr (From_ (ru_head tx)));
  (str "hyper_formulator", t_addr (ru_HyperFormulator tx)); (str "amount", t_amount (ru_Amount tx))].
Definition Transmute_tree (tx : Transmute) : json := JObj [
  (str "timestamp", JNum (Timestamp_ (tm_head tx))); (str "seq", JNum (Seq_ (tm_head tx))); (str "from", t_addr (From_ (tm_head tx)));
  (str "name", t_string (tm_Name tx)); (str "key_hash", t_pubhash (tm_KeyHash tx)); (str "gen_hash", t_pubhash (tm_GenHash tx));
  (str "hyper_formulators", t_array t_addr (tm_HyperFormulators tx)); (str "amounts", t_array t_amount (tm_Amounts tx))].
Definition UpdateRewardPolicy_tree (tx : UpdateRewardPolicy) : json := JObj [
  (str "timestamp", JNum (Timestamp_ (ur_head tx))); (str "seq", JNum (Seq_ (ur_head tx))); (str "from", t_addr (From_ (ur_head tx)));
  (str "policy", t_nonnil RewardPolicy_tree (ur_Policy tx))].
Definition UpdateTransmutePolicy_tree (tx : UpdateTransmutePolicy) : json := JObj [
  (str "timestamp", JNum (Timestamp_ (ut_head tx))); (str "seq", JNum (Seq_ (ut_head tx))); (str "from", t_addr (From_ (ut_head tx)));
  (str "policy", t_nonnil TransmutePolicy_tree (ut_Policy tx))].
Definition AddTopic_tree (tx : AddTopic) : json := JObj [
  (str "timestamp", JNum (at_Timestamp tx)); (str "seq", JNum (at_Seq tx)); (str "from", t_addr (at_From tx)); (str "topic", JNum (at_Topic tx));
  (str "topic_name", t_string (at_TopicName tx))].
Definition RemoveTopic_tree (tx : RemoveTopic) : json := JObj [
  (str "timestamp", JNum (rt_Timestamp tx)); (str "seq", JNum (rt_Seq tx)); (str "from", t_addr (rt_From tx)); (str "topic", JNum (rt_Topic tx));
  (str "topic_name", t_string (rt_TopicName tx))].
Definition RequestPayment_tree (tx : RequestPayment) : json := JObj [
  (str "timestamp", JNum (rq_Timestamp tx)); (str "seq", JNum (rq_Seq tx)); (str "from", t_addr (rq_From tx)); (str "topic", JNum (rq_Topic tx));
  (str "to", t_addr (rq_To tx)); (str "amount", t_amount (rq_Amount tx)); (str "content", t_string (rq_Content tx))].
Definition ResponsePayment_tree (tx : ResponsePayment) : json := JObj [
  (str "timestamp", JNum (rs_Timestamp tx)); (str "seq", JNum (rs_Seq tx)); (str "from", t_addr (rs_From tx)); (str "txid", t_string (rs_TXID tx));
  (str "amount", t_amount (rs_Amount tx)); (str "is_accept", JBool (rs_IsAccept tx))].
Definition Subscribe_tree (tx : Subscribe) : json := JObj [
  (str "timestamp", JNum (su_Timestamp tx)); (str "seq", JNum (su_Seq tx)); (str "from", t_addr (su_From tx)); (str "topic", JNum (su_Topic tx));
  (str "amount", t_amount (su_Amount tx))].
Definition Unsubscribe_tree (tx : Unsubscribe) : json := JObj [
  (str "timestamp", JNum (us_Timestamp tx)); (str "seq", JNum (us_Seq tx)); (str "from", t_addr (us_From tx)); (str "topic", JNum (us_Topic tx))].
Definition Billing_tree (tx : Billing) : json := JObj [
  (str "timestamp", JNum (bi_Timestamp tx)); (str "seq", JNum (bi_Seq tx)); (str "from", t_addr (bi_From tx)); (str "topic", JNum (bi_Topic tx));
  (str "to", t_addr (bi_To tx)); (str "amount", t_amount (bi_Amount tx)); (str "content", t_string (bi_Content tx))].
Definition TokenIn_tree (tx : TokenIn) : json := JObj [
  (str "timestamp", JNum (ti_Timestamp tx)); (str "seq", JNum (ti_Seq tx)); (str "from", t_addr (ti_From tx));
  (str "erc20_txid", t_hash (ti_ERC20TXID tx)); (str "erc20_from", t_erc20 (ti_ERC20From tx));
  (str "to_addresses", t_array t_addr (ti_ToAddresses tx)); (str "amount", t_array t_amount (ti_Amounts tx))].
Definition TokenOut_tree (tx : TokenOut) : json := JObj [
  (str "timestamp", JNum (to_Timestamp tx)); (str "seq", JNum (to_Seq tx)); (str "from", t_addr (to_From tx));
  (str "erc20_to", t_erc20 (to_ERC20To tx)); (str "amount", t_amount (to_Amount tx))].
Definition TokenLeave_tree (tx : TokenLeave) : json := JObj [
  (str "timestamp", JNum (tl_Timestamp tx)); (str "seq", JNum (tl_Seq tx)); (str "from", t_addr (tl_From tx));
  (str "coin_txid", t_string (tl_CoinTXID tx)); (str "coin_from", t_addr (tl_CoinFrom tx)); (str "erc20_txid", t_hash (tl_ERC20TXID tx));
  (str "erc20_to", t_erc20 (tl_ERC20To tx)); (str "amount", t_amount (tl_Amount tx))].
Definition GatewayUpdatePolicy_tree (tx : GatewayUpdatePolicy) : json := JObj [
  (str "timestamp", JNum (gu_Timestamp tx)); (str "seq", JNum (gu_Seq tx)); (str "from", t_addr (gu_From tx));
  (str "policy", t_nonnil GatewayPolicy_tree (gu_Policy tx))].

Definition FormulatorAccount_tree (acc : FormulatorAccount) : json := JObj (
  [(str "address", t_addr (fa_Address acc)); (str "name", t_string (fa_Name acc)); (str "formulator_type", JNum (type_value (fa_Type acc)));
   (str "key_hash", t_pubhash (fa_KeyHash acc)); (str "gen_hash", t_pubhash (fa_GenHash acc)); (str "amount", t_amount (fa_Amount acc));
   (str "is_revoked", JBool (fa_IsRevoked acc)); (str "pre_height", JNum (fa_PreHeight acc)); (str "updated_height", JNum (fa_UpdatedHeight acc))] ++
  if bool_decide (fa_Type acc = HyperFormulatorType) then
    [(str "policy", t_nonnil ValidatorPolicy_tree (fa_Policy acc)); (str "staking_amount", t_nonnil t_amount (fa_StakingAmount acc))]
  else []).
Definition Account_tree (a : Account) : json :=
  match a with ASingle acc => SingleAccount_tree acc | AMulti acc => MultiAccount_tree acc | AFormulator acc => FormulatorAccount_tree acc end.
Definition t_map {V} (tree : V -> json) (l : list (Address * V)) : json := JObj ((fun kv => (Address_String kv.1, tree kv.2)) <$> l).
Definition Event_tree (e : Event) : json := JObj (
  [(str "height", JNum (ev_Height e)); (str "index", JNum (ev_Index e)); (str "n", JNum (ev_N e))] ++
  match ev_body e with
  | RewardEvent GenBlockMap RewardMap StackedMap CommissionMap StakedMap StakeRewardMap =>
      [(str "reward_map", t_map t_amount (each_all RewardMap)); (str "stacked_map", t_map t_amount (each_all StackedMap));
       (str "commission_map", t_map t_amount (each_all CommissionMap)); (str "staked_map", t_map (t_map t_amount) (nested StakedMap));
       (str "stake_reward_map", t_map (t_map t_amount) (nested StakeRewardMap)); (str "gen_block_map", t_map JNum (each_all GenBlockMap))]
  | RevokedEvent Formulator => [(str "formulator", t_addr Formulator)]
  | UnstakedEvent HyperFormulator addr am => [(str "hyper_formulator", t_addr HyperFormulator); (str "address", t_addr addr); (str "amount", t_amount am)]
  end).

Definition VaultTx_tree (tx : VaultTx) : json :=
  match tx with
  | VTransfer tx => Transfer_tree tx
  | VBurn tx => Burn_tree tx
  | VCreateAccount tx => CreateAccount_tree tx
  | VCreateMultiAccount tx => CreateMultiAccount_tree tx
  | VIssueAccount tx => IssueAccount_tree tx
  | VUpdatePolicy tx => UpdatePolicy_tree tx
  end.
Definition FormulatorTx_tree (tx : FormulatorTransaction) : json :=
  match tx with
  | FCreateAlpha tx => CreateAlpha_tree tx
  | FCreateSigma tx => CreateSigma_tree tx
  | FCreateOmega tx => CreateOmega_tree tx
  | FCreateHyper tx => CreateHyper_tree tx
  | FRevoke tx => Revoke_tree tx
  | FStaking tx => Staking_tree tx
  | FUnstaking tx => Unstaking_tree tx
  | FUpdateValidatorPolicy tx => UpdateValidatorPolicy_tree tx
  | FUpdateUserAutoStaking tx => UpdateUserAutoStaking_tree tx
  | FChangeOwner tx => ChangeOwner_tree tx
  | FRevertRevoke tx => RevertRevoke_tree tx
  | FRevertUnstaking tx => RevertUnstaking_tree tx
  | FTransmute tx => Transmute_tree tx
  | FUpdateRewardPolicy tx => UpdateRewardPolicy_tree tx
  | FUpdateTransmutePolicy tx => UpdateTransmutePolicy_tree tx
  end.
Definition PaymentTx_tree (tx : PaymentTx) : json :=
  match tx with
  | PAddTopic tx => AddTopic_tree tx
  | PRemoveTopic tx => RemoveTopic_tree tx
  | PRequestPayment tx => RequestPayment_tree tx
  | PResponsePayment tx => ResponsePayment_tree tx
  | PSubscribe tx => Subscribe_tree tx
  | PUnsubscribe tx => Unsubscribe_tree tx
  | PBilling tx => Billing_tree tx
  end.
Definition GatewayTx_tree (tx : GatewayTx) : json :=
  match tx with
  | GTokenIn tx => TokenIn_tree tx
  | GTokenOut tx => TokenOut_tree tx
  | GTokenLeave tx => TokenLeave_tree tx
  | GUpdatePolicy tx => GatewayUpdatePolicy_tree tx
  end.

(** *** Values that can be printed

    Numbers are not negative, strings and hashes are made of bytes, pointers are not
    nil. *)

Definition Policy_printable (pc : Policy) : Prop := 0 <= (AccountCreationAmount pc).
Definition GatewayPolicy_printable (pc : GatewayPolicy) : Prop := 0 <= (WithdrawFee pc).
Definition RewardPolicy_printable (pc : RewardPolicy) : Prop := 0 <= (RewardPerBlock pc) /\ 0 <= (PayRewardEveryBlocks pc) /\ 0 <= (AlphaEfficiency1000 pc) /\ 0 <= (SigmaEfficiency1000 pc) /\ 0 <= (OmegaEfficiency1000 pc) /\ 0 <= (HyperEfficiency1000 pc) /\ 0 <= (StakingEfficiency1000 pc).
Definition AlphaPolicy_printable (pc : AlphaPolicy) : Prop := 0 <= (AlphaCreationAmount pc) /\ 0 <= (AlphaUnlockRequiredBlocks pc) /\ 0 <= (AlphaCreationLimitHeight pc).
Definition SigmaPolicy_printable (pc : SigmaPolicy) : Prop := 0 <= (SigmaRequiredAlphaBlocks pc) /\ 0 <= (SigmaRequiredAlphaCount pc) /\ 0 <= (SigmaUnlockRequiredBlocks pc).
Definition OmegaPolicy_printable (pc : OmegaPolicy) : Prop := 0 <= (OmegaRequiredSigmaBlocks pc) /\ 0 <= (OmegaRequiredSigmaCount pc) /\ 0 <= (OmegaUnlockRequiredBlocks pc).
Definition HyperPolicy_printable (pc : HyperPolicy) : Prop := 0 <= (HyperCreationAmount pc) /\ 0 <= (HyperUnlockRequiredBlocks pc) /\ 0 <= (StakingUnlockRequiredBlocks pc).
Definition ValidatorPolicy_printable (pc : ValidatorPolicy) : Prop := 0 <= (CommissionRatio1000 pc) /\ 0 <= (MinimumStaking pc) /\ 0 <= (PayOutInterval pc).
Definition TransmutePolicy_printable (pc : TransmutePolicy) : Prop := 0 <= (TransmuteEnableHeightFrom pc) /\ 0 <= (TransmuteEnableHeightTo pc).
Definition TxOut_printable (out : TxOut) : Prop := 0 <= (out_Amount out).
Definition SingleAccount_printable (acc : SingleAccount) : Prop := bytes_ok (sa_Name acc).
Definition MultiAccount_printable (acc : MultiAccount) : Prop := bytes_ok (ma_Name acc) /\ 0 <= (ma_Required acc).
Definition Transfer_printable (tx : Transfer) : Prop := 0 <= (tr_Timestamp tx) /\ 0 <= (tr_Seq tx) /\ 0 <= (tr_Amount tx).
Definition Burn_printable (tx : Burn) : Prop := 0 <= (bu_Timestamp tx) /\ 0 <= (bu_Seq tx) /\ 0 <= (bu_Amount tx).
Definition CreateAccount_printable (tx : CreateAccountTx) : Prop := 0 <= (ca_Timestamp tx) /\ 0 <= (ca_Seq tx) /\ bytes_ok (ca_Name tx).
Definition CreateMultiAccount_printable (tx : CreateMultiAccount) : Prop := 0 <= (cm_Timestamp tx) /\ 0 <= (cm_Seq tx) /\ bytes_ok (cm_Name tx).
Definition IssueAccount_printable (tx : IssueAccount) : Prop := 0 <= (is_Timestamp tx) /\ 0 <= (is_Seq tx) /\ bytes_ok (is_Name tx).
Definition UpdatePolicy_printable (tx : UpdatePolicy) : Prop := 0 <= (up_Timestamp tx) /\ 0 <= (up_Seq tx) /\ ok_nonnil Policy_printable (up_Policy tx).
Definition CreateAlpha_printable (tx : CreateAlpha) : Prop := 0 <= (Timestamp_ (al_head tx)) /\ 0 <= (Seq_ (al_head tx)) /\ bytes_ok (al_Name tx).
Definition CreateSigma_printable (tx : CreateSigma) : Prop := 0 <= (Timestamp_ (si_head tx)) /\ 0 <= (Seq_ (si_head tx)).
Definition CreateOmega_printable (tx : CreateOmega) : Prop := 0 <= (Timestamp_ (om_head tx)) /\ 0 <= (Seq_ (om_head tx)).
Definition CreateHyper_printable (tx : CreateHyper) : Prop := 0 <= (Timestamp_ (hy_head tx)) /\ 0 <= (Seq_ (hy_head tx)) /\ bytes_ok (hy_Name tx) /\ ok_nonnil ValidatorPolicy_printable (hy_Policy tx).
Definition Revoke_printable (tx : Revoke) : Prop := 0 <= (Timestamp_ (re_head tx)) /\ 0 <= (Seq_ (re_head tx)).
Definition Staking_printable (tx : Staking) : Prop := 0 <= (Timestamp_ (st_head tx)) /\ 0 <= (Seq_ (st_head tx)) /\ 0 <= (st_Amount tx).
Definition Unstaking_printable (tx : Unstaking) : Prop := 0 <= (Timestamp_ (un_head tx)) /\ 0 <= (Seq_ (un_head tx)) /\ 0 <= (un_Amount tx).
Definition UpdateValidatorPolicy_printable (tx : UpdateValidatorPolicy) : Prop := 0 <= (Timestamp_ (uv_head tx)) /\ 0 <= (Seq_ (uv_head tx)) /\ ok_nonnil ValidatorPolicy_printable (uv_Policy tx).
Definition UpdateUserAutoStaking_printable (tx : UpdateUserAutoStaking) : Prop := 0 <= (Timestamp_ (ua_head tx)) /\ 0 <= (Seq_ (ua_head tx)).
Definition ChangeOwner_printable (tx : ChangeOwner) : Prop := 0 <= (Timestamp_ (co_head tx)) /\ 0 <= (Seq_ (co_head tx)).
Definition RevertRevoke_printable (tx : RevertRevoke) : Prop := 0 <= (Timestamp_ (rr_head tx)) /\ 0 <= (Seq_ (rr_head tx)).
Definition RevertUnstaking_printable (tx : RevertUnstaking) : Prop := 0 <= (Timestamp_ (ru_head tx)) /\ 0 <= (Seq_ (ru_head tx)) /\ 0 <= (ru_Amount tx).
Definition Transmute_printable (tx : Transmute) : Prop := 0 <= (Timestamp_ (tm_head tx)) /\ 0 <= (Seq_ (tm_head tx)) /\ bytes_ok (tm_Name tx) /\ Forall (fun a => 0 <= a) (tm_Amounts tx).
Definition UpdateRewardPolicy_printable (tx : UpdateRewardPolicy) : Prop := 0 <= (Timestamp_ (ur_head tx)) /\ 0 <= (Seq_ (ur_head tx)) /\ ok_nonnil RewardPolicy_printable (ur_Policy tx).
Definition UpdateTransmutePolicy_printable (tx : UpdateTransmutePolicy) : Prop := 0 <= (Timestamp_ (ut_head tx)) /\ 0 <= (Seq_ (ut_head tx)) /\ ok_nonnil TransmutePolicy_printable (ut_Policy tx).
Definition AddTopic_printable (tx : AddTopic) : Prop := 0 <= (at_Timestamp tx) /\ 0 <= (at_Seq tx) /\ 0 <= (at_Topic tx) /\ bytes_ok (at_TopicName tx).
Definition RemoveTopic_printable (tx : RemoveTopic) : Prop := 0 <= (rt_Timestamp tx) /\ 0 <= (rt_Seq tx) /\ 0 <= (rt_Topic tx) /\ bytes_ok (rt_TopicName tx).
Definition RequestPayment_printable (tx : RequestPayment) : Prop := 0 <= (rq_Timestamp tx) /\ 0 <= (rq_Seq tx) /\ 0 <= (rq_Topic tx) /\ 0 <= (rq_Amount tx) /\ bytes_ok (rq_Content tx).
Definition ResponsePayment_printable (tx : ResponsePayment) : Prop := 0 <= (rs_Timestamp tx) /\ 0 <= (rs_Seq tx) /\ bytes_ok (rs_TXID tx) /\ 0 <= (rs_Amount tx).
Definition Subscribe_printable (tx : Subscribe) : Prop := 0 <= (su_Timestamp tx) /\ 0 <= (su_Seq tx) /\ 0 <= (su_Topic tx) /\ 0 <= (su_Amount tx).
Definition Unsubscribe_printable (tx : Unsubscribe) : Prop := 0 <= (us_Timestamp tx) /\ 0 <= (us_Seq tx) /\ 0 <= (us_Topic tx).
Definition Billing_printable (tx : Billing) : Prop := 0 <= (bi_Timestamp tx) /\ 0 <= (bi_Seq tx) /\ 0 <= (bi_Topic tx) /\ 0 <= (bi_Amount tx) /\ bytes_ok (bi_Content tx).
Definition TokenIn_printable (tx : TokenIn) : Prop := 0 <= (ti_Timestamp tx) /\ 0 <= (ti_Seq tx) /\ bytes_ok (ti_ERC20TXID tx) /\ bytes_ok (ti_ERC20From tx) /\ Forall (fun a => 0 <= a) (ti_Amounts tx).
Definition TokenOut_printable (tx : TokenOut) : Prop := 0 <= (to_Timestamp tx) /\ 0 <= (to_Seq tx) /\ bytes_ok (to_ERC20To tx) /\ 0 <= (to_Amount tx).
Definition TokenLeave_printable (tx : TokenLeave) : Prop := 0 <= (tl_Timestamp tx) /\ 0 <= (tl_Seq tx) /\ bytes_ok (tl_CoinTXID tx) /\ bytes_ok (tl_ERC20TXID tx) /\ bytes_ok (tl_ERC20To tx) /\ 0 <= (tl_Amount tx).
Definition GatewayUpdatePolicy_printable (tx : GatewayUpdatePolicy) : Prop := 0 <= (gu_Timestamp tx) /\ 0 <= (gu_Seq tx) /\ ok_nonnil GatewayPolicy_printable (gu_Policy tx).

Definition FormulatorAccount_printable (acc : FormulatorAccount) : Prop :=
  bytes_ok (fa_Name acc) /\ 0 <= fa_Amount acc /\ 0 <= fa_PreHeight acc /\ 0 <= fa_UpdatedHeight acc /\
  (fa_Type acc = HyperFormulatorType -> ok_nonnil ValidatorPolicy_printable (fa_Policy acc) /\ ok_nonnil (fun a => 0 <= a) (fa_StakingAmount acc)).
Definition Account_printable (a : Account) : Prop :=
  match a with ASingle acc => SingleAccount_printable acc | AMulti acc => MultiAccount_printable acc | AFormulator acc => FormulatorAccount_printable acc end.
Definition amounts_ok (m : gmap Address Amount) : Prop := map_Forall (fun _ a => 0 <= a) m.
Definition Event_printable (e : Event) : Prop :=
  0 <= ev_Height e /\ 0 <= ev_Index e /\ 0 <= ev_N e /\
  match ev_body e with
  | RewardEvent GenBlockMap RewardMap StackedMap CommissionMap StakedMap StakeRewardMap =>
      amounts_ok RewardMap /\ amounts_ok StackedMap /\ amounts_ok CommissionMap /\ map_Forall (fun _ => amounts_ok) StakedMap /\
      map_Forall (fun _ => amounts_ok) StakeRewardMap /\ map_Forall (fun _ n => 0 <= n) GenBlockMap
  | RevokedEvent _ => True
  | UnstakedEvent _ _ am => 0 <= am
  end.
Definition VaultTx_printable (tx : VaultTx) : Prop :=
  match tx with
  | VTransfer tx => Transfer_printable tx
  | VBurn tx => Burn_printable tx
  | VCreateAccount tx => CreateAccount_printable tx
  | VCreateMultiAccount tx => CreateMultiAccount_printable tx
  | VIssueAccount tx => IssueAccount_printable tx
  | VUpdatePolicy tx => UpdatePolicy_printable tx
  end.
Definition FormulatorTx_printable (tx : FormulatorTransaction) : Prop :=
  match tx with
  | FCreateAlpha tx => CreateAlpha_printable tx
  | FCreateSigma tx => CreateSigma_printable tx
  | FCreateOmega tx => CreateOmega_printable tx
  | FCreateHyper tx => CreateHyper_printable tx
  | FRevoke tx => Revoke_printable tx
  | FStaking tx => Staking_printable tx
  | FUnstaking tx => Unstaking_printable tx
  | FUpdateValidatorPolicy tx => UpdateValidatorPolicy_printable tx
  | FUpdateUserAutoStaking tx => UpdateUserAutoStaking_printable tx
  | FChangeOwner tx => ChangeOwner_printable tx
  | FRevertRevoke tx => RevertRevoke_printable tx
  | FRevertUnstaking tx => RevertUnstaking_printable tx
  | FTransmute tx => Transmute_printable tx
  | FUpdateRewardPolicy tx => UpdateRewardPolicy_printable tx
  | FUpdateTransmutePolicy tx => UpdateTransmutePolicy_printable tx
  end.
Definition PaymentTx_printable (tx : PaymentTx) : Prop :=
  match tx with
  | PAddTopic tx => AddTopic_printable tx
  | PRemoveTopic tx => RemoveTopic_printable tx
  | PRequestPayment tx => RequestPayment_printable tx
  | PResponsePayment tx => ResponsePayment_printable tx
  | PSubscribe tx => Subscribe_printable tx
  | PUnsubscribe tx => Unsubscribe_printable tx
  | PBilling tx => Billing_printable tx
  end.
Definition GatewayTx_printable (tx : GatewayTx) : Prop :=
  match tx with
  | GTokenIn tx => TokenIn_printable tx
  | GTokenOut tx => TokenOut_printable tx
  | GTokenLeave tx => TokenLeave_printable tx
  | GUpdatePolicy tx => GatewayUpdatePolicy_printable tx
  end.

(** ** The printers write what is read *)

Context `{BT : !Base58Text}.
#[local] Create HintDb json.

Lemma alphanumeric_safe s : Forall alphanumeric s -> Forall safe s.
Proof. intros H. eapply Forall_impl; [exact H|]. unfold alphanumeric, safe, c_quote, c_backslash. lia. Qed.
Lemma addr_safe a : Forall safe (Address_String a).
Proof. unfold Address_String. apply alphanumeric_safe, base58_text. Qed.
Lemma pubhash_safe h : Forall safe (PublicHash_String h).
Proof. apply alphanumeric_safe, base58_text. Qed.
Lemma hex_safe bs : bytes_ok bs -> Forall safe (hex_EncodeToString bs).
Proof.
  intros Hok. apply alphanumeric_safe. unfold hex_EncodeToString. induction Hok as [|b bs Hb _ IH]; [constructor|]. unfold byte_ok in Hb. cbn.
  assert (Hc : forall d, 0 <= d < 16 -> alphanumeric (hex_char d)) by (intros d Hd; unfold hex_char, alphanumeric; destruct (Z.ltb_spec d 10); lia).
  constructor; [apply Hc; split; [apply Z.div_pos; lia|apply Z.div_lt_upper_bound; lia]|]. constructor; [apply Hc, Z.mod_pos_bound; lia|exact IH].
Qed.
Lemma digits_safe s : forallb is_digit s = true -> Forall safe s.
Proof.
  intros H. rewrite forallb_forall in H. apply Forall_forall. intros c Hc%list_elem_of_In. specialize (H c Hc). unfold is_digit in H. unfold safe, c_quote, c_backslash. lia.
Qed.
Lemma canonical_safe a : Forall safe (canonical a).
Proof.
  unfold canonical. apply Forall_app. split; [apply digits_safe, fixed_digit|]. destruct (trim_fixed_spec FractionalCount a) as (_ & Hd & _).
  destruct (trim_right_zeros _) as [|c t]; [constructor|]. constructor; [by unfold safe|]. by apply digits_safe.
Qed.

Lemma prints_addr a : prints (p_addr a) (t_addr a).
Proof. apply prints_quoted, addr_safe. Qed.
Lemma prints_pubhash h : prints (p_pubhash h) (t_pubhash h).
Proof. apply prints_quoted, pubhash_safe. Qed.
Lemma prints_hash h : bytes_ok h -> prints (p_hash h) (t_hash h).
Proof. intros Hh. by apply prints_quoted, hex_safe. Qed.
Lemma prints_erc20 a : bytes_ok a -> prints (p_erc20 a) (t_erc20 a).
Proof.
  intros Ha. apply (prints_quoted (ERC20_String a)). unfold ERC20_String. apply Forall_app. split; [by repeat constructor|by apply hex_safe].
Qed.
Lemma prints_amount a : 0 <= a -> prints (Amount.MarshalJSON a) (t_amount a).
Proof.
  intros Ha. unfold Amount.MarshalJSON. assert (E : Amount.String a = Ok (canonical a)) by (destruct (decide (a = 0)) as [->|]; [by vm_compute|apply String_canonical; lia]).
  rewrite E. cbn [res_bind]. apply prints_quoted, canonical_safe.
Qed.
Lemma prints_text s : bytes_ok s -> prints (json_string s) (t_string s).
Proof. apply prints_string. Qed.
Lemma prints_addrs l : prints (json_array p_addr l) (t_array t_addr l).
Proof. apply prints_array, Forall_forall. intros a _. apply prints_addr. Qed.
Lemma prints_pubhashes l : prints (json_array p_pubhash l) (t_array t_pubhash l).
Proof. apply prints_array, Forall_forall. intros a _. apply prints_pubhash. Qed.
Lemma prints_amounts l : Forall (fun a => 0 <= a) l -> prints (json_array Amount.MarshalJSON l) (t_array t_amount l).
Proof. intros H. apply prints_array. eapply Forall_impl; [exact H|]. apply prints_amount. Qed.
Lemma prints_nonnil {A} (f : A -> res bytes) g (P : A -> Prop) o : (forall x, P x -> prints (f x) (g x)) -> ok_nonnil P o -> prints (p_nonnil f o) (t_nonnil g o).
Proof. intros H Ho. destruct o; [by apply H|done]. Qed.
#[local] Hint Resolve prints_addr prints_pubhash prints_hash prints_erc20 prints_amount prints_text prints_addrs prints_pubhashes prints_amounts prints_uint prints_bool : json.
#[local] Hint Extern 2 (prints (p_nonnil _ _) (t_nonnil _ _)) => eapply prints_nonnil; [|eassumption] : json.

#[local] Instance safe_dec c : Decision (safe c).
Proof. unfold safe. apply _. Defined.
(** A field: its name is plain text, and its value is printed by a printer above. *)
Ltac print_field := split; [reflexivity|split; [apply (bool_decide_unpack _); vm_compute; exact Logic.I|cbn [fst snd]; eauto with json]].
Ltac print_fields := repeat (apply Forall2_cons; split; [print_field|]); try apply Forall2_nil_2.
Ltac print_object ok :=
  let H := fresh "H" in intros H; unfold ok in H; destruct_and?;
  match goal with |- prints (?f _) (?g _) => unfold f, g end; apply prints_object; print_fields.

Lemma Policy_prints pc : Policy_printable pc -> prints (Policy_MarshalJSON pc) (Policy_tree pc).
Proof. print_object Policy_printable. Qed.
#[local] Hint Resolve Policy_prints : json.
Lemma GatewayPolicy_prints pc : GatewayPolicy_printable pc -> prints (GatewayPolicy_MarshalJSON pc) (GatewayPolicy_tree pc).
Proof. print_object GatewayPolicy_printable. Qed.
#[local] Hint Resolve GatewayPolicy_prints : json.
Lemma RewardPolicy_prints pc : RewardPolicy_printable pc -> prints (RewardPolicy_MarshalJSON pc) (RewardPolicy_tree pc).
Proof. print_object RewardPolicy_printable. Qed.
#[local] Hint Resolve RewardPolicy_prints : json.
Lemma AlphaPolicy_prints pc : AlphaPolicy_printable pc -> prints (AlphaPolicy_MarshalJSON pc) (AlphaPolicy_tree pc).
Proof. print_object AlphaPolicy_printable. Qed.
#[local] Hint Resolve AlphaPolicy_prints : json.
Lemma SigmaPolicy_prints pc : SigmaPolicy_printable pc -> prints (SigmaPolicy_MarshalJSON pc) (SigmaPolicy_tree pc).
Proof. print_object SigmaPolicy_printable. Qed.
#[local] Hint Resolve SigmaPolicy_prints : json.
Lemma OmegaPolicy_prints pc : OmegaPolicy_printable pc -> prints (OmegaPolicy_MarshalJSON pc) (OmegaPolicy_tree pc).
Proof. print_object OmegaPolicy_printable. Qed.
#[local] Hint Resolve OmegaPolicy_prints : json.
Lemma HyperPolicy_prints pc : HyperPolicy_printable pc -> prints (HyperPolicy_MarshalJSON pc) (HyperPolicy_tree pc).
Proof. print_object HyperPolicy_printable. Qed.
#[local] Hint Resolve HyperPolicy_prints : json.
Lemma ValidatorPolicy_prints pc : ValidatorPolicy_printable pc -> prints (ValidatorPolicy_MarshalJSON pc) (ValidatorPolicy_tree pc).
Proof. print_object ValidatorPolicy_printable. Qed.
#[local] Hint Resolve ValidatorPolicy_prints : json.
Lemma TransmutePolicy_prints pc : TransmutePolicy_printable pc -> prints (TransmutePolicy_MarshalJSON pc) (TransmutePolicy_tree pc).
Proof. print_object TransmutePolicy_printable. Qed.
#[local] Hint Resolve TransmutePolicy_prints : json.
Lemma TxOut_prints out : TxOut_printable out -> prints (TxOut_MarshalJSON out) (TxOut_tree out).
Proof. print_object TxOut_printable. Qed.
#[local] Hint Resolve TxOut_prints : json.
Lemma SingleAccount_prints acc : SingleAccount_printable acc -> prints (SingleAccount_MarshalJSON acc) (SingleAccount_tree acc).
Proof. print_object SingleAccount_printable. Qed.
#[local] Hint Resolve SingleAccount_prints : json.
Lemma MultiAccount_prints acc : MultiAccount_printable acc -> prints (MultiAccount_MarshalJSON acc) (MultiAccount_tree acc).
Proof. print_object MultiAccount_printable. Qed.
#[local] Hint Resolve MultiAccount_prints : json.
Lemma Transfer_prints tx : Transfer_printable tx -> prints (Transfer_MarshalJSON tx) (Transfer_tree tx).
Proof. print_object Transfer_printable. Qed.
#[local] Hint Resolve Transfer_prints : json.
Lemma Burn_prints tx : Burn_printable tx -> prints (Burn_MarshalJSON tx) (Burn_tree tx).
Proof. print_object Burn_printable. Qed.
#[local] Hint Resolve Burn_prints : json.
Lemma CreateAccount_prints tx : CreateAccount_printable tx -> prints (CreateAccount_MarshalJSON tx) (CreateAccount_tree tx).
Proof. print_object CreateAccount_printable. Qed.
#[local] Hint Resolve CreateAccount_prints : json.
Lemma CreateMultiAccount_prints tx : CreateMultiAccount_printable tx -> prints (CreateMultiAccount_MarshalJSON tx) (CreateMultiAccount_tree tx).
Proof. print_object CreateMultiAccount_printable. Qed.
#[local] Hint Resolve CreateMultiAccount_prints : json.
Lemma IssueAccount_prints tx : IssueAccount_printable tx -> prints (IssueAccount_MarshalJSON tx) (IssueAccount_tree tx).
Proof. print_object IssueAccount_printable. Qed.
#[local] Hint Resolve IssueAccount_prints : json.
Lemma UpdatePolicy_prints tx : UpdatePolicy_printable tx -> prints (UpdatePolicy_MarshalJSON tx) (UpdatePolicy_tree tx).
Proof. print_object UpdatePolicy_printable. Qed.
#[local] Hint Resolve UpdatePolicy_prints : json.
Lemma CreateAlpha_prints tx : CreateAlpha_printable tx -> prints (CreateAlpha_MarshalJSON tx) (CreateAlpha_tree tx).
Proof. print_object CreateAlpha_printable. Qed.
#[local] Hint Resolve CreateAlpha_prints : json.
Lemma CreateSigma_prints tx : CreateSigma_printable tx -> prints (CreateSigma_MarshalJSON tx) (CreateSigma_tree tx).
Proof. print_object CreateSigma_printable. Qed.
#[local] Hint Resolve CreateSigma_prints : json.
Lemma CreateOmega_prints tx : CreateOmega_printable tx -> prints (CreateOmega_MarshalJSON tx) (CreateOmega_tree tx).
Proof. print_object CreateOmega_printable. Qed.
#[local] Hint Resolve CreateOmega_prints : json.
Lemma CreateHyper_prints tx : CreateHyper_printable tx -> prints (CreateHyper_MarshalJSON tx) (CreateHyper_tree tx).
Proof. print_object CreateHyper_printable. Qed.
#[local] Hint Resolve CreateHyper_prints : json.
Lemma Revoke_prints tx : Revoke_printable tx -> prints (Revoke_MarshalJSON tx) (Revoke_tree tx).
Proof. print_object Revoke_printable. Qed.
#[local] Hint Resolve Revoke_prints : json.
Lemma Staking_prints tx : Staking_printable tx -> prints (Staking_MarshalJSON tx) (Staking_tree tx).
Proof. print_object Staking_printable. Qed.
#[local] Hint Resolve Staking_prints : json.
Lemma Unstaking_prints tx : Unstaking_printable tx -> prints (Unstaking_MarshalJSON tx) (Unstaking_tree tx).
Proof. print_object Unstaking_printable. Qed.
#[local] Hint Resolve Unstaking_prints : json.
Lemma UpdateValidatorPolicy_prints tx : UpdateValidatorPolicy_printable tx -> prints (UpdateValidatorPolicy_MarshalJSON tx) (UpdateValidatorPolicy_tree tx).
Proof. print_object UpdateValidatorPolicy_printable. Qed.
#[local] Hint Resolve UpdateValidatorPolicy_prints : json.
Lemma UpdateUserAutoStaking_prints tx : UpdateUserAutoStaking_printable tx -> prints (UpdateUserAutoStaking_MarshalJSON tx) (UpdateUserAutoStaking_tree tx).
Proof. print_object UpdateUserAutoStaking_printable. Qed.
#[local] Hint Resolve UpdateUserAutoStaking_prints : json.
Lemma ChangeOwner_prints tx : ChangeOwner_printable tx -> prints (ChangeOwner_MarshalJSON tx) (ChangeOwner_tree tx).
Proof. print_object ChangeOwner_printable. Qed.
#[local] Hint Resolve ChangeOwner_prints : json.
Lemma RevertRevoke_prints tx : RevertRevoke_printable tx -> prints (RevertRevoke_MarshalJSON tx) (RevertRevoke_tree tx).
Proof. print_object RevertRevoke_printable. Qed.
#[local] Hint Resolve RevertRevoke_prints : json.
Lemma RevertUnstaking_prints tx : RevertUnstaking_printable tx -> prints (RevertUnstaking_MarshalJSON tx) (RevertUnstaking_tree tx).
Proof. print_object RevertUnstaking_printable. Qed.
#[local] Hint Resolve RevertUnstaking_prints : json.
Lemma Transmute_prints tx : Transmute_printable tx -> prints (Transmute_MarshalJSON tx) (Transmute_tree tx).
Proof. print_object Transmute_printable. Qed.
#[local] Hint Resolve Transmute_prints : json.
Lemma UpdateRewardPolicy_prints tx : UpdateRewardPolicy_printable tx -> prints (UpdateRewardPolicy_MarshalJSON tx) (UpdateRewardPolicy_tree tx).
Proof. print_object UpdateRewardPolicy_printable. Qed.
#[local] Hint Resolve UpdateRewardPolicy_prints : json.
Lemma UpdateTransmutePolicy_prints tx : UpdateTransmutePolicy_printable tx -> prints (UpdateTransmutePolicy_MarshalJSON tx) (UpdateTransmutePolicy_tree tx).
Proof. print_object UpdateTransmutePolicy_printable. Qed.
#[local] Hint Resolve UpdateTransmutePolicy_prints : json.
Lemma AddTopic_prints tx : AddTopic_printable tx -> prints (AddTopic_MarshalJSON tx) (AddTopic_tree tx).
Proof. print_object AddTopic_printable. Qed.
#[local] Hint Resolve AddTopic_prints : json.
Lemma RemoveTopic_prints tx : RemoveTopic_printable tx -> prints (RemoveTopic_MarshalJSON tx) (RemoveTopic_tree tx).
Proof. print_object RemoveTopic_printable. Qed.
#[local] Hint Resolve RemoveTopic_prints : json.
Lemma RequestPayment_prints tx : RequestPayment_printable tx -> prints (RequestPayment_MarshalJSON tx) (RequestPayment_tree tx).
Proof. print_object RequestPayment_printable. Qed.
#[local] Hint Resolve RequestPayment_prints : json.
Lemma ResponsePayment_prints tx : ResponsePayment_printable tx -> prints (ResponsePayment_MarshalJSON tx) (ResponsePayment_tree tx).
Proof. print_object ResponsePayment_printable. Qed.
#[local] Hint Resolve ResponsePayment_prints : json.
Lemma Subscribe_prints tx : Subscribe_printable tx -> prints (Subscribe_MarshalJSON tx) (Subscribe_tree tx).
Proof. print_object Subscribe_printable. Qed.
#[local] Hint Resolve Subscribe_prints : json.
Lemma Unsubscribe_prints tx : Unsubscribe_printable tx -> prints (Unsubscribe_MarshalJSON tx) (Unsubscribe_tree tx).
Proof. print_object Unsubscribe_printable. Qed.
#[local] Hint Resolve Unsubscribe_prints : json.
Lemma Billing_prints tx : Billing_printable tx -> prints (Billing_MarshalJSON tx) (Billing_tree tx).
Proof. print_object Billing_printable. Qed.
#[local] Hint Resolve Billing_prints : json.
Lemma TokenIn_prints tx : TokenIn_printable tx -> prints (TokenIn_MarshalJSON tx) (TokenIn_tree tx).
Proof. print_object TokenIn_printable. Qed.
#[local] Hint Resolve TokenIn_prints : json.
Lemma TokenOut_prints tx : TokenOut_printable tx -> prints (TokenOut_MarshalJSON tx) (TokenOut_tree tx).
Proof. print_object TokenOut_printable. Qed.
#[local] Hint Resolve TokenOut_prints : json.
Lemma TokenLeave_prints tx : TokenLeave_printable tx -> prints (TokenLeave_MarshalJSON tx) (TokenLeave_tree tx).
Proof. print_object TokenLeave_printable. Qed.
#[local] Hint Resolve TokenLeave_prints : json.
Lemma GatewayUpdatePolicy_prints tx : GatewayUpdatePolicy_printable tx -> prints (GatewayUpdatePolicy_MarshalJSON tx) (GatewayUpdatePolicy_tree tx).
Proof. print_object GatewayUpdatePolicy_printable. Qed.
#[local] Hint Resolve GatewayUpdatePolicy_prints : json.

Lemma FormulatorAccount_prints acc : FormulatorAccount_printable acc -> prints (FormulatorAccount_MarshalJSON acc) (FormulatorAccount_tree acc).
Proof.
  intros (Hn & Ha & Hp & Hu & Hy). unfold FormulatorAccount_MarshalJSON, FormulatorAccount_tree. apply prints_object. apply Forall2_app.
  - assert (0 <= type_value (fa_Type acc)) by (by destruct (fa_Type acc)). print_fields.
  - case_bool_decide as Ht; [|constructor]. destruct (Hy Ht) as [? Hs]. print_fields.
Qed.
#[local] Hint Resolve FormulatorAccount_prints : json.
Lemma Account_prints a : Account_printable a -> prints (Account_MarshalJSON a) (Account_tree a).
Proof. destruct a; cbn [Account_printable Account_MarshalJSON Account_tree]; eauto with json. Qed.

(** A map from addresses whose values are printed. *)
Lemma prints_address_map {V} (value : V -> res bytes) tree l : Forall (fun kv => prints (value kv.2) (tree kv.2)) l -> prints (map_MarshalJSON p_addr value l) (t_map tree l).
Proof.
  intros H. apply prints_map. eapply Forall_impl; [exact H|]. intros [k v] Hv. split; [|done]. exists (Address_String k). split; [done|]. intros rest. apply parse_chars_safe, addr_safe.
Qed.
Lemma each_all_Forall {V} (P : V -> Prop) (m : gmap Address V) : map_Forall (fun _ => P) m -> Forall (fun kv => P kv.2) (each_all m).
Proof.
  intros H. apply Forall_forall. intros [k v] Hkv. unfold each_all in Hkv. rewrite merge_sort_Permutation in Hkv. apply elem_of_map_to_list in Hkv. by apply (H k).
Qed.
Lemma prints_amount_map m : amounts_ok m -> prints (AddressAmountMap_MarshalJSON (each_all m)) (t_map t_amount (each_all m)).
Proof. intros H. apply prints_address_map. eapply Forall_impl; [by apply each_all_Forall|]. intros [k a] Ha. by apply prints_amount. Qed.
Lemma prints_nested_map m : map_Forall (fun _ => amounts_ok) m -> prints (AddressAddressAmountMap_MarshalJSON (nested m)) (t_map (t_map t_amount) (nested m)).
Proof.
  intros H. apply prints_address_map. unfold nested. apply Forall_fmap. eapply Forall_impl; [by apply each_all_Forall|]. intros [k a] Ha. cbn in *. by apply prints_amount_map.
Qed.
Lemma prints_count_map m : map_Forall (fun _ n => 0 <= n) m -> prints (AddressUint32Map_MarshalJSON (each_all m)) (t_map JNum (each_all m)).
Proof. intros H. apply prints_address_map. eapply Forall_impl; [by apply (each_all_Forall (fun n => 0 <= n))|]. intros [k a] Ha. by apply prints_uint. Qed.
#[local] Hint Resolve Account_prints prints_amount_map prints_nested_map prints_count_map : json.

Lemma Event_prints e : Event_printable e -> prints (Event_MarshalJSON e) (Event_tree e).
Proof.
  intros (H1 & H2 & H3 & Hb). unfold Event_MarshalJSON, Event_tree. destruct (ev_body e); destruct_and?; apply prints_object, Forall2_app; print_fields.
Qed.
#[local] Hint Resolve Event_prints : json.
Lemma VaultTx_prints tx : VaultTx_printable tx -> prints (VaultTx_MarshalJSON tx) (VaultTx_tree tx).
Proof. destruct tx; cbn [VaultTx_printable VaultTx_MarshalJSON VaultTx_tree]; eauto with json. Qed.
#[local] Hint Resolve VaultTx_prints : json.
Lemma FormulatorTx_prints tx : FormulatorTx_printable tx -> prints (FormulatorTx_MarshalJSON tx) (FormulatorTx_tree tx).
Proof. destruct tx; cbn [FormulatorTx_printable FormulatorTx_MarshalJSON FormulatorTx_tree]; eauto with json. Qed.
#[local] Hint Resolve FormulatorTx_prints : json.
Lemma PaymentTx_prints tx : PaymentTx_printable tx -> prints (PaymentTx_MarshalJSON tx) (PaymentTx_tree tx).
Proof. destruct tx; cbn [PaymentTx_printable PaymentTx_MarshalJSON PaymentTx_tree]; eauto with json. Qed.
#[local] Hint Resolve PaymentTx_prints : json.
Lemma GatewayTx_prints tx : GatewayTx_printable tx -> prints (GatewayTx_MarshalJSON tx) (GatewayTx_tree tx).
Proof. destruct tx; cbn [GatewayTx_printable GatewayTx_MarshalJSON GatewayTx_tree]; eauto with json. Qed.
#[local] Hint Resolve GatewayTx_prints : json.

(** *** Everything that is printed *)

Inductive document :=
  | DVault (tx : VaultTx)
  | DFormulator (tx : FormulatorTransaction)
  | DPayment (tx : PaymentTx)
  | DGateway (tx : GatewayTx)
  | DAccount (a : Account)
  | DEvent (e : Event).
Definition document_MarshalJSON (d : document) : res bytes :=
  match d with
  | DVault tx => VaultTx_MarshalJSON tx
  | DFormulator tx => FormulatorTx_MarshalJSON tx
  | DPayment tx => PaymentTx_MarshalJSON tx
  | DGateway tx => GatewayTx_MarshalJSON tx
  | DAccount a => Account_MarshalJSON a
  | DEvent e => Event_MarshalJSON e
  end.
Definition document_tree (d : document) : json :=
  match d with
  | DVault tx => VaultTx_tree tx
  | DFormulator tx => FormulatorTx_tree tx
  | DPayment tx => PaymentTx_tree tx
  | DGateway tx => GatewayTx_tree tx
  | DAccount a => Account_tree a
  | DEvent e => Event_tree e
  end.
Definition document_printable (d : document) : Prop :=
  match d with
  | DVault tx => VaultTx_printable tx
  | DFormulator tx => FormulatorTx_printable tx
  | DPayment tx => PaymentTx_printable tx
  | DGateway tx => GatewayTx_printable tx
  | DAccount a => Account_printable a
  | DEvent e => Event_printable e
  end.

(** C33. The transactions of the four processes, the accounts and the events print
    themselves as JSON: when no amount or number in them is negative and no pointer to
    a policy or a staking amount is nil ([document_printable]; with a nil pointer the
    printer panics), the printer returns a text of one JSON value, and a reader of JSON
    gets from it the object with its fields, in their order and with their values.  A
    string in UTF-8 comes back as it was; in another one the bytes that are no UTF-8
    come back as U+FFFD ([clean]). *)
Theorem documents_print_as_json (d : document) : document_printable d ->
  exists bs, document_MarshalJSON d = Ok bs /\ json_parse bs = Some (document_tree d).
Proof. intros H. apply prints_parse. destruct d; cbn [document_printable document_MarshalJSON document_tree] in *; eauto with json. Qed.

(** The three maps from numbers print no JSON, unless they are empty. *)
Lemma number_maps_print_no_json (lb : list (Z * bool)) (lo : list (Z * TxOut)) (lu : list (Z * UTXO)) bs :
  (lb <> [] /\ Forall (fun kv => 0 <= kv.1) lb /\ Uint64BoolMap_MarshalJSON lb = Ok bs) \/
  (lo <> [] /\ Forall (fun kv => 0 <= kv.1) lo /\ Uint64TxOutMap_MarshalJSON lo = Ok bs) \/
  (lu <> [] /\ Forall (fun kv => 0 <= kv.1) lu /\ Uint64UTXOMap_MarshalJSON lu = Ok bs) -> json_parse bs = None.
Proof. intros [(? & ? & ?)|[(? & ? & ?)|(? & ? & ?)]]; by eapply (number_keys_are_no_json id). Qed.

(** The text of a transaction that creates an account of several keys does not have the
    number of keys that must sign. *)
Lemma required_keys_are_not_printed tx n :
  CreateMultiAccount_MarshalJSON (mkCreateMulti (cm_Timestamp tx) (cm_Seq tx) (cm_From tx) (cm_Name tx) n (cm_KeyHashes tx)) = CreateMultiAccount_MarshalJSON tx.
Proof. by destruct tx. Qed.
End Printers.

(** ** An example *)

(** Hexadecimal text is one that base58 could be. *)
#[local, refine] Instance base58_hex : Base58 := {| base58_Encode bs := hex_EncodeToString (u8 <$> bs); base58_Decode := hex_DecodeString |}.
Proof.
  - intros bs Hok. assert (E : u8 <$> bs = bs) by (induction Hok as [|b bs Hb _ IH]; [done|]; rewrite fmap_cons, IH; f_equal; apply Z.mod_small; exact Hb). rewrite E. by apply hex_roundtrip.
  - intros s w. induction s as [s IH] using (induction_ltof1 _ (@length Z)). unfold ltof in IH. destruct s as [|a [|b s]]; [done..|]. cbn [hex_DecodeString].
    repeat case_match; try done. specialize (IH s ltac:(cbn; lia)). destruct (hex_DecodeString s); cbn [res_bind]; congruence.
Defined.
#[local] Instance base58_hex_text : Base58Text.
Proof.
  intros bs. cbn [base58_Encode base58_hex]. unfold hex_EncodeToString. induction bs as [|b bs IH]; [constructor|]. cbn.
  assert (Hc : forall d, 0 <= d < 16 -> alphanumeric (hex_char d)) by (intros d Hd; unfold hex_char, alphanumeric; destruct (Z.ltb_spec d 10); lia).
  pose proof (Z.mod_pos_bound b 256). unfold u8 at 1 2. change (2 ^ 8) with 256. constructor; [apply Hc; split; [apply Z.div_pos; lia|apply Z.div_lt_upper_bound; lia]|]. constructor; [apply Hc, Z.mod_pos_bound; lia|exact IH].
Qed.
Definition ex_create : CreateAccountTx := mkCreateAccount 7 1 (NewAddress 7 3 9) (str "a<b") (replicate PublicHashSize 5).

Lemma documents_print_as_json_witness :
  exists bs, document_MarshalJSON (DVault (VCreateAccount ex_create)) = Ok bs /\ json_parse bs = Some (document_tree (DVault (VCreateAccount ex_create))).
Proof. apply documents_print_as_json. split; [done|]. split; [done|]. by repeat constructor. Defined.
