(* ===== verification/Backends.v ===== *)
(** * The drivers of the key-value backends

    [core/backend]: the store works on any backend that is registered under a name; the
    drivers adapt four databases ([badger_driver], [bolt_driver], [leveldb_driver],
    [buntdb_driver] and its old version) to the interface.  A database is a parameter:
    an ordered map with a cursor ([OrderedDB]).  The drivers are [StoreBackend]s, and the
    question is which of them keep the contract [BackendLaws] of the store. *)

From stdpp Require Import base gmap list sorting strings.
From Stdlib Require Import ZArith Lia.
From S2P Require Import Prelude Amount Common Types Context ContextSpec Factory OrderedMap Chain BlockCodec Pile PileDB StoreKey Store StoreSpec.

Definition ErrNotExistDriver : error := mkError "backend" "not exist driver".
Definition bolt_ErrKeyRequired : error := mkError "bolt" "key required".

(** ** Databases *)

(** A transaction of a database: a cursor gives the entries from a key on, in ascending
    order. *)
Class OrderedDB (D : Type) := {
  db_map : D -> gmap bytes bytes;
  db_Get : D -> bytes -> option bytes;
  db_Seek : D -> bytes -> list (bytes * bytes);
  db_Put : bytes -> bytes -> D -> D;
  db_Delete : bytes -> D -> D;
  db_Get_spec d k : db_Get d k = db_map d !! k;
  db_Seek_elem d k0 k v : (k, v) ∈ db_Seek d k0 <-> bytes_lt k k0 = false /\ db_map d !! k = Some v;
  db_Seek_sorted d k0 : StronglySorted (fun a b => bytes_lt a.1 b.1 = true) (db_Seek d k0);
  db_Put_spec k v d : db_map (db_Put k v d) = <[k := v]> (db_map d);
  db_Delete_spec k d : db_map (db_Delete k d) = delete k (db_map d)
}.

(** ** The registry of drivers *)

Section Registry.
Context {B : Type}.
Definition CreateBackend : Type := bytes -> res B.
Definition RegisterDriver (Name : bytes) (fn : CreateBackend) : ST (gmap bytes CreateBackend) unit := modify (fun gDriverMap => <[Name := fn]> gDriverMap).
Definition backend_Create (Name Path : bytes) : ST (gmap bytes CreateBackend) B :=
  let! o := gets (fun gDriverMap => gDriverMap !! Name) in
  match o with None => fail ErrNotExistDriver | Some fn => lift (fn Path) end.
End Registry.

Section Drivers.
Context {D : Type} `{ODB : !OrderedDB D}.

(** [View] and [Update] of all drivers: the changes of a failed update are undone. *)
Definition driver_View {A} (fn : D -> res A) (db : D) : res A := fn db.
Definition driver_Update {A} (fn : ST D A) : ST D A := fun db =>
  match fn db with
  | (Ok a, db') => (Ok a, db')
  | (r, _) => (r, db)
  end.

Definition has_prefix (prefix : bytes) (kv : bytes * bytes) : bool := bool_decide (prefix `prefix_of` kv.1).
(** The entries in front that satisfy a condition. *)
Fixpoint while (P : bytes * bytes -> bool) (l : list (bytes * bytes)) : list (bytes * bytes) :=
  match l with
  | [] => []
  | x :: l => if P x then x :: while P l else []
  end.

(** *** badger: [Seek], then as long as the prefix is there *)

Definition badger_Get (db : D) (key : bytes) : res bytes := match db_Get db key with Some v => Ok v | None => Err ErrNotExistKey end.
Definition badger_Iterate (db : D) (prefix : bytes) : res (list (bytes * bytes)) :=
  if (0 <? length prefix)%nat then Ok (while (has_prefix prefix) (db_Seek db prefix)) else Ok (db_Seek db []).
Definition badger_Set (key value : bytes) : ST D unit := modify (db_Put key value).
Definition badger_Delete (key : bytes) : ST D unit := modify (db_Delete key).

(** *** bolt: no value is one of no bytes; the key must not be empty *)

Definition bolt_Get (db : D) (key : bytes) : res bytes :=
  let value := default [] (db_Get db key) in
  if (length value =? 0)%nat then Err ErrNotExistKey else Ok value.
Definition bolt_Iterate (db : D) (prefix : bytes) : res (list (bytes * bytes)) :=
  if (0 <? length prefix)%nat then Ok (while (has_prefix prefix) (db_Seek db prefix)) else Ok (db_Seek db []).
Definition bolt_Set (key value : bytes) : ST D unit :=
  if (length key =? 0)%nat then fail bolt_ErrKeyRequired else modify (db_Put key value).
Definition bolt_Delete (key : bytes) : ST D unit := modify (db_Delete key).

(** *** LevelDB and BuntDB: the range from the prefix to its successor *)

(** The loop that adds one from the last byte on, over the reversed bytes. *)
Fixpoint add_one (l : bytes) : bytes :=
  match l with
  | [] => []
  | b :: l => let b := u8 (b + 1) in if b =? 0 then b :: add_one l else b :: l
  end.
Definition prefix_end (prefix : bytes) : bytes := reverse (add_one (reverse prefix)).
Definition below (limit : bytes) (kv : bytes * bytes) : bool := bytes_lt kv.1 limit.

Definition range_Iterate (db : D) (prefix : bytes) : res (list (bytes * bytes)) :=
  if (0 <? length prefix)%nat then
    let end_ := prefix_end prefix in
    if bytes_lt end_ prefix then Ok []
    else Ok (while (below end_) (db_Seek db prefix))
  else Ok (db_Seek db []).
Definition level_Iterate : D -> bytes -> res (list (bytes * bytes)) := range_Iterate.
Definition level_Get (db : D) (key : bytes) : res bytes := match db_Get db key with Some v => Ok v | None => Err ErrNotExistKey end.
Definition level_Set (key value : bytes) : ST D unit := modify (db_Put key value).
Definition level_Delete (key : bytes) : ST D unit := modify (db_Delete key).

Definition bunt_Iterate : D -> bytes -> res (list (bytes * bytes)) := range_Iterate.
Definition bunt_Get (db : D) (key : bytes) : res bytes := match db_Get db key with Some v => Ok v | None => Err ErrNotExistKey end.
Definition bunt_Set (key value : bytes) : ST D unit := modify (db_Put key value).
(** BuntDB reports a key that is not there, and the driver ignores it. *)
Definition bunt_Delete (key : bytes) : ST D unit :=
  let! r := attempt (let! o := gets (fun db => db_Get db key) in match o with None => fail ErrNotExistKey | Some _ => modify (db_Delete key) end) in
  match r with inl e => if bool_decide (e = ErrNotExistKey) then ret tt else fail e | inr _ => ret tt end.

(** ** Entries of a cursor *)

(** A condition that, once it fails, fails for all greater keys. *)
Lemma while_elem P l k v : StronglySorted (fun a b => bytes_lt a.1 b.1 = true) l ->
  (forall a b, a ∈ l -> b ∈ l -> bytes_lt a.1 b.1 = true -> P b = true -> P a = true) -> (k, v) ∈ while P l <-> (k, v) ∈ l /\ P (k, v) = true.
Proof.
  intros Hs. induction Hs as [|x l _ IH Hx]; intros HP; cbn [while]; [split; [by intros ?%not_elem_of_nil|by intros [?%not_elem_of_nil _]]|]. destruct (P x) eqn:Ex.
  - rewrite !elem_of_cons, IH by (intros a b Ha Hb; apply HP; by right). split; [intros [<-|[? ?]]; auto|]. intros [[->|?] ?]; auto.
  - split; [by intros ?%not_elem_of_nil|]. intros [[->|Hin]%elem_of_cons Hp]; [congruence|]. rewrite Forall_forall in Hx. pose proof (Hx _ Hin) as Hlt.
    rewrite (HP x (k, v)) in Ex; [done|by left|by right|done|done].
Qed.
Lemma while_sorted P l : StronglySorted (fun a b => bytes_lt a.1 b.1 = true) l -> StronglySorted (fun a b => bytes_lt a.1 b.1 = true) (while P l).
Proof.
  induction 1 as [|x l Hl IH Hx]; cbn [while]; [constructor|]. destruct (P x); [|constructor]. constructor; [done|]. apply Forall_forall. intros y Hy. rewrite Forall_forall in Hx. apply Hx.
  clear -Hy. induction l as [|z l IH]; cbn [while] in Hy; [by apply not_elem_of_nil in Hy|]. destruct (P z); [|by apply not_elem_of_nil in Hy]. apply elem_of_cons in Hy as [->|Hy]; [by left|right; by apply IH].
Qed.
Lemma below_down limit a b : bytes_lt a.1 b.1 = true -> below limit b = true -> below limit a = true.
Proof. unfold below. apply bytes_lt_trans. Qed.
Lemma bytes_cmp_cons x y a b : bytes_cmp (x :: a) (y :: b) = match x ?= y with Eq => bytes_cmp a b | c => c end.
Proof. done. Qed.
Lemma bytes_lt_cons x y a b : bytes_lt (x :: a) (y :: b) = true <-> x < y \/ x = y /\ bytes_lt a b = true.
Proof. unfold bytes_lt. rewrite bytes_cmp_cons. destruct (Z.compare_spec x y); [|split; [auto with lia|done]|split; [done|lia]]. subst. split; [by right|]. intros [?|[_ ?]]; [lia|done]. Qed.
Lemma bytes_lt_nil a : bytes_lt a [] = false.
Proof. by destruct a. Qed.

(** Between a prefix and a key that has it there are only keys that have it. *)
Lemma prefix_between p a b : bytes_lt a p = false -> bytes_lt a b = true -> p `prefix_of` b -> p `prefix_of` a.
Proof.
  revert a b. induction p as [|x p IH]; intros a b Ha Hab [t ->]; [apply prefix_nil|]. cbn [app] in Hab. destruct a as [|y a]; [done|].
  apply bytes_lt_cons in Hab as [Hlt|[-> Hab]].
  - exfalso. apply not_true_iff_false in Ha. apply Ha, bytes_lt_cons. by left.
  - apply prefix_cons, (IH a (p ++ t)); [|done|by exists t]. apply not_true_iff_false. intros Hl. apply not_true_iff_false in Ha. apply Ha, bytes_lt_cons. auto.
Qed.
Lemma prefix_not_below p k : p `prefix_of` k -> bytes_lt k p = false.
Proof.
  intros [t ->]. induction p as [|x p IH]; [apply bytes_lt_nil|]. apply not_true_iff_false. cbn [app]. intros [?|[_ Hl]]%bytes_lt_cons; [lia|congruence].
Qed.

(** Seeking the prefix gives the entries with the prefix. *)
Lemma seek_prefix d p k v : (k, v) ∈ while (has_prefix p) (db_Seek d p) <-> p `prefix_of` k /\ db_map d !! k = Some v.
Proof.
  rewrite while_elem; [|apply db_Seek_sorted|].
  - rewrite db_Seek_elem. unfold has_prefix. cbn [fst]. rewrite bool_decide_eq_true. split; [by intros ((_ & ?) & ?)|]. intros [Hp Hv]. split; [|done]. split; [by apply prefix_not_below|done].
  - intros [ka va] [kb vb] [Ha _]%db_Seek_elem _ Hlt. unfold has_prefix. cbn [fst] in *. rewrite !bool_decide_eq_true. by apply prefix_between.
Qed.
Lemma seek_all d k v : (k, v) ∈ db_Seek d [] <-> db_map d !! k = Some v.
Proof. rewrite db_Seek_elem, bytes_lt_nil. by split; [intros [_ ?]|intros ?; split]. Qed.

(** ** badger keeps the contract *)

#[local] Instance badger : StoreBackend D := {| kv_Get := badger_Get; kv_Iterate := badger_Iterate; kv_Set := badger_Set; kv_Delete := badger_Delete |}.
Definition badger_laws : BackendLaws D.
Proof.
  refine {| kv := db_map |}.
  - intros d k. cbn. unfold badger_Get. by rewrite db_Get_spec.
  - intros k v d. eexists. split; [done|apply db_Put_spec].
  - intros k d. eexists. split; [done|apply db_Delete_spec].
  - intros d p. cbn. unfold badger_Iterate. destruct (Nat.ltb_spec 0 (length p)).
    + eexists. split; [done|]. split; [intros k v; apply seek_prefix|apply while_sorted, db_Seek_sorted].
    + destruct p; [|cbn in *; lia]. eexists. split; [done|]. split; [|apply db_Seek_sorted]. intros k v. rewrite seek_all. by split; [intros ?; split; [apply prefix_nil|]|intros [_ ?]].
Defined.

(** bolt differs in one thing: a key with an empty value is not found. *)
Lemma bolt_loses_empty_values d k v : k <> [] ->
  exists d', bolt_Set k v d = (Ok tt, d') /\ bolt_Get d' k = (if bool_decide (v = []) then Err ErrNotExistKey else Ok v).
Proof.
  intros Hk. unfold bolt_Set. destruct k as [|c k]; [done|]. cbn [length Nat.eqb]. eexists. split; [done|]. unfold bolt_Get. rewrite db_Get_spec, db_Put_spec, lookup_insert_eq. by destruct v.
Qed.

(** ** The range of a prefix *)

Definition all_255 (p : bytes) : bool := forallb (Z.eqb 255) p.
Lemma add_one_app l x : bytes_ok l -> add_one (l ++ [x]) = if all_255 l then replicate (length l) 0 ++ [u8 (x + 1)] else add_one l ++ [x].
Proof.
  induction 1 as [|b l Hb _ IH]; cbn [app add_one all_255 forallb]; [by destruct (u8 (x + 1) =? 0)|]. unfold byte_ok in Hb.
  assert (Hu : u8 (b + 1) = if 255 =? b then 0 else b + 1) by (unfold u8; change (2 ^ 8) with 256; destruct (Z.eqb_spec 255 b) as [<-|]; [done|apply Z.mod_small; lia]). rewrite Hu. clear Hu.
  destruct (Z.eqb_spec 255 b) as [<-|Hne]; cbn [andb Z.eqb length replicate app].
  - rewrite IH. unfold all_255. by destruct (forallb _ l).
  - by destruct (Z.eqb_spec (b + 1) 0); [lia|].
Qed.
Lemma all_255_reverse l : all_255 (reverse l) = all_255 l.
Proof.
  unfold all_255. apply eq_true_iff_eq. rewrite !forallb_forall. split; intros H x Hx; apply H; rewrite <- !list_elem_of_In in *; by rewrite elem_of_reverse in *.
Qed.
Lemma prefix_end_cons x r : bytes_ok r -> prefix_end (x :: r) = if all_255 r then u8 (x + 1) :: replicate (length r) 0 else x :: prefix_end r.
Proof.
  intros Hr. unfold prefix_end. rewrite reverse_cons, add_one_app by (by apply Forall_reverse). rewrite all_255_reverse. destruct (all_255 r); rewrite reverse_app; cbn [reverse]; [|done].
  rewrite length_reverse, reverse_replicate. done.
Qed.

Lemma not_below_zeros n k : bytes_ok k -> (n <= length k)%nat -> bytes_lt k (replicate n 0) = false.
Proof.
  intros Hk. revert n. induction Hk as [|b k Hb _ IH]; intros n Hn; [destruct n; [done|cbn in Hn; lia]|]. destruct n as [|n]; [done|]. cbn [replicate length] in *. unfold byte_ok in Hb. apply not_true_iff_false.
  intros [?|[_ Hl]]%bytes_lt_cons; [lia|]. rewrite IH in Hl by lia. done.
Qed.
Lemma not_below_255 r k : all_255 r = true -> bytes_ok k -> (length r <= length k)%nat -> bytes_lt k r = false -> r `prefix_of` k.
Proof.
  revert k. induction r as [|x r IH]; intros k Hr Hk Hl Hb; [apply prefix_nil|]. destruct k as [|y k]; [cbn in Hl; lia|]. cbn [all_255 forallb] in Hr. apply andb_prop in Hr as [Hx Hr]. apply Z.eqb_eq in Hx as <-.
  apply Forall_cons in Hk as [Hy Hk]. unfold byte_ok in Hy. apply not_true_iff_false in Hb. assert (y = 255) as -> by (destruct (decide (y = 255)); [done|]; exfalso; apply Hb, bytes_lt_cons; lia).
  apply prefix_cons, IH; [done..|cbn in Hl; lia|]. apply not_true_iff_false. intros Hlt. apply Hb, bytes_lt_cons. auto.
Qed.

(** A key at least as long as the prefix is in the range iff it has the prefix. *)
Lemma in_range_long p k : bytes_ok p -> bytes_ok k -> all_255 p = false -> (length p <= length k)%nat ->
  (bytes_lt k p = false /\ bytes_lt k (prefix_end p) = true) <-> p `prefix_of` k.
Proof.
  intros Hp. revert k. induction Hp as [|x r Hx Hr IH]; [done|]. intros k Hk H255 Hl. unfold byte_ok in Hx. destruct k as [|y k]; [cbn in Hl; lia|]. apply Forall_cons in Hk as [Hy Hk]. cbn [length] in Hl.
  rewrite prefix_end_cons by done. cbn [all_255 forallb] in H255. fold (all_255 r) in H255. rewrite <- not_true_iff_false. destruct (all_255 r) eqn:Er.
  - assert (x <> 255) by (intros ->; done). unfold u8. change (2 ^ 8) with 256. rewrite Z.mod_small by lia. rewrite !bytes_lt_cons. rewrite not_below_zeros by (first [done|lia]). split.
    + intros [H1 [H2|[_ ?]]]; [|done]. assert (y = x) as -> by (destruct (decide (y < x)); [exfalso; apply H1; by left|lia]). apply prefix_cons, not_below_255; [done..|lia|]. apply not_true_iff_false. tauto.
    + intros Hpre. pose proof (prefix_cons_inv_1 _ _ _ _ Hpre) as <-. apply prefix_cons_inv_2 in Hpre. split; [|lia]. intros [?|[_ Hlt]]; [lia|]. by rewrite prefix_not_below in Hlt.
  - rewrite !bytes_lt_cons. specialize (IH k Hk eq_refl ltac:(lia)). rewrite <- not_true_iff_false in IH. split.
    + intros [H1 [?|[<- H2]]]; [exfalso; apply H1; by left|]. apply prefix_cons, IH. tauto.
    + intros Hpre. pose proof (prefix_cons_inv_1 _ _ _ _ Hpre) as <-. apply prefix_cons_inv_2 in Hpre. apply IH in Hpre as [? ?]. split; [|auto]. intros [?|[_ ?]]; [lia|done].
Qed.
(** A shorter key can only be there when the prefix ends with 255. *)
Lemma in_range_short p k : bytes_ok p -> last p <> Some 255 -> (length k < length p)%nat ->
  bytes_lt k p = true \/ bytes_lt k (prefix_end p) = false.
Proof.
  intros Hp. revert k. induction Hp as [|x r Hx Hr IH]; intros k Hlast Hl; [cbn in Hl; lia|]. destruct k as [|y k]; [by left|]. cbn [length] in Hl. rewrite prefix_end_cons by done. destruct r as [|x' r]; [cbn in Hl; lia|].
  change (last (x :: x' :: r)) with (last (x' :: r)) in Hlast. assert (E : all_255 (x' :: r) = false).
  { apply not_true_iff_false. intros E. apply Hlast. unfold all_255 in E. rewrite forallb_forall in E. destruct (last (x' :: r)) as [z|] eqn:Ez; [|by apply last_None in Ez]. apply last_Some_elem_of in Ez. rewrite list_elem_of_In in Ez. specialize (E _ Ez). f_equal. lia. }
  rewrite E. destruct (Z.lt_trichotomy y x) as [?|[->|?]].
  - left. apply bytes_lt_cons. by left.
  - destruct (IH k Hlast ltac:(lia)) as [Hb|Hb]; [left; apply bytes_lt_cons; auto|]. right. apply not_true_iff_false. intros [?|[_ ?]]%bytes_lt_cons; [lia|congruence].
  - right. apply not_true_iff_false. intros [?|[? _]]%bytes_lt_cons; lia.
Qed.
Lemma prefix_end_above p : bytes_ok p -> all_255 p = false -> bytes_lt (prefix_end p) p = false.
Proof.
  intros Hp. induction Hp as [|x r Hx Hr IH]; [done|]. intros H255. unfold byte_ok in Hx. rewrite prefix_end_cons by done. cbn [all_255 forallb] in H255. fold (all_255 r) in H255. apply not_true_iff_false. destruct (all_255 r).
  - assert (x <> 255) by (intros ->; done). unfold u8. change (2 ^ 8) with 256. rewrite Z.mod_small by lia. intros [?|[? _]]%bytes_lt_cons; lia.
  - intros [?|[_ Hlt]]%bytes_lt_cons; [lia|]. by rewrite IH in Hlt.
Qed.

(** C28. Iterating over a prefix by the range up to its successor, as the drivers of
    LevelDB and BuntDB do, visits exactly the entries whose key has the prefix, in
    ascending order, as the contract of a backend demands, for every non-empty prefix
    that is not made of bytes 255 only, provided that its last byte is not 255 or that
    no key shorter than the prefix lies in the range.  (A prefix of bytes 255 only is
    left out: for it the range is empty and nothing is visited.) *)
Theorem range_iteration_exact (d : D) (p : bytes) : bytes_ok p -> all_255 p = false -> map_Forall (fun k _ => bytes_ok k) (db_map d) ->
  last p <> Some 255 \/ (forall k, is_Some (db_map d !! k) -> (length k < length p)%nat -> bytes_lt k p = true \/ bytes_lt k (prefix_end p) = false) ->
  exists l, range_Iterate d p = Ok l /\ (forall k v, (k, v) ∈ l <-> p `prefix_of` k /\ db_map d !! k = Some v) /\
    StronglySorted (fun a b => bytes_lt a.1 b.1 = true) l.
Proof.
  intros Hp H255 Hk Hgap. unfold range_Iterate. destruct (Nat.ltb_spec 0 (length p)); [|by destruct p; [|cbn in *; lia]]. rewrite prefix_end_above by done.
  eexists. split; [done|]. split; [|apply while_sorted, db_Seek_sorted]. intros k v. rewrite while_elem; [|apply db_Seek_sorted|intros a b _ _; apply below_down]. rewrite db_Seek_elem. unfold below. cbn [fst].
  split.
  - intros [[Hlo Hv] Hhi]. split; [|done]. apply in_range_long; [done|by apply (Hk k v)|done| |done]. destruct (Nat.lt_ge_cases (length k) (length p)) as [Hs|]; [|done]. exfalso.
    assert (Hg : bytes_lt k p = true \/ bytes_lt k (prefix_end p) = false) by (destruct Hgap as [Hl|Hg]; [by apply in_range_short|by apply Hg]). destruct Hg; congruence.
  - intros [Hpre Hv]. apply in_range_long in Hpre as Hr; [|done|by apply (Hk k v)|done|by apply prefix_length]. tauto.
Qed.

(** Where the condition fails: after a prefix that ends with 255 a shorter key may be
    visited that does not have it, and a prefix of bytes 255 visits nothing. *)
Lemma range_visits_more d v : db_map d !! [2] = Some v -> exists l, range_Iterate d [1; 255] = Ok l /\ ([2], v) ∈ l.
Proof.
  intros Hv. eexists. split; [done|]. rewrite while_elem; [|apply db_Seek_sorted|intros a b _ _; apply below_down]. by rewrite db_Seek_elem.
Qed.
Lemma range_visits_nothing d n : range_Iterate d (replicate (S n) 255) = Ok [].
Proof.
  unfold range_Iterate. rewrite length_replicate. cbn [Nat.ltb Nat.leb]. assert (Hok : bytes_ok (replicate n 255)) by (apply Forall_replicate; unfold byte_ok; lia). cbn [replicate]. rewrite prefix_end_cons by done.
  assert (E : all_255 (replicate n 255) = true) by (clear; induction n; [done|exact IHn]). by rewrite E.
Qed.
End Drivers.

(** ** A database in memory *)

Definition map_Seek (m : gmap bytes bytes) (k0 : bytes) : list (bytes * bytes) := base.filter (fun kv => bytes_lt kv.1 k0 = false) (map_Iterate m []).
#[local, refine] Instance map_db : OrderedDB (gmap bytes bytes) := {|
  db_map m := m; db_Get m k := m !! k; db_Seek := map_Seek; db_Put k v m := <[k := v]> m; db_Delete k m := delete k m |}.
Proof.
  all: try done.
  - intros m k0 k v. unfold map_Seek. rewrite list_elem_of_filter, elem_of_map_Iterate. cbn [fst]. split; [by intros (? & _ & ?)|]. intros [? ?]. split; [done|]. split; [apply prefix_nil|done].
  - intros m k0. apply strongly_sorted_filter, sorted_map_Iterate.
Defined.
Definition ex_db : gmap bytes bytes := list_to_map [([1; 4], [7]); ([1; 4; 9], [8]); ([2], [9])].

Lemma range_iteration_exact_witness :
  exists l, range_Iterate ex_db [1; 4] = Ok l /\ (forall k v, (k, v) ∈ l <-> [1; 4] `prefix_of` k /\ db_map ex_db !! k = Some v) /\
    StronglySorted (fun a b => bytes_lt a.1 b.1 = true) l.
Proof.
  apply (range_iteration_exact ex_db [1; 4]).
  - by repeat constructor.
  - reflexivity.
  - apply (bool_decide_unpack _). vm_compute. exact Logic.I.
  - by left.
Defined.
