(* ===== verification/ChainInit.v ===== *)
(** * Loading a chain

    [Chain.Init] and [Close] of [core/chain/chain.go]: the genesis is made on an empty
    context, stored on a new store or compared with the stored one, and the processes
    load their state.  The hooks of the processes, of the application, of the consensus
    and of the services are arguments; the context and the store are the ones of the
    other files. *)

From stdpp Require Import base gmap list sorting strings.
From Stdlib Require Import ZArith Lia.
From S2P Require Import Prelude Amount Common Types Context ContextSpec Factory OrderedMap Chain BlockCodec Pile PileDB StoreKey Store StoreSpec StoreBlock.

Definition ErrInvalidGenesisHash : error := cherr "invalid genesis hash".

Section ChainInit.
Context {Tx D : Type} `{SB : !StoreBackend D} `{BL : !BackendLaws D}.
Context `{GZ : Gzip} `{SH : Sha256} `{B58 : Base58} `{!ArrayLenCoder} `{!TypedValue Tx} `{!TypedValue Account} `{!TypedValue Event}.
Context (afc : Factory) `{!Coder Header} `{!Coder TxOut}.
Context `{!Marshaler (gmap Address Z), !Marshaler (gmap Address Account), !Marshaler (gmap bytes bytes),
  !Marshaler (gmap Z UTXO), !Marshaler (gmap Z TxOut), !Marshaler Event}.
Abbreviation storeM := (ST (Store Tx D)).

(** The calls of [Init] of the processes, the application, the consensus and the
    services; [InitGenesis] of the application and of the consensus; the calls of
    [OnLoadChain]. *)
Context (inits : list (res unit)) (app_InitGenesis cs_InitGenesis : ctxM unit) (loads : list (ctxM unit)).

(** The layer of the genesis and the hash of its context. *)
Definition make_genesis : ctxM (ContextData * Hash256) :=
  app_InitGenesis ;;;
  cs_InitGenesis ;;;
  let! sz := StackSize in
  guard (negb (1 <? sz)) ErrDirtyContext ;;;
  let! top := Top in
  let! h := ctx_Hash in
  ret (top, h).
Definition genesis_hash (name : bytes) (chainID : Z) (h : Hash256) : res Hash256 := Hashes [Hash name; Hash [chainID]; h].

(** The part of [Init] that compares or stores the genesis. *)
Definition check_genesis (GenesisHash : Hash256) (top : ContextData) : storeM unit :=
  let! height := store_Height in
  if 0 <? height then
    let! h := store_Hash 0 in
    guard (bool_decide (GenesisHash = h)) ErrInvalidGenesisHash
  else StoreGenesis afc GenesisHash top.

(** [Init]; the flag it sets is the success of the call. *)
Definition chain_Init : storeM unit :=
  for_each inits (fun r => lift r) ;;;
  let! (top, h) := lift (make_genesis NewEmptyContext).1 in
  let! st := gets id in
  let! GenesisHash := lift (genesis_hash (st_name st) (st_chainID st) h) in
  check_genesis GenesisHash top ;;;
  let! st := gets id in
  lift (for_each loads (fun hook => hook) (NewContext (store_loader afc st))).1.

(** [Close]: the store is closed once. *)
Definition chain_Close (isClose : bool) : storeM bool :=
  if isClose then ret true else store_Close ;;; ret true.

Lemma lift_Ok {S A} (r : res A) (s s' : S) x : lift r s = (Ok x, s') -> r = Ok x /\ s' = s.
Proof. unfold lift. intros E. split; congruence. Qed.
Lemma store_Height_pure (st : Store Tx D) r st' : store_Height st = (r, st') -> st' = st.
Proof.
  unfold store_Height, if_open. erewrite bind_ok by reflexivity. unfold id. destruct (st_isClose st); [by intros [= _ <-]|]. erewrite bind_ok by reflexivity. unfold id.
  destruct (sc_cached (st_cache st)); [by intros [= _ <-]|]. unfold bind, attempt, View. destruct (st_db st) as [d|]; [|by intros [= _ <-]]. destruct (res_bind (kv_Get d tagHeight) BytesToUint32); by intros [= _ <-].
Qed.

(** After a genesis was stored the store answers with its hash at height 0. *)
Lemma stored_genesis_hash G top (st st' : Store Tx D) : StoreGenesis afc G top st = (Ok tt, st') -> store_Hash 0 st' = (Ok G, st').
Proof.
  unfold StoreGenesis, if_open. erewrite bind_ok by reflexivity. unfold id. destruct (st_isClose st) eqn:Ec; [done|]. intros E. apply bind_ok_inv in E as (height & st1 & Eh & E). apply store_Height_pure in Eh as ->.
  destruct (0 <? height); [done|]. apply bind_ok_inv in E as (s & st2 & Es & E). inv Es. apply bind_ok_inv in E as ([] & st3 & Eu & E). unfold modify in E. injection E as <-.
  assert (Hopen : st_isClose st3 = false).
  { destruct (st_cdb st2) as [c|]; [apply bind_ok_inv in Eu as ([] & st4 & Ei & Eu)|].
    - assert (H4 : st_isClose st4 = false).
      { unfold ignoring, attempt, bind, on_cdb in Ei. destruct (st_cdb st2) as [c'|] eqn:Ec2; [|done]. destruct (db_Init G c') as [[?|e|?] c2]; [by inv Ei| |done]. destruct (bool_decide _); [by inv Ei|done]. }
      unfold Update in Eu. destruct (st_db st4); [|done]. match type of Eu with (match ?x with _ => _ end) = _ => destruct x as [[?|?|?] ?] end; by inv Eu.
    - unfold Update in Eu. destruct (st_db st2); [|done]. match type of Eu with (match ?x with _ => _ end) = _ => destruct x as [[?|?|?] ?] end; by inv Eu. }
  unfold store_Hash, if_open. erewrite bind_ok by reflexivity. unfold id. cbn [st_isClose set_storecache]. rewrite Hopen. done.
Qed.

(** A chain that was loaded has the genesis of its application: [Init] succeeds only
    when the hash of the genesis it makes is the one the store has at height 0, either
    because a store with blocks answered with it, or because it has just been stored;
    and nothing is stored over a chain that has blocks. *)
Theorem loaded_chain_has_its_genesis (st st' : Store Tx D) : chain_Init st = (Ok tt, st') ->
  exists top h G height, (make_genesis NewEmptyContext).1 = Ok (top, h) /\
    genesis_hash (st_name st) (st_chainID st) h = Ok G /\ store_Height st = (Ok height, st) /\
    (if 0 <? height then store_Hash 0 st = (Ok G, st') else StoreGenesis afc G top st = (Ok tt, st') /\ store_Hash 0 st' = (Ok G, st')).
Proof.
  intros E. unfold chain_Init in E. apply bind_ok_inv in E as ([] & st1 & Ei & E). assert (st1 = st) as ->.
  { clear E. revert st Ei. induction inits as [|r l IH]; intros st Ei; cbn [for_each] in Ei; [by inv Ei|]. apply bind_ok_inv in Ei as ([] & st2 & Er & Ei). apply lift_Ok in Er as [_ ->]. by apply IH. }
  apply bind_ok_inv in E as ([top h] & st1 & Em & E). apply lift_Ok in Em as [Em ->]. apply bind_ok_inv in E as (s & st1 & Es & E). injection Es as <- <-. unfold id in E.
  apply bind_ok_inv in E as (G & st1 & EG & E). apply lift_Ok in EG as [EG ->]. apply bind_ok_inv in E as ([] & st1 & Ek & E). apply bind_ok_inv in E as (s & st2 & Es & E). injection Es as _ <-. apply lift_Ok in E as [_ ->].
  unfold check_genesis in Ek. apply bind_ok_inv in Ek as (height & st2 & Eh & Ek). pose proof (store_Height_pure _ _ _ Eh) as ->. exists top, h, G, height. split; [done|]. split; [done|]. split; [done|]. destruct (0 <? height).
  - apply bind_ok_inv in Ek as (h0 & st2 & E0 & Ek). unfold guard in Ek. case_bool_decide as HG; [|done]. inv Ek. done.
  - split; [done|]. by eapply stored_genesis_hash.
Qed.

(** At height 0 the stored genesis is not compared: another one is stored over it, and
    what only the first had stays. *)
Lemma second_genesis_is_accepted (st : Store Tx D) d G top : store_ok st d -> st_cdb st = None -> store_Height st = (Ok 0, st) -> layer_storable afc top ->
  exists st' d', check_genesis G top st = (Ok tt, st') /\ st_db st' = Some d' /\
    forall q, kv d' !! q = patched (patch_seq (patch_set (toHeightHashKey 0) G) (patch_seq (patch_set (toHashHeightKey G) (Uint32ToBytes 0)) (patch_seq (patch_set tagHeight (Uint32ToBytes 0)) (p_layer afc top)))) (fun q => kv d !! q) q.
Proof.
  intros Hok Hc Hh Hls. unfold check_genesis. erewrite bind_ok by exact Hh. change (0 <? 0) with false. cbn match. unfold StoreGenesis. rewrite (open_runs _ _ Hok). erewrite bind_ok by exact Hh. change (0 <? 0) with false. cbn match.
  erewrite bind_ok by reflexivity. unfold id. rewrite Hc.
  set (m := bind (kv_Set (toHeightHashKey 0) G) _).
  assert (Hacts : acts m (patch_seq (patch_set (toHeightHashKey 0) G) (patch_seq (patch_set (toHashHeightKey G) (Uint32ToBytes 0)) (patch_seq (patch_set tagHeight (Uint32ToBytes 0)) (p_layer afc top))))).
  { repeat (apply acts_bind; [apply acts_Set|]). by apply apply_acts. }
  destruct (Update_acts m _ st d Hacts (so_db _ _ Hok)) as (d' & Eu & Hd'). erewrite bind_ok by exact Eu. eexists _, d'. split; [done|]. split; [done|exact Hd'].
Qed.
End ChainInit.
